(* ===== verification/_CoqProject ===== *)
-Q . S2P
Prelude.v
BlockQueue.v
Request.v
RequestQueue.v
EncoderCache.v
DuplexStream.v
DuplexServer.v
DuplexSession.v
BlockHash.v
BlockPool.v
SingleType.v
Coordinator.v
KVCacheManager.v
KVCacheInv.v
SchedulerData.v
Scheduler.v
SchedulerInv.v
SchedulerRun.v
SchedulerUpdate.v
SchedulerKV.v
SchedulerSystem.v
SchedulerLive.v
Serving.v
ServingDemo.v
SchedulerFaults.v
OmniGeneration.v
GenerationProofs.v
GenerationServing.v
OmniAR.v
ARProofs.v
ARDemo.v
KVConfig.v
KVConfigProofs.v
EngineMemory.v
BlockTable.v
InputBatch.v
InputBatchProofs.v
PersistentBatch.v
BatchReorder.v
ModelRunner.v
RunnerProofs.v
RunnerUpdate.v
RunnerStep.v
ModelInputs.v
InputsProofs.v
WorkerRun.v
WorkerSystem.v
WorkerDemo.v
WorkerFaults.v
Offload.v
OffloadProofs.v
OffloadSafety.v
OffloadConnector.v
ConnectorProofs.v
ConnectorSafety.v
OffloadDemo.v
