(* ===== verification/Prelude.v ===== *)
(** * Verification of the serving core of vLLM and of the duplex speech server

    The repository serves an audio-to-audio model: [src/vllm] is the inference
    engine, [src/vllm-omni] chains several engines into a pipeline (thinker,
    talker, vocoder), and [vllm_omni/entrypoints/lgws] is the websocket server
    that streams a spoken reply while it is generated. The development models
    the parts whose correctness the rest depends on: how much KV memory there is
    and who owns which block of it, which cached block may be reused for which
    tokens, which tokens of which request are computed in a step, what the worker
    makes of the scheduler's message, what is sent to which client, and how the
    speech of a turn is cut, trimmed, counted and delivered.

    A step of the engine: the scheduler takes requests from its queues, gets
    blocks for them from the KV-cache manager and sends a [SchedulerOutput]; the
    worker enters it in its states and its persistent batch, computes the inputs
    of the model, samples, and returns the tokens; the scheduler enters these,
    ends requests and sends outputs to the clients.

    ** Files

    Foundation:
    - [Prelude]: Python statements as a state-and-exception monad [py] (an
      exception keeps the state reached), loops, a weakest-precondition
      calculus [wp] under which a statement completes without an exception, the
      tactics that run it, and lemmas on counting occurrences.

    KV memory ([vllm/v1/core]):
    - [BlockQueue]: [FreeKVCacheBlockQueue] of [kv_cache_utils.py], a doubly
      linked list threaded through the block objects; the refinement to a list.
    - [BlockHash]: block hashes for prefix caching ([kv_cache_utils.py]): keys
      with group ids, extra keys, the incremental hasher of a request and the
      regrouping of hashes to larger blocks.
    - [BlockPool]: [block_pool.py], reference counts, the free queue and the map
      from hashes to blocks ([Module BlockMap]), events and metrics.
    - [SingleType]: [single_type_kv_cache_manager.py], block tables and the
      cached-prefix search of each attention type; [Coordinator]:
      [kv_cache_coordinator.py], one manager per KV-cache group over a shared
      pool, in its three variants; [KVCacheManager]: [kv_cache_manager.py].
    - [KVCacheInv]: the invariant that ties reference counts to block tables, and
      the theorems on whole runs of the manager.
    - [KVConfig]: from the layers of a model and the memory of the workers to
      groups, tensors and the number of blocks ([kv_cache_utils.py],
      [kv_cache_interface.py]); [KVConfigProofs] and [EngineMemory]: what that
      configuration promises to the workers and to the scheduler.

    Requests and scheduling ([vllm/v1/request.py], [vllm/v1/core/sched]):
    - [Request]: [request.py] and the stop conditions of [sched/utils.py].
    - [RequestQueue]: [request_queue.py] with the [heapq] operations it uses; the
      class [RequestQueue] is the interface, [RequestQueueLaws] what it promises,
      with an instance for each policy.
    - [EncoderCache]: [encoder_cache_manager.py] and the scheduler methods that
      plan, allocate and release encoder inputs.
    - [SchedulerData] and [Scheduler]: [scheduler.py] and [async_scheduler.py], the
      whole pass, the update from the model's output, admission, abortion, reset.
    - [SchedulerInv] (the invariant, the laws [KVCacheLaws] and
      [CollaboratorsLaws] the scheduler is verified against, and the two loops of a
      pass), [SchedulerRun] (the end of a pass), [SchedulerUpdate] (everything
      between passes), [SchedulerKV] (the KV-cache manager satisfies the laws),
      [SchedulerSystem] (reachable states with passes in flight), [SchedulerLive]
      (progress), [Serving] (the theorems on the composed engine), [ServingDemo] (an
      engine on which they are applied), [SchedulerFaults] (runs outside their
      hypotheses).

    Schedulers of vLLM-Omni ([vllm_omni/core/sched]):
    - [OmniGeneration]: [omni_generation_scheduler.py], stages that answer in one
      step; [GenerationProofs] and [GenerationServing]: invariant and theorems.
    - [OmniAR]: [omni_ar_scheduler.py], which chains the one-step requests of the
      talker by class-level dictionaries; [ARProofs]: theorems; [ARDemo]: a run.

    Offloading to host memory ([vllm/v1/kv_offload], [offloading_connector.py]):
    - [Offload]: the host's block store ([backends/cpu.py]) and the managers
      ([lru_manager.py], [arc_manager.py]) behind the class [OffloadingManager];
      [OffloadProofs], [OffloadSafety]: invariant and theorems.
    - [OffloadConnector]: the connector on the scheduler's and on the worker's
      side; [ConnectorProofs] (the worker), [ConnectorSafety] (the scheduler):
      theorems; [OffloadDemo]: a run on which they are applied.

    The worker ([vllm/v1/worker]):
    - [BlockTable]: [block_table.py], block tables and slot mapping at the width of
      the arrays; [InputBatch]: [gpu_input_batch.py] with the update builder;
      [InputBatchProofs], [PersistentBatch]: the batch refines a map of rows.
    - [BatchReorder]: the reordering that attention backends ask for.
    - [ModelRunner]: [_update_states] and [_bookkeeping_sync] of
      [gpu_model_runner.py]; [ModelInputs]: [_prepare_inputs]; [RunnerProofs],
      [RunnerUpdate], [RunnerStep], [InputsProofs]: their properties.
    - [WorkerRun]: [execute_model] and [sample_tokens] around the forward pass;
      [WorkerSystem]: the theorems on any number of steps; [WorkerDemo]: a worker
      on which they are applied; [WorkerFaults]: requests that do not get what
      they ask for.

    The speech server ([vllm_omni/entrypoints/lgws]):
    - [DuplexStream]: the workers of [generate_realtime_final] in
      [duplex_engine.py] between talker, vocoder and server, and the chunks the vocoder
      decodes ([qwen3_omni_code2wav.py]); [DuplexServer]:
      [queue_generator] and [process_stream_output] of [server.py];
      [DuplexSession]: sessions, packets, utterances, barge-in and stopping.

    State is a record per object with the source's attribute names; a method is
    a computation of [py] on the record of its object, and a component held in
    another is run through [py_zoom]. Shared objects (blocks, the pool, requests,
    lists of output tokens) are named by identity (a block id, [id(self)], a
    location) and live in one place, so aliasing is that of the source.

    ** What the theorems show

    - The engine (C1 to C4, C9 to C11): with any number of passes in flight no
      operation raises, the invariant of scheduler and KV memory holds, a client is
      sent exactly the tokens of its request, a pass keeps within its limits, the
      first request in line advances, every request is served to its end, and an
      abort releases everything.
    - The worker (C5, C6, C23, C24), for outputs that keep the promises of [step_ok]:
      its states and its batch are what the scheduler's outputs and the sampled tokens
      say, the model is given for every scheduled token its id, its position and its
      slot, and the reordering of the batch ends with the regions in order and the
      requests as they were (allowed-token masks apart, see [WorkerFaults]).
    - KV memory (C7, C8, C25, C26): in every state reachable by allocations, releases,
      lookups and the other calls of the manager a block's reference count is the
      number of block-table slots that hold it and the free queue is exactly the
      blocks nobody holds; allocation is refused exactly when blocks are short, and
      otherwise gives exactly the missing blocks, without raising.
    - The size of KV memory (C12, C13, C32): the tensors of a worker fit its memory,
      memory for one request of the model length and one more block lets such a
      request be scheduled, and the length that is suggested otherwise is the
      largest that fits.
    - Stages of vLLM-Omni (C14 to C17, C35): a generation stage ends every request
      with its first output and serves every batch to the end; the lockers of the
      talker stay consistent also when an operation raises, a step of the talker is
      told what the step before it left (a token 0 apart), and other stages are served
      as by the base class, under the conditions C35 names.
    - Offloading (C18 to C22, C34): host memory is accounted for under the LRU
      policy, the oldest unused blocks are evicted, the connector copies the right
      blocks to the right places, offers exactly what can be loaded, loads back what
      was stored, and reports transfers when they are done.
    - Prefix caching (C27, C28, C33, C39): a hit is sound and is the longest there is,
      under full and under sliding-window attention, and for text requests hashes do
      not depend on how tokens arrive.
    - Queues and the encoder cache (C31, C38): queues refine the policy's list, the
      encoder cache never over-commits, also with preemptions between the plan and the
      allocation of a request.
    - The speech server (C29, C30, C36, C37): the streamed audio covers the code rows
      of the reply, each once and in order, a turn is marked finished exactly once, and a client is heard and
      answered completely.
    - Where the code does not do what it means to (C40, offloading under the adaptive
      policy): [SchedulerFaults], [WorkerFaults], [ARDemo], [GenerationServing],
      [KVCacheInv] and the files of the speech server hold further theorems that
      exhibit such behaviour on the model.

    ** Loops, fuel and parameters

    [for] loops are structural. [while] loops carry a bound that is part of the
    definition, and running out is the exception [Diverges] or an unfinished value.
    The bounds are: for the walk over the free queue the number of linked blocks; for
    the hasher the number of tokens; for the alignment loop of a search the length of
    the hit; for sift operations the position or the heap's length; for the loops of a
    pass the number of running or waiting requests, and for preemption within it the
    number of running ones; for the search of a model length that length; for
    condensing the batch the number of its holes; for a cycle of the reordering the
    number of rows to move; for the vocoder's chunks the number of rows. The theorems that give results show that no bound runs
    out. Integers of Python are unbounded and are [Z] (or [nat] where they index a
    list and cannot be negative); group ids are packed into four bytes and
    [to_bytes] raises beyond; block numbers and slots of the worker have the width
    of their arrays, and the counts and numbers of host blocks that of their C
    fields. Floats of the language are IEEE binary64 numbers ([SpecFloat]).

    Parameters stand for what is configured or is not in the repository: the hash
    function and its seed (assumed free of collisions where a theorem says so), the
    KV connector and the manager of grammars (class [Collaborators]), the forward
    pass, the sampler and the model's own functions, the submission and the end of
    transfers between GPU and host, the size of a dtype, the network of the
    vocoder (its layers are library modules; the last part of C29 supposes 1920 samples
    per code row, as the duplex engine does), and the clock. The stages of a turn answer
    requests in the order of submission.

    ** Not modelled

    Remote encoder caches; KV connectors other than the offloading one, and the copies
    between GPU and host of that one; logprobs; draft proposers; attention metadata, multimodal encoders, graph capture
    and warm-up in the worker; the stage processes and connectors of vLLM-Omni; the
    thinker-to-talker worker [worker_0to1], whose content is tensor slicing between
    two models; the HTTP entry points; and everything that runs on the accelerator.

    The theorems on the engine are about a decoder-only model with one full-attention
    group, synchronous scheduling, no KV connector, no draft tokens and no limit on LoRA
    adapters, and about requests that stay below the model length also with their
    [min_tokens], without multimodal inputs when prefix caching is on; progress and
    termination (C4, C10, C15) add the conditions they name; those on the
    worker about the only pipeline rank. The invariant of the scheduler is not stated
    for batches with steps of the talker: the blocks such a step is sent are not
    those the manager holds for it ([ARDemo.sessions_share_blocks]). The theorems on offloading are about the LRU
    policy and, for the scheduler's side, about a call at a time. *)
From stdpp Require Import gmap strings list fin_maps.
From Stdlib Require Import ZArith Lia.

(** ** Python exceptions and effectful computations

    A Python statement either completes, with a value and a new state, or
    raises; the state reached when it raises is kept, because Python does not
    roll back what was already written. *)
Inductive exn :=
| ValueError | RuntimeError | AssertionError | IndexError | KeyError
| NotImplementedError | OverflowError | AttributeError | TypeError | StopIteration | ZeroDivisionError | UnboundLocalError
| Diverges (** not an exception: the loop bound of the model ran out *).

#[export] Instance exn_eq_dec : EqDecision exn.
Proof. solve_decision. Defined.

Inductive outcome (S A : Type) :=
| Ret (a : A) (s : S)
| Raise (e : exn) (s : S).
Arguments Ret {S A} a s.
Arguments Raise {S A} e s.

Definition py (S A : Type) : Type := S -> outcome S A.

Definition py_ret {S A} (a : A) : py S A := fun s => Ret a s.
Definition py_bind {S A B} (m : py S A) (k : A -> py S B) : py S B :=
  fun s => match m s with Ret a s' => k a s' | Raise e s' => Raise e s' end.
Definition py_raise {S A} (e : exn) : py S A := fun s => Raise e s.
Definition py_get {S} : py S S := fun s => Ret s s.
Definition py_gets {S A} (f : S -> A) : py S A := fun s => Ret (f s) s.
Definition py_modify {S} (f : S -> S) : py S unit := fun s => Ret tt (f s).
Definition py_assert {S} (b : bool) : py S unit :=
  if b then py_ret tt else py_raise AssertionError.
(** Unwrapping an optional value, with the exception Python raises on None or
    on a missing element. *)
Definition py_unwrap {S A} (e : exn) (o : option A) : py S A :=
  match o with Some a => py_ret a | None => py_raise e end.

(** [for x in l: body(x)] *)
Fixpoint py_for {S A} (l : list A) (body : A -> py S unit) : py S unit :=
  match l with
  | [] => py_ret tt
  | x :: l' => py_bind (body x) (fun _ => py_for l' body)
  end.

(** A method of a component run on the component held inside a larger object. *)
Definition py_zoom {T S A} (get : T -> S) (set : S -> T -> T) (m : py S A) : py T A :=
  fun t => match m (get t) with
           | Ret a s' => Ret a (set s' t)
           | Raise e s' => Raise e (set s' t)
           end.

Declare Scope py_scope.
Delimit Scope py_scope with py.
Notation "'let!' x := m 'in' k" := (py_bind m (fun x => k))
  (at level 10, x name, m at level 100, k at level 200) : py_scope.
Notation "'let!' ' p := m 'in' k" := (py_bind m (fun p => k))
  (at level 10, p pattern, m at level 100, k at level 200) : py_scope.
Notation "'do!' m ; k" := (py_bind m (fun _ => k))
  (at level 10, m at level 100, k at level 200) : py_scope.
Open Scope py_scope.

(** ** Weakest preconditions

    [wp m Q s]: run from [s], [m] completes without an exception and its value
    and final state satisfy [Q]. Termination and absence of exceptions are part
    of the statement. *)
Definition wp {S A} (m : py S A) (Q : A -> S -> Prop) (s : S) : Prop :=
  match m s with Ret a s' => Q a s' | Raise _ _ => False end.

Section wp_laws.
Context {S : Type}.

Lemma wp_iff {A} (m : py S A) Q s :
  wp m Q s <-> exists a s', m s = Ret a s' /\ Q a s'.
Proof.
  unfold wp. split.
  - destruct (m s) as [a s'|]; [eauto | done].
  - intros (a & s' & -> & HQ). exact HQ.
Qed.

Lemma wp_ret {A} (a : A) (Q : A -> S -> Prop) s : Q a s -> wp (py_ret a) Q s.
Proof. exact id. Qed.

Lemma wp_bind {A B} (m : py S A) (k : A -> py S B) Q s :
  wp m (fun a s' => wp (k a) Q s') s -> wp (py_bind m k) Q s.
Proof. unfold wp, py_bind. by destruct (m s). Qed.

Lemma wp_get (Q : S -> S -> Prop) s : Q s s -> wp py_get Q s.
Proof. exact id. Qed.

Lemma wp_gets {A} (f : S -> A) Q s : Q (f s) s -> wp (py_gets f) Q s.
Proof. exact id. Qed.

Lemma wp_modify (f : S -> S) (Q : unit -> S -> Prop) s :
  Q tt (f s) -> wp (py_modify f) Q s.
Proof. exact id. Qed.

Lemma wp_assert (b : bool) (Q : unit -> S -> Prop) s :
  b = true -> Q tt s -> wp (py_assert b) Q s.
Proof. by intros ->. Qed.

Lemma wp_unwrap {A} e (o : option A) a (Q : A -> S -> Prop) s :
  o = Some a -> Q a s -> wp (py_unwrap e o) Q s.
Proof. by intros ->. Qed.

Lemma wp_mono {A} (m : py S A) (P Q : A -> S -> Prop) s :
  wp m P s -> (forall a s', P a s' -> Q a s') -> wp m Q s.
Proof. unfold wp. destruct (m s); auto. Qed.

(** A fact proved by [wp] transfers to the outcome of a run. *)
Lemma wp_outcome {A} (m : py S A) Q s a s' : wp m Q s -> m s = Ret a s' -> Q a s'.
Proof. unfold wp. intros H E. by rewrite E in H. Qed.

(** The loop rule: an invariant indexed by the elements already visited. *)
Lemma wp_for {A} (body : A -> py S unit) (I : list A -> S -> Prop) todo visited s :
  I visited s ->
  (forall pre x post s, todo = pre ++ x :: post -> I (visited ++ pre) s ->
     wp (body x) (fun _ s' => I (visited ++ pre ++ [x]) s') s) ->
  wp (py_for todo body) (fun _ s' => I (visited ++ todo) s') s.
Proof.
  revert visited s. induction todo as [|x todo IH]; intros visited s HI Hstep; simpl.
  - apply wp_ret. by rewrite app_nil_r.
  - apply wp_bind. eapply wp_mono.
    { apply (Hstep [] x todo s); [done|]. by rewrite app_nil_r. }
    simpl. intros _ s' HI'.
    replace (visited ++ x :: todo) with ((visited ++ [x]) ++ todo)
      by (by rewrite <-app_assoc).
    apply IH; [done|].
    intros pre y post s1 -> HI1. rewrite <-!app_assoc. simpl.
    apply (Hstep (x :: pre) y post); [done|]. by rewrite <-app_assoc in HI1.
Qed.

Lemma py_for_app {A} (body : A -> py S unit) l1 l2 s s1 :
  py_for l1 body s = Ret tt s1 -> py_for (l1 ++ l2) body s = py_for l2 body s1.
Proof.
  revert s. induction l1 as [|x l1 IH]; intros s; simpl; [by intros [= ->]|].
  unfold py_bind. destruct (body x s) as [[] s'|]; [apply IH|done].
Qed.

Lemma wp_zoom {T A} (get : T -> S) (set : S -> T -> T) (m : py S A) Q t :
  wp m (fun a s' => Q a (set s' t)) (get t) -> wp (py_zoom get set m) Q t.
Proof. unfold wp, py_zoom. by destruct (m (get t)). Qed.

End wp_laws.

(** Computations that only read: whatever they return or raise, the state is
    left as it was. *)
Class Reads {S A} (m : py S A) : Prop :=
  reads s : match m s with Ret _ s' | Raise _ s' => s' = s end.

#[export] Instance reads_ret {S A} (a : A) : Reads (S := S) (py_ret a).
Proof. by intros s. Qed.
#[export] Instance reads_raise {S A} e : Reads (S := S) (A := A) (py_raise e).
Proof. by intros s. Qed.
#[export] Instance reads_gets {S A} (f : S -> A) : Reads (py_gets f).
Proof. by intros s. Qed.
#[export] Instance reads_assert {S} b : Reads (S := S) (py_assert b).
Proof. by destruct b; intros s. Qed.
#[export] Instance reads_unwrap {S A} e (o : option A) : Reads (S := S) (py_unwrap e o).
Proof. by destruct o; intros s. Qed.
#[export] Instance reads_bind {S A B} (m : py S A) (k : A -> py S B) :
  Reads m -> (forall a, Reads (k a)) -> Reads (py_bind m k).
Proof.
  intros Hm Hk s. specialize (Hm s). unfold py_bind. destruct (m s) as [a s'|e s']; [|done].
  subst s'. apply Hk.
Qed.
(** A computation that first takes the whole state may be given the state. *)
Lemma reads_get {S A} (k : S -> py S A) : (forall s, Reads (k s)) -> Reads (py_bind py_get k).
Proof. intros Hk s. exact (Hk s s). Qed.

Lemma reads_returns {S A} (m : py S A) `{!Reads m} s a s' : m s = Ret a s' -> s' = s.
Proof. intros E. specialize (reads s). by rewrite E. Qed.

(** Goals about the block pool that hold by reflexivity of its preorders. *)
Create HintDb pool.
(** Equations that push an occurrence count through a list. *)
Create HintDb occ.

(** Symbolic execution of one step of a computation under [wp]. The step is
    chosen by the syntax of the computation; a field accessor (an abbreviation
    of [py_gets] or [py_modify]) is stepped over by unfolding it. *)
Ltac wp_step :=
  cbv beta;
  lazymatch goal with
  | |- wp (py_bind _ _) _ _ => apply wp_bind
  | |- wp (py_ret _) _ _ => apply wp_ret
  | |- wp (py_gets _) _ _ => apply wp_gets
  | |- wp py_get _ _ => apply wp_get
  | |- wp (py_modify _) _ _ => apply wp_modify
  | |- wp (py_assert _) _ _ => apply wp_assert; [first [done | lia]|]
  | |- wp (py_unwrap _ (Some _)) _ _ => apply wp_ret
  | |- wp (py_unwrap _ _) _ _ => eapply wp_unwrap; [eassumption|]
  | |- wp _ _ _ => first [apply wp_gets | apply wp_modify]
  end.
Ltac wp_run := repeat wp_step; simpl.

(** ** Integers *)

(** [vllm/utils/math_utils.py]: [cdiv(a, b) = -(a // -b)]. *)
Definition cdiv (a b : Z) : Z := - (a / - b).

Lemma cdiv_spec a b : (0 < b)%Z -> (b * (cdiv a b - 1) < a <= b * cdiv a b)%Z.
Proof.
  intros Hb. unfold cdiv.
  pose proof (Z.div_mod a (- b) ltac:(lia)). pose proof (Z.mod_neg_bound a (- b) ltac:(lia)).
  nia.
Qed.

(** ** Lists *)

Lemma NoDup_reverse {A} (l : list A) : NoDup l -> NoDup (reverse l).
Proof. by rewrite reverse_Permutation. Qed.

(** Number of occurrences of a block id in a list. *)
Definition occ (b : Z) (l : list Z) : Z := Z.of_nat (count_occ Z.eq_dec l b).

Lemma occ_nil b : occ b [] = 0%Z.
Proof. done. Qed.
Lemma occ_cons b x l : occ b (x :: l) = ((if decide (x = b) then 1 else 0) + occ b l)%Z.
Proof. unfold occ. simpl. destruct (Z.eq_dec x b), (decide (x = b)); try done; lia. Qed.
Lemma occ_app b l1 l2 : occ b (l1 ++ l2) = (occ b l1 + occ b l2)%Z.
Proof. unfold occ. rewrite count_occ_app. lia. Qed.
#[export] Hint Rewrite occ_nil occ_cons occ_app : occ.
Lemma occ_nonneg b l : (0 <= occ b l)%Z.
Proof. unfold occ. lia. Qed.
Lemma occ_pos b l : (0 < occ b l)%Z <-> b ∈ l.
Proof.
  unfold occ. rewrite list_elem_of_In, (count_occ_In Z.eq_dec). lia.
Qed.
Lemma occ_zero b l : occ b l = 0%Z <-> b ∉ l.
Proof. rewrite <-occ_pos. pose proof (occ_nonneg b l). lia. Qed.
Lemma occ_nodup b l : NoDup l -> occ b l = if decide (b ∈ l) then 1%Z else 0%Z.
Proof.
  induction 1 as [|x l Hx Hnd IH]; [by rewrite decide_False by set_solver|].
  rewrite occ_cons, IH. repeat case_decide; set_solver by lia.
Qed.
Lemma NoDup_occ l : NoDup l <-> forall b, (occ b l <= 1)%Z.
Proof.
  rewrite NoDup_ListNoDup, (NoDup_count_occ Z.eq_dec). unfold occ. split; intros H b; specialize (H b); lia.
Qed.
Lemma occ_reverse b l : occ b (reverse l) = occ b l.
Proof.
  induction l as [|x l IH]; [done|]. rewrite reverse_cons. autorewrite with occ. rewrite IH. lia.
Qed.
#[export] Hint Rewrite occ_reverse : occ.
Lemma occ_filter_nonzero b l :
  b <> 0%Z -> occ b (List.filter (fun x => negb (x =? 0)%Z) l) = occ b l.
Proof.
  intros Hb. induction l as [|x l IH]; [done|]. simpl.
  destruct (x =? 0)%Z eqn:E; simpl; rewrite !occ_cons, ?IH; [|done].
  apply Z.eqb_eq in E. rewrite decide_False by congruence. lia.
Qed.
Lemma filter_andb {A} (f g : A -> bool) l :
  List.filter (fun x => f x && g x) l = List.filter g (List.filter f l).
Proof.
  induction l as [|x l IH]; [done|]. simpl. destruct (f x), (g x) eqn:E; simpl; rewrite ?E, ?IH; done.
Qed.

(** ** Loops that collect results *)

(** [[f(x) for x in l]], in order, the state threaded through. *)
Fixpoint py_map {S A B} (f : A -> py S B) (l : list A) : py S (list B) :=
  match l with
  | [] => py_ret []
  | x :: l' => let! y := f x in let! ys := py_map f l' in py_ret (y :: ys)
  end.

(** A pure computation that may raise. *)
Definition py_lift {S A} (r : exn + A) : py S A :=
  match r with inl e => py_raise e | inr a => py_ret a end.
#[export] Instance reads_lift {S A} (r : exn + A) : Reads (S := S) (py_lift r).
Proof. by destruct r; intros s. Qed.

(** ** Dictionaries in insertion order *)

Section dict.
Context {K V : Type} `{EqDecision K}.

Fixpoint dict_get (k : K) (d : list (K * V)) : option V :=
  match d with
  | [] => None
  | (k', v) :: d' => if decide (k' = k) then Some v else dict_get k d'
  end.
(** [d[k] = v]: in place when the key is there, at the end otherwise. *)
Fixpoint dict_set (k : K) (v : V) (d : list (K * V)) : list (K * V) :=
  match d with
  | [] => [(k, v)]
  | (k', v') :: d' => if decide (k' = k) then (k, v) :: d' else (k', v') :: dict_set k v d'
  end.
(** [d.pop(k, None)], the dict that is left *)
Definition dict_del (k : K) (d : list (K * V)) : list (K * V) :=
  List.filter (fun e => negb (bool_decide (e.1 = k))) d.

Lemma dict_get_in (k : K) (v : V) d : NoDup d.*1 -> (k, v) ∈ d -> dict_get k d = Some v.
Proof.
  induction d as [|[k' v'] d IH]; [set_solver|]. simpl. intros [Hk Hnd]%NoDup_cons Hin. case_decide as E.
  - subst. apply elem_of_cons in Hin as [[= ->]|Hin]; [done|].
    destruct Hk. change k with (k, v).1. by apply list_elem_of_fmap_2.
  - apply IH; [done|]. apply elem_of_cons in Hin as [[= ??]|]; [congruence|done].
Qed.
End dict.

Lemma dict_get_some {K V} `{EqDecision K} (k : K) (d : list (K * V)) : is_Some (dict_get k d) <-> k ∈ map fst d.
Proof.
  induction d as [|[k' v] d IH]; simpl; [split; [by intros []|by intros ?%not_elem_of_nil]|].
  rewrite elem_of_cons. case_decide as E; [subst; split; [by left|done]|]. rewrite IH. split; [by right|]. intros [?|?]; [congruence|done].
Qed.

Section dict_lemmas.
Context {A V : Type} `{EqDecision A}.
Implicit Types d : list (A * V).
Lemma dict_set_new k v d : k ∉ d.*1 -> dict_set k v d = d ++ [(k, v)].
Proof.
  induction d as [|[k' v'] d IH]; [done|]. simpl. intros Hk. rewrite decide_False by set_solver.
  by rewrite IH by set_solver.
Qed.
Lemma dict_del_in k d e : e ∈ dict_del k d <-> e ∈ d /\ e.1 <> k.
Proof.
  unfold dict_del. rewrite !list_elem_of_In, filter_In, negb_true_iff, bool_decide_eq_false. done.
Qed.
Lemma dict_del_absent k d : k ∉ d.*1 -> dict_del k d = d.
Proof.
  intros Hk. unfold dict_del. apply List.forallb_filter_id, forallb_forall.
  intros [x y] Hx. simpl. rewrite bool_decide_false; [done|]. intros ->. destruct Hk.
  change k with (k, y).1. apply list_elem_of_fmap_2, list_elem_of_In, Hx.
Qed.
Lemma dict_del_perm k v d : NoDup d.*1 -> (k, v) ∈ d -> d ≡ₚ (k, v) :: dict_del k d.
Proof.
  induction d as [|[k' v'] d IH]; [set_solver|]. intros [Hk Hnd]%NoDup_cons Hin.
  unfold dict_del. simpl. fold (dict_del k d).
  apply elem_of_cons in Hin as [[= -> ->]|Hin].
  - rewrite bool_decide_true by done. simpl. constructor.
    by rewrite (dict_del_absent k' d Hk).
  - rewrite bool_decide_false; simpl.
    + rewrite perm_swap. constructor. by apply IH.
    + intros E. simpl in E. subst k'. destruct Hk. change ((k, v').1) with ((k, v).1).
      by apply list_elem_of_fmap_2.
Qed.
Lemma dict_get_del k k' d : dict_get k (dict_del k' d) = if decide (k = k') then None else dict_get k d.
Proof.
  unfold dict_del. induction d as [|[x v] d IH]; simpl; [by case_decide|].
  destruct (decide (x = k')) as [->|N]; [rewrite bool_decide_true by done|rewrite bool_decide_false by done]; simpl; rewrite IH.
  - destruct (decide (k = k')) as [->|]; [done|]. by rewrite decide_False by congruence.
  - destruct (decide (k = k')) as [->|]; [by rewrite decide_False|done].
Qed.
Lemma dict_get_set k k' v d : dict_get k (dict_set k' v d) = if decide (k = k') then Some v else dict_get k d.
Proof.
  induction d as [|[x w] d IH]; simpl.
  - repeat case_decide; congruence.
  - destruct (decide (x = k')) as [->|]; simpl; rewrite ?IH; repeat case_decide; congruence.
Qed.
Lemma dict_get_elem k v d : dict_get k d = Some v -> (k, v) ∈ d.
Proof.
  induction d as [|[x w] d IH]; [done|]. simpl. case_decide; [intros [= ->]; subst; left|]. intros. right. by apply IH.
Qed.
Lemma dict_get_none k d : dict_get k d = None <-> k ∉ d.*1.
Proof. rewrite <-dict_get_some, <-eq_None_not_Some. done. Qed.
(** Writing to a key that is there changes its value and nothing else. *)
Lemma dict_set_keys k v d : k ∈ d.*1 -> (dict_set k v d).*1 = d.*1.
Proof.
  induction d as [|[x w] d IH]; [set_solver|]. simpl. intros Hk. case_decide as E; [by subst|]. rewrite fmap_cons. rewrite IH; set_solver.
Qed.
Lemma dict_set_del k v d : NoDup d.*1 -> k ∈ d.*1 -> dict_set k v d ≡ₚ (k, v) :: dict_del k d.
Proof.
  intros Hnd Hk.
  assert (NoDup (dict_set k v d).*1) as Hnd' by (by rewrite dict_set_keys).
  assert (dict_get k (dict_set k v d) = Some v) as E%dict_get_elem by (rewrite dict_get_set; by rewrite decide_True).
  rewrite (dict_del_perm _ _ _ Hnd' E). f_equiv. clear Hnd Hk Hnd' E. unfold dict_del.
  induction d as [|[x w] d IH]; simpl; [by rewrite bool_decide_true|].
  destruct (decide (x = k)) as [->|]; simpl; [by rewrite bool_decide_true|]. destruct (negb _); simpl; by rewrite IH.
Qed.
End dict_lemmas.

(** ** Inversion of computations that returned *)

Lemma bind_inv {S A B} (m : py S A) (k : A -> py S B) s b s'' :
  py_bind m k s = Ret b s'' -> exists a s', m s = Ret a s' /\ k a s' = Ret b s''.
Proof. unfold py_bind. destruct (m s) as [a s'|]; [|done]. by exists a, s'. Qed.
Lemma assert_inv {S} b (s : S) u s' : py_assert b s = Ret u s' -> b = true /\ s' = s.
Proof. destruct b; [by intros [= _ ->]|done]. Qed.
Lemma unwrap_inv {S A} e (o : option A) (s : S) a s' : py_unwrap e o s = Ret a s' -> o = Some a /\ s' = s.
Proof. destruct o; [by intros [= -> ->]|done]. Qed.
