(* ===== verification/BlockQueue.v ===== *)
(** The free-block queue of the paged KV cache
    ([vllm/v1/core/kv_cache_utils.py], class [FreeKVCacheBlockQueue]).

    The source threads the free blocks on a doubly linked list through the
    [prev_free_block]/[next_free_block] attributes of the block objects, with a
    fake head and a fake tail. The model keeps the two attributes of every
    object as two finite maps (an absent key is [None]) and the refinement
    theorems show that each method acts on the queue as the corresponding list
    operation. *)
From stdpp Require Import gmap list.
From Stdlib Require Import ZArith Lia.
From S2P Require Import Prelude.
Open Scope Z_scope.

(** Block objects are named by integers: a real block by its [block_id] (which
    is its index in the pool), the two fake blocks by two negative addresses.
    Both fakes have [block_id = -1] in the source; they are told apart by object
    identity, which the addresses stand for. *)
Notation block := Z (only parsing).
Definition fake_free_list_head : block := -1.
Definition fake_free_list_tail : block := -2.

Record FreeKVCacheBlockQueue := mkQueue {
  prev_free_block : gmap Z Z;
  next_free_block : gmap Z Z;
  num_free_blocks : Z
}.

Definition set_field (m : gmap Z Z) (b : block) (o : option block) : gmap Z Z :=
  match o with Some c => <[b := c]> m | None => delete b m end.

Definition set_next (b : block) (o : option block) : py FreeKVCacheBlockQueue unit :=
  py_modify (fun q => mkQueue (prev_free_block q) (set_field (next_free_block q) b o)
                              (num_free_blocks q)).
Definition set_prev (b : block) (o : option block) : py FreeKVCacheBlockQueue unit :=
  py_modify (fun q => mkQueue (set_field (prev_free_block q) b o) (next_free_block q)
                              (num_free_blocks q)).
Definition add_num_free (d : Z) : py FreeKVCacheBlockQueue unit :=
  py_modify (fun q => mkQueue (prev_free_block q) (next_free_block q)
                              (num_free_blocks q + d)).
Definition get_next (b : block) : py FreeKVCacheBlockQueue (option block) :=
  py_gets (fun q => next_free_block q !! b).
Definition get_prev (b : block) : py FreeKVCacheBlockQueue (option block) :=
  py_gets (fun q => prev_free_block q !! b).

(** [__init__], on freshly made blocks (all links [None]). *)
Definition queue_init_links (blocks : list block) (i : nat)
    : py FreeKVCacheBlockQueue unit :=
  let n := length blocks in
  let! b := py_unwrap IndexError (blocks !! i) in
  do! (if bool_decide (0 < i)%nat then
         let! p := py_unwrap IndexError (blocks !! (i - 1)%nat) in set_prev b (Some p)
       else py_ret tt);
  if bool_decide (i < n - 1)%nat then
    let! c := py_unwrap IndexError (blocks !! (i + 1)%nat) in set_next b (Some c)
  else py_ret tt.

Definition queue_init_body (blocks : list block) : py FreeKVCacheBlockQueue unit :=
  do! py_for (seq 0 (length blocks)) (queue_init_links blocks);
  match blocks, last blocks with
  | first_block :: _, Some last_block =>
      do! set_next fake_free_list_head (Some first_block);
      do! set_prev first_block (Some fake_free_list_head);
      do! set_prev fake_free_list_tail (Some last_block);
      set_next last_block (Some fake_free_list_tail)
  | _, _ =>
      do! set_next fake_free_list_head (Some fake_free_list_tail);
      set_prev fake_free_list_tail (Some fake_free_list_head)
  end.

Definition queue_init (blocks : list block) : outcome FreeKVCacheBlockQueue unit :=
  queue_init_body blocks (mkQueue ∅ ∅ (Z.of_nat (length blocks))).

Definition popleft : py FreeKVCacheBlockQueue block :=
  let! head_next := get_next fake_free_list_head in
  let no_block :=
    let! n := py_gets num_free_blocks in
    do! py_assert (n =? 0); py_raise ValueError in
  match head_next with
  | None => no_block
  | Some first_block =>
      if first_block =? fake_free_list_tail then no_block else
      let! o := get_next first_block in
      match o with
      | None => py_raise RuntimeError
      | Some second =>
          do! set_next fake_free_list_head (Some second);
          do! set_prev second (Some fake_free_list_head);
          do! set_prev first_block None;
          do! set_next first_block None;
          do! add_num_free (-1);
          py_ret first_block
      end
  end.

(** The body of the [for _ in range(n)] loop of [popleft_n], with the loop
    variable [curr_block] and the accumulated [ret]. *)
Fixpoint popleft_n_loop (n : nat) (curr_block : option block) (ret : list block)
    : py FreeKVCacheBlockQueue (option block * list block) :=
  match n with
  | O => py_ret (curr_block, ret)
  | S n' =>
      let! cb := py_unwrap AssertionError curr_block in
      let! nx := get_next cb in
      do! set_prev cb None;
      do! set_next cb None;
      popleft_n_loop n' nx (ret ++ [cb])
  end.

Definition popleft_n (n : Z) : py FreeKVCacheBlockQueue (list block) :=
  if n =? 0 then py_ret [] else
  let! nf := py_gets num_free_blocks in
  do! py_assert (n <=? nf);
  do! add_num_free (- n);
  let! curr := get_next fake_free_list_head in
  let! ' (curr, ret) := popleft_n_loop (Z.to_nat n) curr [] in
  do! (match curr with
       | Some c =>
           do! set_next fake_free_list_head (Some c);
           set_prev c (Some fake_free_list_head)
       | None => py_ret tt
       end);
  py_ret ret.

Definition remove (b : block) : py FreeKVCacheBlockQueue unit :=
  let! p := get_prev b in
  let! n := get_next b in
  match p, n with
  | Some p, Some n =>
      do! set_next p (Some n);
      do! set_prev n (Some p);
      do! set_prev b None;
      do! set_next b None;
      add_num_free (-1)
  | _, _ => py_raise RuntimeError
  end.

Definition append (b : block) : py FreeKVCacheBlockQueue unit :=
  let! l := get_prev fake_free_list_tail in
  let! last_block := py_unwrap RuntimeError l in
  do! set_next last_block (Some b);
  do! set_prev b (Some last_block);
  do! set_next b (Some fake_free_list_tail);
  do! set_prev fake_free_list_tail (Some b);
  add_num_free 1.

Fixpoint append_n_loop (blocks : list block) (last_block : block)
    : py FreeKVCacheBlockQueue block :=
  match blocks with
  | [] => py_ret last_block
  | b :: bs =>
      do! set_prev b (Some last_block);
      do! set_next last_block (Some b);
      append_n_loop bs b
  end.

Definition append_n (blocks : list block) : py FreeKVCacheBlockQueue unit :=
  match blocks with
  | [] => py_ret tt
  | _ :: _ =>
      let! l := get_prev fake_free_list_tail in
      let! last_block := py_unwrap AssertionError l in
      let! last_block := append_n_loop blocks last_block in
      do! set_next last_block (Some fake_free_list_tail);
      do! set_prev fake_free_list_tail (Some last_block);
      add_num_free (Z.of_nat (length blocks))
  end.

(** The [while] loop of [get_all_free_blocks]; [fuel] bounds the number of
    iterations, and running out of it stands for a list that never ends. *)
Fixpoint walk_free (fuel : nat) (curr_block : block) (ret : list block)
    : py FreeKVCacheBlockQueue (list block) :=
  match fuel with
  | O => py_raise Diverges
  | S fuel' =>
      let! nx := get_next curr_block in
      match nx with
      | None => py_ret ret
      | Some c => walk_free fuel' c (ret ++ [curr_block])
      end
  end.

Definition get_all_free_blocks : py FreeKVCacheBlockQueue (list block) :=
  let! h := get_next fake_free_list_head in
  let! first := py_unwrap RuntimeError h in
  let! fuel := py_gets (fun q => S (size (next_free_block q))) in
  walk_free fuel first [].

(** ** The abstraction: the queue represents a list of blocks *)

(** [succ_in l n]: the element that follows [n] in [l]. *)
Fixpoint succ_in (l : list Z) (n : Z) : option Z :=
  match l with
  | a :: ((b :: _) as l') => if decide (a = n) then Some b else succ_in l' n
  | _ => None
  end.

Definition chain (l : list block) : list Z :=
  fake_free_list_head :: l ++ [fake_free_list_tail].
Arguments chain : simpl never.

Record rep (q : FreeKVCacheBlockQueue) (l : list block) : Prop := mkRep {
  rep_nodup : NoDup l;
  rep_real : Forall (Z.le 0) l;
  rep_next : forall n, next_free_block q !! n = succ_in (chain l) n;
  rep_prev : forall n, prev_free_block q !! n = succ_in (reverse (chain l)) n;
  rep_num : num_free_blocks q = Z.of_nat (length l)
}.

(** ** Successor lemmas *)

Lemma lookup_set_field m b o n :
  set_field m b o !! n = if decide (b = n) then o else m !! n.
Proof.
  destruct o; simpl.
  - rewrite lookup_insert. done.
  - rewrite lookup_delete. done.
Qed.

Lemma succ_in_cons a b l n :
  succ_in (a :: b :: l) n = if decide (a = n) then Some b else succ_in (b :: l) n.
Proof. done. Qed.

Lemma succ_in_notin l n : n ∉ l -> succ_in l n = None.
Proof.
  induction l as [|a [|b l] IH]; intros Hn; [done..|].
  rewrite succ_in_cons. rewrite decide_False by set_solver. apply IH. set_solver.
Qed.

Lemma succ_in_skip l1 a l2 n :
  n ∉ l1 -> succ_in (l1 ++ a :: l2) n = succ_in (a :: l2) n.
Proof.
  induction l1 as [|x [|y l1] IH]; intros Hn; [done|..]; simpl app;
    rewrite succ_in_cons; rewrite decide_False by set_solver; [done|].
  apply IH. set_solver.
Qed.

(** Cutting the segment [m] out of a chain is three field updates. *)
Lemma succ_in_unlink l1 a m c l2 n :
  NoDup (l1 ++ a :: m ++ c :: l2) ->
  succ_in (l1 ++ a :: c :: l2) n =
    if decide (a = n) then Some c
    else if decide (n ∈ m) then None
    else succ_in (l1 ++ a :: m ++ c :: l2) n.
Proof.
  induction l1 as [|x l1 IH]; intros Hnd; simpl app.
  - simpl app in Hnd. apply NoDup_cons in Hnd as [Ha Hnd].
    rewrite succ_in_cons. case_decide as Han; [done|].
    apply NoDup_app in Hnd as (_ & Hdisj & Hnd).
    case_decide as Hm.
    + apply succ_in_notin. by apply Hdisj.
    + rewrite <-(succ_in_skip m c l2 n Hm).
      rewrite (app_comm_cons m (c :: l2) a).
      rewrite (succ_in_skip (a :: m) c l2 n) by set_solver.
      by rewrite (succ_in_skip m).
  - apply NoDup_cons in Hnd as [Hx Hnd]. specialize (IH Hnd).
    assert (exists y r r', l1 ++ a :: c :: l2 = y :: r /\ l1 ++ a :: m ++ c :: l2 = y :: r')
      as (y & r & r' & E1 & E2) by (destruct l1; simpl; eauto).
    rewrite E1, E2 in IH |- *. rewrite !succ_in_cons, IH.
    destruct (decide (x = n)) as [->|Hxn]; [|done]. rewrite decide_False by set_solver. rewrite decide_False by set_solver. done.
Qed.

(** The inverse update: splicing a segment in. *)
Lemma succ_in_last l a : NoDup (l ++ [a]) -> succ_in (l ++ [a]) a = None.
Proof.
  intros Hnd. apply NoDup_app in Hnd as (_ & Hd & _).
  rewrite succ_in_skip; [done|]. intros Hin. specialize (Hd _ Hin). set_solver.
Qed.

Lemma succ_in_snoc l a b n :
  NoDup (l ++ [a]) ->
  succ_in (l ++ [a; b]) n = if decide (a = n) then Some b else succ_in (l ++ [a]) n.
Proof.
  induction l as [|x l IH]; intros Hnd; [done|].
  simpl app in *. apply NoDup_cons in Hnd as [Hx Hnd]. specialize (IH Hnd).
  assert (exists y r r', l ++ [a; b] = y :: r /\ l ++ [a] = y :: r')
    as (y & r & r' & E1 & E2) by (destruct l; simpl; eauto).
  rewrite E1, E2 in IH |- *. rewrite !succ_in_cons, IH.
  destruct (decide (x = n)) as [->|Hxn]; [|done]. rewrite decide_False; [done|]. set_solver.
Qed.

Lemma chain_nodup l : NoDup l -> Forall (Z.le 0) l -> NoDup (chain l).
Proof.
  intros Hnd Hpos. unfold chain. rewrite Forall_forall in Hpos.
  apply NoDup_cons. split.
  - rewrite elem_of_app, list_elem_of_singleton.
    intros [Hin|?]; [|done]. apply Hpos in Hin. by unfold fake_free_list_head in Hin.
  - apply NoDup_app. split; [done|]. split; [|apply NoDup_singleton].
    intros x Hin. apply Hpos in Hin. rewrite list_elem_of_singleton.
    unfold fake_free_list_tail. lia.
Qed.

Lemma rep_chain_nodup q l : rep q l -> NoDup (chain l).
Proof. intros []. by apply chain_nodup. Qed.

Lemma chain_split l1 b l2 :
  exists u a c v, chain (l1 ++ b :: l2) = u ++ a :: [b] ++ c :: v /\
                  chain (l1 ++ l2) = u ++ a :: c :: v.
Proof.
  unfold chain.
  destruct (exists_last (l := fake_free_list_head :: l1)) as (u & a & Eu); [done|].
  destruct l2 as [|c v].
  - exists u, a, fake_free_list_tail, []. rewrite app_nil_r. simpl app in *.
    rewrite <-!app_assoc. simpl. rewrite !app_comm_cons, Eu. by rewrite <-!app_assoc.
  - exists u, a, c, (v ++ [fake_free_list_tail]). simpl app in *.
    rewrite <-!app_assoc. simpl. rewrite !app_comm_cons, Eu. by rewrite <-!app_assoc.
Qed.

(** A chain around its first and last segments, used by the bulk operations. *)
Lemma chain_prefix l1 l2 :
  exists c v, l2 ++ [fake_free_list_tail] = c :: v /\
    chain (l1 ++ l2) = [] ++ fake_free_list_head :: l1 ++ c :: v /\
    chain l2 = [] ++ fake_free_list_head :: c :: v.
Proof.
  unfold chain. destruct l2 as [|c v].
  - exists fake_free_list_tail, []. by rewrite app_nil_r.
  - exists c, (v ++ [fake_free_list_tail]). by rewrite <-app_assoc.
Qed.

(** ** The methods refine the list operations *)

Section refinement.
Implicit Types (q : FreeKVCacheBlockQueue) (l : list Z) (b : Z).

Lemma succ_in_next u a c v : NoDup (u ++ a :: c :: v) -> succ_in (u ++ a :: c :: v) a = Some c.
Proof.
  intros Hnd. rewrite (succ_in_unlink u a [] c v a) by done.
  by rewrite decide_True.
Qed.

Lemma reverse_segment (u : list Z) a m c v :
  reverse (u ++ a :: m ++ c :: v) = reverse v ++ c :: reverse m ++ a :: reverse u.
Proof.
  rewrite reverse_app, reverse_cons, reverse_app, reverse_cons.
  by rewrite <-!app_assoc.
Qed.

Lemma reverse_pair (u : list Z) a c v :
  reverse (u ++ a :: c :: v) = reverse v ++ c :: a :: reverse u.
Proof. exact (reverse_segment u a [] c v). Qed.

(** Pointer reads in a represented queue. *)
Lemma rep_links q l u a c v :
  rep q l -> chain l = u ++ a :: c :: v ->
  next_free_block q !! a = Some c /\ prev_free_block q !! c = Some a.
Proof.
  intros Hrep E. pose proof (rep_chain_nodup _ _ Hrep) as Hnd. rewrite E in Hnd.
  rewrite (rep_next _ _ Hrep), (rep_prev _ _ Hrep), E. split.
  - by apply succ_in_next.
  - rewrite reverse_pair. apply succ_in_next. rewrite <-reverse_pair. by apply NoDup_reverse.
Qed.

Lemma rep_head q l : rep q l -> next_free_block q !! fake_free_list_head =
  Some (default fake_free_list_tail (head l)).
Proof.
  intros Hrep. destruct (chain_prefix [] l) as (c & v & E & E1 & _).
  destruct (rep_links q l [] _ c v Hrep E1) as [-> _]. by destruct l; simplify_eq/=.
Qed.

Lemma rep_tail q l : rep q l -> prev_free_block q !! fake_free_list_tail =
  Some (default fake_free_list_head (last l)).
Proof.
  intros Hrep. induction l as [|x l _] using rev_ind.
  - by destruct (rep_links q [] [] fake_free_list_head fake_free_list_tail [] Hrep) as [_ ->].
  - destruct (rep_links q (l ++ [x]) (fake_free_list_head :: l) x fake_free_list_tail [] Hrep)
      as [_ ->]; [|by rewrite last_snoc].
    unfold chain. simpl. by rewrite <-app_assoc.
Qed.

(** Cutting [m] out of both link maps. *)
Lemma rep_unlink q q' l l' u a m c v :
  rep q l -> chain l = u ++ a :: m ++ c :: v -> chain l' = u ++ a :: c :: v ->
  (forall n, next_free_block q' !! n =
     if decide (a = n) then Some c else if decide (n ∈ m) then None
     else next_free_block q !! n) ->
  (forall n, prev_free_block q' !! n =
     if decide (c = n) then Some a else if decide (n ∈ m) then None
     else prev_free_block q !! n) ->
  NoDup l' -> Forall (Z.le 0) l' ->
  num_free_blocks q' = Z.of_nat (length l') ->
  rep q' l'.
Proof.
  intros Hrep E E' Hn Hp Hnd Hpos Hnum. pose proof (rep_chain_nodup _ _ Hrep) as Hc.
  rewrite E in Hc. split; [done..| | |done]; intros n; rewrite E'.
  - rewrite Hn, (rep_next _ _ Hrep), E. by rewrite (succ_in_unlink u a m).
  - rewrite Hp, (rep_prev _ _ Hrep), E. rewrite reverse_pair, reverse_segment.
    rewrite (succ_in_unlink (reverse v) c (reverse m) a (reverse u)).
    + case_decide; [done|]. by rewrite (decide_ext (n ∈ reverse m) (n ∈ m)) by apply elem_of_reverse.
    + rewrite <-reverse_segment. by apply NoDup_reverse.
Qed.

Lemma NoDup_around (u : list Z) a m c v b :
  NoDup (u ++ a :: m ++ c :: v) -> b ∈ m -> a <> b /\ c <> b.
Proof.
  intros (_ & _ & [Ha Hm]%NoDup_cons)%NoDup_app Hb.
  apply NoDup_app in Hm as (_ & Hd & _). specialize (Hd b Hb). set_solver.
Qed.

(** Removing a block from the middle of the free list. *)
Lemma remove_rep q l1 b l2 :
  rep q (l1 ++ b :: l2) -> wp (remove b) (fun _ q' => rep q' (l1 ++ l2)) q.
Proof.
  intros Hrep. destruct (chain_split l1 b l2) as (u & a & c & v & E & E').
  destruct (rep_links q _ u a b (c :: v) Hrep E) as [_ Hp].
  destruct (rep_links q _ (u ++ [a]) b c v Hrep) as [Hn _].
  { rewrite E. by rewrite <-app_assoc. }
  pose proof (rep_chain_nodup _ _ Hrep) as Hc. rewrite E in Hc.
  apply (NoDup_around _ _ _ _ _ b) in Hc as [Hab Hcb]; [|set_solver].
  unfold remove. wp_step. wp_step. wp_step. wp_step. rewrite Hp, Hn. wp_run.
  destruct Hrep as [Hnd Hpos Hnx Hpr Hnum].
  eapply (rep_unlink q _ (l1 ++ b :: l2) (l1 ++ l2) u a [b] c v); try done; simpl.
  - intros n. rewrite lookup_delete, lookup_insert. repeat case_decide; set_solver.
  - intros n. rewrite lookup_delete, lookup_insert. repeat case_decide; set_solver.
  - by apply NoDup_app in Hnd as (? & ? & [? ?]%NoDup_cons); apply NoDup_app; set_solver.
  - by rewrite Forall_app, Forall_cons in Hpos; rewrite Forall_app; naive_solver.
  - rewrite Hnum, !length_app. simpl. lia.
Qed.

Lemma popleft_n_loop_spec m c ret q :
  NoDup m ->
  (forall p b s, m = p ++ b :: s -> next_free_block q !! b = head (s ++ [c])) ->
  wp (popleft_n_loop (length m) (head (m ++ [c])) ret)
     (fun r q' => r = (Some c, ret ++ m) /\
        (forall n, next_free_block q' !! n =
           if decide (n ∈ m) then None else next_free_block q !! n) /\
        (forall n, prev_free_block q' !! n =
           if decide (n ∈ m) then None else prev_free_block q !! n) /\
        num_free_blocks q' = num_free_blocks q) q.
Proof.
  revert ret q. induction m as [|b m IH]; intros ret q Hnd Hlinks; simpl.
  - apply wp_ret. by rewrite app_nil_r.
  - apply NoDup_cons in Hnd as [Hb Hnd]. wp_run.
    rewrite (Hlinks [] b m eq_refl). eapply wp_mono.
    + apply IH; [done|]. intros p b' s ->. simpl.
      rewrite lookup_delete_ne by set_solver. by apply (Hlinks (b :: p)).
    + simpl. intros r q' (-> & Hn & Hp & Hnum). rewrite <-app_assoc.
      split; [done|]. split; [|split; [|done]]; intros n; rewrite ?Hn, ?Hp, lookup_delete;
        repeat case_decide; set_solver.
Qed.

Lemma head_snoc_default (s : list Z) c : head (s ++ [c]) = Some (default c (head s)).
Proof. by destruct s. Qed.

Lemma popleft_n_rep q l1 l2 :
  rep q (l1 ++ l2) ->
  wp (popleft_n (Z.of_nat (length l1))) (fun r q' => r = l1 /\ rep q' l2) q.
Proof.
  intros Hrep. unfold popleft_n.
  destruct (Z.of_nat (length l1) =? 0) eqn:E0.
  { apply wp_ret. apply Z.eqb_eq in E0. by destruct l1. }
  wp_step. wp_step. wp_step.
  apply wp_assert.
  { rewrite (rep_num _ _ Hrep), length_app. apply Z.leb_le. lia. }
  destruct (chain_prefix l1 l2) as (c & v & Ec & Ech & Ech').
  wp_step. wp_step. wp_step. wp_step. simpl.
  rewrite (rep_head _ _ Hrep). rewrite Nat2Z.id.
  assert (Some (default fake_free_list_tail (head (l1 ++ l2))) = head (l1 ++ [c])) as ->.
  { destruct l1, l2; simplify_eq/=; done. }
  pose proof (rep_chain_nodup _ _ Hrep) as Hnd. rewrite Ech in Hnd.
  wp_step. eapply wp_mono.
  { apply popleft_n_loop_spec.
    - by apply NoDup_app in Hnd as (_ & _ & [_ (? & _ & _)%NoDup_app]%NoDup_cons).
    - intros p b s ->. simpl. destruct s as [|b' s]; simpl.
      + eapply (rep_links q _ (fake_free_list_head :: p) b c v); [done|].
        rewrite Ech. simpl. by rewrite <-app_assoc.
      + eapply (rep_links q _ (fake_free_list_head :: p) b b' (s ++ c :: v)); [done|].
        rewrite Ech. simpl. by rewrite <-app_assoc. }
  simpl. intros [cur r] q' ([= -> ->] & Hn & Hp & Hnum). wp_run. split; [done|].
  destruct Hrep as [Hl Hpos Hnx Hpr Hlen] eqn:Erep. clear Erep.
  eapply (rep_unlink q _ (l1 ++ l2) l2 [] fake_free_list_head l1 c v); try done; simpl.
  - intros n. rewrite lookup_insert, Hn. done.
  - intros n. rewrite lookup_insert, Hp. done.
  - by apply NoDup_app in Hl as (_ & _ & ?).
  - by apply Forall_app in Hpos as [_ ?].
  - rewrite Hnum, Hlen, length_app. lia.
Qed.

Lemma popleft_rep q b l :
  rep q (b :: l) -> wp popleft (fun r q' => r = b /\ rep q' l) q.
Proof.
  intros Hrep. destruct (chain_prefix [b] l) as (c & v & Ec & Ech & Ech'). simpl app in Ech.
  pose proof (rep_chain_nodup _ _ Hrep) as Hnd. rewrite Ech in Hnd.
  destruct (rep_links q _ [fake_free_list_head] b c v Hrep Ech) as [Hn _].
  apply (NoDup_around [] _ [b] _ _ b) in Hnd as [Hhb Hcb]; [|set_solver].
  destruct Hrep as [Hl Hpos Hnx Hpr Hlen] eqn:Erep. clear Erep.
  pose proof (rep_head _ _ Hrep) as Hh.
  assert (0 <= b) by (by inversion Hpos).
  unfold popleft. wp_step. wp_step. rewrite Hh. simpl.
  destruct (b =? fake_free_list_tail) eqn:Et.
  { apply Z.eqb_eq in Et. unfold fake_free_list_tail in Et. lia. }
  wp_step. wp_step. rewrite Hn. wp_run. split; [done|].
  eapply (rep_unlink q _ (b :: l) l [] fake_free_list_head [b] c v); try done; simpl.
  - intros n. rewrite lookup_delete, lookup_insert. repeat case_decide; set_solver.
  - intros n. rewrite lookup_delete, lookup_insert. repeat case_decide; set_solver.
  - by apply NoDup_cons in Hl as [_ ?].
  - by apply Forall_cons in Hpos as [_ ?].
  - rewrite Hlen. simpl. lia.
Qed.

(** Growing the chain at its tail: the part of the chain before the fake tail. *)
Lemma chain_body l : exists x a, fake_free_list_head :: l = x ++ [a] /\
  a = default fake_free_list_head (last l) /\
  chain l = x ++ [a; fake_free_list_tail].
Proof.
  unfold chain. induction l as [|b l _] using rev_ind.
  - by exists [], fake_free_list_head.
  - exists (fake_free_list_head :: l), b. rewrite last_snoc. split; [done|]. split; [done|].
    simpl. by rewrite <-app_assoc.
Qed.

(** [open_rep q l]: as [rep], except that the links between the last block and
    the fake tail may be stale. This is the state inside [append_n]'s loop. *)
Definition open_rep q l :=
  (forall n, n <> default fake_free_list_head (last l) ->
     next_free_block q !! n = succ_in (chain l) n) /\
  (forall n, n <> fake_free_list_tail ->
     prev_free_block q !! n = succ_in (reverse (chain l)) n).

Lemma chain_snoc_next l b n :
  NoDup (chain (l ++ [b])) -> n <> b ->
  succ_in (chain (l ++ [b])) n =
    if decide (default fake_free_list_head (last l) = n) then Some b
    else succ_in (fake_free_list_head :: l) n.
Proof.
  destruct (chain_body l) as (x & a & E & -> & _). intros Hnd Hn.
  assert (chain (l ++ [b]) = (x ++ [default fake_free_list_head (last l)])
            ++ [b; fake_free_list_tail]) as Ech.
  { unfold chain. rewrite <-E. simpl. by rewrite <-app_assoc. }
  rewrite Ech in *. rewrite E.
  assert (forall c, (x ++ [default fake_free_list_head (last l)]) ++ [b; c] =
     ((x ++ [default fake_free_list_head (last l)]) ++ [b]) ++ [c]) as Hassoc
    by (intros; by rewrite <-!app_assoc).
  rewrite Hassoc in Hnd. apply NoDup_app in Hnd as (Hnd & _ & _).
  rewrite succ_in_snoc by done. rewrite decide_False by done.
  rewrite <-app_assoc. apply succ_in_snoc. by apply NoDup_app in Hnd as (? & _ & _).
Qed.

Lemma chain_snoc_prev l b n :
  n <> fake_free_list_tail ->
  succ_in (reverse (chain (l ++ [b]))) n =
    if decide (b = n) then Some (default fake_free_list_head (last l))
    else succ_in (reverse (chain l)) n.
Proof.
  destruct (chain_body l) as (x & a & E & -> & Ech). intros Hn.
  assert (chain (l ++ [b]) = x ++ [default fake_free_list_head (last l); b; fake_free_list_tail])
    as ->.
  { unfold chain. change (?a :: ?m ++ ?r) with ((a :: m) ++ r).
    rewrite app_comm_cons, E. by rewrite <-!app_assoc. }
  rewrite Ech. rewrite !reverse_app. simpl.
  by rewrite !(decide_False (P := fake_free_list_tail = n)) by done.
Qed.

Lemma append_n_loop_spec bs l q :
  NoDup (l ++ bs) -> Forall (Z.le 0) (l ++ bs) -> open_rep q l ->
  wp (append_n_loop bs (default fake_free_list_head (last l)))
     (fun r q' => r = default fake_free_list_head (last (l ++ bs)) /\
        open_rep q' (l ++ bs) /\ num_free_blocks q' = num_free_blocks q) q.
Proof.
  revert l q. induction bs as [|b bs IH]; intros l q Hnd Hpos Hopen; simpl.
  - apply wp_ret. by rewrite app_nil_r.
  - wp_run. rewrite (cons_middle b l bs), app_assoc in Hnd, Hpos |- *.
    replace (append_n_loop bs b)
      with (append_n_loop bs (default fake_free_list_head (last (l ++ [b]))))
      by (by rewrite last_snoc).
    eapply wp_mono; [apply IH; [done..|]|].
    2:{ simpl. intros r q' (-> & Ho & Hnum). done. }
    apply NoDup_app in Hnd as (Hnd & _ & _). apply Forall_app in Hpos as [Hpos _].
    pose proof (chain_nodup _ Hnd Hpos) as Hc.
    pose proof (NoDup_app l [b]) as [(Hndl & Hbl & _) _]; [done|].
    apply Forall_app in Hpos as [Hposl _].
    destruct Hopen as [Hn Hp]. split; intros n Hnn; cbn [next_free_block prev_free_block].
    + rewrite last_snoc in Hnn. simpl in Hnn. rewrite chain_snoc_next by done.
      rewrite lookup_insert. case_decide as Hd; [done|]. rewrite Hn by congruence.
      destruct (chain_body l) as (x & a & E & -> & Ech). rewrite Ech, E.
      rewrite succ_in_snoc; [by rewrite decide_False|].
      rewrite <-E. apply NoDup_cons. pose proof (chain_nodup l Hndl Hposl) as Hcl.
      unfold chain in Hcl. rewrite app_comm_cons in Hcl.
      apply NoDup_app in Hcl as ([? ?]%NoDup_cons & _ & _). done.
    + rewrite lookup_insert, chain_snoc_prev by done. case_decide; [done|]. by apply Hp.
Qed.

Lemma open_rep_close q l n :
  open_rep q l -> NoDup l -> Forall (Z.le 0) l ->
  n = Z.of_nat (length l) ->
  rep (mkQueue
         (<[fake_free_list_tail := default fake_free_list_head (last l)]> (prev_free_block q))
         (<[default fake_free_list_head (last l) := fake_free_list_tail]> (next_free_block q)) n) l.
Proof.
  intros [Hn Hp] Hnd Hpos ->. pose proof (chain_nodup _ Hnd Hpos) as Hc.
  destruct (chain_body l) as (x & a & E & Ea & Ech).
  split; try done; intros m; cbn [next_free_block prev_free_block]; rewrite lookup_insert.
  - rewrite <-Ea. case_decide as Hd; [|by apply Hn; congruence]. subst m.
    rewrite Ech. symmetry. apply succ_in_next. by rewrite <-Ech.
  - case_decide as Hd; [|by apply Hp; congruence]. subst m.
    rewrite Ech, reverse_app. by rewrite <-Ea.
Qed.

Lemma rep_open q l : rep q l -> open_rep q l.
Proof. intros []. by split; auto. Qed.

Lemma append_n_rep q l bs :
  rep q l -> NoDup (l ++ bs) -> Forall (Z.le 0) bs ->
  wp (append_n bs) (fun _ q' => rep q' (l ++ bs)) q.
Proof.
  intros Hrep Hnd Hpos. destruct bs as [|b bs].
  { rewrite app_nil_r. by apply wp_ret. }
  unfold append_n. wp_step. wp_step. rewrite (rep_tail _ _ Hrep). wp_step. wp_step.
  assert (Forall (Z.le 0) (l ++ b :: bs)) as Hpos'.
  { apply Forall_app. split; [by apply (rep_real q)|done]. }
  wp_step. eapply wp_mono; [apply (append_n_loop_spec (b :: bs) l q); auto using rep_open|].
  simpl. intros r q' (-> & Ho & Hnum). wp_run. apply open_rep_close; try done.
  rewrite Hnum, (rep_num _ _ Hrep), length_app. simpl. lia.
Qed.

(** [append] is [append_n] on one block, and [popleft] is [popleft_n(1)]. *)
Lemma append_as_append_n q l b : rep q l -> append b q = append_n [b] q.
Proof.
  intros Hrep. unfold append, append_n, py_bind, get_prev, py_gets.
  by rewrite (rep_tail _ _ Hrep).
Qed.

Lemma append_rep q l b :
  rep q l -> b ∉ l -> 0 <= b -> wp (append b) (fun _ q' => rep q' (l ++ [b])) q.
Proof.
  intros Hrep Hb Hpos. unfold wp. rewrite (append_as_append_n _ _ _ Hrep).
  apply append_n_rep; [done| |by apply Forall_singleton].
  apply NoDup_app. split; [by apply (rep_nodup q)|]. split; [set_solver|].
  apply NoDup_singleton.
Qed.

Lemma walk_free_spec q l pre b fuel ret :
  rep q (pre ++ b :: l) -> (length l < fuel)%nat ->
  walk_free (S fuel) b ret q = Ret (ret ++ b :: l) q.
Proof.
  revert pre b fuel ret. induction l as [|c l IH]; intros pre b fuel ret Hrep Hf.
  - destruct (rep_links q _ (fake_free_list_head :: pre) b fake_free_list_tail [] Hrep)
      as [Hn _]; [unfold chain; simpl; by rewrite <-app_assoc|].
    destruct fuel as [|fuel]; [simpl in Hf; lia|].
    simpl. unfold py_bind, get_next, py_gets. rewrite Hn.
    pose proof (rep_chain_nodup _ _ Hrep) as Hc. unfold chain in Hc.
    rewrite (rep_next _ _ Hrep). unfold chain. rewrite app_comm_cons in Hc |- *.
    by rewrite succ_in_last.
  - destruct (rep_links q _ (fake_free_list_head :: pre) b c (l ++ [fake_free_list_tail]) Hrep)
      as [Hn _]; [unfold chain; simpl; by rewrite <-app_assoc|].
    destruct fuel as [|fuel]; [simpl in Hf; lia|].
    transitivity (walk_free (S fuel) c (ret ++ [b]) q).
    { simpl. unfold py_bind, get_next, py_gets. by rewrite Hn. }
    rewrite (IH (pre ++ [b])); [by rewrite <-app_assoc|by rewrite <-app_assoc|simpl in Hf; lia].
Qed.

Lemma rep_size q l : rep q l -> (length l < size (next_free_block q))%nat.
Proof.
  intros Hrep.
  assert (list_to_set (fake_free_list_head :: l) ⊆ dom (next_free_block q)) as Hsub.
  { intros n Hn. apply elem_of_dom. rewrite elem_of_list_to_set in Hn.
    apply list_elem_of_split in Hn as (u & v & E).
    destruct (v ++ [fake_free_list_tail]) as [|c w] eqn:Ev; [by destruct v|].
    destruct (rep_links q l u n c w Hrep) as [-> _]; [|done].
    unfold chain. by rewrite app_comm_cons, E, <-app_assoc, <-app_comm_cons, Ev. }
  apply subseteq_size in Hsub. rewrite size_dom in Hsub.
  rewrite size_list_to_set in Hsub; [simpl in Hsub; lia|].
  pose proof (rep_chain_nodup _ _ Hrep) as Hc. unfold chain in Hc.
  rewrite app_comm_cons in Hc. by apply NoDup_app in Hc as (? & _ & _).
Qed.

Lemma get_all_free_blocks_rep q l :
  rep q l -> get_all_free_blocks q = Ret l q.
Proof.
  intros Hrep. unfold get_all_free_blocks, py_bind, get_next, py_gets, py_unwrap.
  rewrite (rep_head _ _ Hrep). simpl. pose proof (rep_size _ _ Hrep) as Hs.
  destruct l as [|b l].
  - simpl. unfold py_bind, get_next, py_gets. by rewrite (rep_next _ _ Hrep).
  - simpl in Hs |- *. apply (walk_free_spec q l [] b _ [] Hrep). lia.
Qed.

(** Taking a block out of the list or freeing it twice is detected: on a block
    that is not free, [remove] raises and changes nothing. *)
Lemma remove_not_free q l b :
  rep q l -> b ∉ l -> 0 <= b -> remove b q = Raise RuntimeError q.
Proof.
  intros Hrep Hb Hpos. unfold remove, py_bind, get_prev, get_next, py_gets.
  rewrite (rep_prev _ _ Hrep), succ_in_notin; [done|].
  rewrite elem_of_reverse. unfold chain, fake_free_list_head, fake_free_list_tail.
  set_unfold. intros [?|[?|[?|?]]]; try lia; try done.
Qed.

Lemma popleft_empty q : rep q [] -> popleft q = Raise ValueError q.
Proof.
  intros Hrep. unfold popleft, py_bind, get_next, py_gets.
  rewrite (rep_head _ _ Hrep). simpl. by rewrite (rep_num _ _ Hrep).
Qed.

Lemma popleft_n_too_many q l n :
  rep q l -> Z.of_nat (length l) < n -> popleft_n n q = Raise AssertionError q.
Proof.
  intros Hrep Hn. unfold popleft_n, py_bind, py_gets.
  destruct (n =? 0) eqn:E; [apply Z.eqb_eq in E; lia|].
  rewrite (rep_num _ _ Hrep).
  by destruct (n <=? Z.of_nat (length l)) eqn:E'; [apply Z.leb_le in E'; lia|].
Qed.

End refinement.

(** ** Initialisation *)

Definition init_inv (blocks : list Z) (visited : list nat) (q : FreeKVCacheBlockQueue) : Prop :=
  (forall n, next_free_block q !! n = succ_in (take (S (length visited)) blocks) n) /\
  (forall n, prev_free_block q !! n = succ_in (reverse (take (length visited) blocks)) n) /\
  num_free_blocks q = Z.of_nat (length blocks).

Lemma queue_init_step blocks i pre q :
  NoDup blocks -> (i < length blocks)%nat -> length pre = i ->
  init_inv blocks pre q ->
  wp (queue_init_links blocks i) (fun _ q' => init_inv blocks (pre ++ [i]) q') q.
Proof.
  intros Hnd Hi Hlen (Hn & Hp & Hnum). unfold init_inv. rewrite length_app, Hlen in *.
  replace (i + length [i])%nat with (S i) by (simpl; lia).
  destruct (lookup_lt_is_Some_2 blocks i Hi) as [b Eb].
  unfold queue_init_links. wp_step. wp_step. wp_step.
  pose proof (take_S_r blocks i b Eb) as Et.
  (* the prev links *)
  match goal with |- wp ?m _ _ =>
    enough (wp m (fun _ q' => next_free_block q' = next_free_block q /\
              (forall n, prev_free_block q' !! n = succ_in (reverse (take (S i) blocks)) n) /\
              num_free_blocks q' = num_free_blocks q) q) as Hprev end.
  { eapply wp_mono; [exact Hprev|]. clear Hprev. intros _ q1 (En & Hp1 & Hnum1).
    case_bool_decide as Hlast.
    - destruct (lookup_lt_is_Some_2 blocks (i + 1)%nat ltac:(lia)) as [c Ec].
      rewrite Nat.add_1_r in Ec |- *. wp_run. split; [|split; [done|by rewrite Hnum1]].
      intros n. rewrite lookup_insert, En, Hn.
      rewrite (take_S_r blocks (S i) c Ec), Et, <-app_assoc. simpl app.
      symmetry. apply succ_in_snoc. rewrite <-Et.
      rewrite <-(take_drop (S i) blocks) in Hnd. by apply NoDup_app in Hnd as (? & _ & _).
    - wp_run. split; [|split; [done|by rewrite Hnum1]]. intros n. rewrite En, Hn.
      rewrite (take_ge blocks (S i)) by lia. by rewrite take_ge by lia. }
  (* establish it *)
  rewrite Et, reverse_app. simpl.
  case_bool_decide as H0.
  - destruct i as [|i]; [lia|]. replace (S i - 1)%nat with i by lia.
    destruct (lookup_lt_is_Some_2 blocks i ltac:(lia)) as [p Ep].
    wp_run. split; [done|]. split; [|done]. intros n.
    rewrite lookup_insert, Hp. rewrite (take_S_r blocks i p Ep), reverse_app. done.
  - destruct i as [|i]; [|lia]. apply wp_ret. split; [done|]. split; [|done].
    intros n. rewrite Hp. by rewrite take_0.
Qed.

Lemma queue_init_open blocks b bs q :
  blocks = b :: bs -> NoDup blocks ->
  (forall n, next_free_block q !! n = succ_in blocks n) ->
  (forall n, prev_free_block q !! n = succ_in (reverse blocks) n) ->
  open_rep (mkQueue (<[b := fake_free_list_head]> (prev_free_block q))
             (<[fake_free_list_head := b]> (next_free_block q)) 0) blocks.
Proof.
  intros E Hnd Hn Hp. split; intros n Hnn; cbn [next_free_block prev_free_block];
    rewrite lookup_insert, ?Hn, ?Hp; unfold chain.
  - rewrite E. simpl app. rewrite succ_in_cons. case_decide; [done|].
    rewrite <-E, app_comm_cons, <-E. destruct (last blocks) as [z|] eqn:Ez;
      [|by rewrite last_None in Ez; simplify_eq].
    apply last_Some in Ez as [x Ex]. rewrite Ex in Hnd |- *. simpl in Hnn.
    rewrite <-app_assoc. simpl app. rewrite succ_in_snoc by done. by rewrite decide_False.
  - rewrite app_comm_cons, reverse_app, (reverse_cons blocks). simpl app.
    apply NoDup_reverse in Hnd. rewrite E, reverse_cons in Hnd |- *. rewrite <-app_assoc. simpl app.
    assert (exists y r, reverse bs ++ [b; fake_free_list_head] = y :: r) as (y & r & Er)
      by (destruct (reverse bs); simpl; eauto).
    rewrite Er, succ_in_cons, (decide_False (P := fake_free_list_tail = n)) by congruence.
    rewrite <-Er. symmetry. by apply succ_in_snoc.
Qed.

Lemma queue_init_rep blocks :
  NoDup blocks -> Forall (Z.le 0) blocks ->
  exists q, queue_init blocks = Ret tt q /\ rep q blocks.
Proof.
  intros Hnd Hpos. unfold queue_init.
  enough (wp (queue_init_body blocks) (fun _ q => rep q blocks)
            (mkQueue ∅ ∅ (Z.of_nat (length blocks)))) as Hwp.
  { apply wp_iff in Hwp as ([] & q & ? & ?). eauto. }
  unfold queue_init_body. wp_step. eapply wp_mono.
  { apply (wp_for _ (init_inv blocks) _ []).
    - split; [|split; [|done]]; intros n; cbn [next_free_block prev_free_block];
        rewrite lookup_empty.
      + destruct blocks as [|b [|? ?]]; done.
      + by rewrite take_0.
    - intros pre i post q Es HI. simpl in *.
      assert (i = length pre /\ (i < length blocks)%nat) as [Ei Hi].
      { pose proof (f_equal (fun l => l !! length pre) Es) as E. simpl in E.
        rewrite list_lookup_middle in E by done.
        apply lookup_seq in E. simpl in E. lia. }
      by apply queue_init_step. }
  simpl. intros _ q (Hn & Hp & Hnum).
  rewrite length_seq in Hn, Hp. rewrite take_ge in Hn, Hp by lia.
  destruct blocks as [|b bs] eqn:Eb.
  - simpl. wp_run. split; try done; intros n; cbn [next_free_block prev_free_block];
      rewrite lookup_insert, ?Hn, ?Hp; simpl; repeat case_decide; done.
  - destruct (proj2 (last_is_Some (b :: bs))) as [z Hz]; [done|].
    assert (z = default fake_free_list_head (last (b :: bs))) as -> by (by rewrite Hz).
    rewrite Hz. cbv iota. repeat wp_step. cbn [num_free_blocks]. rewrite Hnum. pose proof (queue_init_open (b :: bs) b bs q eq_refl Hnd Hn Hp) as Ho.
    apply (open_rep_close _ _ _ Ho Hnd Hpos eq_refl).
Qed.

(** ** The queue as a whole: any admissible sequence of calls *)

Inductive queue_op :=
| OpPopleft | OpPopleftN (n : nat) | OpRemove (b : Z) | OpAppend (b : Z)
| OpAppendN (bs : list Z).

(** The abstract specification: a plain list. [None] means that the call is
    outside the contract of the queue in that state. *)
Definition spec_op (o : queue_op) (l : list Z) : option (list Z * list Z) :=
  match o with
  | OpPopleft => match l with [] => None | b :: l' => Some ([b], l') end
  | OpPopleftN n => if decide (n <= length l)%nat then Some (take n l, drop n l) else None
  | OpRemove b => if decide (b ∈ l) then Some ([], filter (fun x => x <> b) l) else None
  | OpAppend b => if decide (b ∉ l /\ 0 <= b) then Some ([], l ++ [b]) else None
  | OpAppendN bs =>
      if decide (NoDup (l ++ bs) /\ Forall (Z.le 0) bs) then Some ([], l ++ bs) else None
  end.

Fixpoint spec_ops (os : list queue_op) (l : list Z) : option (list (list Z) * list Z) :=
  match os with
  | [] => Some ([], l)
  | o :: os' =>
      match spec_op o l with
      | None => None
      | Some (r, l1) =>
          match spec_ops os' l1 with Some (rs, l2) => Some (r :: rs, l2) | None => None end
      end
  end.

Definition run_op (o : queue_op) : py FreeKVCacheBlockQueue (list Z) :=
  match o with
  | OpPopleft => let! b := popleft in py_ret [b]
  | OpPopleftN n => popleft_n (Z.of_nat n)
  | OpRemove b => do! remove b; py_ret []
  | OpAppend b => do! append b; py_ret []
  | OpAppendN bs => do! append_n bs; py_ret []
  end.

Fixpoint run_ops (os : list queue_op) : py FreeKVCacheBlockQueue (list (list Z)) :=
  match os with
  | [] => py_ret []
  | o :: os' => let! r := run_op o in let! rs := run_ops os' in py_ret (r :: rs)
  end.

Lemma filter_ne_split (l1 l2 : list Z) b :
  NoDup (l1 ++ b :: l2) -> filter (fun x => x <> b) (l1 ++ b :: l2) = l1 ++ l2.
Proof.
  intros (_ & Hd & [Hb _]%NoDup_cons)%NoDup_app.
  assert (forall l : list Z, b ∉ l -> filter (fun x => x <> b) l = l) as Hid.
  { induction l as [|x l IH]; intros Hx; [done|].
    rewrite filter_cons, decide_True by set_solver. f_equal. apply IH. set_solver. }
  rewrite filter_app, filter_cons, decide_False by auto.
  rewrite !Hid; [done|done|]. intros Hin. apply (Hd _ Hin). set_solver.
Qed.

Lemma run_op_refines o q l r l' :
  rep q l -> spec_op o l = Some (r, l') -> wp (run_op o) (fun r' q' => r' = r /\ rep q' l') q.
Proof.
  intros Hrep Hs. destruct o as [|n|b|b|bs]; simpl in *.
  - destruct l as [|b l]; [done|]. simplify_eq. wp_step.
    eapply wp_mono; [by apply popleft_rep|]. simpl. intros ? q' [-> ?]. by apply wp_ret.
  - case_decide; [|done]. simplify_eq. rewrite <-(take_drop n l) in Hrep.
    replace n with (length (take n l)) at 1 by (rewrite length_take; lia).
    by apply popleft_n_rep.
  - case_decide as Hb; [|done]. simplify_eq. apply list_elem_of_split in Hb as (l1 & l2 & ->).
    rewrite filter_ne_split by apply (rep_nodup _ _ Hrep). wp_step.
    eapply wp_mono; [by apply remove_rep|]. intros. by apply wp_ret.
  - case_decide as Hb; [|done]. destruct Hb. simplify_eq. wp_step.
    eapply wp_mono; [by apply (append_rep q l)|]. intros. by apply wp_ret.
  - case_decide as Hb; [|done]. destruct Hb. simplify_eq. wp_step.
    eapply wp_mono; [by apply (append_n_rep q l)|]. intros. by apply wp_ret.
Qed.

Lemma run_ops_refines os q l rs l' :
  rep q l -> spec_ops os l = Some (rs, l') ->
  wp (run_ops os) (fun rs' q' => rs' = rs /\ rep q' l') q.
Proof.
  revert q l rs. induction os as [|o os IH]; intros q l rs Hrep Hs; simpl in *.
  - simplify_eq. by apply wp_ret.
  - destruct (spec_op o l) as [[r l1]|] eqn:Eo; [|done].
    destruct (spec_ops os l1) as [[rs1 l2]|] eqn:Eos; [|done]. simplify_eq.
    wp_step. eapply wp_mono; [by eapply run_op_refines|]. simpl. intros ? q1 [-> Hrep1].
    wp_step. eapply wp_mono; [by eapply IH|]. simpl. intros ? q2 [-> Hrep2]. by apply wp_ret.
Qed.

(** C26. The linked-list free queue refines a list: started on distinct blocks,
    every sequence of [popleft]/[popleft_n]/[remove]/[append]/[append_n] calls
    that respects the contract returns what the list specification returns,
    raises nothing, and leaves a queue whose enumeration and whose
    [num_free_blocks] counter are those of the specification's list. *)
Theorem queue_refines_list (blocks : list Z) (os : list queue_op) rs l' :
  NoDup blocks -> Forall (Z.le 0) blocks ->
  spec_ops os blocks = Some (rs, l') ->
  exists q0 q,
    queue_init blocks = Ret tt q0 /\
    run_ops os q0 = Ret rs q /\
    get_all_free_blocks q = Ret l' q /\
    num_free_blocks q = Z.of_nat (length l').
Proof.
  intros Hnd Hpos Hs. destruct (queue_init_rep blocks Hnd Hpos) as (q0 & Hi & Hrep).
  pose proof (run_ops_refines os q0 blocks rs l' Hrep Hs) as Hwp.
  apply wp_iff in Hwp as (rs' & q & Hr & -> & Hrep').
  exists q0, q. split; [done|]. split; [done|].
  split; [by apply get_all_free_blocks_rep | by apply rep_num].
Qed.

Definition queue_demo_ops : list queue_op :=
  [OpPopleft; OpPopleftN 2; OpRemove 4; OpAppendN [2; 0]; OpAppend 4].

Lemma queue_refines_list_witness :
  exists q0 q,
    queue_init [0; 1; 2; 3; 4; 5] = Ret tt q0 /\
    run_ops queue_demo_ops q0 = Ret [[0]; [1; 2]; []; []; []] q /\
    get_all_free_blocks q = Ret [3; 5; 2; 0; 4] q /\
    num_free_blocks q = Z.of_nat (length [3; 5; 2; 0; 4]).
Proof.
  apply (queue_refines_list [0; 1; 2; 3; 4; 5] queue_demo_ops
           [[0]; [1; 2]; []; []; []] [3; 5; 2; 0; 4]).
  - by apply (bool_decide_unpack _); vm_compute.
  - by repeat constructor.
  - by vm_compute.
Defined.

(** Misuse of the queue is detected and harmless: popping from an empty
    queue raises [ValueError], popping more blocks than are free fails the
    assertion, and removing a block that is not in the free list (already
    allocated, or freed by someone else) raises [RuntimeError]; in each case
    the queue is left exactly as it was. *)
Theorem queue_misuse_detected (q : FreeKVCacheBlockQueue) (l : list Z) :
  rep q l ->
  (l = [] -> popleft q = Raise ValueError q) /\
  (forall n, Z.of_nat (length l) < n -> popleft_n n q = Raise AssertionError q) /\
  (forall b, b ∉ l -> 0 <= b -> remove b q = Raise RuntimeError q).
Proof.
  intros Hrep. split; [|split].
  - intros ->. by apply popleft_empty.
  - intros n. by apply popleft_n_too_many.
  - intros b. by apply remove_not_free.
Qed.

Lemma queue_misuse_detected_witness :
  exists q, queue_init [7] = Ret tt q /\
    popleft_n 2 q = Raise AssertionError q /\ remove 3 q = Raise RuntimeError q.
Proof.
  destruct (queue_init_rep [7]) as (q & Hi & Hrep); [apply NoDup_singleton | by repeat constructor |].
  exists q. destruct (queue_misuse_detected q [7] Hrep) as (_ & Hn & Hr).
  split; [exact Hi|]. split; [apply Hn; done | apply Hr; [set_solver | done]].
Defined.
