(* ===== verification/Request.v ===== *)
(** Requests ([vllm/v1/request.py]), the stop conditions
    ([vllm/v1/core/sched/utils.py]) and the token-append loop of the scheduler
    that drives them ([Scheduler._update_request_with_output]).

    Times are integers ([arrival_time] is only compared). The block hasher that
    the source stores on the request as a closure is an argument of the
    operations that call it. *)
From stdpp Require Import gmap strings list.
From Stdlib Require Import ZArith QArith Lia OrdersEx.
From S2P Require Import Prelude.
Open Scope Z_scope.

(** ** Status *)

Inductive RequestStatus :=
| WAITING | WAITING_FOR_FSM | WAITING_FOR_REMOTE_KVS | RUNNING | PREEMPTED
| FINISHED_STOPPED | FINISHED_LENGTH_CAPPED | FINISHED_ABORTED | FINISHED_IGNORED.

#[export] Instance RequestStatus_eq_dec : EqDecision RequestStatus.
Proof. solve_decision. Defined.

(** The [IntEnum] value. *)
Definition status_value (s : RequestStatus) : Z :=
  match s with
  | WAITING => 1 | WAITING_FOR_FSM => 2 | WAITING_FOR_REMOTE_KVS => 3
  | RUNNING => 4 | PREEMPTED => 5 | FINISHED_STOPPED => 6
  | FINISHED_LENGTH_CAPPED => 7 | FINISHED_ABORTED => 8 | FINISHED_IGNORED => 9
  end.

Definition status_is_finished (s : RequestStatus) : bool :=
  status_value PREEMPTED <? status_value s.

Inductive FinishReason := STOP | LENGTH | ABORT.

(** [_FINISHED_REASON_MAP.get(status)] *)
Definition status_finished_reason (s : RequestStatus) : option FinishReason :=
  match s with
  | FINISHED_STOPPED => Some STOP
  | FINISHED_LENGTH_CAPPED => Some LENGTH
  | FINISHED_ABORTED => Some ABORT
  | FINISHED_IGNORED => Some LENGTH
  | _ => None
  end.

(** ** Data *)

(** Byte strings: lists of byte values. *)
Notation bytes := (list Z) (only parsing).

Record PlaceholderRange := mkRange { offset : Z; range_length : Z }.
Record MultiModalFeatureSpec := mkFeature {
  identifier : string;
  mm_position : PlaceholderRange
}.

(** What the sampler reads; floats, which are stored and compared only, are rationals. *)
Record DrawParams := mkDraw {
  temperature : Q;
  top_p : Q;
  top_k : Z;
  min_p : Q;
  frequency_penalty : Q;
  presence_penalty : Q;
  repetition_penalty : Q;
  seed : option Z;
  logprobs : option Z;
  prompt_logprobs : option Z;
  allowed_token_ids : option (list Z);
  bad_words_token_ids : option (list (list Z))
}.
(** The defaults of the class. *)
Definition default_draw : DrawParams := mkDraw 1 1 0 0 0 0 1 None None None None None.

Record SamplingParams := mkSampling {
  sp_max_tokens : option Z;
  sp_min_tokens : Z;
  sp_ignore_eos : bool;
  sp_stop_token_ids : option (list Z);
  sp_skip_reading_prefix_cache : option bool;
  (* [structured_outputs] is given and not all of its constraints are None *)
  sp_structured_outputs : bool;
  (* [extra_args["kv_transfer_params"]], an opaque value *)
  sp_kv_transfer_params : option Z;
  sp_draw : DrawParams
}.
Record PoolingParams := mkPooling {
  pp_skip_reading_prefix_cache : option bool;
  pp_task : option string;
  requires_token_ids : bool
}.
Record LoRARequest := mkLoRA { lora_name : string; lora_int_id : Z }.

Inductive EngineCoreEventType := QUEUED | SCHEDULED | EV_PREEMPTED.

(** The constructor's arguments, never written again. *)
Record RequestArgs := mkArgs {
  request_id : string;
  obj_id : Z; (* identity of the object, [id(self)] *)
  client_index : Z;
  priority : Z;
  arrival_time : Z;
  prompt_token_ids : option (list Z);
  prompt_embeds : option (list bytes); (* one byte string per row *)
  sampling_params : option SamplingParams;
  pooling_params : option PoolingParams;
  eos_token_id : option Z;
  mm_features : list MultiModalFeatureSpec;
  lora_request : option LoRARequest;
  cache_salt : option string
}.

Record Request := mkRequest {
  args : RequestArgs;
  max_tokens : Z;
  num_prompt_tokens : Z;
  use_structured_output : bool;
  kv_transfer_params : option Z;
  status : RequestStatus;
  events : list (EngineCoreEventType * Z);
  stop_reason : option Z;
  output_token_ids : list Z;
  all_token_ids : list Z;
  num_output_placeholders : Z;
  discard_latest_async_tokens : bool;
  spec_token_ids : list Z;
  num_computed_tokens : Z;
  num_cached_tokens : Z;
  num_nans_in_logits : Z;
  num_preemptions : Z;
  num_external_computed_tokens : Z;
  block_hashes : list bytes
}.

(** ** Read-only properties *)

Definition num_tokens (r : Request) : Z := Z.of_nat (length (all_token_ids r)).
Definition num_tokens_with_spec (r : Request) : Z :=
  Z.of_nat (length (all_token_ids r)) + Z.of_nat (length (spec_token_ids r)).
Definition num_output_tokens (r : Request) : Z := Z.of_nat (length (output_token_ids r)).
Definition is_finished (r : Request) : bool := status_is_finished (status r).
Definition get_finished_reason (r : Request) : option FinishReason :=
  status_finished_reason (status r).
Definition has_encoder_inputs (r : Request) : bool :=
  bool_decide (0 < length (mm_features (args r)))%nat.

Definition get_skip_reading_prefix_cache (a : RequestArgs) : bool :=
  match sampling_params a with
  | Some sp =>
      match sp_skip_reading_prefix_cache sp with
      | Some b => b
      | None =>
          match pooling_params a with
          | Some pp => default false (pp_skip_reading_prefix_cache pp)
          | None => false
          end
      end
  | None =>
      match pooling_params a with
      | Some pp => default false (pp_skip_reading_prefix_cache pp)
      | None => false
      end
  end.

Definition get_num_encoder_tokens (r : Request) (input_id : nat) : exn + Z :=
  match mm_features (args r) !! input_id with
  | Some f => inr (range_length (mm_position f))
  | None => inl AssertionError
  end.

(** ** Attribute writes *)

Definition set_status (s : RequestStatus) (r : Request) : Request :=
  mkRequest (args r) (max_tokens r) (num_prompt_tokens r) (use_structured_output r)
    (kv_transfer_params r) s (events r) (stop_reason r) (output_token_ids r)
    (all_token_ids r) (num_output_placeholders r) (discard_latest_async_tokens r)
    (spec_token_ids r) (num_computed_tokens r) (num_cached_tokens r)
    (num_nans_in_logits r) (num_preemptions r) (num_external_computed_tokens r)
    (block_hashes r).

Definition set_stop_reason (x : option Z) (r : Request) : Request :=
  mkRequest (args r) (max_tokens r) (num_prompt_tokens r) (use_structured_output r)
    (kv_transfer_params r) (status r) (events r) x (output_token_ids r)
    (all_token_ids r) (num_output_placeholders r) (discard_latest_async_tokens r)
    (spec_token_ids r) (num_computed_tokens r) (num_cached_tokens r)
    (num_nans_in_logits r) (num_preemptions r) (num_external_computed_tokens r)
    (block_hashes r).

Definition set_tokens (outs alls : list Z) (r : Request) : Request :=
  mkRequest (args r) (max_tokens r) (num_prompt_tokens r) (use_structured_output r)
    (kv_transfer_params r) (status r) (events r) (stop_reason r) outs
    alls (num_output_placeholders r) (discard_latest_async_tokens r)
    (spec_token_ids r) (num_computed_tokens r) (num_cached_tokens r)
    (num_nans_in_logits r) (num_preemptions r) (num_external_computed_tokens r)
    (block_hashes r).

Definition set_block_hashes (h : list bytes) (r : Request) : Request :=
  mkRequest (args r) (max_tokens r) (num_prompt_tokens r) (use_structured_output r)
    (kv_transfer_params r) (status r) (events r) (stop_reason r) (output_token_ids r)
    (all_token_ids r) (num_output_placeholders r) (discard_latest_async_tokens r)
    (spec_token_ids r) (num_computed_tokens r) (num_cached_tokens r)
    (num_nans_in_logits r) (num_preemptions r) (num_external_computed_tokens r) h.

Definition set_events (ev : list (EngineCoreEventType * Z)) (r : Request) : Request :=
  mkRequest (args r) (max_tokens r) (num_prompt_tokens r) (use_structured_output r)
    (kv_transfer_params r) (status r) ev (stop_reason r) (output_token_ids r)
    (all_token_ids r) (num_output_placeholders r) (discard_latest_async_tokens r)
    (spec_token_ids r) (num_computed_tokens r) (num_cached_tokens r)
    (num_nans_in_logits r) (num_preemptions r) (num_external_computed_tokens r)
    (block_hashes r).

Definition set_num_output_placeholders (x : Z) (r : Request) : Request :=
  mkRequest (args r) (max_tokens r) (num_prompt_tokens r) (use_structured_output r)
    (kv_transfer_params r) (status r) (events r) (stop_reason r) (output_token_ids r)
    (all_token_ids r) x (discard_latest_async_tokens r) (spec_token_ids r) (num_computed_tokens
    r) (num_cached_tokens r) (num_nans_in_logits r) (num_preemptions r)
    (num_external_computed_tokens r) (block_hashes r).

Definition set_discard (x : bool) (r : Request) : Request :=
  mkRequest (args r) (max_tokens r) (num_prompt_tokens r) (use_structured_output r)
    (kv_transfer_params r) (status r) (events r) (stop_reason r) (output_token_ids r)
    (all_token_ids r) (num_output_placeholders r) x (spec_token_ids r) (num_computed_tokens r)
    (num_cached_tokens r) (num_nans_in_logits r) (num_preemptions r)
    (num_external_computed_tokens r) (block_hashes r).

Definition set_spec_token_ids (x : list Z) (r : Request) : Request :=
  mkRequest (args r) (max_tokens r) (num_prompt_tokens r) (use_structured_output r)
    (kv_transfer_params r) (status r) (events r) (stop_reason r) (output_token_ids r)
    (all_token_ids r) (num_output_placeholders r) (discard_latest_async_tokens r) x
    (num_computed_tokens r) (num_cached_tokens r) (num_nans_in_logits r) (num_preemptions r)
    (num_external_computed_tokens r) (block_hashes r).

Definition set_num_computed_tokens (x : Z) (r : Request) : Request :=
  mkRequest (args r) (max_tokens r) (num_prompt_tokens r) (use_structured_output r)
    (kv_transfer_params r) (status r) (events r) (stop_reason r) (output_token_ids r)
    (all_token_ids r) (num_output_placeholders r) (discard_latest_async_tokens r)
    (spec_token_ids r) x (num_cached_tokens r) (num_nans_in_logits r) (num_preemptions r)
    (num_external_computed_tokens r) (block_hashes r).

Definition set_num_cached_tokens (x : Z) (r : Request) : Request :=
  mkRequest (args r) (max_tokens r) (num_prompt_tokens r) (use_structured_output r)
    (kv_transfer_params r) (status r) (events r) (stop_reason r) (output_token_ids r)
    (all_token_ids r) (num_output_placeholders r) (discard_latest_async_tokens r)
    (spec_token_ids r) (num_computed_tokens r) x (num_nans_in_logits r) (num_preemptions r)
    (num_external_computed_tokens r) (block_hashes r).

Definition set_num_nans (x : Z) (r : Request) : Request :=
  mkRequest (args r) (max_tokens r) (num_prompt_tokens r) (use_structured_output r)
    (kv_transfer_params r) (status r) (events r) (stop_reason r) (output_token_ids r)
    (all_token_ids r) (num_output_placeholders r) (discard_latest_async_tokens r)
    (spec_token_ids r) (num_computed_tokens r) (num_cached_tokens r) x (num_preemptions r)
    (num_external_computed_tokens r) (block_hashes r).

Definition set_num_preemptions (x : Z) (r : Request) : Request :=
  mkRequest (args r) (max_tokens r) (num_prompt_tokens r) (use_structured_output r)
    (kv_transfer_params r) (status r) (events r) (stop_reason r) (output_token_ids r)
    (all_token_ids r) (num_output_placeholders r) (discard_latest_async_tokens r)
    (spec_token_ids r) (num_computed_tokens r) (num_cached_tokens r) (num_nans_in_logits r) x
    (num_external_computed_tokens r) (block_hashes r).

Definition set_num_external (x : Z) (r : Request) : Request :=
  mkRequest (args r) (max_tokens r) (num_prompt_tokens r) (use_structured_output r)
    (kv_transfer_params r) (status r) (events r) (stop_reason r) (output_token_ids r)
    (all_token_ids r) (num_output_placeholders r) (discard_latest_async_tokens r)
    (spec_token_ids r) (num_computed_tokens r) (num_cached_tokens r) (num_nans_in_logits r)
    (num_preemptions r) x (block_hashes r).

Definition record_event (t : EngineCoreEventType) (timestamp : Z) (r : Request) : Request :=
  set_events (events r ++ [(t, timestamp)]) r.

Definition take_events (r : Request)
    : option (list (EngineCoreEventType * Z)) * Request :=
  match events r with
  | [] => (None, r)
  | evs => (Some evs, set_events [] r)
  end.

(** [length_from_prompt_token_ids_or_embeds] of [vllm/utils/__init__.py]. *)
Definition length_from_prompt_token_ids_or_embeds
    (token_ids : option (list Z)) (embeds : option (list bytes)) : exn + Z :=
  match token_ids with
  | None =>
      match embeds with
      | None => inl ValueError
      | Some e => inr (Z.of_nat (length e))
      end
  | Some t =>
      match embeds with
      | Some e =>
          if negb (length e =? length t)%nat then inl ValueError
          else inr (Z.of_nat (length t))
      | None => inr (Z.of_nat (length t))
      end
  end.

(** ** Construction and growth *)

Section hashing.
(** [block_hasher]: computes the hashes of the newly completed blocks. *)
Variable block_hasher : option (Request -> list bytes).

(** [if self.get_hash_new_full_blocks is not None: self.block_hashes.extend(...)] *)
Definition hash_new_full_blocks (r : Request) : Request :=
  match block_hasher with
  | Some h => set_block_hashes (block_hashes r ++ h r) r
  | None => r
  end.

Definition Request_init (a : RequestArgs) : exn + Request :=
  let build (mt : Z) (st : RequestStatus) (kvp : option Z) (structured : bool)
      : exn + Request :=
    match length_from_prompt_token_ids_or_embeds (prompt_token_ids a) (prompt_embeds a) with
    | inl e => inl e
    | inr n =>
        let alls := match prompt_token_ids a with
                    | Some t => t
                    | None => replicate (Z.to_nat n) 0
                    end in
        inr (hash_new_full_blocks
               (mkRequest a mt n structured kvp st [] None [] alls 0 false [] 0 (-1) 0 0 0 []))
    end in
  let structured :=
    match sampling_params a with Some sp => sp_structured_outputs sp | None => false end in
  match pooling_params a with
  | Some _ => build 1 WAITING None structured
  | None =>
      match sampling_params a with
      | Some sp =>
          match sp_max_tokens sp with
          | None => inl AssertionError
          | Some mt =>
              build mt (if structured then WAITING_FOR_FSM else WAITING)
                (sp_kv_transfer_params sp) structured
          end
      | None => inl ValueError
      end
  end.

(** [append_output_token_ids], with one token or with a list. *)
Definition append_output_token_ids (token_ids : list Z) (r : Request) : Request :=
  hash_new_full_blocks
    (set_tokens (output_token_ids r ++ token_ids) (all_token_ids r ++ token_ids) r).

End hashing.

(** ** Stop conditions *)

(** [check_stop(request, max_model_len, pooler_output)]: the (mutated) request
    and whether it stops. *)
Definition check_stop (max_model_len : Z) (pooler_output : option Z) (r : Request)
    : exn + (Request * bool) :=
  match pooling_params (args r) with
  | Some _ =>
      match pooler_output with
      | Some _ => inr (set_status FINISHED_STOPPED r, true)
      | None => inr (r, false)
      end
  | None =>
      match sampling_params (args r) with
      | None => inl AssertionError
      | Some sp =>
          if num_output_tokens r <? sp_min_tokens sp then inr (r, false) else
          match last (output_token_ids r) with
          | None => inl IndexError
          | Some last_token_id =>
              if negb (sp_ignore_eos sp)
                 && bool_decide (Some last_token_id = eos_token_id (args r))
              then inr (set_status FINISHED_STOPPED r, true)
              else if bool_decide (last_token_id ∈ default [] (sp_stop_token_ids sp))
              then inr (set_stop_reason (Some last_token_id)
                          (set_status FINISHED_STOPPED r), true)
              else if (max_model_len <=? num_tokens r) || (max_tokens r <=? num_output_tokens r)
              then inr (set_status FINISHED_LENGTH_CAPPED r, true)
              else inr (r, false)
          end
      end
  end.

(** [Scheduler._update_request_with_output]: append the sampled tokens one by
    one, stop at the first that satisfies a stop condition and drop the rest.
    Returns the tokens kept and whether the request stopped. *)
Fixpoint update_request_with_output (block_hasher : option (Request -> list bytes))
    (max_model_len : Z) (r : Request) (new_token_ids : list Z)
    : exn + (Request * (list Z * bool)) :=
  match new_token_ids with
  | [] => inr (r, ([], false))
  | t :: ts =>
      let r1 := append_output_token_ids block_hasher [t] r in
      match check_stop max_model_len None r1 with
      | inl e => inl e
      | inr (r2, true) => inr (r2, ([t], true))
      | inr (r2, false) =>
          match update_request_with_output block_hasher max_model_len r2 ts with
          | inl e => inl e
          | inr (r3, (kept, stopped)) => inr (r3, (t :: kept, stopped))
          end
      end
  end.

(** [remove_all(lst, items_to_remove)]: one item is removed by [list.remove]
    (its first occurrence, if any), several by a filter. *)
Fixpoint list_remove_first {A} `{EqDecision A} (x : A) (l : list A) : list A :=
  match l with
  | [] => []
  | y :: l' => if decide (y = x) then l' else y :: list_remove_first x l'
  end.

Definition remove_all {A} `{Countable A} (lst : list A) (items : gset A) : list A :=
  match elements items with
  | [] => lst
  | [item] => list_remove_first item lst
  | _ => filter (fun x => x ∉ items) lst
  end.

(** [Request.__lt__] *)
Definition request_lt (r1 r2 : RequestArgs) : bool :=
  if negb (priority r1 =? priority r2) then priority r1 <? priority r2
  else if negb (arrival_time r1 =? arrival_time r2)
  then arrival_time r1 <? arrival_time r2
  else if negb (bool_decide (request_id r1 = request_id r2))
  then String.ltb (request_id r1) (request_id r2)
  else obj_id r1 <? obj_id r2.

(** ** Properties *)

(** What a request keeps: its token list is its prompt followed by its output. *)
Definition tokens_wf (r : Request) : Prop :=
  exists prompt, length prompt = Z.to_nat (num_prompt_tokens r) /\
    0 <= num_prompt_tokens r /\ all_token_ids r = prompt ++ output_token_ids r.

Lemma status_finished_iff s :
  status_is_finished s = true <-> is_Some (status_finished_reason s).
Proof. destruct s; split; intros H; try done; try (by eexists); by destruct H. Qed.

Lemma hash_new_full_blocks_frame h r :
  all_token_ids (hash_new_full_blocks h r) = all_token_ids r /\
  output_token_ids (hash_new_full_blocks h r) = output_token_ids r /\
  args (hash_new_full_blocks h r) = args r /\
  max_tokens (hash_new_full_blocks h r) = max_tokens r /\
  num_prompt_tokens (hash_new_full_blocks h r) = num_prompt_tokens r /\
  status (hash_new_full_blocks h r) = status r.
Proof. by destruct h. Qed.

(** The attributes [check_stop] and the append loop leave alone. *)
Definition same_request (r r' : Request) : Prop :=
  args r' = args r /\ max_tokens r' = max_tokens r /\
  num_prompt_tokens r' = num_prompt_tokens r.

Lemma append_output_frame h ts r :
  let r' := append_output_token_ids h ts r in
  same_request r r' /\ status r' = status r /\
  output_token_ids r' = output_token_ids r ++ ts /\
  all_token_ids r' = all_token_ids r ++ ts.
Proof. unfold same_request. by destruct h. Qed.

(** Whether a token stops a request on its own: end-of-sequence or stop id. *)
Definition stop_token (r : Request) (sp : SamplingParams) (t : Z) : bool :=
  (negb (sp_ignore_eos sp) && bool_decide (Some t = eos_token_id (args r)))
  || bool_decide (t ∈ default [] (sp_stop_token_ids sp)).

(** Whether the request has reached one of its two length caps. *)
Definition length_capped (max_model_len : Z) (r : Request) : bool :=
  (max_model_len <=? num_tokens r) || (max_tokens r <=? num_output_tokens r).

Definition should_stop (max_model_len : Z) (r : Request) (sp : SamplingParams) (t : Z) : bool :=
  negb (num_output_tokens r <? sp_min_tokens sp) &&
  (stop_token r sp t || length_capped max_model_len r).

(** [check_stop] on a generative request decides exactly [should_stop], finishes
    the request iff it stops, and never touches its tokens. *)
Lemma check_stop_spec max_model_len r sp t :
  pooling_params (args r) = None -> sampling_params (args r) = Some sp ->
  last (output_token_ids r) = Some t ->
  exists r', check_stop max_model_len None r = inr (r', should_stop max_model_len r sp t) /\
    same_request r r' /\ output_token_ids r' = output_token_ids r /\
    all_token_ids r' = all_token_ids r /\
    (should_stop max_model_len r sp t = false -> r' = r) /\
    (should_stop max_model_len r sp t = true ->
       status r' = if stop_token r sp t then FINISHED_STOPPED else FINISHED_LENGTH_CAPPED).
Proof.
  intros Hp Hs Hl. unfold check_stop, should_stop, stop_token, length_capped. rewrite Hp, Hs, Hl.
  destruct (num_output_tokens r <? sp_min_tokens sp); simpl.
  { eexists. by split_and!. }
  destruct (negb (sp_ignore_eos sp) && bool_decide (Some t = eos_token_id (args r))); simpl.
  { eexists. by split_and!. }
  destruct (bool_decide (t ∈ default [] (sp_stop_token_ids sp))); simpl.
  { eexists. by split_and!. }
  destruct ((max_model_len <=? num_tokens r) || (max_tokens r <=? num_output_tokens r)); simpl;
    eexists; by split_and!.
Qed.

Section update.
Context (h : option (Request -> list bytes)) (max_model_len : Z).

(** What the append loop guarantees, in one relation: [kept] is an initial part
    of the sampled tokens, the request grew by exactly [kept], and stopping is
    what ended the loop early. *)
Record update_post (r : Request) (sp : SamplingParams) (news : list Z)
    (r' : Request) (kept : list Z) (stopped : bool) : Prop := {
  up_prefix : kept `prefix_of` news;
  up_same : same_request r r';
  up_out : output_token_ids r' = output_token_ids r ++ kept;
  up_all : all_token_ids r' = all_token_ids r ++ kept;
  up_run : stopped = false -> kept = news /\ status r' = status r;
  up_stop : stopped = true ->
    exists pre t, kept = pre ++ [t] /\ is_finished r' = true
}.

Lemma update_request_spec r sp news :
  pooling_params (args r) = None -> sampling_params (args r) = Some sp ->
  exists r' kept stopped,
    update_request_with_output h max_model_len r news = inr (r', (kept, stopped)) /\
    update_post r sp news r' kept stopped.
Proof.
  revert r. induction news as [|t ts IH]; intros r Hp Hs; simpl.
  { exists r, [], false. split; [done|]. split; try done; by rewrite app_nil_r. }
  set (r1 := append_output_token_ids h [t] r).
  destruct (append_output_frame h [t] r) as ((Ha1 & Hm1 & Hn1) & Hst1 & Ho1 & Hall1).
  fold r1 in Ha1, Hm1, Hn1, Hst1, Ho1, Hall1.
  destruct (check_stop_spec max_model_len r1 sp t) as (r2 & -> & Hsame & Ho2 & Hall2 & Hf & Ht);
    [by rewrite Ha1|by rewrite Ha1|by rewrite Ho1, last_snoc|].
  destruct Hsame as (Ha2 & Hm2 & Hn2).
  destruct (should_stop max_model_len r1 sp t).
  - exists r2, [t], true. split; [done|]. specialize (Ht eq_refl). split; try done.
    + by apply prefix_cons, prefix_nil.
    + split; [|split]; congruence.
    + by rewrite Ho2, Ho1.
    + by rewrite Hall2, Hall1.
    + intros _. exists [], t. split; [done|]. unfold is_finished. rewrite Ht.
      by destruct (stop_token r1 sp t).
  - specialize (Hf eq_refl). subst r2.
    destruct (IH r1) as (r3 & kept & stopped & -> & [Hpre Hsame Ho Hall Hrun Hstop]);
      [by rewrite Ha1|by rewrite Ha1|].
    destruct Hsame as (Ha3 & Hm3 & Hn3).
    exists r3, (t :: kept), stopped. split; [done|]. split.
    + by apply prefix_cons.
    + split; [|split]; congruence.
    + rewrite Ho, Ho1. by rewrite <-app_assoc.
    + rewrite Hall, Hall1. by rewrite <-app_assoc.
    + intros E. destruct (Hrun E) as [-> Hst]. split; [done|]. congruence.
    + intros E. destruct (Hstop E) as (pre & t' & -> & Hfin). by exists (t :: pre), t'.
Qed.

(** Within the caps before the step, within the caps after it. *)
Definition within (r : Request) : Prop :=
  num_output_tokens r < max_tokens r /\ num_tokens r < max_model_len.

Lemma not_should_stop_within r sp t :
  tokens_wf r -> sp_min_tokens sp <= max_tokens r ->
  num_prompt_tokens r + sp_min_tokens sp <= max_model_len ->
  should_stop max_model_len r sp t = false -> within r.
Proof.
  intros (p & Hlen & Hpos & Hall) Hmin Hctx. unfold should_stop, within, length_capped.
  assert (num_tokens r = num_prompt_tokens r + num_output_tokens r) as Hn.
  { unfold num_tokens, num_output_tokens. rewrite Hall, length_app. lia. }
  rewrite andb_false_iff, negb_false_iff, Z.ltb_lt, !orb_false_iff, !Z.leb_gt.
  intros [?|[_ [? ?]]]; lia.
Qed.

Lemma tokens_wf_append r ts : tokens_wf r -> tokens_wf (append_output_token_ids h ts r).
Proof.
  intros (p & Hlen & Hpos & Hall).
  destruct (append_output_frame h ts r) as ((_ & _ & Hn) & _ & Ho & Ha).
  exists p. rewrite Hn, Ho, Ha, Hall. split; [done|]. split; [done|]. by rewrite app_assoc.
Qed.

Lemma update_request_bounds r sp news r' kept stopped :
  pooling_params (args r) = None -> sampling_params (args r) = Some sp ->
  tokens_wf r -> within r -> sp_min_tokens sp <= max_tokens r ->
  num_prompt_tokens r + sp_min_tokens sp <= max_model_len ->
  update_request_with_output h max_model_len r news = inr (r', (kept, stopped)) ->
  num_output_tokens r' <= max_tokens r' /\ num_tokens r' <= max_model_len /\
  (stopped = false -> within r').
Proof.
  revert r r' kept. induction news as [|t ts IH]; intros r r' kept Hp Hs Hwf Hw Hmin Hctx; simpl.
  { intros [= <- <- <-]. unfold within in *. lia. }
  pose proof (tokens_wf_append r [t] Hwf) as Hwf1.
  destruct (append_output_frame h [t] r) as ((Ha1 & Hm1 & Hn1) & _ & Ho1 & Hall1).
  destruct (check_stop_spec max_model_len (append_output_token_ids h [t] r) sp t)
    as (r2 & -> & (_ & Hm2 & _) & Ho2 & Hall2 & Hf & _);
    [by rewrite Ha1|by rewrite Ha1|by rewrite Ho1, last_snoc|].
  destruct (should_stop max_model_len _ sp t) eqn:Ess.
  - intros [= <- <- <-]. unfold within, num_output_tokens, num_tokens in *.
    rewrite Hm2, Ho2, Hall2, Ho1, Hall1, Hm1, !length_app. simpl. lia.
  - specialize (Hf eq_refl). subst r2. apply not_should_stop_within in Ess; [|done|lia|lia].
    destruct (update_request_with_output h max_model_len _ ts) as [|[r3 [k s]]] eqn:E; [done|].
    intros [= <- <- <-]. eapply (IH _ _ k); [..|exact E]; rewrite ?Ha1, ?Hm1, ?Hn1; done.
Qed.

End update.

(** Generation is bounded and the caps are exact: for a generative request
    below both of its caps ([max_tokens] outputs, [max_model_len] tokens) whose
    [min_tokens] fits them, feeding any batch of sampled tokens (speculative
    decoding may return several) never raises, keeps an initial part of the
    batch, extends output and token list by exactly that part, never exceeds a
    cap, leaves the request strictly below both caps when it goes on, and marks
    it finished when it stops. *)
Theorem generation_bounded h max_model_len r sp news :
  pooling_params (args r) = None -> sampling_params (args r) = Some sp ->
  tokens_wf r ->
  num_output_tokens r < max_tokens r -> num_tokens r < max_model_len ->
  sp_min_tokens sp <= max_tokens r ->
  num_prompt_tokens r + sp_min_tokens sp <= max_model_len ->
  exists r' kept stopped,
    update_request_with_output h max_model_len r news = inr (r', (kept, stopped)) /\
    kept `prefix_of` news /\
    output_token_ids r' = output_token_ids r ++ kept /\
    all_token_ids r' = all_token_ids r ++ kept /\
    num_output_tokens r' <= max_tokens r /\ num_tokens r' <= max_model_len /\
    (stopped = false -> kept = news /\ num_output_tokens r' < max_tokens r /\
                        num_tokens r' < max_model_len) /\
    (stopped = true -> is_finished r' = true).
Proof.
  intros Hp Hs Hwf Hmax Hlen Hmin Hctx.
  destruct (update_request_spec h max_model_len r sp news Hp Hs)
    as (r' & kept & stopped & E & [Hpre (_ & Hm & _) Ho Ha Hrun Hstop]).
  exists r', kept, stopped. split; [done|].
  pose proof (update_request_bounds h max_model_len r sp news r' kept stopped Hp Hs Hwf
                (conj Hmax Hlen) Hmin Hctx E) as (B1 & B2 & B3).
  rewrite Hm in B1. split_and!; try done.
  - intros Ef. destruct (Hrun Ef) as [Hk _]. destruct (B3 Ef) as [? ?]. by rewrite <-Hm.
  - intros Et. by destruct (Hstop Et) as (? & ? & _ & ?).
Qed.

Definition demo_sampling : SamplingParams :=
  mkSampling (Some 4) 0 false (Some [2150]) None false None default_draw.
Definition demo_args (sp : SamplingParams) : RequestArgs :=
  mkArgs "r0" 0 0 0 0 (Some [11; 12; 13]) None (Some sp) None (Some 7) [] None None.
Definition demo_request (sp : SamplingParams) (outs : list Z) : Request :=
  mkRequest (demo_args sp) (default 0 (sp_max_tokens sp)) 3 false None RUNNING [] None outs
    ([11; 12; 13] ++ outs) 0 false [] 0 (-1) 0 0 0 [].

Lemma generation_bounded_witness :
  exists r' kept stopped,
    update_request_with_output None 16 (demo_request demo_sampling [5]) [6; 2150; 9]
      = inr (r', (kept, stopped)) /\
    kept `prefix_of` [6; 2150; 9] /\
    output_token_ids r' = [5] ++ kept /\
    all_token_ids r' = [11; 12; 13; 5] ++ kept /\
    num_output_tokens r' <= 4 /\ num_tokens r' <= 16 /\
    (stopped = false -> kept = [6; 2150; 9] /\ num_output_tokens r' < 4 /\ num_tokens r' < 16) /\
    (stopped = true -> is_finished r' = true).
Proof.
  apply (generation_bounded None 16 (demo_request demo_sampling [5]) demo_sampling [6; 2150; 9]);
    try reflexivity; try (vm_compute; done).
  exists [11; 12; 13]. done.
Defined.

(** The cap on the context length is skipped while a request is below
    [min_tokens]: a request whose prompt already leaves fewer than [min_tokens]
    positions reaches [max_model_len] tokens and still does not stop. *)
Theorem min_tokens_overruns_context :
  let sp := mkSampling (Some 8) 6 false None None false None default_draw in
  let r := demo_request sp [1; 2] in
  exists r', update_request_with_output None 5 r [3] = inr (r', ([3], false)) /\
    5 < num_tokens r' /\ is_finished r' = false.
Proof. eexists. split; [reflexivity|]. done. Qed.

(** ** The scheduling order on requests *)

Lemma string_ltb_lt s1 s2 : String.ltb s1 s2 = true <-> String.compare s1 s2 = Lt.
Proof. unfold String.ltb. by destruct (String.compare s1 s2). Qed.

Lemma request_lt_spec a b :
  request_lt a b = true <->
  priority a < priority b \/ priority a = priority b /\
    (arrival_time a < arrival_time b \/ arrival_time a = arrival_time b /\
      (OrdersEx.String_as_OT.lt (request_id a) (request_id b) \/
       request_id a = request_id b /\ obj_id a < obj_id b)).
Proof.
  unfold request_lt, OrdersEx.String_as_OT.lt.
  destruct (priority a =? priority b) eqn:E1; simpl;
    [apply Z.eqb_eq in E1 | apply Z.eqb_neq in E1; rewrite Z.ltb_lt; lia].
  destruct (arrival_time a =? arrival_time b) eqn:E2; simpl;
    [apply Z.eqb_eq in E2 | apply Z.eqb_neq in E2; rewrite Z.ltb_lt; lia].
  case_bool_decide as E3; simpl.
  - rewrite Z.ltb_lt. split; [by auto 10 | intros [?|(_ & [?|(_ & [Hc|[_ ?]])])]; try lia].
    rewrite E3 in Hc. by apply OrdersEx.String_as_OT.lt_strorder in Hc.
  - rewrite string_ltb_lt. split; [by auto 10|].
    intros [?|(_ & [?|(_ & [Hc|[? _]])])]; try lia; done.
Qed.

Lemma request_lt_irrefl a : request_lt a a = false.
Proof.
  apply not_true_is_false. rewrite request_lt_spec.
  intros [?|(_ & [?|(_ & [Hs|[_ ?]])])]; try lia.
  by apply OrdersEx.String_as_OT.lt_strorder in Hs.
Qed.

Lemma request_lt_trans a b c :
  request_lt a b = true -> request_lt b c = true -> request_lt a c = true.
Proof.
  rewrite !request_lt_spec.
  intros [?|(? & [?|(? & [Hs|[? ?]])])] [?|(? & [?|(? & [Hs'|[? ?]])])]; try lia.
  - do 2 (right; split; [congruence|]). left.
    by eapply (StrictOrder_Transitive (R := OrdersEx.String_as_OT.lt)).
  - do 2 (right; split; [congruence|]). left. congruence.
  - do 2 (right; split; [congruence|]). left. congruence.
  - do 2 (right; split; [congruence|]). right. split; [congruence|lia].
Qed.

Lemma request_lt_asym a b : request_lt a b = true -> request_lt b a = false.
Proof.
  intros H. apply not_true_is_false. intros H'.
  pose proof (request_lt_trans _ _ _ H H') as Hc. by rewrite request_lt_irrefl in Hc.
Qed.

(** What the order compares. *)
Definition request_key (r : RequestArgs) : Z * Z * string * Z :=
  (priority r, arrival_time r, request_id r, obj_id r).

Lemma request_lt_trichotomy a b :
  request_lt a b = true \/ request_lt b a = true \/ request_key a = request_key b.
Proof.
  rewrite !request_lt_spec. unfold request_key.
  destruct (Z.lt_trichotomy (priority a) (priority b)) as [?|[?|?]]; [by auto| |by auto 20].
  destruct (Z.lt_trichotomy (arrival_time a) (arrival_time b)) as [?|[?|?]]; [by auto| |by auto 20].
  destruct (OrdersEx.String_as_OT.compare_spec (request_id a) (request_id b)) as [?|?|?];
    [|by auto 20|by auto 20].
  destruct (Z.lt_trichotomy (obj_id a) (obj_id b)) as [?|[?|?]];
    [by auto 20|do 2 right; congruence|by auto 20].
Qed.

Lemma request_lt_key a a' b b' :
  request_key a = request_key a' -> request_key b = request_key b' ->
  request_lt a b = request_lt a' b'.
Proof.
  unfold request_key, request_lt.
  intros [= -> -> -> ->] [= -> -> -> ->]. done.
Qed.

(** [not (b < a)] is transitive: the order is a strict weak one even between
    references that compare equal. *)
Lemma request_le_trans a b c :
  request_lt b a = false -> request_lt c b = false -> request_lt c a = false.
Proof.
  intros Hab Hbc. apply not_true_is_false. intros Hca.
  destruct (request_lt_trichotomy a b) as [H|[H|H]]; [|congruence|].
  - pose proof (request_lt_trans _ _ _ Hca H). congruence.
  - rewrite (request_lt_key c c a b) in Hca by done. congruence.
Qed.

(** [Request.__lt__] is a strict total order on distinct request objects
    (irreflexive, transitive, and any two requests that differ in identity are
    ordered one way), so the priority queue pops in a unique order. *)
Theorem request_lt_strict_total :
  (forall a, request_lt a a = false) /\
  (forall a b c, request_lt a b = true -> request_lt b c = true -> request_lt a c = true) /\
  (forall a b, obj_id a <> obj_id b ->
     (request_lt a b = true /\ request_lt b a = false) \/
     (request_lt b a = true /\ request_lt a b = false)).
Proof.
  split; [exact request_lt_irrefl|]. split; [exact request_lt_trans|]. intros a b Hne.
  destruct (request_lt_trichotomy a b) as [H|[H|H]].
  - left. auto using request_lt_asym.
  - right. auto using request_lt_asym.
  - by injection H.
Qed.
