(* ===== verification/RequestQueue.v ===== *)
(** The waiting queues of the scheduler
    ([vllm/v1/core/sched/request_queue.py]): the first-come-first-served deque
    and the priority heap behind one interface, and the skip-and-put-back idiom
    by which the scheduling loop uses them
    ([Scheduler.schedule] of [vllm/v1/core/sched/scheduler.py]).

    A queue holds references to request objects. What it reads through them is
    fixed at construction (identity and the fields [Request.__lt__] compares),
    so an element is a [RequestArgs]; two references are the same object when
    their [obj_id] agree, which is what [==], [in] and [set] compare
    ([Request] defines no [__eq__]).

    [Module Heapq] is the part of Python's [heapq] the source uses, with the
    library's own sift operations. *)
From stdpp Require Import gmap strings list sorting.
From Stdlib Require Import ZArith Lia.
From S2P Require Import Prelude Request.
Open Scope nat_scope.

(** ** The [heapq] module *)
Module Heapq.
Section ops.
Context {A : Type} (lt : A -> A -> bool).

(** [_siftdown(heap, startpos, pos)], with [newitem] the element at [pos]:
    parents that are larger move down until [newitem] fits. *)
Fixpoint siftdown_loop (fuel : nat) (h : list A) (startpos pos : nat) (newitem : A) : list A :=
  match fuel with
  | 0 => h
  | S fuel' =>
      if startpos <? pos then
        let parentpos := Nat.div2 (pos - 1) in
        match h !! parentpos with
        | Some parent =>
            if lt newitem parent
            then siftdown_loop fuel' (<[pos:=parent]> h) startpos parentpos newitem
            else <[pos:=newitem]> h
        | None => h
        end
      else <[pos:=newitem]> h
  end.

Definition siftdown (h : list A) (startpos pos : nat) : list A :=
  match h !! pos with
  | Some newitem => siftdown_loop (S pos) h startpos pos newitem
  | None => h
  end.

(** The smaller child of [pos]: the right one when the left is not smaller. *)
Definition smaller_child (h : list A) (pos : nat) : nat :=
  let childpos := 2 * pos + 1 in
  match h !! childpos, h !! (childpos + 1) with
  | Some l, Some r => if negb (lt l r) then childpos + 1 else childpos
  | _, _ => childpos
  end.

(** The first phase of [_siftup]: the smaller children move up until a leaf is
    reached; the result is the list and the leaf position. *)
Fixpoint siftup_loop (fuel : nat) (h : list A) (pos : nat) : list A * nat :=
  match fuel with
  | 0 => (h, pos)
  | S fuel' =>
      let childpos := smaller_child h pos in
      match h !! childpos with
      | Some c => siftup_loop fuel' (<[pos:=c]> h) childpos
      | None => (h, pos)
      end
  end.

(** [_siftup(heap, pos)] *)
Definition siftup (h : list A) (pos : nat) : list A :=
  match h !! pos with
  | Some newitem =>
      let (h', leaf) := siftup_loop (length h) h pos in
      siftdown (<[leaf:=newitem]> h') pos leaf
  | None => h
  end.

Definition heappush (h : list A) (item : A) : list A :=
  siftdown (h ++ [item]) 0 (length h).

(** [heappop(heap)]: None stands for the IndexError of popping an empty list. *)
Definition heappop (h : list A) : option (A * list A) :=
  match last h with
  | None => None
  | Some lastelt =>
      let h' := removelast h in
      match h' !! 0 with
      | None => Some (lastelt, h')
      | Some returnitem => Some (returnitem, siftup (<[0:=lastelt]> h') 0)
      end
  end.

(** [for i in reversed(range(n)): _siftup(x, i)] *)
Fixpoint heapify_loop (n : nat) (h : list A) : list A :=
  match n with
  | 0 => h
  | S n' => heapify_loop n' (siftup h n')
  end.

Definition heapify (h : list A) : list A := heapify_loop (Nat.div2 (length h)) h.

End ops.
End Heapq.

(** ** The queues *)

Inductive SchedulingPolicy := FCFS | PRIORITY.

Definition same_object (r1 r2 : RequestArgs) : bool := (obj_id r1 =? obj_id r2)%Z.

(** [req in requests] for a set of requests *)
Definition in_requests (r : RequestArgs) (requests : list RequestArgs) : bool :=
  existsb (same_object r) requests.

(** [list.remove] and [deque.remove]: the first occurrence goes, None when
    there is none (the source's ValueError). *)
Fixpoint remove_first (r : RequestArgs) (l : list RequestArgs) : option (list RequestArgs) :=
  match l with
  | [] => None
  | x :: l' => if same_object x r then Some l' else (cons x) <$> remove_first r l'
  end.

(** The interface [RequestQueue]. [rq_iter] is [__iter__] run to its end and
    [rq_reversed] is [__reversed__]; [prepend_requests] takes the requests its
    argument, another queue of the same kind, holds. *)
Class RequestQueue (Q : Type) := {
  rq_new : Q;
  add_request : RequestArgs -> py Q unit;
  pop_request : py Q RequestArgs;
  peek_request : py Q RequestArgs;
  prepend_request : RequestArgs -> py Q unit;
  prepend_requests : Q -> py Q unit;
  remove_request : RequestArgs -> py Q unit;
  remove_requests : list RequestArgs -> py Q unit;
  rq_bool : Q -> bool;
  rq_len : Q -> nat;
  rq_iter : Q -> list RequestArgs;
  rq_reversed : Q -> list RequestArgs
}.

(** *** [FCFSRequestQueue], a deque *)
Record FCFSRequestQueue := mkFCFS { deque : list RequestArgs }.

Definition fcfs_modify (f : list RequestArgs -> list RequestArgs) : py FCFSRequestQueue unit :=
  py_modify (fun q => mkFCFS (f (deque q))).

Definition fcfs_add_request (r : RequestArgs) : py FCFSRequestQueue unit :=
  fcfs_modify (fun l => l ++ [r]).

(** [popleft] of an empty deque raises IndexError. *)
Definition fcfs_pop_request : py FCFSRequestQueue RequestArgs :=
  let! q := py_get in
  match deque q with
  | [] => py_raise IndexError
  | r :: l => do! py_modify (fun _ => mkFCFS l); py_ret r
  end.

Definition fcfs_peek_request : py FCFSRequestQueue RequestArgs :=
  let! q := py_get in
  py_unwrap IndexError (head (deque q)).

(** [appendleft] *)
Definition fcfs_prepend_request (r : RequestArgs) : py FCFSRequestQueue unit :=
  fcfs_modify (cons r).

(** [extendleft(l)] pushes the elements of [l] on the left one by one. *)
Definition extendleft (l : list RequestArgs) (dq : list RequestArgs) : list RequestArgs :=
  fold_left (fun acc r => r :: acc) l dq.

Definition fcfs_prepend_requests (requests : FCFSRequestQueue) : py FCFSRequestQueue unit :=
  fcfs_modify (extendleft (rev (deque requests))).

Definition fcfs_remove_request (r : RequestArgs) : py FCFSRequestQueue unit :=
  let! q := py_get in
  let! l := py_unwrap ValueError (remove_first r (deque q)) in
  py_modify (fun _ => mkFCFS l).

Definition fcfs_remove_requests (requests : list RequestArgs) : py FCFSRequestQueue unit :=
  fcfs_modify (List.filter (fun req => negb (in_requests req requests))).

#[export] Instance fcfs_queue : RequestQueue FCFSRequestQueue := {
  rq_new := mkFCFS [];
  add_request := fcfs_add_request;
  pop_request := fcfs_pop_request;
  peek_request := fcfs_peek_request;
  prepend_request := fcfs_prepend_request;
  prepend_requests := fcfs_prepend_requests;
  remove_request := fcfs_remove_request;
  remove_requests := fcfs_remove_requests;
  rq_bool q := 0 <? length (deque q);
  rq_len q := length (deque q);
  rq_iter q := deque q;
  rq_reversed q := rev (deque q)
}.

(** *** [PriorityRequestQueue], a heap ordered by [Request.__lt__] *)
Record PriorityRequestQueue := mkPQ { heap : list RequestArgs }.

Definition pq_add_request (r : RequestArgs) : py PriorityRequestQueue unit :=
  py_modify (fun q => mkPQ (Heapq.heappush request_lt (heap q) r)).

Definition pq_pop_request : py PriorityRequestQueue RequestArgs :=
  let! q := py_get in
  match Heapq.heappop request_lt (heap q) with
  | None => py_raise IndexError
  | Some (r, h) => do! py_modify (fun _ => mkPQ h); py_ret r
  end.

Definition pq_peek_request : py PriorityRequestQueue RequestArgs :=
  let! q := py_get in
  py_unwrap IndexError (head (heap q)).

(** [__iter__]: a copy of the heap is popped until it is empty. *)
Fixpoint pop_all (fuel : nat) (h : list RequestArgs) : list RequestArgs :=
  match fuel with
  | 0 => []
  | S fuel' =>
      match Heapq.heappop request_lt h with
      | None => []
      | Some (r, h') => r :: pop_all fuel' h'
      end
  end.
Definition pq_iter (q : PriorityRequestQueue) : list RequestArgs :=
  pop_all (length (heap q)) (heap q).

Definition pq_prepend_requests (requests : PriorityRequestQueue) : py PriorityRequestQueue unit :=
  py_for (pq_iter requests) pq_add_request.

Definition pq_remove_request (r : RequestArgs) : py PriorityRequestQueue unit :=
  let! q := py_get in
  let! l := py_unwrap ValueError (remove_first r (heap q)) in
  py_modify (fun _ => mkPQ (Heapq.heapify request_lt l)).

Definition pq_remove_requests (requests : list RequestArgs) : py PriorityRequestQueue unit :=
  py_modify (fun q =>
    mkPQ (Heapq.heapify request_lt
            (List.filter (fun r => negb (in_requests r requests)) (heap q)))).

#[export] Instance priority_queue : RequestQueue PriorityRequestQueue := {
  rq_new := mkPQ [];
  add_request := pq_add_request;
  pop_request := pq_pop_request;
  peek_request := pq_peek_request;
  prepend_request := pq_add_request;
  prepend_requests := pq_prepend_requests;
  remove_request := pq_remove_request;
  remove_requests := pq_remove_requests;
  rq_bool q := match heap q with [] => false | _ => true end;
  rq_len q := length (heap q);
  rq_iter := pq_iter;
  rq_reversed q := rev (pq_iter q)
}.

(** [create_request_queue]: the queue and the class it belongs to. *)
Definition create_request_queue (policy : SchedulingPolicy)
    : FCFSRequestQueue + PriorityRequestQueue :=
  match policy with
  | PRIORITY => inr rq_new
  | FCFS => inl rq_new
  end.

(** ** The waiting loop's use of the queues

    The scheduling loop peeks the head of [self.waiting]; a request it cannot
    schedule now is popped and prepended to a second queue, which is put back
    at the front of [self.waiting] when the loop is over. The state is the pair
    of [self.waiting] and [skipped_waiting_requests]. *)
Section waiting_loop.
Context {Q : Type} `{RequestQueue Q}.

Definition skip_waiting : py (Q * Q) unit :=
  let! request := py_zoom fst (fun w s => (w, s.2)) peek_request in
  do! py_zoom fst (fun w s => (w, s.2)) pop_request;
  py_zoom snd (fun k s => (s.1, k)) (prepend_request request).

Definition put_back_skipped : py (Q * Q) unit :=
  let! s := py_get in
  if rq_bool s.2
  then py_zoom fst (fun w s => (w, s.2)) (prepend_requests s.2)
  else py_ret tt.

(** A pass that skips the first [n] waiting requests and schedules nothing. *)
Definition skip_pass (n : nat) : py Q unit := fun waiting =>
  match (do! py_for (seq 0 n) (fun _ => skip_waiting); put_back_skipped) (waiting, rq_new) with
  | Ret u s => Ret u s.1
  | Raise e s => Raise e s.1
  end.
End waiting_loop.

(** ** Correctness of the heap operations *)

Lemma insert_Permutation {A} (l : list A) i x y :
  l !! i = Some y -> y :: <[i:=x]> l ≡ₚ x :: l.
Proof.
  revert i. induction l as [|z l IH]; intros [|i] Hi; simplify_eq/=.
  - apply perm_swap.
  - rewrite perm_swap, (IH _ Hi). apply perm_swap.
Qed.

Lemma swap_Permutation {A} (l : list A) i j x a :
  i <> j -> l !! j = Some a -> i < length l ->
  <[j:=x]> (<[i:=a]> l) ≡ₚ <[i:=x]> l.
Proof.
  intros Hij Hj Hi. destruct (lookup_lt_is_Some_2 _ _ Hi) as [y Hy].
  assert (<[i:=a]> l !! j = Some a) as Hj' by (by rewrite list_lookup_insert_ne).
  pose proof (insert_Permutation _ _ x _ Hj') as H1.
  pose proof (insert_Permutation _ _ a _ Hy) as H2.
  pose proof (insert_Permutation _ _ x _ Hy) as H3.
  apply (Permutation_cons_inv (a:=y)), (Permutation_cons_inv (a:=a)).
  rewrite H3, (perm_swap y a), H1, (perm_swap x y), H2. apply perm_swap.
Qed.

Definition edge (p i : nat) : Prop := i = 2 * p + 1 \/ i = 2 * p + 2.

Lemma edge_parent i : 0 < i -> edge (Nat.div2 (i - 1)) i.
Proof.
  intros. unfold edge. pose proof (Nat.div2_odd (i - 1)) as E.
  destruct (Nat.odd (i - 1)); simpl in E; lia.
Qed.

(** [descends s p]: [p] lies in the subtree rooted at [s]. *)
Inductive descends (s : nat) : nat -> Prop :=
| descends_refl : descends s s
| descends_edge p c : descends s p -> edge p c -> descends s c.

Lemma descends_le s p : descends s p -> s <= p.
Proof. induction 1; unfold edge in *; lia. Qed.

Lemma descends_parent s p c : descends s c -> edge p c -> s < c -> descends s p.
Proof.
  intros [|q c' Hq Hqc] Hpc Hlt; [lia|].
  replace p with q by (unfold edge in *; lia). done.
Qed.

Lemma descends_zero p : descends 0 p.
Proof.
  induction p as [p IH] using lt_wf_ind. destruct (decide (p = 0)) as [->|]; [constructor|].
  apply (descends_edge 0 (Nat.div2 (p - 1))); [|apply edge_parent; lia].
  apply IH. pose proof (edge_parent p ltac:(lia)). unfold edge in *. lia.
Qed.

Lemma edge_inj p q i : edge p i -> edge q i -> p = q.
Proof. unfold edge. lia. Qed.

Ltac edges := unfold edge in *; lia.

Section heap_correct.
Context {A : Type} (lt : A -> A -> bool).
Notation le a b := (lt b a = false).
Hypothesis lt_irrefl : forall a, lt a a = false.
Hypothesis lt_asym : forall a b, lt a b = true -> lt b a = false.
Hypothesis le_trans : forall a b c, le a b -> le b c -> le a c.

(** The heap condition on the edges whose parent is at [s] or after. *)
Definition heap_from (s : nat) (h : list A) : Prop :=
  forall p i a b, s <= p -> edge p i -> h !! p = Some a -> h !! i = Some b -> le a b.

(** Before an element sinks or rises: the heap condition away from [pos], and
    across it. *)
Definition rising (s : nat) (v : list A) (pos : nat) : Prop :=
  (forall p i a b, s <= p -> edge p i -> i <> pos ->
     v !! p = Some a -> v !! i = Some b -> le a b) /\
  (forall g c a b, s <= g -> edge g pos -> edge pos c ->
     v !! g = Some a -> v !! c = Some b -> le a b).

Definition sinking (s : nat) (v : list A) (pos : nat) : Prop :=
  (forall p i a b, s <= p -> edge p i -> i <> pos -> p <> pos ->
     v !! p = Some a -> v !! i = Some b -> le a b) /\
  (forall g c a b, s <= g -> edge g pos -> edge pos c ->
     v !! g = Some a -> v !! c = Some b -> le a b).

(** The two-cell update of one loop iteration, looked up anywhere. *)
Lemma lookup_swap (h : list A) pos q x a i :
  pos < length h -> q < length h -> pos <> q ->
  <[q:=x]> (<[pos:=a]> h) !! i =
  if decide (i = q) then Some x else if decide (i = pos) then Some a
  else <[pos:=x]> h !! i.
Proof.
  intros. repeat case_decide; subst.
  - apply list_lookup_insert_eq. by rewrite length_insert.
  - rewrite list_lookup_insert_ne by done. by apply list_lookup_insert_eq.
  - by rewrite !list_lookup_insert_ne by done.
Qed.

Lemma rising_step s h pos p x a :
  pos < length h -> edge p pos -> s <= p -> h !! p = Some a -> lt x a = true ->
  rising s (<[pos:=x]> h) pos -> rising s (<[p:=x]> (<[pos:=a]> h)) p.
Proof.
  intros Hpos Hp Hsp Ha Hlt [H1 H2].
  assert (p < length h) as Hpl by (eapply lookup_lt_Some; eauto).
  assert (p <> pos) as Hne by edges.
  assert (<[pos:=x]> h !! p = Some a) as Hpa by (by rewrite list_lookup_insert_ne).
  pose proof (lt_asym _ _ Hlt) as Hxa.
  split; intros q i a' b'; rewrite !lookup_swap by done.
  - intros Hsq Hqi Hi. repeat case_decide; subst; intros; simplify_eq;
      solve [edges | by eauto].
  - intros Hsq Hqp Hpi. repeat case_decide; subst; intros; simplify_eq; try edges.
    + by eapply (H1 q p).
    + eapply (le_trans _ a); [by eapply (H1 q p)|]. by eapply (H1 p i).
Qed.

Lemma siftdown_loop_ok fuel h s pos x :
  pos < fuel -> pos < length h -> descends s pos -> rising s (<[pos:=x]> h) pos ->
  heap_from s (Heapq.siftdown_loop lt fuel h s pos x) /\
  Heapq.siftdown_loop lt fuel h s pos x ≡ₚ <[pos:=x]> h.
Proof.
  revert h pos. induction fuel as [|fuel IH]; intros h pos Hf Hpos Hd HJ; [lia|]. simpl.
  destruct (Nat.ltb_spec s pos) as [Hlt|Hge].
  - pose proof (edge_parent pos ltac:(lia)) as He.
    set (p := Nat.div2 (pos - 1)) in *.
    assert (descends s p) as Hdp by eauto using descends_parent.
    pose proof (descends_le _ _ Hdp) as Hsp.
    destruct (lookup_lt_is_Some_2 h p) as [a Ha]; [edges|]. rewrite Ha.
    destruct (lt x a) eqn:Hxa.
    + destruct (IH (<[pos:=a]> h) p) as [Hh HP];
        [edges|rewrite length_insert; edges|done|by apply rising_step|].
      split; [done|]. rewrite HP. apply swap_Permutation; [edges|done|done].
    + split; [|done]. intros q i a' b' Hsq Hqi Hq Hi.
      destruct (decide (i = pos)) as [->|]; [|by eapply (proj1 HJ q i)].
      rewrite (edge_inj _ _ _ Hqi He) in *.
      rewrite list_lookup_insert_ne in Hq by edges.
      rewrite list_lookup_insert_eq in Hi by done. by simplify_eq.
  - split; [|done]. pose proof (descends_le _ _ Hd).
    intros q i a' b' Hsq Hqi. apply (proj1 HJ); [done..|edges].
Qed.

Lemma siftdown_ok h s pos :
  pos < length h -> descends s pos -> rising s h pos ->
  heap_from s (Heapq.siftdown lt h s pos) /\ Heapq.siftdown lt h s pos ≡ₚ h.
Proof.
  intros Hpos Hd HJ. unfold Heapq.siftdown.
  destruct (lookup_lt_is_Some_2 _ _ Hpos) as [x Hx]. rewrite Hx.
  pose proof (list_insert_id _ _ _ Hx) as Hid.
  pose proof (siftdown_loop_ok (S pos) h s pos x) as H. rewrite Hid in H.
  apply H; [lia|done..].
Qed.

Lemma smaller_child_some h pos c :
  h !! Heapq.smaller_child lt h pos = Some c ->
  edge pos (Heapq.smaller_child lt h pos) /\
  forall i b, edge pos i -> h !! i = Some b -> le c b.
Proof.
  unfold Heapq.smaller_child. replace (2 * pos + 1 + 1) with (2 * pos + 2) by lia.
  destruct (h !! (2 * pos + 1)) as [l|] eqn:Hl; [|congruence].
  destruct (h !! (2 * pos + 2)) as [r|] eqn:Hr.
  - destruct (lt l r) eqn:Hlr; cbn [negb]; intros Hc; simplify_eq;
      (split; [edges|intros i b [-> | ->] ?; simplify_eq; eauto]).
  - intros Hc. simplify_eq. split; [edges|]. intros i b [-> | ->] ?; simplify_eq. eauto.
Qed.

Lemma smaller_child_none h pos i :
  h !! Heapq.smaller_child lt h pos = None -> edge pos i -> h !! i = None.
Proof.
  unfold Heapq.smaller_child. replace (2 * pos + 1 + 1) with (2 * pos + 2) by lia.
  intros Hn Hi. assert (length h <= 2 * pos + 1).
  { destruct (h !! (2 * pos + 1)) as [l|] eqn:Hl; [|by apply lookup_ge_None in Hl].
    destruct (h !! (2 * pos + 2)) as [r|] eqn:Hr; [|congruence].
    destruct (lt l r); cbn [negb] in Hn; congruence. }
  apply lookup_ge_None. edges.
Qed.

Lemma sinking_step s h pos c x a :
  pos < length h -> edge pos c -> h !! c = Some a ->
  (forall i b, edge pos i -> h !! i = Some b -> le a b) ->
  sinking s (<[pos:=x]> h) pos -> sinking s (<[c:=x]> (<[pos:=a]> h)) c.
Proof.
  intros Hpos Hc Ha Hmin [H1 H2].
  assert (c < length h) as Hcl by (eapply lookup_lt_Some; eauto).
  assert (<[pos:=x]> h !! c = Some a) as Hca by (rewrite list_lookup_insert_ne; [done|edges]).
  assert (forall i, edge pos i -> <[pos:=x]> h !! i = h !! i) as Hch
    by (intros i Hi; apply list_lookup_insert_ne; edges).
  split; intros q i a' b'; rewrite !lookup_swap by (done || edges).
  - intros Hsq Hqi Hi Hq. repeat case_decide; subst; intros; simplify_eq; try edges.
    + eapply (Hmin i); [done|]. by rewrite <- Hch.
    + by eapply (H2 q c).
    + by eapply (H1 q i).
  - intros Hsq Hqp Hpi. repeat case_decide; subst; intros; simplify_eq; try edges.
    eapply (H1 c i); [edges|done|edges|edges|done|done].
Qed.

Lemma siftup_loop_ok fuel h s pos x h' leaf :
  length h <= fuel + pos -> pos < length h -> descends s pos ->
  sinking s (<[pos:=x]> h) pos -> Heapq.siftup_loop lt fuel h pos = (h', leaf) ->
  leaf < length h' /\ descends s leaf /\ rising s (<[leaf:=x]> h') leaf /\
  <[leaf:=x]> h' ≡ₚ <[pos:=x]> h.
Proof.
  revert h pos. induction fuel as [|fuel IH]; intros h pos Hf Hpos Hd HS; [lia|]. simpl.
  destruct (h !! Heapq.smaller_child lt h pos) as [a|] eqn:Hc.
  - pose proof Hc as [He Hmin]%smaller_child_some.
    set (c := Heapq.smaller_child lt h pos) in *.
    assert (c < length h) by (eapply lookup_lt_Some; eauto).
    intros E. apply IH in E as (Hl & Hdl & HR & HP); [| | | |].
    + split_and!; [done..|]. rewrite HP. apply swap_Permutation; [edges|done|done].
    + rewrite length_insert. edges.
    + by rewrite length_insert.
    + by eapply descends_edge.
    + by apply sinking_step.
  - intros [= <- <-]. split_and!; [done..| |done]. destruct HS as [H1 H2]. split; [|done].
    intros p i a' b' Hsp Hpi Hi Hp Hi'. destruct (decide (p = pos)) as [->|]; [|by eauto].
    rewrite list_lookup_insert_ne in Hi' by done.
    rewrite (smaller_child_none h pos i) in Hi' by done. done.
Qed.

Lemma siftup_ok h pos :
  pos < length h -> heap_from (S pos) h ->
  heap_from pos (Heapq.siftup lt h pos) /\ Heapq.siftup lt h pos ≡ₚ h.
Proof.
  intros Hpos Hh. unfold Heapq.siftup.
  destruct (lookup_lt_is_Some_2 _ _ Hpos) as [x Hx]. rewrite Hx.
  destruct (Heapq.siftup_loop lt (length h) h pos) as [h' leaf] eqn:E.
  pose proof (list_insert_id _ _ _ Hx) as Hid.
  apply (siftup_loop_ok _ _ pos _ x) in E as (Hl & Hd & HR & HP);
    [|lia|done|constructor|].
  - destruct (siftdown_ok (<[leaf:=x]> h') pos leaf) as [? HP'];
      [by rewrite length_insert|done|done|].
    split; [done|]. by rewrite HP', HP, Hid.
  - rewrite Hid. split; [|intros; edges].
    intros p i a b Hp He _ Hne. apply Hh; [lia|done].
Qed.

Lemma heap_min h m i b :
  heap_from 0 h -> h !! 0 = Some m -> h !! i = Some b -> le m b.
Proof.
  intros Hh Hm. revert b. induction i as [i IH] using lt_wf_ind; intros b Hb.
  destruct (decide (i = 0)) as [->|]; [by simplify_eq|].
  pose proof (edge_parent i ltac:(lia)) as He. set (p := Nat.div2 (i - 1)) in *.
  destruct (lookup_lt_is_Some_2 h p) as [a Ha].
  { apply lookup_lt_Some in Hb. edges. }
  eapply (le_trans _ a); [apply (IH p); [edges|done]|]. eapply (Hh p i); [lia|done..].
Qed.

Lemma heappush_ok h x :
  heap_from 0 h ->
  heap_from 0 (Heapq.heappush lt h x) /\ Heapq.heappush lt h x ≡ₚ x :: h.
Proof.
  intros Hh. unfold Heapq.heappush.
  destruct (siftdown_ok (h ++ [x]) 0 (length h)) as [? HP].
  - rewrite length_app. simpl. lia.
  - apply descends_zero.
  - split.
    + intros p i a b _ He Hi Hp Hi'. pose proof (lookup_lt_Some _ _ _ Hi') as Hl.
      rewrite length_app in Hl; simpl in Hl.
      rewrite lookup_app_l in Hp, Hi' by edges. eapply (Hh p i); [lia|done..].
    + intros g c a b _ _ He _ Hc. apply lookup_lt_Some in Hc.
      rewrite length_app in Hc; simpl in Hc. edges.
  - split; [done|]. rewrite HP. by rewrite Permutation_app_comm.
Qed.

Lemma heapify_loop_ok n h :
  n <= length h -> heap_from n h ->
  heap_from 0 (Heapq.heapify_loop lt n h) /\ Heapq.heapify_loop lt n h ≡ₚ h.
Proof.
  revert h. induction n as [|n IH]; intros h Hn Hh; [done|]. simpl.
  destruct (siftup_ok h n) as [H1 HP]; [lia|done|].
  destruct (IH (Heapq.siftup lt h n)) as [H2 HP2]; [rewrite HP; lia|done|].
  split; [done|]. by rewrite HP2.
Qed.

Lemma heapify_ok h : heap_from 0 (Heapq.heapify lt h) /\ Heapq.heapify lt h ≡ₚ h.
Proof.
  pose proof (Nat.div2_odd (length h)) as E.
  apply heapify_loop_ok; [destruct (Nat.odd _); simpl in E; lia|].
  intros p i a b Hp He _ Hi. apply lookup_lt_Some in Hi.
  destruct (Nat.odd _); simpl in E; edges.
Qed.

Lemma heappop_ok h :
  heap_from 0 h ->
  match Heapq.heappop lt h with
  | None => h = []
  | Some (m, h') => heap_from 0 h' /\ h ≡ₚ m :: h' /\ Forall (fun b => le m b) h' /\ head h = Some m
  end.
Proof.
  intros Hh. unfold Heapq.heappop.
  destruct (last h) as [z|] eqn:Hz; [|by apply last_None in Hz].
  apply last_Some in Hz as [h0 ->]. rewrite removelast_last.
  destruct (h0 !! 0) as [m|] eqn:Hm.
  - assert (heap_from 1 (<[0:=z]> h0)) as H1.
    { intros p i a b Hp He. rewrite !list_lookup_insert_ne by edges. intros Ha Hb.
      eapply (Hh p i); [lia|done|by apply lookup_app_l_Some..]. }
    assert (0 < length h0) as Hl by (eapply lookup_lt_Some; eauto).
    destruct (siftup_ok (<[0:=z]> h0) 0) as [H2 HP]; [by rewrite length_insert|done|].
    pose proof (insert_Permutation _ _ z _ Hm) as HP'. rewrite <- HP in HP'.
    split_and!; [done| | |by destruct h0].
    + rewrite HP'. by rewrite Permutation_app_comm.
    + apply Forall_forall. intros b Hb.
      assert (b ∈ h0 ++ [z]) as [i Hi]%list_elem_of_lookup.
      { rewrite HP in Hb. apply list_elem_of_lookup in Hb as [i Hi].
        destruct (decide (i = 0)) as [->|].
        - rewrite list_lookup_insert_eq in Hi by done. set_solver.
        - rewrite list_lookup_insert_ne in Hi by done.
          apply elem_of_app. left. by eapply list_elem_of_lookup_2. }
      eapply (heap_min _ m i); [exact Hh| |done]. by apply lookup_app_l_Some.
  - destruct h0; [|done]. split_and!; [by intros p i a b _ _ ?|done|constructor|done].
Qed.
End heap_correct.

(** ** What a queue promises

    A queue behaves as the list of its requests in policy order: [rq_place]
    says where a new request goes, [rq_place_front] where a prepended one goes
    and [rq_place_all] where the requests of a second queue go. *)

Definition ids (l : list RequestArgs) : list Z := obj_id <$> l.

(** No request of [l] is a request of [l'], and none occurs twice. *)
Definition fresh_for (l l' : list RequestArgs) : Prop := NoDup (ids (l ++ l')).

Class RequestQueueLaws (Q : Type) `{RequestQueue Q} := {
  rq_wf : Q -> Prop;
  rq_place : RequestArgs -> list RequestArgs -> list RequestArgs;
  rq_place_front : RequestArgs -> list RequestArgs -> list RequestArgs;
  rq_place_all : list RequestArgs -> list RequestArgs -> list RequestArgs;
  law_new : rq_wf rq_new /\ rq_iter rq_new = [];
  law_len q : rq_wf q -> rq_len q = length (rq_iter q);
  law_bool q : rq_wf q -> rq_bool q = match rq_iter q with [] => false | _ => true end;
  law_reversed q : rq_wf q -> rq_reversed q = rev (rq_iter q);
  law_peek q : rq_wf q ->
    peek_request q = match rq_iter q with [] => Raise IndexError q | r :: _ => Ret r q end;
  law_pop q : rq_wf q ->
    match rq_iter q with
    | [] => pop_request q = Raise IndexError q
    | r :: l => exists q', pop_request q = Ret r q' /\ rq_wf q' /\ rq_iter q' = l
    end;
  law_add q r : rq_wf q -> fresh_for [r] (rq_iter q) ->
    exists q', add_request r q = Ret tt q' /\ rq_wf q' /\ rq_iter q' = rq_place r (rq_iter q);
  law_prepend q r : rq_wf q -> fresh_for [r] (rq_iter q) ->
    exists q', prepend_request r q = Ret tt q' /\ rq_wf q' /\
               rq_iter q' = rq_place_front r (rq_iter q);
  law_prepend_all q q2 : rq_wf q -> rq_wf q2 -> fresh_for (rq_iter q2) (rq_iter q) ->
    exists q', prepend_requests q2 q = Ret tt q' /\ rq_wf q' /\
               rq_iter q' = rq_place_all (rq_iter q2) (rq_iter q);
  law_place_front r l : rq_place_front r l ≡ₚ r :: l;
  law_place_all_nil l : rq_place_all [] l = l;
  law_place r l : rq_place r l ≡ₚ r :: l;
  law_place_all l2 l : rq_place_all l2 l ≡ₚ l2 ++ l;
  law_wf_nodup q : rq_wf q -> NoDup (ids (rq_iter q));
  law_remove q r : rq_wf q ->
    match remove_first r (rq_iter q) with
    | None => remove_request r q = Raise ValueError q
    | Some l => exists q', remove_request r q = Ret tt q' /\ rq_wf q' /\ rq_iter q' = l
    end;
  law_remove_all q rs : rq_wf q ->
    exists q', remove_requests rs q = Ret tt q' /\ rq_wf q' /\
               rq_iter q' = List.filter (fun r => negb (in_requests r rs)) (rq_iter q)
}.

(** *** Shared facts on identities *)

Lemma remove_first_spec r l :
  NoDup (ids l) ->
  match remove_first r l with
  | None => forall x, x ∈ l -> obj_id x <> obj_id r
  | Some l' => exists x, obj_id x = obj_id r /\ l ≡ₚ x :: l' /\
                 l' = List.filter (fun y => negb (same_object y r)) l
  end.
Proof.
  unfold ids. induction l as [|x l IH]; simpl; [set_solver|].
  intros [Hx Hnd]%NoDup_cons. specialize (IH Hnd). unfold same_object at 1.
  destruct (Z.eqb_spec (obj_id x) (obj_id r)) as [E|E].
  - exists x. split_and!; [done..|]. rewrite <- E in *. unfold same_object.
    rewrite E, Z.eqb_refl; simpl. symmetry. apply forallb_filter_id, forallb_forall.
    intros y Hy%list_elem_of_In. apply negb_true_iff, Z.eqb_neq. rewrite <- E. intros Heq.
    apply Hx. rewrite <- Heq. by apply list_elem_of_fmap_2.
  - destruct (remove_first r l) as [l'|]; simpl.
    + destruct IH as (y & Hy & HP & Hl). exists y. split_and!; [done| |].
      * rewrite HP. apply perm_swap.
      * unfold same_object in *. apply Z.eqb_neq in E. rewrite E; simpl. by rewrite Hl.
    + intros y [->|?]%elem_of_cons; [done|]. by apply IH.
Qed.

Lemma ids_Permutation l l' : l ≡ₚ l' -> NoDup (ids l) -> NoDup (ids l').
Proof. unfold ids. intros HP. by rewrite HP. Qed.

Lemma fold_place_perm (place : RequestArgs -> list RequestArgs -> list RequestArgs) rs l :
  (forall r l, place r l ≡ₚ r :: l) ->
  fold_left (fun acc r => place r acc) rs l ≡ₚ rs ++ l.
Proof.
  intros Hp. revert l. induction rs as [|r rs IH]; intros l; simpl; [done|].
  rewrite IH, Hp. by rewrite Permutation_middle.
Qed.

(** Distinct requests that are put into a queue one after the other. *)
Lemma place_for_ok {Q} (op : RequestArgs -> py Q unit) (iter : Q -> list RequestArgs)
    (wf : Q -> Prop) (place : RequestArgs -> list RequestArgs -> list RequestArgs) :
  (forall r l, place r l ≡ₚ r :: l) ->
  (forall q r, wf q -> fresh_for [r] (iter q) ->
     exists q', op r q = Ret tt q' /\ wf q' /\ iter q' = place r (iter q)) ->
  forall rs q, wf q -> fresh_for rs (iter q) ->
  exists q', py_for rs op q = Ret tt q' /\ wf q' /\
             iter q' = fold_left (fun acc r => place r acc) rs (iter q).
Proof.
  intros Hp Hop rs. induction rs as [|r rs IH]; intros q Hwf Hf; [by exists q|].
  destruct (Hop q r Hwf) as (q1 & E1 & Hwf1 & Hit1).
  { unfold fresh_for, ids in *. simpl in *. rewrite fmap_app in Hf.
    apply NoDup_cons in Hf as [Hr Hf]. apply NoDup_app in Hf as (_ & _ & ?).
    apply NoDup_cons. set_solver. }
  destruct (IH _ Hwf1) as (q' & E & Hwf2 & Hit2).
  { rewrite Hit1. unfold fresh_for. eapply ids_Permutation; [|exact Hf].
    rewrite Hp. simpl. by rewrite Permutation_middle. }
  exists q'. simpl. unfold py_bind. rewrite E1, E. split_and!; [done..|].
  by rewrite Hit2, Hit1.
Qed.

Lemma filter_In_ids f l : NoDup (ids l) -> NoDup (ids (List.filter f l)).
Proof.
  unfold ids. induction l as [|x l IH]; simpl; [done|].
  intros [Hx Hnd]%NoDup_cons. destruct (f x); simpl; [|auto].
  apply NoDup_cons. split; [|auto].
  intros (y & Hy & Hin)%list_elem_of_fmap. apply Hx. rewrite Hy.
  apply list_elem_of_fmap_2. apply list_elem_of_In, filter_In in Hin as [Hin _].
  by apply list_elem_of_In.
Qed.

Lemma extendleft_app l dq : extendleft l dq = rev l ++ dq.
Proof.
  revert dq. induction l as [|x l IH]; intros dq; [done|].
  simpl. rewrite IH. by rewrite <- app_assoc.
Qed.

(** *** The FCFS queue: new requests at the back, prepended ones in front *)
#[export] Program Instance fcfs_laws : RequestQueueLaws FCFSRequestQueue := {
  rq_wf q := NoDup (ids (deque q));
  rq_place r l := l ++ [r];
  rq_place_front r l := r :: l;
  rq_place_all l2 l := l2 ++ l
}.
Next Obligation. split; [constructor|done]. Qed.
Next Obligation. done. Qed.
Next Obligation. intros [[|r l]] _; done. Qed.
Next Obligation. done. Qed.
Next Obligation. intros [[|r l]] _; done. Qed.
Next Obligation.
  intros [[|r l]] Hwf; simpl; [done|]. eexists. split_and!; [done| |done].
  simpl in *. by apply NoDup_cons in Hwf as [_ ?].
Qed.
Next Obligation.
  intros [l] r Hwf Hf. eexists. split_and!; [done| |done]. simpl.
  eapply ids_Permutation; [|exact Hf]. simpl. by rewrite Permutation_cons_append.
Qed.
Next Obligation. intros [l] r Hwf Hf. eexists. by split_and!. Qed.
Next Obligation.
  intros [l] [l2] Hwf Hwf2 Hf. eexists. split_and!; [done| |]; simpl;
    by rewrite extendleft_app, rev_involutive.
Qed.
Next Obligation. done. Qed.
Next Obligation. done. Qed.
Next Obligation. intros r l. by rewrite Permutation_cons_append. Qed.
Next Obligation. done. Qed.
Next Obligation. done. Qed.
Next Obligation.
  intros [l] r Hwf. simpl in *. pose proof (remove_first_spec r l Hwf) as H.
  unfold fcfs_remove_request, py_bind; simpl.
  destruct (remove_first r l) as [l'|]; simpl; [|done].
  destruct H as (x & _ & _ & ->). eexists. split_and!; [done| |done]. by apply filter_In_ids.
Qed.
Next Obligation.
  intros [l] rs Hwf. eexists. split_and!; [done| |done]. by apply filter_In_ids.
Qed.

(** *** The priority queue: every request at its place in the sorted order *)

Definition request_le (a b : RequestArgs) : Prop := request_lt b a = false.

Fixpoint insert_sorted (r : RequestArgs) (l : list RequestArgs) : list RequestArgs :=
  match l with
  | [] => [r]
  | x :: l' => if request_lt r x then r :: l else x :: insert_sorted r l'
  end.

(** Every request of a list, placed one after the other. *)
Definition insert_all (l2 l : list RequestArgs) : list RequestArgs :=
  fold_left (fun acc r => insert_sorted r acc) l2 l.

Notation is_heap := (heap_from request_lt 0).

Definition push_ok := heappush_ok request_lt request_lt_irrefl request_lt_asym request_le_trans.
Definition pop_ok := heappop_ok request_lt request_lt_irrefl request_lt_asym request_le_trans.
Definition heapify_correct := heapify_ok request_lt request_lt_irrefl request_lt_asym request_le_trans.

Lemma pop_all_ok fuel h :
  is_heap h -> length h <= fuel ->
  StronglySorted request_le (pop_all fuel h) /\ pop_all fuel h ≡ₚ h.
Proof.
  revert h. induction fuel as [|fuel IH]; intros h Hh Hl; simpl.
  - destruct h; [|simpl in Hl; lia]. split; [constructor|done].
  - pose proof (pop_ok h Hh) as H. destruct (Heapq.heappop request_lt h) as [[m h']|].
    + destruct H as (Hh' & HP & Hm & _).
      destruct (IH h' Hh') as [Hs HP']; [rewrite HP in Hl; simpl in Hl; lia|].
      split; [|by rewrite HP', HP]. constructor; [done|]. by rewrite HP'.
    + subst. split; [constructor|done].
Qed.

Lemma insert_sorted_perm r l : insert_sorted r l ≡ₚ r :: l.
Proof.
  induction l as [|x l IH]; simpl; [done|]. destruct (request_lt r x); [done|].
  rewrite IH. apply perm_swap.
Qed.

Lemma insert_sorted_sorted r l :
  StronglySorted request_le l -> StronglySorted request_le (insert_sorted r l).
Proof.
  induction 1 as [|x l Hs IH Hx]; simpl; [repeat constructor|].
  destruct (request_lt r x) eqn:E.
  - constructor; [by constructor|]. apply request_lt_asym in E.
    constructor; [done|]. eapply Forall_impl; [exact Hx|].
    intros y Hy. by eapply request_le_trans.
  - constructor; [done|]. rewrite insert_sorted_perm. by constructor.
Qed.

Lemma same_id_same_request l x y :
  NoDup (ids l) -> x ∈ l -> y ∈ l -> obj_id x = obj_id y -> x = y.
Proof.
  unfold ids. induction l as [|z l IH]; simpl; [set_solver|].
  intros [Hz Hnd]%NoDup_cons Hx Hy E.
  apply elem_of_cons in Hx as [->|Hx], Hy as [->|Hy]; [done| | |by auto].
  - destruct Hz. rewrite E. by apply list_elem_of_fmap_2.
  - destruct Hz. rewrite <- E. by apply list_elem_of_fmap_2.
Qed.

(** The sorted order of a set of distinct requests is unique. *)
Lemma sorted_unique l1 l2 :
  NoDup (ids l1) -> StronglySorted request_le l1 -> StronglySorted request_le l2 ->
  l1 ≡ₚ l2 -> l1 = l2.
Proof.
  intros Hnd H1 H2 HP. apply (StronglySorted_unique_strong request_le); [|done..].
  intros x y Hx Hy Hxy Hyx. rewrite <- HP in Hy.
  apply (same_id_same_request l1); [done..|].
  destruct (request_lt_trichotomy x y) as [H|[H|H]];
    [unfold request_le in *; congruence..|by injection H].
Qed.

Definition pq_wf (q : PriorityRequestQueue) : Prop := is_heap (heap q) /\ NoDup (ids (heap q)).

Lemma pq_iter_ok q : pq_wf q -> StronglySorted request_le (pq_iter q) /\ pq_iter q ≡ₚ heap q.
Proof. intros [Hh _]. by apply pop_all_ok. Qed.

(** A heap with the right elements iterates as the sorted list of them. *)
Lemma pq_iter_sorted_list q l :
  pq_wf q -> StronglySorted request_le l -> heap q ≡ₚ l -> pq_iter q = l.
Proof.
  intros Hwf Hs HP. destruct (pq_iter_ok q Hwf) as [Hs' HP']. destruct Hwf as [_ Hnd].
  apply sorted_unique; [|done..|by rewrite HP'].
  eapply ids_Permutation; [symmetry; exact HP'|done].
Qed.

Lemma pq_add_ok q r :
  pq_wf q -> fresh_for [r] (pq_iter q) ->
  pq_wf (mkPQ (Heapq.heappush request_lt (heap q) r)) /\
  pq_iter (mkPQ (Heapq.heappush request_lt (heap q) r)) = insert_sorted r (pq_iter q).
Proof.
  intros Hwf Hf. pose proof (pq_iter_ok q Hwf) as [Hs HP].
  destruct Hwf as [Hh Hnd]. destruct (push_ok (heap q) r Hh) as [Hh' HP'].
  assert (pq_wf (mkPQ (Heapq.heappush request_lt (heap q) r))) as Hwf'.
  { split; [done|]. eapply ids_Permutation; [|exact Hf]. simpl. by rewrite HP', HP. }
  split; [done|]. apply pq_iter_sorted_list; [done|by apply insert_sorted_sorted|].
  simpl. by rewrite HP', insert_sorted_perm, HP.
Qed.

Lemma pq_heapify_ok l l' :
  NoDup (ids l) -> StronglySorted request_le l' -> l' ≡ₚ l ->
  pq_wf (mkPQ (Heapq.heapify request_lt l)) /\ pq_iter (mkPQ (Heapq.heapify request_lt l)) = l'.
Proof.
  intros Hnd Hs HP. destruct (heapify_correct l) as [Hh HP'].
  assert (pq_wf (mkPQ (Heapq.heapify request_lt l))) as Hwf'.
  { split; [done|]. by eapply ids_Permutation; [symmetry; exact HP'|]. }
  split; [done|]. apply pq_iter_sorted_list; [done..|]. simpl. by rewrite HP', HP.
Qed.

Lemma filter_sorted f l :
  StronglySorted request_le l -> StronglySorted request_le (List.filter f l).
Proof.
  induction 1 as [|x l Hs IH Hx]; simpl; [constructor|]. destruct (f x); [|done].
  constructor; [done|]. rewrite Forall_forall in *. intros y [Hy _]%list_elem_of_In%filter_In.
  apply Hx. by apply list_elem_of_In.
Qed.

Lemma filter_perm {A} (f : A -> bool) l l' : l ≡ₚ l' -> List.filter f l ≡ₚ List.filter f l'.
Proof.
  induction 1; simpl; [done| | |by etrans]; [destruct (f x)|destruct (f x), (f y)];
    eauto using Permutation.
Qed.

#[export] Program Instance pq_laws : RequestQueueLaws PriorityRequestQueue := {
  rq_wf := pq_wf;
  rq_place := insert_sorted;
  rq_place_front := insert_sorted;
  rq_place_all := insert_all
}.
Next Obligation. split; [split; [intros p i a b _ _ Ha; done|constructor]|done]. Qed.
Next Obligation. intros q Hwf. simpl. by rewrite (proj2 (pq_iter_ok q Hwf)). Qed.
Next Obligation.
  intros q Hwf. simpl. pose proof (proj2 (pq_iter_ok q Hwf)) as HP.
  destruct (heap q), (pq_iter q); try done; by apply Permutation_length in HP.
Qed.
Next Obligation. done. Qed.
Next Obligation.
  intros [h] [Hh _]. simpl in *. unfold pq_peek_request, pq_iter, py_bind. simpl.
  pose proof (pop_ok h Hh) as H. destruct h as [|x h]; [done|]. simpl.
  destruct (Heapq.heappop request_lt (x :: h)) as [[m h']|]; [|done].
  destruct H as (_ & _ & _ & [= ->]). done.
Qed.
Next Obligation.
  intros [h] [Hh Hnd]. simpl in *. unfold pq_pop_request, pq_iter, py_bind. simpl.
  pose proof (pop_ok h Hh) as H.
  destruct h as [|x h]; [done|]. cbn [length pop_all].
  destruct (Heapq.heappop request_lt (x :: h)) as [[m h']|]; [|done].
  destruct H as (Hh' & HP & _ & _). exists (mkPQ h').
  pose proof (Permutation_length HP) as Hl. simpl in Hl.
  assert (NoDup (ids (m :: h'))) as Hnd' by (by eapply ids_Permutation).
  unfold ids in Hnd'. simpl in Hnd'. apply NoDup_cons in Hnd' as [_ ?].
  split_and!; [done|by split|]. simpl. by replace (length h') with (length h) by lia.
Qed.
Next Obligation.
  intros q r Hwf Hf. destruct (pq_add_ok q r Hwf Hf). eexists. by split_and!.
Qed.
Next Obligation.
  intros q r Hwf Hf. destruct (pq_add_ok q r Hwf Hf). eexists. by split_and!.
Qed.
Next Obligation.
  intros q q2 Hwf Hwf2 Hf. apply (place_for_ok pq_add_request pq_iter pq_wf); [| |done..].
  - apply insert_sorted_perm.
  - intros q' r Hwf' Hf'. destruct (pq_add_ok q' r Hwf' Hf'). eexists. by split_and!.
Qed.
Next Obligation. apply insert_sorted_perm. Qed.
Next Obligation. done. Qed.
Next Obligation. apply insert_sorted_perm. Qed.
Next Obligation. intros l2 l. apply fold_place_perm, insert_sorted_perm. Qed.
Next Obligation.
  intros q Hwf. destruct (pq_iter_ok q Hwf) as [_ HP]. eapply ids_Permutation; [symmetry; exact HP|apply Hwf].
Qed.
Next Obligation.
  intros q r Hwf. destruct (pq_iter_ok q Hwf) as [Hs HP]. destruct Hwf as [Hh Hnd].
  assert (NoDup (ids (pq_iter q))) as Hnd' by (by eapply ids_Permutation; [symmetry; exact HP|]).
  pose proof (remove_first_spec r _ Hnd) as H1. pose proof (remove_first_spec r _ Hnd') as H2.
  simpl. unfold pq_remove_request, py_bind. simpl.
  destruct (remove_first r (heap q)) as [l|], (remove_first r (pq_iter q)) as [l'|]; simpl.
  - destruct H1 as (_ & _ & _ & ->), H2 as (_ & _ & _ & ->). eexists. split; [done|].
    apply pq_heapify_ok; [by apply filter_In_ids|by apply filter_sorted|by apply filter_perm].
  - destruct H1 as (x & Hx & HP1 & _). destruct (H2 x); [|done].
    rewrite HP, HP1. set_solver.
  - destruct H2 as (x & Hx & HP1 & _). destruct (H1 x); [|done].
    rewrite <- HP, HP1. set_solver.
  - done.
Qed.
Next Obligation.
  intros q rs Hwf. destruct (pq_iter_ok q Hwf) as [Hs HP]. destruct Hwf as [Hh Hnd].
  eexists. split; [done|].
  apply pq_heapify_ok; [by apply filter_In_ids|by apply filter_sorted|by apply filter_perm].
Qed.

(** ** The queues against their specification *)

Inductive QueueOp :=
| OpAdd (r : RequestArgs)
| OpPop
| OpPeek
| OpPrepend (r : RequestArgs)
| OpPutBack (rs : list RequestArgs) (** [prepend_requests] of a queue [rs] were prepended to *)
| OpRemove (r : RequestArgs)
| OpRemoveMany (rs : list RequestArgs)
| OpLen.

(** What the caller sees of an operation. *)
Inductive QueueObs := Done | Got (r : RequestArgs) | Count (n : nat) | Err (e : exn).

Section runs.
Context {Q : Type} `{RequestQueueLaws Q}.

Definition queue_op (o : QueueOp) : py Q QueueObs :=
  match o with
  | OpAdd r => do! add_request r; py_ret Done
  | OpPop => let! r := pop_request in py_ret (Got r)
  | OpPeek => let! r := peek_request in py_ret (Got r)
  | OpPrepend r => do! prepend_request r; py_ret Done
  | OpPutBack rs => fun q =>
      match py_for rs prepend_request rq_new with
      | Ret _ q2 => (do! prepend_requests q2; py_ret Done) q
      | Raise e _ => Raise e q
      end
  | OpRemove r => do! remove_request r; py_ret Done
  | OpRemoveMany rs => do! remove_requests rs; py_ret Done
  | OpLen => let! q := py_get in py_ret (Count (rq_len q))
  end.

(** A caller that catches every exception and goes on. *)
Fixpoint run_ops (ops : list QueueOp) (q : Q) : list QueueObs * Q :=
  match ops with
  | [] => ([], q)
  | o :: ops' =>
      let (obs, q') := match queue_op o q with Ret b q' => (b, q') | Raise e q' => (Err e, q') end in
      let (rest, q'') := run_ops ops' q' in
      (obs :: rest, q'')
  end.

(** The specification: the list of requests in policy order. *)
Definition spec_op (o : QueueOp) (l : list RequestArgs) : QueueObs * list RequestArgs :=
  match o with
  | OpAdd r => (Done, rq_place r l)
  | OpPop => match l with [] => (Err IndexError, []) | r :: l' => (Got r, l') end
  | OpPeek => match l with [] => (Err IndexError, []) | r :: _ => (Got r, l) end
  | OpPrepend r => (Done, rq_place_front r l)
  | OpPutBack rs =>
      (Done, rq_place_all (fold_left (fun acc r => rq_place_front r acc) rs []) l)
  | OpRemove r =>
      match remove_first r l with None => (Err ValueError, l) | Some l' => (Done, l') end
  | OpRemoveMany rs => (Done, List.filter (fun r => negb (in_requests r rs)) l)
  | OpLen => (Count (length l), l)
  end.

Fixpoint run_spec (ops : list QueueOp) (l : list RequestArgs) : list QueueObs * list RequestArgs :=
  match ops with
  | [] => ([], l)
  | o :: ops' =>
      let (obs, l') := spec_op o l in
      let (rest, l'') := run_spec ops' l' in
      (obs :: rest, l'')
  end.

(** A request object is queued at most once at a time. *)
Definition op_fresh (o : QueueOp) (l : list RequestArgs) : bool :=
  match o with
  | OpAdd r | OpPrepend r => bool_decide (fresh_for [r] l)
  | OpPutBack rs => bool_decide (fresh_for rs l)
  | _ => true
  end.
Fixpoint ops_fresh (ops : list QueueOp) (l : list RequestArgs) : bool :=
  match ops with
  | [] => true
  | o :: ops' => op_fresh o l && ops_fresh ops' (spec_op o l).2
  end.

Lemma spec_op_ok o q :
  rq_wf q -> op_fresh o (rq_iter q) = true ->
  exists q',
    match queue_op o q with Ret b q' => (b, q') | Raise e q' => (Err e, q') end
      = ((spec_op o (rq_iter q)).1, q') /\
    rq_wf q' /\ rq_iter q' = (spec_op o (rq_iter q)).2.
Proof.
  intros Hwf Hf. destruct o as [r| | |r|rs|r|rs|]; simpl in *; unfold py_bind;
    try apply bool_decide_eq_true in Hf.
  - destruct (law_add q r Hwf Hf) as (q' & -> & ? & ?). by exists q'.
  - pose proof (law_pop q Hwf) as Hp. destruct (rq_iter q) as [|r l] eqn:E.
    + rewrite Hp. by exists q.
    + destruct Hp as (q' & -> & ? & ?). by exists q'.
  - rewrite (law_peek q Hwf). destruct (rq_iter q) as [|r l] eqn:E; by exists q.
  - destruct (law_prepend q r Hwf Hf) as (q' & -> & ? & ?). by exists q'.
  - destruct (law_new (Q:=Q)) as [Hn En].
    destruct (place_for_ok prepend_request rq_iter rq_wf rq_place_front law_place_front
                law_prepend rs rq_new) as (q2 & -> & Hwf2 & Hit2); [done| |].
    { rewrite En. unfold fresh_for, ids in *. rewrite app_nil_r, fmap_app in *.
      by apply NoDup_app in Hf as (? & _ & _). }
    rewrite En in Hit2. destruct (law_prepend_all q q2 Hwf Hwf2) as (q' & -> & ? & Hit).
    { rewrite Hit2. unfold fresh_for. eapply ids_Permutation; [|exact Hf].
      rewrite (fold_place_perm rq_place_front) by apply law_place_front.
      by rewrite app_nil_r. }
    exists q'. by rewrite Hit, Hit2.
  - pose proof (law_remove q r Hwf) as Hr. destruct (remove_first r (rq_iter q)).
    + destruct Hr as (q' & -> & ? & ?). by exists q'.
    + rewrite Hr. by exists q.
  - destruct (law_remove_all q rs Hwf) as (q' & -> & ? & ?). by exists q'.
  - exists q. by rewrite (law_len q Hwf).
Qed.

Lemma run_ops_ok ops q :
  rq_wf q -> ops_fresh ops (rq_iter q) = true ->
  exists q', run_ops ops q = ((run_spec ops (rq_iter q)).1, q') /\ rq_wf q' /\
             rq_iter q' = (run_spec ops (rq_iter q)).2.
Proof.
  revert q. induction ops as [|o ops IH]; intros q Hwf Hf; simpl in *; [by exists q|].
  apply andb_true_iff in Hf as [Ho Hf].
  destruct (spec_op_ok o q Hwf Ho) as (q1 & -> & Hwf1 & Hit1).
  destruct (spec_op o (rq_iter q)) as [b l'] eqn:E. simpl in *. rewrite <- Hit1 in Hf.
  destruct (IH q1 Hwf1 Hf) as (q' & -> & Hwf' & Hit'). rewrite Hit1 in *.
  destruct (run_spec ops l') as [rest l'']. by exists q'.
Qed.

(** C31. Every queue that meets the interface refines its specification, the
    list of requests in policy order: for any sequence of operations in which
    no request object is queued twice, the queue gives the caller exactly the
    requests, counts and exceptions of the list, and iterating over it
    afterwards, forwards or in reverse, yields the list. Both queues meet the
    interface: for FCFS new requests go to the back and prepended ones to the
    front, for the priority heap both go to their place in the sorted order. *)
Theorem queue_refines_policy_list (ops : list QueueOp) :
  ops_fresh ops [] = true ->
  exists q, run_ops ops rq_new = ((run_spec ops []).1, q) /\
    rq_iter q = (run_spec ops []).2 /\
    rq_reversed q = rev (run_spec ops []).2 /\
    rq_len q = length (run_spec ops []).2.
Proof.
  intros Hf. destruct (law_new (Q:=Q)) as [Hn En]. rewrite <- En in Hf |- *.
  destruct (run_ops_ok ops rq_new Hn Hf) as (q & E & Hwf & Hit).
  exists q. rewrite E, (law_reversed q Hwf), (law_len q Hwf), Hit. done.
Qed.
End runs.

(** ** Concrete requests for the witnesses *)
Definition demo_request (id : string) (obj prio time : Z) : RequestArgs :=
  mkArgs id obj 0 prio time (Some [1%Z]) None None (Some (mkPooling None None false)) None [] None None.
Definition demo_a : RequestArgs := demo_request "a" 1 2 10.
Definition demo_b : RequestArgs := demo_request "b" 2 1 11.
Definition demo_c : RequestArgs := demo_request "c" 3 2 9.
Definition demo_ops : list QueueOp :=
  [OpAdd demo_a; OpAdd demo_b; OpAdd demo_c; OpPeek; OpLen; OpRemove demo_b;
   OpRemove demo_b; OpPop; OpPop; OpPop; OpPutBack [demo_a; demo_b; demo_c];
   OpRemoveMany [demo_b]; OpPop; OpPrepend demo_b].

Lemma queue_refines_policy_list_witness :
  (ops_fresh (Q:=FCFSRequestQueue) demo_ops [] = true /\
   exists q : FCFSRequestQueue,
    run_ops demo_ops rq_new =
      ([Done; Done; Done; Got demo_a; Count 3; Done; Err ValueError; Got demo_a; Got demo_c;
        Err IndexError; Done; Done; Got demo_c; Done], q) /\
    rq_iter q = [demo_b; demo_a]) /\
  (ops_fresh (Q:=PriorityRequestQueue) demo_ops [] = true /\
   exists q : PriorityRequestQueue,
    run_ops demo_ops rq_new =
      ([Done; Done; Done; Got demo_b; Count 3; Done; Err ValueError; Got demo_c; Got demo_a;
        Err IndexError; Done; Done; Got demo_c; Done], q) /\
    rq_iter q = [demo_b; demo_a]).
Proof.
  split; (split; [vm_compute; reflexivity|]).
  - destruct (queue_refines_policy_list (Q:=FCFSRequestQueue) demo_ops) as (q & E & Hi & _);
      [vm_compute; reflexivity|].
    exists q. rewrite E, Hi. split; vm_compute; reflexivity.
  - destruct (queue_refines_policy_list (Q:=PriorityRequestQueue) demo_ops) as (q & E & Hi & _);
      [vm_compute; reflexivity|].
    exists q. rewrite E, Hi. split; vm_compute; reflexivity.
Defined.

(** *** The priority policy *)

(** Distinct requests in non-decreasing order are in increasing order. *)
Lemma sorted_head_least r l :
  NoDup (ids (r :: l)) -> StronglySorted request_le (r :: l) ->
  forall x, x ∈ l -> request_lt r x = true.
Proof.
  unfold ids. simpl. intros [Hr _]%NoDup_cons [_ Hle]%StronglySorted_inv x Hx.
  rewrite Forall_forall in Hle. specialize (Hle x Hx). unfold request_le in Hle.
  destruct (request_lt_trichotomy r x) as [H|[H|H]]; [done|congruence|].
  destruct Hr. injection H as _ _ _ ->. by apply list_elem_of_fmap_2.
Qed.

(** The priority queue serves by [Request.__lt__]: whatever operations
    built the queue, popping it either raises IndexError, exactly when it holds
    nothing, or returns a request that precedes every request left in it
    (smaller priority value, then earlier arrival, then request id, then object
    identity), and loses no other request. *)
Theorem priority_pops_least (ops : list QueueOp) (q : PriorityRequestQueue) :
  ops_fresh (Q:=PriorityRequestQueue) ops [] = true ->
  (run_ops ops rq_new).2 = q ->
  match pop_request q with
  | Raise e q' => e = IndexError /\ q' = q /\ heap q = []
  | Ret r q' => heap q ≡ₚ r :: heap q' /\ forall x, x ∈ heap q' -> request_lt r x = true
  end.
Proof.
  intros Hf Hq. destruct (law_new (Q:=PriorityRequestQueue)) as [Hn En].
  destruct (run_ops_ok ops rq_new Hn) as (q0 & E & Hwf & _); [by rewrite En|].
  rewrite E in Hq. simpl in Hq. subst q0.
  pose proof (pq_iter_ok q Hwf) as [Hs HP]. pose proof (law_pop q Hwf) as Hp.
  change (rq_iter q) with (pq_iter q) in Hp.
  destruct (pq_iter q) as [|r l].
  - rewrite Hp. split_and!; [done..|]. by apply Permutation_nil.
  - destruct Hp as (q' & -> & Hwf' & Hit). change (rq_iter q') with (pq_iter q') in Hit.
    pose proof (pq_iter_ok q' Hwf') as [_ HP']. rewrite Hit in HP'.
    split; [by rewrite <- HP, <- HP'|]. intros x Hx. rewrite <- HP' in Hx.
    apply (sorted_head_least r l); [|done..].
    eapply ids_Permutation; [symmetry; exact HP|apply Hwf].
Qed.

Lemma priority_pops_least_witness :
  ops_fresh (Q:=PriorityRequestQueue) [OpAdd demo_a; OpAdd demo_b; OpAdd demo_c] [] = true /\
  exists q', pop_request (run_ops [OpAdd demo_a; OpAdd demo_b; OpAdd demo_c] rq_new).2
               = Ret demo_b q' /\
             forall x, x ∈ heap q' -> request_lt demo_b x = true.
Proof.
  split; [vm_compute; reflexivity|].
  eexists. split; [vm_compute; reflexivity|].
  apply (priority_pops_least [OpAdd demo_a; OpAdd demo_b; OpAdd demo_c] _
           ltac:(vm_compute; reflexivity) eq_refl).
Defined.

(** ** Putting skipped requests back *)
Section skipping.
Context {Q : Type} `{RequestQueueLaws Q}.

Lemma skip_waiting_ok (w k : Q) r l :
  rq_wf w -> rq_wf k -> rq_iter w = r :: l -> fresh_for [r] (rq_iter k) ->
  exists w' k', skip_waiting (w, k) = Ret tt (w', k') /\ rq_wf w' /\ rq_wf k' /\
    rq_iter w' = l /\ rq_iter k' = rq_place_front r (rq_iter k).
Proof.
  intros Hw Hk Hit Hf. unfold skip_waiting, py_bind, py_zoom; simpl.
  rewrite (law_peek w Hw). pose proof (law_pop w Hw) as Hp. rewrite Hit in Hp |- *.
  destruct Hp as (w' & E & Hw' & Hit'). simpl. rewrite E. simpl.
  destruct (law_prepend k r Hk Hf) as (k' & -> & Hk' & Hitk). by exists w', k'.
Qed.

Lemma skip_loop_ok n start (w k : Q) :
  rq_wf w -> rq_wf k -> n <= length (rq_iter w) ->
  fresh_for (take n (rq_iter w)) (rq_iter k) ->
  exists w' k', py_for (seq start n) (fun _ => skip_waiting) (w, k) = Ret tt (w', k') /\
    rq_wf w' /\ rq_wf k' /\ rq_iter w' = drop n (rq_iter w) /\
    rq_iter k' = fold_left (fun acc r => rq_place_front r acc) (take n (rq_iter w)) (rq_iter k).
Proof.
  revert start w k. induction n as [|n IH]; intros start w k Hw Hk Hn Hf; simpl; [by exists w, k|].
  destruct (rq_iter w) as [|r l] eqn:Hit; simpl in Hn; [lia|]. simpl in Hf.
  destruct (skip_waiting_ok w k r l Hw Hk Hit) as (w1 & k1 & E1 & Hw1 & Hk1 & Hit1 & Hitk1).
  { unfold fresh_for, ids in *. simpl in *. rewrite fmap_app in Hf.
    apply NoDup_cons in Hf as [Hr Hf]. apply NoDup_app in Hf as (_ & _ & ?).
    apply NoDup_cons. set_solver. }
  unfold py_bind. rewrite E1. rewrite <- Hit1.
  destruct (IH (S start) w1 k1 Hw1 Hk1) as (w' & k' & E & ? & ? & Hit' & Hitk');
    [rewrite Hit1; lia| |].
  - rewrite Hit1, Hitk1. unfold fresh_for. eapply ids_Permutation; [|exact Hf].
    rewrite law_place_front. by rewrite <- Permutation_middle.
  - exists w', k'. rewrite E. split_and!; [done..|]. by rewrite Hitk', Hitk1.
Qed.

Lemma skip_pass_ok n (w : Q) :
  rq_wf w -> NoDup (ids (rq_iter w)) -> n <= length (rq_iter w) ->
  exists w', skip_pass n w = Ret tt w' /\ rq_wf w' /\
    rq_iter w' =
      rq_place_all (fold_left (fun acc r => rq_place_front r acc) (take n (rq_iter w)) [])
                   (drop n (rq_iter w)).
Proof.
  intros Hw Hnd Hn. destruct (law_new (Q:=Q)) as [Hnew En].
  rewrite <- (take_drop n (rq_iter w)) in Hnd. unfold ids in Hnd. rewrite fmap_app in Hnd.
  destruct (skip_loop_ok n 0 w rq_new Hw Hnew Hn) as (w1 & k & E & Hw1 & Hk & Hit & Hitk).
  { rewrite En. unfold fresh_for, ids. rewrite app_nil_r. by apply NoDup_app in Hnd as (? & _ & _). }
  rewrite En in Hitk. unfold skip_pass, py_bind. rewrite E. unfold put_back_skipped, py_bind; simpl.
  rewrite (law_bool k Hk).
  destruct (rq_iter k) as [|r l] eqn:Ek.
  - exists w1. split_and!; [done..|]. by rewrite <- Hitk, law_place_all_nil.
  - destruct (law_prepend_all w1 k Hw1 Hk) as (w' & E' & Hw' & Hit').
    { rewrite Ek, Hitk, Hit. unfold fresh_for.
      eapply ids_Permutation; [symmetry; apply Permutation_app;
        [apply fold_place_perm, law_place_front|done]|].
      unfold ids. by rewrite app_nil_r, fmap_app. }
    exists w'. unfold py_zoom. simpl. rewrite E'. simpl.
    split_and!; [done..|]. by rewrite Hit', Ek, Hitk, Hit.
Qed.
End skipping.

(** First come, first served is not kept for requests that are skipped:
    when the scheduling loop skips the first [n] waiting requests of the FCFS
    queue (their remote KV, grammar or LoRA slot is not ready), putting them
    back leaves those [n] in the reverse of their arrival order. Each is
    prepended to the queue of skipped requests, which reverses them once, and
    [prepend_requests] keeps that order, since it reverses its argument before
    [extendleft] reverses it again. *)
Theorem skipped_requests_are_reversed (l : list RequestArgs) (n : nat) :
  NoDup (ids l) -> n <= length l ->
  skip_pass n (mkFCFS l) = Ret tt (mkFCFS (rev (take n l) ++ drop n l)).
Proof.
  intros Hnd Hn. destruct (skip_pass_ok n (mkFCFS l)) as ([l'] & E & _ & Hit); [done..|].
  rewrite E. do 2 f_equal. simpl in Hit. rewrite Hit. f_equal.
  change (extendleft (take n l) [] = rev (take n l)). by rewrite extendleft_app, app_nil_r.
Qed.

Lemma skipped_requests_are_reversed_witness :
  skip_pass 2 (mkFCFS [demo_a; demo_b; demo_c]) = Ret tt (mkFCFS [demo_b; demo_a; demo_c]).
Proof.
  apply (skipped_requests_are_reversed [demo_a; demo_b; demo_c] 2); [|simpl; lia].
  apply (bool_decide_eq_true_1 _). vm_compute; reflexivity.
Defined.

(** With the priority policy skipping is neutral: whatever operations
    built the queue, a pass that skips its first [n] requests and puts them
    back leaves the order in which the queue serves unchanged. *)
Theorem priority_skip_is_neutral (ops : list QueueOp) (n : nat) :
  let q : PriorityRequestQueue := (run_ops ops rq_new).2 in
  ops_fresh (Q:=PriorityRequestQueue) ops [] = true ->
  n <= rq_len q ->
  exists q', skip_pass n q = Ret tt q' /\ rq_iter q' = rq_iter q.
Proof.
  intros q Hf Hn. subst q. destruct (law_new (Q:=PriorityRequestQueue)) as [Hnew En].
  destruct (run_ops_ok ops rq_new Hnew) as (q & E & Hwf & _); [by rewrite En|].
  rewrite E in *. simpl in Hn |- *. pose proof (pq_iter_ok q Hwf) as [Hs HP].
  assert (NoDup (ids (pq_iter q))) as Hnd
    by (eapply ids_Permutation; [symmetry; exact HP|apply Hwf]).
  destruct (skip_pass_ok n q Hwf Hnd) as (q' & -> & Hwf' & Hit);
    [simpl; by rewrite (Permutation_length HP)|].
  exists q'. split; [done|]. simpl in Hit. unfold insert_all in Hit.
  pose proof (pq_iter_ok q' Hwf') as [Hs' HP'].
  apply sorted_unique; [|done..|]; [eapply ids_Permutation; [symmetry; exact HP'|apply Hwf']|].
  rewrite Hit, (fold_place_perm insert_sorted), (fold_place_perm insert_sorted)
    by apply insert_sorted_perm.
  by rewrite app_nil_r, take_drop.
Qed.

Lemma priority_skip_is_neutral_witness :
  exists q' : PriorityRequestQueue,
    skip_pass 2 (run_ops [OpAdd demo_a; OpAdd demo_b; OpAdd demo_c] rq_new).2 = Ret tt q' /\
    rq_iter q' = [demo_b; demo_c; demo_a].
Proof.
  destruct (priority_skip_is_neutral [OpAdd demo_a; OpAdd demo_b; OpAdd demo_c] 2)
    as (q' & E & Hit); [vm_compute; reflexivity|vm_compute; lia|].
  exists q'. split; [exact E|]. rewrite Hit. vm_compute; reflexivity.
Defined.
