(* ===== verification/EncoderCache.v ===== *)
(** The encoder cache ([vllm/v1/core/encoder_cache_manager.py]) and the part of
    the scheduler that drives it ([_try_schedule_encoder_inputs],
    [_free_encoder_inputs] and the allocation of scheduled inputs in
    [vllm/v1/core/sched/scheduler.py]), without a remote encoder cache.

    Sizes are in encoder tokens. An [OrderedDict] is a list of pairs in insertion
    order; the ids of a request's cached inputs are visited in ascending order. *)
From stdpp Require Import gmap strings list.
From Stdlib Require Import ZArith Lia.
From S2P Require Import Prelude Request.
Open Scope Z_scope.

(** ** The manager *)

Record EncoderCacheManager := mkEncoderCache {
  cache_size : Z;
  num_free_slots : Z;
  num_freeable_slots : Z;
  cached : gmap string (gset string); (** hash -> ids of the requests that use it *)
  freeable : list (string * Z); (** hash -> tokens, oldest first *)
  freed : list string
}.

Definition encoder_cache_init (size : Z) : EncoderCacheManager :=
  mkEncoderCache size size size ∅ [] [].

Definition ec_modify (f : EncoderCacheManager -> EncoderCacheManager) : py EncoderCacheManager unit :=
  py_modify f.
Definition set_slots (free freeable_slots : Z) (m : EncoderCacheManager) : EncoderCacheManager :=
  mkEncoderCache (cache_size m) free freeable_slots (cached m) (freeable m) (freed m).
Definition set_cached (c : gmap string (gset string)) (m : EncoderCacheManager) : EncoderCacheManager :=
  mkEncoderCache (cache_size m) (num_free_slots m) (num_freeable_slots m) c (freeable m) (freed m).
Definition set_freeable (l : list (string * Z)) (m : EncoderCacheManager) : EncoderCacheManager :=
  mkEncoderCache (cache_size m) (num_free_slots m) (num_freeable_slots m) (cached m) l (freed m).
Definition set_freed (l : list string) (m : EncoderCacheManager) : EncoderCacheManager :=
  mkEncoderCache (cache_size m) (num_free_slots m) (num_freeable_slots m) (cached m) (freeable m) l.

(** [OrderedDict.pop(key)]: None stands for KeyError. *)
Fixpoint odict_pop (k : string) (l : list (string * Z)) : option (Z * list (string * Z)) :=
  match l with
  | [] => None
  | (k', v) :: l' =>
      if decide (k' = k) then Some (v, l')
      else match odict_pop k l' with
           | Some (w, rest) => Some (w, (k', v) :: rest)
           | None => None
           end
  end.
(** [d[key] = v]: in place when the key is there, at the end otherwise. *)
Fixpoint odict_set (k : string) (v : Z) (l : list (string * Z)) : list (string * Z) :=
  match l with
  | [] => [(k, v)]
  | (k', v') :: l' => if decide (k' = k) then (k, v) :: l' else (k', v') :: odict_set k v l'
  end.

Definition mm_hash_of (r : Request) (input_id : nat) : py EncoderCacheManager string :=
  let! f := py_unwrap IndexError (mm_features (args r) !! input_id) in
  py_ret (identifier f).
Definition encoder_tokens (r : Request) (input_id : nat) : py EncoderCacheManager Z :=
  py_lift (get_num_encoder_tokens r input_id).

Definition check_and_update_cache (r : Request) (input_id : nat) : py EncoderCacheManager bool :=
  let! mm_hash := mm_hash_of r input_id in
  let! m := py_get in
  match cached m !! mm_hash with
  | None => py_ret false
  | Some users =>
      do! (if decide (users = ∅) then
             let! '(num_tokens, rest) := py_unwrap KeyError (odict_pop mm_hash (freeable m)) in
             do! ec_modify (set_freeable rest);
             ec_modify (fun m => set_slots (num_free_slots m) (num_freeable_slots m - num_tokens) m)
           else py_ret tt);
      do! ec_modify (fun m => set_cached (<[mm_hash := {[request_id (args r)]} ∪ users]> (cached m)) m);
      py_ret true
  end.

(** The [while] loop of [can_allocate]; each round takes the oldest entry, so the
    list of entries bounds it. [popitem] of an empty dict and [del] of a missing
    key raise KeyError. *)
Fixpoint evict_loop (num_tokens : Z) (entries : list (string * Z)) : py EncoderCacheManager unit :=
  let! m := py_get in
  if num_tokens >? num_free_slots m then
    match entries with
    | [] => py_raise KeyError
    | (mm_hash, num_free_token) :: entries' =>
        do! ec_modify (set_freeable entries');
        let! _ := py_unwrap KeyError (cached m !! mm_hash) in
        do! ec_modify (fun m => set_cached (delete mm_hash (cached m)) m);
        do! ec_modify (fun m => set_freed (freed m ++ [mm_hash]) m);
        do! ec_modify (fun m => set_slots (num_free_slots m + num_free_token) (num_freeable_slots m) m);
        evict_loop num_tokens entries'
    end
  else py_ret tt.

Definition can_allocate (r : Request) (input_id : nat)
    (encoder_compute_budget num_tokens_to_schedule : Z) : py EncoderCacheManager bool :=
  let! num_tokens := encoder_tokens r input_id in
  if num_tokens >? encoder_compute_budget then py_ret false else
  let num_tokens := num_tokens + num_tokens_to_schedule in
  let! m := py_get in
  if num_tokens <=? num_free_slots m then py_ret true else
  if num_tokens >? num_freeable_slots m then py_ret false else
  do! evict_loop num_tokens (freeable m);
  py_ret true.

Definition allocate (r : Request) (input_id : nat) : py EncoderCacheManager unit :=
  let! mm_hash := mm_hash_of r input_id in
  let! m := py_get in
  let users := default ∅ (cached m !! mm_hash) in
  do! ec_modify (fun m => set_cached (<[mm_hash := users]> (cached m)) m);
  let! num_encoder_tokens := encoder_tokens r input_id in
  do! py_assert (num_encoder_tokens <=? num_free_slots m);
  do! py_assert (num_encoder_tokens <=? num_freeable_slots m);
  do! ec_modify (fun m => set_cached (<[mm_hash := {[request_id (args r)]} ∪ users]> (cached m)) m);
  ec_modify (fun m => set_slots (num_free_slots m - num_encoder_tokens)
                        (num_freeable_slots m - num_encoder_tokens) m).

Definition get_cached_input_ids (r : Request) (m : EncoderCacheManager) : list nat :=
  List.filter
    (fun i => match mm_features (args r) !! i with
              | Some f => bool_decide (is_Some (cached m !! identifier f))
              | None => false
              end) (seq 0 (length (mm_features (args r)))).

Definition free_encoder_input (r : Request) (input_id : nat) : py EncoderCacheManager unit :=
  let! mm_hash := mm_hash_of r input_id in
  let! m := py_get in
  let users := default ∅ (cached m !! mm_hash) in
  if decide (users = ∅) then py_ret tt else
  let users' := users ∖ {[request_id (args r)]} in
  do! ec_modify (fun m => set_cached (<[mm_hash := users']> (cached m)) m);
  if decide (users' = ∅) then
    let! num_tokens := encoder_tokens r input_id in
    do! ec_modify (fun m => set_freeable (odict_set mm_hash num_tokens (freeable m)) m);
    ec_modify (fun m => set_slots (num_free_slots m) (num_freeable_slots m + num_tokens) m)
  else py_ret tt.

Definition ec_free (r : Request) : py EncoderCacheManager unit :=
  let! m := py_get in
  py_for (get_cached_input_ids r m) (free_encoder_input r).

Definition get_freed_mm_hashes : py EncoderCacheManager (list string) :=
  let! m := py_get in
  do! ec_modify (set_freed []);
  py_ret (freed m).

(** [compute_mm_encoder_budget], on the sizes of the modalities. *)
Definition compute_mm_encoder_budget (disable_chunked_mm_input : bool)
    (max_num_batched_tokens max_num_encoder_input_tokens encoder_cache_size : Z)
    (max_tokens_by_modality : list Z) : exn + Z * Z :=
  match max_tokens_by_modality with
  | [] => inr (0, 0)
  | x :: l =>
      let max_tokens_per_mm_item := foldr Z.max x l in
      if disable_chunked_mm_input && (max_tokens_per_mm_item >? max_num_batched_tokens)
      then inl ValueError
      else inr (Z.max max_num_encoder_input_tokens max_tokens_per_mm_item,
                Z.max encoder_cache_size max_tokens_per_mm_item)
  end.

(** ** The scheduler's side *)

(** The locals of [_try_schedule_encoder_inputs]. *)
Record EncoderPlan := mkPlan {
  encoder_inputs_to_schedule : list nat;
  plan_new_tokens : Z;
  plan_budget : Z;
  mm_hashes_to_schedule : gset string;
  num_tokens_to_schedule : Z
}.

Section scheduling.
Context (is_encoder_decoder disable_chunked_mm_input : bool).

(** The loop over [enumerate(mm_features)], from input [i] on. *)
Fixpoint try_schedule_loop (r : Request) (num_computed_tokens shift_computed_tokens : Z)
    (i : nat) (features : list MultiModalFeatureSpec) (p : EncoderPlan)
    : py EncoderCacheManager EncoderPlan :=
  match features with
  | [] => py_ret p
  | f :: features' =>
      let continue q := try_schedule_loop r num_computed_tokens shift_computed_tokens (S i) features' q in
      let break n := py_ret (mkPlan (encoder_inputs_to_schedule p) n (plan_budget p)
                               (mm_hashes_to_schedule p) (num_tokens_to_schedule p)) in
      let start_pos := offset (mm_position f) in
      let num_encoder_tokens := range_length (mm_position f) in
      if num_computed_tokens + plan_new_tokens p + shift_computed_tokens <=? start_pos then py_ret p else
      if is_encoder_decoder && (0 <? num_computed_tokens) then
        do! py_assert (start_pos =? 0); continue p
      else if start_pos + num_encoder_tokens <=? num_computed_tokens then continue p else
      let! hit :=
        (if negb is_encoder_decoder then
           if decide (identifier f ∈ mm_hashes_to_schedule p) then py_ret true
           else check_and_update_cache r i
         else py_ret false) in
      if hit then continue p else
      if disable_chunked_mm_input && (num_computed_tokens <? start_pos)
         && (num_computed_tokens + plan_new_tokens p <? start_pos + num_encoder_tokens)
      then break (start_pos - num_computed_tokens) else
      let! ok := can_allocate r i (plan_budget p) (num_tokens_to_schedule p) in
      if negb ok then
        if num_computed_tokens + shift_computed_tokens <? start_pos
        then break (start_pos - (num_computed_tokens + shift_computed_tokens))
        else break 0
      else
        continue (mkPlan (encoder_inputs_to_schedule p ++ [i]) (plan_new_tokens p)
                    (plan_budget p - num_encoder_tokens)
                    ({[identifier f]} ∪ mm_hashes_to_schedule p)
                    (num_tokens_to_schedule p + num_encoder_tokens))
  end.

Definition try_schedule_encoder_inputs (r : Request)
    (num_computed_tokens num_new_tokens encoder_compute_budget shift_computed_tokens : Z)
    : py EncoderCacheManager (list nat * Z * Z) :=
  if (num_new_tokens =? 0) || negb (has_encoder_inputs r)
  then py_ret ([], num_new_tokens, encoder_compute_budget)
  else
    let! p := try_schedule_loop r num_computed_tokens shift_computed_tokens 0 (mm_features (args r))
                (mkPlan [] num_new_tokens encoder_compute_budget ∅ 0) in
    py_ret (encoder_inputs_to_schedule p, plan_new_tokens p, plan_budget p).

(** What a turn of the running loop does to the encoder cache when it schedules its request
    (the whole turn is [Scheduler.running_step]): the inputs are planned; the requests that are preempted
    until its tokens have KV blocks ([victims]) give up theirs; then its inputs are
    allocated. *)
Definition schedule_encoder_inputs (r : Request)
    (num_computed_tokens num_new_tokens encoder_compute_budget shift_computed_tokens : Z)
    (victims : list Request) : py EncoderCacheManager (list nat) :=
  let! '(inputs, _, _) := try_schedule_encoder_inputs r num_computed_tokens num_new_tokens
                            encoder_compute_budget shift_computed_tokens in
  do! py_for victims ec_free;
  do! py_for inputs (allocate r);
  py_ret inputs.

(** [_free_encoder_inputs] *)
Definition free_encoder_inputs (r : Request) : py EncoderCacheManager unit :=
  let! m := py_get in
  py_for (get_cached_input_ids r m) (fun input_id =>
    let! f := py_unwrap IndexError (mm_features (args r) !! input_id) in
    if is_encoder_decoder && (0 <? num_computed_tokens r) then free_encoder_input r input_id
    else if offset (mm_position f) + range_length (mm_position f) <=? num_computed_tokens r
    then free_encoder_input r input_id
    else py_ret tt).

(** The calls the scheduler makes: inputs of a request planned and allocated, with any
    number of preemptions in between, or planned only (the KV cache had no room for its
    tokens); processed inputs
    released after a step; a request that is preempted or finished; the evicted hashes
    sent to the workers. *)
Inductive EcOp :=
| EcSchedule (r : Request) (num_computed new_tokens budget shift : Z) (victims : list Request)
| EcTry (r : Request) (num_computed new_tokens budget shift : Z)
| EcFreeInputs (r : Request)
| EcFree (r : Request)
| EcTakeFreed.

Definition ec_op (op : EcOp) : py EncoderCacheManager unit :=
  match op with
  | EcSchedule r n k b s victims => do! schedule_encoder_inputs r n k b s victims; py_ret tt
  | EcTry r n k b s => do! try_schedule_encoder_inputs r n k b s; py_ret tt
  | EcFreeInputs r => free_encoder_inputs r
  | EcFree r => ec_free r
  | EcTakeFreed => do! get_freed_mm_hashes; py_ret tt
  end.
End scheduling.

(** Planning never schedules more tokens than asked for. *)
Lemma try_loop_tokens ied chunk r nc i features p m p' m' :
  0 <= plan_new_tokens p ->
  try_schedule_loop ied chunk r nc 0 i features p m = Ret p' m' ->
  0 <= plan_new_tokens p' <= plan_new_tokens p.
Proof.
  revert i p m. induction features as [|f features IH]; intros i p m Hp; simpl.
  { intros [= <- _]. lia. }
  destruct (Z.leb_spec (nc + plan_new_tokens p + 0) (offset (mm_position f))) as [|Hlt]; [intros [= <- _]; lia|].
  destruct (ied && (0 <? nc)).
  { unfold py_bind, py_assert. destruct (offset _ =? 0); [|done]. by apply IH. }
  destruct (offset _ + _ <=? nc); [by apply IH|]. unfold py_bind.
  match goal with |- context [(if negb ied then ?a else ?b) m] =>
    destruct ((if negb ied then a else b) m) as [hit m1|]; [|done] end.
  destruct hit; [by apply IH|].
  destruct (chunk && _ && _) eqn:Ec.
  { intros [= <- _]. simpl. apply andb_true_iff in Ec as [Ec _].
    apply andb_true_iff in Ec as [_ Ec%Z.ltb_lt]. lia. }
  destruct (can_allocate _ _ _ _ m1) as [ok m2|]; [|done]. destruct ok; simpl.
  { intros Hr. apply IH in Hr; simpl in *; [done|done]. }
  destruct (Z.ltb_spec (nc + 0) (offset (mm_position f))); intros [= <- _]; simpl; lia.
Qed.

Lemma try_schedule_tokens ied chunk r nc n b m inputs n' b' m' :
  0 <= n -> try_schedule_encoder_inputs ied chunk r nc n b 0 m = Ret (inputs, n', b') m' -> 0 <= n' <= n.
Proof.
  intros Hn. unfold try_schedule_encoder_inputs. destruct (_ || _); [intros [= _ <- _ _]; lia|].
  unfold py_bind. destruct (try_schedule_loop _ _ _ _ _ _ _ _ m) as [p m1|] eqn:E; [|done].
  intros [= _ <- _ _]. by apply try_loop_tokens in E.
Qed.

(** ** Accounting *)

Section accounting.
(** The number of encoder tokens of an input is determined by its hash. *)
Context (size : string -> Z) (size_nonneg : forall h, 0 <= size h).

Definition sum_size (hs : list string) : Z := foldr (fun h acc => size h + acc) 0 hs.
Definition tokens (X : gset string) : Z := sum_size (elements X).
Definition entry_tokens (l : list (string * Z)) : Z := foldr (fun e acc => e.2 + acc) 0 l.

Definition consistent (r : Request) : Prop :=
  forall i f, mm_features (args r) !! i = Some f -> range_length (mm_position f) = size (identifier f).

(** What is free or freeable is exactly what is not used, entry by entry. *)
Record cache_inv (m : EncoderCacheManager) : Prop := {
  inv_free : num_free_slots m = cache_size m - tokens (dom (cached m));
  inv_free_nonneg : 0 <= num_free_slots m;
  inv_freeable : num_freeable_slots m = num_free_slots m + entry_tokens (freeable m);
  inv_nodup : NoDup (freeable m).*1;
  inv_unused : forall h n, (h, n) ∈ freeable m <-> cached m !! h = Some ∅ /\ n = size h
}.

Lemma sum_size_perm l l' : l ≡ₚ l' -> sum_size l = sum_size l'.
Proof. induction 1; simpl; lia. Qed.
Lemma sum_size_nonneg l : 0 <= sum_size l.
Proof. induction l as [|h l IH]; simpl; [lia|]. pose proof (size_nonneg h). lia. Qed.
Lemma entry_tokens_perm l l' : l ≡ₚ l' -> entry_tokens l = entry_tokens l'.
Proof. induction 1; simpl; lia. Qed.

Lemma tokens_insert h X : h ∉ X -> tokens ({[h]} ∪ X) = size h + tokens X.
Proof.
  intros Hh. unfold tokens. rewrite (sum_size_perm _ (h :: elements X)); [done|].
  by apply elements_union_singleton.
Qed.
Lemma tokens_delete h X : h ∈ X -> tokens X = size h + tokens (X ∖ {[h]}).
Proof.
  intros Hh. rewrite <- tokens_insert by set_solver. f_equal.
  apply set_eq. intros x. destruct (decide (x = h)); set_solver.
Qed.

Lemma entry_tokens_nonneg l : (forall h n, (h, n) ∈ l -> n = size h) -> 0 <= entry_tokens l.
Proof.
  induction l as [|[h n] l IH]; intros Hl; simpl; [lia|].
  rewrite (Hl h n) by left. pose proof (size_nonneg h).
  assert (0 <= entry_tokens l) by (apply IH; intros; apply Hl; by right). lia.
Qed.

Lemma free_le_freeable m : cache_inv m -> num_free_slots m <= num_freeable_slots m.
Proof.
  intros [_ _ -> _ Hu]. assert (0 <= entry_tokens (freeable m)); [|lia].
  apply entry_tokens_nonneg. intros h n [_ ->]%Hu. done.
Qed.

Lemma odict_pop_ok k v l :
  NoDup l.*1 -> (k, v) ∈ l -> exists rest, odict_pop k l = Some (v, rest) /\ l ≡ₚ (k, v) :: rest.
Proof.
  induction l as [|[k' v'] l IH]; simpl; [set_solver|].
  intros [Hk Hnd]%NoDup_cons Hin. case_decide as E.
  - subst k'. exists l. assert (v' = v) as ->; [|done].
    apply elem_of_cons in Hin as [[= ->]|Hin]; [done|]. destruct Hk.
    change k with (k, v).1. by apply list_elem_of_fmap_2.
  - apply elem_of_cons in Hin as [[= -> ->]|Hin]; [done|].
    destruct (IH Hnd Hin) as (rest & -> & HP). eexists. split; [done|].
    rewrite HP. apply perm_swap.
Qed.

Lemma odict_set_new k v l : k ∉ l.*1 -> odict_set k v l = l ++ [(k, v)].
Proof.
  induction l as [|[k' v'] l IH]; simpl; [done|]. intros Hk.
  rewrite decide_False by set_solver. rewrite IH by set_solver. done.
Qed.

Lemma key_freeable m h : cache_inv m -> h ∈ (freeable m).*1 <-> cached m !! h = Some ∅.
Proof.
  intros Hi. split.
  - intros ([h' n] & -> & Hin)%list_elem_of_fmap. by apply (inv_unused m Hi) in Hin as [? _].
  - intros Hc. change h with (h, size h).1. apply list_elem_of_fmap_2.
    by apply (inv_unused m Hi).
Qed.

(** Users change on a hash that is in the cache, and its entry follows. *)
Lemma inv_users m h users users' l :
  cache_inv m -> cached m !! h = Some users ->
  NoDup l.*1 ->
  (forall h' n, (h', n) ∈ l <-> (if decide (h' = h) then users' = ∅ else cached m !! h' = Some ∅) /\ n = size h') ->
  cache_inv (set_slots (num_free_slots m) (num_free_slots m + entry_tokens l)
               (set_freeable l (set_cached (<[h := users']> (cached m)) m))).
Proof.
  intros [H1 H2 H3 H4 H5] Hc Hnd Hl. split; simpl; [|done|done|done|].
  - rewrite dom_insert_lookup_L by done. done.
  - intros h' n. rewrite Hl. case_decide as E; subst.
    + rewrite lookup_insert_eq. naive_solver.
    + by rewrite lookup_insert_ne.
Qed.

(** *** Each operation *)

Section operations.
Context (r : Request) (i : nat) (f : MultiModalFeatureSpec).
Context (feature : mm_features (args r) !! i = Some f) (sized : consistent r).
Notation h := (identifier f).

Lemma wp_mm_hash Q m : Q h m -> wp (mm_hash_of r i) Q m.
Proof using feature. unfold mm_hash_of, wp, py_bind. by rewrite feature. Qed.

Lemma wp_encoder_tokens Q m : Q (size h) m -> wp (encoder_tokens r i) Q m.
Proof using feature sized.
  unfold encoder_tokens, get_num_encoder_tokens, wp. rewrite feature. simpl.
  by rewrite (sized i f feature).
Qed.

Lemma check_ok m :
  cache_inv m ->
  wp (check_and_update_cache r i) (fun b m' => cache_inv m' /\
      num_free_slots m' = num_free_slots m /\ cache_size m' = cache_size m /\
      dom (cached m') = dom (cached m) /\ b = bool_decide (h ∈ dom (cached m))) m.
Proof using size_nonneg feature sized.
  intros Hi. unfold check_and_update_cache. apply wp_bind, wp_mm_hash. wp_step. wp_step.
  destruct (cached m !! h) as [users|] eqn:Hc; cycle 1.
  { apply wp_ret. rewrite bool_decide_eq_false_2 by (by apply not_elem_of_dom). done. }
  rewrite bool_decide_eq_true_2 by (by eapply elem_of_dom_2).
  pose proof Hi as [H1 H2 H3 H4 H5]. apply wp_bind. case_decide as Hu.
  - subst users. destruct (odict_pop_ok h (size h) (freeable m)) as (rest & Hp & HP); [done|by apply H5|].
    apply wp_bind. rewrite Hp. apply wp_ret. unfold ec_modify. wp_run.
    assert (NoDup ((h, size h) :: rest).*1) as Hnd by (by rewrite <- HP).
    simpl in Hnd. apply NoDup_cons in Hnd as [Hh Hnd].
    assert (cache_inv (set_slots (num_free_slots m) (num_free_slots m + entry_tokens rest)
      (set_freeable rest (set_cached (<[h := {[request_id (args r)]} ∪ ∅]> (cached m)) m)))) as Hi'.
    { apply (inv_users m h ∅); [done..|]. intros h' n. case_decide as E.
      - subst h'. split; [|intros [? _]; set_solver]. intros Hin. destruct Hh.
        change h with (h, n).1. by apply list_elem_of_fmap_2.
      - rewrite <- H5, HP, elem_of_cons. split; [by right|]. intros [[=]|?]; [congruence|done]. }
    rewrite (entry_tokens_perm _ _ HP) in H3. simpl in H3.
    replace (num_freeable_slots m - size h) with (num_free_slots m + entry_tokens rest) by lia.
    split; [exact Hi'|]. simpl. split_and!; [done|done|by rewrite dom_insert_lookup_L|done].
  - unfold ec_modify. wp_run.
    split; [|simpl; split_and!; [done|done|by rewrite dom_insert_lookup_L|done]].
    assert (cache_inv (set_slots (num_free_slots m) (num_free_slots m + entry_tokens (freeable m))
      (set_freeable (freeable m) (set_cached (<[h := {[request_id (args r)]} ∪ users]> (cached m)) m)))) as Hi'.
    { apply (inv_users m h users); [done..|]. intros h' n. rewrite H5. case_decide as E; [|done].
      subst h'. rewrite Hc. split; [by intros [[= ->] _]|].
      intros [E _]. exfalso. apply (non_empty_singleton_L (C:=gset string) (request_id (args r))). set_solver. }
    rewrite <- H3 in Hi'. exact Hi'.
Qed.

Lemma evict_ok n m :
  cache_inv m -> n <= num_freeable_slots m ->
  wp (evict_loop n (freeable m)) (fun _ m' => cache_inv m' /\ n <= num_free_slots m' /\
      num_free_slots m <= num_free_slots m' /\ cache_size m' = cache_size m /\
      dom (cached m') ⊆ dom (cached m)) m.
Proof using size_nonneg feature sized.
  remember (freeable m) as entries eqn:Ee. revert m Ee.
  induction entries as [|[h0 k] entries IH]; intros m Ee Hi Hn; simpl; wp_step; wp_step;
    destruct (Z.gtb_spec n (num_free_slots m)) as [Hgt|Hle].
  - destruct Hi as [_ _ H3 _ _]. rewrite <- Ee in H3. simpl in H3. lia.
  - apply wp_ret. by split_and!.
  - pose proof Hi as [H1 H2 H3 H4 H5].
    destruct (proj1 (H5 h0 k)) as [Hc ->]; [rewrite <- Ee; left|].
    unfold ec_modify. wp_step. wp_step. wp_step. rewrite Hc. wp_run.
    set (m1 := set_slots _ _ _).
    assert (cache_inv m1) as Hi1.
    { rewrite <- Ee in H3, H4. simpl in H3, H4. apply NoDup_cons in H4 as [Hh0 H4].
      split; simpl; [| |lia|done|].
      - rewrite dom_delete_L, H1. rewrite (tokens_delete h0 (dom (cached m))); [lia|].
        by eapply elem_of_dom_2.
      - pose proof (size_nonneg h0). lia.
      - intros h' n'. destruct (decide (h' = h0)) as [->|Hne].
        + rewrite lookup_delete_eq. split; [|by intros [? _]]. intros Hin. destruct Hh0.
          change h0 with (h0, n').1. by apply list_elem_of_fmap_2.
        + rewrite lookup_delete_ne by done. rewrite <- H5, <- Ee, elem_of_cons.
          split; [by right|]. intros [[=]|?]; [congruence|done]. }
    eapply wp_mono; [apply (IH m1 eq_refl Hi1 Hn)|]. simpl.
    intros _ m' (Hi' & Hn' & Hm & Hs & Hd). pose proof (size_nonneg h0).
    split_and!; [done|done|lia|done|]. rewrite dom_delete_L in Hd. set_solver.
  - apply wp_ret. by split_and!.
Qed.

Lemma can_allocate_ok budget t m :
  cache_inv m ->
  wp (can_allocate r i budget t) (fun ok m' => cache_inv m' /\
      num_free_slots m <= num_free_slots m' /\ cache_size m' = cache_size m /\
      dom (cached m') ⊆ dom (cached m) /\ (ok = true -> size h + t <= num_free_slots m')) m.
Proof using size_nonneg feature sized.
  intros Hi. unfold can_allocate. apply wp_bind, wp_encoder_tokens.
  destruct (_ >? _); [apply wp_ret; by split_and!|]. wp_step. wp_step.
  destruct (Z.leb_spec (size h + t) (num_free_slots m)); [apply wp_ret; by split_and!|].
  destruct (Z.gtb_spec (size h + t) (num_freeable_slots m)); [apply wp_ret; by split_and!|].
  apply wp_bind. eapply wp_mono; [by apply evict_ok|].
  intros _ m' (? & ? & ? & ? & ?). apply wp_ret. by split_and!.
Qed.

Lemma allocate_ok m :
  cache_inv m -> h ∉ dom (cached m) -> size h <= num_free_slots m ->
  wp (allocate r i) (fun _ m' => cache_inv m' /\ cache_size m' = cache_size m /\
      num_free_slots m' = num_free_slots m - size h /\ dom (cached m') = {[h]} ∪ dom (cached m)) m.
Proof using size_nonneg feature sized.
  intros Hi Hh Hs. pose proof (free_le_freeable m Hi). pose proof Hi as [H1 H2 H3 H4 H5].
  unfold allocate, ec_modify. apply wp_bind, wp_mm_hash. wp_step. wp_step. wp_step. wp_step.
  apply wp_bind, wp_encoder_tokens. wp_step. wp_step. wp_step. wp_step. wp_run.
  apply not_elem_of_dom in Hh as Hc. rewrite Hc. simpl.
  rewrite insert_insert_eq, union_empty_r_L.
  assert (dom (<[h:={[request_id (args r)]}]> (cached m)) = {[h]} ∪ dom (cached m)) as Hd
    by apply dom_insert_L.
  split; [|by split_and!]. split; simpl; [|lia|lia|done|].
  - rewrite Hd, tokens_insert by done. lia.
  - intros h' n. rewrite H5. destruct (decide (h' = h)) as [->|Hne].
    + rewrite lookup_insert_eq, Hc. split; [by intros [? _]|]. by intros [[= E]%eq_sym _].
    + by rewrite lookup_insert_ne.
Qed.

Lemma free_input_ok m :
  cache_inv m ->
  wp (free_encoder_input r i) (fun _ m' => cache_inv m' /\ cache_size m' = cache_size m /\
      num_free_slots m' = num_free_slots m /\ dom (cached m') = dom (cached m) /\
      num_freeable_slots m <= num_freeable_slots m') m.
Proof using size_nonneg feature sized.
  intros Hi. pose proof Hi as [H1 H2 H3 H4 H5].
  unfold free_encoder_input, ec_modify. apply wp_bind, wp_mm_hash. wp_step. wp_step.
  destruct (cached m !! h) as [users|] eqn:Hc; simpl; cycle 1.
  { rewrite decide_True by done. apply wp_ret. by split_and!. }
  case_decide as Hu; [apply wp_ret; by split_and!|]. wp_step. wp_step.
  set (users' := users ∖ {[request_id (args r)]}).
  assert (dom (<[h:=users']> (cached m)) = dom (cached m)) as Hd by (by rewrite dom_insert_lookup_L).
  assert (h ∉ (freeable m).*1) as Hk.
  { rewrite (key_freeable m h Hi), Hc. by intros [= ?]. }
  case_decide as Hu'.
  - apply wp_bind, wp_encoder_tokens. wp_run. rewrite (odict_set_new _ _ _ Hk).
    assert (cache_inv (set_slots (num_free_slots m) (num_free_slots m + entry_tokens (freeable m ++ [(h, size h)]))
      (set_freeable (freeable m ++ [(h, size h)]) (set_cached (<[h := users']> (cached m)) m)))) as Hi'.
    { apply (inv_users m h users); [done..| |].
      - rewrite fmap_app, NoDup_app. simpl. split_and!; [done|set_solver|apply NoDup_singleton].
      - intros h' n. rewrite elem_of_app, list_elem_of_singleton, H5. case_decide as E.
        + subst h'. rewrite Hc. naive_solver.
        + naive_solver. }
    assert (entry_tokens (freeable m ++ [(h, size h)]) = entry_tokens (freeable m) + size h) as Ee.
    { rewrite (entry_tokens_perm _ ((h, size h) :: freeable m)); [simpl; lia|].
      by rewrite Permutation_app_comm. }
    rewrite Ee in Hi'. pose proof (size_nonneg h).
    replace (num_freeable_slots m + size h)
      with (num_free_slots m + (entry_tokens (freeable m) + size h)) by lia.
    split; [exact Hi'|]. simpl. split_and!; [done|done|done|lia].
  - apply wp_ret. simpl. split; [|split_and!; [done|done|done|lia]].
    assert (cache_inv (set_slots (num_free_slots m) (num_free_slots m + entry_tokens (freeable m))
      (set_freeable (freeable m) (set_cached (<[h := users']> (cached m)) m)))) as Hi'.
    { apply (inv_users m h users); [done..|]. intros h' n. rewrite H5. case_decide as E; [|done].
      subst h'. rewrite Hc. naive_solver. }
    rewrite <- H3 in Hi'. exact Hi'.
Qed.
End operations.

(** *** A scheduling pass *)

(** The planned inputs: distinct hashes that are not in the cache and fit. *)
Definition plan_ok (r : Request) (p : EncoderPlan) (m : EncoderCacheManager) : Prop :=
  exists hs,
    Forall2 (fun i h => exists f, mm_features (args r) !! i = Some f /\ identifier f = h)
      (encoder_inputs_to_schedule p) hs /\
    NoDup hs /\ mm_hashes_to_schedule p = list_to_set hs /\
    num_tokens_to_schedule p = sum_size hs /\ sum_size hs <= num_free_slots m /\
    (forall h, h ∈ hs -> h ∉ dom (cached m)).

Lemma plan_ok_mono r p m m' :
  plan_ok r p m -> num_free_slots m <= num_free_slots m' -> dom (cached m') ⊆ dom (cached m) ->
  plan_ok r p m'.
Proof.
  intros (hs & H1 & H2 & H3 & H4 & H5 & H6) Hf Hd. exists hs. split_and!; [done..|lia|].
  intros h Hh Hc. by apply (H6 h Hh), Hd.
Qed.

Lemma plan_ok_break r p m n :
  plan_ok r p m ->
  plan_ok r (mkPlan (encoder_inputs_to_schedule p) n (plan_budget p) (mm_hashes_to_schedule p)
               (num_tokens_to_schedule p)) m.
Proof. done. Qed.

Lemma plan_ok_add r p m i f b :
  plan_ok r p m -> mm_features (args r) !! i = Some f -> identifier f ∉ mm_hashes_to_schedule p ->
  identifier f ∉ dom (cached m) -> range_length (mm_position f) = size (identifier f) ->
  size (identifier f) + num_tokens_to_schedule p <= num_free_slots m ->
  plan_ok r (mkPlan (encoder_inputs_to_schedule p ++ [i]) (plan_new_tokens p) b
               ({[identifier f]} ∪ mm_hashes_to_schedule p)
               (num_tokens_to_schedule p + range_length (mm_position f))) m.
Proof.
  intros (hs & H1 & H2 & H3 & H4 & H5 & H6) Hf Hh Hc Hs Hfit. exists (hs ++ [identifier f]). simpl.
  rewrite H3 in Hh. apply not_elem_of_list_to_set in Hh.
  assert (sum_size (hs ++ [identifier f]) = sum_size hs + size (identifier f)) as E.
  { rewrite (sum_size_perm _ (identifier f :: hs)); [simpl; lia|]. by rewrite Permutation_app_comm. }
  split_and!.
  - apply Forall2_app; [done|]. constructor; [eauto|constructor].
  - apply NoDup_app. split_and!; [done|set_solver|apply NoDup_singleton].
  - rewrite list_to_set_app_L, H3. set_solver.
  - rewrite E. lia.
  - rewrite E. lia.
  - intros h' [Hin|Hin]%elem_of_app; [by apply H6|].
    apply list_elem_of_singleton in Hin as ->. done.
Qed.

Section pass.
Context (disable_chunked_mm_input : bool) (r : Request) (sized : consistent r).
Context (num_computed shift : Z).

Lemma try_loop_ok i features p m :
  (forall j f, features !! j = Some f -> mm_features (args r) !! (i + j)%nat = Some f) ->
  cache_inv m -> plan_ok r p m ->
  wp (try_schedule_loop false disable_chunked_mm_input r num_computed shift i features p)
    (fun p' m' => cache_inv m' /\ plan_ok r p' m' /\ cache_size m' = cache_size m) m.
Proof using size_nonneg sized.
  revert i p m. induction features as [|f features IH]; intros i p m Hf Hi Hp; simpl.
  { by apply wp_ret. }
  assert (mm_features (args r) !! i = Some f) as Hfi
    by (rewrite <- (Nat.add_0_r i); by apply (Hf 0%nat)).
  assert (forall j g, features !! j = Some g -> mm_features (args r) !! (S i + j)%nat = Some g) as Hf'
    by (intros j g Hg; rewrite Nat.add_succ_comm; by apply Hf).
  destruct (_ <=? offset _); [by apply wp_ret|].
  destruct (_ <=? num_computed); [by apply IH|].
  apply wp_bind. case_decide as Hin; [apply wp_ret; by apply IH|].
  eapply wp_mono; [by apply (check_ok r i f)|].
  intros hit m1 (Hi1 & Hfree1 & Hs1 & Hd1 & ->). simpl.
  assert (plan_ok r p m1) as Hp1
    by (eapply plan_ok_mono; [exact Hp|lia|by rewrite Hd1]).
  case_bool_decide as Hcached.
  { eapply wp_mono; [by apply IH|]. intros p' m' (? & ? & ?). split_and!; [done..|congruence]. }
  destruct (_ && _ && _); [apply wp_ret; split_and!; [done|by apply plan_ok_break|done]|].
  apply wp_bind. eapply wp_mono; [by apply (can_allocate_ok r i f)|].
  intros ok m2 (Hi2 & Hfree2 & Hs2 & Hd2 & Hok). simpl.
  assert (plan_ok r p m2) as Hp2 by (by eapply plan_ok_mono).
  assert (cache_size m2 = cache_size m) as Hs by congruence.
  destruct ok; simpl; cycle 1.
  { destruct (_ <? offset _); apply wp_ret; (split_and!; [done|by apply plan_ok_break|done]). }
  eapply wp_mono; [apply IH|]; [done|done| |].
  - apply plan_ok_add; [done..| | |].
    + intros Hc. apply Hcached. rewrite <- Hd1. by apply Hd2.
    + by eapply sized.
    + by apply Hok.
  - intros p' m' (? & ? & ?). split_and!; [done..|congruence].
Qed.

Lemma try_schedule_ok new_tokens budget m :
  cache_inv m ->
  wp (try_schedule_encoder_inputs false disable_chunked_mm_input r num_computed new_tokens budget shift)
    (fun res m' => cache_inv m' /\ cache_size m' = cache_size m /\
      exists p, plan_ok r p m' /\ encoder_inputs_to_schedule p = res.1.1) m.
Proof using size_nonneg sized.
  intros Hi. unfold try_schedule_encoder_inputs.
  assert (forall n b, plan_ok r (mkPlan [] n b ∅ 0) m) as Hp0.
  { intros n b. exists []. split_and!; [constructor|constructor|done|done|apply Hi|set_solver]. }
  destruct (_ || _).
  - apply wp_ret. split_and!; [done..|]. by exists (mkPlan [] new_tokens budget ∅ 0).
  - apply wp_bind. eapply wp_mono; [by apply try_loop_ok|].
    intros p m' (? & ? & ?). apply wp_ret. split_and!; [done..|]. by exists p.
Qed.

Lemma allocate_all_ok inputs hs m :
  Forall2 (fun i h => exists f, mm_features (args r) !! i = Some f /\ identifier f = h) inputs hs ->
  NoDup hs -> sum_size hs <= num_free_slots m -> (forall h, h ∈ hs -> h ∉ dom (cached m)) ->
  cache_inv m ->
  wp (py_for inputs (allocate r)) (fun _ m' => cache_inv m' /\ cache_size m' = cache_size m) m.
Proof using size_nonneg sized.
  intros HF. revert m. induction HF as [|i h inputs hs (f & Hf & <-) HF IH]; intros m Hnd Hs Hc Hi; simpl.
  { by apply wp_ret. }
  apply NoDup_cons in Hnd as [Hh Hnd]. simpl in Hs. pose proof (sum_size_nonneg hs).
  apply wp_bind. eapply wp_mono; [apply (allocate_ok r i f); [done..|apply Hc; left|lia]|].
  intros _ m1 (Hi1 & Hs1 & Hf1 & Hd1). eapply wp_mono; [apply IH; [done|lia| |done]|].
  - intros h Hin Hdom. rewrite Hd1 in Hdom. apply elem_of_union in Hdom as [E|Hdom].
    + apply elem_of_singleton in E as ->. done.
    + apply (Hc h); [by right|done].
  - simpl. intros _ m' [? ?]. split; [done|congruence].
Qed.

End pass.

Lemma free_all_ok r body l m :
  consistent r -> cache_inv m ->
  (forall i, i ∈ l -> is_Some (mm_features (args r) !! i)) ->
  (forall i, body i = free_encoder_input r i \/ body i = py_ret tt \/
     exists k, body i = py_bind (py_unwrap IndexError (mm_features (args r) !! i)) k /\
       forall f, k f = free_encoder_input r i \/ k f = py_ret tt) ->
  wp (py_for l body) (fun _ m' => (cache_inv m' /\ cache_size m' = cache_size m) /\
      num_free_slots m' = num_free_slots m /\ dom (cached m') = dom (cached m)) m.
Proof.
  intros Hr. revert m. induction l as [|i l IH]; intros m Hi Hl Hb; simpl; [by apply wp_ret|].
  destruct (Hl i) as [f Hf]; [left|].
  set (same := fun (_ : unit) m' => (cache_inv m' /\ cache_size m' = cache_size m) /\
      num_free_slots m' = num_free_slots m /\ dom (cached m') = dom (cached m)).
  assert (wp (free_encoder_input r i) same m) as Hfree.
  { eapply wp_mono; [by apply (free_input_ok r i f)|]. by intros u m' (? & ? & ? & ? & _). }
  assert (wp (py_ret tt) same m) as Hret by (by apply wp_ret).
  apply wp_bind. apply (wp_mono _ same).
  { destruct (Hb i) as [->|[->|(k & -> & Hk)]]; [done|done|]. apply wp_bind. rewrite Hf.
    apply wp_ret. by destruct (Hk f) as [->| ->]. }
  intros u m1 ([Hi1 Hs1] & Hf1 & Hd1). eapply wp_mono; [apply IH; [done| |done]; intros; apply Hl; by right|].
  simpl. intros u' m' ([? ?] & ? & ?). split_and!; [done|congruence..].
Qed.

Lemma cached_ids_valid r m i : i ∈ get_cached_input_ids r m -> is_Some (mm_features (args r) !! i).
Proof.
  unfold get_cached_input_ids. rewrite list_elem_of_In, filter_In. intros [_ H].
  by destruct (mm_features (args r) !! i).
Qed.

(** Releasing a request's inputs, the processed ones or all, gives no entry up. *)
Lemma free_inputs_ok r m :
  consistent r -> cache_inv m ->
  wp (free_encoder_inputs false r) (fun _ m' => (cache_inv m' /\ cache_size m' = cache_size m) /\
      num_free_slots m' = num_free_slots m /\ dom (cached m') = dom (cached m)) m.
Proof using size_nonneg.
  intros Hr Hi. unfold free_encoder_inputs. wp_step. wp_step. apply (free_all_ok r); [done..| |].
  - intros i. apply cached_ids_valid.
  - intros i. right. right. eexists. split; [done|]. intros f. simpl. destruct (_ <=? _); auto.
Qed.

Lemma ec_free_ok r m :
  consistent r -> cache_inv m ->
  wp (ec_free r) (fun _ m' => (cache_inv m' /\ cache_size m' = cache_size m) /\
      num_free_slots m' = num_free_slots m /\ dom (cached m') = dom (cached m)) m.
Proof using size_nonneg.
  intros Hr Hi. unfold ec_free. wp_step. wp_step. apply (free_all_ok r); [done..| |by auto].
  intros i. apply cached_ids_valid.
Qed.

(** Preemptions leave a plan valid: they release users, not entries. *)
Lemma free_victims_ok victims m :
  Forall consistent victims -> cache_inv m ->
  wp (py_for victims ec_free) (fun _ m' => (cache_inv m' /\ cache_size m' = cache_size m) /\
      num_free_slots m' = num_free_slots m /\ dom (cached m') = dom (cached m)) m.
Proof using size_nonneg.
  intros HF. revert m. induction HF as [|v victims Hv HF IH]; intros m Hi; simpl; [by apply wp_ret|].
  apply wp_bind. eapply wp_mono; [by apply ec_free_ok|]. intros _ m1 ([Hi1 Hs1] & Hf1 & Hd1).
  eapply wp_mono; [by apply IH|]. simpl. intros _ m' ([? ?] & ? & ?). split_and!; [done|congruence..].
Qed.

Lemma ec_schedule_ok chunk r num_computed new_tokens budget shift victims m :
  consistent r -> Forall consistent victims -> cache_inv m ->
  wp (schedule_encoder_inputs false chunk r num_computed new_tokens budget shift victims)
    (fun _ m' => cache_inv m' /\ cache_size m' = cache_size m) m.
Proof using size_nonneg.
  intros Hr Hv Hi. unfold schedule_encoder_inputs. apply wp_bind.
  eapply wp_mono; [by apply try_schedule_ok|].
  intros [[inputs n] b] m1 (Hi1 & Hs1 & p & (hs & H1 & H2 & H3 & H4 & H5 & H6) & E). simpl in *.
  subst inputs. apply wp_bind. eapply wp_mono; [by apply free_victims_ok|].
  intros _ m2 ([Hi2 Hs2] & Hf2 & Hd2). apply wp_bind.
  eapply wp_mono; [apply (allocate_all_ok r Hr _ hs); [done|done|lia|by rewrite Hd2|done]|].
  intros _ m' [? ?]. apply wp_ret. split; [done|congruence].
Qed.

(** *** Runs *)

Definition op_consistent (op : EcOp) : Prop :=
  match op with
  | EcSchedule r _ _ _ _ victims => consistent r /\ Forall consistent victims
  | EcTry r _ _ _ _ | EcFreeInputs r | EcFree r => consistent r
  | EcTakeFreed => True
  end.

Lemma init_ok cs : 0 <= cs -> cache_inv (encoder_cache_init cs).
Proof.
  intros Hcs. split; simpl; [|done|lia|constructor|].
  - rewrite dom_empty_L. unfold tokens. rewrite elements_empty. simpl. lia.
  - intros h n. rewrite lookup_empty. set_solver.
Qed.

Lemma ec_op_ok chunk op m :
  op_consistent op -> cache_inv m ->
  wp (ec_op false chunk op) (fun _ m' => cache_inv m' /\ cache_size m' = cache_size m) m.
Proof using size_nonneg.
  intros Hop Hi. destruct op as [r n k b s victims|r n k b s|r|r|]; simpl in *.
  - destruct Hop as [Hop Hvs]. apply wp_bind. eapply wp_mono; [by apply ec_schedule_ok|]. intros l m' H. by apply wp_ret.
  - apply wp_bind. eapply wp_mono; [by apply try_schedule_ok|].
    intros l m' (? & ? & _). by apply wp_ret.
  - eapply wp_mono; [by apply free_inputs_ok|]. by intros _ m' [? _].
  - eapply wp_mono; [by apply ec_free_ok|]. by intros _ m' [? _].
  - destruct Hi. by split.
Qed.

Lemma tokens_union_list X l :
  NoDup l -> (forall h, h ∈ l -> h ∉ X) -> tokens (X ∪ list_to_set l) = tokens X + sum_size l.
Proof.
  induction l as [|h l IH]; simpl; intros Hnd Hd.
  { rewrite union_empty_r_L. lia. }
  apply NoDup_cons in Hnd as [Hh Hnd].
  replace (X ∪ ({[h]} ∪ list_to_set l)) with ({[h]} ∪ (X ∪ list_to_set l)) by set_solver.
  rewrite tokens_insert, IH; [lia|done|set_solver|].
  assert (h ∉ X) by (apply Hd; left). set_solver.
Qed.

(** The entries that some request uses. *)
Definition in_use (m : EncoderCacheManager) : gset string :=
  filter (fun h => cached m !! h <> Some ∅) (dom (cached m)).

Lemma freeable_is_not_in_use m :
  cache_inv m -> num_freeable_slots m = cache_size m - tokens (in_use m).
Proof.
  intros [H1 H2 H3 H4 H5].
  assert (entry_tokens (freeable m) = sum_size (freeable m).*1) as He.
  { assert (forall h n, (h, n) ∈ freeable m -> n = size h) as Hs by (intros h n [_ ?]%H5; done).
    revert Hs. clear. induction (freeable m) as [|[h n] l IH]; intros Hs; simpl; [done|].
    rewrite (Hs h n) by left. rewrite IH; [done|]. intros; apply Hs; by right. }
  assert (forall h, h ∈ (freeable m).*1 <-> cached m !! h = Some ∅) as Hk.
  { intros h. rewrite list_elem_of_fmap. split.
    - intros ([h' n] & -> & Hin). by apply H5 in Hin as [? _].
    - intros Hc. exists (h, size h). split; [done|]. by apply H5. }
  assert (dom (cached m) = in_use m ∪ list_to_set (freeable m).*1) as Hd.
  { apply set_eq. intros h. unfold in_use.
    rewrite elem_of_union, elem_of_filter, elem_of_list_to_set, Hk, elem_of_dom.
    destruct (decide (cached m !! h = Some ∅)) as [->|]; naive_solver. }
  rewrite H3, H1, Hd, tokens_union_list; [lia|done|].
  intros h Hh%Hk. unfold in_use. set_solver.
Qed.
End accounting.

(** C38. The encoder cache never over-commits and never fails. Whatever sequence
    of scheduling passes (allocated, with preemptions between the plan and the
    allocation, or abandoned), releases, preemptions and completions a decoder-only
    model makes, with inputs whose token count is determined by their hash, no
    operation raises, so the assertions of [allocate] and the
    evictions of [can_allocate] always succeed; the slots reported free are the
    capacity less everything cached, those reported freeable the capacity less
    what some request uses, and both lie between 0 and the capacity. *)
Theorem encoder_cache_accounting (size : string -> Z) (disable_chunked_mm_input : bool)
    (capacity : Z) (ops : list EcOp) :
  (forall h, 0 <= size h) -> 0 <= capacity -> Forall (op_consistent size) ops ->
  exists m,
    py_for ops (ec_op false disable_chunked_mm_input) (encoder_cache_init capacity) = Ret tt m /\
    cache_size m = capacity /\
    num_free_slots m = capacity - tokens size (dom (cached m)) /\
    num_freeable_slots m = capacity - tokens size (in_use m) /\
    0 <= num_free_slots m <= num_freeable_slots m /\ num_freeable_slots m <= capacity.
Proof.
  intros Hsize Hcap Hops.
  assert (wp (py_for ops (ec_op false disable_chunked_mm_input))
            (fun _ m => cache_inv size m /\ cache_size m = capacity) (encoder_cache_init capacity)) as H.
  { apply (wp_for _ (fun _ m => cache_inv size m /\ cache_size m = capacity) ops []).
    - by split; [apply init_ok|].
    - intros pre op post m -> [Hi Hc]. rewrite Forall_app, Forall_cons in Hops.
      eapply wp_mono; [apply (ec_op_ok size Hsize); naive_solver|]. simpl.
      intros _ m' [? ?]. split; [done|congruence]. }
  apply wp_iff in H as ([] & m & HR & Hi & Hc). exists m.
  pose proof (free_le_freeable size Hsize m Hi). pose proof (freeable_is_not_in_use size Hsize m Hi) as Hu.
  pose proof (sum_size_nonneg size Hsize (elements (in_use m))) as Hn.
  change (0 <= tokens size (in_use m)) in Hn.
  destruct Hi as [H1 H2 _ _ _]. split_and!; [done|done|lia..].
Qed.

(** ** A model with audio inputs of 1500 encoder tokens *)

Definition clip (id hash : string) : Request :=
  mkRequest (mkArgs id 0 0 0 0 (Some [11]) None None None (Some 7)
               [mkFeature hash (mkRange 0 1500)] None None)
    16 1 false None RUNNING [] None [] [11] 0 false [] 0 (-1) 0 0 0 [].

(** Two requests share a clip, two more bring clips of their own. *)
Definition clip_requests : list EcOp :=
  let pass r := EcSchedule r 0 1 1500 0 [] in
  [pass (clip "A" "h"); EcFree (clip "A" "h"); pass (clip "B" "h"); EcFree (clip "B" "h");
   pass (clip "C" "h1"); pass (clip "D" "h2")].
(** The same, and the last request preempts the third between plan and allocation. *)
Definition clip_preemption : list EcOp :=
  take 5 clip_requests ++ [EcSchedule (clip "D" "h2") 0 1 1500 0 [clip "C" "h1"]].

Lemma encoder_cache_accounting_witness :
  exists m,
    py_for clip_preemption (ec_op false false) (encoder_cache_init 3000) = Ret tt m /\
    cache_size m = 3000 /\
    num_free_slots m = 3000 - tokens (fun _ => 1500) (dom (cached m)) /\
    num_freeable_slots m = 3000 - tokens (fun _ => 1500) (in_use m) /\
    0 <= num_free_slots m <= num_freeable_slots m /\ num_freeable_slots m <= 3000.
Proof.
  apply (encoder_cache_accounting (fun _ => 1500) false 3000 clip_preemption); [lia|lia|].
  unfold clip_preemption, clip_requests. repeat constructor; intros [|i] f [= <-]; done.
Defined.

(** An encoder-decoder model does not consult the cache before it
    allocates, but allocates by hash: serving the same clip twice takes its slots
    twice and evicting it returns them once. With room for two clips, after two
    finished requests for one clip and a third request in flight, the fourth
    request finds the slots reported as freeable but nothing to evict, and
    [can_allocate] raises; a decoder-only model serves the same requests. *)
Theorem encoder_decoder_slots_leak :
  (exists m m', py_for (take 5 clip_requests) (ec_op true false) (encoder_cache_init 3000) = Ret tt m /\
     elements (dom (cached m)) = ["h1"] /\ num_free_slots m = 0 /\ num_freeable_slots m = 1500 /\
     freeable m = [] /\
     py_for clip_requests (ec_op true false) (encoder_cache_init 3000) = Raise KeyError m') /\
  (exists m, py_for clip_requests (ec_op false false) (encoder_cache_init 3000) = Ret tt m).
Proof.
  split.
  - do 2 eexists. split; [vm_compute; reflexivity|]. by split_and!; vm_compute.
  - eexists. vm_compute. reflexivity.
Qed.
