(* ===== verification/DuplexStream.v ===== *)
(** The speech pipeline of one turn of the duplex server
    ([vllm_omni/entrypoints/lgws/duplex_engine.py], [generate_realtime_final]):
    the worker that cuts the talker's code stream into overlapping chunks for
    the vocoder ([worker_1to2]), the worker that trims the vocoder's audio and
    decides when the turn is over ([worker_2toServer]), and the server side that
    turns their outputs into websocket messages ([queue_generator] and
    [process_stream_output] of [lgws/server.py]).

    A code row (16 codes for one audio frame) and an audio sample are abstract
    types. The vocoder stage is [chunked_decode] of
    [models/qwen3_omni/qwen3_omni_code2wav.py], with the arguments the engine
    gives it, over one pass of its network, which is a parameter: its layers are
    torch and transformers modules. The three tasks of a turn run on one event loop
    and only switch at an [await], so each handler below is one atomic step, and a
    turn is a sequence of steps in any order. The stages answer in the order in
    which requests are submitted. *)
From stdpp Require Import gmap strings list pretty.
From Stdlib Require Import ZArith Lia Ascii.
From S2P Require Import Prelude.
Open Scope nat_scope.

Definition CHUNK_UNIT : nat := 5.
Definition OVERLAP_SIZE : nat := 2.
(** Samples of one code row, and the length of the final fade. *)
Definition FRAME : nat := 1920.
Definition FADE : nat := 500.
(** The talker's stop token. *)
Definition STOP_TOKEN : Z := 2150.

(** ** Request ids *)

(** [s.startswith(p)] is [String.prefix p s]; [sub in s]: *)
Fixpoint str_contains (sub s : string) : bool :=
  String.prefix sub s ||
  match s with EmptyString => false | String _ s' => str_contains sub s' end.

(** [s.rsplit("_", 1)]: None when there is no underscore. *)
Fixpoint rsplit_underscore (s : string) : option (string * string) :=
  match s with
  | EmptyString => None
  | String c s' =>
      match rsplit_underscore s' with
      | Some (a, b) => Some (String c a, b)
      | None => if Ascii.eqb c "_"%char then Some (EmptyString, s') else None
      end
  end.

(** [int(s)] on the decimal numerals the ids are built with; None stands for
    the ValueError of anything else. *)
Definition digit_value (c : Ascii.ascii) : option nat :=
  let n := Ascii.nat_of_ascii c in
  if (48 <=? n) && (n <=? 57) then Some (n - 48) else None.
Fixpoint int_loop (acc : nat) (s : string) : option nat :=
  match s with
  | EmptyString => Some acc
  | String c s' =>
      match digit_value c with
      | Some d => int_loop (10 * acc + d) s'
      | None => None
      end
  end.
Definition py_int (s : string) : option nat :=
  match s with EmptyString => None | _ => int_loop 0 s end.

Definition stg1_req_id (turn_id : string) (k : nat) : string :=
  turn_id +:+ "_stage_1_" +:+ pretty k.
Definition stg2_req_id (turn_id : string) (k : nat) (final : bool) : string :=
  turn_id +:+ "_stage_2_" +:+ pretty k +:+ (if final then "_FINAL" else "").

Section pipeline.
Context {Row Sample : Type}.
(** A row of [torch.zeros], the weight of the fade curve on a sample (its
    length and the position on it), and the conversion of a clipped sample to a
    16-bit integer: tensor arithmetic of the libraries. *)
Context (zero_row : Row) (fade_at : nat -> nat -> Sample -> Sample) (quantise : Sample -> Z).

(** ** Messages *)

(** A result of stage 1 for one request: its new token ids, and its codes. *)
Record Stage1Result := mkStage1 {
  s1_request_id : string;
  s1_token_ids : list Z;
  s1_codes : option (list Row)
}.
(** A request submitted to stage 2. *)
Record Stage2Task := mkTask { task_id : string; task_payload : list Row }.
(** A result of stage 2; None when it carries no audio tensor. *)
Record Stage2Result := mkStage2 {
  s2_request_id : string;
  s2_text : string;
  s2_audio : option (list Sample)
}.
(** What a turn hands to the server ([OmniRequestOutput] with the audio bytes and
    the metadata attached to it). *)
Record StreamItem := mkItem {
  it_stage_id : Z;
  it_finished : bool;
  it_text : option string; (** [outputs[0].text], None without outputs *)
  it_audio_byte : option (list Z);
  it_total_vocoder_expected : Z
}.

(** ** State of a turn: [req_state.metadata] and the queues around it *)
Record Turn := mkTurn {
  stg1_audio_buffer : list Row; (** the rows of the buffered tensors, in order *)
  stg1_sent_idx : nat;
  stg2_sent_count : nat;
  stg1_is_finished : bool;
  last_chunk_actual_len : option nat;
  total_vocoder_expected : option nat;
  stg2_recv_count : nat;
  request_states : gset string; (** keys of the engine's [request_states] *)
  stage1_in : list string; (** ids waiting in the input queue of stage 1 *)
  stage2_in : list Stage2Task; (** requests submitted to stage 2, oldest first *)
  final_output_q : list StreamItem
}.

Definition set_buffer (b : list Row) : py Turn unit := py_modify (fun t =>
  mkTurn b (stg1_sent_idx t) (stg2_sent_count t) (stg1_is_finished t)
    (last_chunk_actual_len t) (total_vocoder_expected t) (stg2_recv_count t)
    (request_states t) (stage1_in t) (stage2_in t) (final_output_q t)).
Definition set_sent (idx count : nat) : py Turn unit := py_modify (fun t =>
  mkTurn (stg1_audio_buffer t) idx count (stg1_is_finished t)
    (last_chunk_actual_len t) (total_vocoder_expected t) (stg2_recv_count t)
    (request_states t) (stage1_in t) (stage2_in t) (final_output_q t)).
Definition set_finished : py Turn unit := py_modify (fun t =>
  mkTurn (stg1_audio_buffer t) (stg1_sent_idx t) (stg2_sent_count t) true
    (last_chunk_actual_len t) (total_vocoder_expected t) (stg2_recv_count t)
    (request_states t) (stage1_in t) (stage2_in t) (final_output_q t)).
Definition set_last_len (n : nat) : py Turn unit := py_modify (fun t =>
  mkTurn (stg1_audio_buffer t) (stg1_sent_idx t) (stg2_sent_count t) (stg1_is_finished t)
    (Some n) (total_vocoder_expected t) (stg2_recv_count t)
    (request_states t) (stage1_in t) (stage2_in t) (final_output_q t)).
Definition set_expected (n : nat) : py Turn unit := py_modify (fun t =>
  mkTurn (stg1_audio_buffer t) (stg1_sent_idx t) (stg2_sent_count t) (stg1_is_finished t)
    (last_chunk_actual_len t) (Some n) (stg2_recv_count t)
    (request_states t) (stage1_in t) (stage2_in t) (final_output_q t)).
Definition set_recv (n : nat) : py Turn unit := py_modify (fun t =>
  mkTurn (stg1_audio_buffer t) (stg1_sent_idx t) (stg2_sent_count t) (stg1_is_finished t)
    (last_chunk_actual_len t) (total_vocoder_expected t) n
    (request_states t) (stage1_in t) (stage2_in t) (final_output_q t)).
Definition set_routes (ks : gset string) (q1 : list string) : py Turn unit := py_modify (fun t =>
  mkTurn (stg1_audio_buffer t) (stg1_sent_idx t) (stg2_sent_count t) (stg1_is_finished t)
    (last_chunk_actual_len t) (total_vocoder_expected t) (stg2_recv_count t)
    ks q1 (stage2_in t) (final_output_q t)).
(** Registering a stage-2 request and submitting it ([try_send_via_connector]
    calls the stage's [submit]). *)
Definition submit_stage2 (task : Stage2Task) : py Turn unit := py_modify (fun t =>
  mkTurn (stg1_audio_buffer t) (stg1_sent_idx t) (stg2_sent_count t) (stg1_is_finished t)
    (last_chunk_actual_len t) (total_vocoder_expected t) (stg2_recv_count t)
    ({[task_id task]} ∪ request_states t) (stage1_in t) (stage2_in t ++ [task]) (final_output_q t)).
Definition pop_stage2 : py Turn unit := py_modify (fun t =>
  mkTurn (stg1_audio_buffer t) (stg1_sent_idx t) (stg2_sent_count t) (stg1_is_finished t)
    (last_chunk_actual_len t) (total_vocoder_expected t) (stg2_recv_count t)
    (request_states t) (stage1_in t) (tail (stage2_in t)) (final_output_q t)).
Definition put_output (i : StreamItem) : py Turn unit := py_modify (fun t =>
  mkTurn (stg1_audio_buffer t) (stg1_sent_idx t) (stg2_sent_count t) (stg1_is_finished t)
    (last_chunk_actual_len t) (total_vocoder_expected t) (stg2_recv_count t)
    (request_states t) (stage1_in t) (stage2_in t) (final_output_q t ++ [i])).

(** A turn that starts: the metadata is empty. *)
Definition new_turn (keys : gset string) (q1 : list string) : Turn :=
  mkTurn [] 0 0 false None None 0 keys q1 [] [].

(** ** [worker_1to2] *)

(** The ids after [current_idx] that share the turn's stage-1 prefix. [int] is
    applied to the suffix of every key with the prefix. *)
Fixpoint later_ids (turn_prefix : string) (current_idx : nat) (keys : list string)
    : option (list string) :=
  match keys with
  | [] => Some []
  | rid :: keys' =>
      if String.prefix turn_prefix rid then
        match rsplit_underscore rid with
        | Some (_, suffix) =>
            match py_int suffix, later_ids turn_prefix current_idx keys' with
            | Some n, Some rest => Some (if current_idx <? n then rid :: rest else rest)
            | _, _ => None
            end
        | None => None
        end
      else later_ids turn_prefix current_idx keys'
  end.

(** [OmniStage.selective_drain]: the queued tasks of the targets go. *)
Definition selective_drain (targets q : list string) : list string :=
  List.filter (fun rid => negb (bool_decide (rid ∈ targets))) q.

(** The bookkeeping at the stop token: later requests of the turn leave the
    stage-1 queue, and every key that holds "_stage_1" leaves [request_states]. *)
Definition drop_stage1_requests (r : Stage1Result) : py Turn unit :=
  let! t := py_get in
  let! '(turn_prefix, suffix) := py_unwrap IndexError (rsplit_underscore (s1_request_id r)) in
  let! current_idx := py_unwrap ValueError (py_int suffix) in
  let! targets := py_unwrap ValueError
    (later_ids turn_prefix current_idx (elements (request_states t))) in
  set_routes (filter (fun k => str_contains "_stage_1" k = false) (request_states t))
             (selective_drain targets (stage1_in t)).

(** The final chunk: what was not sent, padded to the chunk size. A negative
    padding length makes [torch.zeros] raise. *)
Definition flush_final (turn_id : string) : py Turn unit :=
  let! t := py_get in
  match stg1_audio_buffer t with
  | [] => py_ret tt
  | buffer =>
      let last_payload := drop (stg1_sent_idx t) buffer in
      let last_len := length last_payload in
      do! set_last_len last_len;
      do! (if 0 <? last_len then
             if CHUNK_UNIT <? last_len then py_raise RuntimeError
             else
               do! submit_stage2 (mkTask (stg2_req_id turn_id (stg2_sent_count t) true)
                     (last_payload ++ replicate (CHUNK_UNIT - last_len) zero_row));
               set_sent (stg1_sent_idx t) (stg2_sent_count t + 1)
           else py_ret tt);
      do! set_finished;
      let! t' := py_get in
      set_expected (stg2_sent_count t')
  end.

Definition send_chunk (turn_id : string) : py Turn unit :=
  let! t := py_get in
  let payload := take CHUNK_UNIT (drop (stg1_sent_idx t) (stg1_audio_buffer t)) in
  do! submit_stage2 (mkTask (stg2_req_id turn_id (stg2_sent_count t) false) payload);
  set_sent (stg1_sent_idx t + CHUNK_UNIT - OVERLAP_SIZE) (stg2_sent_count t + 1).

Definition worker_1to2 (turn_id : string) (r : Stage1Result) : py Turn unit :=
  let! t := py_get in
  do! set_buffer (stg1_audio_buffer t ++ default [] (s1_codes r));
  let! t := py_get in
  if existsb (Z.eqb STOP_TOKEN) (s1_token_ids r) then
    do! drop_stage1_requests r;
    do! set_finished;
    flush_final turn_id
  else if CHUNK_UNIT <=? length (stg1_audio_buffer t) - stg1_sent_idx t then
    send_chunk turn_id
  else py_ret tt.

(** [stage_harvester] of [AsyncOmni._run_output_handler]: a stage result goes to
    the turn registered for its request id, and nowhere when there is none. *)
Definition harvested (t : Turn) (rid : string) : bool := bool_decide (rid ∈ request_states t).

(** ** [worker_2toServer] *)

(** [audio[-fade_len:] *= linspace(1, 0, fade_len)] *)
Definition fade_out (audio : list Sample) : list Sample :=
  let fade_len := FADE `min` length audio in
  let k := length audio - fade_len in
  take k audio ++ imap (fade_at fade_len) (drop k audio).

(** A 16-bit integer in two's complement, low byte first. *)
Definition int16_bytes (z : Z) : list Z := [z mod 256; (z / 256) mod 256]%Z.
Definition pcm_bytes (audio : list Sample) : list Z :=
  mjoin ((fun s => int16_bytes (quantise s)) <$> audio).

(** The audio of one vocoder result: the final one is cut to its real rows and
    faded, and every one but the first loses the overlap. *)
Definition clean_audio (final : bool) (actual_len recv_count : nat) (audio : list Sample)
    : list Sample :=
  let audio := if final then fade_out (take (actual_len * FRAME) audio) else audio in
  if 1 <? recv_count then drop (OVERLAP_SIZE * FRAME) audio else audio.

Definition is_final_chunk (t : Turn) : bool :=
  match total_vocoder_expected t with
  | Some n => stg1_is_finished t && (0 <? n) && (n <=? stg2_recv_count t)
  | None => false
  end.

Definition worker_2toServer (r : Stage2Result) : py Turn unit :=
  match s2_audio r with
  | None => py_ret tt
  | Some audio =>
      let! t := py_get in
      do! set_recv (stg2_recv_count t + 1);
      let! t := py_get in
      let clean := clean_audio (str_contains "_FINAL" (s2_request_id r))
                     (default CHUNK_UNIT (last_chunk_actual_len t)) (stg2_recv_count t) audio in
      put_output (mkItem 2 (is_final_chunk t) (Some (s2_text r)) (Some (pcm_bytes clean))
                    (match total_vocoder_expected t with Some n => Z.of_nat n | None => -1 end))
  end.

(** ** Runs of a turn

    Stage 2 is a function from a payload to audio; an event is the arrival of a
    stage-1 result, or the arrival of the result of the oldest stage-2 request. *)
Context (code2wav : list Row -> list Sample).

Inductive TurnEvent := Stage1Done (r : Stage1Result) | Stage2Done.

Definition turn_event (turn_id : string) (e : TurnEvent) : py Turn unit :=
  match e with
  | Stage1Done r => worker_1to2 turn_id r
  | Stage2Done =>
      let! t := py_get in
      match stage2_in t with
      | [] => py_ret tt
      | task :: _ =>
          do! pop_stage2;
          worker_2toServer (mkStage2 (task_id task) "" (Some (code2wav (task_payload task))))
      end
  end.

Definition run_turn (turn_id : string) (evs : list TurnEvent) : py Turn unit :=
  py_for evs (turn_event turn_id).

End pipeline.

(** ** The vocoder stage

    [Qwen3OmniMoeCode2Wav.chunked_decode] over one pass of its network
    ([forward]: the layers are torch and transformers modules, and the number of
    samples per row, [total_upsample], comes from the model's configuration). *)
Section vocoder.
Context {Row Sample : Type}.
Context (forward : list Row -> list Sample) (total_upsample : nat).

(** One round of the loop per unit of fuel: a round decodes the rows from
    [start_index] on, behind rows of context whose samples it drops. *)
Fixpoint chunked_decode_loop (fuel : nat) (codes : list Row)
    (chunk_size left_context_size start_index : nat) : list (list Sample) :=
  match fuel with
  | O => []
  | S fuel =>
      if start_index <? length codes then
        let end_index := (start_index + chunk_size) `min` length codes in
        let context_size :=
          if left_context_size <=? start_index then left_context_size else start_index in
        let first := start_index - context_size in
        let wav_chunk := forward (take (end_index - first) (drop first codes)) in
        drop (context_size * total_upsample) wav_chunk ::
        chunked_decode_loop fuel codes chunk_size left_context_size end_index
      else []
  end.

(** None is the RuntimeError of [torch.cat] on an empty list. *)
Definition chunked_decode (codes : list Row) (chunk_size left_context_size : nat)
    : option (list Sample) :=
  match chunked_decode_loop (length codes) codes chunk_size left_context_size 0 with
  | [] => None
  | wavs => Some (mjoin wavs)
  end.

(** The stage as the engine's sampling parameters set it up: [extra_args] hands
    the chunk unit and the overlap of the pipeline to [generate_audio]. *)
Definition generate_audio (codes : list Row) : option (list Sample) :=
  chunked_decode codes CHUNK_UNIT OVERLAP_SIZE.

(** A request of at most one chunk is one pass of the network. *)
Lemma chunked_decode_one codes chunk_size ctx :
  0 < length codes <= chunk_size -> chunked_decode codes chunk_size ctx = Some (forward codes).
Proof.
  intros Hl. unfold chunked_decode. destruct (length codes) as [|fuel] eqn:El; [lia|].
  cbn [chunked_decode_loop]. rewrite El. change (0 <? S fuel) with true. cbn match.
  replace ((0 + chunk_size) `min` S fuel) with (S fuel) by lia.
  replace (if ctx <=? 0 then ctx else 0) with 0 by (by destruct ctx).
  rewrite Nat.sub_0_l, Nat.sub_0_r, drop_0, drop_0, take_ge by lia.
  destruct fuel; cbn [chunked_decode_loop]; rewrite ?El, ?Nat.ltb_irrefl; cbn; by rewrite app_nil_r.
Qed.

(** Longer ones are cut without losing a row: one frame per row, and as many
    rounds as rows are enough. *)
Lemma length_chunked_decode codes chunk_size ctx :
  (forall rows, length (forward rows) = length rows * total_upsample) ->
  0 < chunk_size -> codes <> [] ->
  exists wav, chunked_decode codes chunk_size ctx = Some wav /\
    length wav = length codes * total_upsample.
Proof.
  intros Hf Hc Hne.
  assert (forall fuel start, length codes - start <= fuel ->
    length (mjoin (chunked_decode_loop fuel codes chunk_size ctx start)) =
    (length codes - start) * total_upsample) as Hloop.
  { induction fuel as [|fuel IH]; intros start Hs; cbn [chunked_decode_loop];
      [by replace (length codes - start) with 0 by lia|].
    destruct (Nat.ltb_spec start (length codes)) as [Hlt|]; cycle 1.
    { by replace (length codes - start) with 0 by lia. }
    set (e := (start + chunk_size) `min` length codes).
    set (c := if ctx <=? start then ctx else start).
    assert (c <= start) as Hcs by (unfold c; destruct (Nat.leb_spec ctx start); lia).
    cbn [mjoin list_join]. rewrite length_app, length_drop, Hf, length_take, length_drop, IH by lia.
    rewrite <- Nat.mul_sub_distr_r, <- Nat.mul_add_distr_r. f_equal. lia. }
  specialize (Hloop (length codes) 0). rewrite Nat.sub_0_r in Hloop.
  unfold chunked_decode. destruct codes as [|r codes]; [done|]. cbn [length chunked_decode_loop] in *.
  change (0 <? S (length codes)) with true in *. cbn match in *.
  eexists. split; [reflexivity|]. by apply Hloop.
Qed.
End vocoder.

(** ** Facts on request ids *)

Fixpoint has_char (c : Ascii.ascii) (s : string) : bool :=
  match s with
  | EmptyString => false
  | String d s' => Ascii.eqb c d || has_char c s'
  end.

Lemma has_char_app c s1 s2 : has_char c (s1 +:+ s2) = has_char c s1 || has_char c s2.
Proof. induction s1 as [|d s1 IH]; simpl; [done|]. by rewrite IH, orb_assoc. Qed.

(** A numeral has only digits. *)
Lemma pretty_go_has_char c x s :
  (forall n, Ascii.eqb c (pretty_N_char n) = false) ->
  has_char c (pretty_N_go x s) = has_char c s.
Proof.
  intros Hc. revert s. induction (N.lt_wf_0 x) as [x _ IH]; intros s.
  destruct (decide (0 < x)%N) as [Hx|Hx].
  - rewrite pretty_N_go_step by done. rewrite IH by (apply N.div_lt; lia).
    simpl. by rewrite Hc.
  - replace x with 0%N by lia. by rewrite pretty_N_go_0.
Qed.

Lemma pretty_has_char c (k : nat) :
  (forall n, Ascii.eqb c (pretty_N_char n) = false) -> has_char c (pretty k) = false.
Proof.
  intros Hc. unfold pretty, pretty_nat, pretty, pretty_N. case_decide; simpl.
  - specialize (Hc 0%N). simpl in Hc. by rewrite Hc.
  - by rewrite pretty_go_has_char.
Qed.

Lemma no_underscore_digit n : Ascii.eqb "_"%char (pretty_N_char n) = false.
Proof. by destruct n as [|[[[[]|[]|]|[[]|[]|]|]|[[[]|[]|]|[[]|[]|]|]|]]. Qed.
Lemma no_F_digit n : Ascii.eqb "F"%char (pretty_N_char n) = false.
Proof. by destruct n as [|[[[[]|[]|]|[[]|[]|]|]|[[[]|[]|]|[[]|[]|]|]|]]. Qed.

Lemma digit_value_char n : (n < 10)%N -> digit_value (pretty_N_char n) = Some (N.to_nat n).
Proof.
  intros Hn.
  assert (n ∈ [0;1;2;3;4;5;6;7;8;9]%N) as Hin.
  { rewrite !elem_of_cons. lia. }
  repeat (apply elem_of_cons in Hin as [->|Hin]; [reflexivity|]). by apply not_elem_of_nil in Hin.
Qed.

Lemma int_loop_pretty x s :
  (0 < x)%N -> int_loop 0 (pretty_N_go x s) = int_loop (N.to_nat x) s.
Proof.
  revert s. induction (N.lt_wf_0 x) as [x _ IH]; intros s Hx.
  rewrite pretty_N_go_step by done.
  pose proof (N.div_mod x 10 ltac:(lia)) as E. pose proof (N.mod_lt x 10 ltac:(lia)).
  destruct (decide (0 < x `div` 10)%N) as [Hd|Hd].
  - rewrite IH by (try apply N.div_lt; lia). cbn [int_loop].
    rewrite digit_value_char by done. f_equal. lia.
  - replace (x `div` 10)%N with 0%N in * by lia. rewrite pretty_N_go_0. cbn [int_loop].
    rewrite digit_value_char by done. f_equal. lia.
Qed.

(** [int(f"{k}") = k] *)
Lemma py_int_pretty (k : nat) : py_int (pretty k) = Some k.
Proof.
  unfold pretty, pretty_nat, pretty, pretty_N. case_decide as Hk.
  - simpl. f_equal. lia.
  - pose proof (int_loop_pretty (N.of_nat k) "" ltac:(lia)) as E. simpl in E.
    rewrite Nat2N.id in E. unfold py_int. destruct (pretty_N_go (N.of_nat k) "") eqn:Hs; [|done].
    exfalso. simpl in E. injection E. lia.
Qed.

Lemma rsplit_no_underscore s : has_char "_"%char s = false -> rsplit_underscore s = None.
Proof.
  induction s as [|c s IH]; [done|]. cbn [has_char rsplit_underscore].
  intros [Hc Hs]%orb_false_iff. rewrite IH by done. rewrite Ascii.eqb_sym, Hc. done.
Qed.

Lemma rsplit_app a b :
  has_char "_"%char b = false -> rsplit_underscore (a +:+ String "_"%char b) = Some (a, b).
Proof.
  intros Hb. induction a as [|c a IH]; simpl; [|by rewrite IH].
  by rewrite rsplit_no_underscore.
Qed.

Lemma string_app_assoc (a b c : string) : (a +:+ b) +:+ c = a +:+ (b +:+ c).
Proof.
  induction a as [|x a IH]; [done|].
  change (String x ((a +:+ b) +:+ c) = String x (a +:+ (b +:+ c))). by rewrite IH.
Qed.

(** The id of a stage-1 request splits into its turn prefix and its number. *)
Lemma rsplit_stg1 turn_id k :
  rsplit_underscore (stg1_req_id turn_id k) = Some (turn_id +:+ "_stage_1", pretty k).
Proof.
  unfold stg1_req_id.
  change ("_stage_1_" +:+ pretty k) with ("_stage_1" +:+ String "_"%char (pretty k)).
  rewrite <- string_app_assoc. apply rsplit_app.
  apply pretty_has_char, no_underscore_digit.
Qed.

Lemma prefix_app a s1 s2 : String.prefix (a +:+ s1) (a +:+ s2) = String.prefix s1 s2.
Proof.
  induction a as [|c a IH]; simpl; [done|].
  destruct (Ascii.ascii_dec c c); [done|congruence].
Qed.

Lemma prefix_stg1 turn_id k : String.prefix (turn_id +:+ "_stage_1") (stg1_req_id turn_id k) = true.
Proof. unfold stg1_req_id. rewrite prefix_app. reflexivity. Qed.
Lemma prefix_stg2 turn_id k f :
  String.prefix (turn_id +:+ "_stage_1") (stg2_req_id turn_id k f) = false.
Proof. unfold stg2_req_id. rewrite prefix_app. reflexivity. Qed.

Lemma prefix_cons a b s1 s2 :
  String.prefix (String a s1) (String b s2) = true -> a = b /\ String.prefix s1 s2 = true.
Proof. simpl. by destruct (Ascii.ascii_dec a b). Qed.

Lemma contains_FINAL_has_F s : str_contains "_FINAL" s = true -> has_char "F"%char s = true.
Proof.
  induction s as [|c s IH]; [done|]. cbn [str_contains has_char].
  intros [[_ H]%prefix_cons|H]%orb_true_iff; [|by rewrite (IH H), orb_true_r].
  destruct s as [|d s]; [done|]. apply prefix_cons in H as [<- _].
  cbn [has_char]. by rewrite Ascii.eqb_refl, orb_true_r.
Qed.

Lemma contains_app sub a b : str_contains sub b = true -> str_contains sub (a +:+ b) = true.
Proof.
  intros H. induction a as [|c a IH]; simpl; [done|]. rewrite IH. apply orb_true_r.
Qed.

Lemma contains_stage1 tid k : str_contains "_stage_1" (stg1_req_id tid k) = true.
Proof. unfold stg1_req_id. by apply contains_app. Qed.

Lemma stg2_final_id turn_id k :
  has_char "F"%char turn_id = false ->
  str_contains "_FINAL" (stg2_req_id turn_id k false) = false /\
  str_contains "_FINAL" (stg2_req_id turn_id k true) = true.
Proof.
  intros HF. unfold stg2_req_id. split.
  - apply not_true_is_false. intros H%contains_FINAL_has_F.
    rewrite !has_char_app, HF in H. simpl in H.
    by rewrite pretty_has_char in H by apply no_F_digit.
  - do 3 apply contains_app. reflexivity.
Qed.

Lemma elem_of_later_ids prefix i keys rid targets :
  later_ids prefix i keys = Some targets ->
  rid ∈ targets <->
  rid ∈ keys /\ String.prefix prefix rid = true /\
  exists a b n, rsplit_underscore rid = Some (a, b) /\ py_int b = Some n /\ i < n.
Proof.
  revert targets. induction keys as [|k keys IH]; intros targets; simpl.
  - intros [= <-]. set_solver.
  - destruct (String.prefix prefix k) eqn:Hp.
    + destruct (rsplit_underscore k) as [[a b]|] eqn:Hr; [|done].
      destruct (py_int b) as [n|] eqn:Hb; [|done].
      destruct (later_ids prefix i keys) as [rest|]; [|done]. intros [= <-].
      specialize (IH _ eq_refl). destruct (Nat.ltb_spec i n) as [Hin|Hin].
      * rewrite !elem_of_cons, IH. split; [intros [->|?]; [split_and!; eauto 10|naive_solver]|].
        intros ([->|?] & ? & ?); naive_solver.
      * rewrite !elem_of_cons, IH. split; [naive_solver|].
        intros ([->|?] & ? & (a' & b' & n' & ? & ? & ?)); [|naive_solver].
        simplify_eq. lia.
    + intros ->%IH. rewrite elem_of_cons. naive_solver congruence.
Qed.

(** ** What a turn has done at any moment *)

Lemma later_ids_total prefix i keys :
  (forall k, k ∈ keys -> String.prefix prefix k = true ->
     exists a b n, rsplit_underscore k = Some (a, b) /\ py_int b = Some n) ->
  exists targets, later_ids prefix i keys = Some targets.
Proof.
  induction keys as [|k keys IH]; intros Hk; simpl; [eauto|].
  destruct IH as [rest Hrest]; [intros; apply Hk; set_solver|].
  destruct (String.prefix prefix k) eqn:Hp; [|eauto].
  destruct (Hk k) as (a & b & n & -> & ->); [set_solver|done|]. rewrite Hrest. eauto.
Qed.

(** Chunks that are sent while [n] rows have arrived. *)
Definition chunks_sent (n : nat) : nat := (n - OVERLAP_SIZE) / (CHUNK_UNIT - OVERLAP_SIZE).

Lemma chunks_sent_spec n :
  (chunks_sent n = 0 \/ 3 * chunks_sent n + 2 <= n) /\ n < 3 * chunks_sent n + 5.
Proof.
  unfold chunks_sent, OVERLAP_SIZE, CHUNK_UNIT. change (5 - 2) with 3.
  pose proof (Nat.div_mod (n - 2) 3 ltac:(lia)). pose proof (Nat.mod_upper_bound (n - 2) 3 ltac:(lia)).
  lia.
Qed.

#[local] Arguments Nat.mul : simpl never.
#[local] Arguments Nat.leb : simpl never.
#[local] Arguments Nat.ltb : simpl never.
#[local] Arguments CHUNK_UNIT : simpl never.

Section turn_runs.
Context {Row Sample : Type}.
Context (zero_row : Row) (fade_at : nat -> nat -> Sample -> Sample) (quantise : Sample -> Z).
Context (code2wav : list Row -> list Sample).
Context (turn_id : string).
(** Turn ids are built from lower-case hexadecimal digits and the time. *)
Context (lower_id : has_char "F"%char turn_id = false).

Notation run_t := (run_turn zero_row fade_at quantise code2wav turn_id).
Notation event_t := (turn_event zero_row fade_at quantise code2wav turn_id).
Notation pcm := (pcm_bytes quantise).

(** Every id under the turn's stage-1 prefix ends in a number. *)
Definition routes_ok (ks : gset string) : Prop :=
  forall k, k ∈ ks -> String.prefix (turn_id +:+ "_stage_1") k = true ->
    exists a b n, rsplit_underscore k = Some (a, b) /\ py_int b = Some n.

Definition chunk_rows (rows : list Row) (j : nat) : list Row := take 5 (drop (3 * j) rows).
Definition full_task (rows : list Row) (j : nat) : Stage2Task :=
  mkTask (stg2_req_id turn_id j false) (chunk_rows rows j).
Definition final_task (rows : list Row) (n : nat) : Stage2Task :=
  mkTask (stg2_req_id turn_id n true)
    (drop (3 * n) rows ++ replicate (5 - (length rows - 3 * n)) zero_row).

Definition chunk_audio (rows : list Row) (j : nat) : list Sample :=
  clean_audio fade_at false 5 (j + 1) (code2wav (chunk_rows rows j)).
Definition final_audio (rows : list Row) (n : nat) : list Sample :=
  clean_audio fade_at true (length rows - 3 * n) (n + 1) (code2wav (task_payload (final_task rows n))).

Definition chunk_item (rows : list Row) (expected : Z) (j : nat) : StreamItem :=
  mkItem 2 false (Some "") (Some (pcm (chunk_audio rows j))) expected.
Definition final_item (rows : list Row) (n : nat) : StreamItem :=
  mkItem 2 true (Some "") (Some (pcm (final_audio rows n))) (Z.of_nat (n + 1)).

(** Before the stop token: [rows] have arrived and [m] results went out. *)
Definition streaming (rows : list Row) (m : nat) (t : Turn) : Prop :=
  let n := chunks_sent (length rows) in
  m <= n /\ routes_ok (request_states t) /\
  exists ks q1,
    t = mkTurn rows (3 * n) n false None None m ks q1
          (full_task rows <$> seq m (n - m)) (chunk_item rows (-1) <$> seq 0 m).

(** After it: the final chunk is number [n], [m0] results had gone out. *)
Definition flushing (rows : list Row) (n m0 m : nat) (t : Turn) : Prop :=
  m0 <= n /\ m0 <= m <= n + 1 /\
  exists ks q1,
    t = mkTurn rows (3 * n) (n + 1) true (Some (length rows - 3 * n)) (Some (n + 1)) m ks q1
          (if decide (m <= n) then (full_task rows <$> seq m (n - m)) ++ [final_task rows n] else [])
          ((chunk_item rows (-1) <$> seq 0 m0) ++
           (chunk_item rows (Z.of_nat (n + 1)) <$> seq m0 (m `min` n - m0)) ++
           (if decide (m <= n) then [] else [final_item rows n])).

Lemma chunk_rows_app rows c j :
  3 * j + 5 <= length rows -> chunk_rows (rows ++ c) j = chunk_rows rows j.
Proof.
  intros Hj. unfold chunk_rows. rewrite drop_app_le by lia. rewrite take_app_le; [done|].
  rewrite length_drop. lia.
Qed.

Lemma map_seq_ext {B} (f g : nat -> B) a n :
  (forall j, a <= j < a + n -> f j = g j) -> f <$> seq a n = g <$> seq a n.
Proof.
  intros H. apply list_fmap_ext. intros i j Hj. apply lookup_seq in Hj as [-> Hi]. apply H. lia.
Qed.

(** Rows that arrive later do not change the chunks already sent. *)
Lemma items_app rows c m e k :
  k + m <= chunks_sent (length rows) ->
  full_task rows <$> seq k m = full_task (rows ++ c) <$> seq k m /\
  chunk_item rows e <$> seq k m = chunk_item (rows ++ c) e <$> seq k m.
Proof.
  intros Hk. pose proof (chunks_sent_spec (length rows)) as [Hc _].
  split; apply map_seq_ext; intros j Hj.
  - unfold full_task. rewrite chunk_rows_app by lia. done.
  - unfold chunk_item, chunk_audio. rewrite chunk_rows_app by lia. done.
Qed.

Definition is_stop (r : Stage1Result (Row:=Row)) : bool := existsb (Z.eqb STOP_TOKEN) (s1_token_ids r).
Definition new_rows (r : Stage1Result) : list Row := default [] (s1_codes r).

Lemma routes_ok_stg2 ks k f : routes_ok ks -> routes_ok ({[stg2_req_id turn_id k f]} ∪ ks).
Proof.
  intros Hk x [->%elem_of_singleton|Hx]%elem_of_union Hp; [|by apply Hk].
  by rewrite prefix_stg2 in Hp.
Qed.

Lemma stage1_step rows m t r :
  streaming rows m t -> is_stop r = false -> length (new_rows r) <= 3 ->
  exists t', event_t (Stage1Done r) t = Ret tt t' /\ streaming (rows ++ new_rows r) m t'.
Proof.
  intros (Hm & Hr & ks & q1 & ->) Hs Hl. simpl in Hr.
  pose proof (chunks_sent_spec (length rows)) as [Hc1 Hc2].
  pose proof (chunks_sent_spec (length (rows ++ new_rows r))) as [Hc3 Hc4].
  pose proof (items_app rows (new_rows r) m (-1) 0 ltac:(lia)) as [_ Ei].
  pose proof (items_app rows (new_rows r) (chunks_sent (length rows) - m) (-1) m ltac:(lia)) as [Et _].
  rewrite length_app in *. set (n := chunks_sent (length rows)) in *.
  set (n' := chunks_sent (length rows + length (new_rows r))) in *.
  unfold turn_event, worker_1to2, py_bind, is_stop in *. simpl.
  fold (new_rows r). rewrite Hs, length_app.
  destruct (Nat.leb_spec CHUNK_UNIT (length rows + length (new_rows r) - 3 * n)) as [Hge|Hlt].
  - eexists. split; [unfold send_chunk, py_bind; simpl; reflexivity|]. unfold CHUNK_UNIT in Hge. assert (n' = n + 1) as En by lia.
    unfold streaming. rewrite length_app. fold n'. rewrite En.
    split; [lia|]. split; [by apply routes_ok_stg2|]. eexists _, _.
    f_equal; [unfold OVERLAP_SIZE, CHUNK_UNIT; simpl; lia| |exact Ei].
    replace (n + 1 - m) with (S (n - m)) by lia. rewrite seq_S, fmap_app. simpl. rewrite <- Et.
    replace (m + (n - m)) with n by lia. done.
  - eexists. split; [reflexivity|]. unfold CHUNK_UNIT in Hlt. assert (n' = n) as En by lia.
    unfold streaming. rewrite length_app. fold n'. rewrite En.
    split; [lia|]. split; [done|]. eexists _, _. f_equal; [exact Et|exact Ei].
Qed.

Lemma stage2_step_streaming rows m t :
  streaming rows m t ->
  exists t' m', event_t Stage2Done t = Ret tt t' /\ streaming rows m' t'.
Proof.
  intros (Hm & Hr & ks & q1 & ->). set (n := chunks_sent (length rows)) in *. simpl in Hr.
  destruct (decide (m = n)) as [->|].
  - rewrite Nat.sub_diag. eexists _, n. split; [done|]. split; [done|]. split; [done|].
    eexists _, _. fold n. rewrite Nat.sub_diag. done.
  - replace (n - m) with (S (n - S m)) by lia. cbn [seq fmap list_fmap].
    unfold turn_event, worker_2toServer, py_bind. simpl.
    destruct (stg2_final_id turn_id m lower_id) as [-> _].
    eexists _, (S m). split; [done|]. split; [lia|]. split; [done|]. eexists _, _.
    fold n. rewrite seq_S, fmap_app. simpl. f_equal. lia.
Qed.

Lemma stop_step rows m t r k :
  streaming rows m t -> is_stop r = true -> length (new_rows r) <= 1 ->
  s1_request_id r = stg1_req_id turn_id k -> rows ++ new_rows r <> [] ->
  exists t', event_t (Stage1Done r) t = Ret tt t' /\
    flushing (rows ++ new_rows r) (chunks_sent (length rows)) m m t'.
Proof.
  intros (Hm & Hr & ks & q1 & ->) Hs Hl Hid Hne. simpl in Hr.
  pose proof (chunks_sent_spec (length rows)) as [Hc1 Hc2].
  pose proof (items_app rows (new_rows r) m (-1) 0 ltac:(lia)) as [_ Ei].
  pose proof (items_app rows (new_rows r) (chunks_sent (length rows) - m) (-1) m ltac:(lia)) as [Et _].
  set (n := chunks_sent (length rows)) in *.
  destruct (later_ids_total (turn_id +:+ "_stage_1") k (elements ks)) as [targets Ht].
  { intros x Hx. apply Hr. by apply elem_of_elements. }
  assert (length (rows ++ new_rows r) = length rows + length (new_rows r)) as El
    by apply length_app.
  assert (0 < length (rows ++ new_rows r)) as Hpos
    by (destruct (rows ++ new_rows r); [done|simpl; lia]).
  unfold turn_event, worker_1to2, py_bind, is_stop in *. simpl. fold (new_rows r). rewrite Hs.
  unfold drop_stage1_requests, py_bind. simpl. rewrite Hid, rsplit_stg1. simpl.
  rewrite py_int_pretty. simpl. rewrite Ht. simpl.
  unfold flush_final, py_bind. simpl.
  destruct (rows ++ new_rows r) as [|x rest] eqn:Erows; [done|].
  rewrite <- Erows in *. rewrite length_drop.
  rewrite (proj2 (Nat.ltb_lt 0 _)) by lia.
  rewrite (proj2 (Nat.ltb_ge CHUNK_UNIT _)) by (unfold CHUNK_UNIT; lia).
  simpl. eexists. split; [reflexivity|]. split; [lia|]. split; [lia|]. eexists _, _.
  rewrite !decide_True by lia. replace (m `min` n - m) with 0 by lia. simpl.
  rewrite app_nil_r, Et, Ei. done.
Qed.

Lemma stage2_step_flushing rows n m0 m t :
  flushing rows n m0 m t ->
  exists t', event_t Stage2Done t = Ret tt t' /\
    flushing rows n m0 (if decide (m <= n) then m + 1 else m) t'.
Proof.
  intros (H0 & Hm & ks & q1 & ->). case_decide as Hmn; cycle 1.
  { eexists. split; [done|]. split; [done|]. split; [lia|]. eexists _, _. by rewrite !decide_False. }
  unfold turn_event, worker_2toServer, py_bind. simpl. destruct (decide (m = n)) as [->|].
  - rewrite Nat.sub_diag. simpl. destruct (stg2_final_id turn_id n lower_id) as [_ ->].
    eexists. split; [done|]. split; [done|]. split; [lia|]. eexists _, _.
    rewrite !decide_False by lia. simpl. f_equal. rewrite app_nil_r, <- app_assoc.
    f_equal. replace ((n + 1) `min` n) with (n `min` n) by lia. f_equal. f_equal.
    unfold is_final_chunk; simpl. rewrite (proj2 (Nat.ltb_lt 0 _)), (proj2 (Nat.leb_le _ _)) by lia.
    done.
  - replace (n - m) with (S (n - S m)) by lia. cbn [seq fmap list_fmap app].
    simpl. destruct (stg2_final_id turn_id m lower_id) as [-> _].
    eexists. split; [done|]. split; [done|]. split; [lia|]. eexists _, _.
    rewrite !decide_True by lia. simpl. f_equal; [by rewrite Nat.add_1_r|].
    rewrite !app_nil_r, <- app_assoc. f_equal.
    replace ((m + 1) `min` n - m0) with (S (m `min` n - m0)) by lia.
    rewrite seq_S, fmap_app. f_equal. simpl. f_equal.
    replace (m0 + (m `min` n - m0)) with m by lia.
    unfold is_final_chunk; simpl. rewrite (proj2 (Nat.leb_gt _ _)) by lia.
    by rewrite andb_false_r.
Qed.

(** *** Whole runs *)

Definition stage1_results (evs : list TurnEvent) : list (Stage1Result (Row:=Row)) :=
  omap (fun e => match e with Stage1Done r => Some r | Stage2Done => None end) evs.
Definition all_rows (rs : list (Stage1Result (Row:=Row))) : list Row := mjoin (new_rows <$> rs).

(** A result the talker gives while it speaks: at most three new rows. *)
Definition speaking (r : Stage1Result (Row:=Row)) : bool :=
  negb (is_stop r) && (length (new_rows r) <=? 3).
(** The result with the stop token: at most one new row. *)
Definition stopping (r : Stage1Result (Row:=Row)) : bool :=
  is_stop r && (length (new_rows r) <=? 1).

Lemma streaming_run evs rows m t :
  streaming rows m t -> forallb speaking (stage1_results evs) = true ->
  exists t' m', run_t evs t = Ret tt t' /\ streaming (rows ++ all_rows (stage1_results evs)) m' t'.
Proof.
  revert rows m t. induction evs as [|[r|] evs IH]; intros rows m t Ht Hok;
    unfold run_turn; cbn [py_for]; unfold py_bind.
  - exists t, m. split; [done|]. by rewrite app_nil_r.
  - cbn in Hok. apply andb_true_iff in Hok as [[Hs Hl%Nat.leb_le]%andb_true_iff Hok].
    apply negb_true_iff in Hs. destruct (stage1_step rows m t r Ht Hs Hl) as (t1 & -> & Ht1).
    destruct (IH _ _ _ Ht1 Hok) as (t' & m' & E & Ht'). exists t', m'. split; [exact E|].
    unfold all_rows. cbn. by rewrite app_assoc.
  - destruct (stage2_step_streaming rows m t Ht) as (t1 & m1 & -> & Ht1).
    by apply (IH rows m1 t1).
Qed.

Lemma flushing_run evs rows n m0 m t :
  flushing rows n m0 m t -> stage1_results evs = [] ->
  exists t', run_t evs t = Ret tt t' /\ flushing rows n m0 ((m + length evs) `min` (n + 1)) t'.
Proof.
  revert m t. induction evs as [|[r|] evs IH]; intros m t Ht Hok;
    unfold run_turn; cbn [py_for length]; unfold py_bind; [| done |].
  - exists t. split; [done|]. pose proof Ht as (_ & Hm & _).
    by replace ((m + 0) `min` (n + 1)) with m by lia.
  - destruct (stage2_step_flushing rows n m0 m t Ht) as (t1 & -> & Ht1).
    destruct (IH _ _ Ht1 Hok) as (t' & E & Ht'). exists t'. split; [exact E|].
    pose proof Ht as (_ & Hm & _).
    replace ((m + S (length evs)) `min` (n + 1))
      with (((if decide (m <= n) then m + 1 else m) + length evs) `min` (n + 1)); [done|].
    case_decide; lia.
Qed.

Lemma split_at_stop evs rs stop :
  stage1_results evs = rs ++ [stop] ->
  exists evs1 evs2, evs = evs1 ++ Stage1Done stop :: evs2 /\
    stage1_results evs1 = rs /\ stage1_results evs2 = [].
Proof.
  revert rs. induction evs as [|[r|] evs IH]; intros rs E.
  - by destruct rs.
  - cbn in E. destruct rs as [|r' rs]; simplify_eq/=.
    + by exists [], evs.
    + destruct (IH rs) as (evs1 & evs2 & -> & E1 & E2); [done|].
      exists (Stage1Done r' :: evs1), evs2. split_and!; [done| |done].
      cbn. by f_equal.
  - destruct (IH rs E) as (evs1 & evs2 & -> & E1 & E2). by exists (Stage2Done :: evs1), evs2.
Qed.

Lemma new_turn_streaming keys q1 : routes_ok keys -> streaming [] 0 (new_turn keys q1).
Proof. intros Hk. split; [lia|]. split; [done|]. by exists keys, q1. Qed.

(** A turn whose talker stops, with every vocoder answer in. *)
Lemma turn_run evs rs stop k id keys q1 :
  routes_ok keys ->
  stage1_results evs = rs ++ [stop] -> forallb speaking rs = true -> stopping stop = true ->
  s1_request_id stop = stg1_req_id turn_id id ->
  all_rows (rs ++ [stop]) <> [] -> length (all_rows rs) < k ->
  exists t m0, run_t (evs ++ replicate k Stage2Done) (new_turn keys q1) = Ret tt t /\
    flushing (all_rows (rs ++ [stop])) (chunks_sent (length (all_rows rs))) m0
      (chunks_sent (length (all_rows rs)) + 1) t.
Proof.
  intros Hk E Hrs [Hs Hl%Nat.leb_le]%andb_true_iff Hid Hne Hlen.
  destruct (split_at_stop _ _ _ E) as (evs1 & evs2 & -> & E1 & E2).
  destruct (streaming_run evs1 [] 0 (new_turn keys q1)) as (t1 & m & R1 & S1);
    [by apply new_turn_streaming|by rewrite E1|]. rewrite E1 in S1. simpl in S1.
  assert (all_rows (rs ++ [stop]) = all_rows rs ++ new_rows stop) as Ea.
  { unfold all_rows. rewrite fmap_app, join_app. simpl. by rewrite app_nil_r. }
  rewrite Ea in *.
  destruct (stop_step _ _ _ stop id S1 Hs Hl Hid Hne) as (t2 & R2 & S2).
  destruct (flushing_run (evs2 ++ replicate k Stage2Done) _ _ _ _ _ S2) as (t3 & R3 & S3).
  { unfold stage1_results. rewrite omap_app. fold (stage1_results evs2). rewrite E2.
    clear. by induction k. }
  exists t3, m. split.
  - unfold run_turn in *. rewrite <- app_assoc. rewrite (py_for_app _ _ _ _ _ R1).
    cbn [app py_for]. unfold py_bind. by rewrite R2.
  - rewrite length_app, length_replicate in S3.
    pose proof (chunks_sent_spec (length (all_rows rs))) as [? _].
    pose proof S2 as (? & ? & _).
    by replace ((m + (length evs2 + k)) `min` (chunks_sent (length (all_rows rs)) + 1))
      with (chunks_sent (length (all_rows rs)) + 1) in S3 by lia.
Qed.

(** ** The audio that is delivered *)

Lemma length_fade (x : list Sample) : length (fade_out fade_at x) = length x.
Proof.
  unfold fade_out. rewrite length_app, length_imap, length_take, length_drop. lia.
Qed.

Lemma take_fade (x : list Sample) k :
  k <= length x - FADE -> take k (fade_out fade_at x) = take k x.
Proof.
  intros Hk. unfold fade_out. rewrite take_app_le by (rewrite length_take; lia).
  rewrite take_take. f_equal. lia.
Qed.

Lemma pcm_app x y : pcm (x ++ y) = pcm x ++ pcm y.
Proof. unfold pcm_bytes. by rewrite fmap_app, join_app. Qed.

Lemma pcm_chunks rows e a n :
  mjoin (omap it_audio_byte (chunk_item rows e <$> seq a n)) =
  pcm (mjoin (chunk_audio rows <$> seq a n)).
Proof.
  revert a. induction n as [|n IH]; intros a; [done|]. simpl. by rewrite IH, pcm_app.
Qed.

Lemma delivered_bytes rows n m0 t :
  flushing rows n m0 (n + 1) t ->
  mjoin (omap it_audio_byte (final_output_q t)) =
  pcm (mjoin (chunk_audio rows <$> seq 0 n) ++ final_audio rows n).
Proof.
  intros (H0 & _ & ks & q1 & ->). cbn [final_output_q]. rewrite decide_False by lia.
  replace ((n + 1) `min` n) with n by lia.
  rewrite !omap_app, !join_app, !pcm_chunks. cbn. rewrite app_nil_r, app_assoc, <- !pcm_app.
  rewrite <- join_app, <- fmap_app.
  change (seq m0 (n - m0)) with (seq (0 + m0) (n - m0)). rewrite <- seq_app.
  by replace (m0 + (n - m0)) with n by lia.
Qed.

(** The requests a reply of [rows] sends to the vocoder when its final chunk is
    number [n]. *)
Definition payloads_of (rows : list Row) (n : nat) : list (list Row) :=
  (chunk_rows rows <$> seq 0 n) ++ [task_payload (final_task rows n)].

Lemma length_chunk_rows rows j : 3 * j + 5 <= length rows -> length (chunk_rows rows j) = 5.
Proof. intros. unfold chunk_rows. rewrite length_take, length_drop. lia. Qed.

Lemma chunk_rows_lookup rows j i : i < 5 -> chunk_rows rows j !! i = rows !! (3 * j + i).
Proof. intros. unfold chunk_rows. rewrite lookup_take_lt by lia. apply lookup_drop. Qed.

(** The overlap of two requests. *)
Lemma chunk_rows_overlap rows j : drop 3 (chunk_rows rows j) = take 2 (drop (3 * S j) rows).
Proof.
  unfold chunk_rows. rewrite <- (take_drop_commute _ 2 3), drop_drop. do 2 f_equal. lia.
Qed.

(** The new part of each request. *)
Definition fresh_part (j : nat) (p : list Row) : list Row :=
  drop (if decide (j = 0) then 0 else OVERLAP_SIZE) p.

Lemma fresh_chunks rows n :
  n = 0 \/ 3 * n + 2 <= length rows ->
  mjoin (imap fresh_part (chunk_rows rows <$> seq 0 n)) =
  if decide (n = 0) then [] else take (3 * n + 2) rows.
Proof.
  induction n as [|n IH]; intros Hn; [done|]. rewrite decide_False by done.
  rewrite seq_S, fmap_app, imap_app, join_app, IH by lia. cbn [fmap list_fmap imap mjoin list_join].
  rewrite length_fmap, length_seq, app_nil_r, Nat.add_0_r. unfold fresh_part, chunk_rows, OVERLAP_SIZE.
  destruct (decide (n = 0)) as [->|Hn0]; [done|]. cbn [Nat.add].
  rewrite <- (take_drop_commute _ 3 2), drop_drop.
  replace (3 * S n + 2) with ((3 * n + 2) + 3) by lia. by rewrite take_take_drop.
Qed.

(** Rows of the reply, padding included, are sent once each and in order. *)
Lemma payloads_cover rows n :
  n = 0 \/ 3 * n + 2 <= length rows ->
  mjoin (imap fresh_part (payloads_of rows n)) =
  rows ++ replicate (5 - (length rows - 3 * n)) zero_row.
Proof.
  intros Hn. unfold payloads_of. rewrite imap_app, join_app, fresh_chunks by done.
  cbn [imap mjoin list_join]. rewrite length_fmap, length_seq, app_nil_r, Nat.add_0_r.
  unfold final_task, fresh_part, OVERLAP_SIZE. cbn [task_payload].
  destruct (decide (n = 0)) as [->|Hn0]; [done|].
  rewrite drop_app_le by (rewrite length_drop; lia). rewrite drop_drop, app_assoc.
  by rewrite take_drop.
Qed.

Lemma payloads_lookup rows n j p :
  payloads_of rows n !! j = Some p ->
  (j < n /\ p = chunk_rows rows j) \/ (j = n /\ p = task_payload (final_task rows n)).
Proof.
  unfold payloads_of. intros [Hl|[Hl Hr]]%lookup_app_Some.
  - left. apply list_lookup_fmap_Some in Hl as (x & -> & [-> Hx]%lookup_seq). done.
  - right. rewrite length_fmap, length_seq in *. apply list_lookup_singleton_Some in Hr as [? ->].
    split; [lia|done].
Qed.

Lemma final_payload_length rows n :
  length rows - 3 * n <= 5 -> length (task_payload (final_task rows n)) = 5.
Proof. intros. unfold final_task. cbn [task_payload]. rewrite length_app, length_drop, length_replicate. lia. Qed.

Lemma payloads_of_ok rows n :
  n = 0 \/ 3 * n + 2 <= length rows -> length rows - 3 * n <= 5 ->
  Forall (fun p => length p = CHUNK_UNIT) (payloads_of rows n).
Proof.
  intros Hn Hl. apply Forall_lookup. intros j p [[Hj ->]|[-> ->]]%payloads_lookup.
  - apply length_chunk_rows. lia.
  - by apply final_payload_length.
Qed.

Lemma payloads_overlap rows n :
  n = 0 \/ 3 * n + 2 <= length rows ->
  forall j p q, payloads_of rows n !! j = Some p -> payloads_of rows n !! S j = Some q ->
    take OVERLAP_SIZE q = drop (CHUNK_UNIT - OVERLAP_SIZE) p.
Proof.
  intros Hn j p q [[Hj ->]|[-> ->]]%payloads_lookup [[Hj' ->]|[Ej ->]]%payloads_lookup; try lia;
    unfold OVERLAP_SIZE, CHUNK_UNIT; change (5 - 2) with 3; rewrite chunk_rows_overlap.
  - unfold chunk_rows. by rewrite take_take.
  - unfold final_task. cbn [task_payload]. rewrite <- Ej.
    rewrite take_app_le by (rewrite length_drop; lia). done.
Qed.

(** The lengths of a reply and of its last request. *)
Lemma turn_lengths rs stop :
  stopping stop = true -> all_rows (rs ++ [stop]) <> [] ->
  let rows := all_rows (rs ++ [stop]) in let n := chunks_sent (length (all_rows rs)) in
  (n = 0 \/ 3 * n + 2 <= length rows) /\ length rows - 3 * n <= 5 /\ 3 * n < length rows.
Proof.
  cbv zeta. intros [_ Hl%Nat.leb_le]%andb_true_iff Hne.
  pose proof (chunks_sent_spec (length (all_rows rs))) as [Hc1 Hc2].
  assert (length (all_rows (rs ++ [stop])) = length (all_rows rs) + length (new_rows stop)) as El.
  { unfold all_rows. rewrite fmap_app, join_app, length_app. simpl. by rewrite app_nil_r. }
  assert (0 < length (all_rows (rs ++ [stop])))
    by (destruct (all_rows (rs ++ [stop])); [done|simpl; lia]).
  lia.
Qed.

(** A sample of a row lies inside the frames of the rows. *)
Lemma frame_bound i s a : s < FRAME -> i < a -> i * FRAME + s < a * FRAME.
Proof. intros. pose proof (Nat.mul_le_mono_r (S i) a FRAME). lia. Qed.

Section one_frame_per_row.
Hypothesis frames : forall p, length p = CHUNK_UNIT -> length (code2wav p) = CHUNK_UNIT * FRAME.

(** The rows the first [n] chunks cover. *)
Definition covered (n : nat) : nat := if decide (n = 0) then 0 else 3 * n + 2.

Lemma length_chunk_audio rows j :
  3 * j + 5 <= length rows ->
  length (chunk_audio rows j) = (if decide (j = 0) then 5 else 3) * FRAME.
Proof.
  intros Hj. unfold chunk_audio, clean_audio.
  pose proof (frames (chunk_rows rows j) (length_chunk_rows rows j Hj)) as Hf.
  unfold CHUNK_UNIT in Hf. destruct (decide (j = 0)) as [->|Hj0]; [done|].
  rewrite (proj2 (Nat.ltb_lt 1 _)), length_drop, Hf by lia. unfold OVERLAP_SIZE. lia.
Qed.

Lemma chunk_audio_lookup rows j x :
  chunk_audio rows j !! x =
  code2wav (chunk_rows rows j) !! ((if decide (j = 0) then 0 else OVERLAP_SIZE * FRAME) + x).
Proof.
  unfold chunk_audio, clean_audio. destruct (decide (j = 0)) as [->|]; [done|].
  rewrite (proj2 (Nat.ltb_lt 1 _)) by lia. apply lookup_drop.
Qed.

Lemma length_chunks rows n :
  n = 0 \/ 3 * n + 2 <= length rows ->
  length (mjoin (chunk_audio rows <$> seq 0 n)) = covered n * FRAME.
Proof.
  induction n as [|n IH]; intros Hn; [done|].
  rewrite seq_S, fmap_app, join_app, length_app, IH by lia. cbn. rewrite app_nil_r.
  rewrite length_chunk_audio by lia. unfold covered. rewrite (decide_False (P:=S n = 0)) by done.
  rewrite <- Nat.mul_add_distr_r. f_equal. case_decide; lia.
Qed.

(** The samples of the rows the chunks cover. *)
Lemma chunk_samples rows n i s :
  n = 0 \/ 3 * n + 2 <= length rows -> i < covered n -> s < FRAME ->
  exists j k, j < n /\ i = 3 * j + k /\ k < 5 /\ (j = 0 \/ OVERLAP_SIZE <= k) /\
    mjoin (chunk_audio rows <$> seq 0 n) !! (i * FRAME + s) =
    code2wav (chunk_rows rows j) !! (k * FRAME + s).
Proof.
  induction n as [|n IH]; intros Hn Hi Hs; [unfold covered in Hi; simpl in Hi; lia|].
  rewrite seq_S, fmap_app, join_app. cbn [fmap list_fmap mjoin list_join]. rewrite app_nil_r.
  pose proof (length_chunks rows n ltac:(lia)) as Hl.
  destruct (decide (i < covered n)) as [Hc|Hc].
  - destruct IH as (j & k & Hj & Ei & Hk & Ho & El); [lia|done|done|].
    exists j, k. rewrite lookup_app_l by (rewrite Hl; by apply frame_bound). auto with lia.
  - exists n, (i - 3 * n). assert (covered n * FRAME <= i * FRAME) by (apply Nat.mul_le_mono_r; lia).
    rewrite lookup_app_r, Hl by (rewrite Hl; lia). rewrite chunk_audio_lookup, Nat.add_0_l.
    unfold covered, OVERLAP_SIZE in *. rewrite decide_False in Hi by done.
    split_and!; [lia|case_decide; lia|lia|case_decide; lia|].
    f_equal. rewrite Nat.mul_sub_distr_r. case_decide; [subst|]; lia.
Qed.

Lemma length_final_audio rows n :
  n = 0 \/ 3 * n + 2 <= length rows -> length rows - 3 * n <= 5 ->
  length (final_audio rows n) = (length rows - covered n) * FRAME.
Proof.
  intros Hn Hl. pose proof (frames _ (final_payload_length rows n Hl)) as Hf.
  unfold final_audio, clean_audio, covered, CHUNK_UNIT, OVERLAP_SIZE in *.
  destruct (decide (n = 0)) as [->|Hn0]; [change (1 <? 0 + 1) with false; cbn match
    |rewrite (proj2 (Nat.ltb_lt 1 _)), length_drop by lia];
    rewrite length_fade, length_take, Hf; nia.
Qed.

Lemma final_audio_lookup rows n x :
  length rows - 3 * n <= 5 ->
  let off := if decide (n = 0) then 0 else OVERLAP_SIZE * FRAME in
  off + x < (length rows - 3 * n) * FRAME - FADE ->
  final_audio rows n !! x = code2wav (task_payload (final_task rows n)) !! (off + x).
Proof.
  cbv zeta. intros Hl Hx. pose proof (frames _ (final_payload_length rows n Hl)) as Hf.
  unfold final_audio, clean_audio, CHUNK_UNIT in *.
  set (y := code2wav _) in *. set (d := if decide (n = 0) then _ else _) in *.
  assert (forall l : list Sample, (if 1 <? n + 1 then drop (OVERLAP_SIZE * FRAME) l else l) = drop d l) as ->.
  { intros l. subst d. destruct (decide (n = 0)) as [->|]; [done|].
    by rewrite (proj2 (Nat.ltb_lt 1 _)) by lia. }
  rewrite lookup_drop. set (K := (length rows - 3 * n) * FRAME) in *.
  assert (K <= length y) by (unfold K; rewrite Hf; nia).
  rewrite <- (lookup_take_lt _ (K - FADE)) by done.
  rewrite take_fade by (rewrite length_take; lia).
  rewrite lookup_take_lt by done. apply lookup_take_lt. lia.
Qed.

(** Every sample before the fade, of every row of the reply. *)
Lemma delivered_samples rows n i s :
  n = 0 \/ 3 * n + 2 <= length rows -> length rows - 3 * n <= 5 ->
  i < length rows -> s < FRAME -> i * FRAME + s < length rows * FRAME - FADE ->
  exists j p k, payloads_of rows n !! j = Some p /\
    i = (CHUNK_UNIT - OVERLAP_SIZE) * j + k /\ k < CHUNK_UNIT /\ (j = 0 \/ OVERLAP_SIZE <= k) /\
    p !! k = rows !! i /\
    (mjoin (chunk_audio rows <$> seq 0 n) ++ final_audio rows n) !! (i * FRAME + s) =
    code2wav p !! (k * FRAME + s).
Proof.
  intros Hn Hl Hi Hs Hfade. pose proof (length_chunks rows n Hn) as HL. unfold payloads_of.
  destruct (decide (i < covered n)) as [Hc|Hc].
  - destruct (chunk_samples rows n i s Hn Hc Hs) as (j & k & Hj & Ei & Hk & Ho & El).
    exists j, (chunk_rows rows j), k. rewrite lookup_app_l by (rewrite length_fmap, length_seq; done).
    rewrite list_lookup_fmap, lookup_seq_lt by done.
    rewrite lookup_app_l by (rewrite HL; by apply frame_bound).
    split_and!; [done|exact Ei|exact Hk|exact Ho|by rewrite chunk_rows_lookup, Ei|exact El].
  - exists n, (task_payload (final_task rows n)), (i - 3 * n).
    rewrite lookup_app_r by (rewrite length_fmap, length_seq; done).
    rewrite length_fmap, length_seq, Nat.sub_diag.
    assert (3 * n <= i /\ (n = 0 \/ OVERLAP_SIZE <= i - 3 * n)) as [H3 Ho]
      by (unfold covered, OVERLAP_SIZE in *; case_decide; lia).
    split_and!; [done|unfold CHUNK_UNIT, OVERLAP_SIZE; lia|unfold CHUNK_UNIT; lia|exact Ho| |].
    + unfold final_task. cbn [task_payload]. rewrite lookup_app_l by (rewrite length_drop; lia).
      rewrite lookup_drop. f_equal. lia.
    + assert (covered n * FRAME <= i * FRAME) by (apply Nat.mul_le_mono_r; lia).
      rewrite lookup_app_r, HL by (rewrite HL; lia). rewrite final_audio_lookup; [|done|];
        unfold covered, OVERLAP_SIZE in *; case_decide; [f_equal|f_equal| |]; nia.
Qed.
End one_frame_per_row.

(** C30. A turn ends when, and only when, its audio is complete: under the same
    conditions on the talker, whatever the vocoder computes, every vocoder
    request is answered, exactly the last output is marked finished, the number
    of outputs is the announced [total_vocoder_expected], and that number is
    announced on the last one. *)
Theorem turn_completes evs rs stop k id keys q1 :
  routes_ok keys ->
  stage1_results evs = rs ++ [stop] -> forallb speaking rs = true -> stopping stop = true ->
  s1_request_id stop = stg1_req_id turn_id id ->
  all_rows (rs ++ [stop]) <> [] -> length (all_rows rs) < k ->
  exists t n, n = (length (all_rows rs) - OVERLAP_SIZE) / (CHUNK_UNIT - OVERLAP_SIZE) + 1 /\
    run_t (evs ++ replicate k Stage2Done) (new_turn keys q1) = Ret tt t /\
    stage2_in t = [] /\ total_vocoder_expected t = Some n /\
    length (final_output_q t) = n /\
    it_finished <$> final_output_q t = replicate (n - 1) false ++ [true] /\
    it_total_vocoder_expected <$> last (final_output_q t) = Some (Z.of_nat n).
Proof.
  intros Hk E Hrs Hstop Hid Hne Hlen.
  destruct (turn_run evs rs stop k id keys q1) as (t & m0 & R & Hf); [done..|].
  fold (chunks_sent (length (all_rows rs))). set (n := chunks_sent _) in *.
  exists t, (n + 1). destruct Hf as (H0 & _ & ks & q1' & ->).
  split; [done|]. split; [exact R|]. simpl. rewrite !decide_False by lia.
  replace ((n + 1) `min` n) with n by lia. split_and!; [done|done| | |].
  - rewrite !length_app, !length_fmap, !length_seq. simpl. lia.
  - rewrite !fmap_app, <- !list_fmap_compose. rewrite Nat.add_sub, app_assoc. simpl. f_equal.
    rewrite <- fmap_app. apply list_eq_same_length with n; [by rewrite length_replicate| |].
    + rewrite length_fmap, length_app, !length_seq. lia.
    + intros i x y Hi Hx Hy. apply list_lookup_fmap_Some in Hx as (j & -> & _).
      by apply lookup_replicate in Hy as [-> _].
  - by rewrite app_assoc, last_snoc.
Qed.

(** A reply without audio never ends: when the talker gives the stop token
    before any code row, the number of expected vocoder outputs is never set and
    nothing is sent to the vocoder, so the turn produces no output at all and
    its consumer, which waits for one that is marked finished, waits for ever. *)
Theorem silent_turn_never_finishes evs rs stop id keys q1 :
  routes_ok keys ->
  stage1_results evs = rs ++ [stop] -> forallb speaking rs = true -> stopping stop = true ->
  s1_request_id stop = stg1_req_id turn_id id -> all_rows (rs ++ [stop]) = [] ->
  exists t, run_t evs (new_turn keys q1) = Ret tt t /\
    stg1_is_finished t = true /\ total_vocoder_expected t = None /\
    stage2_in t = [] /\ final_output_q t = [].
Proof.
  intros Hk E Hrs [Hs Hl]%andb_true_iff Hid Hnil.
  destruct (split_at_stop _ _ _ E) as (evs1 & evs2 & -> & E1 & E2).
  unfold all_rows in Hnil. rewrite fmap_app, join_app in Hnil. simpl in Hnil.
  rewrite app_nil_r in Hnil. apply app_nil in Hnil as [Hn1 Hn2].
  destruct (streaming_run evs1 [] 0 (new_turn keys q1)) as (t1 & m & R1 & S1);
    [by apply new_turn_streaming|by rewrite E1|]. rewrite E1 in S1. unfold all_rows in S1.
  rewrite Hn1 in S1. destruct S1 as (Hm & Hr & ks & q1' & ->). simpl in Hm, Hr.
  destruct (later_ids_total (turn_id +:+ "_stage_1") id (elements ks)) as [targets Ht].
  { intros x Hx. apply Hr. by apply elem_of_elements. }
  assert (m = 0) as -> by (cbv in Hm; lia).
  assert (forall t, stage2_in t = [] -> run_t evs2 t = Ret tt t) as Hidle.
  { clear -E2. intros t Ht. induction evs2 as [|[r|] evs2 IH]; [done|done|].
    unfold run_turn in *. cbn [py_for]. unfold py_bind, turn_event at 1, py_bind. simpl.
    rewrite Ht. simpl. by apply IH. }
  eexists. split.
  - unfold run_turn in *. rewrite (py_for_app _ _ _ _ _ R1). cbn [py_for].
    unfold is_stop in Hs. unfold py_bind, turn_event at 1, worker_1to2, py_bind. simpl. rewrite Hs.
    fold (new_rows stop). rewrite Hn2.
    unfold drop_stage1_requests, py_bind. simpl. rewrite Hid, rsplit_stg1. simpl.
    rewrite py_int_pretty. simpl. rewrite Ht. simpl. by apply Hidle.
  - done.
Qed.

(** What the stop token of one turn does to the others: from the stage-1
    queue it removes exactly the later requests of its own turn, but it
    unregisters the stage-1 requests of every turn, so a result that another
    session's talker still has to deliver is dropped when it arrives. *)
Theorem stop_unregisters_other_turns (t : Turn (Row:=Row)) (r : Stage1Result (Row:=Row)) k :
  routes_ok (request_states t) -> s1_request_id r = stg1_req_id turn_id k ->
  exists t', drop_stage1_requests r t = Ret tt t' /\
    (forall rid, rid ∈ stage1_in t' <-> rid ∈ stage1_in t /\
       ~ (rid ∈ request_states t /\ String.prefix (turn_id +:+ "_stage_1") rid = true /\
          exists a b n, rsplit_underscore rid = Some (a, b) /\ py_int b = Some n /\ k < n)) /\
    (forall other j, harvested t' (stg1_req_id other j) = false) /\
    (forall rid, str_contains "_stage_1" rid = false -> harvested t' rid = harvested t rid).
Proof using Type.
  intros Hr Hid.
  destruct (later_ids_total (turn_id +:+ "_stage_1") k (elements (request_states t))) as [targets Ht].
  { intros x Hx. apply Hr. by apply elem_of_elements. }
  unfold drop_stage1_requests, py_bind. simpl. rewrite Hid, rsplit_stg1. simpl.
  rewrite py_int_pretty. simpl. rewrite Ht. simpl.
  eexists. split; [done|]. simpl. split_and!.
  - intros rid. unfold selective_drain.
    rewrite list_elem_of_In, filter_In, negb_true_iff, bool_decide_eq_false, <- list_elem_of_In.
    rewrite (elem_of_later_ids _ _ _ rid _ Ht), elem_of_elements. done.
  - intros other j. apply bool_decide_eq_false. simpl.
    intros [Hc _]%elem_of_filter. by rewrite contains_stage1 in Hc.
  - intros rid Hn. unfold harvested. simpl. apply bool_decide_ext.
    rewrite elem_of_filter. split; [by intros [_ ?]|by split].
Qed.
End turn_runs.

(** ** The pipeline with the vocoder *)
Section delivery.
Context {Row Sample : Type}.
Context (zero_row : Row) (fade_at : nat -> nat -> Sample -> Sample) (quantise : Sample -> Z).
Context (forward : list Row -> list Sample) (total_upsample : nat).
Context (turn_id : string) (lower_id : has_char "F"%char turn_id = false).

(** The answer of the vocoder stage, [generate_audio] being None only on a
    request without rows. *)
Definition vocoder_stage (codes : list Row) : list Sample :=
  default [] (generate_audio forward total_upsample codes).

(** What is heard of request [j], the last of which is number [last] with
    [real] rows of the reply: all but the samples of its overlap. *)
Definition heard (last real j : nat) (p : list Row) : list Sample :=
  drop (if decide (j = 0) then 0 else OVERLAP_SIZE * FRAME)
    (if decide (j = last) then fade_out fade_at (take (real * FRAME) (forward p)) else forward p).

Lemma vocoder_stage_chunk p :
  length p = CHUNK_UNIT -> generate_audio forward total_upsample p = Some (forward p).
Proof. intros Hl. apply chunked_decode_one. rewrite Hl. unfold CHUNK_UNIT. lia. Qed.

Lemma vocoder_stage_forward p : length p = CHUNK_UNIT -> vocoder_stage p = forward p.
Proof. intros Hl. unfold vocoder_stage. by rewrite vocoder_stage_chunk. Qed.

Lemma clean_audio_heard final real j (p : list Row) last :
  length p = CHUNK_UNIT -> final = bool_decide (j = last) ->
  clean_audio fade_at final real (j + 1) (vocoder_stage p) = heard last real j p.
Proof.
  intros Hp ->. unfold clean_audio, heard. rewrite vocoder_stage_forward by done.
  case_bool_decide; destruct (decide (j = last)); try done;
    (destruct (decide (j = 0)) as [->|]; [done|by rewrite (proj2 (Nat.ltb_lt 1 _)) by lia]).
Qed.

Lemma audio_heard rows n :
  n = 0 \/ 3 * n + 2 <= length rows -> length rows - 3 * n <= 5 ->
  mjoin (chunk_audio fade_at vocoder_stage rows <$> seq 0 n) ++
    final_audio zero_row fade_at vocoder_stage turn_id rows n =
  mjoin (imap (heard n (length rows - 3 * n)) (payloads_of zero_row turn_id rows n)).
Proof.
  intros Hn Hl. unfold payloads_of. rewrite imap_app, join_app. f_equal.
  - f_equal. apply list_eq. intros i. rewrite list_lookup_imap, !list_lookup_fmap.
    destruct (seq 0 n !! i) as [x|] eqn:Ex; [|done]. apply lookup_seq in Ex as [-> Hi].
    cbn. f_equal. rewrite <- (clean_audio_heard false); [|apply length_chunk_rows; lia|].
    + unfold chunk_audio, clean_audio. done.
    + symmetry. apply bool_decide_eq_false. lia.
  - cbn [imap mjoin list_join]. rewrite length_fmap, length_seq, app_nil_r, Nat.add_0_r.
    rewrite <- (clean_audio_heard true); [done|by apply final_payload_length|].
    symmetry. by apply bool_decide_eq_true.
Qed.

(** C29. The audio of a reply covers its code rows, each once and in order, for
    any network behind the vocoder stage. For every interleaving of talker
    results and vocoder answers in which the talker gives at most three rows at
    a time and ends with the stop token (with at most one more row), no handler
    raises, and there are vocoder requests of [CHUNK_UNIT] rows, each decoded in
    one pass of the network, such that: without the [OVERLAP_SIZE] rows a request
    repeats they are the rows of the reply, the last one padded with zero rows;
    the repeated rows are the last ones of the request before; and the bytes sent
    are the answers in that order, each but the first without the samples of the
    repeated rows, the last cut at its real rows and faded. If the network gives
    1920 samples per row, as the trimming assumes, the audio has 1920 samples for
    each row, and every sample before the fade of the last 500 is the sample of
    its row in the request in which the row is new. *)
Theorem streamed_audio_covers_rows evs rs stop k id keys q1 :
  routes_ok turn_id keys ->
  stage1_results evs = rs ++ [stop] -> forallb speaking rs = true -> stopping stop = true ->
  s1_request_id stop = stg1_req_id turn_id id ->
  all_rows (rs ++ [stop]) <> [] -> length (all_rows rs) < k ->
  let rows := all_rows (rs ++ [stop]) in
  exists t payloads pad audio,
    run_turn zero_row fade_at quantise vocoder_stage turn_id
      (evs ++ replicate k Stage2Done) (new_turn keys q1) = Ret tt t /\
    mjoin (omap it_audio_byte (final_output_q t)) = pcm_bytes quantise audio /\
    audio = mjoin (imap (heard (length payloads - 1) (CHUNK_UNIT - pad)) payloads) /\
    Forall (fun p => length p = CHUNK_UNIT /\
                     generate_audio forward total_upsample p = Some (forward p)) payloads /\
    mjoin (imap fresh_part payloads) = rows ++ replicate pad zero_row /\ pad < CHUNK_UNIT /\
    (forall j p q, payloads !! j = Some p -> payloads !! S j = Some q ->
       take OVERLAP_SIZE q = drop (CHUNK_UNIT - OVERLAP_SIZE) p) /\
    ((forall p, length p = CHUNK_UNIT -> length (forward p) = CHUNK_UNIT * FRAME) ->
       length audio = length rows * FRAME /\
       forall i s, i < length rows -> s < FRAME -> i * FRAME + s < length rows * FRAME - FADE ->
         exists j p c, payloads !! j = Some p /\ i = (CHUNK_UNIT - OVERLAP_SIZE) * j + c /\
           c < CHUNK_UNIT /\ (j = 0 \/ OVERLAP_SIZE <= c) /\ p !! c = rows !! i /\
           audio !! (i * FRAME + s) = forward p !! (c * FRAME + s)).
Proof.
  intros Hk E Hrs Hstop Hid Hne Hlen rows.
  destruct (turn_run zero_row fade_at quantise vocoder_stage turn_id lower_id
    evs rs stop k id keys q1) as (t & m0 & R & Hf); [done..|].
  set (n := chunks_sent (length (all_rows rs))) in *. fold rows in Hf.
  assert ((n = 0 \/ 3 * n + 2 <= length rows) /\ length rows - 3 * n <= 5 /\ 3 * n < length rows)
    as (Hn & Hl & Hpos) by by apply turn_lengths.
  pose proof (payloads_of_ok zero_row turn_id rows n Hn Hl) as Hall.
  exists t, (payloads_of zero_row turn_id rows n), (5 - (length rows - 3 * n)). eexists.
  split; [exact R|]. split; [by eapply delivered_bytes|].
  rewrite audio_heard by done. split_and!.
  - do 2 f_equal. unfold payloads_of, CHUNK_UNIT.
    rewrite length_app, length_fmap, length_seq. cbn [length]. f_equal; lia.
  - eapply Forall_impl; [exact Hall|]. intros p Hp. split; [done|by apply vocoder_stage_chunk].
  - by apply payloads_cover.
  - unfold CHUNK_UNIT. lia.
  - by apply payloads_overlap.
  - rewrite <- audio_heard by done. intros Hframes.
    assert (forall p, length p = CHUNK_UNIT -> length (vocoder_stage p) = CHUNK_UNIT * FRAME) as Hv
      by (intros p Hp; rewrite vocoder_stage_forward; auto). split.
    + rewrite length_app, length_chunks, length_final_audio, <- Nat.mul_add_distr_r by done.
      f_equal. unfold covered. case_decide; lia.
    + intros i s Hi Hs Hfade.
      destruct (delivered_samples zero_row fade_at vocoder_stage turn_id Hv rows n i s)
        as (j & p & c & Hp & Ei & Hc & Ho & Er & Es); [done..|].
      exists j, p, c. rewrite Es, vocoder_stage_forward by (by eapply Forall_lookup_1 in Hall). done.
Qed.

End delivery.

(** ** A concrete turn for the witnesses *)

Definition demo_turn_id : string := "sess_17".
Definition demo_fade (len i x : nat) : nat := x * (len - i) / len.
Definition demo_code2wav (rows : list nat) : list nat := rows ≫= replicate FRAME.
Definition demo_speak (k row : nat) : Stage1Result :=
  mkStage1 (stg1_req_id demo_turn_id k) [7%Z] (Some [row]).
Definition demo_stop (codes : option (list nat)) : Stage1Result :=
  mkStage1 (stg1_req_id demo_turn_id 7) [3%Z; STOP_TOKEN] codes.
Definition demo_keys : gset string := {[ "sess_17_stage_1_3"; "sess_9_stage_1_4" ]}.
Definition demo_rs : list Stage1Result := (fun k => demo_speak k (k + 10)) <$> seq 0 7.
Definition demo_evs : list TurnEvent :=
  (Stage1Done <$> take 5 demo_rs) ++ [Stage2Done; Stage2Done] ++ (Stage1Done <$> drop 5 demo_rs)
    ++ [Stage1Done (demo_stop (Some [99]))].

Lemma demo_routes : routes_ok demo_turn_id demo_keys.
Proof.
  intros k Hk Hp. unfold demo_keys in Hk. apply elem_of_union in Hk as [Hk|Hk];
    apply elem_of_singleton in Hk as ->; [|discriminate Hp].
  exists "sess_17_stage_1", "3", 3. split; reflexivity.
Qed.

Lemma length_demo_code2wav rows : length (demo_code2wav rows) = length rows * FRAME.
Proof.
  induction rows as [|r rows IH]; [done|]. unfold demo_code2wav in *. cbn [mbind list_bind length].
  rewrite length_app, length_replicate, IH. lia.
Qed.

Lemma streamed_audio_covers_rows_witness :
  exists t audio,
    run_turn 0 demo_fade Z.of_nat (vocoder_stage demo_code2wav FRAME) demo_turn_id
      (demo_evs ++ replicate 8 Stage2Done) (new_turn demo_keys ["sess_17_stage_1_3"]) = Ret tt t /\
    mjoin (omap it_audio_byte (final_output_q t)) = pcm_bytes Z.of_nat audio /\
    length audio = 8 * FRAME /\
    exists p c, p !! c = Some 16 /\
      audio !! (6 * FRAME + 7) = demo_code2wav p !! (c * FRAME + 7).
Proof.
  destruct (streamed_audio_covers_rows 0 demo_fade Z.of_nat demo_code2wav FRAME demo_turn_id eq_refl
           demo_evs demo_rs (demo_stop (Some [99])) 8 7 demo_keys ["sess_17_stage_1_3"])
    as (t & payloads & pad & audio & R & B & _ & _ & _ & _ & _ & F).
  - exact demo_routes.
  - reflexivity.
  - reflexivity.
  - reflexivity.
  - reflexivity.
  - discriminate.
  - vm_compute. lia.
  - destruct F as [Hl Hs].
    { intros p Hp. rewrite length_demo_code2wav, Hp. reflexivity. }
    exists t, audio. split; [exact R|]. split; [exact B|]. split; [exact Hl|].
    destruct (Hs 6 7) as (j & p & c & _ & _ & _ & _ & Hr & Ha); [vm_compute; lia..|].
    exists p, c. split; [exact Hr|exact Ha].
Defined.

Lemma turn_completes_witness :
  exists t n, n = 2 /\
    run_turn 0 demo_fade Z.of_nat demo_code2wav demo_turn_id
      (demo_evs ++ replicate 8 Stage2Done) (new_turn demo_keys ["sess_17_stage_1_3"]) = Ret tt t /\
    stage2_in t = [] /\ total_vocoder_expected t = Some n /\
    length (final_output_q t) = n /\
    it_finished <$> final_output_q t = replicate (n - 1) false ++ [true] /\
    it_total_vocoder_expected <$> last (final_output_q t) = Some (Z.of_nat n).
Proof.
  apply (turn_completes 0 demo_fade Z.of_nat demo_code2wav demo_turn_id eq_refl
           demo_evs demo_rs (demo_stop (Some [99])) 8 7 demo_keys ["sess_17_stage_1_3"]).
  - exact demo_routes.
  - reflexivity.
  - reflexivity.
  - reflexivity.
  - reflexivity.
  - discriminate.
  - vm_compute. lia.
Defined.

Lemma silent_turn_never_finishes_witness :
  exists t,
    run_turn 0 demo_fade Z.of_nat demo_code2wav demo_turn_id
      [Stage1Done (demo_stop None); Stage2Done] (new_turn demo_keys []) = Ret tt t /\
    stg1_is_finished t = true /\ total_vocoder_expected t = None /\
    stage2_in t = [] /\ final_output_q t = [].
Proof.
  apply (silent_turn_never_finishes 0 demo_fade Z.of_nat demo_code2wav demo_turn_id eq_refl
           [Stage1Done (demo_stop None); Stage2Done] [] (demo_stop None) 7 demo_keys []).
  - exact demo_routes.
  - reflexivity.
  - reflexivity.
  - reflexivity.
  - reflexivity.
  - reflexivity.
Defined.

Lemma stop_unregisters_other_turns_witness :
  exists t', drop_stage1_requests (demo_stop None)
      (new_turn ({[stg1_req_id demo_turn_id 8; stg1_req_id "sess_9" 4]} : gset string)
         [stg1_req_id demo_turn_id 8; stg1_req_id "sess_9" 4]) = Ret tt t' /\
    stg1_req_id demo_turn_id 8 ∉ stage1_in t' /\ stg1_req_id "sess_9" 4 ∈ stage1_in t' /\
    harvested t' (stg1_req_id "sess_9" 4) = false.
Proof.
  destruct (stop_unregisters_other_turns demo_turn_id
      (new_turn ({[stg1_req_id demo_turn_id 8; stg1_req_id "sess_9" 4]} : gset string)
         [stg1_req_id demo_turn_id 8; stg1_req_id "sess_9" 4]) (demo_stop None) 7)
    as (t' & E & Hq & Hh & _).
  - intros k Hk Hp. cbn [request_states new_turn] in Hk. apply elem_of_union in Hk as [Hk|Hk];
      apply elem_of_singleton in Hk as ->; [|discriminate Hp].
    exists "sess_17_stage_1", "8", 8. split; reflexivity.
  - reflexivity.
  - exists t'. split; [exact E|]. rewrite !Hq. split_and!.
    + intros [_ Hc]. apply Hc. cbn [request_states new_turn].
      split; [by apply elem_of_union_l, elem_of_singleton|].
      split; [reflexivity|].
      exists "sess_17_stage_1", "8", 8. split_and!; [reflexivity..|lia].
    + cbn [stage1_in new_turn]. right. left.
    + intros (_ & Hp & _). discriminate Hp.
    + apply Hh.
Defined.
