(* ===== verification/DuplexServer.v ===== *)
(** The server side of a duplex turn ([vllm_omni/entrypoints/lgws/server.py]):
    [queue_generator], which reads a session's result queue and announces the
    end of the response, and [process_stream_output], which sends what it yields
    over the websocket. The two run as one loop: the second asks the first for
    the next result when it has sent the previous one. *)
From stdpp Require Import gmap strings list.
From Stdlib Require Import ZArith Lia Ascii.
From S2P Require Import Prelude DuplexStream.
Open Scope nat_scope.

(** What is read from the result queue: None ends the stream; an interrupt is a
    control message; a result may carry no request output. *)
Inductive RawResult := RawNone | RawInterrupt | RawNoOutput | RawItem (i : StreamItem).

Inductive ClientMsg :=
| MText (content : string)
| MBytes (audio : list Z)
| MEndOfResponse.

(** The locals of both coroutines. *)
Record Sender := mkSender {
  stage_0_finish : bool;
  stage_2_recv_count : Z;
  total_expected : Z;
  previous_text : string
}.
Definition new_sender : Sender := mkSender false 0 (-1) "".

(** [current_text[n:]] *)
Fixpoint str_drop (n : nat) (s : string) : string :=
  match n, s with
  | S n', String _ s' => str_drop n' s'
  | _, _ => s
  end.

(** The counters [queue_generator] keeps. *)
Definition count_item (i : StreamItem) (st : Sender) : Sender :=
  let st := if (it_stage_id i =? 0)%Z && it_finished i
            then mkSender true (stage_2_recv_count st) (total_expected st) (previous_text st)
            else st in
  if (it_stage_id i =? 2)%Z
  then mkSender (stage_0_finish st) (stage_2_recv_count st + 1) (it_total_vocoder_expected i)
         (previous_text st)
  else st.

(** [await websocket.send_json({"type": "end_of_response"})] *)
Definition announce_end (st : Sender) : list ClientMsg :=
  if negb (total_expected st =? -1)%Z && (stage_2_recv_count st =? total_expected st)%Z
  then [MEndOfResponse] else [].

(** [process_stream_output] on one yielded result. *)
Definition send_text (i : StreamItem) (st : Sender) : list ClientMsg * Sender :=
  match it_text i with
  | Some current_text =>
      if String.length (previous_text st) <? String.length current_text
      then ([MText (str_drop (String.length (previous_text st)) current_text)],
            mkSender (stage_0_finish st) (stage_2_recv_count st) (total_expected st) current_text)
      else ([], st)
  | None => ([], st)
  end.
(** The audio is looked at only when the result has outputs, and sent only when
    it is not empty. *)
Definition send_audio (i : StreamItem) : list ClientMsg :=
  match it_text i, it_audio_byte i with
  | Some _, Some (b :: bs) => [MBytes (b :: bs)]
  | _, _ => []
  end.

Definition server_item (i : StreamItem) (st : Sender) : list ClientMsg * Sender :=
  let st := count_item i st in
  let ending := announce_end st in
  if (it_stage_id i =? 1)%Z then (ending, st)
  else let (text, st) := send_text i st in (ending ++ text ++ send_audio i, st).

(** [is_really_finished], the flag the generator puts on what it yields. *)
Definition is_really_finished (st : Sender) : bool :=
  stage_0_finish st && (0 <? total_expected st)%Z && (total_expected st <=? stage_2_recv_count st)%Z.

(** The loop. An interrupt is yielded without a request output, on which
    [process_stream_output] fails and stops. *)
Fixpoint server_run (raw : list RawResult) (st : Sender) : list ClientMsg * Sender :=
  match raw with
  | [] => ([], st)
  | RawNone :: _ | RawInterrupt :: _ => ([], st)
  | RawNoOutput :: raw' => server_run raw' st
  | RawItem i :: raw' =>
      let (msgs, st) := server_item i st in
      let (rest, st) := server_run raw' st in
      (msgs ++ rest, st)
  end.

(** ** What the client receives *)

Definition sent_audio (msgs : list ClientMsg) : list Z :=
  mjoin ((fun m => match m with MBytes b => b | _ => [] end) <$> msgs).
Definition sent_text (msgs : list ClientMsg) : string :=
  String.concat "" ((fun m => match m with MText s => s | _ => "" end) <$> msgs).
Definition ends (msgs : list ClientMsg) : nat :=
  length (List.filter (fun m => match m with MEndOfResponse => true | _ => false end) msgs).

Lemma mjoin_cons {A} (x : list A) l : mjoin (x :: l) = x ++ mjoin l.
Proof. done. Qed.
Lemma sent_audio_app a b : sent_audio (a ++ b) = sent_audio a ++ sent_audio b.
Proof. unfold sent_audio. by rewrite fmap_app, join_app. Qed.
Lemma ends_app a b : ends (a ++ b) = ends a + ends b.
Proof. unfold ends. by rewrite List.filter_app, length_app. Qed.

(** The audio of an item as the server sees it. *)
Definition item_audio (i : StreamItem) : list Z :=
  match it_text i, it_audio_byte i with Some _, Some b => b | _, _ => [] end.

Lemma send_text_spec i st msgs st' :
  send_text i st = (msgs, st') ->
  sent_audio msgs = [] /\ ends msgs = 0 /\
  stage_2_recv_count st' = stage_2_recv_count st /\ total_expected st' = total_expected st.
Proof.
  unfold send_text. destruct (it_text i); [|by intros [= <- <-]].
  destruct (_ <? _); by intros [= <- <-].
Qed.

Lemma send_audio_spec i : sent_audio (send_audio i) = item_audio i /\ ends (send_audio i) = 0.
Proof.
  unfold send_audio, item_audio. destruct (it_text i), (it_audio_byte i) as [[|b bs]|]; try done.
  split; [|done]. unfold sent_audio. cbn. by rewrite app_nil_r.
Qed.

(** One item of stage 0 or 2: the counters, its audio, and whether it ends the
    response. *)
Lemma server_item_spec i st msgs st' :
  it_stage_id i <> 1%Z -> server_item i st = (msgs, st') ->
  let st1 := count_item i st in
  stage_2_recv_count st' = stage_2_recv_count st1 /\ total_expected st' = total_expected st1 /\
  exists rest, msgs = announce_end st1 ++ rest /\ ends rest = 0 /\ sent_audio rest = item_audio i.
Proof.
  intros H1 E. cbv zeta. unfold server_item in E. rewrite (proj2 (Z.eqb_neq _ _)) in E by done.
  destruct (send_text i (count_item i st)) as [text st1] eqn:Et. injection E as <- <-.
  destruct (send_text_spec _ _ _ _ Et) as (Ha & He & ? & ?).
  destruct (send_audio_spec i) as [Ha' He']. split_and!; [done..|].
  exists (text ++ send_audio i). split_and!; [done|by rewrite ends_app, He, He'|].
  by rewrite sent_audio_app, Ha, Ha'.
Qed.

(** The items of a turn that is still being spoken: text, and fewer than [n]
    audio chunks, announcing nothing or the total [n]. *)
Definition unfinished (n : Z) (i : StreamItem) : bool :=
  (it_stage_id i =? 0)%Z ||
  (it_stage_id i =? 2)%Z && ((it_total_vocoder_expected i =? -1) || (it_total_vocoder_expected i =? n))%Z.
Definition audio_items (items : list StreamItem) : list StreamItem :=
  List.filter (fun i => it_stage_id i =? 2)%Z items.

Lemma count_item_recv i st :
  stage_2_recv_count (count_item i st) =
  (stage_2_recv_count st + if it_stage_id i =? 2 then 1 else 0)%Z.
Proof.
  unfold count_item. destruct (_ && _), (it_stage_id i =? 2)%Z; simpl; lia.
Qed.

Lemma count_item_total i st :
  total_expected (count_item i st) =
  if (it_stage_id i =? 2)%Z then it_total_vocoder_expected i else total_expected st.
Proof. unfold count_item. by destruct (_ && _), (it_stage_id i =? 2)%Z. Qed.

Lemma announce_early n st :
  (total_expected st = -1 \/ total_expected st = n)%Z -> (stage_2_recv_count st < n)%Z ->
  announce_end st = [].
Proof.
  intros [Ht|Ht] Hn; unfold announce_end; rewrite Ht; [done|].
  by rewrite (proj2 (Z.eqb_neq (stage_2_recv_count st) n)), andb_false_r by lia.
Qed.

Lemma unfinished_spec n i :
  unfinished n i = true ->
  it_stage_id i <> 1%Z /\
  (it_stage_id i = 2 -> it_total_vocoder_expected i = -1 \/ it_total_vocoder_expected i = n)%Z.
Proof.
  unfold unfinished. intros [H%Z.eqb_eq|[H1%Z.eqb_eq H2]%andb_true_iff]%orb_true_iff; [lia|].
  split; [lia|]. intros _. by apply orb_true_iff in H2 as [?%Z.eqb_eq|?%Z.eqb_eq]; [left|right].
Qed.

Lemma audio_items_cons i items :
  Z.of_nat (length (audio_items (i :: items))) =
  ((if it_stage_id i =? 2 then 1 else 0) + Z.of_nat (length (audio_items items)))%Z.
Proof. unfold audio_items. simpl. destruct (it_stage_id i =? 2)%Z; simpl; lia. Qed.

Lemma server_run_cons i items st :
  server_run (RawItem <$> i :: items) st =
  let (m1, st1) := server_item i st in
  let (m2, st2) := server_run (RawItem <$> items) st1 in (m1 ++ m2, st2).
Proof. done. Qed.

Lemma server_unfinished n items st msgs st' :
  forallb (unfinished n) items = true ->
  (0 <= stage_2_recv_count st)%Z ->
  (stage_2_recv_count st + Z.of_nat (length (audio_items items)) < n)%Z ->
  (total_expected st = -1 \/ total_expected st = n)%Z ->
  server_run (RawItem <$> items) st = (msgs, st') ->
  ends msgs = 0 /\ sent_audio msgs = mjoin (item_audio <$> items) /\
  stage_2_recv_count st' = (stage_2_recv_count st + Z.of_nat (length (audio_items items)))%Z.
Proof.
  revert st msgs st'. induction items as [|i items IH]; intros st msgs st' Hu H0 Hn Ht E.
  - injection E as <- <-. split_and!; [done|done|]. unfold audio_items; simpl. lia.
  - cbn [forallb] in Hu. apply andb_true_iff in Hu as [Hi Hu]. rewrite server_run_cons in E.
    destruct (server_item i st) as [m1 st1] eqn:E1.
    destruct (server_run (RawItem <$> items) st1) as [m2 st2] eqn:E2. injection E as <- <-.
    destruct (unfinished_spec n i Hi) as [H1 H2].
    destruct (server_item_spec i st m1 st1 H1 E1) as (Hr & Htot & rest & -> & He & Ha).
    rewrite audio_items_cons in *.
    assert (total_expected st1 = -1 \/ total_expected st1 = n)%Z as Ht1.
    { rewrite Htot, count_item_total. destruct (Z.eqb_spec (it_stage_id i) 2); auto. }
    assert (stage_2_recv_count st1 = stage_2_recv_count st + if it_stage_id i =? 2 then 1 else 0)%Z
      as Hr1 by (by rewrite Hr, count_item_recv).
    assert (0 <= if it_stage_id i =? 2 then 1 else 0)%Z by (destruct (_ =? _)%Z; lia).
    rewrite (announce_early n) by (rewrite <- ?Hr, <- ?Htot; lia || done).
    destruct (IH st1 m2 st2 Hu ltac:(lia) ltac:(lia) Ht1 E2) as (He2 & Ha2 & Hr2).
    cbn [app]. change (item_audio <$> i :: items) with (item_audio i :: (item_audio <$> items)).
    cbn [mjoin list_join]. rewrite ends_app, sent_audio_app, He, He2, Ha, Ha2.
    split_and!; [done|done|]. lia.
Qed.

Lemma server_run_app a b st :
  server_run (RawItem <$> a ++ b) st =
  let (m1, st1) := server_run (RawItem <$> a) st in
  let (m2, st2) := server_run (RawItem <$> b) st1 in (m1 ++ m2, st2).
Proof.
  revert st. induction a as [|i a IH]; intros st.
  - simpl. by destruct (server_run _ st).
  - change ((i :: a) ++ b) with (i :: (a ++ b)). rewrite !server_run_cons.
    destruct (server_item i st) as [m0 st0]. rewrite IH.
    destruct (server_run (RawItem <$> a) st0) as [m1 st1].
    destruct (server_run (RawItem <$> b) st1) as [m2 st2]. by rewrite app_assoc.
Qed.

Lemma audio_items_app a b : audio_items (a ++ b) = audio_items a ++ audio_items b.
Proof. apply List.filter_app. Qed.

(** A complete response: the last item is the audio chunk that makes the count. *)
Lemma server_complete n pre i :
  forallb (unfinished n) pre = true -> Z.of_nat (length (audio_items pre)) = (n - 1)%Z -> (0 < n)%Z ->
  it_stage_id i = 2%Z -> it_total_vocoder_expected i = n ->
  exists m1 m2 st, server_run (RawItem <$> pre ++ [i]) new_sender = (m1 ++ MEndOfResponse :: m2, st) /\
    ends m1 = 0 /\ ends m2 = 0 /\
    sent_audio m1 = mjoin (item_audio <$> pre) /\ sent_audio m2 = item_audio i.
Proof.
  intros Hu Hc Hn Hi He. rewrite server_run_app.
  destruct (server_run (RawItem <$> pre) new_sender) as [m1 st1] eqn:E1.
  destruct (server_unfinished n pre new_sender m1 st1) as (He1 & Ha1 & Hr1);
    [done|simpl; lia..|done|]. simpl in Hr1.
  rewrite (server_run_cons i []). simpl.
  destruct (server_item i st1) as [m2 st2] eqn:E2.
  destruct (server_item_spec i st1 m2 st2) as (_ & _ & rest & -> & He2 & Ha2); [lia|done|].
  exists m1, rest, st2. unfold announce_end. rewrite count_item_total, count_item_recv, Hi, He; simpl.
  rewrite (proj2 (Z.eqb_neq n (-1))), (proj2 (Z.eqb_eq _ n)) by lia. simpl.
  rewrite app_nil_r. done.
Qed.

(** What a turn's items look like to the server: its audio outputs in order,
    with text results of stage 0 between them. *)
Definition text_item (i : StreamItem) : bool :=
  (it_stage_id i =? 0)%Z && match it_audio_byte i with None => true | Some _ => false end.
Definition from_turn {Row} (t : Turn (Row:=Row)) (items : list StreamItem) : Prop :=
  audio_items items = final_output_q t /\
  forallb (fun i => text_item i || (it_stage_id i =? 2)%Z) items = true.

Lemma items_unfinished n items :
  forallb (fun i => text_item i || (it_stage_id i =? 2)%Z) items = true ->
  forallb (fun i => (it_total_vocoder_expected i =? -1) || (it_total_vocoder_expected i =? n))%Z
    (audio_items items) = true ->
  forallb (unfinished n) items = true.
Proof.
  induction items as [|i items IH]; [done|]. cbn [forallb]. rewrite !andb_true_iff.
  intros [Hi Hrest] Ha. unfold audio_items, unfinished in *. cbn [List.filter] in Ha.
  destruct (it_stage_id i =? 2)%Z eqn:E2.
  - cbn [forallb] in Ha. apply andb_true_iff in Ha as [Ha1 Ha2].
    rewrite Ha1. split; [by rewrite orb_true_r|auto].
  - rewrite orb_false_r in Hi. unfold text_item in Hi. apply andb_true_iff in Hi as [-> _].
    split; [done|auto].
Qed.

Lemma items_audio items :
  forallb (fun i => text_item i || (it_stage_id i =? 2)%Z) items = true ->
  forallb (fun i => match it_text i with Some _ => true | None => false end) (audio_items items) = true ->
  mjoin (item_audio <$> items) = mjoin (omap it_audio_byte (audio_items items)).
Proof.
  induction items as [|i items IH]; [done|]. cbn [forallb]. rewrite andb_true_iff.
  intros [Hi Hrest] Ha. unfold audio_items in *. cbn [List.filter] in *. rewrite fmap_cons.
  destruct (it_stage_id i =? 2)%Z eqn:E2.
  - cbn [forallb] in Ha. apply andb_true_iff in Ha as [Ha1 Ha2].
    rewrite mjoin_cons. rewrite IH by done. unfold item_audio.
    destruct (it_text i); [|done]. simpl. by destruct (it_audio_byte i).
  - rewrite orb_false_r in Hi. unfold text_item in Hi. apply andb_true_iff in Hi as [_ Hi].
    rewrite mjoin_cons. rewrite IH by done. unfold item_audio.
    destruct (it_audio_byte i); [done|]. by destruct (it_text i).
Qed.

Section responses.
Context {Row Sample : Type}.
Context (zero_row : Row) (fade_at : nat -> nat -> Sample -> Sample) (quantise : Sample -> Z).
Context (code2wav : list Row -> list Sample).
Context (turn_id : string) (lower_id : has_char "F"%char turn_id = false).

(** C36. The client is told the end of the response once, and hears all of it:
    for every complete turn, and however its text results fall between the
    audio chunks, the messages sent carry the turn's audio bytes unchanged and
    in order and exactly one end-of-response message. That message is sent when
    the last chunk is taken from the queue, before the bytes of that chunk. *)
Theorem response_ends_once evs rs stop k id keys q1 pre i :
  routes_ok turn_id keys ->
  stage1_results evs = rs ++ [stop] -> forallb speaking rs = true -> stopping stop = true ->
  s1_request_id stop = stg1_req_id turn_id id ->
  all_rows (rs ++ [stop]) <> [] -> length (all_rows rs) < k ->
  exists t,
    run_turn zero_row fade_at quantise code2wav turn_id (evs ++ replicate k Stage2Done)
      (new_turn keys q1) = Ret tt t /\
    (from_turn t (pre ++ [i]) -> it_stage_id i = 2%Z ->
     exists m1 m2 st,
       server_run (RawItem <$> pre ++ [i]) new_sender = (m1 ++ MEndOfResponse :: m2, st) /\
       ends m1 = 0 /\ ends m2 = 0 /\
       sent_audio m1 ++ sent_audio m2 = mjoin (omap it_audio_byte (final_output_q t)) /\
       Some (sent_audio m2) = last (final_output_q t) ≫= it_audio_byte).
Proof.
  intros Hk E Hrs Hstop Hid Hne Hlen.
  destruct (turn_run zero_row fade_at quantise code2wav turn_id lower_id evs rs stop k id keys q1)
    as (t & m0 & R & Hf); [done..|].
  exists t. split; [exact R|]. intros [Ha Hitems] Hi.
  set (n := chunks_sent (length (all_rows rs))) in *.
  destruct Hf as (H0 & _ & ks & q1' & ->). cbn [final_output_q] in Ha |- *.
  rewrite decide_False in Ha |- * by lia. replace ((n + 1) `min` n) with n in * by lia.
  rewrite app_assoc in Ha |- *. rewrite audio_items_app in Ha. unfold audio_items at 2 in Ha.
  simpl in Ha. rewrite Hi in Ha. apply app_inj_tail in Ha as [Hpre ->].
  rewrite forallb_app in Hitems. apply andb_true_iff in Hitems as [Hpi _].
  destruct (server_complete (Z.of_nat (n + 1)) pre (final_item zero_row fade_at quantise code2wav turn_id
              (all_rows (rs ++ [stop])) n)) as (m1 & m2 & st & Erun & He1 & He2 & Ha1 & Ha2).
  - apply items_unfinished; [done|]. rewrite Hpre, forallb_app. apply andb_true_iff.
    split; apply forallb_forall; intros x Hx%list_elem_of_In;
      apply list_elem_of_fmap in Hx as (j & -> & _); cbn; [done|]. by rewrite Z.eqb_refl, orb_true_r.
  - rewrite Hpre, length_app, !length_fmap, !length_seq. lia.
  - lia.
  - done.
  - done.
  - exists m1, m2, st. split; [exact Erun|]. split; [done|]. split; [done|].
    rewrite last_snoc, Ha2. split; [|done].
    rewrite Ha1, items_audio, Hpre, (omap_app _ (_ ++ _)), join_app; [|done|].
    + cbn. by rewrite app_nil_r.
    + rewrite Hpre. apply forallb_forall. intros x Hx%list_elem_of_In.
      by apply elem_of_app in Hx as [(j & -> & _)%list_elem_of_fmap|(j & -> & _)%list_elem_of_fmap].
Qed.
End responses.

(** A complete turn with a vocoder of one sample a row, and a text result that
    arrives before its last chunk. *)
Definition demo_done : Turn :=
  match run_turn 0 demo_fade Z.of_nat id demo_turn_id (demo_evs ++ replicate 8 Stage2Done)
          (new_turn demo_keys []) with
  | Ret _ t | Raise _ t => t
  end.
Definition demo_text (finished : bool) (s : string) : StreamItem := mkItem 0 finished (Some s) None (-1).
Definition demo_pre : list StreamItem :=
  demo_text false "Hel" :: removelast (final_output_q demo_done) ++ [demo_text true "Hello"].
Definition demo_last : StreamItem := default (demo_text true "") (last (final_output_q demo_done)).

Lemma response_ends_once_witness :
  exists t,
    run_turn 0 demo_fade Z.of_nat id demo_turn_id (demo_evs ++ replicate 8 Stage2Done)
      (new_turn demo_keys []) = Ret tt t /\
    exists m1 m2 st,
      server_run (RawItem <$> demo_pre ++ [demo_last]) new_sender = (m1 ++ MEndOfResponse :: m2, st) /\
      ends m1 = 0 /\ ends m2 = 0 /\
      sent_audio m1 ++ sent_audio m2 = mjoin (omap it_audio_byte (final_output_q t)) /\
      Some (sent_audio m2) = last (final_output_q t) ≫= it_audio_byte.
Proof.
  destruct (response_ends_once 0 demo_fade Z.of_nat id demo_turn_id eq_refl demo_evs demo_rs
              (demo_stop (Some [99])) 8 7 demo_keys [] demo_pre demo_last) as (t & E & H).
  - exact demo_routes.
  - reflexivity.
  - reflexivity.
  - reflexivity.
  - reflexivity.
  - discriminate.
  - vm_compute. lia.
  - exists t. split; [exact E|]. apply H; [|vm_compute; reflexivity].
    replace t with demo_done by (unfold demo_done; rewrite E; reflexivity).
    split; vm_compute; reflexivity.
Defined.

(** ** The text *)

Lemma str_drop_prefix p s : String.prefix p s = true -> p +:+ str_drop (String.length p) s = s.
Proof.
  revert s. induction p as [|c p IH]; intros s; [done|].
  destruct s as [|d s]; [done|]. intros [<- H]%prefix_cons.
  change (String c (p +:+ str_drop (String.length p) s) = String c s). by rewrite IH.
Qed.

Lemma sent_text_app a b : sent_text (a ++ b) = sent_text a +:+ sent_text b.
Proof.
  unfold sent_text. rewrite fmap_app.
  generalize ((fun m => match m with MText s => s | _ => "" end) <$> a) as l.
  generalize ((fun m => match m with MText s => s | _ => "" end) <$> b) as l'.
  intros l' l. assert (forall x l, String.concat "" (x :: l) = x +:+ String.concat "" l) as Hc.
  { intros x [|y l0]; [|done]. simpl. induction x as [|c x IH]; [done|].
    change (String c x = String c (x +:+ "")). by rewrite <- IH. }
  induction l as [|x l IH]; [done|]. change ((x :: l) ++ l') with (x :: (l ++ l')).
  by rewrite !Hc, IH, string_app_assoc.
Qed.

(** Results carry the whole text so far: a longer text extends the shorter. *)
Fixpoint growing (prev : string) (items : list StreamItem) : bool :=
  match items with
  | [] => true
  | i :: items' =>
      match it_text i with
      | Some s =>
          if String.length prev <? String.length s
          then String.prefix prev s && growing s items'
          else growing prev items'
      | None => growing prev items'
      end
  end.
(** The longest text, which is the last one to have grown. *)
Fixpoint final_text (prev : string) (items : list StreamItem) : string :=
  match items with
  | [] => prev
  | i :: items' =>
      final_text (match it_text i with
                  | Some s => if String.length prev <? String.length s then s else prev
                  | None => prev
                  end) items'
  end.

Lemma server_item_text i st msgs st' :
  it_stage_id i <> 1%Z -> server_item i st = (msgs, st') -> growing (previous_text st) [i] = true ->
  previous_text st' = final_text (previous_text st) [i] /\
  previous_text st +:+ sent_text msgs = previous_text st'.
Proof.
  intros H1 E Hg. unfold server_item in E. rewrite (proj2 (Z.eqb_neq _ _)) in E by done.
  assert (previous_text (count_item i st) = previous_text st) as Hp
    by (unfold count_item; by destruct (_ && _), (_ =? _)%Z).
  assert (sent_text (announce_end (count_item i st)) = "") as He
    by (unfold announce_end; by destruct (_ && _)).
  assert (sent_text (send_audio i) = "") as Ha.
  { unfold send_audio. by destruct (it_text i), (it_audio_byte i) as [[|]|]. }
  assert (forall s, s +:+ "" = s) as Hnil.
  { intros s. induction s as [|c s IH]; [done|].
    change (String c (s +:+ "") = String c s). by rewrite IH. }
  unfold send_text in E. rewrite Hp in E. simpl in Hg |- *. destruct (it_text i) as [s|].
  - destruct (_ <? _) eqn:Hlt; injection E as <- <-; rewrite sent_text_app, He.
    + rewrite andb_true_r in Hg. split; [done|].
      pose proof (sent_text_app [MText (str_drop (String.length (previous_text st)) s)]
                    (send_audio i)) as Hx. cbn [app] in Hx.
      rewrite Hx, Ha, Hnil. by apply str_drop_prefix.
    + by rewrite Ha, Hp, Hnil.
  - injection E as <- <-. by rewrite sent_text_app, He, Ha, Hp, Hnil.
Qed.

(** The text arrives whole: for results that carry the text so far, the
    pieces sent to the client concatenate to the final text, whatever audio
    results (with a shorter text) come between them. *)
Theorem text_stream_reassembles (items : list StreamItem) (msgs : list ClientMsg) (st : Sender) :
  forallb (fun i => negb (it_stage_id i =? 1)%Z) items = true ->
  growing "" items = true ->
  server_run (RawItem <$> items) new_sender = (msgs, st) ->
  sent_text msgs = final_text "" items.
Proof.
  assert (forall items st0 msgs st,
    forallb (fun i => negb (it_stage_id i =? 1)%Z) items = true ->
    growing (previous_text st0) items = true ->
    server_run (RawItem <$> items) st0 = (msgs, st) ->
    previous_text st0 +:+ sent_text msgs = final_text (previous_text st0) items) as Hgen.
  - clear. induction items as [|i items IH]; intros st0 msgs st Hs Hg E.
    + injection E as <- <-. unfold sent_text. simpl. clear.
      induction (previous_text st0) as [|c s IHs]; [done|].
      change (String c (s +:+ "") = String c s). by rewrite IHs.
    + cbn [forallb] in Hs. apply andb_true_iff in Hs as [H1%negb_true_iff%Z.eqb_neq Hs].
      rewrite server_run_cons in E. destruct (server_item i st0) as [m1 st1] eqn:E1.
      destruct (server_run (RawItem <$> items) st1) as [m2 st2] eqn:E2. injection E as <- <-.
      assert (growing (previous_text st0) [i] = true /\
              growing (final_text (previous_text st0) [i]) items = true) as [Hg1 Hg2].
      { simpl in Hg |- *. destruct (it_text i) as [s|]; [|done].
        destruct (_ <? _); [|done]. apply andb_true_iff in Hg as [-> Hg]. done. }
      destruct (server_item_text i st0 m1 st1 H1 E1 Hg1) as [Hp Ht].
      rewrite sent_text_app, <- string_app_assoc, Ht. rewrite Hp.
      rewrite <- Hp in Hg2 |- *. rewrite (IH st1 m2 st2 Hs Hg2 E2), Hp. done.
  - intros Hs Hg E. exact (Hgen items new_sender msgs st Hs Hg E).
Qed.

Lemma text_stream_reassembles_witness :
  sent_text (server_run (RawItem <$> demo_pre ++ [demo_last]) new_sender).1 = "Hello".
Proof.
  exact (text_stream_reassembles (demo_pre ++ [demo_last])
           (server_run (RawItem <$> demo_pre ++ [demo_last]) new_sender).1
           (server_run (RawItem <$> demo_pre ++ [demo_last]) new_sender).2
           ltac:(vm_compute; reflexivity) ltac:(vm_compute; reflexivity)
           (surjective_pairing _)).
Defined.
