(* ===== verification/DuplexSession.v ===== *)
(** Sessions of the duplex engine ([DuplexOmni] of
    [vllm_omni/entrypoints/lgws/duplex_engine.py]): starting and stopping a
    session, barge-in, the packets a client sends ([put_incremental_input]) and
    the worker that assembles them into utterances ([_audio_worker]).

    An [asyncio.Task] is a number; a bytes object is a list of byte values. Each
    method runs without yielding between the statements modelled together. *)
From stdpp Require Import gmap strings list pretty.
From Stdlib Require Import ZArith Lia.
From S2P Require Import Prelude DuplexStream DuplexServer.
Open Scope Z_scope.

(** What is put on a session's input queue: a numbered PCM packet, or the
    end-of-utterance marker. *)
Inductive Packet := PcmPacket (seq : Z) (pcm : list Z) | EosMarker.

(** What a complete utterance starts a turn with. *)
Record Utterance := mkUtterance {
  u_turn_id : string;
  u_samples : list Z; (** 16-bit samples, before the division by 32768 *)
  u_ai_mode : string
}.

Record Duplex := mkDuplex {
  input_queues : gmap string (list Packet);
  result_queues : gmap string (list RawResult);
  session_workers : gmap string nat;
  active_generation_tasks : gmap string (gset nat);
  eou_states : gmap string Z;
  req_start_times : gmap string Z;
  request_keys : gset string; (** keys of [request_states] *)
  ai_mode : string;
  audio_buffers : gmap string (list Z); (** [audio_buffer] of each session's worker *)
  cancelled : gset nat; (** tasks that were cancelled *)
  next_task : nat
}.

Definition engine_init : Duplex := mkDuplex ∅ ∅ ∅ ∅ ∅ ∅ ∅ "G" ∅ ∅ 0.

(** ** Packets *)

(** [int.from_bytes(b, byteorder="little", signed=False)] *)
Fixpoint from_bytes_little (b : list Z) : Z :=
  match b with [] => 0 | x :: b' => x + 256 * from_bytes_little b' end.

(** [np.frombuffer(b, dtype=np.int16)]: ValueError on an odd length. *)
Definition int16_of (lo hi : Z) : Z :=
  let u := lo + 256 * hi in if u <? 32768 then u else u - 65536.
Fixpoint frombuffer_int16 (b : list Z) : option (list Z) :=
  match b with
  | [] => Some []
  | [_] => None
  | lo :: hi :: b' => (cons (int16_of lo hi)) <$> frombuffer_int16 b'
  end.

Definition push_input (sid : string) (p : Packet) : py Duplex unit := py_modify (fun d =>
  mkDuplex (alter (fun q => q ++ [p]) sid (input_queues d)) (result_queues d) (session_workers d)
    (active_generation_tasks d) (eou_states d) (req_start_times d) (request_keys d) (ai_mode d)
    (audio_buffers d) (cancelled d) (next_task d)).
Definition set_ai_mode (m : string) : py Duplex unit := py_modify (fun d =>
  mkDuplex (input_queues d) (result_queues d) (session_workers d)
    (active_generation_tasks d) (eou_states d) (req_start_times d) (request_keys d) m
    (audio_buffers d) (cancelled d) (next_task d)).

Definition put_incremental_input (sid : string) (audio_bytes : option (list Z))
    (mode : option string) : py Duplex unit :=
  let! d := py_get in
  if decide (input_queues d !! sid = None) then py_ret tt else
  do! (match mode with Some m => set_ai_mode m | None => py_ret tt end);
  match audio_bytes with
  | None => push_input sid EosMarker
  | Some b =>
      if (length b <? 4)%nat then py_ret tt else
      let seq := from_bytes_little (take 4 b) in
      let pcm := drop 4 b in
      if Nat.odd (length pcm) then py_ret tt else
      push_input sid (PcmPacket seq pcm)
  end.

(** The server's handling of the websocket messages that reach the engine: audio
    packets use the default mode. *)
Definition receive_audio (sid : string) (b : list Z) : py Duplex unit :=
  put_incremental_input sid (Some b) (Some "G").
Definition receive_end_of_utterance (sid : string) (last_seq : Z) (mode : option string)
    : py Duplex unit :=
  do! py_modify (fun d =>
    mkDuplex (input_queues d) (result_queues d) (session_workers d)
      (active_generation_tasks d) (<[sid := last_seq]> (eou_states d)) (req_start_times d)
      (request_keys d) (ai_mode d) (audio_buffers d) (cancelled d) (next_task d));
  put_incremental_input sid None mode.

(** ** Life of a session *)

Definition start_duplex_session (sid : string) : py Duplex unit := py_modify (fun d =>
  mkDuplex
    (match input_queues d !! sid with None => <[sid := []]> (input_queues d) | Some _ => input_queues d end)
    (match result_queues d !! sid with None => <[sid := []]> (result_queues d) | Some _ => result_queues d end)
    (<[sid := next_task d]> (session_workers d))
    (active_generation_tasks d) (eou_states d) (req_start_times d) (request_keys d) (ai_mode d)
    (<[sid := []]> (audio_buffers d)) (cancelled d) (S (next_task d))).

(** One round of [_audio_worker]: a packet is taken from the session's queue
    (None when it has to wait). A turn that starts registers its task and, when
    the task runs, its id; the time stands for [int(time.time())]. *)
Definition audio_worker (sid : string) (time : nat) : py Duplex (option Utterance) :=
  let! d := py_get in
  match input_queues d !! sid with
  | None | Some [] => py_ret None
  | Some (p :: q) =>
      let buffer := default [] (audio_buffers d !! sid) in
      let set q buf := py_modify (fun d =>
        mkDuplex (<[sid := q]> (input_queues d)) (result_queues d) (session_workers d)
          (active_generation_tasks d) (eou_states d) (req_start_times d) (request_keys d) (ai_mode d)
          (<[sid := buf]> (audio_buffers d)) (cancelled d) (next_task d)) in
      match p with
      | PcmPacket _ pcm => do! set q (buffer ++ pcm); py_ret None
      | EosMarker =>
          match buffer with
          | [] => do! set q []; py_ret None
          | _ =>
              do! set q buffer;
              let! samples := py_unwrap ValueError (frombuffer_int16 buffer) in
              let turn_id := sid +:+ "_" +:+ pretty time in
              do! py_modify (fun d =>
                mkDuplex (input_queues d) (result_queues d) (session_workers d)
                  (<[sid := {[next_task d]} ∪ default ∅ (active_generation_tasks d !! sid)]>
                     (active_generation_tasks d))
                  (eou_states d) (req_start_times d) ({[turn_id]} ∪ request_keys d) (ai_mode d)
                  (<[sid := []]> (audio_buffers d)) (cancelled d) (S (next_task d)));
              py_ret (Some (mkUtterance turn_id samples (ai_mode d)))
          end
      end
  end.

Definition cleanup_for_barge_in (sid : string) : py Duplex unit := py_modify (fun d =>
  mkDuplex (input_queues d)
    (alter (fun _ => []) sid (result_queues d))
    (session_workers d) (delete sid (active_generation_tasks d)) (delete sid (eou_states d))
    (req_start_times d) (filter (fun k => String.prefix sid k = false) (request_keys d)) (ai_mode d)
    (audio_buffers d) (default ∅ (active_generation_tasks d !! sid) ∪ cancelled d) (next_task d)).

(** The worker is cancelled and its [finally] block runs before the queues go.
    The result is the result queue handed to whoever still reads it, with the
    end mark in it. *)
Definition stop_session (sid : string) : py Duplex (option (list RawResult)) :=
  do! cleanup_for_barge_in sid;
  let! d := py_get in
  do! py_modify (fun d =>
    mkDuplex (delete sid (input_queues d)) (delete sid (result_queues d))
      (delete sid (session_workers d))
      (match session_workers d !! sid with
       | Some _ => delete sid (active_generation_tasks d)
       | None => active_generation_tasks d
       end)
      (delete sid (eou_states d))
      (filter (fun kv => String.prefix sid kv.1 = false) (req_start_times d))
      (request_keys d) (ai_mode d)
      (match session_workers d !! sid with
       | Some _ => delete sid (audio_buffers d)
       | None => audio_buffers d
       end)
      (match session_workers d !! sid with
       | Some w => {[w]} ∪ cancelled d
       | None => cancelled d
       end)
      (next_task d));
  py_ret ((fun q => q ++ [RawNone]) <$> result_queues d !! sid).

(** ** Stopping a session *)

Lemma prefix_same_length s1 s2 x :
  String.length s1 = String.length s2 -> String.prefix s1 (s2 +:+ x) = true -> s1 = s2.
Proof.
  revert s2. induction s1 as [|c s1 IH]; intros [|d s2] Hl; try done.
  change (String d s2 +:+ x) with (String d (s2 +:+ x)).
  intros [<- Hp]%prefix_cons. f_equal. apply IH; [|done]. simpl in Hl. lia.
Qed.

(** Stopping a session leaves nothing of it behind and disturbs no other:
    it never raises; the session has no queue, worker, generation task or
    end-of-utterance state left, no registered request and no start time under
    its id; its tasks and its worker are cancelled and a reader of its result
    queue gets the end mark; and every other session keeps its queues, worker,
    tasks and states, its registered requests included as long as its id has
    the same length (ids are a fixed prefix and a UUID). *)
Theorem stop_session_clears_and_isolates (sid : string) (d : Duplex) :
  exists r d', stop_session sid d = Ret r d' /\
    (input_queues d' !! sid = None /\ result_queues d' !! sid = None /\
     session_workers d' !! sid = None /\ active_generation_tasks d' !! sid = None /\
     eou_states d' !! sid = None) /\
    (forall k, k ∈ request_keys d' -> String.prefix sid k = false) /\
    (forall k, is_Some (req_start_times d' !! k) -> String.prefix sid k = false) /\
    default ∅ (active_generation_tasks d !! sid) ⊆ cancelled d' /\
    (forall w, session_workers d !! sid = Some w -> w ∈ cancelled d') /\
    r = (fun _ => [RawNone]) <$> result_queues d !! sid /\
    (forall s, s <> sid ->
       input_queues d' !! s = input_queues d !! s /\
       result_queues d' !! s = result_queues d !! s /\
       session_workers d' !! s = session_workers d !! s /\
       active_generation_tasks d' !! s = active_generation_tasks d !! s /\
       eou_states d' !! s = eou_states d !! s /\
       (String.length s = String.length sid -> forall x,
          (s +:+ x ∈ request_keys d' <-> s +:+ x ∈ request_keys d) /\
          req_start_times d' !! (s +:+ x) = req_start_times d !! (s +:+ x))).
Proof.
  eexists _, _. split; [reflexivity|]. cbn.
  split; [|split; [|split; [|split; [|split; [|split]]]]].
  - rewrite !lookup_delete_eq. destruct (session_workers d !! sid); by rewrite ?lookup_delete_eq.
  - intros k [? _]%elem_of_filter. done.
  - intros k [x [_ Hx]%map_lookup_filter_Some]. done.
  - destruct (session_workers d !! sid); set_solver.
  - intros w ->. set_solver.
  - rewrite lookup_alter_eq. by destruct (result_queues d !! sid).
  - intros s Hs. rewrite !lookup_delete_ne by done. rewrite lookup_alter_ne by done.
    split_and!; [done..| |done|].
    + destruct (session_workers d !! sid); by rewrite !lookup_delete_ne.
    + intros Hl x. assert (String.prefix sid (s +:+ x) = false) as Hp.
      { apply not_true_is_false. intros Hp. apply Hs. symmetry. by eapply prefix_same_length. }
      rewrite elem_of_filter. split; [tauto|].
      destruct (req_start_times d !! (s +:+ x)) as [v|] eqn:E.
      * by apply map_lookup_filter_Some_2.
      * apply map_lookup_filter_None. by left.
Qed.

(** ** Runs of the engine *)

Inductive duplex_step : Duplex -> Duplex -> Prop :=
| step_start sid d d' : start_duplex_session sid d = Ret tt d' -> duplex_step d d'
| step_audio sid b d d' : receive_audio sid b d = Ret tt d' -> duplex_step d d'
| step_eou sid n m d d' : receive_end_of_utterance sid n m d = Ret tt d' -> duplex_step d d'
| step_worker sid time r d d' : audio_worker sid time d = Ret r d' -> duplex_step d d'
| step_barge_in sid d d' : cleanup_for_barge_in sid d = Ret tt d' -> duplex_step d d'
| step_stop sid r d d' : stop_session sid d = Ret r d' -> duplex_step d d'.

Inductive duplex_reachable : Duplex -> Prop :=
| reach_init : duplex_reachable engine_init
| reach_step d d' : duplex_reachable d -> duplex_step d d' -> duplex_reachable d'.

(** Every buffered or queued piece of audio is a whole number of samples. *)
Definition aligned (d : Duplex) : Prop :=
  (forall sid q seq pcm, input_queues d !! sid = Some q -> PcmPacket seq pcm ∈ q ->
     Nat.even (length pcm) = true) /\
  (forall sid buf, audio_buffers d !! sid = Some buf -> Nat.even (length buf) = true).

Lemma aligned_buffer d sid : aligned d -> Nat.even (length (default [] (audio_buffers d !! sid))) = true.
Proof. intros [_ H]. destruct (audio_buffers d !! sid) eqn:E; [by eapply H|done]. Qed.

(** The queue of one session changes, and perhaps its buffer. *)
Lemma aligned_update d d' sid q buf :
  aligned d ->
  (forall s, s <> sid -> input_queues d' !! s = input_queues d !! s) ->
  (forall s, s <> sid -> audio_buffers d' !! s = audio_buffers d !! s) ->
  input_queues d' !! sid = q -> audio_buffers d' !! sid = buf ->
  (forall seq pcm, PcmPacket seq pcm ∈ default [] q -> Nat.even (length pcm) = true) ->
  Nat.even (length (default [] buf)) = true ->
  aligned d'.
Proof.
  intros [H1 H2] Hq Hb Eq Eb Hnew Hbuf. split.
  - intros s q' seq pcm Hs Hin. destruct (decide (s = sid)) as [->|Hne].
    + rewrite Hs in Eq. subst q. by apply (Hnew seq).
    + rewrite Hq in Hs by done. by eapply H1.
  - intros s b Hs. destruct (decide (s = sid)) as [->|Hne].
    + rewrite Hs in Eb. subst buf. done.
    + rewrite Hb in Hs by done. by eapply H2.
Qed.

Lemma frombuffer_even n b : (length b <= n)%nat -> Nat.even (length b) = true ->
  exists l, frombuffer_int16 b = Some l.
Proof.
  revert b. induction n as [|n IH]; intros [|lo [|hi b]] Hl He; simpl in *;
    try discriminate; try lia; [by eexists..|].
  destruct (IH b) as [l ->]; [lia|done|]. by eexists.
Qed.

Lemma put_aligned sid b m d d' :
  aligned d -> put_incremental_input sid b m d = Ret tt d' -> aligned d'.
Proof.
  intros Ha. unfold put_incremental_input, py_bind. simpl. case_decide as Hq; [by intros [= <-]|].
  destruct (input_queues d !! sid) as [q|] eqn:Eq; [|done]. pose proof Ha as [H1 _].
  assert (forall p d0 d1, input_queues d0 = input_queues d -> audio_buffers d0 = audio_buffers d ->
    (forall seq pcm, p = PcmPacket seq pcm -> Nat.even (length pcm) = true) ->
    push_input sid p d0 = Ret tt d1 -> aligned d1) as Hpush.
  { intros p d0 d1 E1 E2 Hp [= <-].
    eapply (aligned_update d _ sid); [exact Ha|..]; simpl; rewrite ?E1, ?E2; try reflexivity.
    - intros s Hs. by rewrite lookup_alter_ne.
    - rewrite lookup_alter_eq, Eq. simpl. intros seq pcm [Hin|Hin]%elem_of_app.
      + by eapply H1.
      + apply list_elem_of_singleton in Hin. by eapply Hp.
    - by apply aligned_buffer. }
  destruct m as [m|]; destruct b as [b|]; simpl.
  all: try (destruct (length b <? 4)%nat; [by intros [= <-]|]).
  all: try (destruct (Nat.odd (length (drop 4 b))) eqn:Ho; [by intros [= <-]|]).
  all: apply Hpush; [done..|]; intros seq pcm [= _ <-] || done.
  all: rewrite <- Nat.negb_odd; by rewrite Ho.
Qed.

Lemma worker_aligned sid time d :
  aligned d -> exists r d', audio_worker sid time d = Ret r d' /\ aligned d'.
Proof.
  intros Ha. pose proof Ha as [H1 _]. pose proof (aligned_buffer d sid Ha) as Hb.
  unfold audio_worker, py_bind. simpl.
  destruct (input_queues d !! sid) as [[|p q]|] eqn:Eq; [by eexists _, _..| |by eexists _, _].
  assert (forall seq pcm, PcmPacket seq pcm ∈ q -> Nat.even (length pcm) = true) as Hq
    by (intros seq pcm Hin; eapply (H1 sid); [done|by right]).
  destruct p as [seq pcm|].
  - eexists _, _. split; [reflexivity|].
    eapply (aligned_update d _ sid); [exact Ha|..]; simpl;
      try (by intros s Hs; rewrite lookup_insert_ne); [by rewrite lookup_insert_eq..|exact Hq|].
    simpl. rewrite length_app, Nat.even_add, Hb. rewrite (H1 sid _ seq pcm Eq); [done|left].
  - destruct (default [] (audio_buffers d !! sid)) as [|x buf] eqn:Ebuf.
    + eexists _, _. split; [reflexivity|].
      eapply (aligned_update d _ sid); [exact Ha|..]; simpl;
        try (by intros s Hs; rewrite lookup_insert_ne); [by rewrite lookup_insert_eq..|exact Hq|done].
    + destruct (frombuffer_even (length (x :: buf)) (x :: buf)) as [l Hl]; [done|done|].
      rewrite Hl. eexists _, _. split; [reflexivity|].
      eapply (aligned_update d _ sid); [exact Ha|..]; simpl;
        try (by intros s Hs; rewrite ?lookup_insert_ne, ?lookup_insert_ne by done);
        [by rewrite lookup_insert_eq..|exact Hq|done].
Qed.

Lemma step_aligned d d' : aligned d -> duplex_step d d' -> aligned d'.
Proof.
  intros Ha Hs. pose proof Ha as [H1 H2].
  destruct Hs as [sid d d' E|sid b d d' E|sid n m d d' E|sid time r d d' E|sid d d' E|sid r d d' E].
  - injection E as <-. destruct (input_queues d !! sid) as [q|] eqn:Eq.
    + eapply (aligned_update d _ sid); [exact Ha|..]; simpl; rewrite ?Eq;
        try (by intros s Hs; rewrite ?lookup_insert_ne, ?lookup_insert_ne by done);
        [done|by rewrite lookup_insert_eq|intros seq pcm; rewrite Eq; exact (H1 sid q seq pcm Eq)|done].
    + eapply (aligned_update d _ sid); [exact Ha|..]; simpl; rewrite ?Eq;
        try (by intros s Hs; rewrite ?lookup_insert_ne, ?lookup_insert_ne by done);
        [by rewrite lookup_insert_eq..| |done]. simpl. intros ? ? Hin. by apply not_elem_of_nil in Hin.
  - by eapply put_aligned.
  - unfold receive_end_of_utterance, py_bind in E. simpl in E. eapply put_aligned; [|exact E]. done.
  - destruct (worker_aligned sid time d Ha) as (r' & d1 & E' & Hd1). congruence.
  - injection E as <-. done.
  - injection E as _ <-. split; simpl.
    + intros s q seq pcm [_ Hq]%lookup_delete_Some. by apply (H1 s).
    + intros s buf. destruct (session_workers d !! sid); [|by apply H2].
      intros [_ Hb]%lookup_delete_Some. by eapply H2.
Qed.

Lemma reachable_aligned d : duplex_reachable d -> aligned d.
Proof.
  induction 1 as [|d d' _ IH Hs]; [|by eapply step_aligned].
  split; [intros sid q seq pcm H|intros sid buf H]; discriminate H.
Qed.

(** Audio from clients cannot break a session's worker: in every state the
    engine can reach by sessions starting and stopping, packets of any content
    arriving in any order, barge-ins and worker rounds, each round of a worker
    completes; the buffer it decodes is always a whole number of 16-bit
    samples, because packets that are too short or cut a sample are dropped. *)
Theorem audio_worker_never_fails (d : Duplex) (sid : string) (time : nat) :
  duplex_reachable d -> exists r d', audio_worker sid time d = Ret r d'.
Proof.
  intros Hd%reachable_aligned. destruct (worker_aligned sid time d Hd) as (r & d' & E & _). eauto.
Qed.

(** The engine after a computation. *)
Definition after_run {A} (m : py Duplex A) (d : Duplex) : Duplex :=
  match m d with Ret _ d' | Raise _ d' => d' end.
Definition demo_e1 : Duplex := after_run (start_duplex_session "s") engine_init.
Definition demo_e2 : Duplex := after_run (receive_audio "s" [1; 0; 0; 0; 5; 1; 255; 255]) demo_e1.
Definition demo_e3 : Duplex := after_run (receive_audio "s" [2; 0; 0; 0; 9]) demo_e2.
Definition demo_e4 : Duplex := after_run (receive_end_of_utterance "s" 2 (Some "A")) demo_e3.

Lemma demo_reachable : duplex_reachable demo_e4.
Proof.
  apply (reach_step demo_e3); [|apply (step_eou "s" 2 (Some "A")); vm_compute; reflexivity].
  apply (reach_step demo_e2); [|apply (step_audio "s" [2; 0; 0; 0; 9]); vm_compute; reflexivity].
  apply (reach_step demo_e1);
    [|apply (step_audio "s" [1; 0; 0; 0; 5; 1; 255; 255]); vm_compute; reflexivity].
  apply (reach_step engine_init); [exact reach_init|apply (step_start "s"); vm_compute; reflexivity].
Qed.

Lemma audio_worker_never_fails_witness :
  duplex_reachable demo_e4 /\ exists r d', audio_worker "s" 17 demo_e4 = Ret r d'.
Proof.
  split; [exact demo_reachable|]. exact (audio_worker_never_fails demo_e4 "s" 17 demo_reachable).
Defined.

(** ** Utterances *)

Fixpoint le_bytes (n : nat) (z : Z) : list Z :=
  match n with O => [] | S n' => z mod 256 :: le_bytes n' (z / 256) end.
(** The packet format that [put_incremental_input] documents. *)
Definition encode_packet (seq : Z) (samples : list Z) : list Z :=
  le_bytes 4 seq ++ mjoin (int16_bytes <$> samples).

(** [n] rounds of a session's worker, with the turns they start. *)
Fixpoint worker_rounds (sid : string) (time : nat) (n : nat) : py Duplex (list Utterance) :=
  match n with
  | O => py_ret []
  | S n' =>
      let! u := audio_worker sid time in
      let! us := worker_rounds sid time n' in
      py_ret (match u with Some u => u :: us | None => us end)
  end.

Definition is_int16 (z : Z) : bool := (-32768 <=? z) && (z <? 32768).

Lemma int16_bytes_roundtrip z : is_int16 z = true -> int16_of (z mod 256) ((z / 256) mod 256) = z.
Proof.
  unfold is_int16. intros [H1%Z.leb_le H2%Z.ltb_lt]%andb_true_iff. unfold int16_of.
  pose proof (Z.div_mod z 256 ltac:(lia)). pose proof (Z.mod_pos_bound z 256 ltac:(lia)).
  pose proof (Z.div_mod (z / 256) 256 ltac:(lia)). pose proof (Z.mod_pos_bound (z / 256) 256 ltac:(lia)).
  destruct (Z.ltb_spec (z mod 256 + 256 * ((z / 256) mod 256)) 32768); nia.
Qed.

Lemma frombuffer_samples l :
  forallb is_int16 l = true -> frombuffer_int16 (mjoin (int16_bytes <$> l)) = Some l.
Proof.
  induction l as [|z l IH]; [done|]. cbn [forallb]. intros [Hz Hl]%andb_true_iff.
  rewrite fmap_cons, mjoin_cons. unfold int16_bytes at 1. cbn [app frombuffer_int16].
  by rewrite IH, int16_bytes_roundtrip.
Qed.

Lemma from_bytes_le n z : 0 <= z < 256 ^ Z.of_nat n -> from_bytes_little (le_bytes n z) = z.
Proof.
  revert z. induction n as [|n IH]; intros z Hz; [simpl in *; lia|].
  cbn [le_bytes from_bytes_little]. rewrite Nat2Z.inj_succ, Z.pow_succ_r in Hz by lia.
  rewrite IH.
  - pose proof (Z.div_mod z 256 ltac:(lia)). lia.
  - split; [apply Z.div_pos; lia|]. apply Z.div_lt_upper_bound; lia.
Qed.

Lemma length_samples l : length (mjoin (int16_bytes <$> l)) = (2 * length l)%nat.
Proof.
  induction l as [|z l IH]; [done|]. rewrite fmap_cons, mjoin_cons, length_app, IH. simpl. lia.
Qed.

Definition client_packets := list (Z * list Z).
Definition queued (packets : client_packets) : list Packet :=
  (fun '(seq, samples) => PcmPacket seq (mjoin (int16_bytes <$> samples))) <$> packets.
Definition sendable (p : Z * list Z) : bool :=
  (0 <=? p.1) && (p.1 <? 2 ^ 32) && forallb is_int16 p.2.

Lemma receive_packet sid seq samples q d :
  sendable (seq, samples) = true -> input_queues d !! sid = Some q ->
  exists d', receive_audio sid (encode_packet seq samples) d = Ret tt d' /\
    input_queues d' !! sid = Some (q ++ queued [(seq, samples)]) /\
    audio_buffers d' = audio_buffers d.
Proof.
  intros [[H1%Z.leb_le H2%Z.ltb_lt]%andb_true_iff _]%andb_true_iff Hq. simpl in H1, H2.
  unfold receive_audio.
  assert (take 4 (encode_packet seq samples) = le_bytes 4 seq) as Ht by done.
  assert (drop 4 (encode_packet seq samples) = mjoin (int16_bytes <$> samples)) as Hd by done.
  assert ((length (encode_packet seq samples) <? 4)%nat = false) as Hl by done.
  generalize dependent (encode_packet seq samples). intros b Ht Hd Hl.
  unfold put_incremental_input, py_bind. simpl.
  rewrite decide_False by (by rewrite Hq). rewrite Ht, Hd, Hl, length_samples.
  rewrite from_bytes_le by done.
  rewrite Nat.odd_mul; cbn [Nat.odd negb Nat.even andb].
  eexists. split; [reflexivity|]. split; [|done]. simpl input_queues.
  by rewrite lookup_alter_eq, Hq.
Qed.

Lemma receive_packets sid packets q d :
  forallb sendable packets = true -> input_queues d !! sid = Some q ->
  exists d', py_for packets (fun p => receive_audio sid (encode_packet p.1 p.2)) d = Ret tt d' /\
    input_queues d' !! sid = Some (q ++ queued packets) /\ audio_buffers d' = audio_buffers d.
Proof.
  revert q d. induction packets as [|[seq samples] packets IH]; intros q d Hs Hq.
  - exists d. split; [done|]. by rewrite app_nil_r.
  - cbn [forallb] in Hs. apply andb_true_iff in Hs as [Hp Hs].
    destruct (receive_packet sid seq samples q d Hp Hq) as (d1 & E1 & Hq1 & Hb1).
    destruct (IH _ d1 Hs Hq1) as (d' & E & Hq' & Hb'). exists d'.
    cbn [py_for]. unfold py_bind. simpl. rewrite E1. split; [exact E|].
    rewrite Hq', <- app_assoc, Hb', Hb1. done.
Qed.

Definition all_samples (packets : client_packets) : list Z := mjoin (snd <$> packets).

Lemma worker_collects sid time packets rest d :
  input_queues d !! sid = Some (queued packets ++ rest) ->
  exists d',
    (forall k, worker_rounds sid time (length packets + k) d = worker_rounds sid time k d') /\
    input_queues d' !! sid = Some rest /\ ai_mode d' = ai_mode d /\
    default [] (audio_buffers d' !! sid) =
      default [] (audio_buffers d !! sid) ++ mjoin (int16_bytes <$> all_samples packets).
Proof.
  revert d. induction packets as [|[seq samples] packets IH]; intros d Hq.
  - exists d. split_and!; [done..|]. by rewrite app_nil_r.
  - assert (exists d1, audio_worker sid time d = Ret None d1 /\
      input_queues d1 !! sid = Some (queued packets ++ rest) /\ ai_mode d1 = ai_mode d /\
      default [] (audio_buffers d1 !! sid) =
        default [] (audio_buffers d !! sid) ++ mjoin (int16_bytes <$> samples))
      as (d1 & E1 & Hq1 & Hm1 & Hb1).
    { unfold audio_worker, py_bind. cbn [py_get]. simpl in Hq. unfold py_get. rewrite Hq.
      eexists. split; [reflexivity|]. simpl. by rewrite !lookup_insert_eq. }
    destruct (IH d1 Hq1) as (d' & Hr & Hq' & Hm' & Hb'). exists d'.
    split; [|split; [done|split; [congruence|]]].
    + intros k. cbn [length Nat.add worker_rounds]. unfold py_bind. rewrite E1, Hr.
      by destruct (worker_rounds sid time k d').
    + rewrite Hb', Hb1, <- app_assoc. f_equal. unfold all_samples.
      by rewrite fmap_cons, mjoin_cons, (fmap_app int16_bytes), join_app.
Qed.

(** C37. A client is heard exactly: whatever sequence numbers its packets carry,
    the utterance that reaches the model is the samples of its packets in the
    order of arrival, all of them and nothing else, under the mode given at the
    end of the utterance; one turn starts, and the session is back to an empty
    queue and buffer. *)
Theorem utterance_is_what_was_sent (sid mode : string) (packets : client_packets)
    (last_seq : Z) (time : nat) (d : Duplex) :
  input_queues d !! sid = Some [] -> default [] (audio_buffers d !! sid) = [] ->
  forallb sendable packets = true -> all_samples packets <> [] ->
  exists d',
    (do! py_for packets (fun p => receive_audio sid (encode_packet p.1 p.2));
     do! receive_end_of_utterance sid last_seq (Some mode);
     worker_rounds sid time (length packets + 1)) d =
      Ret [mkUtterance (sid +:+ "_" +:+ pretty time) (all_samples packets) mode] d' /\
    input_queues d' !! sid = Some [] /\ audio_buffers d' !! sid = Some [].
Proof.
  intros Hq Hb Hs Hne.
  destruct (receive_packets sid packets [] d Hs Hq) as (d1 & E1 & Hq1 & Hb1).
  unfold py_bind at 1. rewrite E1. unfold py_bind at 1.
  unfold receive_end_of_utterance, put_incremental_input, py_bind at 1. simpl.
  unfold py_bind. simpl. rewrite decide_False by (simpl; by rewrite Hq1). simpl.
  match goal with |- context [worker_rounds _ _ _ ?x] => set (d2 := x) end.
  destruct (worker_collects sid time packets [EosMarker] d2) as (d3 & Hr & Hq3 & Hm3 & Hb3).
  { subst d2. simpl. by rewrite lookup_alter_eq, Hq1. }
  rewrite Hr. cbn [worker_rounds]. unfold audio_worker, py_bind, py_get. rewrite Hq3.
  assert (audio_buffers d2 = audio_buffers d) as Hb2 by exact Hb1.
  rewrite Hb3, Hb2, Hb. cbn [app].
  assert (forallb is_int16 (all_samples packets) = true) as Hi.
  { clear -Hs. induction packets as [|[seq samples] packets IH]; [done|].
    cbn [forallb] in Hs. apply andb_true_iff in Hs as [[_ Hp]%andb_true_iff Hs].
    unfold all_samples. rewrite fmap_cons, mjoin_cons, forallb_app. simpl in Hp |- *.
    rewrite Hp. by apply IH. }
  pose proof (frombuffer_samples _ Hi) as Hf. pose proof (length_samples (all_samples packets)) as Hl.
  destruct (mjoin (int16_bytes <$> all_samples packets)) as [|x buf] eqn:Ebuf.
  { destruct (all_samples packets); [done|]. simpl in Hl. lia. }
  rewrite Hf. simpl. rewrite Hm3. eexists. split; [reflexivity|]. simpl.
  by rewrite !lookup_insert_eq.
Qed.

Lemma utterance_is_what_was_sent_witness :
  exists d',
    (do! py_for [(7, [100; -3]); (2, [32767])] (fun p => receive_audio "s" (encode_packet p.1 p.2));
     do! receive_end_of_utterance "s" 7 (Some "A");
     worker_rounds "s" 17 3) demo_e1 =
      Ret [mkUtterance "s_17" [100; -3; 32767] "A"] d' /\
    input_queues d' !! "s" = Some [] /\ audio_buffers d' !! "s" = Some [].
Proof.
  apply (utterance_is_what_was_sent "s" "A" [(7, [100; -3]); (2, [32767])] 7 17 demo_e1).
  - vm_compute; reflexivity.
  - vm_compute; reflexivity.
  - vm_compute; reflexivity.
  - discriminate.
Defined.

(** The assistant's mode is shared by all sessions: a turn runs in the mode
    of the last message the engine received from any client, not in the mode its
    own client asked for. Here "s" ends its utterance asking for mode "A"; an
    audio packet of "t", which sets the default mode, arrives before the worker
    of "s" runs, and the turn of "s" starts in mode "G". *)
Theorem mode_is_shared_between_sessions :
  exists d d' u,
    duplex_reachable d /\
    (do! receive_end_of_utterance "s" 2 (Some "A");
     do! receive_audio "t" [0; 0; 0; 0];
     worker_rounds "s" 17 2) d = Ret [u] d' /\
    u_turn_id u = "s_17" /\ u_ai_mode u = "G".
Proof.
  exists (after_run (start_duplex_session "t") demo_e2).
  eexists _, _. split; [|split; [vm_compute; reflexivity|split; reflexivity]].
  apply (reach_step demo_e2); [|apply (step_start "t"); vm_compute; reflexivity].
  apply (reach_step demo_e1);
    [|apply (step_audio "s" [1; 0; 0; 0; 5; 1; 255; 255]); vm_compute; reflexivity].
  apply (reach_step engine_init); [exact reach_init|apply (step_start "s"); vm_compute; reflexivity].
Qed.
