(* ===== verification/BlockHash.v ===== *)
(** Block hashing for prefix caching ([vllm/v1/core/kv_cache_utils.py]): the
    packing of a hash with its KV-cache group id, the extra keys of a block, the
    chained block hashes of a request, and the regrouping of hashes to a larger
    block size.

    The hash function (sha256 over a pickled or CBOR-encoded tuple) and the seed
    [NONE_HASH] are parameters. *)
From stdpp Require Import gmap strings list.
From Stdlib Require Import ZArith Lia.
From S2P Require Import Prelude Request.
Open Scope Z_scope.

(** ** Packing of group ids *)

(** [z.to_bytes(n, "big", signed=False)]; [None] is [OverflowError]. *)
Fixpoint be_split (n : nat) (z : Z) : bytes :=
  match n with
  | O => []
  | S n' => be_split n' (Z.shiftr z 8) ++ [Z.land z 255]
  end.
Definition int_to_bytes_big (n : nat) (z : Z) : option bytes :=
  if (0 <=? z) && (z <? 2 ^ (8 * Z.of_nat n)) then Some (be_split n z) else None.

(** [int.from_bytes(b, "big", signed=False)] *)
Definition be_combine (b : bytes) : Z :=
  foldl (fun acc x => Z.lor (Z.shiftl acc 8) x) 0 b.

Definition make_block_hash_with_group_id (block_hash : bytes) (group_id : Z) : option bytes :=
  match int_to_bytes_big 4 group_id with
  | Some g => Some (block_hash ++ g)
  | None => None
  end.

(** [key[:-4]] and [key[-4:]] *)
Definition get_block_hash (key : bytes) : bytes := take (length key - 4) key.
Definition get_group_id (key : bytes) : Z := be_combine (drop (length key - 4) key).

Inductive ExternalBlockHash := ExtBytes (b : bytes) | ExtInt (z : Z).

(** [use_int] is [envs.VLLM_KV_EVENTS_USE_INT_BLOCK_HASHES]. *)
Definition maybe_convert_block_hash (use_int : bool) (hash_bytes : bytes) : ExternalBlockHash :=
  if negb use_int then ExtBytes hash_bytes
  else ExtInt (Z.land (be_combine hash_bytes) (Z.shiftl 1 64 - 1)).

(** ** Extra keys *)

Inductive extra_key := KStr (s : string) | KBytes (b : bytes).

Definition need_extra_keys (r : Request) : bool :=
  negb (bool_decide (mm_features (args r) = []))
  || bool_decide (is_Some (lora_request (args r)))
  || bool_decide (is_Some (cache_salt (args r))).

(** The [while] loop of [_gen_mm_extra_hash_keys]; [rest] is
    [mm_features[curr_mm_idx:]]. *)
Fixpoint gen_mm_loop (start_token_idx end_token_idx : Z)
    (rest : list MultiModalFeatureSpec) (curr_mm_idx : Z) (extra_keys : list extra_key)
    : list extra_key * Z :=
  match rest with
  | [] => (extra_keys, curr_mm_idx)
  | f :: rest' =>
      let off := offset (mm_position f) in
      let len := range_length (mm_position f) in
      if end_token_idx >? off then
        if start_token_idx >? off + len then
          gen_mm_loop start_token_idx end_token_idx rest' (curr_mm_idx + 1) extra_keys
        else
          let extra_keys := extra_keys ++ [KStr (identifier f)] in
          if end_token_idx >=? off + len then
            gen_mm_loop start_token_idx end_token_idx rest' (curr_mm_idx + 1) extra_keys
          else (extra_keys, curr_mm_idx)
      else (extra_keys, curr_mm_idx)
  end.

Definition gen_mm_extra_hash_keys (r : Request)
    (start_token_idx end_token_idx start_mm_idx : Z) : exn + (list extra_key * Z) :=
  let feats := mm_features (args r) in
  match last feats with
  | None => inr ([], start_mm_idx)
  | Some last_feature =>
      let last_pos := mm_position last_feature in
      if offset last_pos + range_length last_pos <? start_token_idx
      then inr ([], start_mm_idx)
      else
        let n := Z.of_nat (length feats) in
        if (start_mm_idx <? 0) && negb (- start_mm_idx <=? n) then inl AssertionError
        else
          let idx := if start_mm_idx <? 0 then n + start_mm_idx else start_mm_idx in
          inr (gen_mm_loop start_token_idx end_token_idx (drop (Z.to_nat idx) feats) idx [])
  end.

Definition gen_lora_extra_hash_keys (r : Request) : list extra_key :=
  match lora_request (args r) with
  | None => []
  | Some l => [KStr (lora_name l)]
  end.

(** Python's [seq[a:b]] for [0 <= a]. *)
Definition slice {A} (l : list A) (a b : Z) : list A :=
  take (Z.to_nat b - Z.to_nat a) (drop (Z.to_nat a) l).

Definition gen_prompt_embeds_extra_hash_keys (r : Request)
    (start_token_idx end_token_idx : Z) : list extra_key :=
  match prompt_embeds (args r) with
  | None => []
  | Some rows => [KBytes (concat (slice rows start_token_idx end_token_idx))]
  end.

Definition generate_block_hash_extra_keys (r : Request)
    (start_token_idx end_token_idx start_mm_idx : Z)
    : exn + (option (list extra_key) * Z) :=
  match gen_mm_extra_hash_keys r start_token_idx end_token_idx start_mm_idx with
  | inl e => inl e
  | inr (mm_extra_keys, new_start_mm_idx) =>
      let lora_extra_keys := gen_lora_extra_hash_keys r in
      let cache_salt_keys :=
        match cache_salt (args r) with
        | Some s => if (start_token_idx =? 0) && negb (bool_decide (s = ""%string))
                    then [KStr s] else []
        | None => []
        end in
      let prompt_embeds_keys :=
        gen_prompt_embeds_extra_hash_keys r start_token_idx end_token_idx in
      let extra_keys :=
        lora_extra_keys ++ mm_extra_keys ++ cache_salt_keys ++ prompt_embeds_keys in
      match extra_keys with
      | [] => inr (None, new_start_mm_idx)
      | _ => inr (Some extra_keys, new_start_mm_idx)
      end
  end.

(** ** Block hashes of a request *)

Section hasher.
(** The hash function on (parent hash, block tokens, extra keys), and the seed. *)
Variable hash_function : bytes * list Z * option (list extra_key) -> bytes.
Variable NONE_HASH : bytes.

Definition hash_block_tokens (parent_block_hash : option bytes)
    (curr_block_token_ids : list Z) (extra_keys : option (list extra_key)) : bytes :=
  let parent :=
    match parent_block_hash with
    | None | Some [] => NONE_HASH
    | Some h => h
    end in
  hash_function (parent, curr_block_token_ids, extra_keys).

Variable block_size : Z.

(** The [while True] loop of [request_block_hasher]; [fuel] bounds its number
    of iterations. *)
Fixpoint hasher_loop (fuel : nat) (r : Request) (start_token_idx curr_mm_idx : Z)
    (prev_block_hash_value : option bytes) (new_block_hashes : list bytes)
    : exn + list bytes :=
  match fuel with
  | O => inl Diverges
  | S fuel' =>
      let end_token_idx := start_token_idx + block_size in
      if end_token_idx >? num_tokens r then inr new_block_hashes
      else
        match generate_block_hash_extra_keys r start_token_idx end_token_idx curr_mm_idx with
        | inl e => inl e
        | inr (extra_keys, curr_mm_idx) =>
            let block_tokens := slice (all_token_ids r) start_token_idx end_token_idx in
            let block_hash := hash_block_tokens prev_block_hash_value block_tokens extra_keys in
            hasher_loop fuel' r (start_token_idx + block_size) curr_mm_idx
              (Some block_hash) (new_block_hashes ++ [block_hash])
        end
  end.

Definition request_block_hasher (r : Request) : exn + list bytes :=
  let start_token_idx := Z.of_nat (length (block_hashes r)) * block_size in
  if start_token_idx + block_size >? num_tokens r then inr []
  else
    let curr_mm_idx := if start_token_idx >? 0 then -1 else 0 in
    hasher_loop (S (length (all_token_ids r))) r start_token_idx curr_mm_idx
      (last (block_hashes r)) [].

(** The hook stored on a request: the hasher's value ([request_block_hasher]
    never raises, see [request_block_hasher_total]). *)
Definition get_request_block_hasher (r : Request) : list bytes :=
  match request_block_hasher r with inr hs => hs | inl _ => [] end.

End hasher.

(** ** Regrouping hashes ([BlockHashListWithBlockSize]) *)

Record BlockHashListWithBlockSize := mkHashList {
  bhl_block_hashes : list bytes;
  scale_factor : Z
}.

Definition hash_list_init (hashes : list bytes) (hash_block_size target_block_size : Z)
    : exn + BlockHashListWithBlockSize :=
  if target_block_size mod hash_block_size =? 0
  then inr (mkHashList hashes (target_block_size / hash_block_size))
  else inl AssertionError.

Definition hash_list_len (b : BlockHashListWithBlockSize) : Z :=
  Z.of_nat (length (bhl_block_hashes b)) / scale_factor b.

(** [_get_value_at(idx)] for [0 <= idx]: the concatenation of [scale_factor]
    consecutive hashes; an index past the end raises. *)
Fixpoint merge_hashes (hashes : list bytes) (i n : nat) (merged : bytes) : exn + bytes :=
  match n with
  | O => inr merged
  | S n' =>
      match hashes !! i with
      | Some h => merge_hashes hashes (S i) n' (merged ++ h)
      | None => inl IndexError
      end
  end.

Definition get_value_at (b : BlockHashListWithBlockSize) (idx : Z) : exn + bytes :=
  let base := Z.to_nat (idx * scale_factor b) in
  match bhl_block_hashes b !! base with
  | None => inl IndexError
  | Some first => merge_hashes (bhl_block_hashes b) (S base)
                    (Z.to_nat (scale_factor b) - 1) first
  end.

(** [list(self)], i.e. [__iter__] over [range(len(self))], and [self[start:]]. *)
Fixpoint get_values (b : BlockHashListWithBlockSize) (i : Z) (n : nat) : exn + list bytes :=
  match n with
  | O => inr []
  | S n' =>
      match get_value_at b i with
      | inl e => inl e
      | inr h =>
          match get_values b (i + 1) n' with
          | inl e => inl e
          | inr hs => inr (h :: hs)
          end
      end
  end.

Definition hash_list_iter (b : BlockHashListWithBlockSize) : exn + list bytes :=
  get_values b 0 (Z.to_nat (hash_list_len b)).

Definition hash_list_from (b : BlockHashListWithBlockSize) (start : Z) : exn + list bytes :=
  let start := Z.min start (hash_list_len b) in
  get_values b start (Z.to_nat (hash_list_len b - start)).

(** ** Group ids round-trip *)

Lemma split_byte z : Z.lor (Z.shiftl (Z.shiftr z 8) 8) (Z.land z 255) = z.
Proof.
  apply Z.bits_inj'. intros n Hn. change 255 with (Z.ones 8).
  rewrite Z.lor_spec, Z.shiftl_spec, Z.land_spec by lia.
  destruct (Z.ltb_spec n 8).
  - rewrite Z.ones_spec_low, (Z.testbit_neg_r _ (n - 8)) by lia. by rewrite andb_true_r.
  - rewrite Z.ones_spec_high, Z.shiftr_spec by lia. rewrite andb_false_r, orb_false_r.
    f_equal. lia.
Qed.

Lemma be_combine_split n z :
  0 <= z < 2 ^ (8 * Z.of_nat n) -> be_combine (be_split n z) = z.
Proof.
  revert z. induction n as [|n IH]; intros z Hz.
  - simpl in *. change (2 ^ 0) with 1 in Hz. unfold be_combine. simpl. lia.
  - simpl be_split. unfold be_combine. rewrite foldl_app. simpl.
    fold (be_combine (be_split n (Z.shiftr z 8))). rewrite IH; [apply split_byte|].
    rewrite Z.shiftr_div_pow2 by lia.
    replace (8 * Z.of_nat (S n)) with (8 * Z.of_nat n + 8) in Hz by lia.
    rewrite Z.pow_add_r in Hz by lia. split; [apply Z.div_pos; lia|].
    apply Z.div_lt_upper_bound; lia.
Qed.

Lemma length_be_split n z : length (be_split n z) = n.
Proof.
  revert z. induction n as [|n IH]; intros z; simpl; [done|].
  rewrite length_app, IH. simpl. lia.
Qed.

Lemma make_key_get h g k :
  make_block_hash_with_group_id h g = Some k -> get_block_hash k = h /\ get_group_id k = g.
Proof.
  unfold make_block_hash_with_group_id, int_to_bytes_big.
  destruct ((0 <=? g) && (g <? _)) eqn:E; [|done].
  apply andb_true_iff in E as [E1%Z.leb_le E2%Z.ltb_lt]. intros Hk.
  assert (k = h ++ be_split 4 g) as -> by congruence. unfold get_block_hash, get_group_id.
  rewrite length_app, length_be_split. replace (length h + 4 - 4)%nat with (length h) by lia.
  rewrite take_app_length, drop_app_length. split; [done|]. by apply be_combine_split.
Qed.

(** Keys of distinct pairs are distinct (used by the pool's cache). *)
Lemma make_key_inj h1 g1 h2 g2 k :
  make_block_hash_with_group_id h1 g1 = Some k ->
  make_block_hash_with_group_id h2 g2 = Some k -> h1 = h2 /\ g1 = g2.
Proof. intros [<- <-]%make_key_get [<- <-]%make_key_get. done. Qed.

Lemma make_key_total h g :
  0 <= g < 2 ^ 32 -> exists k, make_block_hash_with_group_id h g = Some k.
Proof.
  intros Hg. unfold make_block_hash_with_group_id, int_to_bytes_big.
  change (8 * Z.of_nat 4) with 32.
  rewrite (proj2 (Z.leb_le 0 g)), (proj2 (Z.ltb_lt g _)) by lia. eauto.
Qed.

(** Cache keys are unambiguous: for every group id that fits 32 bits,
    packing succeeds and both components are recovered from the key; hence two
    different (hash, group) pairs never share a key, and a group id out of range
    raises instead of wrapping. *)
Theorem group_key_roundtrip (h : bytes) (g : Z) :
  (0 <= g < 2 ^ 32 ->
     exists k, make_block_hash_with_group_id h g = Some k /\
       get_block_hash k = h /\ get_group_id k = g) /\
  (~ (0 <= g < 2 ^ 32) -> make_block_hash_with_group_id h g = None).
Proof.
  split.
  - intros [k Hk]%(make_key_total h). exists k. split; [done|]. by apply make_key_get.
  - intros Hg. unfold make_block_hash_with_group_id, int_to_bytes_big.
    change (8 * Z.of_nat 4) with 32.
    destruct ((0 <=? g) && (g <? 2 ^ 32)) eqn:E; [|done].
    apply andb_true_iff in E as [?%Z.leb_le ?%Z.ltb_lt]. lia.
Qed.

Lemma group_key_roundtrip_witness :
  exists k, make_block_hash_with_group_id [222; 173] 258 = Some k /\
    get_block_hash k = [222; 173] /\ get_group_id k = 258.
Proof. apply (proj1 (group_key_roundtrip [222; 173] 258)). lia. Defined.

(** ** The hasher computes the chained reference hashes *)

Section hasher_spec.
Context (hash_function : bytes * list Z * option (list extra_key) -> bytes)
        (NONE_HASH : bytes) (block_size : Z).
Context (Hbs : 0 < block_size).
Implicit Types (r : Request).

(** The reference: one hash per full block, each over its parent's hash, its
    tokens and its extra keys. *)
Fixpoint ref_chain (parent : option bytes) (blocks : list (list Z * option (list extra_key)))
    : list bytes :=
  match blocks with
  | [] => []
  | (toks, keys) :: blocks' =>
      let h := hash_block_tokens hash_function NONE_HASH parent toks keys in
      h :: ref_chain (Some h) blocks'
  end.

Definition ref_block (r : Request) (i : nat) : list Z * option (list extra_key) :=
  let s := Z.of_nat i * block_size in
  (slice (all_token_ids r) s (s + block_size),
   match generate_block_hash_extra_keys r s (s + block_size) 0 with
   | inr (keys, _) => keys
   | inl _ => None
   end).

Definition num_full_blocks (r : Request) : nat := Z.to_nat (num_tokens r / block_size).
Definition ref_blocks (r : Request) := map (ref_block r) (seq 0 (num_full_blocks r)).
Definition ref_hashes (r : Request) : list bytes := ref_chain None (ref_blocks r).

Lemma length_ref_chain p bs : length (ref_chain p bs) = length bs.
Proof. revert p. induction bs as [|[t k] bs IH]; intros p; simpl; [done|]. by rewrite IH. Qed.

Lemma ref_chain_app p b1 b2 :
  ref_chain p (b1 ++ b2) =
  ref_chain p b1 ++ ref_chain (match last (ref_chain p b1) with Some h => Some h | None => p end) b2.
Proof.
  revert p. induction b1 as [|[t k] b1 IH]; intros p; [done|]. cbn [app ref_chain]. rewrite IH.
  rewrite last_cons. by destruct (last (ref_chain _ b1)).
Qed.

(** Extra keys of a request without multimodal inputs do not depend on the
    multimodal cursor. *)
Lemma text_extra_keys r s e m :
  mm_features (args r) = [] ->
  generate_block_hash_extra_keys r s e m =
  inr (match generate_block_hash_extra_keys r s e 0 with inr (k, _) => k | inl _ => None end, m).
Proof.
  intros Hmm. unfold generate_block_hash_extra_keys, gen_mm_extra_hash_keys. rewrite Hmm. simpl.
  by destruct (gen_lora_extra_hash_keys r ++ _).
Qed.

Lemma blocks_remaining r k :
  (k < num_full_blocks r)%nat <-> Z.of_nat k * block_size + block_size <= num_tokens r.
Proof.
  unfold num_full_blocks. assert (0 <= num_tokens r) by (unfold num_tokens; lia).
  pose proof (Z.div_mod (num_tokens r) block_size ltac:(lia)).
  pose proof (Z.mod_pos_bound (num_tokens r) block_size Hbs).
  pose proof (Z.div_pos (num_tokens r) block_size ltac:(lia) Hbs). split; intros; nia.
Qed.

Lemma hasher_loop_text r k mm prev acc fuel :
  mm_features (args r) = [] -> (k <= num_full_blocks r)%nat ->
  (num_full_blocks r - k < fuel)%nat ->
  hasher_loop hash_function NONE_HASH block_size fuel r (Z.of_nat k * block_size) mm prev acc =
  inr (acc ++ ref_chain prev (map (ref_block r) (seq k (num_full_blocks r - k)))).
Proof.
  intros Hmm. revert k mm prev acc. induction fuel as [|fuel IH]; intros k mm prev acc Hk Hf; [lia|].
  simpl. pose proof (blocks_remaining r k) as Hrem.
  destruct (Z.of_nat k * block_size + block_size >? num_tokens r) eqn:E.
  - apply Z.gtb_gt in E. replace (num_full_blocks r - k)%nat with 0%nat by lia. simpl.
    by rewrite app_nil_r.
  - assert (k < num_full_blocks r)%nat as Hlt by (apply Hrem; lia).
    rewrite (text_extra_keys r _ _ mm) by done.
    replace (Z.of_nat k * block_size + block_size) with (Z.of_nat (S k) * block_size) by lia.
    rewrite IH by lia.
    replace (num_full_blocks r - k)%nat with (S (num_full_blocks r - S k)) by lia. simpl.
    rewrite <-app_assoc. simpl.
    by replace (Z.of_nat k * block_size + block_size) with (Z.of_nat (S k) * block_size) by lia.
Qed.

Lemma num_full_blocks_le r : (num_full_blocks r <= length (all_token_ids r))%nat.
Proof.
  unfold num_full_blocks, num_tokens.
  pose proof (Z.div_le_upper_bound (Z.of_nat (length (all_token_ids r))) block_size
                (Z.of_nat (length (all_token_ids r))) Hbs ltac:(nia)). lia.
Qed.

Lemma last_chain_prefix r k :
  match last (ref_chain None (map (ref_block r) (seq 0 k))) with Some h => Some h | None => None end
  = last (ref_chain None (map (ref_block r) (seq 0 k))).
Proof. by destruct (last _). Qed.

(** Catching up: if the hashes so far are the first [k] reference hashes, the
    hasher returns exactly the missing ones. *)
Lemma request_block_hasher_text r k :
  mm_features (args r) = [] -> (k <= num_full_blocks r)%nat ->
  block_hashes r = ref_chain None (map (ref_block r) (seq 0 k)) ->
  request_block_hasher hash_function NONE_HASH block_size r =
  inr (ref_chain (last (block_hashes r)) (map (ref_block r) (seq k (num_full_blocks r - k)))).
Proof.
  intros Hmm Hk Hbh. unfold request_block_hasher.
  assert (length (block_hashes r) = k) as Hlen.
  { by rewrite Hbh, length_ref_chain, length_map, length_seq. }
  rewrite Hlen. pose proof (blocks_remaining r k) as Hrem.
  destruct (Z.of_nat k * block_size + block_size >? num_tokens r) eqn:E.
  - apply Z.gtb_gt in E. by replace (num_full_blocks r - k)%nat with 0%nat by lia.
  - rewrite hasher_loop_text; [done..|]. pose proof (num_full_blocks_le r). lia.
Qed.

Definition hasher_hook : option (Request -> list bytes) :=
  Some (get_request_block_hasher hash_function NONE_HASH block_size).

Lemma hash_new_full_blocks_text r k :
  mm_features (args r) = [] -> (k <= num_full_blocks r)%nat ->
  block_hashes r = ref_chain None (map (ref_block r) (seq 0 k)) ->
  block_hashes (hash_new_full_blocks hasher_hook r) = ref_hashes r.
Proof.
  intros Hmm Hk Hbh. simpl. unfold get_request_block_hasher.
  rewrite (request_block_hasher_text r k) by done. unfold ref_hashes, ref_blocks.
  replace (num_full_blocks r) with (k + (num_full_blocks r - k))%nat at 2 by lia.
  rewrite seq_app, map_app, ref_chain_app, last_chain_prefix, <-Hbh. done.
Qed.

Lemma slice_app_l {A} (l l' : list A) a b :
  0 <= a -> b <= Z.of_nat (length l) -> slice (l ++ l') a b = slice l a b.
Proof.
  intros Ha Hb. unfold slice. destruct (decide (Z.to_nat a <= length l)%nat).
  - rewrite drop_app_le by done. rewrite take_app_le; [done|]. rewrite length_drop. lia.
  - replace (Z.to_nat b - Z.to_nat a)%nat with 0%nat by lia. done.
Qed.

Lemma ref_block_append r ts i :
  (i < num_full_blocks r)%nat ->
  ref_block (set_tokens (output_token_ids r ++ ts) (all_token_ids r ++ ts) r) i = ref_block r i.
Proof.
  intros Hi. apply blocks_remaining in Hi. unfold num_tokens in Hi.
  unfold ref_block. simpl. f_equal. apply slice_app_l; lia.
Qed.

(** Growing a request keeps its hashes equal to the reference hashes. *)
Lemma append_keeps_ref_hashes r ts :
  mm_features (args r) = [] -> block_hashes r = ref_hashes r ->
  let r' := append_output_token_ids hasher_hook ts r in
  block_hashes r' = ref_hashes r'.
Proof.
  intros Hmm Hbh r'. subst r'. unfold append_output_token_ids.
  set (r1 := set_tokens _ _ r).
  assert (num_full_blocks r <= num_full_blocks r1)%nat as Hle.
  { unfold num_full_blocks, num_tokens. subst r1. simpl. rewrite length_app.
    apply Z2Nat.inj_le; [by apply Z.div_pos; lia..|]. apply Z.div_le_mono; lia. }
  rewrite (hash_new_full_blocks_text r1 (num_full_blocks r)); [done|done|done|].
  subst r1. simpl. rewrite Hbh. unfold ref_hashes, ref_blocks. f_equal.
  apply map_ext_in. intros i Hi%in_seq. symmetry. apply ref_block_append. lia.
Qed.

End hasher_spec.

(** The multimodal cursor stays in range, so the assertions of the hasher hold
    and its loop ends. *)
Lemma gen_mm_loop_idx s e rest idx acc : idx <= (gen_mm_loop s e rest idx acc).2.
Proof.
  revert idx acc. induction rest as [|f rest IH]; intros idx acc; simpl; [done|].
  repeat case_match; simpl; try lia; (etrans; [|apply IH]; lia).
Qed.

Lemma extra_keys_total r s e m :
  -1 <= m -> exists k m', generate_block_hash_extra_keys r s e m = inr (k, m') /\ -1 <= m'.
Proof.
  intros Hm. unfold generate_block_hash_extra_keys.
  enough (exists k m', gen_mm_extra_hash_keys r s e m = inr (k, m') /\ -1 <= m')
    as (k & m' & -> & ?) by (destruct (gen_lora_extra_hash_keys r ++ _); eauto).
  unfold gen_mm_extra_hash_keys. destruct (last (mm_features (args r))) as [f|] eqn:El; [|by eauto].
  destruct (_ <? s); [by eauto|].
  assert (0 < Z.of_nat (length (mm_features (args r)))).
  { destruct (mm_features (args r)); [done|]. simpl. lia. }
  destruct ((m <? 0) && negb (- m <=? Z.of_nat (length (mm_features (args r))))) eqn:E.
  { apply andb_true_iff in E as [?%Z.ltb_lt E%negb_true_iff%Z.leb_gt]. lia. }
  set (idx := if m <? 0 then _ else _).
  destruct (gen_mm_loop s e _ idx []) as [k m'] eqn:Eg. exists k, m'. split; [done|].
  match type of Eg with gen_mm_loop ?a ?b ?c ?d ?x = _ => pose proof (gen_mm_loop_idx a b c d x) as Hi end.
  rewrite Eg in Hi. simpl in Hi. subst idx. destruct (m <? 0) eqn:E0; lia.
Qed.

Lemma hasher_loop_total hash_function NONE_HASH block_size r fuel s m prev acc :
  0 < block_size -> -1 <= m -> 0 <= num_tokens r - s < Z.of_nat fuel ->
  exists hs, hasher_loop hash_function NONE_HASH block_size fuel r s m prev acc = inr hs.
Proof.
  intros Hbs. revert s m prev acc.
  induction fuel as [|fuel IH]; intros s m prev acc Hm Hf; [lia|]. simpl.
  destruct (s + block_size >? num_tokens r) eqn:E; [by eauto|].
  destruct (extra_keys_total r s (s + block_size) m Hm) as (k & m' & -> & Hm').
  apply IH; [done|]. lia.
Qed.

Lemma request_block_hasher_total hash_function NONE_HASH block_size r :
  0 < block_size ->
  exists hs, request_block_hasher hash_function NONE_HASH block_size r = inr hs.
Proof.
  intros Hbs. unfold request_block_hasher.
  destruct (_ >? num_tokens r) eqn:E; [by eauto|].
  apply hasher_loop_total; [done|case_match; lia|]. unfold num_tokens in *. nia.
Qed.

(** ** Properties *)

Section properties.
Context (hash_function : bytes * list Z * option (list extra_key) -> bytes)
        (NONE_HASH : bytes) (block_size : Z).
Notation hook := (hasher_hook hash_function NONE_HASH block_size).
Notation ref_hashes := (ref_hashes hash_function NONE_HASH block_size).

Lemma Request_init_ref_hashes a r :
  0 < block_size -> mm_features a = [] -> Request_init hook a = inr r ->
  args r = a /\ block_hashes r = ref_hashes r /\
  (forall t, prompt_token_ids a = Some t -> all_token_ids r = t).
Proof.
  intros Hbs Hmm Hinit. unfold Request_init in Hinit.
  assert (forall r0, args r0 = a -> block_hashes r0 = [] ->
            block_hashes (hash_new_full_blocks hook r0) = ref_hashes r0) as Hh.
  { intros r0 Ha Hb. apply (hash_new_full_blocks_text _ _ _ Hbs r0 0); [by rewrite Ha|lia|done]. }
  repeat case_match; simplify_eq; (split; [done|]); (split; [by etransitivity; [apply Hh; done | reflexivity] | by intros ? [= ->]]).
Qed.

Lemma appends_ref_hashes r batches :
  0 < block_size -> mm_features (args r) = [] -> block_hashes r = ref_hashes r ->
  let r' := foldl (fun r ts => append_output_token_ids hook ts r) r batches in
  args r' = args r /\ block_hashes r' = ref_hashes r'.
Proof.
  intros Hbs. revert r. induction batches as [|ts bs IH]; intros r Hmm Hb; simpl; [done|].
  destruct (append_output_frame hook ts r) as ((Ha & _ & _) & _ & _ & _).
  pose proof (append_keeps_ref_hashes _ _ _ Hbs r ts Hmm Hb) as Hb'.
  destruct (IH (append_output_token_ids hook ts r)) as [Ha' ?]; [by rewrite Ha|done|].
  split; [|done]. by etransitivity.
Qed.

(** Reference hashes depend on the tokens and on the per-request keys only. *)
Lemma ref_hashes_ext r1 r2 :
  all_token_ids r1 = all_token_ids r2 ->
  mm_features (args r1) = [] -> mm_features (args r2) = [] ->
  prompt_embeds (args r1) = None -> prompt_embeds (args r2) = None ->
  lora_request (args r1) = lora_request (args r2) ->
  cache_salt (args r1) = cache_salt (args r2) ->
  ref_hashes r1 = ref_hashes r2.
Proof.
  intros Ht Hm1 Hm2 He1 He2 Hl Hc. unfold BlockHash.ref_hashes, ref_blocks, num_full_blocks, num_tokens.
  rewrite Ht. f_equal. apply map_ext. intros i. unfold ref_block. rewrite Ht. f_equal.
  unfold generate_block_hash_extra_keys, gen_mm_extra_hash_keys, gen_lora_extra_hash_keys,
    gen_prompt_embeds_extra_hash_keys. by rewrite Hm1, Hm2, He1, He2, Hl, Hc.
Qed.

(** C33. Hashing as tokens arrive equals hashing in one go: for a text request,
    however its output is split into append calls, its block hashes are those of
    a fresh request whose prompt is the whole conversation (same LoRA adapter
    and cache salt), which is what lets a follow-up turn hit the cache. *)
Theorem incremental_hashing_is_one_shot a1 r1 batches a2 r2 :
  0 < block_size -> mm_features a1 = [] -> mm_features a2 = [] ->
  prompt_embeds a1 = None -> prompt_embeds a2 = None ->
  lora_request a1 = lora_request a2 -> cache_salt a1 = cache_salt a2 ->
  Request_init hook a1 = inr r1 ->
  let r := foldl (fun r ts => append_output_token_ids hook ts r) r1 batches in
  prompt_token_ids a2 = Some (all_token_ids r) ->
  Request_init hook a2 = inr r2 ->
  block_hashes r = block_hashes r2.
Proof.
  intros Hbs Hm1 Hm2 He1 He2 Hl Hc Hi1 r Hp Hi2.
  destruct (Request_init_ref_hashes a1 r1 Hbs Hm1 Hi1) as (Ha1 & Hb1 & _).
  destruct (Request_init_ref_hashes a2 r2 Hbs Hm2 Hi2) as (Ha2 & Hb2 & Ht2).
  rewrite <-Ha1 in *. destruct (appends_ref_hashes r1 batches Hbs Hm1 Hb1) as [Ha Hb].
  fold r in Ha, Hb. rewrite Hb, Hb2. rewrite <-Ha2 in *.
  apply ref_hashes_ext; rewrite ?Ha; try done. by rewrite (Ht2 _ Hp).
Qed.

(** Equal hashes, equal content. [Hinj] and [Hseed] idealise the hash function:
    no collisions, and the (random) seed is not itself a hash value. *)
Context (Hinj : forall x y, hash_function x = hash_function y -> x = y)
        (Hseed : forall x, hash_function x <> NONE_HASH)
        (Hne : forall x, hash_function x <> []).

Lemma hash_parent_eq p1 t1 k1 p2 t2 k2 :
  hash_block_tokens hash_function NONE_HASH p1 t1 k1 =
  hash_block_tokens hash_function NONE_HASH p2 t2 k2 ->
  t1 = t2 /\ k1 = k2 /\
  (match p1 with None | Some [] => NONE_HASH | Some h => h end) =
  (match p2 with None | Some [] => NONE_HASH | Some h => h end).
Proof. intros H%Hinj. by simplify_eq. Qed.

Lemma ref_chain_last p bs t k :
  last (ref_chain hash_function NONE_HASH p (bs ++ [(t, k)])) =
  Some (hash_block_tokens hash_function NONE_HASH
          (match last (ref_chain hash_function NONE_HASH p bs) with Some h => Some h | None => p end)
          t k).
Proof. rewrite ref_chain_app. simpl. by rewrite last_snoc. Qed.

Lemma ref_chain_last_hash bs h :
  last (ref_chain hash_function NONE_HASH None bs) = Some h -> exists x, h = hash_function x.
Proof.
  destruct bs as [|[t k] bs _] using rev_ind; [done|].
  rewrite ref_chain_last. intros [= <-]. unfold hash_block_tokens. eauto.
Qed.

Lemma ref_chain_last_inj bs1 bs2 h :
  last (ref_chain hash_function NONE_HASH None bs1) = Some h ->
  last (ref_chain hash_function NONE_HASH None bs2) = Some h -> bs1 = bs2.
Proof.
  revert bs2 h. induction bs1 as [|[t1 k1] bs1 IH] using rev_ind; intros bs2 h; [done|].
  destruct bs2 as [|[t2 k2] bs2 _] using rev_ind; [done|].
  rewrite !ref_chain_last. intros [= <-] [= E]. apply hash_parent_eq in E as (-> & -> & Hp).
  f_equal.
  destruct (last (ref_chain _ _ None bs1)) as [h1|] eqn:E1;
    destruct (last (ref_chain _ _ None bs2)) as [h2|] eqn:E2.
  - assert (h1 = h2) as ->.
    { apply ref_chain_last_hash in E1 as [x ->]. apply ref_chain_last_hash in E2 as [y ->].
      pose proof (Hne x). pose proof (Hne y).
      by destruct (hash_function x), (hash_function y). }
    by eapply IH.
  - exfalso. apply ref_chain_last_hash in E1 as [x ->]. pose proof (Hne x). pose proof (Hseed x).
    by destruct (hash_function x).
  - exfalso. apply ref_chain_last_hash in E2 as [x ->]. pose proof (Hne x). pose proof (Hseed x).
    by destruct (hash_function x).
  - destruct bs1 as [|[??] bs1 _] using rev_ind; [|by rewrite ref_chain_last in E1].
    destruct bs2 as [|[??] bs2 _] using rev_ind; [done|by rewrite ref_chain_last in E2].
Qed.

Lemma ref_chain_take p bs i :
  take i (ref_chain hash_function NONE_HASH p bs) = ref_chain hash_function NONE_HASH p (take i bs).
Proof.
  revert p bs. induction i as [|i IH]; intros p [|[t k] bs]; simpl; try done. by rewrite IH.
Qed.

Lemma slices_to_prefix (l1 l2 : list Z) i :
  0 < block_size ->
  (forall j, (j < i)%nat -> slice l1 (Z.of_nat j * block_size) (Z.of_nat j * block_size + block_size)
                = slice l2 (Z.of_nat j * block_size) (Z.of_nat j * block_size + block_size)) ->
  take (i * Z.to_nat block_size) l1 = take (i * Z.to_nat block_size) l2.
Proof.
  intros Hbs. induction i as [|i IH]; intros Hs; [done|].
  assert (forall l : list Z, take (S i * Z.to_nat block_size) l =
            take (i * Z.to_nat block_size) l ++
            slice l (Z.of_nat i * block_size) (Z.of_nat i * block_size + block_size)) as Hsplit.
  { intros l. unfold slice.
    replace (Z.to_nat (Z.of_nat i * block_size)) with (i * Z.to_nat block_size)%nat by lia.
    replace (Z.to_nat (Z.of_nat i * block_size + block_size) - i * Z.to_nat block_size)%nat
      with (Z.to_nat block_size) by lia.
    rewrite take_take_drop. f_equal. lia. }
  rewrite !Hsplit, IH by auto. f_equal. apply Hs. lia.
Qed.

(** The reference hashes determine the text up to the hashed block. *)
Lemma ref_hashes_sound r1 r2 i j h :
  0 < block_size ->
  ref_hashes r1 !! i = Some h -> ref_hashes r2 !! j = Some h ->
  i = j /\
  take (S i * Z.to_nat block_size) (all_token_ids r1) =
    take (S i * Z.to_nat block_size) (all_token_ids r2) /\
  (forall k, (k <= i)%nat -> (ref_block block_size r1 k).2 = (ref_block block_size r2 k).2).
Proof.
  intros Hbs H1 H2.
  assert (forall r n, ref_hashes r !! n = Some h ->
     last (ref_chain hash_function NONE_HASH None (take (S n) (ref_blocks block_size r))) = Some h /\
     length (take (S n) (ref_blocks block_size r)) = S n) as Hl.
  { intros r n Hn. rewrite <-ref_chain_take.
    fold (BlockHash.ref_hashes hash_function NONE_HASH block_size r).
    rewrite (take_S_r _ _ _ Hn), last_snoc. split; [done|].
    apply lookup_lt_Some in Hn. unfold BlockHash.ref_hashes in Hn. rewrite length_ref_chain in Hn.
    rewrite length_take. lia. }
  destruct (Hl r1 i H1) as [L1 N1]. destruct (Hl r2 j H2) as [L2 N2].
  pose proof (ref_chain_last_inj _ _ _ L1 L2) as E.
  assert (i = j) as <- by congruence. split; [done|].
  assert (forall k, (k <= i)%nat -> ref_block block_size r1 k = ref_block block_size r2 k) as Hk.
  { intros k Hki. apply (f_equal (fun l => l !! k)) in E.
    rewrite !lookup_take_lt in E by lia. unfold ref_blocks in E.
    rewrite length_take in N1, N2. unfold ref_blocks in N1, N2. rewrite length_map in N1, N2.
    rewrite !list_lookup_fmap in E. rewrite length_seq in N1, N2.
    rewrite !lookup_seq_lt in E by lia. by apply (inj Some) in E. }
  split.
  - apply slices_to_prefix; [done|]. intros k Hki. specialize (Hk k ltac:(lia)).
    by apply (f_equal fst) in Hk.
  - intros k Hki. by rewrite Hk.
Qed.

(** The extra keys of a text request: its LoRA adapter on every block and its
    (non-empty) cache salt on the first. *)
Lemma ref_block_keys_0 r :
  mm_features (args r) = [] -> prompt_embeds (args r) = None ->
  default [] (ref_block block_size r 0).2 =
  gen_lora_extra_hash_keys r ++
  match cache_salt (args r) with Some s => if bool_decide (s = ""%string) then [] else [KStr s] | None => [] end.
Proof.
  intros Hm He. unfold ref_block, generate_block_hash_extra_keys, gen_mm_extra_hash_keys,
    gen_prompt_embeds_extra_hash_keys. rewrite Hm, He. simpl. rewrite app_nil_r.
  replace (Z.of_nat 0 * block_size) with 0 by lia. simpl.
  destruct (cache_salt (args r)) as [s|]; [destruct (bool_decide (s = _))|]; simpl;
    rewrite ?app_nil_r; by destruct (gen_lora_extra_hash_keys r).
Qed.

(** A request as the engine serves it: created, then extended by batches of
    output tokens. *)
Definition serve (a : RequestArgs) (batches : list (list Z)) : exn + Request :=
  match Request_init hook a with
  | inl e => inl e
  | inr r => inr (foldl (fun r ts => append_output_token_ids hook ts r) r batches)
  end.

Lemma serve_ref_hashes a batches r :
  0 < block_size -> mm_features a = [] -> serve a batches = inr r ->
  args r = a /\ block_hashes r = ref_hashes r.
Proof.
  intros Hbs Hm. unfold serve. destruct (Request_init hook a) as [|r0] eqn:E; [done|].
  destruct (Request_init_ref_hashes a r0 Hbs Hm E) as (Ha & Hb & _). intros [= <-].
  rewrite <-Ha in Hm |- *. by apply appends_ref_hashes.
Qed.


End properties.

(** ** Instances *)

#[export] Instance extra_key_eq_dec : EqDecision extra_key.
Proof. solve_decision. Defined.
#[export] Instance extra_key_countable : Countable extra_key.
Proof.
  refine (inj_countable'
    (fun k => match k with KStr s => inl s | KBytes b => inr b end)
    (fun x => match x with inl s => KStr s | inr b => KBytes b end) _).
  by intros [].
Defined.

(** A collision-free hash function, to instantiate the hypotheses on the hash. *)
Definition demo_hash (x : bytes * list Z * option (list extra_key)) : bytes :=
  [Z.pos (encode x)].
Lemma demo_hash_inj x y : demo_hash x = demo_hash y -> x = y.
Proof. unfold demo_hash. intros [= ?%(inj encode)]. done. Qed.

Definition demo_chat (prompt : list Z) (salt : option string) : RequestArgs :=
  mkArgs "r0" 0 0 0 0 (Some prompt) None (Some demo_sampling) None (Some 7) []
    (Some (mkLoRA "adapter" 1)) salt.

Lemma incremental_hashing_is_one_shot_witness :
  exists r r2,
    serve demo_hash [0] 2 (demo_chat [1; 2; 3] None) [[4]; [5; 6; 7]] = inr r /\
    Request_init (hasher_hook demo_hash [0] 2) (demo_chat [1; 2; 3; 4; 5; 6; 7] None) = inr r2 /\
    block_hashes r = block_hashes r2.
Proof.
  do 2 eexists. split; [reflexivity|]. split; [reflexivity|].
  eapply (incremental_hashing_is_one_shot demo_hash [0] 2 (demo_chat [1; 2; 3] None) _
            [[4]; [5; 6; 7]] (demo_chat [1; 2; 3; 4; 5; 6; 7] None)); try reflexivity.
Defined.


(** Incremental hashing can miss a multimodal input. When a block that was
    partial at the end of the prompt is completed by a generated token, hashing
    restarts at the last multimodal input only, so an earlier input of the same
    block does not enter its hash: two requests with different images then have
    the same block hashes, for every hash function and seed, while hashing the
    same tokens in one go uses keys that tell them apart. *)
Theorem incremental_mm_hash_collision hash_function NONE_HASH :
  let image name := mkFeature name (mkRange 4 1) in
  let audio := mkFeature "audio"%string (mkRange 6 1) in
  let req name prompt :=
    mkArgs "r0" 0 0 0 0 (Some prompt) None (Some demo_sampling) None (Some 7)
      [image name; audio] None None in
  let keys name prompt :=
    match Request_init None (req name prompt) with
    | inr r => generate_block_hash_extra_keys r 4 8 0
    | inl e => inl e
    end in
  let p := [1; 2; 3; 4; 5; 6; 7] in
  (exists rA rB,
     serve hash_function NONE_HASH 4 (req "cat"%string p) [[8]] = inr rA /\
     serve hash_function NONE_HASH 4 (req "dog"%string p) [[8]] = inr rB /\
     length (block_hashes rA) = 2%nat /\ block_hashes rA = block_hashes rB) /\
  keys "cat"%string (p ++ [8]) <> keys "dog"%string (p ++ [8]).
Proof.
  simpl. split; [|vm_compute; congruence].
  do 2 eexists. split; [reflexivity|]. split; [reflexivity|]. split; reflexivity.
Qed.

(** ** Regrouped hashes *)

Lemma merge_hashes_spec hs i n acc :
  (i + n <= length hs)%nat ->
  merge_hashes hs i n acc = inr (acc ++ concat (take n (drop i hs))).
Proof.
  revert i acc. induction n as [|n IH]; intros i acc Hn; simpl.
  - by rewrite app_nil_r.
  - destruct (lookup_lt_is_Some_2 hs i ltac:(lia)) as [h Hh]. rewrite Hh, IH by lia.
    rewrite (drop_S _ _ _ Hh). simpl. by rewrite <-app_assoc.
Qed.

Lemma get_value_at_spec b i :
  0 < scale_factor b -> (S i * Z.to_nat (scale_factor b) <= length (bhl_block_hashes b))%nat ->
  get_value_at b (Z.of_nat i) =
  inr (concat (take (Z.to_nat (scale_factor b))
                 (drop (i * Z.to_nat (scale_factor b)) (bhl_block_hashes b)))).
Proof.
  intros Hs Hi. unfold get_value_at.
  assert (0 < Z.to_nat (scale_factor b))%nat by lia.
  replace (Z.to_nat (Z.of_nat i * scale_factor b)) with (i * Z.to_nat (scale_factor b))%nat by lia.
  destruct (lookup_lt_is_Some_2 (bhl_block_hashes b) (i * Z.to_nat (scale_factor b)) ltac:(lia))
    as [h Hh].
  rewrite Hh, merge_hashes_spec by lia. rewrite (drop_S _ _ _ Hh).
  generalize dependent (Z.to_nat (scale_factor b)). intros [|n] **; [lia|]. simpl.
  by rewrite Nat.sub_0_r.
Qed.

Lemma get_values_spec b i n :
  0 < scale_factor b -> ((i + n) * Z.to_nat (scale_factor b) <= length (bhl_block_hashes b))%nat ->
  get_values b (Z.of_nat i) n =
  inr (map (fun j => concat (take (Z.to_nat (scale_factor b))
                 (drop (j * Z.to_nat (scale_factor b)) (bhl_block_hashes b)))) (seq i n)).
Proof.
  intros Hs. revert i. induction n as [|n IH]; intros i Hn; [done|]. cbn [get_values seq map].
  rewrite get_value_at_spec by nia.
  replace (Z.of_nat i + 1) with (Z.of_nat (S i)) by lia. rewrite IH by lia. done.
Qed.

Lemma concat_chunks {A} (hs : list (list A)) s n :
  (n * s <= length hs)%nat ->
  concat (map (fun j => concat (take s (drop (j * s) hs))) (seq 0 n)) = concat (take (n * s) hs).
Proof.
  intros Hn. induction n as [|n IH]; [done|].
  rewrite seq_S, map_app, concat_app, IH by lia. simpl. rewrite app_nil_r, <-concat_app.
  f_equal. rewrite take_take_drop. f_equal. lia.
Qed.

(** The regrouped hashes as a list. *)
Definition regroup (m : nat) (hashes : list bytes) : list bytes :=
  map (fun j => concat (take m (drop (j * m) hashes))) (seq 0 (length hashes / m)).

Lemma length_regroup m hashes : length (regroup m hashes) = (length hashes / m)%nat.
Proof. unfold regroup. by rewrite length_map, length_seq. Qed.

Lemma regroup_bound m (hashes : list bytes) : (0 < m)%nat -> (length hashes / m * m <= length hashes)%nat.
Proof. intros Hm. pose proof (Nat.Div0.mul_div_le (length hashes) m). lia. Qed.

Lemma hash_list_init_spec hashes hbs m :
  0 < hbs -> hash_list_init hashes hbs (hbs * Z.of_nat m) = inr (mkHashList hashes (Z.of_nat m)).
Proof.
  intros Hb. unfold hash_list_init. rewrite (Z.mul_comm hbs), Z.mod_mul, Z.div_mul by lia. done.
Qed.

Lemma hash_list_len_nat hashes m :
  hash_list_len (mkHashList hashes (Z.of_nat m)) = Z.of_nat (length hashes / m).
Proof. unfold hash_list_len. simpl. by rewrite <-Nat2Z.inj_div. Qed.

Lemma hash_list_from_spec hashes m k :
  (0 < m)%nat -> 0 <= k ->
  hash_list_from (mkHashList hashes (Z.of_nat m)) k = inr (drop (Z.to_nat k) (regroup m hashes)).
Proof.
  intros Hm Hk. unfold hash_list_from, regroup. rewrite hash_list_len_nat.
  set (n := (length hashes / m)%nat). pose proof (regroup_bound m hashes Hm) as Hlen. fold n in Hlen.
  replace (Z.min k (Z.of_nat n)) with (Z.of_nat (Nat.min (Z.to_nat k) n)) by lia.
  replace (Z.to_nat (Z.of_nat n - _)) with (n - Nat.min (Z.to_nat k) n)%nat by lia.
  rewrite get_values_spec; simpl; rewrite ?Nat2Z.id; [|lia|nia].
  f_equal. rewrite skipn_map. f_equal. rewrite drop_seq.
  destruct (decide (Z.to_nat k <= n)%nat).
  - by replace (Nat.min (Z.to_nat k) n) with (Z.to_nat k) by lia.
  - by replace (n - Nat.min (Z.to_nat k) n)%nat with 0%nat by lia;
      replace (n - Z.to_nat k)%nat with 0%nat by lia.
Qed.

Lemma hash_list_iter_spec hashes m :
  (0 < m)%nat -> hash_list_iter (mkHashList hashes (Z.of_nat m)) = inr (regroup m hashes).
Proof.
  intros Hm. unfold hash_list_iter. rewrite hash_list_len_nat, Nat2Z.id. change 0 with (Z.of_nat 0).
  pose proof (regroup_bound m hashes Hm).
  rewrite get_values_spec; simpl; rewrite ?Nat2Z.id; [done|lia|lia].
Qed.

Lemma lookup_regroup m hashes i h :
  regroup m hashes !! i = Some h -> h = concat (take m (drop (i * m) hashes)).
Proof.
  unfold regroup. rewrite list_lookup_fmap. destruct (decide (i < length hashes / m)%nat).
  - rewrite lookup_seq_lt by done. simpl. by intros [= <-].
  - by rewrite lookup_seq_ge by lia.
Qed.

(** Converting hashes to a larger block size loses nothing: iteration never
    raises, yields one hash per group of [target / hash] consecutive hashes, in
    order, and together they are exactly the bytes of those hashes; slicing from
    [k] gives the tail of the iteration. *)
Theorem regrouped_hashes (hashes : list bytes) (hbs k : Z) (m : nat) :
  0 < hbs -> (0 < m)%nat -> 0 <= k ->
  exists b l,
    hash_list_init hashes hbs (hbs * Z.of_nat m) = inr b /\
    hash_list_iter b = inr l /\
    length l = (length hashes / m)%nat /\
    (forall i h, l !! i = Some h -> h = concat (take m (drop (i * m) hashes))) /\
    concat l = concat (take (length l * m) hashes) /\
    hash_list_from b k = inr (drop (Z.to_nat k) l).
Proof.
  intros Hb Hm Hk. exists (mkHashList hashes (Z.of_nat m)), (regroup m hashes).
  split_and!; [by apply hash_list_init_spec|by apply hash_list_iter_spec|apply length_regroup
    |by apply lookup_regroup| |by apply hash_list_from_spec].
  rewrite length_regroup. by apply concat_chunks, regroup_bound.
Qed.

Lemma regrouped_hashes_witness :
  exists b l, hash_list_init [[1]; [2]; [3]; [4]; [5]] 16 32 = inr b /\
    hash_list_iter b = inr l /\ length l = 2%nat /\ concat l = [1; 2; 3; 4].
Proof.
  destruct (regrouped_hashes [[1]; [2]; [3]; [4]; [5]] 16 1 2 ltac:(lia) ltac:(lia) ltac:(lia))
    as (b & l & ? & ? & Hl & _ & Hc & _).
  exists b, l. split; [done|]. split; [done|]. split; [done|]. rewrite Hc, Hl. reflexivity.
Defined.
