(* ===== verification/BlockPool.v ===== *)
(** The block pool ([vllm/v1/core/block_pool.py]): reference counts, the free
    queue, and the prefix cache that maps block hashes to blocks.

    Block objects live in the map [blocks], keyed by block id; a reference to a
    block object is its id. The optional metrics collector only receives calls,
    so the model keeps the trace of the calls made to it. *)
From stdpp Require Import gmap strings list.
From Stdlib Require Import ZArith QArith Lqa Lia.
From S2P Require Import Prelude BlockQueue Request BlockHash.
Open Scope Z_scope.

(** ** Data *)

(** The attributes of [KVCacheBlock] other than the queue links. *)
Record KVCacheBlock := mkBlock {
  ref_cnt : Z;
  block_hash : option bytes;
  is_null : bool
}.
#[export] Instance KVCacheBlock_inhabited : Inhabited KVCacheBlock :=
  populate (mkBlock 0 None false).

Inductive KVCacheEvent :=
| BlockStored (block_hashes : list ExternalBlockHash) (parent_block_hash : option ExternalBlockHash)
    (token_ids : list Z) (block_size : Z) (lora_id : option Z) (medium : string)
| BlockRemoved (block_hashes : list ExternalBlockHash) (medium : string)
| AllBlocksCleared.
Definition MEDIUM_GPU : string := "GPU".

Inductive MetricsCall :=
| OnBlockAllocated (b : Z) | OnBlockAccessed (b : Z) | OnBlockEvicted (b : Z) | MetricsReset.

(** ** [BlockHashToBlockMap] *)
Module BlockMap.

(** A cache entry is one block, or a dict from block id to block; the dict is
    the list of its keys in insertion order. *)
Inductive KVCacheBlocks := One (b : Z) | Many (d : list Z).

Notation t := (gmap (list Z) KVCacheBlocks).

Definition get_one_block (c : t) (key : list Z) : exn + option Z :=
  match c !! key with
  | None => inr None
  | Some (One b) => inr (Some b)
  | Some (Many (b :: _)) => inr (Some b)
  | Some (Many []) => inl StopIteration
  end.

Definition dict_set (d : list Z) (k : Z) : list Z := if decide (k ∈ d) then d else d ++ [k].
Definition dict_del (d : list Z) (k : Z) : list Z := filter (fun x => x <> k) d.

Definition insert (c : t) (key : list Z) (b : Z) : t :=
  match c !! key with
  | None => <[key := One b]> c
  | Some (One b0) => <[key := Many (dict_set [b0] b)]> c
  | Some (Many d) => <[key := Many (dict_set d b)]> c
  end.

Definition pop (c : t) (key : list Z) (block_id : Z) : option Z * t :=
  match c !! key with
  | None => (None, c)
  | Some (One b) =>
      let c' := delete key c in
      if b =? block_id then (Some b, c') else (None, <[key := One b]> c')
  | Some (Many d) =>
      let c' := delete key c in
      let block := if decide (block_id ∈ d) then Some block_id else None in
      let d' := dict_del d block_id in
      (block, if bool_decide (0 < length d')%nat then <[key := Many d']> c' else c')
  end.

Definition len (c : t) : nat := size c.

(** The blocks cached under a key, first returned first. *)
Definition elems (c : t) (key : list Z) : list Z :=
  match c !! key with None => [] | Some (One b) => [b] | Some (Many d) => d end.

End BlockMap.

(** ** The pool *)

Record BlockPool := mkPool {
  num_gpu_blocks : Z;
  enable_caching : bool;
  hash_block_size : Z;
  blocks : gmap Z KVCacheBlock;
  free_block_queue : FreeKVCacheBlockQueue;
  cached_block_hash_to_block : BlockMap.t;
  null_block : Z;
  enable_kv_cache_events : bool;
  use_int_block_hashes : bool; (* VLLM_KV_EVENTS_USE_INT_BLOCK_HASHES *)
  kv_event_queue : list KVCacheEvent;
  metrics_collector : option (list MetricsCall)
}.

Definition set_blocks (f : gmap Z KVCacheBlock -> gmap Z KVCacheBlock) (p : BlockPool) : BlockPool :=
  mkPool (num_gpu_blocks p) (enable_caching p) (hash_block_size p) (f (blocks p))
    (free_block_queue p) (cached_block_hash_to_block p) (null_block p)
    (enable_kv_cache_events p) (use_int_block_hashes p) (kv_event_queue p) (metrics_collector p).
Definition set_queue (q : FreeKVCacheBlockQueue) (p : BlockPool) : BlockPool :=
  mkPool (num_gpu_blocks p) (enable_caching p) (hash_block_size p) (blocks p)
    q (cached_block_hash_to_block p) (null_block p)
    (enable_kv_cache_events p) (use_int_block_hashes p) (kv_event_queue p) (metrics_collector p).
Definition set_cache (c : BlockMap.t) (p : BlockPool) : BlockPool :=
  mkPool (num_gpu_blocks p) (enable_caching p) (hash_block_size p) (blocks p)
    (free_block_queue p) c (null_block p)
    (enable_kv_cache_events p) (use_int_block_hashes p) (kv_event_queue p) (metrics_collector p).
Definition set_kv_events (es : list KVCacheEvent) (p : BlockPool) : BlockPool :=
  mkPool (num_gpu_blocks p) (enable_caching p) (hash_block_size p) (blocks p)
    (free_block_queue p) (cached_block_hash_to_block p) (null_block p)
    (enable_kv_cache_events p) (use_int_block_hashes p) es (metrics_collector p).
Definition set_metrics (m : option (list MetricsCall)) (p : BlockPool) : BlockPool :=
  mkPool (num_gpu_blocks p) (enable_caching p) (hash_block_size p) (blocks p)
    (free_block_queue p) (cached_block_hash_to_block p) (null_block p)
    (enable_kv_cache_events p) (use_int_block_hashes p) (kv_event_queue p) m.

Definition on_queue {A} (m : py FreeKVCacheBlockQueue A) : py BlockPool A :=
  py_zoom free_block_queue set_queue m.
Definition get_block (b : Z) : py BlockPool KVCacheBlock := py_gets (fun p => blocks p !!! b).
Definition add_ref (b d : Z) : py BlockPool unit :=
  py_modify (set_blocks (fun bs => let k := bs !!! b in
    <[b := mkBlock (ref_cnt k + d) (block_hash k) (is_null k)]> bs)).
(** [block.reset_hash()] *)
Definition reset_hash (b : Z) : py BlockPool unit :=
  py_modify (set_blocks (fun bs => let k := bs !!! b in
    <[b := mkBlock (ref_cnt k) None (is_null k)]> bs)).
(** The setter [block.block_hash = h]. *)
Definition set_block_hash (b : Z) (h : bytes) : py BlockPool unit :=
  let! k := get_block b in
  do! py_assert (bool_decide (block_hash k = None));
  py_modify (set_blocks (fun bs => <[b := mkBlock (ref_cnt k) (Some h) (is_null k)]> bs)).
Definition push_event (e : KVCacheEvent) : py BlockPool unit :=
  py_modify (fun p => set_kv_events (kv_event_queue p ++ [e]) p).
(** [if self.metrics_collector: self.metrics_collector.<call>] *)
Definition metrics (c : MetricsCall) : py BlockPool unit :=
  py_modify (fun p => set_metrics
    (match metrics_collector p with Some t => Some (t ++ [c]) | None => None end) p).
Definition make_key (h : bytes) (g : Z) : py BlockPool bytes :=
  py_unwrap OverflowError (make_block_hash_with_group_id h g).

Definition get_num_free_blocks (p : BlockPool) : Z := num_free_blocks (free_block_queue p).

(** [__init__] *)
Definition block_ids (n : Z) : list Z := map Z.of_nat (seq 0 (Z.to_nat n)).
Definition pool_init (num_gpu_blocks : Z) (enable_caching : bool) (hash_block_size : Z)
    (enable_kv_cache_events use_int has_metrics : bool) : exn + BlockPool :=
  if negb (num_gpu_blocks >? 0) then inl AssertionError else
  match queue_init (block_ids num_gpu_blocks) with
  | Raise e _ => inl e
  | Ret _ q =>
      match popleft q with
      | Raise e _ => inl e
      | Ret null q' =>
          let bs : gmap Z KVCacheBlock :=
            list_to_map (map (fun b => (b, mkBlock 0 None false)) (block_ids num_gpu_blocks)) in
          inr (mkPool num_gpu_blocks enable_caching hash_block_size
                 (<[null := mkBlock 0 None true]> bs) q' ∅ null enable_kv_cache_events use_int []
                 (if has_metrics then Some [] else None))
      end
  end.

Fixpoint get_cached_block (h : bytes) (kv_cache_group_ids : list Z) (cached_blocks : list Z)
    : py BlockPool (option (list Z)) :=
  match kv_cache_group_ids with
  | [] => py_ret (Some cached_blocks)
  | group_id :: gs =>
      let! key := make_key h group_id in
      let! c := py_gets cached_block_hash_to_block in
      match BlockMap.get_one_block c key with
      | inl e => py_raise e
      | inr None => py_ret None
      | inr (Some b) => get_cached_block h gs (cached_blocks ++ [b])
      end
  end.

(** The [for i, blk in enumerate(new_full_blocks)] loop of [cache_full_blocks];
    [hs] is [new_block_hashes[i:]], and the result is [new_hashes]. *)
Fixpoint cache_loop (kv_cache_group_id : Z) (new_full_blocks : list Z) (hs : list bytes)
    (new_hashes : list ExternalBlockHash) : py BlockPool (list ExternalBlockHash) :=
  match new_full_blocks with
  | [] => py_ret new_hashes
  | blk :: blks =>
      let! k := get_block blk in
      do! py_assert (bool_decide (block_hash k = None));
      match hs with
      | [] => py_raise IndexError
      | h :: hs' =>
          let! key := make_key h kv_cache_group_id in
          do! set_block_hash blk key;
          do! py_modify (fun p => set_cache (BlockMap.insert (cached_block_hash_to_block p) key blk) p);
          let! ev := py_gets enable_kv_cache_events in
          let! ui := py_gets use_int_block_hashes in
          cache_loop kv_cache_group_id blks hs'
            (if ev then new_hashes ++ [maybe_convert_block_hash ui h] else new_hashes)
      end
  end.

(** [block_hashes[num_cached_blocks:]] at the granularity of the group. *)
Definition new_block_hashes (request : Request) (num_cached_blocks block_size : Z)
    : py BlockPool (list bytes) :=
  let! hbs := py_gets hash_block_size in
  if block_size =? hbs
  then py_ret (drop (Z.to_nat num_cached_blocks) (block_hashes request))
  else
    do! py_assert (block_size mod hbs =? 0);
    match hash_list_init (block_hashes request) hbs block_size with
    | inl e => py_raise e
    | inr b => match hash_list_from b num_cached_blocks with
               | inl e => py_raise e
               | inr l => py_ret l
               end
    end.

(** The event published at the end of [cache_full_blocks]. *)
Definition publish_stored (request : Request) (blks : list Z)
    (num_cached_blocks num_full_blocks block_size : Z) (new_hashes : list ExternalBlockHash)
    : py BlockPool unit :=
  let! ui := py_gets use_int_block_hashes in
  let! parent :=
    if num_cached_blocks =? 0 then py_ret None
    else
      let! pb := py_unwrap IndexError (blks !! Z.to_nat (num_cached_blocks - 1)) in
      let! k := get_block pb in
      let! ph := py_unwrap AssertionError (block_hash k) in
      py_ret (Some (maybe_convert_block_hash ui (get_block_hash ph))) in
  push_event (BlockStored new_hashes parent
    (slice (all_token_ids request) (num_cached_blocks * block_size) (num_full_blocks * block_size))
    block_size (match lora_request (args request) with Some l => Some (lora_int_id l) | None => None end)
    MEDIUM_GPU).

Definition cache_full_blocks (request : Request) (blks : list Z)
    (num_cached_blocks num_full_blocks block_size kv_cache_group_id : Z) : py BlockPool unit :=
  if num_cached_blocks >=? num_full_blocks then py_ret tt else
  let new_full_blocks := slice blks num_cached_blocks num_full_blocks in
  do! py_assert (Z.of_nat (length (block_hashes request)) >=? num_full_blocks);
  let! hs := new_block_hashes request num_cached_blocks block_size in
  let! new_hashes := cache_loop kv_cache_group_id new_full_blocks hs [] in
  let! ev := py_gets enable_kv_cache_events in
  if ev
  then publish_stored request blks num_cached_blocks num_full_blocks block_size new_hashes
  else py_ret tt.

Definition maybe_evict_cached_block (b : Z) : py BlockPool bool :=
  do! metrics (OnBlockEvicted b);
  let! k := get_block b in
  match block_hash k with
  | None => py_ret false
  | Some h =>
      let! c := py_gets cached_block_hash_to_block in
      let '(popped, c') := BlockMap.pop c h b in
      do! py_modify (set_cache c');
      match popped with
      | None => py_ret false
      | Some _ =>
          do! reset_hash b;
          let! ev := py_gets enable_kv_cache_events in
          let! ui := py_gets use_int_block_hashes in
          do! (if ev then push_event (BlockRemoved [maybe_convert_block_hash ui (get_block_hash h)] MEDIUM_GPU)
               else py_ret tt);
          py_ret true
      end
  end.

(** The bodies of the two loops of [get_new_blocks]. *)
Definition take_block (evict : bool) (b : Z) : py BlockPool unit :=
  do! (if evict then do! maybe_evict_cached_block b; py_ret tt else py_ret tt);
  let! k := get_block b in
  do! py_assert (ref_cnt k =? 0);
  do! add_ref b 1;
  metrics (OnBlockAllocated b).

Definition get_new_blocks (num_blocks : Z) : py BlockPool (list Z) :=
  let! free := py_gets get_num_free_blocks in
  if num_blocks >? free then py_raise ValueError else
  let! ret := on_queue (popleft_n num_blocks) in
  let! caching := py_gets enable_caching in
  do! py_for ret (take_block caching);
  py_ret ret.

Definition touch_block (b : Z) : py BlockPool unit :=
  let! k := get_block b in
  do! (if (ref_cnt k =? 0) && negb (is_null k) then on_queue (remove b) else py_ret tt);
  do! add_ref b 1;
  metrics (OnBlockAccessed b).

Definition touch (blks : list (list Z)) : py BlockPool unit :=
  py_for blks (fun blocks_per_group => py_for blocks_per_group touch_block).

Definition free_blocks (ordered_blocks : list Z) : py BlockPool unit :=
  do! py_for ordered_blocks (fun b => add_ref b (-1));
  let! bs := py_gets blocks in
  on_queue (append_n (List.filter
    (fun b => (ref_cnt (bs !!! b) =? 0) && negb (is_null (bs !!! b))) ordered_blocks)).

Definition reset_prefix_cache : py BlockPool bool :=
  let! p := py_get in
  let num_used_blocks := num_gpu_blocks p - get_num_free_blocks p in
  if negb (num_used_blocks =? 1) then py_ret false else
  do! py_modify (set_cache ∅);
  do! py_for (block_ids (num_gpu_blocks p)) reset_hash;
  do! metrics MetricsReset;
  do! (if enable_kv_cache_events p then push_event AllBlocksCleared else py_ret tt);
  py_ret true.

(** [get_usage], with the float quotient as a rational. *)
Definition get_usage (p : BlockPool) : Q :=
  let total_gpu_blocks := num_gpu_blocks p - 1 in
  if total_gpu_blocks =? 0 then 0%Q
  else (1 - (inject_Z (get_num_free_blocks p) / inject_Z total_gpu_blocks))%Q.

Definition pool_take_events : py BlockPool (list KVCacheEvent) :=
  let! ev := py_gets enable_kv_cache_events in
  if negb ev then py_ret [] else
  let! es := py_gets kv_event_queue in
  do! py_modify (set_kv_events []);
  py_ret es.

(** ** The pool invariant *)

Definition rc (p : BlockPool) (b : Z) : Z := ref_cnt (blocks p !!! b).
Definition bh (p : BlockPool) (b : Z) : option bytes := block_hash (blocks p !!! b).
Definition cached_under (p : BlockPool) (key : bytes) : list Z :=
  BlockMap.elems (cached_block_hash_to_block p) key.

(** [l] holds the free blocks. *)
Record pool_core (p : BlockPool) (l : list Z) : Prop := mkPoolCore {
  inv_null : null_block p = 0;
  inv_is_null : forall b, is_null (blocks p !!! b) = true <-> b = 0;
  inv_free : forall b, b ∈ l <-> 0 < b < num_gpu_blocks p /\ rc p b = 0;
  inv_nonneg : forall b, 0 < b -> 0 <= rc p b;
  inv_size : 0 < num_gpu_blocks p;
  inv_cache : forall key b, b ∈ cached_under p key <-> bh p b = Some key;
  inv_entry : forall key, NoDup (cached_under p key) /\
                          cached_block_hash_to_block p !! key <> Some (BlockMap.Many []);
  inv_hashed : forall b h, bh p b = Some h -> 0 < b < num_gpu_blocks p
}.

(** The queue holds exactly the free blocks, in eviction order [l]. *)
Record pool_inv (p : BlockPool) (l : list Z) : Prop := mkPoolInv {
  inv_rep : rep (free_block_queue p) l;
  inv_core :> pool_core p l
}.

(** What no operation changes. *)
Record same_pool (p p' : BlockPool) : Prop := mkSamePool {
  sp_num : num_gpu_blocks p' = num_gpu_blocks p;
  sp_caching : enable_caching p' = enable_caching p;
  sp_hbs : hash_block_size p' = hash_block_size p;
  sp_null : null_block p' = null_block p;
  sp_events : enable_kv_cache_events p' = enable_kv_cache_events p;
  sp_int : use_int_block_hashes p' = use_int_block_hashes p
}.

#[export] Instance same_pool_preorder : PreOrder same_pool.
Proof.
  split.
  - intros p. by repeat split.
  - intros p1 p2 p3 [] []. split; congruence.
Qed.
Lemma same_pool_refl p : same_pool p p.
Proof. reflexivity. Qed.
#[export] Hint Resolve same_pool_refl : pool.

(** *** The cache map *)

Lemma elems_insert c key b key' :
  BlockMap.elems (BlockMap.insert c key b) key' =
  if decide (key = key') then BlockMap.dict_set (BlockMap.elems c key) b
  else BlockMap.elems c key'.
Proof.
  unfold BlockMap.insert, BlockMap.elems.
  destruct (c !! key) as [[b0|d]|] eqn:E; rewrite lookup_insert; by destruct (decide (key = key')).
Qed.

Lemma elem_of_dict_set d k x : x ∈ BlockMap.dict_set d k <-> x ∈ d \/ x = k.
Proof. unfold BlockMap.dict_set. case_decide; set_solver. Qed.

Lemma NoDup_dict_set d k : NoDup d -> NoDup (BlockMap.dict_set d k).
Proof.
  intros Hd. unfold BlockMap.dict_set. case_decide; [done|].
  apply NoDup_app. split; [done|]. split; [set_solver|apply NoDup_singleton].
Qed.

(** Popping a block removes it from the entry of its key, and only from there. *)
Lemma pop_spec c key b key' :
  (BlockMap.pop c key b).1 = (if decide (b ∈ BlockMap.elems c key) then Some b else None) /\
  BlockMap.elems (BlockMap.pop c key b).2 key' =
  (if decide (key = key') then BlockMap.dict_del (BlockMap.elems c key) b
   else BlockMap.elems c key').
Proof.
  unfold BlockMap.pop, BlockMap.elems, BlockMap.dict_del.
  destruct (c !! key) as [[b0|d]|] eqn:E; simpl.
  - destruct (b0 =? b) eqn:Eb; [apply Z.eqb_eq in Eb as ->|apply Z.eqb_neq in Eb]; simpl.
    + rewrite decide_True by set_solver. rewrite lookup_delete.
      destruct (decide (key = key')); [|done]. by rewrite filter_cons, decide_False by auto.
    + rewrite decide_False by set_solver. rewrite insert_delete_eq, lookup_insert.
      destruct (decide (key = key')); [|done]. by rewrite filter_cons, decide_True.
  - split; [done|]. case_bool_decide as Hl.
    + rewrite insert_delete_eq, lookup_insert. by destruct (decide (key = key')).
    + rewrite lookup_delete. destruct (decide (key = key')); [|done].
      symmetry. apply nil_length_inv. lia.
  - split; [done|].
    destruct (decide (key = key')) as [<-|]; [|done]. by rewrite E.
Qed.

(** A popped entry is never left as an empty dict. *)
Lemma pop_entry c key b key' :
  c !! key' <> Some (BlockMap.Many []) -> (BlockMap.pop c key b).2 !! key' <> Some (BlockMap.Many []).
Proof.
  intros Hc. unfold BlockMap.pop. destruct (c !! key) as [[b0|d]|] eqn:E; simpl; [..|done].
  - destruct (b0 =? b); simpl; rewrite ?lookup_insert, ?lookup_delete; repeat case_decide; naive_solver.
  - case_bool_decide as Hl; simpl; rewrite ?lookup_insert, ?lookup_delete; repeat case_decide;
      [|naive_solver..]. intros [= Hn]. rewrite Hn in Hl. simpl in Hl. lia.
Qed.

Lemma insert_entry c key b key' :
  c !! key' <> Some (BlockMap.Many []) -> BlockMap.insert c key b !! key' <> Some (BlockMap.Many []).
Proof.
  intros Hc. unfold BlockMap.insert. destruct (c !! key) as [[b0|d]|] eqn:E;
    rewrite lookup_insert; case_decide; try done; intros [= Hn];
    eapply (not_elem_of_nil b); rewrite <-Hn; apply elem_of_dict_set; by right.
Qed.

(** *** Field updates *)

Lemma wp_add_ref b d Q p :
  (forall p', same_pool p p' ->
     (forall x, rc p' x = rc p x + if decide (b = x) then d else 0) ->
     (forall x, bh p' x = bh p x) ->
     (forall x, is_null (blocks p' !!! x) = is_null (blocks p !!! x)) ->
     free_block_queue p' = free_block_queue p ->
     cached_block_hash_to_block p' = cached_block_hash_to_block p -> Q tt p') ->
  wp (add_ref b d) Q p.
Proof.
  intros H. apply wp_modify. apply H; [by repeat split|..|done|done]; intros x;
    unfold rc, bh; simpl; rewrite lookup_total_insert; case_decide; subst; simpl; lia || done.
Qed.

Lemma wp_metrics c Q p :
  (forall p', same_pool p p' -> blocks p' = blocks p -> free_block_queue p' = free_block_queue p ->
     cached_block_hash_to_block p' = cached_block_hash_to_block p -> Q tt p') ->
  wp (metrics c) Q p.
Proof. intros H. apply wp_modify. apply H; by repeat split. Qed.

Lemma wp_push_event e Q p :
  (forall p', same_pool p p' -> blocks p' = blocks p -> free_block_queue p' = free_block_queue p ->
     cached_block_hash_to_block p' = cached_block_hash_to_block p -> Q tt p') ->
  wp (push_event e) Q p.
Proof. intros H. apply wp_modify. apply H; by repeat split. Qed.

(** *** Changing reference counts *)

(** Adding [d b] references to every block, with the free list updated to [l']:
    the invariant is kept when [l'] holds the blocks that are left without
    references. *)
Lemma pool_core_refs p p' l l' (d : Z -> Z) :
  pool_core p l -> same_pool p p' ->
  (forall b, rc p' b = rc p b + d b) -> (forall b, bh p' b = bh p b) ->
  (forall b, is_null (blocks p' !!! b) = is_null (blocks p !!! b)) ->
  cached_block_hash_to_block p' = cached_block_hash_to_block p ->
  (forall b, b ∈ l' <-> 0 < b < num_gpu_blocks p /\ rc p b + d b = 0) ->
  (forall b, 0 < b -> 0 <= rc p b + d b) -> pool_core p' l'.
Proof.
  intros Hinv [En _ _ Enull _ _] Hrc Hbh Hin Hc Hl Hnn. split; try done.
  - rewrite Enull. apply (inv_null _ _ Hinv).
  - intros b. rewrite Hin. apply (inv_is_null _ _ Hinv).
  - intros b. by rewrite Hrc, En.
  - intros b. rewrite Hrc. auto.
  - rewrite En. apply (inv_size _ _ Hinv).
  - intros key b. unfold cached_under. rewrite Hc, Hbh. apply (inv_cache _ _ Hinv).
  - intros key. unfold cached_under. rewrite Hc. apply (inv_entry _ _ Hinv).
  - intros b h. rewrite Hbh, En. apply (inv_hashed _ _ Hinv).
Qed.

(** The invariant only reads the blocks, the queue and the cache. *)
Lemma pool_inv_ext p p' l :
  pool_inv p l -> same_pool p p' -> (forall b, rc p' b = rc p b) -> (forall b, bh p' b = bh p b) ->
  (forall b, is_null (blocks p' !!! b) = is_null (blocks p !!! b)) ->
  rep (free_block_queue p') l ->
  cached_block_hash_to_block p' = cached_block_hash_to_block p -> pool_inv p' l.
Proof.
  intros Hinv Hs Hrc Hbh Hin Hq Hc. split; [done|]. apply (pool_core_refs p p' l l (fun _ => 0)); try done.
  - apply Hinv.
  - intros b. rewrite Hrc. lia.
  - intros b. rewrite Z.add_0_r. apply (inv_free _ _ Hinv).
  - intros b. rewrite Z.add_0_r. apply (inv_nonneg _ _ Hinv).
Qed.

(** ** Touching blocks *)

Lemma touch_block_spec p l b :
  pool_inv p l -> 0 <= b < num_gpu_blocks p ->
  wp (touch_block b) (fun _ p' =>
    pool_inv p' (filter (fun x => x <> b) l) /\ same_pool p p' /\
    (forall x, rc p' x = rc p x + if decide (b = x) then 1 else 0) /\
    (forall x, bh p' x = bh p x) /\
    cached_block_hash_to_block p' = cached_block_hash_to_block p) p.
Proof.
  intros Hinv Hb. unfold touch_block. wp_step. wp_step. wp_step.
  set (l' := filter (fun x => x <> b) l).
  apply (wp_mono _ (fun _ p1 => same_pool p p1 /\ blocks p1 = blocks p /\
           cached_block_hash_to_block p1 = cached_block_hash_to_block p /\
           rep (free_block_queue p1) l')).
  { destruct ((ref_cnt (blocks p !!! b) =? 0) && negb (is_null (blocks p !!! b))) eqn:E.
    - apply andb_true_iff in E as [E1%Z.eqb_eq E2%negb_true_iff].
      assert (b ∈ l) as Hin.
      { apply (inv_free _ _ Hinv). split; [|done].
        assert (b <> 0); [|lia]. intros ->. by rewrite (proj2 (inv_is_null _ _ Hinv 0)) in E2. }
      apply list_elem_of_split in Hin as (l1 & l2 & El). unfold on_queue. apply wp_zoom.
      pose proof (inv_rep _ _ Hinv) as Hrep. rewrite El in Hrep.
      eapply wp_mono; [by apply remove_rep|]. simpl. intros _ q' Hq'.
      split; [by repeat split|]. split; [done|]. split; [done|].
      subst l'. rewrite El, filter_ne_split; [done|]. by apply rep_nodup in Hrep.
    - apply wp_ret. split; [by repeat split|]. split; [done|]. split; [done|].
      assert (l' = l) as ->; [|by apply (inv_rep _ _ Hinv)]. subst l'.
      assert (b ∉ l) as Hn.
      { intros [Hb' Hrc]%(inv_free _ _ Hinv). unfold rc in Hrc. rewrite Hrc in E. simpl in E.
        apply negb_false_iff in E. apply (inv_is_null _ _ Hinv) in E. lia. }
      clear - Hn. induction l as [|x l IH]; [done|].
      rewrite filter_cons, decide_True by set_solver. f_equal. apply IH. set_solver. }
  simpl. intros _ p1 (Hs1 & Hb1 & Hc1 & Hq1). wp_step. apply wp_add_ref.
  intros p2 Hs2 Hrc2 Hbh2 Hin2 Hq2 Hc2. apply wp_metrics. intros p3 Hs3 Hb3 Hq3 Hc3.
  assert (forall x, rc p3 x = rc p x + if decide (b = x) then 1 else 0) as Hrc.
  { intros x. unfold rc in *. by rewrite Hb3, Hrc2, Hb1. }
  assert (forall x, bh p3 x = bh p x) as Hbh.
  { intros x. unfold bh in *. by rewrite Hb3, Hbh2, Hb1. }
  assert (same_pool p p3) as Hs by (transitivity p1; [done|]; by transitivity p2).
  split; [|by rewrite Hc3, Hc2, Hc1].
  split; [by rewrite Hq3, Hq2|].
  apply (pool_core_refs p p3 l l' (fun x => if decide (b = x) then 1 else 0) Hinv); [done|done|done|..].
  - intros x. by rewrite Hb3, Hin2, Hb1.
  - by rewrite Hc3, Hc2, Hc1.
  - intros x. subst l'. rewrite list_elem_of_filter, (inv_free _ _ Hinv). simpl.
    pose proof (inv_nonneg _ _ Hinv x). case_decide; subst; split; intros; try lia.
    all: split_and!; try lia; naive_solver lia.
  - intros x Hx. pose proof (inv_nonneg _ _ Hinv x Hx). case_decide; lia.
Qed.

(** The effect of touching the blocks [bs] on a pool whose free list is [l]. *)
Definition touched (p : BlockPool) (l bs : list Z) (p' : BlockPool) : Prop :=
  pool_inv p' (filter (fun x => x ∉ bs) l) /\ same_pool p p' /\
  (forall x, rc p' x = rc p x + occ x bs) /\ (forall x, bh p' x = bh p x) /\
  cached_block_hash_to_block p' = cached_block_hash_to_block p.

Lemma filter_notin_nil (l : list Z) : filter (fun x => x ∉ []) l = l.
Proof. induction l as [|x l IH]; [done|]. by rewrite filter_cons, decide_True, IH by set_solver. Qed.

Lemma touched_app p l bs p1 bs' p2 :
  touched p l bs p1 -> touched p1 (filter (fun x => x ∉ bs) l) bs' p2 -> touched p l (bs ++ bs') p2.
Proof.
  intros (_ & S1 & R1 & B1 & C1) (I2 & S2 & R2 & B2 & C2). split_and!.
  - rewrite list_filter_filter in I2.
    erewrite list_filter_iff; [exact I2|]. intros x. simpl. set_solver.
  - by transitivity p1.
  - intros x. rewrite R2, R1, occ_app. lia.
  - intros x. by rewrite B2.
  - by rewrite C2.
Qed.

Lemma touched_refl p l : pool_inv p l -> touched p l [] p.
Proof.
  intros Hinv. split_and!; [by rewrite filter_notin_nil|reflexivity| |done..].
  intros x. rewrite occ_nil. lia.
Qed.

Lemma touch_list_spec p l bs :
  pool_inv p l -> Forall (fun b => 0 <= b < num_gpu_blocks p) bs ->
  wp (py_for bs touch_block) (fun _ p' => touched p l bs p') p.
Proof.
  intros Hinv Hbs.
  apply (wp_for touch_block (fun vis p' => touched p l vis p') bs []); [by apply touched_refl|].
  intros pre b post p1 -> Ht. simpl in *.
  assert (0 <= b < num_gpu_blocks p1) as Hb.
  { destruct Ht as (_ & [-> _ _ _ _ _] & _). rewrite Forall_forall in Hbs. apply Hbs. set_solver. }
  eapply wp_mono; [apply touch_block_spec; [apply Ht|exact Hb]|]. simpl.
  intros _ p2 (I2 & S2 & R2 & B2 & C2). eapply touched_app; [done|]. split_and!; try done.
  - erewrite list_filter_iff; [exact I2|]. set_solver.
  - intros x. rewrite R2, occ_cons, occ_nil. lia.
Qed.

Lemma touch_spec p l bss :
  pool_inv p l -> Forall (fun b => 0 <= b < num_gpu_blocks p) (concat bss) ->
  wp (touch bss) (fun _ p' => touched p l (concat bss) p') p.
Proof.
  intros Hinv Hbs.
  apply (wp_for _ (fun vis p' => touched p l (concat vis) p') bss []); [by apply touched_refl|].
  intros pre bs post p1 -> Ht. simpl in *.
  rewrite concat_app in Hbs. simpl in Hbs. apply Forall_app in Hbs as [_ [Hbs _]%Forall_app].
  eapply wp_mono; [apply touch_list_spec; [apply Ht|]|].
  { destruct Ht as (_ & [-> _ _ _ _ _] & _). exact Hbs. }
  simpl. intros _ p2 H2. rewrite concat_app. simpl. rewrite app_nil_r. by eapply touched_app.
Qed.

(** ** Freeing blocks *)

(** The blocks of [bs] that lose their last reference. *)
Definition released (p : BlockPool) (bs : list Z) : list Z :=
  List.filter (fun b => (rc p b =? 1) && negb (b =? 0)) bs.

Lemma elem_of_released p bs b : b ∈ released p bs <-> b ∈ bs /\ rc p b = 1 /\ b <> 0.
Proof.
  unfold released. rewrite !list_elem_of_In, filter_In, andb_true_iff, negb_true_iff, Z.eqb_eq, Z.eqb_neq.
  done.
Qed.

Lemma NoDup_List_filter {A} (f : A -> bool) l : NoDup l -> NoDup (List.filter f l).
Proof. rewrite !NoDup_ListNoDup. apply List.NoDup_filter. Qed.

Lemma add_refs_spec p bs d :
  wp (py_for bs (fun b => add_ref b d)) (fun _ p' =>
    same_pool p p' /\ (forall x, rc p' x = rc p x + d * occ x bs) /\ (forall x, bh p' x = bh p x) /\
    (forall x, is_null (blocks p' !!! x) = is_null (blocks p !!! x)) /\
    free_block_queue p' = free_block_queue p /\
    cached_block_hash_to_block p' = cached_block_hash_to_block p) p.
Proof.
  eapply (wp_for _ (fun vis p' =>
    same_pool p p' /\ (forall x, rc p' x = rc p x + d * occ x vis) /\ (forall x, bh p' x = bh p x) /\
    (forall x, is_null (blocks p' !!! x) = is_null (blocks p !!! x)) /\
    free_block_queue p' = free_block_queue p /\
    cached_block_hash_to_block p' = cached_block_hash_to_block p) bs []).
  - split_and!; try done. intros x. rewrite occ_nil. lia.
  - intros pre b post p1 _ (S1 & R1 & B1 & N1 & Q1 & C1). apply wp_add_ref.
    intros p2 S2 R2 B2 N2 Q2 C2. split_and!; try congruence.
    + by transitivity p1.
    + intros x. rewrite R2, R1. simpl. rewrite occ_app, occ_cons, occ_nil. case_decide; lia.
Qed.

(** Freeing blocks that hold a reference: each loses one reference, and those
    that lose the last one join the end of the free list, in the given order. *)
Lemma free_blocks_spec p l bs :
  pool_inv p l -> NoDup (List.filter (fun b => negb (b =? 0)) bs) ->
  Forall (fun b => b <> 0 -> 0 < b < num_gpu_blocks p /\ 1 <= rc p b) bs ->
  wp (free_blocks bs) (fun _ p' =>
    pool_inv p' (l ++ released p bs) /\ same_pool p p' /\
    (forall x, rc p' x = rc p x - occ x bs) /\ (forall x, bh p' x = bh p x) /\
    cached_block_hash_to_block p' = cached_block_hash_to_block p) p.
Proof.
  intros Hinv Hnd Hbs. rewrite Forall_forall in Hbs. unfold free_blocks.
  wp_step. eapply wp_mono; [apply add_refs_spec|]. simpl.
  intros _ p1 (S1 & R1 & B1 & N1 & Q1 & C1). wp_step. wp_step. unfold on_queue. apply wp_zoom.
  assert (forall x, x <> 0 -> occ x bs = if decide (x ∈ bs) then 1 else 0) as Hocc.
  { intros x Hx. rewrite <-occ_filter_nonzero by done. rewrite occ_nodup by done.
    apply decide_ext. rewrite !list_elem_of_In, filter_In, negb_true_iff, Z.eqb_neq. naive_solver. }
  assert (List.filter (fun b => (ref_cnt (blocks p1 !!! b) =? 0) && negb (is_null (blocks p1 !!! b))) bs
          = released p bs) as ->.
  { apply List.filter_ext_in. intros b Hb%list_elem_of_In. fold (rc p1 b). rewrite R1, N1.
    pose proof (inv_is_null _ _ Hinv b) as Hn. destruct (decide (b = 0)) as [->|Hb0].
    - rewrite (proj2 Hn eq_refl). by rewrite !andb_false_r.
    - rewrite Hocc, decide_True by done. destruct (is_null _); [by destruct Hb0; apply Hn|].
      rewrite !andb_true_r, (proj2 (Z.eqb_neq b 0)), andb_true_r by done.
      apply eq_true_iff_eq. rewrite !Z.eqb_eq. lia. }
  assert (NoDup (released p bs)) as Hnr.
  { unfold released. rewrite <-(List.filter_ext_in (fun b => negb (b =? 0) && (rc p b =? 1))) by
      (intros; apply andb_comm). rewrite filter_andb. by apply NoDup_List_filter. }
  eapply wp_mono.
  { apply (append_n_rep _ l); [rewrite Q1; apply (inv_rep _ _ Hinv)|..].
    - apply NoDup_app. split; [eapply rep_nodup, (inv_rep _ _ Hinv)|]. split; [|done].
      intros x Hx (_ & Hx1 & _)%elem_of_released. apply (inv_free _ _ Hinv) in Hx. lia.
    - apply Forall_forall. intros x (Hx & _ & Hx0)%elem_of_released. specialize (Hbs x Hx Hx0). lia. }
  simpl. intros _ q Hq. split_and!; [|by etrans|intros x; unfold rc in *; simpl; rewrite R1; lia|done..].
  split; [done|].
  apply (pool_core_refs p _ l _ (fun x => - occ x bs) Hinv); [by etrans| |done|done|done|..].
  - intros x. unfold rc in *. simpl. rewrite R1. lia.
  - intros x. rewrite elem_of_app, elem_of_released, (inv_free _ _ Hinv).
    destruct (decide (x = 0)) as [->|Hx0]; [lia|]. rewrite Hocc by done.
    case_decide as Hx; [|naive_solver lia]. specialize (Hbs x Hx Hx0). naive_solver lia.
  - intros x Hx. rewrite Hocc by lia. pose proof (inv_nonneg _ _ Hinv x Hx).
    case_decide as Hx'; [|lia]. specialize (Hbs x Hx'). lia.
Qed.

(** ** Eviction and allocation *)

Lemma dict_del_notin d b : b ∉ d -> BlockMap.dict_del d b = d.
Proof.
  unfold BlockMap.dict_del. induction d as [|x d IH]; intros Hb; [done|].
  rewrite filter_cons, decide_True by set_solver. f_equal. apply IH. set_solver.
Qed.

(** The effect of removing the blocks [bs] from the cache. *)
Record evicted (p : BlockPool) (bs : list Z) (p' : BlockPool) : Prop := mkEvicted {
  ev_same : same_pool p p';
  ev_bh : forall x, bh p' x = if decide (x ∈ bs) then None else bh p x;
  ev_cache : forall key, cached_under p' key = filter (fun x => x ∉ bs) (cached_under p key)
}.

Lemma evicted_refl p : evicted p [] p.
Proof.
  split; [reflexivity|..].
  - intros x. by rewrite decide_False by set_solver.
  - intros key. by rewrite filter_notin_nil.
Qed.

Lemma evicted_app p bs p1 bs' p2 :
  evicted p bs p1 -> evicted p1 bs' p2 -> evicted p (bs ++ bs') p2.
Proof.
  intros [S1 B1 C1] [S2 B2 C2]. split.
  - by transitivity p1.
  - intros x. rewrite B2, B1. repeat case_decide; set_solver.
  - intros key. rewrite C2, C1, list_filter_filter. apply list_filter_iff. set_solver.
Qed.

Lemma evicted_core p p' l bs :
  pool_core p l -> evicted p bs p' -> (forall x, rc p' x = rc p x) ->
  (forall x, is_null (blocks p' !!! x) = is_null (blocks p !!! x)) ->
  (forall key, cached_block_hash_to_block p' !! key <> Some (BlockMap.Many [])) ->
  pool_core p' l.
Proof.
  intros Hinv [[En _ _ Enull _ _] B C] R N E. split.
  - rewrite Enull. apply (inv_null _ _ Hinv).
  - intros b. rewrite N. apply (inv_is_null _ _ Hinv).
  - intros b. rewrite R, En. apply (inv_free _ _ Hinv).
  - intros b. rewrite R. apply (inv_nonneg _ _ Hinv).
  - rewrite En. apply (inv_size _ _ Hinv).
  - intros key b. rewrite C, B, list_elem_of_filter, (inv_cache _ _ Hinv). case_decide; naive_solver.
  - intros key. rewrite C. split; [|done]. apply NoDup_filter, (inv_entry _ _ Hinv).
  - intros b h. rewrite B, En. case_decide; [done|]. apply (inv_hashed _ _ Hinv).
Qed.

Lemma evict_spec p l b :
  pool_core p l ->
  wp (maybe_evict_cached_block b) (fun r p' =>
    pool_core p' l /\ evicted p [b] p' /\ (forall x, rc p' x = rc p x) /\
    free_block_queue p' = free_block_queue p /\ r = bool_decide (is_Some (bh p b))) p.
Proof.
  intros Hinv. unfold maybe_evict_cached_block. wp_step. apply wp_metrics.
  intros p1 S1 B1 Q1 C1. wp_step. wp_step. rewrite B1.
  destruct (block_hash (blocks p !!! b)) as [h|] eqn:Eh.
  2:{ apply wp_ret. assert (evicted p [b] p1) as Hev.
      { split; [done|..].
        - intros x. unfold bh. rewrite B1. case_decide; set_solver.
        - intros key. unfold cached_under. rewrite C1. symmetry.
          etransitivity; [|apply (dict_del_notin _ b)].
          + apply list_filter_iff. set_solver.
          + intros Hin%(inv_cache _ _ Hinv key). unfold bh in Hin. congruence. }
      split_and!; [|done|by intros x; unfold rc; rewrite B1|done|].
      - eapply evicted_core; [done|done|by intros x; unfold rc; rewrite B1|by rewrite B1|].
        rewrite C1. apply (inv_entry _ _ Hinv).
      - rewrite bool_decide_eq_false_2; [done|]. unfold bh. rewrite Eh. by intros [? [=]]. }
  wp_step. wp_step. rewrite C1.
  pose proof (fun k => pop_spec (cached_block_hash_to_block p) h b k) as Hpop.
  pose proof (fun k => pop_entry (cached_block_hash_to_block p) h b k) as Hent.
  destruct (BlockMap.pop (cached_block_hash_to_block p) h b) as [popped c'] eqn:Ep. simpl in *.
  assert (b ∈ cached_under p h) as Hin by (by apply (inv_cache _ _ Hinv)).
  destruct (Hpop h) as [Hp1 _]. unfold cached_under in Hin. rewrite decide_True in Hp1 by done.
  subst popped. do 9 wp_step.
  apply (wp_mono _ (fun _ p2 => same_pool p p2 /\
    (forall x, blocks p2 !!! x = blocks (set_blocks (fun bs => let k := bs !!! b in
        <[b := mkBlock (ref_cnt k) None (is_null k)]> bs) p1) !!! x) /\
    free_block_queue p2 = free_block_queue p /\ cached_block_hash_to_block p2 = c')).
  { destruct (enable_kv_cache_events _).
    - apply wp_push_event. intros p2 S2 B2 Q2 C2. rewrite B2, Q2, C2. simpl.
      split_and!; [|done..]. destruct S1, S2. split; simpl in *; congruence.
    - apply wp_ret. simpl. split_and!; [|done..]. destruct S1. split; simpl; congruence. }
  simpl. intros _ p2 (S2 & B2 & Q2 & C2). apply wp_ret.
  assert (forall x, rc p2 x = rc p x) as HR.
  { intros x. unfold rc. rewrite B2, lookup_total_insert, B1. destruct (decide (b = x)); by subst. }
  assert (evicted p [b] p2) as Hev.
  { split; [done|..].
    - intros x. unfold bh. rewrite B2, lookup_total_insert, B1. clear.
      repeat case_decide; set_solver.
    - intros key. unfold cached_under. rewrite C2. destruct (Hpop key) as [_ ->].
      transitivity (BlockMap.dict_del (BlockMap.elems (cached_block_hash_to_block p) key) b);
        [|apply list_filter_iff; set_solver].
      destruct (decide (h = key)) as [Hk|Hk]; [by subst|]. symmetry. apply dict_del_notin.
      intros Hin'%(inv_cache _ _ Hinv key). unfold bh in Hin'. congruence. }
  split_and!; [|done|done|done|].
  - eapply evicted_core; [done|done|done|..].
    + intros x. rewrite B2, lookup_total_insert, B1. destruct (decide (b = x)); by subst.
    + intros key. rewrite C2. apply Hent, (inv_entry _ _ Hinv).
  - rewrite bool_decide_eq_true_2; [done|]. unfold bh. by rewrite Eh.
Qed.

(** Taking one block off the free list: it gets its first reference, and its
    cached content is forgotten if prefix caching is on. *)
Lemma take_block_spec p b l evict :
  pool_core p (b :: l) -> b ∉ l ->
  wp (take_block evict b) (fun _ p' =>
    pool_core p' l /\ evicted p (if evict then [b] else []) p' /\
    (forall x, rc p' x = rc p x + if decide (b = x) then 1 else 0) /\
    free_block_queue p' = free_block_queue p) p.
Proof.
  intros Hinv Hb. unfold take_block. wp_step.
  apply (wp_mono _ (fun _ p1 => pool_core p1 (b :: l) /\ evicted p (if evict then [b] else []) p1 /\
    (forall x, rc p1 x = rc p x) /\ free_block_queue p1 = free_block_queue p)).
  { destruct evict.
    - wp_step. eapply wp_mono; [by apply evict_spec|]. simpl. intros r p1 (? & ? & ? & ? & _).
      by apply wp_ret.
    - apply wp_ret. split_and!; [done|apply evicted_refl|done..]. }
  simpl. intros _ p1 (I1 & E1 & R1 & Q1). wp_step. wp_step. wp_step.
  pose proof (proj1 (inv_free _ _ I1 b) ltac:(set_solver)) as [Hrange Hz].
  apply wp_assert; [by apply Z.eqb_eq|]. wp_step. apply wp_add_ref.
  intros p2 S2 R2 B2 N2 Q2 C2. apply wp_metrics. intros p3 S3 B3 Q3 C3.
  assert (forall x, rc p3 x = rc p1 x + if decide (b = x) then 1 else 0) as HR.
  { intros x. rewrite <-R2. unfold rc. by rewrite B3. }
  assert (forall x, bh p3 x = bh p1 x) as HB.
  { intros x. rewrite <-B2. unfold bh. by rewrite B3. }
  assert (same_pool p1 p3) as HS by (by transitivity p2).
  split_and!; [|..|congruence].
  - apply (pool_core_refs p1 p3 (b :: l) l (fun x => if decide (b = x) then 1 else 0) I1); try done.
    + intros x. by rewrite B3, N2.
    + by rewrite C3, C2.
    + intros x. pose proof (inv_free _ _ I1 x) as Hf. rewrite elem_of_cons in Hf.
      pose proof (inv_nonneg _ _ I1 x). case_decide; subst; [split; intros; [done|lia]|].
      rewrite Z.add_0_r. naive_solver.
    + intros x Hx. pose proof (inv_nonneg _ _ I1 x Hx). case_decide; lia.
  - destruct E1 as [S1 B1 C1]. split.
    + by transitivity p1.
    + intros x. by rewrite HB, B1.
    + intros key. rewrite <-C1. unfold cached_under. by rewrite C3, C2.
  - intros x. by rewrite HR, R1.
Qed.

Lemma get_new_blocks_spec p l1 l2 :
  pool_inv p (l1 ++ l2) ->
  wp (get_new_blocks (Z.of_nat (length l1))) (fun r p' => r = l1 /\
    pool_inv p' l2 /\ evicted p (if enable_caching p then l1 else []) p' /\
    (forall x, rc p' x = rc p x + occ x l1)) p.
Proof.
  intros Hinv. pose proof (inv_rep _ _ Hinv) as Hrep. unfold get_new_blocks. wp_step. wp_step.
  unfold get_num_free_blocks. rewrite (rep_num _ _ Hrep), length_app.
  destruct (Z.of_nat (length l1) >? _) eqn:E; [apply Z.gtb_gt in E; lia|].
  wp_step. unfold on_queue. apply wp_zoom. eapply wp_mono; [by apply popleft_n_rep|]. simpl.
  intros ? q [-> Hq]. wp_step. wp_step. wp_step. simpl.
  set (p0 := set_queue q p). set (ev := enable_caching p).
  pose proof (rep_nodup _ _ Hrep) as Hnd.
  eapply wp_mono.
  { apply (wp_for _ (fun vis p' => exists todo, l1 = vis ++ todo /\ pool_core p' (todo ++ l2) /\
      evicted p (if ev then vis else []) p' /\ (forall x, rc p' x = rc p x + occ x vis) /\
      free_block_queue p' = q) l1 []).
    - exists l1. split_and!; [done|..|done].
      + destruct Hinv as [_ []]. by split.
      + destruct (evicted_refl p) as [? ? ?]. destruct ev; by split.
      + intros x. rewrite occ_nil. unfold rc. simpl. lia.
    - intros pre b post p1 El1 (todo & Etodo & I1 & E1 & R1 & Q1). simpl in *.
      rewrite El1 in Etodo. apply app_inv_head in Etodo as <-.
      rewrite El1, <-app_assoc in Hnd. apply NoDup_app in Hnd as (_ & _ & [Hb _]%NoDup_cons).
      eapply wp_mono; [apply (take_block_spec p1 b (post ++ l2)); done|]. simpl.
      intros _ p2 (I2 & E2 & R2 & Q2). exists post. split_and!; [|done|..|congruence].
      + by rewrite El1, <-app_assoc.
      + destruct ev; [by eapply evicted_app|]. by eapply (evicted_app _ [] _ []).
      + intros x. rewrite R2, R1, occ_app, occ_cons, occ_nil. lia. }
  simpl. intros _ p' (todo & Etodo & I & Hev & R & Q). apply wp_ret.
  assert (todo = []) as ->. { rewrite <-(app_nil_r l1) in Etodo at 1. by apply app_inv_head in Etodo. }
  split_and!; [done| |done|done]. split; [by rewrite Q|done].
Qed.

(** ** Caching full blocks *)

(** The effect of caching the blocks [bs] under the hashes [hs] of group [g]. *)
Record cached (p : BlockPool) (g : Z) (bs : list Z) (hs : list bytes) (p' : BlockPool) : Prop := mkCached {
  ca_same : same_pool p p';
  ca_rc : forall x, rc p' x = rc p x;
  ca_new : forall i b h, bs !! i = Some b -> hs !! i = Some h ->
             bh p' b = make_block_hash_with_group_id h g;
  ca_old : forall x, x ∉ bs -> bh p' x = bh p x;
  ca_prefix : forall key, cached_under p key `prefix_of` cached_under p' key
}.

Lemma cached_nil p g hs : cached p g [] hs p.
Proof. by split. Qed.

(** Giving block [b] the hash key [key] and inserting it in the cache. *)
Lemma cache_one_inv p l b key :
  pool_inv p l -> bh p b = None -> 0 < b < num_gpu_blocks p ->
  let k := blocks p !!! b in
  let p' := set_cache (BlockMap.insert (cached_block_hash_to_block p) key b)
    (set_blocks (fun bs => <[b := mkBlock (ref_cnt k) (Some key) (is_null k)]> bs) p) in
  pool_inv p' l /\ same_pool p p' /\ (forall x, rc p' x = rc p x) /\
  (forall x, bh p' x = if decide (b = x) then Some key else bh p x) /\
  (forall key', cached_under p key' `prefix_of` cached_under p' key').
Proof.
  intros Hinv Hnone Hb k p'.
  assert (forall x, rc p' x = rc p x) as HR.
  { intros x. unfold rc. simpl. rewrite lookup_total_insert. case_decide; by subst. }
  assert (forall x, bh p' x = if decide (b = x) then Some key else bh p x) as HB.
  { intros x. unfold bh. simpl. rewrite lookup_total_insert. by case_decide. }
  assert (forall x, is_null (blocks p' !!! x) = is_null (blocks p !!! x)) as HN.
  { intros x. simpl. rewrite lookup_total_insert. case_decide; by subst. }
  assert (forall key', cached_under p' key' = if decide (key = key')
            then BlockMap.dict_set (cached_under p key) b else cached_under p key') as HC.
  { intros key'. apply elems_insert. }
  split; [|split; [by repeat split|split; [done|split; [done|]]]].
  - split; [apply (inv_rep _ _ Hinv)|]. split.
    + apply (inv_null _ _ Hinv).
    + intros x. rewrite HN. apply (inv_is_null _ _ Hinv).
    + intros x. rewrite HR. apply (inv_free _ _ Hinv).
    + intros x. rewrite HR. apply (inv_nonneg _ _ Hinv).
    + apply (inv_size _ _ Hinv).
    + intros key' x. rewrite HC, HB. pose proof (inv_cache _ _ Hinv key' x) as Hx.
      pose proof (inv_cache _ _ Hinv key b) as Hbk.
      destruct (decide (key = key')) as [<-|]; [rewrite elem_of_dict_set|];
        destruct (decide (b = x)) as [<-|]; naive_solver.
    + intros key'. rewrite HC. split; [|apply insert_entry, (inv_entry _ _ Hinv)].
      destruct (decide (key = key')) as [<-|]; [apply NoDup_dict_set|]; apply (inv_entry _ _ Hinv).
    + intros x h. rewrite HB. case_decide; [by subst|]. apply (inv_hashed _ _ Hinv).
  - intros key'. rewrite HC. case_decide; [subst|done]. unfold BlockMap.dict_set.
    case_decide; [done|]. by eexists.
Qed.

Lemma cache_loop_spec p l g bs hs acc :
  pool_inv p l -> 0 <= g < 2 ^ 32 -> NoDup bs -> (length bs <= length hs)%nat ->
  Forall (fun b => 0 < b < num_gpu_blocks p /\ bh p b = None) bs ->
  wp (cache_loop g bs hs acc) (fun r p' =>
    pool_inv p' l /\ cached p g bs hs p' /\
    r = if enable_kv_cache_events p
        then acc ++ map (maybe_convert_block_hash (use_int_block_hashes p)) (take (length bs) hs)
        else acc) p.
Proof.
  intros Hinv Hg. revert p hs acc Hinv.
  induction bs as [|b bs IH]; intros p hs acc Hinv Hnd Hlen Hbs; simpl.
  - apply wp_ret. split; [done|]. split; [apply cached_nil|]. rewrite app_nil_r. by destruct (enable_kv_cache_events p).
  - apply NoDup_cons in Hnd as [Hb Hnd]. apply Forall_cons in Hbs as [[Hr Hnone] Hbs].
    destruct hs as [|h hs]; simpl in Hlen; [lia|]. wp_step. wp_step. wp_step.
    apply wp_assert; [by apply bool_decide_eq_true_2|]. unfold make_key. wp_step.
    destruct (make_key_total h g Hg) as [key Ek]. rewrite Ek.
    wp_step. unfold set_block_hash. do 4 wp_step.
    apply wp_assert; [by apply bool_decide_eq_true_2|]. do 7 wp_step.
    destruct (cache_one_inv p l b key Hinv Hnone Hr) as (I1 & S1 & R1 & B1 & P1).
    set (p1 := set_cache _ _) in *.
    eapply wp_mono; [apply IH; [exact I1|done|lia|]|].
    { rewrite Forall_forall in Hbs |- *. intros x Hx. destruct (Hbs x Hx). split; [done|].
      rewrite B1, decide_False by congruence. done. }
    simpl. intros r p2 (I2 & [S2 R2 N2 O2 P2] & ->). split; [done|].
    assert (forall x, x ∈ bs -> x <> b) as Hne by (intros x Hx ->; done).
    split.
    + split.
      * by transitivity p1.
      * intros x. by rewrite R2.
      * intros [|i] b' h' Hb' Hh'; simpl in *; [|by eapply N2].
        simplify_eq. rewrite O2, B1, decide_True by done. done.
      * intros x Hx. rewrite O2, B1, decide_False by set_solver. done.
      * intros key'. etransitivity; [apply P1|apply P2].
    + change (enable_kv_cache_events p1) with (enable_kv_cache_events p).
      change (use_int_block_hashes p1) with (use_int_block_hashes p).
      destruct (enable_kv_cache_events p); [|done]. by rewrite <-app_assoc.
Qed.

(** The hashes of a request at the block size of a group. *)
Definition group_hashes (hbs block_size : Z) (request : Request) : list bytes :=
  if block_size =? hbs then block_hashes request
  else regroup (Z.to_nat (block_size / hbs)) (block_hashes request).

Lemma new_block_hashes_spec p request k bs :
  0 < hash_block_size p -> 0 < bs -> bs mod hash_block_size p = 0 -> 0 <= k ->
  new_block_hashes request k bs p =
  Ret (drop (Z.to_nat k) (group_hashes (hash_block_size p) bs request)) p.
Proof.
  intros Hh Hb Hm Hk. unfold new_block_hashes, group_hashes, py_bind, py_gets.
  destruct (bs =? hash_block_size p) eqn:E; [done|]. unfold py_assert. rewrite Hm. simpl.
  pose proof (Z.div_exact bs (hash_block_size p) ltac:(lia)) as [_ Hx]. specialize (Hx Hm).
  assert (0 < bs / hash_block_size p) by nia.
  replace (hash_list_init _ _ bs) with
    (hash_list_init (block_hashes request) (hash_block_size p)
       (hash_block_size p * Z.of_nat (Z.to_nat (bs / hash_block_size p)))) by (f_equal; lia).
  rewrite hash_list_init_spec, hash_list_from_spec by lia. done.
Qed.

Lemma length_slice {A} (l : list A) a b :
  length (slice l a b) = Nat.min (Z.to_nat b - Z.to_nat a) (length l - Z.to_nat a).
Proof. unfold slice. by rewrite length_take, length_drop. Qed.

(** Caching the blocks [num_cached .. num_full) of a request. *)
Lemma cache_full_blocks_spec p l request blks nc nf bs g :
  pool_inv p l -> 0 <= g < 2 ^ 32 -> 0 < hash_block_size p -> 0 < bs ->
  bs mod hash_block_size p = 0 -> 0 <= nc ->
  nf <= Z.of_nat (length (group_hashes (hash_block_size p) bs request)) ->
  nf <= Z.of_nat (length (block_hashes request)) ->
  NoDup (slice blks nc nf) ->
  Forall (fun b => 0 < b < num_gpu_blocks p /\ bh p b = None) (slice blks nc nf) ->
  (nc = 0 \/ nf <= nc \/ enable_kv_cache_events p = false \/
     exists b, blks !! Z.to_nat (nc - 1) = Some b /\ is_Some (bh p b)) ->
  wp (cache_full_blocks request blks nc nf bs g) (fun _ p' =>
    pool_inv p' l /\
    cached p g (slice blks nc nf)
      (drop (Z.to_nat nc) (group_hashes (hash_block_size p) bs request)) p') p.
Proof.
  intros Hinv Hg Hh Hb Hm Hnc Hnf Hnf' Hnd Hbs Hparent. unfold cache_full_blocks.
  destruct (nc >=? nf) eqn:E.
  { apply wp_ret. split; [done|]. unfold slice.
    replace (Z.to_nat nf - Z.to_nat nc)%nat with 0%nat by lia. apply cached_nil. }
  wp_step. apply wp_assert; [apply Z.geb_le; lia|]. wp_step.
  apply wp_iff. exists (drop (Z.to_nat nc) (group_hashes (hash_block_size p) bs request)), p.
  split; [by apply new_block_hashes_spec|].
  wp_step. eapply wp_mono.
  { apply (cache_loop_spec p l); try done. rewrite length_slice, length_drop. lia. }
  simpl. intros r p1 (I1 & C1 & ->). wp_step. wp_step.
  destruct (enable_kv_cache_events p1) eqn:Ev; [|by apply wp_ret].
  unfold publish_stored. wp_step. wp_step. wp_step.
  apply (wp_mono _ (fun _ p2 => p2 = p1)).
  { destruct (nc =? 0) eqn:E0; [by apply wp_ret|].
    destruct Hparent as [?|[?|[Hev|(b & Hb1 & [h Hh1])]]]; [lia|lia|..].
    { destruct C1 as [[] _ _ _ _]. congruence. }
    rewrite Hb1. do 4 wp_step.
    assert (is_Some (block_hash (blocks p1 !!! b))) as [h' Hh'].
    { fold (bh p1 b). destruct (decide (b ∈ slice blks nc nf)) as [Hin|Hin].
      - rewrite Forall_forall in Hbs. apply Hbs in Hin. destruct Hin. congruence.
      - rewrite (ca_old _ _ _ _ _ C1) by done. eauto. }
    rewrite Hh'. wp_step. wp_step. by apply wp_ret. }
  simpl. intros parent ? ->. apply wp_push_event. intros p2 S2 B2 Q2 C2.
  assert (forall x, blocks p2 !!! x = blocks p1 !!! x) as HB by (by rewrite B2).
  split.
  - apply (pool_inv_ext p1); try done; unfold rc, bh; try (intros; by rewrite HB).
    rewrite Q2. apply (inv_rep _ _ I1).
  - destruct C1 as [S1 R1 N1 O1 P1]. split.
    + by transitivity p1.
    + intros x. rewrite <-R1. unfold rc. by rewrite HB.
    + intros i b h ? ?. rewrite <-(N1 i b h) by done. unfold bh. by rewrite HB.
    + intros x ?. rewrite <-O1 by done. unfold bh. by rewrite HB.
    + intros key. etransitivity; [apply P1|]. unfold cached_under. by rewrite C2.
Qed.

(** ** Initial state, reset, events *)

Lemma elem_of_block_ids n b : b ∈ block_ids n <-> 0 <= b < n.
Proof.
  unfold block_ids. rewrite list_elem_of_In, in_map_iff. setoid_rewrite in_seq. split.
  - intros (i & <- & ?). lia.
  - intros ?. exists (Z.to_nat b). lia.
Qed.

Lemma NoDup_block_ids n : NoDup (block_ids n).
Proof. apply NoDup_fmap_2; [intros ??; lia|apply NoDup_seq]. Qed.

Lemma block_ids_cons n : 0 < n -> exists l, block_ids n = 0 :: l.
Proof.
  intros Hn. unfold block_ids. replace (Z.to_nat n) with (S (Z.to_nat n - 1)) by lia. simpl. eauto.
Qed.

Lemma length_block_ids n : 0 <= n -> Z.of_nat (length (block_ids n)) = n.
Proof. intros Hn. unfold block_ids. rewrite length_map, length_seq. lia. Qed.

Lemma fresh_blocks bs x :
  (list_to_map (map (fun b => (b, mkBlock 0 None false)) bs) : gmap Z KVCacheBlock) !!! x
  = mkBlock 0 None false.
Proof.
  induction bs as [|b bs IH]; simpl; [by rewrite lookup_total_empty|].
  rewrite lookup_total_insert. by case_decide.
Qed.

Lemma pool_init_spec n caching hbs ev ui m :
  0 < n ->
  exists p, pool_init n caching hbs ev ui m = inr p /\
    pool_inv p (List.filter (fun b => negb (b =? 0)) (block_ids n)) /\
    num_gpu_blocks p = n /\ enable_caching p = caching /\ hash_block_size p = hbs /\
    enable_kv_cache_events p = ev /\
    (forall b, rc p b = 0) /\ (forall b, bh p b = None) /\ cached_block_hash_to_block p = ∅.
Proof.
  intros Hn. unfold pool_init. destruct (n >? 0) eqn:E; [|lia]. simpl.
  destruct (queue_init_rep (block_ids n)) as (q & -> & Hq).
  { apply NoDup_block_ids. }
  { apply Forall_forall. intros x Hx%elem_of_block_ids. lia. }
  destruct (block_ids_cons n Hn) as [l El]. rewrite El in Hq.
  pose proof (popleft_rep q 0 l Hq) as Hp. apply wp_iff in Hp as (? & q' & -> & -> & Hq').
  pose proof (NoDup_block_ids n) as Hnd. rewrite El in Hnd. apply NoDup_cons in Hnd as [H0 Hnd].
  eexists. split; [done|].
  set (bs := list_to_map _). set (p := mkPool _ _ _ _ _ _ _ _ _ _ _).
  assert (forall b, blocks p !!! b = mkBlock 0 None (bool_decide (b = 0))) as Hblk.
  { intros b. subst p bs. simpl. rewrite lookup_total_insert, fresh_blocks.
    case_decide; [subst|]; by rewrite ?bool_decide_eq_true_2, ?bool_decide_eq_false_2 by done. }
  assert (List.filter (fun b => negb (b =? 0)) (block_ids n) = l) as ->.
  { rewrite El. simpl. clear - H0. induction l as [|x l IH]; [done|]. simpl.
    destruct (Z.eqb_spec x 0); [set_solver|]. simpl. f_equal. apply IH. set_solver. }
  assert (forall b, rc p b = 0) as HR by (intros b; unfold rc; by rewrite Hblk).
  assert (forall b, bh p b = None) as HB by (intros b; unfold bh; by rewrite Hblk).
  split_and!; try done. split; [done|]. split; try done.
  - intros b. rewrite Hblk. simpl. apply bool_decide_eq_true.
  - intros b. rewrite HR. pose proof (elem_of_block_ids n b) as Hb. rewrite El, elem_of_cons in Hb.
    split; [intros Hin; split; [|done]|]; destruct (decide (b = 0)) as [->|]; naive_solver lia.
  - intros b Hb. rewrite HR. lia.
  - intros key b. rewrite HB. unfold cached_under, BlockMap.elems. simpl. rewrite lookup_empty.
    split; [by intros ?%not_elem_of_nil|done].
  - intros key. unfold cached_under, BlockMap.elems. simpl. rewrite lookup_empty.
    split; [apply NoDup_nil_2|done].
  - intros b h. by rewrite HB.
Qed.

(** The free list has at most one block per non-null block of the pool. *)
Lemma pool_inv_free_bound p l : pool_inv p l -> Z.of_nat (length l) <= num_gpu_blocks p - 1.
Proof.
  intros Hinv. pose proof (inv_size _ _ Hinv) as Hn.
  destruct (block_ids_cons _ Hn) as [l0 E].
  pose proof (length_block_ids (num_gpu_blocks p) ltac:(lia)) as Hl. rewrite E in Hl. simpl in Hl.
  enough (length l <= length l0)%nat by lia.
  apply NoDup_incl_length; [by eapply NoDup_ListNoDup, rep_nodup, (inv_rep _ _ Hinv)|].
  intros x Hx%list_elem_of_In%(inv_free _ _ Hinv). apply list_elem_of_In.
  assert (x ∈ 0 :: l0) as Hx0 by (rewrite <-E; apply elem_of_block_ids; lia). set_solver by lia.
Qed.

(** All non-null blocks are free exactly when none is referenced. *)
Lemma pool_inv_all_free p l :
  pool_inv p l ->
  (num_gpu_blocks p - get_num_free_blocks p = 1 <->
   forall b, 0 < b < num_gpu_blocks p -> rc p b = 0).
Proof.
  intros Hinv. pose proof (inv_rep _ _ Hinv) as Hrep. unfold get_num_free_blocks.
  rewrite (rep_num _ _ Hrep). pose proof (pool_inv_free_bound _ _ Hinv) as Hle.
  pose proof (inv_size _ _ Hinv) as Hn. destruct (block_ids_cons _ Hn) as [l0 E].
  pose proof (length_block_ids (num_gpu_blocks p) ltac:(lia)) as Hl. rewrite E in Hl. simpl in Hl.
  pose proof (NoDup_block_ids (num_gpu_blocks p)) as Hnd. rewrite E in Hnd.
  apply NoDup_cons in Hnd as [H0 Hnd].
  assert (forall x, x ∈ l0 <-> 0 < x < num_gpu_blocks p) as Hl0.
  { intros x. pose proof (elem_of_block_ids (num_gpu_blocks p) x) as Hx. rewrite E, elem_of_cons in Hx.
    destruct (decide (x = 0)) as [->|]; naive_solver lia. }
  split.
  - intros Heq b Hb. assert (b ∈ l); [|by apply (inv_free _ _ Hinv)].
    apply list_elem_of_In, (NoDup_length_incl (l := l) (l' := l0)).
    + apply NoDup_ListNoDup. by eapply rep_nodup.
    + lia.
    + intros x Hx%list_elem_of_In%(inv_free _ _ Hinv). apply list_elem_of_In, Hl0. tauto.
    + by apply list_elem_of_In, Hl0.
  - intros Hz. enough (length l0 <= length l)%nat by lia.
    apply NoDup_incl_length; [by apply NoDup_ListNoDup|].
    intros x Hx%list_elem_of_In%Hl0. apply list_elem_of_In, (inv_free _ _ Hinv). auto.
Qed.

Lemma reset_hashes_spec p bs :
  wp (py_for bs reset_hash) (fun _ p' =>
    same_pool p p' /\ (forall x, rc p' x = rc p x) /\
    (forall x, bh p' x = if decide (x ∈ bs) then None else bh p x) /\
    (forall x, is_null (blocks p' !!! x) = is_null (blocks p !!! x)) /\
    free_block_queue p' = free_block_queue p /\
    cached_block_hash_to_block p' = cached_block_hash_to_block p) p.
Proof.
  set (I := fun (vis : list Z) (p' : BlockPool) =>
    same_pool p p' /\ (forall x, rc p' x = rc p x) /\
    (forall x, bh p' x = if decide (x ∈ vis) then None else bh p x) /\
    (forall x, is_null (blocks p' !!! x) = is_null (blocks p !!! x)) /\
    free_block_queue p' = free_block_queue p /\
    cached_block_hash_to_block p' = cached_block_hash_to_block p).
  apply (wp_for reset_hash I bs []); subst I; simpl.
  - by split_and!.
  - intros pre b post p1 _ (S1 & R1 & B1 & N1 & Q1 & C1). apply wp_modify. simpl in *.
    split_and!; try done.
    + transitivity p1; [done|]. by split.
    + intros x. rewrite <-R1. unfold rc. simpl. rewrite lookup_total_insert. case_decide; by subst.
    + intros x. specialize (B1 x). unfold bh in *. simpl. rewrite lookup_total_insert.
      destruct (decide (b = x)) as [<-|]; simpl.
      * by rewrite decide_True by set_solver.
      * rewrite B1. apply decide_ext. set_solver.
    + intros x. rewrite <-N1. rewrite lookup_total_insert. case_decide; by subst.
Qed.

Lemma reset_prefix_cache_spec p l :
  pool_inv p l ->
  wp reset_prefix_cache (fun r p' =>
    pool_inv p' l /\ same_pool p p' /\ (forall x, rc p' x = rc p x) /\
    r = (num_gpu_blocks p - get_num_free_blocks p =? 1) /\
    (if r then (forall x, bh p' x = None) /\ cached_block_hash_to_block p' = ∅ else p' = p)) p.
Proof.
  intros Hinv. unfold reset_prefix_cache. wp_step. wp_step.
  destruct (num_gpu_blocks p - get_num_free_blocks p =? 1); simpl; [|by apply wp_ret].
  do 3 wp_step. eapply wp_mono; [apply reset_hashes_spec|]. simpl.
  intros _ p1 (S1 & R1 & B1 & N1 & Q1 & C1). wp_step. apply wp_metrics.
  intros p2 S2 B2 Q2 C2. wp_step.
  apply (wp_mono _ (fun _ p3 => same_pool p2 p3 /\ blocks p3 = blocks p2 /\
    free_block_queue p3 = free_block_queue p2 /\
    cached_block_hash_to_block p3 = cached_block_hash_to_block p2)).
  { destruct (enable_kv_cache_events p); [by apply wp_push_event|by apply wp_ret]. }
  simpl. intros _ p3 (S3 & B3 & Q3 & C3). apply wp_ret.
  assert (forall x, bh p3 x = None) as HB.
  { intros x. unfold bh. rewrite B3, B2. fold (bh p1 x). rewrite B1. case_decide as Hx; [done|].
    unfold bh. simpl. destruct (block_hash (blocks p !!! x)) as [h|] eqn:Eh; [|done].
    destruct Hx. apply elem_of_block_ids. pose proof (inv_hashed _ _ Hinv x h Eh). lia. }
  assert (forall x, rc p3 x = rc p x) as HR.
  { intros x. unfold rc. rewrite B3, B2. apply R1. }
  assert (same_pool p p3) as HS.
  { transitivity p1; [by destruct S1|]. by transitivity p2. }
  assert (cached_block_hash_to_block p3 = ∅) as HC by (by rewrite C3, C2, C1).
  split_and!; [|done..]. split; [rewrite Q3, Q2, Q1; apply (inv_rep _ _ Hinv)|].
  destruct HS as [En _ _ Enull _ _]. split.
  - rewrite Enull. apply (inv_null _ _ Hinv).
  - intros b. rewrite B3, B2, N1. apply (inv_is_null _ _ Hinv).
  - intros b. rewrite HR, En. apply (inv_free _ _ Hinv).
  - intros b. rewrite HR. apply (inv_nonneg _ _ Hinv).
  - rewrite En. apply (inv_size _ _ Hinv).
  - intros key b. unfold cached_under, BlockMap.elems. rewrite HC, HB, lookup_empty.
    split; [by intros ?%not_elem_of_nil|done].
  - intros key. unfold cached_under, BlockMap.elems. rewrite HC, lookup_empty.
    split; [apply NoDup_nil_2|done].
  - intros b h. by rewrite HB.
Qed.

(** ** Lookups *)

Lemma get_one_block_spec p l key :
  pool_inv p l ->
  BlockMap.get_one_block (cached_block_hash_to_block p) key = inr (head (cached_under p key)).
Proof.
  intros Hinv. destruct (inv_entry _ _ Hinv key) as [_ He].
  unfold BlockMap.get_one_block, cached_under, BlockMap.elems in *.
  by destruct (_ !! key) as [[b|[|b d]]|].
Qed.

(** The first cached block of every group, or none. *)
Fixpoint cached_row (p : BlockPool) (h : bytes) (gs : list Z) : option (list Z) :=
  match gs with
  | [] => Some []
  | g :: gs' =>
      match make_block_hash_with_group_id h g with
      | None => None
      | Some key => match head (cached_under p key), cached_row p h gs' with
                    | Some b, Some bs => Some (b :: bs)
                    | _, _ => None
                    end
      end
  end.

Lemma get_cached_block_spec p l h gs acc :
  pool_inv p l -> Forall (fun g => 0 <= g < 2 ^ 32) gs ->
  get_cached_block h gs acc p = Ret (option_map (app acc) (cached_row p h gs)) p.
Proof.
  intros Hinv Hgs. revert acc. induction Hgs as [|g gs Hg Hgs IH]; intros acc; simpl.
  { unfold py_ret. simpl. by rewrite app_nil_r. }
  unfold py_bind, make_key, py_gets.
  destruct (make_key_total h g Hg) as [key Ek]. rewrite Ek. simpl.
  rewrite (get_one_block_spec _ _ _ Hinv).
  destruct (head (cached_under p key)) as [b|]; [|done]. rewrite IH.
  destruct (cached_row p h gs) as [bs|]; simpl; [|done]. by rewrite <-app_assoc.
Qed.

(** Every block of a hit carries the hash that was looked up. *)
Lemma cached_row_sound p l h gs bs :
  pool_inv p l -> cached_row p h gs = Some bs ->
  Forall2 (fun g b => 0 < b < num_gpu_blocks p /\ bh p b = make_block_hash_with_group_id h g) gs bs.
Proof.
  intros Hinv. revert bs. induction gs as [|g gs IH]; intros bs; simpl; [by intros [= <-]|].
  destruct (make_block_hash_with_group_id h g) as [key|] eqn:Ek; [|done].
  destruct (cached_under p key) as [|b d] eqn:Ec; [done|]. simpl.
  destruct (cached_row p h gs) as [bs'|]; [|done]. intros [= <-]. constructor; [|by apply IH].
  assert (bh p b = Some key) as Hb by (apply (inv_cache _ _ Hinv); rewrite Ec; set_solver).
  split; [|congruence]. by eapply (inv_hashed _ _ Hinv).
Qed.

(** ** Reachable pools

    A client drives the pool under the contract its methods document: it frees
    only blocks it holds, each once per call, touches blocks of the pool, and
    caches full, not yet cached blocks. *)
Inductive pool_step (p : BlockPool) : BlockPool -> Prop :=
| step_get_new_blocks n r p' :
    0 <= n -> get_new_blocks n p = Ret r p' -> pool_step p p'
| step_touch bss p' :
    Forall (fun b => 0 <= b < num_gpu_blocks p) (concat bss) ->
    touch bss p = Ret tt p' -> pool_step p p'
| step_free_blocks bs p' :
    NoDup (List.filter (fun b => negb (b =? 0)) bs) ->
    Forall (fun b => b <> 0 -> 0 < b < num_gpu_blocks p /\ 1 <= rc p b) bs ->
    free_blocks bs p = Ret tt p' -> pool_step p p'
| step_cache_full_blocks request blks nc nf bs g p' :
    0 <= g < 2 ^ 32 -> 0 < bs -> bs mod hash_block_size p = 0 -> 0 <= nc ->
    nf <= Z.of_nat (length (group_hashes (hash_block_size p) bs request)) ->
    nf <= Z.of_nat (length (block_hashes request)) ->
    NoDup (slice blks nc nf) ->
    Forall (fun b => 0 < b < num_gpu_blocks p /\ bh p b = None) (slice blks nc nf) ->
    (nc = 0 \/ nf <= nc \/ enable_kv_cache_events p = false \/
       exists b, blks !! Z.to_nat (nc - 1) = Some b /\ is_Some (bh p b)) ->
    cache_full_blocks request blks nc nf bs g p = Ret tt p' -> pool_step p p'
| step_reset r p' : reset_prefix_cache p = Ret r p' -> pool_step p p'
| step_take_events es p' : pool_take_events p = Ret es p' -> pool_step p p'.

Inductive pool_reachable : BlockPool -> Prop :=
| reachable_init n caching hbs ev ui m p :
    0 < hbs -> pool_init n caching hbs ev ui m = inr p -> pool_reachable p
| reachable_step p p' : pool_reachable p -> pool_step p p' -> pool_reachable p'.

Lemma get_new_blocks_exhausted p l n :
  pool_inv p l -> Z.of_nat (length l) < n -> get_new_blocks n p = Raise ValueError p.
Proof.
  intros Hinv Hn. unfold get_new_blocks, py_bind, py_gets, get_num_free_blocks.
  rewrite (rep_num _ _ (inv_rep _ _ Hinv)).
  destruct (n >? Z.of_nat (length l)) eqn:E; [done|lia].
Qed.

Lemma take_events_spec p l :
  pool_inv p l -> wp pool_take_events (fun es p' =>
    pool_inv p' l /\ same_pool p p' /\
    es = (if enable_kv_cache_events p then kv_event_queue p else [])) p.
Proof.
  intros Hinv. unfold pool_take_events. wp_step. wp_step.
  destruct (enable_kv_cache_events p) eqn:Ev; simpl; [|by apply wp_ret].
  do 4 wp_step. apply wp_ret. split_and!; [|by split|done].
  by apply (pool_inv_ext p); [..|apply (inv_rep _ _ Hinv)|].
Qed.

Lemma pool_step_inv p l p' :
  pool_inv p l -> 0 < hash_block_size p -> pool_step p p' ->
  exists l', pool_inv p' l' /\ same_pool p p'.
Proof.
  intros Hinv Hh [n r p1 Hn E|bss p1 Hb E|bs p1 Hnd Hb E|request blks nc nf bs g p1 G1 G2 G3 G4 G5 G6 G7 G8 G9 E
                 |r p1 E|es p1 E].
  - destruct (decide (n <= Z.of_nat (length l))) as [Hle|Hgt].
    + pose proof Hinv as Hinv0. rewrite <-(take_drop (Z.to_nat n) l) in Hinv.
      pose proof (get_new_blocks_spec _ _ _ Hinv) as Hw. rewrite length_take in Hw.
      replace (Z.of_nat (Z.to_nat n `min` length l)) with n in Hw by lia.
      destruct (wp_outcome _ _ _ _ _ Hw E) as (_ & I1 & [S1 _ _] & _). eauto.
    + by rewrite (get_new_blocks_exhausted p l n) in E by (done || lia).
  - destruct (wp_outcome _ _ _ _ _ (touch_spec _ _ _ Hinv Hb) E) as (? & ? & _). eauto.
  - destruct (wp_outcome _ _ _ _ _ (free_blocks_spec _ _ _ Hinv Hnd Hb) E) as (? & ? & _). eauto.
  - destruct (wp_outcome _ _ _ _ _ (cache_full_blocks_spec p l request blks nc nf bs g Hinv G1 Hh G2 G3 G4
               G5 G6 G7 G8 G9) E) as (? & [? _ _ _ _]). eauto.
  - destruct (wp_outcome _ _ _ _ _ (reset_prefix_cache_spec _ _ Hinv) E) as (? & ? & _). eauto.
  - destruct (wp_outcome _ _ _ _ _ (take_events_spec _ _ Hinv) E) as (? & ? & _). eauto.
Qed.

Lemma pool_reachable_inv p :
  pool_reachable p -> exists l, pool_inv p l /\ 0 < hash_block_size p.
Proof.
  induction 1 as [n caching hbs ev ui m p Hh E|p p' Hr (l & Hinv & Hh) Hstep].
  - destruct (decide (0 < n)) as [Hn|Hn].
    + destruct (pool_init_spec n caching hbs ev ui m Hn) as (p0 & E0 & Hinv & _ & _ & Hh0 & _).
      rewrite E in E0. simplify_eq. eauto.
    + unfold pool_init in E. by destruct (n >? 0) eqn:En; [lia|].
  - destruct (pool_step_inv p l p' Hinv Hh Hstep) as (l' & Hinv' & [_ _ Eh _ _ _]).
    exists l'. split; [done|]. by rewrite Eh.
Qed.

(** ** Properties *)

(** C25. Safety of the block pool. In every reachable state the free queue lists,
    without repetition, exactly the non-null blocks with reference count 0, and no count
    of such a block is negative; the free counter is its length and the usage is a
    fraction between 0 and 1; the cache lists a block under a key if and only if the
    block carries that hash, and no entry is an empty dict, so a lookup never fails on
    one. *)
Theorem pool_safe p :
  pool_reachable p ->
  exists l,
    get_all_free_blocks (free_block_queue p) = Ret l (free_block_queue p) /\
    NoDup l /\ get_num_free_blocks p = Z.of_nat (length l) /\
    (forall b, b ∈ l <-> 0 < b < num_gpu_blocks p /\ ref_cnt (blocks p !!! b) = 0) /\
    (forall b, 0 < b < num_gpu_blocks p -> 0 <= ref_cnt (blocks p !!! b)) /\
    (0 <= get_usage p)%Q /\ (get_usage p <= 1)%Q /\
    (forall key b, b ∈ BlockMap.elems (cached_block_hash_to_block p) key <->
                   block_hash (blocks p !!! b) = Some key) /\
    (forall key, exists o, BlockMap.get_one_block (cached_block_hash_to_block p) key = inr o).
Proof.
  intros (l & Hinv & _)%pool_reachable_inv. exists l. pose proof (inv_rep _ _ Hinv) as Hrep.
  pose proof (rep_num _ _ Hrep) as Hnum. pose proof (pool_inv_free_bound _ _ Hinv) as Hle.
  assert ((0 <= get_usage p)%Q /\ (get_usage p <= 1)%Q) as [Hu1 Hu2].
  { unfold get_usage, get_num_free_blocks. rewrite Hnum.
    destruct (num_gpu_blocks p - 1 =? 0) eqn:E; [by split|].
    pose proof (inv_size _ _ Hinv). destruct (num_gpu_blocks p - 1) as [|t|t] eqn:Et; [lia| |lia].
    assert (inject_Z (Z.of_nat (length l)) / inject_Z (Z.pos t) <= 1)%Q.
    { apply Qle_shift_div_r; [done|]. rewrite Qmult_1_l, <-Zle_Qle. lia. }
    assert (0 <= inject_Z (Z.of_nat (length l)) / inject_Z (Z.pos t))%Q.
    { apply Qle_shift_div_l; [done|]. rewrite Qmult_0_l. change 0%Q with (inject_Z 0). rewrite <-Zle_Qle. lia. }
    split; lra. }
  split_and!; try done.
  - by apply get_all_free_blocks_rep.
  - by eapply rep_nodup.
  - apply (inv_free _ _ Hinv).
  - intros b [Hb _]. by apply (inv_nonneg _ _ Hinv).
  - apply (inv_cache _ _ Hinv).
  - intros key. rewrite (get_one_block_spec _ _ _ Hinv). eauto.
Qed.

(** Allocation. Asking a reachable pool for [n] blocks succeeds exactly when
    [n] blocks are free: the blocks returned are the [n] least recently freed,
    each unreferenced before and with one reference after, no other reference
    count changes, and with prefix caching on none of them can be hit any more;
    otherwise the call raises [ValueError] and leaves the pool unchanged. *)
Theorem get_new_blocks_correct p n l :
  pool_reachable p -> 0 <= n ->
  get_all_free_blocks (free_block_queue p) = Ret l (free_block_queue p) ->
  if n <=? Z.of_nat (length l) then
    exists p', get_new_blocks n p = Ret (take (Z.to_nat n) l) p' /\
      get_all_free_blocks (free_block_queue p') = Ret (drop (Z.to_nat n) l) (free_block_queue p') /\
      (forall b, b ∈ take (Z.to_nat n) l -> rc p b = 0 /\ rc p' b = 1) /\
      (forall b, b ∉ take (Z.to_nat n) l -> rc p' b = rc p b /\ bh p' b = bh p b) /\
      (enable_caching p = true -> forall b key, b ∈ take (Z.to_nat n) l -> b ∉ cached_under p' key)
  else get_new_blocks n p = Raise ValueError p.
Proof.
  intros (l0 & Hinv & _)%pool_reachable_inv Hn Hfree.
  rewrite (get_all_free_blocks_rep _ _ (inv_rep _ _ Hinv)) in Hfree.
  assert (l0 = l) as -> by congruence.
  destruct (n <=? Z.of_nat (length l)) eqn:E; [apply Z.leb_le in E|apply Z.leb_gt in E].
  2:{ by eapply get_new_blocks_exhausted. }
  pose proof Hinv as Hinv0. rewrite <-(take_drop (Z.to_nat n) l) in Hinv.
  pose proof (get_new_blocks_spec _ _ _ Hinv) as Hw. rewrite length_take in Hw.
  replace (Z.of_nat (Z.to_nat n `min` length l)) with n in Hw by lia.
  apply wp_iff in Hw as (? & p' & Hrun & -> & I1 & [S1 B1 C1] & R1).
  exists p'. split; [done|]. split; [apply get_all_free_blocks_rep, (inv_rep _ _ I1)|].
  assert (NoDup (take (Z.to_nat n) l)) as Hnd.
  { pose proof (rep_nodup _ _ (inv_rep _ _ Hinv)) as Hnd. by apply NoDup_app in Hnd as (? & _). }
  split_and!.
  - intros b Hb. rewrite R1, occ_nodup, decide_True by done.
    assert (rc p b = 0) as ->; [|done]. apply (inv_free _ _ Hinv0).
    rewrite <-(take_drop (Z.to_nat n) l). set_solver.
  - intros b Hb. rewrite R1, occ_nodup, decide_False by done. rewrite B1. split; [lia|].
    rewrite decide_False; [done|]. destruct (enable_caching p); set_solver.
  - intros Hc b key Hb. rewrite C1, Hc, list_elem_of_filter. naive_solver.
Qed.

(** A run: six blocks, three allocated, the first two of them freed again. *)
Definition demo_pool0 : BlockPool :=
  match pool_init 6 true 2 true false true with
  | inr p => p
  | inl _ => mkPool 0 true 2 ∅ (mkQueue ∅ ∅ 0) ∅ 0 true false [] None
  end.
Definition after {S A} (m : py S A) (s : S) : S := match m s with Ret _ s' | Raise _ s' => s' end.
Definition demo_pool1 : BlockPool := after (get_new_blocks 3) demo_pool0.
Definition demo_pool2 : BlockPool := after (free_blocks [2; 1]) demo_pool1.

Lemma demo_pool0_reachable : pool_reachable demo_pool0.
Proof. apply (reachable_init 6 true 2 true false true); [done|]. vm_compute. reflexivity. Qed.
Lemma demo_pool1_reachable : pool_reachable demo_pool1.
Proof.
  eapply reachable_step; [apply demo_pool0_reachable|].
  apply (step_get_new_blocks _ 3 [1; 2; 3]); [done|]. vm_compute. reflexivity.
Qed.
Lemma demo_pool2_reachable : pool_reachable demo_pool2.
Proof.
  eapply reachable_step; [apply demo_pool1_reachable|].
  apply (step_free_blocks _ [2; 1]); [|vm_compute; repeat constructor; done|vm_compute; reflexivity].
  apply NoDup_ListNoDup. repeat constructor; simpl; naive_solver lia.
Qed.

Lemma pool_safe_witness :
  exists l,
    get_all_free_blocks (free_block_queue demo_pool2) = Ret l (free_block_queue demo_pool2) /\
    NoDup l /\ get_num_free_blocks demo_pool2 = Z.of_nat (length l) /\
    (forall b, b ∈ l <-> 0 < b < num_gpu_blocks demo_pool2 /\ ref_cnt (blocks demo_pool2 !!! b) = 0).
Proof.
  destruct (pool_safe demo_pool2 demo_pool2_reachable) as (l & ? & ? & ? & ? & _).
  exists l. split_and!; assumption.
Defined.

Lemma get_new_blocks_correct_witness :
  exists p', get_new_blocks 3 demo_pool2 = Ret [4; 5; 2] p' /\
    get_all_free_blocks (free_block_queue p') = Ret [1] (free_block_queue p').
Proof.
  destruct (get_new_blocks_correct demo_pool2 3 [4; 5; 2; 1] demo_pool2_reachable ltac:(lia)
              ltac:(vm_compute; reflexivity)) as (p' & ? & ? & _).
  exists p'. split; assumption.
Defined.

(** Insert and look up. [cache_full_blocks] on blocks that are not cached yet
    does not raise; after it stored the blocks
    [nc .. nf) of a request in group [g], looking up the hash of any of them hits,
    and whatever block a lookup returns in group [g] carries exactly the hash that
    was asked for; blocks that were hit before are still the ones returned. *)
Theorem cache_then_lookup p l request blks nc nf bs g :
  pool_inv p l -> 0 <= g < 2 ^ 32 -> 0 < hash_block_size p -> 0 < bs ->
  bs mod hash_block_size p = 0 -> 0 <= nc ->
  nf <= Z.of_nat (length (group_hashes (hash_block_size p) bs request)) ->
  nf <= Z.of_nat (length (block_hashes request)) ->
  NoDup (slice blks nc nf) ->
  Forall (fun b => 0 < b < num_gpu_blocks p /\ bh p b = None) (slice blks nc nf) ->
  nc = 0 \/ (exists b, blks !! Z.to_nat (nc - 1) = Some b /\ is_Some (bh p b)) ->
  exists p', cache_full_blocks request blks nc nf bs g p = Ret tt p' /\
  (forall i h, (i < length (slice blks nc nf))%nat ->
     drop (Z.to_nat nc) (group_hashes (hash_block_size p) bs request) !! i = Some h ->
     exists b, get_cached_block h [g] [] p' = Ret (Some [b]) p' /\
       bh p' b = make_block_hash_with_group_id h g) /\
  (forall h r, get_cached_block h [g] [] p = Ret (Some r) p ->
     get_cached_block h [g] [] p' = Ret (Some r) p').
Proof.
  intros Hinv Hg Hh Hb Hm Hnc Hnf Hnf' Hnd Hbs Hpar.
  assert (nc = 0 \/ nf <= nc \/ enable_kv_cache_events p = false \/
          exists b, blks !! Z.to_nat (nc - 1) = Some b /\ is_Some (bh p b)) as Hpar' by tauto.
  destruct (proj1 (wp_iff _ _ _) (cache_full_blocks_spec p l request blks nc nf bs g Hinv Hg Hh Hb Hm Hnc
              Hnf Hnf' Hnd Hbs Hpar')) as ([] & p' & Hrun & I1 & [S1 R1 N1 O1 P1]).
  exists p'. split; [done|].
  assert (Forall (fun g => 0 <= g < 2 ^ 32) [g]) as Hgs by (by apply Forall_singleton).
  split.
  - intros i h Hi Hlk. destruct (lookup_lt_is_Some_2 _ _ Hi) as [b Hbi].
    specialize (N1 i b h Hbi Hlk). destruct (make_key_total h g Hg) as [key Ek]. rewrite Ek in N1.
    apply (inv_cache _ _ I1) in N1. rewrite (get_cached_block_spec _ _ _ _ _ I1 Hgs). simpl.
    rewrite Ek. destruct (cached_under p' key) as [|b' d] eqn:Ec; [by apply not_elem_of_nil in N1|].
    exists b'. split; [done|]. apply (inv_cache _ _ I1). rewrite Ec. set_solver.
  - intros h r. rewrite (get_cached_block_spec _ _ _ _ _ Hinv Hgs), (get_cached_block_spec _ _ _ _ _ I1 Hgs).
    simpl. destruct (make_key_total h g Hg) as [key Ek]. rewrite Ek.
    destruct (P1 key) as [rest Er]. rewrite Er. destruct (cached_under p key); [done|]. simpl. congruence.
Qed.

(** Freed blocks stay usable until they are reused. If the blocks [bs] lose
    their last reference, they go to the back of the free queue in the given order
    and keep their hashes; allocating no more blocks than were free before takes
    none of them and leaves each of them cached. *)
Theorem freed_blocks_stay_cached p l bs k :
  pool_inv p l -> NoDup bs ->
  Forall (fun b => 0 < b < num_gpu_blocks p /\ rc p b = 1) bs ->
  0 <= k <= Z.of_nat (length l) ->
  exists p1 p2,
    free_blocks bs p = Ret tt p1 /\
    get_all_free_blocks (free_block_queue p1) = Ret (l ++ bs) (free_block_queue p1) /\
    get_new_blocks k p1 = Ret (take (Z.to_nat k) l) p2 /\
    (forall b key, b ∈ bs -> bh p b = Some key ->
       bh p2 b = Some key /\ b ∈ cached_under p2 key).
Proof.
  intros Hinv Hnd Hbs Hk. rewrite Forall_forall in Hbs.
  assert (forall f, (forall b, b ∈ bs -> f b = true) -> List.filter f bs = bs) as Hall.
  { intros f Hf. apply List.forallb_filter_id, forallb_forall. intros x Hx%list_elem_of_In. auto. }
  assert (released p bs = bs) as Hrel.
  { apply Hall. intros b Hb%Hbs. destruct Hb as [? ->]. simpl. apply negb_true_iff, Z.eqb_neq. lia. }
  pose proof (free_blocks_spec p l bs Hinv) as Hw. rewrite Hrel in Hw.
  rewrite Hall in Hw by (intros b Hb%Hbs; apply negb_true_iff, Z.eqb_neq; lia).
  specialize (Hw Hnd). destruct (proj1 (wp_iff _ _ _) (Hw ltac:(apply Forall_forall; intros b Hb%Hbs; lia)))
    as ([] & p1 & E1 & I1 & S1 & R1 & B1 & C1). clear Hw.
  pose proof (rep_nodup _ _ (inv_rep _ _ I1)) as Hnd1.
  pose proof I1 as I1'. rewrite <-(take_drop (Z.to_nat k) l), <-app_assoc in I1'.
  pose proof (get_new_blocks_spec _ _ _ I1') as Hw. rewrite length_take in Hw.
  replace (Z.of_nat (Z.to_nat k `min` length l)) with k in Hw by lia.
  apply wp_iff in Hw as (? & p2 & E2 & -> & I2 & [S2 B2 C2] & R2).
  exists p1, p2. split; [done|]. split; [apply get_all_free_blocks_rep, (inv_rep _ _ I1)|].
  split; [done|]. intros b key Hb Hkey.
  assert (bh p2 b = Some key) as Hb2; [|split; [done|by apply (inv_cache _ _ I2)]].
  rewrite B2, decide_False; [by rewrite B1|].
  destruct (enable_caching p1); [|set_solver]. intros Hin.
  apply NoDup_app in Hnd1 as (_ & Hd & _). apply (Hd b); [|done].
  rewrite <-(take_drop (Z.to_nat k) l). set_solver.
Qed.

(** Resetting the prefix cache succeeds exactly when no block but the null
    block is in use; then no hash can be hit any more and the free queue is
    unchanged. Otherwise it returns [False] and changes nothing. *)
Theorem reset_prefix_cache_correct p l :
  pool_inv p l ->
  exists r p', reset_prefix_cache p = Ret r p' /\
    (r = true <-> forall b, 0 < b < num_gpu_blocks p -> rc p b = 0) /\
    (r = true -> get_all_free_blocks (free_block_queue p') = Ret l (free_block_queue p') /\
       forall h g gs, Forall (fun g => 0 <= g < 2 ^ 32) (g :: gs) ->
         get_cached_block h (g :: gs) [] p' = Ret None p') /\
    (r = false -> p' = p).
Proof.
  intros Hinv. pose proof (reset_prefix_cache_spec p l Hinv) as Hw.
  apply wp_iff in Hw as (r & p' & E & I1 & S1 & R1 & Er & Hcase).
  exists r, p'. split; [done|]. split.
  { rewrite Er, Z.eqb_eq. by apply (pool_inv_all_free p l). }
  split; intros ->; [|done]. destruct Hcase as [HB HC].
  split; [apply get_all_free_blocks_rep, (inv_rep _ _ I1)|].
  intros h g gs Hgs. rewrite (get_cached_block_spec _ _ _ _ _ I1 Hgs). simpl.
  inversion_clear Hgs as [|? ? Hg _]. destruct (make_key_total h g Hg) as [key Ek]. rewrite Ek.
  unfold cached_under, BlockMap.elems. by rewrite HC, lookup_empty.
Qed.

Lemma reachable_pool_inv p l :
  pool_reachable p -> get_all_free_blocks (free_block_queue p) = Ret l (free_block_queue p) ->
  pool_inv p l.
Proof.
  intros (l0 & Hinv & _)%pool_reachable_inv E.
  rewrite (get_all_free_blocks_rep _ _ (inv_rep _ _ Hinv)) in E. congruence.
Qed.

Definition demo_hashed : Request :=
  hash_new_full_blocks (Some (fun _ => [[21]; [22]; [23]])) (demo_request demo_sampling [14; 15; 16]).

Lemma cache_then_lookup_witness :
  exists p', cache_full_blocks demo_hashed [1; 2; 3] 0 2 2 0 demo_pool1 = Ret tt p' /\
    exists b, get_cached_block [22] [0] [] p' = Ret (Some [b]) p' /\
      bh p' b = make_block_hash_with_group_id [22] 0.
Proof.
  destruct (cache_then_lookup demo_pool1 [4; 5] demo_hashed [1; 2; 3] 0 2 2 0) as (p' & ? & Hhit & _);
    try (vm_compute; congruence); try (vm_compute; split; congruence).
  - apply reachable_pool_inv; [apply demo_pool1_reachable|]. vm_compute. reflexivity.
  - apply NoDup_ListNoDup. repeat constructor; simpl; naive_solver lia.
  - vm_compute. repeat constructor; congruence.
  - by left.
  - exists p'. split; [assumption|]. apply (Hhit 1%nat); [vm_compute; lia|reflexivity].
Defined.

Definition demo_pool3 : BlockPool := after (cache_full_blocks demo_hashed [1; 2; 3] 0 2 2 0) demo_pool1.
Lemma demo_pool3_inv : pool_inv demo_pool3 [4; 5].
Proof.
  apply reachable_pool_inv; [|vm_compute; reflexivity].
  eapply reachable_step; [apply demo_pool1_reachable|].
  apply (step_cache_full_blocks _ demo_hashed [1; 2; 3] 0 2 2 0);
    try (vm_compute; congruence); try (vm_compute; split; congruence); try (vm_compute; reflexivity).
  - apply NoDup_ListNoDup. repeat constructor; simpl; naive_solver lia.
  - vm_compute. repeat constructor; congruence.
  - by left.
Qed.

Lemma freed_blocks_stay_cached_witness :
  exists p1 p2, free_blocks [2; 1] demo_pool3 = Ret tt p1 /\
    get_new_blocks 2 p1 = Ret [4; 5] p2 /\
    forall b key, b ∈ [2; 1] -> bh demo_pool3 b = Some key -> bh p2 b = Some key /\ b ∈ cached_under p2 key.
Proof.
  destruct (freed_blocks_stay_cached demo_pool3 [4; 5] [2; 1] 2 demo_pool3_inv) as (p1 & p2 & ? & _ & ? & ?).
  - apply NoDup_ListNoDup. repeat constructor; simpl; naive_solver lia.
  - vm_compute. repeat constructor; congruence.
  - vm_compute. split; congruence.
  - exists p1, p2. split_and!; assumption.
Defined.

Lemma reset_prefix_cache_correct_witness :
  exists p', reset_prefix_cache demo_pool3 = Ret false p' /\ p' = demo_pool3.
Proof.
  destruct (reset_prefix_cache_correct demo_pool3 [4; 5] demo_pool3_inv) as (r & p' & E & _ & _ & Hf).
  assert (r = false) as -> by (vm_compute in E; congruence). exists p'. split; [exact E|by apply Hf].
Defined.
