(* ===== verification/SingleType.v ===== *)
(** Managers for one type of attention layer
    ([vllm/v1/core/single_type_kv_cache_manager.py]): block tables of requests,
    and the search for the longest cached prefix under full, sliding-window,
    chunked-local, Mamba and cross attention.

    A manager shares the block pool with the other managers: its methods run on
    the pair of the manager and the pool. The manager class is determined by the
    KV-cache spec, so a method overridden in a subclass is one definition that
    branches on the spec. *)
From stdpp Require Import gmap strings list.
From Stdlib Require Import ZArith Lia.
From S2P Require Import Prelude BlockQueue Request BlockHash BlockPool.
Open Scope Z_scope.

(** ** Specs *)

(** [layout] stands for the fields the managers do not read (heads, head size,
    dtype, shapes), which only matter for equality of specs. *)
Inductive KVCacheSpec :=
| FullAttentionSpec (block_size layout : Z)
| MLAAttentionSpec (block_size layout : Z)
| SlidingWindowSpec (block_size sliding_window layout : Z)
| ChunkedLocalAttentionSpec (block_size attention_chunk_size layout : Z)
| MambaSpec (block_size num_speculative_blocks layout : Z)
| CrossAttentionSpec (block_size layout : Z)
| EncoderOnlyAttentionSpec (block_size layout : Z).

#[export] Instance KVCacheSpec_eq_dec : EqDecision KVCacheSpec.
Proof. solve_decision. Defined.

Definition spec_block_size (s : KVCacheSpec) : Z :=
  match s with
  | FullAttentionSpec bs _ | MLAAttentionSpec bs _ | SlidingWindowSpec bs _ _
  | ChunkedLocalAttentionSpec bs _ _ | MambaSpec bs _ _ | CrossAttentionSpec bs _
  | EncoderOnlyAttentionSpec bs _ => bs
  end.

(** [isinstance(spec, FullAttentionSpec)]: MLA specs are full-attention specs. *)
Definition is_full_attention (s : KVCacheSpec) : bool :=
  match s with FullAttentionSpec _ _ | MLAAttentionSpec _ _ => true | _ => false end.
Definition is_cross_attention (s : KVCacheSpec) : bool :=
  match s with CrossAttentionSpec _ _ => true | _ => false end.

(** The classes of [spec_manager_map]. *)
Inductive manager_class :=
| FullAttentionManager | SlidingWindowManager | ChunkedLocalAttentionManager
| MambaManager | CrossAttentionManager.

Definition spec_manager_map (s : KVCacheSpec) : option manager_class :=
  match s with
  | FullAttentionSpec _ _ | MLAAttentionSpec _ _ => Some FullAttentionManager
  | SlidingWindowSpec _ _ _ => Some SlidingWindowManager
  | ChunkedLocalAttentionSpec _ _ _ => Some ChunkedLocalAttentionManager
  | MambaSpec _ _ _ => Some MambaManager
  | CrossAttentionSpec _ _ => Some CrossAttentionManager
  | EncoderOnlyAttentionSpec _ _ => None
  end.

(** ** A manager *)

Record Manager := mkManager {
  kv_cache_spec : KVCacheSpec;
  mblock_size : Z; (* [self.block_size] *)
  req_to_blocks : gmap string (list Z);
  num_cached_block : gmap string Z;
  kv_cache_group_id : Z;
  m_null_block : Z (* [self._null_block] *)
}.
#[export] Instance Manager_inhabited : Inhabited Manager :=
  populate (mkManager (FullAttentionSpec 1 0) 1 ∅ ∅ 0 0).

Definition set_tables (f : gmap string (list Z) -> gmap string (list Z)) (m : Manager) : Manager :=
  mkManager (kv_cache_spec m) (mblock_size m) (f (req_to_blocks m)) (num_cached_block m)
    (kv_cache_group_id m) (m_null_block m).
Definition set_num_cached (f : gmap string Z -> gmap string Z) (m : Manager) : Manager :=
  mkManager (kv_cache_spec m) (mblock_size m) (req_to_blocks m) (f (num_cached_block m))
    (kv_cache_group_id m) (m_null_block m).

Definition manager_init (spec : KVCacheSpec) (pool : BlockPool) (group_id : Z)
    (dcp_world_size pcp_world_size : Z) : exn + Manager :=
  match spec_manager_map spec with
  | None => inl KeyError
  | Some _ =>
      let bs := spec_block_size spec in
      let bs := if dcp_world_size * pcp_world_size >? 1
                then bs * (dcp_world_size * pcp_world_size) else bs in
      inr (mkManager spec bs ∅ ∅ group_id (null_block pool))
  end.

Notation mstate := (Manager * BlockPool)%type.
Definition on_pool {A} (m : py BlockPool A) : py mstate A :=
  py_zoom snd (fun p s => (s.1, p)) m.
Definition on_manager (f : Manager -> Manager) : py mstate unit :=
  py_modify (fun s => (f s.1, s.2)).

(** [self.req_to_blocks[request_id]]: reading a [defaultdict] stores an empty
    list under a missing key. *)
Definition table (request_id : string) : py mstate (list Z) :=
  let! t := py_gets (fun s => req_to_blocks s.1 !! request_id) in
  match t with
  | Some blks => py_ret blks
  | None => do! on_manager (set_tables (<[request_id := []]>)); py_ret []
  end.
Definition set_table (request_id : string) (blks : list Z) : py mstate unit :=
  on_manager (set_tables (<[request_id := blks]>)).

(** *** Allocation *)

Definition evictable (p : BlockPool) (b : Z) : bool :=
  (ref_cnt (blocks p !!! b) =? 0) && negb (is_null (blocks p !!! b)).

(** [MambaManager] asks for room for its speculative blocks. *)
Definition with_speculative (spec : KVCacheSpec) (num_tokens : Z) : Z :=
  match spec with
  | MambaSpec bs num_speculative_blocks _ =>
      if num_speculative_blocks >? 0 then num_tokens + bs * num_speculative_blocks else num_tokens
  | _ => num_tokens
  end.

Definition get_num_blocks_to_allocate (request_id : string) (num_tokens : Z)
    (new_computed_blocks : list Z) : py mstate Z :=
  let! m := py_gets fst in
  let num_tokens := with_speculative (kv_cache_spec m) num_tokens in
  let num_required_blocks := cdiv num_tokens (mblock_size m) in
  let! t := table request_id in
  let num_new_blocks :=
    num_required_blocks - Z.of_nat (length new_computed_blocks) - Z.of_nat (length t) in
  let! p := py_gets snd in
  let num_evictable_computed_blocks :=
    Z.of_nat (length (List.filter (evictable p) new_computed_blocks)) in
  py_ret (num_new_blocks + num_evictable_computed_blocks).

Definition save_new_computed_blocks (request_id : string) (new_computed_blocks : list Z)
    : py mstate unit :=
  let! m := py_gets fst in
  if is_cross_attention (kv_cache_spec m)
  then py_assert (bool_decide (new_computed_blocks = []))
  else match num_cached_block m !! request_id with
  | None =>
      let! req_blocks := table request_id in
      do! py_assert (bool_decide (req_blocks = []));
      do! set_table request_id (req_blocks ++ new_computed_blocks);
      on_manager (set_num_cached (<[request_id := Z.of_nat (length new_computed_blocks)]>))
  | Some _ => py_assert (bool_decide (new_computed_blocks = []))
  end.

Definition allocate_new_blocks (request_id : string) (num_tokens : Z) : py mstate (list Z) :=
  let! m := py_gets fst in
  let num_tokens := with_speculative (kv_cache_spec m) num_tokens in
  let! req_blocks := table request_id in
  let num_required_blocks := cdiv num_tokens (mblock_size m) in
  let num_new_blocks := num_required_blocks - Z.of_nat (length req_blocks) in
  if num_new_blocks <=? 0 then py_ret []
  else
    let! new_blocks := on_pool (get_new_blocks num_new_blocks) in
    do! set_table request_id (req_blocks ++ new_blocks);
    py_ret new_blocks.

Definition cache_blocks (request : Request) (num_tokens : Z) : py mstate unit :=
  let! m := py_gets fst in
  if is_cross_attention (kv_cache_spec m) then py_raise ValueError else
  let rid := request_id (args request) in
  let num_cached_blocks := default 0 (num_cached_block m !! rid) in
  let num_full_blocks := num_tokens / mblock_size m in
  if num_cached_blocks >=? num_full_blocks then py_ret tt else
  let! t := table rid in
  do! on_pool (cache_full_blocks request t num_cached_blocks num_full_blocks (mblock_size m)
                 (kv_cache_group_id m));
  on_manager (set_num_cached (<[rid := num_full_blocks]>)).

Definition free (request_id : string) : py mstate unit :=
  let! t := py_gets (fun s => req_to_blocks s.1 !! request_id) in
  let req_blocks := default [] t in
  do! on_manager (set_tables (delete request_id));
  do! on_pool (free_blocks (reverse req_blocks));
  on_manager (set_num_cached (delete request_id)).

(** *** Blocks outside the attention window *)

Definition get_num_skipped_tokens (spec : KVCacheSpec) (num_computed_tokens : Z) : Z :=
  match spec with
  | SlidingWindowSpec _ sliding_window _ => num_computed_tokens - sliding_window + 1
  | ChunkedLocalAttentionSpec _ attention_chunk_size _ =>
      (num_computed_tokens / attention_chunk_size) * attention_chunk_size
  | _ => 0
  end.

(** The loop [for i in range(num_skipped_blocks - 1, -1, -1)]; [n] is [i + 1]. *)
Fixpoint skip_loop (request_id : string) (n : nat) (removed_blocks : list Z)
    : py mstate (list Z) :=
  match n with
  | O => py_ret removed_blocks
  | S i =>
      let! blks := table request_id in
      let! m := py_gets fst in
      let! b := py_unwrap IndexError (blks !! i) in
      if b =? m_null_block m then py_ret removed_blocks
      else
        do! set_table request_id (<[i := m_null_block m]> blks);
        skip_loop request_id i (removed_blocks ++ [b])
  end.

Definition remove_skipped_blocks (request_id : string) (num_computed_tokens : Z)
    : py mstate unit :=
  let! m := py_gets fst in
  let num_skipped_tokens := get_num_skipped_tokens (kv_cache_spec m) num_computed_tokens in
  if num_skipped_tokens <=? 0 then py_ret tt else
  let num_skipped_blocks := num_skipped_tokens / mblock_size m in
  do! table request_id;
  let! removed_blocks := skip_loop request_id (Z.to_nat num_skipped_blocks) [] in
  on_pool (free_blocks removed_blocks).

(** *** Common prefix *)

Fixpoint count_common (p : BlockPool) (n : Z) (blks : list Z) : Z :=
  match blks with
  | [] => 0
  | b :: blks' => if ref_cnt (blocks p !!! b) =? n then 1 + count_common p n blks' else 0
  end.

Definition get_num_common_prefix_blocks (running_request_id : string) : py mstate Z :=
  let! m := py_gets fst in
  if is_full_attention (kv_cache_spec m) then
    let! blks := table running_request_id in
    let! ' (m, p) := py_get in
    py_ret (count_common p (Z.of_nat (size (req_to_blocks m))) blks)
  else py_ret 0.

(** ** The longest cached prefix *)

(** Block hashes as a list, or regrouped to a larger block size on access. *)
Inductive BlockHashList := PlainHashes (l : list bytes) | ScaledHashes (b : BlockHashListWithBlockSize).

Definition hash_at (l : BlockHashList) (i : nat) : exn + bytes :=
  match l with
  | PlainHashes hs => match hs !! i with Some h => inr h | None => inl IndexError end
  | ScaledHashes b => get_value_at b (Z.of_nat i)
  end.
(** [itertools.islice(l, n)] *)
Definition islice (l : BlockHashList) (n : Z) : exn + list bytes :=
  if n <? 0 then inl ValueError else
  match l with
  | PlainHashes hs => inr (take (Z.to_nat n) hs)
  | ScaledHashes b => get_values b 0 (Z.to_nat (Z.min n (hash_list_len b)))
  end.

(** [for computed, cached in zip(computed_blocks, cached_block): computed.append(cached)] *)
Fixpoint append_row (computed : list (list Z)) (row : list Z) : list (list Z) :=
  match computed, row with
  | c :: cs, b :: bs => (c ++ [b]) :: append_row cs bs
  | _, _ => computed
  end.
(** [... computed[i] = cached] *)
Fixpoint store_row (i : nat) (computed : list (list Z)) (row : list Z) : list (list Z) :=
  match computed, row with
  | c :: cs, b :: bs => <[i := b]> c :: store_row i cs bs
  | _, _ => computed
  end.
(** [for computed in computed_blocks: computed.pop()] *)
Fixpoint pop_row (computed : list (list Z)) : exn + list (list Z) :=
  match computed with
  | [] => inr []
  | [] :: _ => inl IndexError
  | c :: cs => match pop_row cs with inr cs' => inr (removelast c :: cs') | inl e => inl e end
  end.
(** [computed_blocks[0]] *)
Definition first_row (computed : list (list Z)) : exn + list Z :=
  match computed with [] => inl IndexError | c :: _ => inr c end.

(** [while block_size != alignment_tokens and len(computed_blocks[0]) * block_size
    % alignment_tokens != 0: pop]; every turn shortens the rows. *)
Fixpoint align_loop (fuel : nat) (block_size alignment_tokens : Z) (computed : list (list Z))
    : exn + list (list Z) :=
  match fuel with
  | O => inl Diverges
  | S fuel' =>
      if block_size =? alignment_tokens then inr computed else
      match first_row computed with
      | inl e => inl e
      | inr c =>
          if Z.of_nat (length c) * block_size mod alignment_tokens =? 0 then inr computed
          else match pop_row computed with
               | inl e => inl e
               | inr computed' => align_loop fuel' block_size alignment_tokens computed'
               end
      end
  end.
Definition align_hit (block_size alignment_tokens : Z) (computed : list (list Z))
    : exn + list (list Z) :=
  align_loop (S (length (default [] (head computed)))) block_size alignment_tokens computed.

(** [if use_eagle and computed_blocks[0]: pop] *)
Definition eagle_pop (use_eagle : bool) (computed : list (list Z)) : exn + list (list Z) :=
  if use_eagle then
    match first_row computed with
    | inl e => inl e
    | inr [] => inr computed
    | inr _ => pop_row computed
    end
  else inr computed.

Definition empty_rows (kv_cache_group_ids : list Z) : list (list Z) :=
  map (fun _ => []) kv_cache_group_ids.

(** Forward search: extend the rows while the next hash hits in every group. *)
Fixpoint forward_hits (hs : list bytes) (kv_cache_group_ids : list Z) (computed : list (list Z))
    : py BlockPool (list (list Z)) :=
  match hs with
  | [] => py_ret computed
  | h :: hs' =>
      let! cached_block := get_cached_block h kv_cache_group_ids [] in
      match cached_block with
      | Some ((_ :: _) as row) => forward_hits hs' kv_cache_group_ids (append_row computed row)
      | _ => py_ret computed
      end
  end.

Definition find_full (block_hashes : BlockHashList) (max_length : Z) (gs : list Z)
    (spec : KVCacheSpec) (use_eagle : bool) (alignment_tokens dcp_world_size pcp_world_size : Z)
    : py BlockPool (list (list Z)) :=
  do! py_assert (match spec with
                 | FullAttentionSpec _ _ | MLAAttentionSpec _ _ | ChunkedLocalAttentionSpec _ _ _ => true
                 | _ => false end);
  let block_size := spec_block_size spec in
  let block_size := if dcp_world_size * pcp_world_size >? 1
                    then block_size * (dcp_world_size * pcp_world_size) else block_size in
  let max_num_blocks := max_length / block_size in
  let! hs := py_lift (islice block_hashes max_num_blocks) in
  let! computed := forward_hits hs gs (empty_rows gs) in
  let! computed := py_lift (eagle_pop use_eagle computed) in
  py_lift (align_hit block_size alignment_tokens computed).

(** Backward search of the sliding-window manager; [n] is [i + 1]. The result is
    the rows, the number of contiguous hits and whether a full window was found. *)
Fixpoint slide_loop (block_hashes : BlockHashList) (gs : list Z)
    (block_size alignment_tokens contiguous : Z) (n : nat) (computed : list (list Z))
    (num_contiguous_blocks : Z) : py BlockPool (list (list Z) * Z * bool) :=
  match n with
  | O => py_ret (computed, num_contiguous_blocks, false)
  | S i =>
      let! h := py_lift (hash_at block_hashes i) in
      let! cached_block := get_cached_block h gs [] in
      match cached_block with
      | Some ((_ :: _) as row) =>
          if (num_contiguous_blocks =? 0) && negb (block_size =? alignment_tokens)
             && negb ((Z.of_nat i + 1) * block_size mod alignment_tokens =? 0)
          then slide_loop block_hashes gs block_size alignment_tokens contiguous i computed
                 num_contiguous_blocks
          else
            let computed := store_row i computed row in
            let num_contiguous_blocks := num_contiguous_blocks + 1 in
            if num_contiguous_blocks >=? contiguous
            then py_ret (map (take (i + Z.to_nat num_contiguous_blocks)) computed,
                         num_contiguous_blocks, true)
            else slide_loop block_hashes gs block_size alignment_tokens contiguous i computed
                   num_contiguous_blocks
      | _ => slide_loop block_hashes gs block_size alignment_tokens contiguous i computed 0
      end
  end.

Definition find_sliding (block_hashes : BlockHashList) (max_length : Z) (gs : list Z)
    (spec : KVCacheSpec) (use_eagle : bool) (alignment_tokens dcp_world_size pcp_world_size : Z)
    : py BlockPool (list (list Z)) :=
  match spec with
  | SlidingWindowSpec block_size sliding_window _ =>
      do! py_assert (dcp_world_size =? 1);
      do! py_assert (pcp_world_size =? 1);
      let contiguous := cdiv (sliding_window - 1) block_size in
      let contiguous := if use_eagle then contiguous + 1 else contiguous in
      let max_num_blocks := Z.to_nat (max_length / block_size) in
      let! null := py_gets null_block in
      let computed := map (fun _ => replicate max_num_blocks null) gs in
      let! ' (computed, num_contiguous_blocks, match_found) :=
        slide_loop block_hashes gs block_size alignment_tokens contiguous max_num_blocks computed 0 in
      let! computed :=
        if match_found then py_ret computed
        else py_lift (align_hit block_size alignment_tokens
                        (map (take (Z.to_nat num_contiguous_blocks)) computed)) in
      if use_eagle then
        let! c := py_lift (first_row computed) in
        match c with
        | [] => py_ret computed
        | _ => do! py_assert (block_size =? alignment_tokens); py_lift (pop_row computed)
        end
      else py_ret computed
  | _ => py_raise AssertionError
  end.

(** The lookups of the chunked-local manager, from block [i] on, [n] blocks. *)
Fixpoint chunk_loop (block_hashes : BlockHashList) (gs : list Z) (i n : nat)
    (computed : list (list Z)) : py BlockPool (list (list Z)) :=
  match n with
  | O => py_ret computed
  | S n' =>
      let! h := py_lift (hash_at block_hashes i) in
      let! cached_block := get_cached_block h gs [] in
      match cached_block with
      | Some ((_ :: _) as row) => chunk_loop block_hashes gs (S i) n' (append_row computed row)
      | _ => py_ret computed
      end
  end.

Definition find_chunked (block_hashes : BlockHashList) (max_length : Z) (gs : list Z)
    (spec : KVCacheSpec) (use_eagle : bool) (alignment_tokens dcp_world_size pcp_world_size : Z)
    : py BlockPool (list (list Z)) :=
  match spec with
  | ChunkedLocalAttentionSpec block_size chunk _ =>
      do! py_assert (negb use_eagle);
      do! py_assert (dcp_world_size =? 1);
      do! py_assert (pcp_world_size =? 1);
      do! py_assert (block_size =? alignment_tokens);
      let max_num_blocks := max_length / block_size in
      let local_attention_start_idx :=
        if max_length >? 0 then max_length / chunk * chunk else 0 in
      let start := local_attention_start_idx / block_size in
      let! null := py_gets null_block in
      chunk_loop block_hashes gs (Z.to_nat start) (Z.to_nat (max_num_blocks - start))
        (map (fun _ => replicate (Z.to_nat start) null) gs)
  | _ => py_raise AssertionError
  end.

(** The backward search of the Mamba manager; [n] is [i + 1]. *)
Fixpoint mamba_loop (block_hashes : BlockHashList) (gs : list Z)
    (block_size alignment_tokens null : Z) (n : nat) (computed : list (list Z))
    : py BlockPool (list (list Z)) :=
  match n with
  | O => py_ret computed
  | S i =>
      let! h := py_lift (hash_at block_hashes i) in
      let! cached_block := get_cached_block h gs [] in
      match cached_block with
      | Some ((_ :: _) as row) =>
          if negb (block_size =? alignment_tokens)
             && negb ((Z.of_nat i + 1) * block_size mod alignment_tokens =? 0)
          then mamba_loop block_hashes gs block_size alignment_tokens null i computed
          else py_ret (append_row (map (fun c => c ++ replicate i null) computed) row)
      | _ => mamba_loop block_hashes gs block_size alignment_tokens null i computed
      end
  end.

Definition find_mamba (block_hashes : BlockHashList) (max_length : Z) (gs : list Z)
    (spec : KVCacheSpec) (use_eagle : bool) (alignment_tokens dcp_world_size pcp_world_size : Z)
    : py BlockPool (list (list Z)) :=
  match spec with
  | MambaSpec block_size _ _ =>
      do! py_assert (dcp_world_size =? 1);
      do! py_assert (pcp_world_size =? 1);
      let max_num_blocks := Z.to_nat (max_length / block_size) in
      let! null := py_gets null_block in
      mamba_loop block_hashes gs block_size alignment_tokens null max_num_blocks (empty_rows gs)
  | _ => py_raise AssertionError
  end.

Definition find_cross (spec : KVCacheSpec) : py BlockPool (list (list Z)) :=
  do! py_assert (is_cross_attention spec);
  py_raise NotImplementedError.

(** [manager_cls.find_longest_cache_hit], by class. *)
Definition find_longest_cache_hit (cls : manager_class) (block_hashes : BlockHashList)
    (max_length : Z) (gs : list Z) (spec : KVCacheSpec) (use_eagle : bool)
    (alignment_tokens dcp_world_size pcp_world_size : Z) : py BlockPool (list (list Z)) :=
  match cls with
  | FullAttentionManager =>
      find_full block_hashes max_length gs spec use_eagle alignment_tokens dcp_world_size pcp_world_size
  | SlidingWindowManager =>
      find_sliding block_hashes max_length gs spec use_eagle alignment_tokens dcp_world_size pcp_world_size
  | ChunkedLocalAttentionManager =>
      find_chunked block_hashes max_length gs spec use_eagle alignment_tokens dcp_world_size pcp_world_size
  | MambaManager =>
      find_mamba block_hashes max_length gs spec use_eagle alignment_tokens dcp_world_size pcp_world_size
  | CrossAttentionManager => find_cross spec
  end.

(** ** Rows and columns of a search result *)

(** The blocks of index [j], one per group. *)
Definition col (rows : list (list Z)) (j : nat) : list (option Z) := map (fun r => r !! j) rows.
Definition rows_len (rows : list (list Z)) (n : nat) : Prop := Forall (fun r => length r = n) rows.

Lemma col_append rows row n j :
  rows_len rows n -> length row = length rows ->
  col (append_row rows row) j = (if decide (j = n) then map Some row else col rows j) /\
  rows_len (append_row rows row) (S n) /\ length (append_row rows row) = length rows.
Proof.
  intros Hl. revert row. induction Hl as [|r rows Hr Hl IH]; intros [|b row] Hlen; simpl in *; try lia.
  - repeat split; [by case_decide|constructor].
  - destruct (IH row ltac:(lia)) as (Hc & Hn & Hlen'). repeat split; [|constructor|lia].
    + unfold col in *. simpl. rewrite Hc. subst n. case_decide as Hj.
      * subst j. by rewrite list_lookup_middle.
      * f_equal. destruct (decide (j < length r)%nat); [by apply lookup_app_l|].
        rewrite !lookup_ge_None_2; [done|lia|rewrite length_app; simpl; lia].
    + rewrite length_app. simpl. lia.
    + done.
Qed.

Lemma col_store i rows row n j :
  rows_len rows n -> length row = length rows -> (i < n)%nat ->
  col (store_row i rows row) j = (if decide (j = i) then map Some row else col rows j) /\
  rows_len (store_row i rows row) n /\ length (store_row i rows row) = length rows.
Proof.
  intros Hl Hlen Hi. revert row Hlen.
  induction Hl as [|r rows Hr Hl IH]; intros [|b row] Hlen; simpl in *; try lia.
  - repeat split; [by case_decide|constructor].
  - destruct (IH row ltac:(lia)) as (Hc & Hn & Hlen'). repeat split; [|constructor|lia].
    + unfold col in *. simpl. rewrite Hc. case_decide as Hj; f_equal.
      * subst j. apply list_lookup_insert_eq. lia.
      * by apply list_lookup_insert_ne.
    + by rewrite length_insert.
    + done.
Qed.

Lemma col_take k rows j : (j < k)%nat -> col (map (take k) rows) j = col rows j.
Proof.
  intros Hj. unfold col. rewrite map_map. apply map_ext. intros r. by apply lookup_take_lt.
Qed.

Lemma rows_len_take k rows n : rows_len rows n -> rows_len (map (take k) rows) (Nat.min k n).
Proof.
  intros Hl. unfold rows_len in *. apply Forall_map. eapply Forall_impl; [exact Hl|].
  simpl. intros r <-. apply length_take.
Qed.

(** What the cache has for the [j]-th block of a request, in every group. *)
Definition hit (p : BlockPool) (l : BlockHashList) (gs : list Z) (j : nat) : option (list Z) :=
  match hash_at l j with inr h => cached_row p h gs | inl _ => None end.

Lemma length_cached_row p h gs row : cached_row p h gs = Some row -> length row = length gs.
Proof.
  revert row. induction gs as [|g gs IH]; intros row; simpl; [by intros [= <-]|].
  destruct (make_block_hash_with_group_id h g) as [key|]; [|done].
  destruct (head (cached_under p key)); [|done]. destruct (cached_row p h gs) as [bs|]; [|done].
  intros [= <-]. simpl. by rewrite (IH bs).
Qed.

Section searches.
Context (p : BlockPool) (free_list : list Z) (Hinv : pool_inv p free_list).
Context (gs : list Z) (Hgs : Forall (fun g => 0 <= g < 2 ^ 32) gs) (Hne : gs <> []).
Context (l : BlockHashList).

(** One lookup of a search, on a hash that exists. *)
Lemma lookup_step j h : hash_at l j = inr h -> get_cached_block h gs [] p = Ret (hit p l gs j) p.
Proof.
  intros Hh. rewrite (get_cached_block_spec _ _ _ _ _ Hinv Hgs). unfold hit. rewrite Hh.
  by destruct (cached_row p h gs).
Qed.

Lemma hit_row_shape j row : hit p l gs j = Some row -> length row = length gs /\ exists b r, row = b :: r.
Proof.
  unfold hit. destruct (hash_at l j) as [|h]; [done|]. intros H%length_cached_row.
  split; [done|]. destruct gs, row; try done; eauto.
Qed.

(** *** Forward searches *)

(** The number of consecutive hits from block [i], among [n] blocks. *)
Fixpoint run_length (i n : nat) : nat :=
  match n with
  | O => O
  | S n' => match hit p l gs i with Some _ => S (run_length (S i) n') | None => O end
  end.

Lemma run_length_le i n : (run_length i n <= n)%nat.
Proof. revert i. induction n as [|n IH]; intros i; simpl; [done|]. destruct (hit p l gs i); [specialize (IH (S i))|]; lia. Qed.

Lemma run_length_hit i n j :
  (i <= j < i + run_length i n)%nat -> is_Some (hit p l gs j).
Proof.
  revert i. induction n as [|n IH]; intros i Hj; simpl in *; [lia|].
  destruct (hit p l gs i) eqn:E; [|lia]. destruct (decide (j = i)) as [->|]; [by rewrite E|].
  apply (IH (S i)). lia.
Qed.

Lemma run_length_stop i n : (run_length i n < n)%nat -> hit p l gs (i + run_length i n) = None.
Proof.
  revert i. induction n as [|n IH]; intros i Hn; simpl in *; [lia|].
  destruct (hit p l gs i) eqn:E; [|by rewrite Nat.add_0_r].
  replace (i + S (run_length (S i) n))%nat with (S i + run_length (S i) n)%nat by lia. apply IH. lia.
Qed.

(** [rows] extend [base] (of [i] blocks) by the hits of the blocks [i .. i + k). *)
Definition extended (base : list (list Z)) (i k : nat) (rows : list (list Z)) : Prop :=
  length rows = length gs /\ rows_len rows (i + k) /\
  (forall j, (j < i)%nat -> col rows j = col base j) /\
  (forall j, (i <= j < i + k)%nat -> exists row, hit p l gs j = Some row /\ col rows j = map Some row).

Lemma chunk_loop_spec n i base :
  length base = length gs -> rows_len base i ->
  (forall j, (i <= j < i + n)%nat -> exists h, hash_at l j = inr h) ->
  exists rows, chunk_loop l gs i n base p = Ret rows p /\ extended base i (run_length i n) rows.
Proof.
  revert i base. induction n as [|n IH]; intros i base Hlen Hrl Hh; simpl.
  - exists base. split; [done|]. split_and!; [done|by rewrite Nat.add_0_r|done|lia].
  - destruct (Hh i ltac:(lia)) as [h Eh]. unfold py_bind, py_lift. rewrite Eh. simpl.
    rewrite (lookup_step i h Eh).
    destruct (hit p l gs i) as [row|] eqn:E.
    2:{ exists base. split; [done|]. split_and!; [done|by rewrite Nat.add_0_r|done|lia]. }
    destruct (hit_row_shape i row E) as (Hrow & b & r & ->).
    destruct (col_append base (b :: r) i 0%nat Hrl ltac:(lia)) as (_ & Hrl' & Hlen').
    destruct (IH (S i) (append_row base (b :: r))) as (rows & Erun & L & R & C1 & C2); [lia|done| |].
    { intros j Hj. apply Hh. lia. }
    exists rows. split; [done|]. split_and!; [done|by rewrite <-Nat.add_succ_comm| |].
    + intros j Hj. rewrite C1 by lia.
      destruct (col_append base (b :: r) i j Hrl ltac:(lia)) as (-> & _). by rewrite decide_False by lia.
    + intros j Hj. destruct (decide (j = i)) as [->|]; [|apply C2; lia].
      exists (b :: r). split; [done|]. rewrite C1 by lia.
      destruct (col_append base (b :: r) i i Hrl ltac:(lia)) as (-> & _). by rewrite decide_True by lia.
Qed.

(** The full-attention search is the same loop from block 0. *)
Lemma forward_hits_chunk hs i rows :
  (forall j h, hs !! j = Some h -> hash_at l (i + j)%nat = inr h) ->
  forward_hits hs gs rows p = chunk_loop l gs i (length hs) rows p.
Proof.
  revert i rows. induction hs as [|h hs IH]; intros i rows Hh; simpl; [done|].
  unfold py_bind, py_lift. rewrite <-(Nat.add_0_r i), (Hh 0%nat h) by done. simpl.
  rewrite (get_cached_block_spec _ _ _ _ _ Hinv Hgs).
  destruct (option_map _ _) as [[|b r]|]; try done. rewrite Nat.add_0_r.
  apply IH. intros j h' Hj. rewrite Nat.add_succ_comm. by apply Hh.
Qed.

End searches.

(** *** Trimming *)

(** [rows'] are the first [n'] blocks of [rows]. *)
Definition trimmed (rows : list (list Z)) (n' : nat) (rows' : list (list Z)) : Prop :=
  length rows' = length rows /\ rows_len rows' n' /\
  forall j, (j < n')%nat -> col rows' j = col rows j.

Lemma trimmed_refl rows n : rows_len rows n -> trimmed rows n rows.
Proof. by repeat split. Qed.

Lemma pop_row_spec rows n :
  rows_len rows (S n) -> exists rows', pop_row rows = inr rows' /\ trimmed rows n rows'.
Proof.
  induction 1 as [|r rows Hr Hl (rows' & E & Hlen & Hrl & Hc)]; simpl.
  - exists []. repeat split; constructor.
  - destruct r as [|x r0] using rev_ind; [done|]. rewrite length_app in Hr. simpl in Hr.
    exists (r0 :: rows'). split.
    { destruct (r0 ++ [x]) eqn:Er; [by destruct r0|]. rewrite E, <-Er, removelast_last. done. }
    repeat split; [simpl; lia|constructor; [lia|done]|].
    intros j Hj. unfold col in *. simpl. rewrite Hc by done. f_equal.
    rewrite lookup_app_l by lia. done.
Qed.

(** The alignment loop cuts to the largest aligned length. *)
Lemma align_loop_spec fuel bs a rows n :
  rows_len rows n -> rows <> [] -> (n < fuel)%nat -> bs <> a -> 0 < a ->
  exists n' rows', align_loop fuel bs a rows = inr rows' /\ trimmed rows n' rows' /\ (n' <= n)%nat /\
    Z.of_nat n' * bs mod a = 0 /\
    forall k, (n' < k <= n)%nat -> Z.of_nat k * bs mod a <> 0.
Proof.
  revert rows n. induction fuel as [|fuel IH]; intros rows n Hl Hne Hf Hbs Ha; [lia|]. simpl.
  destruct (bs =? a) eqn:E; [apply Z.eqb_eq in E; done|].
  destruct rows as [|r rows]; [done|]. simpl. pose proof (proj1 (Forall_cons_1 _ _ _ Hl)) as Hr.
  rewrite Hr. destruct (Z.of_nat n * bs mod a =? 0) eqn:Em.
  - apply Z.eqb_eq in Em. exists n, (r :: rows). split_and!; [done|by apply trimmed_refl|done|done|lia].
  - apply Z.eqb_neq in Em. destruct n as [|n]; [done|].
    destruct (pop_row_spec (r :: rows) n Hl) as (rows1 & E1 & Hlen1 & Hrl1 & Hc1).
    simpl in E1. rewrite E1. simpl in Hlen1.
    destruct (IH rows1 n Hrl1) as (n' & rows' & E' & (Hlen' & Hrl' & Hc') & Hle & Hm & Hmax);
      [by destruct rows1|lia|done|done|].
    exists n', rows'. split_and!; [done| |lia|done|].
    + split_and!; [simpl; lia|done|]. intros j Hj. rewrite Hc' by done. apply Hc1. lia.
    + intros k Hk. destruct (decide (k = S n)) as [->|]; [done|]. apply Hmax. lia.
Qed.

(** The length a hit of [n] blocks is cut to. *)
Definition aligned_len (bs a : Z) (n n' : nat) : Prop :=
  (n' <= n)%nat /\ (bs = a -> n' = n) /\
  (bs <> a -> Z.of_nat n' * bs mod a = 0 /\
     forall k, (n' < k <= n)%nat -> Z.of_nat k * bs mod a <> 0).

Lemma align_hit_spec bs a rows n :
  rows_len rows n -> rows <> [] -> 0 < a ->
  exists n' rows', align_hit bs a rows = inr rows' /\ trimmed rows n' rows' /\ aligned_len bs a n n'.
Proof.
  intros Hl Hne Ha. unfold align_hit. destruct (decide (bs = a)) as [->|Hbs].
  - exists n, rows. simpl. rewrite Z.eqb_refl. split_and!; [done|by apply trimmed_refl|].
    split_and!; [done|done|done].
  - destruct (align_loop_spec (S (length (default [] (head rows)))) bs a rows n)
      as (n' & rows' & E & Ht & Hle & Hm & Hmax); [done|done| |done|done|].
    { destruct rows as [|r rows]; [done|]. apply Forall_cons_1 in Hl as [Hr _]. simpl. lia. }
    exists n', rows'. split_and!; [done|done|]. split_and!; [done|done|done].
Qed.

Lemma eagle_pop_spec use_eagle rows n :
  rows_len rows n -> rows <> [] ->
  exists rows', eagle_pop use_eagle rows = inr rows' /\
    trimmed rows (if use_eagle then n - 1 else n)%nat rows'.
Proof.
  intros Hl Hne. unfold eagle_pop. destruct use_eagle; [|exists rows; by split; [|apply trimmed_refl]].
  destruct rows as [|r rows]; [done|]. pose proof (proj1 (Forall_cons_1 _ _ _ Hl)) as Hr. simpl first_row.
  destruct r as [|x r]; simpl in Hr; subst n.
  - exists ([] :: rows). split; [done|]. by apply trimmed_refl.
  - destruct (pop_row_spec ((x :: r) :: rows) (length r) Hl) as (rows' & E & Ht). exists rows'.
    replace (S (length r) - 1)%nat with (length r) by lia. done.
Qed.

(** *** Hash lists *)

Definition hash_count (l : BlockHashList) : nat :=
  match l with PlainHashes hs => length hs | ScaledHashes b => Z.to_nat (hash_list_len b) end.
Definition hash_list_wf (l : BlockHashList) : Prop :=
  match l with PlainHashes _ => True | ScaledHashes b => 0 < scale_factor b end.

Lemma scaled_hashes_spec b j :
  0 < scale_factor b -> (j < Z.to_nat (hash_list_len b))%nat ->
  get_value_at b (Z.of_nat j) =
  inr (concat (take (Z.to_nat (scale_factor b))
                 (drop (j * Z.to_nat (scale_factor b)) (bhl_block_hashes b)))).
Proof.
  intros Hs Hj. apply get_value_at_spec; [done|]. unfold hash_list_len in Hj.
  pose proof (Z.mul_div_le (Z.of_nat (length (bhl_block_hashes b))) (scale_factor b) Hs). nia.
Qed.

Lemma hash_at_total l j : hash_list_wf l -> (j < hash_count l)%nat -> exists h, hash_at l j = inr h.
Proof.
  destruct l as [hs|b]; simpl; intros Hwf Hj.
  - destruct (lookup_lt_is_Some_2 hs j Hj) as [h ->]. eauto.
  - rewrite scaled_hashes_spec by done. eauto.
Qed.

Lemma islice_spec l n :
  hash_list_wf l -> 0 <= n ->
  exists hs, islice l n = inr hs /\ length hs = Nat.min (Z.to_nat n) (hash_count l) /\
    forall j h, hs !! j = Some h -> hash_at l j = inr h.
Proof.
  intros Hwf Hn. unfold islice. destruct (n <? 0) eqn:E; [lia|].
  destruct l as [hs|b]; simpl in *.
  - eexists. split; [done|]. rewrite length_take. split; [done|].
    intros j h Hj. apply lookup_take_Some in Hj as [-> _]. done.
  - set (k := Z.to_nat (Z.min n (hash_list_len b))).
    assert (k <= Z.to_nat (hash_list_len b))%nat as Hk by lia.
    change 0 with (Z.of_nat 0). rewrite get_values_spec; [|done|].
    2:{ unfold hash_list_len in Hk.
        pose proof (Z.mul_div_le (Z.of_nat (length (bhl_block_hashes b))) (scale_factor b) Hwf). nia. }
    eexists. split; [done|]. rewrite length_map, length_seq. split; [lia|].
    intros j h Hj. pose proof (lookup_lt_Some _ _ _ Hj) as Hlt. rewrite length_map, length_seq in Hlt.
    rewrite list_lookup_fmap, lookup_seq_lt in Hj by done. simpl in Hj. simplify_eq.
    apply scaled_hashes_spec; [done|lia].
Qed.

(** *** The full-attention search *)

Lemma find_full_spec p free_list gs l max_length spec use_eagle a :
  pool_inv p free_list -> Forall (fun g => 0 <= g < 2 ^ 32) gs -> gs <> [] -> hash_list_wf l ->
  is_full_attention spec = true -> 0 < spec_block_size spec -> 0 <= max_length -> 0 < a ->
  let bs := spec_block_size spec in
  let n := run_length p gs l 0 (Nat.min (Z.to_nat (max_length / bs)) (hash_count l)) in
  exists n' rows,
    find_full l max_length gs spec use_eagle a 1 1 p = Ret rows p /\
    aligned_len bs a (if use_eagle then n - 1 else n)%nat n' /\
    extended p gs l (empty_rows gs) 0 n' rows.
Proof.
  intros Hinv Hgs Hne Hwf Hfull Hbs Hmax Ha bs n. unfold find_full, py_bind, py_assert, py_lift.
  destruct (match spec with
            | FullAttentionSpec _ _ | MLAAttentionSpec _ _ | ChunkedLocalAttentionSpec _ _ _ => true
            | _ => false end) eqn:Es; [|by destruct spec].
  simpl. fold bs. destruct (islice_spec l (max_length / bs) Hwf) as (hs & -> & Hlen & Hat).
  { apply Z.div_pos; lia. }
  simpl. rewrite (forward_hits_chunk p free_list Hinv gs Hgs l hs 0) by done.
  destruct (chunk_loop_spec p free_list Hinv gs Hgs Hne l (length hs) 0 (empty_rows gs))
    as (rows & -> & L & R & _ & C).
  { unfold empty_rows. by rewrite length_map. }
  { unfold rows_len, empty_rows. apply Forall_map. by apply Forall_true. }
  { intros j Hj. apply hash_at_total; [done|]. lia. }
  rewrite Hlen in R, C. fold n in R, C. simpl in R.
  assert (rows <> []) as Hrne by (destruct rows, gs; done).
  destruct (eagle_pop_spec use_eagle rows n R Hrne) as (rows1 & -> & L1 & R1 & C1). simpl.
  destruct (align_hit_spec bs a rows1 _ R1) as (n' & rows2 & -> & (L2 & R2 & C2) & Hal);
    [by destruct rows, rows1|done|].
  exists n', rows2. split; [done|]. split; [done|]. split_and!; [lia|done|lia|].
  intros j Hj. destruct Hal as [Hle _].
  assert (j < n)%nat by (destruct use_eagle; lia).
  rewrite C2, C1 by (destruct use_eagle; lia). apply C. lia.
Qed.

(** *** The sliding-window search *)

Section sliding.
Context (p : BlockPool) (free_list : list Z) (Hinv : pool_inv p free_list).
Context (gs : list Z) (Hgs : Forall (fun g => 0 <= g < 2 ^ 32) gs) (Hne : gs <> []).
Context (l : BlockHashList) (bs a W : Z) (maxb : nat).

Definition aligned (n : nat) : Prop := bs = a \/ Z.of_nat n * bs mod a = 0.
(** Blocks the window needs: at least one hit ends a match. *)
Definition window : nat := Z.to_nat (Z.max 1 W).

(** [n] blocks can be reused: the last [window] of them are all cached. *)
Definition window_hit (n : nat) : Prop :=
  forall j, (n - window <= j < n)%nat -> is_Some (hit p l gs j).

(** The reference result: the longest aligned length, not above [maxb], whose
    window is cached; the blocks before the window are null. *)
Record window_result (n : nat) (rows : list (list Z)) : Prop := mkWindow {
  wr_rows : length rows = length gs;
  wr_len : rows_len rows n;
  wr_bound : (n <= maxb)%nat;
  wr_aligned : aligned n;
  wr_window : forall j, (n - window <= j < n)%nat ->
     exists row, hit p l gs j = Some row /\ col rows j = map Some row;
  wr_null : forall j, (j < n - window)%nat -> col rows j = map (fun _ => Some (null_block p)) gs;
  wr_longest : forall n', (n' <= maxb)%nat -> aligned n' -> window_hit n' -> (n' <= n)%nat
}.

(** No aligned end above [e] has a cached window: there is a miss at [e] or above. *)
Definition none_above (e : nat) : Prop :=
  forall n', (e < n' <= maxb)%nat -> aligned n' ->
    exists j, (n' - window <= j < n')%nat /\ (e <= j)%nat /\ hit p l gs j = None.

Record slide_inv (n nc : nat) (rows : list (list Z)) : Prop := mkSlide {
  sl_rows : length rows = length gs;
  sl_len : rows_len rows maxb;
  sl_bound : (n + nc <= maxb)%nat;
  sl_aligned : (0 < nc)%nat -> aligned (n + nc);
  sl_hits : forall j, (n <= j < n + nc)%nat ->
     exists row, hit p l gs j = Some row /\ col rows j = map Some row;
  sl_null : forall j, (j < n)%nat -> col rows j = map (fun _ => Some (null_block p)) gs;
  sl_short : (nc < window)%nat;
  sl_none : none_above (n + nc)
}.

Lemma none_above_longest e n' :
  none_above e -> (n' <= maxb)%nat -> aligned n' -> window_hit n' -> (n' <= e)%nat.
Proof.
  intros Hn Hb Ha Hw. destruct (decide (n' <= e)%nat); [done|].
  destruct (Hn n' ltac:(lia) Ha) as (j & Hj & _ & Hmiss). destruct (Hw j Hj) as [? Hhit]. congruence.
Qed.

Lemma slide_loop_spec n nc rows :
  slide_inv n nc rows -> (forall j, (j < n)%nat -> exists h, hash_at l j = inr h) ->
  exists rows' nc' found,
    slide_loop l gs bs a W n rows (Z.of_nat nc) p = Ret (rows', Z.of_nat nc', found) p /\
    if found then exists e, window_result e rows' else slide_inv 0 nc' rows'.
Proof.
  revert nc rows. induction n as [|i IH]; intros nc rows I Hh; cbn [slide_loop].
  { exists rows, nc, false. done. }
  destruct (Hh i ltac:(lia)) as [h Eh]. unfold py_bind, py_lift. rewrite Eh. simpl.
  rewrite (lookup_step p free_list Hinv gs Hgs l i h Eh).
  assert (forall j, (j < i)%nat -> exists h, hash_at l j = inr h) as Hh' by (intros; apply Hh; lia).
  destruct (hit p l gs i) as [row|] eqn:Ehit.
  2:{ (* a miss: restart *)
      apply (IH 0%nat rows); [|done]. destruct I as [L R B A H N S0 M]. split; try done.
      - lia.
      - lia.
      - lia.
      - intros j Hj. apply N. lia.
      - unfold window. lia.
      - intros n' Hn' Ha'. destruct (decide (S i + nc < n')%nat).
        + destruct (M n' ltac:(lia) Ha') as (j & ? & ? & ?). exists j. split_and!; [lia|lia|lia|done].
        + exists i. split_and!; [lia|lia|lia|done]. }
  destruct (hit_row_shape p gs Hgs Hne l i row Ehit) as (Hrow & b & r & ->).
  destruct ((Z.of_nat nc =? 0) && negb (bs =? a) && negb ((Z.of_nat i + 1) * bs mod a =? 0)) eqn:Esk.
  { (* a hit at a misaligned end: skipped *)
    apply andb_true_iff in Esk as [Esk E3%negb_true_iff%Z.eqb_neq].
    apply andb_true_iff in Esk as [E1%Z.eqb_eq E2%negb_true_iff%Z.eqb_neq].
    assert (nc = 0%nat) as -> by lia. apply (IH 0%nat rows); [|done].
    destruct I as [L R B A H N S0 M]. split; try done; try lia.
    - intros j Hj. apply N. lia.
    - intros n' Hn' Ha'. destruct (decide (n' = S i)) as [->|].
      + destruct Ha' as [?|Ha']; [done|]. destruct E3. by replace (Z.of_nat i + 1) with (Z.of_nat (S i)) by lia.
      + destruct (M n' ltac:(lia) Ha') as (j & ? & ? & ?). exists j. split_and!; [lia|lia|lia|done]. }
  assert (aligned (i + S nc)) as Hal.
  { destruct nc as [|nc].
    - simpl in Esk. unfold aligned. replace (i + 1)%nat with (S i) by lia.
      destruct (Z.eqb_spec bs a); [by left|]. right. simpl in Esk. apply negb_false_iff, Z.eqb_eq in Esk.
      by replace (Z.of_nat (S i)) with (Z.of_nat i + 1) by lia.
    - replace (i + S (S nc))%nat with (S i + S nc)%nat by lia. apply (sl_aligned _ _ _ I). lia. }
  destruct I as [L R B A H N S0 M].
  set (rows1 := store_row i rows (b :: r)).
  assert (forall j, col rows1 j = if decide (j = i) then map Some (b :: r) else col rows j) as C1.
  { intros j. apply (col_store i rows (b :: r) maxb j R); lia. }
  destruct (col_store i rows (b :: r) maxb 0 R ltac:(lia) ltac:(lia)) as (_ & R1 & L1).
  fold rows1 in R1, L1.
  assert (forall j, (i <= j < i + S nc)%nat ->
            exists row, hit p l gs j = Some row /\ col rows1 j = map Some row) as H1.
  { intros j Hj. rewrite C1. case_decide as Hji; [subst; eauto|]. apply H. lia. }
  assert (forall j, (j < i)%nat -> col rows1 j = map (fun _ => Some (null_block p)) gs) as N1.
  { intros j Hj. rewrite C1, decide_False by lia. apply N. lia. }
  assert (none_above (i + S nc)) as M1 by (by replace (i + S nc)%nat with (S i + nc)%nat by lia).
  replace (Z.of_nat nc + 1) with (Z.of_nat (S nc)) by lia.
  destruct (Z.geb_spec (Z.of_nat (S nc)) W) as [Ew|Ew].
  - (* a full window *)
    do 3 eexists. split; [done|]. simpl. exists (i + S nc)%nat. rewrite Nat2Z.id.
    assert (window = S nc) as Hw by (unfold window in *; lia).
    split.
    + by rewrite length_map, L1.
    + pose proof (rows_len_take (i + S nc) rows1 maxb R1) as Hrl.
      by rewrite Nat.min_l in Hrl by lia.
    + lia.
    + done.
    + intros j Hj. rewrite col_take by lia. apply H1. lia.
    + intros j Hj. rewrite col_take by lia. apply N1. lia.
    + intros n' ???. by eapply none_above_longest.
  - apply (IH (S nc) rows1); [|done]. split; try done; try lia. unfold window in *. lia.
Qed.

End sliding.

(** With eagle the window is one block longer and the last block is dropped. *)
Lemma find_sliding_spec p free_list gs l max_length bs sw lay use_eagle a :
  pool_inv p free_list -> Forall (fun g => 0 <= g < 2 ^ 32) gs -> gs <> [] -> hash_list_wf l ->
  0 < bs -> 0 <= max_length -> 0 < a -> (Z.to_nat (max_length / bs) <= hash_count l)%nat ->
  (use_eagle = true -> bs = a) ->
  exists n rows0 rows,
    find_sliding l max_length gs (SlidingWindowSpec bs sw lay) use_eagle a 1 1 p = Ret rows p /\
    window_result p gs l bs a (cdiv (sw - 1) bs + if use_eagle then 1 else 0)
      (Z.to_nat (max_length / bs)) n rows0 /\
    trimmed rows0 (if use_eagle then n - 1 else n)%nat rows.
Proof.
  intros Hinv Hgs Hne Hwf Hbs Hml Ha Hcnt Heagle.
  set (maxb := Z.to_nat (max_length / bs)) in *.
  set (W := cdiv (sw - 1) bs + if use_eagle then 1 else 0).
  enough (exists n rows0, (let! ' (computed, num_contiguous_blocks, match_found) :=
        slide_loop l gs bs a W maxb (map (fun _ => replicate maxb (null_block p)) gs) 0 in
      if match_found then py_ret computed
      else py_lift (align_hit bs a (map (take (Z.to_nat num_contiguous_blocks)) computed))) p
      = Ret rows0 p /\ window_result p gs l bs a W maxb n rows0) as (n & rows0 & E & Hw).
  { exists n, rows0. destruct (eagle_pop_spec use_eagle rows0 n) as (rows & Ee & Ht).
    { apply Hw. } { pose proof (wr_rows _ _ _ _ _ _ _ _ _ Hw). destruct rows0, gs; done. }
    exists rows. split_and!; [|done|done].
    unfold find_sliding, py_bind, py_assert, py_gets in *. simpl. fold maxb.
    replace (if use_eagle then cdiv (sw - 1) bs + 1 else cdiv (sw - 1) bs) with W
      by (subst W; destruct use_eagle; lia).
    destruct (slide_loop _ _ _ _ _ _ _ _ p) as [[[computed nc] found] p1|]; [|done].
    rewrite E. unfold eagle_pop in Ee. destruct use_eagle; [|by simplify_eq/=].
    rewrite (Heagle eq_refl), Z.eqb_refl. unfold py_lift.
    destruct (first_row rows0) as [|[|x c]]; simpl in *; simplify_eq; [done|]. by rewrite Ee. }
  unfold py_bind.
  assert (slide_inv p gs l bs a W maxb maxb 0 (map (fun _ => replicate maxb (null_block p)) gs)) as I0.
  { split.
    - by rewrite length_map.
    - apply Forall_map, Forall_true. intros x. apply length_replicate.
    - lia.
    - lia.
    - lia.
    - intros j Hj. unfold col. rewrite map_map. apply map_ext. intros x. by apply lookup_replicate_2.
    - unfold window. lia.
    - intros n' Hn'. lia. }
  destruct (slide_loop_spec p free_list Hinv gs Hgs Hne l bs a W maxb maxb 0 _ I0)
    as (rows & nc & found & E & Hres).
  { intros j Hj. apply hash_at_total; [done|lia]. }
  change (Z.of_nat 0) with 0 in E. rewrite E. destruct found.
  { destruct Hres as [e He]. by exists e, rows. }
  destruct Hres as [L R B A H N S0 M]. simpl in *.
  pose proof (rows_len_take nc rows maxb R) as Rt. rewrite Nat.min_l in Rt by lia.
  rewrite Nat2Z.id.
  destruct (align_hit_spec bs a (map (take nc) rows) nc Rt) as (n' & rows' & Ea & (L' & R' & C') & Hal).
  { destruct rows, gs; done. }
  { done. }
  assert (n' = nc) as ->.
  { destruct Hal as (Hle & Heq & Hmod). destruct (decide (bs = a)) as [Hb|Hb]; [by apply Heq|].
    destruct (decide (n' = nc)); [done|]. destruct (Hmod Hb) as [_ Hmax].
    destruct (A ltac:(lia)) as [?|Hm]; [done|]. destruct (Hmax nc ltac:(lia) Hm). }
  rewrite length_map in L'. unfold py_lift. simpl. rewrite Ea. simpl.
  exists nc, rows'. split; [done|]. split; try done.
  - by rewrite L', L.
  - destruct nc; [right; by rewrite Z.mul_0_l, Z.mod_0_l by lia|apply A; lia].
  - intros j Hj. rewrite C', col_take by lia. apply H. lia.
  - intros j Hj. lia.
  - intros n' ???. by eapply (none_above_longest _ _ _ _ _ _ _ _ _ M).
Qed.

(** *** Chunked-local and Mamba searches *)

Lemma find_chunked_spec p free_list gs l max_length bs chunk lay :
  pool_inv p free_list -> Forall (fun g => 0 <= g < 2 ^ 32) gs -> gs <> [] -> hash_list_wf l ->
  0 < bs -> 0 < chunk -> 0 <= max_length -> (Z.to_nat (max_length / bs) <= hash_count l)%nat ->
  let start := Z.to_nat (max_length / chunk * chunk / bs) in
  let n := (Z.to_nat (max_length / bs) - start)%nat in
  exists rows,
    find_chunked l max_length gs (ChunkedLocalAttentionSpec bs chunk lay) false bs 1 1 p = Ret rows p /\
    extended p gs l (map (fun _ => replicate start (null_block p)) gs) start
      (run_length p gs l start n) rows.
Proof.
  intros Hinv Hgs Hne Hwf Hbs Hch Hml Hcnt start n.
  unfold find_chunked, py_bind, py_assert, py_gets. simpl. rewrite Z.eqb_refl. simpl.
  assert ((if max_length >? 0 then max_length / chunk * chunk else 0) = max_length / chunk * chunk) as ->.
  { destruct (max_length >? 0) eqn:E; [done|]. assert (max_length = 0) as -> by lia.
    by rewrite Z.div_0_l by lia. }
  fold start. assert (0 <= max_length / chunk * chunk / bs).
  { apply Z.div_pos; [|lia]. pose proof (Z.div_pos max_length chunk Hml Hch). nia. }
  replace (Z.to_nat (max_length / bs - max_length / chunk * chunk / bs)) with n by (subst n start; lia).
  apply (chunk_loop_spec p free_list Hinv gs Hgs Hne l).
  - by rewrite length_map.
  - apply Forall_map, Forall_true. intros x. apply length_replicate.
  - intros j Hj. apply hash_at_total; [done|]. subst n. lia.
Qed.

(** The result of the Mamba search: nothing, or the last aligned cached state
    below [maxb] preceded by null blocks. *)
Definition mamba_result (p : BlockPool) (gs : list Z) (l : BlockHashList) (bs a : Z) (maxb n : nat)
    (rows : list (list Z)) : Prop :=
  length rows = length gs /\ rows_len rows n /\ (n <= maxb)%nat /\
  (forall j, (S j = n)%nat -> aligned bs a n /\
     exists row, hit p l gs j = Some row /\ col rows j = map Some row) /\
  (forall j, (S j < n)%nat -> col rows j = map (fun _ => Some (null_block p)) gs) /\
  (forall j, (n <= j < maxb)%nat -> aligned bs a (S j) -> hit p l gs j = None).

Lemma mamba_loop_spec p free_list gs l bs a maxb n :
  pool_inv p free_list -> Forall (fun g => 0 <= g < 2 ^ 32) gs -> gs <> [] ->
  (n <= maxb)%nat -> (forall j, (j < n)%nat -> exists h, hash_at l j = inr h) ->
  (forall j, (n <= j < maxb)%nat -> aligned bs a (S j) -> hit p l gs j = None) ->
  exists k rows, mamba_loop l gs bs a (null_block p) n (empty_rows gs) p = Ret rows p /\
    mamba_result p gs l bs a maxb k rows.
Proof.
  intros Hinv Hgs Hne. induction n as [|i IH]; intros Hn Hh Hmiss; cbn [mamba_loop].
  { exists 0%nat, (empty_rows gs). split; [done|]. split_and!; try lia; try done.
    - unfold empty_rows. by rewrite length_map.
    - apply Forall_map. by apply Forall_true. }
  destruct (Hh i ltac:(lia)) as [h Eh]. unfold py_bind, py_lift. rewrite Eh. simpl.
  rewrite (lookup_step p free_list Hinv gs Hgs l i h Eh).
  assert ((~ aligned bs a (S i) \/ hit p l gs i = None) -> forall j, (i <= j < maxb)%nat ->
            aligned bs a (S j) -> hit p l gs j = None) as Hcont.
  { intros Hor j Hj Haj. destruct (decide (j = i)) as [->|]; [by destruct Hor|]. apply Hmiss; [lia|done]. }
  destruct (hit p l gs i) as [row|] eqn:Ehit; [|apply IH; [lia|intros; apply Hh; lia|by apply Hcont; right]].
  destruct (hit_row_shape p gs Hgs Hne l i row Ehit) as (Hrow & b & r & ->).
  destruct (negb (bs =? a) && negb ((Z.of_nat i + 1) * bs mod a =? 0)) eqn:Esk.
  { apply andb_true_iff in Esk as [E2%negb_true_iff%Z.eqb_neq E3%negb_true_iff%Z.eqb_neq].
    apply IH; [lia|intros; apply Hh; lia|]. apply Hcont. left. intros [?|Ha]; [done|]. apply E3.
    by replace (Z.of_nat i + 1) with (Z.of_nat (S i)) by lia. }
  set (base := map (fun c => c ++ replicate i (null_block p)) (empty_rows gs)).
  assert (base = map (fun _ => replicate i (null_block p)) gs) as Eb.
  { subst base. unfold empty_rows. by rewrite map_map. }
  assert (length base = length gs) as Lb by (by rewrite Eb, length_map).
  assert (rows_len base i) as Rb.
  { rewrite Eb. apply Forall_map, Forall_true. intros x. apply length_replicate. }
  assert (forall j, col (append_row base (b :: r)) j = if decide (j = i) then map Some (b :: r) else col base j) as C.
  { intros j. apply col_append; [done|lia]. }
  destruct (col_append base (b :: r) i 0 Rb ltac:(lia)) as (_ & R & L).
  do 2 eexists. split; [done|]. split_and!; [by rewrite L|done|lia|..].
  - intros j [= ->]. split.
    + destruct (Z.eqb_spec bs a); [by left|]. right. simpl in Esk. apply negb_false_iff, Z.eqb_eq in Esk.
      by replace (Z.of_nat (S i)) with (Z.of_nat i + 1) by lia.
    + exists (b :: r). split; [done|]. by rewrite C, decide_True.
  - intros j Hj. rewrite C, decide_False by lia. rewrite Eb. unfold col. rewrite map_map.
    apply map_ext. intros x. apply lookup_replicate_2. lia.
  - intros j Hj. apply Hmiss. lia.
Qed.

(** ** What every search returns

    Each group's row has the same length, and each column is either all null or
    the cached blocks of that position. *)
Definition hit_rows (p : BlockPool) (gs : list Z) (l : BlockHashList) (rows : list (list Z)) : Prop :=
  length rows = length gs /\ exists n, rows_len rows n /\
  forall j, (j < n)%nat -> col rows j = map (fun _ => Some (null_block p)) gs \/
    exists row, hit p l gs j = Some row /\ col rows j = map Some row.

Lemma hit_rows_trimmed p gs l rows n rows' n' :
  hit_rows p gs l rows -> rows_len rows n -> rows <> [] -> (n' <= n)%nat -> trimmed rows n' rows' ->
  hit_rows p gs l rows'.
Proof.
  intros (L & m & R & C) Rn Hne Hle (L' & R' & C'). split; [congruence|]. exists n'. split; [done|].
  assert (m = n) as ->.
  { destruct rows as [|r rows]; [done|]. apply Forall_cons_1 in R as [? _]. apply Forall_cons_1 in Rn as [? _]. congruence. }
  intros j Hj. rewrite C' by done. apply C. lia.
Qed.

(** The side conditions of a search by a manager class. *)
Definition search_ok (cls : manager_class) (spec : KVCacheSpec) (use_eagle : bool) (a : Z) : Prop :=
  match cls, spec with
  | FullAttentionManager, (FullAttentionSpec _ _ | MLAAttentionSpec _ _) => True
  | SlidingWindowManager, SlidingWindowSpec bs _ _ => use_eagle = true -> bs = a
  | ChunkedLocalAttentionManager, ChunkedLocalAttentionSpec bs chunk _ =>
      use_eagle = false /\ 0 < chunk /\ bs = a
  | MambaManager, MambaSpec _ _ _ => True
  | _, _ => False
  end.

Arguments find_full : simpl never.
Arguments find_sliding : simpl never.
Arguments find_chunked : simpl never.
Arguments find_mamba : simpl never.

Lemma find_hits_ok p free_list cls gs l max_length spec use_eagle a :
  pool_inv p free_list -> Forall (fun g => 0 <= g < 2 ^ 32) gs -> gs <> [] -> hash_list_wf l ->
  search_ok cls spec use_eagle a -> 0 < spec_block_size spec -> 0 <= max_length -> 0 < a ->
  (Z.to_nat (max_length / spec_block_size spec) <= hash_count l)%nat ->
  exists n rows, find_longest_cache_hit cls l max_length gs spec use_eagle a 1 1 p = Ret rows p /\
    hit_rows p gs l rows /\ rows_len rows n /\ (n <= Z.to_nat (max_length / spec_block_size spec))%nat /\
    aligned (spec_block_size spec) a n.
Proof.
  intros Hinv Hgs Hne Hwf Hok Hbs Hml Ha Hcnt.
  destruct cls; try (by destruct spec); simpl.
  - assert (is_full_attention spec = true) as Hfull by (by destruct spec).
    destruct (find_full_spec p free_list gs l max_length spec use_eagle a) as (n & rows & -> & Hal & L & R & _ & C);
      try done.
    exists n, rows. split; [done|]. split; [|split; [done|]].
    + split; [done|]. exists n. split; [done|]. intros j Hj. right. apply C. lia.
    + destruct Hal as (Hle & Heq & Hmod).
      pose proof (run_length_le p gs l 0 (Nat.min (Z.to_nat (max_length / spec_block_size spec)) (hash_count l))).
      split; [destruct use_eagle; lia|].
      destruct (decide (spec_block_size spec = a)); [by left|right]. by apply Hmod.
  - destruct spec as [| |bs sw lay| | | |]; try done. simpl in *.
    destruct (find_sliding_spec p free_list gs l max_length bs sw lay use_eagle a)
      as (n & rows0 & rows & -> & Hw & Ht); try done.
    destruct Hw as [L R B A H N _]. exists (if use_eagle then n - 1 else n)%nat, rows. split; [done|].
    assert (hit_rows p gs l rows0) as Hh0.
    { split; [done|]. exists n. split; [done|]. intros j Hj.
      destruct (decide (j < n - window (cdiv (sw - 1) bs + if use_eagle then 1 else 0))%nat).
      - left. by apply N.
      - right. apply H. lia. }
    split_and!.
    + apply (hit_rows_trimmed p gs l rows0 n rows (if use_eagle then n - 1 else n)%nat); try done.
      * by destruct rows0, gs.
      * destruct use_eagle; lia.
    + apply Ht.
    + destruct use_eagle; lia.
    + destruct use_eagle; [left; auto|done].
  - destruct spec as [| | |bs chunk lay| | |]; try done. simpl in *. destruct Hok as (-> & Hch & <-).
    destruct (find_chunked_spec p free_list gs l max_length bs chunk lay) as (rows & -> & L & R & C1 & C2);
      try done.
    set (start := Z.to_nat (max_length / chunk * chunk / bs)) in *.
    set (m := (Z.to_nat (max_length / bs) - start)%nat) in *.
    exists (start + run_length p gs l start m)%nat, rows.
    assert (start <= Z.to_nat (max_length / bs))%nat.
    { subst start. apply Z2Nat.inj_le; [apply Z.div_pos; [|lia]..|].
      - pose proof (Z.div_pos max_length chunk Hml Hch). nia.
      - lia.
      - apply Z.div_le_mono; [lia|]. rewrite Z.mul_comm. by apply Z.mul_div_le. }
    pose proof (run_length_le p gs l start m). split; [done|]. split_and!; [|done|lia|by left].
    split; [done|]. exists (start + run_length p gs l start m)%nat. split; [done|].
    intros j Hj. destruct (decide (j < start)%nat).
    + left. rewrite C1 by done. unfold col. rewrite map_map. apply map_ext. intros x.
      by apply lookup_replicate_2.
    + right. apply C2. lia.
  - destruct spec as [| | | |bs ns lay| |]; try done. simpl in *.
    unfold find_mamba, py_bind, py_assert, py_gets. simpl.
    destruct (mamba_loop_spec p free_list gs l bs a (Z.to_nat (max_length / bs)) (Z.to_nat (max_length / bs)))
      as (n & rows & -> & L & R & B & Hlast & Hnull & _); try done; [|lia|].
    { intros j Hj. apply hash_at_total; [done|lia]. }
    exists n, rows. split; [done|]. split_and!; [|done|lia|].
    + split; [done|]. exists n. split; [done|]. intros j Hj. destruct (decide (S j = n)) as [E|].
      * right. by apply Hlast.
      * left. apply Hnull. lia.
    + destruct n as [|n]; [right; by rewrite Z.mul_0_l, Z.mod_0_l by lia|]. by apply (Hlast n).
Qed.

(** ** Properties *)

(** C27. Prefix search under full attention finds the longest cached prefix. The
    rows returned have one block per position [0 .. n), where every position
    below [m] is cached in all groups and [m] is either the bound on the hit or
    the first position that is not cached; [n] is [m], one less when the last
    block is dropped for eagle, cut to the largest multiple of the alignment. *)
Theorem full_attention_longest_prefix p fl gs l max_length bs lay use_eagle a :
  pool_inv p fl -> Forall (fun g => 0 <= g < 2 ^ 32) gs -> gs <> [] -> hash_list_wf l ->
  0 < bs -> 0 <= max_length -> 0 < a ->
  let bound := Nat.min (Z.to_nat (max_length / bs)) (hash_count l) in
  exists m n rows,
    find_longest_cache_hit FullAttentionManager l max_length gs (FullAttentionSpec bs lay) use_eagle a 1 1 p
      = Ret rows p /\
    (m <= bound)%nat /\ (forall j, (j < m)%nat -> is_Some (hit p l gs j)) /\
    (m = bound \/ hit p l gs m = None) /\
    aligned_len bs a (if use_eagle then m - 1 else m)%nat n /\
    length rows = length gs /\ rows_len rows n /\
    (forall j, (j < n)%nat -> exists row, hit p l gs j = Some row /\ col rows j = map Some row).
Proof.
  intros Hinv Hgs Hne Hwf Hbs Hml Ha bound.
  destruct (find_full_spec p fl gs l max_length (FullAttentionSpec bs lay) use_eagle a)
    as (n & rows & E & Hal & L & R & _ & C); try done.
  exists (run_length p gs l 0 bound), n, rows. split_and!; try done.
  - apply run_length_le.
  - intros j Hj. apply (run_length_hit p gs l 0 bound). lia.
  - pose proof (run_length_le p gs l 0 bound). destruct (decide (run_length p gs l 0 bound = bound)); [by left|].
    right. apply (run_length_stop p gs l 0 bound). lia.
  - intros j Hj. apply C. lia.
Qed.

(** C39. Prefix search under sliding-window attention, without EAGLE and context
    parallelism and for hashes that cover the bound, finds the longest reusable length:
    the largest aligned number [n] of blocks, within the bound, such that the last
    [window] blocks before it are all cached, the window being the blocks that hold the
    [sliding_window - 1] tokens before the next one (at least one block). Those blocks
    are returned, and every block before them is the null block. *)
Theorem sliding_window_longest_hit p fl gs l max_length bs sw lay a :
  pool_inv p fl -> Forall (fun g => 0 <= g < 2 ^ 32) gs -> gs <> [] -> hash_list_wf l ->
  0 < bs -> 0 <= max_length -> 0 < a -> (Z.to_nat (max_length / bs) <= hash_count l)%nat ->
  let w := Z.to_nat (Z.max 1 (cdiv (sw - 1) bs)) in
  let reusable n := (n <= Z.to_nat (max_length / bs))%nat /\ (bs = a \/ Z.of_nat n * bs mod a = 0) /\
    forall j, (n - w <= j < n)%nat -> is_Some (hit p l gs j) in
  exists n rows,
    find_longest_cache_hit SlidingWindowManager l max_length gs (SlidingWindowSpec bs sw lay) false a 1 1 p
      = Ret rows p /\
    reusable n /\ (forall n', reusable n' -> (n' <= n)%nat) /\
    length rows = length gs /\ rows_len rows n /\
    (forall j, (n - w <= j < n)%nat -> exists row, hit p l gs j = Some row /\ col rows j = map Some row) /\
    (forall j, (j < n - w)%nat -> col rows j = map (fun _ => Some (null_block p)) gs).
Proof.
  intros Hinv Hgs Hne Hwf Hbs Hml Ha Hcnt w reusable.
  destruct (find_sliding_spec p fl gs l max_length bs sw lay false a)
    as (n & rows0 & rows & E & [L R B A H N M] & (Lt & Rt & Ct)); try done.
  rewrite Z.add_0_r in *.
  exists n, rows. split; [done|]. split.
  { split_and!; [done|done|]. intros j Hj. destruct (H j Hj) as (row & -> & _). done. }
  split; [intros n' (? & ? & ?); by apply M|]. split_and!; [congruence|done|..].
  - intros j Hj. rewrite Ct by lia. by apply H.
  - intros j Hj. rewrite Ct by lia. by apply N.
Qed.

(** Prefix search for Mamba layers returns the latest aligned cached state:
    nothing is cached at an aligned position at or after [n], the last of the
    [n] blocks returned is the cached state and the others are null blocks. *)
Theorem mamba_latest_state p fl gs l max_length bs ns lay a :
  pool_inv p fl -> Forall (fun g => 0 <= g < 2 ^ 32) gs -> gs <> [] -> hash_list_wf l ->
  0 < bs -> 0 <= max_length -> (Z.to_nat (max_length / bs) <= hash_count l)%nat ->
  let bound := Z.to_nat (max_length / bs) in
  let aligned n := bs = a \/ Z.of_nat n * bs mod a = 0 in
  exists n rows,
    find_longest_cache_hit MambaManager l max_length gs (MambaSpec bs ns lay) false a 1 1 p = Ret rows p /\
    length rows = length gs /\ rows_len rows n /\ (n <= bound)%nat /\
    (forall j, (n <= j < bound)%nat -> aligned (S j) -> hit p l gs j = None) /\
    (forall j, (S j = n)%nat -> aligned n /\
       exists row, hit p l gs j = Some row /\ col rows j = map Some row) /\
    (forall j, (S j < n)%nat -> col rows j = map (fun _ => Some (null_block p)) gs).
Proof.
  intros Hinv Hgs Hne Hwf Hbs Hml Hcnt bound aligned0. simpl.
  unfold find_mamba, py_bind, py_assert, py_gets. simpl. fold bound.
  destruct (mamba_loop_spec p fl gs l bs a bound bound)
    as (n & rows & -> & L & R & B & Hlast & Hnull & Hmiss); try done; [|lia|].
  { intros j Hj. apply hash_at_total; [done|lia]. }
  exists n, rows. by split_and!.
Qed.

(** The pool of [demo_pool3]: hashes 21 and 22 cached in group 0, 23 not. *)
Definition demo_list : BlockHashList := PlainHashes [[21]; [22]; [23]].

Lemma group_zero_ok : Forall (fun g => 0 <= g < 2 ^ 32) [0].
Proof. by apply Forall_singleton. Qed.

Lemma full_attention_longest_prefix_witness :
  exists m n rows,
    find_longest_cache_hit FullAttentionManager demo_list 6 [0] (FullAttentionSpec 2 0) false 2 1 1 demo_pool3
      = Ret rows demo_pool3 /\ rows = [[1; 2]] /\ m = 2%nat /\ aligned_len 2 2 m n /\ rows_len rows n.
Proof.
  destruct (full_attention_longest_prefix demo_pool3 [4; 5] [0] demo_list 6 2 0 false 2
              demo_pool3_inv group_zero_ok ltac:(done) I ltac:(lia) ltac:(lia) ltac:(lia))
    as (m & n & rows & E & Hm & _ & _ & Ha & _ & R & _).
  assert (rows = [[1; 2]]) as Er by (vm_compute in E; congruence).
  exists m, n, rows. split_and!; try assumption.
  destruct Ha as (_ & Ha & _). specialize (Ha eq_refl). rewrite Er in R.
  apply Forall_cons_1 in R as [R _]. simpl in *. lia.
Defined.

Lemma sliding_window_longest_hit_witness :
  exists n rows,
    find_longest_cache_hit SlidingWindowManager demo_list 6 [0] (SlidingWindowSpec 2 3 0) false 2 1 1 demo_pool3
      = Ret rows demo_pool3 /\ rows = [[0; 2]] /\ rows_len rows n.
Proof.
  destruct (sliding_window_longest_hit demo_pool3 [4; 5] [0] demo_list 6 2 3 0 2
              demo_pool3_inv group_zero_ok ltac:(done) I ltac:(lia) ltac:(lia) ltac:(lia)
              ltac:(vm_compute; lia)) as (n & rows & E & _ & _ & _ & R & _).
  exists n, rows. split_and!; [exact E|vm_compute in E; congruence|exact R].
Defined.

Lemma mamba_latest_state_witness :
  exists n rows,
    find_longest_cache_hit MambaManager demo_list 6 [0] (MambaSpec 2 0 0) false 2 1 1 demo_pool3
      = Ret rows demo_pool3 /\ rows = [[0; 2]] /\ rows_len rows n.
Proof.
  destruct (mamba_latest_state demo_pool3 [4; 5] [0] demo_list 6 2 0 0 2
              demo_pool3_inv group_zero_ok ltac:(done) I ltac:(lia) ltac:(lia) ltac:(vm_compute; lia))
    as (n & rows & E & _ & R & _).
  exists n, rows. split_and!; [exact E|vm_compute in E; congruence|exact R].
Defined.
