(* ===== verification/Coordinator.v ===== *)
(** The KV-cache coordinator ([vllm/v1/core/kv_cache_coordinator.py]): the block
    pool shared by one manager per KV-cache group, in its three variants (no
    prefix caching, one group, full attention plus one other type). *)
From stdpp Require Import gmap strings list.
From Stdlib Require Import ZArith Lia.
From S2P Require Import Prelude BlockQueue Request BlockHash BlockPool SingleType.
Open Scope Z_scope.

(** ** State *)

(** What [HybridKVCacheCoordinator.verify_and_split_kv_cache_groups] computes. *)
Record HybridSplit := mkSplit {
  full_attention_group_ids : list Z;
  other_group_ids : list Z;
  other_attention_cls : manager_class;
  full_attention_spec : KVCacheSpec;
  other_spec : KVCacheSpec;
  lcm_block_size : Z;
  full_attn_first : bool
}.

Inductive coordinator_class :=
| KVCacheCoordinatorNoPrefixCache
| UnitaryKVCacheCoordinator (kv_cache_spec : KVCacheSpec) (block_size dcp_world_size pcp_world_size : Z)
| HybridKVCacheCoordinator (hash_block_size : Z) (split : HybridSplit).

Record KVCacheCoordinator := mkCoordinator {
  block_pool : BlockPool;
  single_type_managers : list Manager;
  co_use_eagle : bool;
  co_class : coordinator_class
}.

(** ** Construction *)

(** [KVCacheConfig], as far as the coordinator reads it: the number of blocks and
    the spec of every group. *)
Record KVCacheConfig := mkConfig { num_blocks : Z; kv_cache_groups : list KVCacheSpec }.

Fixpoint managers_init (groups : list KVCacheSpec) (pool : BlockPool) (i : Z)
    (dcp_world_size pcp_world_size : Z) : exn + list Manager :=
  match groups with
  | [] => inr []
  | spec :: groups' =>
      match manager_init spec pool i dcp_world_size pcp_world_size with
      | inl e => inl e
      | inr m =>
          match managers_init groups' pool (i + 1) dcp_world_size pcp_world_size with
          | inl e => inl e
          | inr ms => inr (m :: ms)
          end
      end
  end.

(** The loop of [verify_and_split_kv_cache_groups] over the groups. *)
Fixpoint split_groups (groups : list KVCacheSpec) (i : Z) (full other : option KVCacheSpec)
    (full_ids other_ids : list Z)
    : exn + (option KVCacheSpec * option KVCacheSpec * list Z * list Z) :=
  match groups with
  | [] => inr (full, other, full_ids, other_ids)
  | g :: groups' =>
      if is_full_attention g then
        match full with
        | None => split_groups groups' (i + 1) (Some g) other (full_ids ++ [i]) other_ids
        | Some f => if bool_decide (f = g)
                    then split_groups groups' (i + 1) full other (full_ids ++ [i]) other_ids
                    else inl AssertionError
        end
      else
        match other with
        | None => split_groups groups' (i + 1) full (Some g) full_ids (other_ids ++ [i])
        | Some o => if bool_decide (o = g)
                    then split_groups groups' (i + 1) full other full_ids (other_ids ++ [i])
                    else inl AssertionError
        end
  end.

Definition list_max (l : list Z) : Z := match l with [] => 0 | x :: l' => foldl Z.max x l' end.
Definition list_min (l : list Z) : Z := match l with [] => 0 | x :: l' => foldl Z.min x l' end.

Definition verify_and_split_kv_cache_groups (groups : list KVCacheSpec) : exn + HybridSplit :=
  match split_groups groups 0 None None [] [] with
  | inl e => inl e
  | inr (Some full, Some other, full_ids, other_ids) =>
      match spec_manager_map other with
      | None => inl KeyError
      | Some cls =>
          let split := mkSplit full_ids other_ids cls full other
                         (Z.lcm (spec_block_size full) (spec_block_size other)) in
          if list_max full_ids <? list_min other_ids then inr (split true)
          else if list_max other_ids <? list_min full_ids then inr (split false)
          else inl ValueError
      end
  | inr _ => inl AssertionError
  end.

Definition get_kv_cache_coordinator (cfg : KVCacheConfig) (use_eagle enable_caching
    enable_kv_cache_events use_int has_metrics : bool) (dcp_world_size pcp_world_size hash_block_size : Z)
    : exn + KVCacheCoordinator :=
  match pool_init (num_blocks cfg) enable_caching hash_block_size enable_kv_cache_events use_int has_metrics with
  | inl e => inl e
  | inr pool =>
      match managers_init (kv_cache_groups cfg) pool 0 dcp_world_size pcp_world_size with
      | inl e => inl e
      | inr ms =>
          if negb enable_caching
          then inr (mkCoordinator pool ms use_eagle KVCacheCoordinatorNoPrefixCache)
          else match kv_cache_groups cfg with
          | [spec] =>
              let bs := spec_block_size spec in
              let bs := if dcp_world_size >? 1 then bs * dcp_world_size else bs in
              let bs := if pcp_world_size >? 1 then bs * pcp_world_size else bs in
              if hash_block_size =? bs
              then inr (mkCoordinator pool ms use_eagle
                          (UnitaryKVCacheCoordinator spec bs dcp_world_size pcp_world_size))
              else inl AssertionError
          | groups =>
              if forallb (fun g => spec_block_size g mod hash_block_size =? 0) groups
                 && (dcp_world_size =? 1) && (pcp_world_size =? 1)
              then match verify_and_split_kv_cache_groups groups with
                   | inl e => inl e
                   | inr split => inr (mkCoordinator pool ms use_eagle
                                         (HybridKVCacheCoordinator hash_block_size split))
                   end
              else inl AssertionError
          end
      end
  end.

(** ** Operations *)

(** Run a method of the [i]-th manager on the shared pool. *)
Definition with_manager {A} (i : nat) (op : py (Manager * BlockPool) A) : py KVCacheCoordinator A :=
  py_zoom (fun c => (single_type_managers c !!! i, block_pool c))
          (fun mp c => mkCoordinator mp.2 (<[i := mp.1]> (single_type_managers c))
                         (co_use_eagle c) (co_class c)) op.
Definition on_co_pool {A} (op : py BlockPool A) : py KVCacheCoordinator A :=
  py_zoom block_pool (fun p c => mkCoordinator p (single_type_managers c) (co_use_eagle c) (co_class c)) op.
Definition manager_indices : py KVCacheCoordinator (list nat) :=
  py_gets (fun c => seq 0 (length (single_type_managers c))).
Definition is_cross (i : nat) : py KVCacheCoordinator bool :=
  py_gets (fun c => is_cross_attention (kv_cache_spec (single_type_managers c !!! i))).

Definition co_get_num_blocks_to_allocate (request_id : string) (num_tokens : Z)
    (new_computed_blocks : list (list Z)) (num_encoder_tokens : Z) : py KVCacheCoordinator Z :=
  let! idxs := manager_indices in
  let! ns := py_map (fun i =>
    let! cross := is_cross i in
    if cross then with_manager i (get_num_blocks_to_allocate request_id num_encoder_tokens [])
    else
      let! row := py_unwrap IndexError (new_computed_blocks !! i) in
      with_manager i (get_num_blocks_to_allocate request_id num_tokens row)) idxs in
  py_ret (foldr Z.add 0 ns).

Definition co_save_new_computed_blocks (request_id : string) (new_computed_blocks : list (list Z))
    : py KVCacheCoordinator unit :=
  let! idxs := manager_indices in
  py_for idxs (fun i =>
    let! row := py_unwrap IndexError (new_computed_blocks !! i) in
    with_manager i (save_new_computed_blocks request_id row)).

Definition co_allocate_new_blocks (request_id : string) (num_tokens num_encoder_tokens : Z)
    : py KVCacheCoordinator (list (list Z)) :=
  let! idxs := manager_indices in
  py_map (fun i =>
    let! cross := is_cross i in
    with_manager i (allocate_new_blocks request_id (if cross then num_encoder_tokens else num_tokens))) idxs.

Definition co_cache_blocks (request : Request) (num_computed_tokens : Z) : py KVCacheCoordinator unit :=
  let! idxs := manager_indices in
  py_for idxs (fun i => with_manager i (cache_blocks request num_computed_tokens)).

Definition co_free (request_id : string) : py KVCacheCoordinator unit :=
  let! idxs := manager_indices in
  py_for idxs (fun i => with_manager i (free request_id)).

Definition co_get_num_common_prefix_blocks (running_request_id : string) : py KVCacheCoordinator (list Z) :=
  let! cls := py_gets co_class in
  let! idxs := manager_indices in
  match cls with
  | KVCacheCoordinatorNoPrefixCache => py_ret (map (fun _ => 0) idxs)
  | _ => py_map (fun i => with_manager i (get_num_common_prefix_blocks running_request_id)) idxs
  end.

Definition co_remove_skipped_blocks (request_id : string) (num_computed_tokens : Z)
    : py KVCacheCoordinator unit :=
  let! idxs := manager_indices in
  py_for idxs (fun i => with_manager i (remove_skipped_blocks request_id num_computed_tokens)).

Definition co_get_blocks (request_id : string) : py KVCacheCoordinator (list (list Z)) :=
  py_gets (fun c => map (fun m => default [] (req_to_blocks m !! request_id)) (single_type_managers c)).

(** The hashes of a request at the block size of a group. *)
Definition hashes_for (hash_block_size block_size : Z) (hs : list bytes) : exn + BlockHashList :=
  if block_size =? hash_block_size then inr (PlainHashes hs)
  else match hash_list_init hs hash_block_size block_size with
       | inl e => inl e
       | inr b => inr (ScaledHashes b)
       end.

Definition hybrid_find (split : HybridSplit) (hash_block_size : Z) (use_eagle : bool)
    (hs : list bytes) (max_cache_hit_length : Z) : py BlockPool (list (list Z) * Z) :=
  let full_bs := spec_block_size (full_attention_spec split) in
  let other_bs := spec_block_size (other_spec split) in
  let! full_hashes := py_lift (hashes_for hash_block_size full_bs hs) in
  let! hit_full := find_longest_cache_hit FullAttentionManager full_hashes max_cache_hit_length
    (full_attention_group_ids split) (full_attention_spec split) use_eagle (lcm_block_size split) 1 1 in
  let! c := py_lift (first_row hit_full) in
  let hit_length := Z.of_nat (length c) * full_bs in
  let! other_hashes := py_lift (hashes_for hash_block_size other_bs hs) in
  let! hit_other := find_longest_cache_hit (other_attention_cls split) other_hashes hit_length
    (other_group_ids split) (other_spec split) use_eagle (lcm_block_size split) 1 1 in
  let! c := py_lift (first_row hit_other) in
  let hit_length := Z.of_nat (length c) * other_bs in
  do! py_assert (hit_length mod full_bs =? 0);
  let hit_full := map (take (Z.to_nat (hit_length / full_bs))) hit_full in
  py_ret (if full_attn_first split then hit_full ++ hit_other else hit_other ++ hit_full, hit_length).

Definition unitary_find (spec : KVCacheSpec) (block_size dcp_world_size pcp_world_size : Z)
    (use_eagle : bool) (hs : list bytes) (max_cache_hit_length : Z) : py BlockPool (list (list Z) * Z) :=
  let! cls := py_unwrap KeyError (spec_manager_map spec) in
  let! hit_blocks := find_longest_cache_hit cls (PlainHashes hs) max_cache_hit_length [0] spec use_eagle
    block_size dcp_world_size pcp_world_size in
  let! c := py_lift (first_row hit_blocks) in
  py_ret (hit_blocks, Z.of_nat (length c) * block_size).

Definition co_find_longest_cache_hit (hs : list bytes) (max_cache_hit_length : Z)
    : py KVCacheCoordinator (list (list Z) * Z) :=
  let! c := py_get in
  match co_class c with
  | KVCacheCoordinatorNoPrefixCache => py_ret (map (fun _ => []) (single_type_managers c), 0)
  | UnitaryKVCacheCoordinator spec bs dcp pcp =>
      on_co_pool (unitary_find spec bs dcp pcp (co_use_eagle c) hs max_cache_hit_length)
  | HybridKVCacheCoordinator hbs split =>
      on_co_pool (hybrid_find split hbs (co_use_eagle c) hs max_cache_hit_length)
  end.
