(* ===== verification/KVCacheManager.v ===== *)
(** The KV-cache manager ([vllm/v1/core/kv_cache_manager.py]), the interface of
    the scheduler to paged KV memory: prefix-cache lookup, slot allocation and
    release. *)
From stdpp Require Import gmap strings list.
From Stdlib Require Import ZArith Lia.
From S2P Require Import Prelude BlockQueue Request BlockHash BlockPool SingleType Coordinator.
Open Scope Z_scope.

(** ** [KVCacheBlocks]

    [EmptyBlocks] is the pre-constructed object [self.empty_kv_cache_blocks], which
    [allocate_slots] recognises by identity. *)
Inductive KVCacheBlocks := EmptyBlocks | MkBlocks (rows : list (list Z)).

Record PrefixCacheStats := mkStats {
  stats_reset : bool;
  stats_requests : Z; stats_queries : Z; stats_hits : Z;
  preempted_requests : Z; preempted_queries : Z; preempted_hits : Z
}.
Definition fresh_stats : PrefixCacheStats := mkStats false 0 0 0 0 0 0.
Definition stats_record (num_tokens num_hits : Z) (preempted : bool) (s : PrefixCacheStats)
    : PrefixCacheStats :=
  if preempted
  then mkStats (stats_reset s) (stats_requests s) (stats_queries s) (stats_hits s)
         (preempted_requests s + 1) (preempted_queries s + num_tokens) (preempted_hits s + num_hits)
  else mkStats (stats_reset s) (stats_requests s + 1) (stats_queries s + num_tokens)
         (stats_hits s + num_hits) (preempted_requests s) (preempted_queries s) (preempted_hits s).

Record KVCacheManager := mkKV {
  km_max_model_len : Z;
  km_enable_caching : bool;
  log_stats : bool;
  prefix_cache_stats : option PrefixCacheStats;
  coordinator : KVCacheCoordinator;
  num_kv_cache_groups : nat
}.

Definition set_coordinator (c : KVCacheCoordinator) (k : KVCacheManager) : KVCacheManager :=
  mkKV (km_max_model_len k) (km_enable_caching k) (log_stats k) (prefix_cache_stats k) c
    (num_kv_cache_groups k).
Definition set_stats (s : option PrefixCacheStats) (k : KVCacheManager) : KVCacheManager :=
  mkKV (km_max_model_len k) (km_enable_caching k) (log_stats k) s (coordinator k)
    (num_kv_cache_groups k).
Definition on_coordinator {A} (op : py KVCacheCoordinator A) : py KVCacheManager A :=
  py_zoom coordinator set_coordinator op.
Definition on_km_pool {A} (op : py BlockPool A) : py KVCacheManager A := on_coordinator (on_co_pool op).

Definition kv_init (cfg : KVCacheConfig) (max_model_len hash_block_size : Z)
    (enable_caching use_eagle log_stats enable_kv_cache_events use_int has_metrics : bool)
    (dcp_world_size pcp_world_size : Z) : exn + KVCacheManager :=
  match get_kv_cache_coordinator cfg use_eagle enable_caching enable_kv_cache_events use_int has_metrics
          dcp_world_size pcp_world_size hash_block_size with
  | inl e => inl e
  | inr c => inr (mkKV max_model_len enable_caching log_stats
                    (if log_stats then Some fresh_stats else None) c (length (kv_cache_groups cfg)))
  end.

(** [self.blocks] *)
Definition rows_of (k : KVCacheManager) (b : KVCacheBlocks) : list (list Z) :=
  match b with EmptyBlocks => replicate (num_kv_cache_groups k) [] | MkBlocks rows => rows end.

Definition blocks_add (k : KVCacheManager) (b1 b2 : KVCacheBlocks) : KVCacheBlocks :=
  MkBlocks (zip_with app (rows_of k b1) (rows_of k b2)).
Definition get_block_ids_of (k : KVCacheManager) (allow_none : bool) (b : KVCacheBlocks)
    : option (list (list Z)) :=
  if allow_none && forallb (fun r => bool_decide (r = [])) (rows_of k b) then None
  else Some (rows_of k b).
Definition get_unhashed_block_ids (k : KVCacheManager) (b : KVCacheBlocks) : exn + list Z :=
  match rows_of k b with
  | [row] => inr (List.filter (fun x => bool_decide
               (block_hash (blocks (block_pool (coordinator k)) !!! x) = None)) row)
  | _ => inl AssertionError
  end.
Definition new_empty (k : KVCacheManager) (b : KVCacheBlocks) : KVCacheBlocks :=
  MkBlocks (map (fun _ => []) (rows_of k b)).

Definition any_blocks (rows : list (list Z)) : bool := existsb (fun r => negb (bool_decide (r = []))) rows.
Definition create_kv_cache_blocks (rows : list (list Z)) : KVCacheBlocks :=
  if any_blocks rows then MkBlocks rows else EmptyBlocks.

(** ** Operations *)

Definition usage (k : KVCacheManager) := get_usage (block_pool (coordinator k)).

Definition make_prefix_cache_stats : py KVCacheManager (option PrefixCacheStats) :=
  let! k := py_get in
  if negb (log_stats k) then py_ret None else
  do! py_modify (set_stats (Some fresh_stats));
  py_ret (prefix_cache_stats k).

Definition get_computed_blocks (request : Request) : py KVCacheManager (KVCacheBlocks * Z) :=
  let! k := py_get in
  if negb (km_enable_caching k) || get_skip_reading_prefix_cache (args request)
  then py_ret (EmptyBlocks, 0)
  else
    let max_cache_hit_length := num_tokens request - 1 in
    let! ' (computed_blocks, num_new_computed_tokens) :=
      on_coordinator (co_find_longest_cache_hit (block_hashes request) max_cache_hit_length) in
    do! (if log_stats k then
           let! s := py_gets prefix_cache_stats in
           let! s := py_unwrap AssertionError s in
           py_modify (set_stats (Some (stats_record (num_tokens request) num_new_computed_tokens
                                         (num_preemptions request >? 0) s)))
         else py_ret tt);
    py_ret (create_kv_cache_blocks computed_blocks, num_new_computed_tokens).

(** The part of [allocate_slots] after the check for free blocks. *)
Definition allocate_commit (request : Request) (num_new_tokens num_computed num_tokens_need_slot : Z)
    (new_computed_blocks : option KVCacheBlocks) (rows : list (list Z)) (delay_cache_blocks : bool)
    (num_encoder_tokens : Z) : py KVCacheManager (option KVCacheBlocks) :=
  let! k := py_get in
  let rid := request_id (args request) in
  do! (if km_enable_caching k then on_km_pool (touch rows) else py_assert (negb (any_blocks rows)));
  do! (match new_computed_blocks with
       | Some (MkBlocks _) => on_coordinator (co_save_new_computed_blocks rid rows)
       | _ => py_ret tt
       end);
  let! new_blocks := on_coordinator (co_allocate_new_blocks rid num_tokens_need_slot num_encoder_tokens) in
  if negb (km_enable_caching k) || delay_cache_blocks
  then py_ret (Some (create_kv_cache_blocks new_blocks))
  else
    let num_tokens_to_cache := Z.min (num_computed + num_new_tokens) (num_tokens request) in
    do! on_coordinator (co_cache_blocks request num_tokens_to_cache);
    py_ret (Some (create_kv_cache_blocks new_blocks)).

Definition allocate_slots (request : Request) (num_new_tokens num_new_computed_tokens : Z)
    (new_computed_blocks : option KVCacheBlocks) (num_lookahead_tokens : Z)
    (delay_cache_blocks : bool) (num_encoder_tokens : Z) : py KVCacheManager (option KVCacheBlocks) :=
  if num_new_tokens =? 0 then py_raise ValueError else
  let! k := py_get in
  let rows := rows_of k (default EmptyBlocks new_computed_blocks) in
  let rid := request_id (args request) in
  do! on_coordinator (co_remove_skipped_blocks rid (num_computed_tokens request));
  let num_computed := num_computed_tokens request + num_new_computed_tokens in
  let num_tokens_need_slot :=
    Z.min (num_computed + num_new_tokens + num_lookahead_tokens) (km_max_model_len k) in
  let! num_blocks_to_allocate := on_coordinator
    (co_get_num_blocks_to_allocate rid num_tokens_need_slot rows num_encoder_tokens) in
  let! free := py_gets (fun k => get_num_free_blocks (block_pool (coordinator k))) in
  if num_blocks_to_allocate >? free then py_ret None
  else allocate_commit request num_new_tokens num_computed num_tokens_need_slot new_computed_blocks rows
         delay_cache_blocks num_encoder_tokens.

Definition kv_free (request : Request) : py KVCacheManager unit :=
  on_coordinator (co_free (request_id (args request))).

Definition kv_reset_prefix_cache : py KVCacheManager bool :=
  let! ok := on_km_pool reset_prefix_cache in
  if negb ok then py_ret false else
  let! k := py_get in
  do! (if log_stats k then
         let! s := py_unwrap AssertionError (prefix_cache_stats k) in
         py_modify (set_stats (Some (mkStats true (stats_requests s) (stats_queries s) (stats_hits s)
           (preempted_requests s) (preempted_queries s) (preempted_hits s))))
       else py_ret tt);
  py_ret true.

Definition kv_get_num_common_prefix_blocks (running_request_id : string) : py KVCacheManager (list Z) :=
  on_coordinator (co_get_num_common_prefix_blocks running_request_id).

Definition kv_take_events : py KVCacheManager (list KVCacheEvent) := on_km_pool pool_take_events.

Definition kv_get_blocks (rid : string) : py KVCacheManager KVCacheBlocks :=
  let! rows := on_coordinator (co_get_blocks rid) in py_ret (create_kv_cache_blocks rows).

Definition kv_get_block_ids (rid : string) : py KVCacheManager (list (list Z)) :=
  let! b := kv_get_blocks rid in
  let! k := py_get in
  py_ret (rows_of k b).

Definition kv_cache_blocks (request : Request) (num_computed : Z) : py KVCacheManager unit :=
  let! k := py_get in
  if km_enable_caching k then on_coordinator (co_cache_blocks request num_computed) else py_ret tt.
