(* ===== verification/KVCacheInv.v ===== *)
(** Safety of KV-cache management: every block's reference count is the number of
    block-table slots that hold it, across all requests and groups, and the
    operations of the KV-cache manager keep it so without raising. *)
From stdpp Require Import gmap strings list.
From Stdlib Require Import ZArith Lia.
From S2P Require Import Prelude BlockQueue Request BlockHash BlockPool SingleType Coordinator KVCacheManager.
Open Scope Z_scope.

(** ** Counting references *)

Definition table_refs (t : gmap string (list Z)) (b : Z) : Z :=
  map_fold (fun _ l acc => occ b l + acc) 0 t.
Definition tab (m : Manager) (r : string) : list Z := default [] (req_to_blocks m !! r).
Definition refs (m : Manager) (b : Z) : Z := table_refs (req_to_blocks m) b.
Definition total_refs (ms : list Manager) (b : Z) : Z := foldr (fun m acc => refs m b + acc) 0 ms.

Lemma table_refs_insert_new t r l b :
  t !! r = None -> table_refs (<[r := l]> t) b = occ b l + table_refs t b.
Proof.
  intros Hr. unfold table_refs. rewrite map_fold_insert_L; [done| |done].
  intros j1 j2 z1 z2 y _ _ _. lia.
Qed.

Lemma table_refs_delete t r b :
  table_refs (delete r t) b = table_refs t b - occ b (default [] (t !! r)).
Proof.
  destruct (t !! r) as [l|] eqn:E; simpl.
  - rewrite <-(insert_delete_id t r l E) at 2. rewrite table_refs_insert_new by apply lookup_delete_eq. lia.
  - rewrite delete_id by done. rewrite occ_nil. lia.
Qed.

Lemma table_refs_insert t r l b :
  table_refs (<[r := l]> t) b = table_refs t b - occ b (default [] (t !! r)) + occ b l.
Proof.
  rewrite <-insert_delete_eq, table_refs_insert_new by apply lookup_delete_eq.
  rewrite table_refs_delete. lia.
Qed.

Lemma table_refs_nonneg t b : 0 <= table_refs t b.
Proof.
  induction t as [|r l t Hr IH] using map_ind; [done|].
  rewrite table_refs_insert_new by done. pose proof (occ_nonneg b l). lia.
Qed.

Lemma table_refs_ge t r b : occ b (default [] (t !! r)) <= table_refs t b.
Proof. pose proof (table_refs_nonneg (delete r t) b). rewrite table_refs_delete in H. lia. Qed.

Lemma table_refs_ge2 t r1 r2 b :
  r1 <> r2 -> occ b (default [] (t !! r1)) + occ b (default [] (t !! r2)) <= table_refs t b.
Proof.
  intros Hne. pose proof (table_refs_ge (delete r1 t) r2 b) as H.
  rewrite table_refs_delete, lookup_delete_ne in H by done. lia.
Qed.

Lemma table_refs_zero t b : table_refs t b = 0 -> forall r l, t !! r = Some l -> b ∉ l.
Proof.
  intros H r l Hl. apply occ_zero. pose proof (table_refs_ge t r b) as Hge. rewrite Hl in Hge. simpl in Hge.
  pose proof (occ_nonneg b l). lia.
Qed.

Lemma total_refs_insert ms i m m' b :
  ms !! i = Some m -> total_refs (<[i := m']> ms) b = total_refs ms b - refs m b + refs m' b.
Proof.
  revert i. induction ms as [|m0 ms IH]; intros [|i] Hi; simplify_eq/=; [lia|]. rewrite (IH i) by done. lia.
Qed.

Lemma total_refs_nonneg ms b : 0 <= total_refs ms b.
Proof.
  induction ms as [|m ms IH]; simpl; [done|]. pose proof (table_refs_nonneg (req_to_blocks m) b).
  unfold refs. lia.
Qed.

Lemma total_refs_ge ms i m b : ms !! i = Some m -> refs m b <= total_refs ms b.
Proof.
  revert i. induction ms as [|m0 ms IH]; intros [|i] Hi; simplify_eq/=.
  - pose proof (total_refs_nonneg ms b). lia.
  - specialize (IH i Hi). pose proof (table_refs_nonneg (req_to_blocks m0) b). unfold refs in *. lia.
Qed.

Lemma total_refs_ge2 ms i j m m' b :
  ms !! i = Some m -> ms !! j = Some m' -> i <> j -> refs m b + refs m' b <= total_refs ms b.
Proof.
  intros Hi Hj Hne.
  set (m0 := mkManager (kv_cache_spec m) 1 ∅ ∅ 0 0).
  assert (refs m0 b = 0) as H0 by apply map_fold_empty.
  pose proof (total_refs_ge (<[i := m0]> ms) j m' b) as H.
  rewrite list_lookup_insert_ne in H by done. specialize (H Hj).
  rewrite (total_refs_insert ms i m _ b Hi) in H. lia.
Qed.

(** A reference is held by some slot. *)
Lemma table_refs_pos t b : 0 < table_refs t b -> exists r, b ∈ default [] (t !! r).
Proof.
  induction t as [|r l t Hr IH] using map_ind; [unfold table_refs; rewrite map_fold_empty; lia|].
  rewrite table_refs_insert_new by done. intros Hpos. destruct (decide (b ∈ l)) as [Hb|Hb].
  - exists r. by rewrite lookup_insert_eq.
  - apply occ_zero in Hb. destruct (IH ltac:(lia)) as [r' Hr']. exists r'.
    destruct (decide (r = r')) as [<-|]; [|by rewrite lookup_insert_ne].
    rewrite Hr in Hr'. by apply not_elem_of_nil in Hr'.
Qed.

Lemma total_refs_pos ms b : 0 < total_refs ms b -> exists i m r, ms !! i = Some m /\ b ∈ tab m r.
Proof.
  induction ms as [|m ms IH]; simpl; [lia|]. intros Hpos. destruct (decide (0 < refs m b)) as [H|H].
  - destruct (table_refs_pos _ _ H) as [r Hr]. by exists 0%nat, m, r.
  - destruct (IH ltac:(lia)) as (i & m' & r & ? & ?). by exists (S i), m', r.
Qed.

(** ** The invariant *)

Definition nonnull (t : list Z) : list Z := List.filter (fun b => negb (b =? 0)) t.

Lemma elem_of_nonnull b t : b ∈ nonnull t <-> b ∈ t /\ b <> 0.
Proof. unfold nonnull. by rewrite !list_elem_of_In, filter_In, negb_true_iff, Z.eqb_neq. Qed.

Lemma nonnull_app t1 t2 : nonnull (t1 ++ t2) = nonnull t1 ++ nonnull t2.
Proof. apply List.filter_app. Qed.

(** A block table whose first [nc] blocks are cached: blocks are shared with no
    other slot of the table, and blocks past the cached ones are still private. *)
Record table_ok (p : BlockPool) (nc : Z) (t : list Z) : Prop := mkTableOk {
  to_nodup : NoDup (nonnull t);
  to_range : Forall (fun b => 0 <= b < num_gpu_blocks p) t;
  to_private : enable_caching p = true -> forall j b, t !! j = Some b -> nc <= Z.of_nat j ->
                 b <> 0 /\ bh p b = None
}.

Definition num_cached (m : Manager) (r : string) : Z := default 0 (num_cached_block m !! r).

Record manager_ok (p : BlockPool) (i : nat) (m : Manager) : Prop := mkManagerOk {
  mo_bs : 0 < mblock_size m;
  mo_hbs : enable_caching p = true -> mblock_size m mod hash_block_size p = 0;
  mo_group : kv_cache_group_id m = Z.of_nat i /\ Z.of_nat i < 2 ^ 32;
  mo_null : m_null_block m = 0;
  mo_cached : forall r, 0 <= num_cached m r;
  mo_tables : forall r, table_ok p (num_cached m r) (tab m r)
}.

(** [pend b] references of [b] are taken but not yet stored in a table. *)
Record kv_inv (ms : list Manager) (p : BlockPool) (l : list Z) (pend : Z -> Z) : Prop := mkKvInv {
  kv_pool : pool_inv p l;
  kv_refs : forall b, b <> 0 -> rc p b = total_refs ms b + pend b;
  kv_managers : forall i m, ms !! i = Some m -> manager_ok p i m;
  kv_unshared : forall b, b <> 0 -> bh p b = None -> rc p b <= 1;
  kv_nocache : enable_caching p = false -> forall b, bh p b = None;
  kv_events : enable_kv_cache_events p = false;
  kv_hbs : 0 < hash_block_size p
}.

Lemma table_ok_mono p p' nc t :
  same_pool p p' -> (forall b, b ∈ t -> bh p b = None -> bh p' b = None) ->
  table_ok p nc t -> table_ok p' nc t.
Proof.
  intros [En Ec _ _ _ _] Hb [Hnd Hr Hp]. split; [done|by rewrite En|].
  rewrite Ec. intros Hc j b Hj Hle. destruct (Hp Hc j b Hj Hle) as [? ?]. split; [done|].
  apply Hb; [|done]. by eapply list_elem_of_lookup_2.
Qed.

Lemma manager_ok_mono p p' i m :
  same_pool p p' -> (forall b r, b ∈ tab m r -> bh p b = None -> bh p' b = None) ->
  manager_ok p i m -> manager_ok p' i m.
Proof.
  intros S Hb [H1 H2 H3 H4 H5 H6]. destruct S as [En Ec Eh Enl Eev Ei] eqn:ES. split; try done.
  - by rewrite Ec, Eh.
  - intros r. eapply (table_ok_mono p p'); [done| |apply H6]. intros b. apply Hb.
Qed.

(** Replacing one manager and moving the pool along. *)
Lemma kv_inv_update ms p l pend i m m' p' l' pend' :
  kv_inv ms p l pend -> ms !! i = Some m -> pool_inv p' l' -> same_pool p p' ->
  (forall b, b <> 0 -> rc p' b - rc p b = refs m' b - refs m b + pend' b - pend b) ->
  (forall b, bh p b = None -> bh p' b = None) -> manager_ok p' i m' ->
  (forall b, b <> 0 -> bh p' b = None -> rc p' b <= 1) ->
  kv_inv (<[i := m']> ms) p' l' pend'.
Proof.
  intros [Hp Hr Hm Hu Hn He Hh] Hi Hp' S HR HB Hm' Hu'.
  pose proof S as [En Ec Eh Enl Eev Ei]. split; try done.
  - intros b Hb. rewrite (total_refs_insert ms i m) by done. specialize (HR b Hb). rewrite Hr in HR by done. lia.
  - intros j mj. rewrite list_lookup_insert. case_decide as Hj; [intros [= <-]; naive_solver|].
    intros Hmj. eapply (manager_ok_mono p p'); [done|auto|by apply Hm].
  - rewrite Ec. intros Hc b. apply HB. by apply Hn.
  - congruence.
  - by rewrite Eh.
Qed.

(** Blocks of a table are referenced. *)
Lemma kv_inv_tab_ref ms p l pend i m r b :
  kv_inv ms p l pend -> ms !! i = Some m -> 0 <= pend b -> b ∈ tab m r -> b <> 0 ->
  1 <= rc p b /\ b ∉ l.
Proof.
  intros Hkv Hi Hpend Hb H0. pose proof (kv_refs _ _ _ _ Hkv b H0) as Hr.
  pose proof (total_refs_ge ms i m b Hi). pose proof (table_refs_ge (req_to_blocks m) r b).
  apply occ_pos in Hb. unfold refs, tab in *. split; [lia|].
  intros [_ ?]%(inv_free _ _ (kv_pool _ _ _ _ Hkv)). lia.
Qed.

(** ** Manager updates *)

Definition ensure (r : string) (m : Manager) : Manager :=
  match req_to_blocks m !! r with Some _ => m | None => set_tables (<[r := []]>) m end.

Record same_manager (m m' : Manager) : Prop := mkSameManager {
  sm_spec : kv_cache_spec m' = kv_cache_spec m;
  sm_bs : mblock_size m' = mblock_size m;
  sm_group : kv_cache_group_id m' = kv_cache_group_id m;
  sm_null : m_null_block m' = m_null_block m
}.
#[export] Instance same_manager_preorder : PreOrder same_manager.
Proof.
  split; [intros m; by split|]. intros m1 m2 m3 [] []. split; congruence.
Qed.

Lemma tab_set r t m r' : tab (set_tables (<[r := t]>) m) r' = if decide (r = r') then t else tab m r'.
Proof. unfold tab. simpl. rewrite lookup_insert. by case_decide. Qed.
Lemma refs_set r t m b : refs (set_tables (<[r := t]>) m) b = refs m b - occ b (tab m r) + occ b t.
Proof. apply table_refs_insert. Qed.

Lemma ensure_spec r m :
  (forall r', tab (ensure r m) r' = tab m r') /\ (forall b, refs (ensure r m) b = refs m b) /\
  num_cached_block (ensure r m) = num_cached_block m /\ same_manager m (ensure r m).
Proof.
  unfold ensure. destruct (req_to_blocks m !! r) as [t|] eqn:E; [by split_and!|].
  split_and!; [| |done|by split].
  - intros r'. rewrite tab_set. case_decide as Hr; [subst|done]. unfold tab. by rewrite E.
  - intros b. rewrite refs_set. unfold tab. rewrite E. simpl. rewrite occ_nil. lia.
Qed.

Lemma wp_table r Q m p : Q (tab m r) (ensure r m, p) -> wp (table r) Q (m, p).
Proof.
  intros H. unfold table, ensure, tab in *. wp_step. wp_step. simpl.
  destruct (req_to_blocks m !! r); [by apply wp_ret|]. wp_step. wp_step. by apply wp_ret.
Qed.

(** A manager is determined, for the invariant, by its tables and counters. *)
Lemma manager_ok_change p i m m' :
  manager_ok p i m -> same_manager m m' ->
  (forall r, num_cached m' r = num_cached m r /\ tab m' r = tab m r \/
             0 <= num_cached m' r /\ table_ok p (num_cached m' r) (tab m' r)) ->
  manager_ok p i m'.
Proof.
  intros [H1 H2 H3 H4 H5 H6] [E1 E2 E3 E4] H. split; rewrite ?E2, ?E3, ?E4; try done.
  - intros r. destruct (H r) as [[-> _]|[? _]]; [apply H5|done].
  - intros r. destruct (H r) as [[-> ->]|[_ ?]]; [apply H6|done].
Qed.

Lemma kv_inv_ensure ms p l pend i m r :
  kv_inv ms p l pend -> ms !! i = Some m -> kv_inv (<[i := ensure r m]> ms) p l pend.
Proof.
  intros Hkv Hi. destruct (ensure_spec r m) as (Ht & Hr & Hn & Hs).
  eapply (kv_inv_update ms p l pend i m); [done|done|apply Hkv|reflexivity| |done| |apply Hkv].
  - intros b _. rewrite Hr. lia.
  - eapply manager_ok_change; [by apply (kv_managers _ _ _ _ Hkv)|done|].
    intros r'. left. unfold num_cached. by rewrite Hn, Ht.
Qed.

(** *** Removing skipped blocks *)

(** [t'] is [t] with the blocks [removed] replaced by the null block, all of them
    below position [n]. *)
Record skipped (n : nat) (t t' removed : list Z) : Prop := mkSkipped {
  sk_len : length t' = length t;
  sk_occ : forall b, b <> 0 -> occ b t = occ b t' + occ b removed;
  sk_nonnull : Forall (fun b => b <> 0) removed;
  sk_kept : forall j b, t' !! j = Some b -> t !! j = Some b \/ b = 0 /\ (j < n)%nat
}.

(** [t'] is [t], except that positions below [n] may hold the null block. *)
Definition blanked (n : nat) (t t' : list Z) : Prop :=
  length t' = length t /\ forall j b, t' !! j = Some b -> t !! j = Some b \/ b = 0 /\ (j < n)%nat.

Lemma occ_insert (t : list Z) i x y b :
  t !! i = Some x ->
  occ b (<[i := y]> t) = occ b t - (if decide (x = b) then 1 else 0) + (if decide (y = b) then 1 else 0).
Proof.
  intros Hi. rewrite <-(take_drop_middle t i x Hi) at 2. rewrite (insert_take_drop t i y).
  2:{ by eapply lookup_lt_Some. }
  rewrite !occ_app, !occ_cons. lia.
Qed.

Lemma skip_loop_spec r n acc m p t :
  tab m r = t -> req_to_blocks m !! r = Some t -> m_null_block m = 0 -> (n <= length t)%nat ->
  wp (skip_loop r n acc) (fun res s => exists t' removed, res = acc ++ removed /\
    s = (set_tables (<[r := t']>) m, p) /\ skipped n t t' removed) (m, p).
Proof.
  revert acc m t. induction n as [|i IH]; intros acc m t Et Er Enull Hn; cbn [skip_loop].
  { apply wp_ret. exists t, []. rewrite app_nil_r. split_and!; [done| |].
    - f_equal. destruct m. unfold set_tables. simpl in *. by rewrite insert_id.
    - split; try done; [|by constructor]. intros b _. rewrite occ_nil. lia. }
  wp_step. apply wp_table. rewrite Et. unfold ensure. rewrite Er.
  destruct (lookup_lt_is_Some_2 t i ltac:(lia)) as [x Hx]. do 3 wp_step. simpl. rewrite Hx. wp_step.
  rewrite Enull. destruct (x =? 0) eqn:E0.
  { apply wp_ret. exists t, []. rewrite app_nil_r. split_and!; [done| |].
    - f_equal. destruct m. unfold set_tables. simpl in *. by rewrite insert_id.
    - split; try done; [|by constructor]. intros b _. rewrite occ_nil. lia. }
  apply Z.eqb_neq in E0. wp_step. wp_step. simpl.
  set (t1 := <[i := 0]> t). set (m1 := set_tables _ m).
  eapply wp_mono; [apply (IH _ m1 t1)|].
  - subst m1. rewrite tab_set. by rewrite decide_True.
  - apply lookup_insert_eq.
  - done.
  - subst t1. rewrite length_insert. lia.
  - simpl. intros res s (t' & removed & -> & -> & [L O N K]). exists t', (x :: removed).
    split_and!; [by rewrite <-app_assoc| |].
    + f_equal. subst m1. unfold set_tables. simpl. by rewrite insert_insert_eq.
    + split.
      * rewrite L. apply length_insert.
      * intros b Hb. rewrite occ_cons. specialize (O b Hb). subst t1.
        rewrite (occ_insert t i x 0 b Hx) in O. rewrite (decide_False (P := 0 = b)) in O by congruence. lia.
      * by constructor.
      * intros j b Hj. destruct (K j b Hj) as [Hj'|[-> ?]]; [|right; split; [done|lia]].
        subst t1. rewrite list_lookup_insert in Hj'. case_decide; naive_solver lia.
Qed.

Lemma NoDup_nonnull t : NoDup (nonnull t) <-> forall b, b <> 0 -> occ b t <= 1.
Proof.
  rewrite NoDup_occ. split.
  - intros H b Hb. rewrite <-(occ_filter_nonzero b t Hb). apply H.
  - intros H b. destruct (decide (b = 0)) as [->|Hb]; [|by unfold nonnull; rewrite occ_filter_nonzero; auto].
    assert (occ 0 (nonnull t) = 0) as ->; [|lia]. apply occ_zero. rewrite elem_of_nonnull. naive_solver.
Qed.

(** Freeing blocks held by tables; [pool_inv_free_blocks] collects what
    [free_blocks] needs from the invariant. *)
Lemma free_table_blocks ms p l pend i m r bs :
  kv_inv ms p l pend -> ms !! i = Some m -> (forall b, 0 <= pend b) ->
  (forall b, b <> 0 -> occ b bs <= occ b (tab m r)) ->
  wp (free_blocks bs) (fun _ p' =>
    pool_inv p' (l ++ released p bs) /\ same_pool p p' /\
    (forall x, rc p' x = rc p x - occ x bs) /\ (forall x, bh p' x = bh p x)) p.
Proof.
  intros Hkv Hi Hpend Hocc. pose proof (mo_tables _ _ _ (kv_managers _ _ _ _ Hkv i m Hi) r) as [Hnd Hr _].
  assert (forall b, b ∈ bs -> b <> 0 -> b ∈ tab m r) as Hin.
  { intros b Hb H0. apply occ_pos. apply occ_pos in Hb. specialize (Hocc b H0). lia. }
  eapply wp_mono; [apply (free_blocks_spec p l bs)|].
  - apply Hkv.
  - change (NoDup (nonnull bs)). apply NoDup_nonnull. intros b H0.
    rewrite NoDup_nonnull in Hnd. specialize (Hnd b H0). specialize (Hocc b H0). lia.
  - apply Forall_forall. intros b Hb H0. rewrite Forall_forall in Hr.
    pose proof (Hr b (Hin b Hb H0)).
    destruct (kv_inv_tab_ref ms p l pend i m r b) as [? _]; auto. split; [lia|done].
  - simpl. intros _ p' (? & ? & ? & ? & _). by split_and!.
Qed.

Lemma remove_skipped_kv ms p l i m r n :
  kv_inv ms p l (fun _ => 0) -> ms !! i = Some m ->
  let sk := get_num_skipped_tokens (kv_cache_spec m) n in
  (0 < sk -> (Z.to_nat (sk / mblock_size m) <= length (tab m r))%nat /\
             (enable_caching p = true -> sk / mblock_size m <= num_cached m r)) ->
  wp (remove_skipped_blocks r n) (fun _ s => exists l',
    kv_inv (<[i := s.1]> ms) s.2 l' (fun _ => 0) /\ same_pool p s.2 /\
    (forall b, bh s.2 b = bh p b) /\ same_manager m s.1 /\
    num_cached_block s.1 = num_cached_block m /\
    blanked (Z.to_nat (sk / mblock_size m)) (tab m r) (tab s.1 r) /\
    (forall r', r <> r' -> tab s.1 r' = tab m r')) (m, p).
Proof.
  intros Hkv Hi sk Hsk. pose proof (kv_managers _ _ _ _ Hkv i m Hi) as Hm.
  unfold remove_skipped_blocks. wp_step. wp_step. simpl. fold sk.
  destruct (sk <=? 0) eqn:E; [apply Z.leb_le in E|apply Z.leb_gt in E].
  { apply wp_ret. exists l. rewrite list_insert_id by done. split_and!; try done. split; [done|auto]. }
  destruct (Hsk E) as [Hlen Hnc]. wp_step. apply wp_table. wp_step.
  destruct (ensure_spec r m) as (Ht & Hrf & Hn & Hs).
  assert (req_to_blocks (ensure r m) !! r = Some (tab m r)) as Hlk.
  { unfold ensure, tab. destruct (req_to_blocks m !! r) eqn:Er; [done|]. simpl. apply lookup_insert_eq. }
  eapply wp_mono; [apply (skip_loop_spec r _ [] (ensure r m) p (tab m r)); [apply Ht|done| |done]|].
  { rewrite (sm_null _ _ Hs). apply Hm. }
  simpl. intros ? ? (t' & removed & -> & -> & [L O N K]). unfold on_pool. apply wp_zoom. simpl.
  eapply wp_mono; [apply (free_table_blocks ms p l (fun _ => 0) i m r removed Hkv Hi)|].
  { lia. } { intros b Hb. specialize (O b Hb). pose proof (occ_nonneg b t'). lia. }
  simpl. intros _ p' (Hp' & Sp & R' & B'). set (m' := set_tables _ _).
  assert (same_manager m m') as Sm by (transitivity (ensure r m); [done|by split]).
  assert (forall r', tab m' r' = if decide (r = r') then t' else tab m r') as Htab.
  { intros r'. subst m'. rewrite tab_set. by rewrite Ht. }
  exists (l ++ released p removed). split_and!; [|done|done|done|done|..].
  2:{ rewrite Htab, decide_True by done. by split. }
  2:{ intros r' Hr'. by rewrite Htab, decide_False. }
  eapply (kv_inv_update ms p l (fun _ => 0) i m); [done|done|done|done| | | |].
  - intros b Hb. rewrite R'. subst m'. rewrite refs_set, Hrf, Ht. specialize (O b Hb). lia.
  - intros b. by rewrite B'.
  - eapply manager_ok_change; [eapply (manager_ok_mono p p'); [done|by intros; rewrite B'|done]|done|].
    intros r'. unfold num_cached. change (num_cached_block m') with (num_cached_block (ensure r m)). rewrite Hn, Htab. fold (num_cached m r').
    case_decide as Hr; [subst r'; right|by left]. split; [apply Hm|].
    destruct (mo_tables _ _ _ Hm r) as [T1 T2 T3]. pose proof Sp as [En Ec _ _ _ _]. split.
    + apply NoDup_nonnull. intros b Hb. rewrite NoDup_nonnull in T1. specialize (T1 b Hb).
      specialize (O b Hb). pose proof (occ_nonneg b removed). lia.
    + rewrite En. apply Forall_lookup. intros j b Hj. destruct (K j b Hj) as [Hj'|[-> _]].
      * rewrite Forall_lookup in T2. by eapply T2.
      * pose proof (inv_size _ _ (kv_pool _ _ _ _ Hkv)). lia.
    + rewrite Ec. intros Hc j b Hj Hle. rewrite B'. destruct (K j b Hj) as [Hj'|[-> Hlt]]; [by eapply T3|].
      specialize (Hnc Hc). lia.
  - intros b Hb. rewrite B', R'. intros Hnone. pose proof (kv_unshared _ _ _ _ Hkv b Hb Hnone).
    pose proof (occ_nonneg b removed). lia.
Qed.

(** *** Releasing a request *)

Lemma free_kv ms p l i m r :
  kv_inv ms p l (fun _ => 0) -> ms !! i = Some m ->
  wp (free r) (fun _ s => exists l',
    kv_inv (<[i := s.1]> ms) s.2 l' (fun _ => 0) /\ same_pool p s.2 /\ same_manager m s.1 /\
    req_to_blocks s.1 = delete r (req_to_blocks m) /\
    num_cached_block s.1 = delete r (num_cached_block m)) (m, p).
Proof.
  intros Hkv Hi. pose proof (kv_managers _ _ _ _ Hkv i m Hi) as Hm.
  unfold free. do 5 wp_step. unfold on_pool. apply wp_zoom. simpl. fold (tab m r).
  eapply wp_mono; [apply (free_table_blocks ms p l (fun _ => 0) i m r (reverse (tab m r)) Hkv Hi)|].
  { lia. } { intros b _. by rewrite occ_reverse. }
  simpl. intros _ p' (Hp' & Sp & R' & B'). wp_step. simpl.
  set (m' := set_num_cached _ _). exists (l ++ released p (reverse (tab m r))).
  split_and!; [|done|by split|done|done].
  eapply (kv_inv_update ms p l (fun _ => 0) i m); [done|done|done|done| | | |].
  - intros b Hb. rewrite R', occ_reverse. unfold refs at 1. simpl. rewrite table_refs_delete.
    unfold refs, tab. lia.
  - intros b. by rewrite B'.
  - eapply manager_ok_change; [eapply (manager_ok_mono p p'); [done|by intros; rewrite B'|done]|by split|].
    intros r'. destruct (decide (r' = r)) as [->|Hr]; [right|left].
    + unfold num_cached, tab. simpl. rewrite !lookup_delete_eq. simpl. split; [done|].
      split; [apply NoDup_nil_2|constructor|]. by intros ? ? ? [=].
    + unfold num_cached, tab. simpl. by rewrite !lookup_delete_ne by done.
  - intros b Hb. rewrite B', R'. intros Hnone. pose proof (kv_unshared _ _ _ _ Hkv b Hb Hnone).
    pose proof (occ_nonneg b (reverse (tab m r))). lia.
Qed.

(** *** Counting the blocks to allocate *)

(** Blocks a manager is short of, possibly negative, and the hits of [row] that
    are in the free queue. *)
Definition shortage (m : Manager) (r : string) (num_tokens : Z) (row : list Z) : Z :=
  cdiv (with_speculative (kv_cache_spec m) num_tokens) (mblock_size m)
    - Z.of_nat (length row) - Z.of_nat (length (tab m r)).
Definition num_evictable (p : BlockPool) (row : list Z) : Z :=
  Z.of_nat (length (List.filter (evictable p) row)).

Lemma get_num_spec r n row m p :
  get_num_blocks_to_allocate r n row (m, p) =
  Ret (shortage m r n row + num_evictable p row) (ensure r m, p).
Proof.
  unfold get_num_blocks_to_allocate, py_bind, py_gets. simpl.
  assert (table r (m, p) = Ret (tab m r) (ensure r m, p)) as ->; [|done].
  unfold table, ensure, tab, py_bind, py_gets. simpl. by destruct (req_to_blocks m !! r).
Qed.

(** *** Storing hit blocks *)

Lemma save_kv ms p l i m r row pend :
  kv_inv ms p l pend -> ms !! i = Some m -> (is_cross_attention (kv_cache_spec m) = true -> row = []) ->
  num_cached_block m !! r = None -> tab m r = [] ->
  NoDup (nonnull row) -> Forall (fun b => 0 <= b < num_gpu_blocks p) row ->
  wp (save_new_computed_blocks r row) (fun _ s => s.2 = p /\
    kv_inv (<[i := s.1]> ms) p l (fun b => pend b - occ b row) /\ same_manager m s.1 /\
    (forall r', tab s.1 r' = if decide (r = r') then row else tab m r') /\
    (forall r', r <> r' -> num_cached_block s.1 !! r' = num_cached_block m !! r')) (m, p).
Proof.
  intros Hkv Hi Hcross Hnc Htab Hnd Hr. pose proof (kv_managers _ _ _ _ Hkv i m Hi) as Hm.
  unfold save_new_computed_blocks. wp_step. wp_step. simpl.
  destruct (is_cross_attention (kv_cache_spec m)).
  { rewrite (Hcross eq_refl) in *. apply wp_assert; [done|]. simpl. rewrite list_insert_id by done.
    split_and!; [done| |done| |done].
    - destruct Hkv as [H1 H2 H3 H4 H5 H6 H7]. split; try done. intros b Hb. rewrite H2, occ_nil by done. lia.
    - intros r'. case_decide; [by subst|done]. }
  rewrite Hnc. wp_step. apply wp_table. rewrite Htab. wp_step. apply wp_assert; [done|].
  do 3 wp_step. simpl. destruct (ensure_spec r m) as (Ht & Hrf & Hn & Hs).
  set (m' := set_num_cached _ _).
  assert (same_manager m m') as Sm by (transitivity (ensure r m); [done|by split]).
  assert (forall r', tab m' r' = if decide (r = r') then row else tab m r') as Htab'.
  { intros r'. unfold tab at 1. subst m'. simpl. rewrite lookup_insert.
    case_decide; [done|]. apply Ht. }
  assert (num_cached_block m' = <[r := Z.of_nat (length row)]> (num_cached_block m)) as Hnc'.
  { subst m'. simpl. by rewrite Hn. }
  split_and!; [done| |done|done|].
  2:{ intros r' Hr'. rewrite Hn. by apply lookup_insert_ne. }
  eapply (kv_inv_update ms p l pend i m); [done|done|apply Hkv|reflexivity| |done| |apply Hkv].
  - intros b Hb. subst m'. unfold refs at 1. simpl. rewrite table_refs_insert.
    fold (refs (ensure r m) b). fold (tab (ensure r m) r). rewrite Hrf, Ht, Htab, occ_nil. lia.
  - eapply manager_ok_change; [done|done|]. intros r'. unfold num_cached. rewrite Hnc', Htab', lookup_insert.
    case_decide; [right|left; done]. simpl. split; [lia|]. split; [done|done|].
    intros _ j b Hj Hle. apply lookup_lt_Some in Hj. lia.
Qed.

(** *** Allocating new blocks *)

Lemma allocate_kv ms p l i m r n :
  kv_inv ms p l (fun _ => 0) -> ms !! i = Some m ->
  let k := Z.max 0 (shortage m r n []) in
  k <= Z.of_nat (length l) ->
  wp (allocate_new_blocks r n) (fun new s =>
    kv_inv (<[i := s.1]> ms) s.2 (drop (Z.to_nat k) l) (fun _ => 0) /\ same_pool p s.2 /\
    same_manager m s.1 /\ num_cached_block s.1 = num_cached_block m /\ new = take (Z.to_nat k) l /\
    (forall r', tab s.1 r' = if decide (r = r') then tab m r ++ new else tab m r')) (m, p).
Proof.
  intros Hkv Hi k Hk. pose proof (kv_managers _ _ _ _ Hkv i m Hi) as Hm.
  unfold allocate_new_blocks. wp_step. wp_step. wp_step. apply wp_table. simpl.
  destruct (ensure_spec r m) as (Ht & Hrf & Hn & Hs).
  set (q := cdiv _ _ - Z.of_nat (length (tab m r))).
  assert (k = Z.max 0 q) as Ek by (unfold k, shortage, q; simpl; lia).
  destruct (q <=? 0) eqn:E; [apply Z.leb_le in E|apply Z.leb_gt in E].
  { apply wp_ret. simpl. replace (Z.to_nat k) with 0%nat by lia. simpl.
    split_and!; [by apply kv_inv_ensure|reflexivity|done|done|done|].
    intros r'. rewrite Ht. case_decide; [by rewrite app_nil_r; subst|done]. }
  replace q with (Z.of_nat (length (take (Z.to_nat k) l))) by (rewrite length_take; lia).
  wp_step. unfold on_pool. apply wp_zoom. simpl.
  pose proof (kv_pool _ _ _ _ Hkv) as Hpool. pose proof Hpool as Hpool'.
  rewrite <-(take_drop (Z.to_nat k) l) in Hpool.
  eapply wp_mono; [by apply get_new_blocks_spec|]. simpl.
  intros ? p' (-> & Hp' & [Sp B' C'] & R'). set (new := take (Z.to_nat k) l) in *.
  wp_step. wp_step. apply wp_ret. simpl. set (m' := set_tables _ _).
  assert (same_manager m m') as Sm by (transitivity (ensure r m); [done|by split]).
  assert (forall r', tab m' r' = if decide (r = r') then tab m r ++ new else tab m r') as Htab'.
  { intros r'. subst m'. rewrite tab_set. by rewrite Ht. }
  assert (forall b, b ∈ new -> 0 < b < num_gpu_blocks p /\ rc p b = 0) as Hnew.
  { intros b Hb. apply (inv_free _ _ Hpool'). rewrite <-(take_drop (Z.to_nat k) l). set_solver. }
  assert (NoDup new) as Hnd.
  { pose proof (rep_nodup _ _ (inv_rep _ _ Hpool')) as H. rewrite <-(take_drop (Z.to_nat k) l) in H.
    by apply NoDup_app in H as (? & _). }
  assert (forall b, bh p b = None -> bh p' b = None) as HB.
  { intros b Hb. rewrite B'. case_decide; done. }
  split_and!; [|done|done|by subst m'|done|done].
  eapply (kv_inv_update ms p l (fun _ => 0) i m); [done|done|done|done| |done| |].
  - intros b Hb. rewrite R'. subst m'. rewrite refs_set, Hrf, Ht, occ_app. lia.
  - eapply manager_ok_change; [eapply (manager_ok_mono p p'); [done|by auto|done]|done|].
    intros r'. unfold num_cached. change (num_cached_block m') with (num_cached_block (ensure r m)).
    rewrite Hn, Htab'. fold (num_cached m r').
    case_decide as Hr; [subst r'; right|by left]. split; [apply Hm|].
    destruct (mo_tables _ _ _ Hm r) as [T1 T2 T3]. pose proof Sp as [En Ec _ _ _ _]. split.
    + apply NoDup_nonnull. intros b Hb. rewrite NoDup_nonnull in T1. specialize (T1 b Hb).
      rewrite occ_app, (occ_nodup b new) by done. case_decide as Hin; [|lia].
      assert (b ∉ tab m r) as Hnin; [|apply occ_zero in Hnin; lia].
      intros Hin'. destruct (kv_inv_tab_ref ms p l (fun _ => 0) i m r b) as [? _]; auto; [done|].
      destruct (Hnew b Hin). lia.
    + rewrite En. apply Forall_app. split; [done|]. apply Forall_forall. intros b Hb. destruct (Hnew b Hb). lia.
    + rewrite Ec. intros Hc j b Hj Hle. apply lookup_app_Some in Hj as [Hj|[_ Hj]].
      * destruct (T3 Hc j b Hj Hle). auto.
      * apply list_elem_of_lookup_2 in Hj. destruct (Hnew b Hj). split; [lia|].
        rewrite B', Hc, decide_True; done.
  - intros b Hb Hnone. rewrite R', (occ_nodup b new) by done. case_decide as Hin.
    + destruct (Hnew b Hin). lia.
    + rewrite B' in Hnone. rewrite decide_False in Hnone by (destruct (enable_caching p); set_solver).
      pose proof (kv_unshared _ _ _ _ Hkv b Hb Hnone). lia.
Qed.

(** *** Caching full blocks *)

Lemma slice_lookup {A} (t : list A) a b j x :
  0 <= a -> slice t a b !! j = Some x ->
  t !! (Z.to_nat a + j)%nat = Some x /\ (Z.to_nat a + j < Z.to_nat b)%nat.
Proof.
  intros Ha Hj. unfold slice in Hj. apply lookup_take_Some in Hj as [Hj Hlt].
  rewrite lookup_drop in Hj. split; [done|lia].
Qed.

Lemma NoDup_slice t a b :
  NoDup (nonnull t) -> Forall (fun x => x <> 0) (slice t a b) -> NoDup (slice t a b).
Proof.
  intros Hnd Hnz. apply NoDup_occ. intros x.
  destruct (decide (x = 0)) as [->|Hx].
  - assert (occ 0 (slice t a b) = 0) as ->; [|lia]. apply occ_zero. intros H0.
    rewrite Forall_forall in Hnz. by apply (Hnz 0).
  - rewrite NoDup_nonnull in Hnd. specialize (Hnd x Hx).
    assert (occ x (slice t a b) <= occ x t); [|lia]. unfold slice.
    rewrite <-(take_drop (Z.to_nat a) t) at 2. rewrite occ_app.
    rewrite <-(take_drop (Z.to_nat b - Z.to_nat a) (drop (Z.to_nat a) t)) at 2. rewrite occ_app.
    pose proof (occ_nonneg x (take (Z.to_nat a) t)).
    pose proof (occ_nonneg x (drop (Z.to_nat b - Z.to_nat a) (drop (Z.to_nat a) t))). lia.
Qed.

Lemma nonnull_inj t j k b : NoDup (nonnull t) -> b <> 0 -> t !! j = Some b -> t !! k = Some b -> j = k.
Proof.
  intros Hnd Hb Hj Hk. rewrite NoDup_nonnull in Hnd. specialize (Hnd b Hb).
  rewrite <-(take_drop_middle t j b Hj), occ_app, occ_cons, decide_True in Hnd by done.
  pose proof (occ_nonneg b (take j t)). pose proof (occ_nonneg b (drop (S j) t)).
  destruct (decide (k < j)%nat) as [Hlt|Hge].
  - assert (b ∈ take j t) as Hin%occ_pos; [|lia]. apply list_elem_of_lookup. exists k.
    by rewrite lookup_take_lt.
  - destruct (decide (k = j)) as [|Hne]; [done|].
    assert (b ∈ drop (S j) t) as Hin%occ_pos; [|lia]. apply list_elem_of_lookup. exists (k - S j)%nat.
    rewrite lookup_drop. by replace (S j + (k - S j))%nat with k by lia.
Qed.

(** A block that is referenced only once, from a slot of one table, is in no
    other table. *)
Lemma kv_inv_private ms p l i m r b :
  kv_inv ms p l (fun _ => 0) -> ms !! i = Some m -> b <> 0 -> b ∈ tab m r -> rc p b <= 1 ->
  (forall r', r' <> r -> b ∉ tab m r') /\
  (forall j m' r', ms !! j = Some m' -> j <> i -> b ∉ tab m' r').
Proof.
  intros Hkv Hi Hb Hin Hrc. rewrite (kv_refs _ _ _ _ Hkv b Hb) in Hrc. apply occ_pos in Hin.
  unfold tab in Hin. split.
  - intros r' Hr' Hin'%occ_pos. unfold tab in Hin'.
    pose proof (table_refs_ge2 (req_to_blocks m) r' r b Hr').
    pose proof (total_refs_ge ms i m b Hi). unfold refs in *. lia.
  - intros j m' r' Hj Hne Hin'%occ_pos. unfold tab in Hin'.
    pose proof (table_refs_ge (req_to_blocks m) r b). pose proof (table_refs_ge (req_to_blocks m') r' b).
    pose proof (total_refs_ge2 ms j i m' m b Hj Hi Hne). unfold refs in *. lia.
Qed.

Lemma cache_kv ms p l i m request n :
  kv_inv ms p l (fun _ => 0) -> ms !! i = Some m ->
  is_cross_attention (kv_cache_spec m) = false -> enable_caching p = true ->
  n / mblock_size m <= Z.of_nat (length (group_hashes (hash_block_size p) (mblock_size m) request)) ->
  n / mblock_size m <= Z.of_nat (length (block_hashes request)) ->
  wp (cache_blocks request n) (fun _ s =>
    kv_inv (<[i := s.1]> ms) s.2 l (fun _ => 0) /\ same_pool p s.2 /\ same_manager m s.1 /\
    (forall r', tab s.1 r' = tab m r') /\
    (forall r', request_id (args request) <> r' -> num_cached_block s.1 !! r' = num_cached_block m !! r')) (m, p).
Proof.
  intros Hkv Hi Hcross Hc Hh1 Hh2. pose proof (kv_managers _ _ _ _ Hkv i m Hi) as Hm.
  unfold cache_blocks. wp_step. wp_step. simpl. rewrite Hcross.
  set (r := request_id (args request)). fold (num_cached m r). set (nf := n / mblock_size m).
  destruct (num_cached m r >=? nf) eqn:E.
  { apply wp_ret. simpl. rewrite list_insert_id by done. by split_and!. }
  destruct (mo_tables _ _ _ Hm r) as [T1 T2 T3]. set (t := tab m r) in *.
  assert (forall b, b ∈ slice t (num_cached m r) nf -> b <> 0 /\ bh p b = None /\ b ∈ t) as Hsl.
  { intros b [j Hj]%list_elem_of_lookup_1. apply slice_lookup in Hj as [Hj _]; [|apply Hm].
    pose proof (mo_cached _ _ _ Hm r). destruct (T3 Hc _ b Hj ltac:(lia)). split_and!; [done..|].
    by eapply list_elem_of_lookup_2. }
  wp_step. apply wp_table. fold t. wp_step. unfold on_pool. apply wp_zoom. simpl.
  destruct (ensure_spec r m) as (Ht & Hrf & Hn & Hs). destruct (mo_group _ _ _ Hm) as [Hg Hg'].
  eapply wp_mono; [apply (cache_full_blocks_spec p l)|].
  { apply Hkv. } { rewrite Hg. lia. } { apply (kv_hbs _ _ _ _ Hkv). } { apply Hm. } { by apply Hm. } { apply Hm. }
  { done. } { done. }
  { apply NoDup_slice; [done|]. apply Forall_forall. intros b Hb. by apply Hsl. }
  { apply Forall_forall. intros b Hb. destruct (Hsl b Hb) as (? & ? & Hbt).
    rewrite Forall_forall in T2. specialize (T2 b Hbt). split; [lia|done]. }
  { right. right. left. apply Hkv. }
  simpl. intros _ p' (Hp' & [Sp R' N' O' _]). wp_step. simpl. set (m' := set_num_cached _ _).
  assert (same_manager m m') as Sm by (transitivity (ensure r m); [done|by split]).
  assert (forall r', tab m' r' = tab m r') as Htab by (intros r'; apply Ht).
  split_and!; [|done|done|done|].
  2:{ intros r' Hr'. subst m'. simpl. by rewrite lookup_insert_ne, Hn. }
  (* blocks that get a hash are private to this slot *)
  assert (forall b, b ∈ slice t (num_cached m r) nf -> rc p b <= 1) as Hone.
  { intros b Hb. destruct (Hsl b Hb) as (? & ? & _). by apply (kv_unshared _ _ _ _ Hkv). }
  assert (forall b, bh p' b = None -> bh p b = None) as Hback.
  { intros b Hb. destruct (decide (b ∈ slice t (num_cached m r) nf)) as [Hin|Hin]; [by apply Hsl|].
    by rewrite O' in Hb. }
  pose proof Sp as [En Ec Eh Enl Eev Ei]. destruct Hkv as [K1 K2 K3 K4 K5 K6 K7] eqn:EKV.
  split; try done.
  - intros b Hb. rewrite R', (total_refs_insert ms i m), K2 by done.
    change (refs m' b) with (refs (ensure r m) b). rewrite Hrf. lia.
  - intros j mj. rewrite list_lookup_insert. case_decide as Hj.
    + destruct Hj as [<- _]. intros [= <-].
      assert (forall r', num_cached m' r' = if decide (r = r') then nf else num_cached m r') as Hnc.
      { intros r'. unfold num_cached. subst m'. simpl. rewrite lookup_insert, Hn. by case_decide. }
      destruct Hm as [M1 M2 M3 M4 M5 M6]. destruct Sm as [_ E2 E3 E4].
      split; rewrite ?E2, ?E3, ?E4, ?Ec, ?Eh; try done.
      * intros r'. rewrite Hnc. case_decide; [|apply M5]. specialize (M5 r). lia.
      * intros r'. rewrite Hnc, Htab. case_decide as Hr.
        -- subst r'. split; [done|by rewrite En|]. rewrite Ec. intros _ k b Hk Hle. fold t in Hk.
           destruct (T3 Hc k b Hk ltac:(lia)) as [Hb0 Hb1]. split; [done|].
           rewrite O'; [done|]. intros [j Hj]%list_elem_of_lookup_1.
           apply slice_lookup in Hj as [Hj Hlt]; [|apply M5].
           assert (Z.to_nat (num_cached m r) + j = k)%nat; [|lia].
           eapply nonnull_inj; done.
        -- eapply (table_ok_mono p p'); [done| |apply M6]. intros b Hb Hnone. rewrite O'; [done|].
           intros Hin. destruct (Hsl b Hin) as (Hb0 & _ & Hbt).
           destruct (kv_inv_private ms p l i m r b Hkv Hi Hb0 Hbt (Hone b Hin)) as [Hp1 _].
           by apply (Hp1 r').
    + intros Hmj. eapply (manager_ok_mono p p'); [done| |by apply K3].
      intros b r' Hb Hnone. rewrite O'; [done|]. intros Hin. destruct (Hsl b Hin) as (Hb0 & _ & Hbt).
      destruct (kv_inv_private ms p l i m r b Hkv Hi Hb0 Hbt (Hone b Hin)) as [_ Hp2].
      apply (Hp2 j mj r'); [done| |done]. intros ->. apply Hj. split; [done|]. by eapply lookup_lt_Some.
  - intros b Hb Hnone. rewrite R'. auto.
  - intros Hcf. congruence.
  - congruence.
  - by rewrite Eh.
Qed.

(** ** The coordinator *)

Definition co_with (c : KVCacheCoordinator) (ms : list Manager) (p : BlockPool) : KVCacheCoordinator :=
  mkCoordinator p ms (co_use_eagle c) (co_class c).

Lemma co_with_id c : co_with c (single_type_managers c) (block_pool c) = c.
Proof. by destruct c. Qed.

Lemma co_with_id_alt c :
  mkCoordinator (block_pool c) (single_type_managers c) (co_use_eagle c) (co_class c) = c.
Proof. by destruct c. Qed.

Lemma wp_with_manager {A} i (op : py (Manager * BlockPool) A) Q c ms p m :
  ms !! i = Some m ->
  wp op (fun a s => Q a (co_with c (<[i := s.1]> ms) s.2)) (m, p) ->
  wp (with_manager i op) Q (co_with c ms p).
Proof.
  intros Hi Hw. unfold with_manager. apply wp_zoom. simpl.
  rewrite (list_lookup_total_correct ms i m Hi). eapply wp_mono; [exact Hw|]. done.
Qed.

(** A loop over the managers, in order: manager [i] is still as it was at the
    start when its turn comes. *)
Section managers_loop.
Context {A : Type} (c0 : KVCacheCoordinator) (body : nat -> py KVCacheCoordinator A).
Notation ms0 := (single_type_managers c0).
Context (Inv : nat -> list A -> list Manager -> BlockPool -> Prop).
Context (Hstep : forall i m acc ms p,
  ms0 !! i = Some m -> ms !! i = Some m -> length ms = length ms0 -> (forall j, (i <= j)%nat -> ms !! j = ms0 !! j) ->
  Inv i acc ms p ->
  wp (body i) (fun a c => exists m' p', c = co_with c0 (<[i := m']> ms) p' /\
                                        Inv (S i) (acc ++ [a]) (<[i := m']> ms) p') (co_with c0 ms p)).

Lemma managers_loop_from n i acc ms p :
  (i + n = length ms0)%nat -> length ms = length ms0 -> (forall j, (i <= j)%nat -> ms !! j = ms0 !! j) ->
  Inv i acc ms p ->
  wp (py_map body (seq i n)) (fun res c => exists ms' p', c = co_with c0 ms' p' /\
    length ms' = length ms0 /\ Inv (length ms0) (acc ++ res) ms' p') (co_with c0 ms p).
Proof.
  revert i acc ms p. induction n as [|n IH]; intros i acc ms p Hn Hlen Heq HI; simpl.
  - apply wp_ret. exists ms, p. rewrite app_nil_r. replace (length ms0) with i by lia. by split_and!; [|lia|].
  - destruct (lookup_lt_is_Some_2 ms0 i ltac:(lia)) as [m Hm].
    wp_step. eapply wp_mono; [apply (Hstep i m acc ms p); [done|by rewrite Heq|done|done|done]|].
    simpl. intros a ? (m' & p' & -> & HI'). wp_step.
    eapply wp_mono; [apply (IH (S i) (acc ++ [a])); [lia|by rewrite length_insert| |done]|].
    { intros j Hj. rewrite list_lookup_insert_ne by lia. apply Heq. lia. }
    simpl. intros res ? (ms' & p2 & -> & Hlen' & HI2). apply wp_ret. exists ms', p2.
    split_and!; [done|done|]. by rewrite <-app_assoc in HI2.
Qed.

Lemma managers_loop :
  Inv 0 [] ms0 (block_pool c0) ->
  wp (py_map body (seq 0 (length ms0))) (fun res c => exists ms p, c = co_with c0 ms p /\
    length ms = length ms0 /\ Inv (length ms0) res ms p) c0.
Proof.
  intros HI. rewrite <-(co_with_id c0) at 2. by apply (managers_loop_from (length ms0) 0 []).
Qed.

End managers_loop.

Lemma wp_for_map {S A} (body : A -> py S unit) l Q s :
  wp (py_map body l) (fun _ s' => Q s') s -> wp (py_for l body) (fun _ s' => Q s') s.
Proof.
  revert s. induction l as [|x l IH]; intros s; simpl; [done|].
  unfold wp, py_bind in *. destruct (body x s) as [a s1|]; [|done]. intros H. apply IH.
  by destruct (py_map body l s1).
Qed.

(** What a method on request [r] leaves alone in a manager. *)
Record only_request (r : string) (m m' : Manager) : Prop := mkOnly {
  or_same : same_manager m m';
  or_tab : forall r', r <> r' -> tab m' r' = tab m r';
  or_cached : forall r', r <> r' -> num_cached_block m' !! r' = num_cached_block m !! r'
}.
#[export] Instance only_request_preorder r : PreOrder (only_request r).
Proof.
  split; [intros m; by split|]. intros m1 m2 m3 [S1 T1 N1] [S2 T2 N2]. split; [by transitivity m2|..];
    intros r' Hr; [by rewrite T2, T1|by rewrite N2, N1].
Qed.

(** Managers [ms] related to managers [ms0] pointwise. *)
Definition all_managers (P : nat -> Manager -> Manager -> Prop) (ms0 ms : list Manager) : Prop :=
  forall j m0 m, ms0 !! j = Some m0 -> ms !! j = Some m -> P j m0 m.

(** One step of a loop extends a pointwise relation by manager [i]. *)
Lemma all_managers_step (P Q : nat -> Manager -> Manager -> Prop) i m m' ms0 ms :
  ms0 !! i = Some m -> (i < length ms)%nat ->
  all_managers (fun j m0 m => if decide (j < i)%nat then P j m0 m else Q j m0 m) ms0 ms ->
  P i m m' ->
  all_managers (fun j m0 m => if decide (j < S i)%nat then P j m0 m else Q j m0 m) ms0 (<[i := m']> ms).
Proof.
  intros Hi Hlt Hall HP j m0 mj H0. rewrite list_lookup_insert. case_decide as Hj.
  - destruct Hj as [<- _]. intros [= <-]. rewrite decide_True by lia. congruence.
  - intros Hmj. specialize (Hall j m0 mj H0 Hmj). assert (i <> j) by naive_solver.
    simpl in Hall. repeat case_decide; try done; lia.
Qed.

Lemma all_managers_start (P Q : nat -> Manager -> Manager -> Prop) ms :
  (forall j m, Q j m m) ->
  all_managers (fun j m0 m => if decide (j < 0)%nat then P j m0 m else Q j m0 m) ms ms.
Proof.
  intros HQ j m0 m H0 Hm. rewrite decide_False by lia. assert (m = m0) as -> by congruence. apply HQ.
Qed.

Lemma all_managers_end (P Q : nat -> Manager -> Manager -> Prop) ms0 ms :
  all_managers (fun j m0 m => if decide (j < length ms0)%nat then P j m0 m else Q j m0 m) ms0 ms ->
  all_managers P ms0 ms.
Proof.
  intros H j m0 m H0 Hm. specialize (H j m0 m H0 Hm). simpl in H.
  rewrite decide_True in H; [done|]. by eapply lookup_lt_Some.
Qed.

(** Blocks of a group that lie before the window of [n] computed tokens. *)
Definition skipped_blocks (m : Manager) (n : Z) : nat :=
  Z.to_nat (get_num_skipped_tokens (kv_cache_spec m) n / mblock_size m).

Lemma remove_skipped_co c l r n :
  let ms0 := single_type_managers c in
  kv_inv ms0 (block_pool c) l (fun _ => 0) ->
  (forall i m, ms0 !! i = Some m ->
     let sk := get_num_skipped_tokens (kv_cache_spec m) n in
     0 < sk -> (Z.to_nat (sk / mblock_size m) <= length (tab m r))%nat /\
               (enable_caching (block_pool c) = true -> sk / mblock_size m <= num_cached m r)) ->
  wp (co_remove_skipped_blocks r n) (fun _ c' => exists ms p l', c' = co_with c ms p /\
    length ms = length ms0 /\ kv_inv ms p l' (fun _ => 0) /\ same_pool (block_pool c) p /\
    (forall b, bh p b = bh (block_pool c) b) /\
    all_managers (fun _ m0 m => only_request r m0 m /\ num_cached_block m = num_cached_block m0 /\
                                blanked (skipped_blocks m0 n) (tab m0 r) (tab m r)) ms0 ms) c.
Proof.
  intros ms0 Hkv Hsk. unfold co_remove_skipped_blocks. wp_step. apply wp_gets.
  apply wp_for_map.
  set (P := fun (_ : nat) m0 m => only_request r m0 m /\ num_cached_block m = num_cached_block m0 /\
              blanked (skipped_blocks m0 n) (tab m0 r) (tab m r)).
  eapply wp_mono; [apply (managers_loop c _ (fun i (_ : list unit) ms p =>
    (exists l', kv_inv ms p l' (fun _ => 0)) /\ same_pool (block_pool c) p /\
    (forall b, bh p b = bh (block_pool c) b) /\
    all_managers (fun j m0 m => if decide (j < i)%nat then P j m0 m else m = m0) ms0 ms))|].
  - intros i m acc ms p H0 Hi Hlen _ ((l1 & K1) & S1 & B1 & A1).
    eapply wp_with_manager; [done|].
    eapply wp_mono; [apply (remove_skipped_kv ms p l1 i m r n K1 Hi)|].
    { intros Hpos. destruct (Hsk i m H0 Hpos) as [? Hc]. split; [done|]. by rewrite (sp_caching _ _ S1). }
    simpl. intros _ [m' p'] (l' & K' & S' & B' & Sm & Nc & L & T). simpl in *. exists m', p'. split; [done|].
    split_and!; [by eauto|by transitivity p|by intros b; rewrite B'|].
    eapply all_managers_step; [done| |done|].
    + apply lookup_lt_Some in Hi. lia.
    + split_and!; [split; [done|done|by rewrite Nc]|done|done].
  - split_and!; [by eauto|reflexivity|done|]. by apply all_managers_start.
  - simpl. intros res ? (ms & p & -> & Hlen & ((l' & K') & S' & B' & A')). exists ms, p, l'.
    split_and!; try done. by apply (all_managers_end P (fun _ m0 m => m = m0)).
Qed.

(** Tokens and hit blocks a manager sees: cross attention has its own token count
    and no hits. *)
Definition need_of (m : Manager) (num_tokens num_encoder_tokens : Z) : Z :=
  if is_cross_attention (kv_cache_spec m) then num_encoder_tokens else num_tokens.
Definition row_of (m : Manager) (rows : list (list Z)) (i : nat) : list Z :=
  if is_cross_attention (kv_cache_spec m) then [] else default [] (rows !! i).

(** What manager [i] contributes to the number of blocks to allocate. *)
Definition contribution (p : BlockPool) (r : string) (n enc : Z) (rows : list (list Z)) (i : nat) (m : Manager) : Z :=
  shortage m r (need_of m n enc) (row_of m rows i) + num_evictable p (row_of m rows i).

Definition sum_managers (f : nat -> Manager -> Z) (ms : list Manager) : Z := foldr Z.add 0 (imap f ms).

Lemma is_cross_spec c i m ms p :
  ms !! i = Some m -> is_cross i (co_with c ms p) = Ret (is_cross_attention (kv_cache_spec m)) (co_with c ms p).
Proof.
  intros Hi. unfold is_cross, py_gets. simpl. by rewrite (list_lookup_total_correct ms i m Hi).
Qed.

(** Managers whose tables are only created, empty, by reading them. *)
Definition read_only (r : string) (m0 m : Manager) : Prop :=
  only_request r m0 m /\ num_cached_block m = num_cached_block m0 /\ (forall r', tab m r' = tab m0 r').

Lemma read_only_refl r m : read_only r m m.
Proof. by split_and!. Qed.

Lemma imap_snoc_lookup (f : nat -> Manager -> Z) ms i m res :
  ms !! i = Some m -> res = take i (imap f ms) -> res ++ [f i m] = take (S i) (imap f ms).
Proof.
  intros Hi ->. symmetry. apply take_S_r. rewrite list_lookup_imap, Hi. done.
Qed.

Lemma get_num_co c l r n enc rows :
  let ms0 := single_type_managers c in
  kv_inv ms0 (block_pool c) l (fun _ => 0) -> length rows = length ms0 ->
  wp (co_get_num_blocks_to_allocate r n rows enc) (fun res c' => exists ms, c' = co_with c ms (block_pool c) /\
    length ms = length ms0 /\ kv_inv ms (block_pool c) l (fun _ => 0) /\
    all_managers (fun _ m0 m => read_only r m0 m) ms0 ms /\
    res = sum_managers (contribution (block_pool c) r n enc rows) ms0) c.
Proof.
  intros ms0 Hkv Hrows. unfold co_get_num_blocks_to_allocate. wp_step. apply wp_gets. wp_step.
  set (f := contribution (block_pool c) r n enc rows).
  eapply wp_mono; [apply (managers_loop c _ (fun i res ms p => p = block_pool c /\ res = take i (imap f ms0) /\
    kv_inv ms p l (fun _ => 0) /\
    all_managers (fun j m0 m => if decide (j < i)%nat then read_only r m0 m else m = m0) ms0 ms))|].
  - intros i m acc ms p H0 Hi Hlen _ (-> & Hacc & K & A).
    assert (i < length ms)%nat as Hlt by (by eapply lookup_lt_Some).
    wp_step. apply wp_iff. do 2 eexists. split; [by apply is_cross_spec|].
    enough (wp (with_manager i (get_num_blocks_to_allocate r (need_of m n enc) (row_of m rows i)))
      (fun a c' => exists m' p', c' = co_with c (<[i := m']> ms) p' /\ p' = block_pool c /\
         acc ++ [a] = take (S i) (imap f ms0) /\ kv_inv (<[i := m']> ms) p' l (fun _ => 0) /\
         all_managers (fun j m0 m => if decide (j < S i)%nat then read_only r m0 m else m = m0) ms0 (<[i := m']> ms))
      (co_with c ms (block_pool c))) as Hw.
    { unfold need_of, row_of in Hw. destruct (is_cross_attention (kv_cache_spec m)); [done|].
      destruct (lookup_lt_is_Some_2 rows i ltac:(unfold ms0 in *; lia)) as [row Hrow]. rewrite Hrow in *. wp_step. wp_step. done. }
    eapply wp_with_manager; [done|]. apply wp_iff. do 2 eexists. split; [apply get_num_spec|]. simpl.
    exists (ensure r m), (block_pool c). split_and!; [done|done| |by apply kv_inv_ensure|].
    + by apply (imap_snoc_lookup f).
    + eapply (all_managers_step (fun _ => read_only r) (fun _ m0 m => m = m0)); [done|done|done|].
      destruct (ensure_spec r m) as (Ht & _ & Hn & Hs). split_and!; [split; [done|auto|by rewrite Hn]|done|done].
  - split_and!; [done|done|done|]. by apply all_managers_start.
  - simpl. intros res ? (ms & p & -> & Hlen & -> & -> & K & A). apply wp_ret. exists ms.
    split_and!; [done|done|done| |].
    + by apply (all_managers_end (fun _ => read_only r) (fun _ m0 m => m = m0)).
    + unfold sum_managers. rewrite take_ge by (by rewrite length_imap). done.
Qed.

(** *** Taking references on hit blocks *)

(** The blocks returned by a lookup: of the pool, in no two slots, cached. *)
Record hits_ok (p : BlockPool) (rows : list (list Z)) : Prop := mkHitsOk {
  ho_nodup : NoDup (nonnull (concat rows));
  ho_range : Forall (fun b => 0 <= b < num_gpu_blocks p) (concat rows);
  ho_cached : forall b, b ∈ concat rows -> b <> 0 -> is_Some (bh p b)
}.

Lemma touch_kv ms p l rows :
  kv_inv ms p l (fun _ => 0) -> hits_ok p rows ->
  wp (touch rows) (fun _ p' => kv_inv ms p' (filter (fun x => x ∉ concat rows) l) (fun b => occ b (concat rows)) /\
    same_pool p p' /\ (forall b, bh p' b = bh p b)) p.
Proof.
  intros [K1 K2 K3 K4 K5 K6 K7] [H1 H2 H3]. eapply wp_mono; [by apply (touch_spec p l rows)|]. simpl.
  intros _ p' (Hp & S & R & B & _). split; [|by split]. pose proof S as [En Ec Eh Enl Eev Ei]. split; try done.
  - intros b Hb. rewrite R, K2 by done. lia.
  - intros i m Hm. eapply (manager_ok_mono p p'); [done|by intros; rewrite B|by apply K3].
  - intros b Hb. rewrite B, R. intros Hnone. specialize (K4 b Hb Hnone).
    assert (b ∉ concat rows) as Hn. { intros Hin. destruct (H3 b Hin Hb). congruence. }
    apply occ_zero in Hn. lia.
  - rewrite Ec. intros Hc b. rewrite B. by apply K5.
  - congruence.
  - by rewrite Eh.
Qed.

(** The free list shrinks by exactly the evictable hits. *)
Lemma length_filter_touch p l bs :
  pool_inv p l -> NoDup (nonnull bs) -> Forall (fun b => 0 <= b < num_gpu_blocks p) bs ->
  Z.of_nat (length (filter (fun x => x ∉ bs) l)) = Z.of_nat (length l) - num_evictable p bs.
Proof.
  intros Hinv Hnd Hr. unfold num_evictable.
  assert (List.filter (evictable p) bs ≡ₚ filter (fun x => x ∈ bs) l) as ->.
  { apply NoDup_Permutation.
    - apply NoDup_occ. intros b. rewrite NoDup_nonnull in Hnd.
      destruct (decide (b = 0)) as [->|Hb].
      + assert (occ 0 (List.filter (evictable p) bs) = 0) as ->; [|lia]. apply occ_zero.
        rewrite list_elem_of_In, filter_In. intros [_ E]. unfold evictable in E.
        rewrite (proj2 (inv_is_null _ _ Hinv 0)) in E by done. by rewrite andb_false_r in E.
      + specialize (Hnd b Hb). etransitivity; [|exact Hnd]. clear. induction bs as [|x bs IH]; simpl; [done|].
        destruct (evictable p x); rewrite ?occ_cons; case_decide; lia.
    - apply NoDup_filter, (rep_nodup _ _ (inv_rep _ _ Hinv)).
    - intros b. rewrite list_elem_of_filter, (inv_free _ _ Hinv), list_elem_of_In, filter_In, <-list_elem_of_In.
      unfold evictable. rewrite andb_true_iff, Z.eqb_eq, negb_true_iff. fold (rc p b).
      pose proof (inv_is_null _ _ Hinv b) as Hn. rewrite Forall_forall in Hr. split.
      + intros (Hb & Hrc & Hnull). specialize (Hr b Hb). split_and!; [done|..|done]; [|lia].
        assert (b <> 0); [|lia]. intros ->. by rewrite (proj2 Hn eq_refl) in Hnull.
      + intros (Hb & Hrange & Hrc). split_and!; [done|done|].
        destruct (is_null (blocks p !!! b)); [|done]. assert (b = 0) by (by apply Hn). lia. }
  clear. induction l as [|x l IH]; [done|]. rewrite !filter_cons. repeat case_decide; simpl; try done; lia.
Qed.

(** *** The remaining loops *)

Lemma kv_inv_pend_ext ms p l pend pend' :
  (forall b, b <> 0 -> pend b = pend' b) -> kv_inv ms p l pend -> kv_inv ms p l pend'.
Proof. intros E [K1 K2 K3 K4 K5 K6 K7]. split; try done. intros b Hb. rewrite K2, E by done. done. Qed.

Lemma save_co c l r rows :
  let ms0 := single_type_managers c in
  kv_inv ms0 (block_pool c) l (fun b => occ b (concat rows)) -> length rows = length ms0 ->
  hits_ok (block_pool c) rows ->
  (forall i m, ms0 !! i = Some m -> num_cached_block m !! r = None /\ tab m r = [] /\
     (is_cross_attention (kv_cache_spec m) = true -> rows !! i = Some [])) ->
  wp (co_save_new_computed_blocks r rows) (fun _ c' => exists ms, c' = co_with c ms (block_pool c) /\
    length ms = length ms0 /\ kv_inv ms (block_pool c) l (fun _ => 0) /\
    all_managers (fun j m0 m => only_request r m0 m /\ rows !! j = Some (tab m r)) ms0 ms) c.
Proof.
  intros ms0 Hkv Hrows [Hnd Hrange _] Hfresh. unfold co_save_new_computed_blocks. wp_step. apply wp_gets.
  apply wp_for_map. set (P := fun j m0 m => only_request r m0 m /\ rows !! j = Some (tab m r)).
  eapply wp_mono; [apply (managers_loop c _ (fun i (_ : list unit) ms p => p = block_pool c /\
    kv_inv ms p l (fun b => occ b (concat (drop i rows))) /\
    all_managers (fun j m0 m => if decide (j < i)%nat then P j m0 m else m = m0) ms0 ms))|].
  - intros i m acc ms p H0 Hi Hlen _ (-> & K & A).
    assert (i < length ms)%nat as Hlt by (by eapply lookup_lt_Some).
    destruct (lookup_lt_is_Some_2 rows i ltac:(unfold ms0 in *; lia)) as [row Hrow]. rewrite Hrow. wp_step. wp_step.
    destruct (Hfresh i m H0) as (Hf1 & Hf2 & Hf3).
    assert (concat rows = concat (take i rows) ++ row ++ concat (drop (S i) rows)) as Esplit.
    { rewrite <-(take_drop_middle rows i row Hrow) at 1. by rewrite concat_app. }
    eapply wp_with_manager; [done|].
    eapply wp_mono; [apply (save_kv ms (block_pool c) l i m r row _ K Hi)|].
    { intros Hc. specialize (Hf3 Hc). congruence. }
    { done. } { done. }
    { rewrite Esplit, !nonnull_app in Hnd. apply NoDup_app in Hnd as (_ & _ & Hnd).
      by apply NoDup_app in Hnd as (? & _). }
    { rewrite Esplit in Hrange. by apply Forall_app in Hrange as [_ [? _]%Forall_app]. }
    simpl. intros _ [m' p'] (-> & K' & Sm & T & Nc). simpl in *. exists m', (block_pool c).
    split_and!; [done|done| |].
    + eapply kv_inv_pend_ext; [|exact K']. simpl. intros b _. rewrite (drop_S _ _ _ Hrow). simpl.
      rewrite occ_app. lia.
    + eapply (all_managers_step P (fun _ m0 m => m = m0)); [done|done|done|]. split.
      * split; [done| |exact Nc]. intros r' Hr'. by rewrite T, decide_False.
      * by rewrite T, decide_True.
  - split_and!; [done|done|]. by apply all_managers_start.
  - simpl. intros res ? (ms & p & -> & Hlen & -> & K & A). exists ms. split_and!; [done|done| |].
    + eapply kv_inv_pend_ext; [|exact K]. simpl. intros b _. rewrite drop_ge; [done|]. unfold ms0 in *. lia.
    + by apply (all_managers_end P (fun _ m0 m => m = m0)).
Qed.

(** Blocks manager [i] will take from the pool. *)
Definition demand (r : string) (n enc : Z) (_ : nat) (m : Manager) : Z :=
  Z.max 0 (shortage m r (need_of m n enc) []).
(** Blocks manager [m] must hold to have a slot for every token. *)
Definition required (m : Manager) (n enc : Z) : Z :=
  cdiv (with_speculative (kv_cache_spec m) (need_of m n enc)) (mblock_size m).

Lemma allocate_co c l r n enc :
  let ms0 := single_type_managers c in
  kv_inv ms0 (block_pool c) l (fun _ => 0) ->
  sum_managers (demand r n enc) ms0 <= Z.of_nat (length l) ->
  wp (co_allocate_new_blocks r n enc) (fun news c' => exists ms p l', c' = co_with c ms p /\
    length ms = length ms0 /\ kv_inv ms p l' (fun _ => 0) /\ same_pool (block_pool c) p /\
    length news = length ms0 /\
    all_managers (fun j m0 m => only_request r m0 m /\ num_cached_block m = num_cached_block m0 /\
      (exists new, news !! j = Some new /\ tab m r = tab m0 r ++ new /\
         Z.of_nat (length new) = demand r n enc j m0 /\ (forall b, b ∈ new -> b ∈ l)) /\
      required m0 n enc <= Z.of_nat (length (tab m r))) ms0 ms) c.
Proof.
  intros ms0 Hkv Hsum. unfold co_allocate_new_blocks. wp_step. apply wp_gets.
  set (P := fun (news : list (list Z)) j m0 m =>
    only_request r m0 m /\ num_cached_block m = num_cached_block m0 /\
    (exists new, news !! j = Some new /\ tab m r = tab m0 r ++ new /\
       Z.of_nat (length new) = demand r n enc j m0 /\ (forall b, b ∈ new -> b ∈ l)) /\
    required m0 n enc <= Z.of_nat (length (tab m r))).
  set (f := demand r n enc).
  eapply wp_mono; [apply (managers_loop c _ (fun i acc ms p => length acc = i /\
    (exists l', kv_inv ms p l' (fun _ => 0) /\ foldr Z.add 0 (drop i (imap f ms0)) <= Z.of_nat (length l') /\
       forall b, b ∈ l' -> b ∈ l) /\
    same_pool (block_pool c) p /\
    all_managers (fun j m0 m => if decide (j < i)%nat then P acc j m0 m else m = m0) ms0 ms))|].
  - intros i m acc ms p H0 Hi Hlen _ (Hacc & (l' & K & Hs & Hsub) & Sp & A).
    assert (i < length ms)%nat as Hlt by (by eapply lookup_lt_Some).
    assert (imap f ms0 !! i = Some (f i m)) as Hf by (by unfold ms0; rewrite list_lookup_imap, H0).
    rewrite (drop_S _ _ _ Hf) in Hs. simpl in Hs.
    assert (forall l0, Forall (fun x => 0 <= x) l0 -> 0 <= foldr Z.add 0 l0) as Hnn.
    { induction 1; simpl; lia. }
    assert (0 <= foldr Z.add 0 (drop (S i) (imap f ms0))) as Hrest.
    { apply Hnn, Forall_drop, Forall_lookup. intros k x Hk. rewrite list_lookup_imap in Hk.
      destruct (ms0 !! k); simplify_eq/=. unfold f, demand. lia. }
    wp_step. apply wp_iff. do 2 eexists. split; [by apply is_cross_spec|].
    eapply wp_with_manager; [done|]. fold (need_of m n enc).
    eapply wp_mono; [apply (allocate_kv ms p l' i m r (need_of m n enc) K Hi)|].
    { change (f i m <= Z.of_nat (length l')). lia. }
    simpl. intros new [m' p'] (K' & S' & Sm & Nc & Enew & T). simpl in *. exists m', p'.
    assert (length l' = length new + length (drop (Z.to_nat (f i m)) l'))%nat as Hll.
    { rewrite Enew. rewrite <-(take_drop (Z.to_nat (f i m)) l') at 1. rewrite length_app. done. }
    assert (length new = Z.to_nat (f i m)) as Hnew.
    { rewrite Enew. change (Z.max 0 (shortage m r (need_of m n enc) [])) with (f i m).
      rewrite length_take. lia. }
    assert (0 <= f i m) as Hfpos by (unfold f, demand; lia).
    split; [done|]. split_and!; [rewrite length_app; simpl; lia| |by transitivity p|].
    { exists (drop (Z.to_nat (f i m)) l'). split; [exact K'|]. split; [lia|].
      intros b Hb. apply Hsub. rewrite <-(take_drop (Z.to_nat (f i m)) l'). set_solver. }
    assert (tab m' r = tab m r ++ new) as Htab by (by rewrite T, decide_True).
    eapply (all_managers_step (P (acc ++ [new])) (fun _ m0 m => m = m0)); [done|done| |].
    + intros j m0 mj Hm0 Hmj. specialize (A j m0 mj Hm0 Hmj). simpl in A. case_decide as Hj; [|done].
      destruct A as (A1 & A2 & (nw & A3 & A4) & A5). split_and!; [done|done| |done].
      exists nw. split; [|exact A4]. by apply lookup_app_l_Some.
    + split_and!; [| done| |].
      * split; [done| |by rewrite Nc]. intros r' Hr'. by rewrite T, decide_False.
      * exists new. split_and!; [subst i; by rewrite list_lookup_middle|done| |].
        { rewrite Hnew. unfold f in *. lia. }
        intros b Hb. apply Hsub. rewrite Enew in Hb. rewrite <-(take_drop (Z.to_nat (f i m)) l').
        apply elem_of_app. left. exact Hb.
      * rewrite Htab, length_app, Hnew. unfold f, demand, required, shortage. simpl. lia.
  - split_and!; [done| |reflexivity|by apply all_managers_start]. exists l. by rewrite drop_0.
  - simpl. intros news ? (ms & p & -> & Hlen & Hln & (l' & K & _) & Sp & A). exists ms, p, l'.
    split_and!; try done. by apply (all_managers_end (P news) (fun _ m0 m => m = m0)).
Qed.

(** The hashes of a request are up to date: one per full block. *)
Definition hashes_current (hbs : Z) (request : Request) : Prop :=
  Z.of_nat (length (block_hashes request)) = num_tokens request / hbs.

Lemma group_hashes_length hbs bs request :
  0 < hbs -> 0 < bs -> bs mod hbs = 0 -> hashes_current hbs request ->
  Z.of_nat (length (group_hashes hbs bs request)) = num_tokens request / bs.
Proof.
  intros Hh Hb Hm Hc. unfold group_hashes, hashes_current in *.
  destruct (bs =? hbs) eqn:E; [apply Z.eqb_eq in E; by subst|].
  pose proof (Z.div_exact bs hbs ltac:(lia)) as [_ Hx]. specialize (Hx Hm).
  assert (0 < bs / hbs) by nia.
  rewrite length_regroup, Nat2Z.inj_div, Hc, Z2Nat.id by lia.
  rewrite Z.div_div by lia. by rewrite <-Hx.
Qed.

Lemma cache_co c l r request n :
  let ms0 := single_type_managers c in
  kv_inv ms0 (block_pool c) l (fun _ => 0) -> r = request_id (args request) ->
  enable_caching (block_pool c) = true -> n <= num_tokens request ->
  hashes_current (hash_block_size (block_pool c)) request ->
  (forall i m, ms0 !! i = Some m -> is_cross_attention (kv_cache_spec m) = false) ->
  wp (co_cache_blocks request n) (fun _ c' => exists ms p, c' = co_with c ms p /\
    length ms = length ms0 /\ kv_inv ms p l (fun _ => 0) /\ same_pool (block_pool c) p /\
    all_managers (fun _ m0 m => only_request r m0 m /\ forall r', tab m r' = tab m0 r') ms0 ms) c.
Proof.
  intros ms0 Hkv -> Hc Hn Hcur Hcross. unfold co_cache_blocks. wp_step. apply wp_gets. apply wp_for_map.
  set (P := fun (_ : nat) m0 m => only_request (request_id (args request)) m0 m /\ forall r', tab m r' = tab m0 r').
  eapply wp_mono; [apply (managers_loop c _ (fun i (_ : list unit) ms p =>
    kv_inv ms p l (fun _ => 0) /\ same_pool (block_pool c) p /\
    all_managers (fun j m0 m => if decide (j < i)%nat then P j m0 m else m = m0) ms0 ms))|].
  - intros i m acc ms p H0 Hi Hlen _ (K & Sp & A).
    assert (i < length ms)%nat as Hlt by (by eapply lookup_lt_Some).
    pose proof (kv_managers _ _ _ _ K i m Hi) as Hm. pose proof (mo_bs _ _ _ Hm) as Hbs.
    assert (enable_caching p = true) as Hc' by (by rewrite (sp_caching _ _ Sp)).
    pose proof (kv_hbs _ _ _ _ K) as Hh. pose proof (mo_hbs _ _ _ Hm Hc') as Hmod.
    rewrite <-(sp_hbs _ _ Sp) in Hcur.
    assert (n / mblock_size m <= num_tokens request / mblock_size m) as Hle by (apply Z.div_le_mono; lia).
    assert (0 <= num_tokens request) by (unfold num_tokens; lia).
    eapply wp_with_manager; [done|]. eapply wp_mono; [apply (cache_kv ms p l i m request n K Hi)|].
    + by eapply Hcross.
    + done.
    + by rewrite group_hashes_length.
    + unfold hashes_current in Hcur. rewrite Hcur. etransitivity; [exact Hle|].
      apply Z.div_le_compat_l; [lia|]. split; [lia|].
      pose proof (Z.div_exact (mblock_size m) (hash_block_size p) ltac:(lia)) as [_ Hx].
      specialize (Hx Hmod). assert (0 < mblock_size m / hash_block_size p) by nia. nia.
    + simpl. intros _ [m' p'] (K' & S' & Sm & T & Nc). simpl in *. exists m', p'.
      split_and!; [done|done|by transitivity p|].
      eapply (all_managers_step P (fun _ m0 m => m = m0)); [done|done|done|]. split; [|done]. split; [done| |done]. by intros.
  - split_and!; [done|reflexivity|]. by apply all_managers_start.
  - simpl. intros res ? (ms & p & -> & Hlen & K & Sp & A). exists ms, p. split_and!; try done.
    by apply (all_managers_end P (fun _ m0 m => m = m0)).
Qed.

(** ** The manager *)

Notation managers k := (single_type_managers (coordinator k)).
Notation pool k := (block_pool (coordinator k)).

Record kv_state (k : KVCacheManager) (l : list Z) : Prop := mkKvState {
  ks_inv : kv_inv (managers k) (pool k) l (fun _ => 0);
  ks_caching : km_enable_caching k = enable_caching (pool k);
  ks_groups : num_kv_cache_groups k = length (managers k);
  ks_cross : km_enable_caching k = true -> forall i m, managers k !! i = Some m ->
               is_cross_attention (kv_cache_spec m) = false;
  ks_stats : log_stats k = true -> is_Some (prefix_cache_stats k)
}.

(** Tokens that need a slot. *)
Definition need_slot (k : KVCacheManager) (request : Request) (num_new ncomp look : Z) : Z :=
  Z.min (num_computed_tokens request + ncomp + num_new + look) (km_max_model_len k).

(** The contract of [allocate_slots]: the computed tokens of the request have
    blocks, and their full blocks are cached; its hashes are up to date; hit blocks
    come from a lookup and are given for a request without blocks only; and no
    group has more blocks than it needs, unless it is the only group. *)
Record slots_request (k : KVCacheManager) (request : Request) (num_new ncomp : Z)
    (ncb : option KVCacheBlocks) (look enc : Z) : Prop := mkSlotsRequest {
  sr_new : num_new <> 0;
  sr_skip : forall i m, managers k !! i = Some m ->
     let sk := get_num_skipped_tokens (kv_cache_spec m) (num_computed_tokens request) in
     0 < sk -> (Z.to_nat (sk / mblock_size m) <= length (tab m (request_id (args request))))%nat /\
               (enable_caching (pool k) = true ->
                  sk / mblock_size m <= num_cached m (request_id (args request)));
  sr_hashes : km_enable_caching k = true -> hashes_current (hash_block_size (pool k)) request;
  sr_hits : match ncb with
            | Some (MkBlocks rows) =>
                km_enable_caching k = true /\ length rows = length (managers k) /\ hits_ok (pool k) rows /\
                forall i m, managers k !! i = Some m ->
                  num_cached_block m !! request_id (args request) = None /\ tab m (request_id (args request)) = []
            | _ => True
            end;
  sr_surplus : (length (managers k) <= 1)%nat \/
     forall i m, managers k !! i = Some m ->
       0 <= shortage m (request_id (args request))
              (need_of m (need_slot k request num_new ncomp look) enc)
              (row_of m (rows_of k (default EmptyBlocks ncb)) i)
}.

Lemma wp_on_coordinator {A} (op : py KVCacheCoordinator A) Q k :
  wp op (fun a c => Q a (set_coordinator c k)) (coordinator k) -> wp (on_coordinator op) Q k.
Proof. intros H. unfold on_coordinator. by apply wp_zoom. Qed.

Lemma wp_on_km_pool {A} (op : py BlockPool A) Q k :
  wp op (fun a p => Q a (set_coordinator (co_with (coordinator k) (managers k) p) k)) (pool k) ->
  wp (on_km_pool op) Q k.
Proof. intros H. unfold on_km_pool. apply wp_on_coordinator. unfold on_co_pool. by apply wp_zoom. Qed.

Lemma sum_imap_ext (f g : nat -> Manager -> Z) ms1 ms2 :
  length ms1 = length ms2 ->
  (forall i m1 m2, ms1 !! i = Some m1 -> ms2 !! i = Some m2 -> f i m1 = g i m2) ->
  sum_managers f ms1 = sum_managers g ms2.
Proof.
  unfold sum_managers. intros Hl H. f_equal. apply list_eq_same_length with (n := length ms1);
    rewrite ?length_imap; [done|done|]. intros i x y Hi. rewrite !list_lookup_imap.
  destruct (ms1 !! i) eqn:E1, (ms2 !! i) eqn:E2; simpl; try done. intros [= <-] [= <-]. by eapply H.
Qed.

Lemma sum_imap_le (f g : nat -> Manager -> Z) ms :
  (forall i m, ms !! i = Some m -> f i m <= g i m) -> sum_managers f ms <= sum_managers g ms.
Proof.
  unfold sum_managers. revert f g. induction ms as [|m ms IH]; intros f g H; simpl; [done|].
  specialize (IH (f ∘ S) (g ∘ S)). pose proof (H 0%nat m eq_refl).
  assert (foldr Z.add 0 (imap (f ∘ S) ms) <= foldr Z.add 0 (imap (g ∘ S) ms)); [|lia].
  apply IH. intros i m' Hi. by apply (H (S i)).
Qed.

Lemma sum_imap_zero ms : sum_managers (fun _ _ => 0) ms = 0.
Proof. unfold sum_managers. induction ms as [|m ms IH]; simpl; [done|]. exact IH. Qed.

Lemma sum_imap_add (f g : nat -> Manager -> Z) ms :
  sum_managers (fun i m => f i m + g i m) ms = sum_managers f ms + sum_managers g ms.
Proof.
  unfold sum_managers. revert f g. induction ms as [|m ms IH]; intros f g; simpl; [done|].
  specialize (IH (f ∘ S) (g ∘ S)). unfold compose in *. simpl in *. rewrite IH. lia.
Qed.

(** If the blocks short plus the evictable hits fit, then after the hits are taken
    out of the free list the blocks short still fit, provided no group's surplus
    hides another group's need. *)
Lemma demand_bound (sh ev : nat -> Manager -> Z) ms N :
  (length ms <= 1)%nat \/ (forall i m, ms !! i = Some m -> 0 <= sh i m) ->
  sum_managers (fun i m => sh i m + ev i m) ms <= N -> sum_managers ev ms <= N ->
  sum_managers (fun i m => Z.max 0 (sh i m)) ms <= N - sum_managers ev ms.
Proof.
  intros Hor Hsum Hev. rewrite sum_imap_add in Hsum. destruct Hor as [Hlen|Hpos].
  - unfold sum_managers in *. destruct ms as [|m [|m' ms]]; simpl in *; lia.
  - assert (sum_managers (fun i m => Z.max 0 (sh i m)) ms <= sum_managers sh ms); [|lia].
    apply sum_imap_le. intros i m Hm. specialize (Hpos i m Hm). lia.
Qed.

Lemma num_evictable_app p b1 b2 : num_evictable p (b1 ++ b2) = num_evictable p b1 + num_evictable p b2.
Proof. unfold num_evictable. rewrite List.filter_app, length_app. lia. Qed.

Lemma sum_evictable p rows ms :
  length rows = length ms -> (forall i m, ms !! i = Some m -> is_cross_attention (kv_cache_spec m) = false) ->
  sum_managers (fun i m => num_evictable p (row_of m rows i)) ms = num_evictable p (concat rows).
Proof.
  unfold sum_managers. revert ms. induction rows as [|row rows IH]; intros [|m ms] Hl Hc; simpl in *; try lia; [done|].
  rewrite num_evictable_app. specialize (IH ms ltac:(lia) (fun i => Hc (S i))).
  unfold row_of at 1. rewrite (Hc 0%nat m eq_refl). simpl. by rewrite <-IH.
Qed.

(** The references taken on the hit blocks and their storage in the tables; then
    what each group still needs fits the free list. *)
Definition take_hits (rid : string) (ncb : option KVCacheBlocks) (rows : list (list Z))
    : py KVCacheManager unit :=
  let! k := py_get in
  do! (if km_enable_caching k then on_km_pool (touch rows) else py_assert (negb (any_blocks rows)));
  match ncb with
  | Some (MkBlocks _) => on_coordinator (co_save_new_computed_blocks rid rows)
  | _ => py_ret tt
  end.

Lemma empty_rows_of k : concat (rows_of k EmptyBlocks) = [] /\ any_blocks (rows_of k EmptyBlocks) = false.
Proof. simpl. induction (num_kv_cache_groups k); simpl; [done|]. by destruct IHn. Qed.

Lemma row_of_empty k m i : row_of m (rows_of k EmptyBlocks) i = [].
Proof.
  unfold row_of. destruct (is_cross_attention _); [done|]. simpl.
  destruct (replicate (num_kv_cache_groups k) [] !! i) as [row|] eqn:E; [|done].
  by apply lookup_replicate in E as [-> _].
Qed.

Lemma take_hits_kv k l request num_new ncomp ncb look enc :
  let rid := request_id (args request) in
  let rows := rows_of k (default EmptyBlocks ncb) in
  let need := need_slot k request num_new ncomp look in
  kv_state k l -> slots_request k request num_new ncomp ncb look enc ->
  sum_managers (contribution (pool k) rid need enc rows) (managers k) <= Z.of_nat (length l) ->
  wp (take_hits rid ncb rows) (fun _ k1 => exists ms p l1,
     k1 = set_coordinator (co_with (coordinator k) ms p) k /\
     length ms = length (managers k) /\ kv_inv ms p l1 (fun _ => 0) /\ same_pool (pool k) p /\
     all_managers (fun i m0 m => only_request rid m0 m /\ tab m rid = tab m0 rid ++ row_of m0 rows i)
       (managers k) ms /\
     (forall b, b ∈ l1 -> b ∈ l) /\
     sum_managers (demand rid need enc) ms <= Z.of_nat (length l1)) k.
Proof.
  intros rid rows need [K Kc Kg Kx Ks] [R1 R2 R3 R4 R5] Hfit.
  fold rid in R4, R5. fold rows in R5. fold need in R5. unfold take_hits. wp_step. wp_step. wp_step.
  pose proof (demand_bound (fun i m => shortage m rid (need_of m need enc) (row_of m rows i))
    (fun i m => num_evictable (pool k) (row_of m rows i)) (managers k) (Z.of_nat (length l)) R5 Hfit) as Hb.
  assert ((exists rs, ncb = Some (MkBlocks rs)) \/ rows = rows_of k EmptyBlocks /\
          match ncb with Some (MkBlocks _) => False | _ => True end) as [[rs ->]|[Erows Hncb]].
  { destruct ncb as [[|rs]|]; eauto. }
  - simpl in rows. destruct R4 as (Hc & Hlr & Hho & Hfresh). specialize (Kx Hc). rewrite Hc.
    apply wp_on_km_pool. eapply wp_mono; [by apply touch_kv|]. simpl. intros _ p1 (K1 & S1 & B1).
    apply wp_on_coordinator. simpl. eapply wp_mono; [apply (save_co (co_with (coordinator k) (managers k) p1)); [exact K1|exact Hlr| |]|].
    + destruct Hho as [H1 H2 H3]. split; simpl; [done|by rewrite (sp_num _ _ S1)|]. intros b ??. rewrite B1. auto.
    + intros i m Hm. destruct (Hfresh i m Hm). split_and!; [done|done|].
      intros Hcr. by rewrite (Kx i m Hm) in Hcr.
    + simpl. intros _ ? (ms & -> & Hlen & Kms & A). eexists ms, p1, _. split; [done|].
      split_and!; [done|exact Kms|done| | |].
      { intros j m0 m H0 Hm. destruct (A j m0 m H0 Hm) as [HO Hrow]. split; [done|].
        destruct (Hfresh j m0 H0) as [_ ->]. unfold row_of. rewrite (Kx j m0 H0), Hrow. done. }
      { intros b [_ ?]%list_elem_of_filter. done. }
      destruct Hho as [H1 H2 H3].
      rewrite (length_filter_touch (pool k) l) by (done || apply K).
      rewrite (sum_evictable _ rows) in Hb by done.
      etransitivity; [|apply Hb]; [apply Z.eq_le_incl; symmetry|].
      * apply sum_imap_ext; [done|]. intros i m1 m2 Hm1 Hm2. destruct (A i m1 m2 Hm1 Hm2) as [[[E1 E2 _ _] _] Hrow].
        destruct (Hfresh i m1 Hm1) as [_ Ht]. unfold demand, shortage, row_of, need_of.
        rewrite Ht, E1, E2, (Kx i m1 Hm1), Hrow. simpl. f_equal. lia.
      * pose proof (length_filter_touch (pool k) l (concat rows) ltac:(apply K) H1 H2). lia.
  - destruct (empty_rows_of k) as [Ec Ea]. rewrite <-Erows in Ec, Ea.
    apply (wp_mono _ (fun _ k1 => exists p, k1 = set_coordinator (co_with (coordinator k) (managers k) p) k /\
      kv_inv (managers k) p l (fun _ => 0) /\ same_pool (pool k) p)).
    { destruct (km_enable_caching k).
      - apply wp_on_km_pool. eapply wp_mono; [apply (touch_kv _ _ _ rows K)|].
        + rewrite <-app_nil_r in Ec. split; rewrite app_nil_r in Ec; rewrite Ec; simpl; [apply NoDup_nil_2|constructor|].
          intros b Hin. by apply not_elem_of_nil in Hin.
        + simpl. intros _ p1 (K1 & S1 & _). exists p1. split_and!; [done| |done]. rewrite Ec in K1.
          by rewrite filter_notin_nil in K1.
      - apply wp_assert; [by rewrite Ea|]. exists (pool k). split_and!; [|done|reflexivity].
        rewrite co_with_id. by destruct k. }
    simpl. intros _ k1 (p & -> & K1 & S1).
    assert (sum_managers (demand rid need enc) (managers k) <= Z.of_nat (length l)) as Hd.
    { rewrite (sum_imap_ext (fun i m => num_evictable (pool k) (row_of m rows i)) (fun _ _ => 0) (managers k) (managers k)) in Hb.
      - rewrite sum_imap_zero, Z.sub_0_r in Hb. etransitivity; [|apply Hb; lia].
        apply Z.eq_le_incl, sum_imap_ext; [done|]. intros i m1 m2 Hm1 Hm2. assert (m2 = m1) as -> by congruence.
        unfold demand. by rewrite Erows, row_of_empty.
      - done.
      - intros. by rewrite Erows, row_of_empty. }
    destruct ncb as [[|rs]|]; [|done|]; apply wp_ret; exists (managers k), p, l;
      (split_and!; [done|done|done|done| |done|done]); intros j m0 m H0 Hm; assert (m = m0) as -> by congruence;
      rewrite Erows, row_of_empty, app_nil_r; by split.
Qed.

Lemma wp_two_steps {S A B C} (m1 : py S A) (m2 : py S B) (f : B -> py S C) P Q s :
  wp (do! m1; m2) P s -> (forall b s', P b s' -> wp (f b) Q s') -> wp (do! m1; let! b := m2 in f b) Q s.
Proof.
  unfold wp, py_bind. destruct (m1 s) as [a s1|]; [|done]. destruct (m2 s1) as [b s2|]; [|done].
  intros HP HF. exact (HF b s2 HP).
Qed.

(** What no operation changes. *)
Definition same_config (k k' : KVCacheManager) : Prop :=
  km_max_model_len k' = km_max_model_len k /\ km_enable_caching k' = km_enable_caching k /\
  log_stats k' = log_stats k /\ co_class (coordinator k') = co_class (coordinator k) /\
  co_use_eagle (coordinator k') = co_use_eagle (coordinator k).
(** What an operation on request [rid] guarantees. *)
Record kv_effect (rid : string) (k k' : KVCacheManager) : Prop := mkEffect {
  ke_len : length (managers k') = length (managers k);
  ke_pool : same_pool (pool k) (pool k');
  ke_config : same_config k k';
  ke_only : all_managers (fun _ => only_request rid) (managers k) (managers k')
}.

Lemma all_managers_trans rid ms0 ms1 ms2 :
  length ms0 = length ms1 ->
  all_managers (fun _ => only_request rid) ms0 ms1 -> all_managers (fun _ => only_request rid) ms1 ms2 ->
  all_managers (fun _ => only_request rid) ms0 ms2.
Proof.
  intros Hl A1 A2 j m0 m2 H0 H2. destruct (lookup_lt_is_Some_2 ms1 j) as [m1 H1].
  { rewrite <-Hl. by eapply lookup_lt_Some. }
  etransitivity; [by eapply A1|by eapply A2].
Qed.

Lemma kv_state_change k l ms p l' :
  kv_state k l -> kv_inv ms p l' (fun _ => 0) -> same_pool (pool k) p -> length ms = length (managers k) ->
  (forall j m0 m, managers k !! j = Some m0 -> ms !! j = Some m -> same_manager m0 m) ->
  kv_state (set_coordinator (co_with (coordinator k) ms p) k) l'.
Proof.
  intros [K Kc Kg Kx Ks] K' S Hlen Hsm. split; simpl; try done.
  - by rewrite (sp_caching _ _ S).
  - congruence.
  - intros Hc i m Hm. destruct (lookup_lt_is_Some_2 (managers k) i) as [m0 H0].
    { rewrite <-Hlen. by eapply lookup_lt_Some. }
    rewrite (sm_spec _ _ (Hsm i m0 m H0 Hm)). by eapply Kx.
Qed.

(** The blocks [new] that group [i] got for request [rid]: they follow the table and
    the hits, they are as many as were missing, no request held them, and every
    token that needs a slot has one. *)
Record new_blocks_ok (p : BlockPool) (rid : string) (need enc : Z) (rows : list (list Z))
    (i : nat) (m m' : Manager) (new : list Z) : Prop := mkNewBlocksOk {
  nb_table : tab m' rid = tab m rid ++ row_of m rows i ++ new;
  nb_count : Z.of_nat (length new) = Z.max 0 (shortage m rid (need_of m need enc) (row_of m rows i));
  nb_free : Forall (fun b => 0 < b < num_gpu_blocks p /\ rc p b = 0) new;
  nb_slots : required m need enc <= Z.of_nat (length (tab m' rid))
}.

Lemma rows_of_create k news :
  length news = num_kv_cache_groups k -> rows_of k (create_kv_cache_blocks news) = news.
Proof.
  unfold create_kv_cache_blocks. destruct (any_blocks news) eqn:E; [done|]. simpl. intros <-.
  unfold any_blocks in E. induction news as [|row news IH]; [done|]. simpl in *.
  apply orb_false_iff in E as [E1%negb_false_iff%bool_decide_eq_true E2]. by rewrite IH, E1.
Qed.

Lemma allocate_commit_kv k l request num_new ncomp ncb look delay enc :
  let rid := request_id (args request) in
  let rows := rows_of k (default EmptyBlocks ncb) in
  let need := need_slot k request num_new ncomp look in
  kv_state k l -> slots_request k request num_new ncomp ncb look enc ->
  sum_managers (contribution (pool k) rid need enc rows) (managers k) <= Z.of_nat (length l) ->
  wp (allocate_commit request num_new (num_computed_tokens request + ncomp) need ncb rows delay enc)
    (fun res k' => exists l' blks, res = Some blks /\ kv_state k' l' /\ kv_effect rid k k' /\
      all_managers (fun i m m' => exists new, rows_of k' blks !! i = Some new /\
        new_blocks_ok (pool k) rid need enc rows i m m' new) (managers k) (managers k')) k.
Proof.
  intros rid rows need HK HR Hfit. unfold allocate_commit. wp_step. wp_step.
  pose proof (take_hits_kv k l request num_new ncomp ncb look enc HK HR Hfit) as Hhits.
  fold rid in Hhits. fold rows in Hhits. fold need in Hhits.
  eapply wp_two_steps; [exact Hhits|]. simpl.
  intros _ ? (ms & p & l1 & -> & Hlen & K1 & S1 & A1 & Hsub & Hdem). wp_step. apply wp_on_coordinator. simpl.
  eapply wp_mono; [apply (allocate_co (co_with (coordinator k) ms p) l1 rid need enc K1 Hdem)|].
  simpl. intros news ? (ms2 & p2 & l2 & -> & Hlen2 & K2 & S2 & Hln & A2).
  assert (all_managers (fun _ => only_request rid) (managers k) ms) as A01.
  { intros j m0 m H0 Hm. by destruct (A1 j m0 m H0 Hm). }
  assert (all_managers (fun _ => only_request rid) (managers k) ms2) as A02.
  { eapply (all_managers_trans rid _ ms); [done|done|]. intros j m0 m H0 Hm. by destruct (A2 j m0 m H0 Hm). }
  assert (length news = num_kv_cache_groups k) as Hgroups by (rewrite (ks_groups _ _ HK); simpl in *; congruence).
  assert (all_managers (fun i m m' => exists new, news !! i = Some new /\
            new_blocks_ok (pool k) rid need enc rows i m m' new) (managers k) ms2) as Hnews.
  { intros i m m2 H0 H2. destruct (lookup_lt_is_Some_2 ms i) as [m1 H1].
    { rewrite <-Hlen2. by eapply lookup_lt_Some. }
    destruct (A1 i m m1 H0 H1) as [[[E1 E2 _ _] _ _] T1].
    destruct (A2 i m1 m2 H1 H2) as (_ & _ & (new & Hnew & T2 & L2 & F2) & R2). exists new. split; [done|]. split.
    - by rewrite T2, T1, <-app_assoc.
    - rewrite L2. unfold demand, shortage, need_of. rewrite E1, E2, T1, length_app. simpl. f_equal. lia.
    - apply Forall_forall. intros b Hb. apply (inv_free _ _ (kv_pool _ _ _ _ (ks_inv _ _ HK))). auto.
    - unfold required, need_of in *. by rewrite E1, E2 in R2. }
  assert (same_pool (pool k) p2) as S02 by (by transitivity p).
  assert (forall ms' p', kv_inv ms' p' l2 (fun _ => 0) -> same_pool (pool k) p' -> length ms' = length (managers k) ->
            all_managers (fun _ => only_request rid) (managers k) ms' ->
            kv_state (set_coordinator (co_with (coordinator k) ms' p') k) l2) as Hstate.
  { intros ms' p' K' S' L' A'. apply (kv_state_change k l); try done.
    intros j m0 m H0 Hm. apply (or_same rid), (A' j m0 m H0 Hm). }
  destruct (negb (km_enable_caching k) || delay) eqn:Ed.
  - apply wp_ret. exists l2. eexists. split; [done|]. split_and!.
    + apply Hstate; try done. congruence.
    + split; simpl; [congruence|done|done|done].
    + intros i m m' H0 Hm. rewrite rows_of_create by done. by apply Hnews.
  - apply orb_false_iff in Ed as [Hc%negb_false_iff _]. wp_step. apply wp_on_coordinator. simpl.
    destruct HK as [K Kc Kg Kx Ks]. destruct HR as [R1 R2 R3 R4 R5].
    eapply wp_mono; [apply (cache_co (co_with (coordinator k) ms2 p2) l2 rid request)|].
    + exact K2.
    + done.
    + simpl. by rewrite (sp_caching _ _ S02), <-Kc.
    + lia.
    + simpl. rewrite (sp_hbs _ _ S02). by apply R3.
    + simpl. intros i m Hm. destruct (lookup_lt_is_Some_2 (managers k) i) as [m0 H0].
      { replace (length (managers k)) with (length ms2) by congruence. by eapply lookup_lt_Some. }
      destruct (A02 i m0 m H0 Hm) as [[E1 _ _ _] _]. rewrite E1. by eapply Kx.
    + simpl. intros _ ? (ms3 & p3 & -> & Hlen3 & K3 & S3 & A3). apply wp_ret. exists l2. eexists. split; [done|].
      assert (all_managers (fun _ => only_request rid) (managers k) ms3) as A03.
      { eapply (all_managers_trans rid _ ms2); [congruence|done|]. intros j m0 m H0 Hm.
        by destruct (A3 j m0 m H0 Hm). }
      assert (same_pool (pool k) p3) as S03 by (by transitivity p2).
      split_and!.
      * apply Hstate; try done. congruence.
      * split; simpl; [congruence|done|done|done].
      * simpl. intros i m m3 H0 H3. rewrite rows_of_create by done.
        destruct (lookup_lt_is_Some_2 ms2 i) as [m2 H2]. { rewrite <-Hlen3. by eapply lookup_lt_Some. }
        destruct (A3 i m2 m3 H2 H3) as [_ HT]. destruct (Hnews i m m2 H0 H2) as (new & Hn & [N1 N2 N3 N4]).
        exists new. split; [done|]. by split; rewrite ?HT.
Qed.

(** Removing skipped blocks and reading tables keep the contract. *)
Lemma slots_request_mono k ms p request num_new ncomp ncb look enc :
  let rid := request_id (args request) in
  let k' := set_coordinator (co_with (coordinator k) ms p) k in
  length ms = length (managers k) -> same_pool (pool k) p -> (forall b, bh p b = bh (pool k) b) ->
  all_managers (fun _ m0 m => only_request rid m0 m /\ num_cached_block m = num_cached_block m0 /\
                              length (tab m rid) = length (tab m0 rid)) (managers k) ms ->
  slots_request k request num_new ncomp ncb look enc -> slots_request k' request num_new ncomp ncb look enc.
Proof.
  intros rid k' Hlen [En Ec Eh _ _ _] B A [R1 R2 R3 R4 R5]. fold rid in R2, R4, R5.
  assert (forall i m, ms !! i = Some m -> exists m0, managers k !! i = Some m0 /\ same_manager m0 m /\
            num_cached_block m = num_cached_block m0 /\ length (tab m rid) = length (tab m0 rid)) as Hex.
  { intros i m Hm. destruct (lookup_lt_is_Some_2 (managers k) i) as [m0 H0].
    { rewrite <-Hlen. by eapply lookup_lt_Some. }
    destruct (A i m0 m H0 Hm) as ([? _] & ? & ?). eauto. }
  split; simpl.
  - done.
  - intros i m Hm. destruct (Hex i m Hm) as (m0 & H0 & [E1 E2 _ _] & E3 & E4). fold rid.
    rewrite E1, E2, E4, Ec. unfold num_cached. rewrite E3. by apply (R2 i).
  - by rewrite Eh.
  - destruct ncb as [[|rows]|]; try done. destruct R4 as (Hc & Hlr & [H1 H2 H3] & Hf).
    split_and!; [done|congruence| |].
    + split; [done|by rewrite En|]. intros b ??. rewrite B. auto.
    + intros i m Hm. destruct (Hex i m Hm) as (m0 & H0 & _ & E3 & E4). destruct (Hf i m0 H0) as [? Ht].
      rewrite E3. split; [done|]. apply nil_length_inv. fold rid. rewrite E4, Ht. done.
  - destruct R5 as [?|R5]; [left; congruence|right]. intros i m Hm.
    destruct (Hex i m Hm) as (m0 & H0 & [E1 E2 _ _] & _ & E4). specialize (R5 i m0 H0). fold rid.
    unfold shortage, need_of, row_of in *. rewrite E1, E2, E4. exact R5.
Qed.

(** The whole of [allocate_slots]. *)
Lemma allocate_slots_exact k l request num_new ncomp ncb look delay enc :
  let rid := request_id (args request) in
  let rows := rows_of k (default EmptyBlocks ncb) in
  let need := need_slot k request num_new ncomp look in
  kv_state k l -> slots_request k request num_new ncomp ncb look enc ->
  exists ms1 p1, let k1 := set_coordinator (co_with (coordinator k) ms1 p1) k in
    on_coordinator (co_remove_skipped_blocks rid (num_computed_tokens request)) k = Ret tt k1 /\
    length ms1 = length (managers k) /\
    all_managers (fun _ m0 m => only_request rid m0 m /\ num_cached_block m = num_cached_block m0 /\
        blanked (skipped_blocks m0 (num_computed_tokens request)) (tab m0 rid) (tab m rid)) (managers k) ms1 /\
    wp (allocate_slots request num_new ncomp ncb look delay enc) (fun res k' => exists l',
      kv_state k' l' /\ kv_effect rid k k' /\
      (res = None <-> get_num_free_blocks p1 < sum_managers (contribution p1 rid need enc rows) ms1) /\
      match res with
      | None => pool k' = p1 /\ all_managers (fun _ => read_only rid) ms1 (managers k')
      | Some blks => all_managers (fun i m m' => exists new, rows_of k' blks !! i = Some new /\
                       new_blocks_ok p1 rid need enc rows i m m' new) ms1 (managers k')
      end) k.
Proof.
  intros rid rows need HK HR.
  pose proof (remove_skipped_co (coordinator k) l rid _ (ks_inv _ _ HK) (sr_skip _ _ _ _ _ _ _ HR)) as Hskip.
  apply wp_iff in Hskip as ([] & ? & Eco & ms1 & p1 & l1 & -> & L1 & K1 & S1 & B1 & A1).
  assert (on_coordinator (co_remove_skipped_blocks rid (num_computed_tokens request)) k =
          Ret tt (set_coordinator (co_with (coordinator k) ms1 p1) k)) as Eskip.
  { unfold on_coordinator, py_zoom. by rewrite Eco. }
  exists ms1, p1. split; [exact Eskip|]. split; [done|]. split; [done|]. unfold allocate_slots.
  rewrite (proj2 (Z.eqb_neq num_new 0)) by apply (sr_new _ _ _ _ _ _ _ HR). wp_step. wp_step. fold rows. fold rid. fold (need_slot k request num_new ncomp look).
  fold need. wp_step. unfold wp at 1. rewrite Eskip.
  assert (kv_state (set_coordinator (co_with (coordinator k) ms1 p1) k) l1) as HK1.
  { apply (kv_state_change k l); try done. intros j m0 m H0 Hm. by destruct (A1 j m0 m H0 Hm) as ([? _] & _). }
  assert (slots_request (set_coordinator (co_with (coordinator k) ms1 p1) k) request num_new ncomp ncb look enc) as HR1.
  { apply slots_request_mono; try done. intros j m0 m H0 Hm. by destruct (A1 j m0 m H0 Hm) as (? & ? & [? _]). }
  set (k1 := set_coordinator (co_with (coordinator k) ms1 p1) k) in *.
  assert (length rows = length ms1) as Lrows.
  { rewrite L1. destruct ncb as [[|rs]|]; subst rows; simpl.
    - rewrite length_replicate. apply HK.
    - by destruct (sr_hits _ _ _ _ _ _ _ HR) as (_ & ? & _).
    - rewrite length_replicate. apply HK. }
  wp_step. apply wp_on_coordinator.
  eapply wp_mono; [apply (get_num_co (coordinator k1) l1 rid need enc rows (ks_inv _ _ HK1) Lrows)|].
  simpl. intros num ? (ms2 & -> & L2 & K2 & A2 & ->).
  assert (kv_state (set_coordinator (co_with (coordinator k1) ms2 p1) k1) l1) as HK2.
  { apply (kv_state_change k1 l1); try done. intros j m0 m H0 Hm. by destruct (A2 j m0 m H0 Hm) as ([? _] & _). }
  assert (slots_request (set_coordinator (co_with (coordinator k1) ms2 p1) k1) request num_new ncomp ncb look enc) as HR2.
  { apply slots_request_mono; try done. intros j m0 m H0 Hm. destruct (A2 j m0 m H0 Hm) as (? & ? & HT).
    split_and!; [done|done|]. by rewrite HT. }
  set (k2 := set_coordinator (co_with (coordinator k1) ms2 p1) k1) in *.
  assert (sum_managers (contribution p1 rid need enc rows) ms1 =
          sum_managers (contribution p1 rid need enc rows) ms2) as Esum.
  { apply sum_imap_ext; [done|]. intros i m1 m2 Hm1 Hm2. destruct (A2 i m1 m2 Hm1 Hm2) as ([[E1 E2 _ _] _] & _ & HT).
    unfold contribution, shortage, need_of, row_of. by rewrite E1, E2, HT. }
  assert (all_managers (fun _ => only_request rid) (managers k) ms2) as A02.
  { eapply (all_managers_trans rid _ ms1); [done| |].
    - intros j m0 m H0 Hm. by destruct (A1 j m0 m H0 Hm).
    - intros j m0 m H0 Hm. by destruct (A2 j m0 m H0 Hm). }
  assert (kv_effect rid k k2) as E02 by (split; simpl; [congruence|done|done|done]).
  wp_step. wp_step.
  destruct (_ >? _) eqn:Egt.
  - apply Z.gtb_gt in Egt. simpl in Egt. apply wp_ret. exists l1. split; [done|]. split; [done|].
    split; [split; [lia|done]|]. split; [done|exact A2].
  - simpl in Egt. rewrite Z.gtb_ltb in Egt. apply Z.ltb_ge in Egt.
    assert (sum_managers (contribution p1 rid need enc rows) ms2 <= Z.of_nat (length l1)) as Hfit.
    { rewrite <-Esum. unfold get_num_free_blocks in Egt.
      by rewrite (rep_num _ _ (inv_rep _ _ (kv_pool _ _ _ _ K1))) in Egt. }
    eapply wp_mono; [apply (allocate_commit_kv k2 l1 request num_new ncomp ncb look delay enc HK2 HR2 Hfit)|].
    simpl. intros res k' (l' & blks & -> & HK' & [EL EP EC EO] & Hnew). exists l'. split; [done|]. split.
    { split; [simpl in EL; congruence|by transitivity p1|exact EC|].
      eapply (all_managers_trans rid _ ms2); [simpl in *; congruence|done|exact EO]. }
    split; [split; [done|lia]|]. intros i m1 m' H1 Hm'. destruct (lookup_lt_is_Some_2 ms2 i) as [m2 H2].
    { rewrite L2. by eapply lookup_lt_Some. }
    destruct (A2 i m1 m2 H1 H2) as ([[E1 E2 _ _] _] & _ & HT). destruct (Hnew i m2 m' H2 Hm') as (new & Hr & [N1 N2 N3 N4]).
    exists new. split; [done|]. unfold required, shortage, need_of, row_of in *. rewrite E1, E2, HT in *.
    split; unfold required, shortage, need_of, row_of; done.
Qed.

(** What the scheduler relies on. *)
Lemma allocate_slots_kv k l request num_new ncomp ncb look delay enc :
  let rid := request_id (args request) in
  let rows := rows_of k (default EmptyBlocks ncb) in
  let need := need_slot k request num_new ncomp look in
  kv_state k l -> slots_request k request num_new ncomp ncb look enc ->
  wp (allocate_slots request num_new ncomp ncb look delay enc) (fun res k' => exists l',
    kv_state k' l' /\ kv_effect rid k k' /\
    match res with
    | None => get_num_free_blocks (pool k') <
                sum_managers (contribution (pool k') rid need enc rows) (managers k') /\
              all_managers (fun _ m0 m => length (tab m rid) = length (tab m0 rid) /\
                                          num_cached_block m = num_cached_block m0) (managers k) (managers k')
    | Some _ => forall i m, managers k' !! i = Some m -> required m need enc <= Z.of_nat (length (tab m rid))
    end) k.
Proof.
  intros rid rows need HK HR.
  destruct (allocate_slots_exact k l request num_new ncomp ncb look delay enc HK HR)
    as (ms1 & p1 & _ & L1 & A1 & Hw). fold rid rows need in A1, Hw.
  eapply wp_mono; [exact Hw|]. simpl. intros res k' (l' & HK' & HE & Hiff & Hres). exists l'. split; [done|]. split; [done|].
  pose proof (ke_len _ _ _ HE) as EL. destruct res as [blks|].
  - intros i m' Hm'. destruct (lookup_lt_is_Some_2 ms1 i) as [m1 H1].
    { rewrite L1, <-EL. by eapply lookup_lt_Some. }
    destruct (lookup_lt_is_Some_2 (managers k) i) as [m H0]. { rewrite <-L1. by eapply lookup_lt_Some. }
    destruct (Hres i m1 m' H1 Hm') as (new & _ & [_ _ _ N4]).
    destruct (A1 i m m1 H0 H1) as ([[E1 E2 _ _] _ _] & _). destruct (ke_only _ _ _ HE i m m' H0 Hm') as [[F1 F2 _ _] _ _].
    unfold required, need_of in *. by rewrite F1, F2, <-E1, <-E2.
  - destruct Hres as [Ep A2]. rewrite Ep. split.
    + rewrite <-(sum_imap_ext (contribution p1 rid need enc rows) (contribution p1 rid need enc rows) ms1);
        [by apply Hiff|congruence|]. intros i m1 m2 H1 H2. destruct (A2 i m1 m2 H1 H2) as ([[E1 E2 _ _] _] & _ & HT).
      unfold contribution, shortage, need_of, row_of. by rewrite E1, E2, HT.
    + intros j m0 m H0 Hm. destruct (lookup_lt_is_Some_2 ms1 j) as [m1 H1]. { rewrite L1. by eapply lookup_lt_Some. }
      destruct (A1 j m0 m1 H0 H1) as (_ & <- & <- & _). destruct (A2 j m1 m H1 Hm) as (_ & HN & HT). by rewrite HT.
Qed.

Lemma kv_free_kv k l request :
  let rid := request_id (args request) in
  kv_state k l ->
  wp (kv_free request) (fun _ k' => exists l', kv_state k' l' /\ kv_effect rid k k' /\
    forall i m, managers k' !! i = Some m -> req_to_blocks m !! rid = None /\ num_cached_block m !! rid = None) k.
Proof.
  intros rid HK. unfold kv_free. fold rid. apply wp_on_coordinator. unfold co_free. wp_step. apply wp_gets.
  apply wp_for_map.
  set (P := fun (_ : nat) m0 m => only_request rid m0 m /\ req_to_blocks m !! rid = None /\ num_cached_block m !! rid = None).
  eapply wp_mono; [apply (managers_loop (coordinator k) _ (fun i (_ : list unit) ms p =>
    (exists l', kv_inv ms p l' (fun _ => 0)) /\ same_pool (pool k) p /\
    all_managers (fun j m0 m => if decide (j < i)%nat then P j m0 m else m = m0) (managers k) ms))|].
  - intros i m acc ms p H0 Hi Hlen _ ((l1 & K1) & S1 & A1).
    assert (i < length ms)%nat as Hlt by (by eapply lookup_lt_Some).
    eapply wp_with_manager; [done|]. eapply wp_mono; [apply (free_kv ms p l1 i m rid K1 Hi)|].
    simpl. intros _ [m' p'] (l' & K' & S' & Sm & T & N). simpl in *. exists m', p'.
    split_and!; [done|by eauto|by transitivity p|].
    eapply (all_managers_step P (fun _ m0 m => m = m0)); [done|done|done|]. split_and!.
    + split; [done|..]; intros r' Hr'; [unfold tab; by rewrite T, lookup_delete_ne|by rewrite N, lookup_delete_ne].
    + rewrite T. apply lookup_delete_eq.
    + rewrite N. apply lookup_delete_eq.
  - split_and!; [by exists l; apply HK|reflexivity|]. by apply all_managers_start.
  - simpl. intros res ? (ms & p & -> & Hlen & (l' & K') & S' & A').
    apply (all_managers_end P (fun _ m0 m => m = m0)) in A'. exists l'. split_and!.
    + apply (kv_state_change k l); try done. intros j m0 m H0 Hm. by destruct (A' j m0 m H0 Hm) as [[? _] _].
    + split; simpl; [done|done|done|]. intros j m0 m H0 Hm. by destruct (A' j m0 m H0 Hm).
    + simpl. intros i m Hm. destruct (lookup_lt_is_Some_2 (managers k) i) as [m0 H0].
      { rewrite <-Hlen. by eapply lookup_lt_Some. }
      by destruct (A' i m0 m H0 Hm) as (_ & ? & ?).
Qed.

(** ** Reachable states *)

(** A configuration the engine builds: positive block sizes, cross attention only
    without prefix caching; KV events off. *)
Record config_ok (cfg : KVCacheConfig) (hbs : Z) (caching : bool) (dcp pcp : Z) : Prop := mkConfigOk {
  cf_bs : Forall (fun s => 0 < spec_block_size s) (kv_cache_groups cfg);
  cf_hbs : 0 < hbs;
  cf_dcp : 1 <= dcp /\ 1 <= pcp;
  cf_groups : Z.of_nat (length (kv_cache_groups cfg)) < 2 ^ 32;
  cf_cross : caching = true -> Forall (fun s => is_cross_attention s = false) (kv_cache_groups cfg)
}.

Lemma managers_init_spec groups p i dcp pcp ms :
  managers_init groups p i dcp pcp = inr ms ->
  length ms = length groups /\
  forall j m, ms !! j = Some m -> exists spec, groups !! j = Some spec /\
    m = mkManager spec (if dcp * pcp >? 1 then spec_block_size spec * (dcp * pcp) else spec_block_size spec)
          ∅ ∅ (i + Z.of_nat j) (null_block p).
Proof.
  revert i ms. induction groups as [|spec groups IH]; intros i ms; simpl.
  { intros [= <-]. split; [done|]. by intros [|j]. }
  unfold manager_init. destruct (spec_manager_map spec) as [cls|]; [|done].
  destruct (managers_init groups p (i + 1) dcp pcp) as [|ms'] eqn:E; [done|]. intros [= <-].
  destruct (IH _ _ E) as [Hl Hm]. split; [simpl; lia|]. intros [|j] m; simpl.
  - intros [= <-]. exists spec. split; [done|]. f_equal. lia.
  - intros Hj. destruct (Hm j m Hj) as (s & Hs & ->). exists s. split; [done|]. f_equal. lia.
Qed.

Lemma total_refs_empty ms b :
  (forall j m, ms !! j = Some m -> req_to_blocks m = ∅) -> total_refs ms b = 0.
Proof.
  induction ms as [|m ms IH]; intros H; simpl; [done|].
  rewrite IH by (intros j m' Hj; by apply (H (S j))). unfold refs, table_refs.
  by rewrite (H 0%nat m eq_refl), map_fold_empty.
Qed.

Lemma kv_init_state cfg mml hbs caching eagle stats ui mc dcp pcp k :
  config_ok cfg hbs caching dcp pcp ->
  kv_init cfg mml hbs caching eagle stats false ui mc dcp pcp = inr k -> exists l, kv_state k l.
Proof.
  intros [C1 C2 C3 C4 C5] E. unfold kv_init, get_kv_cache_coordinator in E.
  destruct (pool_init (num_blocks cfg) caching hbs false ui mc) as [|p] eqn:Ep; [done|].
  destruct (managers_init (kv_cache_groups cfg) p 0 dcp pcp) as [|ms] eqn:Em; [done|].
  apply managers_init_spec in Em as [Hlen Hms].
  assert (0 < num_blocks cfg) as Hn.
  { unfold pool_init in Ep. by destruct (num_blocks cfg >? 0) eqn:En; [lia|]. }
  destruct (pool_init_spec (num_blocks cfg) caching hbs false ui mc Hn)
    as (p0 & Ep0 & Hinv & Hnum & Hcach & Hhbs & Hev & Hrc & Hbh & _).
  rewrite Ep in Ep0. injection Ep0 as <-.
  assert (forall bs0, (caching = true -> forall spec, spec ∈ kv_cache_groups cfg ->
            (if dcp * pcp >? 1 then spec_block_size spec * (dcp * pcp) else spec_block_size spec) mod hbs = 0) ->
          k = mkKV mml caching stats (if stats then Some fresh_stats else None)
                (mkCoordinator p ms eagle bs0) (length (kv_cache_groups cfg)) -> exists l, kv_state k l) as Hgo.
  { intros cls Hdiv ->. eexists. split; simpl; try done.
    - split; try done.
      + intros b Hb. rewrite Hrc, total_refs_empty; [done|]. intros j m Hm.
        by destruct (Hms j m Hm) as (? & _ & ->).
      + intros i m Hm. pose proof (lookup_lt_Some _ _ _ Hm) as Hi. destruct (Hms i m Hm) as (s & Hs & ->).
        rewrite Forall_lookup in C1. pose proof (C1 i s Hs) as Hs0.
        assert (0 < (if dcp * pcp >? 1 then spec_block_size s * (dcp * pcp) else spec_block_size s)).
        { destruct (dcp * pcp >? 1) eqn:Ed; [|done]. nia. }
        split; simpl; try done.
        * rewrite Hcach, Hhbs. intros Hc. apply (Hdiv Hc). by eapply list_elem_of_lookup_2.
        * lia.
        * apply (inv_null _ _ Hinv).
        * intros r. unfold num_cached, tab. simpl. rewrite !lookup_empty. simpl.
          split; [apply NoDup_nil_2|constructor|by intros ? ? ? [=]].
      + intros b _ _. rewrite Hrc. lia.
      + by rewrite Hhbs.
    - intros Hc i m Hm. destruct (Hms i m Hm) as (s & Hs & ->). simpl. specialize (C5 Hc).
      rewrite Forall_lookup in C5. by eapply C5.
    - intros ->. eauto. }
  destruct caching; simpl in E; [|injection E as <-; by eapply Hgo].
  assert (forallb (fun g => spec_block_size g mod hbs =? 0) (kv_cache_groups cfg) && (dcp =? 1) && (pcp =? 1) = true ->
    forall spec, spec ∈ kv_cache_groups cfg ->
      (if dcp * pcp >? 1 then spec_block_size spec * (dcp * pcp) else spec_block_size spec) mod hbs = 0) as Hall.
  { intros [[Hf Hd%Z.eqb_eq]%andb_true_iff Hp%Z.eqb_eq]%andb_true_iff spec Hs. subst. simpl.
    rewrite forallb_forall in Hf. apply Z.eqb_eq, Hf. by apply list_elem_of_In. }
  destruct (kv_cache_groups cfg) as [|spec [|spec2 groups]] eqn:Eg.
  - match type of E with context [if ?b then _ else _] => by destruct b end.
  - destruct (hbs =? _) eqn:Eh; [|done]. apply Z.eqb_eq in Eh. injection E as <-. eapply Hgo; [|done].
    intros _ s Hs. apply list_elem_of_singleton in Hs as ->. rewrite Eh.
    assert ((if dcp * pcp >? 1 then spec_block_size spec * (dcp * pcp) else spec_block_size spec) =
            (if pcp >? 1 then (if dcp >? 1 then spec_block_size spec * dcp else spec_block_size spec) * pcp
             else if dcp >? 1 then spec_block_size spec * dcp else spec_block_size spec)) as ->.
    { destruct C3. destruct (dcp >? 1) eqn:E1, (pcp >? 1) eqn:E2, (dcp * pcp >? 1) eqn:E3; try nia.
      all: assert (dcp = 1 \/ 1 < dcp) by lia; assert (pcp = 1 \/ 1 < pcp) by lia; nia. }
    apply Z_mod_same_full.
  - match type of E with context [if ?b then _ else _] => destruct b eqn:Ef end; [|done].
    destruct (verify_and_split_kv_cache_groups (spec :: spec2 :: groups)); [done|]. injection E as <-. eapply Hgo; [|done]. intros _. by apply Hall.
Qed.

Lemma kv_reset_kv k l :
  kv_state k l -> wp kv_reset_prefix_cache (fun r k' => (exists l', kv_state k' l') /\ managers k' = managers k /\
    same_pool (pool k) (pool k') /\ same_config k k' /\
    ((forall b, 0 < b < num_gpu_blocks (pool k) -> rc (pool k) b = 0) -> r = true)) k.
Proof.
  intros HK. pose proof HK as [K Kc Kg Kx Ks]. pose proof K as [K1 K2 K3 K4 K5 K6 K7]. unfold kv_reset_prefix_cache.
  wp_step. apply wp_on_km_pool. eapply wp_mono; [apply (reset_prefix_cache_spec _ _ K1)|].
  simpl. intros r p' (Hp & S & R & Er & Hcase). destruct r; simpl.
  2:{ subst p'. apply wp_ret. rewrite co_with_id. replace (set_coordinator (coordinator k) k) with k by (by destruct k).
      split_and!; [by exists l|done|done|done|]. intros Hz. apply (pool_inv_all_free _ _ K1) in Hz.
      symmetry in Er. apply Z.eqb_neq in Er. lia. }
  destruct Hcase as [HB _].
  assert (kv_state (set_coordinator (co_with (coordinator k) (managers k) p') k) l) as HK'.
  { apply (kv_state_change k l); try done.
    - pose proof S as [En Ec Eh _ Ee _]. symmetry in Er. apply Z.eqb_eq in Er.
      pose proof (proj1 (pool_inv_all_free _ _ K1) Er) as Hz. split; try done.
      + intros b Hb. rewrite R. by apply K2.
      + intros i m Hm. eapply (manager_ok_mono (pool k) p'); [done|by intros; rewrite HB|by apply K3].
      + intros b Hb _. rewrite R. destruct (decide (0 < b < num_gpu_blocks (pool k))) as [Hr|Hr]; [rewrite Hz by done; lia|].
        rewrite K2 by done. rewrite Z.add_0_r.
        destruct (decide (total_refs (managers k) b <= 1)); [done|].
        exfalso. destruct (total_refs_pos (managers k) b ltac:(lia)) as (i & m & r0 & Hm & Hin).
        pose proof (to_range _ _ _ (mo_tables _ _ _ (K3 i m Hm) r0)) as Hrg. rewrite Forall_forall in Hrg.
        specialize (Hrg b Hin). lia.
      + congruence.
      + by rewrite Eh.
    - intros j m0 m H0 Hm. by assert (m = m0) as -> by congruence. }
  wp_step. wp_step. wp_step.
  set (k1 := set_coordinator _ k) in *. change (log_stats k1) with (log_stats k).
  destruct (log_stats k) eqn:El; [|do 2 apply wp_ret; split_and!; [by exists l|done..]].
  destruct (Ks eq_refl) as [s Hs]. change (prefix_cache_stats k1) with (prefix_cache_stats k). rewrite Hs.
  wp_step. wp_step. wp_step. apply wp_ret. split_and!; [|done..]. exists l. destruct HK' as [J1 J2 J3 J4 J5]. split; simpl; try done.
Qed.

(** ** Calls that only read *)

#[export] Instance reads_make_key h g : Reads (make_key h g).
Proof. unfold make_key. intros p. by destruct (make_block_hash_with_group_id h g). Qed.

#[export] Instance reads_get_cached_block h gs acc : Reads (get_cached_block h gs acc).
Proof.
  revert acc. induction gs as [|g gs IH]; intros acc; simpl; [apply _|].
  apply reads_bind; [apply _|]. intros key. apply reads_bind; [apply _|]. intros c.
  destruct (BlockMap.get_one_block c key) as [e|[b|]]; apply _.
Qed.

#[export] Instance reads_forward_hits hs gs computed : Reads (forward_hits hs gs computed).
Proof.
  revert computed. induction hs as [|h hs IH]; intros computed; simpl; [apply _|].
  apply reads_bind; [apply _|]. intros [[|b row]|]; apply _.
Qed.

#[export] Instance reads_slide_loop l gs bs a c n computed k : Reads (slide_loop l gs bs a c n computed k).
Proof.
  revert computed k. induction n as [|i IH]; intros computed k; simpl; [apply _|].
  apply reads_bind; [apply _|]. intros h. apply reads_bind; [apply _|]. intros [[|b row]|]; [apply _| |apply _].
  repeat case_match; apply _.
Qed.

#[export] Instance reads_chunk_loop l gs i n computed : Reads (chunk_loop l gs i n computed).
Proof.
  revert i computed. induction n as [|n IH]; intros i computed; simpl; [apply _|].
  apply reads_bind; [apply _|]. intros h. apply reads_bind; [apply _|]. intros [[|b row]|]; apply _.
Qed.

#[export] Instance reads_mamba_loop l gs bs a null n computed : Reads (mamba_loop l gs bs a null n computed).
Proof.
  revert computed. induction n as [|i IH]; intros computed; simpl; [apply _|].
  apply reads_bind; [apply _|]. intros h. apply reads_bind; [apply _|]. intros [[|b row]|]; [apply _| |apply _].
  case_match; apply _.
Qed.

#[export] Instance reads_find cls l ml gs spec eagle a dcp pcp :
  Reads (find_longest_cache_hit cls l ml gs spec eagle a dcp pcp).
Proof.
  destruct cls; cbn [find_longest_cache_hit].
  - unfold find_full. apply _.
  - unfold find_sliding. destruct spec; try apply _. do 3 (apply reads_bind; [apply _|]; intros ?).
    apply reads_bind; [apply _|]. intros [[computed n] found].
    apply reads_bind; [destruct found; apply _|]. intros computed'. destruct eagle; [|apply _].
    apply reads_bind; [apply _|]. intros [|b c]; apply _.
  - unfold find_chunked. destruct spec; apply _.
  - unfold find_mamba. destruct spec; apply _.
  - unfold find_cross. apply _.
Qed.

Lemma find_reads hs n c res c' :
  co_find_longest_cache_hit hs n c = Ret res c' -> c' = c.
Proof.
  unfold co_find_longest_cache_hit, py_bind, py_get. destruct (co_class c) as [|spec bs dcp pcp|hbs split].
  - by intros [= _ <-].
  - unfold on_co_pool, py_zoom. destruct (unitary_find _ _ _ _ _ _ _ _) as [r p|] eqn:E; [|done]. intros [= _ <-].
    assert (p = block_pool c) as ->; [|by destruct c]. revert E. apply reads_returns. unfold unitary_find. apply _.
  - unfold on_co_pool, py_zoom. destruct (hybrid_find _ _ _ _ _ _) as [r p|] eqn:E; [|done]. intros [= _ <-].
    assert (p = block_pool c) as ->; [|by destruct c]. revert E. apply reads_returns. unfold hybrid_find. apply _.
Qed.

(** A lookup changes nothing but the statistics. *)
Lemma get_computed_blocks_kv k l request res k' :
  kv_state k l -> get_computed_blocks request k = Ret res k' -> kv_state k' l.
Proof.
  intros HK. pose proof HK as [K Kc Kg Kx Ks]. unfold get_computed_blocks, py_bind, py_get.
  destruct (_ || _); [by intros [= _ <-]|]. unfold on_coordinator, py_zoom.
  destruct (co_find_longest_cache_hit _ _ _) as [[rows n] c|] eqn:E; [|done]. apply find_reads in E as ->.
  replace (set_coordinator (coordinator k) k) with k by (by destruct k).
  destruct (log_stats k) eqn:El; [|by intros [= _ <-]]. destruct (Ks eq_refl) as [st Hst].
  unfold py_gets. rewrite Hst. simpl. intros [= _ <-]. by split; simpl.
Qed.

Lemma make_stats_kv k l res k' :
  kv_state k l -> make_prefix_cache_stats k = Ret res k' -> kv_state k' l.
Proof.
  intros HK. pose proof HK as [K Kc Kg Kx Ks]. unfold make_prefix_cache_stats, py_bind, py_get.
  destruct (negb (log_stats k)); intros [= _ <-]; [done|]. by split; simpl.
Qed.

(** Counting the blocks common to all running requests reads the tables, which
    gives a request without blocks an empty one. *)
Lemma common_prefix_kv k l rid :
  kv_state k l -> wp (kv_get_num_common_prefix_blocks rid) (fun _ k' => kv_state k' l) k.
Proof.
  intros HK. pose proof HK as [K Kc Kg Kx Ks]. unfold kv_get_num_common_prefix_blocks. apply wp_on_coordinator.
  unfold co_get_num_common_prefix_blocks. wp_step. wp_step. wp_step. apply wp_gets.
  assert (kv_state (set_coordinator (coordinator k) k) l) as Hid by (by destruct k).
  assert (wp (py_map (fun i => with_manager i (get_num_common_prefix_blocks rid)) (seq 0 (length (managers k))))
    (fun _ c => kv_state (set_coordinator c k) l) (coordinator k)) as Hloop.
  { eapply wp_mono; [apply (managers_loop (coordinator k) _ (fun i (_ : list Z) ms p => p = pool k /\
      kv_inv ms p l (fun _ => 0) /\
      all_managers (fun j m0 m => if decide (j < i)%nat then same_manager m0 m else m = m0) (managers k) ms))|].
    - intros i m acc ms p H0 Hi Hlen _ (-> & K1 & A1).
      assert (i < length ms)%nat as Hlt by (by eapply lookup_lt_Some).
      eapply wp_with_manager; [done|]. unfold get_num_common_prefix_blocks. wp_step. wp_step. simpl.
      destruct (is_full_attention _).
      + wp_step. apply wp_table. wp_step. wp_step. apply wp_ret. simpl. eexists _, _. split; [done|]. split; [done|].
        split; [by apply kv_inv_ensure|].
        eapply (all_managers_step (fun _ => same_manager) (fun _ m0 m => m = m0)); [done|done|done|].
        by destruct (ensure_spec rid m) as (_ & _ & _ & ?).
      + apply wp_ret. simpl. exists m, (pool k). split; [done|]. split; [done|]. rewrite list_insert_id by done.
        split; [done|]. rewrite <-(list_insert_id ms i m) by done.
        by eapply (all_managers_step (fun _ => same_manager) (fun _ m0 m => m = m0)).
    - split_and!; [done|done|]. by apply all_managers_start.
    - simpl. intros _ ? (ms & p & -> & Hlen & -> & K1 & A1). apply (kv_state_change k l); try done.
      by apply (all_managers_end (fun _ => same_manager) (fun _ m0 m => m = m0)). }
  destruct (co_class (coordinator k)); [by apply wp_ret|exact Hloop..].
Qed.

Lemma get_blocks_kv k l rid res k' :
  kv_state k l -> kv_get_blocks rid k = Ret res k' -> kv_state k' l.
Proof.
  intros HK. unfold kv_get_blocks, py_bind, on_coordinator, py_zoom. simpl. intros [= _ <-]. by destruct k.
Qed.

Lemma take_events_kv k l res k' :
  kv_state k l -> kv_take_events k = Ret res k' -> kv_state k' l.
Proof.
  intros HK. unfold kv_take_events, on_km_pool, on_coordinator, on_co_pool, py_zoom, pool_take_events, py_bind, py_gets.
  rewrite (kv_events _ _ _ _ (ks_inv _ _ HK)). simpl. intros [= _ <-]. rewrite co_with_id_alt. by destruct k.
Qed.

(** ** Steps *)

(** The calls of a scheduler that respects the contracts: allocation, release,
    caching, resets, and the calls that read, of which the lookup records
    statistics and the common-prefix count may create empty tables. *)
Inductive kv_step (k : KVCacheManager) : KVCacheManager -> Prop :=
| step_allocate_slots request num_new ncomp ncb look delay enc res k' :
    slots_request k request num_new ncomp ncb look enc ->
    allocate_slots request num_new ncomp ncb look delay enc k = Ret res k' -> kv_step k k'
| step_free request k' : kv_free request k = Ret tt k' -> kv_step k k'
| step_cache_blocks request n k' :
    n <= num_tokens request -> hashes_current (hash_block_size (pool k)) request ->
    kv_cache_blocks request n k = Ret tt k' -> kv_step k k'
| step_reset_prefix_cache r k' : kv_reset_prefix_cache k = Ret r k' -> kv_step k k'
| step_get_computed_blocks request res k' : get_computed_blocks request k = Ret res k' -> kv_step k k'
| step_make_prefix_cache_stats res k' : make_prefix_cache_stats k = Ret res k' -> kv_step k k'
| step_get_num_common_prefix_blocks rid res k' :
    kv_get_num_common_prefix_blocks rid k = Ret res k' -> kv_step k k'
| step_get_blocks rid res k' : kv_get_blocks rid k = Ret res k' -> kv_step k k'
| step_take_events res k' : kv_take_events k = Ret res k' -> kv_step k k'.

Inductive kv_reachable : KVCacheManager -> Prop :=
| kv_reachable_init cfg mml hbs caching eagle stats ui mc dcp pcp k :
    config_ok cfg hbs caching dcp pcp ->
    kv_init cfg mml hbs caching eagle stats false ui mc dcp pcp = inr k -> kv_reachable k
| kv_reachable_step k k' : kv_reachable k -> kv_step k k' -> kv_reachable k'.

Lemma kv_cache_blocks_kv k l request n :
  kv_state k l -> n <= num_tokens request -> hashes_current (hash_block_size (pool k)) request ->
  wp (kv_cache_blocks request n) (fun _ k' => exists l', kv_state k' l') k.
Proof.
  intros HK Hn Hh. pose proof HK as [K Kc Kg Kx Ks]. unfold kv_cache_blocks. wp_step. wp_step.
  destruct (km_enable_caching k) eqn:Ec; [|apply wp_ret; by exists l].
  apply wp_on_coordinator. eapply wp_mono; [apply (cache_co (coordinator k) l (request_id (args request)) request n K)|]; try done.
  - by apply Kx.
  - simpl. intros _ ? (ms & p & -> & Hlen & K' & S & A). exists l. apply (kv_state_change k l); try done.
    intros j m0 m H0 Hm. by destruct (A j m0 m H0 Hm) as [[? _ _] _].
Qed.

Lemma kv_reachable_state k : kv_reachable k -> exists l, kv_state k l.
Proof.
  induction 1 as [cfg mml hbs caching eagle stats ui mc dcp pcp k Hc E|k k' _ [l HK] Hs].
  - by eapply kv_init_state.
  - destruct Hs as [request num_new ncomp ncb look delay enc res k' HR E|request k' E|request n k' Hn Hh E|r k' E
      |request res k' E|res k' E|rid res k' E|rid res k' E|res k' E].
    + destruct (wp_outcome _ _ _ _ _ (allocate_slots_kv k l request num_new ncomp ncb look delay enc HK HR) E)
        as (l' & HK' & _). eauto.
    + destruct (wp_outcome _ _ _ _ _ (kv_free_kv k l request HK) E) as (l' & HK' & _). eauto.
    + apply (wp_outcome _ _ _ _ _ (kv_cache_blocks_kv k l request n HK Hn Hh) E).
    + by destruct (wp_outcome _ _ _ _ _ (kv_reset_kv k l HK) E) as [? _].
    + exists l. by eapply get_computed_blocks_kv.
    + exists l. by eapply make_stats_kv.
    + exists l. apply (wp_outcome _ _ _ _ _ (common_prefix_kv k l rid HK) E).
    + exists l. by eapply get_blocks_kv.
    + exists l. by eapply take_events_kv.
Qed.

(** ** Properties *)

(** Slots of block tables, over all groups and requests, that hold block [b]. *)
Definition slots_holding (k : KVCacheManager) (b : Z) : Z := total_refs (managers k) b.

(** C7. Paged KV memory is accounted for exactly. In every reachable state, every
    block's reference count is the number of block-table slots, over all requests
    and groups, that hold it; a block is in the free queue exactly when no slot
    holds it, so memory is neither leaked nor handed out twice; and no request
    holds a block twice in one group. *)
Theorem kv_memory_accounting k :
  kv_reachable k ->
  exists l,
    get_all_free_blocks (free_block_queue (pool k)) = Ret l (free_block_queue (pool k)) /\
    (forall b, 0 < b < num_gpu_blocks (pool k) ->
       ref_cnt (blocks (pool k) !!! b) = slots_holding k b /\ (b ∈ l <-> slots_holding k b = 0)) /\
    (forall i m r t j1 j2 b, managers k !! i = Some m -> req_to_blocks m !! r = Some t -> b <> 0 ->
       t !! j1 = Some b -> t !! j2 = Some b -> j1 = j2 /\ b ∉ l).
Proof.
  intros [l [K _ _ _ _]]%kv_reachable_state. exists l. pose proof (kv_pool _ _ _ _ K) as Hp. split_and!.
  - apply get_all_free_blocks_rep, (inv_rep _ _ Hp).
  - intros b Hb. pose proof (kv_refs _ _ _ _ K b ltac:(lia)) as Hr. rewrite Z.add_0_r in Hr. split; [done|].
    rewrite (inv_free _ _ Hp). unfold slots_holding. naive_solver lia.
  - intros i m r t j1 j2 b Hm Ht Hb H1 H2. assert (tab m r = t) as Etab by (unfold tab; by rewrite Ht).
    split.
    + eapply nonnull_inj; [|done..]. rewrite <-Etab. apply (kv_managers _ _ _ _ K i m Hm).
    + eapply (kv_inv_tab_ref _ _ _ _ i m r b K Hm); [done| |done]. rewrite Etab. by eapply list_elem_of_lookup_2.
Qed.

(** C8. Slot allocation. Under its contract, [allocate_slots] never raises on a
    reachable state. First the blocks of the request that every later token will
    skip are given up: positions before the window hold the null block ([k1]),
    also when the call is then refused. The call is refused if and only if the
    blocks missing plus the hits that would leave the free queue outnumber the free
    blocks of [k1], and then nothing more has changed. Otherwise it returns, per
    group, exactly the missing blocks; no request held them; the table of the
    request is extended by the hits and by them, and has a slot for every token
    (for the encoder tokens, in cross-attention groups). Tables of other requests
    are untouched. *)
Theorem allocate_slots_correct k request num_new ncomp ncb look delay enc :
  kv_reachable k -> slots_request k request num_new ncomp ncb look enc ->
  let rid := request_id (args request) in
  let need := need_slot k request num_new ncomp look in
  let rows := rows_of k (default EmptyBlocks ncb) in
  exists k1 res k',
    on_coordinator (co_remove_skipped_blocks rid (num_computed_tokens request)) k = Ret tt k1 /\
    allocate_slots request num_new ncomp ncb look delay enc k = Ret res k' /\ kv_reachable k' /\
    length (managers k1) = length (managers k) /\ length (managers k') = length (managers k) /\
    (forall i m m1, managers k !! i = Some m -> managers k1 !! i = Some m1 ->
       blanked (skipped_blocks m (num_computed_tokens request)) (tab m rid) (tab m1 rid)) /\
    (forall i m m' r, managers k !! i = Some m -> managers k' !! i = Some m' -> r <> rid -> tab m' r = tab m r) /\
    (res = None <->
       get_num_free_blocks (pool k1) < sum_managers (contribution (pool k1) rid need enc rows) (managers k1)) /\
    forall i m1 m', managers k1 !! i = Some m1 -> managers k' !! i = Some m' ->
      match res with
      | None => pool k' = pool k1 /\ forall r, tab m' r = tab m1 r
      | Some blks => exists new, rows_of k' blks !! i = Some new /\
                       new_blocks_ok (pool k1) rid need enc rows i m1 m' new
      end.
Proof.
  intros Hreach HR rid need rows. destruct (kv_reachable_state k Hreach) as [l HK].
  destruct (allocate_slots_exact k l request num_new ncomp ncb look delay enc HK HR)
    as (ms1 & p1 & Eskip & L1 & A1 & Hw). fold rid rows need in Eskip, A1, Hw.
  apply wp_iff in Hw as (res & k' & E & l' & HK' & [EL _ _ EO] & Hiff & Hres).
  eexists _, res, k'. split; [exact Eskip|]. split; [done|].
  split; [by eapply kv_reachable_step; [|by eapply step_allocate_slots]|]. split_and!; [done|done| | |done|].
  - intros i m m1 Hm Hm1. by destruct (A1 i m m1 Hm Hm1) as (_ & _ & ?).
  - intros i m m' r Hm Hm' Hr. by apply (or_tab _ _ _ (EO i m m' Hm Hm')).
  - intros i m1 m' Hm1 Hm'. destruct res as [blks|]; [by eapply Hres|]. destruct Hres as [Ep A2]. split; [done|].
    by destruct (A2 i m1 m' Hm1 Hm') as (_ & _ & ?).
Qed.

(** Releasing a request never raises: the request is forgotten by every
    group, the tables of all other requests are unchanged, and when the last
    request is released every block of the pool is free again. *)
Theorem free_releases_everything k request :
  kv_reachable k ->
  let rid := request_id (args request) in
  exists k', kv_free request k = Ret tt k' /\ kv_reachable k' /\
    (forall i m', managers k' !! i = Some m' -> req_to_blocks m' !! rid = None /\ num_cached_block m' !! rid = None) /\
    (forall i m m' r, managers k !! i = Some m -> managers k' !! i = Some m' -> r <> rid -> tab m' r = tab m r) /\
    ((forall i m r, managers k !! i = Some m -> r <> rid -> tab m r = []) ->
       get_num_free_blocks (pool k') = num_gpu_blocks (pool k') - 1).
Proof.
  intros Hreach rid. destruct (kv_reachable_state k Hreach) as [l HK].
  pose proof (kv_free_kv k l request HK) as Hw.
  apply wp_iff in Hw as ([] & k' & E & l' & [K' _ _ _ _] & [EL _ _ EO] & Hgone).
  exists k'. split; [done|]. split; [by eapply kv_reachable_step; [|by eapply step_free]|]. split; [done|].
  assert (forall i m m' r, managers k !! i = Some m -> managers k' !! i = Some m' -> r <> rid -> tab m' r = tab m r) as Hother.
  { intros i m m' r Hm Hm' Hr. by apply (or_tab _ _ _ (EO i m m' Hm Hm')). }
  split; [done|]. intros Hlast. pose proof (kv_pool _ _ _ _ K') as Hp.
  enough (num_gpu_blocks (pool k') - get_num_free_blocks (pool k') = 1) by lia.
  apply (pool_inv_all_free _ _ Hp). intros b Hb. rewrite (kv_refs _ _ _ _ K') by lia. rewrite Z.add_0_r.
  destruct (decide (total_refs (managers k') b = 0)); [done|].
  pose proof (total_refs_nonneg (managers k') b).
  destruct (total_refs_pos (managers k') b ltac:(lia)) as (i & m' & r & Hm' & Hin).
  destruct (decide (r = rid)) as [->|Hr].
  - destruct (Hgone i m' Hm') as [Hn _]. unfold tab in Hin. fold rid in Hn. rewrite Hn in Hin. by apply not_elem_of_nil in Hin.
  - destruct (lookup_lt_is_Some_2 (managers k) i) as [m Hm]. { rewrite <-EL. by eapply lookup_lt_Some. }
    rewrite (Hother i m m' r Hm Hm' Hr), (Hlast i m r Hm Hr) in Hin. by apply not_elem_of_nil in Hin.
Qed.

(** *** Lookups *)

Lemma NoDup_nonnull_inj row :
  (forall j j' b, b <> 0 -> row !! j = Some b -> row !! j' = Some b -> j = j') -> NoDup (nonnull row).
Proof.
  intros H. apply NoDup_nonnull. intros b Hb. induction row as [|x row IH]; [rewrite occ_nil; lia|].
  rewrite occ_cons. case_decide as Hx.
  - subst x. assert (b ∉ row) as Hn.
    { intros [j Hj]%list_elem_of_lookup_1. by specialize (H 0%nat (S j) b Hb eq_refl Hj). }
    apply occ_zero in Hn. lia.
  - assert (occ b row <= 1); [|lia]. apply IH. intros j j' b' Hb' Hj Hj'.
    specialize (H (S j) (S j') b' Hb' Hj Hj'). lia.
Qed.

Lemma hit_rows_single p fl hs rows :
  pool_inv p fl -> NoDup hs -> hit_rows p [0] (PlainHashes hs) rows ->
  exists row, rows = [row] /\ hits_ok p rows.
Proof.
  intros Hinv Hnd (L & n & R & C). destruct rows as [|row [|]]; try done. exists row. split; [done|].
  apply Forall_cons_1 in R as [Hlen _].
  assert (forall j b, row !! j = Some b -> b <> 0 -> exists h, hs !! j = Some h /\ 0 < b < num_gpu_blocks p /\
            bh p b = make_block_hash_with_group_id h 0) as Hrow.
  { intros j b Hj Hb. destruct (C j) as [Hc|(rw & Hh & Hc)]; [rewrite <-Hlen; by eapply lookup_lt_Some|..];
      unfold col in Hc; simpl in Hc; rewrite Hj in Hc.
    - simplify_eq. by rewrite (inv_null _ _ Hinv) in Hb.
    - unfold hit in Hh. cbn [hash_at] in Hh. destruct (hs !! j) as [h|] eqn:Eh; [|done].
      apply (cached_row_sound _ _ _ _ _ Hinv) in Hh. inversion Hh as [|? b' ? ? [Hb' Hk] Hrest]. subst.
      simplify_eq/=. eauto. }
  split; simpl; rewrite app_nil_r.
  - apply NoDup_nonnull_inj. intros j j' b Hb Hj Hj'.
    destruct (Hrow j b Hj Hb) as (h & Hh & _ & K1). destruct (Hrow j' b Hj' Hb) as (h' & Hh' & _ & K2).
    destruct (make_key_total h 0 ltac:(lia)) as [key Ek]. rewrite Ek in K1. rewrite K1 in K2. symmetry in K2.
    destruct (make_key_inj h 0 h' 0 key Ek K2) as [-> _]. by eapply NoDup_lookup.
  - apply Forall_lookup. intros j b Hj. destruct (decide (b = 0)) as [->|Hb].
    + pose proof (inv_size _ _ Hinv). lia.
    + destruct (Hrow j b Hj Hb) as (h & _ & ? & _). lia.
  - intros b [j Hj]%list_elem_of_lookup_1 Hb. destruct (Hrow j b Hj Hb) as (h & _ & _ & ->).
    destruct (make_key_total h 0 ltac:(lia)) as [key ->]. eauto.
Qed.

Lemma lookup_kv k l request spec cls bs :
  kv_state k l -> co_class (coordinator k) = UnitaryKVCacheCoordinator spec bs 1 1 ->
  spec_manager_map spec = Some cls -> search_ok cls spec (co_use_eagle (coordinator k)) bs ->
  spec_block_size spec = bs -> 0 < bs ->
  NoDup (block_hashes request) -> hashes_current bs request -> 1 <= num_tokens request ->
  wp (get_computed_blocks request) (fun '(blks, n) k' => exists st, k' = set_stats st k /\
    (log_stats k = true -> is_Some st) /\ 0 <= n < num_tokens request /\ n mod bs = 0 /\
    match blks with
    | EmptyBlocks => n = 0
    | MkBlocks rows => exists row, rows = [row] /\ hits_ok (pool k) rows /\ n = Z.of_nat (length row) * bs
    end) k.
Proof.
  intros [K Kc Kg Kx Ks] Hcls Hmap Hok Hsb Hbs Hnd Hcur Hnt.
  pose proof (kv_pool _ _ _ _ K) as Hinv. unfold wp, get_computed_blocks, py_bind, py_get.
  destruct (negb (km_enable_caching k) || get_skip_reading_prefix_cache (args request)).
  { exists (prefix_cache_stats k). split_and!; try done; try lia. by destruct k. }
  assert (0 <= num_tokens request - 1) as Hml by lia.
  assert ((num_tokens request - 1) / bs <= num_tokens request / bs) as Hdiv by (apply Z.div_le_mono; lia).
  destruct (find_hits_ok (pool k) l cls [0] (PlainHashes (block_hashes request)) (num_tokens request - 1) spec
              (co_use_eagle (coordinator k)) bs) as (n & rows & Efind & Hh & R & Hn & _);
    try done; try (by rewrite Hsb).
  { apply group_zero_ok. }
  { rewrite Hsb. simpl. unfold hashes_current in Hcur. lia. }
  destruct (hit_rows_single _ _ _ _ Hinv Hnd Hh) as (row & -> & Hho).
  apply Forall_cons_1 in R as [R _].
  assert (on_coordinator (co_find_longest_cache_hit (block_hashes request) (num_tokens request - 1)) k
          = Ret ([row], Z.of_nat (length row) * bs) k) as ->.
  { unfold on_coordinator, py_zoom, co_find_longest_cache_hit, py_bind, py_get. rewrite Hcls.
    unfold on_co_pool, py_zoom, unitary_find, py_bind. rewrite Hmap. simpl. rewrite Efind. simpl.
    rewrite co_with_id_alt. by destruct k. }
  rewrite Hsb in Hn. rewrite <-R in Hn.
  assert (0 <= Z.of_nat (length row) * bs < num_tokens request) as Hrange.
  { assert (0 <= (num_tokens request - 1) / bs) by (apply Z.div_pos; lia).
    pose proof (Z.mul_div_le (num_tokens request - 1) bs Hbs). nia. }
  set (n' := Z.of_nat (length row) * bs) in *.
  assert (exists st, (if log_stats k
      then (let! s := py_gets prefix_cache_stats in
            let! s := py_unwrap AssertionError s in
            py_modify (set_stats (Some (stats_record (num_tokens request) n' (num_preemptions request >? 0) s))))
      else py_ret tt) k = Ret tt (set_stats st k) /\ (log_stats k = true -> is_Some st)) as (st & Estats & Hst).
  { destruct (log_stats k); [|exists (prefix_cache_stats k); by destruct k]. destruct (Ks eq_refl) as [s Hs].
    unfold py_bind, py_gets. rewrite Hs. eexists. split; [done|]. eauto. }
  unfold py_bind in Estats. rewrite Estats.
  exists st. split; [done|]. split_and!; [done|lia|lia|by apply Z_mod_mult|].
  unfold create_kv_cache_blocks, any_blocks. simpl. case_bool_decide as Hr; simpl.
  - subst row n'. done.
  - eauto.
Qed.

(** A prefix-cache lookup meets the contract of allocation. For a model with one
    KV-cache group, on a request with up-to-date, collision-free hashes,
    [get_computed_blocks] never raises and changes no block or table; the blocks it
    returns are cached blocks of the pool without repetition, and it leaves at
    least the last token to be computed: the hit length is a multiple of the block
    size, below the number of tokens, and counts exactly the blocks returned. *)
Theorem lookup_meets_contract k request spec cls bs :
  kv_reachable k -> co_class (coordinator k) = UnitaryKVCacheCoordinator spec bs 1 1 ->
  spec_manager_map spec = Some cls -> search_ok cls spec (co_use_eagle (coordinator k)) bs ->
  spec_block_size spec = bs -> 0 < bs ->
  NoDup (block_hashes request) -> hashes_current bs request -> 1 <= num_tokens request ->
  exists blks n k', get_computed_blocks request k = Ret (blks, n) k' /\
    coordinator k' = coordinator k /\ 0 <= n < num_tokens request /\ n mod bs = 0 /\
    match blks with
    | EmptyBlocks => n = 0
    | MkBlocks rows => exists row, rows = [row] /\ hits_ok (pool k) rows /\ n = Z.of_nat (length row) * bs
    end.
Proof.
  intros [l HK]%kv_reachable_state Hcls Hmap Hok Hsb Hbs Hnd Hcur Hnt.
  pose proof (lookup_kv k l request spec cls bs HK Hcls Hmap Hok Hsb Hbs Hnd Hcur Hnt) as Hw.
  apply wp_iff in Hw as ([blks n] & k' & E & st & -> & _ & Hn & Hm & Hb). by exists blks, n, (set_stats st k).
Qed.

(** ** Runs *)

Definition demo_req (id : string) (toks : list Z) (hashes : list bytes) (computed : Z) : Request :=
  mkRequest (mkArgs id 0 0 0 0 (Some toks) None (Some demo_sampling) None None [] None None)
    4 (Z.of_nat (length toks)) false None RUNNING [] None [] toks 0 false [] computed (-1) 0 0 0 hashes.

Definition or_else {A} (d : A) (r : exn + A) : A := match r with inr a => a | inl _ => d end.
Definition no_kv : KVCacheManager :=
  mkKV 0 false false None (mkCoordinator demo_pool0 [] false KVCacheCoordinatorNoPrefixCache) 0.

(** One full-attention group of block size 2, six blocks, prefix caching. *)
Definition demo_cfg : KVCacheConfig := mkConfig 6 [FullAttentionSpec 2 0].
Definition demo_kv0 : KVCacheManager :=
  or_else no_kv (kv_init demo_cfg 16 2 true false true false false false 1 1).
Definition demo_a : Request := demo_req "a" [1; 2; 3; 4; 5] [[21]; [22]] 0.
Definition demo_kv1 : KVCacheManager := after (allocate_slots demo_a 5 0 (Some EmptyBlocks) 0 false 0) demo_kv0.

Lemma demo_kv0_reachable : kv_reachable demo_kv0.
Proof.
  apply (kv_reachable_init demo_cfg 16 2 true false true false false 1 1); [|vm_compute; reflexivity].
  split; simpl; [|lia|lia|lia|]; repeat constructor.
Qed.

Lemma demo_a_request : slots_request demo_kv0 demo_a 5 0 (Some EmptyBlocks) 0 0.
Proof.
  split; [done| | |done|left; vm_compute; lia].
  - intros [|[|i]] m Hm; vm_compute in Hm; simplify_eq; vm_compute; done.
  - intros _. vm_compute. reflexivity.
Qed.

Lemma demo_kv1_reachable : kv_reachable demo_kv1.
Proof.
  eapply kv_reachable_step; [apply demo_kv0_reachable|].
  eapply (step_allocate_slots _ demo_a 5 0 (Some EmptyBlocks) 0 false 0); [apply demo_a_request|].
  vm_compute. reflexivity.
Qed.

Lemma demo_kv1_tables i m :
  managers demo_kv1 !! i = Some m -> req_to_blocks m = {[ "a"%string := [1; 2; 3] ]}.
Proof.
  assert (map req_to_blocks (managers demo_kv1) = [ {[ "a"%string := [1; 2; 3] ]} ]) as E
    by (vm_compute; reflexivity).
  intros Hm. apply (f_equal (fun l => l !! i)) in E. rewrite list_lookup_fmap, Hm in E.
  destruct i as [|i]; [|done]. by injection E.
Qed.

Lemma kv_memory_accounting_witness :
  exists l,
    get_all_free_blocks (free_block_queue (pool demo_kv1)) = Ret l (free_block_queue (pool demo_kv1)) /\
    forall b, 0 < b < num_gpu_blocks (pool demo_kv1) ->
      ref_cnt (blocks (pool demo_kv1) !!! b) = slots_holding demo_kv1 b /\
      (b ∈ l <-> slots_holding demo_kv1 b = 0).
Proof.
  destruct (kv_memory_accounting demo_kv1 demo_kv1_reachable) as (l & ? & ? & _). exists l. split; assumption.
Defined.

Lemma allocate_slots_correct_witness :
  exists res k', allocate_slots demo_a 5 0 (Some EmptyBlocks) 0 false 0 demo_kv0 = Ret res k' /\
    kv_reachable k'.
Proof.
  destruct (allocate_slots_correct demo_kv0 demo_a 5 0 (Some EmptyBlocks) 0 false 0
              demo_kv0_reachable demo_a_request) as (k1 & res & k' & _ & E & Hr & _).
  exists res, k'. split; assumption.
Defined.

Lemma free_releases_everything_witness :
  exists k', kv_free demo_a demo_kv1 = Ret tt k' /\ get_num_free_blocks (pool k') = 5.
Proof.
  destruct (free_releases_everything demo_kv1 demo_a demo_kv1_reachable) as (k' & E & _ & _ & _ & Hlast).
  exists k'. split; [exact E|]. rewrite Hlast.
  - assert (k' = after (kv_free demo_a) demo_kv1) as -> by (unfold after; by rewrite E). vm_compute. reflexivity.
  - intros i m r Hm Hr. unfold tab. rewrite (demo_kv1_tables i m Hm).
    rewrite lookup_singleton_ne; [done|]. intros <-. by apply Hr.
Defined.

Lemma lookup_meets_contract_witness :
  exists blks n k', get_computed_blocks (demo_req "b" [1; 2; 3; 4; 9] [[21]; [22]] 0) demo_kv1 = Ret (blks, n) k' /\
    blks = MkBlocks [[1; 2]] /\ n = 4.
Proof.
  destruct (lookup_meets_contract demo_kv1 (demo_req "b" [1; 2; 3; 4; 9] [[21]; [22]] 0) (FullAttentionSpec 2 0)
              FullAttentionManager 2) as (blks & n & k' & E & _ & _ & _ & _).
  - apply demo_kv1_reachable.
  - vm_compute. reflexivity.
  - reflexivity.
  - exact I.
  - reflexivity.
  - lia.
  - apply NoDup_ListNoDup. repeat constructor; simpl; intuition congruence.
  - vm_compute. reflexivity.
  - vm_compute. congruence.
  - exists blks, n, k'. split; [exact E|]. vm_compute in E. split; congruence.
Defined.

(** *** Two runs outside the contract *)

(** An encoder-decoder model: self attention and cross attention, blocks of two
    tokens, four usable blocks, no prefix caching. *)
Definition whisper_kv0 : KVCacheManager :=
  or_else no_kv (kv_init (mkConfig 5 [FullAttentionSpec 2 0; CrossAttentionSpec 2 0])
                   16 2 false false false false false false 1 1).
Definition whisper_a (computed : Z) : Request := demo_req "a" [1; 2; 3; 4; 5] [] computed.

(** The surplus of a cross-attention group hides the need of another group.
    The scheduler passes the number of encoder tokens only when it admits a request;
    on later steps it is 0, the cross-attention group then reports a negative number
    of blocks, and the sum passes the check although no block is free:
    [allocate_slots] raises [ValueError] where it should return [None] and let the
    scheduler preempt. *)
Theorem cross_attention_surplus_raises :
  exists blks k1 k2,
    allocate_slots (whisper_a 0) 4 0 (Some EmptyBlocks) 0 false 4 whisper_kv0 = Ret (Some blks) k1 /\
    get_num_free_blocks (pool k1) = 0 /\
    allocate_slots (whisper_a 4) 1 0 None 0 false 0 k1 = Raise ValueError k2.
Proof.
  eexists _, _, _. split; [vm_compute; reflexivity|]. split; [vm_compute; reflexivity|].
  vm_compute. reflexivity.
Qed.

Definition demo_big : Request :=
  demo_req "b" [7; 7; 7; 7; 7; 7; 7; 7] [[31]; [32]; [33]; [34]] 0.

(** A refused request counts as a holder of KV memory. The only request with
    blocks shares all of its prefix with itself; after another request is refused
    for lack of memory, and holds no block, the number of common prefix blocks drops
    to 0: asking how many blocks the refused request has stored an empty table for
    it, and [len(req_to_blocks)] counts it. *)
Theorem refused_request_breaks_common_prefix :
  exists k2 k3 k4,
    kv_get_num_common_prefix_blocks "a" demo_kv1 = Ret [3] demo_kv1 /\
    allocate_slots demo_big 8 0 (Some EmptyBlocks) 0 false 0 demo_kv1 = Ret None k2 /\
    kv_get_block_ids "b" k2 = Ret [[]] k3 /\
    kv_get_num_common_prefix_blocks "a" k2 = Ret [0] k4.
Proof.
  eexists _, _, _. split; [vm_compute; reflexivity|]. split; [vm_compute; reflexivity|].
  split; vm_compute; reflexivity.
Qed.
