(* ===== verification/SchedulerData.v ===== *)
(** The data of the scheduler ([vllm/v1/core/sched/scheduler.py],
    [vllm/v1/core/sched/output.py]): its configuration and state, the messages it
    exchanges with the model runner and the front end, and the interfaces of its
    collaborators.

    Requests are objects shared by the queues, the running list and the id map:
    they live in [objects], and everything else refers to them by [obj_id]. The
    waiting queue is any implementation of the interface [RequestQueue], paged KV
    memory any implementation of [KVCache]; the KV connector and the manager of
    structured outputs, which are configured per deployment, are the class
    [Collaborators] over their own state. *)
From stdpp Require Import gmap strings list.
From Stdlib Require Import ZArith Lia.
From S2P Require Import Prelude Request RequestQueue EncoderCache BlockPool KVCacheManager.
Open Scope Z_scope.

(** ** Configuration *)

Record SchedulerConfig := mkSchedulerConfig {
  policy : SchedulingPolicy;
  max_num_running_reqs : Z;
  max_num_scheduled_tokens : Z;
  max_model_len : Z;
  long_prefill_token_threshold : Z;
  enable_chunked_prefill : bool;
  disable_chunked_mm_input : bool;
  cfg_max_num_encoder_input_tokens : Z; (** of [scheduler_config] *)
  max_num_encoder_input_tokens : Z;     (** the encoder compute budget *)
  max_loras : option Z;                 (** [lora_config] *)
  is_encoder_decoder : bool;
  use_eagle : bool;
  num_spec_tokens : Z;
  num_lookahead_tokens : Z;
  scheduler_block_size : Z;
  num_kv_groups : nat;
  scheduler_log_stats : bool;
  use_pp : bool;
  use_v2_model_runner : bool;
  async_scheduling : bool               (** the class is [AsyncScheduler] *)
}.

(** ** Messages *)

Record NewRequestData := mkNewRequestData {
  nr_args : RequestArgs; (** id, prompt, features, parameters, LoRA request *)
  nr_block_ids : list (list Z);
  nr_num_computed_tokens : Z;
  nr_prefill_token_ids : option (list Z)
}.
Definition from_request (r : Request) (block_ids : list (list Z)) (prefill_token_ids : option (list Z))
    : NewRequestData :=
  mkNewRequestData (args r) block_ids (num_computed_tokens r) prefill_token_ids.

Record CachedRequestData := mkCachedRequestData {
  cr_req_ids : list string;
  cr_resumed_req_ids : gset string;
  cr_new_token_ids : list (list Z);
  cr_all_token_ids : list (string * list Z);
  cr_new_block_ids : list (option (list (list Z)));
  cr_num_computed_tokens : list Z;
  cr_num_output_tokens : list Z
}.

(** Metadata of connectors stays in their own state. *)
Record SchedulerOutput := mkSchedulerOutput {
  so_scheduled_new_reqs : list NewRequestData;
  so_scheduled_cached_reqs : CachedRequestData;
  so_num_scheduled_tokens : list (string * Z);
  so_total_num_scheduled_tokens : Z;
  so_scheduled_spec_decode_tokens : gmap string (list Z);
  so_scheduled_encoder_inputs : gmap string (list nat);
  so_num_common_prefix_blocks : list Z;
  so_preempted_req_ids : gset string;
  so_finished_req_ids : gset string;
  so_free_encoder_mm_hashes : list string;
  so_pending_structured_output_tokens : bool
}.

Record KVConnectorOutput := mkKVConnectorOutput {
  finished_sending : list string;
  finished_recving : list string;
  invalid_block_ids : gset Z
}.

(** Tensors are opaque values; logprobs of samples are not represented. *)
Record ModelRunnerOutput := mkModelRunnerOutput {
  req_id_to_index : gmap string nat;
  sampled_token_ids : list (list Z);
  prompt_logprobs_dict : gmap string Z;
  pooler_output : list (option Z);
  kv_connector_output : option KVConnectorOutput;
  runner_num_nans_in_logits : option (gmap string Z)
}.

Record EngineCoreOutput := mkEngineCoreOutput {
  eo_request_id : string;
  eo_new_token_ids : list Z;
  eo_finish_reason : option FinishReason;
  eo_prompt_logprobs : option Z;
  eo_pooling_output : option Z;
  eo_stop_reason : option Z;
  eo_events : option (list (EngineCoreEventType * Z));
  eo_kv_transfer_params : option Z;
  eo_num_cached_tokens : Z;
  eo_num_nans_in_logits : Z
}.

Record SpecDecodingStats := mkSpecDecodingStats {
  sd_num_spec_tokens : Z;
  sd_num_drafts : Z;
  sd_num_draft_tokens : Z;
  sd_num_accepted_tokens : Z;
  sd_num_accepted_tokens_per_pos : list Z
}.

(** Usage and evictions, read for monitoring only, are not represented. *)
Record SchedulerStats := mkSchedulerStats {
  ss_num_running_reqs : Z;
  ss_num_waiting_reqs : Z;
  ss_prefix_cache_stats : PrefixCacheStats;
  ss_connector_prefix_cache_stats : option PrefixCacheStats;
  ss_spec_decoding_stats : option SpecDecodingStats
}.

Record EngineCoreOutputs := mkEngineCoreOutputs {
  eco_outputs : list EngineCoreOutput;
  eco_finished_requests : option (gset string);
  eco_scheduler_stats : option SchedulerStats
}.

(** ** Interfaces *)

(** What the scheduler calls on the KV-cache manager. *)
Class KVCache (K : Type) := {
  kc_get_computed_blocks : Request -> py K (KVCacheBlocks * Z);
  kc_allocate_slots : Request -> Z -> Z -> option KVCacheBlocks -> Z -> bool -> Z ->
                      py K (option KVCacheBlocks);
  kc_free : Request -> py K unit;
  kc_cache_blocks : Request -> Z -> py K unit;
  kc_get_blocks : string -> py K KVCacheBlocks;
  kc_get_block_ids : string -> py K (list (list Z));
  kc_get_num_common_prefix_blocks : string -> py K (list Z);
  kc_reset_prefix_cache : py K bool;
  kc_take_events : py K (list KVCacheEvent);
  kc_make_prefix_cache_stats : py K (option PrefixCacheStats);
  (** [KVCacheBlocks.get_block_ids] and [KVCacheBlocks.__add__] *)
  kc_block_ids : K -> bool -> KVCacheBlocks -> option (list (list Z));
  kc_blocks_add : K -> KVCacheBlocks -> KVCacheBlocks -> KVCacheBlocks
}.

#[export] Instance kv_cache_manager_ops : KVCache KVCacheManager := {
  kc_get_computed_blocks := get_computed_blocks;
  kc_allocate_slots := allocate_slots;
  kc_free := kv_free;
  kc_cache_blocks := kv_cache_blocks;
  kc_get_blocks := kv_get_blocks;
  kc_get_block_ids := kv_get_block_ids;
  kc_get_num_common_prefix_blocks := kv_get_num_common_prefix_blocks;
  kc_reset_prefix_cache := kv_reset_prefix_cache;
  kc_take_events := kv_take_events;
  kc_make_prefix_cache_stats := make_prefix_cache_stats;
  kc_block_ids := get_block_ids_of;
  kc_blocks_add := blocks_add
}.

(** The KV connector ([connector is not None] when [has_connector]) and the
    manager of structured outputs, over their joint state [X]. *)
Class Collaborators (X : Type) := {
  has_connector : bool;
  supports_hma : bool;
  get_num_new_matched_tokens : Request -> Z -> py X (option Z * bool);
  update_state_after_alloc : Request -> KVCacheBlocks -> Z -> py X unit;
  build_connector_meta : SchedulerOutput -> py X unit;
  request_finished : Request -> list (list Z) -> py X (bool * option Z);
  update_connector_output : KVConnectorOutput -> py X unit;
  connector_take_events : py X (list KVCacheEvent);
  (** [structured_output_request.grammar] is compiled *)
  grammar_ready : Request -> X -> bool;
  should_advance : Request -> X -> bool;
  accept_tokens : Request -> list Z -> py X unit;
  validate_tokens : Request -> list Z -> py X (list Z);
  grammar_bitmask : list string -> gmap string (list Z) -> py X Z
}.

(** ** State *)

Section state.
Context (Q K X : Type).

Record Scheduler := mkScheduler {
  objects : gmap Z Request (** the request objects, by identity *);
  requests : gmap string Z (** request id -> object *);
  waiting : Q;
  running : list Z;
  finished_req_ids : gset string;
  finished_req_ids_dict : option (list (Z * gset string));
  prev_step_scheduled_req_ids : gset string;
  finished_recving_kv_req_ids : gset string;
  failed_recving_kv_req_ids : gset string;
  encoder_cache_manager : EncoderCacheManager;
  kv_cache_manager : K;
  connector_prefix_cache_stats : option PrefixCacheStats;
  collaborators : X
}.

(** The local variables of [schedule]. *)
Record Locals := mkLocals {
  scheduled_new_reqs : list Z;
  scheduled_resumed_reqs : list Z;
  scheduled_running_reqs : list Z;
  preempted_reqs : list Z;
  req_to_new_blocks : gmap string KVCacheBlocks;
  num_scheduled_tokens : list (string * Z);
  token_budget : Z;
  scheduled_encoder_inputs : gmap string (list nat);
  encoder_compute_budget : Z;
  scheduled_spec_decode_tokens : gmap string (list Z);
  req_index : nat;
  scheduled_loras : gset Z;
  skipped_waiting_requests : Q
}.
End state.

Arguments objects {Q K X} s.
Arguments requests {Q K X} s.
Arguments waiting {Q K X} s.
Arguments running {Q K X} s.
Arguments finished_req_ids {Q K X} s.
Arguments finished_req_ids_dict {Q K X} s.
Arguments prev_step_scheduled_req_ids {Q K X} s.
Arguments finished_recving_kv_req_ids {Q K X} s.
Arguments failed_recving_kv_req_ids {Q K X} s.
Arguments encoder_cache_manager {Q K X} s.
Arguments kv_cache_manager {Q K X} s.
Arguments connector_prefix_cache_stats {Q K X} s.
Arguments collaborators {Q K X} s.
Arguments mkScheduler {Q K X}.
Arguments scheduled_new_reqs {Q} l.
Arguments scheduled_resumed_reqs {Q} l.
Arguments scheduled_running_reqs {Q} l.
Arguments preempted_reqs {Q} l.
Arguments req_to_new_blocks {Q} l.
Arguments num_scheduled_tokens {Q} l.
Arguments token_budget {Q} l.
Arguments scheduled_encoder_inputs {Q} l.
Arguments encoder_compute_budget {Q} l.
Arguments scheduled_spec_decode_tokens {Q} l.
Arguments req_index {Q} l.
Arguments scheduled_loras {Q} l.
Arguments skipped_waiting_requests {Q} l.
Arguments mkLocals {Q}.

Section writes.
Context {Q K X : Type}.

Definition set_objects (x : gmap Z Request) (s : Scheduler Q K X) : Scheduler Q K X :=
  mkScheduler x (requests s) (waiting s) (running s) (finished_req_ids s) (finished_req_ids_dict
    s) (prev_step_scheduled_req_ids s) (finished_recving_kv_req_ids s)
    (failed_recving_kv_req_ids s) (encoder_cache_manager s) (kv_cache_manager s)
    (connector_prefix_cache_stats s) (collaborators s).
Definition set_requests (x : gmap string Z) (s : Scheduler Q K X) : Scheduler Q K X :=
  mkScheduler (objects s) x (waiting s) (running s) (finished_req_ids s) (finished_req_ids_dict
    s) (prev_step_scheduled_req_ids s) (finished_recving_kv_req_ids s)
    (failed_recving_kv_req_ids s) (encoder_cache_manager s) (kv_cache_manager s)
    (connector_prefix_cache_stats s) (collaborators s).
Definition set_waiting (x : Q) (s : Scheduler Q K X) : Scheduler Q K X :=
  mkScheduler (objects s) (requests s) x (running s) (finished_req_ids s) (finished_req_ids_dict
    s) (prev_step_scheduled_req_ids s) (finished_recving_kv_req_ids s)
    (failed_recving_kv_req_ids s) (encoder_cache_manager s) (kv_cache_manager s)
    (connector_prefix_cache_stats s) (collaborators s).
Definition set_running (x : list Z) (s : Scheduler Q K X) : Scheduler Q K X :=
  mkScheduler (objects s) (requests s) (waiting s) x (finished_req_ids s) (finished_req_ids_dict
    s) (prev_step_scheduled_req_ids s) (finished_recving_kv_req_ids s)
    (failed_recving_kv_req_ids s) (encoder_cache_manager s) (kv_cache_manager s)
    (connector_prefix_cache_stats s) (collaborators s).
Definition set_finished_req_ids (x : gset string) (s : Scheduler Q K X) : Scheduler Q K X :=
  mkScheduler (objects s) (requests s) (waiting s) (running s) x (finished_req_ids_dict s)
    (prev_step_scheduled_req_ids s) (finished_recving_kv_req_ids s) (failed_recving_kv_req_ids
    s) (encoder_cache_manager s) (kv_cache_manager s) (connector_prefix_cache_stats s)
    (collaborators s).
Definition set_finished_req_ids_dict (x : option (list (Z * gset string))) (s : Scheduler Q K X) : Scheduler Q K X :=
  mkScheduler (objects s) (requests s) (waiting s) (running s) (finished_req_ids s) x
    (prev_step_scheduled_req_ids s) (finished_recving_kv_req_ids s) (failed_recving_kv_req_ids
    s) (encoder_cache_manager s) (kv_cache_manager s) (connector_prefix_cache_stats s)
    (collaborators s).
Definition set_prev_step_scheduled_req_ids (x : gset string) (s : Scheduler Q K X) : Scheduler Q K X :=
  mkScheduler (objects s) (requests s) (waiting s) (running s) (finished_req_ids s)
    (finished_req_ids_dict s) x (finished_recving_kv_req_ids s) (failed_recving_kv_req_ids s)
    (encoder_cache_manager s) (kv_cache_manager s) (connector_prefix_cache_stats s)
    (collaborators s).
Definition set_finished_recving_kv_req_ids (x : gset string) (s : Scheduler Q K X) : Scheduler Q K X :=
  mkScheduler (objects s) (requests s) (waiting s) (running s) (finished_req_ids s)
    (finished_req_ids_dict s) (prev_step_scheduled_req_ids s) x (failed_recving_kv_req_ids s)
    (encoder_cache_manager s) (kv_cache_manager s) (connector_prefix_cache_stats s)
    (collaborators s).
Definition set_failed_recving_kv_req_ids (x : gset string) (s : Scheduler Q K X) : Scheduler Q K X :=
  mkScheduler (objects s) (requests s) (waiting s) (running s) (finished_req_ids s)
    (finished_req_ids_dict s) (prev_step_scheduled_req_ids s) (finished_recving_kv_req_ids s) x
    (encoder_cache_manager s) (kv_cache_manager s) (connector_prefix_cache_stats s)
    (collaborators s).
Definition set_encoder_cache_manager (x : EncoderCacheManager) (s : Scheduler Q K X) : Scheduler Q K X :=
  mkScheduler (objects s) (requests s) (waiting s) (running s) (finished_req_ids s)
    (finished_req_ids_dict s) (prev_step_scheduled_req_ids s) (finished_recving_kv_req_ids s)
    (failed_recving_kv_req_ids s) x (kv_cache_manager s) (connector_prefix_cache_stats s)
    (collaborators s).
Definition set_kv_cache_manager (x : K) (s : Scheduler Q K X) : Scheduler Q K X :=
  mkScheduler (objects s) (requests s) (waiting s) (running s) (finished_req_ids s)
    (finished_req_ids_dict s) (prev_step_scheduled_req_ids s) (finished_recving_kv_req_ids s)
    (failed_recving_kv_req_ids s) (encoder_cache_manager s) x (connector_prefix_cache_stats s)
    (collaborators s).
Definition set_connector_prefix_cache_stats (x : option PrefixCacheStats) (s : Scheduler Q K X) : Scheduler Q K X :=
  mkScheduler (objects s) (requests s) (waiting s) (running s) (finished_req_ids s)
    (finished_req_ids_dict s) (prev_step_scheduled_req_ids s) (finished_recving_kv_req_ids s)
    (failed_recving_kv_req_ids s) (encoder_cache_manager s) (kv_cache_manager s) x
    (collaborators s).
Definition set_collaborators (x : X) (s : Scheduler Q K X) : Scheduler Q K X :=
  mkScheduler (objects s) (requests s) (waiting s) (running s) (finished_req_ids s)
    (finished_req_ids_dict s) (prev_step_scheduled_req_ids s) (finished_recving_kv_req_ids s)
    (failed_recving_kv_req_ids s) (encoder_cache_manager s) (kv_cache_manager s)
    (connector_prefix_cache_stats s) x.

Definition set_scheduled_new_reqs (x : list Z) (s : Locals Q) : Locals Q :=
  mkLocals x (scheduled_resumed_reqs s) (scheduled_running_reqs s) (preempted_reqs s)
    (req_to_new_blocks s) (num_scheduled_tokens s) (token_budget s) (scheduled_encoder_inputs s)
    (encoder_compute_budget s) (scheduled_spec_decode_tokens s) (req_index s) (scheduled_loras
    s) (skipped_waiting_requests s).
Definition set_scheduled_resumed_reqs (x : list Z) (s : Locals Q) : Locals Q :=
  mkLocals (scheduled_new_reqs s) x (scheduled_running_reqs s) (preempted_reqs s)
    (req_to_new_blocks s) (num_scheduled_tokens s) (token_budget s) (scheduled_encoder_inputs s)
    (encoder_compute_budget s) (scheduled_spec_decode_tokens s) (req_index s) (scheduled_loras
    s) (skipped_waiting_requests s).
Definition set_scheduled_running_reqs (x : list Z) (s : Locals Q) : Locals Q :=
  mkLocals (scheduled_new_reqs s) (scheduled_resumed_reqs s) x (preempted_reqs s)
    (req_to_new_blocks s) (num_scheduled_tokens s) (token_budget s) (scheduled_encoder_inputs s)
    (encoder_compute_budget s) (scheduled_spec_decode_tokens s) (req_index s) (scheduled_loras
    s) (skipped_waiting_requests s).
Definition set_preempted_reqs (x : list Z) (s : Locals Q) : Locals Q :=
  mkLocals (scheduled_new_reqs s) (scheduled_resumed_reqs s) (scheduled_running_reqs s) x
    (req_to_new_blocks s) (num_scheduled_tokens s) (token_budget s) (scheduled_encoder_inputs s)
    (encoder_compute_budget s) (scheduled_spec_decode_tokens s) (req_index s) (scheduled_loras
    s) (skipped_waiting_requests s).
Definition set_req_to_new_blocks (x : gmap string KVCacheBlocks) (s : Locals Q) : Locals Q :=
  mkLocals (scheduled_new_reqs s) (scheduled_resumed_reqs s) (scheduled_running_reqs s)
    (preempted_reqs s) x (num_scheduled_tokens s) (token_budget s) (scheduled_encoder_inputs s)
    (encoder_compute_budget s) (scheduled_spec_decode_tokens s) (req_index s) (scheduled_loras
    s) (skipped_waiting_requests s).
Definition set_num_scheduled_tokens (x : list (string * Z)) (s : Locals Q) : Locals Q :=
  mkLocals (scheduled_new_reqs s) (scheduled_resumed_reqs s) (scheduled_running_reqs s)
    (preempted_reqs s) (req_to_new_blocks s) x (token_budget s) (scheduled_encoder_inputs s)
    (encoder_compute_budget s) (scheduled_spec_decode_tokens s) (req_index s) (scheduled_loras
    s) (skipped_waiting_requests s).
Definition set_token_budget (x : Z) (s : Locals Q) : Locals Q :=
  mkLocals (scheduled_new_reqs s) (scheduled_resumed_reqs s) (scheduled_running_reqs s)
    (preempted_reqs s) (req_to_new_blocks s) (num_scheduled_tokens s) x
    (scheduled_encoder_inputs s) (encoder_compute_budget s) (scheduled_spec_decode_tokens s)
    (req_index s) (scheduled_loras s) (skipped_waiting_requests s).
Definition set_scheduled_encoder_inputs (x : gmap string (list nat)) (s : Locals Q) : Locals Q :=
  mkLocals (scheduled_new_reqs s) (scheduled_resumed_reqs s) (scheduled_running_reqs s)
    (preempted_reqs s) (req_to_new_blocks s) (num_scheduled_tokens s) (token_budget s) x
    (encoder_compute_budget s) (scheduled_spec_decode_tokens s) (req_index s) (scheduled_loras
    s) (skipped_waiting_requests s).
Definition set_encoder_compute_budget (x : Z) (s : Locals Q) : Locals Q :=
  mkLocals (scheduled_new_reqs s) (scheduled_resumed_reqs s) (scheduled_running_reqs s)
    (preempted_reqs s) (req_to_new_blocks s) (num_scheduled_tokens s) (token_budget s)
    (scheduled_encoder_inputs s) x (scheduled_spec_decode_tokens s) (req_index s)
    (scheduled_loras s) (skipped_waiting_requests s).
Definition set_scheduled_spec_decode_tokens (x : gmap string (list Z)) (s : Locals Q) : Locals Q :=
  mkLocals (scheduled_new_reqs s) (scheduled_resumed_reqs s) (scheduled_running_reqs s)
    (preempted_reqs s) (req_to_new_blocks s) (num_scheduled_tokens s) (token_budget s)
    (scheduled_encoder_inputs s) (encoder_compute_budget s) x (req_index s) (scheduled_loras s)
    (skipped_waiting_requests s).
Definition set_req_index (x : nat) (s : Locals Q) : Locals Q :=
  mkLocals (scheduled_new_reqs s) (scheduled_resumed_reqs s) (scheduled_running_reqs s)
    (preempted_reqs s) (req_to_new_blocks s) (num_scheduled_tokens s) (token_budget s)
    (scheduled_encoder_inputs s) (encoder_compute_budget s) (scheduled_spec_decode_tokens s) x
    (scheduled_loras s) (skipped_waiting_requests s).
Definition set_scheduled_loras (x : gset Z) (s : Locals Q) : Locals Q :=
  mkLocals (scheduled_new_reqs s) (scheduled_resumed_reqs s) (scheduled_running_reqs s)
    (preempted_reqs s) (req_to_new_blocks s) (num_scheduled_tokens s) (token_budget s)
    (scheduled_encoder_inputs s) (encoder_compute_budget s) (scheduled_spec_decode_tokens s)
    (req_index s) x (skipped_waiting_requests s).
Definition set_skipped_waiting_requests (x : Q) (s : Locals Q) : Locals Q :=
  mkLocals (scheduled_new_reqs s) (scheduled_resumed_reqs s) (scheduled_running_reqs s)
    (preempted_reqs s) (req_to_new_blocks s) (num_scheduled_tokens s) (token_budget s)
    (scheduled_encoder_inputs s) (encoder_compute_budget s) (scheduled_spec_decode_tokens s)
    (req_index s) (scheduled_loras s) x.
End writes.
