(* ===== verification/Scheduler.v ===== *)
(** The scheduler ([vllm/v1/core/sched/scheduler.py] and its subclass of
    [async_scheduler.py]): one pass over running and waiting requests, the update
    from the model's output, admission, abortion, preemption and the handling of
    KV transfers.

    A pass works on the pair of the scheduler and the local variables of
    [schedule]; the body of a [while] loop returns whether to go round again. The
    loops are bounded by the number of running and of waiting requests. A remote
    encoder cache is not configured. *)
From stdpp Require Import gmap strings list.
From Stdlib Require Import ZArith Lia.
From S2P Require Import Prelude Request RequestQueue EncoderCache BlockPool KVCacheManager SchedulerData.
Open Scope Z_scope.

Inductive flow := Continue | Break.

#[export] Instance request_inhabited : Inhabited Request.
Proof.
  exact (populate (mkRequest (mkArgs "" 0 0 0 0 None None None None None [] None None)
    0 0 false None WAITING [] None [] [] 0 false [] 0 0 0 0 0 [])).
Defined.

Section scheduler.
Context {Q : Type} `{RequestQueue Q} {K : Type} `{KVCache K} {X : Type} `{Collaborators X}.
Context (cfg : SchedulerConfig).
(** [block_hasher] of the requests. *)
Context (block_hasher : option (Request -> list (list Z))).

Notation Sched := (Scheduler Q K X).
Notation Pass := (Scheduler Q K X * Locals Q)%type.

(** ** Access to the parts of the state *)

Definition on_kv {A} (op : py K A) : py Sched A := py_zoom kv_cache_manager set_kv_cache_manager op.
Definition on_encoder {A} (op : py EncoderCacheManager A) : py Sched A :=
  py_zoom encoder_cache_manager set_encoder_cache_manager op.
Definition on_waiting {A} (op : py Q A) : py Sched A := py_zoom waiting set_waiting op.
Definition on_collaborators {A} (op : py X A) : py Sched A := py_zoom collaborators set_collaborators op.

(** The request object [o]; writing an attribute of it. *)
Definition object (s : Sched) (o : Z) : Request := objects s !!! o.
Definition get_object (o : Z) : py Sched Request := py_gets (fun s => object s o).
Definition write_object (o : Z) (f : Request -> Request) (s : Sched) : Sched :=
  set_objects (<[o := f (object s o)]> (objects s)) s.
Definition update_object (o : Z) (f : Request -> Request) : py Sched unit := py_modify (write_object o f).

Definition on_sched {A} (op : py Sched A) : py Pass A := py_zoom fst (fun s p => (s, p.2)) op.
Definition on_locals (f : Locals Q -> Locals Q) : py Pass unit := py_modify (fun p => (p.1, f p.2)).
Definition on_skipped {A} (op : py Q A) : py Pass A :=
  py_zoom (fun p => skipped_waiting_requests p.2) (fun q p => (p.1, set_skipped_waiting_requests q p.2)) op.
Definition get_locals {A} (f : Locals Q -> A) : py Pass A := py_gets (fun p => f p.2).

(** ** Preemption *)

Definition preempt_request (o timestamp : Z) : py Sched unit :=
  let! r := get_object o in
  do! py_assert (bool_decide (status r = RUNNING));
  do! on_kv (kc_free r);
  do! on_encoder (ec_free r);
  do! update_object o (fun r => set_num_preemptions (num_preemptions r + 1)
                                  (set_num_computed_tokens 0 (set_status PREEMPTED r)));
  do! (if scheduler_log_stats cfg then update_object o (record_event EV_PREEMPTED timestamp) else py_ret tt);
  on_waiting (prepend_request (args r)).

(** [max(self.running, key=lambda r: (r.priority, r.arrival_time))]: the first
    maximal one. *)
Definition later_key (a b : RequestArgs) : bool :=
  (priority b <? priority a) || ((priority a =? priority b) && (arrival_time b <? arrival_time a)).
Fixpoint max_request (s : Sched) (best : Z) (l : list Z) : Z :=
  match l with
  | [] => best
  | o :: l' =>
      max_request s (if later_key (args (object s o)) (args (object s best)) then o else best) l'
  end.

(** Undo the scheduling of a request that was scheduled earlier in the pass. *)
Definition unschedule (o : Z) : py Pass unit :=
  let! r := on_sched (get_object o) in
  let rid := request_id (args r) in
  let! l := get_locals id in
  do! on_locals (fun l => set_scheduled_running_reqs (list_remove_first o (scheduled_running_reqs l)) l);
  let! n := py_unwrap KeyError (dict_get rid (num_scheduled_tokens l)) in
  do! on_locals (fun l => set_token_budget (token_budget l + n) l);
  let! _ := py_unwrap KeyError (req_to_new_blocks l !! rid) in
  do! on_locals (fun l =>
    set_req_to_new_blocks (delete rid (req_to_new_blocks l))
   (set_num_scheduled_tokens (dict_del rid (num_scheduled_tokens l))
   (set_scheduled_spec_decode_tokens (delete rid (scheduled_spec_decode_tokens l))
   (set_scheduled_encoder_inputs (delete rid (scheduled_encoder_inputs l)) l))));
  do! (match scheduled_encoder_inputs l !! rid with
       | Some inputs =>
           let! ns := py_map (fun i => py_lift (get_num_encoder_tokens r i)) inputs in
           on_locals (fun l => set_encoder_compute_budget (encoder_compute_budget l + foldr Z.add 0 ns) l)
       | None => py_ret tt
       end);
  on_locals (fun l => set_req_index (req_index l - 1)%nat l).

(** The lowest-priority running request, taken from the running list. *)
Definition take_victim : py Pass Z :=
  let! s := on_sched py_get in
  match policy cfg with
  | PRIORITY =>
      match running s with
      | [] => py_raise ValueError
      | o :: l =>
          let victim := max_request s o l in
          do! on_sched (py_modify (set_running (list_remove_first victim (running s))));
          let! scheduled := get_locals scheduled_running_reqs in
          do! (if decide (victim ∈ scheduled) then unschedule victim else py_ret tt);
          py_ret victim
      end
  | FCFS =>
      match last (running s) with
      | None => py_raise IndexError
      | Some victim => do! on_sched (py_modify (set_running (removelast (running s)))); py_ret victim
      end
  end.

(** The [while True] loop around [allocate_slots]. *)
Fixpoint allocate_or_preempt (fuel : nat) (o num_new_tokens timestamp : Z) : py Pass (option KVCacheBlocks) :=
  match fuel with
  | 0%nat => py_raise Diverges
  | S fuel' =>
      let! r := on_sched (get_object o) in
      let! new_blocks := on_sched (on_kv
        (kc_allocate_slots r num_new_tokens 0 None (num_lookahead_tokens cfg) false 0)) in
      match new_blocks with
      | Some b => py_ret (Some b)
      | None =>
          let! victim := take_victim in
          do! on_sched (preempt_request victim timestamp);
          do! on_locals (fun l => set_preempted_reqs (preempted_reqs l ++ [victim]) l);
          if victim =? o then py_ret None else allocate_or_preempt fuel' o num_new_tokens timestamp
      end
  end.

(** ** Running requests *)

Definition shift_computed : Z := if use_eagle cfg then 1 else 0.
Definition clip_long_prefill (n : Z) : Z :=
  if (0 <? long_prefill_token_threshold cfg) && (long_prefill_token_threshold cfg <? n)
  then long_prefill_token_threshold cfg else n.

(** The encoder inputs of a request: nothing is planned for one without any. *)
Definition plan_encoder_inputs (r : Request) (num_computed num_new_tokens : Z)
    : py Pass (option (list nat) * Z * Z) :=
  let! budget := get_locals encoder_compute_budget in
  if has_encoder_inputs r then
    let! '(inputs, n, b) := on_sched (on_encoder (try_schedule_encoder_inputs (is_encoder_decoder cfg)
      (disable_chunked_mm_input cfg) r num_computed num_new_tokens budget shift_computed)) in
    py_ret (Some inputs, n, b)
  else py_ret (None, num_new_tokens, budget).

Definition commit_encoder_inputs (r : Request) (inputs : option (list nat)) (new_budget : Z) : py Pass unit :=
  match inputs with
  | Some ((_ :: _) as scheduled) =>
      do! on_locals (fun l => set_scheduled_encoder_inputs
                                (<[request_id (args r) := scheduled]> (scheduled_encoder_inputs l)) l);
      do! on_sched (on_encoder (py_for scheduled (allocate r)));
      on_locals (set_encoder_compute_budget new_budget)
  | _ => py_ret tt
  end.

(** Draft tokens that were scheduled are recorded; the request gives them up. *)
Definition schedule_spec_tokens (o num_new_tokens : Z) : py Pass unit :=
  let! r := on_sched (get_object o) in
  match spec_token_ids r with
  | [] => py_ret tt
  | spec =>
      let num_scheduled_spec_tokens :=
        num_new_tokens + num_computed_tokens r - num_tokens r - num_output_placeholders r in
      do! (if 0 <? num_scheduled_spec_tokens then
             on_locals (fun l => set_scheduled_spec_decode_tokens
               (<[request_id (args r) := take (Z.to_nat num_scheduled_spec_tokens) spec]>
                  (scheduled_spec_decode_tokens l)) l)
           else py_ret tt);
      on_sched (update_object o (set_spec_token_ids []))
  end.

(** Whether the previous step is known to have reached [max_tokens]. *)
Definition async_reached_max_tokens (r : Request) : bool :=
  (0 <? num_output_placeholders r) &&
  (num_prompt_tokens r + max_tokens r <=? num_computed_tokens r + 2 - num_output_placeholders r).

Definition num_new_tokens_running (r : Request) (budget : Z) : Z :=
  let n := clip_long_prefill (num_tokens_with_spec r + num_output_placeholders r - num_computed_tokens r) in
  Z.min (Z.min n budget) (max_model_len cfg - 1 - num_computed_tokens r).

Definition next_index : py Pass unit := on_locals (fun l => set_req_index (S (req_index l)) l).

Definition running_step (timestamp : Z) : py Pass flow :=
  let! i := get_locals req_index in
  let! running_now := on_sched (py_gets running) in
  let! o := py_unwrap IndexError (running_now !! i) in
  let! r := on_sched (get_object o) in
  if async_reached_max_tokens r then do! next_index; py_ret Continue else
  let! budget := get_locals token_budget in
  let! '(inputs, num_new_tokens, new_budget) :=
    plan_encoder_inputs r (num_computed_tokens r) (num_new_tokens_running r budget) in
  if num_new_tokens =? 0 then do! next_index; py_ret Continue else
  let! new_blocks := allocate_or_preempt (S (length running_now)) o num_new_tokens timestamp in
  match new_blocks with
  | None => py_ret Break
  | Some b =>
      let rid := request_id (args r) in
      do! on_locals (fun l =>
        set_scheduled_running_reqs (scheduled_running_reqs l ++ [o])
       (set_req_to_new_blocks (<[rid := b]> (req_to_new_blocks l))
       (set_num_scheduled_tokens (dict_set rid num_new_tokens (num_scheduled_tokens l))
       (set_token_budget (token_budget l - num_new_tokens) l))));
      do! next_index;
      do! schedule_spec_tokens o num_new_tokens;
      do! commit_encoder_inputs r inputs new_budget;
      py_ret Continue
  end.

Fixpoint running_loop (fuel : nat) (timestamp : Z) : py Pass unit :=
  let! '(s, l) := py_get in
  if (req_index l <? length (running s))%nat && (0 <? token_budget l) then
    match fuel with
    | 0%nat => py_raise Diverges
    | S fuel' =>
        let! f := running_step timestamp in
        match f with Continue => running_loop fuel' timestamp | Break => py_ret tt end
    end
  else py_ret tt.

(** The LoRAs of the running requests that were scheduled. *)
Definition record_loras : py Pass unit :=
  match max_loras cfg with
  | None => py_ret tt
  | Some m =>
      let! '(s, l) := py_get in
      let ids := omap (fun o => match lora_request (args (object s o)) with
                                | Some lr => if 0 <? lora_int_id lr then Some (lora_int_id lr) else None
                                | None => None
                                end) (scheduled_running_reqs l) in
      let loras : gset Z := list_to_set ids in
      do! on_locals (set_scheduled_loras loras);
      py_assert (Z.of_nat (size loras) <=? m)
  end.

(** ** Waiting requests *)

(** [_update_waiting_for_remote_kv] *)
Definition update_waiting_for_remote_kv (o : Z) : py Sched bool :=
  do! py_assert has_connector;
  let! r := get_object o in
  let rid := request_id (args r) in
  let! s := py_get in
  if negb (bool_decide (rid ∈ finished_recving_kv_req_ids s)) then py_ret false else
  do! (if decide (rid ∈ failed_recving_kv_req_ids s) then
         do! (if negb (num_computed_tokens r =? 0)
              then on_kv (kc_cache_blocks r (num_computed_tokens r))
              else on_kv (kc_free r));
         py_modify (fun s => set_failed_recving_kv_req_ids (failed_recving_kv_req_ids s ∖ {[rid]}) s)
       else
         let! rows := on_kv (kc_get_block_ids rid) in
         match rows with
         | [block_ids] =>
             let n := Z.min (Z.of_nat (length block_ids) * scheduler_block_size cfg) (num_tokens r) in
             let n := if n =? num_tokens r then n - 1 else n in
             do! on_kv (kc_cache_blocks r n);
             update_object o (set_num_computed_tokens n)
         | _ => py_raise ValueError
         end);
  do! py_modify (fun s => set_finished_recving_kv_req_ids (finished_recving_kv_req_ids s ∖ {[rid]}) s);
  py_ret true.

Definition skip_request (a : RequestArgs) : py Pass flow :=
  do! on_sched (on_waiting pop_request);
  do! on_skipped (prepend_request a);
  py_ret Continue.

(** Whether the request at the head may be scheduled now; statuses that wait for
    something become WAITING when it is there. *)
Definition waiting_ready (a : RequestArgs) : py Pass bool :=
  let o := obj_id a in
  let! r := on_sched (get_object o) in
  let! ready := (if decide (status r = WAITING_FOR_REMOTE_KVS) then
      let! is_ready := on_sched (update_waiting_for_remote_kv o) in
      do! (if (is_ready : bool) then on_sched (update_object o (set_status WAITING)) else py_ret tt);
      py_ret is_ready
    else py_ret true) in
  if negb ready then py_ret false else
  let! r := on_sched (get_object o) in
  let! x := on_sched (py_gets collaborators) in
  let! ready := (if decide (status r = WAITING_FOR_FSM) then
      if grammar_ready r x then do! on_sched (update_object o (set_status WAITING)); py_ret true
      else py_ret false
    else py_ret true) in
  if negb ready then py_ret false else
  let! loras := get_locals scheduled_loras in
  py_ret (match max_loras cfg, lora_request a with
          | Some m, Some lr =>
              negb ((Z.of_nat (size loras) =? m) && negb (bool_decide (lora_int_id lr ∈ loras)))
          | _, _ => true
          end).

(** Cached tokens of a waiting request: the hit blocks, the number of local and of
    external tokens, the total, and whether the load is asynchronous; None when the
    connector cannot tell yet. *)
Definition computed_tokens_of (o : Z) : py Pass (option (KVCacheBlocks * Z * Z * Z * bool)) :=
  let! r := on_sched (get_object o) in
  if num_computed_tokens r =? 0 then
    let! '(blocks, local) := on_sched (on_kv (kc_get_computed_blocks r)) in
    if has_connector then
      let! '(ext, load_kv_async) := on_sched (on_collaborators (get_num_new_matched_tokens r local)) in
      match ext with
      | None => py_ret None
      | Some e =>
          do! on_sched (update_object o (set_num_external e));
          py_ret (Some (blocks, local, e, local + e, load_kv_async))
      end
    else py_ret (Some (blocks, local, 0, local + 0, false))
  else py_ret (Some (EmptyBlocks, 0, 0, num_computed_tokens r, false)).

(** [_update_connector_prefix_cache_stats] *)
Definition update_connector_prefix_cache_stats (r : Request) : py Sched unit :=
  let! s := py_get in
  match connector_prefix_cache_stats s with
  | None => py_ret tt
  | Some st => py_modify (set_connector_prefix_cache_stats (Some
      (stats_record (num_tokens r) (num_external_computed_tokens r) (0 <? num_preemptions r) st)))
  end.

(** The request has its slots: it leaves the queue and joins the running ones. *)
Definition admit_request (a : RequestArgs) (num_new_tokens num_computed timestamp : Z)
    (inputs : option (list nat)) (new_budget : Z) : py Pass unit :=
  let o := obj_id a in
  let! r := on_sched (get_object o) in
  do! on_sched (update_connector_prefix_cache_stats r);
  do! next_index;
  do! on_sched (py_modify (fun s => set_running (running s ++ [o]) s));
  do! (if scheduler_log_stats cfg then on_sched (update_object o (record_event SCHEDULED timestamp)) else py_ret tt);
  do! (match status r with
       | WAITING => on_locals (fun l => set_scheduled_new_reqs (scheduled_new_reqs l ++ [o]) l)
       | PREEMPTED => on_locals (fun l => set_scheduled_resumed_reqs (scheduled_resumed_reqs l ++ [o]) l)
       | _ => py_raise RuntimeError
       end);
  do! (match max_loras cfg, lora_request a with
       | Some _, Some lr => on_locals (fun l => set_scheduled_loras ({[lora_int_id lr]} ∪ scheduled_loras l) l)
       | _, _ => py_ret tt
       end);
  let! blocks := on_sched (on_kv (kc_get_blocks (request_id a))) in
  do! on_locals (fun l =>
    set_req_to_new_blocks (<[request_id a := blocks]> (req_to_new_blocks l))
   (set_num_scheduled_tokens (dict_set (request_id a) num_new_tokens (num_scheduled_tokens l))
   (set_token_budget (token_budget l - num_new_tokens) l)));
  do! on_sched (update_object o (fun r =>
    let r := set_num_computed_tokens num_computed (set_status RUNNING r) in
    if num_cached_tokens r <? 0 then set_num_cached_tokens num_computed r else r));
  commit_encoder_inputs r inputs new_budget.

(** Tokens to schedule for a waiting request; None ends the loop. *)
Definition plan_waiting (r : Request) (num_computed ext : Z) (load_kv_async : bool)
    : py Pass (option (option (list nat) * Z * Z)) :=
  let! enc_budget := get_locals encoder_compute_budget in
  if load_kv_async then do! py_assert (0 <? ext); py_ret (Some (None, 0, enc_budget)) else
  let! budget := get_locals token_budget in
  let n := clip_long_prefill (num_tokens r - num_computed) in
  if negb (enable_chunked_prefill cfg) && (budget <? n) then py_ret None else
  let n := Z.min n budget in
  do! py_assert (0 <? n);
  let! '(inputs, n, b) := plan_encoder_inputs r num_computed n in
  if has_encoder_inputs r && (n =? 0) then py_ret None else py_ret (Some (inputs, n, b)).

Definition waiting_step (timestamp : Z) : py Pass flow :=
  let! a := on_sched (on_waiting peek_request) in
  let o := obj_id a in
  let! ready := waiting_ready a in
  if negb ready then skip_request a else
  let! found := computed_tokens_of o in
  match found with
  | None => skip_request a
  | Some (blocks, local, ext, num_computed, load_kv_async) =>
      let! r := on_sched (get_object o) in
      let! plan := plan_waiting r num_computed ext load_kv_async in
      match plan with
      | None => py_ret Break
      | Some (inputs, num_new_tokens, new_budget) =>
          let lookahead := if num_computed_tokens r =? 0 then 0 else num_lookahead_tokens cfg in
          let num_encoder_tokens :=
            if is_encoder_decoder cfg && has_encoder_inputs r then cfg_max_num_encoder_input_tokens cfg else 0 in
          let! new_blocks := on_sched (on_kv (kc_allocate_slots r (num_new_tokens + ext) local (Some blocks)
            lookahead load_kv_async num_encoder_tokens)) in
          match new_blocks with
          | None => py_ret Break
          | Some b =>
              do! (if has_connector then
                     let! k := on_sched (py_gets kv_cache_manager) in
                     on_sched (on_collaborators (update_state_after_alloc r (kc_blocks_add k blocks b) ext))
                   else py_ret tt);
              do! on_sched (on_waiting pop_request);
              if (load_kv_async : bool) then
                do! on_skipped (prepend_request a);
                do! on_sched (update_object o (set_status WAITING_FOR_REMOTE_KVS));
                py_ret Continue
              else
                do! admit_request a num_new_tokens num_computed timestamp inputs new_budget;
                py_ret Continue
          end
      end
  end.

Fixpoint waiting_loop (fuel : nat) (timestamp : Z) : py Pass unit :=
  let! '(s, l) := py_get in
  if rq_bool (waiting s) && (0 <? token_budget l) then
    if Z.of_nat (length (running s)) =? max_num_running_reqs cfg then py_ret tt else
    match fuel with
    | 0%nat => py_raise Diverges
    | S fuel' =>
        let! f := waiting_step timestamp in
        match f with Continue => waiting_loop fuel' timestamp | Break => py_ret tt end
    end
  else py_ret tt.

(** ** The output of a pass *)

(** [_make_cached_request_data], one request at a time; [resumed] from position
    [num_running_reqs] on. *)
Fixpoint make_cached (l : Locals Q) (reqs : list (Z * bool)) (acc : CachedRequestData)
    : py Sched CachedRequestData :=
  match reqs with
  | [] => py_ret acc
  | (o, resumed) :: reqs' =>
      let! s := py_get in
      let r := object s o in
      let rid := request_id (args r) in
      let! new_token_ids :=
        (if use_pp cfg then
           let! n := py_unwrap KeyError (dict_get rid (num_scheduled_tokens l)) in
           let n := n - Z.of_nat (length (default [] (scheduled_spec_decode_tokens l !! rid))) in
           let start := Z.to_nat (num_computed_tokens r) in
           py_ret (cr_new_token_ids acc ++
                     [take (Z.to_nat (num_computed_tokens r + n) - start) (drop start (all_token_ids r))])
         else py_ret (cr_new_token_ids acc)) in
      let scheduled_in_prev_step := bool_decide (rid ∈ prev_step_scheduled_req_ids s) in
      do! (if (resumed : bool) then py_assert (negb scheduled_in_prev_step) else py_ret tt);
      let! blocks := py_unwrap KeyError (req_to_new_blocks l !! rid) in
      make_cached l reqs' (mkCachedRequestData
        (cr_req_ids acc ++ [rid])
        (if resumed then {[rid]} ∪ cr_resumed_req_ids acc else cr_resumed_req_ids acc)
        new_token_ids
        (if scheduled_in_prev_step then cr_all_token_ids acc
         else dict_set rid (all_token_ids r) (cr_all_token_ids acc))
        (cr_new_block_ids acc ++ [kc_block_ids (kv_cache_manager s) true blocks])
        (cr_num_computed_tokens acc ++ [num_computed_tokens r])
        (cr_num_output_tokens acc ++ [num_output_tokens r + num_output_placeholders r]))
  end.
Definition make_cached_request_data (l : Locals Q) (running_reqs resumed_reqs : list Z)
    : py Sched CachedRequestData :=
  make_cached l (map (fun o => (o, false)) running_reqs ++ map (fun o => (o, true)) resumed_reqs)
    (mkCachedRequestData [] ∅ [] [] [] [] []).

Definition make_new_request_data (l : Locals Q) (with_prefill : bool) (o : Z) : py Sched NewRequestData :=
  let! s := py_get in
  let r := object s o in
  let! blocks := py_unwrap KeyError (req_to_new_blocks l !! request_id (args r)) in
  py_ret (from_request r (default [] (kc_block_ids (kv_cache_manager s) false blocks))
            (if with_prefill then Some (all_token_ids r) else None)).

(** [_update_after_schedule] *)
Definition advance_request (e : string * Z) : py Sched unit :=
  let '(req_id, n) := e in
  let! s := py_get in
  let! o := py_unwrap KeyError (requests s !! req_id) in
  do! update_object o (fun r => set_num_computed_tokens (num_computed_tokens r + n) r);
  let! r := get_object o in
  if has_encoder_inputs r then on_encoder (free_encoder_inputs (is_encoder_decoder cfg) r) else py_ret tt.
Definition base_update_after_schedule (out : SchedulerOutput) : py Sched unit :=
  do! py_for (so_num_scheduled_tokens out) advance_request;
  py_modify (set_finished_req_ids ∅).

(** [AsyncScheduler._update_after_schedule]: placeholders for the tokens the step
    will produce. *)
Fixpoint add_placeholders (out : SchedulerOutput) (req_ids : list string) (pending : bool) : py Sched bool :=
  match req_ids with
  | [] => py_ret pending
  | req_id :: req_ids' =>
      let! s := py_get in
      let! o := py_unwrap KeyError (requests s !! req_id) in
      let! r := get_object o in
      let pending := pending || (use_structured_output r && (0 <? num_output_placeholders r)) in
      let cur := Z.of_nat (length (default [] (so_scheduled_spec_decode_tokens out !! req_id))) in
      do! (if num_computed_tokens r =? num_tokens r + num_output_placeholders r + cur then
             update_object o (fun r => set_spec_token_ids (replicate (Z.to_nat (num_spec_tokens cfg)) (-1))
               (set_num_output_placeholders (num_output_placeholders r + (1 + cur)) r))
           else py_ret tt);
      add_placeholders out req_ids' pending
  end.
Definition set_pending (b : bool) (o : SchedulerOutput) : SchedulerOutput :=
  mkSchedulerOutput (so_scheduled_new_reqs o) (so_scheduled_cached_reqs o) (so_num_scheduled_tokens o)
    (so_total_num_scheduled_tokens o) (so_scheduled_spec_decode_tokens o) (so_scheduled_encoder_inputs o)
    (so_num_common_prefix_blocks o) (so_preempted_req_ids o) (so_finished_req_ids o)
    (so_free_encoder_mm_hashes o) b.
Definition update_after_schedule (out : SchedulerOutput) : py Sched SchedulerOutput :=
  do! base_update_after_schedule out;
  if async_scheduling cfg then
    let! pending := add_placeholders out (map fst (so_num_scheduled_tokens out)) false in
    py_ret (set_pending pending out)
  else py_ret out.

(** ** [schedule] *)

Definition init_locals : Locals Q :=
  mkLocals [] [] [] [] ∅ [] (max_num_scheduled_tokens cfg) ∅ (max_num_encoder_input_tokens cfg) ∅ 0 ∅ rq_new.

Definition put_back : py Pass unit :=
  let! skipped := get_locals skipped_waiting_requests in
  if rq_bool skipped then on_sched (on_waiting (prepend_requests skipped)) else py_ret tt.

(** The two loops. *)
Definition schedule_requests (timestamp : Z) : py Pass unit :=
  let! n := on_sched (py_gets (fun s => length (running s))) in
  do! running_loop n timestamp;
  do! record_loras;
  let! preempted := get_locals preempted_reqs in
  do! (match preempted with
       | [] =>
           let! n := on_sched (py_gets (fun s => rq_len (waiting s))) in
           waiting_loop n timestamp
       | _ => py_ret tt
       end);
  put_back.

(** What follows them: the checks, the message to the model runner, and the
    bookkeeping. *)
Definition finish_pass (l : Locals Q) : py Sched SchedulerOutput :=
  let! s := py_get in
  let total := foldr (fun e acc => e.2 + acc) 0 (num_scheduled_tokens l) in
  do! py_assert (total <=? max_num_scheduled_tokens cfg);
  do! py_assert (0 <=? token_budget l);
  do! py_assert (Z.of_nat (length (running s)) <=? max_num_running_reqs cfg);
  do! py_assert (Z.of_nat (length (scheduled_new_reqs l) + length (scheduled_resumed_reqs l)
                   + length (scheduled_running_reqs l)) <=? Z.of_nat (length (running s)));
  let! common :=
    (match running s with
     | [] => py_ret (replicate (num_kv_groups cfg) 0)
     | o :: _ => on_kv (kc_get_num_common_prefix_blocks (request_id (args (object s o))))
     end) in
  let v2 := use_v2_model_runner cfg in
  let new_reqs := if v2 then scheduled_new_reqs l ++ scheduled_resumed_reqs l else scheduled_new_reqs l in
  let resumed_reqs := if v2 then [] else scheduled_resumed_reqs l in
  let! new_reqs_data := py_map (make_new_request_data l v2) new_reqs in
  let! cached_reqs_data := make_cached_request_data l (scheduled_running_reqs l) resumed_reqs in
  do! py_modify (set_prev_step_scheduled_req_ids (list_to_set (map fst (num_scheduled_tokens l))));
  let! freed := on_encoder get_freed_mm_hashes in
  let out := mkSchedulerOutput new_reqs_data cached_reqs_data (num_scheduled_tokens l) total
    (scheduled_spec_decode_tokens l) (scheduled_encoder_inputs l) common
    (list_to_set (map (fun o => request_id (args (object s o))) (preempted_reqs l)))
    (finished_req_ids s) freed false in
  do! (if has_connector then on_collaborators (build_connector_meta out) else py_ret tt);
  update_after_schedule out.

Definition schedule (timestamp : Z) : py Sched SchedulerOutput := fun s =>
  match schedule_requests timestamp (s, init_locals) with
  | Ret _ (s', l) => finish_pass l s'
  | Raise e (s', _) => Raise e s'
  end.

(** ** Release *)

(** [_connector_finished]: whether the blocks stay until they are sent, and the
    transfer parameters for the client. *)
Definition connector_finished (o : Z) : py Sched (bool * option Z) :=
  if negb has_connector then py_ret (false, None) else
  let! r := get_object o in
  let! rows := on_kv (kc_get_block_ids (request_id (args r))) in
  if supports_hma then on_collaborators (request_finished r rows)
  else
    do! py_assert (num_kv_groups cfg =? 1)%nat;
    let! row := py_unwrap IndexError (head rows) in
    on_collaborators (request_finished r [row]).

(** [_free_blocks] *)
Definition free_blocks (o : Z) : py Sched unit :=
  let! r := get_object o in
  do! py_assert (is_finished r);
  do! on_kv (kc_free r);
  let! s := py_get in
  let! _ := py_unwrap KeyError (requests s !! request_id (args r)) in
  py_modify (fun s => set_requests (delete (request_id (args r)) (requests s)) s).

(** [_free_request] *)
Definition free_request (o : Z) : py Sched (option Z) :=
  let! r := get_object o in
  do! py_assert (is_finished r);
  let! '(delay_free_blocks, kv_xfer_params) := connector_finished o in
  do! on_encoder (ec_free r);
  let rid := request_id (args r) in
  do! py_modify (fun s => set_finished_req_ids ({[rid]} ∪ finished_req_ids s) s);
  do! py_modify (fun s => match finished_req_ids_dict s with
    | None => s
    | Some d => set_finished_req_ids_dict
        (Some (dict_set (client_index (args r)) ({[rid]} ∪ default ∅ (dict_get (client_index (args r)) d)) d)) s
    end);
  do! (if (delay_free_blocks : bool) then py_ret tt else free_blocks o);
  py_ret kv_xfer_params.

(** ** The model's output *)

(** [make_spec_decoding_stats], with [observe_draft]. *)
Definition observe_draft (num_draft_tokens num_accepted : Z) (st : SpecDecodingStats)
    : exn + SpecDecodingStats :=
  let n := Z.to_nat num_accepted in
  if negb (num_accepted <=? sd_num_spec_tokens st) then inl AssertionError
  else if (n <=? length (sd_num_accepted_tokens_per_pos st))%nat then
    inr (mkSpecDecodingStats (sd_num_spec_tokens st) (sd_num_drafts st + 1)
           (sd_num_draft_tokens st + num_draft_tokens) (sd_num_accepted_tokens st + num_accepted)
           (map (Z.add 1) (take n (sd_num_accepted_tokens_per_pos st))
              ++ drop n (sd_num_accepted_tokens_per_pos st)))
  else inl IndexError.
Definition make_spec_decoding_stats (st : option SpecDecodingStats) (num_draft_tokens num_accepted : Z)
    : exn + option SpecDecodingStats :=
  if negb (scheduler_log_stats cfg) then inr None else
  let st := default (mkSpecDecodingStats (num_spec_tokens cfg) 0 0 0
                       (replicate (Z.to_nat (num_spec_tokens cfg)) 0)) st in
  match observe_draft num_draft_tokens num_accepted st with inl e => inl e | inr st => inr (Some st) end.

(** The local variables of [update_from_output]. *)
Record UpdateLocals := mkUpdateLocals {
  outputs : list (Z * list EngineCoreOutput); (** client -> outputs *)
  spec_decoding_stats : option SpecDecodingStats;
  stopped_running_reqs : gset Z;
  stopped_preempted_reqs : gset Z
}.
Notation Update := (Scheduler Q K X * UpdateLocals)%type.
Definition upd {A} (op : py Sched A) : py Update A := py_zoom fst (fun s p => (s, p.2)) op.
Definition upd_locals (f : UpdateLocals -> UpdateLocals) : py Update unit := py_modify (fun p => (p.1, f p.2)).

(** [_update_request_with_output] of the base class and of [AsyncScheduler]. *)
Definition update_request (o : Z) (new_token_ids : list Z) : py Sched (list Z * bool) :=
  let! r := get_object o in
  let! '(r', res) := py_lift (update_request_with_output block_hasher (max_model_len cfg) r new_token_ids) in
  do! update_object o (fun _ => r');
  py_ret res.
Definition async_update_request (o : Z) (new_token_ids : list Z) : py Sched (list Z * bool) :=
  let! r := get_object o in
  if discard_latest_async_tokens r then
    do! update_object o (set_discard false);
    py_ret ([], false)
  else
    let! '(kept, stopped) := update_request o new_token_ids in
    do! update_object o (fun r => set_num_output_placeholders
                                    (num_output_placeholders r - Z.of_nat (length kept)) r);
    let! r' := get_object o in
    do! py_assert (0 <=? num_output_placeholders r');
    do! (if decide (status r = RUNNING)
         then on_kv (kc_cache_blocks r' (num_computed_tokens r' - num_output_placeholders r'))
         else py_ret tt);
    py_ret (kept, stopped).

(** Rejected draft tokens are taken back. *)
Definition reject_drafts (o : Z) (scheduled_spec_token_ids : list Z) (num_generated : Z) : py Update unit :=
  let num_draft_tokens := Z.of_nat (length scheduled_spec_token_ids) in
  let num_accepted := num_generated - 1 in
  let num_rejected := num_draft_tokens - num_accepted in
  do! upd (update_object o (fun r =>
    let r := if 0 <? num_computed_tokens r
             then set_num_computed_tokens (num_computed_tokens r - num_rejected) r else r in
    if 0 <? num_output_placeholders r
    then set_num_output_placeholders (num_output_placeholders r - num_rejected) r else r));
  let! st := py_gets (fun p => spec_decoding_stats p.2) in
  let! st := py_lift (make_spec_decoding_stats st num_draft_tokens num_accepted) in
  upd_locals (fun l => mkUpdateLocals (outputs l) st (stopped_running_reqs l) (stopped_preempted_reqs l)).

(** A request that stopped is released and noted for removal from its queue. *)
Definition stop_request (o : Z) (status_before_stop : RequestStatus) : py Update (option Z) :=
  let! kv := upd (free_request o) in
  do! upd_locals (fun l =>
    if decide (status_before_stop = RUNNING)
    then mkUpdateLocals (outputs l) (spec_decoding_stats l) ({[o]} ∪ stopped_running_reqs l) (stopped_preempted_reqs l)
    else mkUpdateLocals (outputs l) (spec_decoding_stats l) (stopped_running_reqs l) ({[o]} ∪ stopped_preempted_reqs l));
  py_ret kv.

Definition emit_output (client : Z) (e : EngineCoreOutput) : py Update unit :=
  upd_locals (fun l => mkUpdateLocals
    (dict_set client (default [] (dict_get client (outputs l)) ++ [e]) (outputs l))
    (spec_decoding_stats l) (stopped_running_reqs l) (stopped_preempted_reqs l)).

(** The end of the loop body: the grammar advances, and the client is told the new
    tokens and what ended. *)
Definition report_live (runner : ModelRunnerOutput) (req_id : string) (o : Z) (new_token_ids : list Z)
    (pooled kv_transfer : option Z) : py Update unit :=
  let! r := upd (get_object o) in
  let! x := upd (py_gets collaborators) in
  do! (if negb (bool_decide (new_token_ids = [])) && should_advance r x then
         do! py_assert (use_structured_output r);
         do! py_assert (grammar_ready r x);
         upd (on_collaborators (accept_tokens r new_token_ids))
       else py_ret tt);
  do! (match runner_num_nans_in_logits runner with
       | Some d => match d !! req_id with
                   | Some n => upd (update_object o (set_num_nans n))
                   | None => py_ret tt
                   end
       | None => py_ret tt
       end);
  let prompt_logprobs := prompt_logprobs_dict runner !! req_id in
  let emits : bool := negb (bool_decide (new_token_ids = [])) || bool_decide (is_Some pooled) || bool_decide (is_Some kv_transfer) in
  if emits then
    let! r := upd (get_object o) in
    let '(evs, r') := take_events r in
    do! upd (update_object o (fun _ => r'));
    emit_output (client_index (args r)) (mkEngineCoreOutput req_id new_token_ids (get_finished_reason r)
      prompt_logprobs pooled (stop_reason r) evs kv_transfer (num_cached_tokens r) (num_nans_in_logits r))
  else py_assert (bool_decide (prompt_logprobs = None)).

(** The body of the loop over the scheduled requests, for a live request [o]. *)
Definition update_live (out : SchedulerOutput) (runner : ModelRunnerOutput) (req_id : string) (o : Z)
    : py Update unit :=
  let! req_index := py_unwrap KeyError (req_id_to_index runner !! req_id) in
  let! generated := (match sampled_token_ids runner with
                     | [] => py_ret []
                     | l => py_unwrap IndexError (l !! req_index)
                     end) in
  do! (match so_scheduled_spec_decode_tokens out !! req_id with
       | Some ((_ :: _) as spec) => reject_drafts o spec (Z.of_nat (length generated))
       | _ => py_ret tt
       end);
  let! status_before_stop := upd (py_gets (fun s => status (object s o))) in
  let! '(new_token_ids, stopped) :=
    (match generated with
     | [] => py_ret ([], false)
     | _ => upd (if async_scheduling cfg then async_update_request o generated else update_request o generated)
     end) in
  let! '(pooled, stopped) :=
    (match pooler_output runner with
     | [] => py_ret (None, stopped)
     | l =>
         let! pooled := py_unwrap IndexError (l !! req_index) in
         let! r := upd (get_object o) in
         let! '(r', stopped) := py_lift (check_stop (max_model_len cfg) pooled r) in
         do! upd (update_object o (fun _ => r'));
         py_ret (pooled, stopped)
     end) in
  let! kv_transfer := (if (stopped : bool) then stop_request o status_before_stop else py_ret None) in
  report_live runner req_id o new_token_ids pooled kv_transfer.

Definition update_one (out : SchedulerOutput) (runner : ModelRunnerOutput) (failed : gset string)
    (e : string * Z) : py Update unit :=
  let '(req_id, num_tokens_scheduled) := e in
  do! py_assert (0 <? num_tokens_scheduled);
  if decide (req_id ∈ failed) then py_ret tt else
  let! s := upd py_get in
  match requests s !! req_id with
  | None => py_ret tt
  | Some o => update_live out runner req_id o
  end.

(** *** KV transfers *)

(** The loop over the blocks of one request in
    [_update_requests_with_invalid_blocks]: the blocks marked so far, whether the
    request is affected, whether it marked one, and the tokens to recompute. *)
Fixpoint scan_blocks (o computed : Z) (invalid : gset Z) (idx : Z) (blocks : list Z)
    (acc : gset Z * bool * bool * Z) : py Sched (gset Z * bool * bool * Z) :=
  match blocks with
  | [] => py_ret acc
  | b :: blocks' =>
      let '(marked, affected, marked_one, total) := acc in
      if negb (bool_decide (b ∈ invalid)) then scan_blocks o computed invalid (idx + 1) blocks' acc
      else if decide (b ∈ marked) then scan_blocks o computed invalid (idx + 1) blocks' (marked, true, marked_one, total)
      else if (marked_one : bool) then
        scan_blocks o computed invalid (idx + 1) blocks' ({[b]} ∪ marked, true, true, total)
      else
        let n := idx * scheduler_block_size cfg in
        do! update_object o (fun r => set_num_external (num_external_computed_tokens r - (computed - n))
                                        (set_num_computed_tokens n r));
        scan_blocks o computed invalid (idx + 1) blocks' ({[b]} ∪ marked, true, true, total + (computed - n))
  end.

Fixpoint update_requests_with_invalid_blocks (reqs : list Z) (invalid marked : gset Z)
    (affected_ids : gset string) (total : Z) : py Sched (gset string * Z) :=
  match reqs with
  | [] => py_ret (affected_ids, total)
  | o :: reqs' =>
      let! s := py_get in
      let r := object s o in
      let rid := request_id (args r) in
      let! rows := on_kv (kc_get_block_ids rid) in
      match rows with
      | [ids] =>
          let computed :=
            if decide (status r = WAITING_FOR_REMOTE_KVS) then
              if decide (rid ∈ failed_recving_kv_req_ids s) then num_computed_tokens r
              else Z.of_nat (length ids) * scheduler_block_size cfg
            else num_cached_tokens r in
          let num_blocks := (computed + scheduler_block_size cfg - 1) / scheduler_block_size cfg in
          let! '(marked, affected, marked_one, total) :=
            scan_blocks o computed invalid 0 (take (Z.to_nat num_blocks) ids) (marked, false, false, total) in
          let! r := get_object o in
          let total' := if affected && negb marked_one
                        then total + (num_computed_tokens r - num_cached_tokens r) else total in
          do! (if affected && negb marked_one
               then update_object o (set_num_computed_tokens (num_cached_tokens r)) else py_ret tt);
          update_requests_with_invalid_blocks reqs' invalid marked
            (if affected then {[rid]} ∪ affected_ids else affected_ids) total'
      | _ => py_raise ValueError
      end
  end.

(** [_handle_invalid_blocks] *)
Definition handle_invalid_blocks (invalid : gset Z) : py Sched (gset string) :=
  let! s := py_get in
  let async_load_reqs := List.filter (fun o => bool_decide (status (object s o) = WAITING_FOR_REMOTE_KVS))
                           (map obj_id (rq_iter (waiting s))) in
  let! '(async_affected, _) := update_requests_with_invalid_blocks async_load_reqs invalid ∅ ∅ 0 in
  do! py_modify (fun s => set_failed_recving_kv_req_ids (failed_recving_kv_req_ids s ∪ async_affected) s);
  let! s := py_get in
  let! '(sync_affected, _) := update_requests_with_invalid_blocks (running s) invalid ∅ ∅ 0 in
  py_ret sync_affected.

(** [_update_from_kv_xfer_finished] *)
Definition update_from_kv_xfer_finished (out : KVConnectorOutput) : py Sched unit :=
  do! (if has_connector then on_collaborators (update_connector_output out) else py_ret tt);
  do! py_modify (fun s => set_finished_recving_kv_req_ids
                            (finished_recving_kv_req_ids s ∪ list_to_set (finished_recving out)) s);
  py_for (finished_sending out) (fun req_id =>
    let! s := py_get in
    let! o := py_unwrap AssertionError (requests s !! req_id) in
    free_blocks o).

(** *** Statistics and results *)

(** [make_stats] *)
Definition make_stats (spec : option SpecDecodingStats) : py Sched (option SchedulerStats) :=
  if negb (scheduler_log_stats cfg) then py_ret None else
  let! prefix := on_kv kc_make_prefix_cache_stats in
  let! prefix := py_unwrap AssertionError prefix in
  let! s := py_get in
  do! (match connector_prefix_cache_stats s with
       | Some _ => py_modify (set_connector_prefix_cache_stats (Some fresh_stats))
       | None => py_ret tt
       end);
  py_ret (Some (mkSchedulerStats (Z.of_nat (length (running s))) (Z.of_nat (rq_len (waiting s))) prefix
                  (connector_prefix_cache_stats s) spec)).

(** Finished request ids are added to the outputs of their clients. *)
Definition add_finished (finished : list (Z * gset string)) (d : list (Z * EngineCoreOutputs))
    : list (Z * EngineCoreOutputs) :=
  fold_left (fun d e =>
    let eco := default (mkEngineCoreOutputs [] None None) (dict_get e.1 d) in
    dict_set e.1 (mkEngineCoreOutputs (eco_outputs eco) (Some e.2) (eco_scheduler_stats eco)) d) finished d.

Definition add_stats (stats : option SchedulerStats) (d : list (Z * EngineCoreOutputs))
    : list (Z * EngineCoreOutputs) :=
  match stats with
  | None => d
  | Some _ =>
      match d with
      | [] => [(0, mkEngineCoreOutputs [] None stats)]
      | (c, eco) :: d' => (c, mkEngineCoreOutputs (eco_outputs eco) (eco_finished_requests eco) stats) :: d'
      end
  end.

(** What [update_from_output] does after its loop. The stopped requests leave their
    queues, transfers are noted and KV events collected. *)
Definition collect_events (runner : ModelRunnerOutput) (l : UpdateLocals) : py Sched (list KVCacheEvent) :=
  do! (if decide (stopped_running_reqs l = ∅) then py_ret tt
       else py_modify (fun s => set_running (remove_all (running s) (stopped_running_reqs l)) s));
  do! (if decide (stopped_preempted_reqs l = ∅) then py_ret tt
       else let! s := py_get in
            on_waiting (remove_requests (map (fun o => args (object s o)) (elements (stopped_preempted_reqs l)))));
  do! (match kv_connector_output runner with Some c => update_from_kv_xfer_finished c | None => py_ret tt end);
  let! events := on_kv kc_take_events in
  let! connector_events := (if has_connector then on_collaborators connector_take_events else py_ret []) in
  py_ret (events ++ connector_events).
(** The outputs of the clients are completed with the finished ids and the statistics. *)
Definition client_outputs (l : UpdateLocals) : py Sched (list (Z * EngineCoreOutputs)) :=
  let result := map (fun e => (e.1, mkEngineCoreOutputs e.2 None None)) (outputs l) in
  let! s := py_get in
  let result := add_finished (default [] (finished_req_ids_dict s)) result in
  do! (match finished_req_ids_dict s with
       | Some _ => py_modify (set_finished_req_ids_dict (Some []))
       | None => py_ret tt
       end);
  let! stats := make_stats (spec_decoding_stats l) in
  py_ret (add_stats stats result).
Definition close_update (runner : ModelRunnerOutput) (l : UpdateLocals)
    : py Sched (list (Z * EngineCoreOutputs) * list KVCacheEvent) :=
  let! events := collect_events runner l in
  let! result := client_outputs l in
  py_ret (result, events).

(** A loop over the scheduled requests, with its local variables. *)
Definition update_loop (out : SchedulerOutput) (body : string * Z -> py Update unit) : py Sched UpdateLocals := fun s =>
  match py_for (so_num_scheduled_tokens out) body (s, mkUpdateLocals [] None ∅ ∅) with
  | Ret _ (s', l) => Ret l s'
  | Raise e (s', _) => Raise e s'
  end.

(** [update_from_output]: the outputs per client, and the KV events published. *)
Definition failed_loads (runner : ModelRunnerOutput) : py Sched (gset string) :=
  match kv_connector_output runner with
  | Some c => if decide (invalid_block_ids c = ∅) then py_ret ∅ else handle_invalid_blocks (invalid_block_ids c)
  | None => py_ret ∅
  end.
Definition update_from_output (out : SchedulerOutput) (runner : ModelRunnerOutput)
    : py Sched (list (Z * EngineCoreOutputs) * list KVCacheEvent) :=
  let! failed := failed_loads runner in
  let! l := update_loop out (update_one out runner failed) in
  close_update runner l.

(** [update_draft_token_ids] *)
Definition update_draft_token_ids (drafts : list (string * list Z)) : py Sched unit :=
  py_for drafts (fun '(req_id, spec) =>
    let! s := py_get in
    match requests s !! req_id with
    | None => py_ret tt
    | Some o =>
        let r := object s o in
        if is_finished r then py_ret tt
        else if should_advance r (collaborators s) then
          let! spec := on_collaborators (validate_tokens r spec) in
          update_object o (set_spec_token_ids spec)
        else update_object o (set_spec_token_ids spec)
    end).

(** [get_grammar_bitmask] *)
Definition get_grammar_bitmask (out : SchedulerOutput) : py Sched (option (list string * Z)) :=
  let! s := py_get in
  let ids := List.filter (fun req_id => match requests s !! req_id with
                                        | Some o => use_structured_output (object s o)
                                        | None => false
                                        end) (map fst (so_num_scheduled_tokens out)) in
  match ids with
  | [] => py_ret None
  | _ => let! b := on_collaborators (grammar_bitmask ids (so_scheduled_spec_decode_tokens out)) in
         py_ret (Some (ids, b))
  end.

(** ** Admission, abortion, reset *)

(** [add_request]: the object joins the waiting queue and the id map. *)
Definition scheduler_add_request (r : Request) (timestamp : Z) : py Sched unit :=
  let o := obj_id (args r) in
  do! py_modify (fun s => set_objects (<[o := r]> (objects s)) s);
  do! on_waiting (add_request (args r));
  do! py_modify (fun s => set_requests (<[request_id (args r) := o]> (requests s)) s);
  if scheduler_log_stats cfg then update_object o (record_event QUEUED timestamp) else py_ret tt.

Definition get_request_counts (s : Sched) : Z * Z :=
  (Z.of_nat (length (running s)), Z.of_nat (rq_len (waiting s))).
Definition get_num_unfinished_requests (s : Sched) : Z :=
  Z.of_nat (rq_len (waiting s)) + Z.of_nat (length (running s)).
Definition has_finished_requests (s : Sched) : bool := negb (bool_decide (finished_req_ids s = ∅)).

(** [finish_requests]: the ids as the set of the source iterates over them. *)
Definition finish_requests (request_ids : list string) (finished_status : RequestStatus) : py Sched unit :=
  do! py_assert (status_is_finished finished_status);
  let! s := py_get in
  let valid := omap (fun req_id => match requests s !! req_id with
                                   | Some o => if is_finished (object s o) then None else Some o
                                   | None => None
                                   end) (remove_dups request_ids) in
  let is_running o := bool_decide (status (object s o) = RUNNING) in
  let running_requests_to_remove : gset Z := list_to_set (List.filter is_running valid) in
  let waiting_requests_to_remove := List.filter (fun o => negb (is_running o)) valid in
  do! (if decide (running_requests_to_remove = ∅) then py_ret tt
       else py_modify (fun s => set_running (remove_all (running s) running_requests_to_remove) s));
  do! (match waiting_requests_to_remove with
       | [] => py_ret tt
       | l => on_waiting (remove_requests (map (fun o => args (object s o)) l))
       end);
  py_for valid (fun o =>
    do! update_object o (set_status finished_status);
    do! free_request o;
    py_ret tt).

(** The [while self.running] loop of [reset_prefix_cache]. *)
Fixpoint preempt_all (fuel : nat) (timestamp : Z) : py Sched unit :=
  let! s := py_get in
  match last (running s) with
  | None => py_ret tt
  | Some o =>
      match fuel with
      | 0%nat => py_raise Diverges
      | S fuel' =>
          do! py_modify (set_running (removelast (running s)));
          do! preempt_request o timestamp;
          do! update_object o (fun r => set_discard true (set_num_output_placeholders 0 r));
          preempt_all fuel' timestamp
      end
  end.

Definition scheduler_reset_prefix_cache (reset_running_requests : bool) (timestamp : Z) : py Sched bool :=
  do! (if reset_running_requests then
         let! n := py_gets (fun s => length (running s)) in
         do! preempt_all n timestamp;
         py_modify (set_prev_step_scheduled_req_ids ∅)
       else py_ret tt);
  let! reset_successful := on_kv kc_reset_prefix_cache in
  if reset_running_requests && negb reset_successful then py_raise RuntimeError
  else py_ret reset_successful.
End scheduler.
