(* ===== verification/SchedulerInv.v ===== *)
(** The invariant of the scheduler and the proof that no operation of [Scheduler]
    raises from a state that satisfies it.

    The scheduler is verified against interfaces: [RequestQueueLaws] for the waiting
    queue, [KVCacheLaws] for paged KV memory and [CollaboratorsLaws] for the manager
    of structured outputs. The configuration ([plain_config]) is a decoder-only
    model with synchronous scheduling, without KV connector, LoRA limit or
    speculative decoding. *)
From stdpp Require Import gmap strings list.
From Stdlib Require Import ZArith Lia.
From S2P Require Import Prelude Request RequestQueue EncoderCache BlockPool KVCacheManager SchedulerData Scheduler.
Open Scope Z_scope.

(** ** What the scheduler relies on *)

(** Paged KV memory. [kv_covers k rid n]: the blocks of request [rid] hold its first
    [n] tokens; [kv_none k rid]: it has none; [kv_hit k r b n]: blocks [b], just
    looked up, hold the first [n] tokens of [r]. [kv_fits]: memory is large enough for one
    request of [max_len] tokens. *)
Class KVCacheLaws (K : Type) `{KVCache K} (max_len : Z) (logs : bool) := {
  kv_ok : K -> Prop;
  kv_request : Request -> Prop;
  kv_none : K -> string -> Prop;
  kv_covers : K -> string -> Z -> Prop;
  kv_hit : K -> Request -> KVCacheBlocks -> Z -> Prop;
  kv_tables : K -> string -> list (list Z);
  kv_fits : Prop;
  law_request_ext r r' : kv_request r -> args r' = args r -> all_token_ids r' = all_token_ids r ->
    block_hashes r' = block_hashes r -> kv_request r';
  law_covers_le k rid n m : kv_covers k rid n -> 0 <= m <= n -> kv_covers k rid m;
  law_none_covers k rid : kv_ok k -> kv_none k rid -> kv_covers k rid 0;
  law_get_computed k r : kv_ok k -> kv_request r -> 1 <= num_tokens r ->
    wp (kc_get_computed_blocks r) (fun '(b, n) k' => kv_ok k' /\
      (forall rid, kv_none k rid -> kv_none k' rid) /\
      (forall rid n, kv_covers k rid n -> kv_covers k' rid n) /\
      0 <= n < num_tokens r /\ kv_hit k' r b n) k;
  law_allocate k r n : kv_ok k -> kv_request r -> 0 < n -> 0 <= num_computed_tokens r ->
    num_computed_tokens r + n <= num_tokens r -> num_computed_tokens r + n <= max_len ->
    kv_covers k (request_id (args r)) (num_computed_tokens r) ->
    wp (kc_allocate_slots r n 0 None 0 false 0) (fun res k' => kv_ok k' /\
      (forall rid, rid <> request_id (args r) -> kv_none k rid -> kv_none k' rid) /\
      (forall rid n, rid <> request_id (args r) -> kv_covers k rid n -> kv_covers k' rid n) /\
      match res with
      | Some _ => kv_covers k' (request_id (args r)) (num_computed_tokens r + n)
      | None => kv_covers k' (request_id (args r)) (num_computed_tokens r) /\
                (kv_none k (request_id (args r)) -> kv_none k' (request_id (args r))) /\
                ~ (kv_fits /\ forall rid, rid <> request_id (args r) -> kv_none k rid)
      end) k;
  law_allocate_new k r n b h : kv_ok k -> kv_request r -> 0 < n -> 0 <= h -> num_computed_tokens r = 0 ->
    h + n <= num_tokens r -> h + n <= max_len ->
    kv_none k (request_id (args r)) -> kv_hit k r b h ->
    wp (kc_allocate_slots r n h (Some b) 0 false 0) (fun res k' => kv_ok k' /\
      (forall rid, rid <> request_id (args r) -> kv_none k rid -> kv_none k' rid) /\
      (forall rid n, rid <> request_id (args r) -> kv_covers k rid n -> kv_covers k' rid n) /\
      match res with
      | Some _ => kv_covers k' (request_id (args r)) (h + n)
      | None => kv_none k' (request_id (args r)) /\
                ~ (kv_fits /\ forall rid, rid <> request_id (args r) -> kv_none k rid)
      end) k;
  law_free k r : kv_ok k ->
    wp (kc_free r) (fun _ k' => kv_ok k' /\ kv_none k' (request_id (args r)) /\
      (forall rid, rid <> request_id (args r) -> kv_none k rid -> kv_none k' rid) /\
      (forall rid n, rid <> request_id (args r) -> kv_covers k rid n -> kv_covers k' rid n) /\
      (forall rid, rid <> request_id (args r) -> kv_tables k' rid = kv_tables k rid)) k;
  law_get_blocks k rid : kv_ok k -> exists b, kc_get_blocks rid k = Ret b k;
  law_common_prefix k rid : kv_ok k ->
    wp (kc_get_num_common_prefix_blocks rid) (fun _ k' => kv_ok k' /\
      (forall rid, kv_none k rid -> kv_none k' rid) /\
      (forall rid n, kv_covers k rid n -> kv_covers k' rid n)) k;
  law_take_events k : kv_ok k ->
    wp kc_take_events (fun _ k' => kv_ok k' /\
      (forall rid, kv_none k rid -> kv_none k' rid) /\
      (forall rid n, kv_covers k rid n -> kv_covers k' rid n)) k;
  law_stats k : kv_ok k ->
    wp kc_make_prefix_cache_stats (fun st k' => (logs = true -> is_Some st) /\ kv_ok k' /\
      (forall rid, kv_none k rid -> kv_none k' rid) /\
      (forall rid n, kv_covers k rid n -> kv_covers k' rid n)) k;
  law_reset k : kv_ok k ->
    wp kc_reset_prefix_cache (fun ok k' => kv_ok k' /\ ((forall rid, kv_none k rid) -> ok = true) /\
      (forall rid, kv_none k rid -> kv_none k' rid) /\
      (forall rid n, kv_covers k rid n -> kv_covers k' rid n)) k
}.

(** The manager of structured outputs accepts the tokens it asked for. *)
Class CollaboratorsLaws (X : Type) `{Collaborators X} := {
  law_no_connector : has_connector = false;
  law_advance r x : should_advance r x = true -> use_structured_output r = true /\ grammar_ready r x = true;
  law_accept r ts x : should_advance r x = true -> exists x', accept_tokens r ts x = Ret tt x'
}.

Record plain_config (cfg : SchedulerConfig) : Prop := mkPlainConfig {
  pc_decoder : is_encoder_decoder cfg = false;
  pc_sync : async_scheduling cfg = false;
  pc_eagle : use_eagle cfg = false;
  pc_lookahead : num_lookahead_tokens cfg = 0;
  pc_loras : max_loras cfg = None;
  pc_tokens : 0 <= max_num_scheduled_tokens cfg;
  pc_running : 0 <= max_num_running_reqs cfg
}.

(** ** Lists without repetition *)

Lemma remove_first_perm {A} `{EqDecision A} (x : A) l : x ∈ l -> l ≡ₚ x :: list_remove_first x l.
Proof.
  induction l as [|y l IH]; [set_solver|]. intros Hx. simpl. case_decide as E; [by subst|].
  rewrite perm_swap. constructor. apply IH. set_solver.
Qed.
Lemma remove_first_notin {A} `{EqDecision A} (x : A) l : x ∉ l -> list_remove_first x l = l.
Proof.
  induction l as [|y l IH]; [done|]. intros Hx. simpl. rewrite decide_False by set_solver.
  f_equal. apply IH. set_solver.
Qed.
Lemma remove_first_elem {A} `{EqDecision A} (x y : A) l :
  NoDup l -> y ∈ list_remove_first x l <-> y ∈ l /\ y <> x.
Proof.
  intros Hnd. destruct (decide (x ∈ l)) as [Hx|Hx].
  - pose proof (remove_first_perm x l Hx) as HP. rewrite HP in Hnd. apply NoDup_cons in Hnd as [Hn _].
    rewrite HP at 2. rewrite elem_of_cons. naive_solver.
  - rewrite remove_first_notin by done. naive_solver.
Qed.
Lemma remove_first_nodup {A} `{EqDecision A} (x : A) l : NoDup l -> NoDup (list_remove_first x l).
Proof.
  intros Hnd. destruct (decide (x ∈ l)) as [Hx|Hx]; [|by rewrite remove_first_notin].
  rewrite (remove_first_perm x l Hx) in Hnd. by apply NoDup_cons in Hnd as [_ ?].
Qed.
Lemma remove_first_length {A} `{EqDecision A} (x : A) l :
  x ∈ l -> length l = S (length (list_remove_first x l)).
Proof. intros Hx. by rewrite (remove_first_perm x l Hx) at 1. Qed.
Lemma removelast_first (x : Z) l : NoDup l -> last l = Some x -> removelast l = list_remove_first x l.
Proof.
  intros Hnd. destruct l as [|y l _] using rev_ind; [done|]. rewrite last_snoc. intros [= ->].
  rewrite removelast_last. apply NoDup_app in Hnd as (_ & Hd & _). clear -Hd.
  induction l as [|z l IH]; simpl; [by rewrite decide_True|].
  rewrite decide_False by (intros ->; apply (Hd x); set_solver). f_equal. apply IH. set_solver.
Qed.
(** The position of an element that stays when another one is removed. *)
Lemma remove_first_take {A} `{EqDecision A} (x y : A) l n :
  NoDup l -> y ∈ take n l -> y <> x ->
  y ∈ take (if decide (x ∈ take n l) then n - 1 else n)%nat (list_remove_first x l).
Proof.
  revert n. induction l as [|z l IH]; intros [|n] Hnd; simpl; [set_solver..|].
  apply NoDup_cons in Hnd as [Hz Hnd]. intros [<-|Hy]%elem_of_cons Hne.
  - rewrite (decide_False (P := y = x)) by done. case_decide as Ex.
    + apply elem_of_cons in Ex as [?|Ex]; [congruence|]. destruct n; [set_solver|]. simpl. left.
    + left.
  - destruct (decide (z = x)) as [->|Hzx].
    + rewrite decide_True by left. simpl. by rewrite Nat.sub_0_r.
    + specialize (IH n Hnd Hy Hne). destruct (decide (x ∈ take n l)) as [E|E].
      * rewrite decide_True by (by right). destruct n; [set_solver|]. simpl in *.
        rewrite Nat.sub_0_r in *. by right.
      * rewrite decide_False by set_solver. simpl. by right.
Qed.

(** Token counts of a pass: an insertion-ordered dictionary. *)
Definition total (d : list (string * Z)) : Z := foldr (fun e acc => e.2 + acc) 0 d.
Lemma total_perm d d' : d ≡ₚ d' -> total d = total d'.
Proof. induction 1; simpl; lia. Qed.

(** ** The invariant *)

Section invariant.
Context {Q : Type} {rq_ops : RequestQueue Q} {rq_laws : RequestQueueLaws Q}.
Context {X : Type} {co_ops : Collaborators X} {co_laws : CollaboratorsLaws X}.
Context (cfg : SchedulerConfig) (plain : plain_config cfg).
Context {K : Type} {kv_ops : KVCache K}.
Context {logs : bool} {kv_laws : KVCacheLaws K (max_model_len cfg) logs}.
Context (size : string -> Z) (size_nonneg : forall h, 0 <= size h).
Context (block_hasher : option (Request -> list (list Z))).

Notation Sched := (Scheduler Q K X).
Notation Pass := (Scheduler Q K X * Locals Q)%type.
Notation kv s := (kv_cache_manager s).
Notation encoder s := (encoder_cache_manager s).
Notation max_len := (max_model_len cfg).

Definition rid (s : Sched) (o : Z) : string := request_id (args (object s o)).

(** A request the scheduler can serve: below the model length, now and when it is
    finally allowed to stop; its encoder inputs have the sizes of their hashes. *)
Record req_ok (r : Request) : Prop := mkReqOk {
  rk_kv : kv_request r;
  rk_size : consistent size r;
  rk_wf : tokens_wf r;
  rk_some : 1 <= num_tokens r;
  rk_len : num_tokens r < max_len;
  rk_min : match sampling_params (args r) with
           | Some sp => num_prompt_tokens r + sp_min_tokens sp <= max_len
           | None => True
           end;
  rk_kind : is_Some (pooling_params (args r)) \/ is_Some (sampling_params (args r));
  rk_spec : spec_token_ids r = [];
  rk_place : num_output_placeholders r = 0
}.

Record run_ok (k : K) (r : Request) : Prop := mkRunOk {
  ro_status : status r = RUNNING;
  ro_req : req_ok r;
  ro_computed : 0 <= num_computed_tokens r <= num_tokens r;
  ro_covers : kv_covers k (request_id (args r)) (num_computed_tokens r)
}.

Record wait_ok (r : Request) : Prop := mkWaitOk {
  wo_status : status r = WAITING \/ status r = WAITING_FOR_FSM \/ status r = PREEMPTED;
  wo_req : req_ok r;
  wo_computed : num_computed_tokens r = 0
}.

(** [w] lists the requests that wait. Every live request is known by its id, is
    either running or waiting and only once; exactly the running ones may hold KV
    memory, and theirs covers the tokens they have computed. *)
Record core (s : Sched) (w : list RequestArgs) : Prop := mkCore {
  co_kv : kv_ok (kv s);
  co_enc : cache_inv size (encoder s);
  co_nodup : NoDup (running s ++ ids w);
  co_requests : forall i o, requests s !! i = Some o <-> o ∈ running s ++ ids w /\ rid s o = i;
  co_id : forall o, o ∈ running s -> obj_id (args (object s o)) = o;
  co_ref : forall a, a ∈ w -> args (object s (obj_id a)) = a;
  co_run : forall o, o ∈ running s -> run_ok (kv s) (object s o);
  co_wait : forall o, o ∈ ids w -> wait_ok (object s o);
  co_idle : forall i, (forall o, o ∈ running s -> rid s o <> i) -> kv_none (kv s) i;
  co_max : Z.of_nat (length (running s)) <= max_num_running_reqs cfg
}.

Lemma core_unique s w o1 o2 :
  core s w -> o1 ∈ running s ++ ids w -> o2 ∈ running s ++ ids w -> rid s o1 = rid s o2 -> o1 = o2.
Proof.
  intros C H1 H2 E. pose proof (proj2 (co_requests _ _ C (rid s o1) o1) (conj H1 eq_refl)) as E1.
  pose proof (proj2 (co_requests _ _ C (rid s o1) o2) (conj H2 (eq_sym E))) as E2. congruence.
Qed.

Lemma ids_perm w w' : w ≡ₚ w' -> ids w ≡ₚ ids w'.
Proof. intros HP. unfold ids. by rewrite HP. Qed.

Lemma core_perm s w w' : w ≡ₚ w' -> core s w -> core s w'.
Proof.
  intros HP [C1 C2 C3 C4 C5 C6 C7 C8 C9 C10]. pose proof (ids_perm _ _ HP) as HI.
  split; try done.
  - by rewrite <- HI.
  - intros i o. by rewrite C4, !elem_of_app, HI.
  - intros a. rewrite <- HP. apply C6.
  - intros o. rewrite <- HI. apply C8.
Qed.

(** What the operations of a pass leave alone, whoever is preempted or admitted. *)
Record quiet (s s' : Sched) : Prop := mkQuiet {
  qu_requests : requests s' = requests s;
  qu_prev : prev_step_scheduled_req_ids s' = prev_step_scheduled_req_ids s;
  qu_finished : finished_req_ids s' = finished_req_ids s;
  qu_args : forall o, args (object s' o) = args (object s o);
  qu_tokens : forall o, all_token_ids (object s' o) = all_token_ids (object s o);
  qu_output : forall o, output_token_ids (object s' o) = output_token_ids (object s o)
}.
#[local] Instance quiet_preorder : PreOrder quiet.
Proof.
  split; [done|]. intros s1 s2 s3 [] []. split; intros; congruence.
Qed.

Lemma quiet_rid s s' o : quiet s s' -> rid s' o = rid s o.
Proof. intros HQ. unfold rid. by rewrite (qu_args _ _ HQ). Qed.

(** A change of the state in which no request appears or disappears. *)
Lemma core_change_gen s w s' w' :
  core s w -> requests s' = requests s -> (forall o, args (object s' o) = args (object s o)) ->
  running s' ++ ids w' ≡ₚ running s ++ ids w ->
  (forall a, a ∈ w' -> args (object s (obj_id a)) = a) ->
  (forall o, o ∈ running s' -> obj_id (args (object s o)) = o) ->
  kv_ok (kv s') -> cache_inv size (encoder s') ->
  (forall o, o ∈ running s' -> run_ok (kv s') (object s' o)) ->
  (forall o, o ∈ ids w' -> wait_ok (object s' o)) ->
  (forall i, (forall o, o ∈ running s' -> rid s o <> i) -> kv_none (kv s') i) ->
  Z.of_nat (length (running s')) <= max_num_running_reqs cfg ->
  core s' w'.
Proof.
  intros C Eq Ea HP Hw Ho Hk He Hr Hwt Hi Hm.
  assert (Hrid : forall o, rid s' o = rid s o) by (intros o; unfold rid; by rewrite Ea).
  split; try done.
  - rewrite HP. apply C.
  - intros i o. rewrite Eq, Hrid, (co_requests _ _ C). by rewrite HP.
  - intros o Hin. rewrite Ea. by apply Ho.
  - intros a Hin. rewrite Ea. by apply Hw.
  - intros i Hin. apply Hi. intros o Hor. rewrite <- Hrid. by apply Hin.
Qed.

Lemma core_change s w s' w' :
  core s w -> quiet s s' -> running s' ++ ids w' ≡ₚ running s ++ ids w ->
  (forall a, a ∈ w' -> args (object s (obj_id a)) = a) ->
  (forall o, o ∈ running s' -> obj_id (args (object s o)) = o) ->
  kv_ok (kv s') -> cache_inv size (encoder s') ->
  (forall o, o ∈ running s' -> run_ok (kv s') (object s' o)) ->
  (forall o, o ∈ ids w' -> wait_ok (object s' o)) ->
  (forall i, (forall o, o ∈ running s' -> rid s o <> i) -> kv_none (kv s') i) ->
  Z.of_nat (length (running s')) <= max_num_running_reqs cfg ->
  core s' w'.
Proof. intros C [Eq _ _ Ea _ _]. by apply core_change_gen. Qed.

Lemma running_nodup s w : core s w -> NoDup (running s).
Proof. intros C. by destruct (proj1 (NoDup_app _ _) (co_nodup _ _ C)) as (? & _). Qed.
Lemma running_live (s : Sched) w o : o ∈ running s -> o ∈ running s ++ ids w.
Proof. intros Ho. apply elem_of_app. by left. Qed.
Lemma running_not_waiting s w o : core s w -> o ∈ running s -> o ∉ ids w.
Proof. intros C Ho. destruct (proj1 (NoDup_app _ _) (co_nodup _ _ C)) as (_ & Hd & _). by apply Hd. Qed.

Lemma core_obj_id s w o : core s w -> o ∈ running s ++ ids w -> obj_id (args (object s o)) = o.
Proof.
  intros C [Ho|Ho]%elem_of_app; [by apply C|].
  apply list_elem_of_fmap in Ho as (a & -> & Ha). by rewrite (co_ref _ _ C a Ha).
Qed.

Lemma object_write s o f o' :
  object (write_object o f s : Sched) o' = if decide (o' = o) then f (object s o) else object s o'.
Proof.
  unfold object, write_object. simpl. case_decide as E.
  - subst. by rewrite lookup_total_insert_eq.
  - by rewrite lookup_total_insert_ne.
Qed.

Lemma wp_on_kv {A} (op : py K A) P (s : Sched) :
  wp op (fun a k => P a (set_kv_cache_manager k s)) (kv s) -> wp (on_kv op) P s.
Proof. apply wp_zoom. Qed.
Lemma wp_on_encoder {A} (op : py EncoderCacheManager A) P (s : Sched) :
  wp op (fun a e => P a (set_encoder_cache_manager e s)) (encoder s) -> wp (on_encoder op) P s.
Proof. apply wp_zoom. Qed.
Lemma wp_on_waiting {A} (op : py Q A) P (s : Sched) :
  wp op (fun a q => P a (set_waiting q s)) (waiting s) -> wp (on_waiting op) P s.
Proof. apply wp_zoom. Qed.
Lemma wp_on_sched {A} (op : py Sched A) P (p : Pass) :
  wp op (fun a s => P a (s, p.2)) p.1 -> wp (on_sched op) P p.
Proof. intros Hw. by apply wp_zoom. Qed.

(** Plans made for the encoder cache stay valid. *)
Definition plans_kept (s s' : Sched) : Prop :=
  forall r p, plan_ok size r p (encoder s) -> plan_ok size r p (encoder s').

(** ** Preemption *)

Lemma req_ok_ext r r' :
  req_ok r -> args r' = args r -> all_token_ids r' = all_token_ids r -> block_hashes r' = block_hashes r ->
  output_token_ids r' = output_token_ids r -> num_prompt_tokens r' = num_prompt_tokens r ->
  spec_token_ids r' = [] -> num_output_placeholders r' = 0 -> req_ok r'.
Proof.
  intros [R1 R2 (p & P1 & P2 & P3) R4 R5 R6 R7 R8 R9] Ea Et Eh Eo En Es Ep.
  assert (num_tokens r' = num_tokens r) as E by (unfold num_tokens; by rewrite Et).
  split; rewrite ?E, ?Ea; try done.
  - by eapply law_request_ext.
  - unfold consistent. by rewrite Ea.
  - exists p. rewrite En, Et, Eo. done.
  - by rewrite En.
Qed.

Lemma run_ok_frame k k' r :
  run_ok k r -> (forall n, kv_covers k (request_id (args r)) n -> kv_covers k' (request_id (args r)) n) ->
  run_ok k' r.
Proof. intros [? ? ? ?] Hc. split; auto. Qed.

Definition preempted (r r' : Request) : Prop :=
  args r' = args r /\ all_token_ids r' = all_token_ids r /\ wait_ok r' /\ status r' = PREEMPTED /\
  output_token_ids r' = output_token_ids r.

(** The request joins the waiting ones and gives its blocks and encoder inputs
    back; everybody else keeps theirs. *)
Lemma preempt_ok s w o ts :
  core s w -> rq_wf (waiting s) -> (forall x, x ∈ ids (rq_iter (waiting s)) -> x ∈ ids w) -> o ∈ running s ->
  wp (preempt_request cfg o ts) (fun _ s' =>
    core s' (args (object s o) :: w) /\ rq_wf (waiting s') /\
    rq_iter (waiting s') ≡ₚ args (object s o) :: rq_iter (waiting s) /\
    running s' = list_remove_first o (running s) /\ quiet s s' /\ plans_kept s s' /\
    (forall o', o' <> o -> object s' o' = object s o') /\
    (forall i n, i <> rid s o -> kv_covers (kv s) i n -> kv_covers (kv s') i n) /\
    status (object s' o) = PREEMPTED)
    (set_running (list_remove_first o (running s)) s).
Proof.
  intros C Hwf Hsub Ho. pose proof (co_run _ _ C o Ho) as R. pose proof (ro_req _ _ R) as RK.
  set (s0 := set_running _ s). unfold preempt_request. wp_step. wp_step.
  change (object s0 o) with (object s o). wp_step. apply wp_assert.
  { by rewrite bool_decide_true by apply R. }
  wp_step. apply wp_on_kv. eapply wp_mono; [apply law_free, C|].
  intros _ k' (Hk & Hnone & Hnn & Hcc & _). wp_step. apply wp_on_encoder.
  eapply wp_mono; [apply (ec_free_ok size size_nonneg); [apply RK|apply C]|].
  intros _ e' ([He _] & Hfree & Hdom). wp_step. wp_step. wp_step.
  set (s1 := write_object o _ _).
  set (log := if scheduler_log_stats cfg then record_event EV_PREEMPTED ts else id).
  apply (wp_mono _ (fun _ s' => s' = write_object o log s1)).
  { unfold log. destruct (scheduler_log_stats cfg); [by apply wp_modify|]. apply wp_ret.
    unfold write_object, set_objects. rewrite insert_id; [by destruct s1|].
    unfold s1, write_object, object, id. simpl.
    by rewrite lookup_insert_eq, lookup_total_insert_eq. }
  intros _ ? ->. apply wp_on_waiting.
  change (waiting (write_object o log s1)) with (waiting s).
  assert (o ∉ ids w) as Hnw.
  { by eapply running_not_waiting. }
  pose proof (running_nodup _ _ C) as Hnd.
  assert (Hrm : forall o', o' ∈ list_remove_first o (running s) <-> o' ∈ running s /\ o' <> o)
    by (intros; by apply remove_first_elem).
  destruct (law_prepend (waiting s) (args (object s o))) as (q' & Hq & Hwf' & Hit); [done| |].
  { unfold fresh_for, ids. simpl. rewrite (co_id _ _ C o Ho). apply NoDup_cons.
    split; [|by apply law_wf_nodup]. intros Hin. by apply Hnw, Hsub. }
  unfold wp. rewrite Hq. set (s' := set_waiting q' _).
  assert (Hobj : forall o', o' <> o -> object s' o' = object s o').
  { intros o' Hne. change (object s' o') with (object (write_object o log s1) o').
    rewrite object_write, decide_False by done. unfold s1. by rewrite object_write, decide_False by done. }
  assert (Hpre : preempted (object s o) (object s' o)).
  { change (object s' o) with (object (write_object o log s1) o). rewrite object_write, decide_True by done.
    unfold s1. rewrite object_write, decide_True by done.
    change (object (set_encoder_cache_manager e' (set_kv_cache_manager k' s0)) o) with (object s o).
    split_and!; try (unfold log; by destruct (scheduler_log_stats cfg)).
    split; [right; right| |]; try (unfold log; by destruct (scheduler_log_stats cfg)).
    eapply req_ok_ext; [exact RK|..]; unfold log; destruct (scheduler_log_stats cfg); try done; apply RK. }
  destruct Hpre as (Ea & Et & Hwait & Hst & Eout).
  assert (quiet s s') as HQ.
  { split; try done; intros o'; (destruct (decide (o' = o)) as [->|Hne]; [done|by rewrite Hobj]). }
  assert (o ∈ running s ++ ids w) as Hlive by (apply elem_of_app; by left).
  split_and!; try done.
  - apply (core_change s w); try done.
    + simpl. rewrite (co_id _ _ C o Ho). rewrite (remove_first_perm o (running s) Ho) at 2.
      by rewrite <- Permutation_middle.
    + intros a [->|Ha]%elem_of_cons; [|by apply C]. by rewrite (co_id _ _ C o Ho).
    + intros o' [Ho' _]%Hrm. by apply C.
    + intros o' [Ho' Hne]%Hrm. rewrite Hobj by done. eapply run_ok_frame; [by apply C|]. intros n. apply Hcc.
      intros E. apply Hne. eapply (core_unique s w); [done|by apply running_live|done|done].
    + intros o' [->|Ho']%elem_of_cons; [by rewrite (co_id _ _ C o Ho)|].
      rewrite Hobj by (intros ->; done). by apply C.
    + intros i Hi. change (kv s') with k'. destruct (decide (i = rid s o)) as [->|Hne]; [done|].
      apply Hnn; [done|]. apply C. intros o' Ho' E. destruct (decide (o' = o)) as [->|Hno]; [congruence|].
      eapply Hi; [|exact E]. by apply Hrm.
    + simpl. pose proof (co_max _ _ C). pose proof (remove_first_length o (running s) Ho). lia.
  - change (waiting s') with q'. by rewrite Hit, law_place_front.
  - intros r p Hp. eapply plan_ok_mono; [exact Hp|simpl in *; lia|]. change (encoder s') with e'. by rewrite Hdom.
Qed.

(** ** A pass in progress *)

Definition scheduled (l : Locals Q) : list Z :=
  scheduled_running_reqs l ++ scheduled_new_reqs l ++ scheduled_resumed_reqs l.
Definition waits (s : Sched) (l : Locals Q) : list RequestArgs :=
  rq_iter (waiting s) ++ rq_iter (skipped_waiting_requests l).

(** The entry of a scheduled request: a positive number of tokens it still has to
    compute, for which it has KV memory. *)
Definition entry_ok (s : Sched) (o n : Z) : Prop :=
  0 < n /\ num_computed_tokens (object s o) + n <= num_tokens (object s o) /\
  kv_covers (kv s) (rid s o) (num_computed_tokens (object s o) + n).

(** Every running request has tokens to compute, and nobody waits for a grammar. *)
Definition ready (s : Sched) (w : list RequestArgs) : Prop :=
  (forall o, o ∈ running s -> num_computed_tokens (object s o) < num_tokens (object s o)) /\
  (forall o, o ∈ ids w -> status (object s o) <> WAITING_FOR_FSM).

(** [s0] is the state the pass started from. *)
Record pass_ok (s0 s : Sched) (l : Locals Q) : Prop := mkPassOk {
  po_core : core s (waits s l);
  po_wf : rq_wf (waiting s) /\ rq_wf (skipped_waiting_requests l);
  po_quiet : quiet s0 s;
  po_nodup : NoDup (scheduled l);
  po_running : forall o, o ∈ scheduled l -> o ∈ running s;
  po_keys : NoDup (num_scheduled_tokens l).*1;
  po_entry : forall i n, (i, n) ∈ num_scheduled_tokens l ->
               exists o, o ∈ scheduled l /\ rid s o = i /\ entry_ok s o n;
  po_has : forall o, o ∈ scheduled l -> (exists n, (rid s o, n) ∈ num_scheduled_tokens l) /\
                                        is_Some (req_to_new_blocks l !! rid s o);
  po_budget : 0 <= token_budget l /\ token_budget l + total (num_scheduled_tokens l) = max_num_scheduled_tokens cfg;
  po_prev : preempted_reqs l = [] -> forall o, o ∈ ids (waits s l) ->
              status (object s o) = PREEMPTED -> rid s o ∉ prev_step_scheduled_req_ids s;
  po_resumed : forall o, o ∈ scheduled_resumed_reqs l -> rid s o ∉ prev_step_scheduled_req_ids s;
  po_encoder : forall i inputs, scheduled_encoder_inputs l !! i = Some inputs ->
                 exists o, o ∈ scheduled l /\ rid s o = i /\
                 Forall (fun j => is_Some (mm_features (args (object s o)) !! j)) inputs;
  po_spec : scheduled_spec_decode_tokens l = ∅;
  po_ready : ready s0 (rq_iter (waiting s0)) -> ready s (waits s l);
  po_same : forall o, o ∈ running s -> o ∈ running s0 ->
              num_computed_tokens (object s o) = num_computed_tokens (object s0 o);
  po_new : preempted_reqs l = [] -> forall o, o ∈ ids (waits s l) -> o ∉ running s0
}.

(** In the loop over the running requests: nobody was admitted yet, and those
    scheduled come before the index. *)
Record loop_ok (s : Sched) (l : Locals Q) : Prop := mkLoopOk {
  lo_new : scheduled_new_reqs l = [] /\ scheduled_resumed_reqs l = [] /\ rq_iter (skipped_waiting_requests l) = [];
  lo_index : forall o, o ∈ scheduled_running_reqs l -> o ∈ take (req_index l) (running s)
}.

(** The request [o] the loop is at. *)
Record current (s : Sched) (l : Locals Q) (o : Z) : Prop := mkCurrent {
  cu_take : o ∈ take (S (req_index l)) (running s);
  cu_new : o ∉ scheduled_running_reqs l;
  cu_fcfs : policy cfg = FCFS -> running s !! req_index l = Some o
}.

Lemma scheduled_running_only s l : loop_ok s l -> scheduled l = scheduled_running_reqs l.
Proof. intros [(E1 & E2 & _) _]. unfold scheduled. by rewrite E1, E2, !app_nil_r. Qed.

Lemma take_in {A} (x : A) n l : x ∈ take n l -> x ∈ l.
Proof. intros Hx. rewrite <- (take_drop n l). apply elem_of_app. by left. Qed.
Lemma take_mono {A} (x : A) n m l : (n <= m)%nat -> x ∈ take n l -> x ∈ take m l.
Proof.
  intros Hle Hx. replace n with (n `min` m)%nat in Hx by lia. rewrite <- take_take in Hx. by eapply take_in.
Qed.

Lemma elem_of_snoc {A} (x y : A) l : x ∈ l ++ [y] <-> x ∈ l \/ x = y.
Proof. by rewrite elem_of_app, list_elem_of_singleton. Qed.

(** How the removal of a running request changes the locals. *)
Record removed (s : Sched) (l : Locals Q) (v : Z) (l' : Locals Q) : Prop := mkRemoved {
  rm_sched : scheduled_running_reqs l' = list_remove_first v (scheduled_running_reqs l);
  rm_same : scheduled_new_reqs l' = scheduled_new_reqs l /\ scheduled_resumed_reqs l' = scheduled_resumed_reqs l /\
            preempted_reqs l' = preempted_reqs l /\ skipped_waiting_requests l' = skipped_waiting_requests l;
  rm_tokens : num_scheduled_tokens l' = dict_del (rid s v) (num_scheduled_tokens l);
  rm_blocks : forall i, i <> rid s v -> req_to_new_blocks l' !! i = req_to_new_blocks l !! i;
  rm_budget : token_budget l <= token_budget l' /\
              token_budget l' + total (num_scheduled_tokens l') = token_budget l + total (num_scheduled_tokens l);
  rm_index : req_index l' = if decide (v ∈ scheduled_running_reqs l) then (req_index l - 1)%nat else req_index l;
  rm_encoder : forall i inputs, scheduled_encoder_inputs l' !! i = Some inputs ->
                 i <> rid s v /\ scheduled_encoder_inputs l !! i = Some inputs;
  rm_spec : scheduled_spec_decode_tokens l = ∅ -> scheduled_spec_decode_tokens l' = ∅
}.

Lemma scheduled_rid s0 s l o v :
  pass_ok s0 s l -> v ∈ running s ++ ids (waits s l) -> o ∈ scheduled l -> rid s o = rid s v -> o = v.
Proof.
  intros P Hv Ho E. eapply (core_unique s (waits s l)); [apply P| |done|done].
  by apply running_live, (po_running _ _ _ P).
Qed.
Lemma key_of_unscheduled s0 s l v :
  pass_ok s0 s l -> v ∈ running s ++ ids (waits s l) -> v ∉ scheduled l ->
  rid s v ∉ (num_scheduled_tokens l).*1.
Proof.
  intros P Hv Hn ([i n] & E & Hin)%list_elem_of_fmap. simpl in E.
  destruct (po_entry _ _ _ P i n Hin) as (o & Ho & Eo & _). destruct Hn.
  assert (o = v) as <-; [|done]. eapply scheduled_rid; [done..|congruence].
Qed.

Lemma removed_unscheduled s0 s l v :
  pass_ok s0 s l -> loop_ok s l -> v ∈ running s -> v ∉ scheduled_running_reqs l -> removed s l v l.
Proof.
  intros P L Hv Hn. split; try done.
  - by rewrite remove_first_notin.
  - rewrite dict_del_absent; [done|]. eapply key_of_unscheduled; [done|by apply running_live|].
    by rewrite (scheduled_running_only _ _ L).
  - by rewrite decide_False.
  - intros i inputs Hi. split; [|done]. intros ->. destruct (po_encoder _ _ _ P _ _ Hi) as (o & Ho & E & _).
    apply Hn. rewrite <- (scheduled_running_only _ _ L).
    assert (o = v) as <-; [|done]. eapply scheduled_rid; [done|by apply running_live|done|done].
Qed.

Lemma unschedule_ok s0 s l v (s1 : Sched) :
  pass_ok s0 s l -> loop_ok s l -> v ∈ scheduled_running_reqs l -> objects s1 = objects s ->
  wp (unschedule v) (fun _ p => p.1 = s1 /\ removed s l v p.2) (s1, l).
Proof.
  intros P L Hv Eo. assert (v ∈ scheduled l) as Hvs by (by rewrite (scheduled_running_only _ _ L)).
  destruct (po_has _ _ _ P v Hvs) as [[n Hn] [b Hb]].
  assert (object s1 v = object s v) as Eobj by (unfold object; by rewrite Eo).
  pose proof (dict_get_in _ _ _ (po_keys _ _ _ P) Hn) as Hg.
  destruct (po_entry _ _ _ P _ _ Hn) as (_ & _ & _ & (Hpos & _)).
  pose proof (dict_del_perm _ _ _ (po_keys _ _ _ P) Hn) as HP%total_perm. simpl in HP.
  unfold unschedule. wp_step. apply wp_on_sched. apply wp_gets. simpl. rewrite Eobj. fold (rid s v).
  wp_step. wp_step. wp_step. wp_step. wp_step. eapply wp_unwrap; [exact Hg|]. wp_step. wp_step. wp_step.
  eapply wp_unwrap; [exact Hb|]. wp_step. wp_step. wp_step. simpl.
  set (l1 := set_req_to_new_blocks _ _).
  apply (wp_mono _ (fun _ p => exists b, p = (s1, set_encoder_compute_budget b l1))).
  { unfold id. destruct (scheduled_encoder_inputs l !! rid s v) as [inputs|] eqn:Ei.
    - destruct (po_encoder _ _ _ P _ _ Ei) as (o & Ho & E & HF).
      assert (o = v) as ->.
      { eapply scheduled_rid; [done|by apply running_live, (po_running _ _ _ P)|done|done]. }
      wp_step.
      apply (wp_mono _ (fun _ p => p = (s1, l1))).
      + clear -HF. induction HF as [|j js [f Hf] HF IH]; simpl; [by apply wp_ret|].
        wp_step. unfold get_num_encoder_tokens. rewrite Hf. apply wp_ret. wp_step.
        eapply wp_mono; [exact IH|]. simpl. intros ns p ->. by apply wp_ret.
      + intros ns ? ->. apply wp_modify. by eexists.
    - apply wp_ret. exists (encoder_compute_budget l1). by destruct l1. }
  intros _ ? (b' & ->). apply wp_modify. simpl. split; [done|]. split; simpl; try done.
  - intros i Hi. by rewrite lookup_delete_ne.
  - split; lia.
  - by rewrite decide_True.
  - intros i inputs. rewrite lookup_delete_Some. naive_solver.
  - intros ->. apply delete_empty.
Qed.

Lemma max_request_in (s : Sched) best l : max_request s best l ∈ best :: l.
Proof.
  revert best. induction l as [|o l IH]; intros best; simpl; [left|].
  specialize (IH (if later_key (args (object s o)) (args (object s best)) then o else best)).
  destruct (later_key _ _); set_solver.
Qed.

(** Under FCFS the victim is behind the index. *)
Lemma fcfs_victim_unscheduled s l o v :
  loop_ok s l -> current s l o -> NoDup (running s) -> policy cfg = FCFS -> last (running s) = Some v ->
  v ∉ scheduled_running_reqs l.
Proof.
  intros L Cu Hnd Ep Hlast Hin%(lo_index _ _ L). pose proof (cu_fcfs _ _ _ Cu Ep) as Hc.
  apply last_Some in Hlast as [xs Hxs]. rewrite Hxs in Hin, Hnd, Hc.
  apply lookup_lt_Some in Hc. rewrite length_app in Hc. simpl in Hc. rewrite take_app_le in Hin by lia.
  apply take_in in Hin. apply NoDup_app in Hnd as (_ & Hd & _). apply (Hd v); set_solver.
Qed.

Lemma take_victim_ok s0 s l o :
  pass_ok s0 s l -> loop_ok s l -> current s l o ->
  wp (take_victim cfg) (fun v p => v ∈ running s /\ p.1 = set_running (list_remove_first v (running s)) s /\
    removed s l v p.2 /\ (policy cfg = FCFS -> last (running s) = Some v)) (s, l).
Proof.
  intros P L Cu. unfold take_victim. wp_step. apply wp_on_sched. apply wp_get. simpl.
  pose proof (running_nodup _ _ (po_core _ _ _ P)) as Hnd.
  destruct (policy cfg) eqn:Ep.
  - pose proof (cu_fcfs _ _ _ Cu Ep) as Hcur. destruct (last (running s)) as [v|] eqn:El.
    2:{ apply last_None in El. by rewrite El in Hcur. }
    assert (v ∈ running s) as Hv by (by apply last_Some_elem_of).
    wp_step. apply wp_on_sched. apply wp_modify. apply wp_ret. simpl. split_and!; [done| | |done].
    + by rewrite (removelast_first v).
    + eapply removed_unscheduled; [done..|]. by eapply fcfs_victim_unscheduled.
  - destruct (running s) as [|o1 rs] eqn:Er.
    { pose proof (cu_take _ _ _ Cu) as Hin. rewrite Er, take_nil in Hin. set_solver. }
    set (v := max_request s o1 rs). assert (v ∈ running s) as Hv by (rewrite Er; apply max_request_in).
    wp_step. apply wp_on_sched. apply wp_modify. wp_step. wp_step. simpl. wp_step.
    apply (wp_mono _ (fun _ p => p.1 = set_running (list_remove_first v (o1 :: rs)) s /\ removed s l v p.2)).
    + case_decide as Hin; [by apply (unschedule_ok s0 s l v)|]. apply wp_ret. simpl. split; [done|].
      by eapply removed_unscheduled.
    + intros _ p [E1 E2]. apply wp_ret. by rewrite <- Er at 1.
Qed.

Definition note_preempted (v : Z) (l : Locals Q) : Locals Q := set_preempted_reqs (preempted_reqs l ++ [v]) l.

(** The victim is preempted: the pass goes on without it. *)
Lemma preempt_victim_ok s0 s l v l' ts :
  pass_ok s0 s l -> loop_ok s l -> v ∈ running s -> removed s l v l' ->
  wp (preempt_request cfg v ts) (fun _ s' =>
    pass_ok s0 s' (note_preempted v l') /\ loop_ok s' (note_preempted v l') /\
    running s' = list_remove_first v (running s) /\ plans_kept s s' /\
    (forall o, o <> v -> object s' o = object s o))
    (set_running (list_remove_first v (running s)) s).
Proof.
  intros P L Hv [R1 (R2 & R3 & R4 & R5) R6 R7 R8 R9 R10 R11]. pose proof (po_core _ _ _ P) as C.
  pose proof (running_nodup _ _ C) as Hnd. pose proof (scheduled_running_only _ _ L) as Es.
  eapply wp_mono; [apply (preempt_ok s (waits s l)); [done|apply P| |done]|].
  { intros x. unfold waits, ids. rewrite fmap_app, elem_of_app. by left. }
  intros _ s' (C' & Hwf & Hit & Hrun & HQ & Hpl & Hobj & Hcov & Hstv).
  assert (scheduled (note_preempted v l') = list_remove_first v (scheduled l)) as Es'.
  { unfold scheduled at 1. simpl. rewrite R1, R2, R3, Es. destruct L as [(-> & -> & _) _]. by rewrite !app_nil_r. }
  assert (Hsel : forall o, o ∈ scheduled (note_preempted v l') <-> o ∈ scheduled l /\ o <> v).
  { intros o. rewrite Es'. apply remove_first_elem, P. }
  assert (Hrid : forall o, o ∈ scheduled l -> o <> v -> rid s o <> rid s v).
  { intros o Ho Hne E. apply Hne. eapply (core_unique s (waits s l)); [done| |by apply running_live|done].
    apply running_live. by apply P. }
  assert (waits s' (note_preempted v l') ≡ₚ args (object s v) :: waits s l) as Hw.
  { unfold waits. simpl. by rewrite R5, Hit. }
  split_and!; try done.
  - split; simpl.
    + by eapply core_perm; [symmetry; exact Hw|].
    + rewrite R5. split; [done|apply P].
    + by transitivity s; [apply P|].
    + rewrite Es'. apply remove_first_nodup, P.
    + intros o [Ho Hne]%Hsel. rewrite Hrun. apply remove_first_elem; [done|]. split; [by apply P|done].
    + rewrite R6. destruct (decide (rid s v ∈ (num_scheduled_tokens l).*1)) as [Hin|Hin].
      * apply list_elem_of_fmap in Hin as ([i n] & E & Hin). simpl in E. subst i.
        pose proof (po_keys _ _ _ P) as Hk. rewrite (dict_del_perm _ _ _ Hk Hin) in Hk. simpl in Hk.
        by apply NoDup_cons in Hk as [_ ?].
      * rewrite dict_del_absent by done. apply P.
    + intros i n. rewrite R6, dict_del_in. intros [Hin Hne]. simpl in Hne.
      destruct (po_entry _ _ _ P i n Hin) as (o & Ho & <- & H1 & H2 & H3).
      assert (o <> v) as Hov by (intros ->; done).
      exists o. rewrite (quiet_rid _ _ _ HQ). split_and!; [by apply Hsel|done|]. unfold entry_ok.
      rewrite (quiet_rid _ _ _ HQ), Hobj by done. split_and!; [done..|]. by apply Hcov.
    + intros o [Ho Hne]%Hsel. rewrite (quiet_rid _ _ _ HQ).
      destruct (po_has _ _ _ P o Ho) as [[n Hn] Hb]. rewrite R6, R7 by auto. split; [|done].
      exists n. apply dict_del_in. split; [done|]. by apply Hrid.
    + pose proof (po_budget _ _ _ P). lia.
    + intros E. by apply app_eq_nil in E as [_ ?].
    + intros o. rewrite R3. destruct L as [(_ & -> & _) _]. set_solver.
    + intros i inputs [Hi Hin]%R10. destruct (po_encoder _ _ _ P _ _ Hin) as (o & Ho & <- & HF).
      assert (o <> v) as Hov by (intros ->; done).
      exists o. rewrite (quiet_rid _ _ _ HQ), Hobj by done. split_and!; [by apply Hsel|done|done].
    + apply R11, P.
    + intros [H1 H2]%(po_ready _ _ _ P). split.
      * intros x Hx. rewrite Hrun in Hx. apply remove_first_elem in Hx as [Hx Hne]; [|done]. rewrite Hobj by done. by apply H1.
      * intros x Hx. rewrite (ids_perm _ _ Hw) in Hx. change (ids (?a :: ?w)) with (obj_id a :: ids w) in Hx.
        rewrite (co_id _ _ C v Hv) in Hx. destruct (decide (x = v)) as [->|Hne]; [by rewrite Hstv|].
        rewrite Hobj by done. apply H2. by apply elem_of_cons in Hx as [?|?].
    + intros x Hx Hx0. rewrite Hrun in Hx. apply remove_first_elem in Hx as [Hx Hne]; [|done]. rewrite Hobj by done.
      by apply (po_same _ _ _ P).
    + intros E. by apply app_eq_nil in E as [_ ?].
  - split; simpl; [rewrite R2, R3, R5; apply L|]. intros o. rewrite R1, R9, Hrun.
    assert (NoDup (scheduled_running_reqs l)) as Hns by (rewrite <- Es; apply P).
    intros [Ho Hne]%remove_first_elem; [|done]. pose proof (lo_index _ _ L o Ho) as Ht.
    pose proof (remove_first_take v o _ _ Hnd Ht Hne) as Ht'.
    destruct (decide (v ∈ scheduled_running_reqs l)) as [E|E].
    + by rewrite decide_True in Ht' by (by apply L).
    + case_decide; [|done]. eapply take_mono; [|exact Ht']. lia.
Qed.

Lemma current_removed s l v l' s' o :
  loop_ok s l -> NoDup (running s) -> removed s l v l' -> current s l o -> o <> v ->
  (policy cfg = FCFS -> last (running s) = Some v) ->
  running s' = list_remove_first v (running s) -> current s' (note_preempted v l') o.
Proof.
  intros L Hnd [R1 _ _ _ _ R9 _ _] Cu Hne Hlast Hrun. pose proof Cu as [C1 C2 C3]. split; simpl.
  - rewrite R9, Hrun. pose proof (remove_first_take v o _ _ Hnd C1 Hne) as Ht.
    destruct (decide (v ∈ scheduled_running_reqs l)) as [E|E].
    + pose proof (lo_index _ _ L v E) as Hi. destruct (req_index l) as [|i]; [set_solver|].
      simpl. rewrite Nat.sub_0_r. rewrite decide_True in Ht; [by simpl in Ht; rewrite ?Nat.sub_0_r in Ht|].
      eapply take_mono; [|exact Hi]. lia.
    + case_decide; [|done]. eapply take_mono; [|exact Ht]. lia.
  - rewrite R1. intros Hin. apply C2. clear -Hin. revert Hin.
    induction (scheduled_running_reqs l) as [|x xs IH]; simpl; [done|]. case_decide; set_solver.
  - intros Ep. specialize (C3 Ep). specialize (Hlast Ep). rewrite R9, Hrun.
    rewrite decide_False by (eapply fcfs_victim_unscheduled; done).
    rewrite <- (removelast_first v) by done. apply last_Some in Hlast as [xs Hxs]. rewrite Hxs in C3 |- *.
    rewrite removelast_last. apply lookup_app_Some in C3 as [?|[_ C3]]; [done|].
    apply list_lookup_singleton_Some in C3 as [_ ?]. congruence.
Qed.

(** An allocation for the unscheduled running request [o]. *)
Lemma pass_kv s0 s l o k' :
  pass_ok s0 s l -> o ∈ running s -> o ∉ scheduled l -> kv_ok k' ->
  (forall i, i <> rid s o -> kv_none (kv s) i -> kv_none k' i) ->
  (forall i n, i <> rid s o -> kv_covers (kv s) i n -> kv_covers k' i n) ->
  kv_covers k' (rid s o) (num_computed_tokens (object s o)) ->
  pass_ok s0 (set_kv_cache_manager k' s) l.
Proof.
  intros P Ho Hn Hk Hnone Hcov Hown. pose proof (po_core _ _ _ P) as C.
  assert (Hne : forall o', o' ∈ running s -> o' <> o -> rid s o' <> rid s o).
  { intros o' Ho' Hne E. apply Hne. by eapply (core_unique s); [done|by apply running_live..|]. }
  destruct P as [_ P2 P3 P4 P5 P6 P7 P8 P9 P10 P11 P12 P13 P14 P15 P16]. split; try done.
  - apply (core_change s (waits s l)); try done; try apply C.
    + intros o' Ho'. destruct (decide (o' = o)) as [->|Hd].
      * destruct (co_run _ _ C o Ho). by split.
      * eapply run_ok_frame; [by apply C|]. intros n. apply Hcov. by apply Hne.
    + intros i Hi. apply Hnone; [intros ->; by apply (Hi o)|]. by apply C.
  - by transitivity s.
  - intros i n Hin. destruct (P7 i n Hin) as (o' & H1 & H2 & H3 & H4 & H5). exists o'. split_and!; try done.
    unfold entry_ok. split_and!; try done. apply Hcov; [|done]. apply Hne; [by apply P5|]. by intros ->.
Qed.

Lemma allocate_or_preempt_ok fuel s0 s l o n ts :
  pass_ok s0 s l -> loop_ok s l -> current s l o -> (length (running s) <= fuel)%nat ->
  0 < n -> num_computed_tokens (object s o) + n <= num_tokens (object s o) ->
  wp (allocate_or_preempt cfg fuel o n ts) (fun res p =>
    pass_ok s0 p.1 p.2 /\ loop_ok p.1 p.2 /\ plans_kept s p.1 /\
    (policy cfg = FCFS -> running p.1 `prefix_of` running s /\
       scheduled_running_reqs p.2 = scheduled_running_reqs l) /\
    match res with
    | Some _ => current p.1 p.2 o /\ object p.1 o = object s o /\
        kv_covers (kv p.1) (rid s o) (num_computed_tokens (object s o) + n) /\
        token_budget l <= token_budget p.2 /\
        (length (running p.1) - req_index p.2 <= length (running s) - req_index l)%nat
    | None => preempted_reqs p.2 <> [] /\ o ∉ running p.1 /\ (kv_fits -> running p.1 <> [])
    end) (s, l).
Proof.
  revert s l. induction fuel as [|fuel IH]; intros s l P L Cu Hf Hn Hle.
  { destruct (running s) eqn:E; [|simpl in Hf; lia]. pose proof (cu_take _ _ _ Cu) as Ht.
    rewrite E in Ht. set_solver. }
  pose proof (po_core _ _ _ P) as C. pose proof (take_in _ _ _ (cu_take _ _ _ Cu)) as Ho.
  pose proof (co_run _ _ C o Ho) as R. pose proof (ro_req _ _ R) as RK.
  assert (o ∉ scheduled l) as Hns by (rewrite (scheduled_running_only _ _ L); apply Cu).
  simpl. wp_step. apply wp_on_sched. apply wp_gets. wp_step. apply wp_on_sched, wp_on_kv. simpl.
  rewrite (pc_lookahead _ plain). pose proof (ro_computed _ _ R). pose proof (rk_len _ RK).
  eapply wp_mono; [apply law_allocate; try apply R; try apply RK; try apply C; try lia|].
  intros res k' (Hk & Hnone & Hcov & Hres). fold (rid s o) in Hnone, Hcov, Hres. simpl.
  assert (kv_covers k' (rid s o) (num_computed_tokens (object s o))) as Hown.
  { destruct res; [eapply law_covers_le; [exact Hres|lia]|apply Hres]. }
  pose proof (pass_kv s0 s l o k' P Ho Hns Hk Hnone Hcov Hown) as P1.
  set (s1 := set_kv_cache_manager k' s) in *.
  assert (loop_ok s1 l) as L1 by (by destruct L). assert (current s1 l o) as Cu1 by (by destruct Cu).
  destruct res as [b|].
  { apply wp_ret. simpl. split_and!; try done. by intros r p. }
  destruct Hres as [_ Hfits]. wp_step. eapply wp_mono; [by apply (take_victim_ok s0 s1 l o)|].
  intros v [s2 l2] (Hv & E2 & Hrm & Hlast). simpl in E2, Hrm. subst s2.
  wp_step. apply wp_on_sched. eapply wp_mono; [by apply (preempt_victim_ok s0 s1 l v l2)|].
  simpl. intros _ s3 (P3 & L3 & Hrun & Hpl & Hobj). wp_step. wp_step. simpl. fold (note_preempted v l2).
  pose proof (running_nodup _ _ C) as Hnd.
  assert (Hpre : policy cfg = FCFS -> running s3 `prefix_of` running s /\
            scheduled_running_reqs l2 = scheduled_running_reqs l).
  { intros Ep. rewrite Hrun, (rm_sched _ _ _ _ Hrm). specialize (Hlast Ep). split.
    2:{ apply remove_first_notin. by eapply (fcfs_victim_unscheduled s1). }
    rewrite <- (removelast_first v) by done. apply last_Some in Hlast as [xs Hxs]. change (running s1) with (running s) in *.
    rewrite Hxs, removelast_last. by exists [v]. }
  destruct (Z.eqb_spec v o) as [->|Hne].
  { apply wp_ret. simpl. split_and!; try done.
    - intros E. by apply app_eq_nil in E as [_ ?].
    - rewrite Hrun. intros [_ ?]%remove_first_elem; done.
    - intros Hfit Hnil. apply Hfits. split; [done|]. intros i Hi. apply C. intros o' Ho' E.
      assert (o' = o) as ->; [|congruence]. destruct (decide (o' = o)); [done|].
      assert (o' ∈ running s3) as Hin by (rewrite Hrun; by apply remove_first_elem).
      rewrite Hnil in Hin. set_solver. }
  pose proof (current_removed s1 l v l2 s3 o L1 Hnd Hrm Cu1 ltac:(congruence) Hlast Hrun) as Cu3.
  pose proof (remove_first_length v (running s) Hv) as Hlen. change (running s1) with (running s) in *.
  assert (object s3 o = object s o) as Eobj by (by apply Hobj; congruence).
  eapply wp_mono; [apply (IH s3 (note_preempted v l2)); try done; [rewrite Hrun; lia|by rewrite Eobj]|].
  intros res [s4 l4] (P4 & L4 & Hpl4 & Hpre4 & Hres4). simpl in *. unfold rid in Hres4. rewrite Eobj in Hres4.
  split_and!; try done.
  - intros r p Hp. by apply Hpl4, Hpl.
  - intros Ep. destruct (Hpre Ep) as [? E1], (Hpre4 Ep) as [? E2]. split; [by etransitivity|].
    by rewrite E2, <- E1.
  - destruct res; [|done]. destruct Hres4 as (H1 & H2 & H3 & H4 & H6).
    destruct Hrm as [R1 _ _ _ [R8 _] R9 _ _]. split_and!; try done; [simpl in *; lia|].
    rewrite R9 in H6. rewrite Hrun in H6. case_decide as E; [|lia].
    pose proof (lo_index _ _ L v E) as Hi. destruct (req_index l); [set_solver|]. lia.
Qed.

Arguments allocate_or_preempt : simpl never.

(** ** Scheduling a request *)

(** Request [o], not scheduled so far, is entered with [n] tokens. *)
Lemma pass_book s0 s l s' l' o n b :
  pass_ok s0 s l -> o ∈ running s ++ ids (waits s l) -> o ∉ scheduled l ->
  core s' (waits s' l') -> rq_wf (waiting s') -> rq_wf (skipped_waiting_requests l') -> quiet s s' ->
  o ∈ running s' -> (forall x, x ∈ running s -> x ∈ running s') ->
  (forall x, x ∈ running s' -> x ∈ running s \/ x = o) ->
  (o ∈ running s0 -> o ∈ running s /\ num_computed_tokens (object s' o) = num_computed_tokens (object s o)) ->
  (forall x, x ∈ ids (waits s' l') -> x ∈ ids (waits s l)) ->
  (forall x, x <> o -> object s' x = object s x) ->
  (forall i m, i <> rid s o -> kv_covers (kv s) i m -> kv_covers (kv s') i m) ->
  entry_ok s' o n -> n <= token_budget l ->
  scheduled l' ≡ₚ o :: scheduled l ->
  num_scheduled_tokens l' = dict_set (rid s o) n (num_scheduled_tokens l) ->
  req_to_new_blocks l' = <[rid s o := b]> (req_to_new_blocks l) ->
  token_budget l' = token_budget l - n -> preempted_reqs l' = preempted_reqs l ->
  (forall x, x ∈ scheduled_resumed_reqs l' ->
     x ∈ scheduled_resumed_reqs l \/ x = o /\ rid s o ∉ prev_step_scheduled_req_ids s) ->
  scheduled_encoder_inputs l' = scheduled_encoder_inputs l ->
  scheduled_spec_decode_tokens l' = scheduled_spec_decode_tokens l ->
  pass_ok s0 s' l'.
Proof.
  intros P Hlive Hns C' W1 W2 HQ Hrun Hsub Hsup Hold Hwt Hobj Hcov He Hb E1 E2 E3 E4 E5 E6 E7 E8.
  pose proof (key_of_unscheduled _ _ _ _ P Hlive Hns) as Hkey. rewrite (dict_set_new _ _ _ Hkey) in E2.
  assert (Hr : forall x, rid s' x = rid s x) by (intros; by apply quiet_rid).
  assert (Hne : forall x, x ∈ scheduled l -> x <> o) by (by intros x Hx ->).
  assert (Hrne : forall x, x ∈ scheduled l -> rid s x <> rid s o).
  { intros x Hx E. apply (Hne x Hx). by eapply scheduled_rid. }
  assert (Hin : forall x, x ∈ scheduled l' <-> x = o \/ x ∈ scheduled l).
  { intros x. by rewrite E1, elem_of_cons. }
  split; try done.
  - by transitivity s; [apply P|].
  - rewrite E1. constructor; [done|apply P].
  - intros x [->|Hx]%Hin; [done|]. by apply Hsub, P.
  - rewrite E2, fmap_app. apply NoDup_app. split_and!; [apply P|set_solver|apply NoDup_singleton].
  - intros i m. rewrite E2, elem_of_app, list_elem_of_singleton. intros [Him|[= -> ->]].
    + destruct (po_entry _ _ _ P i m Him) as (x & Hx & <- & H1 & H2 & H3). exists x.
      unfold entry_ok. rewrite Hr, Hobj by auto. split_and!; [by apply Hin; right|done..|].
      apply Hcov; auto.
    + exists o. rewrite Hr. split_and!; [by apply Hin; left|done|done].
  - intros x Hx. rewrite Hr, E2, E3. apply Hin in Hx as [->|Hx].
    + split; [exists n; set_solver|by rewrite lookup_insert_eq].
    + destruct (po_has _ _ _ P x Hx) as [[m Hm] Hs]. rewrite lookup_insert_ne by (symmetry; by apply Hrne).
      split; [|done]. exists m. set_solver.
  - pose proof (po_budget _ _ _ P) as [B1 B2]. rewrite E4, E2.
    rewrite (total_perm _ ((rid s o, n) :: num_scheduled_tokens l)) by (by rewrite Permutation_app_comm).
    simpl. lia.
  - rewrite E5. intros Hp x Hx. rewrite Hr, (qu_prev _ _ HQ).
    rewrite Hobj by (intros ->; by eapply running_not_waiting). apply (po_prev _ _ _ P Hp). by apply Hwt.
  - intros x [Hx|[-> Hx]]%E6; rewrite Hr, (qu_prev _ _ HQ); [by apply (po_resumed _ _ _ P)|done].
  - rewrite E7. intros i inputs Hi. destruct (po_encoder _ _ _ P _ _ Hi) as (x & Hx & E & HF). exists x.
    rewrite Hr, Hobj by auto. split_and!; [by apply Hin; right|done|done].
  - rewrite E8. apply P.
  - intros [H1 H2]%(po_ready _ _ _ P). split; intros x Hx.
    + destruct (decide (x = o)) as [->|Hd]; [destruct He as (He1 & He2 & _); lia|]. rewrite Hobj by done.
      apply H1. by destruct (Hsup x Hx).
    + rewrite Hobj by (intros ->; by eapply running_not_waiting). by apply H2, Hwt.
  - intros x Hx H0. destruct (decide (x = o)) as [->|Hd].
    + destruct (Hold H0) as [Ho ->]. by apply (po_same _ _ _ P).
    + rewrite Hobj by done. apply (po_same _ _ _ P); [|done]. by destruct (Hsup x Hx).
  - rewrite E5. intros Hp x Hx. by apply (po_new _ _ _ P Hp), Hwt.
Qed.

(** *** Encoder inputs *)

Definition planned (r : Request) (inputs : option (list nat)) (e : EncoderCacheManager) : Prop :=
  match inputs with
  | Some is_ => exists p, plan_ok size r p e /\ encoder_inputs_to_schedule p = is_
  | None => True
  end.

Lemma pass_encoder s0 s l e' : pass_ok s0 s l -> cache_inv size e' -> pass_ok s0 (set_encoder_cache_manager e' s) l.
Proof.
  intros P He. pose proof (po_core _ _ _ P) as C.
  destruct P as [_ P2 P3 P4 P5 P6 P7 P8 P9 P10 P11 P12 P13 P14 P15 P16]. split; try done; [|by transitivity s].
  by apply (core_change s (waits s l)); try done; try apply C.
Qed.

Lemma plan_encoder_ok s0 s l r nc n :
  pass_ok s0 s l -> consistent size r -> 0 <= n ->
  wp (plan_encoder_inputs cfg r nc n) (fun '(inputs, n', b) p => exists e',
    p = (set_encoder_cache_manager e' s, l) /\ cache_inv size e' /\ pass_ok s0 p.1 l /\ 0 <= n' <= n /\
    (has_encoder_inputs r = false -> n' = n) /\ planned r inputs e') (s, l).
Proof.
  intros P Hr Hn. pose proof (co_enc _ _ (po_core _ _ _ P)) as He.
  unfold plan_encoder_inputs, shift_computed. rewrite (pc_decoder _ plain), (pc_eagle _ plain).
  wp_step. wp_step. simpl. destruct (has_encoder_inputs r) eqn:Ei.
  - wp_step. apply wp_on_sched, wp_on_encoder. simpl.
    pose proof (try_schedule_ok size size_nonneg (disable_chunked_mm_input cfg) r Hr nc 0 n
                  (encoder_compute_budget l) (encoder s) He) as Hw.
    apply wp_iff in Hw as ([[inputs n'] b] & e' & E & He' & Hs & p & Hp & Hip).
    unfold wp. rewrite E. simpl. apply try_schedule_tokens in E; [|done]. exists e'.
    split_and!; try done; try lia; [by apply pass_encoder|]. by exists p.
  - apply wp_ret. exists (encoder s). replace (set_encoder_cache_manager (encoder s) s) with s by (by destruct s).
    split_and!; try done; lia.
Qed.

Lemma commit_encoder_ok s0 s l r o inputs b :
  pass_ok s0 s l -> consistent size r -> o ∈ scheduled l -> args (object s o) = args r ->
  planned r inputs (encoder s) ->
  wp (commit_encoder_inputs r inputs b) (fun _ p => exists e' m b', pass_ok s0 p.1 p.2 /\
    p = (set_encoder_cache_manager e' s, set_encoder_compute_budget b' (set_scheduled_encoder_inputs m l))) (s, l).
Proof.
  intros P Hr Ho Ea Hp. unfold commit_encoder_inputs.
  assert (wp (py_ret tt) (fun _ p => exists e' m b', pass_ok s0 p.1 p.2 /\
    p = (set_encoder_cache_manager e' s, set_encoder_compute_budget b' (set_scheduled_encoder_inputs m l))) (s, l)) as Hret.
  { apply wp_ret. exists (encoder s), (scheduled_encoder_inputs l), (encoder_compute_budget l).
    split; [done|]. by destruct s, l. }
  destruct inputs as [[|i inputs]|]; [done| |done].
  destruct Hp as (p & (hs & F1 & F2 & _ & _ & F5 & F6) & Ep). rewrite Ep in F1.
  wp_step. wp_step. wp_step. apply wp_on_sched, wp_on_encoder.
  change (encoder (s, l).1) with (encoder s).
  eapply wp_mono; [apply (allocate_all_ok size size_nonneg r Hr _ hs); try done; apply P|].
  intros _ e' [He' _]. apply wp_modify. simpl. do 3 eexists. split; [|done].
  apply (pass_encoder _ _ _ e') in P; [|done].
  destruct P as [P1 P2 P3 P4 P5 P6 P7 P8 P9 P10 P11 P12 P13 P14 P15 P16]. split; try done.
  simpl. intros k js. rewrite lookup_insert_Some. intros [[<- <-]|[_ Hk]]; [|by apply P12].
  exists o. split; [done|]. assert (rid s o = request_id (args r)) as Er by (unfold rid; by rewrite Ea).
  split; [done|]. change (object _ o) with (object s o). rewrite Ea.
  clear -F1. induction F1 as [|x h xs hs (f & Hf & _) F1 IH]; constructor; [by eexists|done].
Qed.

(** ** The loop over the running requests *)

Lemma clip_bounds n : 0 <= clip_long_prefill cfg n <= n \/ n < 0.
Proof.
  unfold clip_long_prefill. destruct (Z.ltb_spec 0 (long_prefill_token_threshold cfg)); simpl; [|lia].
  destruct (Z.ltb_spec (long_prefill_token_threshold cfg) n); simpl; lia.
Qed.
Lemma clip_pos n : 0 < n -> 0 < clip_long_prefill cfg n.
Proof.
  unfold clip_long_prefill. intros Hn. destruct (Z.ltb_spec 0 (long_prefill_token_threshold cfg)); simpl; [|lia].
  destruct (Z.ltb_spec (long_prefill_token_threshold cfg) n); simpl; lia.
Qed.

Lemma new_tokens_running k r budget :
  run_ok k r -> 0 < budget ->
  let n := num_new_tokens_running cfg r budget in
  0 <= n <= budget /\ num_computed_tokens r + n <= num_tokens r /\
  (num_computed_tokens r < num_tokens r -> 0 < n).
Proof.
  intros [_ [_ _ _ _ Hlen _ _ Hs Hp] Hc _] Hb n. unfold n, num_new_tokens_running, num_tokens_with_spec.
  rewrite Hs, Hp. fold (num_tokens r). simpl. rewrite !Z.add_0_r.
  set (d := num_tokens r - num_computed_tokens r). pose proof (clip_bounds d). pose proof (clip_pos d). lia.
Qed.

Lemma running_step_ok s0 s l o ts :
  pass_ok s0 s l -> loop_ok s l -> running s !! req_index l = Some o -> 0 < token_budget l ->
  wp (running_step cfg ts) (fun f p => pass_ok s0 p.1 p.2 /\ loop_ok p.1 p.2 /\
    (policy cfg = FCFS -> running p.1 `prefix_of` running s /\
       scheduled_running_reqs l `prefix_of` scheduled_running_reqs p.2) /\
    match f with
    | Continue => (length (running p.1) - req_index p.2 < length (running s) - req_index l)%nat /\
        (has_encoder_inputs (object s o) = false -> num_computed_tokens (object s o) < num_tokens (object s o) ->
           o ∈ scheduled_running_reqs p.2)
    | Break => preempted_reqs p.2 <> [] /\ o ∉ running p.1 /\ (kv_fits -> running p.1 <> [])
    end) (s, l).
Proof.
  intros P L Hi Hb. pose proof (po_core _ _ _ P) as C. pose proof (running_nodup _ _ C) as Hnd.
  assert (o ∈ running s) as Ho by (by eapply list_elem_of_lookup_2). pose proof (co_run _ _ C o Ho) as R.
  pose proof (ro_req _ _ R) as RK. pose proof (lookup_lt_Some _ _ _ Hi) as Hlt.
  unfold running_step. wp_step. wp_step. wp_step. apply wp_on_sched, wp_gets. wp_step. simpl.
  eapply wp_unwrap; [exact Hi|]. wp_step. apply wp_on_sched, wp_gets. simpl. set (r := object s o).
  assert (async_reached_max_tokens r = false) as ->.
  { unfold async_reached_max_tokens, r. by rewrite (rk_place _ RK). }
  wp_step. wp_step. simpl. wp_step.
  pose proof (new_tokens_running _ r (token_budget l) R Hb) as (N1 & N2 & N3).
  eapply wp_mono; [apply (plan_encoder_ok s0 s l r); [done|apply RK|lia]|].
  intros [[inputs n] b] p (e' & -> & He' & P1 & Hn & Hne & Hpl). simpl in P1. set (s1 := set_encoder_cache_manager e' s) in *.
  assert (loop_ok s1 l) as L1 by (by destruct L).
  destruct (Z.eqb_spec n 0) as [->|Hn0].
  { wp_step. wp_step. apply wp_ret. simpl. split_and!; try done.
    - by destruct P1.
    - destruct L1 as [? L2]. split; [done|]. intros x Hx. eapply take_mono; [|by apply L2]. simpl. lia.
    - change (running s1) with (running s). lia.
    - intros He Hc. specialize (Hne He). specialize (N3 Hc). lia. }
  assert (current s1 l o) as Cu.
  { split; [| |done].
    - change (running s1) with (running s). rewrite (take_S_r _ _ _ Hi). set_solver.
    - intros Hin%(lo_index _ _ L). apply list_elem_of_lookup_1 in Hin as [j Hj].
      apply lookup_take_Some in Hj as [Hj Hjlt]. pose proof (NoDup_lookup _ _ _ _ Hnd Hi Hj). lia. }
  wp_step. eapply wp_mono; [apply (allocate_or_preempt_ok _ s0 s1 l o n ts); try done;
    [change (running s1) with (running s); lia|lia|change (object s1 o) with r; lia]|].
  intros res [s2 l2] (P2 & L2 & Hpl2 & Hpre & Hres). cbn [fst snd] in *. change (running s1) with (running s) in *.
  destruct res as [blk|].
  2:{ apply wp_ret. simpl. split_and!; try done; try apply Hres. intros Ep.
      destruct (Hpre Ep) as [? ->]. done. }
  destruct Hres as (Cu2 & Eo & Hcov & Hbud & Hmeas). change (object s1 o) with r in *.
  change (rid s1 o) with (rid s o) in *.
  assert (rid s2 o = rid s o) as Er by (unfold rid; by rewrite Eo).
  pose proof (take_in _ _ _ (cu_take _ _ _ Cu2)) as Ho2.
  wp_step. wp_step. wp_step. wp_step. simpl. fold (rid s o).
  set (l3 := set_req_index _ _).
  assert (pass_ok s0 s2 l3) as P3.
  { apply (pass_book s0 s2 l2 s2 l3 o n blk); try done; try (by rewrite Er); try apply P2.
    - by apply running_live.
    - rewrite (scheduled_running_only _ _ L2). apply Cu2.
    - intros x Hx. by left.
    - split_and!; [lia|rewrite Eo; fold r; lia|]. by rewrite Er, Eo.
    - lia.
    - unfold scheduled. simpl. rewrite <- Permutation_cons_append. done.
    - intros x Hx. by left. }
  assert (loop_ok s2 l3) as L3.
  { destruct L2 as [L2a L2b]. split; [done|]. simpl. intros x [Hx|Hx]%elem_of_app.
    - eapply take_mono; [|by apply L2b]. lia.
    - apply list_elem_of_singleton in Hx as ->. apply Cu2. }
  assert (o ∈ scheduled l3) as Ho3.
  { rewrite (scheduled_running_only _ _ L3). simpl. set_solver. }
  wp_step. unfold schedule_spec_tokens. wp_step. apply wp_on_sched, wp_gets. simpl.
  rewrite Eo; unfold r at 1; rewrite (rk_spec _ RK). apply wp_ret. wp_step.
  eapply wp_mono; [apply (commit_encoder_ok s0 s2 l3 r o); try done; [apply RK|by rewrite Eo|]|].
  { destruct inputs as [is_|]; [|done]. destruct Hpl as (p & Hp & E). exists p. split; [|done]. by apply Hpl2. }
  intros _ p (e3 & m & b' & P4 & ->). apply wp_ret. simpl in P4 |- *. split_and!; try done.
  - by destruct L3.
  - intros Ep. destruct (Hpre Ep) as [? ->]. split; [done|]. by eexists.
  - change (req_index l3) with (S (req_index l2)).
    change (running s1) with (running s) in Hmeas. simpl in Hmeas. lia.
  - intros _ _. set_solver.
Qed.

Lemma running_loop_ok fuel s0 s l ts :
  pass_ok s0 s l -> loop_ok s l -> (length (running s) - req_index l <= fuel)%nat ->
  wp (running_loop cfg fuel ts) (fun _ p => pass_ok s0 p.1 p.2 /\ loop_ok p.1 p.2 /\
    (policy cfg = FCFS -> running p.1 `prefix_of` running s /\
       scheduled_running_reqs l `prefix_of` scheduled_running_reqs p.2) /\
    (policy cfg = FCFS -> kv_fits -> 0 < token_budget l -> forall o, running s !! req_index l = Some o ->
       has_encoder_inputs (object s o) = false -> num_computed_tokens (object s o) < num_tokens (object s o) ->
       o ∈ scheduled_running_reqs p.2 \/ o ∉ running p.1 /\ running p.1 <> [])) (s, l).
Proof.
  revert s l. induction fuel as [|fuel IH]; intros s l P L Hf; simpl; wp_step; wp_step;
    (destruct (Nat.ltb_spec (req_index l) (length (running s))) as [Hlt|Hge]; simpl;
      [|apply wp_ret; simpl; split_and!; try done;
        intros _ _ _ o Ho%lookup_lt_Some; lia]); [lia|].
  destruct (Z.ltb_spec 0 (token_budget l)) as [Hb|Hb]; simpl.
  2:{ apply wp_ret. simpl. split_and!; try done. lia. }
  destruct (lookup_lt_is_Some_2 _ _ Hlt) as [o Ho].
  wp_step. eapply wp_mono; [by apply (running_step_ok s0 s l o)|].
  intros f [s1 l1] (P1 & L1 & Hpre & Hf1). cbn [fst snd] in *. destruct f.
  - destruct Hf1 as [Hm Hs]. eapply wp_mono; [apply (IH s1 l1); [done|done|lia]|].
    intros _ [s2 l2] (P2 & L2 & Hpre2 & _). cbn [fst snd] in *. split_and!; try done.
    + intros Ep. destruct (Hpre Ep), (Hpre2 Ep). split; by etransitivity.
    + intros Ep _ _ x Hx He Hc. assert (x = o) as -> by congruence. left.
      destruct (Hpre2 Ep) as [_ [t ->]]. apply elem_of_app. left. by apply Hs.
  - apply wp_ret. cbn [fst snd]. split_and!; try done. intros Ep Hfit _ x Hx _ _. right.
    assert (x = o) as -> by congruence. destruct Hf1 as (_ & ? & ?). auto.
Qed.

(** ** The loop over the waiting requests *)

Lemma pass_kv_all s0 s l k' :
  pass_ok s0 s l -> kv_ok k' ->
  (forall i, (forall o, o ∈ running s -> rid s o <> i) -> kv_none k' i) ->
  (forall o n, o ∈ running s -> kv_covers (kv s) (rid s o) n -> kv_covers k' (rid s o) n) ->
  pass_ok s0 (set_kv_cache_manager k' s) l.
Proof.
  intros P Hk Hnone Hcov. pose proof (po_core _ _ _ P) as C.
  destruct P as [_ P2 P3 P4 P5 P6 P7 P8 P9 P10 P11 P12 P13 P14 P15 P16]. split; try done.
  - apply (core_change s (waits s l)); try done; try apply C.
    intros o Ho. eapply run_ok_frame; [by apply C|]. intros n. by apply Hcov.
  - by transitivity s.
  - intros i n Hin. destruct (P7 i n Hin) as (o & H1 & H2 & H3 & H4 & H5). exists o.
    unfold entry_ok. split_and!; try done. apply Hcov; [by apply P5|done].
Qed.

(** A waiting request changes, but not in what matters while it waits. *)
Lemma pass_touch s0 s l o f :
  pass_ok s0 s l -> o ∈ ids (waits s l) -> wait_ok (f (object s o)) ->
  args (f (object s o)) = args (object s o) -> all_token_ids (f (object s o)) = all_token_ids (object s o) ->
  (status (f (object s o)) = PREEMPTED -> status (object s o) = PREEMPTED) ->
  (status (f (object s o)) = WAITING_FOR_FSM -> status (object s o) = WAITING_FOR_FSM) ->
  output_token_ids (f (object s o)) = output_token_ids (object s o) ->
  pass_ok s0 (write_object o f s) l.
Proof.
  intros P Ho Hw Ea Et Est Efs Eout. pose proof (po_core _ _ _ P) as C.
  assert (Hobj : forall x, x <> o -> object (write_object o f s : Sched) x = object s x).
  { intros x Hx. by rewrite object_write, decide_False. }
  assert (Hself : object (write_object o f s : Sched) o = f (object s o)) by (by rewrite object_write, decide_True).
  assert (Hrun : forall x, x ∈ running s -> x <> o).
  { intros x Hx ->. by eapply running_not_waiting. }
  assert (quiet s (write_object o f s)) as HQ.
  { split; try done; intros x; (destruct (decide (x = o)) as [->|Hx]; [by rewrite Hself|by rewrite Hobj]). }
  assert (Hrid : forall x, rid (write_object o f s) x = rid s x) by (intros; by apply quiet_rid).
  destruct P as [_ P2 P3 P4 P5 P6 P7 P8 P9 P10 P11 P12 P13 P14 P15 P16]. split; try done.
  - apply (core_change s (waits s l)); try done; try apply C.
    + intros x Hx. rewrite Hobj by (by apply Hrun). by apply C.
    + intros x Hx. destruct (decide (x = o)) as [->|Hne]; [by rewrite Hself|]. rewrite Hobj by done. by apply C.
  - by transitivity s.
  - intros i n Hin. destruct (P7 i n Hin) as (x & H1 & H2 & H3). exists x. unfold entry_ok.
    rewrite Hrid, Hobj by (by apply Hrun, P5). done.
  - intros x Hx. rewrite Hrid. by apply P8.
  - intros Hp x Hx. rewrite Hrid. destruct (decide (x = o)) as [->|Hne].
    + rewrite Hself. intros E. apply P10; [done|done|by apply Est].
    + rewrite Hobj by done. by apply P10.
  - intros x Hx. rewrite Hrid. by apply P11.
  - intros i inputs Hi. destruct (P12 i inputs Hi) as (x & H1 & H2 & H3). exists x. rewrite Hrid.
    rewrite Hobj by (by apply Hrun, P5). done.
  - intros [H1 H2]%P14. split; intros x Hx.
    + rewrite Hobj by (by apply Hrun). by apply H1.
    + destruct (decide (x = o)) as [->|Hne]; [rewrite Hself; intros E; by apply (H2 o Hx), Efs|].
      rewrite Hobj by done. by apply H2.
  - intros x Hx. rewrite Hobj by (by apply Hrun). by apply P15.
Qed.

(** The head of the queue is put aside. *)
Lemma skip_ok s0 s l a w' :
  pass_ok s0 s l -> rq_iter (waiting s) = a :: w' ->
  wp (skip_request a) (fun f p => f = Continue /\ pass_ok s0 p.1 p.2 /\ rq_iter (waiting p.1) = w' /\
    running p.1 = running s /\ preempted_reqs p.2 = preempted_reqs l /\ scheduled p.2 = scheduled l /\
    token_budget p.2 = token_budget l) (s, l).
Proof.
  intros P Hit. pose proof (po_core _ _ _ P) as C. destruct (po_wf _ _ _ P) as [W1 W2].
  unfold skip_request. wp_step. apply wp_on_sched, wp_on_waiting. simpl.
  pose proof (law_pop (waiting s) W1) as Hpop. rewrite Hit in Hpop. destruct Hpop as (q & Eq & Wq & Hq).
  unfold wp at 1. rewrite Eq. wp_step. apply wp_zoom. simpl.
  pose proof (co_nodup _ _ C) as Hnd. apply NoDup_app in Hnd as (_ & _ & Hnd).
  unfold waits in Hnd. rewrite Hit in Hnd.
  destruct (law_prepend (skipped_waiting_requests l) a) as (q2 & Eq2 & Wq2 & Hq2); [done| |].
  { unfold fresh_for. simpl in *. unfold ids in *. simpl in *. apply NoDup_cons in Hnd as [Hn Hnd].
    rewrite fmap_app in Hn, Hnd. apply NoDup_app in Hnd as (_ & _ & ?). constructor; [set_solver|done]. }
  unfold wp at 1. rewrite Eq2. apply wp_ret. simpl. split_and!; try done.
  assert (waits (set_waiting q s) (set_skipped_waiting_requests q2 l) ≡ₚ waits s l) as HP.
  { unfold waits. simpl. rewrite Hq, Hq2, Hit, law_place_front. simpl. by rewrite Permutation_middle. }
  destruct P as [_ P2 P3 P4 P5 P6 P7 P8 P9 P10 P11 P12 P13 P14 P15 P16]. split; try done.
  - apply (core_perm _ (waits s l)); [done|]. apply (core_change s (waits s l)); try done; apply C.
  - by transitivity s.
  - intros Hp x. rewrite (ids_perm _ _ HP). by apply P10.
  - intros [H1 H2]%P14. split; [done|]. intros x. rewrite (ids_perm _ _ HP). by apply H2.
  - intros Hp x. rewrite (ids_perm _ _ HP). by apply P16.
Qed.

(** A request that may be scheduled is WAITING or PREEMPTED. *)
Lemma waiting_ready_ok s0 s l a :
  pass_ok s0 s l -> a ∈ waits s l ->
  wp (waiting_ready cfg a) (fun ready p => exists s', p = (s', l) /\ pass_ok s0 s' l /\
    waiting s' = waiting s /\ running s' = running s /\ kv s' = kv s /\ encoder s' = encoder s /\
    (status (object s (obj_id a)) <> WAITING_FOR_FSM -> ready = true) /\
    has_encoder_inputs (object s' (obj_id a)) = has_encoder_inputs (object s (obj_id a)) /\
    (ready = true -> status (object s' (obj_id a)) = WAITING \/ status (object s' (obj_id a)) = PREEMPTED)) (s, l).
Proof.
  intros P Ha. pose proof (po_core _ _ _ P) as C. set (o := obj_id a).
  assert (o ∈ ids (waits s l)) as Ho by (by apply list_elem_of_fmap_2).
  pose proof (co_wait _ _ C o Ho) as W. unfold waiting_ready. fold o.
  wp_step. apply wp_on_sched, wp_gets. simpl. wp_step.
  rewrite decide_False by (destruct (wo_status _ W) as [E|[E|E]]; rewrite E; done).
  apply wp_ret. simpl. wp_step. apply wp_on_sched, wp_gets. simpl. wp_step. apply wp_on_sched, wp_gets. simpl.
  wp_step. rewrite (pc_loras _ plain). case_decide as Ef.
  - destruct (grammar_ready _ _).
    + wp_step. apply wp_on_sched, wp_modify. apply wp_ret. simpl. wp_step. wp_step. apply wp_ret.
      exists (write_object o (set_status WAITING) s).
      assert (object (write_object o (set_status WAITING) s : Sched) o = set_status WAITING (object s o)) as Eo
        by (by rewrite object_write, decide_True).
      split_and!; try done.
      * apply pass_touch; try done. split; [by left| |apply W].
        eapply req_ok_ext; [apply W|..]; try done; apply W.
      * unfold has_encoder_inputs. by rewrite Eo.
      * intros _. left. by rewrite Eo.
    + apply wp_ret. simpl. apply wp_ret. exists s. split_and!; try done.
  - apply wp_ret. simpl. wp_step. wp_step. apply wp_ret. exists s. split_and!; try done.
    intros _. destruct (wo_status _ W) as [E|[E|E]]; auto. done.
Qed.

(** The object of an admitted request. *)
Definition admitted (r r' : Request) (h : Z) : Prop :=
  args r' = args r /\ all_token_ids r' = all_token_ids r /\ status r' = RUNNING /\
  num_computed_tokens r' = h /\ req_ok r' /\ output_token_ids r' = output_token_ids r.

(** The head [a] of the queue, with its slots allocated in [k'], starts to run. *)
Lemma admit_ok s0 s l a w' k' q h n ts inputs b :
  let o := obj_id a in
  pass_ok s0 s l -> rq_iter (waiting s) = a :: w' -> rq_wf q -> rq_iter q = w' ->
  Z.of_nat (length (running s)) < max_num_running_reqs cfg ->
  status (object s o) = WAITING \/ status (object s o) = PREEMPTED -> preempted_reqs l = [] ->
  kv_ok k' -> (forall i, i <> rid s o -> kv_none (kv s) i -> kv_none k' i) ->
  (forall i m, i <> rid s o -> kv_covers (kv s) i m -> kv_covers k' i m) ->
  kv_covers k' (rid s o) (h + n) -> 0 <= h -> 0 < n <= token_budget l -> h + n <= num_tokens (object s o) ->
  planned (object s o) inputs (encoder s) ->
  wp (admit_request cfg a n h ts inputs b) (fun _ p => pass_ok s0 p.1 p.2 /\ running p.1 = running s ++ [o] /\
    rq_iter (waiting p.1) = w' /\ preempted_reqs p.2 = [] /\ scheduled p.2 ≡ₚ o :: scheduled l)
    (set_waiting q (set_kv_cache_manager k' s), l).
Proof.
  intros o P Hit Wq Hq Hmax Hst Hpre Hk Hnone Hcov Hown Hh Hn Hle Hpl.
  pose proof (po_core _ _ _ P) as C. set (s2 := set_waiting q _).
  assert (a ∈ waits s l) as Ha by (unfold waits; rewrite Hit; set_solver).
  assert (o ∈ ids (waits s l)) as Ho by (by apply list_elem_of_fmap_2).
  assert (o ∈ running s ++ ids (waits s l)) as Hlive by (apply elem_of_app; by right).
  pose proof (co_wait _ _ C o Ho) as W. pose proof (co_ref _ _ C a Ha) as Ea.
  assert (request_id a = rid s o) as Er by (unfold rid, o; by rewrite Ea).
  assert (o ∉ running s) as Hnr by (intros Hr; by eapply running_not_waiting).
  unfold admit_request. fold o. rewrite Er. wp_step. apply wp_on_sched, wp_gets. simpl.
  change (object s2 o) with (object s o). wp_step. apply wp_on_sched.
  apply (wp_mono _ (fun _ s' => exists st, s' = set_connector_prefix_cache_stats st s2)).
  { unfold update_connector_prefix_cache_stats. wp_step. wp_step. cbn [fst].
    destruct (connector_prefix_cache_stats s2) eqn:Ec; [apply wp_modify; eexists; reflexivity|].
    apply wp_ret. exists None. rewrite <- Ec. by destruct s2. }
  intros _ ? (st & ->). wp_step. wp_step. simpl. wp_step. apply wp_on_sched, wp_modify. simpl.
  set (s3 := set_running _ _). wp_step.
  set (log := if scheduler_log_stats cfg then record_event SCHEDULED ts else id).
  apply (wp_mono _ (fun _ p => p = (write_object o log s3, set_req_index (S (req_index l)) l) \/
                               p = (s3, set_req_index (S (req_index l)) l) /\ log = id)).
  { unfold log. destruct (scheduler_log_stats cfg); [apply wp_on_sched, wp_modify; by left|apply wp_ret; by right]. }
  intros _ p Hp.
  assert (exists s4, p = (s4, set_req_index (S (req_index l)) l) /\ running s4 = running s ++ [o] /\
            waiting s4 = q /\ kv s4 = k' /\ encoder s4 = encoder s /\ quiet s s4 /\
            object s4 o = log (object s o) /\ forall x, x <> o -> object s4 x = object s x)
    as (s4 & -> & Hr4 & Hw4 & Hk4 & He4 & HQ4 & Ho4 & Hx4).
  { destruct Hp as [->|[-> El]]; eexists; (split; [reflexivity|]); split_and!; try done.
    - split; try done; intros x; rewrite object_write; case_decide as E; try done; subst;
        unfold log; by destruct (scheduler_log_stats cfg).
    - by rewrite object_write, decide_True.
    - intros x Hx. by rewrite object_write, decide_False.
    - by rewrite El. }
  clear Hp. wp_step.
  set (new := if decide (status (object s o) = WAITING) then [o] else []).
  set (res := if decide (status (object s o) = WAITING) then [] else [o]).
  apply (wp_mono _ (fun _ p => p = (s4, set_scheduled_new_reqs (scheduled_new_reqs l ++ new)
    (set_scheduled_resumed_reqs (scheduled_resumed_reqs l ++ res) (set_req_index (S (req_index l)) l))))).
  { unfold new, res. destruct Hst as [E|E]; rewrite E; simpl; apply wp_modify; simpl;
      rewrite ?app_nil_r; by destruct l. }
  intros _ ? ->. wp_step. rewrite (pc_loras _ plain). apply wp_ret. wp_step. apply wp_on_sched, wp_on_kv.
  simpl. rewrite Hk4. destruct (law_get_blocks k' (rid s o) Hk) as [blk Eb]. unfold wp at 1. rewrite Eb.
  assert (forall k, k = kv s4 -> set_kv_cache_manager k s4 = s4) as Eset by (intros k ->; by destruct s4).
  rewrite Eset by done. clear Eset. wp_step. wp_step. simpl. wp_step. apply wp_on_sched, wp_modify. simpl.
  set (s5 := write_object o _ s4). set (l5 := set_req_to_new_blocks _ _).
  assert (admitted (object s o) (object s5 o) h) as (A1 & A2 & A3 & A4 & A5 & A6).
  { unfold s5. rewrite object_write, decide_True, Ho4 by done. unfold log.
    destruct (scheduler_log_stats cfg); simpl; destruct (_ <? 0); split_and!; try done;
      (eapply req_ok_ext; [apply W|..]; try done; apply W). }
  assert (Hx5 : forall x, x <> o -> object s5 x = object s x).
  { intros x Hx. unfold s5. rewrite object_write, decide_False by done. by apply Hx4. }
  assert (quiet s s5) as HQ.
  { destruct HQ4. split; try done; intros x; (destruct (decide (x = o)) as [->|Hx]; [done|by rewrite Hx5]). }
  assert (waits s5 l5 ≡ₚ w' ++ rq_iter (skipped_waiting_requests l)) as Hw5.
  { unfold waits. simpl. rewrite Hw4, Hq. done. }
  assert (waits s l ≡ₚ a :: waits s5 l5) as Hws by (rewrite Hw5; unfold waits; by rewrite Hit).
  assert (forall x, x ∈ ids (waits s5 l5) -> x ∈ ids (waits s l)) as Hsub.
  { intros x Hx. rewrite (ids_perm _ _ Hws). by right. }
  assert (scheduled l5 ≡ₚ o :: scheduled l) as Hsch.
  { unfold scheduled. simpl. unfold new, res. destruct Hst as [E|E]; rewrite E; simpl; rewrite ?app_nil_r.
    - rewrite <- app_assoc. simpl. rewrite <- Permutation_middle. by rewrite <- Permutation_middle.
    - rewrite !app_assoc. by rewrite <- Permutation_cons_append. }
  assert (pass_ok s0 s5 l5) as P5.
  { apply (pass_book s0 s l s5 l5 o n blk); try done.
    - intros Hin. by apply Hnr, P.
    - apply (core_change s (waits s l)); try done.
      + change (running s5) with (running s4). rewrite Hr4, (ids_perm _ _ Hws). simpl. fold o.
        by rewrite <- app_assoc.
      + intros x Hx. apply C. rewrite Hws. by right.
      + change (running s5) with (running s4). rewrite Hr4. intros x [Hx| ->]%elem_of_snoc; [by apply C|]. by eapply core_obj_id.
      + change (kv s5) with (kv s4). by rewrite Hk4.
      + change (encoder s5) with (encoder s4). rewrite He4. apply C.
      + change (running s5) with (running s4). change (kv s5) with (kv s4). rewrite Hr4, Hk4.
        intros x [Hx|Hx]%elem_of_app.
        * rewrite Hx5 by (by intros ->). eapply run_ok_frame; [by apply C|]. intros m. apply Hcov.
          intros E. assert (x = o) as ->; [|done].
          eapply (core_unique s (waits s l)); [done|by apply running_live|done|done].
        * apply list_elem_of_singleton in Hx as ->. split; [done|done|rewrite A4; unfold num_tokens in *; rewrite A2; lia|].
          rewrite A1, A4. eapply law_covers_le; [exact Hown|lia].
      + intros x Hx. assert (x <> o) as Hne.
        { intros ->. pose proof (co_nodup _ _ C) as Hnd. rewrite (ids_perm _ _ Hws) in Hnd. simpl in Hnd. fold o in Hnd.
          rewrite <- Permutation_middle in Hnd. apply NoDup_cons in Hnd as [Hnd _].
          apply Hnd, elem_of_app. by right. }
        rewrite Hx5 by done. by apply (co_wait _ _ C), Hsub.
      + change (running s5) with (running s4). change (kv s5) with (kv s4). rewrite Hr4, Hk4. intros i Hi.
        apply Hnone; [intros ->; apply (Hi o); [apply elem_of_snoc; by right|done]|].
        apply (co_idle _ _ C). intros x Hx. apply Hi, elem_of_snoc. by left.
      + change (running s5) with (running s4). rewrite Hr4, length_app. simpl. lia.
    - change (waiting s5) with (waiting s4). by rewrite Hw4.
    - apply P.
    - change (running s5) with (running s4). rewrite Hr4. apply elem_of_snoc. by right.
    - change (running s5) with (running s4). rewrite Hr4. intros x Hx. apply elem_of_snoc. by left.
    - change (running s5) with (running s4). rewrite Hr4. by intros x Hx%elem_of_snoc.
    - intros H0. by destruct (po_new _ _ _ P Hpre o Ho).
    - change (kv s5) with (kv s4). by rewrite Hk4.
    - unfold entry_ok. rewrite A4. change (kv s5) with (kv s4). rewrite Hk4, (quiet_rid _ _ _ HQ).
      unfold num_tokens in *. rewrite A2. split_and!; [lia|lia|done].
    - lia.
    - simpl. intros x [Hx|Hx]%elem_of_app; [by left|]. right. unfold res in Hx. case_decide as E; [by apply not_elem_of_nil in Hx|].
      apply list_elem_of_singleton in Hx as ->. split; [done|]. apply (po_prev _ _ _ P Hpre); [done|].
      by destruct Hst. }
  eapply wp_mono; [apply (commit_encoder_ok s0 s5 l5 (object s o) o); try done; [apply W|rewrite Hsch; left|]|].
  { change (encoder s5) with (encoder s4). by rewrite He4. }
  intros _ p (e3 & m & b' & P6 & ->). simpl in P6 |- *. split_and!; try done.
  by rewrite Hw4, Hq.
Qed.

Lemma waiting_step_ok s0 s l a w' ts :
  let o := obj_id a in
  pass_ok s0 s l -> rq_iter (waiting s) = a :: w' -> 0 < token_budget l -> preempted_reqs l = [] ->
  Z.of_nat (length (running s)) < max_num_running_reqs cfg ->
  wp (waiting_step cfg ts) (fun f p => pass_ok s0 p.1 p.2 /\ preempted_reqs p.2 = [] /\
    running s `prefix_of` running p.1 /\ (forall x, x ∈ scheduled l -> x ∈ scheduled p.2) /\
    (f = Continue -> rq_iter (waiting p.1) = w') /\
    (status (object s o) <> WAITING_FOR_FSM -> has_encoder_inputs (object s o) = false ->
     enable_chunked_prefill cfg = true -> kv_fits -> running s = [] ->
     f = Continue /\ o ∈ scheduled p.2)) (s, l).
Proof.
  intros o P Hit Hb Hpre Hmax. destruct (po_wf _ _ _ P) as [W1 W2].
  assert (a ∈ waits s l) as Ha by (unfold waits; rewrite Hit; set_solver).
  unfold waiting_step. wp_step. apply wp_on_sched, wp_on_waiting. simpl. unfold wp at 1.
  rewrite (law_peek _ W1), Hit. replace (set_waiting (waiting s) s) with s by (by destruct s). fold o. wp_step.
  eapply wp_mono; [by apply (waiting_ready_ok s0 s l a)|]. fold o.
  intros ready ? (s1 & -> & P1 & Ew & Er & Ek & Ee & Hready & Henc & Hst). rewrite <- Ew in Hit.
  destruct ready; cbn [negb].
  2:{ eapply wp_mono; [by apply (skip_ok s0 s1 l a w')|].
      intros f p (-> & P2 & H2 & H3 & H4 & H5 & H6). rewrite H3, H4, H5, Er. split_and!; try done.
      intros Hs. by specialize (Hready Hs). }
  specialize (Hst eq_refl). clear Hready. pose proof (po_core _ _ _ P1) as C.
  assert (a ∈ waits s1 l) as Ha1 by (unfold waits; rewrite Hit; set_solver).
  assert (o ∈ ids (waits s1 l)) as Ho by (by apply list_elem_of_fmap_2).
  pose proof (co_wait _ _ C o Ho) as W. pose proof (wo_req _ W) as RK.
  wp_step. unfold computed_tokens_of. wp_step. apply wp_on_sched, wp_gets. simpl.
  rewrite (wo_computed _ W), Z.eqb_refl. wp_step. apply wp_on_sched, wp_on_kv. simpl.
  eapply wp_mono; [apply law_get_computed; [apply C|apply RK|apply RK]|].
  intros [blk h] k1 (Hk1 & Hn1 & Hc1 & Hh & Hhit). rewrite law_no_connector. simpl. apply wp_ret.
  assert (pass_ok s0 (set_kv_cache_manager k1 s1) l) as P2.
  { apply pass_kv_all; try done; [intros i Hi; by apply Hn1, (co_idle _ _ C)|intros x m _; apply Hc1]. }
  set (s2 := set_kv_cache_manager k1 s1) in *. wp_step. apply wp_on_sched, wp_gets. simpl.
  change (object s2 o) with (object s1 o). set (r := object s1 o). fold r in Hh, Hhit. rewrite Z.add_0_r.
  wp_step. unfold plan_waiting. wp_step. wp_step. simpl. wp_step. wp_step. simpl.
  set (n0 := clip_long_prefill cfg (num_tokens r - h)).
  assert (0 < n0 <= num_tokens r - h) as Hn0.
  { pose proof (clip_bounds (num_tokens r - h)). pose proof (clip_pos (num_tokens r - h)). unfold n0. lia. }
  assert (running s `prefix_of` running s2) as Hpr by (change (running s2) with (running s1); by rewrite Er).
  destruct (negb (enable_chunked_prefill cfg) && (token_budget l <? n0)) eqn:Ech.
  { apply wp_ret, wp_ret. simpl. split_and!; try done. intros _ _ Hch. by rewrite Hch in Ech. }
  wp_step. apply wp_assert; [apply Z.ltb_lt; lia|]. wp_step.
  eapply wp_mono; [apply (plan_encoder_ok s0 s2 l r); [done|apply RK|lia]|].
  intros [[inputs n] b] p (e' & -> & He' & P3 & Hn & Hne & Hpl). simpl in P3.
  set (s3 := set_encoder_cache_manager e' s2) in *.
  destruct (has_encoder_inputs r && (n =? 0)) eqn:Ebr.
  { apply wp_ret, wp_ret. simpl. split_and!; try done. intros _ He. rewrite <- Henc in He. fold r in He.
    by rewrite He in Ebr. }
  assert (0 < n) as Hpos.
  { destruct (has_encoder_inputs r); [|rewrite Hne by done; lia]. simpl in Ebr. apply Z.eqb_neq in Ebr. lia. }
  apply wp_ret. pose proof (wo_computed _ W) as Ecomp. fold r in Ecomp.
  rewrite Ecomp, Z.eqb_refl, (pc_decoder _ plain). simpl.
  wp_step. apply wp_on_sched, wp_on_kv. simpl. rewrite Z.add_0_r.
  pose proof (rk_len _ RK) as Hlen. fold r in Hlen.
  pose proof (running_not_waiting _ _ o C) as Hnr.
  assert (kv_none k1 (rid s1 o)) as Hnone.
  { apply (co_idle _ _ (po_core _ _ _ P2)). intros x Hx E. apply (Hnr); [|done].
    assert (x = o) as <-; [|done]. eapply (core_unique s1 (waits s1 l)); [done|by apply running_live| |done].
    apply elem_of_app. by right. }
  eapply wp_mono; [apply (law_allocate_new k1 r n blk h); try done; try apply RK; try apply W; lia|].
  intros res k2 (Hk2 & Hn2 & Hc2 & Hres). fold (rid s1 o) in Hn2, Hc2, Hres.
  assert (Hother : forall x, x ∈ running s1 -> rid s1 x <> rid s1 o).
  { intros x Hx E. apply Hnr; [|done]. assert (x = o) as <-; [|done].
    eapply (core_unique s1 (waits s1 l)); [done|by apply running_live| |done]. apply elem_of_app. by right. }
  destruct res as [nb|].
  2:{ destruct Hres as [Hnn Hfits]. apply wp_ret. simpl. split_and!; try done.
      - apply (pass_kv_all s0 s3 l k2); try done.
        + intros i Hi. destruct (decide (i = rid s1 o)) as [->|Hd]; [done|]. apply Hn2; [done|].
          by apply (co_idle _ _ (po_core _ _ _ P3)).
        + intros x m Hx. apply Hc2. by apply Hother.
      - intros _ _ _ Hfit Hnil. destruct Hfits. split; [done|]. intros i Hi.
        apply (co_idle _ _ (po_core _ _ _ P2)). intros x Hx. change (running s2) with (running s1) in Hx.
        rewrite Er, Hnil in Hx. set_solver. }
  wp_step. apply wp_ret. wp_step. apply wp_on_sched, wp_on_waiting. simpl.
  rewrite Ew in Hit |- *. pose proof (law_pop (waiting s) W1) as Hpop. rewrite Hit in Hpop.
  destruct Hpop as (q & Eq & Wq & Hq). unfold wp at 1. rewrite Eq. wp_step.
  eapply wp_mono; [apply (admit_ok s0 s3 l a w' k2 q h n ts inputs b); try done|].
  - simpl. by rewrite Ew.
  - simpl. by rewrite Er.
  - lia.
  - lia.
  - fold o. change (object s3 o) with r. lia.
  - intros _ p (P5 & H1 & H2 & H3 & H4). fold o in H1, H4. apply wp_ret. split_and!; try done.
    + rewrite H1. change (running s3) with (running s1). rewrite Er. by eexists.
    + intros x Hx. rewrite H4. by right.
    + intros _ _ _ _ _. split; [done|]. rewrite H4. left.
Qed.

Lemma waiting_loop_ok fuel s0 s l ts :
  pass_ok s0 s l -> preempted_reqs l = [] -> (length (rq_iter (waiting s)) <= fuel)%nat ->
  wp (waiting_loop cfg fuel ts) (fun _ p => pass_ok s0 p.1 p.2 /\ preempted_reqs p.2 = [] /\
    running s `prefix_of` running p.1 /\ (forall x, x ∈ scheduled l -> x ∈ scheduled p.2) /\
    (forall a w', rq_iter (waiting s) = a :: w' -> running s = [] -> 0 < token_budget l ->
     0 < max_num_running_reqs cfg -> status (object s (obj_id a)) <> WAITING_FOR_FSM ->
     has_encoder_inputs (object s (obj_id a)) = false -> enable_chunked_prefill cfg = true -> kv_fits ->
     obj_id a ∈ scheduled p.2)) (s, l).
Proof.
  revert s l. induction fuel as [|fuel IH]; intros s l P Hpre Hf; simpl; wp_step; wp_step;
    destruct (po_wf _ _ _ P) as [W1 _]; rewrite (law_bool _ W1);
    destruct (rq_iter (waiting s)) as [|a w'] eqn:Hit; simpl in Hf; try lia; simpl;
    try (apply wp_ret; by split_and!).
  destruct (Z.ltb_spec 0 (token_budget l)) as [Hb|Hb]; simpl.
  2:{ apply wp_ret. split_and!; try done. lia. }
  pose proof (co_max _ _ (po_core _ _ _ P)) as Hmax.
  destruct (Z.eqb_spec (Z.of_nat (length (running s))) (max_num_running_reqs cfg)) as [E|E].
  { apply wp_ret. split_and!; try done. intros ? ? _ Hnil _ Hm. rewrite Hnil in E. simpl in E. lia. }
  wp_step. eapply wp_mono; [apply (waiting_step_ok s0 s l a w'); try done; lia|].
  intros f [s1 l1] (P1 & Hp1 & Hr1 & Hs1 & Hc1 & Hpg). cbn [fst snd] in *. destruct f.
  - specialize (Hc1 eq_refl). eapply wp_mono; [apply (IH s1 l1); try done; rewrite Hc1; lia|].
    intros _ [s2 l2] (P2 & Hp2 & Hr2 & Hs2 & _). cbn [fst snd] in *. split_and!; try done.
    + by etransitivity.
    + intros x Hx. by apply Hs2, Hs1.
    + intros a' w'' [= <- <-] Hnil _ _ H1 H2 H3 H4. apply Hs2. by apply Hpg.
  - apply wp_ret. cbn [fst snd]. split_and!; try done. intros a' w'' [= <- <-] Hnil _ _ H1 H2 H3 H4.
    by destruct (Hpg H1 H2 H3 H4 Hnil).
Qed.

(** ** The whole pass *)

(** The invariant between operations: in addition, a preempted request was not
    scheduled in the previous step. *)
Record sched_ok (s : Sched) : Prop := mkSchedOk {
  sk_core : core s (rq_iter (waiting s));
  sk_wf : rq_wf (waiting s);
  sk_prev : forall o, o ∈ ids (rq_iter (waiting s)) -> status (object s o) = PREEMPTED ->
              rid s o ∉ prev_step_scheduled_req_ids s
}.

Definition clear_skipped (l : Locals Q) : Locals Q := set_skipped_waiting_requests rq_new l.

(** FCFS serves: the first running request, or else the first waiting one. *)
Definition first_in_line (s : Sched) (o : Z) : Prop :=
  match running s with
  | o1 :: _ => o = o1 /\ num_computed_tokens (object s o) < num_tokens (object s o)
  | [] => exists a w', rq_iter (waiting s) = a :: w' /\ o = obj_id a /\ status (object s o) <> WAITING_FOR_FSM
  end /\ has_encoder_inputs (object s o) = false.

Record roomy : Prop := mkRoomy {
  rm_fits : kv_fits;
  rm_fcfs : policy cfg = FCFS;
  rm_chunked : enable_chunked_prefill cfg = true;
  rm_tok : 0 < max_num_scheduled_tokens cfg;
  rm_run : 0 < max_num_running_reqs cfg
}.

Lemma put_back_ok s0 s l :
  pass_ok s0 s l ->
  wp put_back (fun _ p => pass_ok s0 p.1 (clear_skipped p.2) /\ running p.1 = running s /\
    scheduled p.2 = scheduled l) (s, l).
Proof.
  intros P. destruct (po_wf _ _ _ P) as [W1 W2]. unfold put_back. wp_step. wp_step. simpl.
  rewrite (law_bool _ W2). destruct (law_new (Q := Q)) as [Wn En].
  assert (forall s', quiet s s' -> (forall o, object s' o = object s o) -> running s' = running s ->
            kv s' = kv s -> encoder s' = encoder s -> rq_wf (waiting s') ->
            waits s' (clear_skipped l) ≡ₚ waits s l -> pass_ok s0 s' (clear_skipped l)) as Hgen.
  { intros s' HQ Ho Er Ek Ee Wf HP. pose proof (po_core _ _ _ P) as C.
    assert (Hrid : forall x, rid s' x = rid s x) by (intros; by apply quiet_rid).
    destruct P as [_ P2 P3 P4 P5 P6 P7 P8 P9 P10 P11 P12 P13 P14 P15 P16]. split; try done.
    - apply (core_perm _ (waits s l)); [done|]. apply (core_change s (waits s l)); rewrite ?Er, ?Ek, ?Ee; try done;
        try apply C; intros x; rewrite Ho; apply C.
    - by transitivity s.
    - intros x. rewrite Er. apply P5.
    - intros i n Hin. destruct (P7 i n Hin) as (x & H1 & H2 & H3). exists x. unfold entry_ok.
      rewrite Hrid, Ho, Ek. done.
    - intros x. rewrite Hrid. apply P8.
    - intros Hp x. rewrite (ids_perm _ _ HP), Ho, Hrid, (qu_prev _ _ HQ). by apply P10.
    - intros x. rewrite Hrid, (qu_prev _ _ HQ). apply P11.
    - intros i inputs Hi. destruct (P12 i inputs Hi) as (x & H1 & H2 & H3). exists x. by rewrite Hrid, Ho.
    - intros [H1 H2]%P14. split; intros x; rewrite Ho; [rewrite Er; apply H1|rewrite (ids_perm _ _ HP); apply H2].
    - intros x. rewrite Er, Ho. apply P15.
    - intros Hp x. rewrite (ids_perm _ _ HP). by apply P16. }
  destruct (rq_iter (skipped_waiting_requests l)) as [|a w] eqn:Es.
  - apply wp_ret. simpl. split_and!; try done. apply Hgen; try done. unfold waits. simpl. by rewrite Es, En.
  - apply wp_on_sched, wp_on_waiting. simpl.
    destruct (law_prepend_all (waiting s) (skipped_waiting_requests l)) as (q & Eq & Wq & Hq); try done.
    { pose proof (co_nodup _ _ (po_core _ _ _ P)) as Hnd. apply NoDup_app in Hnd as (_ & _ & Hnd).
      unfold fresh_for. eapply ids_Permutation; [|exact Hnd]. unfold waits. by rewrite Permutation_app_comm. }
    unfold wp. rewrite Eq. simpl. split_and!; try done. apply Hgen; try done. unfold waits. simpl.
    rewrite Hq, En, app_nil_r, law_place_all. by rewrite Permutation_app_comm.
Qed.

Lemma init_pass_ok s : sched_ok s -> pass_ok s s (init_locals cfg) /\ loop_ok s (init_locals cfg).
Proof.
  intros [C W Hp]. destruct (law_new (Q := Q)) as [Wn En].
  assert (waits s (init_locals cfg) = rq_iter (waiting s)) as Ew by (unfold waits; simpl; by rewrite En, app_nil_r).
  split; split; try rewrite Ew; try done; simpl.
  - constructor.
  - intros o Ho. by apply not_elem_of_nil in Ho.
  - constructor.
  - intros i n Hin. by apply not_elem_of_nil in Hin.
  - intros o Ho. by apply not_elem_of_nil in Ho.
  - pose proof (pc_tokens _ plain). lia.
  - intros o Ho. by apply not_elem_of_nil in Ho.
  - intros _ o Ho Hr. by apply (running_not_waiting _ _ _ C Hr).
Qed.

(** The passes over running and waiting requests, with the progress each makes. *)
Lemma running_phase_ok s ts :
  sched_ok s ->
  wp (running_loop cfg (length (running s)) ts) (fun _ p => pass_ok s p.1 p.2 /\
    (running s = [] -> p = (s, init_locals cfg)) /\
    (roomy -> forall o, first_in_line s o -> running s <> [] ->
       o ∈ scheduled p.2 /\ head (running p.1) = Some o)) (s, init_locals cfg).
Proof.
  intros HS. destruct (init_pass_ok s HS) as [P L].
  pose proof (running_loop_ok (length (running s)) s s (init_locals cfg) ts P L ltac:(simpl; lia)) as Hw.
  apply wp_iff in Hw as ([] & [s1 l1] & E & P1 & L1 & Hpre & Hprog). unfold wp. rewrite E. cbn [fst snd] in *.
  split_and!; try done.
  - intros Er. revert E. rewrite Er. simpl. unfold py_bind, py_get. simpl. rewrite Er. simpl. by intros [= <- <-].
  - intros [R1 R2 _ R4 _] o [Hl He] Hne. destruct (running s) as [|o1 rs] eqn:Er; [done|].
    destruct Hl as [-> Hc]. destruct (Hpre R2) as [Hpf _]. rewrite (scheduled_running_only _ _ L1).
    destruct (Hprog R2 R1 R4 o1 eq_refl He Hc) as [Hin|[Hn Hnil]].
    + split; [done|]. assert (o1 ∈ running s1) as Ho1.
      { apply (po_running _ _ _ P1). by rewrite (scheduled_running_only _ _ L1). }
      destruct (running s1) as [|x xs]; [by apply not_elem_of_nil in Ho1|]. by apply prefix_cons_inv_1 in Hpf as ->.
    + destruct (running s1) as [|x xs]; [done|]. apply prefix_cons_inv_1 in Hpf as ->.
      destruct Hn. left.
Qed.

Lemma schedule_requests_ok s ts :
  sched_ok s ->
  wp (schedule_requests cfg ts) (fun _ p => pass_ok s p.1 (clear_skipped p.2) /\
    (roomy -> forall o, first_in_line s o -> o ∈ scheduled p.2 /\ (running s <> [] -> head (running p.1) = Some o)))
    (s, init_locals cfg).
Proof.
  intros HS. unfold schedule_requests. wp_step. apply wp_on_sched, wp_gets. simpl. wp_step.
  eapply wp_mono; [by apply running_phase_ok|].
  intros _ [s1 l1] (P1 & Hnil & Hrun). cbn [fst snd] in *. wp_step. unfold record_loras.
  rewrite (pc_loras _ plain). apply wp_ret. wp_step. wp_step. simpl. wp_step.
  destruct (preempted_reqs l1) as [|v vs] eqn:Epre.
  - wp_step. apply wp_on_sched, wp_gets. simpl.
    eapply wp_mono; [apply (waiting_loop_ok _ s s1 l1); try done; by rewrite (law_len _ (proj1 (po_wf _ _ _ P1)))|].
    intros _ [s2 l2] (P2 & Hp2 & Hr2 & Hs2 & Hw2). cbn [fst snd] in *.
    eapply wp_mono; [by apply put_back_ok|]. simpl. intros _ [s3 l3] (P3 & Hr3 & Hs3). cbn [fst snd] in *.
    split; [done|]. intros HR o Hfirst. rewrite Hs3, Hr3.
    destruct (decide (running s = [])) as [Er|Er].
    + split; [|done]. injection (Hnil Er) as -> ->. destruct Hfirst as [Hl He]. rewrite Er in Hl.
      destruct Hl as (a & w' & Hit & -> & Hst). destruct HR. by apply (Hw2 a w').
    + destruct (Hrun HR o Hfirst Er) as [H1 H2]. split; [by apply Hs2|]. intros _.
      destruct Hr2 as [t Ht]. rewrite Ht. by destruct (running s1).
  - apply wp_ret. eapply wp_mono; [by apply put_back_ok|]. simpl. intros _ [s3 l3] (P3 & Hr3 & Hs3).
    cbn [fst snd] in *. split; [done|]. intros HR o Hfirst. rewrite Hs3, Hr3.
    destruct (decide (running s = [])) as [Er|Er].
    + injection (Hnil Er) as -> ->. done.
    + destruct (Hrun HR o Hfirst Er). done.
Qed.
End invariant.
