(* ===== verification/SchedulerRun.v ===== *)
(** The end of a scheduling pass: the message to the workers and the advance of the
    computed tokens; the whole pass keeps the invariant of [SchedulerInv] and returns. *)
From stdpp Require Import gmap strings list.
From Stdlib Require Import ZArith Lia.
From S2P Require Import Prelude Request RequestQueue EncoderCache BlockPool KVCacheManager SchedulerData Scheduler.
From S2P Require Import SchedulerInv.
Open Scope Z_scope.

Section runs.
Context {Q : Type} {rq_ops : RequestQueue Q} {rq_laws : RequestQueueLaws Q}.
Context {X : Type} {co_ops : Collaborators X} {co_laws : CollaboratorsLaws X}.
Context (cfg : SchedulerConfig) (plain : plain_config cfg).
Context {K : Type} {kv_ops : KVCache K}.
Context {logs : bool} {kv_laws : KVCacheLaws K (max_model_len cfg) logs}.
Context (size : string -> Z) (size_nonneg : forall h, 0 <= size h).

Notation Sched := (Scheduler Q K X).
Notation kv s := (kv_cache_manager s).
Notation encoder s := (encoder_cache_manager s).
Notation max_len := (max_model_len cfg).
Notation core := (core cfg size).
Notation sched_ok := (sched_ok cfg size).
Notation pass_ok := (pass_ok cfg size).
Notation req_ok := (req_ok cfg size).
Notation run_ok := (run_ok cfg size).

(** ** The end of a pass *)

Lemma scheduled_count (s0 s : Sched) l :
  pass_ok s0 s l ->
  (length (scheduled_new_reqs l) + length (scheduled_resumed_reqs l) + length (scheduled_running_reqs l)
     <= length (running s))%nat.
Proof.
  intros P. assert (length (scheduled l) <= length (running s))%nat as Hle.
  { apply submseteq_length, NoDup_submseteq; [apply P|apply P]. }
  unfold scheduled in Hle. rewrite !length_app in Hle. lia.
Qed.

Lemma new_data_ok (s0 s : Sched) l v2 os :
  pass_ok s0 s (clear_skipped l) -> (forall o, o ∈ os -> o ∈ scheduled l) ->
  wp (py_map (make_new_request_data l v2) os) (fun _ s' => s' = s) s.
Proof.
  intros P. induction os as [|o os IH]; intros Hos; simpl; [by apply wp_ret|].
  destruct (po_has _ _ _ _ _ P o) as [_ [b Hb]]; [apply Hos; left|].
  wp_step. unfold make_new_request_data. wp_step. wp_step. wp_step. eapply wp_unwrap; [exact Hb|]. wp_step. wp_step.
  eapply wp_mono; [apply IH; intros; apply Hos; by right|]. intros ds s' ->. by apply wp_ret.
Qed.

Lemma cached_data_ok (s0 s : Sched) l rs acc :
  pass_ok s0 s (clear_skipped l) ->
  (forall o b, (o, b) ∈ rs -> o ∈ scheduled l /\ (b = true -> rid s o ∉ prev_step_scheduled_req_ids s)) ->
  wp (make_cached cfg l rs acc) (fun _ s' => s' = s) s.
Proof.
  intros P. revert acc. induction rs as [|[o b] rs IH]; intros acc Hrs; simpl; [by apply wp_ret|].
  destruct (Hrs o b) as [Ho Hb]; [left|]. destruct (po_has _ _ _ _ _ P o Ho) as [[n Hn] [blk Hblk]].
  wp_step. wp_step. wp_step.
  apply (wp_mono _ (fun _ s' => s' = s)).
  { destruct (use_pp cfg); [|by apply wp_ret]. wp_step. eapply wp_unwrap; [|by apply wp_ret].
    apply dict_get_in; [apply P|exact Hn]. }
  intros ts ? ->. wp_step. apply (wp_mono _ (fun _ s' => s' = s)).
  { destruct b; [|by apply wp_ret]. apply wp_assert; [|done]. fold (rid s o).
    by rewrite bool_decide_false by auto. }
  intros _ ? ->. wp_step. eapply wp_unwrap; [exact Hblk|]. apply IH. intros; apply Hrs. by right.
Qed.

(** *** Advancing the computed tokens *)

(** [v]: the entries that were processed, starting from [s1]. *)
Record advanced (s1 : Sched) (v : list (string * Z)) (s : Sched) : Prop := mkAdvanced {
  ad_same : kv s = kv s1 /\ running s = running s1 /\ waiting s = waiting s1 /\ requests s = requests s1 /\
            prev_step_scheduled_req_ids s = prev_step_scheduled_req_ids s1 /\
            finished_req_ids s = finished_req_ids s1 /\ collaborators s = collaborators s1 /\
            finished_req_ids_dict s = finished_req_ids_dict s1;
  ad_enc : cache_inv size (encoder s);
  ad_done : forall o n, o ∈ running s1 -> (rid s1 o, n) ∈ v ->
              object s o = set_num_computed_tokens (num_computed_tokens (object s1 o) + n) (object s1 o);
  ad_rest : forall o, ~ (o ∈ running s1 /\ rid s1 o ∈ v.*1) -> object s o = object s1 o
}.

(** The entries of a pass, in the state it left. *)
Definition entries_ok (s : Sched) (d : list (string * Z)) : Prop :=
  NoDup d.*1 /\ forall i n, (i, n) ∈ d -> exists o, o ∈ running s /\ rid s o = i /\ entry_ok cfg s o n.

Lemma advance_ok s1 w d pre i n post s :
  core s1 w -> entries_ok s1 d -> d = pre ++ (i, n) :: post -> advanced s1 pre s ->
  wp (advance_request cfg (i, n)) (fun _ s' => advanced s1 (pre ++ [(i, n)]) s') s.
Proof.
  intros C [Hk Hent] El [(Ek & Er & Ew & Eq & Ep & Ef & Ec & Ed) He Hd Hr].
  destruct (Hent i n) as (o & Ho & Ei & _); [rewrite El; set_solver|].
  rewrite El, fmap_app in Hk. apply NoDup_app in Hk as (_ & Hdis & Hk2). simpl in Hk2, Hdis.
  apply NoDup_cons in Hk2 as [Hnp _].
  assert (i ∉ pre.*1) as Hni by (intros Hi; apply (Hdis i Hi); left).
  assert (object s o = object s1 o) as Eo by (apply Hr; rewrite Ei; naive_solver).
  unfold advance_request. wp_step. wp_step. wp_step. eapply wp_unwrap.
  { rewrite Eq. apply (co_requests _ _ _ _ C). split; [by apply running_live|exact Ei]. }
  wp_step. wp_step. wp_step. apply wp_gets. set (s2 := write_object o _ s).
  assert (object s2 o = set_num_computed_tokens (num_computed_tokens (object s1 o) + n) (object s1 o)) as Eo2.
  { unfold s2. by rewrite object_write, decide_True, Eo by done. }
  assert (advanced s1 (pre ++ [(i, n)]) s2) as A.
  { split; [done|done| |].
    - intros x m Hx Hin. apply elem_of_app in Hin as [Hin|Hin].
      + unfold s2. rewrite object_write, decide_False; [by apply Hd|]. intros ->. rewrite Ei in Hin.
        apply Hni. change i with (i, m).1. by apply list_elem_of_fmap_2.
      + apply list_elem_of_singleton in Hin as [= Ex ->]. assert (x = o) as ->; [|done].
        eapply (core_unique cfg size s1); [exact C|by apply running_live..|congruence].
    - intros x Hx. rewrite fmap_app in Hx. unfold s2. rewrite object_write, decide_False.
      + apply Hr. intros [H1 H2]. apply Hx. split; [done|]. apply elem_of_app. by left.
      + intros ->. apply Hx. split; [done|]. rewrite Ei. apply elem_of_app. right. left. }
  destruct (has_encoder_inputs (object s2 o)); [|by apply wp_ret].
  apply wp_on_encoder. rewrite (pc_decoder _ plain).
  eapply wp_mono; [apply (free_inputs_ok size size_nonneg); [|done]|].
  { rewrite Eo2. apply (rk_size _ _ _ (ro_req _ _ _ _ (co_run _ _ _ _ C o Ho))). }
  intros _ e' ([He' _] & _). by destruct A.
Qed.

(** All of them: the scheduled requests have computed their tokens, and hold KV
    memory for them. *)
Lemma advance_all_ok s1 w d :
  core s1 w -> entries_ok s1 d ->
  wp (py_for d (advance_request cfg)) (fun _ s' => advanced s1 d s' /\ core s' w) s1.
Proof.
  intros C HE. assert (advanced s1 [] s1) as A0.
  { split; [done|apply C| |done]. intros o n _ Hin. by apply not_elem_of_nil in Hin. }
  eapply wp_mono; [apply (wp_for _ (fun v s => advanced s1 v s) d [] s1 A0)|].
  { intros pre [i n] post s -> A. simpl. by eapply advance_ok. }
  simpl. intros _ s' A. split; [done|].
  destruct A as [(Ek & Er & Ew & Eq & Ep & Ef & Ec & Ed) He Hd Hr].
  assert (Hcase : forall o, object s' o = object s1 o \/ exists n, o ∈ running s1 /\ (rid s1 o, n) ∈ d /\
      entry_ok cfg s1 o n /\
      object s' o = set_num_computed_tokens (num_computed_tokens (object s1 o) + n) (object s1 o)).
  { intros o. destruct (decide (o ∈ running s1)) as [Ho|Ho]; [|left; apply Hr; naive_solver].
    destruct (decide (rid s1 o ∈ d.*1)) as [Hi|Hi]; [|left; apply Hr; naive_solver].
    apply list_elem_of_fmap in Hi as ([i n] & Ei & Hin). simpl in Ei. subst i. right. exists n.
    destruct (proj2 HE _ _ Hin) as (x & Hx & Ex & Hentry).
    assert (x = o) as -> by (eapply (core_unique cfg size s1); [exact C|by apply running_live..|done]).
    split_and!; try done. by apply Hd. }
  apply (core_change cfg size s1 w); try done; rewrite ?Er, ?Ek; try done; try apply C.
  - split; try done; intros o; by destruct (Hcase o) as [->|(n & _ & _ & _ & ->)].
  - intros o Ho. destruct (Hcase o) as [->|(n & _ & _ & (N1 & N2 & N3) & ->)]; [by apply C|].
    destruct (co_run _ _ _ _ C o Ho) as [R1 R2 R3 R4]. split; try done.
    + eapply req_ok_ext; [exact R2|..]; try done; apply R2.
    + simpl. change (num_tokens (set_num_computed_tokens _ _)) with (num_tokens (object s1 o)). lia.
  - intros o Ho. destruct (Hcase o) as [->|(n & Hrun & _)]; [by apply C|].
    by destruct (running_not_waiting _ _ _ _ _ C Hrun).
Qed.

(** [finish_pass] on the result of the two loops. *)
Record pass_result (s : Sched) (out : SchedulerOutput) (s' : Sched) : Prop := mkPassResult {
  pr_requests : requests s' = requests s;
  pr_args : forall o, args (object s' o) = args (object s o) /\ all_token_ids (object s' o) = all_token_ids (object s o) /\
              output_token_ids (object s' o) = output_token_ids (object s o);
  pr_total : so_total_num_scheduled_tokens out = total (so_num_scheduled_tokens out) /\
             total (so_num_scheduled_tokens out) <= max_num_scheduled_tokens cfg;
  pr_entries : NoDup (so_num_scheduled_tokens out).*1 /\
    forall i n, (i, n) ∈ so_num_scheduled_tokens out ->
      exists o, requests s' !! i = Some o /\ o ∈ running s' /\ 0 < n <= num_computed_tokens (object s' o);
  pr_spec : so_scheduled_spec_decode_tokens out = ∅;
  pr_finished : so_finished_req_ids out = finished_req_ids s /\ finished_req_ids s' = ∅;
  pr_ready : ready s (rq_iter (waiting s)) ->
    (forall o, o ∈ running s' -> num_computed_tokens (object s' o) < num_tokens (object s' o) \/
       exists n, (rid s' o, n) ∈ so_num_scheduled_tokens out) /\
    (forall o, o ∈ ids (rq_iter (waiting s')) -> status (object s' o) <> WAITING_FOR_FSM);
  pr_advance : forall o, o ∈ running s' -> o ∈ running s ->
    (forall n, (rid s' o, n) ∈ so_num_scheduled_tokens out ->
       num_computed_tokens (object s' o) = num_computed_tokens (object s o) + n) /\
    (rid s' o ∉ (so_num_scheduled_tokens out).*1 ->
       num_computed_tokens (object s' o) = num_computed_tokens (object s o))
}.

Lemma finish_pass_ok s0 s l :
  pass_ok s0 s (clear_skipped l) ->
  wp (finish_pass cfg l) (fun out s' => sched_ok s' /\ pass_result s0 out s' /\
    so_num_scheduled_tokens out = num_scheduled_tokens l /\ running s' = running s /\
    (forall o, o ∈ scheduled l -> num_computed_tokens (object s o) < num_computed_tokens (object s' o))) s.
Proof.
  intros P. pose proof (po_core _ _ _ _ _ P) as C. pose proof (po_budget _ _ _ _ _ P) as [B1 B2].
  pose proof (scheduled_count _ _ _ P) as Hcount. pose proof (co_max _ _ _ _ C) as Hmax. simpl in B1, B2, Hcount.
  assert (waits s (clear_skipped l) = rq_iter (waiting s)) as Ew
    by (unfold waits; simpl; by rewrite (proj2 law_new), app_nil_r).
  unfold finish_pass. wp_step. wp_step. fold (total (num_scheduled_tokens l)).
  wp_step. apply wp_assert; [apply Z.leb_le; lia|]. wp_step. apply wp_assert; [by apply Z.leb_le|].
  wp_step. apply wp_assert; [by apply Z.leb_le|]. wp_step. apply wp_assert; [apply Z.leb_le; lia|]. wp_step.
  apply (wp_mono _ (fun _ s' => exists k, s' = set_kv_cache_manager k s /\ pass_ok s0 s' (clear_skipped l))).
  { destruct (running s) as [|o os]; [apply wp_ret; exists (kv s); by destruct s|]. apply wp_on_kv.
    eapply wp_mono; [apply law_common_prefix, C|]. intros _ k (Hk & Hn & Hc). exists k. split; [done|].
    apply (pass_kv_all cfg size s0 s _ k); try done; [intros i Hi; by apply Hn, (co_idle _ _ _ _ C)|intros; by apply Hc]. }
  intros common ? (k & -> & P1). set (s1 := set_kv_cache_manager k s) in *. wp_step.
  eapply wp_mono; [apply (new_data_ok s0 s1 l); [done|]|].
  { intros o. unfold scheduled. destruct (use_v2_model_runner cfg); rewrite !elem_of_app; naive_solver. }
  intros news ? ->. wp_step. unfold make_cached_request_data.
  eapply wp_mono; [apply (cached_data_ok s0 s1 l); [done|]|].
  { intros o b. rewrite elem_of_app, !list_elem_of_fmap. unfold scheduled. rewrite !elem_of_app.
    intros [(x & [= -> ->] & Hx)|(x & [= -> ->] & Hx)]; [split; [by left|done]|].
    destruct (use_v2_model_runner cfg); [by apply not_elem_of_nil in Hx|].
    split; [by right; right|]. intros _. by apply (po_resumed _ _ _ _ _ P1). }
  intros cached ? ->. wp_step. wp_step. set (s2 := set_prev_step_scheduled_req_ids _ s1). wp_step.
  apply wp_on_encoder. unfold get_freed_mm_hashes. wp_step. wp_step. wp_step. wp_step. wp_step.
  rewrite law_no_connector. wp_step. apply wp_ret. unfold update_after_schedule, base_update_after_schedule.
  rewrite (pc_sync _ plain). wp_step. wp_step. simpl.
  set (s3 := set_encoder_cache_manager _ s2).
  assert (core s3 (rq_iter (waiting s))) as C3.
  { rewrite <- Ew. pose proof (po_core _ _ _ _ _ P1) as C1. destruct C1 as [A1 A2 A3 A4 A5 A6 A7 A8 A9 A10].
    split; try done. by destruct A2. }
  assert (entries_ok s3 (num_scheduled_tokens l)) as HE.
  { split; [apply P1|]. intros i n Hin. destruct (po_entry _ _ _ _ _ P1 i n Hin) as (o & Ho & Ei & Hentry).
    exists o. split_and!; try done. by apply (po_running _ _ _ _ _ P1). }
  eapply wp_mono; [by apply (advance_all_ok s3)|].
  intros _ s4 [[(Ek & Er & Ewt & Eq & Ep & Ef & _) _ Hd Hr] C4]. wp_step. apply wp_ret.
  set (s5 := set_finished_req_ids ∅ s4).
  assert (Hobj : forall o, object s4 o = object s o \/ exists n, (rid s o, n) ∈ num_scheduled_tokens l /\ o ∈ running s /\
            object s4 o = set_num_computed_tokens (num_computed_tokens (object s o) + n) (object s o)).
  { intros o. destruct (decide (o ∈ running s /\ rid s o ∈ (num_scheduled_tokens l).*1)) as [[H1 H2]|Hno]; [|by left; apply Hr].
    right. apply list_elem_of_fmap in H2 as ([i n] & E & Hin). simpl in E. subst i. exists n. split_and!; try done.
    by apply Hd. }
  split_and!; try done.
  - split.
    + change (waiting s5) with (waiting s4). rewrite Ewt. destruct C4. by split.
    + change (waiting s5) with (waiting s4). rewrite Ewt. apply P.
    + change (prev_step_scheduled_req_ids s5) with (prev_step_scheduled_req_ids s4). rewrite Ep.
      change (waiting s5) with (waiting s4). rewrite Ewt.
      intros o Ho _ Hin. apply elem_of_list_to_set, list_elem_of_fmap in Hin as ([i n] & E & Hin).
      destruct (proj2 HE i n Hin) as (x & Hx & Ex & _). simpl in E.
      assert (x = o) as ->; [|by destruct (running_not_waiting _ _ _ _ _ C3 Hx)].
      eapply (core_unique cfg size s3); [exact C3|by apply running_live|apply elem_of_app; by right|].
      rewrite Ex, <- E. unfold rid. change (object s5 o) with (object s4 o).
      by destruct (Hobj o) as [->|(m & _ & _ & ->)].
  - split; simpl; try done.
    + rewrite Eq. apply (qu_requests _ _ (po_quiet _ _ _ _ _ P)).
    + intros o. destruct (po_quiet _ _ _ _ _ P) as [_ _ _ Q4 Q5 Q6]. rewrite <- Q4, <- Q5, <- Q6.
      change (object s5 o) with (object s4 o). by destruct (Hobj o) as [->|(m & _ & _ & ->)].
    + split; [done|]. lia.
    + split; [apply P|]. intros i n Hin. destruct (proj2 HE i n Hin) as (o & Ho & Ei & (N1 & _)).
      exists o. split_and!; try done.
      * rewrite Eq. apply (co_requests _ _ _ _ C3). split; [by apply running_live|done].
      * by rewrite Er.
      * change (object s5 o) with (object s4 o). rewrite (Hd o n Ho) by (by rewrite Ei). simpl.
        pose proof (ro_computed _ _ _ _ (co_run _ _ _ _ C3 o Ho)). lia.
    + apply (po_spec _ _ _ _ _ P).
    + split; [|done]. apply (qu_finished _ _ (po_quiet _ _ _ _ _ P)).
    + intros [H1 H2]%(po_ready _ _ _ _ _ P). rewrite Ew in H2. unfold rid.
      change (running s5) with (running s4). change (waiting s5) with (waiting s4). rewrite Er, Ewt.
      split; intros o Ho; change (object s5 o) with (object s4 o); destruct (Hobj o) as [->|(m & Hm & Hr' & ->)].
      * left. by apply H1.
      * right. by exists m.
      * by apply H2.
      * by apply H2.
    + change (running s5) with (running s4). rewrite Er. intros o Ho Ho0.
      rewrite <- (po_same _ _ _ _ _ P o Ho Ho0). change (object s5 o) with (object s4 o).
      assert (rid s5 o = rid s o) as Erid
        by (unfold rid; change (object s5 o) with (object s4 o); by destruct (Hobj o) as [->|(m & _ & _ & ->)]).
      rewrite Erid. split; [intros n Hn; by rewrite (Hd o n Ho Hn)|]. intros Hn. by rewrite Hr by naive_solver.
  - intros o Ho. destruct (po_has _ _ _ _ _ P o Ho) as [[n Hn] _].
    destruct (po_entry _ _ _ _ _ P _ _ Hn) as (x & Hx & Ex & (N1 & _)).
    change (object s5 o) with (object s4 o). rewrite (Hd o n); [simpl; change (object s3 o) with (object s o); lia|by apply P|done].
Qed.

(** ** [schedule] *)
Lemma schedule_ok s ts :
  sched_ok s ->
  wp (schedule cfg ts) (fun out s' => sched_ok s' /\ pass_result s out s' /\
    (roomy cfg -> forall o, first_in_line s o ->
       o ∈ running s' /\ (exists n, (rid s o, n) ∈ so_num_scheduled_tokens out) /\
       (running s <> [] -> head (running s') = Some o /\
          num_computed_tokens (object s o) < num_computed_tokens (object s' o)))) s.
Proof.
  intros HS. pose proof (schedule_requests_ok cfg plain size size_nonneg s ts HS) as Hw.
  apply wp_iff in Hw as ([] & [s1 l1] & E & P & Hprog). cbn [fst snd] in *. unfold wp, schedule. rewrite E.
  pose proof (finish_pass_ok s s1 l1 P) as Hf.
  apply wp_iff in Hf as (out & s' & -> & HS' & HR & En & Er & Hinc). split_and!; try done.
  intros Hroomy o Hfirst. destruct (Hprog Hroomy o Hfirst) as [Ho Hh].
  change (scheduled l1) with (scheduled (clear_skipped l1)) in Ho. rewrite Er, En. split_and!; try done.
  - by apply (po_running _ _ _ _ _ P).
  - destruct (po_has _ _ _ _ _ P o Ho) as [[n Hn] _]. exists n. rewrite (quiet_rid s s1) in Hn by apply P. done.
  - intros Hne. split; [by apply Hh|]. rewrite <- (po_same _ _ _ _ _ P o); [by apply Hinc|by apply (po_running _ _ _ _ _ P)|].
    destruct Hfirst as [Hl _]. destruct (running s) as [|o1 rs]; [done|]. destruct Hl as [-> _]. left.
Qed.
End runs.
