(* ===== verification/SchedulerUpdate.v ===== *)
(** The scheduler between passes: the update from the model's output, admission,
    abortion and reset preserve the invariant of [SchedulerInv].

    While requests are being released the queues still list them: the invariant is
    then that of the state without them ([core_at] names the queues). *)
From stdpp Require Import gmap strings list.
From Stdlib Require Import ZArith Lia.
From S2P Require Import Prelude Request RequestQueue EncoderCache BlockPool KVCacheManager SchedulerData Scheduler.
From S2P Require Import SchedulerInv.
Open Scope Z_scope.

(** ** Filters *)

Lemma filter_ids (P : Z -> Prop) `{!forall x, Decision (P x)} `{!forall a, Decision (P (obj_id a))} w :
  ids (filter (fun a => P (obj_id a)) w) = filter P (ids w).
Proof.
  induction w as [|a w IH]; [done|]. change (ids (a :: w)) with (obj_id a :: ids w). rewrite !filter_cons.
  repeat case_decide; try done. change (obj_id a :: ids (filter (fun a => P (obj_id a)) w) = obj_id a :: filter P (ids w)). by rewrite IH.
Qed.

Lemma filter_all {A} (P : A -> Prop) `{forall x, Decision (P x)} (l : list A) :
  (forall x, x ∈ l -> P x) -> filter P l = l.
Proof.
  induction l as [|x l IH]; intros HP; [done|]. rewrite filter_cons_True by (apply HP; left).
  f_equal. apply IH. intros y Hy. apply HP. by right.
Qed.

Lemma filter_filter_and {A} (P Q R : A -> Prop) `{!forall x, Decision (P x), !forall x, Decision (Q x),
    !forall x, Decision (R x)} (l : list A) :
  (forall x, R x <-> P x /\ Q x) -> filter P (filter Q l) = filter R l.
Proof.
  intros HR. rewrite list_filter_filter. apply list_filter_iff. intros x. rewrite HR. naive_solver.
Qed.

Lemma remove_first_filter {A} `{EqDecision A} (x : A) l :
  NoDup l -> list_remove_first x l = filter (fun y => y <> x) l.
Proof.
  induction l as [|y l IH]; [done|]. intros [Hy Hnd]%NoDup_cons. simpl. rewrite filter_cons.
  case_decide as E.
  - subst. rewrite decide_False by naive_solver. symmetry. apply filter_all. intros z Hz ->. done.
  - rewrite decide_True by done. by rewrite IH.
Qed.

(** [remove_all] is a filter on lists without repetition. *)
Lemma remove_all_filter {A} `{Countable A} (l : list A) (D : gset A) :
  NoDup l -> remove_all l D = filter (fun x => x ∉ D) l.
Proof.
  intros Hnd. unfold remove_all. pose proof (fun x => elem_of_elements D x) as HD.
  destruct (elements D) as [|x [|y xs]] eqn:E; [| |done].
  - symmetry. apply filter_all. intros y _ Hy. apply HD in Hy. by apply not_elem_of_nil in Hy.
  - rewrite remove_first_filter by done. apply list_filter_iff. intros y. rewrite <- HD, list_elem_of_singleton. done.
Qed.

(** [List.filter] as the filter of a decidable predicate. *)
Lemma list_filter_bool {A} (f : A -> bool) (P : A -> Prop) `{!forall x, Decision (P x)} (l : list A) :
  (forall x, x ∈ l -> f x = true <-> P x) -> List.filter f l = filter P l.
Proof.
  induction l as [|x l IH]; intros Hf; [done|]. simpl. rewrite filter_cons, IH by (intros; apply Hf; by right).
  pose proof (Hf x ltac:(left)) as Hx. case_decide; destruct (f x); naive_solver.
Qed.
Lemma filter_ext_in {A} (P R : A -> Prop) `{!forall x, Decision (P x), !forall x, Decision (R x)} (l : list A) :
  (forall x, x ∈ l -> P x <-> R x) -> filter P l = filter R l.
Proof.
  induction l as [|x l IH]; intros HR; [done|]. rewrite !filter_cons, IH by (intros; apply HR; by right).
  pose proof (HR x ltac:(left)). repeat case_decide; naive_solver.
Qed.

Lemma nodup_omap {A B} (f : A -> option B) l :
  NoDup l -> (forall x y b, f x = Some b -> f y = Some b -> x = y) -> NoDup (omap f l).
Proof.
  intros Hnd Hf. induction Hnd as [|x l Hx Hnd IH]; simpl; [constructor|]. destruct (f x) as [b|] eqn:E; [|done].
  constructor; [|done]. intros (y & Hy & Ey)%list_elem_of_omap. by rewrite (Hf x y b E Ey) in Hx.
Qed.

Section updates.
Context {Q : Type} {rq_ops : RequestQueue Q} {rq_laws : RequestQueueLaws Q}.
Context {X : Type} {co_ops : Collaborators X} {co_laws : CollaboratorsLaws X}.
Context (cfg : SchedulerConfig) (plain : plain_config cfg).
Context {K : Type} {kv_ops : KVCache K}.
Context {logs : bool} {kv_laws : KVCacheLaws K (max_model_len cfg) logs}.
Context (size : string -> Z) (size_nonneg : forall h, 0 <= size h).
Context (logs_on : scheduler_log_stats cfg = true -> logs = true).
(** The hasher of block contents keeps requests fit for the KV cache. *)
Context (block_hasher : option (Request -> list (list Z))).
Context (hasher_ok : forall r t, kv_request r -> kv_request (append_output_token_ids block_hasher [t] r)).

Notation Sched := (Scheduler Q K X).
Notation kv s := (kv_cache_manager s).
Notation encoder s := (encoder_cache_manager s).
Notation max_len := (max_model_len cfg).
Notation core := (core cfg size).
Notation sched_ok := (sched_ok cfg size).
Notation req_ok := (req_ok cfg size).
Notation run_ok := (run_ok cfg size).
Notation wait_ok := (wait_ok cfg size).

(** ** Growth of a request *)

(** What an update leaves alone. *)
Definition grown (r r' : Request) (kept : list Z) : Prop :=
  args r' = args r /\ num_computed_tokens r' = num_computed_tokens r /\
  all_token_ids r' = all_token_ids r ++ kept /\ output_token_ids r' = output_token_ids r ++ kept.

Lemma grown_append r t : grown r (append_output_token_ids block_hasher [t] r) [t].
Proof. unfold grown. by destruct block_hasher. Qed.
Lemma grown_trans r1 r2 r3 k1 k2 : grown r1 r2 k1 -> grown r2 r3 k2 -> grown r1 r3 (k1 ++ k2).
Proof.
  intros (A1 & A2 & A3 & A4) (B1 & B2 & B3 & B4).
  split_and!; [congruence|congruence|by rewrite B3, A3, app_assoc|by rewrite B4, A4, app_assoc].
Qed.

Lemma req_ok_append r t :
  req_ok r -> num_tokens r + 1 < max_len -> req_ok (append_output_token_ids block_hasher [t] r).
Proof.
  intros [R1 R2 R3 R4 R5 R6 R7 R8 R9] Hlt.
  destruct (append_output_frame block_hasher [t] r) as ((Ea & _ & En) & _ & _ & Eall).
  assert (num_tokens (append_output_token_ids block_hasher [t] r) = num_tokens r + 1) as E
    by (unfold num_tokens; rewrite Eall, length_app; simpl; lia).
  split; rewrite ?E, ?Ea, ?En; try done; try lia.
  - by apply hasher_ok.
  - unfold consistent. by rewrite Ea.
  - by apply tokens_wf_append.
  - by destruct block_hasher.
  - by destruct block_hasher.
Qed.

(** A request that goes on is below the model length. *)
Lemma goes_on_below r sp t :
  tokens_wf r -> num_prompt_tokens r + sp_min_tokens sp <= max_len ->
  should_stop max_len r sp t = false -> num_tokens r < max_len.
Proof.
  intros (p & Hlen & Hpos & Hall) Hctx. unfold should_stop, length_capped.
  assert (num_tokens r = num_prompt_tokens r + num_output_tokens r) as Hn.
  { unfold num_tokens, num_output_tokens. rewrite Hall, length_app. lia. }
  rewrite andb_false_iff, negb_false_iff, Z.ltb_lt, !orb_false_iff, !Z.leb_gt.
  intros [?|[_ [? ?]]]; lia.
Qed.

(** Sampled tokens are appended until one stops the request; a request that goes on
    can still be served. *)
Lemma update_request_grows r sp news :
  req_ok r -> pooling_params (args r) = None -> sampling_params (args r) = Some sp ->
  exists r' kept stopped,
    update_request_with_output block_hasher max_len r news = inr (r', (kept, stopped)) /\
    grown r r' kept /\ (news <> [] -> kept <> []) /\
    if (stopped : bool) then is_finished r' = true
    else req_ok r' /\ status r' = status r /\ kept = news.
Proof.
  revert r. induction news as [|t ts IH]; intros r R Hp Hs; simpl.
  { exists r, [], false. split_and!; try done. unfold grown. by rewrite !app_nil_r. }
  pose proof (grown_append r t) as G. set (r1 := append_output_token_ids block_hasher [t] r) in *.
  destruct (append_output_frame block_hasher [t] r) as ((Ea & _ & En) & Est & Eo & _). fold r1 in Ea, En, Est, Eo.
  pose proof (tokens_wf_append block_hasher r [t] (rk_wf _ _ _ R)) as Hwf. fold r1 in Hwf.
  destruct (check_stop_spec max_len r1 sp t) as (r2 & Hc & _ & _ & _ & Hf & Ht);
    [by rewrite Ea|by rewrite Ea|by rewrite Eo, last_snoc|].
  assert (grown r1 r2 []) as G2.
  { revert Hc. unfold check_stop. rewrite !Ea, Hp, Hs.
    repeat (case_match; try done); intros [= <-]; unfold grown; by rewrite ?app_nil_r. }
  rewrite Hc. destruct (should_stop max_len r1 sp t) eqn:Ess.
  - exists r2, [t], true. split_and!; try done.
    + by apply (grown_trans r r1 r2 [t] []).
    + unfold is_finished. rewrite (Ht eq_refl). by destruct (stop_token r1 sp t).
  - rewrite (Hf eq_refl). pose proof (rk_min _ _ _ R) as Hm. rewrite Hs in Hm.
    assert (req_ok r1) as R1.
    { apply req_ok_append; [done|]. apply goes_on_below in Ess; [|done|by rewrite En].
      destruct G as (_ & _ & Eall & _). unfold num_tokens in *. rewrite Eall, length_app in Ess. simpl in Ess. lia. }
    destruct (IH r1 R1) as (r3 & kept & stopped & -> & G3 & _ & Hst); [by rewrite Ea|by rewrite Ea|].
    exists r3, (t :: kept), stopped. split_and!; try done.
    + by apply (grown_trans r r1 r3 [t] kept).
    + destruct stopped; [done|]. destruct Hst as (? & ? & ->). split_and!; try done. congruence.
Qed.

(** ** Release *)

(** The invariant of the state whose queues are [R] and [w]. *)
Definition core_at (s : Sched) (R : list Z) (w : list RequestArgs) : Prop := core (set_running R s) w.

Lemma core_at_running s w : core s w -> core_at s (running s) w.
Proof. intros [? ? ? ? ? ? ? ? ? ?]. by split. Qed.
Lemma core_of_at s w : core_at s (running s) w -> core s w.
Proof. intros [? ? ? ? ? ? ? ? ? ?]. by split. Qed.

(** What releasing a request changes. *)
Record released (s s' : Sched) (o : Z) : Prop := mkReleased {
  rl_running : running s' = running s;
  rl_waiting : waiting s' = waiting s;
  rl_objects : objects s' = objects s;
  rl_requests : requests s' = delete (rid s o) (requests s);
  rl_finished : finished_req_ids s' = {[rid s o]} ∪ finished_req_ids s;
  rl_prev : prev_step_scheduled_req_ids s' = prev_step_scheduled_req_ids s;
  rl_collaborators : collaborators s' = collaborators s;
  rl_tables : forall i, i <> rid s o -> kv_tables (kv s') i = kv_tables (kv s) i
}.

(** [s1] is [s] with the object [o] set to [r]. *)
Definition wrote (s : Sched) (o : Z) (r : Request) (s1 : Sched) : Prop :=
  exists m, s1 = set_objects m s /\ forall x, object s1 x = if decide (x = o) then r else object s x.

Lemma wrote_write s o f : wrote s o (f (object s o)) (write_object o f s).
Proof. eexists. split; [done|]. intros x. apply object_write. Qed.
Lemma wrote_same s o : wrote s o (object s o) s.
Proof. exists (objects s). split; [by destruct s|]. intros x. case_decide as E; by rewrite ?E. Qed.
Lemma wrote_trans s o r s1 r' s2 : wrote s o r s1 -> wrote s1 o r' s2 -> wrote s o r' s2.
Proof.
  intros (m1 & -> & H1) (m2 & -> & H2). exists m2. split; [done|]. intros x. rewrite H2.
  case_decide as E; [done|]. by rewrite H1, decide_False.
Qed.

(** A request that goes on keeps its place. *)
Lemma core_at_wrote s R w o r s1 kept :
  core_at s R w -> o ∈ R ++ ids w -> wrote s o r s1 -> grown (object s o) r kept -> req_ok r ->
  status r = status (object s o) -> core_at s1 R w.
Proof.
  intros C Ho (m & -> & Hobj) (Ea & Ec & Eall & _) HR Hst. unfold core_at in *.
  set (s1 := set_objects m s) in *.
  assert (Harg : forall x, args (object s1 x) = args (object s x)) by (intros x; rewrite Hobj; by case_decide; subst).
  assert (num_tokens (object s o) <= num_tokens r) as Hn by (unfold num_tokens; rewrite Eall, length_app; lia).
  apply (core_change_gen cfg size (set_running R s) w); try done; try apply C.
  - intros x Hx. change (object (set_running R s1) x) with (object s1 x). rewrite Hobj. case_decide as E; [|by apply C].
    subst. destruct (co_run _ _ _ _ C o Hx) as [S1 S2 S3 S4]. change (object (set_running R s) o) with (object s o) in *.
    split; try done; rewrite ?Hst, ?Ec, ?Ea; try done. lia.
  - intros x Hx. change (object (set_running R s1) x) with (object s1 x). rewrite Hobj. case_decide as E; [|by apply C].
    subst. destruct (co_wait _ _ _ _ C o Hx) as [S1 S2 S3]. change (object (set_running R s) o) with (object s o) in *.
    split; rewrite ?Hst, ?Ec; done.
Qed.

(** The finished request [r] leaves; its blocks and encoder inputs are free. *)
Lemma free_request_ok s R w o r s1 :
  core_at s R w -> o ∈ R ++ ids w -> wrote s o r s1 -> args r = args (object s o) -> is_finished r = true ->
  wp (free_request cfg o) (fun x s' => x = None /\ released s1 s' o /\
    core_at s' (filter (fun x => x <> o) R) (filter (fun a => obj_id a <> o) w)) s1.
Proof.
  clear plain logs_on hasher_ok block_hasher.
  intros C Ho (m & -> & Hobj) Ea Hfin. set (s1 := set_objects m s) in *. unfold core_at in C.
  assert (object s1 o = r) as Eo by (by rewrite Hobj, decide_True).
  assert (rid s1 o = rid s o) as Eid by (unfold rid; by rewrite Eo, Ea).
  assert (consistent size r) as Hcons.
  { unfold consistent. rewrite Ea. apply elem_of_app in Ho as [Ho|Ho].
    - apply (rk_size _ _ _ (ro_req _ _ _ _ (co_run _ _ _ _ C o Ho))).
    - apply (rk_size _ _ _ (wo_req _ _ _ (co_wait _ _ _ _ C o Ho))). }
  assert (requests s !! rid s o = Some o) as Hreq by (by apply (co_requests _ _ _ _ C)).
  unfold free_request. wp_step. wp_step. rewrite Eo. wp_step. apply wp_assert; [done|]. wp_step.
  unfold connector_finished. rewrite law_no_connector. apply wp_ret. wp_step. apply wp_on_encoder.
  eapply wp_mono; [apply (ec_free_ok size size_nonneg); [done|apply C]|]. intros _ e' ([He _] & _).
  wp_step. wp_step. wp_step. wp_step. set (s3 := match finished_req_ids_dict _ with Some _ => _ | None => _ end).
  assert (s3 = set_finished_req_ids_dict (finished_req_ids_dict s3)
            (set_finished_req_ids ({[request_id (args r)]} ∪ finished_req_ids s) (set_encoder_cache_manager e' s1))) as E3.
  { unfold s3. by destruct (finished_req_ids_dict _). }
  set (d := finished_req_ids_dict s3) in E3. clearbody d. rewrite E3. clear E3 s3. wp_step. unfold free_blocks.
  wp_step. wp_step. set (s4 := set_finished_req_ids_dict d _). change (object s4 o) with (object s1 o). rewrite Eo.
  wp_step. apply wp_assert; [done|]. wp_step. apply wp_on_kv.
  eapply wp_mono; [apply law_free, C|]. intros _ k' (Hk & Hnone & Hnn & Hcc & Htt). rewrite Ea in *. fold (rid s o) in *.
  wp_step. wp_step. wp_step. eapply wp_unwrap; [exact Hreq|]. wp_step. apply wp_ret. split; [done|].
  set (s' := set_requests _ _). split.
  { split; try done; simpl; rewrite ?Eid; [done| |exact Htt]. unfold rid. by rewrite Ea. }
  destruct C as [C1 C2 C3 C4 C5 C6 C7 C8 C9 C10].
  assert (Hne : forall x, x <> o -> object s' x = object s x) by (intros x Hx; change (object s' x) with (object s1 x); by rewrite Hobj, decide_False).
  assert (Hrid : forall x, rid s' x = rid s x).
  { intros x. destruct (decide (x = o)) as [->|Hx]; [done|]. unfold rid. by rewrite Hne. }
  assert (Huniq : forall x, x ∈ R ++ ids w -> rid s x = rid s o -> x = o).
  { intros x Hx E. pose proof (proj2 (C4 (rid s x) x) (conj Hx eq_refl)) as E1. simpl in E1. congruence. }
  assert (Hin : forall x, x ∈ filter (fun x => x <> o) R ++ ids (filter (fun a => obj_id a <> o) w) <-> x <> o /\ x ∈ R ++ ids w).
  { intros x. rewrite (filter_ids (fun x => x <> o)), !elem_of_app, !list_elem_of_filter. naive_solver. }
  split; simpl; try done.
  - rewrite (filter_ids (fun x => x <> o)), <- filter_app. by apply NoDup_filter.
  - intros i x. change (requests (set_running _ s')) with (delete (rid s o) (requests s)).
    change (rid (set_running _ s') x) with (rid s' x). rewrite Hrid, Hin, lookup_delete_Some, C4. split.
    + intros (Hi & Hx & <-). split_and!; try done. intros ->. done.
    + intros ((Hx & Hl) & <-). split_and!; try done. intros E. by apply Hx, Huniq.
  - intros x [Hx HR]%list_elem_of_filter. change (object (set_running _ s') x) with (object s' x). rewrite Hne by done. by apply C5.
  - intros a [Hx HR]%list_elem_of_filter. change (object (set_running _ s') (obj_id a)) with (object s' (obj_id a)). rewrite Hne by done. by apply C6.
  - intros x [Hx HR]%list_elem_of_filter. change (object (set_running _ s') x) with (object s' x). rewrite Hne by done.
    eapply run_ok_frame; [by apply C7|]. intros n. apply Hcc. intros E. apply Hx, Huniq; [|done]. apply elem_of_app. by left.
  - intros x Hx. rewrite (filter_ids (fun x => x <> o)) in Hx. apply list_elem_of_filter in Hx as [Hx HR].
    change (object (set_running _ s') x) with (object s' x). rewrite Hne by done. by apply C8.
  - intros i Hi. destruct (decide (i = rid s o)) as [->|Hd]; [done|]. apply Hnn; [done|]. apply C9. intros x Hx E.
    change (rid (set_running R s) x) with (rid s x) in E.
    apply (Hi x); [|change (rid (set_running _ s') x) with (rid s' x); by rewrite Hrid].
    apply list_elem_of_filter. split; [|done]. intros ->. done.
  - simpl in C10. pose proof (length_filter (fun x => x <> o) R). lia.
Qed.

(** ** The update from the model's output *)

(** The tokens delivered for request [i]. *)
Definition emitted (i : string) (d : list (Z * list EngineCoreOutput)) : list Z :=
  flat_map (fun e => if decide (eo_request_id e = i) then eo_new_token_ids e else []) (flat_map snd d).

(** One more output [e] for client [c]: nothing changes for other requests. *)
Lemma emitted_more i c e d :
  (eo_request_id e = i -> emitted i d = []) ->
  emitted i (dict_set c (default [] (dict_get c d) ++ [e]) d) =
  emitted i d ++ if decide (eo_request_id e = i) then eo_new_token_ids e else [].
Proof.
  unfold emitted. induction d as [|[c' es] d IH]; intros Hi; simpl in *; [by rewrite !app_nil_r|].
  rewrite flat_map_app in Hi. destruct (decide (c' = c)) as [E|E]; simpl.
  - rewrite !flat_map_app. simpl. rewrite app_nil_r. case_decide as Ei.
    + destruct (proj1 (app_nil _ _) (Hi Ei)) as [_ Hd]. by rewrite Hd, !app_nil_r.
    + by rewrite !app_nil_r.
  - rewrite !flat_map_app, IH, app_assoc; [done|]. intros Ei. by destruct (proj1 (app_nil _ _) (Hi Ei)).
Qed.

(** What the model runner returns for the scheduled requests: a row for each; tokens
    for generative requests only, pooled data for pooling requests only, prompt
    logprobs only with a result. *)
Definition produces (runner : ModelRunnerOutput) (i : string) : Prop :=
  exists idx, req_id_to_index runner !! i = Some idx /\
    ((exists t ts, sampled_token_ids runner !! idx = Some (t :: ts)) \/
     (exists p, pooler_output runner !! idx = Some (Some p))).
Record row_ok (runner : ModelRunnerOutput) (i : string) (r : Request) : Prop := mkRowOk {
  rw_index : is_Some (req_id_to_index runner !! i);
  rw_sampled : forall idx, req_id_to_index runner !! i = Some idx -> sampled_token_ids runner <> [] ->
                 exists row, sampled_token_ids runner !! idx = Some row /\
                             (is_Some (pooling_params (args r)) -> row = []);
  rw_pooled : forall idx, req_id_to_index runner !! i = Some idx -> pooler_output runner <> [] ->
                is_Some (pooler_output runner !! idx) /\ is_Some (pooling_params (args r));
  rw_logprobs : is_Some (prompt_logprobs_dict runner !! i) -> produces runner i
}.
Record runner_ok (s : Sched) (out : SchedulerOutput) (runner : ModelRunnerOutput) : Prop := mkRunnerOk {
  ru_connector : kv_connector_output runner = None;
  ru_row : forall i n o, (i, n) ∈ so_num_scheduled_tokens out -> requests s !! i = Some o ->
             row_ok runner i (object s o)
}.

Notation Update := (Scheduler Q K X * UpdateLocals)%type.
Definition stopped (l : UpdateLocals) : gset Z := stopped_running_reqs l ∪ stopped_preempted_reqs l.

(** The loop of [update_from_output], started in [s0]: [seen] requests have been
    processed, the stopped ones are released; [pend] are the tokens appended but not
    yet put in the outputs. *)
Record update_inv (runner : ModelRunnerOutput) (s0 : Sched) (seen : list string) (pend : string -> list Z)
    (s : Sched) (l : UpdateLocals) : Prop := mkUpdateInv {
  ui_core : core_at s (filter (fun o => o ∉ stopped l) (running s0))
                      (filter (fun a => obj_id a ∉ stopped l) (rq_iter (waiting s0)));
  ui_same : running s = running s0 /\ waiting s = waiting s0 /\
            prev_step_scheduled_req_ids s = prev_step_scheduled_req_ids s0;
  ui_stopped : (forall o, o ∈ stopped_running_reqs l -> o ∈ running s0) /\
               (forall o, o ∈ stopped_preempted_reqs l -> o ∈ ids (rq_iter (waiting s0)));
  ui_requests : requests s ⊆ requests s0;
  ui_grown : forall i o, requests s0 !! i = Some o ->
               grown (object s0 o) (object s o) (emitted i (outputs l) ++ pend i);
  ui_status : forall o, o ∉ stopped l -> status (object s o) = status (object s0 o);
  ui_finished : forall o, o ∈ stopped l -> is_finished (object s o) = true;
  ui_todo : forall i, i ∉ seen -> emitted i (outputs l) = [];
  ui_seen : forall i o, i ∈ seen -> requests s0 !! i = Some o -> produces runner i ->
              o ∈ stopped l \/ emitted i (outputs l) <> []
}.
Definition nothing (_ : string) : list Z := [].
Definition only (i : string) (kept : list Z) (j : string) : list Z := if decide (j = i) then kept else [].

Lemma wp_upd {A} (op : py Sched A) P (p : Update) :
  wp op (fun a s => P a (s, p.2)) p.1 -> wp (upd op) P p.
Proof. intros Hw. by apply wp_zoom. Qed.

Lemma update_live_in runner s0 seen pend s l i o :
  core s0 (rq_iter (waiting s0)) -> update_inv runner s0 seen pend s l -> requests s !! i = Some o ->
  o ∈ filter (fun o => o ∉ stopped l) (running s0) ++ ids (filter (fun a => obj_id a ∉ stopped l) (rq_iter (waiting s0))) /\
  o ∉ stopped l /\ rid s o = i /\ requests s0 !! i = Some o /\ rid s0 o = i.
Proof.
  intros C U Hi. pose proof (proj1 (co_requests _ _ _ _ (ui_core _ _ _ _ _ _ U) i o) Hi) as [Hin E].
  split; [done|]. split_and!; try done.
  - change (o ∈ filter (fun o => o ∉ stopped l) (running s0) ++ ids (filter (fun a => obj_id a ∉ stopped l) (rq_iter (waiting s0)))) in Hin.
    rewrite (filter_ids (fun x => x ∉ stopped l)), elem_of_app, !list_elem_of_filter in Hin. by destruct Hin as [[? _]|[? _]].
  - by apply (lookup_weaken _ _ _ _ Hi), (ui_requests _ _ _ _ _ _ U).
  - assert (requests s0 !! i = Some o) as H0 by (by apply (lookup_weaken _ _ _ _ Hi), (ui_requests _ _ _ _ _ _ U)).
    by apply (co_requests _ _ _ _ C) in H0 as [_ ?].
Qed.

(** A request that goes on. *)
Lemma update_inv_grow runner s0 seen s l i o r s1 kept :
  core s0 (rq_iter (waiting s0)) -> update_inv runner s0 seen nothing s l -> i ∉ seen -> requests s !! i = Some o ->
  wrote s o r s1 -> grown (object s o) r kept -> req_ok r -> status r = status (object s o) ->
  update_inv runner s0 seen (only i kept) s1 l.
Proof.
  intros C U Hseen Hi HW G HR Hst. destruct (update_live_in _ _ _ _ _ _ _ _ C U Hi) as (Hin & Hns & Eid & H0 & Eid0).
  pose proof (core_at_wrote _ _ _ _ _ _ _ (ui_core _ _ _ _ _ _ U) Hin HW G HR Hst) as C1.
  destruct HW as (m & -> & Hobj). destruct U as [U1 U2 U3 U4 U5 U6 U7 U8 U9]. split; try done.
  - intros j x Hx. rewrite Hobj. unfold only. case_decide as E.
    + subst x. assert (j = i) as -> by (apply (co_requests _ _ _ _ C) in Hx as [_ <-]; done).
      rewrite decide_True by done. specialize (U5 i o Hx). rewrite U8 in * by done. unfold nothing in U5.
      by apply (grown_trans _ (object s o) _ [] kept).
    + rewrite decide_False; [by apply U5|]. intros ->. congruence.
  - intros x Hx. rewrite Hobj. case_decide; [subst; by rewrite Hst, U6|by apply U6].
  - intros x Hx. rewrite Hobj, decide_False by (intros ->; done). by apply U7.
Qed.

(** A request that stops is released and marked. *)
Lemma stop_request_ok runner s0 seen s l i o r s1 kept :
  core s0 (rq_iter (waiting s0)) -> update_inv runner s0 seen nothing s l -> i ∉ seen -> requests s !! i = Some o ->
  wrote s o r s1 -> grown (object s o) r kept -> is_finished r = true ->
  wp (stop_request cfg o (status (object s o))) (fun x p => x = None /\
    update_inv runner s0 seen (only i kept) p.1 p.2 /\ stopped p.2 = {[o]} ∪ stopped l /\ outputs p.2 = outputs l /\
    objects p.1 = objects s1) (s1, l).
Proof.
  clear plain logs_on hasher_ok block_hasher.
  intros C U Hseen Hi HW G Hfin. destruct (update_live_in _ _ _ _ _ _ _ _ C U Hi) as (Hin & Hns & Eid & H0 & Eid0).
  pose proof (ui_core _ _ _ _ _ _ U) as C0.
  assert (o ∈ (if decide (status (object s o) = RUNNING) then running s0 else ids (rq_iter (waiting s0)))) as Hplace.
  { pose proof Hin as [Ho|Ho]%elem_of_app.
    - pose proof (ro_status _ _ _ _ (co_run _ _ _ _ C0 o Ho)) as E. change (status (object s o) = RUNNING) in E.
      rewrite decide_True by done. by apply list_elem_of_filter in Ho as [_ ?].
    - pose proof (wo_status _ _ _ (co_wait _ _ _ _ C0 o Ho)) as E.
      rewrite decide_False by (change (object (set_running _ s) o) with (object s o) in E; by intros Er; destruct E as [E|[E|E]]; rewrite Er in E).
      rewrite (filter_ids (fun x => x ∉ stopped l)) in Ho. by apply list_elem_of_filter in Ho as [_ ?]. }
  unfold stop_request. wp_step. apply wp_upd.
  eapply wp_mono; [apply (free_request_ok s _ _ o r s1 C0 Hin HW); [apply G|done]|]. intros x s' (-> & HL & C1).
  destruct HW as (m & -> & Hobj). destruct HL as [L1 L2 L3 L4 L5 L6 L7 _].
  assert (Ho' : forall x, object s' x = if decide (x = o) then r else object s x).
  { intros x. rewrite <- Hobj. unfold object. by rewrite L3. }
  wp_step. wp_step. set (l' := if decide _ then _ else _). cbn [fst snd] in *.
  apply wp_ret. split; [done|]. cbn [fst snd].
  assert (stopped l' = {[o]} ∪ stopped l) as ES.
  { unfold l', stopped. case_decide; simpl; set_solver. }
  assert (outputs l' = outputs l) as Eout by (unfold l'; by case_decide).
  split_and!; try done.
  destruct U as [U1 U2 U3 U4 U5 U6 U7 U8 U9]. split; rewrite ?Eout, ?ES; try done.
  - erewrite <- (filter_filter_and (fun x => x <> o) (fun x => x ∉ stopped l) (fun x => x ∉ {[o]} ∪ stopped l)) by set_solver.
    erewrite <- (filter_filter_and (fun a => obj_id a <> o) (fun a => obj_id a ∉ stopped l)
                   (fun a => obj_id a ∉ {[o]} ∪ stopped l)) by set_solver. done.
  - rewrite L1, L2, L6. done.
  - unfold l'. case_decide; simpl; destruct U3 as [U31 U32]; split; try done; intros x [->%elem_of_singleton|?]%elem_of_union; auto.
  - rewrite L4. etransitivity; [apply delete_subseteq|done].
  - intros j x Hx. rewrite Ho'. unfold only. destruct (decide (x = o)) as [E|E].
    + subst x. assert (j = i) as -> by (apply (co_requests _ _ _ _ C) in Hx as [_ <-]; done).
      rewrite decide_True by done. specialize (U5 i o Hx). rewrite U8 in * by done. unfold nothing in U5.
      by apply (grown_trans _ (object s o) _ [] kept).
    + rewrite decide_False; [by apply U5|]. intros ->. congruence.
  - intros x Hx. rewrite Ho', decide_False by set_solver. apply U6. set_solver.
  - intros x Hx. rewrite Ho'. destruct (decide (x = o)); [done|]. apply U7. set_solver.
  - intros j x Hj Hx Hp. destruct (U9 j x Hj Hx Hp); [left; set_solver|by right].
Qed.

(** Changes that the invariant does not see. *)
Definition inert (f : Request -> Request) : Prop := forall r,
  grown r (f r) [] /\ status (f r) = status r /\ block_hashes (f r) = block_hashes r /\
  num_prompt_tokens (f r) = num_prompt_tokens r /\ spec_token_ids (f r) = spec_token_ids r /\
  num_output_placeholders (f r) = num_output_placeholders r.

Lemma req_ok_inert f r : inert f -> req_ok r -> req_ok (f r).
Proof.
  intros Hf R. destruct (Hf r) as ((E1 & _ & E3 & E4) & _ & E5 & E6 & E7 & E8).
  eapply req_ok_ext; [exact R|..]; try done; rewrite ?app_nil_r in *; try done.
  - rewrite E7. apply R.
  - rewrite E8. apply R.
Qed.

Lemma update_inv_collaborators runner s0 seen pend s l x :
  update_inv runner s0 seen pend s l -> update_inv runner s0 seen pend (set_collaborators x s) l.
Proof. intros [[? ? ? ? ? ? ? ? ? ?] ? ? ? ? ? ? ? ?]. by split. Qed.

Lemma update_inv_inert runner s0 seen pend s l o f :
  update_inv runner s0 seen pend s l -> inert f -> update_inv runner s0 seen pend (write_object o f s) l.
Proof.
  intros U Hf. set (s1 := write_object o f s).
  assert (Ho : forall y, object s1 y = object s y \/ object s1 y = f (object s y)).
  { intros y. unfold s1. rewrite object_write. case_decide; [subst; by right|by left]. }
  assert (Hargs : forall y, args (object s1 y) = args (object s y)).
  { intros y. destruct (Ho y) as [->| ->]; [done|]. apply Hf. }
  destruct U as [C U2 U3 U4 U5 U6 U7 U8 U9]. split; try done.
  - unfold core_at in *. set (R := filter _ (running s0)) in *. set (w := filter _ (rq_iter _)) in *.
    apply (core_change_gen cfg size (set_running R s) w); try done; try apply C.
    + intros y Hy. destruct (co_run _ _ _ _ C y Hy) as [S1 S2 S3 S4].
      change (object (set_running R s) y) with (object s y) in *. change (object (set_running R s1) y) with (object s1 y).
      destruct (Ho y) as [->| ->]; [done|]. destruct (Hf (object s y)) as ((E1 & E2 & E3 & _) & E5 & _).
      split; rewrite ?E1, ?E2, ?E5; try done; [by apply req_ok_inert|]. unfold num_tokens in *. by rewrite E3, app_nil_r.
    + intros y Hy. destruct (co_wait _ _ _ _ C y Hy) as [S1 S2 S3].
      change (object (set_running R s) y) with (object s y) in *. change (object (set_running R s1) y) with (object s1 y).
      destruct (Ho y) as [->| ->]; [done|]. destruct (Hf (object s y)) as ((E1 & E2 & E3 & _) & E5 & _).
      split; rewrite ?E2, ?E5; try done. by apply req_ok_inert.
  - intros i y Hy. destruct (Ho y) as [->| ->]; [by apply U5|].
    rewrite <- (app_nil_r (_ ++ _)). eapply grown_trans; [by apply U5|apply Hf].
  - intros y Hy. rewrite <- U6 by done. destruct (Ho y) as [->| ->]; [done|]. apply Hf.
  - intros y Hy. unfold is_finished. specialize (U7 y Hy). unfold is_finished in U7. rewrite <- U7.
    destruct (Ho y) as [->| ->]; [done|]. f_equal. apply Hf.
Qed.

(** The request [i] is done: its tokens are put in the outputs. *)
Lemma update_inv_seen runner s0 seen kept s l l' i :
  update_inv runner s0 seen (only i kept) s l -> i ∉ seen ->
  stopped_running_reqs l' = stopped_running_reqs l -> stopped_preempted_reqs l' = stopped_preempted_reqs l ->
  (forall j, emitted j (outputs l') = emitted j (outputs l) ++ only i kept j) ->
  (forall o, requests s0 !! i = Some o -> produces runner i -> o ∈ stopped l \/ kept <> []) ->
  update_inv runner s0 (seen ++ [i]) nothing s l'.
Proof.
  intros [U1 U2 U3 U4 U5 U6 U7 U8 U9] Hi E1 E2 Hem Hp.
  assert (stopped l' = stopped l) as ES by (unfold stopped; by rewrite E1, E2).
  split; rewrite ?ES, ?E1, ?E2; try done.
  - intros j o Hj. rewrite Hem. unfold nothing. rewrite app_nil_r. by apply U5.
  - intros j Hj. rewrite Hem, U8 by set_solver. unfold only. rewrite decide_False by set_solver. done.
  - intros j o [Hj| ->]%elem_of_snoc Ho Hpr.
    + destruct (U9 j o Hj Ho Hpr) as [?|Hne]; [by left|right]. rewrite Hem. intros [? _]%app_nil. done.
    + destruct (Hp o Ho Hpr) as [?|Hne]; [by left|right]. rewrite Hem, U8 by done. unfold only.
      by rewrite decide_True.
Qed.

(** What a row of the output does to its request: the tokens kept, the pooled data,
    whether it stops. *)
Definition row_result (s : Sched) (o : Z) (r : Request) (kept : list Z) (stop : bool) : Prop :=
  grown (object s o) r kept /\
  if stop then is_finished r = true else req_ok r /\ status r = status (object s o).

Lemma sampled_ok (s : Sched) (l : UpdateLocals) o generated :
  req_ok (object s o) -> (is_Some (pooling_params (args (object s o))) -> generated = []) ->
  wp (match generated with
      | [] => py_ret ([], false)
      | _ => upd (if async_scheduling cfg then async_update_request cfg block_hasher o generated
                  else update_request cfg block_hasher o generated)
      end) (fun '(kept, stop) p => exists r, p.2 = l /\ wrote s o r p.1 /\ row_result s o r kept stop /\
        (generated <> [] -> kept <> []) /\ (generated = [] -> stop = false /\ kept = [])) (s, l).
Proof.
  intros HR Hpool. destruct generated as [|t ts].
  - apply wp_ret. exists (object s o). split_and!; try done; [apply wrote_same|].
    split; [|done]. unfold grown. by rewrite !app_nil_r.
  - destruct (pooling_params (args (object s o))) as [p|] eqn:Ep; [by discriminate Hpool|].
    destruct (rk_kind _ _ _ HR) as [[p Hp]|[sp Hsp]]; [congruence|].
    destruct (update_request_grows (object s o) sp (t :: ts) HR Ep Hsp) as (r & kept & stop & E & G & Hk & Hst).
    rewrite (pc_sync _ plain). apply wp_upd. unfold update_request. wp_step. wp_step. cbn [fst snd]. wp_step.
    rewrite E. apply wp_ret. cbv iota. wp_step. wp_step. exists r. cbn [fst snd]. split_and!; try done.
    + apply (wrote_write s o (fun _ => r)).
    + split; [done|]. destruct stop; [done|]. by destruct Hst as (? & ? & _).
Qed.

Lemma pooled_ok runner (s s1 : Sched) (l : UpdateLocals) o i idx r kept stop :
  wrote s o r s1 -> row_result s o r kept stop -> row_ok runner i (object s o) ->
  req_id_to_index runner !! i = Some idx ->
  wp (match pooler_output runner with
      | [] => py_ret (None, stop)
      | l =>
          let! pooled := py_unwrap IndexError (l !! idx) in
          let! r := upd (get_object o) in
          let! '(r', stopped) := py_lift (check_stop max_len pooled r) in
          do! upd (update_object o (fun _ => r'));
          py_ret (pooled, stopped)
      end) (fun '(pooled, stop') p => exists r', p.2 = l /\ wrote s o r' p.1 /\
        (pooler_output runner = [] -> stop' = stop /\ pooled = None /\ r' = r) /\
        (pooler_output runner <> [] -> stop = false -> row_result s o r' kept stop' /\
          pooler_output runner !! idx = Some pooled /\ (is_Some pooled -> stop' = true))) (s1, l).
Proof.
  intros HW HG HRow Hidx. destruct (pooler_output runner) as [|po pos] eqn:Epo.
  - apply wp_ret. exists r. by split_and!.
  - destruct (rw_pooled _ _ _ HRow idx Hidx) as [[pooled Hpl] [pp Hpp]]; [by rewrite Epo|]. rewrite Epo in Hpl.
    assert (object s1 o = r) as Eo by (destruct HW as (m & -> & Hobj); by rewrite Hobj, decide_True).
    assert (pooling_params (args r) = Some pp) as Er by (destruct HG as [(-> & _) _]; done).
    wp_step. eapply wp_unwrap; [exact Hpl|]. wp_step. apply wp_upd. wp_step. cbn [fst snd]. rewrite Eo. wp_step.
    unfold check_stop. rewrite Er. destruct pooled as [pd|]; apply wp_ret; cbv iota; wp_step; apply wp_upd; wp_step; cbn [fst snd].
    + exists (set_status FINISHED_STOPPED r). split_and!; try done.
      * eapply wrote_trans; [exact HW|]. apply (wrote_write s1 o (fun _ => set_status FINISHED_STOPPED r)).
      * intros _ ->. split_and!; try done. split; [|done]. by destruct HG as [G _].
    + exists r. split_and!; try done.
      * eapply wrote_trans; [exact HW|]. apply (wrote_write s1 o (fun _ => r)).
      * intros _ ->. split_and!; try done.
Qed.

(** The row's request stops or goes on. *)
Lemma row_applied runner s0 seen s l i o r s1 kept (stop : bool) :
  core s0 (rq_iter (waiting s0)) -> update_inv runner s0 seen nothing s l -> i ∉ seen -> requests s !! i = Some o ->
  wrote s o r s1 -> row_result s o r kept stop ->
  wp (if stop then stop_request cfg o (status (object s o)) else py_ret None) (fun x p => x = None /\
    update_inv runner s0 seen (only i kept) p.1 p.2 /\ (stop = true -> o ∈ stopped p.2) /\ outputs p.2 = outputs l) (s1, l).
Proof.
  intros C U Hi Ho HW [G Hst]. destruct stop.
  - eapply wp_mono; [by eapply stop_request_ok|]. intros x p (? & ? & ES & ? & _). split_and!; try done. intros _. rewrite ES. set_solver.
  - apply wp_ret. split_and!; try done. destruct Hst. by eapply update_inv_grow.
Qed.

(** The remaining steps for the request [i], whose tokens [kept] are appended. *)
Lemma row_reported runner s0 seen s l i o kept pooled :
  update_inv runner s0 seen (only i kept) s l -> i ∉ seen ->
  (forall o, requests s0 !! i = Some o -> produces runner i -> o ∈ stopped l \/ kept <> []) ->
  (is_Some (prompt_logprobs_dict runner !! i) -> kept <> [] \/ is_Some pooled) ->
  wp (report_live runner i o kept pooled None)
    (fun _ p => update_inv runner s0 (seen ++ [i]) nothing p.1 p.2) (s, l).
Proof.
  intros U Hi Hprod Hlog. unfold report_live. wp_step. apply wp_upd. wp_step. wp_step. apply wp_upd. wp_step. cbn [fst snd]. wp_step.
  apply (wp_mono _ (fun _ p => p.2 = l /\ update_inv runner s0 seen (only i kept) p.1 l)).
  { destruct (should_advance (object s o) (collaborators s)) eqn:Ea; [|rewrite andb_false_r; by apply wp_ret].
    destruct (law_advance _ _ Ea) as [E1 E2]. destruct (law_accept _ kept _ Ea) as [x' Hx].
    case_bool_decide; simpl; [by apply wp_ret|]. wp_step. apply wp_assert; [done|]. wp_step. apply wp_assert; [done|].
    apply wp_upd. unfold on_collaborators. apply wp_zoom. unfold wp. cbn [fst snd]. rewrite Hx. split; [done|]. by apply update_inv_collaborators. }
  intros _ [s1 l1] [El U1]. cbn [fst snd] in El, U1. subst l1. wp_step.
  apply (wp_mono _ (fun _ p => p.2 = l /\ update_inv runner s0 seen (only i kept) p.1 l)).
  { destruct (runner_num_nans_in_logits runner) as [d|]; [|by apply wp_ret]. destruct (d !! i) as [n|]; [|by apply wp_ret].
    apply wp_upd. wp_step. split; [done|]. cbn [fst snd]. apply update_inv_inert; [done|].
    intros r. unfold grown. by rewrite !app_nil_r. }
  intros _ [s2 l2] [El U2]. cbn [fst snd] in El, U2. subst l2. rewrite (bool_decide_false (is_Some None)) by (by destruct 1).
  rewrite orb_false_r.
  destruct (negb (bool_decide (kept = [])) || bool_decide (is_Some pooled)) eqn:Ee.
  - wp_step. apply wp_upd. wp_step. cbn [fst snd]. unfold take_events.
    assert (exists evs, (match events (object s2 o) with [] => (None, object s2 o) | ev => (Some ev, set_events [] (object s2 o)) end) =
       (evs, set_events [] (object s2 o))) as [evs Eev].
    { destruct (events (object s2 o)) eqn:E; eexists; [|done]. f_equal. unfold set_events. rewrite <- E. by destruct (object s2 o). }
    rewrite Eev. wp_step. apply wp_upd. wp_step. cbn [fst snd]. unfold emit_output, upd_locals. wp_step. cbn [fst snd].
    set (s3 := write_object o _ s2).
    assert (update_inv runner s0 seen (only i kept) s3 l) as U3.
    { assert (s3 = write_object o (set_events []) s2) as -> by done. apply update_inv_inert; [done|].
      intros r. unfold grown. by rewrite !app_nil_r. }
    eapply update_inv_seen; [exact U3|done|done|done| |done]. intros j. simpl. rewrite emitted_more; simpl.
    + unfold only. f_equal. repeat case_decide; congruence.
    + intros <-. apply (ui_todo _ _ _ _ _ _ U3 _ Hi).
  - apply orb_false_iff in Ee as [E1%negb_false_iff%bool_decide_eq_true E2%bool_decide_eq_false]. subst kept.
    assert (prompt_logprobs_dict runner !! i = None) as Elog.
    { destruct (prompt_logprobs_dict runner !! i); [|done]. by destruct Hlog as [?|?]. }
    apply wp_assert; [by rewrite Elog|]. cbn [fst snd].
    eapply update_inv_seen; [exact U2|done|done|done| |done].
    intros j. unfold only. case_decide; by rewrite app_nil_r.
Qed.

Lemma update_live_ok runner out s0 seen s l i o :
  core s0 (rq_iter (waiting s0)) -> so_scheduled_spec_decode_tokens out = ∅ -> row_ok runner i (object s0 o) ->
  update_inv runner s0 seen nothing s l -> i ∉ seen -> requests s !! i = Some o ->
  wp (update_live cfg block_hasher out runner i o)
    (fun _ p => update_inv runner s0 (seen ++ [i]) nothing p.1 p.2) (s, l).
Proof.
  intros C Espec HRow U Hi Ho. destruct (update_live_in _ _ _ _ _ _ _ _ C U Ho) as (Hin & _ & Eid & H0 & _).
  assert (args (object s o) = args (object s0 o)) as Ea by apply (ui_grown _ _ _ _ _ _ U i o H0).
  assert (row_ok runner i (object s o)) as HRow1 by (destruct HRow; split; by rewrite ?Ea).
  assert (req_ok (object s o)) as HR.
  { apply elem_of_app in Hin as [Hin|Hin].
    - apply (ro_req _ _ _ _ (co_run _ _ _ _ (ui_core _ _ _ _ _ _ U) o Hin)).
    - apply (wo_req _ _ _ (co_wait _ _ _ _ (ui_core _ _ _ _ _ _ U) o Hin)). }
  destruct (rw_index _ _ _ HRow) as [idx Hidx]. unfold update_live. wp_step. eapply wp_unwrap; [exact Hidx|]. wp_step.
  apply (wp_mono _ (fun gen p => p = (s, l) /\ (is_Some (pooling_params (args (object s o))) -> gen = []) /\
    forall t ts, sampled_token_ids runner !! idx = Some (t :: ts) -> gen <> [])).
  { destruct (sampled_token_ids runner) as [|row rows] eqn:Es; [by apply wp_ret|].
    destruct (rw_sampled _ _ _ HRow1 idx Hidx) as (g & Hg & Hpl); [by rewrite Es|]. rewrite Es in Hg.
    eapply wp_unwrap; [exact Hg|]. split_and!; try done. intros t ts E. congruence. }
  intros gen ? (-> & Hpl & Hgen). rewrite Espec, lookup_empty. wp_step. apply wp_ret. wp_step. apply wp_upd. wp_step. cbn [fst snd].
  wp_step. eapply wp_mono; [by apply sampled_ok|]. intros [kept stop] [s1 l1] (r & El & HW & HG & Hne & Hnil).
  cbn [fst snd] in El, HW. subst l1. wp_step.
  eapply wp_mono; [by apply (pooled_ok runner s s1 l o i idx r kept stop)|].
  intros [pooled stop'] [s2 l2] (r' & El & HW2 & Hno & Hyes). cbn [fst snd] in El, HW2. subst l2.
  assert (row_result s o r' kept stop' /\ (is_Some pooled -> stop' = true) /\
          forall p, pooler_output runner !! idx = Some (Some p) -> is_Some pooled) as (HG' & Hpstop & Hpsome).
  { destruct (pooler_output runner) as [|po pos] eqn:Epo.
    - destruct (Hno eq_refl) as (-> & -> & ->). split_and!; done.
    - destruct (rw_pooled _ _ _ HRow1 idx Hidx) as [_ Hpp]; [by rewrite Epo|].
      destruct (Hyes ltac:(done)) as (? & E & ?); [by apply Hnil, Hpl|]. split_and!; try done.
      intros p Hp. rewrite Hp in E. injection E as <-. by eexists. }
  wp_step. eapply wp_mono; [by apply (row_applied runner s0 seen s l i o r' s2 kept stop')|].
  intros x [s3 l3] (-> & U3 & Hstop & Eout). cbn [fst snd] in *.
  apply row_reported; try done.
  - intros o' Ho' (idx' & Hidx' & Hprod). assert (o' = o) as -> by congruence. assert (idx' = idx) as -> by congruence.
    destruct Hprod as [(t & ts & Ht)|[p Hp]]; [right; by eapply Hne, Hgen|left]. by eapply Hstop, Hpstop, Hpsome.
  - intros Hlog. destruct (rw_logprobs _ _ _ HRow Hlog) as (idx' & Hidx' & Hprod). assert (idx' = idx) as -> by congruence.
    destruct Hprod as [(t & ts & Ht)|[p Hp]]; [left; by eapply Hne, Hgen|right; by eapply Hpsome].
Qed.

(** The loop over the scheduled requests. *)
Lemma update_loop_ok runner out s0 :
  core s0 (rq_iter (waiting s0)) -> so_scheduled_spec_decode_tokens out = ∅ -> runner_ok s0 out runner ->
  NoDup (so_num_scheduled_tokens out).*1 -> (forall i n, (i, n) ∈ so_num_scheduled_tokens out -> 0 < n) ->
  wp (py_for (so_num_scheduled_tokens out) (update_one cfg block_hasher out runner ∅))
    (fun _ p => update_inv runner s0 (so_num_scheduled_tokens out).*1 nothing p.1 p.2)
    (s0, mkUpdateLocals [] None ∅ ∅).
Proof.
  intros C Espec HRun Hnd Hpos. set (d := so_num_scheduled_tokens out) in *.
  apply (wp_for (update_one cfg block_hasher out runner ∅) (fun seen p => update_inv runner s0 seen.*1 nothing p.1 p.2) d []).
  - split; simpl; try done.
    + rewrite !filter_all by (intros; set_solver). by apply core_at_running.
    + intros i o Hi. unfold grown. by rewrite !app_nil_r.
    + intros i o Hi%not_elem_of_nil. done.
  - intros pre [i n] post [s l] Ed U. simpl in *. rewrite fmap_app. simpl.
    assert ((i, n) ∈ d) as Hin by (rewrite Ed; set_solver).
    assert (i ∉ pre.*1) as Hi.
    { rewrite Ed, fmap_app in Hnd. apply NoDup_app in Hnd as (_ & Hd & _). intros Hpre. apply (Hd i Hpre). left. }
    unfold update_one. wp_step. apply wp_assert; [by apply Z.ltb_lt, (Hpos i)|].
    rewrite decide_False by apply not_elem_of_empty. wp_step. apply wp_upd. wp_step. cbn [fst snd].
    destruct (requests s !! i) as [o|] eqn:Eo.
    + apply update_live_ok; try done. apply (ru_row _ _ _ HRun i n o Hin).
      by apply (lookup_weaken _ _ _ _ Eo), (ui_requests _ _ _ _ _ _ U).
    + apply wp_ret. eapply update_inv_seen; try done.
      * instantiate (1 := []). destruct U as [U1 U2 U3 U4 U5 U6 U7 U8 U9]. split; try done.
        intros j o Hj. unfold only. case_decide; by apply U5.
      * intros j. unfold only. case_decide; by rewrite app_nil_r.
      * intros o Ho _. left. destruct (decide (o ∈ stopped l)) as [|Hno]; [done|].
        apply (co_requests _ _ _ _ C) in Ho as [Hl E].
        assert (requests s !! i = Some o) as E2; [|congruence].
        apply (co_requests _ _ _ _ (ui_core _ _ _ _ _ _ U)). split.
        { change (o ∈ filter (fun o => o ∉ stopped l) (running s0) ++ ids (filter (fun a => obj_id a ∉ stopped l) (rq_iter (waiting s0)))).
          rewrite (filter_ids (fun x => x ∉ stopped l)), <- filter_app. by apply list_elem_of_filter. }
        change (rid s o = i). rewrite <- E. unfold rid.
        assert (requests s0 !! rid s0 o = Some o) as E0 by (by apply (co_requests _ _ _ _ C)).
        by rewrite (proj1 (ui_grown _ _ _ _ _ _ U _ _ E0)).
Qed.

(** The tokens that the results for the clients hold for request [i]. *)
Definition delivered (i : string) (d : list (Z * EngineCoreOutputs)) : list Z :=
  emitted i (map (fun e => (e.1, eco_outputs e.2)) d).

Lemma delivered_set i c e d :
  eco_outputs e = default [] (eco_outputs <$> dict_get c d) -> delivered i (dict_set c e d) = delivered i d.
Proof.
  unfold delivered, emitted. induction d as [|[c' e'] d IH]; simpl; intros E; [by rewrite E|].
  case_decide as Ec; simpl.
  - simpl in E. by rewrite E.
  - by rewrite !flat_map_app, IH.
Qed.
Lemma delivered_finished i fin d : delivered i (add_finished fin d) = delivered i d.
Proof.
  unfold add_finished. revert d. induction fin as [|[c ids] fin IH]; intros d; simpl; [done|].
  rewrite IH, delivered_set; [done|]. simpl. by destruct (dict_get c d).
Qed.
Lemma delivered_stats i st d : delivered i (add_stats st d) = delivered i d.
Proof. unfold add_stats. destruct st; [|done]. by destruct d as [|[c e] d]. Qed.

(** What [update_from_output] does to the live requests and tells their clients. *)
Record update_result (s : Sched) (out : SchedulerOutput) (runner : ModelRunnerOutput)
    (d : list (Z * EngineCoreOutputs)) (s' : Sched) : Prop := mkUpdateResult {
  ur_grown : forall i o, requests s !! i = Some o -> grown (object s o) (object s' o) (delivered i d);
  ur_requests : forall i o, requests s' !! i = Some o <-> requests s !! i = Some o /\ is_finished (object s' o) = false;
  ur_running : running s' = filter (fun o => is_finished (object s' o) = false) (running s);
  ur_status : forall i o, requests s' !! i = Some o -> status (object s' o) = status (object s o);
  ur_produces : forall i n o, (i, n) ∈ so_num_scheduled_tokens out -> requests s !! i = Some o -> produces runner i ->
                  is_finished (object s' o) = true \/ delivered i d <> []
}.

Lemma live_unfinished (s : Sched) w o : core s w -> o ∈ running s ++ ids w -> is_finished (object s o) = false.
Proof.
  intros C [Ho|Ho]%elem_of_app; unfold is_finished.
  - by rewrite (ro_status _ _ _ _ (co_run _ _ _ _ C o Ho)).
  - by destruct (wo_status _ _ _ (co_wait _ _ _ _ C o Ho)) as [->|[->| ->]].
Qed.

(** Removing the objects [os] from the waiting queue. *)
Lemma remove_waiting_ok (s : Sched) (os : list Z) :
  rq_wf (waiting s) -> (forall o, o ∈ os -> obj_id (args (object s o)) = o) ->
  wp (on_waiting (remove_requests (map (fun o => args (object s o)) os))) (fun _ s' => exists q,
    s' = set_waiting q s /\ rq_wf q /\ rq_iter q = filter (fun a => obj_id a ∉ os) (rq_iter (waiting s))) s.
Proof.
  intros W Hargs. apply wp_on_waiting.
  edestruct (law_remove_all (waiting s)) as (q & Eq & Wq & Hq); [done|]. unfold wp. rewrite Eq.
  exists q. split_and!; try done. rewrite Hq. apply list_filter_bool. intros a Ha.
  rewrite negb_true_iff. unfold in_requests. rewrite <- not_true_iff_false, existsb_exists.
  apply not_iff_compat. split.
  - intros (b & (o & <- & Ho%list_elem_of_In)%in_map_iff & Hab%Z.eqb_eq). rewrite Hargs in Hab by done. by rewrite Hab.
  - intros Ho. exists (args (object s (obj_id a))). split.
    + apply in_map_iff. exists (obj_id a). split; [done|]. by apply list_elem_of_In.
    + apply Z.eqb_eq. by rewrite Hargs.
Qed.

(** Dropping the stopped requests from the queues. *)
Lemma drop_stopped_ok runner s0 seen s l :
  sched_ok s0 -> update_inv runner s0 seen nothing s l ->
  wp (do! (if decide (stopped_running_reqs l = ∅) then py_ret tt
           else py_modify (fun s => set_running (remove_all (running s) (stopped_running_reqs l)) s));
      if decide (stopped_preempted_reqs l = ∅) then py_ret tt
      else let! s := py_get in
           on_waiting (remove_requests (map (fun o => args (object (s : Sched) o)) (elements (stopped_preempted_reqs l)))))
    (fun _ (s' : Sched) => sched_ok s' /\ running s' = filter (fun o => o ∉ stopped l) (running s0) /\
       requests s' = requests s /\ objects s' = objects s) s.
Proof.
  intros [C W Hp] U. destruct (ui_same _ _ _ _ _ _ U) as (E1 & E2 & E3). destruct (ui_stopped _ _ _ _ _ _ U) as [S1 S2].
  pose proof (running_nodup _ _ _ _ C) as Hnd.
  wp_step. apply (wp_mono _ (fun _ s1 => s1 = set_running (filter (fun o => o ∉ stopped l) (running s0)) s)).
  { assert (filter (fun o => o ∉ stopped l) (running s0) = filter (fun o => o ∉ stopped_running_reqs l) (running s0)) as ->.
    { apply filter_ext_in. intros o Ho. unfold stopped. rewrite not_elem_of_union.
      pose proof (running_not_waiting _ _ _ _ _ C Ho) as Hnw. split; [by intros [? _]|]. intros Hn. split; [done|]. by intros ?%S2. }
    case_decide as Ee.
    - apply wp_ret. rewrite Ee, filter_all by (intros; apply not_elem_of_empty). rewrite <- E1. by destruct s.
    - wp_step. by rewrite E1, remove_all_filter. }
  intros _ ? ->. set (s1 := set_running _ s). pose proof (ui_core _ _ _ _ _ _ U) as C1. unfold core_at in C1. fold s1 in C1.
  assert (Hargs : forall o, o ∈ stopped_preempted_reqs l -> obj_id (args (object s o)) = o).
  { intros o Ho%S2. assert (o ∈ running s0 ++ ids (rq_iter (waiting s0))) as Hl by (apply elem_of_app; by right).
    assert (requests s0 !! rid s0 o = Some o) as E0 by (by apply (co_requests _ _ _ _ C)).
    rewrite (proj1 (ui_grown _ _ _ _ _ _ U _ _ E0)). by eapply core_obj_id. }
  apply (wp_mono _ (fun _ s' => exists q, s' = set_waiting q s1 /\ rq_wf q /\
    rq_iter q = filter (fun a => obj_id a ∉ stopped l) (rq_iter (waiting s0)))).
  { assert (filter (fun a => obj_id a ∉ stopped l) (rq_iter (waiting s0)) =
            filter (fun a => obj_id a ∉ stopped_preempted_reqs l) (rq_iter (waiting s0))) as ->.
    { apply filter_ext_in. intros a Ha. unfold stopped. rewrite not_elem_of_union.
      assert (obj_id a ∈ ids (rq_iter (waiting s0))) as Hw by (by apply list_elem_of_fmap_2).
      split; [by intros [_ ?]|]. intros Hn. split; [|done]. intros Hr%S1. by apply (running_not_waiting _ _ _ _ _ C Hr). }
    case_decide as Ee.
    - apply wp_ret. exists (waiting s0). rewrite Ee, filter_all by (intros; apply not_elem_of_empty).
      split_and!; try done. rewrite <- E2. unfold s1. by destruct s.
    - wp_step. wp_step. eapply wp_mono; [apply remove_waiting_ok|].
      + change (waiting s1) with (waiting s). by rewrite E2.
      + intros o Ho%elem_of_elements. by apply Hargs.
      + intros _ s' (q & -> & Wq & Hq). exists q. split_and!; try done. rewrite Hq. change (waiting s1) with (waiting s).
        rewrite E2. apply list_filter_iff. intros a. by rewrite elem_of_elements. }
  intros _ ? (q & -> & Wq & Hq). split_and!; try done. split; [|done|].
  - change (waiting (set_waiting q s1)) with q. rewrite Hq. destruct C1. by split.
  - change (waiting (set_waiting q s1)) with q. rewrite Hq. intros o Ho Hst.
    change (object (set_waiting q s1) o) with (object s o) in Hst.
    rewrite (filter_ids (fun x => x ∉ stopped l)) in Ho. apply list_elem_of_filter in Ho as [Hn Ho].
    change (rid s o ∉ prev_step_scheduled_req_ids s). rewrite E3.
    rewrite (ui_status _ _ _ _ _ _ U o Hn) in Hst.
    assert (requests s0 !! rid s0 o = Some o) as E0 by (apply (co_requests _ _ _ _ C); split; [apply elem_of_app; by right|done]).
    unfold rid. rewrite (proj1 (ui_grown _ _ _ _ _ _ U _ _ E0)). by apply Hp.
Qed.

Lemma wp_assoc {S A B D} (m : py S A) (k : A -> py S B) (g : B -> py S D) P s :
  wp (py_bind (py_bind m k) g) P s -> wp (py_bind m (fun a => py_bind (k a) g)) P s.
Proof. unfold wp, py_bind. by destruct (m s). Qed.

(** State that the invariant does not mention, and KV memory that keeps its contents. *)
Lemma sched_ok_kv (s : Sched) k :
  sched_ok s -> kv_ok k -> (forall i, kv_none (kv s) i -> kv_none k i) ->
  (forall i n, kv_covers (kv s) i n -> kv_covers k i n) -> sched_ok (set_kv_cache_manager k s).
Proof.
  intros [C W Hp] Hk Hn Hc. split; try done.
  apply (core_change_gen cfg size s (rq_iter (waiting s))); try done; try apply C.
  - intros o Ho. eapply run_ok_frame; [by apply C|]. intros n. apply Hc.
  - intros i Hi. by apply Hn, (co_idle _ _ _ _ C).
Qed.

(** The end of an update. The outputs of [l] are not those of the invariant: what is
    delivered is what they hold. *)
Lemma collect_events_ok runner s0 seen s l l0 :
  sched_ok s0 -> update_inv runner s0 seen nothing s l0 -> kv_connector_output runner = None ->
  stopped_running_reqs l = stopped_running_reqs l0 -> stopped_preempted_reqs l = stopped_preempted_reqs l0 ->
  wp (collect_events runner l) (fun _ s' => sched_ok s' /\
    running s' = filter (fun o => o ∉ stopped l0) (running s0) /\
    requests s' = requests s /\ objects s' = objects s) s.
Proof.
  intros HS U Hcon E1 E2. unfold collect_events. rewrite Hcon, E1, E2.
  apply wp_assoc. wp_step. eapply wp_mono; [by eapply drop_stopped_ok|]. intros _ s2 (HS2 & Er2 & Eq2 & Eo2).
  wp_step. apply wp_ret. wp_step. apply wp_on_kv. eapply wp_mono; [apply law_take_events, HS2|].
  intros evs k (Hk & Hkn & Hkc). rewrite law_no_connector. wp_step. apply wp_ret. apply wp_ret.
  split_and!; try done. by apply sched_ok_kv.
Qed.

Lemma client_outputs_ok (s : Sched) l :
  sched_ok s -> wp (client_outputs cfg l) (fun res s' => sched_ok s' /\ running s' = running s /\
    requests s' = requests s /\ objects s' = objects s /\ forall i, delivered i res = emitted i (outputs l)) s.
Proof.
  intros HS. unfold client_outputs. wp_step. wp_step. wp_step.
  apply (wp_mono _ (fun _ s4 => exists d, s4 = set_finished_req_ids_dict d s)).
  { destruct (finished_req_ids_dict s) as [d|] eqn:Ed; [wp_step; by eexists|]. apply wp_ret. exists None.
    rewrite <- Ed. by destruct s. }
  intros _ ? (fd & ->). set (s4 := set_finished_req_ids_dict fd s).
  assert (sched_ok s4) as HS4 by (destruct HS as [[? ? ? ? ? ? ? ? ? ?] ? ?]; by split).
  wp_step. apply (wp_mono _ (fun st s5 => sched_ok s5 /\ running s5 = running s4 /\ requests s5 = requests s4 /\ objects s5 = objects s4)).
  { unfold make_stats. destruct (scheduler_log_stats cfg) eqn:El; simpl; [|by apply wp_ret]. wp_step. apply wp_on_kv.
    eapply wp_mono; [apply law_stats, HS4|]. intros st k5 (Hst & Hk5 & Hn5 & Hc5).
    destruct Hst as [pst Hst]; [by apply logs_on|]. wp_step. eapply wp_unwrap; [exact Hst|].
    assert (sched_ok (set_kv_cache_manager k5 s4)) as HS5 by by apply sched_ok_kv.
    wp_step. wp_step. wp_step. destruct (connector_prefix_cache_stats _).
    - wp_step. apply wp_ret. split_and!; try done. destruct HS5 as [[? ? ? ? ? ? ? ? ? ?] ? ?]. by split.
    - apply wp_ret. by apply wp_ret. }
  intros st s5 (HS5 & E5r & E5q & E5o). apply wp_ret. split_and!; try done.
  intros i. rewrite delivered_stats, delivered_finished. unfold delivered. rewrite map_map. simpl.
  f_equal. rewrite <- (map_id (outputs l)) at 2. apply map_ext. by intros [].
Qed.

Lemma close_update_ok runner s0 seen s l l0 :
  sched_ok s0 -> update_inv runner s0 seen nothing s l0 -> kv_connector_output runner = None ->
  stopped_running_reqs l = stopped_running_reqs l0 -> stopped_preempted_reqs l = stopped_preempted_reqs l0 ->
  wp (close_update cfg runner l) (fun res s' => sched_ok s' /\
    running s' = filter (fun o => o ∉ stopped l0) (running s0) /\
    requests s' = requests s /\ objects s' = objects s /\
    forall i, delivered i res.1 = emitted i (outputs l)) s.
Proof.
  intros HS U Hcon E1 E2. unfold close_update. wp_step. eapply wp_mono; [by eapply collect_events_ok|].
  intros evs s2 (HS2 & Er & Eq & Eo). wp_step. eapply wp_mono; [by apply client_outputs_ok|].
  intros res s3 (HS3 & Er3 & Eq3 & Eo3 & Hd). apply wp_ret. rewrite Er3, Eq3, Eo3. by split_and!.
Qed.

(** Which requests an update leaves in the id map. *)
Lemma requests_after runner s0 seen s l i o :
  core s0 (rq_iter (waiting s0)) -> update_inv runner s0 seen nothing s l ->
  requests s !! i = Some o <-> requests s0 !! i = Some o /\ o ∉ stopped l.
Proof.
  intros C U. split.
  - intros Hi. by destruct (update_live_in _ _ _ _ _ _ _ _ C U Hi) as (_ & ? & _ & ? & _).
  - intros [Hi Hn]. pose proof Hi as [Hl E]%(co_requests _ _ _ _ C).
    apply (co_requests _ _ _ _ (ui_core _ _ _ _ _ _ U)). split.
    { change (o ∈ filter (fun o => o ∉ stopped l) (running s0) ++ ids (filter (fun a => obj_id a ∉ stopped l) (rq_iter (waiting s0)))).
      rewrite (filter_ids (fun x => x ∉ stopped l)), <- filter_app. by apply list_elem_of_filter. }
    change (rid s o = i). rewrite <- E. unfold rid. by rewrite (proj1 (ui_grown _ _ _ _ _ _ U _ _ Hi)).
Qed.

Lemma update_from_output_ok s out runner :
  sched_ok s -> so_scheduled_spec_decode_tokens out = ∅ -> runner_ok s out runner ->
  NoDup (so_num_scheduled_tokens out).*1 -> (forall i n, (i, n) ∈ so_num_scheduled_tokens out -> 0 < n) ->
  wp (update_from_output cfg block_hasher out runner) (fun res s' =>
    sched_ok s' /\ update_result s out runner res.1 s') s.
Proof.
  intros HS Espec HRun Hnd Hpos. pose proof (sk_core _ _ _ HS) as C.
  pose proof (update_loop_ok runner out s C Espec HRun Hnd Hpos) as HL.
  apply wp_iff in HL as ([] & [s1 l] & EL & U). cbn [fst snd] in U.
  unfold update_from_output, failed_loads. rewrite (ru_connector _ _ _ HRun). wp_step. apply wp_ret. wp_step.
  unfold update_loop. unfold wp at 1. rewrite EL.
  eapply wp_mono; [by eapply close_update_ok; try done; apply HRun|].
  intros res s5 (HS5 & E5r & E5q & E5o & Hdel). split; [done|].
  assert (Hobj : forall o, object s5 o = object s1 o) by (intros o; unfold object; by rewrite E5o).
  assert (Hfin : forall o, o ∈ running s ++ ids (rq_iter (waiting s)) -> is_finished (object s5 o) = false <-> o ∉ stopped l).
  { intros o Ho. rewrite Hobj. split.
    - intros Hf Hin. by rewrite (ui_finished _ _ _ _ _ _ U o Hin) in Hf.
    - intros Hn. unfold is_finished. rewrite (ui_status _ _ _ _ _ _ U o Hn). by eapply live_unfinished. }
  assert (Hreq : forall i o, requests s5 !! i = Some o <-> requests s !! i = Some o /\ o ∉ stopped l).
  { intros i o. rewrite E5q. by eapply requests_after. }
  split.
  - intros i o Hi. rewrite Hdel, Hobj. pose proof (ui_grown _ _ _ _ _ _ U i o Hi) as G. unfold nothing in G.
    by rewrite app_nil_r in G.
  - intros i o. rewrite Hreq. split; intros [Hi Hn]; (split; [done|]); (apply Hfin; [|done]); by apply (co_requests _ _ _ _ C) in Hi as [? _].
  - rewrite E5r. apply filter_ext_in. intros o Ho.
    symmetry. apply Hfin. by apply running_live.
  - intros i o [Hi Hn]%Hreq. rewrite Hobj. by apply (ui_status _ _ _ _ _ _ U).
  - intros i n o Hin Hi Hp. rewrite Hdel. destruct (ui_seen _ _ _ _ _ _ U i o) as [Hs|Hne]; try done.
    + change i with (i, n).1. by apply list_elem_of_fmap_2.
    + left. rewrite Hobj. by apply (ui_finished _ _ _ _ _ _ U).
    + by right.
Qed.

(** ** Admission *)

(** A request that may be added: new, and the scheduler can serve it. *)
Record admissible (s : Sched) (r : Request) : Prop := mkAdmissible {
  am_req : req_ok r;
  am_status : status r = WAITING \/ status r = WAITING_FOR_FSM;
  am_computed : num_computed_tokens r = 0;
  am_output : output_token_ids r = [];
  am_object : obj_id (args r) ∉ running s ++ ids (rq_iter (waiting s));
  am_id : requests s !! request_id (args r) = None
}.

(** What a logged event leaves alone. *)
Lemma log_ok (o : Z) e (ts : Z) (s : Sched) :
  wp (if scheduler_log_stats cfg then update_object o (record_event e ts) else py_ret tt)
    (fun _ s' => exists f, inert f /\ wrote s o (f (object s o)) s') s.
Proof.
  destruct (scheduler_log_stats cfg).
  - wp_step. exists (record_event e ts). split; [intros r; unfold grown; by rewrite !app_nil_r|apply wrote_write].
  - apply wp_ret. exists id. split; [intros r; unfold grown; by rewrite !app_nil_r|apply wrote_same].
Qed.

Record admitted (s : Sched) (r : Request) (s' : Sched) : Prop := mkAdmitted {
  ad_object : grown r (object s' (obj_id (args r))) [] /\ status (object s' (obj_id (args r))) = status r;
  ad_others : forall x, x <> obj_id (args r) -> object s' x = object s x;
  ad_requests : requests s' = <[request_id (args r) := obj_id (args r)]> (requests s);
  ad_queue : running s' = running s /\ rq_iter (waiting s') = rq_place (args r) (rq_iter (waiting s));
  ad_quiet : finished_req_ids s' = finished_req_ids s
}.

Lemma add_request_ok s r ts :
  sched_ok s -> admissible s r ->
  wp (scheduler_add_request cfg r ts) (fun _ s' => sched_ok s' /\ admitted s r s') s.
Proof.
  intros [C W Hp] [A1 A2 A3 _ A4 A5]. set (o := obj_id (args r)) in *.
  unfold scheduler_add_request. fold o. wp_step. wp_step. wp_step. apply wp_on_waiting.
  assert (o ∉ ids (rq_iter (waiting s))) as Hnw by (intros Ho; apply A4, elem_of_app; by right).
  destruct (law_add (waiting s) (args r)) as (q & Eq & Wq & Hq); [done| |].
  { unfold fresh_for. change (NoDup (o :: ids (rq_iter (waiting s)))). apply NoDup_cons. split; [done|]. by apply law_wf_nodup. }
  unfold wp at 1. change (waiting (set_objects _ s)) with (waiting s). rewrite Eq. wp_step. wp_step.
  set (s1 := set_requests _ _). eapply wp_mono; [apply log_ok|]. intros _ s' (f & Hf & (m & -> & Hobj)).
  set (s' := set_objects m s1) in *. pose proof (law_place (args r) (rq_iter (waiting s))) as HP. rewrite <- Hq in HP.
  assert (object s1 o = r) as Eo1 by (unfold object; simpl; by rewrite lookup_total_insert_eq).
  destruct (Hf r) as (G & Est & _).
  assert (object s' o = f r) as Eo by (by rewrite Hobj, decide_True, Eo1).
  assert (Hoth : forall x, x <> o -> object s' x = object s x).
  { intros x Hx. rewrite Hobj, decide_False by done. unfold object. simpl. by rewrite lookup_total_insert_ne. }
  assert (Hin : forall x, x ∈ running s ++ ids (rq_iter q) <-> x = o \/ x ∈ running s ++ ids (rq_iter (waiting s))).
  { intros x. rewrite !elem_of_app, (ids_perm _ _ HP). change (ids (args r :: ?l)) with (o :: ids l). rewrite elem_of_cons. tauto. }
  assert (Hlive : forall x, x ∈ running s ++ ids (rq_iter (waiting s)) -> object s' x = object s x) by (intros x Hx; apply Hoth; by intros ->).
  assert (Hrunne : forall x, x ∈ running s -> object s' x = object s x) by (intros; by apply Hlive, running_live).
  split.
  - split; [|done|].
    + destruct C as [C1 C2 C3 C4 C5 C6 C7 C8 C9 C10]. change (waiting s') with q. split; try done.
      * change (running s') with (running s). rewrite (ids_perm _ _ HP). change (ids (args r :: ?l)) with (o :: ids l).
        rewrite <- Permutation_middle. by constructor.
      * intros i x. change (requests s') with (<[request_id (args r) := o]> (requests s)). change (running s') with (running s).
        rewrite Hin. destruct (decide (x = o)) as [->|Hx].
        -- unfold rid. rewrite Eo, (proj1 G). rewrite lookup_insert_Some. split; [|naive_solver].
           intros [[? _]|[_ Hi]]; [by split; [left|]|]. apply C4 in Hi as [? _]. done.
        -- rewrite lookup_insert_Some. unfold rid. split.
           ++ intros [[_ ?]|[_ Hi]]; [congruence|]. apply C4 in Hi as [Hl E]. rewrite Hoth by done. split; [by right|done].
           ++ intros [[?|Hl] E]; [done|]. rewrite Hoth in E by done. right.
              assert (requests s !! i = Some x) as Hi by (by apply C4). split; [|done]. intros <-. congruence.
      * intros x Hx. rewrite Hrunne by done. by apply C5.
      * intros a Ha. rewrite HP in Ha. apply elem_of_cons in Ha as [->|Ha]; [fold o; by rewrite Eo, (proj1 G)|].
        rewrite Hlive; [by apply C6|]. apply elem_of_app. right. by apply list_elem_of_fmap_2.
      * intros x Hx. rewrite Hrunne by done. by apply C7.
      * intros x Hx. rewrite (ids_perm _ _ HP) in Hx. change (x ∈ o :: ids (rq_iter (waiting s))) in Hx.
        apply elem_of_cons in Hx as [->|Hx]; [|rewrite Hlive by (apply elem_of_app; by right); by apply C8].
        rewrite Eo. destruct G as (_ & Ec & _). split; rewrite ?Est, ?Ec; [tauto|by apply req_ok_inert|done].
      * intros i Hi. apply C9. intros x Hx E. apply (Hi x Hx). unfold rid. by rewrite Hrunne.
    + change (waiting s') with q. intros x Hx Hst. rewrite (ids_perm _ _ HP) in Hx. change (x ∈ o :: ids (rq_iter (waiting s))) in Hx.
      apply elem_of_cons in Hx as [->|Hx].
      * rewrite Eo, Est in Hst. destruct A2; congruence.
      * unfold rid. assert (x ∈ running s ++ ids (rq_iter (waiting s))) as Hl by (apply elem_of_app; by right).
        rewrite Hlive in * by done. by apply Hp.
  - split; try done. fold o. by rewrite Eo.
Qed.

(** ** Abortion *)

Lemma live_running (s : Sched) w o : core s w -> o ∈ running s ++ ids w -> status (object s o) = RUNNING <-> o ∈ running s.
Proof.
  intros C [Ho|Ho]%elem_of_app.
  - split; [done|]. intros _. apply (co_run _ _ _ _ C o Ho).
  - split; [|intros Hr; by destruct (running_not_waiting _ _ _ _ _ C Hr)]. intros E.
    by destruct (wo_status _ _ _ (co_wait _ _ _ _ C o Ho)) as [E2|[E2|E2]]; rewrite E in E2.
Qed.

(** The loop that releases the requests [v], already gone from the queues. *)
Lemma release_all_ok s v fin R w :
  status_is_finished fin = true -> core_at s R w -> NoDup v -> (forall o, o ∈ v -> o ∈ R ++ ids w) ->
  wp (py_for v (fun o => do! update_object o (set_status fin); do! free_request cfg o; py_ret tt))
    (fun _ s' => core_at s' (filter (fun o => o ∉ v) R) (filter (fun a => obj_id a ∉ v) w) /\
       running s' = running s /\ waiting s' = waiting s /\
       prev_step_scheduled_req_ids s' = prev_step_scheduled_req_ids s /\
       (forall i, i ∈ finished_req_ids s' <-> i ∈ finished_req_ids s \/ exists o, o ∈ v /\ rid s o = i) /\
       (forall o, object s' o = if decide (o ∈ v) then set_status fin (object s o) else object s o) /\
       (forall i, (forall o, o ∈ v -> rid s o <> i) -> kv_tables (kv s') i = kv_tables (kv s) i)) s.
Proof.
  intros Hfin. revert s R w. induction v as [|o v IH]; intros s R w C Hnd Hv; simpl.
  - apply wp_ret. rewrite !filter_all by (intros; apply not_elem_of_nil). split_and!; try done.
    intros i. split; [by left|]. intros [?|(o & Ho%not_elem_of_nil & _)]; done.
  - apply NoDup_cons in Hnd as [Hno Hnd]. wp_step. wp_step. wp_step.
    assert (o ∈ R ++ ids w) as Ho by (apply Hv; left). wp_step.
    eapply wp_mono; [apply (free_request_ok s R w o (set_status fin (object s o)) _ C Ho (wrote_write s o (set_status fin)));
      [done|exact Hfin]|]. intros x s1 (_ & [L1 L2 L3 L4 L5 L6 L7 L8] & C1). apply wp_ret.
    assert (Hobj : forall x, object s1 x = if decide (x = o) then set_status fin (object s o) else object s x).
    { intros y. rewrite <- (object_write s o (set_status fin)). unfold object. by rewrite L3. }
    assert (Hrid : forall x, rid s1 x = rid s x) by (intros y; unfold rid; rewrite Hobj; case_decide; by subst).
    eapply wp_mono; [apply (IH s1 _ _ C1); [done|]|].
    { intros y Hy. rewrite (filter_ids (fun x => x <> o)), <- filter_app. apply list_elem_of_filter.
      split; [by intros ->|]. apply Hv. by right. }
    intros _ s' (C2 & E1 & E2 & E3 & E4 & E5 & E6).
    rewrite (filter_filter_and _ _ (fun x => x ∉ o :: v)) in C2 by (intros y; rewrite not_elem_of_cons; tauto).
    rewrite (filter_filter_and _ _ (fun a => obj_id a ∉ o :: v)) in C2 by (intros a; rewrite not_elem_of_cons; tauto).
    split_and!; [done|by rewrite E1, L1|by rewrite E2, L2|by rewrite E3, L6|..].
    + intros i. rewrite E4, L5, elem_of_union, elem_of_singleton.
      assert (rid (write_object o (set_status fin) s) o = rid s o) as -> by (unfold rid; by rewrite object_write, decide_True).
      setoid_rewrite Hrid. setoid_rewrite elem_of_cons. split.
      * intros [[->|?]|(y & Hy & <-)]; [right; exists o; auto|by left|right; exists y; auto].
      * intros [?|(y & [->|Hy] & <-)]; [auto|auto|right; by exists y].
    + intros y. rewrite E5, Hobj. destruct (decide (y = o)) as [->|Hy].
      * rewrite decide_False by done. by rewrite decide_True by left.
      * destruct (decide (y ∈ v)); [by rewrite decide_True by (by right)|].
        rewrite decide_False; [done|]. by intros [?|?]%elem_of_cons.
    + intros i Hi. rewrite E6 by (intros y Hy; rewrite Hrid; apply Hi; by right). apply L8.
      assert (rid (write_object o (set_status fin) s) o = rid s o) as -> by (unfold rid; by rewrite object_write, decide_True).
      intros ->. by apply (Hi o); [left|].
Qed.

Record aborted (s : Sched) (request_ids : list string) (fin : RequestStatus) (s' : Sched) : Prop := mkAborted {
  ab_requests : forall i o, requests s' !! i = Some o <-> requests s !! i = Some o /\ i ∉ request_ids;
  ab_running : running s' = filter (fun o => rid s o ∉ request_ids) (running s);
  ab_waiting : rq_iter (waiting s') = filter (fun a => request_id a ∉ request_ids) (rq_iter (waiting s));
  ab_objects : forall i o, requests s !! i = Some o ->
                 object s' o = if decide (i ∈ request_ids) then set_status fin (object s o) else object s o;
  ab_finished : forall i, i ∈ finished_req_ids s' <-> i ∈ finished_req_ids s \/ i ∈ request_ids /\ is_Some (requests s !! i);
  ab_tables : forall i, i ∉ request_ids -> kv_tables (kv s') i = kv_tables (kv s) i
}.

Lemma finish_requests_ok s request_ids fin :
  sched_ok s -> status_is_finished fin = true ->
  wp (finish_requests cfg request_ids fin) (fun _ s' => sched_ok s' /\ aborted s request_ids fin s') s.
Proof.
  intros [C W Hp] Hfin. unfold finish_requests. wp_step. apply wp_assert; [done|]. wp_step. wp_step.
  set (f := fun req_id => match requests s !! req_id with Some o => if is_finished (object s o) then None else Some o | None => None end).
  set (v := omap f (remove_dups request_ids)). set (run := fun o => bool_decide (status (object s o) = RUNNING)).
  assert (Hf : forall i o, f i = Some o <-> requests s !! i = Some o).
  { intros i o. unfold f. split; [intros; by repeat case_match|]. intros Hi. rewrite Hi.
    apply (co_requests _ _ _ _ C) in Hi as [Hl _]. by rewrite (live_unfinished s _ o C Hl). }
  assert (Hv : forall o, o ∈ v <-> o ∈ running s ++ ids (rq_iter (waiting s)) /\ rid s o ∈ request_ids).
  { intros o. unfold v. rewrite list_elem_of_omap. setoid_rewrite Hf. setoid_rewrite elem_of_remove_dups.
    setoid_rewrite (co_requests _ _ _ _ C). naive_solver. }
  assert (NoDup v) as Hnd.
  { apply nodup_omap; [apply NoDup_remove_dups|]. intros x y o [_ <-]%Hf%(co_requests _ _ _ _ C) [_ <-]%Hf%(co_requests _ _ _ _ C). done. }
  pose proof (running_nodup _ _ _ _ C) as Hndr.
  assert (Hrunv : forall o, o ∈ List.filter run v <-> o ∈ v /\ o ∈ running s).
  { intros o. rewrite list_elem_of_In, filter_In, <- list_elem_of_In. unfold run. rewrite bool_decide_eq_true.
    split; intros [H1 H2]; (split; [done|]); apply Hv in H1 as [Hl _]; by apply (live_running s _ o C Hl). }
  wp_step. apply (wp_mono _ (fun _ s1 => s1 = set_running (filter (fun o => o ∉ v) (running s)) s)).
  { assert (filter (fun o => o ∉ v) (running s) = filter (fun o => o ∉ (list_to_set (List.filter run v) : gset Z)) (running s)) as ->.
    { apply filter_ext_in. intros o Ho. rewrite elem_of_list_to_set, Hrunv. tauto. }
    case_decide as Ee; [|wp_step; by rewrite remove_all_filter].
    apply wp_ret. rewrite Ee, filter_all by (intros; apply not_elem_of_empty). by destruct s. }
  intros _ ? ->. set (s1 := set_running _ s). wp_step.
  apply (wp_mono _ (fun _ s2 => exists q, s2 = set_waiting q s1 /\ rq_wf q /\ rq_iter q = filter (fun a => obj_id a ∉ v) (rq_iter (waiting s)))).
  { change (fun o => negb (bool_decide (status (object s o) = RUNNING))) with (fun o => negb (run o)).
    set (os := List.filter (fun o => negb (run o)) v).
    assert (Hos : forall o, o ∈ os <-> o ∈ v /\ o ∉ running s).
    { intros o. unfold os. rewrite list_elem_of_In, filter_In, <- list_elem_of_In, negb_true_iff. unfold run. rewrite bool_decide_eq_false.
      split; intros [H1 H2]; (split; [done|]); apply Hv in H1 as [Hl _]; by rewrite (live_running s _ o C Hl) in *. }
    assert (filter (fun a => obj_id a ∉ v) (rq_iter (waiting s)) = filter (fun a => obj_id a ∉ os) (rq_iter (waiting s))) as ->.
    { apply filter_ext_in. intros a Ha. rewrite Hos.
      assert (obj_id a ∉ running s); [|tauto]. intros Hr. apply (running_not_waiting _ _ _ _ _ C Hr). by apply list_elem_of_fmap_2. }
    clearbody os. destruct os as [|o os'] eqn:Eos.
    - apply wp_ret. exists (waiting s). rewrite filter_all by (intros; apply not_elem_of_nil). split_and!; try done.
    - rewrite <- Eos in *. eapply wp_mono; [apply (remove_waiting_ok s1 os W)|done].
      intros x [Hx _]%Hos. apply Hv in Hx as [Hx _]. by apply (core_obj_id _ _ _ _ _ C). }
  intros _ ? (q & -> & Wq & Hq). set (s2 := set_waiting q s1).
  assert (core_at s2 (running s) (rq_iter (waiting s))) as C2 by (apply core_at_running in C; unfold core_at in *; destruct C; by split).
  eapply wp_mono; [apply (release_all_ok s2 v fin (running s) (rq_iter (waiting s)) Hfin C2 Hnd); intros o Ho; by apply Hv|].
  intros _ s' (C3 & E1 & E2 & E3 & E4 & E5 & E6). change (object s2) with (object s) in E5.
  assert (Hrid : forall o, rid s' o = rid s o).
  { intros o. unfold rid. rewrite E5. by case_decide. }
  split.
  - split.
    + rewrite E2. change (waiting s2) with q. rewrite Hq. apply core_of_at. by rewrite E1.
    + by rewrite E2.
    + rewrite E2. change (waiting s2) with q. rewrite Hq, (filter_ids (fun o => o ∉ v)). intros o [Hn Ho]%list_elem_of_filter Hst.
      rewrite E3, Hrid. rewrite E5, decide_False in Hst by done. by apply Hp.
  - assert (Hmem : forall o, o ∈ running s ++ ids (rq_iter (waiting s)) -> o ∉ v <-> rid s o ∉ request_ids)
      by (intros o Ho; rewrite Hv; tauto).
    assert (Hwid : forall a, a ∈ rq_iter (waiting s) -> obj_id a ∈ running s ++ ids (rq_iter (waiting s)) /\ rid s (obj_id a) = request_id a).
    { intros a Ha. split; [apply elem_of_app; right; by apply list_elem_of_fmap_2|]. unfold rid. by rewrite (co_ref _ _ _ _ C a Ha). }
    split.
    + intros i o. rewrite (co_requests _ _ _ _ C3), (co_requests _ _ _ _ C). 
      change (rid (set_running _ s') o) with (rid s' o). rewrite Hrid, (filter_ids (fun o => o ∉ v)).
      change (running (set_running ?R _)) with R. rewrite <- filter_app, list_elem_of_filter. split.
      * intros [[Hn Hl] <-]. split; [done|]. by apply Hmem.
      * intros [[Hl <-] Hn]. split; [|done]. split; [|done]. by apply Hmem.
    + rewrite E1. change (running s2) with (filter (fun o => o ∉ v) (running s)). apply filter_ext_in.
      intros o Ho. by apply Hmem, running_live.
    + rewrite E2. change (waiting s2) with q. rewrite Hq. apply filter_ext_in. intros a Ha.
      destruct (Hwid a Ha) as [Hl <-]. by apply Hmem.
    + intros i o [Hl <-]%(co_requests _ _ _ _ C). rewrite E5. pose proof (Hv o). repeat case_decide; tauto.
    + intros i. rewrite E4. change (finished_req_ids s2) with (finished_req_ids s). change (rid s2) with (rid s). split.
      * intros [?|(o & [Hl Hi]%Hv & <-)]; [by left|right]. split; [done|]. exists o. by apply (co_requests _ _ _ _ C).
      * intros [?|[Hi [o Ho]]]; [by left|right]. apply (co_requests _ _ _ _ C) in Ho as [Hl <-]. exists o. split; [|done]. by apply Hv.
    + intros i Hi. rewrite E6; [done|]. intros o [_ Ho]%Hv. change (rid s2 o) with (rid s o). by intros <-.
Qed.

(** ** Reset *)

Lemma preempt_all_ok fuel (s : Sched) ts :
  core s (rq_iter (waiting s)) -> rq_wf (waiting s) -> (length (running s) <= fuel)%nat ->
  wp (preempt_all cfg fuel ts) (fun _ s' => core s' (rq_iter (waiting s')) /\ rq_wf (waiting s') /\
    running s' = [] /\ quiet s s') s.
Proof.
  revert s. induction fuel as [|fuel IH]; intros s C W Hf; simpl; wp_step; wp_step;
    (destruct (last (running s)) as [o|] eqn:El; [|apply last_None in El; by apply wp_ret]).
  { apply last_Some in El as [l El]. rewrite El, length_app in Hf. simpl in Hf. lia. }
  assert (o ∈ running s) as Ho by (apply last_Some in El as [l ->]; apply elem_of_app; right; left).
  wp_step. wp_step. rewrite (removelast_first o) by (done || by eapply running_nodup). wp_step.
  eapply wp_mono; [by apply (preempt_ok cfg size size_nonneg s (rq_iter (waiting s)) o ts)|].
  intros _ s1 (C1 & W1 & HP & Er & HQ & _). wp_step. wp_step.
  set (g := fun r => set_discard true (set_num_output_placeholders 0 r)).
  pose proof (wrote_write s1 o g) as HW. set (s2 := write_object o g s1) in *.
  assert (o ∈ ids (args (object s o) :: rq_iter (waiting s))) as Hin.
  { change (ids (?a :: ?l)) with (obj_id a :: ids l). rewrite (core_obj_id _ _ _ _ o C) by (by apply running_live). left. }
  assert (core s2 (rq_iter (waiting s2))) as C2.
  { apply (core_perm _ _ _ (args (object s o) :: rq_iter (waiting s))); [by symmetry|].
    apply core_of_at. apply (core_at_wrote s1 _ _ o (g (object s1 o)) s2 []); try done.
    - exact (core_at_running s1 _ C1).
    - apply elem_of_app. by right.
    - unfold grown. by rewrite !app_nil_r.
    - pose proof (wo_req _ _ _ (co_wait _ _ _ _ C1 o Hin)) as R.
      eapply req_ok_ext; [exact R|..]; try done. apply R. }
  eapply wp_mono; [apply (IH s2 C2 W1)|].
  - change (running s2) with (running s1). rewrite Er. pose proof (remove_first_length o _ Ho). lia.
  - intros _ s' (C3 & W3 & Er3 & HQ3). split_and!; try done. destruct HQ as [Q1 Q2 Q3 Q4 Q5 Q6]. destruct HQ3 as [R1 R2 R3 R4 R5 R6].
    assert (H2 : forall x, args (object s2 x) = args (object s1 x) /\ all_token_ids (object s2 x) = all_token_ids (object s1 x) /\
      output_token_ids (object s2 x) = output_token_ids (object s1 x)).
    { intros x. unfold s2. rewrite object_write. case_decide; by subst. }
    split; [by rewrite R1|by rewrite R2|by rewrite R3|intros x; destruct (H2 x) as (E1 & E2 & E3)..];
      [by rewrite R4, E1|by rewrite R5, E2|by rewrite R6, E3].
Qed.

(** Resetting the prefix cache never fails, and frees all of KV memory when running
    requests may be preempted. *)
Lemma reset_prefix_cache_ok (s : Sched) flag ts :
  sched_ok s ->
  wp (scheduler_reset_prefix_cache cfg flag ts) (fun res (s' : Sched) => sched_ok s' /\ requests s' = requests s /\
    (forall o, args (object s' o) = args (object s o) /\ all_token_ids (object s' o) = all_token_ids (object s o) /\
       output_token_ids (object s' o) = output_token_ids (object s o)) /\
    finished_req_ids s' = finished_req_ids s /\
    (flag = true -> res = true /\ running s' = [] /\ forall i, kv_none (kv s') i)) s.
Proof.
  intros HS. pose proof HS as [C W Hp]. unfold scheduler_reset_prefix_cache. wp_step.
  apply (wp_mono _ (fun _ (s1 : Sched) => sched_ok s1 /\ quiet (set_prev_step_scheduled_req_ids (prev_step_scheduled_req_ids s1) s) s1 /\ (flag = true -> running s1 = []))).
  { destruct flag; [|apply wp_ret; split_and!; try done; by destruct s]. wp_step. wp_step. wp_step.
    eapply wp_mono; [by apply preempt_all_ok|]. intros _ s1 (C1 & W1 & E1 & HQ). wp_step. split_and!; try done.
    - split; [by destruct C1|done|]. intros o _ _. apply not_elem_of_empty.
    - destruct HQ. by split. }
  intros _ s1 (HS1 & HQ & Hrun). wp_step. apply wp_on_kv. eapply wp_mono; [apply law_reset, HS1|].
  intros res k (Hk & Hall & Hn & Hc).
  assert (sched_ok (set_kv_cache_manager k s1)) as HS2 by by apply sched_ok_kv.
  assert (flag = true -> forall i, kv_none (kv s1) i) as Hnone.
  { intros Ef i. apply (co_idle _ _ _ _ (sk_core _ _ _ HS1)). intros o Ho. rewrite Hrun in Ho by done. by apply not_elem_of_nil in Ho. }
  assert (flag && negb res = false) as ->.
  { destruct flag; [|done]. rewrite Hall by auto. done. }
  destruct HQ as [Q1 Q2 Q3 Q4 Q5 Q6]. apply wp_ret. split_and!; try done; auto.
    intros o. split_and!; [apply Q4|apply Q5|apply Q6].
Qed.
End updates.
