(* ===== verification/SchedulerKV.v ===== *)
(** Paged KV memory as the scheduler sees it: the KV-cache manager of
    [KVCacheManager], for a model whose layers form one full-attention group, with or
    without prefix caching, satisfies [KVCacheLaws]. *)
From stdpp Require Import gmap strings list.
From Stdlib Require Import ZArith Lia.
From S2P Require Import Prelude Request BlockQueue BlockHash BlockPool SingleType Coordinator KVCacheManager KVCacheInv.
From S2P Require Import SchedulerData SchedulerInv.
Open Scope Z_scope.

Notation managers k := (single_type_managers (coordinator k)).
Notation pool k := (block_pool (coordinator k)).

(** The deployment: one group of full attention. *)
Record layout := mkLayout {
  ly_spec : KVCacheSpec;
  ly_caching : bool;
  ly_blocks : Z;      (** GPU blocks, the null block included *)
  ly_max_len : Z;
  ly_logs : bool
}.
Definition layout_ok (L : layout) : Prop :=
  is_full_attention (ly_spec L) = true /\ 0 < spec_block_size (ly_spec L).

(** The block hash, idealised: no collisions, and the seed is not a hash value. *)
Record hash_ok (hash_function : bytes * list Z * option (list extra_key) -> bytes) (NONE_HASH : bytes) : Prop := mkHashOk {
  hs_inj : forall x y, hash_function x = hash_function y -> x = y;
  hs_seed : forall x, hash_function x <> NONE_HASH;
  hs_some : forall x, hash_function x <> []
}.

(** The hashes of a request that are those of its full blocks: one for each, all distinct. *)
Lemma ref_hashes_current hash_function NONE_HASH bs r : hash_ok hash_function NONE_HASH -> 0 < bs ->
  block_hashes r = ref_hashes hash_function NONE_HASH bs r -> hashes_current bs r /\ NoDup (block_hashes r).
Proof.
  intros [H1 H2 H3] Hbs E. split.
  - unfold hashes_current. rewrite E. unfold ref_hashes. rewrite length_ref_chain. unfold ref_blocks, num_full_blocks.
    rewrite length_map, length_seq, Z2Nat.id; [done|]. apply Z.div_pos; [unfold num_tokens; lia|done].
  - rewrite E. apply NoDup_alt. intros i j h Hi Hj.
    by destruct (ref_hashes_sound hash_function NONE_HASH bs H1 H2 H3 r r i j h Hbs Hi Hj) as [-> _].
Qed.

Section instance.
Context (L : layout) (HL : layout_ok L).
Context (hash_function : bytes * list Z * option (list extra_key) -> bytes) (NONE_HASH : bytes).
Context (HH : hash_ok hash_function NONE_HASH).
Notation bs := (spec_block_size (ly_spec L)).

Lemma full_spec_facts :
  spec_manager_map (ly_spec L) = Some FullAttentionManager /\
  is_cross_attention (ly_spec L) = false /\
  (forall n, get_num_skipped_tokens (ly_spec L) n = 0) /\
  (forall n, with_speculative (ly_spec L) n = n) /\
  forall e, search_ok FullAttentionManager (ly_spec L) e bs.
Proof. destruct HL as [Hf _]. by destruct (ly_spec L). Qed.

Record memory_ok (k : KVCacheManager) : Prop := mkMemoryOk {
  mm_state : exists l, kv_state k l;
  mm_len : km_max_model_len k = ly_max_len L;
  mm_caching : km_enable_caching k = ly_caching L;
  mm_logs : log_stats k = ly_logs L;
  mm_manager : exists m, managers k = [m] /\ kv_cache_spec m = ly_spec L /\ mblock_size m = bs;
  mm_class : ly_caching L = true ->
    co_class (coordinator k) = UnitaryKVCacheCoordinator (ly_spec L) bs 1 1 /\ hash_block_size (pool k) = bs;
  mm_blocks : num_gpu_blocks (pool k) = ly_blocks L
}.

(** Prefix caching is for text here; the hashes are those of the full blocks. *)
Definition memory_request (r : Request) : Prop :=
  ly_caching L = true ->
  mm_features (args r) = [] /\ block_hashes r = ref_hashes hash_function NONE_HASH bs r.
(** The hasher the engine stores on a request. *)
Definition memory_hasher : option (Request -> list bytes) :=
  if ly_caching L then hasher_hook hash_function NONE_HASH bs else None.

Lemma memory_request_hashes r :
  memory_request r -> ly_caching L = true -> hashes_current bs r /\ NoDup (block_hashes r).
Proof.
  intros HR Hc. destruct (HR Hc) as [_ E]. destruct HL as [_ Hbs]. by apply (ref_hashes_current hash_function NONE_HASH).
Qed.

Lemma memory_request_append r t :
  memory_request r -> memory_request (append_output_token_ids memory_hasher [t] r).
Proof.
  intros HR Hc. unfold memory_hasher. rewrite Hc. destruct (HR Hc) as [E1 E2]. split; [done|].
  apply append_keeps_ref_hashes; [apply HL|done|done].
Qed.
Definition memory_none (k : KVCacheManager) (rid : string) : Prop :=
  forall m, m ∈ managers k -> num_cached_block m !! rid = None /\ tab m rid = [].
Definition memory_covers (k : KVCacheManager) (rid : string) (n : Z) : Prop :=
  forall m, m ∈ managers k -> n <= Z.of_nat (length (tab m rid)) * bs.
Definition memory_hit (k : KVCacheManager) (_ : Request) (b : KVCacheBlocks) (n : Z) : Prop :=
  match b with
  | EmptyBlocks => n = 0
  | MkBlocks rows => ly_caching L = true /\
      exists row, rows = [row] /\ hits_ok (pool k) rows /\ n = Z.of_nat (length row) * bs
  end.
Definition memory_fits : Prop := cdiv (ly_max_len L) bs <= ly_blocks L - 1.

(** *** Effects of an operation *)

Lemma memory_effect k l' rid k' :
  memory_ok k -> kv_state k' l' -> kv_effect rid k k' ->
  memory_ok k' /\
  (forall r, r <> rid -> memory_none k r -> memory_none k' r) /\
  (forall r n, r <> rid -> memory_covers k r n -> memory_covers k' r n).
Proof.
  intros [_ M2 M3 M4 (m & Em & Es & Eb) M6 M7] HK' [E1 E2 (C1 & C2 & C3 & C4 & C5) E4].
  assert (exists m', managers k' = [m'] /\ only_request rid m m') as (m' & Em' & [[S1 S2 _ _] S3 S4]).
  { rewrite Em in E1. destruct (managers k') as [|m' [|]] eqn:Em'; try done. exists m'. split; [done|].
    apply (E4 0%nat m m'); by rewrite ?Em, ?Em'. }
  split_and!.
  - split; [by eexists|congruence..| | |].
    + exists m'. by rewrite S1, S2.
    + intros Hc. rewrite C4, (sp_hbs _ _ E2). by apply M6.
    + by rewrite (sp_num _ _ E2).
  - intros r Hr Hn x. rewrite Em'. intros ->%list_elem_of_singleton.
    rewrite S4, S3 by done. apply Hn. rewrite Em. left.
  - intros r n Hr Hn x. rewrite Em'. intros ->%list_elem_of_singleton. rewrite S3 by done. apply Hn. rewrite Em. left.
Qed.

(** Operations that at most create empty tables. *)
Lemma memory_read r k l m m' k' :
  memory_ok k -> kv_state k' l -> managers k = [m] -> managers k' = [m'] -> read_only r m m' ->
  same_pool (pool k) (pool k') -> same_config k k' ->
  memory_ok k' /\ (forall r, memory_none k r -> memory_none k' r) /\
  (forall r n, memory_covers k r n -> memory_covers k' r n).
Proof.
  intros [_ M2 M3 M4 (x & Em & Es & Eb) M6 M7] HK' Em1 Em' ([[S1 S2 _ _] _ _] & Hnc & Htab) E2 (C1 & C2 & C3 & C4 & C5).
  rewrite Em1 in Em. injection Em as <-. unfold memory_none, memory_covers. rewrite Em1, Em'.
  split_and!.
  - split; [by eexists|congruence..| | |].
    + exists m'. by rewrite S1, S2.
    + intros Hc. rewrite C4, (sp_hbs _ _ E2). by apply M6.
    + by rewrite (sp_num _ _ E2).
  - intros q Hq x ->%list_elem_of_singleton. rewrite Hnc, Htab. apply Hq. left.
  - intros q n Hq x ->%list_elem_of_singleton. rewrite Htab. apply Hq. left.
Qed.

Lemma memory_same k k' :
  memory_ok k -> (exists l, kv_state k' l) -> managers k' = managers k -> same_pool (pool k) (pool k') -> same_config k k' ->
  memory_ok k' /\ (forall r, memory_none k r -> memory_none k' r) /\
  (forall r n, memory_covers k r n -> memory_covers k' r n).
Proof.
  intros HM [l HK] Em. destruct (mm_manager _ HM) as (m & Em0 & _). intros S C.
  apply (memory_read "" k l m m); [done|done|done|congruence|apply read_only_refl|done|done].
Qed.

Lemma set_stats_state k l st : kv_state k l -> (log_stats k = true -> is_Some st) -> kv_state (set_stats st k) l.
Proof. intros [? ? ? ? ?] Hs. by split. Qed.
Lemma set_coordinator_id k : set_coordinator (coordinator k) k = k.
Proof. by destruct k. Qed.

(** *** Allocation *)

(** Everything that is not free is in the table of [rid], when nobody else has blocks. *)
Lemma alone_free k l m rid :
  kv_state k l -> managers k = [m] -> (forall r, r <> rid -> tab m r = []) ->
  num_gpu_blocks (pool k) - 1 <= Z.of_nat (length l) + Z.of_nat (length (tab m rid)).
Proof.
  intros [K _ _ _ _] Em Halone. pose proof (kv_pool _ _ _ _ K) as Hp. pose proof (inv_size _ _ Hp) as Hs.
  enough (length (seqZ 1 (num_gpu_blocks (pool k) - 1)) <= length (l ++ tab m rid))%nat as Hle.
  { rewrite length_seqZ, length_app in Hle. lia. }
  apply submseteq_length, NoDup_submseteq; [apply NoDup_seqZ|]. intros b Hb%elem_of_seqZ. apply elem_of_app.
  destruct (decide (b ∈ tab m rid)) as [|Hn]; [by right|left].
  apply (inv_free _ _ Hp). split; [lia|]. rewrite (kv_refs _ _ _ _ K) by lia. rewrite Em. simpl.
  assert (refs m b = 0) as ->; [|lia].
  destruct (decide (refs m b = 0)) as [|Hne]; [done|]. pose proof (table_refs_nonneg (req_to_blocks m) b).
  destruct (table_refs_pos (req_to_blocks m) b) as [r Hr]; [unfold refs in *; lia|]. fold (tab m r) in Hr.
  destruct (decide (r = rid)) as [->|Hd]; [done|]. rewrite Halone in Hr by done. by apply not_elem_of_nil in Hr.
Qed.

Lemma num_evictable_le p row : num_evictable p row <= Z.of_nat (length row).
Proof. unfold num_evictable. pose proof (List.filter_length_le (evictable p) row). lia. Qed.

Lemma allocate_memory k r n h ncb :
  memory_ok k -> memory_request r -> 0 < n -> 0 <= num_computed_tokens r -> 0 <= h ->
  num_computed_tokens r + h + n <= ly_max_len L ->
  match ncb with
  | None => h = 0
  | Some b => memory_none k (request_id (args r)) /\ memory_hit k r b h
  end ->
  wp (allocate_slots r n h ncb 0 false 0) (fun res k' => memory_ok k' /\
    (forall rid, rid <> request_id (args r) -> memory_none k rid -> memory_none k' rid) /\
    (forall rid n, rid <> request_id (args r) -> memory_covers k rid n -> memory_covers k' rid n) /\
    match res with
    | Some _ => memory_covers k' (request_id (args r)) (num_computed_tokens r + h + n)
    | None => (memory_none k (request_id (args r)) -> memory_none k' (request_id (args r))) /\
              (forall n, memory_covers k (request_id (args r)) n -> memory_covers k' (request_id (args r)) n) /\
              ~ (memory_fits /\ forall rid, rid <> request_id (args r) -> memory_none k rid)
    end) k.
Proof.
  intros HM HR Hn Hc Hh Hlen Hncb. destruct full_spec_facts as (_ & Fx & Fs & Fw & _). destruct HL as [_ Hbs].
  pose proof HM as [[l HK] M2 M3 _ (m & Em & Es & Eb) M6 M7].
  assert (slots_request k r n h ncb 0 0) as HSR.
  { split.
    - lia.
    - intros i x Hx. rewrite Em in Hx. apply list_lookup_singleton_Some in Hx as [_ <-]. rewrite Es, Fs. simpl. lia.
    - rewrite M3. intros Hca. destruct (M6 Hca) as [_ ->]. by apply memory_request_hashes.
    - destruct ncb as [[|rows]|]; [done| |done]. destruct Hncb as [Hno (Hca & row & -> & Hho & _)].
      rewrite M3, Em. split_and!; try done. intros i x Hx. apply list_lookup_singleton_Some in Hx as [_ <-].
      apply Hno. rewrite Em. left.
    - left. by rewrite Em. }
  eapply wp_mono; [apply (allocate_slots_kv k l r n h ncb 0 false 0 HK HSR)|].
  intros res k' (l' & HK' & HE & Hres). destruct (memory_effect _ _ _ _ HM HK' HE) as (HM' & Hnn & Hcc).
  split_and!; [done|done|done|]. pose proof HM' as [_ _ _ _ (m' & Em' & Es' & Eb') _ M7'].
  assert (need_slot k r n h 0 = num_computed_tokens r + h + n) as En by (unfold need_slot; rewrite M2; lia).
  rewrite En in Hres. destruct res as [b|].
  - intros x. rewrite Em'. intros ->%list_elem_of_singleton. specialize (Hres 0%nat m' ltac:(by rewrite Em')).
    unfold required, need_of in Hres. rewrite Es', Fx, Fw, Eb' in Hres.
    pose proof (cdiv_spec (num_computed_tokens r + h + n) bs Hbs). nia.
  - destruct Hres as [Hfree Hsame]. specialize (Hsame 0%nat m m' ltac:(by rewrite Em) ltac:(by rewrite Em')) as [Hl Hnc].
    split_and!.
    + intros Hno x. rewrite Em'. intros ->%list_elem_of_singleton. destruct (Hno m) as [N1 N2]; [rewrite Em; left|].
      rewrite Hnc. split; [done|]. apply nil_length_inv. by rewrite Hl, N2.
    + intros q Hq x. rewrite Em'. intros ->%list_elem_of_singleton. rewrite Hl. apply Hq. rewrite Em. left.
    + intros [Hfits Halone]. rewrite Em' in Hfree. unfold sum_managers, contribution, shortage, need_of, row_of in Hfree.
      simpl in Hfree. rewrite Es', Fx, Fw, Eb', Z.add_0_r in Hfree.
      pose proof (alone_free k' l' m' (request_id (args r)) HK' Em') as Hal. rewrite M7' in Hal.
      unfold get_num_free_blocks in Hfree. rewrite (rep_num _ _ (inv_rep _ _ (kv_pool _ _ _ _ (ks_inv _ _ HK')))) in Hfree.
      match type of Hfree with context [num_evictable _ ?row] => pose proof (num_evictable_le (pool k') row) end.
      assert (cdiv (num_computed_tokens r + h + n) bs <= cdiv (ly_max_len L) bs) as Hmono.
      { pose proof (cdiv_spec (num_computed_tokens r + h + n) bs Hbs). pose proof (cdiv_spec (ly_max_len L) bs Hbs). nia. }
      unfold memory_fits in Hfits. specialize (Hal ltac:(intros x Hx; apply (Hnn x Hx (Halone x Hx)); rewrite Em'; left)). lia.
Qed.

(** *** The other calls *)

Lemma get_computed_memory k r :
  memory_ok k -> memory_request r -> 1 <= num_tokens r ->
  wp (get_computed_blocks r) (fun '(b, n) k' => memory_ok k' /\
    (forall rid, memory_none k rid -> memory_none k' rid) /\
    (forall rid n, memory_covers k rid n -> memory_covers k' rid n) /\
    0 <= n < num_tokens r /\ memory_hit k' r b n) k.
Proof.
  intros HM HR Hn. pose proof HM as [[l HK] _ M3 _ _ M6 _]. destruct full_spec_facts as (Fm & _ & _ & _ & Fo).
  destruct (ly_caching L) eqn:Ec.
  - destruct (memory_request_hashes r HR Ec) as [H1 H2]. destruct (M6 eq_refl) as [Hcls _].
    eapply wp_mono; [by apply (lookup_kv k l r (ly_spec L) FullAttentionManager bs); try done; apply HL|].
    intros [b n] k' (st & -> & Hst & Hrange & _ & Hb).
    destruct (memory_same k (set_stats st k) HM) as (HM' & Hno & Hco); try done.
    { exists l. by apply set_stats_state. }
    split_and!; try done; try lia. destruct b; [done|]. split; [done|]. exact Hb.
  - unfold get_computed_blocks. wp_step. wp_step. rewrite M3. simpl. apply wp_ret. split_and!; try done; lia.
Qed.

Lemma free_memory k r :
  memory_ok k ->
  wp (kv_free r) (fun _ k' => memory_ok k' /\ memory_none k' (request_id (args r)) /\
    (forall rid, rid <> request_id (args r) -> memory_none k rid -> memory_none k' rid) /\
    (forall rid n, rid <> request_id (args r) -> memory_covers k rid n -> memory_covers k' rid n) /\
    (forall rid, rid <> request_id (args r) ->
       map (fun m => tab m rid) (managers k') = map (fun m => tab m rid) (managers k))) k.
Proof.
  intros HM. destruct (mm_state _ HM) as [l HK]. eapply wp_mono; [by apply (kv_free_kv k l)|].
  intros _ k' (l' & HK' & HE & Hgone). destruct (memory_effect _ _ _ _ HM HK' HE) as (HM' & Hnn & Hcc).
  split_and!; try done.
  - intros m [i Hm]%list_elem_of_lookup_1. destruct (Hgone i m Hm) as [Ht Hc]. split; [done|]. unfold tab. by rewrite Ht.
  - intros rid Hr. apply list_eq. intros i. change (map ?f ?l) with (f <$> l). rewrite !list_lookup_fmap.
    destruct (managers k' !! i) as [m'|] eqn:Em'.
    + destruct (lookup_lt_is_Some_2 (managers k) i) as [m Em]; [rewrite <- (ke_len _ _ _ HE); by eapply lookup_lt_Some|].
      rewrite Em. simpl. f_equal. by apply (or_tab _ _ _ (ke_only _ _ _ HE i m m' Em Em')).
    + rewrite lookup_ge_None_2; [done|]. rewrite <- (ke_len _ _ _ HE). by apply lookup_ge_None_1.
Qed.

Lemma common_prefix_memory k rid :
  memory_ok k ->
  wp (kv_get_num_common_prefix_blocks rid) (fun _ k' => memory_ok k' /\
    (forall r, memory_none k r -> memory_none k' r) /\
    (forall r n, memory_covers k r n -> memory_covers k' r n)) k.
Proof.
  intros HM. pose proof HM as [[l HK] _ _ _ (m & Em & Es & _) _ _].
  unfold kv_get_num_common_prefix_blocks. apply wp_on_coordinator. unfold co_get_num_common_prefix_blocks.
  wp_step. wp_step. wp_step. unfold manager_indices. wp_step. rewrite Em. cbn [length seq].
  assert (memory_ok (set_coordinator (coordinator k) k) /\
    (forall r, memory_none k r -> memory_none (set_coordinator (coordinator k) k) r) /\
    (forall r n, memory_covers k r n -> memory_covers (set_coordinator (coordinator k) k) r n)) as Hsame
    by by rewrite set_coordinator_id.
  enough (wp (py_map (fun i => with_manager i (get_num_common_prefix_blocks rid)) [0%nat])
    (fun _ c => memory_ok (set_coordinator c k) /\
      (forall r, memory_none k r -> memory_none (set_coordinator c k) r) /\
      (forall r n, memory_covers k r n -> memory_covers (set_coordinator c k) r n)) (coordinator k)) as Hw.
  { destruct (co_class (coordinator k)); [by apply wp_ret|exact Hw|exact Hw]. }
  simpl. wp_step. assert (coordinator k = co_with (coordinator k) [m] (pool k)) as Eco by (by rewrite <- Em, co_with_id).
  match goal with |- wp _ ?P _ => set (post := P) end. rewrite Eco. subst post.
  eapply wp_with_manager; [done|].
  unfold get_num_common_prefix_blocks. wp_step. wp_step. simpl. rewrite Es, (proj1 HL). wp_step. apply wp_table.
  wp_step. wp_step. wp_step. wp_step. wp_step.
  destruct (ensure_spec rid m) as (Ht & _ & Hnc & Hs).
  eapply (memory_read rid k l m (ensure rid m)); try done.
  - simpl. apply (kv_state_change k l); try done.
    + pose proof (kv_inv_ensure [m] (pool k) l (fun _ => 0) 0%nat m rid) as Hk. simpl in Hk. apply Hk; [|done].
      rewrite <- Em. apply HK.
    + by rewrite Em.
    + intros j m0 x H0 Hx. rewrite Em in H0. apply list_lookup_singleton_Some in H0 as [-> <-]. simpl in Hx. by injection Hx as <-.
  - split_and!; [split; [done|by intros|by rewrite Hnc]|done|done].
Qed.

Lemma events_memory k :
  memory_ok k -> exists es k', kv_take_events k = Ret es k' /\ k' = k.
Proof.
  intros HM. destruct (mm_state _ HM) as [l HK]. unfold kv_take_events, on_km_pool, on_co_pool, on_coordinator, py_zoom, pool_take_events, py_bind, py_gets.
  rewrite (kv_events _ _ _ _ (ks_inv _ _ HK)). simpl. do 2 eexists. split; [done|]. by destruct k as [? ? ? ? []].
Qed.

Lemma stats_memory k :
  memory_ok k ->
  wp make_prefix_cache_stats (fun st k' => (ly_logs L = true -> is_Some st) /\ memory_ok k' /\
    (forall r, memory_none k r -> memory_none k' r) /\
    (forall r n, memory_covers k r n -> memory_covers k' r n)) k.
Proof.
  intros HM. pose proof HM as [[l HK] _ _ Hl _ _ _]. unfold make_prefix_cache_stats. wp_step. wp_step.
  destruct (log_stats k) eqn:E; simpl.
  - wp_step. wp_step. apply wp_ret. split; [intros _; by apply HK|]. apply memory_same; try done. exists l. by apply set_stats_state.
  - apply wp_ret. split; [congruence|]. done.
Qed.

Lemma reset_memory k :
  memory_ok k ->
  wp kv_reset_prefix_cache (fun ok k' => memory_ok k' /\ ((forall rid, memory_none k rid) -> ok = true) /\
    (forall r, memory_none k r -> memory_none k' r) /\
    (forall r n, memory_covers k r n -> memory_covers k' r n)) k.
Proof.
  intros HM. pose proof HM as [[l HK] _ _ _ (m & Em & _) _ _]. eapply wp_mono; [by apply (kv_reset_kv k l)|].
  intros ok k' (HK' & Em' & Hp & Hc & Hok). destruct (memory_same k k' HM HK' Em' Hp Hc) as (? & ? & ?).
  split_and!; try done. intros Hnone. apply Hok. intros b Hb.
  rewrite (kv_refs _ _ _ _ (ks_inv _ _ HK)) by lia. rewrite Em. simpl.
  destruct (decide (refs m b = 0)) as [->|Hne]; [done|]. pose proof (table_refs_nonneg (req_to_blocks m) b).
  destruct (table_refs_pos (req_to_blocks m) b) as [r Hr]; [unfold refs in *; lia|]. fold (tab m r) in Hr.
  destruct (Hnone r m) as [_ Ht]; [rewrite Em; left|]. rewrite Ht in Hr. by apply not_elem_of_nil in Hr.
Qed.
End instance.

(** ** The instance *)

Program Definition kv_manager_laws (L : layout) (HL : layout_ok L)
    (hash_function : bytes * list Z * option (list extra_key) -> bytes) (NONE_HASH : bytes)
    (HH : hash_ok hash_function NONE_HASH) : KVCacheLaws KVCacheManager (ly_max_len L) (ly_logs L) := {|
  kv_ok := memory_ok L;
  kv_request := memory_request L hash_function NONE_HASH;
  kv_none := memory_none;
  kv_covers := memory_covers L;
  kv_hit := memory_hit L;
  kv_tables k i := map (fun m => tab m i) (managers k);
  kv_fits := memory_fits L
|}.
Next Obligation.
  intros L HL hash_function NONE_HASH HH r r' HR Ea Et Eh Hc. destruct (HR Hc) as [H1 H2]. rewrite Ea, Eh.
  split; [done|]. rewrite H2. unfold ref_hashes, ref_blocks, num_full_blocks, num_tokens. rewrite Et. f_equal.
  apply map_ext. intros i. unfold ref_block. rewrite Et. f_equal.
  unfold generate_block_hash_extra_keys, gen_mm_extra_hash_keys, gen_lora_extra_hash_keys, gen_prompt_embeds_extra_hash_keys.
  by rewrite Ea.
Qed.
Next Obligation. intros L HL hash_function NONE_HASH HH k rid n m Hn Hm x Hx. specialize (Hn x Hx). simpl in Hn. lia. Qed.
Next Obligation.
  intros L HL hash_function NONE_HASH HH k rid HM Hn m Hm. destruct (Hn m Hm) as [_ ->]. simpl. lia.
Qed.
Next Obligation. intros L HL hash_function NONE_HASH HH k r HM HR Hn. by apply (get_computed_memory L HL hash_function NONE_HASH HH). Qed.
Next Obligation.
  intros L HL hash_function NONE_HASH HH k r n HM HR Hn Hc Hlen Hmax Hcov.
  eapply wp_mono; [apply (allocate_memory L HL hash_function NONE_HASH HH k r n 0 None); try done; lia|].
  intros [b|] k' (? & ? & ? & Hres); (split_and!; try done); rewrite ?Z.add_0_r in Hres; [done|..].
  - apply Hres, Hcov.
  - apply Hres.
  - apply Hres.
Qed.
Next Obligation.
  intros L HL hash_function NONE_HASH HH k r n b h HM HR Hn Hh Hc Hlen Hmax Hnone Hhit.
  eapply wp_mono; [apply (allocate_memory L HL hash_function NONE_HASH HH k r n h (Some b)); try done; lia|].
  intros [b'|] k' (? & ? & ? & Hres); (split_and!; try done).
  - by rewrite Hc in Hres.
  - by apply Hres.
  - apply Hres.
Qed.
Next Obligation. intros L HL hash_function NONE_HASH HH k r HM. by apply free_memory. Qed.
Next Obligation.
  intros L HL hash_function NONE_HASH HH k rid HM. simpl. unfold kv_get_blocks, on_coordinator, py_zoom, co_get_blocks, py_bind, py_gets, py_ret.
  eexists. by rewrite set_coordinator_id.
Qed.
Next Obligation. intros L HL hash_function NONE_HASH HH k rid HM. by apply common_prefix_memory. Qed.
Next Obligation.
  intros L HL hash_function NONE_HASH HH k HM. destruct (events_memory L k HM) as (es & k' & E & ->). simpl. unfold wp. by rewrite E.
Qed.
Next Obligation. intros L HL hash_function NONE_HASH HH k HM. by apply stats_memory. Qed.
Next Obligation. intros L HL hash_function NONE_HASH HH k HM. by apply reset_memory. Qed.
