(* ===== verification/SchedulerSystem.v ===== *)
(** Runs of the scheduler: any sequence of its operations, with passes whose results
    are still being computed, keeps the invariant; no operation raises, and the
    tokens sent to a client are those of its request. *)
From stdpp Require Import gmap strings list.
From Stdlib Require Import ZArith Lia.
From S2P Require Import Prelude Request RequestQueue EncoderCache BlockPool KVCacheManager SchedulerData Scheduler.
From S2P Require Import SchedulerInv SchedulerRun SchedulerUpdate.
Open Scope Z_scope.

Section system.
Context {Q : Type} {rq_ops : RequestQueue Q} {rq_laws : RequestQueueLaws Q}.
Context {X : Type} {co_ops : Collaborators X} {co_laws : CollaboratorsLaws X}.
Context (cfg : SchedulerConfig) (plain : plain_config cfg).
Context {K : Type} {kv_ops : KVCache K}.
Context {logs : bool} {kv_laws : KVCacheLaws K (max_model_len cfg) logs}.
Context (size : string -> Z) (size_nonneg : forall h, 0 <= size h).
Context (logs_on : scheduler_log_stats cfg = true -> logs = true).
Context (block_hasher : option (Request -> list (list Z))).
Context (hasher_ok : forall r t, kv_request r -> kv_request (append_output_token_ids block_hasher [t] r)).

Notation Sched := (Scheduler Q K X).
Notation kv s := (kv_cache_manager s).
Notation sched_ok := (sched_ok cfg size).

(** The scheduler, the passes whose results are outstanding (oldest first), and what
    was sent under each request id. *)
Record System := mkSystem {
  sy_sched : Sched;
  sy_inflight : list SchedulerOutput;
  sy_sent : string -> list Z
}.

(** The operations of the engine. *)
Inductive sys_step : System -> System -> Prop :=
| step_schedule s fl sent ts out s' :
    schedule cfg ts s = Ret out s' ->
    sys_step (mkSystem s fl sent) (mkSystem s' (fl ++ [out]) sent)
| step_update s out fl sent runner res s' :
    runner_ok s out runner -> update_from_output cfg block_hasher out runner s = Ret res s' ->
    sys_step (mkSystem s (out :: fl) sent) (mkSystem s' fl (fun i => sent i ++ delivered i res.1))
| step_add s fl sent r ts s' :
    admissible cfg size s r -> sent (request_id (args r)) = [] ->
    scheduler_add_request cfg r ts s = Ret tt s' ->
    sys_step (mkSystem s fl sent) (mkSystem s' fl sent)
| step_finish s fl sent ids fin s' :
    status_is_finished fin = true -> finish_requests cfg ids fin s = Ret tt s' ->
    sys_step (mkSystem s fl sent) (mkSystem s' fl sent)
| step_reset s fl sent flag ts res s' :
    scheduler_reset_prefix_cache cfg flag ts s = Ret res s' ->
    sys_step (mkSystem s fl sent) (mkSystem s' fl sent).

(** An empty scheduler over KV memory [k]. *)
Definition initial (s : Sched) : Prop :=
  kv_ok (kv s) /\ (forall i, kv_none (kv s) i) /\ cache_inv size (encoder_cache_manager s) /\
  requests s = ∅ /\ waiting s = rq_new /\ running s = [].

(** The runs from a state that satisfies [start]. *)
Inductive sys_reachable (start : Sched -> Prop) : System -> Prop :=
| reach_init s : start s -> sys_reachable start (mkSystem s [] (fun _ => []))
| reach_step y y' : sys_reachable start y -> sys_step y y' -> sys_reachable start y'.

(** A pass that the update can consume. *)
Definition inflight_ok (out : SchedulerOutput) : Prop :=
  so_scheduled_spec_decode_tokens out = ∅ /\ NoDup (so_num_scheduled_tokens out).*1 /\
  (forall i n, (i, n) ∈ so_num_scheduled_tokens out -> 0 < n) /\
  so_total_num_scheduled_tokens out = total (so_num_scheduled_tokens out) /\
  total (so_num_scheduled_tokens out) <= max_num_scheduled_tokens cfg.

Record sys_ok (y : System) : Prop := mkSysOk {
  so_sched : sched_ok (sy_sched y);
  so_inflight : Forall inflight_ok (sy_inflight y);
  so_sent : forall i o, requests (sy_sched y) !! i = Some o ->
              sy_sent y i = output_token_ids (object (sy_sched y) o)
}.

Lemma initial_ok s : initial s -> sched_ok s.
Proof.
  intros (H1 & H2 & H3 & H4 & H5 & H6). destruct (law_new (Q := Q)) as [W E]. split; rewrite ?H5, ?E; try done.
  - split; rewrite ?H6; simpl; try done.
    + constructor.
    + intros i o. rewrite H4, lookup_empty. split; [done|]. by intros [?%not_elem_of_nil _].
    + intros o Ho. by apply not_elem_of_nil in Ho.
    + intros a Ha. by apply not_elem_of_nil in Ha.
    + intros o Ho. by apply not_elem_of_nil in Ho.
    + intros o Ho. by apply not_elem_of_nil in Ho.
    + apply plain.
  - intros o Ho. by apply not_elem_of_nil in Ho.
Qed.

Lemma pass_inflight (s : Sched) out s' : pass_result cfg s out s' -> inflight_ok out.
Proof.
  intros [_ _ [T1 T2] [E1 E2] Es _ _ _]. split_and!; try done. intros i n Hin. by destruct (E2 i n Hin) as (_ & _ & _ & ? & _).
Qed.


(** Every operation returns, and keeps the invariant. *)
Lemma schedule_sys y ts :
  sys_ok y -> wp (schedule cfg ts) (fun out s' => sys_ok (mkSystem s' (sy_inflight y ++ [out]) (sy_sent y)) /\
    pass_result cfg (sy_sched y) out s') (sy_sched y).
Proof.
  intros [HS HF Hsent]. eapply wp_mono; [by apply (schedule_ok cfg plain size size_nonneg)|].
  intros out s' (HS' & HR & _). split; [|done]. split; simpl; [done| |].
  - apply Forall_app. split; [done|]. constructor; [by eapply pass_inflight|constructor].
  - intros i o. rewrite (pr_requests _ _ _ _ HR). intros Ho. destruct (pr_args _ _ _ _ HR o) as (_ & _ & ->). by apply Hsent.
Qed.

Lemma update_sys s out fl sent runner :
  sys_ok (mkSystem s (out :: fl) sent) -> runner_ok s out runner ->
  wp (update_from_output cfg block_hasher out runner) (fun res s' =>
    sys_ok (mkSystem s' fl (fun i => sent i ++ delivered i res.1)) /\ update_result s out runner res.1 s' /\
    forall i o, requests s !! i = Some o -> sent i ++ delivered i res.1 = output_token_ids (object s' o)) s.
Proof.
  intros [HS HF Hsent] HR. simpl in *. apply Forall_cons in HF as [(F1 & F2 & F3 & _) HF].
  eapply wp_mono; [by eapply update_from_output_ok|].
  intros res s' [HS' HU].
  assert (forall i o, requests s !! i = Some o -> sent i ++ delivered i res.1 = output_token_ids (object s' o)) as Hnew.
  { intros i o Ho. destruct (ur_grown _ _ _ _ _ HU i o Ho) as (_ & _ & _ & ->). by rewrite (Hsent i o Ho). }
  split_and!; try done. split; simpl; try done. intros i o [Ho _]%(ur_requests _ _ _ _ _ HU). by apply Hnew.
Qed.

Lemma add_sys s fl sent r ts :
  sys_ok (mkSystem s fl sent) -> admissible cfg size s r -> sent (request_id (args r)) = [] ->
  wp (scheduler_add_request cfg r ts) (fun _ s' => sys_ok (mkSystem s' fl sent) /\
    requests s' = <[request_id (args r) := obj_id (args r)]> (requests s)) s.
Proof.
  intros [HS HF Hsent] HA Hnew. simpl in *.
  eapply wp_mono; [by eapply add_request_ok|].
  intros _ s' [HS' [[A1 _] A2 A3 A4 A5]]. split; [|done]. split; simpl; try done. rewrite A3.
  intros i o [[<- <-]|[Hi Ho]]%lookup_insert_Some.
  - rewrite Hnew. destruct A1 as (_ & _ & _ & ->). by rewrite (am_output _ _ _ _ HA).
  - rewrite (Hsent i o Ho), A2; [done|]. intros ->. apply (am_object _ _ _ _ HA).
    by apply (co_requests _ _ _ _ (sk_core _ _ _ HS)) in Ho as [? _].
Qed.

Lemma finish_sys s fl sent ids fin :
  sys_ok (mkSystem s fl sent) -> status_is_finished fin = true ->
  wp (finish_requests cfg ids fin) (fun _ s' => sys_ok (mkSystem s' fl sent) /\ aborted cfg s ids fin s') s.
Proof.
  intros [HS HF Hsent] Hfin. simpl in *.
  eapply wp_mono; [by eapply finish_requests_ok|].
  intros _ s' [HS' HA]. split; [|done]. split; simpl; try done.
  intros i o [Ho Hi]%(ab_requests _ _ _ _ _ HA). by rewrite (ab_objects _ _ _ _ _ HA i o Ho), decide_False, (Hsent i o Ho).
Qed.

Lemma reset_sys s fl sent flag ts :
  sys_ok (mkSystem s fl sent) ->
  wp (scheduler_reset_prefix_cache cfg flag ts) (fun res s' => sys_ok (mkSystem s' fl sent) /\
    (flag = true -> res = true /\ running s' = [] /\ forall i, kv_none (kv s') i)) s.
Proof.
  intros [HS HF Hsent]. simpl in *.
  eapply wp_mono; [by eapply reset_prefix_cache_ok|].
  intros res s' (HS' & Hq & Ht & _ & Hf). split; [|done]. split; simpl; try done.
  intros i o. rewrite Hq. intros Ho. destruct (Ht o) as (_ & _ & ->). by apply Hsent.
Qed.

Lemma reachable_ok (start : Sched -> Prop) y :
  (forall s, start s -> initial s) -> sys_reachable start y -> sys_ok y.
Proof.
  intros Hstart. induction 1 as [s Hi%Hstart|y y' _ IH Hs].
  - split; simpl; [by apply initial_ok|constructor|]. intros i o. destruct Hi as (_ & _ & _ & -> & _). by rewrite lookup_empty.
  - destruct Hs as [s fl sent ts out s' E|s out fl sent runner res s' HR E|s fl sent r ts s' HA Hn E|s fl sent ids fin s' Hf E|s fl sent flag ts res s' E].
    + by destruct (wp_outcome _ _ _ _ _ (schedule_sys _ ts IH) E).
    + by destruct (wp_outcome _ _ _ _ _ (update_sys _ _ _ _ _ IH HR) E).
    + by destruct (wp_outcome _ _ _ _ _ (add_sys _ _ _ _ ts IH HA Hn) E).
    + by destruct (wp_outcome _ _ _ _ _ (finish_sys _ _ _ _ _ IH Hf) E).
    + by destruct (wp_outcome _ _ _ _ _ (reset_sys _ _ _ _ _ IH) E).
Qed.
End system.
