(* ===== verification/SchedulerLive.v ===== *)
(** Progress of the scheduler: in rounds of a pass and the update with its results,
    every request is served to its end, within a bound on the number of rounds. *)
From stdpp Require Import gmap strings list.
From Stdlib Require Import ZArith Lia.
From S2P Require Import Prelude Request RequestQueue EncoderCache BlockPool KVCacheManager SchedulerData Scheduler.
From S2P Require Import SchedulerInv SchedulerRun SchedulerUpdate.
Open Scope Z_scope.

Section live.
Context {Q : Type} {rq_ops : RequestQueue Q} {rq_laws : RequestQueueLaws Q}.
Context {X : Type} {co_ops : Collaborators X} {co_laws : CollaboratorsLaws X}.
Context (cfg : SchedulerConfig) (plain : plain_config cfg).
Context {K : Type} {kv_ops : KVCache K}.
Context {logs : bool} {kv_laws : KVCacheLaws K (max_model_len cfg) logs}.
Context (size : string -> Z) (size_nonneg : forall h, 0 <= size h).
Context (logs_on : scheduler_log_stats cfg = true -> logs = true).
Context (block_hasher : option (Request -> list (list Z))).
Context (hasher_ok : forall r t, kv_request r -> kv_request (append_output_token_ids block_hasher [t] r)).

Notation Sched := (Scheduler Q K X).
Notation kv s := (kv_cache_manager s).
Notation max_len := (max_model_len cfg).
Notation sched_ok := (sched_ok cfg size).

(** The model: what the runner returns for a pass, given the scheduler after it. *)
Context (model : Sched -> SchedulerOutput -> ModelRunnerOutput).

(** One round of the engine without pipelining: [schedule], the model,
    [update_from_output]. *)
Definition round (timestamp : Z) : py Sched (list (Z * EngineCoreOutputs)) :=
  let! out := schedule cfg timestamp in
  let! s := py_get in
  let! res := update_from_output cfg block_hasher out (model s out) in
  py_ret res.1.
Fixpoint rounds (n : nat) (timestamp : Z) : py Sched unit :=
  match n with
  | 0%nat => py_ret tt
  | S n' => do! round timestamp; rounds n' (timestamp + 1)
  end.

(** Generative requests over text, none of which waits for a grammar; the running ones
    have tokens to compute. *)
Record live_ok (s : Sched) : Prop := mkLiveOk {
  lv_sched : sched_ok s;
  lv_ready : ready s (rq_iter (waiting s));
  lv_text : forall i o, requests s !! i = Some o -> has_encoder_inputs (object s o) = false /\
              pooling_params (args (object s o)) = None
}.

(** The model answers every pass over generative requests with well-formed rows, and
    samples a token when all tokens of a request are computed. *)
Context (model_ok : forall (s : Sched) out,
  (forall i n, (i, n) ∈ so_num_scheduled_tokens out -> is_Some (requests s !! i)) ->
  (forall i o, requests s !! i = Some o -> pooling_params (args (object s o)) = None) ->
  runner_ok s out (model s out) /\
  forall i n o, (i, n) ∈ so_num_scheduled_tokens out -> requests s !! i = Some o ->
    num_computed_tokens (object s o) = num_tokens (object s o) -> produces (model s out) i).
Context (room : roomy cfg).

(** Rounds still needed before the next request ends. *)
Definition distance (s : Sched) : Z :=
  match running s with
  | [] => max_len
  | o :: _ => max_len - 1 - num_computed_tokens (object s o)
  end.
Definition measure (s : Sched) : Z := Z.of_nat (base.size (requests s)) * (max_len + 1) + distance s.

Lemma live_computed s i o : live_ok s -> requests s !! i = Some o ->
  0 <= num_computed_tokens (object s o) < max_len.
Proof.
  intros [HS _ _] Ho. pose proof (sk_core _ _ _ HS) as C. apply (co_requests _ _ _ _ C) in Ho as [[Ho|Ho]%elem_of_app _].
  - destruct (co_run _ _ _ _ C o Ho) as [_ R1 R2 _]. pose proof (rk_len _ _ _ R1). lia.
  - destruct (co_wait _ _ _ _ C o Ho) as [_ R1 R2]. pose proof (rk_len _ _ _ R1). pose proof (rk_some _ _ _ R1). lia.
Qed.

(** After a pass and its update the requests are ready again. *)
Lemma update_ready s0 out s1 res s2 :
  sched_ok s1 -> sched_ok s2 -> pass_result cfg s0 out s1 -> update_result s1 out (model s1 out) res s2 ->
  ready s0 (rq_iter (waiting s0)) ->
  (forall i o, requests s1 !! i = Some o -> pooling_params (args (object s1 o)) = None) ->
  ready s2 (rq_iter (waiting s2)).
Proof.
  intros HS1 HS2 HP HU Hr Hgen. destruct (pr_ready _ _ _ _ HP Hr) as [H1 H2].
  pose proof (sk_core _ _ _ HS1) as C1. pose proof (sk_core _ _ _ HS2) as C2. destruct (pr_entries _ _ _ _ HP) as [_ Hent].
  destruct (model_ok s1 out) as [_ Hprod]; [|done|].
  { intros i n Hin. destruct (Hent i n Hin) as (o & Ho & _). by eexists. }
  split.
  - intros o Ho. rewrite (ur_running _ _ _ _ _ HU) in Ho. apply list_elem_of_filter in Ho as [Hfin Ho].
    assert (requests s1 !! rid s1 o = Some o) as Hreq by (apply (co_requests _ _ _ _ C1); split; [by apply running_live|done]).
    destruct (ur_grown _ _ _ _ _ HU _ _ Hreq) as (_ & Ec & Ea & _).
    pose proof (ro_computed _ _ _ _ (co_run _ _ _ _ C1 o Ho)) as Hle.
    assert (num_tokens (object s2 o) = num_tokens (object s1 o) + Z.of_nat (length (delivered (rid s1 o) res))) as En
      by (unfold num_tokens; rewrite Ea, length_app; lia).
    rewrite Ec, En. destruct (H1 o Ho) as [?|[n Hn]]; [lia|].
    destruct (decide (num_computed_tokens (object s1 o) = num_tokens (object s1 o))) as [E|]; [|lia].
    destruct (ur_produces _ _ _ _ _ HU _ n o Hn Hreq) as [Hf|Hne]; [by eapply Hprod|congruence|].
    destruct (delivered (rid s1 o) res); [done|]. simpl. lia.
  - intros o Ho. assert (requests s2 !! rid s2 o = Some o) as Hreq2
      by (apply (co_requests _ _ _ _ C2); split; [apply elem_of_app; by right|done]).
    rewrite (ur_status _ _ _ _ _ HU _ _ Hreq2). apply H2.
    apply (ur_requests _ _ _ _ _ HU) in Hreq2 as [Hreq Hfin].
    apply (co_requests _ _ _ _ C1) in Hreq as [[Hr1|?]%elem_of_app _]; [|done].
    exfalso. apply (running_not_waiting _ _ _ _ o C2); [|done]. rewrite (ur_running _ _ _ _ _ HU).
    by apply list_elem_of_filter.
Qed.

Lemma first_exists s : live_ok s -> requests s <> ∅ -> exists o, first_in_line s o /\ requests s !! rid s o = Some o.
Proof.
  intros [HS [H1 H2] H3] Hne. pose proof (sk_core _ _ _ HS) as C. unfold first_in_line.
  assert (Hreq : forall o, o ∈ running s ++ ids (rq_iter (waiting s)) -> requests s !! rid s o = Some o)
    by (intros o Ho; by apply (co_requests _ _ _ _ C)).
  destruct (running s) as [|o rs] eqn:Er.
  - destruct (rq_iter (waiting s)) as [|a w] eqn:Ew.
    + exfalso. apply map_choose in Hne as (i & o & Ho). apply (co_requests _ _ _ _ C) in Ho as [Ho _].
      rewrite Er in Ho. by apply not_elem_of_nil in Ho.
    + exists (obj_id a). pose proof (Hreq (obj_id a) ltac:(left)) as Hr. split; [|done]. split; [|by apply (H3 _ _ Hr)].
      exists a, w. split_and!; try done. apply H2. left.
  - exists o. pose proof (Hreq o ltac:(left)) as Hr. split; [|done]. split; [|by apply (H3 _ _ Hr)]. split; [done|]. apply H1. left.
Qed.

Lemma size_submap (m1 m2 : gmap string Z) i : m2 ⊆ m1 -> is_Some (m1 !! i) -> m2 !! i = None -> (base.size m2 < base.size m1)%nat.
Proof.
  intros Hs [o Ho] Hn. apply map_subset_size. split; [done|]. intros Hs'. apply (lookup_weaken _ m2) in Ho; [|done]. congruence.
Qed.

Lemma round_ok s ts :
  live_ok s -> wp (round ts) (fun _ s' => live_ok s' /\ (requests s <> ∅ -> measure s' < measure s) /\
    (requests s = ∅ -> requests s' = ∅)) s.
Proof.
  intros HL. pose proof HL as [HS Hready Htext]. unfold round. wp_step.
  eapply wp_mono; [by apply (schedule_ok cfg plain size size_nonneg)|]. intros out s1 (HS1 & HP & Hprog).
  pose proof (sk_core _ _ _ HS1) as C1. destruct (pr_entries _ _ _ _ HP) as [Hk Hent].
  assert (Htext1 : forall i o, requests s1 !! i = Some o -> has_encoder_inputs (object s1 o) = false /\ pooling_params (args (object s1 o)) = None).
  { intros i o. rewrite (pr_requests _ _ _ _ HP). unfold has_encoder_inputs. destruct (pr_args _ _ _ _ HP o) as (-> & _). apply Htext. }
  assert (Hgen1 : forall i o, requests s1 !! i = Some o -> pooling_params (args (object s1 o)) = None) by (intros i o Ho; by apply (Htext1 i o Ho)).
  destruct (model_ok s1 out) as [HRun _]; [|done|].
  { intros i n Hin. destruct (Hent i n Hin) as (o & Ho & _). by eexists. }
  wp_step. wp_step. wp_step. eapply wp_mono; [eapply update_from_output_ok; try done|].
  { apply HP. } { intros i n Hin. by destruct (Hent i n Hin) as (_ & _ & _ & ? & _). }
  intros res s2 [HS2 HU]. pose proof (sk_core _ _ _ HS2) as C2. apply wp_ret.
  assert (live_ok s2) as HL2.
  { split; [done|exact (update_ready s out s1 res.1 s2 HS1 HS2 HP HU Hready Hgen1)|]. intros i o [Ho _]%(ur_requests _ _ _ _ _ HU). unfold has_encoder_inputs.
    destruct (ur_grown _ _ _ _ _ HU i o Ho) as (-> & _). by apply (Htext1 i o Ho). }
  assert (requests s2 ⊆ requests s) as Hsub.
  { rewrite <- (pr_requests _ _ _ _ HP). apply map_subseteq_spec. intros i o. by intros [? _]%(ur_requests _ _ _ _ _ HU). }
  split_and!; [done| |].
  2:{ intros E. apply map_size_empty_iff. pose proof (map_subseteq_size _ _ Hsub) as Hle. rewrite E, map_size_empty in Hle. lia. }
  intros Hne. destruct (first_exists s HL Hne) as (o & Hfirst & Hreq).
  destruct (Hprog room o Hfirst) as (Hr1 & [n Hn] & Hhead).
  assert (Hdist : forall s', live_ok s' -> distance s' <= max_len).
  { intros s' HL'. unfold distance. destruct (running s') as [|x xs] eqn:E; [done|].
    assert (requests s' !! rid s' x = Some x) as Hx.
    { apply (co_requests _ _ _ _ (sk_core _ _ _ (lv_sched _ HL'))). split; [rewrite E; left|done]. }
    pose proof (live_computed s' _ x HL' Hx). lia. }
  assert (0 < max_len) as Hpos by (pose proof (live_computed s _ o HL Hreq); lia).
  unfold measure. destruct (requests s2 !! rid s o) as [o2|] eqn:E2.
  - (* the first request goes on *)
    assert (o2 = o) as ->.
    { apply (lookup_weaken _ (requests s)) in E2; [|done]. congruence. }
    pose proof (map_subseteq_size _ _ Hsub) as Hsize.
    pose proof E2 as [Hreq1 Hfin]%(ur_requests _ _ _ _ _ HU).
    assert (distance s2 < distance s) as Hd; [|nia].
    unfold distance at 2. destruct Hfirst as [Hl _]. destruct (running s) as [|o1 rs] eqn:Er.
    + assert (o ∈ running s2) as Ho2 by (rewrite (ur_running _ _ _ _ _ HU); by apply list_elem_of_filter).
      unfold distance. destruct (running s2) as [|x xs] eqn:Er2; [by apply not_elem_of_nil in Ho2|].
      assert (requests s2 !! rid s2 x = Some x) as Hx by (apply (co_requests _ _ _ _ C2); split; [rewrite Er2; left|done]).
      pose proof (live_computed s2 _ x HL2 Hx). lia.
    + destruct Hl as [-> _]. destruct (Hhead ltac:(done)) as [Hh Hinc].
      unfold distance. rewrite (ur_running _ _ _ _ _ HU). destruct (running s1) as [|x xs]; [done|]. injection Hh as ->.
      rewrite filter_cons_True by done. destruct (ur_grown _ _ _ _ _ HU _ _ Hreq1) as (_ & -> & _). lia.
  - (* it ended *)
    assert (base.size (requests s2) < base.size (requests s))%nat as Hlt by (eapply size_submap; [done|by eexists|done]).
    pose proof (Hdist s2 HL2). assert (0 <= distance s) as H0.
    { unfold distance. destruct (running s) as [|x xs] eqn:E; [lia|].
      assert (requests s !! rid s x = Some x) as Hx.
      { apply (co_requests _ _ _ _ (sk_core _ _ _ HS)). split; [rewrite E; left|done]. }
      pose proof (live_computed s _ x HL Hx). lia. }
    nia.
Qed.

Lemma measure_pos s : live_ok s -> requests s <> ∅ -> 0 < measure s.
Proof.
  intros HL Hne. unfold measure. pose proof (proj2 (map_size_non_empty_iff (requests s)) Hne) as Hs.
  destruct (first_exists s HL Hne) as (o & _ & Hreq). pose proof (live_computed s _ o HL Hreq).
  assert (0 <= distance s); [|nia]. unfold distance. destruct (running s) as [|x xs] eqn:E; [lia|].
  assert (requests s !! rid s x = Some x) as Hx.
  { apply (co_requests _ _ _ _ (sk_core _ _ _ (lv_sched _ HL))). split; [rewrite E; left|done]. }
  pose proof (live_computed s _ x HL Hx). lia.
Qed.

(** All requests end. *)
Lemma rounds_ok n s ts :
  live_ok s -> requests s = ∅ \/ measure s <= Z.of_nat n ->
  wp (rounds n ts) (fun _ s' => sched_ok s' /\ requests s' = ∅ /\ running s' = [] /\ rq_iter (waiting s') = [] /\
    forall i, kv_none (kv s') i) s.
Proof.
  revert s ts. induction n as [|n IH]; intros s ts HL Hm; simpl.
  - assert (requests s = ∅) as E.
    { destruct Hm as [|Hm]; [done|]. destruct (decide (requests s = ∅)) as [|Hne]; [done|].
      pose proof (measure_pos s HL Hne). lia. }
    pose proof (sk_core _ _ _ (lv_sched _ HL)) as C. apply wp_ret.
    assert (running s ++ ids (rq_iter (waiting s)) = []) as Hnil.
    { destruct (running s ++ ids (rq_iter (waiting s))) as [|o l] eqn:El; [done|].
      assert (requests s !! rid s o = Some o) as Ho by (apply (co_requests _ _ _ _ C); rewrite El; split; [left|done]).
      by rewrite E, lookup_empty in Ho. }
    apply app_nil in Hnil as [Hr Hw]. split_and!; [apply HL|done|done|by apply fmap_nil_inv in Hw|].
    intros i. apply (co_idle _ _ _ _ C). intros o Ho. rewrite Hr in Ho. by apply not_elem_of_nil in Ho.
  - wp_step. eapply wp_mono; [by apply round_ok|]. intros _ s1 (HL1 & Hlt & Hemp). apply IH; [done|].
    destruct (decide (requests s = ∅)) as [E|Hne]; [left; auto|right]. specialize (Hlt Hne). destruct Hm; [done|lia].
Qed.
End live.
