(* ===== verification/Serving.v ===== *)
(** The scheduler over the KV-cache manager: what holds of every run of the engine.

    Components are composed here: the scheduler ([Scheduler]), the paged KV memory
    ([KVCacheManager], one full-attention group, prefix caching on or off), the encoder
    cache and a request queue of either policy.

    The setting of all theorems of this file: a decoder-only model, synchronous
    scheduling, no KV connector, no draft tokens, EAGLE or lookahead, no limit on the
    LoRA adapters of a batch ([plain_config]: with [max_loras] the assertion on it can
    fail, see [SchedulerFaults.lora_limit_fails]); a block hash without collisions; a
    manager of grammars that accepts the tokens it asks for. Requests are new, shorter
    than the model length, also with [min_tokens] more tokens than their prompt
    (beyond that, see [SchedulerFaults.min_tokens_schedules_negative]), carry no
    multimodal inputs when prefix caching is on, and the size of an encoder input is
    determined by its hash ([req_ok], [admissible]). *)
From stdpp Require Import gmap strings list.
From Stdlib Require Import ZArith Lia.
From S2P Require Import Prelude Request RequestQueue EncoderCache BlockQueue BlockHash BlockPool SingleType Coordinator.
From S2P Require Import KVCacheManager KVCacheInv SchedulerData Scheduler.
From S2P Require Import SchedulerInv SchedulerRun SchedulerUpdate SchedulerKV SchedulerSystem SchedulerLive.
Open Scope Z_scope.

(** ** Construction *)

(** [Scheduler.__init__], without KV events and context parallelism: the KV-cache manager
    and the encoder cache are created, everything else is empty. The engine sets
    [cache_config.num_gpu_blocks] to the number of blocks of the configuration. *)
Definition scheduler_init {Q X} `{RequestQueue Q} `{Collaborators X} (cfg : SchedulerConfig) (kv_cache_config : KVCacheConfig)
    (enable_prefix_caching use_int has_metrics include_finished_set : bool) (encoder_cache_size : Z) (x : X)
    : exn + Scheduler Q KVCacheManager X :=
  if has_connector && is_encoder_decoder cfg then inl AssertionError else
  if negb (num_blocks kv_cache_config >? 0) then inl AssertionError else
  match kv_init kv_cache_config (max_model_len cfg) (scheduler_block_size cfg) enable_prefix_caching (use_eagle cfg)
          (scheduler_log_stats cfg) false use_int has_metrics 1 1 with
  | inl e => inl e
  | inr k => inr (mkScheduler ∅ ∅ rq_new [] ∅ (if include_finished_set then Some [] else None) ∅ ∅ ∅
                    (encoder_cache_init encoder_cache_size) k
                    (if has_connector && scheduler_log_stats cfg then Some fresh_stats else None) x)
  end.

Definition serving_layout (cfg : SchedulerConfig) (spec : KVCacheSpec) (caching : bool) (blocks : Z) : layout :=
  mkLayout spec caching blocks (max_model_len cfg) (scheduler_log_stats cfg).

(** A fresh KV-cache manager is empty memory. *)
Lemma init_memory L hbs eagle ui mc k :
  layout_ok L -> (ly_caching L = true -> hbs = spec_block_size (ly_spec L)) -> 0 < hbs ->
  kv_init (mkConfig (ly_blocks L) [ly_spec L]) (ly_max_len L) hbs (ly_caching L) eagle (ly_logs L) false ui mc 1 1 = inr k ->
  memory_ok L k /\ forall i, memory_none k i.
Proof.
  intros HL Hh Hpos E. destruct (full_spec_facts L HL) as (Fm & Fx & _). pose proof HL as [Hf Hbs].
  pose proof E as Estate. apply kv_init_state in Estate.
  2:{ split; simpl; try done; [by constructor|]. intros _. by constructor. }
  unfold kv_init, get_kv_cache_coordinator in E. simpl in E.
  destruct (pool_init (ly_blocks L) (ly_caching L) hbs false ui mc) as [|p] eqn:Ep; [done|].
  assert (0 < ly_blocks L) as Hn.
  { unfold pool_init in Ep. by destruct (ly_blocks L >? 0) eqn:En; [lia|]. }
  destruct (pool_init_spec (ly_blocks L) (ly_caching L) hbs false ui mc Hn) as (p0 & Ep0 & _ & Hnum & _ & Hhbs & _).
  rewrite Ep in Ep0. injection Ep0 as <-.
  unfold manager_init in E. rewrite Fm in E. simpl in E.
  set (m := mkManager _ _ _ _ _ _) in E.
  assert (forall cls, k = mkKV (ly_max_len L) (ly_caching L) (ly_logs L) (if ly_logs L then Some fresh_stats else None)
            (mkCoordinator p [m] eagle cls) 1 ->
          (ly_caching L = true -> cls = UnitaryKVCacheCoordinator (ly_spec L) (spec_block_size (ly_spec L)) 1 1) ->
          memory_ok L k /\ forall i, memory_none k i) as Hgo.
  { intros cls -> Hcls. split.
    - split; simpl; try done; [by exists m|]. intros Hc. rewrite Hhbs. auto.
    - intros i x Hx. simpl in Hx. apply list_elem_of_singleton in Hx as ->. unfold tab. simpl. by rewrite !lookup_empty. }
  destruct (ly_caching L) eqn:Ec; simpl in E.
  - rewrite (Hh eq_refl), Z.eqb_refl in E. injection E as <-. eapply Hgo; done.
  - injection E as <-. eapply Hgo; [done|done].
Qed.

Section serving.
Context {Q : Type} {rq_ops : RequestQueue Q} {rq_laws : RequestQueueLaws Q}.
Context {X : Type} {co_ops : Collaborators X} {co_laws : CollaboratorsLaws X}.
Context (cfg : SchedulerConfig) (plain : plain_config cfg).
Context (spec : KVCacheSpec) (caching : bool) (blocks : Z).
Notation L := (serving_layout cfg spec caching blocks).
Context (HL : layout_ok L) (Hblock : 0 < scheduler_block_size cfg).
Context (Hhash : caching = true -> scheduler_block_size cfg = spec_block_size spec).
Context (hash_function : bytes * list Z * option (list extra_key) -> bytes) (NONE_HASH : bytes).
Context (HH : hash_ok hash_function NONE_HASH).
Context (size : string -> Z) (size_nonneg : forall h, 0 <= size h).

Notation Sched := (Scheduler Q KVCacheManager X).
Notation kv s := (kv_cache_manager s).
#[local] Instance serving_laws : KVCacheLaws KVCacheManager (max_model_len cfg) (scheduler_log_stats cfg) :=
  kv_manager_laws L HL hash_function NONE_HASH HH.
Notation hasher := (memory_hasher L hash_function NONE_HASH).

(** A scheduler just constructed. *)
Definition started (s : Sched) : Prop :=
  exists ui mc fin n x, 0 <= n /\ scheduler_init cfg (mkConfig blocks [spec]) caching ui mc fin n x = inr s.
Definition served : System -> Prop := sys_reachable cfg size hasher started.

Lemma started_initial s : started s -> initial cfg size s.
Proof.
  intros (ui & mc & fin & n & x & Hn & E). unfold scheduler_init in E.
  rewrite law_no_connector in E. cbn [andb] in E. destruct (num_blocks (mkConfig blocks [spec]) >? 0); [|done]. simpl in E.
  destruct (kv_init _ _ _ _ _ _ _ _ _ _) as [|k] eqn:Ek; [done|]. injection E as <-.
  destruct (init_memory L (scheduler_block_size cfg) (use_eagle cfg) ui mc k HL Hhash Hblock Ek) as [HM Hno].
  split_and!; try done. by apply (init_ok size).
Qed.

Notation sys_ok := (sys_ok cfg size).
Notation waiting_ids s := (ids (rq_iter (waiting s))).

Lemma served_ok y : served y -> sys_ok y.
Proof.
  apply (reachable_ok cfg plain size size_nonneg ltac:(done) hasher (memory_request_append L HL hash_function NONE_HASH)).
  apply started_initial.
Qed.

(** ** Properties of runs *)

(** C1. No operation of the scheduler raises, in the setting stated at the top of this
    file (among others: no limit on LoRA adapters, bounded [min_tokens], text requests
    when prefix caching is on). In every state reached by any interleaving of passes,
    updates, admissions, abortions and resets, also with several passes in flight: a
    pass returns; the update with the oldest pass returns for every well-formed output
    of the model ([runner_ok]); an admissible request is admitted; any ids can be
    aborted; and the prefix cache can be reset, with success if running requests may be
    preempted. No assertion fails, no lookup misses, memory never runs out inside a
    pass, and no loop runs forever. *)
Theorem serving_never_raises y :
  served y ->
  let s := sy_sched y in
  (forall ts, exists out s', schedule cfg ts s = Ret out s') /\
  (forall out fl runner, sy_inflight y = out :: fl -> runner_ok s out runner ->
     exists res s', update_from_output cfg hasher out runner s = Ret res s') /\
  (forall r ts, admissible cfg size s r -> sy_sent y (request_id (args r)) = [] ->
     exists s', scheduler_add_request cfg r ts s = Ret tt s') /\
  (forall req_ids fin, status_is_finished fin = true -> exists s', finish_requests cfg req_ids fin s = Ret tt s') /\
  (forall flag ts, exists res s', scheduler_reset_prefix_cache cfg flag ts s = Ret res s' /\
     (flag = true -> res = true)).
Proof.
  intros Hy%served_ok s. destruct y as [s0 fl sent]. simpl in s. subst s. split_and!.
  - intros ts. pose proof (schedule_sys cfg plain size size_nonneg _ ts Hy) as (out & s' & E & _)%wp_iff. by exists out, s'.
  - intros out fl' runner E HR. simpl in E. subst fl.
    pose proof (update_sys cfg plain size size_nonneg ltac:(done) hasher (memory_request_append L HL hash_function NONE_HASH)
      s0 out fl' sent runner Hy HR) as (res & s' & E & _)%wp_iff. by exists res, s'.
  - intros r ts HA Hn. pose proof (add_sys cfg size ltac:(done) s0 fl sent r ts Hy HA Hn) as ([] & s' & E & _)%wp_iff. by exists s'.
  - intros req_ids fin Hf. pose proof (finish_sys cfg size size_nonneg s0 fl sent req_ids fin Hy Hf) as ([] & s' & E & _)%wp_iff. by exists s'.
  - intros flag ts. pose proof (reset_sys cfg size size_nonneg s0 fl sent flag ts Hy) as (res & s' & E & _ & Hr)%wp_iff.
    exists res, s'. split; [done|]. intros Hf. by destruct (Hr Hf).
Qed.

(** C3. The state of the scheduler. In every reachable state, the requests known by
    id are exactly those in the running list and the waiting queue, each in one of them
    and only once; at most [max_num_seqs] run. A running request has computed at most
    its tokens, is below the model length, and its block table covers what it has
    computed; a waiting one (new, waiting for its grammar or preempted) starts from
    zero; and KV memory is held by running requests only. *)
Theorem serving_invariant y :
  served y ->
  let s := sy_sched y in
  NoDup (running s ++ waiting_ids s) /\
  (forall i o, requests s !! i = Some o <-> o ∈ running s ++ waiting_ids s /\ rid s o = i) /\
  Z.of_nat (length (running s)) <= max_num_running_reqs cfg /\
  (forall o, o ∈ running s -> status (object s o) = RUNNING /\
     0 <= num_computed_tokens (object s o) <= num_tokens (object s o) /\ num_tokens (object s o) < max_model_len cfg /\
     forall m, m ∈ single_type_managers (coordinator (kv s)) ->
       num_computed_tokens (object s o) <= Z.of_nat (length (tab m (rid s o))) * spec_block_size spec) /\
  (forall o, o ∈ waiting_ids s -> num_computed_tokens (object s o) = 0 /\
     (status (object s o) = WAITING \/ status (object s o) = WAITING_FOR_FSM \/ status (object s o) = PREEMPTED)) /\
  (forall i, (forall o, o ∈ running s -> rid s o <> i) ->
     forall m, m ∈ single_type_managers (coordinator (kv s)) -> tab m i = []).
Proof.
  intros [HS _ _]%served_ok s. fold s in HS. pose proof (sk_core _ _ _ HS) as C. split_and!; try apply C.
  - intros o Ho. destruct (co_run _ _ _ _ C o Ho) as [S1 S2 S3 S4]. split_and!; try done; try lia.
    apply (rk_len _ _ _ S2).
  - intros o Ho. by destruct (co_wait _ _ _ _ C o Ho) as [S1 S2 S3].
Qed.

(** C9. Every pass produces a well-formed batch within the limits of the configuration:
    the requests in it are distinct, running and known by their ids, each has a positive
    number [n] of tokens, which it has not computed before: a request that was running
    goes from its computed tokens to [n] more, a waiting one, which had none, to at
    least [n]. A running request that is not in the batch stays at its computed tokens.
    The total is their sum and at most the token budget, the running requests at most
    [max_num_seqs]; no draft tokens are scheduled; the ids finished since the previous
    pass are handed over once. *)
Theorem pass_within_limits y ts out s' :
  served y -> schedule cfg ts (sy_sched y) = Ret out s' ->
  NoDup (so_num_scheduled_tokens out).*1 /\
  (forall i n, (i, n) ∈ so_num_scheduled_tokens out -> exists o,
     requests s' !! i = Some o /\ o ∈ running s' /\ 0 < n <= num_computed_tokens (object s' o) /\
     num_computed_tokens (object s' o) <= num_tokens (object s' o) /\
     (o ∈ running (sy_sched y) /\
        num_computed_tokens (object s' o) = num_computed_tokens (object (sy_sched y) o) + n \/
      o ∈ waiting_ids (sy_sched y) /\ num_computed_tokens (object (sy_sched y) o) = 0)) /\
  (forall o, o ∈ running s' -> o ∈ running (sy_sched y) -> rid s' o ∉ (so_num_scheduled_tokens out).*1 ->
     num_computed_tokens (object s' o) = num_computed_tokens (object (sy_sched y) o)) /\
  so_total_num_scheduled_tokens out = foldr Z.add 0 (so_num_scheduled_tokens out).*2 /\
  so_total_num_scheduled_tokens out <= max_num_scheduled_tokens cfg /\
  Z.of_nat (length (running s')) <= max_num_running_reqs cfg /\
  so_scheduled_spec_decode_tokens out = ∅ /\
  so_finished_req_ids out = finished_req_ids (sy_sched y) /\ finished_req_ids s' = ∅.
Proof.
  intros Hy%served_ok E. destruct (wp_outcome _ _ _ _ _ (schedule_sys cfg plain size size_nonneg _ ts Hy) E) as [[HS _ _] HP].
  simpl in HS. pose proof (sk_core _ _ _ HS) as C. destruct Hy as [HS0 _ _]. pose proof (sk_core _ _ _ HS0) as C0.
  destruct HP as [Eq _ [T1 T2] [E1 E2] Es [F1 F2] _ Hadv]. split_and!; try done.
  - intros i n Hin. destruct (E2 i n Hin) as (o & H1 & H2 & H3). exists o. split_and!; try done; try lia.
    { destruct (co_run _ _ _ _ C o H2). lia. }
    assert (rid s' o = i) as Ei by (by apply (co_requests _ _ _ _ C) in H1 as [_ ?]).
    rewrite Eq in H1. apply (co_requests _ _ _ _ C0) in H1 as [[Ho|Ho]%elem_of_app _].
    + left. split; [done|]. apply (Hadv o H2 Ho). by rewrite Ei.
    + right. split; [done|]. apply (co_wait _ _ _ _ C0 o Ho).
  - intros o Ho Ho0. by apply (Hadv o Ho Ho0).
  - rewrite T1. clear. unfold total. induction (so_num_scheduled_tokens out) as [|e d IH]; simpl; [done|]. by rewrite IH.
  - lia.
  - apply C.
Qed.

(** C2. Clients receive exactly the tokens that were generated for them. What was sent
    under the id of a live request is its output so far, and after an update the same
    holds of every request that was live before it, also of those that it ended: in
    whatever order passes, preemptions, resets and other requests interleave, nothing
    is lost, repeated or mixed up. *)
Theorem tokens_sent_exactly y :
  served y ->
  (forall i o, requests (sy_sched y) !! i = Some o -> sy_sent y i = output_token_ids (object (sy_sched y) o)) /\
  (forall out fl runner res s', sy_inflight y = out :: fl -> runner_ok (sy_sched y) out runner ->
     update_from_output cfg hasher out runner (sy_sched y) = Ret res s' ->
     forall i o, requests (sy_sched y) !! i = Some o ->
       sy_sent y i ++ delivered i res.1 = output_token_ids (object s' o)).
Proof.
  intros Hy%served_ok. split; [apply Hy|]. intros out fl runner res s' Efl HR E. destruct y as [s0 fl0 sent]. simpl in *. subst fl0.
  by destruct (wp_outcome _ _ _ _ _ (update_sys cfg plain size size_nonneg ltac:(done) hasher
    (memory_request_append L HL hash_function NONE_HASH) s0 out fl sent runner Hy HR) E) as (_ & _ & ?).
Qed.

(** C10. The head of the line advances. Under FCFS with chunked prefill and positive
    limits, with KV memory for one request of the maximal length beside the null block,
    a pass schedules the head of the running list if that request has tokens to compute,
    and, when nothing is running, the head of the waiting queue unless it waits for its
    grammar; the request has no encoder inputs in either case. This is so whatever else
    is preempted; a running request stays first and advances. Nothing is said of a pass
    in which the head of the running list has nothing to compute. *)
Theorem first_in_line_advances y ts o :
  served y -> policy cfg = FCFS -> enable_chunked_prefill cfg = true ->
  0 < max_num_scheduled_tokens cfg -> 0 < max_num_running_reqs cfg ->
  cdiv (max_model_len cfg) (spec_block_size spec) <= blocks - 1 -> first_in_line (sy_sched y) o ->
  exists out s', schedule cfg ts (sy_sched y) = Ret out s' /\ o ∈ running s' /\
    (exists n, (rid (sy_sched y) o, n) ∈ so_num_scheduled_tokens out) /\
    (running (sy_sched y) <> [] -> head (running s') = Some o /\
       num_computed_tokens (object (sy_sched y) o) < num_computed_tokens (object s' o)).
Proof.
  intros [HS _ _]%served_ok H1 H2 H3 H4 H5 Ho.
  pose proof (schedule_ok cfg plain size size_nonneg (sy_sched y) ts HS) as (out & s' & E & _ & _ & Hp)%wp_iff.
  exists out, s'. split; [done|]. apply Hp; [|done]. by split.
Qed.

(** C11. Aborted requests leave nothing behind. [finish_requests] removes exactly the
    named requests from the id map and both queues, marks them finished, reports their
    ids to the workers once, and frees their KV blocks; the others keep their objects,
    their place and, in every KV-cache group, exactly the block table they had. *)
Theorem abort_releases y req_ids fin :
  served y -> status_is_finished fin = true ->
  exists s', finish_requests cfg req_ids fin (sy_sched y) = Ret tt s' /\
    let s := sy_sched y in
    (forall i o, requests s' !! i = Some o <-> requests s !! i = Some o /\ i ∉ req_ids) /\
    running s' = filter (fun o => rid s o ∉ req_ids) (running s) /\
    rq_iter (waiting s') = filter (fun a => request_id a ∉ req_ids) (rq_iter (waiting s)) /\
    (forall i o, requests s !! i = Some o ->
       object s' o = if decide (i ∈ req_ids) then set_status fin (object s o) else object s o) /\
    (forall i, i ∈ finished_req_ids s' <-> i ∈ finished_req_ids s \/ i ∈ req_ids /\ is_Some (requests s !! i)) /\
    (forall i, i ∈ req_ids -> forall m, m ∈ single_type_managers (coordinator (kv s')) -> tab m i = []) /\
    (forall i, i ∉ req_ids -> map (fun m => tab m i) (single_type_managers (coordinator (kv s'))) =
                              map (fun m => tab m i) (single_type_managers (coordinator (kv s)))).
Proof.
  intros Hy%served_ok Hf. destruct y as [s fl sent]. simpl.
  pose proof (finish_sys cfg size size_nonneg s fl sent req_ids fin Hy Hf) as ([] & s' & E & [HS _ _] & [A1 A2 A3 A4 A5 A6])%wp_iff.
  simpl in HS. exists s'. split; [done|]. split_and!; try done. intros i Hi m Hm.
  apply (co_idle _ _ _ _ (sk_core _ _ _ HS) i); [|done]. intros o Ho Er.
  assert (requests s' !! i = Some o) as Hreq by (apply (co_requests _ _ _ _ (sk_core _ _ _ HS)); split; [by apply running_live|done]).
  by apply A1 in Hreq as [_ ?].
Qed.

(** ** Serving a batch to its end *)

(** Requests that arrive together. *)
Fixpoint add_all (rs : list Request) (ts : Z) : py Sched unit :=
  match rs with
  | [] => py_ret tt
  | r :: rs' => do! scheduler_add_request cfg r ts; add_all rs' ts
  end.

(** A new generative request over text that fits the model. *)
Record text_request (r : Request) : Prop := mkTextRequest {
  tx_req : req_ok cfg size r;
  tx_status : status r = WAITING;
  tx_computed : num_computed_tokens r = 0;
  tx_output : output_token_ids r = [];
  tx_encoder : has_encoder_inputs r = false;
  tx_pooling : pooling_params (args r) = None
}.
Notation oid r := (obj_id (args r)).
Notation rid_of r := (request_id (args r)).

(** The model answers every pass over generative requests with well-formed rows, and
    samples a token for a request when all its tokens are computed. *)
Definition answers_all (model : Sched -> SchedulerOutput -> ModelRunnerOutput) : Prop :=
  forall (s : Sched) out,
  (forall i n, (i, n) ∈ so_num_scheduled_tokens out -> is_Some (requests s !! i)) ->
  (forall i o, requests s !! i = Some o -> pooling_params (args (object s o)) = None) ->
  runner_ok s out (model s out) /\
  forall i n o, (i, n) ∈ so_num_scheduled_tokens out -> requests s !! i = Some o ->
    num_computed_tokens (object s o) = num_tokens (object s o) -> produces (model s out) i.

Lemma elem_of_place (a : RequestArgs) l x : x ∈ ids (rq_place (Q := Q) a l) -> x = obj_id a \/ x ∈ ids l.
Proof. intros Hx. unfold ids in *. rewrite (law_place a l) in Hx. by apply elem_of_cons in Hx. Qed.

Lemma add_live (s : Sched) r ts :
  live_ok cfg size s -> text_request r -> requests s !! rid_of r = None ->
  oid r ∉ running s ++ waiting_ids s ->
  wp (scheduler_add_request cfg r ts) (fun _ (s' : Sched) => live_ok cfg size s' /\ admitted s r s') s.
Proof.
  intros [HS [R1 R2] HT] [T1 T2 T3 T4 T5 T6] Hid Ho.
  eapply wp_mono; [apply (add_request_ok cfg size ltac:(done)); [done|]|].
  { split; auto. }
  intros [] s' [HS' HA]. split; [|done]. pose proof HA as [[Hg Hst] Hoth Hreq [Hrun Hq] _].
  assert (Hold : forall o, o ∈ running s ++ waiting_ids s -> object s' o = object s o).
  { intros o Hin. apply Hoth. by intros ->. }
  split; [done| |].
  - split.
    + intros o Hin. rewrite Hrun in Hin. rewrite Hold by (apply elem_of_app; by left). auto.
    + intros o Hin. destruct (decide (o = oid r)) as [->|Hne]; [by rewrite Hst, T2|].
      rewrite Hoth by done. apply R2. rewrite Hq in Hin. by apply elem_of_place in Hin as [?|?].
  - intros i o Hi. rewrite Hreq in Hi. destruct (decide (i = rid_of r)) as [->|Hne].
    + rewrite lookup_insert_eq in Hi. injection Hi as <-. destruct Hg as (Ea & _).
      unfold has_encoder_inputs. by rewrite Ea.
    + rewrite lookup_insert_ne in Hi by done. rewrite Hold; [by apply (HT i)|].
      by apply (co_requests _ _ _ _ (sk_core _ _ _ HS)) in Hi as [? _].
Qed.

Lemma add_all_live rs : forall (s : Sched) ts,
  live_ok cfg size s -> Forall text_request rs ->
  NoDup (map (fun r => rid_of r) rs) -> NoDup (map (fun r => oid r) rs) ->
  (forall r, r ∈ rs -> requests s !! rid_of r = None /\ oid r ∉ running s ++ waiting_ids s) ->
  wp (add_all rs ts) (fun _ (s' : Sched) => live_ok cfg size s' /\ running s' = running s /\
    base.size (requests s') = (length rs + base.size (requests s))%nat) s.
Proof.
  induction rs as [|r rs IH]; intros s ts HS HT Hid Ho Hnew; simpl; [by apply wp_ret|].
  apply Forall_cons in HT as [Hr HT]. apply NoDup_cons in Hid as [Hid Hids]. apply NoDup_cons in Ho as [Ho Hos].
  destruct (Hnew r ltac:(left)) as [N1 N2]. wp_step. eapply wp_mono; [by apply add_live|].
  intros [] s1 [HS1 [_ _ A3 [A4 A5] _]]. eapply wp_mono; [apply IH; try done|].
  - intros r' Hin. destruct (Hnew r' ltac:(by right)) as [M1 M2]. split.
    + rewrite A3, lookup_insert_ne; [done|]. intros E. apply Hid. rewrite E. by apply (list_elem_of_fmap_2 (fun x => rid_of x)).
    + rewrite A4, A5. intros [Hx|Hx]%elem_of_app; [apply M2, elem_of_app; by left|].
      apply elem_of_place in Hx as [E|Hx].
      * apply Ho. rewrite <- E. by apply (list_elem_of_fmap_2 (fun x => oid x)).
      * apply M2, elem_of_app. by right.
  - intros [] s2 (H1 & H2 & H3). split_and!; [done|congruence|]. rewrite H3, A3, map_size_insert_None by done. simpl. lia.
Qed.

(** C4. Every batch is served to its end. A fresh scheduler in the setting of this file,
    under FCFS with chunked prefill and positive limits on tokens and requests, whose
    memory holds one request of the maximal length beside the null block, takes any list
    of admissible text requests with distinct ids; with a model that answers every pass
    and samples a token whenever all tokens of a request are computed, after a number of
    rounds (a pass, the model, the update with its output) bounded by the number of
    requests times the model length, all have finished: no request is left in the map or
    in a queue, no KV block is held, and nothing raised on the way. This includes every
    preemption and recomputation that a lack of memory causes. *)
Theorem serving_terminates (s : Sched) rs ts model n :
  started s -> policy cfg = FCFS -> enable_chunked_prefill cfg = true ->
  0 < max_num_scheduled_tokens cfg -> 0 < max_num_running_reqs cfg ->
  cdiv (max_model_len cfg) (spec_block_size spec) <= blocks - 1 ->
  Forall text_request rs -> NoDup (map (fun r => rid_of r) rs) -> NoDup (map (fun r => oid r) rs) ->
  answers_all model ->
  (Z.of_nat (length rs) + 1) * (max_model_len cfg + 1) <= Z.of_nat n ->
  exists s', (do! add_all rs ts; rounds cfg hasher model n ts) s = Ret tt s' /\
    requests s' = ∅ /\ running s' = [] /\ rq_iter (waiting s') = [] /\
    forall i m, m ∈ single_type_managers (coordinator (kv s')) -> tab m i = [].
Proof.
  intros Hs H1 H2 H3 H4 H5 Hrs Hid Ho Hm Hn.
  pose proof (started_initial s Hs) as Hi. pose proof (initial_ok cfg plain size s Hi) as HS.
  destruct Hi as (_ & _ & _ & Er & Ew & Erun). destruct (law_new (Q := Q)) as [_ En].
  enough (wp (do! add_all rs ts; rounds cfg hasher model n ts) (fun _ s' => sched_ok cfg size s' /\
    requests s' = ∅ /\ running s' = [] /\ rq_iter (waiting s') = [] /\ forall i, kv_none (kv s') i) s)
    as ([] & s' & E & _ & R1 & R2 & R3 & R4)%wp_iff.
  { exists s'. split_and!; try done. intros i m Hin. by destruct (R4 i m Hin). }
  wp_step. eapply wp_mono; [apply add_all_live; try done|].
  - split; [done| |].
    + split; [rewrite Erun|rewrite Ew, En]; intros o Hx; by apply not_elem_of_nil in Hx.
    + intros i o Hx. by rewrite Er, lookup_empty in Hx.
  - intros r _. rewrite Er, Erun, Ew, En. split; [apply lookup_empty|apply not_elem_of_nil].
  - intros [] s1 (L1 & L2 & L3). apply (rounds_ok cfg plain size size_nonneg ltac:(done) hasher
      (memory_request_append L HL hash_function NONE_HASH) model Hm); [by split|done|].
    right. unfold measure, distance. rewrite L2, Erun, L3, Er, map_size_empty. lia.
Qed.
End serving.
