(* ===== verification/ServingDemo.v ===== *)
(** A concrete engine, on which the theorems of [Serving] are applied: FCFS with chunked
    prefill, full attention with blocks of two tokens, prefix caching, no connector and
    no grammars. *)
From stdpp Require Import gmap strings list.
From Stdlib Require Import ZArith Lia.
From S2P Require Import Prelude Request RequestQueue EncoderCache BlockQueue BlockHash BlockPool SingleType Coordinator.
From S2P Require Import KVCacheManager KVCacheInv SchedulerData Scheduler.
From S2P Require Import SchedulerInv SchedulerRun SchedulerUpdate SchedulerKV SchedulerSystem SchedulerLive Serving.
Open Scope Z_scope.

(** ** The collaborators *)

Definition no_collaborators : Collaborators unit := {|
  has_connector := false; supports_hma := false;
  get_num_new_matched_tokens _ _ := py_ret (Some 0, false);
  update_state_after_alloc _ _ _ := py_ret tt; build_connector_meta _ := py_ret tt;
  request_finished _ _ := py_ret (false, None); update_connector_output _ := py_ret tt;
  connector_take_events := py_ret []; grammar_ready _ _ := true; should_advance _ _ := false;
  accept_tokens _ _ := py_ret tt; validate_tokens _ l := py_ret l; grammar_bitmask _ _ := py_ret 0 |}.
#[local] Existing Instance no_collaborators.
#[local] Instance no_collaborators_laws : CollaboratorsLaws unit.
Proof. by split. Qed.

(** ** The engine *)

Definition demo_config : SchedulerConfig :=
  mkSchedulerConfig FCFS 4 8 7 0 true false 0 0 None false false 0 0 2 1 false false false false.
Definition demo_spec : KVCacheSpec := FullAttentionSpec 2 0.
Lemma demo_plain : plain_config demo_config.
Proof. split; done. Qed.
Lemma demo_layout : layout_ok (serving_layout demo_config demo_spec true 6).
Proof. done. Qed.
Lemma demo_hash_ok : hash_ok demo_hash [0].
Proof. split; [apply demo_hash_inj|done|done]. Qed.
Definition no_size (_ : string) : Z := 0.
Lemma no_size_nonneg h : 0 <= no_size h.
Proof. done. Qed.

Notation demo_hasher := (memory_hasher (serving_layout demo_config demo_spec true 6) demo_hash [0]).
Notation Demo := (Scheduler FCFSRequestQueue KVCacheManager unit).

(** A request for at most [mt] tokens after the prompt [toks]. *)
Definition demo_request (id : string) (o : Z) (toks : list Z) (mt : Z) : Request :=
  or_else inhabitant (Request_init demo_hasher
    (mkArgs id o 0 0 o (Some toks) None (Some (mkSampling (Some mt) 0 true None None false None default_draw)) None None [] None None)).
Definition demo_a : Request := demo_request "a" 1 [1; 2; 3] 2.
Definition demo_b : Request := demo_request "b" 2 [1; 2; 4; 5] 9.

Notation demo_text := (text_request demo_config demo_spec true 6 demo_layout demo_hash [0] demo_hash_ok no_size).
Lemma demo_request_text r p :
  length p = Z.to_nat (num_prompt_tokens r) -> 0 <= num_prompt_tokens r -> all_token_ids r = p ->
  1 <= num_tokens r < 7 -> num_prompt_tokens r <= 7 -> option_map sp_min_tokens (sampling_params (args r)) = Some 0 ->
  mm_features (args r) = [] -> block_hashes r = ref_hashes demo_hash [0] 2 r -> spec_token_ids r = [] ->
  num_output_placeholders r = 0 -> status r = WAITING -> num_computed_tokens r = 0 -> output_token_ids r = [] ->
  pooling_params (args r) = None -> demo_text r.
Proof.
  intros H1 H2 H3 H4 H5 H6 H7 H8 H9 H10 H11 H12 H13 H14. destruct (sampling_params (args r)) as [sp|] eqn:E; [|done].
  injection H6 as H6. split; try done; [|by unfold has_encoder_inputs; rewrite H7]. split; try done; try apply H4.
  - intros i f. by rewrite H7.
  - exists p. rewrite H13, app_nil_r. done.
  - rewrite E. simpl. lia.
  - right. by rewrite E.
Qed.
Lemma demo_a_text : demo_text demo_a.
Proof. by apply (demo_request_text _ [1; 2; 3]). Qed.
Lemma demo_b_text : demo_text demo_b.
Proof. by apply (demo_request_text _ [1; 2; 4; 5]). Qed.

(** ** A run *)

Definition state_of {S A} (d : S) (o : outcome S A) : S := match o with Ret _ s => s | Raise _ _ => d end.
Definition result_of {S A} (d : A) (o : outcome S A) : A := match o with Ret a _ => a | Raise _ _ => d end.

Definition demo_empty : Demo :=
  mkScheduler ∅ ∅ rq_new [] ∅ None ∅ ∅ ∅ (encoder_cache_init 0) no_kv None tt.
Definition demo_start : Demo :=
  or_else demo_empty (scheduler_init demo_config (mkConfig 6 [demo_spec]) true true false false 0 tt).
Lemma demo_started : started demo_config demo_spec true 6 demo_start.
Proof. exists true, false, false, 0, tt. by vm_compute. Qed.

Definition demo_added : Demo := state_of demo_start (scheduler_add_request demo_config demo_a 0 demo_start).
Definition empty_pass : SchedulerOutput :=
  mkSchedulerOutput [] (mkCachedRequestData [] ∅ [] [] [] [] []) [] 0 ∅ ∅ [] ∅ ∅ [] false.
Definition demo_pass : SchedulerOutput := result_of empty_pass (schedule demo_config 1 demo_added).
Definition demo_scheduled : Demo := state_of demo_start (schedule demo_config 1 demo_added).
Definition demo_system : System := mkSystem demo_scheduled [demo_pass] (fun _ => []).

Notation demo_served := (served demo_config demo_spec true 6 demo_layout demo_hash [0] demo_hash_ok no_size).
Lemma demo_added_served : demo_served (mkSystem demo_added [] (fun _ => [])).
Proof.
  eapply reach_step; [apply reach_init, demo_started|]. apply (step_add _ _ _ _ _ _ demo_a 0); [|done|by vm_compute].
  split; [apply demo_a_text|by left|done|done|by apply not_elem_of_nil|done].
Qed.
Lemma demo_system_served : demo_served demo_system.
Proof. eapply reach_step; [apply demo_added_served|]. apply (step_schedule _ _ _ _ [] _ 1). by vm_compute. Qed.

(** ** The model *)

(** One row per scheduled request; [tok] is sampled when all tokens are computed. *)
Definition demo_model {Q} (tok : Z) (s : Scheduler Q KVCacheManager unit) (out : SchedulerOutput) : ModelRunnerOutput :=
  let row '(i, _) := match requests s !! i with
                     | Some o => if num_computed_tokens (object s o) >=? num_tokens (object s o) then [tok] else []
                     | None => []
                     end in
  let e := so_num_scheduled_tokens out in
  mkModelRunnerOutput (list_to_map (imap (fun k e => (e.1, k)) e)) (map row e) ∅ [] None None.

Lemma index_spec (e : list (string * Z)) i :
  (forall k, (list_to_map (imap (fun k e => (e.1, k)) e) : gmap string nat) !! i = Some k -> exists n, e !! k = Some (i, n)) /\
  (forall n, (i, n) ∈ e -> is_Some ((list_to_map (imap (fun k e => (e.1, k)) e) : gmap string nat) !! i)).
Proof.
  split.
  - intros k Hk%elem_of_list_to_map_2. apply list_elem_of_lookup in Hk as [j Hj].
    rewrite list_lookup_imap in Hj. destruct (e !! j) as [[i' n]|] eqn:E; [|done]. injection Hj as <- <-. by exists n.
  - intros n Hin. destruct (_ !! i) eqn:E; [done|]. apply not_elem_of_list_to_map in E. destruct E.
    apply list_elem_of_lookup in Hin as [j Hj]. apply list_elem_of_fmap. exists (i, j). split; [done|].
    apply list_elem_of_lookup. exists j. by rewrite list_lookup_imap, Hj.
Qed.

Lemma demo_model_ok tok : answers_all (Q := FCFSRequestQueue) (demo_model tok).
Proof.
  intros s out Hreq Hgen. set (e := so_num_scheduled_tokens out) in *.
  assert (Hprod : forall i n o, (i, n) ∈ e -> requests s !! i = Some o ->
    num_computed_tokens (object s o) = num_tokens (object s o) -> produces (demo_model tok s out) i).
  { intros i n o Hin Ho Hc. destruct (index_spec e i) as [H1 H2]. destruct (H2 n Hin) as [k Hk].
    destruct (H1 k Hk) as [n' Hn]. exists k. split; [done|]. left. exists tok, []. simpl. fold e.
    rewrite list_lookup_fmap, Hn. simpl. rewrite Ho, Hc. by destruct (Z.geb_spec (num_tokens (object s o)) (num_tokens (object s o))); [|lia]. }
  split; [|done]. split; [done|]. intros i n o Hin Ho. destruct (index_spec e i) as [H1 H2]. split.
  - by apply (H2 n).
  - intros idx Hi _. destruct (H1 idx Hi) as [n' Hn]. eexists. simpl. fold e. rewrite list_lookup_fmap, Hn. split; [done|].
    rewrite (Hgen i o Ho). by intros [].
  - done.
  - simpl. rewrite lookup_empty. by intros [].
Qed.

(** ** The theorems on the run *)

Lemma demo_pass_entries : so_num_scheduled_tokens demo_pass = [("a"%string, 3)].
Proof. by vm_compute. Qed.
Lemma demo_scheduled_requests : requests demo_scheduled = {["a"%string := 1]}.
Proof. by vm_compute. Qed.
Lemma demo_scheduled_running : running demo_scheduled = [1].
Proof. by vm_compute. Qed.
Lemma demo_scheduled_ids : running demo_scheduled ++ ids (rq_iter (waiting demo_scheduled)) = [1].
Proof. by vm_compute. Qed.
Lemma demo_added_running : running demo_added = [].
Proof. by vm_compute. Qed.
Lemma demo_runner_ok tok : runner_ok demo_scheduled demo_pass (demo_model tok demo_scheduled demo_pass).
Proof.
  apply demo_model_ok.
  - intros i n Hi. rewrite demo_pass_entries in Hi. apply list_elem_of_singleton in Hi. injection Hi as -> _.
    rewrite demo_scheduled_requests, lookup_singleton_eq. by eexists.
  - intros i o Hi. rewrite demo_scheduled_requests in Hi. apply lookup_singleton_Some in Hi as [_ <-]. by vm_compute.
Qed.

#[local] Opaque demo_scheduled demo_pass demo_added.
Notation at_demo th :=
  (th FCFSRequestQueue _ _ unit _ _ demo_config demo_plain demo_spec true 6 demo_layout ltac:(done) ltac:(done)
     demo_hash [0] demo_hash_ok no_size no_size_nonneg) (only parsing).

(** With one pass in flight, the next pass, the update, an admission, an abort and a
    reset all return. *)
Lemma serving_never_raises_witness :
  let s := demo_scheduled in
  (exists out s', schedule demo_config 2 s = Ret out s') /\
  (exists res s', update_from_output demo_config demo_hasher demo_pass (demo_model 9 s demo_pass) s = Ret res s') /\
  (exists s', scheduler_add_request demo_config demo_b 2 s = Ret tt s') /\
  (exists s', finish_requests demo_config ["a"%string] FINISHED_ABORTED s = Ret tt s') /\
  (exists s', scheduler_reset_prefix_cache demo_config true 2 s = Ret true s').
Proof.
  destruct (at_demo (@serving_never_raises) demo_system demo_system_served) as (H1 & H2 & H3 & H4 & H5). split_and!.
  - apply H1.
  - apply (H2 _ []); [done|]. apply demo_runner_ok.
  - apply H3; [|done]. split; [apply demo_b_text|by left|by vm_compute|by vm_compute| |by vm_compute].
    change (sy_sched demo_system) with demo_scheduled. rewrite demo_scheduled_ids. by intros ?%list_elem_of_singleton.
  - by apply H4.
  - destruct (H5 true 2) as (res & s' & E & Hr). exists s'. by rewrite (Hr eq_refl) in E.
Defined.

(** The request is the only one running; its block table has two blocks for its three
    tokens. *)
Lemma serving_invariant_witness :
  running demo_scheduled = [1] /\ status (object demo_scheduled 1) = RUNNING /\
  forall m, m ∈ single_type_managers (coordinator (kv_cache_manager demo_scheduled)) ->
    3 <= Z.of_nat (length (tab m "a")) * 2 /\ tab m "b" = [].
Proof.
  destruct (at_demo (@serving_invariant) demo_system demo_system_served) as (_ & _ & _ & H4 & _ & H6).
  destruct (H4 1) as (Hs & _ & _ & Hm); [simpl; rewrite demo_scheduled_running; left|].
  split_and!; [apply demo_scheduled_running|done|]. intros m Hin. split; [apply (Hm m Hin)|].
  apply H6; [|done]. simpl. rewrite demo_scheduled_running. intros o Ho. apply list_elem_of_singleton in Ho as ->. by vm_compute.
Defined.

(** The pass schedules the three prompt tokens. *)
Lemma pass_within_limits_witness :
  schedule demo_config 1 demo_added = Ret demo_pass demo_scheduled /\
  so_num_scheduled_tokens demo_pass = [("a"%string, 3)] /\ so_total_num_scheduled_tokens demo_pass <= 8.
Proof.
  split; [by vm_compute|]. split; [done|].
  apply (at_demo (@pass_within_limits) (mkSystem demo_added [] (fun _ => [])) 1 demo_pass demo_scheduled demo_added_served).
  by vm_compute.
Defined.

(** Token 9 is sampled, appended and sent. *)
Lemma tokens_sent_exactly_witness :
  let o := update_from_output demo_config demo_hasher demo_pass (demo_model 9 demo_scheduled demo_pass) demo_scheduled in
  exists res s', o = Ret res s' /\ delivered "a" res.1 = [9] /\ output_token_ids (object s' 1) = [9].
Proof.
  intros o. destruct o as [res s'|] eqn:E; [|by vm_compute in E]. exists res, s'. split; [done|].
  assert (delivered "a" res.1 = [9]) as Hd by (vm_compute in E; injection E as <- _; done).
  split; [done|]. destruct (at_demo (@tokens_sent_exactly) demo_system demo_system_served) as [_ H].
  pose proof (H demo_pass [] _ res s' eq_refl (demo_runner_ok 9) E "a"%string 1 ltac:(by vm_compute)) as Hx.
  rewrite Hd in Hx. symmetry. exact Hx.
Defined.

(** The waiting request is scheduled by the first pass. *)
Lemma first_in_line_advances_witness :
  exists out s', schedule demo_config 1 demo_added = Ret out s' /\ 1 ∈ running s' /\
    exists n, ("a"%string, n) ∈ so_num_scheduled_tokens out.
Proof.
  destruct (at_demo (@first_in_line_advances) (mkSystem demo_added [] (fun _ => [])) 1 1 demo_added_served)
    as (out & s' & E & H1 & H2 & _); [reflexivity..|vm_compute; congruence| |].
  - split; [|by vm_compute]. change (sy_sched _) with demo_added. rewrite demo_added_running. exists (args demo_a), [].
    split_and!; [by vm_compute..|]. by vm_compute.
  - exists out, s'. split; [exact E|]. split; [exact H1|exact H2].
Defined.

(** Aborting the running request empties the scheduler and its block table. *)
Lemma abort_releases_witness :
  exists s', finish_requests demo_config ["a"%string] FINISHED_ABORTED demo_scheduled = Ret tt s' /\ running s' = [] /\
    forall m, m ∈ single_type_managers (coordinator (kv_cache_manager s')) -> tab m "a" = [].
Proof.
  destruct (at_demo (@abort_releases) demo_system ["a"%string] FINISHED_ABORTED demo_system_served)
    as (s' & E & _ & H2 & _ & _ & _ & H6 & _); [done|]. exists s'. split_and!; [exact E| |].
  - rewrite H2. change (sy_sched _) with demo_scheduled. rewrite demo_scheduled_running. by vm_compute.
  - apply H6. left.
Defined.

(** Two requests that share a prefix are served within 24 rounds. *)
Lemma serving_terminates_witness :
  exists s', (do! add_all demo_config [demo_a; demo_b] 0;
              rounds demo_config demo_hasher (demo_model 9) 24 0) demo_start = Ret tt s' /\
    requests s' = ∅ /\ running s' = [].
Proof.
  destruct (at_demo (@serving_terminates) demo_start [demo_a; demo_b] 0 (demo_model 9) 24 demo_started)
    as (s' & E & H1 & H2 & _).
  - done.
  - done.
  - done.
  - done.
  - vm_compute. congruence.
  - constructor; [apply demo_a_text|]. constructor; [apply demo_b_text|constructor].
  - by apply (bool_decide_unpack _).
  - by apply (bool_decide_unpack _).
  - apply demo_model_ok.
  - vm_compute. congruence.
  - exists s'. split; [exact E|]. split; [exact H1|exact H2].
Defined.
