(* ===== verification/SchedulerFaults.v ===== *)
(** Behaviour of the scheduler outside the hypotheses of [Serving]: inputs its callers
    accept and on which a pass fails, stalls or passes a request over. *)
From stdpp Require Import gmap strings list.
From Stdlib Require Import ZArith Lia.
From S2P Require Import Prelude Request RequestQueue EncoderCache BlockPool SingleType Coordinator.
From S2P Require Import KVCacheManager KVCacheInv SchedulerData Scheduler SchedulerLive Serving ServingDemo.
Open Scope Z_scope.
#[local] Existing Instance no_collaborators.

(** ** Engines without prefix caching *)

Section engine.
Context (policy : SchedulingPolicy) (seqs tokens max_len threshold : Z) (loras : option Z) (Q : Type) {ops : RequestQueue Q}.
Definition fault_config : SchedulerConfig :=
  mkSchedulerConfig policy seqs tokens max_len threshold true false 0 0 loras false false 0 0 2 1 false false false false.
Definition fault_start (blocks : Z) : Scheduler Q KVCacheManager unit :=
  or_else (mkScheduler ∅ ∅ rq_new [] ∅ None ∅ ∅ ∅ (encoder_cache_init 0) no_kv None tt)
    (scheduler_init fault_config (mkConfig blocks [demo_spec]) false true false false 0 tt).
End engine.

Definition fault_request (id : string) (o prio : Z) (toks : list Z) (mt mn : Z) (lora : option LoRARequest) : Request :=
  or_else inhabitant (Request_init None
    (mkArgs id o 0 prio o (Some toks) None (Some (mkSampling (Some mt) mn true None None false None default_draw)) None None [] lora None)).

(** The output of the model for a pass that completes the prompts of [completed]. *)
Definition sampled_for (completed : list string) (out : SchedulerOutput) : ModelRunnerOutput :=
  let e := so_num_scheduled_tokens out in
  mkModelRunnerOutput (list_to_map (imap (fun k e => (e.1, k)) e))
    (map (fun '(i, _) => if decide (i ∈ completed) then [9] else []) e) ∅ [] None None.
(** The batch of a pass that returned, the exception of a call that raised. *)
Definition batch_of {S} (o : outcome S SchedulerOutput) : option (list (string * Z)) :=
  match o with Ret out _ => Some (so_num_scheduled_tokens out) | Raise _ _ => None end.
Definition raised {S A} (o : outcome S A) : option exn :=
  match o with Ret _ _ => None | Raise e _ => Some e end.

(** ** [min_tokens] beyond the model length *)

(** Model length 5; three prompt tokens, at least and at most eight more. *)
Definition long_request : Request := fault_request "a" 1 0 [1; 2; 3] 8 8 None.
Notation long_config := (fault_config FCFS 4 8 5 0 None).
Notation long_round := (round long_config None (demo_model 9)).
Notation long_rounds := (rounds long_config None (demo_model 9)).
Notation long_start := (fault_start FCFS 4 8 5 0 None FCFSRequestQueue 6).
Definition long_stuck : Scheduler FCFSRequestQueue KVCacheManager unit :=
  state_of long_start ((do! scheduler_add_request long_config long_request 0; long_rounds 5 0) long_start).

Lemma long_fixpoint ts : long_round ts long_stuck = Ret [] long_stuck.
Proof. by vm_compute. Qed.

(** A request whose [min_tokens] exceeds what the model length leaves never ends:
    once it reaches the model length no tokens are scheduled for it, and it is not
    stopped either, so it stays in the running list with its KV blocks through every
    further round. *)
Theorem min_tokens_never_ends :
  (do! scheduler_add_request long_config long_request 0; long_rounds 5 0) long_start = Ret tt long_stuck /\
  num_tokens (object long_stuck 1) = 5 /\ num_output_tokens (object long_stuck 1) = 2 /\
  forall n ts, long_rounds n ts long_stuck = Ret tt long_stuck /\ running long_stuck = [1].
Proof.
  split_and!; [by vm_compute..|]. intros n ts. split; [|by vm_compute]. revert ts.
  induction n as [|n IH]; intros ts; [done|]. simpl. unfold py_bind at 1. by rewrite long_fixpoint.
Qed.

Definition long_resumed : Scheduler FCFSRequestQueue KVCacheManager unit :=
  state_of long_start ((do! scheduler_reset_prefix_cache long_config true 0; long_round 0) long_stuck).

(** Such a request breaks the engine when it is preempted, for instance by a reset
    of the prefix cache: resumed, it is recomputed up to the model length and one token
    more is sampled; the next pass then schedules -1 tokens for it, and the update with
    that pass fails an assertion. *)
Theorem min_tokens_schedules_negative :
  batch_of (schedule long_config 1 long_resumed) = Some [("a"%string, -1)] /\
  raised (long_round 1 long_resumed) = Some AssertionError.
Proof. split; by vm_compute. Qed.

(** ** The LoRA limit with passes in flight *)

Notation lora_config := (fault_config FCFS 4 8 9 0 (Some 1)).
Notation lora_start := (fault_start FCFS 4 8 9 0 (Some 1) FCFSRequestQueue 9).
Definition lora_request_of (id : string) (o : Z) : Request :=
  fault_request id o 0 [1; 2] 8 0 (Some (mkLoRA id o)).
(** Two passes are scheduled before the results of the first. *)
Definition lora_run : py (Scheduler FCFSRequestQueue KVCacheManager unit) SchedulerOutput :=
  do! scheduler_add_request lora_config (lora_request_of "a" 1) 0;
  do! scheduler_add_request lora_config (lora_request_of "b" 2) 0;
  let! out1 := schedule lora_config 0 in
  let! out2 := schedule lora_config 1 in
  do! update_from_output lora_config None out1 (sampled_for ["a"%string] out1);
  do! update_from_output lora_config None out2 (sampled_for ["b"%string] out2);
  schedule lora_config 2.

(** With passes in flight the LoRA limit does not hold: a running request that has
    nothing to compute in a pass is not counted, so a request with another adapter is
    admitted next to it; as soon as both have a token to compute, the assertion on the
    limit fails. *)
Theorem lora_limit_fails : raised (lora_run lora_start) = Some AssertionError.
Proof. by vm_compute. Qed.

(** ** Priority preemption and the position in the running list *)

Notation skip_config := (fault_config PRIORITY 4 4 9 2 None).
Notation skip_start := (fault_start PRIORITY 4 4 9 2 None PriorityRequestQueue 6).
Definition skip_run : py (Scheduler PriorityRequestQueue KVCacheManager unit) SchedulerOutput :=
  do! scheduler_add_request skip_config (fault_request "x" 1 9 [1; 2; 3; 4; 5; 6] 8 0 None) 0;
  let! out1 := schedule skip_config 0 in
  do! scheduler_add_request skip_config (fault_request "y" 2 0 [1; 2] 8 0 None) 0;
  let! out2 := schedule skip_config 1 in
  do! scheduler_add_request skip_config (fault_request "z" 3 0 [1; 2; 3; 4] 8 0 None) 0;
  do! schedule skip_config 2;
  do! update_from_output skip_config None out1 (sampled_for [] out1);
  do! update_from_output skip_config None out2 (sampled_for ["y"%string] out2);
  schedule skip_config 3.
Definition skip_end : Scheduler PriorityRequestQueue KVCacheManager unit := state_of skip_start (skip_run skip_start).

(** Under the priority policy a running request can be passed over: when the victim
    of a preemption stands before the current request and is not in the batch, the
    position in the running list is not moved back, and the request after the current
    one is skipped. Here [z] has two prompt tokens to compute, three tokens of budget and
    two free blocks, and the batch holds [y] alone. *)
Theorem priority_preemption_passes_over :
  batch_of (skip_run skip_start) = Some [("y"%string, 1)] /\ running skip_end = [2; 3] /\
  num_computed_tokens (object skip_end 3) = 2 /\ num_tokens (object skip_end 3) = 4 /\
  get_num_free_blocks (block_pool (coordinator (kv_cache_manager skip_end))) = 2.
Proof. split_and!; by vm_compute. Qed.
