(* ===== verification/OmniGeneration.v ===== *)
(** The scheduler of one-step generation stages
    ([vllm_omni/core/sched/omni_generation_scheduler.py]): a subclass of the
    scheduler whose pass gives a waiting request its whole prompt at once and
    whose update ends every request of the batch.

    The class derives from the synchronous [Scheduler]. A pass that schedules
    nothing on the fast path is a pass of the base class. The opaque payload
    [additional_information] of new requests is not represented. *)
From stdpp Require Import gmap strings list.
From Stdlib Require Import ZArith Lia.
From S2P Require Import Prelude Request RequestQueue EncoderCache BlockPool KVCacheManager SchedulerData Scheduler.
Open Scope Z_scope.

Section generation.
Context {Q : Type} `{RequestQueue Q} {K : Type} `{KVCache K} {X : Type} `{Collaborators X}.
Context (cfg : SchedulerConfig).
Notation Sched := (Scheduler Q K X).
Notation Pass := (Scheduler Q K X * Locals Q)%type.
Notation Update := (Scheduler Q K X * UpdateLocals)%type.

(** ** The pass *)

(** All input tokens of the request, one placeholder if there are none. *)
Definition required_tokens (r : Request) : Z := Z.max (num_prompt_tokens r) 1.

(** The request at the head has its slots: it starts to run. *)
Definition fast_admit (num_new_tokens timestamp : Z) (new_blocks : KVCacheBlocks) : py Pass unit :=
  let! a := on_sched (on_waiting pop_request) in
  let o := obj_id a in
  do! on_sched (py_modify (fun s => set_running (running s ++ [o]) s));
  do! on_sched (update_object o (set_status RUNNING));
  do! (if scheduler_log_stats cfg then on_sched (update_object o (record_event SCHEDULED timestamp)) else py_ret tt);
  on_locals (fun l =>
    set_req_to_new_blocks (<[request_id a := new_blocks]> (req_to_new_blocks l))
   (set_num_scheduled_tokens (dict_set (request_id a) num_new_tokens (num_scheduled_tokens l))
   (set_token_budget (token_budget l - num_new_tokens)
   (set_scheduled_new_reqs (scheduled_new_reqs l ++ [o]) l)))).

Definition fast_step (timestamp : Z) : py Pass flow :=
  let! a := on_sched (on_waiting peek_request) in
  let! r := on_sched (get_object (obj_id a)) in
  let! budget := get_locals token_budget in
  if budget <? required_tokens r then py_ret Break else
  let! new_blocks := on_sched (on_kv
    (kc_allocate_slots r (required_tokens r) 0 None (num_lookahead_tokens cfg) false 0)) in
  match new_blocks with
  | None => py_ret Break
  | Some b => do! fast_admit (required_tokens r) timestamp b; py_ret Continue
  end.

(** At most one turn per waiting request. *)
Fixpoint fast_loop (fuel : nat) (timestamp : Z) : py Pass unit :=
  let! '(s, l) := py_get in
  if rq_bool (waiting s) && (0 <? token_budget l)
     && (Z.of_nat (length (running s)) <? max_num_running_reqs cfg) then
    match fuel with
    | 0%nat => py_raise Diverges
    | S fuel' =>
        let! f := fast_step timestamp in
        match f with Continue => fast_loop fuel' timestamp | Break => py_ret tt end
    end
  else py_ret tt.

(** The message for the requests of the fast path. *)
Definition fast_finish (l : Locals Q) : py Sched SchedulerOutput :=
  let! s := py_get in
  let! common :=
    (match running s with
     | [] => py_ret (replicate (num_kv_groups cfg) 0)
     | o :: _ => on_kv (kc_get_num_common_prefix_blocks (request_id (args (object s o))))
     end) in
  let! new_reqs_data := py_map (make_new_request_data l (use_v2_model_runner cfg)) (scheduled_new_reqs l) in
  let! cached_reqs_data := make_cached_request_data cfg l [] [] in
  let! freed := on_encoder get_freed_mm_hashes in
  let out := mkSchedulerOutput new_reqs_data cached_reqs_data (num_scheduled_tokens l)
    (foldr (fun e acc => e.2 + acc) 0 (num_scheduled_tokens l))
    (scheduled_spec_decode_tokens l) (scheduled_encoder_inputs l) common ∅ (finished_req_ids s) freed false in
  do! py_modify (set_prev_step_scheduled_req_ids (list_to_set (map fst (num_scheduled_tokens l))));
  do! (if has_connector then on_collaborators (build_connector_meta out) else py_ret tt);
  update_after_schedule cfg out.

Definition fast_pass (timestamp : Z) : py Pass unit :=
  let! n := on_sched (py_gets (fun s => rq_len (waiting s))) in
  do! fast_loop n timestamp;
  put_back.

(** [schedule]; the base class reads the clock again. *)
Definition generation_schedule (timestamp base_timestamp : Z) : py Sched SchedulerOutput := fun s =>
  match fast_pass timestamp (s, init_locals cfg) with
  | Ret _ (s', l) =>
      match num_scheduled_tokens l with
      | [] => schedule cfg base_timestamp s'
      | _ => fast_finish l s'
      end
  | Raise e (s', _) => Raise e s'
  end.

(** ** The update *)

(** Draft tokens that were rejected; placeholders are not adjusted. *)
Definition generation_reject (o : Z) (scheduled_spec_token_ids : list Z) (num_generated : Z) : py Update unit :=
  let num_draft_tokens := Z.of_nat (length scheduled_spec_token_ids) in
  let num_accepted := num_generated - 1 in
  let num_rejected := num_draft_tokens - num_accepted in
  do! upd (update_object o (fun r =>
    if 0 <? num_computed_tokens r then set_num_computed_tokens (num_computed_tokens r - num_rejected) r else r));
  let! st := py_gets (fun p => spec_decoding_stats p.2) in
  let! st := py_lift (make_spec_decoding_stats cfg st num_draft_tokens num_accepted) in
  upd_locals (fun l => mkUpdateLocals (outputs l) st (stopped_running_reqs l) (stopped_preempted_reqs l)).

(** The row of the request in the model's output. *)
Definition generated_row (runner : ModelRunnerOutput) (req_index : nat) : py Update (list Z) :=
  match sampled_token_ids runner with
  | [] => py_ret []
  | l => py_unwrap IndexError (l !! req_index)
  end.
Definition pooled_row (runner : ModelRunnerOutput) (req_index : nat) : py Update (option Z) :=
  match pooler_output runner with
  | [] => py_ret None
  | l => py_unwrap IndexError (l !! req_index)
  end.

(** What is told to the client of a request that has ended. *)
Definition generation_report (runner : ModelRunnerOutput) (req_id : string) (o : Z) (new_token_ids : list Z)
    (pooled kv_transfer : option Z) : py Update unit :=
  let! r := upd (get_object o) in
  let! x := upd (py_gets collaborators) in
  do! (if negb (bool_decide (new_token_ids = [])) && should_advance r x
       then upd (on_collaborators (accept_tokens r new_token_ids)) else py_ret tt);
  do! (match runner_num_nans_in_logits runner with
       | Some d => match d !! req_id with
                   | Some n => upd (update_object o (set_num_nans n))
                   | None => py_ret tt
                   end
       | None => py_ret tt
       end);
  let prompt_logprobs := prompt_logprobs_dict runner !! req_id in
  let emits : bool := negb (bool_decide (new_token_ids = [])) || bool_decide (is_Some pooled)
                      || bool_decide (is_Some kv_transfer) in
  if emits then
    let! r := upd (get_object o) in
    let '(evs, r') := take_events r in
    do! upd (update_object o (fun _ => r'));
    emit_output (client_index (args r)) (mkEngineCoreOutput req_id new_token_ids (get_finished_reason r)
      prompt_logprobs pooled (stop_reason r) evs kv_transfer (num_cached_tokens r) (num_nans_in_logits r))
  else py_assert (bool_decide (prompt_logprobs = None)).

(** The request is finished by its first output, whatever it is. *)
Definition generation_update_live (out : SchedulerOutput) (runner : ModelRunnerOutput) (req_id : string) (o : Z)
    : py Update unit :=
  let! req_index := py_unwrap KeyError (req_id_to_index runner !! req_id) in
  let! generated := generated_row runner req_index in
  do! (match so_scheduled_spec_decode_tokens out !! req_id with
       | Some ((_ :: _) as spec) => generation_reject o spec (Z.of_nat (length generated))
       | _ => py_ret tt
       end);
  let! status_before_stop := upd (py_gets (fun s => status (object s o))) in
  let! pooled := pooled_row runner req_index in
  do! upd (update_object o (set_status FINISHED_STOPPED));
  let! kv_transfer := stop_request cfg o status_before_stop in
  generation_report runner req_id o generated pooled kv_transfer.

Definition generation_update_one (out : SchedulerOutput) (runner : ModelRunnerOutput) (failed : gset string)
    (e : string * Z) : py Update unit :=
  let '(req_id, num_tokens_scheduled) := e in
  do! py_assert (0 <? num_tokens_scheduled);
  if decide (req_id ∈ failed) then py_ret tt else
  let! s := upd py_get in
  match requests s !! req_id with
  | None => py_ret tt
  | Some o => generation_update_live out runner req_id o
  end.

Definition generation_update (out : SchedulerOutput) (runner : ModelRunnerOutput)
    : py Sched (list (Z * EngineCoreOutputs) * list KVCacheEvent) :=
  let! failed := failed_loads cfg runner in
  let! l := update_loop out (generation_update_one out runner failed) in
  close_update cfg runner l.
End generation.
