(* ===== verification/GenerationProofs.v ===== *)
(** The scheduler of one-step generation stages keeps the invariant of the scheduler:
    a pass with the fast path, and the update that ends every request of a batch. *)
From stdpp Require Import gmap strings list.
From Stdlib Require Import ZArith Lia.
From S2P Require Import Prelude Request RequestQueue EncoderCache BlockPool KVCacheManager SchedulerData Scheduler.
From S2P Require Import SchedulerInv SchedulerRun SchedulerUpdate OmniGeneration.
Open Scope Z_scope.

Section generation.
Context {Q : Type} {rq_ops : RequestQueue Q} {rq_laws : RequestQueueLaws Q}.
Context {X : Type} {co_ops : Collaborators X} {co_laws : CollaboratorsLaws X}.
Context (cfg : SchedulerConfig) (plain : plain_config cfg).
Context {K : Type} {kv_ops : KVCache K}.
Context {logs : bool} {kv_laws : KVCacheLaws K (max_model_len cfg) logs}.
Context (size : string -> Z) (size_nonneg : forall h, 0 <= size h).
Context (logs_on : scheduler_log_stats cfg = true -> logs = true).

Notation Sched := (Scheduler Q K X).
Notation Pass := (Scheduler Q K X * Locals Q)%type.
Notation Update := (Scheduler Q K X * UpdateLocals)%type.
Notation kv s := (kv_cache_manager s).
Notation encoder s := (encoder_cache_manager s).
Notation max_len := (max_model_len cfg).
Notation core := (core cfg size).
Notation sched_ok := (sched_ok cfg size).
Notation pass_ok := (pass_ok cfg size).
Notation req_ok := (req_ok cfg size).
Notation run_ok := (run_ok cfg size).
Notation update_inv := (update_inv cfg size).

(** ** The fast path *)

(** The object of a request that starts to run: only its status and events change. *)
Definition started_run (r r' : Request) : Prop :=
  args r' = args r /\ all_token_ids r' = all_token_ids r /\ output_token_ids r' = output_token_ids r /\
  status r' = RUNNING /\ num_computed_tokens r' = num_computed_tokens r /\
  num_prompt_tokens r' = num_prompt_tokens r /\ (req_ok r -> req_ok r').

Lemma started_intro (r : Request) (b : bool) ts :
  started_run r ((if b then record_event SCHEDULED ts else id) (set_status RUNNING r)).
Proof.
  destruct b; split_and!; try done; intros R; eapply req_ok_ext; try exact R; try done; apply R.
Qed.

(** How the locals of a pass change when [o] is scheduled for [n] tokens. *)
Definition booked (rid : string) (o n : Z) (b : KVCacheBlocks) (l : Locals Q) : Locals Q :=
  set_req_to_new_blocks (<[rid := b]> (req_to_new_blocks l))
 (set_num_scheduled_tokens (dict_set rid n (num_scheduled_tokens l))
 (set_token_budget (token_budget l - n)
 (set_scheduled_new_reqs (scheduled_new_reqs l ++ [o]) l))).

Lemma fast_admit_state (s : Sched) l a w' n ts b :
  rq_wf (waiting s) -> rq_iter (waiting s) = a :: w' ->
  wp (fast_admit cfg n ts b) (fun _ p => exists s' q, p = (s', booked (request_id a) (obj_id a) n b l) /\
    waiting s' = q /\ rq_wf q /\ rq_iter q = w' /\ running s' = running s ++ [obj_id a] /\
    kv s' = kv s /\ encoder s' = encoder s /\ quiet s s' /\
    started_run (object s (obj_id a)) (object s' (obj_id a)) /\
    forall x, x <> obj_id a -> object s' x = object s x) (s, l).
Proof.
  intros W Hit. unfold fast_admit. wp_step. apply wp_on_sched, wp_on_waiting. simpl.
  pose proof (law_pop (waiting s) W) as Hpop. rewrite Hit in Hpop. destruct Hpop as (q & Eq & Wq & Hq).
  unfold wp at 1. rewrite Eq. set (o := obj_id a).
  wp_step. apply wp_on_sched, wp_modify. wp_step. apply wp_on_sched, wp_modify. cbn [fst snd].
  set (s1 := set_running _ _). wp_step.
  set (f := if scheduler_log_stats cfg then record_event SCHEDULED ts else id).
  apply (wp_mono _ (fun _ p => exists s2, p = (s2, l) /\ wrote s1 o (f (set_status RUNNING (object s o))) s2)).
  { unfold f. destruct (scheduler_log_stats cfg).
    - apply wp_on_sched, wp_modify. cbn [fst snd]. eexists. split; [done|].
      eapply wrote_trans; [apply wrote_write|].
      pose proof (wrote_write (write_object o (set_status RUNNING) s1) o (record_event SCHEDULED ts)) as HW.
      by rewrite object_write, decide_True in HW.
    - apply wp_ret. cbn [fst snd]. eexists. split; [done|]. apply wrote_write. }
  intros _ p (s2 & -> & (m & -> & Hobj)). set (s2 := set_objects m s1) in *.
  pose proof (started_intro (object s o) (scheduler_log_stats cfg) ts) as HA. fold f in HA.
  assert (Hx : forall x, x <> o -> object s2 x = object s x) by (intros x Hx; by rewrite Hobj, decide_False).
  assert (Ho : started_run (object s o) (object s2 o)) by (by rewrite Hobj, decide_True).
  apply wp_modify. exists s2, q. split_and!; try done; try apply Ho.
  split; try done; intros x; (destruct (decide (x = o)) as [->|Hne]; [apply Ho|by rewrite Hx]).
Qed.

(** The head [a] of the queue, with its slots allocated in [k'], starts to run. *)
Lemma fast_admit_ok (s0 s : Sched) l a w' k' n ts b :
  let o := obj_id a in
  pass_ok s0 s l -> rq_iter (waiting s) = a :: w' ->
  Z.of_nat (length (running s)) < max_num_running_reqs cfg -> preempted_reqs l = [] ->
  kv_ok k' -> (forall i, i <> rid s o -> kv_none (kv s) i -> kv_none k' i) ->
  (forall i m, i <> rid s o -> kv_covers (kv s) i m -> kv_covers k' i m) ->
  kv_covers k' (rid s o) n -> 0 < n <= token_budget l -> n <= num_tokens (object s o) ->
  wp (fast_admit cfg n ts b) (fun _ p => pass_ok s0 p.1 p.2 /\ p.2 = booked (rid s o) o n b l /\
    running p.1 = running s ++ [o] /\ rq_iter (waiting p.1) = w' /\
    (forall x, num_prompt_tokens (object p.1 x) = num_prompt_tokens (object s x)) /\ rid s o ∉ (num_scheduled_tokens l).*1)
    (set_kv_cache_manager k' s, l).
Proof.
  intros o P Hit Hmax Hpre Hk Hnone Hcov Hown Hn Hle. pose proof (po_core _ _ _ _ _ P) as C.
  assert (a ∈ waits s l) as Ha by (unfold waits; rewrite Hit; set_solver).
  assert (o ∈ ids (waits s l)) as Ho by (by apply list_elem_of_fmap_2).
  assert (o ∈ running s ++ ids (waits s l)) as Hlive by (apply elem_of_app; by right).
  pose proof (co_wait _ _ _ _ C o Ho) as W. pose proof (co_ref _ _ _ _ C a Ha) as Ea.
  assert (request_id a = rid s o) as Er by (unfold rid, o; by rewrite Ea).
  assert (o ∉ running s) as Hnr by (intros Hr; by eapply running_not_waiting).
  assert (o ∉ scheduled l) as Hns by (intros Hx; by apply Hnr, (po_running _ _ _ _ _ P)).
  eapply wp_mono; [apply fast_admit_state; [apply P|exact Hit]|].
  intros _ p (s5 & q & -> & Hw & Wq & Hq & Hr & Hk5 & He & HQ & (A1 & A2 & A3 & A4 & A5 & A6 & A7) & Hx). fold o in Hr, A1, A2, A3, A4, A5, A6, A7, Hx |- *.
  change (object (set_kv_cache_manager k' s) o) with (object s o) in A1, A2, A3, A5, A6, A7.
  cbn [fst snd]. rewrite Er. set (l5 := booked _ _ _ _ _).
  assert (quiet s s5) as HQ' by (destruct HQ; by split). clear HQ.
  assert (waits s l ≡ₚ a :: waits s5 l5) as Hws.
  { unfold waits. rewrite Hit, Hw, Hq. done. }
  assert (forall x, x ∈ ids (waits s5 l5) -> x ∈ ids (waits s l)) as Hsub.
  { intros x Hin. rewrite (ids_perm _ _ Hws). by right. }
  split_and!; try done.
  2:{ by rewrite Hw. }
  2:{ intros x. destruct (decide (x = o)) as [->|Hne]; [done|by rewrite (Hx x Hne)]. }
  2:{ by eapply key_of_unscheduled. }
  apply (pass_book cfg plain size size_nonneg s0 s l s5 l5 o n b); try done; rewrite ?Hr, ?Hk5; simpl.
  - apply (core_change cfg size s (waits s l)); try done; rewrite ?Hr, ?Hk5, ?He; simpl; try done.
    + rewrite (ids_perm _ _ Hws). simpl. fold o. by rewrite <- app_assoc.
    + intros x Hin. apply C. rewrite Hws. by right.
    + intros x [Hin| ->]%elem_of_snoc; [by apply C|]. by eapply core_obj_id.
    + apply C.
    + intros x [Hin| ->]%elem_of_snoc.
      * rewrite Hx by (by intros ->). eapply run_ok_frame; [by apply C|]. intros m. apply Hcov.
        intros E. assert (x = o) as ->; [|done].
        eapply (core_unique cfg size s (waits s l)); [done|by apply running_live|done|done].
      * pose proof (wo_computed _ _ _ W) as H0.
        split; [done|apply A7, W|rewrite A5, H0; unfold num_tokens in *; rewrite A2; lia|].
        rewrite A1, A5, H0. eapply law_covers_le; [exact Hown|lia].
    + intros x Hin. assert (x <> o) as Hne.
      { intros ->. pose proof (co_nodup _ _ _ _ C) as Hnd. rewrite (ids_perm _ _ Hws) in Hnd. simpl in Hnd. fold o in Hnd.
        rewrite <- Permutation_middle in Hnd. apply NoDup_cons in Hnd as [Hnd _].
        apply Hnd, elem_of_app. by right. }
      rewrite Hx by done. by apply (co_wait _ _ _ _ C), Hsub.
    + intros i Hi. apply Hnone; [intros ->; apply (Hi o); [apply elem_of_snoc; by right|done]|].
      apply (co_idle _ _ _ _ C). intros x Hin. apply Hi, elem_of_snoc. by left.
    + rewrite length_app. simpl. lia.
  - by rewrite Hw.
  - apply P.
  - apply elem_of_snoc. by right.
  - intros x Hin. apply elem_of_snoc. by left.
  - by intros x Hin%elem_of_snoc.
  - intros H0. by destruct (po_new _ _ _ _ _ P Hpre o Ho).
  - exact Hcov.
  - unfold entry_ok. rewrite A5, Hk5, (quiet_rid _ _ _ HQ').
    rewrite (wo_computed _ _ _ W). unfold num_tokens in *. rewrite A2. split_and!; [lia|simpl; lia|done].
  - lia.
  - unfold scheduled. simpl. rewrite <- !app_assoc. simpl. rewrite !app_assoc. by rewrite <- Permutation_middle.
  - intros x Hin. by left.
Qed.

(** The fast path so far, started in [s0]: the requests it scheduled are the first of
    the queue, in its order, each for its whole prompt, and they run after those that
    ran before. *)
Record fast_inv (s0 s : Sched) (l : Locals Q) : Prop := mkFastInv {
  fi_pass : pass_ok s0 s l;
  fi_only : scheduled_running_reqs l = [] /\ scheduled_resumed_reqs l = [] /\ preempted_reqs l = [] /\
            skipped_waiting_requests l = rq_new;
  fi_running : running s = running s0 ++ scheduled_new_reqs l;
  fi_waiting : ids (rq_iter (waiting s0)) = scheduled_new_reqs l ++ ids (rq_iter (waiting s));
  fi_batch : num_scheduled_tokens l =
             map (fun o => (rid s0 o, required_tokens (object s0 o))) (scheduled_new_reqs l);
  fi_prompt : forall x, num_prompt_tokens (object s x) = num_prompt_tokens (object s0 x)
}.

Lemma prompt_le_tokens r : req_ok r -> required_tokens r <= num_tokens r.
Proof.
  intros R. destruct (rk_wf _ _ _ R) as (p & H1 & H2 & H3). pose proof (rk_some _ _ _ R).
  unfold required_tokens, num_tokens in *. rewrite H3, length_app in *. lia.
Qed.

Lemma fast_step_ok (s0 s : Sched) l a w' ts :
  fast_inv s0 s l -> rq_iter (waiting s) = a :: w' -> Z.of_nat (length (running s)) < max_num_running_reqs cfg ->
  wp (fast_step cfg ts) (fun f p => fast_inv s0 p.1 p.2 /\ scheduled_new_reqs l `prefix_of` scheduled_new_reqs p.2 /\
    match f with
    | Continue => rq_iter (waiting p.1) = w' /\ scheduled_new_reqs p.2 <> []
    | Break => ~ (required_tokens (object s (obj_id a)) <= token_budget l /\ kv_fits /\ running s = [])
    end) (s, l).
Proof.
  intros [P (O1 & O2 & O3 & O4) Hr Hw Hb Hp] Hit Hmax. pose proof (po_core _ _ _ _ _ P) as C. set (o := obj_id a).
  assert (a ∈ waits s l) as Ha by (unfold waits; rewrite Hit; set_solver).
  assert (o ∈ ids (waits s l)) as Ho by (by apply list_elem_of_fmap_2).
  pose proof (co_wait _ _ _ _ C o Ho) as W. pose proof (wo_req _ _ _ W) as R. pose proof (wo_computed _ _ _ W) as H0.
  assert (o ∉ running s) as Hnr by (intros Hin; by eapply running_not_waiting).
  assert (forall x, x ∈ running s -> rid s x <> rid s o) as Hne.
  { intros x Hx E. apply Hnr. assert (x = o) as <-; [|done].
    eapply (core_unique cfg size s (waits s l)); [done|by apply running_live|apply elem_of_app; by right|done]. }
  assert (kv_none (kv s) (rid s o)) as Hidle by (apply (co_idle _ _ _ _ C); intros x Hx; by apply Hne).
  pose proof (prompt_le_tokens _ R) as Hle. pose proof (rk_len _ _ _ R) as Hlen.
  unfold fast_step. wp_step. apply wp_on_sched, wp_on_waiting. simpl.
  pose proof (law_peek (waiting s) (proj1 (po_wf _ _ _ _ _ P))) as Hpk. rewrite Hit in Hpk. unfold wp at 1. rewrite Hpk.
  assert (forall q, q = waiting s -> set_waiting q s = s) as Eset by (intros q ->; by destruct s).
  rewrite Eset by done. clear Eset. wp_step. apply wp_on_sched, wp_gets. wp_step. wp_step. cbn [fst snd]. fold o.
  destruct (Z.ltb_spec (token_budget l) (required_tokens (object s o))) as [Hbud|Hbud].
  { apply wp_ret. cbn [fst snd]. split_and!; try done. intros (? & _). lia. }
  wp_step. apply wp_on_sched, wp_on_kv. cbn [fst snd]. rewrite (pc_lookahead _ plain).
  eapply wp_mono; [apply (law_allocate (kv s) (object s o)); try done; try lia|].
  { apply C. }
  { apply R. }
  { unfold required_tokens. lia. }
  { rewrite H0. by apply law_none_covers; [apply C|]. }
  intros res k' (Hk & Hkn & Hkc & Hres). rewrite H0 in Hres. fold (rid s o) in *. destruct res as [b|].
  - wp_step. eapply wp_mono; [apply (fast_admit_ok s0 s l a w' k'); try done; unfold required_tokens in *; lia|].
    fold o. intros _ [s1 l1] (P1 & El & Hr1 & Hw1 & Hp1 & Hkey). cbn [fst snd] in *. subst l1. apply wp_ret. cbn [fst snd].
    split_and!; simpl; try done; [|by apply prefix_app_r|by destruct (scheduled_new_reqs l)].
    split; simpl; try done.
    + by rewrite Hr1, Hr, app_assoc.
    + rewrite Hw, Hit, Hw1. unfold ids. simpl. fold o. by rewrite <- app_assoc.
    + rewrite dict_set_new by done. rewrite Hb, map_app. simpl.
      rewrite (quiet_rid _ _ o (po_quiet _ _ _ _ _ P)). unfold required_tokens. by rewrite Hp.
    + intros x. by rewrite Hp1.
  - destruct Hres as (Hcov & Hstay & Hfit). apply wp_ret. cbn [fst snd]. split_and!; try done.
    + split; try done. apply (pass_kv_all cfg size s0 s l k'); try done.
      * intros i Hi. destruct (decide (i = rid s o)) as [->|Hd].
        -- by apply Hstay.
        -- apply Hkn; [done|]. by apply (co_idle _ _ _ _ C).
      * intros x n Hx. apply Hkc. by apply Hne.
    + intros (_ & Hf & Hnil). apply Hfit. split; [done|]. intros i Hi. apply (co_idle _ _ _ _ C). rewrite Hnil.
      intros x Hx. by apply not_elem_of_nil in Hx.
Qed.

Lemma fast_loop_ok fuel (s0 s : Sched) l ts :
  fast_inv s0 s l -> (length (rq_iter (waiting s)) <= fuel)%nat ->
  wp (fast_loop cfg fuel ts) (fun _ p => fast_inv s0 p.1 p.2 /\ scheduled_new_reqs l `prefix_of` scheduled_new_reqs p.2 /\
    (forall a w', rq_iter (waiting s) = a :: w' -> running s = [] -> 0 < max_num_running_reqs cfg -> kv_fits ->
       required_tokens (object s (obj_id a)) <= token_budget l -> scheduled_new_reqs p.2 <> [])) (s, l).
Proof.
  revert s l. induction fuel as [|fuel IH]; intros s l F Hf; pose proof (fi_pass _ _ _ F) as P; simpl; wp_step; wp_step;
    destruct (po_wf _ _ _ _ _ P) as [W1 _]; rewrite (law_bool _ W1);
    destruct (rq_iter (waiting s)) as [|a w'] eqn:Hit; simpl in Hf; try lia; simpl; try (apply wp_ret; by split_and!).
  destruct (Z.ltb_spec 0 (token_budget l)) as [Hb|Hb]; simpl.
  2:{ apply wp_ret. split_and!; try done. intros a' ? _ _ _ _. unfold required_tokens. lia. }
  destruct (Z.ltb_spec (Z.of_nat (length (running s))) (max_num_running_reqs cfg)) as [Hm|Hm].
  2:{ apply wp_ret. split_and!; try done. intros a' ? _ Hnil. rewrite Hnil in Hm. simpl in Hm. lia. }
  wp_step. eapply wp_mono; [by apply (fast_step_ok s0 s l a w')|].
  intros f [s1 l1] (F1 & Hpf & Hf1). cbn [fst snd] in *. destruct f.
  - destruct Hf1 as [Hw1 Hne]. eapply wp_mono; [apply (IH s1 l1); [done|rewrite Hw1; lia]|].
    intros _ [s2 l2] (F2 & Hpf2 & _). cbn [fst snd] in *. split_and!; [done|by etransitivity|].
    intros _ _ _ _ _ _ _ E. rewrite E in Hpf2. by apply prefix_nil_inv in Hpf2.
  - apply wp_ret. cbn [fst snd]. split_and!; try done. intros a' w'' [= <- <-] Hnil _ Hfit Hreq _.
    by apply Hf1.
Qed.

Lemma init_fast s : sched_ok s -> fast_inv s s (init_locals cfg).
Proof.
  intros HS. destruct (init_pass_ok cfg plain size s HS) as [P _]. split; try done. simpl. by rewrite app_nil_r.
Qed.

Lemma fast_put_back (s : Sched) l : skipped_waiting_requests l = rq_new -> put_back (s, l) = Ret tt (s, l).
Proof.
  intros E. unfold put_back, get_locals, py_bind, py_gets. simpl. rewrite E.
  destruct (law_new (Q := Q)) as [Wn En]. by rewrite (law_bool _ Wn), En.
Qed.

Lemma fast_pass_ok s ts :
  sched_ok s ->
  wp (fast_pass cfg ts) (fun _ p => fast_inv s p.1 p.2 /\
    (forall a w', rq_iter (waiting s) = a :: w' -> running s = [] -> 0 < max_num_running_reqs cfg -> kv_fits ->
       required_tokens (object s (obj_id a)) <= max_num_scheduled_tokens cfg -> scheduled_new_reqs p.2 <> []))
    (s, init_locals cfg).
Proof.
  intros HS. unfold fast_pass. wp_step. apply wp_on_sched, wp_gets. cbn [fst snd]. wp_step.
  eapply wp_mono; [apply (fast_loop_ok _ s s); [by apply init_fast|by rewrite (law_len _ (sk_wf _ _ _ HS))]|].
  intros _ [s1 l1] (F & _ & Hp). cbn [fst snd] in *. unfold wp. by rewrite (fast_put_back s1 l1) by apply F.
Qed.

(** The end of the fast path is the end of a pass of the base class, whose checks
    hold. *)
Lemma fast_finish_eq (s0 s : Sched) l : fast_inv s0 s l -> fast_finish cfg l s = finish_pass cfg l s.
Proof.
  intros [P (O1 & O2 & O3 & O4) _ _ _ _]. pose proof (po_budget _ _ _ _ _ P) as [B1 B2].
  pose proof (scheduled_count _ _ _ _ _ P) as Hcount. pose proof (co_max _ _ _ _ (po_core _ _ _ _ _ P)) as Hmax.
  unfold finish_pass, fast_finish, py_get. unfold py_bind at 1. unfold py_bind at 7. fold (total (num_scheduled_tokens l)).
  rewrite O1, O2, O3 in *. simpl length in *.
  rewrite (proj2 (Z.leb_le (total _) _)) by lia. rewrite (proj2 (Z.leb_le 0 _)) by lia.
  rewrite (proj2 (Z.leb_le (Z.of_nat (length (running s))) _)) by lia. rewrite (proj2 (Z.leb_le _ _)) by lia.
  rewrite app_nil_r. assert ((if use_v2_model_runner cfg then [] else []) = @nil Z) as -> by (by destruct (use_v2_model_runner cfg)).
  replace (if use_v2_model_runner cfg then scheduled_new_reqs l else scheduled_new_reqs l) with (scheduled_new_reqs l)
    by (by destruct (use_v2_model_runner cfg)).
  unfold py_assert, py_ret, py_bind. simpl.
  match goal with |- match ?m with _ => _ end = _ => destruct m as [common s1|] end; [|done].
  destruct (py_map _ _ s1) as [news s2|]; [|done]. done.
Qed.

(** *** The whole pass *)

(** A pass that has scheduled nobody leaves the invariant of the state between passes,
    and a pass after it is a pass from the state before. *)
Lemma idle_pass_ok s0 s l :
  sched_ok s0 -> fast_inv s0 s l -> sched_ok s /\
  forall out s', pass_result cfg s out s' -> pass_result cfg s0 out s'.
Proof.
  intros HS0 [P (O1 & O2 & O3 & O4) Hrun _ _ _]. destruct (law_new (Q := Q)) as [Wn En].
  assert (waits s l = rq_iter (waiting s)) as Ew by (unfold waits; by rewrite O4, En, app_nil_r).
  split.
  - split; [rewrite <- Ew; apply P|apply P|]. rewrite <- Ew. by apply (po_prev _ _ _ _ _ P).
  - intros out s' [R1 R2 R3 R4 R5 R6 R7 R8]. destruct (po_quiet _ _ _ _ _ P) as [Q1 Q2 Q3 Q4 Q5 Q6].
    split; try done.
    + congruence.
    + intros o. rewrite <- Q4, <- Q5, <- Q6. apply R2.
    + by rewrite <- Q3.
    + intros Hr. apply R7. rewrite <- Ew. by apply P.
    + intros o Ho Ho0. assert (o ∈ running s) as Ho1 by (rewrite Hrun; apply elem_of_app; by left).
      rewrite <- (po_same _ _ _ _ _ P o Ho1 Ho0). by apply R8.
Qed.

(** The batch of the fast path: the first requests of the queue with their whole prompts. *)
Definition fast_batch (s : Sched) (out : SchedulerOutput) (s' : Sched) : Prop :=
  exists os rest, os <> [] /\ ids (rq_iter (waiting s)) = os ++ rest /\ running s' = running s ++ os /\
    so_num_scheduled_tokens out = map (fun o => (rid s o, required_tokens (object s o))) os.

(** The first waiting request fits in the batch and in memory. *)
Definition head_fits (s : Sched) : Prop :=
  running s = [] /\ 0 < max_num_running_reqs cfg /\ kv_fits /\
  exists a w', rq_iter (waiting s) = a :: w' /\ required_tokens (object s (obj_id a)) <= max_num_scheduled_tokens cfg.

Lemma generation_schedule_ok s ts ts' :
  sched_ok s ->
  wp (generation_schedule cfg ts ts') (fun out s' => sched_ok s' /\ pass_result cfg s out s' /\
    (fast_batch s out s' \/ exists s1, sched_ok s1 /\ running s1 = running s /\
       ids (rq_iter (waiting s1)) = ids (rq_iter (waiting s)) /\ schedule cfg ts' s1 = Ret out s') /\
    (head_fits s -> fast_batch s out s')) s.
Proof.
  intros HS. pose proof (fast_pass_ok s ts HS) as Hw.
  apply wp_iff in Hw as ([] & [s1 l1] & E & F & Hprog). cbn [fst snd] in *. unfold wp, generation_schedule. rewrite E.
  pose proof F as [P (O1 & O2 & O3 & O4) Hr Hwt Hb Hp].
  destruct (num_scheduled_tokens l1) as [|e d] eqn:En.
  - destruct (scheduled_new_reqs l1) as [|o os] eqn:Eo; [|done]. destruct (idle_pass_ok s s1 l1 HS F) as [HS1 Hres].
    pose proof (schedule_ok cfg plain size size_nonneg s1 ts' HS1) as (out & s' & E1 & HS' & HR & _)%wp_iff. rewrite E1.
    split_and!; try done; [by apply Hres| |].
    + right. exists s1. rewrite Hr, Hwt. simpl. by rewrite app_nil_r.
    + intros (H1 & H2 & H3 & a & w' & H4 & H5). by destruct (Hprog a w' H4 H1 H2 H3 H5).
  - rewrite <- En in *. rewrite (fast_finish_eq s s1 l1 F).
    assert (clear_skipped l1 = l1) as Ecl by (unfold clear_skipped; destruct l1; simpl in *; by subst).
    pose proof (finish_pass_ok cfg plain size size_nonneg s s1 l1 ltac:(by rewrite Ecl)) as (out & s' & E1 & HS' & HR & Ens & Er & _)%wp_iff.
    rewrite E1. assert (fast_batch s out s') as HF.
    { exists (scheduled_new_reqs l1), (ids (rq_iter (waiting s1))). split_and!; try done.
      - intros Hnil. rewrite Hb, Hnil in En. done.
      - by rewrite Er.
      - by rewrite Ens. }
    split_and!; try done. by left.
Qed.

(** ** The update *)

(** What the model returns for a scheduled request: a row, and prompt logprobs only
    with a result. *)
Record generation_row_ok (runner : ModelRunnerOutput) (i : string) (idx : nat) : Prop := mkGenerationRowOk {
  gr_index : req_id_to_index runner !! i = Some idx;
  gr_sampled : sampled_token_ids runner <> [] -> is_Some (sampled_token_ids runner !! idx);
  gr_pooled : pooler_output runner <> [] -> is_Some (pooler_output runner !! idx);
  gr_logprobs : is_Some (prompt_logprobs_dict runner !! i) -> produces runner i
}.
Record generation_runner_ok (s : Sched) (out : SchedulerOutput) (runner : ModelRunnerOutput) : Prop := mkGenerationRunnerOk {
  gu_connector : kv_connector_output runner = None;
  gu_row : forall i n o, (i, n) ∈ so_num_scheduled_tokens out -> requests s !! i = Some o ->
             exists idx, generation_row_ok runner i idx
}.
(** The tokens of the row of [i]. *)
Definition row_of_request (runner : ModelRunnerOutput) (i : string) : list Z :=
  default [] (req_id_to_index runner !! i ≫= fun idx => sampled_token_ids runner !! idx).

Definition drop_outputs (l : UpdateLocals) : UpdateLocals :=
  mkUpdateLocals [] (spec_decoding_stats l) (stopped_running_reqs l) (stopped_preempted_reqs l).

(** The loop of the update, started in [s0]: the live requests of [seen] have stopped
    and their rows are in the outputs; nothing else has changed. *)
Record generation_inv (runner : ModelRunnerOutput) (s0 : Sched) (seen : list string) (s : Sched) (l : UpdateLocals)
    : Prop := mkGenerationInv {
  gi_update : update_inv runner s0 seen nothing s (drop_outputs l);
  gi_rest : forall o, o ∉ stopped l -> object s o = object s0 o;
  gi_stop : forall i o, requests s0 !! i = Some o -> o ∈ stopped l <-> i ∈ seen;
  gi_status : forall o, o ∈ stopped l -> status (object s o) = FINISHED_STOPPED;
  gi_sent : forall i, emitted i (outputs l) =
              if decide (i ∈ seen /\ is_Some (requests s0 !! i)) then row_of_request runner i else []
}.

Lemma generation_init runner s0 :
  core s0 (rq_iter (waiting s0)) -> generation_inv runner s0 [] s0 (mkUpdateLocals [] None ∅ ∅).
Proof.
  intros C. split; try done.
  - split; simpl; try done.
    + rewrite !filter_all by (intros; set_solver). by apply core_at_running.
    + intros i o Hi. unfold grown. by rewrite !app_nil_r.
    + intros i o Hi%not_elem_of_nil. done.
  - intros i o _. unfold stopped. simpl. split; [set_solver|by intros ?%not_elem_of_nil].
Qed.

(** [stop_request] does not look at the outputs. *)
Lemma stop_request_outputs (P : option Z -> Update -> Prop) o st (s : Sched) l :
  wp (stop_request cfg o st) (fun x p => P x (p.1, drop_outputs p.2)) (s, drop_outputs l) ->
  wp (stop_request cfg o st) (fun x p => P x (p.1, drop_outputs p.2) /\ outputs p.2 = outputs l) (s, l).
Proof.
  unfold stop_request, upd, py_zoom, upd_locals, py_modify, py_ret, py_bind, wp. simpl.
  destruct (free_request cfg o s) as [x s'|]; [|done]. simpl. by case_decide.
Qed.

Lemma generation_stop_ok runner s0 seen s l i o :
  core s0 (rq_iter (waiting s0)) -> generation_inv runner s0 seen s l -> i ∉ seen -> requests s !! i = Some o ->
  wp (do! upd (update_object o (set_status FINISHED_STOPPED)); stop_request cfg o (status (object s o)))
    (fun x p => x = None /\ update_inv runner s0 seen nothing p.1 (drop_outputs p.2) /\
       stopped p.2 = {[o]} ∪ stopped l /\ outputs p.2 = outputs l /\
       object p.1 o = set_status FINISHED_STOPPED (object s o) /\ forall x, x <> o -> object p.1 x = object s x) (s, l).
Proof.
  intros C [U G1 G2 G3 G4] Hi Ho. wp_step. apply wp_upd. wp_step. cbn [fst snd].
  set (s1 := write_object o _ s).
  eapply wp_mono.
  { apply (stop_request_outputs (fun x p => x = None /\ update_inv runner s0 seen (only i []) p.1 p.2 /\
      stopped p.2 = {[o]} ∪ stopped l /\ objects p.1 = objects s1)).
    eapply wp_mono; [eapply (stop_request_ok cfg size size_nonneg runner s0 seen s (drop_outputs l) i o); try done|].
    - apply wrote_write.
    - unfold grown. by rewrite !app_nil_r.
    - done.
    - intros x [s2 l2] (E1 & U2 & E2 & E3 & E4). cbn [fst snd] in *. split_and!; try done.
      assert (drop_outputs l2 = l2) as -> by (destruct l2; simpl in *; by subst). done. }
  intros x [s2 l2] [(-> & U2 & E2 & E4) E3]. cbn [fst snd] in *.
  assert (forall x, object s2 x = object s1 x) as Hobj by (intros x; unfold object; by rewrite E4).
  split_and!; try done.
  - destruct U2 as [A1 A2 A3 A4 A5 A6 A7 A8 A9]. split; try done. intros j x Hx. specialize (A5 j x Hx).
    unfold only, nothing in *. by case_decide.
  - rewrite Hobj. unfold s1. by rewrite object_write, decide_True.
  - intros x Hx. rewrite Hobj. unfold s1. by rewrite object_write, decide_False.
Qed.

(** Reporting a stopped request: only its events and counters change. *)
Lemma generation_report_ok runner s0 seen (s : Sched) l i o gen pooled :
  update_inv runner s0 seen nothing s (drop_outputs l) -> emitted i (outputs l) = [] ->
  (is_Some (prompt_logprobs_dict runner !! i) -> gen <> [] \/ is_Some pooled) ->
  wp (generation_report runner i o gen pooled None) (fun _ p =>
    update_inv runner s0 seen nothing p.1 (drop_outputs l) /\ drop_outputs p.2 = drop_outputs l /\
    (forall x, x <> o -> object p.1 x = object s x) /\ status (object p.1 o) = status (object s o) /\
    forall j, emitted j (outputs p.2) = emitted j (outputs l) ++ only i gen j) (s, l).
Proof.
  intros U Hem Hlog. unfold generation_report. wp_step. apply wp_upd. wp_step. wp_step. apply wp_upd. wp_step. cbn [fst snd]. wp_step.
  set (I := fun s1 : Sched => update_inv runner s0 seen nothing s1 (drop_outputs l) /\
    (forall x, x <> o -> object s1 x = object s x) /\ status (object s1 o) = status (object s o)).
  assert (forall f s1, inert f -> I s1 -> I (write_object o f s1)) as Hwrite.
  { intros f s1 Hf (H1 & H2 & H3). split_and!; [by apply update_inv_inert| |].
    - intros x Hx. rewrite object_write, decide_False by done. by apply H2.
    - rewrite object_write, decide_True by done. rewrite <- H3. apply Hf. }
  apply (wp_mono _ (fun _ p => p.2 = l /\ I p.1)).
  { destruct (should_advance (object s o) (collaborators s)) eqn:Ea; [|rewrite andb_false_r; by apply wp_ret].
    destruct (law_accept _ gen _ Ea) as [x' Hx]. case_bool_decide; simpl; [by apply wp_ret|].
    apply wp_upd. unfold on_collaborators. apply wp_zoom. unfold wp. cbn [fst snd]. rewrite Hx. split; [done|].
    split_and!; try done. by apply update_inv_collaborators. }
  intros _ [s1 l1] [El I1]. cbn [fst snd] in El, I1. subst l1. wp_step. apply (wp_mono _ (fun _ p => p.2 = l /\ I p.1)).
  { destruct (runner_num_nans_in_logits runner) as [d|]; [|by apply wp_ret]. destruct (d !! i) as [n|]; [|by apply wp_ret].
    apply wp_upd. wp_step. split; [done|]. cbn [fst snd]. apply Hwrite; [|done]. intros r. unfold grown. by rewrite !app_nil_r. }
  intros _ [s2 l2] [El I2]. cbn [fst snd] in El, I2. subst l2. rewrite (bool_decide_false (is_Some None)) by (by destruct 1).
  rewrite orb_false_r. destruct (negb (bool_decide (gen = [])) || bool_decide (is_Some pooled)) eqn:Ee.
  - wp_step. apply wp_upd. wp_step. cbn [fst snd]. unfold take_events.
    assert (exists evs, (match events (object s2 o) with [] => (None, object s2 o) | ev => (Some ev, set_events [] (object s2 o)) end) =
       (evs, set_events [] (object s2 o))) as [evs Eev].
    { destruct (events (object s2 o)) eqn:E; eexists; [|done]. f_equal. unfold set_events. rewrite <- E. by destruct (object s2 o). }
    rewrite Eev. wp_step. apply wp_upd. wp_step. cbn [fst snd]. unfold emit_output, upd_locals. wp_step. cbn [fst snd].
    change (write_object o (fun _ : Request => set_events [] (object s2 o)) s2) with (write_object o (set_events []) s2).
    destruct (Hwrite (set_events []) s2) as (H1 & H2 & H3); [intros r; unfold grown; by rewrite !app_nil_r|done|].
    split_and!; try done. intros j. simpl. rewrite emitted_more; simpl.
    + unfold only. f_equal. repeat case_decide; congruence.
    + by intros <-.
  - apply orb_false_iff in Ee as [E1%negb_false_iff%bool_decide_eq_true E2%bool_decide_eq_false]. subst gen.
    assert (prompt_logprobs_dict runner !! i = None) as Elog.
    { destruct (prompt_logprobs_dict runner !! i); [|done]. by destruct Hlog as [?|?]. }
    apply wp_assert; [by rewrite Elog|]. cbn [fst snd]. destruct I2 as (H1 & H2 & H3). split_and!; try done.
    intros j. unfold only. case_decide; by rewrite app_nil_r.
Qed.

Lemma generation_live_ok runner out s0 seen s l i idx o :
  core s0 (rq_iter (waiting s0)) -> so_scheduled_spec_decode_tokens out = ∅ -> generation_row_ok runner i idx ->
  generation_inv runner s0 seen s l -> i ∉ seen -> requests s !! i = Some o ->
  wp (generation_update_live cfg out runner i o) (fun _ p => generation_inv runner s0 (seen ++ [i]) p.1 p.2) (s, l).
Proof.
  intros C Espec [R1 R2 R3 R4] G Hi Ho. pose proof G as [U G1 G2 G3 G4].
  destruct (update_live_in cfg size _ _ _ _ _ _ _ _ C U Ho) as (_ & Hns & _ & H0 & _).
  change (stopped (drop_outputs l)) with (stopped l) in Hns.
  assert (emitted i (outputs l) = []) as Hem by (rewrite G4, decide_False; [done|by intros [? _]]).
  unfold generation_update_live. wp_step. eapply wp_unwrap; [exact R1|]. wp_step. unfold generated_row.
  apply (wp_mono _ (fun gen p => p = (s, l) /\ gen = row_of_request runner i)).
  { unfold row_of_request. rewrite R1. simpl. destruct (sampled_token_ids runner) as [|row rows] eqn:Es; [by apply wp_ret|].
    destruct R2 as [g Hg]; [done|]. rewrite Hg. by eapply wp_unwrap. }
  intros gen ? (-> & Egen). rewrite Espec, lookup_empty. wp_step. apply wp_ret. wp_step. apply wp_upd. wp_step. cbn [fst snd].
  wp_step. unfold pooled_row.
  apply (wp_mono _ (fun pooled p => p = (s, l) /\ forall d, pooler_output runner !! idx = Some (Some d) -> is_Some pooled)).
  { destruct (pooler_output runner) as [|row rows] eqn:Es; [by apply wp_ret|]. destruct R3 as [g Hg]; [done|].
    eapply wp_unwrap; [exact Hg|]. split; [done|]. intros d Hd. rewrite Hg in Hd. injection Hd as ->. by eexists. }
  intros pooled ? (-> & Hpool). apply wp_assoc. wp_step.
  eapply wp_mono; [by apply (generation_stop_ok runner s0 seen s l i o)|].
  intros x [s1 l1] (-> & U1 & ES & Eout & Eo & Hx). cbn [fst snd] in *.
  eapply wp_mono; [apply (generation_report_ok runner s0 seen s1 l1 i o gen pooled); [done|by rewrite Eout|]|].
  { intros Hlog. destruct (R4 Hlog) as (idx' & E & Hp). assert (idx' = idx) as -> by congruence.
    destruct Hp as [(t & ts & Ht)|[d Hd]]; [left|right; by eapply Hpool]. rewrite Egen. unfold row_of_request. rewrite R1. simpl. by rewrite Ht. }
  intros _ [s2 l2] (U2 & El & Hx2 & Hst & Hsent). cbn [fst snd] in *.
  assert (stopped l2 = {[o]} ∪ stopped l) as ES2 by (change (stopped (drop_outputs l2) = {[o]} ∪ stopped l); by rewrite El).
  assert (forall j x, requests s0 !! j = Some x -> x ∈ stopped l2 <-> j ∈ seen ++ [i]) as Hseen.
  { intros j x Hj. rewrite ES2, elem_of_union, elem_of_singleton, elem_of_snoc, (G2 j x Hj). split.
    - intros [->|?]; [right|by left]. apply (co_requests _ _ _ _ C) in Hj as [_ <-]. by apply (co_requests _ _ _ _ C) in H0 as [_ ?].
    - intros [?| ->]; [by right|left]. congruence. }
  split.
  - rewrite El. destruct U2 as [A1 A2 A3 A4 A5 A6 A7 A8 A9]. split; try done.
    intros j x Hj Hx0 _. left. rewrite <- El. by apply (Hseen j x).
  - intros x Hn. rewrite ES2 in Hn. rewrite Hx2, Hx by set_solver. apply G1. set_solver.
  - exact Hseen.
  - intros x Hin. rewrite ES2 in Hin. destruct (decide (x = o)) as [->|Hne].
    + by rewrite Hst, Eo.
    + rewrite Hx2, Hx by done. apply G3. set_solver.
  - intros j. rewrite Hsent, Eout, G4. unfold only. destruct (decide (j = i)) as [->|Hne].
    + rewrite decide_False by (by intros [? _]). rewrite decide_True; [by rewrite Egen|]. split; [apply elem_of_snoc; by right|by eexists].
    + rewrite app_nil_r. apply decide_ext. rewrite elem_of_snoc. naive_solver.
Qed.

Lemma generation_loop_ok runner out s0 :
  core s0 (rq_iter (waiting s0)) -> so_scheduled_spec_decode_tokens out = ∅ -> generation_runner_ok s0 out runner ->
  NoDup (so_num_scheduled_tokens out).*1 -> (forall i n, (i, n) ∈ so_num_scheduled_tokens out -> 0 < n) ->
  wp (py_for (so_num_scheduled_tokens out) (generation_update_one cfg out runner ∅))
    (fun _ p => generation_inv runner s0 (so_num_scheduled_tokens out).*1 p.1 p.2)
    (s0, mkUpdateLocals [] None ∅ ∅).
Proof.
  intros C Espec HRun Hnd Hpos. set (d := so_num_scheduled_tokens out) in *.
  apply (wp_for (generation_update_one cfg out runner ∅) (fun seen p => generation_inv runner s0 seen.*1 p.1 p.2) d []).
  - by apply generation_init.
  - intros pre [i n] post [s l] Ed G. simpl in *. rewrite fmap_app. simpl.
    assert ((i, n) ∈ d) as Hin by (rewrite Ed; set_solver).
    assert (i ∉ pre.*1) as Hi.
    { rewrite Ed, fmap_app in Hnd. apply NoDup_app in Hnd as (_ & Hd & _). intros Hpre. apply (Hd i Hpre). left. }
    unfold generation_update_one. wp_step. apply wp_assert; [by apply Z.ltb_lt, (Hpos i)|].
    rewrite decide_False by apply not_elem_of_empty. wp_step. apply wp_upd. wp_step. cbn [fst snd].
    pose proof (requests_after cfg size runner s0 pre.*1 s (drop_outputs l) i) as Hafter.
    change (stopped (drop_outputs l)) with (stopped l) in Hafter. pose proof G as [U G1 G2 G3 G4].
    destruct (requests s !! i) as [o|] eqn:Eo.
    + destruct (proj1 (Hafter o C U) eq_refl) as [H0 _]. destruct (gu_row _ _ _ HRun i n o Hin H0) as [idx HR].
      by eapply generation_live_ok.
    + assert (requests s0 !! i = None) as H0.
      { destruct (requests s0 !! i) as [o|] eqn:E0; [|done]. assert (o ∉ stopped l) as Hns by (by rewrite (G2 i o E0)).
        by discriminate (proj2 (Hafter o C U) (conj eq_refl Hns)). }
      apply wp_ret. cbn [fst snd]. split; try done.
      * destruct U as [A1 A2 A3 A4 A5 A6 A7 A8 A9]. split; try done. intros j x [Hj| ->]%elem_of_snoc Hx Hp; [by apply (A9 j)|congruence].
      * intros j x Hx. rewrite elem_of_snoc, (G2 j x Hx). split; [by left|]. intros [?| ->]; [done|congruence].
      * intros j. rewrite G4. apply decide_ext. rewrite elem_of_snoc. split; [naive_solver|].
        intros [[?| ->] [x Hx]]; [naive_solver|congruence].
Qed.

(** What the update does to the live requests and tells their clients. *)
Record generation_result (s : Sched) (out : SchedulerOutput) (runner : ModelRunnerOutput)
    (d : list (Z * EngineCoreOutputs)) (s' : Sched) : Prop := mkGenerationResult {
  gx_done : forall i n o, (i, n) ∈ so_num_scheduled_tokens out -> requests s !! i = Some o ->
    requests s' !! i = None /\ status (object s' o) = FINISHED_STOPPED /\ delivered i d = row_of_request runner i;
  gx_rest : forall i o, i ∉ (so_num_scheduled_tokens out).*1 -> requests s !! i = Some o ->
    requests s' !! i = Some o /\ object s' o = object s o /\ delivered i d = [];
  gx_requests : requests s' ⊆ requests s;
  gx_running : running s' = filter (fun o => rid s o ∉ (so_num_scheduled_tokens out).*1) (running s)
}.

Lemma generation_update_ok s out runner :
  sched_ok s -> so_scheduled_spec_decode_tokens out = ∅ -> generation_runner_ok s out runner ->
  NoDup (so_num_scheduled_tokens out).*1 -> (forall i n, (i, n) ∈ so_num_scheduled_tokens out -> 0 < n) ->
  wp (generation_update cfg out runner) (fun res s' => sched_ok s' /\ generation_result s out runner res.1 s') s.
Proof.
  intros HS Espec HRun Hnd Hpos. pose proof (sk_core _ _ _ HS) as C.
  pose proof (generation_loop_ok runner out s C Espec HRun Hnd Hpos) as ([] & [s1 l] & EL & [U G1 G2 G3 G4])%wp_iff.
  cbn [fst snd] in *. unfold generation_update, failed_loads. rewrite (gu_connector _ _ _ HRun). wp_step. apply wp_ret. wp_step.
  unfold update_loop. unfold wp at 1. rewrite EL.
  eapply wp_mono; [eapply (close_update_ok cfg size logs_on runner s _ s1 l (drop_outputs l)); try done; apply HRun|].
  intros res s5 (HS5 & Er & Eq & Eo & Hdel). split; [done|].
  assert (Hobj : forall o, object s5 o = object s1 o) by (intros o; unfold object; by rewrite Eo).
  change (stopped (drop_outputs l)) with (stopped l) in *.
  assert (Hreq : forall i o, requests s5 !! i = Some o <-> requests s !! i = Some o /\ o ∉ stopped l).
  { intros i o. rewrite Eq. by eapply (requests_after cfg size runner s _ s1 (drop_outputs l)). }
  split.
  - intros i n o Hin Ho. assert (i ∈ (so_num_scheduled_tokens out).*1) as Hi by (change i with (i, n).1; by apply list_elem_of_fmap_2).
    assert (o ∈ stopped l) as Hs by (by apply (G2 i)). split_and!.
    + destruct (requests s5 !! i) as [x|] eqn:E; [|done]. apply Hreq in E as [E Hx]. congruence.
    + rewrite Hobj. by apply G3.
    + rewrite Hdel, G4, decide_True; [done|]. by split; [|eexists].
  - intros i o Hi Ho. assert (o ∉ stopped l) as Hs by (by rewrite (G2 i)). split_and!.
    + by apply Hreq.
    + rewrite Hobj. by apply G1.
    + rewrite Hdel, G4, decide_False; [done|]. by intros [? _].
  - apply map_subseteq_spec. intros i o. by intros [? _]%Hreq.
  - rewrite Er. apply filter_ext_in. intros o Ho.
    assert (requests s !! rid s o = Some o) as Ho' by (apply (co_requests _ _ _ _ C); split; [by apply running_live|done]).
    by rewrite (G2 _ _ Ho').
Qed.

(** ** Rounds *)

Context (model : Sched -> SchedulerOutput -> ModelRunnerOutput).
(** One round of the engine: the pass, the model, the update. *)
Definition generation_round (timestamp : Z) : py Sched (list (Z * EngineCoreOutputs)) :=
  let! out := generation_schedule cfg timestamp timestamp in
  let! s := py_get in
  let! res := generation_update cfg out (model s out) in
  py_ret res.1.
Fixpoint generation_rounds (n : nat) (timestamp : Z) : py Sched unit :=
  match n with
  | 0%nat => py_ret tt
  | S n' => do! generation_round timestamp; generation_rounds n' (timestamp + 1)
  end.

(** Nobody runs, and every request fits a batch. *)
Record resting (s : Sched) : Prop := mkResting {
  rs_sched : sched_ok s;
  rs_running : running s = [];
  rs_fits : forall i o, requests s !! i = Some o -> required_tokens (object s o) <= max_num_scheduled_tokens cfg
}.
Context (model_ok : forall (s : Sched) out,
  (forall i n, (i, n) ∈ so_num_scheduled_tokens out -> is_Some (requests s !! i)) ->
  generation_runner_ok s out (model s out)).
Context (room : kv_fits) (slots : 0 < max_num_running_reqs cfg).

Lemma resting_head s : resting s -> requests s <> ∅ -> head_fits s.
Proof.
  intros [HS Hr Hf] Hne. pose proof (sk_core _ _ _ HS) as C. split_and!; try done.
  destruct (rq_iter (waiting s)) as [|a w] eqn:Ew.
  - exfalso. apply map_choose in Hne as (i & o & Ho). apply (co_requests _ _ _ _ C) in Ho as [Ho _].
    rewrite Hr in Ho. by apply not_elem_of_nil in Ho.
  - exists a, w. split; [done|]. apply (Hf (rid s (obj_id a))). apply (co_requests _ _ _ _ C). split; [|done].
    rewrite Hr. left.
Qed.

(** The prompt is what is not output. *)
Lemma prompt_length r : req_ok r -> num_prompt_tokens r = num_tokens r - Z.of_nat (length (output_token_ids r)).
Proof.
  intros R. destruct (rk_wf _ _ _ R) as (p & H1 & H2 & H3). unfold num_tokens. rewrite H3, length_app. lia.
Qed.
Lemma live_req_ok (s : Sched) i o : sched_ok s -> requests s !! i = Some o -> req_ok (object s o).
Proof.
  intros HS Ho. pose proof (sk_core _ _ _ HS) as C. apply (co_requests _ _ _ _ C) in Ho as [[Ho|Ho]%elem_of_app _].
  - apply (co_run _ _ _ _ C o Ho).
  - apply (co_wait _ _ _ _ C o Ho).
Qed.

Lemma generation_round_ok s ts :
  resting s -> wp (generation_round ts) (fun _ s' => resting s' /\
    (base.size (requests s') <= base.size (requests s) - 1)%nat) s.
Proof.
  intros HR. pose proof HR as [HS Hr Hf]. unfold generation_round. wp_step.
  eapply wp_mono; [by apply generation_schedule_ok|]. intros out s1 (HS1 & HP & _ & Hfast).
  destruct (pr_entries _ _ _ _ HP) as [Hk Hent]. pose proof (pr_requests _ _ _ _ HP) as Hq. wp_step. wp_step. wp_step.
  eapply wp_mono; [apply generation_update_ok; try done; [apply HP|apply model_ok|]|].
  { intros i n Hin. destruct (Hent i n Hin) as (o & Ho & _). by eexists. }
  { intros i n Hin. by destruct (Hent i n Hin) as (_ & _ & _ & ? & _). }
  intros res s2 [HS2 [X1 X2 X3 X4]]. apply wp_ret. pose proof (sk_core _ _ _ HS2) as C2.
  assert (requests s2 ⊆ requests s) as Hsub by (by rewrite <- Hq).
  assert (Hfit : forall i o, requests s2 !! i = Some o -> required_tokens (object s2 o) <= max_num_scheduled_tokens cfg).
  { intros i o Ho. assert (requests s1 !! i = Some o) as Ho1 by (by eapply lookup_weaken).
    destruct (decide (i ∈ (so_num_scheduled_tokens out).*1)) as [Hi|Hi].
    - apply list_elem_of_fmap in Hi as ([j n] & -> & Hin). destruct (X1 _ _ _ Hin Ho1) as [E _]. simpl in Ho. congruence.
    - destruct (X2 i o Hi Ho1) as (_ & -> & _). assert (requests s !! i = Some o) as H0 by (by rewrite <- Hq).
      specialize (Hf i o H0). destruct (pr_args _ _ _ _ HP o) as (_ & E1 & E2). unfold required_tokens in *.
      rewrite (prompt_length _ (live_req_ok _ _ _ HS1 Ho1)). rewrite (prompt_length _ (live_req_ok _ _ _ HS H0)) in Hf.
      unfold num_tokens in *. by rewrite E1, E2. }
  destruct (decide (requests s = ∅)) as [E|Hne].
  - assert (requests s2 = ∅) as E2.
    { apply map_size_empty_iff. pose proof (map_subseteq_size _ _ Hsub) as Hle. rewrite E, map_size_empty in Hle. lia. }
    rewrite E2, map_size_empty. split; [|lia]. split; [done| |done]. destruct (running s2) as [|o os] eqn:Er; [done|].
    assert (requests s2 !! rid s2 o = Some o) as Ho by (apply (co_requests _ _ _ _ C2); split; [rewrite Er; left|done]).
    by rewrite E2, lookup_empty in Ho.
  - destruct (Hfast (resting_head s HR Hne)) as (os & rest & Hos & Hw & Hrun & Hb). rewrite Hr in Hrun. simpl in Hrun.
    assert (forall o, rid s1 o = rid s o) as Hrid by (intros o; unfold rid; by destruct (pr_args _ _ _ _ HP o) as (-> & _)).
    assert (forall o, o ∈ os -> rid s1 o ∈ (so_num_scheduled_tokens out).*1) as Hin.
    { intros o Ho. rewrite Hb, Hrid. apply list_elem_of_fmap. exists (rid s o, required_tokens (object s o)). split; [done|].
      by apply (list_elem_of_fmap_2 (fun o => (rid s o, required_tokens (object s o)))). }
    split; [split; [done| |done]|].
    + rewrite X4, Hrun. destruct (filter _ os) as [|o l] eqn:Ef; [done|].
      assert (o ∈ o :: l) as Ho by left. rewrite <- Ef in Ho. apply list_elem_of_filter in Ho as [Hn Ho]. exfalso. apply Hn. by apply Hin.
    + destruct os as [|o os]; [done|]. specialize (Hin o ltac:(left)).
      apply list_elem_of_fmap in Hin as ([i n] & Ei & Hin). simpl in Ei. subst i.
      destruct (Hent _ _ Hin) as (x & Hx & _). destruct (X1 _ _ _ Hin Hx) as [Hnone _].
      enough (base.size (requests s2) < base.size (requests s))%nat by lia.
      apply map_subset_size. split; [done|]. intros Hs. rewrite Hq in Hx. eapply lookup_weaken in Hx; [|exact Hs]. congruence.
Qed.

(** All requests are done after as many rounds as there are requests. *)
Lemma generation_rounds_ok n s ts :
  resting s -> (base.size (requests s) <= n)%nat ->
  wp (generation_rounds n ts) (fun _ s' => sched_ok s' /\ requests s' = ∅ /\ running s' = [] /\
    rq_iter (waiting s') = [] /\ forall i, kv_none (kv s') i) s.
Proof.
  revert s ts. induction n as [|n IH]; intros s ts HR Hn; simpl.
  - apply wp_ret. destruct HR as [HS Hr _]. pose proof (sk_core _ _ _ HS) as C.
    assert (requests s = ∅) as E by (apply map_size_empty_iff; lia). split_and!; try done.
    + destruct (rq_iter (waiting s)) as [|a w] eqn:Ew; [done|].
      assert (requests s !! rid s (obj_id a) = Some (obj_id a)) as Ho.
      { apply (co_requests _ _ _ _ C). split; [|done]. rewrite Hr. left. }
      by rewrite E, lookup_empty in Ho.
    + intros i. apply (co_idle _ _ _ _ C). intros o Ho. rewrite Hr in Ho. by apply not_elem_of_nil in Ho.
  - wp_step. eapply wp_mono; [by apply generation_round_ok|]. intros _ s1 [HR1 Hlt]. apply IH; [done|lia].
Qed.
End generation.
