(* ===== verification/GenerationServing.v ===== *)
(** The scheduler of one-step generation stages over the KV-cache manager: what holds
    of every run, a concrete stage, and what it does with a prompt that is longer than
    the token budget. *)
From stdpp Require Import gmap strings list.
From Stdlib Require Import ZArith Lia.
From S2P Require Import Prelude Request RequestQueue EncoderCache BlockQueue BlockHash BlockPool SingleType Coordinator.
From S2P Require Import KVCacheManager KVCacheInv SchedulerData Scheduler.
From S2P Require Import SchedulerInv SchedulerRun SchedulerUpdate SchedulerKV SchedulerSystem SchedulerLive Serving.
From S2P Require Import ServingDemo SchedulerFaults OmniGeneration GenerationProofs.
Open Scope Z_scope.

Section generation.
Context {Q : Type} {rq_ops : RequestQueue Q} {rq_laws : RequestQueueLaws Q}.
Context {X : Type} {co_ops : Collaborators X} {co_laws : CollaboratorsLaws X}.
Context (cfg : SchedulerConfig) (plain : plain_config cfg).
Context (spec : KVCacheSpec) (caching : bool) (blocks : Z).
Notation L := (serving_layout cfg spec caching blocks).
Context (HL : layout_ok L) (Hblock : 0 < scheduler_block_size cfg).
Context (Hhash : caching = true -> scheduler_block_size cfg = spec_block_size spec).
Context (hash_function : bytes * list Z * option (list extra_key) -> bytes) (NONE_HASH : bytes).
Context (HH : hash_ok hash_function NONE_HASH).
Context (size : string -> Z) (size_nonneg : forall h, 0 <= size h).

Notation Sched := (Scheduler Q KVCacheManager X).
Notation kv s := (kv_cache_manager s).
#[local] Instance generation_laws : KVCacheLaws KVCacheManager (max_model_len cfg) (scheduler_log_stats cfg) :=
  kv_manager_laws L HL hash_function NONE_HASH HH.
Notation waiting_ids s := (ids (rq_iter (waiting s))).
Notation started := (started cfg spec caching blocks).
Notation text_request := (text_request cfg spec caching blocks HL hash_function NONE_HASH HH size).

(** ** Runs *)

(** The scheduler after any sequence of its operations, with the passes whose results
    are outstanding, oldest first. *)
Inductive generation_reach : Sched -> list SchedulerOutput -> Prop :=
| gr_start s : started s -> generation_reach s []
| gr_schedule s fl ts ts' out s' :
    generation_reach s fl -> generation_schedule cfg ts ts' s = Ret out s' -> generation_reach s' (fl ++ [out])
| gr_update s out fl runner res s' :
    generation_reach s (out :: fl) -> generation_runner_ok s out runner ->
    generation_update cfg out runner s = Ret res s' -> generation_reach s' fl
| gr_add s fl r ts s' :
    generation_reach s fl -> admissible cfg size s r -> scheduler_add_request cfg r ts s = Ret tt s' ->
    generation_reach s' fl
| gr_finish s fl req_ids fin s' :
    generation_reach s fl -> status_is_finished fin = true -> finish_requests cfg req_ids fin s = Ret tt s' ->
    generation_reach s' fl
| gr_reset s fl flag ts res s' :
    generation_reach s fl -> scheduler_reset_prefix_cache cfg flag ts s = Ret res s' -> generation_reach s' fl.

Lemma generation_reach_ok s fl : generation_reach s fl -> sched_ok cfg size s /\ Forall (inflight_ok cfg) fl.
Proof.
  induction 1 as [s Hs|s fl ts ts' out s' _ [HS HF] E|s out fl runner res s' _ [HS HF] HR E|s fl r ts s' _ [HS HF] HA E
                 |s fl req_ids fin s' _ [HS HF] Hf E|s fl flag ts res s' _ [HS HF] E].
  - split; [|constructor]. eapply (initial_ok cfg plain size), started_initial; try done.
  - destruct (wp_outcome _ _ _ _ _ (generation_schedule_ok cfg plain size size_nonneg ltac:(done) s ts ts' HS) E) as (HS' & HP & _).
    split; [done|]. apply Forall_app. split; [done|]. constructor; [by eapply pass_inflight|constructor].
  - apply Forall_cons in HF as [(F1 & F2 & F3 & _) HF]. split; [|done].
    by destruct (wp_outcome _ _ _ _ _ (generation_update_ok cfg plain size size_nonneg ltac:(done) s out runner HS F1 HR F2 F3) E).
  - split; [|done]. by destruct (wp_outcome _ _ _ _ _ (add_request_ok cfg size ltac:(done) s r ts HS HA) E).
  - split; [|done]. by destruct (wp_outcome _ _ _ _ _ (finish_requests_ok cfg size size_nonneg s req_ids fin HS Hf) E).
  - split; [|done]. by destruct (wp_outcome _ _ _ _ _ (reset_prefix_cache_ok cfg size size_nonneg s flag ts HS) E).
Qed.


(** ** Serving a batch to its end *)

(** The model has a row for every request of a pass. *)
Definition generates_all (model : Sched -> SchedulerOutput -> ModelRunnerOutput) : Prop :=
  forall (s : Sched) out, (forall i n, (i, n) ∈ so_num_scheduled_tokens out -> is_Some (requests s !! i)) ->
    generation_runner_ok s out (model s out).

Lemma add_all_fits rs : forall (s : Sched) ts,
  live_ok cfg size s -> Forall text_request rs ->
  NoDup (map (fun r => request_id (args r)) rs) -> NoDup (map (fun r => obj_id (args r)) rs) ->
  (forall r, r ∈ rs -> requests s !! request_id (args r) = None /\ obj_id (args r) ∉ running s ++ waiting_ids s) ->
  (forall r, r ∈ rs -> num_prompt_tokens r <= max_num_scheduled_tokens cfg) -> 1 <= max_num_scheduled_tokens cfg ->
  (forall i o, requests s !! i = Some o -> required_tokens (object s o) <= max_num_scheduled_tokens cfg) ->
  wp (add_all cfg rs ts) (fun _ (s' : Sched) => sched_ok cfg size s' /\ running s' = running s /\
    base.size (requests s') = (length rs + base.size (requests s))%nat /\
    forall i o, requests s' !! i = Some o -> required_tokens (object s' o) <= max_num_scheduled_tokens cfg) s.
Proof.
  induction rs as [|r rs IH]; intros s ts HS HT Hid Ho Hnew Hlen H1 Hfit; simpl; [apply wp_ret; split_and!; try done; apply HS|].
  apply Forall_cons in HT as [Hr HT]. apply NoDup_cons in Hid as [Hid Hids]. apply NoDup_cons in Ho as [Ho Hos].
  destruct (Hnew r ltac:(left)) as [N1 N2]. wp_step.
  eapply wp_mono; [by apply (add_live cfg spec caching blocks HL hash_function NONE_HASH HH size)|].
  intros [] s1 [HS1 [[G _] A2 A3 [A4 A5] _]]. eapply wp_mono; [apply IH; try done|].
  - intros r' Hin. destruct (Hnew r' ltac:(by right)) as [M1 M2]. split.
    + rewrite A3, lookup_insert_ne; [done|]. intros E. apply Hid. rewrite E. by apply (list_elem_of_fmap_2 (fun x => request_id (args x))).
    + rewrite A4, A5. intros [Hx|Hx]%elem_of_app; [apply M2, elem_of_app; by left|].
      apply elem_of_place in Hx as [E|Hx].
      * apply Ho. rewrite <- E. by apply (list_elem_of_fmap_2 (fun x => obj_id (args x))).
      * apply M2, elem_of_app. by right.
  - intros r' Hin. apply Hlen. by right.
  - intros i o. rewrite A3. intros Hi. pose proof Hi as [[<- <-]|[Hi' Hx]]%lookup_insert_Some.
    + assert (req_ok cfg size (object s1 (obj_id (args r)))) as R1.
      { eapply live_req_ok; [apply HS1|]. by rewrite A3, lookup_insert_eq. }
      specialize (Hlen r ltac:(left)). unfold required_tokens in *. destruct G as (_ & _ & G3 & G4).
      rewrite (prompt_length _ _ _ R1). unfold num_tokens. rewrite G3, G4, !app_nil_r.
      rewrite (prompt_length _ _ _ (tx_req _ _ _ _ _ _ _ _ _ _ Hr)) in Hlen. unfold num_tokens in Hlen. lia.
    + rewrite A2; [by apply (Hfit i)|]. intros ->. apply N2.
      by apply (co_requests _ _ _ _ (sk_core _ _ _ (lv_sched _ _ _ HS))) in Hx as [? _].
  - intros [] s2 (H2 & H3 & H4 & H5). split_and!; [done|congruence| |done]. rewrite H4, A3, map_size_insert_None by done. simpl. lia.
Qed.

(** C15. Every batch of requests whose prompts fit the token budget is completed within
    as many rounds as there are requests: a fresh scheduler, in the setting of
    [Serving], with positive limits and memory for one request of the maximal length
    beside the null block, takes any list of admissible text requests with distinct ids;
    with a model that answers every scheduled request, after [length rs] rounds none is
    left in the id map or in a queue, and no KV block is held. Since each pass admits
    the first waiting request with its whole prompt, nobody is starved and no pass falls
    back to chunked prefill. *)
Theorem generation_terminates (s : Sched) rs ts model :
  started s -> 0 < max_num_running_reqs cfg -> 1 <= max_num_scheduled_tokens cfg ->
  cdiv (max_model_len cfg) (spec_block_size spec) <= blocks - 1 ->
  Forall text_request rs -> (forall r, r ∈ rs -> num_prompt_tokens r <= max_num_scheduled_tokens cfg) ->
  NoDup (map (fun r => request_id (args r)) rs) -> NoDup (map (fun r => obj_id (args r)) rs) ->
  generates_all model ->
  exists s', (do! add_all cfg rs ts; generation_rounds cfg model (length rs) ts) s = Ret tt s' /\
    requests s' = ∅ /\ running s' = [] /\ rq_iter (waiting s') = [] /\
    forall i m, m ∈ single_type_managers (coordinator (kv s')) -> tab m i = [].
Proof.
  intros Hs H1 H2 H3 Hrs Hlen Hid Ho Hm.
  assert (initial cfg size s) as Hi by (eapply started_initial; try done).
  pose proof (initial_ok cfg plain size s Hi) as HS.
  destruct Hi as (_ & _ & _ & Er & Ew & Erun). destruct (law_new (Q := Q)) as [_ En].
  enough (wp (do! add_all cfg rs ts; generation_rounds cfg model (length rs) ts) (fun _ s' => sched_ok cfg size s' /\
    requests s' = ∅ /\ running s' = [] /\ rq_iter (waiting s') = [] /\ forall i, kv_none (kv s') i) s)
    as ([] & s' & E & _ & R1 & R2 & R3 & R4)%wp_iff.
  { exists s'. split_and!; try done. intros i m Hin. by destruct (R4 i m Hin). }
  wp_step. eapply wp_mono; [apply add_all_fits; try done|].
  - split; [done| |].
    + split; [rewrite Erun|rewrite Ew, En]; intros o Hx; by apply not_elem_of_nil in Hx.
    + intros i o Hx. by rewrite Er, lookup_empty in Hx.
  - intros r _. rewrite Er, Erun, Ew, En. split; [apply lookup_empty|apply not_elem_of_nil].
  - intros i o Hx. by rewrite Er, lookup_empty in Hx.
  - intros [] s1 (L1 & L2 & L3 & L4). apply (generation_rounds_ok cfg plain size size_nonneg ltac:(done) model Hm).
    + done.
    + done.
    + split; [done|by rewrite L2|done].
    + rewrite L3, Er, map_size_empty. lia.
Qed.
End generation.

(** ** A concrete stage *)

#[local] Existing Instance no_collaborators.
#[local] Existing Instance no_collaborators_laws.

(** One token per request, in the order of the batch. *)
Definition generation_model {Q} (tok : Z) (s : Scheduler Q KVCacheManager unit) (out : SchedulerOutput) : ModelRunnerOutput :=
  let e := so_num_scheduled_tokens out in
  mkModelRunnerOutput (list_to_map (imap (fun k e => (e.1, k)) e)) (map (fun _ => [tok]) e) ∅ [] None None.

Lemma generation_model_ok {Q} tok : generates_all (Q := Q) (generation_model tok).
Proof.
  intros s out _. set (e := so_num_scheduled_tokens out). split; [done|].
  intros i n o Hin _. destruct (index_spec e i) as [H1 H2]. destruct (H2 n Hin) as [k Hk]. exists k. split; try done.
  - intros _. destruct (H1 k Hk) as [n' Hn]. simpl. fold e. rewrite list_lookup_fmap, Hn. by eexists.
  - simpl. rewrite lookup_empty. by intros [].
Qed.

Definition stage_pass : SchedulerOutput := result_of empty_pass (generation_schedule demo_config 1 1 demo_added).
Definition stage_scheduled : Demo := state_of demo_start (generation_schedule demo_config 1 1 demo_added).

Notation stage_reach := (generation_reach demo_config demo_spec true 6 demo_layout demo_hash [0] demo_hash_ok no_size).
Lemma stage_reached : stage_reach stage_scheduled [stage_pass].
Proof.
  apply (gr_schedule _ _ _ _ _ _ _ _ _ demo_added [] 1 1); [|by vm_compute].
  apply (gr_add _ _ _ _ _ _ _ _ _ demo_start [] demo_a 0); [apply gr_start, demo_started| |by vm_compute].
  split; [apply demo_a_text|by left|done|done|by apply not_elem_of_nil|done].
Qed.
Lemma stage_batch : so_num_scheduled_tokens stage_pass = [("a"%string, 3)].
Proof. by vm_compute. Qed.
Lemma stage_requests : requests stage_scheduled = {["a"%string := 1]}.
Proof. by vm_compute. Qed.
Lemma stage_runner tok : generation_runner_ok stage_scheduled stage_pass (generation_model tok stage_scheduled stage_pass).
Proof.
  apply generation_model_ok. intros i n Hi. rewrite stage_batch in Hi. apply list_elem_of_singleton in Hi. injection Hi as -> _.
  rewrite stage_requests, lookup_singleton_eq. by eexists.
Qed.
Lemma stage_row tok : row_of_request (generation_model tok stage_scheduled stage_pass) "a" = [tok].
Proof. by vm_compute. Qed.

#[local] Opaque stage_scheduled stage_pass.
Notation at_stage th :=
  (th FCFSRequestQueue _ _ unit _ _ demo_config demo_plain demo_spec true 6 demo_layout ltac:(done) ltac:(done)
     demo_hash [0] demo_hash_ok no_size no_size_nonneg) (only parsing).


(** Two requests are completed in two rounds. *)
Lemma generation_terminates_witness :
  exists s', (do! add_all demo_config [demo_a; demo_b] 0;
              generation_rounds demo_config (generation_model 9) 2 0) demo_start = Ret tt s' /\
    requests s' = ∅ /\ running s' = [].
Proof.
  destruct (at_stage (@generation_terminates) demo_start [demo_a; demo_b] 0 (generation_model 9) demo_started)
    as (s' & E & H1 & H2 & _).
  - done.
  - vm_compute. congruence.
  - vm_compute. congruence.
  - constructor; [apply demo_a_text|]. constructor; [apply demo_b_text|constructor].
  - intros r [->|[->|[]%not_elem_of_nil]%elem_of_cons]%elem_of_cons; vm_compute; congruence.
  - by apply (bool_decide_unpack _).
  - by apply (bool_decide_unpack _).
  - apply generation_model_ok.
  - exists s'. split; [exact E|]. split; [exact H1|exact H2].
Defined.

(** ** Prompts longer than the token budget *)

Notation chunk_config := (fault_config FCFS 4 4 9 0 None).
Notation chunk_start := (fault_start FCFS 4 4 9 0 None FCFSRequestQueue 6).
(** Six prompt tokens, a budget of four. *)
Definition chunk_request : Request := fault_request "a" 1 0 [1; 2; 3; 4; 5; 6] 2 0 None.
Definition chunk_run : py Demo (list (Z * EngineCoreOutputs)) :=
  do! scheduler_add_request chunk_config chunk_request 0;
  generation_round chunk_config (generation_model 9) 0.
Definition chunk_end : Demo := state_of chunk_start (chunk_run chunk_start).

(** A generation stage cuts off a prompt that exceeds the token budget. The fast
    path leaves it to the pass of the base class, which schedules its first chunk; the
    update then ends the request as stopped and sends the model's output to the client,
    although the rest of the prompt was never computed. Here four of six tokens were. *)
Theorem long_prompt_cut_off :
  batch_of ((do! scheduler_add_request chunk_config chunk_request 0;
             generation_schedule chunk_config 0 0) chunk_start) = Some [("a"%string, 4)] /\
  raised (chunk_run chunk_start) = None /\ requests chunk_end = ∅ /\
  status (object chunk_end 1) = FINISHED_STOPPED /\
  num_computed_tokens (object chunk_end 1) = 4 /\ num_prompt_tokens (object chunk_end 1) = 6 /\
  delivered "a" (result_of [] (chunk_run chunk_start)) = [9].
Proof. split_and!; by vm_compute. Qed.
