(* ===== verification/OmniAR.v ===== *)
(** The scheduler of autoregressive stages
    ([vllm_omni/core/sched/omni_ar_scheduler.py]): a subclass of the scheduler that
    chains the one-step requests [<session>_stage_1_<k>] of the talker. What a step
    leaves for the next is kept in four class-level dictionaries, the lockers.

    The class derives from the synchronous [Scheduler]. Its state is that of the base
    class, the lockers, and two attributes that it writes on request objects:
    [output_token_ids], which it replaces by the history of the session while the
    token lists of the request stay as they are, and the payload
    [additional_information]. The multimodal output of a step is read by nobody and is
    not represented, and the time of an update is not measured. *)
From stdpp Require Import gmap strings list pretty.
From Stdlib Require Import ZArith Lia.
From S2P Require Import Prelude Request RequestQueue EncoderCache BlockPool KVCacheManager SchedulerData Scheduler.
From S2P Require Import DuplexStream.
Open Scope Z_scope.

(** ** Request ids *)

(** [s.split(sep)] for a nonempty separator; [skip] characters belong to the one just
    found. *)
Fixpoint split_from (sep s : string) (skip : nat) : list string :=
  match s with
  | EmptyString => [EmptyString]
  | String c s' =>
      match skip with
      | S k => split_from sep s' k
      | 0%nat =>
          if String.prefix sep s then EmptyString :: split_from sep s' (String.length sep - 1)
          else match split_from sep s' 0 with
               | p :: ps => String c p :: ps
               | [] => [String c EmptyString]
               end
      end
  end.
Definition str_split (sep s : string) : list string := split_from sep s 0.
Definition first_part (sep s : string) : string := default EmptyString (head (str_split sep s)).

Definition in_stage_1 (req_id : string) : bool := str_contains "_stage_1_" req_id.
(** [base_id] of a stage-1 request, and of any request. *)
Definition stage_1_base (req_id : string) : string := first_part "_stage_1_" req_id.
Definition session_of (req_id : string) : string := first_part "_stage_" req_id.
Definition stage_1_id (base_id : string) (k : nat) : string := stg1_req_id base_id k.

(** ** State *)

Record Lockers := mkLockers {
  stage_token_locker : gmap string Z;
  stage_block_locker : gmap string (list (list Z));
  stage_history_count : gmap string Z;
  stage_output_history : gmap string (list Z)
}.

(** An entry of a payload: a list, or a tensor. *)
Inductive InfoEntry := ListData (l : list Z) | TensorData (t : Z).
Notation Payload := (gmap string InfoEntry).

Section state.
Context (Q K X : Type).
Record ARScheduler := mkAR {
  ar_base : Scheduler Q K X;
  ar_lockers : Lockers;
  shown_output : gmap Z (list Z) (** [output_token_ids] of the objects where it was replaced *);
  additional_information : gmap Z Payload (** of the objects that have one *)
}.
End state.
Arguments mkAR {Q K X}.
Arguments ar_base {Q K X} a.
Arguments ar_lockers {Q K X} a.
Arguments shown_output {Q K X} a.
Arguments additional_information {Q K X} a.

(** The output of a pass; the payloads of the new requests once they are wrapped. *)
Record AROutput := mkAROutput {
  ao_output : SchedulerOutput;
  ao_payloads : option (list (option Payload))
}.

Section scheduler.
Context {Q : Type} `{RequestQueue Q} {K : Type} `{KVCache K} {X : Type} `{Collaborators X}.
Context (cfg : SchedulerConfig).
Context (block_hasher : option (Request -> list (list Z))).
Notation Sched := (Scheduler Q K X).
Notation AR := (ARScheduler Q K X).
Notation Update := (Scheduler Q K X * UpdateLocals)%type.
Notation ARUpdate := (ARScheduler Q K X * UpdateLocals)%type.

Definition set_ar_base (s : Sched) (a : AR) : AR := mkAR s (ar_lockers a) (shown_output a) (additional_information a).
Definition set_lockers (f : Lockers -> Lockers) (a : AR) : AR :=
  mkAR (ar_base a) (f (ar_lockers a)) (shown_output a) (additional_information a).
Definition show_output (o : Z) (l : list Z) (a : AR) : AR :=
  mkAR (ar_base a) (ar_lockers a) (<[o := l]> (shown_output a)) (additional_information a).
(** Entries are added to the payload of [o], which is created if there is none. *)
Definition add_entries (o : Z) (entries : list (string * InfoEntry)) (a : AR) : AR :=
  mkAR (ar_base a) (ar_lockers a) (shown_output a)
    (<[o := foldl (fun p e => <[e.1 := e.2]> p) (default ∅ (additional_information a !! o)) entries]>
       (additional_information a)).

Definition on_base {A} (op : py Sched A) : py AR A := py_zoom ar_base set_ar_base op.

(** ** Lockers *)

(** [clear_session_history] *)
Definition clear_session (b : string) (l : Lockers) : Lockers :=
  mkLockers (delete b (stage_token_locker l)) (delete b (stage_block_locker l))
    (delete b (stage_history_count l)) (delete b (stage_output_history l)).
Definition lock_blocks (b : string) (blocks : list (list Z)) (num_computed : Z) (l : Lockers) : Lockers :=
  mkLockers (stage_token_locker l) (<[b := blocks]> (stage_block_locker l))
    (<[b := default 0 (stage_history_count l !! b) + num_computed]> (stage_history_count l)) (stage_output_history l).
Definition append_history (b : string) (t : Z) (l : Lockers) : Lockers :=
  mkLockers (stage_token_locker l) (stage_block_locker l) (stage_history_count l)
    (<[b := default [] (stage_output_history l !! b) ++ [t]]> (stage_output_history l)).
Definition lock_token (b : string) (t : Z) (l : Lockers) : Lockers :=
  mkLockers (<[b := t]> (stage_token_locker l)) (stage_block_locker l) (stage_history_count l) (stage_output_history l).

(** ** [finish_requests] *)

Definition should_clear_all (rid : string) (finished_status : RequestStatus) : bool :=
  bool_decide (finished_status = FINISHED_ABORTED) || bool_decide (finished_status = FINISHED_IGNORED)
  || (str_contains "_stage_2_" rid && str_contains "_FINAL" rid).
Definition ar_finish_requests (request_ids : list string) (finished_status : RequestStatus) : py AR unit :=
  do! py_for (remove_dups request_ids) (fun rid =>
    if should_clear_all rid finished_status then py_modify (set_lockers (clear_session (session_of rid))) else py_ret tt);
  on_base (finish_requests cfg request_ids finished_status).

(** ** [schedule] *)

(** A string or None in a condition. *)
Definition truthy (b : option string) : option string :=
  match b with Some EmptyString => None | _ => b end.
Definition base_id_of (req_id : string) : option string :=
  if in_stage_1 req_id then Some (stage_1_base req_id) else None.

(** The blocks and the number of computed tokens that the workers are told. *)
Definition injected (l : Lockers) (base_id : option string) (nr : NewRequestData) : list (list Z) * Z :=
  match truthy base_id with
  | Some b =>
      match stage_block_locker l !! b with
      | Some ((_ :: _) as prev_blocks) => (prev_blocks, default 0 (stage_history_count l !! b))
      | _ => (nr_block_ids nr, nr_num_computed_tokens nr)
      end
  | None => (nr_block_ids nr, nr_num_computed_tokens nr)
  end.
Definition history_of (l : Lockers) (base_id : option string) : list Z :=
  match base_id with Some b => default [] (stage_output_history l !! b) | None => [] end.
(** The last token of the session; a token id 0 counts as none. *)
Definition relayed_token (l : Lockers) (base_id : option string) : option Z :=
  match truthy base_id with
  | Some b => match stage_token_locker l !! b with
              | Some t => if t =? 0 then None else Some t
              | None => None
              end
  | None => None
  end.

Definition wrap_new (nr : NewRequestData) (blocks : list (list Z)) (computed : Z) : NewRequestData :=
  mkNewRequestData (nr_args nr) blocks computed None.

(** One turn of the wrapping loop. The variables [current_block_ids] and
    [computed_count] keep their values from the turn before. *)
Definition wrap_one (prev : option (list (list Z) * Z)) (nr : NewRequestData)
    : py AR (NewRequestData * option Payload * option (list (list Z) * Z)) :=
  let req_id := request_id (nr_args nr) in
  let base_id := base_id_of req_id in
  let! a := py_get in
  match requests (ar_base a) !! req_id with
  | None =>
      let! '(blocks, computed) := py_unwrap UnboundLocalError prev in
      py_ret (wrap_new nr blocks computed, None, prev)
  | Some o =>
      let '(blocks, computed) := injected (ar_lockers a) base_id nr in
      let history_tokens := history_of (ar_lockers a) base_id in
      do! (match history_tokens with [] => py_ret tt | _ => py_modify (show_output o history_tokens) end);
      do! (match relayed_token (ar_lockers a) base_id with
           | Some t => py_modify (add_entries o [("predicted_audio_token"%string, ListData [t]);
                                                 ("audio_history"%string, ListData history_tokens)])
           | None => py_ret tt
           end);
      let! a := py_get in
      py_ret (wrap_new nr blocks computed, additional_information a !! o, Some (blocks, computed))
  end.
Fixpoint wrap_all (prev : option (list (list Z) * Z)) (l : list NewRequestData)
    : py AR (list (NewRequestData * option Payload)) :=
  match l with
  | [] => py_ret []
  | nr :: l' =>
      let! '(nr', payload, prev') := wrap_one prev nr in
      let! rest := wrap_all prev' l' in
      py_ret ((nr', payload) :: rest)
  end.
Definition with_new_reqs (l : list NewRequestData) (o : SchedulerOutput) : SchedulerOutput :=
  mkSchedulerOutput l (so_scheduled_cached_reqs o) (so_num_scheduled_tokens o)
    (so_total_num_scheduled_tokens o) (so_scheduled_spec_decode_tokens o) (so_scheduled_encoder_inputs o)
    (so_num_common_prefix_blocks o) (so_preempted_req_ids o) (so_finished_req_ids o)
    (so_free_encoder_mm_hashes o) (so_pending_structured_output_tokens o).

(** An exception while wrapping is logged and leaves the output of the base class. *)
Definition ar_schedule (timestamp : Z) : py AR AROutput :=
  let! out := on_base (schedule cfg timestamp) in
  fun a => match wrap_all None (so_scheduled_new_reqs out) a with
           | Ret l a' => Ret (mkAROutput (with_new_reqs (map fst l) out) (Some (map snd l))) a'
           | Raise _ a' => Ret (mkAROutput out None) a'
           end.

(** ** [update_from_output] *)

Definition lift_update {A} (op : py Update A) : py ARUpdate A :=
  py_zoom (fun p => (ar_base p.1, p.2)) (fun u p => (set_ar_base u.1 p.1, u.2)) op.
Definition on_ar {A} (op : py AR A) : py ARUpdate A := py_zoom fst (fun a p => (a, p.2)) op.
Definition on_object {A} (op : py Sched A) : py ARUpdate A := on_ar (on_base op).

(** [request.output_token_ids] *)
Definition shown_tokens (a : AR) (o : Z) : list Z :=
  match shown_output a !! o with Some l => l | None => output_token_ids (object (ar_base a) o) end.

(** [check_stop] where [request.output_token_ids] is [shown]. *)
Definition check_stop_shown (max_model_len : Z) (pooler_output : option Z) (shown : list Z) (r : Request)
    : exn + (Request * bool) :=
  match pooling_params (args r) with
  | Some _ =>
      match pooler_output with
      | Some _ => inr (set_status FINISHED_STOPPED r, true)
      | None => inr (r, false)
      end
  | None =>
      match sampling_params (args r) with
      | None => inl AssertionError
      | Some sp =>
          if num_output_tokens r <? sp_min_tokens sp then inr (r, false) else
          match last shown with
          | None => inl IndexError
          | Some last_token_id =>
              if negb (sp_ignore_eos sp) && bool_decide (Some last_token_id = eos_token_id (args r))
              then inr (set_status FINISHED_STOPPED r, true)
              else if bool_decide (last_token_id ∈ default [] (sp_stop_token_ids sp))
              then inr (set_stop_reason (Some last_token_id) (set_status FINISHED_STOPPED r), true)
              else if (max_model_len <=? num_tokens r) || (max_tokens r <=? num_output_tokens r)
              then inr (set_status FINISHED_LENGTH_CAPPED r, true)
              else inr (r, false)
          end
      end
  end.

(** [_update_request_with_output] on such an object. *)
Fixpoint update_shown (o : Z) (new_token_ids : list Z) : py AR (list Z * bool) :=
  match new_token_ids with
  | [] => py_ret ([], false)
  | t :: ts =>
      do! on_base (update_object o (append_output_token_ids block_hasher [t]));
      let! a := py_get in
      let! '(r', stopped) := py_lift (check_stop_shown (max_model_len cfg) None (shown_tokens a o) (object (ar_base a) o)) in
      do! on_base (update_object o (fun _ => r'));
      if (stopped : bool) then py_ret ([t], true)
      else let! '(kept, stopped) := update_shown o ts in py_ret (t :: kept, stopped)
  end.

(** The blocks that the pass sent for the request: those of a new one, or the new ones
    of a cached one. *)
Definition scheduled_blocks (out : SchedulerOutput) (req_id : string) : py ARUpdate (option (list (list Z))) :=
  match List.find (fun nr => String.eqb (request_id (nr_args nr)) req_id) (so_scheduled_new_reqs out) with
  | Some nr => py_ret (Some (nr_block_ids nr))
  | None =>
      let cached := so_scheduled_cached_reqs out in
      match list_find (fun i => i = req_id) (cr_req_ids cached) with
      | Some (idx, _) => py_unwrap IndexError (cr_new_block_ids cached !! idx)
      | None => py_ret None
      end
  end.

(** The blocks and the count of the step are put in the lockers. *)
Definition extract_kv (out : SchedulerOutput) (req_id base_id : string) (o : Z) : py ARUpdate unit :=
  let! blocks := scheduled_blocks out req_id in
  match blocks with
  | Some ((_ :: _) as blocks) =>
      do! on_object (on_kv (kc_get_block_ids req_id));
      let! r := on_object (get_object o) in
      on_ar (py_modify (set_lockers (lock_blocks base_id blocks (num_computed_tokens r))))
  | _ => py_ret tt
  end.

(** The later steps of a session that has produced the stop token. *)
Definition is_future_step (base_id : string) (current_idx : nat) (f_id : string) : exn + bool :=
  if String.prefix base_id f_id && in_stage_1 f_id then
    match py_int (default EmptyString (last (str_split "_stage_1_" f_id))) with
    | Some k => inr (current_idx <? k)%nat
    | None => inl ValueError
    end
  else inr false.
Fixpoint future_steps (base_id : string) (current_idx : nat) (l : list string) : exn + list string :=
  match l with
  | [] => inr []
  | f_id :: l' =>
      match is_future_step base_id current_idx f_id with
      | inl e => inl e
      | inr b => match future_steps base_id current_idx l' with
                 | inl e => inl e
                 | inr ids => inr (if b then f_id :: ids else ids)
                 end
      end
  end.
Definition flush_future (base_id : string) (current_idx : nat) : py AR unit :=
  let! a := py_get in
  let! ids_to_abort := py_lift (future_steps base_id current_idx (map_to_list (requests (ar_base a))).*1) in
  match ids_to_abort with
  | [] => py_ret tt
  | ids => ar_finish_requests ids FINISHED_STOPPED
  end.

(** The first token of the step is recorded and handed to the next step, if that is
    already there. *)
Definition relay_token (base_id : string) (current_idx : nat) (t : Z) : py AR unit :=
  do! py_modify (set_lockers (append_history base_id t));
  let! a := py_get in
  let current_history := default [] (stage_output_history (ar_lockers a) !! base_id) in
  do! (match requests (ar_base a) !! stage_1_id base_id (S current_idx) with
       | Some o => py_modify (add_entries o [("audio_history"%string, ListData current_history);
                                             ("predicted_audio_token"%string, ListData [t])])
       | None => py_ret tt
       end);
  py_modify (set_lockers (lock_token base_id t)).

(** The part for stage 1: a request that has not stopped is stopped after one step. *)
Definition end_of_step (out : SchedulerOutput) (req_id : string) (o : Z) (generated : list Z) (stopped : bool)
    : py ARUpdate bool :=
  if negb (in_stage_1 req_id) then py_ret stopped else
  let parts := str_split "_stage_1_" req_id in
  let base_id := default EmptyString (head parts) in
  let! part := py_unwrap IndexError (parts !! 1%nat) in
  let! current_idx := py_unwrap ValueError (py_int part) in
  if stopped then py_ret true else
  do! extract_kv out req_id base_id o;
  do! (match generated with
       | t :: _ => if t =? STOP_TOKEN then on_ar (flush_future base_id current_idx) else py_ret tt
       | [] => py_ret tt
       end);
  do! (match generated with
       | t :: _ => on_ar (relay_token base_id current_idx t)
       | [] => py_ret tt
       end);
  do! on_object (update_object o (set_status FINISHED_STOPPED));
  py_ret true.

Definition ar_update_live (out : SchedulerOutput) (runner : ModelRunnerOutput) (req_id : string) (o : Z)
    : py ARUpdate unit :=
  let! req_index := py_unwrap KeyError (req_id_to_index runner !! req_id) in
  let! generated := (match sampled_token_ids runner with
                     | [] => py_ret []
                     | l => py_unwrap IndexError (l !! req_index)
                     end) in
  do! (match so_scheduled_spec_decode_tokens out !! req_id with
       | Some ((_ :: _) as spec) => lift_update (reject_drafts cfg o spec (Z.of_nat (length generated)))
       | _ => py_ret tt
       end);
  let! status_before_stop := on_object (py_gets (fun s => status (object s o))) in
  let! '(new_token_ids, stopped) :=
    (match generated with [] => py_ret ([], false) | _ => on_ar (update_shown o generated) end) in
  let! '(pooled, stopped) :=
    (match pooler_output runner with
     | [] => py_ret (None, stopped)
     | l =>
         let! pooled := py_unwrap IndexError (l !! req_index) in
         let! a := on_ar py_get in
         match shown_tokens a o with
         | [] => py_ret (pooled, stopped)
         | shown =>
             let! '(r', stopped) := py_lift (check_stop_shown (max_model_len cfg) pooled shown (object (ar_base a) o)) in
             do! on_object (update_object o (fun _ => r'));
             py_ret (pooled, stopped)
         end
     end) in
  let! stopped := end_of_step out req_id o generated stopped in
  let! kv_transfer := (if (stopped : bool) then lift_update (stop_request cfg o status_before_stop) else py_ret None) in
  lift_update (report_live runner req_id o new_token_ids pooled kv_transfer).

Definition ar_update_one (out : SchedulerOutput) (runner : ModelRunnerOutput) (failed : gset string)
    (e : string * Z) : py ARUpdate unit :=
  let '(req_id, num_tokens_scheduled) := e in
  do! py_assert (0 <? num_tokens_scheduled);
  if decide (req_id ∈ failed) then py_ret tt else
  let! s := on_object py_get in
  match requests s !! req_id with
  | None => py_ret tt
  | Some o => ar_update_live out runner req_id o
  end.

(** The module imports the function [time] and calls [time.time()] when there are KV
    events to publish. *)
Definition ar_update_from_output (out : SchedulerOutput) (runner : ModelRunnerOutput)
    : py AR (list (Z * EngineCoreOutputs)) :=
  let! failed := on_base (failed_loads cfg runner) in
  let! l := (fun a => match py_for (so_num_scheduled_tokens out) (ar_update_one out runner failed)
                              (a, mkUpdateLocals [] None ∅ ∅) with
                      | Ret _ (a', l) => Ret l a'
                      | Raise e (a', _) => Raise e a'
                      end) in
  let! events := on_base (collect_events runner l) in
  do! (match events with [] => py_ret tt | _ => py_raise AttributeError end);
  on_base (client_outputs cfg l).
End scheduler.
