(* ===== verification/ARProofs.v ===== *)
(** Properties of the scheduler of autoregressive stages: the lockers stay consistent
    whatever the operations do, also when they raise; what a step leaves for the next
    one and what the next one is told; the scheduler is the base scheduler for the
    requests of other stages. *)
From stdpp Require Import gmap strings list pretty.
From Stdlib Require Import ZArith Lia.
From S2P Require Import Prelude Request RequestQueue EncoderCache BlockPool KVCacheManager SchedulerData Scheduler.
From S2P Require Import DuplexStream OmniAR.
Open Scope Z_scope.

(** ** Invariants that survive exceptions *)

Definition after {S A} (o : outcome S A) : S := match o with Ret _ s => s | Raise _ s => s end.
(** [m] leaves [I] true, whether it returns or raises. *)
Definition keeps {S A} (I : S -> Prop) (m : py S A) : Prop := forall s, I s -> I (after (m s)).

Create HintDb keeps.
Section keeps.
Context {S : Type} (I : S -> Prop).
Lemma keeps_ret {A} (a : A) : keeps I (py_ret a).
Proof. by intros s. Qed.
Lemma keeps_raise {A} e : keeps I (py_raise (A := A) e).
Proof. by intros s. Qed.
Lemma keeps_get : keeps I py_get.
Proof. by intros s. Qed.
Lemma keeps_gets {A} (f : S -> A) : keeps I (py_gets f).
Proof. by intros s. Qed.
Lemma keeps_modify (f : S -> S) : (forall s, I s -> I (f s)) -> keeps I (py_modify f).
Proof. intros Hf s. apply Hf. Qed.
Lemma keeps_unwrap {A} e (o : option A) : keeps I (py_unwrap e o).
Proof. intros s. by destruct o. Qed.
Lemma keeps_lift {A} (r : exn + A) : keeps I (py_lift r).
Proof. intros s. by destruct r. Qed.
Lemma keeps_assert b : keeps I (py_assert b).
Proof. intros s. by destruct b. Qed.
Lemma keeps_bind {A B} (m : py S A) (k : A -> py S B) : keeps I m -> (forall a, keeps I (k a)) -> keeps I (py_bind m k).
Proof.
  intros Hm Hk s Hs. unfold py_bind. specialize (Hm s Hs). destruct (m s) as [a s'|e s']; simpl in *; [by apply Hk|done].
Qed.
Lemma keeps_for {A} (l : list A) (f : A -> py S unit) : (forall x, keeps I (f x)) -> keeps I (py_for l f).
Proof. intros Hf. induction l as [|x l IH]; simpl; [apply keeps_ret|]. apply keeps_bind; [apply Hf|by intros []]. Qed.
Lemma keeps_zoom {T A} (get : S -> T) (set : T -> S -> S) (m : py T A) :
  (forall t s, I s -> I (set t s)) -> keeps I (py_zoom get set m).
Proof. intros Hs s Hi. unfold py_zoom. destruct (m (get s)); simpl; by apply Hs. Qed.
End keeps.
#[export] Hint Resolve keeps_ret keeps_raise keeps_get keeps_gets keeps_unwrap keeps_lift keeps_assert : keeps.

Ltac keeps_step :=
  first [ by eauto with keeps
        | apply keeps_bind; [|intros ?]
        | apply keeps_for; intros ?
        | match goal with |- keeps _ (match ?x with _ => _ end) => destruct x end
        | match goal with |- keeps _ (if ?x then _ else _) => destruct x end ].

(** ** Lockers *)

(** The token kept for a session is the last of its history, which is not empty; blocks
    are kept with their count. *)
Definition lockers_ok (l : Lockers) : Prop :=
  (forall b, stage_token_locker l !! b = stage_output_history l !! b ≫= last) /\
  (forall b, stage_output_history l !! b <> Some []) /\
  (forall b, is_Some (stage_block_locker l !! b) <-> is_Some (stage_history_count l !! b)).

Lemma lockers_init : lockers_ok (mkLockers ∅ ∅ ∅ ∅).
Proof. split_and!; intros b; simpl; rewrite !lookup_empty; done. Qed.

Lemma clear_session_ok b l : lockers_ok l -> lockers_ok (clear_session b l).
Proof.
  intros (H1 & H2 & H3). split_and!; intros c; simpl; (destruct (decide (b = c)) as [->|Hne];
    [by rewrite !lookup_delete_eq|by rewrite !lookup_delete_ne]).
Qed.
Lemma lock_blocks_ok b bl n l : lockers_ok l -> lockers_ok (lock_blocks b bl n l).
Proof.
  intros (H1 & H2 & H3). split_and!; try done. intros c. simpl. destruct (decide (b = c)) as [->|Hne].
  - rewrite !lookup_insert_eq. split; by eexists.
  - by rewrite !lookup_insert_ne.
Qed.
Lemma record_token_ok b t l : lockers_ok l -> lockers_ok (lock_token b t (append_history b t l)).
Proof.
  intros (H1 & H2 & H3). split_and!; try done; intros c; simpl; destruct (decide (b = c)) as [->|Hne].
  - by rewrite !lookup_insert_eq; simpl; rewrite last_snoc.
  - by rewrite !lookup_insert_ne.
  - rewrite lookup_insert_eq. intros [= E]. by destruct (default [] _).
  - by rewrite lookup_insert_ne.
Qed.

Section ar.
Context {Q : Type} {rq_ops : RequestQueue Q} {K : Type} {kv_ops : KVCache K} {X : Type} {co_ops : Collaborators X}.
Context (cfg : SchedulerConfig).
Context (block_hasher : option (Request -> list (list Z))).
Notation Sched := (Scheduler Q K X).
Notation AR := (ARScheduler Q K X).
Notation Update := (Scheduler Q K X * UpdateLocals)%type.
Notation ARUpdate := (ARScheduler Q K X * UpdateLocals)%type.

(** Invariants of the lockers alone. *)
Section lockers.
Context (I : Lockers -> Prop).
Notation IA := (fun a : AR => I (ar_lockers a)).
Notation IU := (fun p : ARUpdate => I (ar_lockers p.1)).

Lemma keeps_on_base {A} (op : py Sched A) : keeps IA (on_base op).
Proof. by apply keeps_zoom. Qed.
Lemma keeps_lift_update {A} (op : py Update A) : keeps IU (lift_update op).
Proof. by apply keeps_zoom. Qed.
Lemma keeps_on_ar {A} (op : py AR A) : keeps IA op -> keeps IU (on_ar op).
Proof. intros Hop [a l] Ha. unfold on_ar, py_zoom. simpl. specialize (Hop a Ha). by destruct (op a). Qed.
Lemma keeps_on_object {A} (op : py Sched A) : keeps IU (on_object op).
Proof. apply keeps_on_ar, keeps_on_base. Qed.
Lemma keeps_show o l : keeps IA (py_modify (show_output o l)).
Proof. by apply keeps_modify. Qed.
Lemma keeps_entries o es : keeps IA (py_modify (add_entries o es)).
Proof. by apply keeps_modify. Qed.
Lemma keeps_lockers f : (forall l, I l -> I (f l)) -> keeps IA (py_modify (set_lockers f)).
Proof. intros Hf. apply keeps_modify. intros a. apply Hf. Qed.
Hint Resolve keeps_on_base keeps_lift_update keeps_on_object keeps_show keeps_entries : keeps.

(** A pass does not touch the lockers. *)
Lemma wrap_one_keeps prev nr : keeps IA (wrap_one prev nr).
Proof. unfold wrap_one. repeat keeps_step. Qed.
Lemma wrap_all_keeps prev l : keeps IA (wrap_all prev l).
Proof.
  revert prev. induction l as [|nr l IH]; intros prev; simpl; [apply keeps_ret|].
  apply keeps_bind; [apply wrap_one_keeps|]. intros [[? ?] ?]. apply keeps_bind; [apply IH|intros; apply keeps_ret].
Qed.
Lemma ar_schedule_keeps ts : keeps IA (ar_schedule cfg ts).
Proof.
  unfold ar_schedule. apply keeps_bind; [apply keeps_on_base|]. intros out a Ha.
  pose proof (wrap_all_keeps None (so_scheduled_new_reqs out) a Ha) as Hw. by destruct (wrap_all _ _ a).
Qed.

(** The update changes them by three operations. *)
Context (Hblocks : forall b bl n l, I l -> I (lock_blocks b bl n l)).
Context (Htoken : forall b t l, I l -> I (lock_token b t (append_history b t l))).
Context (Hclear : forall b l, I l -> I (clear_session b l)).

Lemma ar_finish_keeps ids st : keeps IA (ar_finish_requests cfg ids st).
Proof.
  unfold ar_finish_requests. apply keeps_bind; [|intros; apply keeps_on_base]. apply keeps_for. intros rid.
  destruct (should_clear_all rid st); [|apply keeps_ret]. apply keeps_lockers. auto.
Qed.
Lemma relay_token_keeps b k t : keeps IA (relay_token b k t).
Proof.
  intros a Ha. unfold relay_token, py_bind, py_modify, py_get, py_ret. simpl.
  destruct (requests (ar_base a) !! stage_1_id b (S k)); simpl; by apply Htoken.
Qed.
Lemma update_shown_keeps o ts : keeps IA (update_shown cfg block_hasher o ts).
Proof. induction ts as [|t ts IH]; simpl; repeat keeps_step; apply IH. Qed.
Lemma end_of_step_keeps out i o gen st : keeps IU (end_of_step cfg out i o gen st).
Proof.
  unfold end_of_step, extract_kv, scheduled_blocks, flush_future.
  repeat first [ apply ar_finish_keeps | keeps_step | apply keeps_on_ar, relay_token_keeps
               | apply keeps_on_ar, keeps_lockers; by auto | apply keeps_on_ar ].
Qed.
Lemma ar_update_live_keeps out runner i o : keeps IU (ar_update_live cfg block_hasher out runner i o).
Proof.
  unfold ar_update_live.
  repeat first [ apply end_of_step_keeps | apply keeps_on_ar, update_shown_keeps | apply keeps_on_ar, keeps_get | keeps_step ].
Qed.
Lemma ar_update_keeps out runner : keeps IA (ar_update_from_output cfg block_hasher out runner).
Proof.
  unfold ar_update_from_output. apply keeps_bind; [apply keeps_on_base|]. intros failed. apply keeps_bind.
  - intros a Ha. assert (keeps IU (py_for (so_num_scheduled_tokens out) (ar_update_one cfg block_hasher out runner failed))) as Hk.
    { apply keeps_for. intros [i n]. unfold ar_update_one. repeat first [apply ar_update_live_keeps|keeps_step]. }
    specialize (Hk (a, mkUpdateLocals [] None ∅ ∅) Ha). by destruct (py_for _ _ _) as [? []|? []].
  - intros l. repeat keeps_step.
Qed.
End lockers.

(** ** Runs *)

(** Any sequence of operations, completed or broken off by an exception; [ar_other] stands for
    whatever leaves the lockers alone (admission, reset, the work of the base class). *)
Inductive ar_step (a : AR) : AR -> Prop :=
| ar_schedules ts : ar_step a (after (ar_schedule cfg ts a))
| ar_updates out runner : ar_step a (after (ar_update_from_output cfg block_hasher out runner a))
| ar_finishes ids st : ar_step a (after (ar_finish_requests cfg ids st a))
| ar_clears b : ar_step a (set_lockers (clear_session b) a)
| ar_other a' : ar_lockers a' = ar_lockers a -> ar_step a a'.
Inductive ar_reach : AR -> Prop :=
| ar_start a : ar_lockers a = mkLockers ∅ ∅ ∅ ∅ -> ar_reach a
| ar_next a a' : ar_reach a -> ar_step a a' -> ar_reach a'.

Lemma ar_reach_ok a : ar_reach a -> lockers_ok (ar_lockers a).
Proof.
  induction 1 as [a E|a a' _ IH Hs]; [rewrite E; apply lockers_init|]. destruct Hs as [ts|out runner|ids st|b|a' E].
  - by apply (ar_schedule_keeps lockers_ok).
  - apply (ar_update_keeps lockers_ok); try done; intros; [by apply lock_blocks_ok|by apply record_token_ok|by apply clear_session_ok].
  - apply (ar_finish_keeps lockers_ok); try done. intros; by apply clear_session_ok.
  - by apply clear_session_ok.
  - by rewrite E.
Qed.

(** ** What a new step is told *)

(** The message for a new request, given the lockers. *)
Definition told_new (l : Lockers) (nr nr' : NewRequestData) (payload : option Payload) : Prop :=
  let base_id := base_id_of (request_id (nr_args nr)) in
  nr' = wrap_new nr (injected l base_id nr).1 (injected l base_id nr).2 /\
  forall t, relayed_token l base_id = Some t ->
    exists p, payload = Some p /\ p !! "predicted_audio_token"%string = Some (ListData [t]) /\
      p !! "audio_history"%string = Some (ListData (history_of l base_id)).

Lemma wrap_one_ok prev nr (a : AR) o :
  requests (ar_base a) !! request_id (nr_args nr) = Some o ->
  exists nr' payload prev' a', wrap_one prev nr a = Ret (nr', payload, prev') a' /\ ar_base a' = ar_base a /\
    ar_lockers a' = ar_lockers a /\ told_new (ar_lockers a) nr nr' payload /\
    (in_stage_1 (request_id (nr_args nr)) = false -> a' = a).
Proof.
  intros Ho. unfold wrap_one, py_bind, py_get. rewrite Ho. unfold told_new.
  set (base_id := base_id_of _). destruct (injected (ar_lockers a) base_id nr) as [blocks n].
  assert (in_stage_1 (request_id (nr_args nr)) = false -> base_id = None) as Hno by (intros E; unfold base_id, base_id_of; by rewrite E).
  set (h := history_of (ar_lockers a) base_id).
  assert (exists a1, (match h with [] => py_ret tt | _ => py_modify (show_output o h) end) a = Ret tt a1 /\
    ar_base a1 = ar_base a /\ ar_lockers a1 = ar_lockers a /\ (base_id = None -> a1 = a)) as (a1 & -> & E1 & E2 & E3).
  { destruct h eqn:Eh; eexists; split_and!; try done. intros E. unfold h in Eh. by rewrite E in Eh. }
  destruct (relayed_token (ar_lockers a) base_id) as [t|] eqn:Et; simpl.
  - do 4 eexists. split_and!; [done|done|done|done| |].
    + intros t' [= <-]. eexists. split; [apply lookup_insert_eq|]. simpl. split.
      * rewrite lookup_insert_ne by done. apply lookup_insert_eq.
      * apply lookup_insert_eq.
    + intros E%Hno. by rewrite E in Et.
  - do 4 eexists. split_and!; [done|done|done|done|done|]. intros E%Hno. by apply E3.
Qed.

Lemma wrap_all_ok prev l (a : AR) :
  (forall nr, nr ∈ l -> is_Some (requests (ar_base a) !! request_id (nr_args nr))) ->
  exists res a', wrap_all prev l a = Ret res a' /\ ar_base a' = ar_base a /\ ar_lockers a' = ar_lockers a /\
    Forall2 (fun nr x => told_new (ar_lockers a) nr x.1 x.2) l res /\
    ((forall nr, nr ∈ l -> in_stage_1 (request_id (nr_args nr)) = false) -> a' = a).
Proof.
  revert prev a. induction l as [|nr l IH]; intros prev a Hl; simpl.
  - exists [], a. split_and!; try done.
  - destruct (Hl nr ltac:(left)) as [o Ho]. destruct (wrap_one_ok prev nr a o Ho) as (nr' & p & prev' & a1 & E & E1 & E2 & Ht & Hs).
    unfold py_bind. rewrite E. destruct (IH prev' a1) as (res & a2 & Er & R1 & R2 & R3 & R4).
    { intros x Hx. rewrite E1. apply Hl. by right. }
    rewrite Er. exists ((nr', p) :: res), a2. split_and!; try done.
    + congruence.
    + congruence.
    + constructor; [done|]. by rewrite <- E2.
    + intros Hn. rewrite R4; [apply Hs, Hn; left|]. intros x Hx. apply Hn. by right.
Qed.

(** ** What a step leaves *)


(** The blocks of the pass for request [i], if any. *)
Definition blocks_of (out : SchedulerOutput) (i : string) : exn + option (list (list Z)) :=
  match List.find (fun nr => String.eqb (request_id (nr_args nr)) i) (so_scheduled_new_reqs out) with
  | Some nr => inr (Some (nr_block_ids nr))
  | None =>
      match list_find (fun j => j = i) (cr_req_ids (so_scheduled_cached_reqs out)) with
      | Some (idx, _) => match cr_new_block_ids (so_scheduled_cached_reqs out) !! idx with
                         | Some b => inr b
                         | None => inl IndexError
                         end
      | None => inr None
      end
  end.
Lemma scheduled_blocks_eq out i (p : ARUpdate) : scheduled_blocks out i p = py_lift (blocks_of out i) p.
Proof.
  unfold scheduled_blocks, blocks_of. destruct (List.find _ _); [done|]. destruct (list_find _ _) as [[]|]; [|done].
  by destruct (_ !! _).
Qed.

(** The lockers after a step of session [b] that used [blocks] and sampled [t] first. *)
Definition step_lockers (b : string) (blocks : list (list Z)) (n t : Z) (l : Lockers) : Lockers :=
  lock_token b t (append_history b t (lock_blocks b blocks n l)).
Definition entries_of (h : list Z) (t : Z) : list (string * InfoEntry) :=
  [("audio_history"%string, ListData h); ("predicted_audio_token"%string, ListData [t])].

Lemma end_of_step_eq out i b part k o t ts blocks (a : AR) l rows kv' :
  str_split "_stage_1_" i = b :: part -> in_stage_1 i = true -> (head part ≫= py_int) = Some k -> t <> STOP_TOKEN ->
  blocks_of out i = inr (Some blocks) -> blocks <> [] ->
  kc_get_block_ids i (kv_cache_manager (ar_base a)) = Ret rows kv' ->
  let s := set_kv_cache_manager kv' (ar_base a) in
  let a1 := set_lockers (step_lockers b blocks (num_computed_tokens (object s o)) t) (set_ar_base s a) in
  let h := default [] (stage_output_history (ar_lockers a) !! b) ++ [t] in
  let a2 := match requests (ar_base a) !! stage_1_id b (S k) with
            | Some next => add_entries next (entries_of h t) a1
            | None => a1
            end in
  end_of_step cfg out i o (t :: ts) false (a, l) =
    Ret true (set_ar_base (write_object o (set_status FINISHED_STOPPED) s) a2, l).
Proof.
  intros Hsp Hin Hk Ht Hb Hne Hkv s a1 h a2. unfold end_of_step. rewrite Hin, Hsp. simpl negb. cbv iota.
  destruct part as [|p0 part]; [done|]. simpl in Hk. unfold py_bind at 1. simpl. rewrite Hk. unfold py_bind at 1. simpl.
  unfold extract_kv. unfold py_bind at 1 2. rewrite scheduled_blocks_eq, Hb. simpl. destruct blocks as [|b0 bl]; [done|].
  unfold on_object, on_ar, on_base, on_kv, get_object, py_gets, py_bind, py_zoom. simpl. rewrite Hkv. simpl.
  rewrite (proj2 (Z.eqb_neq t STOP_TOKEN) Ht). unfold py_ret, py_modify. simpl.
  unfold relay_token, py_bind, py_modify, py_get, py_ret. simpl. rewrite lookup_insert_eq. simpl.
  unfold a2, a1, update_object, py_modify. by destruct (requests (ar_base a) !! stage_1_id b (S k)).
Qed.

(** ** Requests of other stages *)

Lemma check_stop_shown_eq m p r : check_stop_shown m p (output_token_ids r) r = check_stop m p r.
Proof. done. Qed.

Lemma write_write o f g (s : Sched) : write_object o g (write_object o f s) = write_object o (fun r => g (f r)) s.
Proof.
  unfold write_object, object. simpl. rewrite lookup_total_insert, decide_True by done. by rewrite insert_insert_eq.
Qed.
Lemma object_written o f (s : Sched) : object (write_object o f s) o = f (object s o).
Proof. unfold write_object, object. simpl. by rewrite lookup_total_insert, decide_True. Qed.

(** An object whose [output_token_ids] was not replaced is updated as in the base class. *)
Lemma update_shown_cons o t ts (a : AR) :
  shown_output a !! o = None ->
  let r1 := append_output_token_ids block_hasher [t] (object (ar_base a) o) in
  let wrote r := set_ar_base (write_object o (fun _ => r) (ar_base a)) a in
  update_shown cfg block_hasher o (t :: ts) a =
  match check_stop (max_model_len cfg) None r1 with
  | inl e => Raise e (wrote r1)
  | inr (r2, true) => Ret ([t], true) (wrote r2)
  | inr (r2, false) => match update_shown cfg block_hasher o ts (wrote r2) with
                       | Ret (kept, st) a' => Ret (t :: kept, st) a'
                       | Raise e a' => Raise e a'
                       end
  end.
Proof.
  intros Hs r1 wrote. simpl. unfold on_base, py_bind, py_zoom, update_object, py_modify, py_get. simpl.
  unfold shown_tokens. simpl. rewrite Hs, object_written, check_stop_shown_eq. fold r1.
  destruct (check_stop _ None r1) as [e|[r2 []]]; simpl; rewrite ?write_write; [done|done|].
  match goal with |- match update_shown _ _ _ _ ?x with _ => _ end = _ => change x with (wrote r2) end.
  by destruct (update_shown cfg block_hasher o ts (wrote r2)) as [[]|].
Qed.

Lemma update_output_cons m r t ts :
  update_request_with_output block_hasher m r (t :: ts) =
  match check_stop m None (append_output_token_ids block_hasher [t] r) with
  | inl e => inl e
  | inr (r2, true) => inr (r2, ([t], true))
  | inr (r2, false) =>
      match update_request_with_output block_hasher m r2 ts with
      | inl e => inl e
      | inr (r3, (kept, stopped)) => inr (r3, (t :: kept, stopped))
      end
  end.
Proof. done. Qed.

Lemma update_shown_base o t ts (a : AR) r' res :
  shown_output a !! o = None ->
  update_request_with_output block_hasher (max_model_len cfg) (object (ar_base a) o) (t :: ts) = inr (r', res) ->
  update_shown cfg block_hasher o (t :: ts) a = Ret res (set_ar_base (write_object o (fun _ => r') (ar_base a)) a).
Proof.
  revert t a r' res. induction ts as [|t2 ts IH]; intros t a r' res Hs E; rewrite update_shown_cons by done;
    rewrite update_output_cons in E; destruct (check_stop _ None _) as [e|[r2 []]]; try done; try (by injection E as <- <-).
  set (a1 := set_ar_base _ a).
  destruct (update_request_with_output block_hasher (max_model_len cfg) r2 (t2 :: ts)) as [e|[r3 [kept st]]] eqn:E2; [done|].
  injection E as <- <-. rewrite (IH t2 a1 r3 (kept, st)); [|done|].
  - unfold a1. change (ar_base (set_ar_base ?s ?x)) with s. by rewrite write_write.
  - unfold a1. change (ar_base (set_ar_base ?s ?x)) with s. by rewrite object_written.
Qed.

(** [m'] does in the subclass what [m] does in the base class, when that returns. *)
Definition simulates {A} (a : AR) (m : py Update A) (m' : py ARUpdate A) : Prop :=
  forall s l x s' l', m (s, l) = Ret x (s', l') -> m' (set_ar_base s a, l) = Ret x (set_ar_base s' a, l').

Lemma sim_ret {A} a (x : A) : simulates a (py_ret x) (py_ret x).
Proof. intros s l y s' l' [= <- <- <-]. done. Qed.
Lemma sim_unwrap {A} a e (o : option A) : simulates a (py_unwrap e o) (py_unwrap e o).
Proof. intros s l y s' l'. destruct o; [|done]. by intros [= <- <- <-]. Qed.
Lemma sim_assert a b : simulates a (py_assert b) (py_assert b).
Proof. destruct b; [apply sim_ret|done]. Qed.
Lemma sim_bind {A B} a (m : py Update A) m' (k : A -> py Update B) k' :
  simulates a m m' -> (forall x, simulates a (k x) (k' x)) -> simulates a (py_bind m k) (py_bind m' k').
Proof.
  intros Hm Hk s l y s' l'. unfold py_bind. destruct (m (s, l)) as [x [s1 l1]|] eqn:E; [|done].
  rewrite (Hm _ _ _ _ _ E). apply Hk.
Qed.
Lemma sim_lift {A} a (m : py Update A) : simulates a m (lift_update m).
Proof. intros s l y s' l' E. unfold lift_update, py_zoom. simpl. by rewrite E. Qed.
Lemma sim_upd {A} a (m : py Sched A) : simulates a (upd m) (on_object m).
Proof.
  intros s l y s' l'. unfold upd, on_object, on_ar, on_base, py_zoom. simpl. destruct (m s) as [x s1|]; [|done].
  by intros [= -> <- <-].
Qed.
Lemma sim_for {A} a (l : list A) f f' : (forall x, x ∈ l -> simulates a (f x) (f' x)) -> simulates a (py_for l f) (py_for l f').
Proof.
  induction l as [|x l IH]; intros Hf; simpl; [apply sim_ret|]. apply sim_bind; [apply Hf; left|].
  intros _. apply IH. intros y Hy. apply Hf. by right.
Qed.
Lemma sim_update a o t ts :
  shown_output a = ∅ -> simulates a (upd (update_request cfg block_hasher o (t :: ts))) (on_ar (update_shown cfg block_hasher o (t :: ts))).
Proof.
  intros Hs s l y s' l' E.
  destruct (update_request_with_output block_hasher (max_model_len cfg) (object s o) (t :: ts)) as [e|[r' res]] eqn:Er;
    unfold upd, update_request, get_object, py_gets, py_bind, py_zoom in E; cbn [fst] in E; rewrite Er in E; [done|].
  injection E as <- <- <-. unfold on_ar, py_zoom. cbn [fst snd].
  rewrite (update_shown_base o t ts _ r' res); [done|by rewrite <- (lookup_empty o), <- Hs|exact Er].
Qed.
#[local] Hint Resolve sim_ret sim_unwrap sim_assert sim_lift sim_upd : keeps.

(** The scheduler does what the base class does with a batch of other stages. *)
Lemma live_sim a out runner i o :
  shown_output a = ∅ -> in_stage_1 i = false -> async_scheduling cfg = false -> pooler_output runner = [] ->
  simulates a (update_live cfg block_hasher out runner i o) (ar_update_live cfg block_hasher out runner i o).
Proof.
  intros Hs Hi Ha Hp. unfold update_live, ar_update_live. rewrite Ha, Hp. apply sim_bind; [auto with keeps|intros idx].
  apply sim_bind; [destruct (sampled_token_ids runner); auto with keeps|intros gen].
  apply sim_bind; [destruct (_ !! i) as [[]|]; auto with keeps|intros _].
  apply sim_bind; [apply sim_upd|intros st].
  apply sim_bind; [destruct gen; [auto with keeps|by apply sim_update]|intros [kept stop]].
  apply sim_bind; [auto with keeps|intros [pooled stop']]. unfold end_of_step. rewrite Hi. simpl negb. cbv iota.
  intros s l y s' l' E. unfold py_bind at 1. simpl. revert E. apply sim_bind; [destruct stop'; auto with keeps|]. intros kv. apply sim_lift.
Qed.

Lemma ar_update_base (a : AR) out runner res s' :
  shown_output a = ∅ -> async_scheduling cfg = false -> pooler_output runner = [] ->
  (forall i n, (i, n) ∈ so_num_scheduled_tokens out -> in_stage_1 i = false) ->
  update_from_output cfg block_hasher out runner (ar_base a) = Ret (res, []) s' ->
  ar_update_from_output cfg block_hasher out runner a = Ret res (set_ar_base s' a).
Proof.
  intros Hs Ha Hp Hi. unfold update_from_output, ar_update_from_output, on_base, py_bind, py_zoom.
  destruct (failed_loads cfg runner (ar_base a)) as [failed s1|]; [|done]. unfold update_loop.
  assert (simulates a (py_for (so_num_scheduled_tokens out) (update_one cfg block_hasher out runner failed))
                      (py_for (so_num_scheduled_tokens out) (ar_update_one cfg block_hasher out runner failed))) as HS.
  { apply sim_for. intros [i n] Hin. unfold update_one, ar_update_one. apply sim_bind; [apply sim_assert|intros _].
    destruct (decide (i ∈ failed)); [apply sim_ret|]. apply sim_bind; [apply sim_upd|intros s].
    destruct (requests s !! i); [|apply sim_ret]. apply live_sim; try done. by eapply Hi. }
  destruct (py_for _ (update_one _ _ _ _ _) _) as [[] [s2 l]|? []] eqn:E; [|done]. rewrite (HS _ _ _ _ _ E).
  unfold close_update, py_bind. cbn [ar_base set_ar_base].
  destruct (collect_events runner l s2) as [evs s3|]; [|done]. destruct (client_outputs cfg l s3) as [r s4|] eqn:E4; [|done].
  intros [= -> -> ->]. cbn [py_ret ar_base set_ar_base]. unfold py_ret. cbn [ar_base set_ar_base]. by rewrite E4.
Qed.

(** ** The properties *)

(** Aborting touches the lockers of the sessions it clears, and only those. *)
Definition clears (ids : list string) (st : RequestStatus) (b : string) : Prop :=
  exists rid, rid ∈ ids /\ should_clear_all rid st = true /\ session_of rid = b.
Definition same_session (l l' : Lockers) (b : string) : Prop :=
  stage_token_locker l' !! b = stage_token_locker l !! b /\ stage_block_locker l' !! b = stage_block_locker l !! b /\
  stage_history_count l' !! b = stage_history_count l !! b /\ stage_output_history l' !! b = stage_output_history l !! b.
Definition no_session (l : Lockers) (b : string) : Prop :=
  stage_token_locker l !! b = None /\ stage_block_locker l !! b = None /\
  stage_history_count l !! b = None /\ stage_output_history l !! b = None.

Lemma clear_loop ids st (a : AR) :
  exists a', py_for ids (fun rid => if should_clear_all rid st then py_modify (set_lockers (clear_session (session_of rid)))
                                    else py_ret tt) a = Ret tt a' /\
    (forall b, clears ids st b -> no_session (ar_lockers a') b) /\
    (forall b, ~ clears ids st b -> same_session (ar_lockers a) (ar_lockers a') b) /\
    (forall b, no_session (ar_lockers a) b -> no_session (ar_lockers a') b).
Proof.
  revert a. induction ids as [|rid ids IH]; intros a.
  - exists a. split_and!; try done. by intros b (r & []%not_elem_of_nil & _).
  - simpl. unfold py_bind. set (a1 := if should_clear_all rid st then set_lockers (clear_session (session_of rid)) a else a).
    replace ((if should_clear_all rid st then py_modify (set_lockers (clear_session (session_of rid))) else py_ret tt) a)
      with (Ret tt a1) by (unfold a1; by destruct (should_clear_all rid st)).
    destruct (IH a1) as (a' & E & H1 & H2 & H3). exists a'. split; [exact E|].
    assert (should_clear_all rid st = true -> no_session (ar_lockers a1) (session_of rid)) as Hgone.
    { intros Ec. unfold a1. rewrite Ec. unfold no_session. simpl. by rewrite !lookup_delete_eq. }
    assert (forall b, (should_clear_all rid st = true -> session_of rid <> b) -> same_session (ar_lockers a) (ar_lockers a1) b) as Hsame.
    { intros b Hb. unfold a1. destruct (should_clear_all rid st); [|done]. unfold same_session. simpl.
      rewrite !lookup_delete_ne by auto. done. }
    split_and!.
    + intros b (r & [->|Hr]%elem_of_cons & Hc & Hb); [apply H3; rewrite <- Hb; by apply Hgone|]. apply H1. by exists r.
    + intros b Hb. assert (~ clears ids st b) as Hn by (intros (r & Hr & Hc); apply Hb; exists r; split; [by right|done]).
      destruct (H2 b Hn) as (S1 & S2 & S3 & S4). destruct (Hsame b) as (T1 & T2 & T3 & T4).
      { intros Hc Hs. apply Hb. exists rid. split; [left|done]. }
      unfold same_session. by rewrite S1, S2, S3, S4, T1, T2, T3, T4.
    + intros b Hb. apply H3. destruct Hb as (B1 & B2 & B3 & B4). unfold a1. destruct (should_clear_all rid st); [|done].
      unfold no_session. simpl. rewrite !lookup_delete_None. auto.
Qed.

(** C16. The lockers stay consistent. After any sequence of passes, updates, abortions
    and clean-ups, whether they complete or are broken off by an exception, the token
    kept for a session is the last one of its history, a session in the history has at
    least one token, and blocks are kept exactly with their count. A pass leaves all
    lockers as they are; [finish_requests] forgets exactly the sessions it is to clear,
    entirely, and leaves every other session as it is. *)
Theorem lockers_consistent (a : AR) :
  ar_reach a ->
  let l := ar_lockers a in
  (forall b, stage_token_locker l !! b = stage_output_history l !! b ≫= last) /\
  (forall b, stage_output_history l !! b <> Some []) /\
  (forall b, is_Some (stage_block_locker l !! b) <-> is_Some (stage_history_count l !! b)) /\
  (forall ts, ar_lockers (after (ar_schedule cfg ts a)) = l) /\
  (forall ids st b, let l' := ar_lockers (after (ar_finish_requests cfg ids st a)) in
     (clears ids st b -> no_session l' b) /\ (~ clears ids st b -> same_session l l' b)).
Proof.
  intros (H1 & H2 & H3)%ar_reach_ok l. split_and!; try done.
  - intros ts. by apply (ar_schedule_keeps (fun x => x = l)).
  - intros ids st b. unfold ar_finish_requests, py_bind. destruct (clear_loop (remove_dups ids) st a) as (a' & -> & C1 & C2 & _).
    assert (ar_lockers (after (on_base (finish_requests cfg ids st) a')) = ar_lockers a') as ->.
    { unfold on_base, py_zoom. by destruct (finish_requests cfg ids st (ar_base a')). }
    assert (clears (remove_dups ids) st b <-> clears ids st b) as Hd.
    { unfold clears. by setoid_rewrite elem_of_remove_dups. }
    split; [intros Hc; apply C1; by apply Hd|intros Hc; apply C2; by rewrite Hd].
Qed.

(** C17. What a step of the talker leaves is what the next step is told. Suppose step
    [k] of session [b] (request [i]) was served with [blocks], sampled [t] first,
    neither the stop token nor 0 (a token 0 is not handed on), and did not stop
    otherwise. The end of the step ([end_of_step], the part of the update about it) then
    leaves it with status FINISHED_STOPPED; and in any later pass whose lockers are
    still those, a new stage-1 request of the session is sent the history extended by
    [t], the token [t], the blocks of the step and the number of tokens computed in all
    steps so far. *)
Theorem step_is_chained out i b part k o t ts blocks (a : AR) l rows kv' :
  str_split "_stage_1_" i = b :: part -> in_stage_1 i = true -> (head part ≫= py_int) = Some k ->
  t <> STOP_TOKEN -> t <> 0 -> b <> EmptyString -> blocks_of out i = inr (Some blocks) -> blocks <> [] ->
  kc_get_block_ids i (kv_cache_manager (ar_base a)) = Ret rows kv' ->
  exists a', end_of_step cfg out i o (t :: ts) false (a, l) = Ret true (a', l) /\
    status (object (ar_base a') o) = FINISHED_STOPPED /\ requests (ar_base a') = requests (ar_base a) /\
    forall a2 time base s, ar_lockers a2 = ar_lockers a' -> schedule cfg time (ar_base a2) = Ret base s ->
      (forall nr, nr ∈ so_scheduled_new_reqs base -> is_Some (requests s !! request_id (nr_args nr))) ->
      exists out2 a3 ps, ar_schedule cfg time a2 = Ret out2 a3 /\ ao_payloads out2 = Some ps /\
      forall j nr, so_scheduled_new_reqs (ao_output out2) !! j = Some nr -> base_id_of (request_id (nr_args nr)) = Some b ->
        nr_block_ids nr = blocks /\
        nr_num_computed_tokens nr = default 0 (stage_history_count (ar_lockers a) !! b) + num_computed_tokens (object (ar_base a) o) /\
        exists p, ps !! j = Some (Some p) /\ p !! "predicted_audio_token"%string = Some (ListData [t]) /\
          p !! "audio_history"%string = Some (ListData (default [] (stage_output_history (ar_lockers a) !! b) ++ [t])).
Proof.
  intros H1 H2 H3 H4 H5 Hb H6 H7 H8. eexists. split; [by eapply end_of_step_eq|].
  set (n := num_computed_tokens _). match goal with |- context [set_ar_base _ ?x] => set (a1 := x) end.
  assert (ar_lockers a1 = step_lockers b blocks n t (ar_lockers a)) as El by (unfold a1; by destruct (requests (ar_base a) !! _)).
  split_and!; [change (ar_base (set_ar_base ?s ?x)) with s; by rewrite object_written|done|].
  intros a2 time base s Ea2 Es Hlive. change (ar_lockers (set_ar_base _ a1)) with (ar_lockers a1) in Ea2. rewrite El in Ea2.
  destruct (wrap_all_ok None (so_scheduled_new_reqs base) (set_ar_base s a2)) as (res & a4 & Ew & E1 & E2 & HT & _); [done|].
  exists (mkAROutput (with_new_reqs (map fst res) base) (Some (map snd res))), a4, (map snd res). split_and!; [|done|].
  { unfold ar_schedule, py_bind, on_base, py_zoom. by rewrite Es, Ew. }
  simpl. intros j nr Hj Hbase. rewrite list_lookup_fmap in Hj. destruct (res !! j) as [[nr' p]|] eqn:Er; [|done].
  simpl in Hj. injection Hj as ->. destruct (Forall2_lookup_r _ _ _ _ _ HT Er) as (nr0 & Hnr0 & Enr & Hp). cbn [fst snd] in *.
  change (ar_lockers (set_ar_base s a2)) with (ar_lockers a2) in *. subst nr. simpl in Hbase. rewrite Hbase, Ea2 in *.
  destruct blocks as [|b0 bl]; [done|]. unfold injected, truthy, relayed_token, history_of in *. destruct b as [|c b']; [done|].
  simpl in *. rewrite !lookup_insert_eq in *. split_and!; try done. rewrite (proj2 (Z.eqb_neq t 0) H5) in Hp.
  destruct (Hp t eq_refl) as (pl & -> & P1 & P2). exists pl. rewrite list_lookup_fmap, Er. by split_and!.
Qed.

(** C35. For the requests of other stages the scheduler is the base scheduler: when
    none of the new requests of a pass, or none of the requests of a batch, is a step of
    stage 1, the pass and the update do what those of the base class do (which is
    verified in [Serving]); lockers, payloads and token views are left alone. The new
    requests are sent with their payloads and without their prefill tokens. For the
    update: no [output_token_ids] was replaced, the model has no pooled output, and there
    are no KV events. *)
Theorem other_stages_as_base (a : AR) :
  (forall time base s,
     schedule cfg time (ar_base a) = Ret base s ->
     (forall nr, nr ∈ so_scheduled_new_reqs base -> is_Some (requests s !! request_id (nr_args nr)) /\
        in_stage_1 (request_id (nr_args nr)) = false) ->
     exists ps, ar_schedule cfg time a = Ret (mkAROutput (with_new_reqs
       (map (fun nr => wrap_new nr (nr_block_ids nr) (nr_num_computed_tokens nr)) (so_scheduled_new_reqs base)) base) (Some ps))
       (set_ar_base s a)) /\
  (forall out runner res s',
     shown_output a = ∅ -> async_scheduling cfg = false -> pooler_output runner = [] ->
     (forall i n, (i, n) ∈ so_num_scheduled_tokens out -> in_stage_1 i = false) ->
     update_from_output cfg block_hasher out runner (ar_base a) = Ret (res, []) s' ->
     ar_update_from_output cfg block_hasher out runner a = Ret res (set_ar_base s' a)).
Proof.
  split; [|intros; by apply ar_update_base]. intros time base s Es Hnew.
  destruct (wrap_all_ok None (so_scheduled_new_reqs base) (set_ar_base s a)) as (res & a4 & Ew & _ & _ & HT & Hsame).
  { intros nr Hnr. by apply Hnew. }
  rewrite Hsame in Ew by (intros nr Hnr; by apply Hnew).
  exists (map snd res). unfold ar_schedule, py_bind, on_base, py_zoom. rewrite Es, Ew. do 3 f_equal.
  change (ar_lockers (set_ar_base s a)) with (ar_lockers a) in HT. clear -HT Hnew.
  induction HT as [|nr x l res [E _] _ IH]; simpl; [done|]. rewrite IH by (intros y Hy; apply Hnew; by right).
  destruct (Hnew nr ltac:(left)) as [_ Hs]. rewrite E. unfold base_id_of. by rewrite Hs.
Qed.
End ar.
