(* ===== verification/ARDemo.v ===== *)
(** The scheduler of autoregressive stages on a concrete talker: the theorems of
    [ARProofs] applied to a run, and what happens when two sessions interleave. *)
From stdpp Require Import gmap strings list pretty.
From Stdlib Require Import ZArith Lia.
From S2P Require Import Prelude Request RequestQueue EncoderCache BlockPool SingleType Coordinator KVCacheManager.
From S2P Require Import SchedulerData Scheduler Serving ServingDemo SchedulerFaults DuplexStream OmniAR ARProofs.
From S2P Require Import KVCacheInv.
Open Scope Z_scope.
#[local] Existing Instance no_collaborators.

Notation Talker := (ARScheduler FCFSRequestQueue KVCacheManager unit).
(** A budget of eight tokens, four usable blocks of two tokens. *)
Notation talker_config := (fault_config FCFS 4 8 9 0 None).
Definition talker_start : Talker :=
  mkAR (fault_start FCFS 4 8 9 0 None FCFSRequestQueue 5) (mkLockers ∅ ∅ ∅ ∅) ∅ ∅.

Definition talker_add (id : string) (o : Z) (toks : list Z) : py Talker unit :=
  on_base (scheduler_add_request talker_config (fault_request id o 0 toks 8 0 None) 0).
(** The model samples [tok] for every request. *)
Definition talker_model (tok : Z) (out : SchedulerOutput) : ModelRunnerOutput :=
  let e := so_num_scheduled_tokens out in
  mkModelRunnerOutput (list_to_map (imap (fun k e => (e.1, k)) e)) (map (fun _ => [tok]) e) ∅ [] None None.

(** The first step of session A, which samples 7. *)
Definition first_step : py Talker SchedulerOutput :=
  do! talker_add "A_stage_1_0" 1 [1; 2];
  let! out := ar_schedule talker_config 0 in
  do! ar_update_from_output talker_config None (ao_output out) (talker_model 7 (ao_output out));
  py_ret (ao_output out).
(** Its second step arrives together with the first one of session B. *)
Definition second_pass : py Talker AROutput :=
  do! first_step;
  do! talker_add "A_stage_1_1" 2 [3];
  do! talker_add "B_stage_1_0" 3 [4; 5; 6; 7; 8];
  ar_schedule talker_config 1.

(** ** Two sessions *)

Definition talker_end : Talker := state_of talker_start (second_pass talker_start).
Definition second_output : AROutput := result_of (mkAROutput empty_pass None) (second_pass talker_start).
(** The ids, blocks and computed tokens that a pass sends for its new requests; the blocks
    that the KV-cache manager holds for a request. *)
Definition told_blocks (out : AROutput) : list (string * list (list Z) * Z) :=
  map (fun nr => (request_id (nr_args nr), nr_block_ids nr, nr_num_computed_tokens nr)) (so_scheduled_new_reqs (ao_output out)).
Definition held_blocks (a : Talker) (id : string) : list (list Z) :=
  map (fun m => tab m id) (single_type_managers (coordinator (kv_cache_manager (ar_base a)))).

(** Sessions overwrite each other's KV memory. The blocks kept for a session are
    those of a step that has ended, so the KV-cache manager has freed them and gives them
    to others. The second step of session A is sent block 1 of its first step, as if two
    tokens in it were its own; the manager has allocated block 2 for it, and block 1 to
    session B, which is sent block 1 in the same pass. *)
Theorem sessions_share_blocks :
  told_blocks second_output = [("A_stage_1_1"%string, [[1]], 2); ("B_stage_1_0"%string, [[3; 4; 1]], 0)] /\
  held_blocks talker_end "A_stage_1_1" = [[2]] /\ held_blocks talker_end "B_stage_1_0" = [[3; 4; 1]] /\
  held_blocks talker_end "A_stage_1_0" = [[]].
Proof. split_and!; by vm_compute. Qed.

(** ** The theorems on the run *)

Definition step_added : Talker := state_of talker_start (talker_add "A_stage_1_0" 1 [1; 2] talker_start).
Definition step_output : SchedulerOutput :=
  ao_output (result_of (mkAROutput empty_pass None) (ar_schedule talker_config 0 step_added)).
Definition step_running : Talker := state_of talker_start (ar_schedule talker_config 0 step_added).
Definition step_done : Talker :=
  state_of talker_start (ar_update_from_output talker_config None step_output (talker_model 7 step_output) step_running).
Lemma step_reached : ar_reach talker_config None step_done.
Proof.
  replace step_done with (after (ar_update_from_output talker_config None step_output (talker_model 7 step_output) step_running))
    by (by vm_compute).
  eapply ar_next; [|apply ar_updates].
  replace step_running with (after (ar_schedule talker_config 0 step_added)) by (by vm_compute).
  eapply ar_next; [|apply ar_schedules]. eapply ar_next; [apply (ar_start _ _ talker_start); done|].
  apply ar_other. by vm_compute.
Qed.

(** After the first step, token 7 is kept for session A; aborting the session forgets it. *)
Lemma lockers_consistent_witness :
  stage_token_locker (ar_lockers step_done) !! "A"%string = Some 7 /\
  stage_output_history (ar_lockers step_done) !! "A"%string = Some [7] /\
  no_session (ar_lockers (after (ar_finish_requests talker_config ["A_stage_1_1"%string] FINISHED_ABORTED step_done))) "A".
Proof.
  destruct (lockers_consistent talker_config None step_done step_reached) as (H1 & _ & _ & _ & H5).
  assert (stage_output_history (ar_lockers step_done) !! "A"%string = Some [7]) as E by (by vm_compute).
  split_and!; [rewrite H1, E; reflexivity|exact E|].
  apply (H5 ["A_stage_1_1"%string] FINISHED_ABORTED "A"%string). exists "A_stage_1_1"%string.
  split_and!; [left|by vm_compute..].
Defined.

Definition no_locals : UpdateLocals := mkUpdateLocals [] None ∅ ∅.
(** The end of the step, and the state in which its successor has arrived. *)
Definition step_ended : Talker :=
  (state_of (talker_start, no_locals) (end_of_step talker_config step_output "A_stage_1_0" 1 [7] false (step_running, no_locals))).1.
Definition next_added : Talker :=
  state_of talker_start (talker_add "A_stage_1_1" 2 [3] step_done).
Definition next_output : SchedulerOutput := result_of empty_pass (schedule talker_config 1 (ar_base next_added)).
Definition next_state := state_of (ar_base talker_start) (schedule talker_config 1 (ar_base next_added)).
Lemma next_ids : map (fun nr => request_id (nr_args nr)) (so_scheduled_new_reqs next_output) = ["A_stage_1_1"%string].
Proof. by vm_compute. Qed.
Lemma next_known : requests next_state !! "A_stage_1_1"%string = Some 2.
Proof. by vm_compute. Qed.
Lemma step_ended_eq :
  end_of_step talker_config step_output "A_stage_1_0" 1 [7] false (step_running, no_locals) = Ret true (step_ended, no_locals).
Proof. by vm_compute. Qed.
Lemma next_lockers : ar_lockers next_added = ar_lockers step_ended.
Proof. by vm_compute. Qed.
Lemma next_schedule : schedule talker_config 1 (ar_base next_added) = Ret next_output next_state.
Proof. by vm_compute. Qed.
Lemma step_rows : exists rows kv', kc_get_block_ids "A_stage_1_0" (kv_cache_manager (ar_base step_running)) = Ret rows kv'.
Proof. eexists _, _. by vm_compute. Qed.
Lemma step_counts : default 0 (stage_history_count (ar_lockers step_running) !! "A"%string) + num_computed_tokens (object (ar_base step_running) 1) = 2 /\
  default [] (stage_output_history (ar_lockers step_running) !! "A"%string) = [].
Proof. by vm_compute. Qed.
Lemma step_blocks : blocks_of step_output "A_stage_1_0" = inr (Some [[1]]).
Proof. by vm_compute. Qed.
#[local] Opaque step_running step_output next_added next_output next_state step_ended.

Lemma ret_state {S T A} (x y : A) (a b : S) (l m : T) : Ret x (a, l) = Ret y (b, m) -> b = a.
Proof. by intros [= _ <- _]. Qed.

(** The second step is sent token 7, the history [7], block 1 and two computed tokens. *)
Lemma step_is_chained_witness :
  exists out2 a3 ps, ar_schedule talker_config 1 next_added = Ret out2 a3 /\ ao_payloads out2 = Some ps /\
    forall j nr, so_scheduled_new_reqs (ao_output out2) !! j = Some nr ->
      base_id_of (request_id (nr_args nr)) = Some "A"%string ->
      nr_block_ids nr = [[1]] /\ nr_num_computed_tokens nr = 2 /\
      exists p, ps !! j = Some (Some p) /\ p !! "predicted_audio_token"%string = Some (ListData [7]) /\
        p !! "audio_history"%string = Some (ListData [7]).
Proof.
  destruct step_rows as (rows & kv' & Hkv). destruct step_counts as [Hn Hh].
  destruct (step_is_chained talker_config step_output "A_stage_1_0" "A" ["0"%string] 0 1 7 [] [[1]] step_running no_locals rows kv')
    as (a' & E & _ & _ & H); [reflexivity|reflexivity|reflexivity|done|done|done|apply step_blocks|done|exact Hkv|].
  apply (eq_trans (eq_sym step_ended_eq)) in E. apply ret_state in E. subst a'. rewrite Hn, Hh in H.
  apply (H next_added 1 next_output next_state next_lockers next_schedule).
  intros nr Hnr. assert (request_id (nr_args nr) = "A_stage_1_1"%string) as ->.
  { apply (list_elem_of_fmap_2 (fun nr => request_id (nr_args nr))) in Hnr. change (request_id (nr_args nr) ∈
      map (fun nr => request_id (nr_args nr)) (so_scheduled_new_reqs next_output)) in Hnr. rewrite next_ids in Hnr.
    by apply list_elem_of_singleton in Hnr. }
  rewrite next_known. by eexists.
Defined.

(** A request of the thinker is served as by the base class. *)
Definition thinker_added : Talker := state_of talker_start (talker_add "A" 1 [1; 2] talker_start).
Definition thinker_pass : SchedulerOutput := result_of empty_pass (schedule talker_config 0 (ar_base thinker_added)).
Definition thinker_state := state_of (ar_base talker_start) (schedule talker_config 0 (ar_base thinker_added)).
Definition thinker_result := update_from_output talker_config None thinker_pass (talker_model 9 thinker_pass) thinker_state.
Lemma thinker_returns : thinker_result = Ret ((result_of ([], []) thinker_result).1, []) (state_of thinker_state thinker_result).
Proof. by vm_compute. Qed.
Lemma thinker_batch : so_num_scheduled_tokens thinker_pass = [("A"%string, 2)].
Proof. by vm_compute. Qed.
#[local] Opaque thinker_pass thinker_state.
Lemma other_stages_as_base_witness :
  ar_update_from_output talker_config None thinker_pass (talker_model 9 thinker_pass) (set_ar_base thinker_state talker_start)
    = Ret (result_of ([], []) thinker_result).1 (set_ar_base (state_of thinker_state thinker_result) talker_start).
Proof.
  destruct (other_stages_as_base talker_config None (set_ar_base thinker_state talker_start)) as [_ H].
  apply (H thinker_pass (talker_model 9 thinker_pass)); [done|done|done| |exact thinker_returns].
  intros i n Hin. rewrite thinker_batch in Hin. apply list_elem_of_singleton in Hin. injection Hin as -> _. reflexivity.
Defined.
