(* ===== verification/KVConfig.v ===== *)
(** KV-cache configuration: from the KV-cache specs of the layers and the memory of the
    workers to the groups of layers, the tensors and the number of blocks
    ([v1/kv_cache_interface.py], second half of [v1/core/kv_cache_utils.py]).

    The configuration object is shared and written to ([max_model_len] while a length is
    searched), so the operations are computations on it. Dicts are lists of entries in
    insertion order. *)
From stdpp Require Import gmap strings list sorting.
From Stdlib Require Import ZArith QArith Lia.
From S2P Require Import Prelude SingleType Coordinator.
Open Scope Z_scope.

(** ** Layer specs *)

(** The fields of [AttentionSpec]; a dtype is an opaque name. *)
Record AttentionSpec := mkAttention {
  block_size : Z;
  num_kv_heads : Z;
  head_size : Z;
  dtype : Z
}.
#[export] Instance AttentionSpec_eq_dec : EqDecision AttentionSpec.
Proof. solve_decision. Defined.

Inductive KVCacheSpec :=
| FullAttentionSpec (a : AttentionSpec) (sliding_window attention_chunk_size : option Z)
| MLAAttentionSpec (a : AttentionSpec) (sliding_window attention_chunk_size : option Z) (cache_dtype_str : option string)
| ChunkedLocalAttentionSpec (a : AttentionSpec) (attention_chunk_size : Z)
| SlidingWindowSpec (a : AttentionSpec) (sliding_window : Z)
| MambaSpec (block_size : Z) (shapes : list (list Z)) (dtypes : list Z) (page_size_padded : option Z)
            (mamba_type : string) (num_speculative_blocks : Z)
| EncoderOnlyAttentionSpec (a : AttentionSpec)
| CrossAttentionSpec (a : AttentionSpec).
(** Frozen dataclasses are equal when class and fields are. *)
#[export] Instance layer_spec_eq_dec : EqDecision KVCacheSpec.
Proof. solve_decision. Defined.

(** The spec of a group: of one layer, or of layers of one type and several sizes. *)
Inductive GroupSpec :=
| LayerSpec (s : KVCacheSpec)
| UniformTypeKVCacheSpecs (block_size : Z) (kv_cache_specs : list (string * KVCacheSpec)).

Record KVCacheGroupSpec := mkGroup { layer_names : list string; group_spec : GroupSpec }.
Record KVCacheTensor := mkTensor { tensor_size : Z; shared_by : list string }.
Record KVCacheConfig := mkKVConfig {
  num_blocks : Z;
  kv_cache_tensors : list KVCacheTensor;
  kv_cache_groups : list KVCacheGroupSpec
}.

(** What is read of [VllmConfig]. *)
Record VllmConfig := mkVllmConfig {
  max_model_len : Z;
  max_num_batched_tokens : Z;
  max_num_encoder_input_tokens : Z;
  decode_context_parallel_size : Z;
  prefill_context_parallel_size : Z;
  num_gpu_blocks_override : option Z;
  disable_hybrid_kv_cache_manager : bool
}.
Definition set_max_model_len (n : Z) (c : VllmConfig) : VllmConfig :=
  mkVllmConfig n (max_num_batched_tokens c) (max_num_encoder_input_tokens c) (decode_context_parallel_size c)
    (prefill_context_parallel_size c) (num_gpu_blocks_override c) (disable_hybrid_kv_cache_manager c).

Notation Cfg A := (py VllmConfig A).

(** [a // b] and [cdiv(a, b)] *)
Definition py_div {S} (a b : Z) : py S Z := if b =? 0 then py_raise ZeroDivisionError else py_ret (a / b).
Definition py_cdiv {S} (a b : Z) : py S Z := if b =? 0 then py_raise ZeroDivisionError else py_ret (cdiv a b).

Definition sum_of (l : list Z) : Z := foldr Z.add 0 l.
(** [max(l)] and [min(l)] *)
Definition py_max {S} (l : list Z) : py S Z :=
  match l with [] => py_raise ValueError | x :: l' => py_ret (foldr Z.max x l') end.
Definition py_min {S} (l : list Z) : py S Z :=
  match l with [] => py_raise ValueError | x :: l' => py_ret (foldr Z.min x l') end.

Section specs.
(** [torch.dtype.itemsize] *)
Context (get_dtype_size : Z -> Z).

Definition spec_block_size (s : KVCacheSpec) : Z :=
  match s with
  | FullAttentionSpec a _ _ | MLAAttentionSpec a _ _ _ | ChunkedLocalAttentionSpec a _ | SlidingWindowSpec a _
  | EncoderOnlyAttentionSpec a | CrossAttentionSpec a => block_size a
  | MambaSpec bs _ _ _ _ _ => bs
  end.

Definition attention_page_size (a : AttentionSpec) : Z :=
  2 * block_size a * num_kv_heads a * head_size a * get_dtype_size (dtype a).
Definition mla_page_size (a : AttentionSpec) (cache_dtype_str : option string) : Z :=
  if decide (cache_dtype_str = Some "fp8_ds_mla"%string) then block_size a * 656
  else block_size a * num_kv_heads a * head_size a * get_dtype_size (dtype a).
Definition mamba_page_size {S} (shapes : list (list Z)) (dtypes : list Z) (padded : option Z) : py S Z :=
  let page_size := sum_of (zip_with (fun shape d => foldr Z.mul 1 shape * get_dtype_size d) shapes dtypes) in
  match padded with
  | Some p => do! py_assert (page_size <=? p); py_ret p
  | None => py_ret page_size
  end.
Definition page_size_bytes {S} (s : KVCacheSpec) : py S Z :=
  match s with
  | MLAAttentionSpec a _ _ c => py_ret (mla_page_size a c)
  | MambaSpec _ shapes dtypes padded _ _ => mamba_page_size shapes dtypes padded
  | FullAttentionSpec a _ _ | ChunkedLocalAttentionSpec a _ | SlidingWindowSpec a _
  | EncoderOnlyAttentionSpec a | CrossAttentionSpec a => py_ret (attention_page_size a)
  end.

(** Tokens for which a layer needs slots, at most; one block more where a window need not
    start at a block. *)
Definition max_tokens_of (s : KVCacheSpec) : Cfg (Z * Z) :=
  let! c := py_get in
  let len := max_model_len c in
  match s with
  | FullAttentionSpec _ _ _ | MLAAttentionSpec _ _ _ _ =>
      let w := decode_context_parallel_size c * prefill_context_parallel_size c in
      if 1 <? w then py_ret (cdiv len w, 0) else py_ret (len, 0)
  | ChunkedLocalAttentionSpec _ chunk => py_ret (Z.min (chunk + max_num_batched_tokens c) len, 0)
  | SlidingWindowSpec _ window =>
      do! py_assert (decode_context_parallel_size c =? 1);
      py_ret (Z.min (window - 1 + max_num_batched_tokens c) len, 1)
  | MambaSpec _ _ _ _ _ _ => py_ret (len, 0)
  | EncoderOnlyAttentionSpec _ => py_ret (0, 0)
  | CrossAttentionSpec _ => py_ret (max_num_encoder_input_tokens c, 0)
  end.
Definition spec_max_memory (s : KVCacheSpec) : Cfg Z :=
  match s with
  | EncoderOnlyAttentionSpec _ => py_ret 0
  | _ =>
      let! '(tokens, extra) := max_tokens_of s in
      let! blocks := py_cdiv tokens (spec_block_size s) in
      let! page := page_size_bytes s in
      py_ret ((blocks + extra) * page)
  end.

Definition group_block_size (g : GroupSpec) : Z :=
  match g with LayerSpec s => spec_block_size s | UniformTypeKVCacheSpecs bs _ => bs end.
Definition group_page_size (g : GroupSpec) : Cfg Z :=
  match g with
  | LayerSpec s => page_size_bytes s
  | UniformTypeKVCacheSpecs _ specs => let! l := py_map (fun e => page_size_bytes e.2) specs in py_ret (sum_of l)
  end.
Definition group_max_memory (g : GroupSpec) : Cfg Z :=
  match g with
  | LayerSpec s => spec_max_memory s
  | UniformTypeKVCacheSpecs _ specs =>
      let! pages := py_map (fun e =>
        let! m := spec_max_memory e.2 in
        let! p := page_size_bytes e.2 in
        py_cdiv m p) specs in
      let! max_num_pages := py_max pages in
      let! page := group_page_size g in
      py_ret (max_num_pages * page)
  end.

(** ** Merging *)

(** [KVCacheSpec.merge] *)
Definition merge_equal (specs : list KVCacheSpec) : Cfg KVCacheSpec :=
  let! first := py_unwrap IndexError (head specs) in
  do! py_assert (forallb (fun s => bool_decide (s = first)) (tail specs));
  py_ret first.

Definition is_full (s : KVCacheSpec) : bool :=
  match s with FullAttentionSpec _ _ _ | MLAAttentionSpec _ _ _ _ => true | _ => false end.
Definition is_mla (s : KVCacheSpec) : bool := match s with MLAAttentionSpec _ _ _ _ => true | _ => false end.
Definition attention_of (s : KVCacheSpec) : option AttentionSpec :=
  match s with
  | FullAttentionSpec a _ _ | MLAAttentionSpec a _ _ _ | ChunkedLocalAttentionSpec a _ | SlidingWindowSpec a _
  | EncoderOnlyAttentionSpec a | CrossAttentionSpec a => Some a
  | MambaSpec _ _ _ _ _ _ => None
  end.
(** [sliding_window] and [attention_chunk_size] of a full-attention spec. *)
Definition window_of (s : KVCacheSpec) : option Z :=
  match s with FullAttentionSpec _ w _ | MLAAttentionSpec _ w _ _ => w | _ => None end.
Definition chunk_of (s : KVCacheSpec) : option Z :=
  match s with FullAttentionSpec _ _ c | MLAAttentionSpec _ _ c _ => c | _ => None end.
Definition cache_dtype_of (s : KVCacheSpec) : option string :=
  match s with MLAAttentionSpec _ _ _ c => c | _ => None end.

(** [merge_window_sizes], of a set *)
Definition merge_window_sizes (sizes : list Z) : Cfg (option Z) :=
  match remove_dups sizes with
  | [] => py_ret None
  | [w] => py_ret (Some w)
  | _ => py_raise ValueError
  end.

(** [FullAttentionSpec.merge] *)
Definition merge_full (first : AttentionSpec) (specs : list KVCacheSpec) : Cfg KVCacheSpec :=
  do! py_assert (forallb is_full specs);
  do! py_assert (negb (existsb is_mla specs));
  let! window := merge_window_sizes (omap window_of specs) in
  let! chunk := merge_window_sizes (omap chunk_of specs) in
  do! py_assert (forallb (fun s => bool_decide (attention_of s = Some first)) specs);
  do! py_assert (negb (bool_decide (is_Some window) && bool_decide (is_Some chunk)));
  py_ret (FullAttentionSpec first window chunk).

(** [MLAAttentionSpec.merge]: the fields of the first spec; windows are dropped. *)
Definition merge_mla (first : AttentionSpec) (specs : list KVCacheSpec) : Cfg KVCacheSpec :=
  do! py_assert (forallb is_mla specs);
  match remove_dups (map cache_dtype_of specs) with
  | [c] => py_ret (MLAAttentionSpec first None None c)
  | _ => py_raise AssertionError
  end.

(** [specs[0].merge(specs)] *)
Definition merge (specs : list KVCacheSpec) : Cfg KVCacheSpec :=
  match specs with
  | FullAttentionSpec a _ _ :: _ => merge_full a specs
  | MLAAttentionSpec a _ _ _ :: _ => merge_mla a specs
  | _ => merge_equal specs
  end.

(** ** Uniformity *)

Notation Specs := (list (string * KVCacheSpec)).

Definition py_try {A} (m : Cfg A) (handler : exn -> option (Cfg A)) : Cfg A := fun c =>
  match m c with
  | Ret a c' => Ret a c'
  | Raise e c' => match handler e with Some h => h c' | None => Raise e c' end
  end.

Definition is_kv_cache_spec_uniform (kv_cache_spec : Specs) : Cfg bool :=
  match kv_cache_spec with
  | [] => py_ret true
  | _ => py_try (do! merge (map snd kv_cache_spec); py_ret true)
           (fun e => if decide (e = AssertionError) then Some (py_ret false) else None)
  end.

(** [UniformTypeKVCacheSpecs.is_uniform_type] *)
Definition same_type (one s : KVCacheSpec) : bool :=
  match one, s with
  | FullAttentionSpec _ _ _, _ | MLAAttentionSpec _ _ _ _, _ => is_full s
  | CrossAttentionSpec _, CrossAttentionSpec _ => true
  | SlidingWindowSpec _ w, SlidingWindowSpec _ w' => w' =? w
  | ChunkedLocalAttentionSpec _ n, ChunkedLocalAttentionSpec _ n' => n' =? n
  | MambaSpec _ _ _ _ _ n, MambaSpec _ _ _ _ _ n' => n' =? n
  | _, _ => false
  end.
Definition is_uniform_type (kv_cache_specs : Specs) : Cfg bool :=
  if (1 <? length (remove_dups (map (fun e => spec_block_size e.2) kv_cache_specs)))%nat then py_ret false else
  let! one := py_unwrap StopIteration (head kv_cache_specs) in
  match one.2 with
  | EncoderOnlyAttentionSpec _ => py_raise NotImplementedError
  | s => py_ret (forallb (fun e => same_type s e.2) kv_cache_specs)
  end.
Definition from_specs (kv_cache_specs : Specs) : Cfg (option GroupSpec) :=
  let! u := is_uniform_type kv_cache_specs in
  if (u : bool) then
    let! one := py_unwrap StopIteration (head kv_cache_specs) in
    py_ret (Some (UniformTypeKVCacheSpecs (spec_block_size one.2) kv_cache_specs))
  else py_ret None.

(** ** Groups *)

Definition create_kv_cache_group_specs (kv_cache_spec : Specs) (grouped_layer_names : list (list string))
    : Cfg (list KVCacheGroupSpec) :=
  py_map (fun names =>
    let! layer_specs := py_map (fun n => py_unwrap KeyError (dict_get n kv_cache_spec)) names in
    let! merged := merge layer_specs in
    py_ret (mkGroup names (LayerSpec merged))) grouped_layer_names.

(** [replace(layer_spec, block_size=n)] *)
Definition with_block_size (n : Z) (s : KVCacheSpec) : KVCacheSpec :=
  let set a := mkAttention n (num_kv_heads a) (head_size a) (dtype a) in
  match s with
  | FullAttentionSpec a w c => FullAttentionSpec (set a) w c
  | MLAAttentionSpec a w c d => MLAAttentionSpec (set a) w c d
  | ChunkedLocalAttentionSpec a c => ChunkedLocalAttentionSpec (set a) c
  | SlidingWindowSpec a w => SlidingWindowSpec (set a) w
  | MambaSpec _ shapes dtypes p t k => MambaSpec n shapes dtypes p t k
  | EncoderOnlyAttentionSpec a => EncoderOnlyAttentionSpec (set a)
  | CrossAttentionSpec a => CrossAttentionSpec (set a)
  end.

Definition unify_layer (max_page_size : Z) (e : string * KVCacheSpec) : Cfg (string * KVCacheSpec) :=
  let! layer_page_size := page_size_bytes e.2 in
  if layer_page_size =? max_page_size then py_ret e else
  if layer_page_size =? 0 then py_raise ZeroDivisionError else
  if negb (max_page_size mod layer_page_size =? 0) then py_raise NotImplementedError else
  let new_spec := with_block_size (spec_block_size e.2 * (max_page_size / layer_page_size)) e.2 in
  let! new_page := page_size_bytes new_spec in
  do! py_assert (new_page =? max_page_size);
  py_ret (e.1, new_spec).
Definition unify_kv_cache_spec_page_size (kv_cache_spec : Specs) : Cfg Specs :=
  let! page_sizes := py_map (fun e => page_size_bytes e.2) kv_cache_spec in
  if (length (remove_dups page_sizes) <=? 1)%nat then py_ret kv_cache_spec else
  let! max_page_size := py_max page_sizes in
  py_map (unify_layer max_page_size) kv_cache_spec.

(** [same_type_layers]: the layers of each spec, in order of first appearance. *)
Definition group_by_spec (kv_cache_spec : Specs) : list (KVCacheSpec * list string) :=
  fold_left (fun d e => dict_set e.2 (default [] (dict_get e.2 d) ++ [e.1]) d) kv_cache_spec [].

(** [layers[i::n]] *)
Fixpoint stride_from {A} (i n k : nat) (l : list A) : list A :=
  match l with
  | [] => []
  | x :: l' => if (k mod n =? i mod n)%nat && (i <=? k)%nat then x :: stride_from i n (S k) l' else stride_from i n (S k) l'
  end.
Definition stride {A} (i n : nat) (l : list A) : list A := stride_from i n 0 l.

(** The sizes are small integers, for which [min * 1.25] is exact. *)
Definition group_size_of (sizes : list Z) : Cfg Z :=
  let! min_num_layers := py_min sizes in
  let! max_num_layers := py_max sizes in
  py_ret (if 4 * max_num_layers <? 5 * min_num_layers then max_num_layers else min_num_layers).
Definition split_layers (group_size : Z) (layers : list string) : list (list string) :=
  let num_groups := Z.to_nat (cdiv (Z.of_nat (length layers)) group_size) in
  map (fun i => stride i num_groups layers) (seq 0 num_groups).
Definition get_kv_cache_groups_uniform_page_size (kv_cache_spec : Specs) : Cfg (list KVCacheGroupSpec) :=
  let same_type_layers := group_by_spec kv_cache_spec in
  let! group_size := group_size_of (map (fun e => Z.of_nat (length e.2)) same_type_layers) in
  create_kv_cache_group_specs kv_cache_spec (concat (map (fun e => split_layers group_size e.2) same_type_layers)).

Definition is_sliding (s : KVCacheSpec) : bool := match s with SlidingWindowSpec _ _ => true | _ => false end.
Definition is_chunked (s : KVCacheSpec) : bool := match s with ChunkedLocalAttentionSpec _ _ => true | _ => false end.
(** A windowed layer treated as full attention, with its window recorded. *)
Definition as_full (s : KVCacheSpec) : KVCacheSpec :=
  match s with
  | SlidingWindowSpec a w => FullAttentionSpec a (Some w) None
  | ChunkedLocalAttentionSpec a c => FullAttentionSpec a None (Some c)
  | _ => s
  end.
(** [f(a) or g(a)] *)
Definition py_or (m1 m2 : Cfg bool) : Cfg bool := let! b := m1 in if (b : bool) then py_ret true else m2.
(** The dict that [unify_hybrid_kv_cache_specs] leaves. *)
Definition unify_hybrid_kv_cache_specs (kv_cache_spec : Specs) : Cfg Specs :=
  let! uniform := py_or (is_kv_cache_spec_uniform kv_cache_spec) (is_uniform_type kv_cache_spec) in
  if (uniform : bool) then py_ret kv_cache_spec else
  let specs := map snd kv_cache_spec in
  let converted :=
    if existsb is_full specs && (existsb is_sliding specs || existsb is_chunked specs)
    then map (fun e => (e.1, as_full e.2)) kv_cache_spec else kv_cache_spec in
  let! uniform := py_or (is_kv_cache_spec_uniform converted) (is_uniform_type converted) in
  if (uniform : bool) then py_ret converted else py_raise ValueError.

Definition get_kv_cache_groups (kv_cache_spec : Specs) : Cfg (list KVCacheGroupSpec) :=
  let! c := py_get in
  let! kv_cache_spec :=
    (if disable_hybrid_kv_cache_manager c then unify_hybrid_kv_cache_specs kv_cache_spec else py_ret kv_cache_spec) in
  match kv_cache_spec with
  | [] => py_ret []
  | _ =>
      let! uniform := is_kv_cache_spec_uniform kv_cache_spec in
      if (uniform : bool) then create_kv_cache_group_specs kv_cache_spec [map fst kv_cache_spec] else
      let! uniform_spec := from_specs kv_cache_spec in
      match uniform_spec with
      | Some g => py_ret [mkGroup (map fst kv_cache_spec) g]
      | None =>
          let! kv_cache_spec := unify_kv_cache_spec_page_size kv_cache_spec in
          get_kv_cache_groups_uniform_page_size kv_cache_spec
      end
  end.

(** ** Blocks and tensors *)

Definition may_override_num_blocks (n : Z) : Cfg Z :=
  let! c := py_get in py_ret (default n (num_gpu_blocks_override c)).
Definition get_num_blocks (num_layers available_memory page_size : Z) : Cfg Z :=
  let! n := py_div available_memory page_size in
  let! n := py_div n num_layers in
  may_override_num_blocks (Z.max n 0).
Definition get_uniform_page_size (specs : list GroupSpec) : Cfg Z :=
  let! page_sizes := py_map group_page_size specs in
  match remove_dups page_sizes with [p] => py_ret p | _ => py_raise AssertionError end.

(** The [i]-th layers of the groups share a tensor. *)
Definition tensor_layers (groups : list KVCacheGroupSpec) (i : nat) : list string :=
  omap (fun g => layer_names g !! i) groups.
Definition tensors_by_layer (groups : list KVCacheGroupSpec) (available_memory : Z) : Cfg KVCacheConfig :=
  let! group_size := py_max (map (fun g => Z.of_nat (length (layer_names g))) groups) in
  let! page_size := get_uniform_page_size (map group_spec groups) in
  do! py_assert (0 <? group_size);
  let! num := get_num_blocks group_size available_memory page_size in
  py_ret (mkKVConfig num
    (map (fun i => mkTensor (page_size * num) (tensor_layers groups i)) (seq 0 (Z.to_nat group_size))) groups).
Definition tensors_by_size (g : KVCacheGroupSpec) (specs : Specs) (available_memory : Z) : Cfg KVCacheConfig :=
  let! page := group_page_size (group_spec g) in
  let! num := py_div available_memory page in
  let! num := may_override_num_blocks num in
  let! tensors := py_map (fun n =>
    let! s := py_unwrap KeyError (dict_get n specs) in
    let! p := page_size_bytes s in
    py_ret (mkTensor (p * num) [n])) (layer_names g) in
  py_ret (mkKVConfig num tensors [g]).
Definition get_kv_cache_config_from_groups (groups : list KVCacheGroupSpec) (available_memory : Z) : Cfg KVCacheConfig :=
  match groups with
  | [] => py_ret (mkKVConfig 1 [] [])
  | [mkGroup names (UniformTypeKVCacheSpecs bs specs)] =>
      tensors_by_size (mkGroup names (UniformTypeKVCacheSpecs bs specs)) specs available_memory
  | _ => tensors_by_layer groups available_memory
  end.

(** ** The memory check *)

Definition max_memory_usage_bytes (specs : list GroupSpec) : Cfg Z :=
  let! l := py_map group_max_memory specs in py_ret (sum_of l).
Definition layer_memory (kv_cache_spec : Specs) : Cfg Z :=
  max_memory_usage_bytes (map (fun e => LayerSpec e.2) kv_cache_spec).

Definition fits_in_memory (kv_cache_spec : Specs) (available_memory model_len : Z) : Cfg bool :=
  do! py_modify (set_max_model_len model_len);
  let! memory_needed := layer_memory kv_cache_spec in
  py_ret (memory_needed <=? available_memory).
Fixpoint search_max_len (fuel : nat) (kv_cache_spec : Specs) (available_memory left right result : Z) : Cfg Z :=
  if left <=? right then
    match fuel with
    | 0%nat => py_raise Diverges
    | S fuel' =>
        let mid := (left + right) / 2 in
        let! fits := fits_in_memory kv_cache_spec available_memory mid in
        if (fits : bool) then search_max_len fuel' kv_cache_spec available_memory (mid + 1) right mid
        else search_max_len fuel' kv_cache_spec available_memory left (mid - 1) result
    end
  else py_ret result.
Definition estimate_max_model_len (kv_cache_spec : Specs) (available_memory : Z) : Cfg Z :=
  let! c := py_get in
  let current_max := max_model_len c in
  let! fits := fits_in_memory kv_cache_spec available_memory 1 in
  if negb fits then py_ret 0 else
  search_max_len (Z.to_nat current_max) kv_cache_spec available_memory 1 current_max 1.

Definition check_enough_kv_cache_memory (kv_cache_spec : Specs) (available_memory : Z) : Cfg unit :=
  match kv_cache_spec with
  | [] => py_ret tt
  | _ =>
      if available_memory <=? 0 then py_raise ValueError else
      let! needed_memory := layer_memory kv_cache_spec in
      if available_memory <? needed_memory then
        do! estimate_max_model_len kv_cache_spec available_memory;
        py_raise ValueError
      else py_ret tt
  end.

(** ** All workers *)

(** [generate_scheduler_kv_cache_config] *)
Definition generate_scheduler_kv_cache_config (kv_cache_configs : list KVCacheConfig) : Cfg KVCacheConfig :=
  let! first := py_unwrap IndexError (head kv_cache_configs) in
  do! py_assert (forallb (fun c => num_blocks c =? num_blocks first) kv_cache_configs);
  let! groups := py_map (fun g =>
    match group_spec g with
    | UniformTypeKVCacheSpecs _ specs =>
        let! one := py_unwrap StopIteration (head specs) in
        py_ret (mkGroup (layer_names g) (LayerSpec one.2))
    | LayerSpec _ => py_ret g
    end) (kv_cache_groups first) in
  py_ret (mkKVConfig (num_blocks first) (kv_cache_tensors first) groups).

Definition get_max_concurrency_for_kv_cache_config (c : KVCacheConfig) : Cfg Q :=
  let! num_layer_per_group := py_max (map (fun g => Z.of_nat (length (layer_names g))) (kv_cache_groups c)) in
  let! m := max_memory_usage_bytes (map group_spec (kv_cache_groups c)) in
  let! first := py_unwrap IndexError (head (kv_cache_groups c)) in
  let! page := group_page_size (group_spec first) in
  let! num_block_per_request := py_cdiv (num_layer_per_group * m) (page * num_layer_per_group) in
  if num_block_per_request =? 0 then py_raise ZeroDivisionError
  else py_ret (inject_Z (num_blocks c) / inject_Z num_block_per_request)%Q.
(** [_report_kv_cache_config], the values it logs *)
Definition report_kv_cache_config (k : KVCacheConfig) : Cfg (Z * Q) :=
  let! min_block_size := py_min (map (fun g => group_block_size (group_spec g)) (kv_cache_groups k)) in
  let! n := py_div (num_blocks k) (Z.of_nat (length (kv_cache_groups k))) in
  let! c := py_get in
  let w := prefill_context_parallel_size c * decode_context_parallel_size c in
  let num_tokens := if 1 <? w then n * min_block_size * w else n * min_block_size in
  let! max_concurrency := get_max_concurrency_for_kv_cache_config k in
  py_ret (num_tokens, max_concurrency).

(** The specs of all workers; a layer has one spec. *)
Fixpoint merge_worker (merged : Specs) (worker : Specs) : Cfg Specs :=
  match worker with
  | [] => py_ret merged
  | (name, s) :: worker' =>
      match dict_get name merged with
      | None => merge_worker (merged ++ [(name, s)]) worker'
      | Some s' => do! py_assert (bool_decide (s' = s)); merge_worker merged worker'
      end
  end.
Fixpoint merge_workers (merged : Specs) (workers : list Specs) : Cfg Specs :=
  match workers with
  | [] => py_ret merged
  | w :: workers' => let! m := merge_worker merged w in merge_workers m workers'
  end.

(** The groups of one worker: those of the model, with its own layers. *)
Definition worker_groups (groups : list KVCacheGroupSpec) (worker : Specs) : list KVCacheGroupSpec :=
  map (fun g => mkGroup (List.filter (fun n => bool_decide (is_Some (dict_get n worker))) (layer_names g)) (group_spec g)) groups.
Definition worker_config (groups : list KVCacheGroupSpec) (worker : Specs) (available_memory : Z) : Cfg KVCacheConfig :=
  let mine := worker_groups groups worker in
  do! py_assert (sum_of (map (fun g => Z.of_nat (length (layer_names g))) mine) =? Z.of_nat (length worker));
  get_kv_cache_config_from_groups mine available_memory.

Definition shrink_tensor (old new : Z) (t : KVCacheTensor) : Cfg KVCacheTensor :=
  if old =? 0 then py_raise ZeroDivisionError else
  do! py_assert (tensor_size t mod old =? 0);
  py_ret (mkTensor (tensor_size t / old * new) (shared_by t)).
Definition shrink_config (min_num_blocks : Z) (k : KVCacheConfig) : Cfg KVCacheConfig :=
  let! tensors := py_map (shrink_tensor (num_blocks k) min_num_blocks) (kv_cache_tensors k) in
  let k' := mkKVConfig min_num_blocks tensors (kv_cache_groups k) in
  match kv_cache_groups k with
  | [] => py_ret k'
  | _ => do! report_kv_cache_config k'; py_ret k'
  end.

Definition get_kv_cache_configs (kv_cache_specs : list Specs) (available_memory : list Z) : Cfg (list KVCacheConfig) :=
  let workers := zip kv_cache_specs available_memory in
  do! py_for workers (fun w => check_enough_kv_cache_memory w.1 w.2);
  let! merged := merge_workers [] kv_cache_specs in
  let! groups := get_kv_cache_groups merged in
  let! configs := py_map (fun w => worker_config groups w.1 w.2) workers in
  let! min_num_blocks := py_min (map num_blocks configs) in
  py_map (shrink_config min_num_blocks) configs.
End specs.
