(* ===== verification/KVConfigProofs.v ===== *)
(** Properties of the KV-cache configuration ([KVConfig]). *)
From stdpp Require Import gmap strings list sorting.
From Stdlib Require Import ZArith Lia.
From S2P Require Import Prelude SingleType Coordinator KVConfig.
Open Scope Z_scope.

(** ** Arithmetic *)

Lemma cdiv_le_mono a b n : 0 < n -> a <= b -> cdiv a n <= cdiv b n.
Proof. intros Hn Hab. pose proof (cdiv_spec a n Hn). pose proof (cdiv_spec b n Hn). nia. Qed.
Lemma cdiv_pos_le a n : 0 < n -> 0 <= a -> 0 <= cdiv a n.
Proof. intros Hn Ha. pose proof (cdiv_spec a n Hn). nia. Qed.

Lemma sum_of_app l1 l2 : sum_of (l1 ++ l2) = sum_of l1 + sum_of l2.
Proof. unfold sum_of. induction l1 as [|x l1 IH]; simpl; [done|lia]. Qed.
Lemma sum_of_le {A} (f g : A -> Z) l : (forall x, x ∈ l -> f x <= g x) -> sum_of (map f l) <= sum_of (map g l).
Proof.
  induction l as [|x l IH]; intros H; simpl; [done|].
  pose proof (H x ltac:(left)). pose proof (IH ltac:(intros y Hy; apply H; by right)). lia.
Qed.

(** A loop of computations that only read. *)
Lemma py_map_pure {S A B} (m : A -> py S B) (f : A -> B) l s :
  (forall x, x ∈ l -> m x s = Ret (f x) s) -> py_map m l s = Ret (map f l) s.
Proof.
  induction l as [|x l IH]; intros H; simpl; [done|]. unfold py_bind at 1. rewrite (H x ltac:(left)).
  unfold py_bind. rewrite IH; [done|]. intros y Hy. apply H. by right.
Qed.

(** ** Inversion of computations that returned *)

Lemma py_map_inv_at {S A B} (m : A -> py S B) (R : A -> B -> Prop) (s : S) l : forall ys s',
  (forall x y s', x ∈ l -> m x s = Ret y s' -> s' = s /\ R x y) ->
  py_map m l s = Ret ys s' -> s' = s /\ Forall2 R l ys.
Proof.
  induction l as [|x l IH]; intros ys s' H E; simpl in E.
  - injection E as <- <-. by split.
  - apply bind_inv in E as (y & s1 & E1 & E). apply bind_inv in E as (ys' & s2 & E2 & E). injection E as <- <-.
    destruct (H x y s1 ltac:(left) E1) as [-> HR]. destruct (IH ys' s2) as [-> HF]; [|done|by split; [|constructor]].
    intros x' y' s0' Hx. apply H. by right.
Qed.
Lemma py_map_inv {S A B} (m : A -> py S B) (R : A -> B -> Prop) l s ys s' :
  (forall x s y s', x ∈ l -> m x s = Ret y s' -> s' = s /\ R x y) ->
  py_map m l s = Ret ys s' -> s' = s /\ Forall2 R l ys.
Proof. intros H. apply py_map_inv_at. intros x y s1. apply H. Qed.
Lemma div_inv {S} a b (s : S) q s' : py_div a b s = Ret q s' -> b <> 0 /\ q = a / b /\ s' = s.
Proof. unfold py_div. destruct (Z.eqb_spec b 0); [done|]. by intros [= <- <-]. Qed.

(** Peel off the leading statement of a computation that returned. *)
Ltac peel H :=
  lazymatch type of H with
  | py_bind (py_assert _) _ _ = _ =>
      let E := fresh "Ha" in apply bind_inv in H as ([] & ? & [E ->]%assert_inv & H)
  | py_bind (py_unwrap _ _) _ _ = _ =>
      let a := fresh "a" in let E := fresh "Eu" in apply bind_inv in H as (a & ? & [E ->]%unwrap_inv & H)
  | py_bind _ _ _ = _ =>
      let a := fresh "a" in let c := fresh "c" in let E := fresh "E" in apply bind_inv in H as (a & c & E & H)
  end.

(** ** Strides *)

Lemma concat_one {A} (f : nat -> list A) x j n :
  (j < n)%nat ->
  concat (map (fun i => if decide (i = j) then x :: f i else f i) (seq 0 n)) ≡ₚ x :: concat (map f (seq 0 n)).
Proof.
  intros Hj. set (g := fun i => _). assert (forall a m, (forall i, (a <= i < a + m)%nat -> i <> j) ->
    map g (seq a m) = map f (seq a m)) as Hsame.
  { intros a m Hne. apply map_ext_in. intros i Hi%in_seq. unfold g. rewrite decide_False; [done|]. apply Hne. lia. }
  replace n with (j + S (n - j - 1))%nat by lia. rewrite !seq_app, !map_app, !concat_app, Nat.add_0_l. simpl.
  rewrite (Hsame 0%nat j), (Hsame (S j) (n - j - 1)%nat) by lia. unfold g at 1. rewrite decide_True by done.
  simpl. by rewrite <- Permutation_middle.
Qed.

Lemma stride_step {A} (x : A) l i n k :
  (i < n)%nat ->
  stride_from i n k (x :: l) = if decide (i = k mod n)%nat then x :: stride_from i n (S k) l else stride_from i n (S k) l.
Proof.
  intros Hi. simpl. rewrite (Nat.mod_small i n) by done. pose proof (Nat.Div0.mod_le k n).
  case_decide as E; [subst i; rewrite Nat.eqb_refl; by destruct (Nat.leb_spec (k mod n) k); [|lia]|].
  by destruct (Nat.eqb_spec (k mod n) i); [congruence|].
Qed.
Lemma stride_partition {A} (n : nat) (l : list A) k :
  (0 < n)%nat -> concat (map (fun i => stride_from i n k l) (seq 0 n)) ≡ₚ l.
Proof.
  intros Hn. revert k. induction l as [|x l IH]; intros k.
  - simpl. clear Hn. induction (seq 0 n); [done|]. by simpl.
  - rewrite (map_ext_in _ (fun i => if decide (i = k mod n)%nat then x :: stride_from i n (S k) l
                                     else stride_from i n (S k) l)).
    + rewrite (concat_one (fun i => stride_from i n (S k) l)) by (apply Nat.mod_upper_bound; lia). by rewrite IH.
    + intros i Hi%in_seq. apply stride_step. lia.
Qed.

Lemma stride_in {A} i n (l : list A) : forall k j x,
  l !! j = Some x -> ((k + j) mod n = i mod n)%nat -> (i <= k + j)%nat -> x ∈ stride_from i n k l.
Proof.
  induction l as [|y l IH]; intros k j x Hj Hm Hle; [done|]. simpl. destruct j as [|j].
  - injection Hj as ->. rewrite Nat.add_0_r in Hm, Hle. rewrite Hm, Nat.eqb_refl. destruct (Nat.leb_spec i k); [left|lia].
  - simpl in Hj. assert (x ∈ stride_from i n (S k) l) by (apply (IH (S k) j); [done|by rewrite Nat.add_succ_comm|lia]).
    destruct (_ && _); [by right|done].
Qed.
Lemma split_layers_spec gs (layers : list string) :
  0 < gs -> layers <> [] ->
  concat (split_layers gs layers) ≡ₚ layers /\ Forall (fun l => l <> []) (split_layers gs layers).
Proof.
  intros Hg Hne. unfold split_layers, stride. set (n := Z.to_nat _).
  assert (0 < n <= length layers)%nat as Hn.
  { subst n. pose proof (cdiv_spec (Z.of_nat (length layers)) gs Hg). destruct layers; [done|]. simpl length in *. nia. }
  split; [apply stride_partition; lia|]. apply Forall_forall. intros l Hl.
  apply list_elem_of_fmap in Hl as (i & -> & Hi%list_elem_of_In%in_seq). destruct (lookup_lt_is_Some_2 layers i) as [x Hx]; [lia|].
  intros E. apply (not_elem_of_nil x). rewrite <- E. by apply (stride_in i n layers 0 i x).
Qed.

(** ** Grouping by spec *)

Lemma dict_append_perm {K V} `{EqDecision K} (k : K) (x : V) (d : list (K * list V)) :
  concat (map snd (dict_set k (default [] (dict_get k d) ++ [x]) d)) ≡ₚ concat (map snd d) ++ [x].
Proof.
  induction d as [|[k' v] d IH]; simpl; [done|]. case_decide as E; simpl.
  - rewrite <- !app_assoc. f_equiv. apply Permutation_app_comm.
  - rewrite IH. by rewrite app_assoc.
Qed.
Lemma dict_append_in {K V} `{EqDecision K} (k : K) (x : V) (d : list (K * list V)) e :
  e ∈ dict_set k (default [] (dict_get k d) ++ [x]) d ->
  e ∈ d \/ e.1 = k /\ (e.2 = [x] \/ exists v, (k, v) ∈ d /\ e.2 = v ++ [x]).
Proof.
  induction d as [|[k' v] d IH]; simpl.
  - intros ->%list_elem_of_singleton. right. split; [done|by left].
  - case_decide as E.
    + subst k'. intros [->|H]%elem_of_cons; [|left; by right]. right. split; [done|]. right. exists v. split; [left|done].
    + intros [->|H]%elem_of_cons; [left; left|]. destruct (IH H) as [H'|(H1 & [H2|(v' & H2 & H3)])]; [left; by right|by right; auto|].
      right. split; [done|]. right. exists v'. split; [by right|done].
Qed.

Definition grouped (specs : list (string * KVCacheSpec)) (d : list (KVCacheSpec * list string)) : Prop :=
  concat (map snd d) ≡ₚ map fst specs /\
  forall s names, (s, names) ∈ d -> names <> [] /\ forall n, n ∈ names -> (n, s) ∈ specs.
Lemma group_by_spec_spec specs : grouped specs (group_by_spec specs).
Proof.
  unfold group_by_spec. rewrite <- fold_left_rev_right. rewrite <- (rev_involutive specs) at 1.
  induction (rev specs) as [|[n s] l IH]; simpl.
  - split; [done|]. intros s names H. by apply not_elem_of_nil in H.
  - destruct IH as [H1 H2]. split.
    + rewrite dict_append_perm, H1, map_app. done.
    + intros s' names [H|(E & H)]%dict_append_in.
      * destruct (H2 s' names H) as [H3 H4]. split; [done|]. intros m Hm. apply elem_of_app. left. auto.
      * simpl in E. subst s'. simpl in H. destruct H as [->|(v & Hv & ->)].
        { split; [done|]. intros m ->%list_elem_of_singleton. apply elem_of_app. right. left. }
        destruct (H2 s v Hv) as [_ H4]. split; [by destruct v|]. intros m [Hm|Hm]%elem_of_app.
        { apply elem_of_app. left. auto. }
        apply list_elem_of_singleton in Hm as ->. apply elem_of_app. right. left.
Qed.

Lemma py_max_spec {S} l (s : S) x s' : py_max l s = Ret x s' -> s' = s /\ x ∈ l /\ forall y, y ∈ l -> y <= x.
Proof.
  destruct l as [|z l]; [done|]. intros [= <- <-]. split; [done|]. induction l as [|y l [IH1 IH2]]; simpl.
  - split; [left|]. by intros y ->%list_elem_of_singleton.
  - split.
    + destruct (Z.max_spec y (foldr Z.max z l)) as [[_ ->]|[_ ->]]; [|right; left].
      apply elem_of_cons in IH1 as [->|IH1]; [left|right; by right].
    + intros w [->|[->|Hw]%elem_of_cons]%elem_of_cons; [|lia|].
      * pose proof (IH2 z ltac:(left)). lia.
      * pose proof (IH2 w ltac:(by right)). lia.
Qed.
Lemma py_min_spec {S} l (s : S) x s' : py_min l s = Ret x s' -> s' = s /\ x ∈ l /\ forall y, y ∈ l -> x <= y.
Proof.
  destruct l as [|z l]; [done|]. intros [= <- <-]. split; [done|]. induction l as [|y l [IH1 IH2]]; simpl.
  - split; [left|]. by intros y ->%list_elem_of_singleton.
  - split.
    + destruct (Z.min_spec y (foldr Z.min z l)) as [[_ ->]|[_ ->]]; [right; left|].
      apply elem_of_cons in IH1 as [->|IH1]; [left|right; by right].
    + intros w [->|[->|Hw]%elem_of_cons]%elem_of_cons; [|lia|].
      * pose proof (IH2 z ltac:(left)). lia.
      * pose proof (IH2 w ltac:(by right)). lia.
Qed.

(** The groups of the page-size path, before their specs are merged. *)
Definition layer_groups (gs : Z) (specs : list (string * KVCacheSpec)) : list (list string) :=
  concat (map (fun e => split_layers gs e.2) (group_by_spec specs)).
Lemma layer_groups_spec gs specs : 0 < gs ->
  concat (layer_groups gs specs) ≡ₚ map fst specs /\
  forall names, names ∈ layer_groups gs specs -> names <> [] /\ exists s, forall n, n ∈ names -> (n, s) ∈ specs.
Proof.
  intros Hg. unfold layer_groups. destruct (group_by_spec_spec specs) as [H1 H2]. split.
  - rewrite <- H1. clear H1. induction (group_by_spec specs) as [|[s names] d IH]; [done|]. simpl. rewrite concat_app, IH.
    + destruct (H2 s names ltac:(left)) as [H3 _]. destruct (split_layers_spec gs names Hg H3) as [-> _]. done.
    + intros s' names' H. apply H2. by right.
  - intros l Hl. apply list_elem_of_In, in_concat in Hl as (ls & Hls & Hl).
    apply in_map_iff in Hls as ([s names] & <- & Hd%list_elem_of_In). destruct (H2 s names Hd) as [H3 H4].
    destruct (split_layers_spec gs names Hg H3) as [Hp Hne]. rewrite Forall_forall in Hne.
    apply list_elem_of_In in Hl. simpl in Hl. split; [by apply Hne|]. exists s. intros n Hn. apply H4.
    rewrite <- Hp. apply list_elem_of_In, in_concat. exists l. split; by apply list_elem_of_In.
Qed.

Section config.
Context (get_dtype_size : Z -> Z) (dtype_pos : forall d, 0 < get_dtype_size d).
Notation page_size_bytes := (page_size_bytes get_dtype_size).
Notation spec_max_memory := (spec_max_memory get_dtype_size).
Notation layer_memory := (layer_memory get_dtype_size).
Notation estimate_max_model_len := (estimate_max_model_len get_dtype_size).

(** ** Well-formed specs *)

Definition mamba_state (shapes : list (list Z)) (dtypes : list Z) : Z :=
  sum_of (zip_with (fun shape d => foldr Z.mul 1 shape * get_dtype_size d) shapes dtypes).
Definition attention_ok (a : AttentionSpec) : Prop := 0 < block_size a /\ 0 < num_kv_heads a /\ 0 < head_size a.
Definition spec_ok (s : KVCacheSpec) : Prop :=
  match s with
  | MambaSpec bs shapes dtypes padded _ _ =>
      0 < bs /\ 0 < mamba_state shapes dtypes /\
      match padded with Some p => mamba_state shapes dtypes <= p | None => True end
  | FullAttentionSpec a _ _ | MLAAttentionSpec a _ _ _ | ChunkedLocalAttentionSpec a _ | SlidingWindowSpec a _
  | EncoderOnlyAttentionSpec a | CrossAttentionSpec a => attention_ok a
  end.
Definition page_of (s : KVCacheSpec) : Z :=
  match s with
  | MLAAttentionSpec a _ _ c => mla_page_size get_dtype_size a c
  | MambaSpec _ shapes dtypes padded _ _ => default (mamba_state shapes dtypes) padded
  | FullAttentionSpec a _ _ | ChunkedLocalAttentionSpec a _ | SlidingWindowSpec a _
  | EncoderOnlyAttentionSpec a | CrossAttentionSpec a => attention_page_size get_dtype_size a
  end.

Lemma page_size_spec {S} s (c : S) : spec_ok s -> page_size_bytes s c = Ret (page_of s) c.
Proof.
  destruct s; simpl; try done. intros (_ & _ & Hp). unfold mamba_page_size. fold (mamba_state shapes dtypes).
  destruct page_size_padded as [p|]; [|done]. unfold py_bind, py_assert. by destruct (Z.leb_spec (mamba_state shapes dtypes) p); [|lia].
Qed.
Lemma page_of_pos s : spec_ok s -> 0 < page_of s.
Proof.
  assert (forall a, attention_ok a -> 0 < attention_page_size get_dtype_size a) as Ha.
  { intros a (H1 & H2 & H3). pose proof (dtype_pos (dtype a)). unfold attention_page_size.
    repeat apply Z.mul_pos_pos; lia. }
  destruct s; simpl; auto.
  - intros (H1 & H2 & H3). unfold mla_page_size. case_decide; [lia|]. pose proof (dtype_pos (dtype a)).
    repeat apply Z.mul_pos_pos; lia.
  - intros (_ & H & Hp). destruct page_size_padded; simpl; lia.
Qed.
Lemma spec_block_pos s : spec_ok s -> 0 < spec_block_size s.
Proof. destruct s; simpl; try (intros (? & _); done); by intros (? & _ & _). Qed.

(** Memory of a layer at model length [n]; sliding windows need one context-parallel
    rank. *)
Definition context_ok (c : VllmConfig) (s : KVCacheSpec) : Prop :=
  is_sliding s = true -> decode_context_parallel_size c = 1.
Definition tokens_of (c : VllmConfig) (s : KVCacheSpec) (n : Z) : Z :=
  match s with
  | FullAttentionSpec _ _ _ | MLAAttentionSpec _ _ _ _ =>
      let w := decode_context_parallel_size c * prefill_context_parallel_size c in
      if 1 <? w then cdiv n w else n
  | ChunkedLocalAttentionSpec _ chunk => Z.min (chunk + max_num_batched_tokens c) n
  | SlidingWindowSpec _ window => Z.min (window - 1 + max_num_batched_tokens c) n
  | MambaSpec _ _ _ _ _ _ => n
  | EncoderOnlyAttentionSpec _ => 0
  | CrossAttentionSpec _ => max_num_encoder_input_tokens c
  end.
Definition memory_of (c : VllmConfig) (s : KVCacheSpec) (n : Z) : Z :=
  match s with
  | EncoderOnlyAttentionSpec _ => 0
  | _ => (cdiv (tokens_of c s n) (spec_block_size s) + if is_sliding s then 1 else 0) * page_of s
  end.

Lemma spec_max_memory_spec s c n : spec_ok s -> context_ok c s ->
  spec_max_memory s (set_max_model_len n c) = Ret (memory_of c s n) (set_max_model_len n c).
Proof.
  intros Hs Hc. pose proof (spec_block_pos s Hs) as Hb. pose proof (page_size_spec s (set_max_model_len n c) Hs) as Hp.
  assert (forall t, @py_cdiv VllmConfig t (spec_block_size s) = py_ret (cdiv t (spec_block_size s))) as Hcd.
  { intros t. unfold py_cdiv. by destruct (Z.eqb_spec (spec_block_size s) 0); [lia|]. }
  assert (forall t e, py_bind (py_cdiv t (spec_block_size s)) (fun blocks => py_bind (page_size_bytes s)
    (fun page => py_ret ((blocks + e) * page))) (set_max_model_len n c)
    = Ret ((cdiv t (spec_block_size s) + e) * page_of s) (set_max_model_len n c)) as Hgo.
  { intros t e. rewrite Hcd. unfold py_bind at 1. simpl. unfold py_bind. by rewrite Hp. }
  unfold spec_max_memory, max_tokens_of. destruct s; try (unfold py_bind at 1 2; simpl; apply Hgo); try done.
  - unfold py_bind at 1 2. simpl. destruct (1 <? _); apply Hgo.
  - unfold py_bind at 1 2. simpl. destruct (1 <? _); apply Hgo.
  - unfold py_bind at 1 2 3. simpl. rewrite (Hc eq_refl). simpl. apply Hgo.
Qed.

Lemma memory_of_mono c s n n' : spec_ok s -> n <= n' -> memory_of c s n <= memory_of c s n'.
Proof.
  intros Hs Hn. pose proof (spec_block_pos s Hs) as Hb. pose proof (page_of_pos s Hs) as Hp.
  assert (tokens_of c s n <= tokens_of c s n') as Ht.
  { destruct s; simpl; try lia; destruct (Z.ltb_spec 1 (decode_context_parallel_size c * prefill_context_parallel_size c));
      try lia; apply cdiv_le_mono; lia. }
  pose proof (cdiv_le_mono _ _ _ Hb Ht). unfold memory_of. destruct s; try lia; apply Z.mul_le_mono_nonneg_r; lia.
Qed.

(** ** The search for a model length *)

Definition specs_ok (c : VllmConfig) (specs : list (string * KVCacheSpec)) : Prop :=
  forall e, e ∈ specs -> spec_ok e.2 /\ context_ok c e.2.
(** Memory that one request of [n] tokens needs over all layers. *)
Definition needed (c : VllmConfig) (specs : list (string * KVCacheSpec)) (n : Z) : Z :=
  sum_of (map (fun e => memory_of c e.2 n) specs).

Lemma layer_memory_spec c specs n : specs_ok c specs ->
  layer_memory specs (set_max_model_len n c) = Ret (needed c specs n) (set_max_model_len n c).
Proof.
  intros H. unfold layer_memory, max_memory_usage_bytes, py_bind.
  rewrite (py_map_pure _ (fun g => match g with LayerSpec s => memory_of c s n | _ => 0 end)).
  - by rewrite map_map.
  - intros g Hg. apply list_elem_of_fmap in Hg as (e & -> & He). destruct (H e He). by apply spec_max_memory_spec.
Qed.
Lemma needed_mono c specs n n' : specs_ok c specs -> n <= n' -> needed c specs n <= needed c specs n'.
Proof. intros H Hn. apply sum_of_le. intros e He. destruct (H e He). by apply memory_of_mono. Qed.

Lemma fits_spec c specs avail n m : specs_ok c specs ->
  fits_in_memory get_dtype_size specs avail n (set_max_model_len m c) =
  Ret (needed c specs n <=? avail) (set_max_model_len n c).
Proof.
  intros H. unfold fits_in_memory, py_bind at 1. simpl. unfold py_bind.
  change (set_max_model_len n (set_max_model_len m c)) with (set_max_model_len n c). by rewrite layer_memory_spec.
Qed.

(** [n] is the largest length up to [top] that fits. *)
Definition largest_fit (c : VllmConfig) (specs : list (string * KVCacheSpec)) (avail top n : Z) : Prop :=
  1 <= n <= top /\ needed c specs n <= avail /\ forall m, n < m <= top -> avail < needed c specs m.

Lemma search_spec c specs avail top : specs_ok c specs ->
  forall fuel left right result m,
  1 <= left -> left <= right + 1 -> right <= top -> 1 <= top -> result = Z.max 1 (left - 1) ->
  needed c specs result <= avail -> (forall k, right < k <= top -> avail < needed c specs k) ->
  right - left + 1 <= Z.of_nat fuel ->
  exists n m', search_max_len get_dtype_size fuel specs avail left right result (set_max_model_len m c)
               = Ret n (set_max_model_len m' c) /\ largest_fit c specs avail top n.
Proof.
  intros H. induction fuel as [|fuel IH]; intros left right result m H1 H2 H3 H0 H4 H5 H6 H7; simpl.
  - destruct (Z.leb_spec left right); [lia|]. exists result, m. split; [done|]. split_and!; try lia; try done.
    intros k Hk. apply H6. lia.
  - destruct (Z.leb_spec left right) as [Hle|Hgt].
    2:{ exists result, m. split; [done|]. split_and!; try lia; try done. intros k Hk. apply H6. lia. }
    set (mid := (left + right) / 2).
    assert (left <= mid <= right) as Hmid by (unfold mid; split; [apply Z.div_le_lower_bound|apply Z.div_le_upper_bound]; lia).
    unfold py_bind. rewrite fits_spec by done. destruct (Z.leb_spec (needed c specs mid) avail) as [Hf|Hf].
    + apply IH; try lia; done.
    + apply IH; try lia; try done. intros k Hk. destruct (Z.le_gt_cases k right); [|apply H6; lia].
      pose proof (needed_mono c specs mid k H ltac:(lia)). lia.
Qed.

Lemma estimate_spec c specs avail : specs_ok c specs -> 1 <= max_model_len c ->
  exists n m', estimate_max_model_len specs avail c = Ret n (set_max_model_len m' c) /\
    if needed c specs 1 <=? avail then largest_fit c specs avail (max_model_len c) n else n = 0.
Proof.
  intros H Hc. unfold estimate_max_model_len, py_bind at 1. simpl. unfold py_bind.
  pose proof (fits_spec c specs avail 1 (max_model_len c) H) as Hf.
  replace (set_max_model_len (max_model_len c) c) with c in Hf by (by destruct c). rewrite Hf.
  destruct (Z.leb_spec (needed c specs 1) avail); simpl; [|by exists 0, 1].
  apply search_spec; try lia; done.
Qed.
(** ** Groups *)

Definition same_pages (s m : KVCacheSpec) : Prop := page_of s = page_of m /\ spec_block_size s = spec_block_size m.

Lemma merge_window_inv l c w c' : merge_window_sizes l c = Ret w c' -> c' = c.
Proof. unfold merge_window_sizes. destruct (remove_dups l) as [|? [|]]; [by intros [= _ ->]..|done]. Qed.
Lemma merge_inv specs c m c' : merge specs c = Ret m c' ->
  c' = c /\ specs <> [] /\ (Forall spec_ok specs -> spec_ok m) /\
  (is_mla m = false -> Forall (fun s => same_pages s m) specs) /\
  (forall s, Forall (fun x => x = s) specs -> same_pages s m).
Proof.
  intros H. destruct specs as [|s0 specs]; [done|].
  assert (forall c' m, merge_equal (s0 :: specs) c = Ret m c' -> c' = c /\ m = s0 /\ Forall (fun s => s = s0) (s0 :: specs)) as Heq.
  { intros c1 m1 E. unfold merge_equal in E. peel E. injection Eu as <-. peel E. injection E as <- <-. split; [done|].
    split; [done|]. constructor; [done|]. apply Forall_forall. intros s Hs. apply list_elem_of_In in Hs.
    rewrite forallb_forall in Ha. specialize (Ha s Hs). by apply bool_decide_eq_true in Ha. }
  assert (merge_equal (s0 :: specs) c = Ret m c' -> c' = c /\ s0 :: specs <> [] /\ (Forall spec_ok (s0 :: specs) -> spec_ok m) /\
    (is_mla m = false -> Forall (fun s => same_pages s m) (s0 :: specs)) /\
    (forall s, Forall (fun x => x = s) (s0 :: specs) -> same_pages s m)) as Hdone.
  { intros E. destruct (Heq _ _ E) as (-> & -> & HF). split_and!; [done|done|by inversion 1| |].
    - intros _. eapply Forall_impl; [exact HF|]. by intros s ->.
    - intros s Hs. by inversion Hs; subst. }
  destruct s0 as [a w ch|a w ch cd| | | | | ]; try by apply Hdone.
  - unfold merge, merge_full in H. peel H. peel H. peel H. peel H. peel H. peel H. injection H as <- <-.
    apply merge_window_inv in E as ->. apply merge_window_inv in E0 as ->.
    split_and!; [done|done| | |].
    + by inversion 1.
    + intros _. apply Forall_forall. intros s Hs. apply list_elem_of_In in Hs.
      rewrite forallb_forall in Ha, Ha1. specialize (Ha s Hs). specialize (Ha1 s Hs). apply bool_decide_eq_true in Ha1.
      assert (is_mla s = false) as Hm.
      { apply not_true_is_false. intros Hm. apply negb_true_iff in Ha0. rewrite <- not_true_iff_false in Ha0. apply Ha0.
        apply existsb_exists. eauto. }
      destruct s; try done. injection Ha1 as ->. done.
    + intros s HF. inversion HF; subst. done.
  - unfold merge, merge_mla in H. peel H. destruct (remove_dups _) as [|d [|]] eqn:Ed; try done. injection H as <- <-.
    split_and!; [done|done|by inversion 1|done|]. intros s HF. inversion HF; subst. split; [|done]. simpl. do 2 f_equal.
    assert (d ∈ remove_dups (map cache_dtype_of (MLAAttentionSpec a w ch cd :: specs))) as Hd by (rewrite Ed; left).
    rewrite elem_of_remove_dups in Hd. apply list_elem_of_fmap in Hd as (x & -> & Hx). rewrite Forall_forall in HF.
    by rewrite (HF x Hx).
Qed.

Lemma create_groups_inv specs names c groups c' :
  create_kv_cache_group_specs specs names c = Ret groups c' ->
  c' = c /\ map layer_names groups = names /\ forall g, g ∈ groups -> layer_names g <> [] /\
  exists ls m c1, group_spec g = LayerSpec m /\ merge ls c1 = Ret m c1 /\
    Forall2 (fun n s => dict_get n specs = Some s) (layer_names g) ls.
Proof.
  intros H. apply (py_map_inv _ (fun ns g => layer_names g = ns /\ layer_names g <> [] /\ exists ls m c1, group_spec g = LayerSpec m /\
    merge ls c1 = Ret m c1 /\ Forall2 (fun n s => dict_get n specs = Some s) ns ls)) in H as [-> H].
  - split; [done|]. split.
    + induction H as [|x y l k (Hx & _) H IH]; simpl; by rewrite ?Hx, ?IH.
    + intros g Hg. apply list_elem_of_lookup in Hg as [i Hi].
      destruct (Forall2_lookup_r _ _ _ _ _ H Hi) as (ns & _ & <- & H1 & H2). done.
  - intros ns s g s' _ E. peel E. peel E. injection E as <- <-.
    apply (py_map_inv _ (fun n s => dict_get n specs = Some s)) in E0 as [-> HF].
    2:{ intros n c2 sp c3 _ [? ->]%unwrap_inv. done. }
    destruct (merge_inv _ _ _ _ E1) as (-> & Hne & _). split; [done|]. split; [done|]. simpl. split.
    + intros ->. by inversion HF; subst.
    + by exists a, a0, s.
Qed.
Lemma create_groups_ok specs g m :
  (exists ls c, merge ls c = Ret m c /\ Forall2 (fun n s => dict_get n specs = Some s) (layer_names g) ls) ->
  is_mla m = false -> forall n s, n ∈ layer_names g -> dict_get n specs = Some s -> same_pages s m.
Proof.
  intros (ls & c & Hm & HF) Hmla n s Hn Hs. destruct (merge_inv _ _ _ _ Hm) as (_ & _ & _ & H & _). specialize (H Hmla).
  rewrite Forall_forall in H. apply H. apply list_elem_of_lookup in Hn as [i Hi].
  destruct (Forall2_lookup_l _ _ _ _ _ HF Hi) as (s' & Hs' & E). rewrite Hs in E. injection E as <-. by eapply list_elem_of_lookup_2.
Qed.
(** Computations that leave the configuration alone, whether they return or raise. *)
Definition readonly {A} (m : py VllmConfig A) : Prop :=
  forall c, match m c with Ret _ c' => c' = c | Raise _ c' => c' = c end.
Lemma readonly_ret {A} (m : py VllmConfig A) c a c' : readonly m -> m c = Ret a c' -> c' = c.
Proof. intros H E. specialize (H c). by rewrite E in H. Qed.
Lemma ro_bind {A B} (m : py VllmConfig A) (k : A -> py VllmConfig B) :
  readonly m -> (forall a, readonly (k a)) -> readonly (py_bind m k).
Proof.
  intros Hm Hk c. unfold py_bind. specialize (Hm c). destruct (m c) as [a c'|]; [|done]. subst c'. apply Hk.
Qed.
Lemma ro_map {A B} (m : A -> py VllmConfig B) l : (forall x, readonly (m x)) -> readonly (py_map m l).
Proof.
  intros H. induction l as [|x l IH]; simpl; [by intros c|]. apply ro_bind; [done|]. intros y. apply ro_bind; [done|]. by intros ys c.
Qed.
Lemma ro_unwrap {A} e (o : option A) : readonly (py_unwrap e o).
Proof. by destruct o. Qed.
Lemma ro_assert b : readonly (py_assert b).
Proof. by destruct b. Qed.
Lemma ro_window l : readonly (merge_window_sizes l).
Proof. unfold merge_window_sizes. by destruct (remove_dups l) as [|? [|]]. Qed.
Lemma ro_merge specs : readonly (merge specs).
Proof.
  assert (readonly (merge_equal specs)) as He.
  { apply ro_bind; [apply ro_unwrap|intros s]. apply ro_bind; [apply ro_assert|by intros ? c]. }
  destruct specs as [|[] l]; try done; simpl.
  - apply ro_bind; [apply ro_assert|intros _]. apply ro_bind; [apply ro_assert|intros _]. apply ro_bind; [apply ro_window|intros w].
    apply ro_bind; [apply ro_window|intros ch]. apply ro_bind; [apply ro_assert|intros _]. apply ro_bind; [apply ro_assert|by intros _ c].
  - apply ro_bind; [apply ro_assert|intros _]. by destruct (remove_dups _) as [|? [|]].
Qed.
Lemma ro_uniform specs : readonly (is_kv_cache_spec_uniform specs).
Proof.
  unfold is_kv_cache_spec_uniform. destruct specs as [|e l]; [by intros c|]. intros c. unfold py_try, py_bind.
  pose proof (ro_merge (map snd (e :: l)) c) as H. destruct (merge _ c) as [a c'|x c']; [done|]. subst c'. by case_decide.
Qed.
Lemma ro_uniform_type specs : readonly (is_uniform_type specs).
Proof. unfold is_uniform_type. destruct (_ <? _)%nat; [by intros c|]. apply ro_bind; [apply ro_unwrap|]. intros [n []]; by intros c. Qed.
Lemma ro_page s : readonly (page_size_bytes s).
Proof.
  unfold page_size_bytes, mamba_page_size. destruct s; try (by intros c). destruct page_size_padded; [|by intros c].
  apply ro_bind; [apply ro_assert|by intros ? c].
Qed.

Lemma page_inv {S} s (c : S) p c' : page_size_bytes s c = Ret p c' -> c' = c /\ p = page_of s.
Proof.
  destruct s; simpl; try (by intros [= <- <-]). unfold mamba_page_size. fold (mamba_state shapes dtypes).
  destruct page_size_padded; [|by intros [= <- <-]]. intros H. peel H. by injection H as <- <-.
Qed.

Lemma with_block_ok n s : 0 < n -> spec_ok s -> spec_ok (with_block_size n s).
Proof. intros Hn. destruct s; simpl; unfold attention_ok; simpl; intros (? & ? & ?); split_and!; done. Qed.

(** All layers end up with one page size. *)
Lemma unify_pages_inv specs c unified c' :
  Forall (fun e => spec_ok e.2) specs -> unify_kv_cache_spec_page_size get_dtype_size specs c = Ret unified c' ->
  c' = c /\ map fst unified = map fst specs /\ Forall (fun e => spec_ok e.2) unified /\
  exists P, forall e, e ∈ unified -> page_of e.2 = P.
Proof.
  intros Hok H. unfold unify_kv_cache_spec_page_size in H. peel H.
  apply (py_map_inv _ (fun e p => p = page_of e.2)) in E as [-> HF].
  2:{ intros e c1 p c2 _ [-> ->]%page_inv. done. }
  assert (a = map (fun e => page_of e.2) specs) as -> by (clear -HF; induction HF; simpl; congruence).
  destruct (Nat.leb_spec (length (remove_dups (map (fun e => page_of e.2) specs))) 1) as [Hl|Hl].
  - injection H as <- <-. split_and!; try done.
    assert (forall e, e ∈ specs -> page_of e.2 ∈ remove_dups (map (fun e => page_of e.2) specs)) as Hin.
    { intros e He. apply elem_of_remove_dups. by apply (list_elem_of_fmap_2 (fun e => page_of e.2)). }
    destruct (remove_dups _) as [|P [|]]; simpl in Hl; [| |lia].
    + exists 0. intros e He. by apply Hin, not_elem_of_nil in He.
    + exists P. intros e He. by apply Hin, list_elem_of_singleton in He.
  - peel H. apply py_max_spec in E as (-> & _ & Hmax).
    apply (py_map_inv _ (fun e e' => e'.1 = e.1 /\ spec_ok e'.2 /\ page_of e'.2 = a)) in H as [-> HF2].
    + split; [done|]. clear -HF2. induction HF2 as [|e e' l l' (H1 & H2 & H3) HF IH]; simpl.
      { split_and!; [done|constructor|]. exists a. intros e He. by apply not_elem_of_nil in He. }
      destruct IH as (IH1 & IH2 & P & IH3). split_and!; [by rewrite H1, IH1|by constructor|].
      exists a. clear IH3. intros x [->|Hx]%elem_of_cons; [done|].
      apply list_elem_of_lookup in Hx as [i Hi]. by destruct (Forall2_lookup_r _ _ _ _ _ HF Hi) as (? & _ & _ & _ & ?).
    + intros e c1 e' c2 He E. rewrite Forall_forall in Hok. pose proof (Hok e He) as Hs. unfold unify_layer in E. peel E.
      apply page_inv in E0 as [-> ->]. destruct (Z.eqb_spec (page_of e.2) a) as [Ep|Ep]; [by injection E as <- <-|].
      destruct (Z.eqb_spec (page_of e.2) 0); [done|].
      destruct (Z.eqb_spec (a mod page_of e.2) 0) as [Em|]; [|done]. simpl in E. peel E. apply page_inv in E0 as [-> ->].
      peel E. injection E as <- <-. simpl. apply Z.eqb_eq in Ha. split_and!; try done. apply with_block_ok; [|done].
      pose proof (page_of_pos e.2 Hs). pose proof (spec_block_pos e.2 Hs).
      assert (page_of e.2 <= a) as Hle by (apply Hmax; by apply (list_elem_of_fmap_2 (fun e => page_of e.2))).
      apply Z.mul_pos_pos; [done|]. apply Z.div_str_pos. lia.
Qed.
Definition group_page (g : GroupSpec) : Z :=
  match g with LayerSpec s => page_of s | UniformTypeKVCacheSpecs _ l => sum_of (map (fun e => page_of e.2) l) end.

(** What a grouping promises: every layer is in exactly one group, no group is empty,
    a block takes the same memory per layer in all groups, and the layers of a group
    agree with its spec on page and block size (after conversion and scaling). *)
Record groups_ok (specs : list (string * KVCacheSpec)) (groups : list KVCacheGroupSpec) : Prop := mkGroupsOk {
  go_partition : concat (map layer_names groups) ≡ₚ map fst specs;
  go_nonempty : forall g, g ∈ groups -> layer_names g <> [];
  go_pages : forall g1 g2, g1 ∈ groups -> g2 ∈ groups -> group_page (group_spec g1) = group_page (group_spec g2);
  go_layers : exists unified, map fst unified = map fst specs /\ forall g m, g ∈ groups -> group_spec g = LayerSpec m ->
    is_mla m = false -> forall n s, n ∈ layer_names g -> dict_get n unified = Some s -> same_pages s m;
  go_specs : forall g, g ∈ groups -> match group_spec g with
    | LayerSpec m => spec_ok m
    | UniformTypeKVCacheSpecs _ l => groups = [g] /\ layer_names g = map fst l /\ Forall (fun e => spec_ok e.2) l
    end
}.

Lemma unify_hybrid_inv specs c out c' :
  unify_hybrid_kv_cache_specs specs c = Ret out c' ->
  c' = c /\ (out = specs \/ out = map (fun e => (e.1, as_full e.2)) specs).
Proof.
  assert (forall l, readonly (py_or (is_kv_cache_spec_uniform l) (is_uniform_type l))) as Hro.
  { intros l. apply ro_bind; [apply ro_uniform|]. intros []; [by intros ?|apply ro_uniform_type]. }
  intros H. unfold unify_hybrid_kv_cache_specs in H. peel H. apply (readonly_ret _ _ _ _ (Hro _)) in E as ->.
  destruct a; [injection H as <- <-; by split; [|left]|]. peel H. apply (readonly_ret _ _ _ _ (Hro _)) in E as ->.
  destruct a; [|done]. injection H as <- <-. split; [done|]. destruct (_ && _); [by right|by left].
Qed.
Lemma as_full_ok s : spec_ok s -> spec_ok (as_full s).
Proof. by destruct s. Qed.

Lemma group_size_inv sizes c gs c' : group_size_of sizes c = Ret gs c' -> c' = c /\ gs ∈ sizes.
Proof.
  intros H. unfold group_size_of in H. peel H. apply py_min_spec in E as (-> & H1 & _). peel H.
  apply py_max_spec in E as (-> & H2 & _). injection H as <- <-. split; [done|]. by destruct (_ <? _).
Qed.

Lemma one_group_ok specs g m ls c :
  NoDup (map fst specs) -> Forall (fun e => spec_ok e.2) specs -> specs <> [] -> layer_names g = map fst specs ->
  group_spec g = LayerSpec m -> merge ls c = Ret m c -> Forall2 (fun n s => dict_get n specs = Some s) (layer_names g) ls ->
  groups_ok specs [g].
Proof.
  intros Hnd Hok Hne En Eg Hm HF. assert (ls = map snd specs) as ->.
  { rewrite En in HF. assert (forall l, (forall e, e ∈ l -> e ∈ specs) -> forall ls,
      Forall2 (fun n s => dict_get n specs = Some s) (map fst l) ls -> ls = map snd l) as Hgo.
    { induction l as [|[n s] l IH]; intros Hsub ls0 H; inversion H as [|? ? ? ? H1 H2]; subst; [done|]. simpl. f_equal.
      - rewrite (dict_get_in n s) in H1 by (try done; apply Hsub; left). congruence.
      - apply IH; [|done]. intros e He. apply Hsub. by right. }
    by apply Hgo. }
  split.
  - simpl. rewrite app_nil_r. by rewrite En.
  - intros g' ->%list_elem_of_singleton. rewrite En. by destruct specs.
  - by intros g1 g2 ->%list_elem_of_singleton ->%list_elem_of_singleton.
  - exists specs. split; [done|]. intros g' m' ->%list_elem_of_singleton Eg' Hmla n s. rewrite Eg in Eg'. injection Eg' as <-.
    apply create_groups_ok; [|done]. by eauto.
  - intros g' ->%list_elem_of_singleton. rewrite Eg. destruct (merge_inv _ _ _ _ Hm) as (_ & _ & H & _). apply H.
    clear -Hok. induction Hok; constructor; done.
Qed.

Lemma page_groups_inv specs c groups c' P :
  NoDup (map fst specs) -> Forall (fun e => spec_ok e.2) specs -> (forall e, e ∈ specs -> page_of e.2 = P) ->
  get_kv_cache_groups_uniform_page_size specs c = Ret groups c' -> c' = c /\ groups_ok specs groups.
Proof.
  intros Hnd Hok HP H. unfold get_kv_cache_groups_uniform_page_size in H. peel H. apply group_size_inv in E as [-> Hgs].
  assert (0 < a) as Hpos.
  { apply list_elem_of_fmap in Hgs as ([s names] & -> & Hin). destruct (group_by_spec_spec specs) as [_ Hg].
    destruct (Hg s names Hin) as [Hne _]. destruct names; [done|]. simpl. lia. }
  fold (layer_groups a specs) in H. destruct (layer_groups_spec a specs Hpos) as [Hp Hl].
  destruct (create_groups_inv _ _ _ _ _ H) as (-> & En & Hg). split; [done|].
  assert (Hgroup : forall g, g ∈ groups -> exists m, group_spec g = LayerSpec m /\ spec_ok m /\ page_of m = P).
  { intros g Hin. destruct (Hg g Hin) as (_ & ls & m & c1 & Eg & Hm & HF). exists m. split; [done|].
    destruct (Hl (layer_names g)) as (Hne & s & Hs).
    { rewrite <- En. by apply (list_elem_of_fmap_2 layer_names). }
    assert (Forall (fun x => x = s) ls) as Hsame.
    { clear -Hnd Hs HF. induction HF as [|n x l k H1 H2 IH]; constructor.
      - rewrite (dict_get_in n s) in H1; [congruence|done|]. apply Hs. left.
      - apply IH. intros n' Hn'. apply Hs. by right. }
    destruct (merge_inv _ _ _ _ Hm) as (_ & Hls & H1 & _ & H2). destruct (layer_names g) as [|n ns]; [done|].
    pose proof (Hs n ltac:(left)) as Hin'. rewrite Forall_forall in Hok. pose proof (Hok _ Hin') as Hso. simpl in Hso.
    destruct (H2 s Hsame) as [Hpage _]. split.
    - apply H1. eapply Forall_impl; [exact Hsame|]. by intros x ->.
    - rewrite <- Hpage. apply (HP (n, s) Hin'). }
  split.
  - by rewrite En.
  - intros g Hin. apply Hg, Hin.
  - intros g1 g2 H1 H2. destruct (Hgroup g1 H1) as (m1 & -> & _ & E1), (Hgroup g2 H2) as (m2 & -> & _ & E2). simpl. congruence.
  - exists specs. split; [done|]. intros g m Hin Eg Hmla. apply create_groups_ok; [|done].
    destruct (Hg g Hin) as (_ & ls & m' & c1 & Eg' & Hm & HF). rewrite Eg in Eg'. injection Eg' as <-. eauto.
  - intros g Hin. by destruct (Hgroup g Hin) as (m & -> & ? & _).
Qed.
Lemma groups_ok_names specs specs' groups : map fst specs' = map fst specs -> groups_ok specs' groups -> groups_ok specs groups.
Proof.
  intros E [H1 H2 H3 (u & H4 & H5) H6]. split; try done; [by rewrite <- E|]. exists u. by rewrite H4.
Qed.
Lemma from_specs_inv specs c o c' : from_specs specs c = Ret o c' ->
  c' = c /\ (o = None \/ exists bs, o = Some (UniformTypeKVCacheSpecs bs specs)).
Proof.
  intros H. unfold from_specs in H. peel H. apply (readonly_ret _ _ _ _ (ro_uniform_type _)) in E as ->.
  destruct a; [|injection H as <- <-; by split; [|left]]. peel H. injection H as <- <-. split; [done|]. right. eauto.
Qed.

Lemma kv_cache_groups_ok specs c groups c' :
  NoDup (map fst specs) -> Forall (fun e => spec_ok e.2) specs ->
  get_kv_cache_groups get_dtype_size specs c = Ret groups c' -> c' = c /\ groups_ok specs groups.
Proof.
  intros Hnd Hok H. unfold get_kv_cache_groups in H. apply bind_inv in H as (c0 & s0 & [= <- <-] & H). peel H.
  assert (c0 = c /\ map fst a = map fst specs /\ Forall (fun e => spec_ok e.2) a) as (-> & En & Hok').
  { destruct (disable_hybrid_kv_cache_manager c); [|by injection E as <- <-].
    apply unify_hybrid_inv in E as [-> [->| ->]]; [done|]. split; [done|]. split.
    - rewrite map_map. simpl. done.
    - apply Forall_forall. intros e He. apply list_elem_of_fmap in He as (x & -> & Hx). rewrite Forall_forall in Hok.
      by apply as_full_ok, Hok. }
  clear E Hok. rewrite <- En in Hnd. cut (c' = c /\ groups_ok a groups).
  { intros [-> HG]. split; [done|]. by apply (groups_ok_names _ a). }
  clear En. destruct a as [|e0 l].
  { injection H as <- <-. split; [done|]. split; simpl; try done; try (by intros ? ?%not_elem_of_nil).
    { by intros ? ? ?%not_elem_of_nil. }
    exists []. split; [done|]. by intros ? ? ?%not_elem_of_nil. }
  peel H. apply (readonly_ret _ _ _ _ (ro_uniform _)) in E as ->. destruct a.
  { destruct (create_groups_inv _ _ _ _ _ H) as (-> & En & Hg). split; [done|].
    destruct groups as [|g [|]]; try done. injection En as En. destruct (Hg g ltac:(left)) as (_ & ls & m & c1 & Eg & Hm & HF).
    by apply (one_group_ok _ g m ls c1). }
  peel H. apply from_specs_inv in E as [-> [->|(bs & ->)]].
  - peel H. apply unify_pages_inv in E as (-> & En & Hok'' & P & HP); [|done]. rewrite <- En in Hnd.
    destruct (page_groups_inv _ _ _ _ P Hnd Hok'' HP H) as [-> HG]. split; [done|]. by apply (groups_ok_names _ a).
  - injection H as <- <-. split; [done|]. split; simpl.
    + rewrite app_nil_r. done.
    + intros g ->%list_elem_of_singleton. done.
    + by intros g1 g2 ->%list_elem_of_singleton ->%list_elem_of_singleton.
    + exists (e0 :: l). split; [done|]. by intros g m ->%list_elem_of_singleton.
    + by intros g ->%list_elem_of_singleton.
Qed.

(** ** Blocks and tensors *)

Lemma get_num_blocks_inv layers avail page c n c' : get_num_blocks layers avail page c = Ret n c' ->
  c' = c /\ page <> 0 /\ layers <> 0 /\ n = default (Z.max (avail / page / layers) 0) (num_gpu_blocks_override c).
Proof.
  intros H. unfold get_num_blocks in H. peel H. apply div_inv in E as (? & -> & ->). peel H. apply div_inv in E as (? & -> & ->).
  unfold may_override_num_blocks in H. apply bind_inv in H as (c1 & s1 & [= <- <-] & H). by injection H as <- <-.
Qed.

Lemma group_page_inv g c p c' : group_page_size get_dtype_size g c = Ret p c' -> c' = c /\ p = group_page g.
Proof.
  destruct g as [s|bs l]; simpl; [apply page_inv|]. intros H. peel H. injection H as <- <-.
  apply (py_map_inv _ (fun e p => p = page_of e.2)) in E as [-> HF].
  2:{ intros e c1 p1 c2 _ [-> ->]%page_inv. done. }
  split; [done|]. f_equal. clear -HF. induction HF; simpl; congruence.
Qed.

(** The [i]-th layers of all groups, over all [i], are all layers. *)
Lemma tensor_layers_perm groups n :
  (forall g, g ∈ groups -> (length (layer_names g) <= n)%nat) ->
  concat (map (tensor_layers groups) (seq 0 n)) ≡ₚ concat (map layer_names groups).
Proof.
  induction groups as [|g groups IH]; intros Hn.
  - simpl. clear Hn. induction (seq 0 n) as [|x l IHl]; [done|]. by simpl.
  - simpl. rewrite <- IH by (intros g' Hg'; apply Hn; by right). pose proof (Hn g ltac:(left)) as Hg. clear IH Hn.
    set (f := tensor_layers groups). change (tensor_layers (g :: groups)) with
      (fun i => match layer_names g !! i with Some x => x :: f i | None => f i end).
    assert (forall names k m, (length names <= m)%nat -> concat (map (fun i => match names !! (i - k)%nat with Some x => x :: f i | None => f i end) (seq k m))
      ≡ₚ names ++ concat (map f (seq k m))) as Hgo.
    { induction names as [|x names IH]; intros k m Hm.
      - by rewrite (map_ext _ f).
      - simpl in Hm. destruct m as [|m]; [lia|]. simpl. rewrite Nat.sub_diag. simpl. f_equiv.
        rewrite (map_ext_in _ (fun i => match names !! (i - S k)%nat with Some x => x :: f i | None => f i end)).
        + rewrite IH by lia. rewrite !app_assoc. f_equiv. apply Permutation_app_comm.
        + intros i Hi%in_seq. replace (i - k)%nat with (S (i - S k)) by lia. done. }
    rewrite <- (Hgo (layer_names g) 0%nat n Hg). apply reflexive_eq. f_equal. apply map_ext. intros i. by rewrite Nat.sub_0_r.
Qed.
(** The groups of one worker: those of the model with some of their layers. *)
Record worker_groups_ok (groups : list KVCacheGroupSpec) : Prop := mkWorkerGroupsOk {
  wg_nodup : NoDup (concat (map layer_names groups));
  wg_pages : forall g1 g2, g1 ∈ groups -> g2 ∈ groups -> group_page (group_spec g1) = group_page (group_spec g2);
  wg_specs : forall g, g ∈ groups -> match group_spec g with
    | LayerSpec m => spec_ok m
    | UniformTypeKVCacheSpecs _ l =>
        groups = [g] /\ sublist (layer_names g) (map fst l) /\ NoDup (map fst l) /\ Forall (fun e => spec_ok e.2) l /\ l <> []
    end
}.

(** Bytes of a block in the tensor of a layer. *)
Definition layer_page (g : KVCacheGroupSpec) (n : string) : option Z :=
  match group_spec g with
  | LayerSpec s => Some (page_of s)
  | UniformTypeKVCacheSpecs _ l => page_of <$> dict_get n l
  end.

(** A configuration for [groups]: every layer has one tensor, which holds [num_blocks]
    blocks of its page size, and together the tensors take at most [avail] bytes. *)
Record config_ok (groups : list KVCacheGroupSpec) (avail : Z) (k : KVCacheConfig) : Prop := mkConfigOk {
  cf_groups : kv_cache_groups k = groups;
  cf_layers : concat (map shared_by (kv_cache_tensors k)) ≡ₚ concat (map layer_names groups);
  cf_sizes : forall t, t ∈ kv_cache_tensors k -> exists p, 0 < p /\ tensor_size t = p * num_blocks k /\
    forall n g, n ∈ shared_by t -> g ∈ groups -> n ∈ layer_names g -> layer_page g n = Some p;
  cf_total : sum_of (map tensor_size (kv_cache_tensors k)) <= avail
}.

Lemma uniform_page_inv gs c p c' : get_uniform_page_size get_dtype_size gs c = Ret p c' ->
  c' = c /\ forall g, g ∈ gs -> group_page g = p.
Proof.
  intros H. unfold get_uniform_page_size in H. peel H.
  apply (py_map_inv _ (fun g p => p = group_page g)) in E as [-> HF].
  2:{ intros g c1 q c2 _ [-> ->]%group_page_inv. done. }
  assert (a = map group_page gs) as -> by (clear -HF; induction HF; simpl; congruence).
  destruct (remove_dups _) as [|q [|]] eqn:Ed; try done. injection H as <- <-. split; [done|]. intros g Hg.
  assert (group_page g ∈ remove_dups (map group_page gs)) as Hin
    by (apply elem_of_remove_dups; by apply (list_elem_of_fmap_2 group_page)).
  rewrite Ed in Hin. by apply list_elem_of_singleton in Hin.
Qed.

Lemma sum_of_const {A} (x : Z) (l : list A) : sum_of (map (fun _ => x) l) = Z.of_nat (length l) * x.
Proof. induction l as [|y l IH]; simpl; [done|]. rewrite IH. lia. Qed.
Lemma sum_of_scale {A} (f : A -> Z) n l : sum_of (map (fun x => f x * n) l) = sum_of (map f l) * n.
Proof. induction l as [|y l IH]; simpl; [done|]. rewrite IH. lia. Qed.

Lemma by_layer_ok groups avail c k c' :
  worker_groups_ok groups -> (forall g, g ∈ groups -> exists m, group_spec g = LayerSpec m) ->
  num_gpu_blocks_override c = None -> 0 <= avail -> tensors_by_layer get_dtype_size groups avail c = Ret k c' ->
  c' = c /\ config_ok groups avail k /\ 0 <= num_blocks k.
Proof.
  intros [W1 W2 W3] Hl Ho Hav H. unfold tensors_by_layer in H. peel H. apply py_max_spec in E as (-> & Hmem & Hmax). peel H.
  apply uniform_page_inv in E as [-> Hp]. peel H. peel H. apply get_num_blocks_inv in E as (-> & Hp0 & Hg0 & Hn).
  rewrite Ho in Hn. simpl in Hn. injection H as <- <-. apply Z.ltb_lt in Ha. split; [done|].
  assert (Hpage : forall g, g ∈ groups -> layer_page g = fun _ => Some a0).
  { intros g Hg. destruct (Hl g Hg) as [m Em]. unfold layer_page. rewrite Em.
    specialize (Hp (group_spec g) (list_elem_of_fmap_2 group_spec _ _ Hg)). rewrite Em in Hp. simpl in Hp. by rewrite Hp. }
  assert (0 < a0) as Hpos.
  { apply list_elem_of_fmap in Hmem as (g & _ & Hg). destruct (Hl g Hg) as [m Em]. specialize (W3 g Hg). rewrite Em in W3.
    specialize (Hp (group_spec g) (list_elem_of_fmap_2 group_spec _ _ Hg)). rewrite Em in Hp. simpl in Hp. rewrite <- Hp.
    by apply page_of_pos. }
  assert (0 <= avail / a0 / a) as Hdiv by (apply Z.div_pos; [apply Z.div_pos|]; lia).
  split; [|simpl; lia]. split; simpl.
  - done.
  - rewrite map_map. simpl. apply tensor_layers_perm. intros g Hg.
    pose proof (Hmax _ (list_elem_of_fmap_2 (fun g => Z.of_nat (length (layer_names g))) _ _ Hg)). simpl in *. lia.
  - intros t Ht. apply list_elem_of_fmap in Ht as (i & -> & _). exists a0. simpl. split_and!; [done|done|].
    intros n g _ Hg _. by rewrite Hpage.
  - rewrite map_map. simpl. rewrite sum_of_const, length_seq, Z2Nat.id by lia. rewrite Hn.
    rewrite Z.max_l by done. pose proof (Z.mul_div_le (avail / a0) a Ha). pose proof (Z.mul_div_le avail a0 Hpos). nia.
Qed.

Lemma sum_of_sublist (f : string -> Z) l1 l2 : sublist l1 l2 -> (forall x, x ∈ l2 -> 0 <= f x) ->
  sum_of (map f l1) <= sum_of (map f l2).
Proof.
  induction 1 as [|x l1 l2 H IH|x l1 l2 H IH]; intros Hf; simpl; [done|..].
  - specialize (IH ltac:(intros y Hy; apply Hf; by right)). lia.
  - specialize (IH ltac:(intros y Hy; apply Hf; by right)). pose proof (Hf x ltac:(left)). lia.
Qed.

Lemma by_size_ok g bs l avail c k c' :
  group_spec g = UniformTypeKVCacheSpecs bs l -> worker_groups_ok [g] -> l <> [] ->
  num_gpu_blocks_override c = None -> 0 <= avail -> tensors_by_size get_dtype_size g l avail c = Ret k c' ->
  c' = c /\ config_ok [g] avail k /\ 0 <= num_blocks k.
Proof.
  intros Eg [W1 _ W3] Hne Ho Hav H. specialize (W3 g ltac:(left)). rewrite Eg in W3. destruct W3 as (_ & Hsub & Hnd & Hok & _).
  unfold tensors_by_size in H. peel H. apply group_page_inv in E as [-> ->]. peel H. apply div_inv in E as (Hp0 & -> & ->). peel H.
  unfold may_override_num_blocks in E. apply bind_inv in E as (c1 & s1 & [= <- <-] & E). injection E as <- <-.
  rewrite Ho in H. simpl in H. set (num := avail / group_page (group_spec g)) in *. peel H. injection H as <- <-.
  set (pg n := default 0 (page_of <$> dict_get n l)).
  apply (py_map_inv _ (fun n t => exists s, dict_get n l = Some s /\ t = mkTensor (page_of s * num) [n])) in E as [-> HF].
  2:{ intros n c1 t c2 _ Et. peel Et. peel Et. apply page_inv in E0 as [-> ->]. injection Et as <- <-. split; [done|]. by exists a0. }
  assert (Hpos : forall n s, dict_get n l = Some s -> 0 < page_of s).
  { intros n s. clear -Hok dtype_pos. induction Hok as [|e l He HF IH]; [done|]. destruct e as [k v]. simpl. case_decide; [|done].
    intros [= <-]. by apply page_of_pos. }
  assert (a = map (fun n => mkTensor (pg n * num) [n]) (layer_names g)) as ->.
  { clear -HF. induction HF as [|n t ns ts (s & Es & ->) HF IH]; simpl; [done|]. rewrite IH. unfold pg. by rewrite Es. }
  assert (Hall : sum_of (map pg (map fst l)) = group_page (group_spec g)).
  { rewrite Eg. simpl. rewrite map_map. f_equal. apply map_ext_in. intros [n s] Hin%list_elem_of_In. unfold pg. simpl.
    by rewrite (dict_get_in n s). }
  assert (0 < group_page (group_spec g)) as Hgp.
  { rewrite Eg in *. simpl. clear -Hok Hne dtype_pos. destruct l as [|e l]; [done|]. inversion Hok as [|? ? He HF]; subst. simpl.
    pose proof (page_of_pos e.2 He). assert (0 <= sum_of (map (fun e => page_of e.2) l)); [|lia].
    clear -HF dtype_pos. induction HF as [|x l Hx HF IH]; simpl; [done|]. pose proof (page_of_pos x.2 Hx). lia. }
  assert (0 <= num) as Hnum by (apply Z.div_pos; lia).
  split; [done|]. split; [|done]. split; simpl.
  - done.
  - rewrite app_nil_r, map_map. simpl. clear. by induction (layer_names g) as [|x xs IH]; simpl; [|constructor].
  - intros t Ht. apply list_elem_of_fmap in Ht as (n & -> & Hn). simpl. apply list_elem_of_lookup in Hn as [i Hi].
    destruct (Forall2_lookup_l _ _ _ _ _ HF Hi) as (t & _ & s & Es & _). exists (pg n). unfold pg at 1 2. rewrite Es. simpl.
    split_and!; [by apply (Hpos n)|by unfold pg; rewrite Es|]. intros n' g' ->%list_elem_of_singleton ->%list_elem_of_singleton _.
    unfold layer_page. rewrite Eg. unfold pg. by rewrite Es.
  - rewrite map_map. simpl. rewrite sum_of_scale. pose proof (sum_of_sublist pg _ _ Hsub) as Hle. rewrite Hall in Hle.
    pose proof (Z.mul_div_le avail _ Hgp). fold num in H. assert (sum_of (map pg (layer_names g)) <= group_page (group_spec g)); [|nia].
    apply Hle. intros x _. unfold pg. destruct (dict_get x l) as [s|] eqn:Es; simpl; [|done]. pose proof (Hpos x s Es). lia.
Qed.
(** ** All workers *)

Lemma check_inv c specs avail u c' : specs_ok c specs ->
  check_enough_kv_cache_memory get_dtype_size specs avail c = Ret u c' ->
  c' = c /\ (specs <> [] -> 0 < avail /\ needed c specs (max_model_len c) <= avail).
Proof.
  intros Hok H. destruct specs as [|e l]; [by injection H as <- <-|]. unfold check_enough_kv_cache_memory in H.
  destruct (Z.leb_spec avail 0); [done|]. peel H.
  pose proof (layer_memory_spec c (e :: l) (max_model_len c) Hok) as Hm.
  replace (set_max_model_len (max_model_len c) c) with c in Hm by (by destruct c). rewrite Hm in E. injection E as <- <-.
  destruct (Z.ltb_spec avail (needed c (e :: l) (max_model_len c))); [|by injection H as <- <-].
  apply bind_inv in H as (n & c1 & _ & H). done.
Qed.

Lemma merge_worker_inv w : forall merged c out c',
  NoDup (map fst merged) -> merge_worker merged w c = Ret out c' ->
  c' = c /\ NoDup (map fst out) /\ forall e, e ∈ out <-> e ∈ merged \/ e ∈ w.
Proof.
  induction w as [|[n s] w IH]; intros merged c out c' Hnd H; simpl in H.
  - injection H as <- <-. split_and!; [done|done|]. intros e. split; [by left|]. by intros [|?%not_elem_of_nil].
  - destruct (dict_get n merged) as [s'|] eqn:Eg.
    + peel H. apply bool_decide_eq_true in Ha as ->. destruct (IH _ _ _ _ Hnd H) as (-> & H1 & H2). split_and!; [done|done|].
      intros e. rewrite H2, elem_of_cons. split; [tauto|]. intros [|[->|]]; [by left| |by right]. left.
      clear -Eg. induction merged as [|[k v] m IH]; simpl in Eg; [done|]. case_decide; [injection Eg as ->; subst; left|right; auto].
    + apply IH in H as (-> & H1 & H2).
      2:{ rewrite map_app. simpl. apply NoDup_app. split_and!; [done| |apply NoDup_singleton].
        intros x Hx ->%list_elem_of_singleton. clear -Hx Eg. induction merged as [|[k v] m IH]; simpl in *; [by apply not_elem_of_nil in Hx|].
        apply elem_of_cons in Hx as [->|Hx]; [by rewrite decide_True in Eg|]. case_decide; [done|]. auto. }
      split_and!; [done|done|]. intros e. rewrite H2, elem_of_app, list_elem_of_singleton, elem_of_cons. tauto.
Qed.
Lemma merge_workers_inv ws : forall merged c out c',
  NoDup (map fst merged) -> merge_workers merged ws c = Ret out c' ->
  c' = c /\ NoDup (map fst out) /\ forall e, e ∈ out <-> e ∈ merged \/ exists w, w ∈ ws /\ e ∈ w.
Proof.
  induction ws as [|w ws IH]; intros merged c out c' Hnd H; simpl in H.
  - injection H as <- <-. split_and!; [done|done|]. intros e. split; [by left|]. by intros [|(w & ?%not_elem_of_nil & _)].
  - peel H. destruct (merge_worker_inv _ _ _ _ _ Hnd E) as (-> & H1 & H2). destruct (IH _ _ _ _ H1 H) as (-> & H3 & H4).
    split_and!; [done|done|]. intros e. rewrite H4, H2. split.
    + intros [[?|?]|(w' & ? & ?)]; [by left|right; exists w; by split; [left|]|right; exists w'; by split; [right|]].
    + intros [?|(w' & [->|?]%elem_of_cons & ?)]; [by left; left|by left; right|right; eauto].
Qed.

Lemma concat_filter {A B} (f : A -> bool) (p : B -> list A) l :
  concat (map (fun x => List.filter f (p x)) l) = List.filter f (concat (map p l)).
Proof. induction l as [|x l IH]; simpl; [done|]. by rewrite List.filter_app, IH. Qed.
Lemma filter_sublist {A} (f : A -> bool) l : sublist (List.filter f l) l.
Proof. induction l as [|x l IH]; simpl; [constructor|]. destruct (f x); by constructor. Qed.

(** The layers of a worker, by the groups of the model. *)
Lemma worker_groups_spec merged groups w :
  NoDup (map fst merged) -> groups_ok merged groups -> NoDup (map fst w) -> (forall e, e ∈ w -> e ∈ merged) ->
  Forall (fun e => spec_ok e.2) merged ->
  worker_groups_ok (worker_groups groups w) /\ concat (map layer_names (worker_groups groups w)) ≡ₚ map fst w /\
  map group_spec (worker_groups groups w) = map group_spec groups.
Proof.
  intros Hnd [G1 G2 G3 _ G5] Hw Hsub Hok. unfold worker_groups.
  assert (concat (map layer_names (worker_groups groups w)) ≡ₚ map fst w) as Hperm.
  { unfold worker_groups. rewrite map_map. simpl. rewrite concat_filter. apply NoDup_Permutation; [|done|].
    - apply NoDup_ListNoDup, List.NoDup_filter, NoDup_ListNoDup. by rewrite G1.
    - intros n. rewrite list_elem_of_In, filter_In, <- list_elem_of_In, bool_decide_eq_true, dict_get_some, G1.
      split; [by intros [_ ?]|]. intros Hn. split; [|done]. apply list_elem_of_fmap in Hn as (e & -> & He).
      by apply list_elem_of_fmap_2, Hsub. }
  split_and!; [|done|by rewrite map_map].
  split.
  - fold (worker_groups groups w). by rewrite Hperm.
  - intros g1 g2 H1 H2. apply list_elem_of_fmap in H1 as (x1 & -> & H1). apply list_elem_of_fmap in H2 as (x2 & -> & H2). simpl. auto.
  - intros g Hg. apply list_elem_of_fmap in Hg as (x & -> & Hx). simpl. specialize (G5 x Hx).
    destruct (group_spec x) eqn:Ex; [done|]. destruct G5 as (-> & En & HF). split_and!; [|by rewrite En; apply filter_sublist| |done|].
    + by simpl; rewrite Ex.
    + rewrite <- En. simpl in G1. rewrite app_nil_r in G1. by rewrite G1.
    + intros ->. by apply (G2 x Hx).
Qed.
Lemma ro_cdiv a b : readonly (py_cdiv a b).
Proof. unfold py_cdiv. by destruct (b =? 0). Qed.
Lemma ro_max l : readonly (py_max l).
Proof. by destruct l. Qed.
Lemma ro_div a b : readonly (py_div a b).
Proof. unfold py_div. by destruct (b =? 0). Qed.
Lemma ro_spec_memory s : readonly (spec_max_memory s).
Proof.
  unfold spec_max_memory. assert (readonly (max_tokens_of s)) as Ht.
  { unfold max_tokens_of. apply ro_bind; [by intros c|]. intros c. destruct s; try (by intros c'); try (by destruct (1 <? _)).
    apply ro_bind; [apply ro_assert|by intros ? c']. }
  destruct s; try (by intros c); apply ro_bind; try done; intros [t e]; (apply ro_bind; [apply ro_cdiv|intros b]);
    (apply ro_bind; [apply ro_page|by intros p c]).
Qed.
Lemma ro_group_page g : readonly (group_page_size get_dtype_size g).
Proof. destruct g; [apply ro_page|]. apply ro_bind; [apply ro_map; intros e; apply ro_page|by intros l c]. Qed.
Lemma ro_group_memory g : readonly (group_max_memory get_dtype_size g).
Proof.
  destruct g; [apply ro_spec_memory|]. apply ro_bind.
  - apply ro_map. intros e. apply ro_bind; [apply ro_spec_memory|intros m]. apply ro_bind; [apply ro_page|intros p; apply ro_cdiv].
  - intros l. apply ro_bind; [apply ro_max|intros m]. apply ro_bind; [apply ro_group_page|by intros p c].
Qed.
Lemma ro_shrink n k : readonly (shrink_config get_dtype_size n k).
Proof.
  unfold shrink_config. apply ro_bind.
  - apply ro_map. intros t. unfold shrink_tensor. destruct (_ =? 0); [by intros c|]. apply ro_bind; [apply ro_assert|by intros ? c].
  - intros ts. destruct (kv_cache_groups k); [by intros c|]. apply ro_bind; [|by intros ? c]. unfold report_kv_cache_config.
    apply ro_bind; [by destruct (map _ _)|intros b]. apply ro_bind; [apply ro_div|intros q]. apply ro_bind; [by intros c|intros c0].
    apply ro_bind; [|by intros ? c]. unfold get_max_concurrency_for_kv_cache_config. apply ro_bind; [apply ro_max|intros l1].
    apply ro_bind.
    { apply ro_bind; [apply ro_map; intros g; apply ro_group_memory|by intros ? c]. }
    intros m. apply ro_bind; [apply ro_unwrap|intros f]. apply ro_bind; [apply ro_group_page|intros p].
    apply ro_bind; [apply ro_cdiv|intros d]. by destruct (d =? 0).
Qed.

(** Shrinking to the smallest number of blocks keeps a configuration within its memory. *)
Lemma shrink_inv groups avail k n c k' c' :
  config_ok groups avail k -> 0 <= n <= num_blocks k ->
  shrink_config get_dtype_size n k c = Ret k' c' -> c' = c /\ config_ok groups avail k' /\ num_blocks k' = n.
Proof.
  intros [H1 H2 H3 H4] Hn H. split; [by apply (readonly_ret _ _ _ _ (ro_shrink n k)) in H|].
  unfold shrink_config in H. peel H.
  apply (py_map_inv _ (fun t t' => t' = mkTensor (tensor_size t / num_blocks k * n) (shared_by t) /\ num_blocks k <> 0)) in E as [-> HF].
  2:{ intros t c1 t' c2 _ Et. unfold shrink_tensor in Et. destruct (Z.eqb_spec (num_blocks k) 0); [done|]. peel Et.
      injection Et as <- <-. done. }
  assert (k' = mkKVConfig n a (kv_cache_groups k)) as ->.
  { destruct (kv_cache_groups k); [by injection H as <- <-|]. peel H. by injection H as <- <-. }
  clear H. split; [|done].
  assert (forall t, t ∈ kv_cache_tensors k -> num_blocks k <> 0 -> exists p, 0 < p /\ tensor_size t = p * num_blocks k /\
    tensor_size t / num_blocks k * n = p * n /\ forall m g, m ∈ shared_by t -> g ∈ groups -> m ∈ layer_names g -> layer_page g m = Some p) as Hsz.
  { intros t Ht Hk. destruct (H3 t Ht) as (p & Hp & Es & Hl). exists p. split_and!; [done|done| |done].
    rewrite Es, Z.div_mul by done. done. }
  split; simpl.
  - done.
  - rewrite <- H2. clear -HF. induction HF as [|t t' l l' [-> _] HF IH]; simpl; [done|]. by rewrite IH.
  - intros t' Ht'. apply list_elem_of_lookup in Ht' as [i Hi]. destruct (Forall2_lookup_r _ _ _ _ _ HF Hi) as (t & Ht & -> & Hk).
    destruct (Hsz t) as (p & Hp & _ & E & Hl); [by eapply list_elem_of_lookup_2|done|]. exists p. simpl. by split_and!.
  - etransitivity; [|exact H4]. clear H2 H3 H4 H1. induction HF as [|t t' l l' [-> Hk] HF IH]; simpl; [done|].
    destruct (Hsz t ltac:(left) Hk) as (p & Hp & E1 & E2 & _). rewrite E2, E1.
    specialize (IH ltac:(intros t0 Ht0; apply Hsz; by right)). nia.
Qed.

Lemma config_from_groups_ok groups avail c k c' :
  worker_groups_ok groups -> num_gpu_blocks_override c = None -> 0 <= avail ->
  get_kv_cache_config_from_groups get_dtype_size groups avail c = Ret k c' ->
  c' = c /\ config_ok groups avail k /\ 0 <= num_blocks k.
Proof.
  intros W Ho Hav H.
  assert ((forall g, g ∈ groups -> exists m, group_spec g = LayerSpec m) ->
    tensors_by_layer get_dtype_size groups avail c = Ret k c' -> c' = c /\ config_ok groups avail k /\ 0 <= num_blocks k) as Hlayer.
  { intros Hl E. by apply (by_layer_ok groups avail c k c'). }
  destruct groups as [|[names [s|bs l]] rest]; simpl in H.
  - injection H as <- <-. split; [done|]. split; [|done]. split; simpl; [done|done| |lia]. intros t Ht. by apply not_elem_of_nil in Ht.
  - apply Hlayer; [|by destruct rest]. intros g Hg. destruct (group_spec g) as [m|bs l] eqn:Eg; [by exists m|].
    pose proof (wg_specs _ W g Hg) as Hs. rewrite Eg in Hs. destruct Hs as [[= Hs _] _]. by rewrite <- Hs in Eg.
  - pose proof (wg_specs _ W (mkGroup names (UniformTypeKVCacheSpecs bs l)) ltac:(left)) as (E & _ & _ & _ & Hl).
    injection E as ->. by apply (by_size_ok (mkGroup names (UniformTypeKVCacheSpecs bs l)) bs l avail c k c').
Qed.

(** What the configurations of the workers have in common with each other and with
    their layers. *)
Record configs_ok (workers : list (list (string * KVCacheSpec))) (avail : list Z) (configs : list KVCacheConfig) : Prop := mkConfigsOk {
  cs_length : length configs = length (zip workers avail);
  cs_blocks : forall k1 k2, k1 ∈ configs -> k2 ∈ configs ->
    num_blocks k1 = num_blocks k2 /\ map group_spec (kv_cache_groups k1) = map group_spec (kv_cache_groups k2);
  cs_worker : forall i w m k, workers !! i = Some w -> avail !! i = Some m -> configs !! i = Some k ->
    concat (map layer_names (kv_cache_groups k)) ≡ₚ map fst w /\ config_ok (kv_cache_groups k) m k
}.

Lemma kv_cache_configs_ok c workers avail configs c' :
  (forall w, w ∈ workers -> NoDup (map fst w) /\ specs_ok c w) -> (forall m, m ∈ avail -> 0 <= m) ->
  num_gpu_blocks_override c = None -> get_kv_cache_configs get_dtype_size workers avail c = Ret configs c' ->
  c' = c /\ configs_ok workers avail configs.
Proof.
  intros Hw Hav Ho H. unfold get_kv_cache_configs in H. peel H.
  assert (c0 = c) as ->.
  { assert (forall l, (forall w, w ∈ l -> specs_ok c w.1) -> forall u c1,
      py_for l (fun w => check_enough_kv_cache_memory get_dtype_size w.1 w.2) c = Ret u c1 -> c1 = c) as Hgo.
    { induction l as [|w l IH]; intros Hl u c1 E1; simpl in E1; [by injection E1 as _ <-|]. apply bind_inv in E1 as (v & c2 & E1 & E2).
      apply check_inv in E1 as [-> _]; [|apply Hl; left]. apply (IH ltac:(intros x Hx; apply Hl; by right) _ _ E2). }
    apply (Hgo _ ltac:(intros [w m] Hin; apply Hw; by apply elem_of_zip_l in Hin) _ _ E). }
  clear E. peel H. apply merge_workers_inv in E as (-> & Hnd & Hin); [|constructor]. rename a0 into merged.
  assert (Forall (fun e => spec_ok e.2) merged) as Hok.
  { apply Forall_forall. intros e He. apply Hin in He as [?%not_elem_of_nil|(w & Hw1 & Hw2)]; [done|].
    destruct (Hw w Hw1) as [_ Hs]. by destruct (Hs e Hw2). }
  peel H. destruct (kv_cache_groups_ok _ _ _ _ Hnd Hok E) as [-> HG]. clear E. rename a0 into groups.
  assert (Hmine : forall w, w ∈ workers -> worker_groups_ok (worker_groups groups w) /\
    concat (map layer_names (worker_groups groups w)) ≡ₚ map fst w /\ map group_spec (worker_groups groups w) = map group_spec groups).
  { intros w Hin'. apply (worker_groups_spec merged); try done; [by apply Hw|]. intros e He. apply Hin. right. by exists w. }
  peel H. rename a0 into ks.
  apply (py_map_inv_at _ (fun w k => config_ok (worker_groups groups w.1) w.2 k /\ 0 <= num_blocks k)) in E as [-> HF].
  2:{ intros [w m] k c2 Hin' E1. unfold worker_config in E1. peel E1. simpl in *.
      apply (config_from_groups_ok _ _ _ _ _) in E1; [done| |done|].
      - apply Hmine. by apply elem_of_zip_l in Hin'.
      - apply Hav. by apply elem_of_zip_r in Hin'. }
  peel H. apply py_min_spec in E as (-> & Hmem & Hmin).
  assert (0 <= a0) as Hpos.
  { apply list_elem_of_fmap in Hmem as (k & -> & Hk). apply list_elem_of_lookup in Hk as [i Hi].
    by destruct (Forall2_lookup_r _ _ _ _ _ HF Hi) as (_ & _ & _ & ?). }
  apply (py_map_inv _ (fun k k' => forall g m, config_ok g m k -> config_ok g m k' /\ num_blocks k' = a0)) in H as [-> HF2].
  2:{ intros k c1 k' c2 Hk E. split; [by apply (readonly_ret _ _ _ _ (ro_shrink a0 k)) in E|]. intros g m HC.
      destruct (shrink_inv g m k a0 c1 k' c2 HC) as (_ & ? & ?); [|done|done]. split; [done|]. apply Hmin.
      by apply list_elem_of_fmap_2. }
  split; [done|].
  assert (Hk' : forall i k', configs !! i = Some k' -> exists w m, zip workers avail !! i = Some (w, m) /\
    config_ok (worker_groups groups w) m k' /\ num_blocks k' = a0).
  { intros i k' Hi. destruct (Forall2_lookup_r _ _ _ _ _ HF2 Hi) as (k & Hk & HC).
    destruct (Forall2_lookup_r _ _ _ _ _ HF Hk) as ([w m] & Hz & HCk & _). exists w, m. split; [done|]. by apply HC. }
  split.
  - by rewrite (Forall2_length _ _ _ HF), (Forall2_length _ _ _ HF2).
  - assert (forall k, k ∈ configs -> num_blocks k = a0 /\ map group_spec (kv_cache_groups k) = map group_spec groups) as Hall.
    { intros k Hk. apply list_elem_of_lookup in Hk as [i Hi]. destruct (Hk' i k Hi) as (w & m & Hz & HC & Hn). split; [done|].
      rewrite (cf_groups _ _ _ HC). apply Hmine. apply list_elem_of_lookup_2, elem_of_zip_l in Hz. done. }
    intros k1 k2 H1 H2. destruct (Hall k1 H1), (Hall k2 H2). split; congruence.
  - intros i w m k Hwi Hmi Hki. destruct (Hk' i k Hki) as (w' & m' & Hz & HC & _).
    rewrite lookup_zip_with, Hwi, Hmi in Hz. injection Hz as <- <-. rewrite (cf_groups _ _ _ HC). split; [|done].
    apply Hmine. by eapply list_elem_of_lookup_2.
Qed.
(** ** Models with one kind of full attention *)

Section full.
Context (a : AttentionSpec) (c : VllmConfig) (a_ok : attention_ok a).
Context (one_rank : decode_context_parallel_size c * prefill_context_parallel_size c <= 1).
Context (no_override : num_gpu_blocks_override c = None).
Notation s := (FullAttentionSpec a None None).
Notation page := (attention_page_size get_dtype_size a).
Notation blocks_per_request := (cdiv (max_model_len c) (block_size a)).
Notation Specs := (list (string * KVCacheSpec)).
Definition all_full (specs : Specs) : Prop := forall e, e ∈ specs -> e.2 = s.

Lemma page_pos : 0 < page.
Proof. apply (page_of_pos s a_ok). Qed.
Lemma all_full_specs_ok specs : all_full specs -> specs_ok c specs.
Proof. intros H e He. rewrite (H e He). done. Qed.

Lemma merge_full_ok ls c0 : ls <> [] -> (forall x, x ∈ ls -> x = s) -> merge ls c0 = Ret s c0.
Proof.
  intros Hne Hall. destruct ls as [|x ls]; [done|]. pose proof (Hall x ltac:(left)) as ->. cbn [merge]. unfold merge_full.
  assert (forall (f : KVCacheSpec -> bool) l, (forall x, x ∈ l -> x = s) -> f s = true -> forallb f l = true) as Hfor.
  { intros f l Hl Hf. apply forallb_forall. intros y Hy%list_elem_of_In. by rewrite (Hl y Hy). }
  assert (existsb is_mla (s :: ls) = false) as Hm.
  { apply not_true_is_false. intros (y & Hy%list_elem_of_In & E)%existsb_exists. by rewrite (Hall y Hy) in E. }
  assert (forall (f : KVCacheSpec -> option Z) l, (forall x, x ∈ l -> x = s) -> f s = None -> omap f l = []) as Homap.
  { intros f l Hl Hf. induction l as [|y l IH]; [done|]. simpl. rewrite (Hl y ltac:(left)), Hf. apply IH. intros z Hz. apply Hl. by right. }
  unfold merge_window_sizes. rewrite !Homap, !Hfor, Hm; try done. simpl. by rewrite bool_decide_true.
Qed.
Lemma uniform_full_ok specs c0 : all_full specs -> is_kv_cache_spec_uniform specs c0 = Ret true c0.
Proof.
  intros H. destruct specs as [|e l]; [done|]. unfold is_kv_cache_spec_uniform, py_try, py_bind.
  rewrite merge_full_ok; [done|done|]. intros x Hx. apply list_elem_of_fmap in Hx as (y & -> & Hy). by apply H.
Qed.

Lemma merge_worker_full w : forall merged,
  all_full w -> all_full merged -> exists out, merge_worker merged w c = Ret out c /\ all_full out.
Proof.
  induction w as [|[n x] w IH]; intros merged Hw Hm; simpl; [by exists merged|].
  assert (all_full w) as Hw' by (intros e He; apply Hw; by right). pose proof (Hw (n, x) ltac:(left)) as Hx. simpl in Hx. subst x.
  destruct (dict_get n merged) as [s'|] eqn:Eg.
  - assert (s' = s) as ->.
    { clear -Eg Hm. induction merged as [|[k v] m IH]; [done|]. simpl in Eg. case_decide.
      - injection Eg as <-. apply (Hm (k, v)). left.
      - apply IH; [|done]. intros e He. apply Hm. by right. }
    unfold py_bind, py_assert. rewrite bool_decide_true by done. by apply IH.
  - apply IH; [done|]. intros e [He|He]%elem_of_app; [by apply Hm|]. by apply list_elem_of_singleton in He as ->.
Qed.
Lemma merge_workers_full ws : forall merged,
  (forall w, w ∈ ws -> all_full w) -> all_full merged -> exists out, merge_workers merged ws c = Ret out c /\ all_full out.
Proof.
  induction ws as [|w ws IH]; intros merged Hw Hm; simpl; [by exists merged|].
  destruct (merge_worker_full w merged) as (m & E & Hm'); [apply Hw; left|done|]. unfold py_bind. rewrite E.
  apply IH; [|done]. intros w' Hw'. apply Hw. by right.
Qed.

Lemma groups_full specs : NoDup (map fst specs) -> specs <> [] -> all_full specs ->
  get_kv_cache_groups get_dtype_size specs c = Ret [mkGroup (map fst specs) (LayerSpec s)] c.
Proof.
  intros Hnd Hne Hall. unfold get_kv_cache_groups, py_bind at 1. simpl. unfold py_bind at 1.
  assert ((if disable_hybrid_kv_cache_manager c then unify_hybrid_kv_cache_specs specs else py_ret specs) c = Ret specs c) as ->.
  { destruct (disable_hybrid_kv_cache_manager c); [|done]. unfold unify_hybrid_kv_cache_specs, py_or, py_bind.
    by rewrite uniform_full_ok. }
  destruct specs as [|e0 l0]; [done|]. set (specs := e0 :: l0) in *. unfold py_bind at 1. rewrite uniform_full_ok by done.
  unfold create_kv_cache_group_specs. erewrite (py_map_pure _ (fun names => mkGroup names (LayerSpec s))); [done|].
  intros names ->%list_elem_of_singleton. unfold py_bind at 1. rewrite (py_map_pure _ (fun _ => s)).
  - unfold py_bind. rewrite merge_full_ok; [done|by destruct specs|]. intros x Hx.
    by apply list_elem_of_fmap in Hx as (y & -> & _).
  - intros n Hn. apply list_elem_of_fmap in Hn as ([n' x] & -> & He). cbn [fst]. rewrite (dict_get_in n' x specs Hnd He).
    by rewrite <- (Hall (n', x) He).
Qed.
Lemma needed_full w : all_full w -> needed c w (max_model_len c) = Z.of_nat (length w) * (blocks_per_request * page).
Proof.
  intros H. unfold needed. rewrite (map_ext_in _ (fun _ => blocks_per_request * page)); [apply sum_of_const|].
  intros e He%list_elem_of_In. rewrite (H e He). simpl. destruct (Z.ltb_spec 1 (decode_context_parallel_size c * prefill_context_parallel_size c)); lia.
Qed.
Lemma memory_full : spec_max_memory s c = Ret (blocks_per_request * page) c.
Proof.
  pose proof (spec_max_memory_spec s c (max_model_len c) a_ok ltac:(done)) as H.
  replace (set_max_model_len (max_model_len c) c) with c in H by (by destruct c). rewrite H. f_equal. simpl.
  destruct (Z.ltb_spec 1 (decode_context_parallel_size c * prefill_context_parallel_size c)); lia.
Qed.
Lemma check_full w avail : all_full w -> 0 < avail -> needed c w (max_model_len c) <= avail ->
  check_enough_kv_cache_memory get_dtype_size w avail c = Ret tt c.
Proof.
  intros H Hav Hn. destruct w as [|e l]; [done|]. unfold check_enough_kv_cache_memory.
  destruct (Z.leb_spec avail 0); [lia|]. pose proof (layer_memory_spec c (e :: l) (max_model_len c) (all_full_specs_ok _ H)) as Hm.
  replace (set_max_model_len (max_model_len c) c) with c in Hm by (by destruct c). unfold py_bind. rewrite Hm.
  by destruct (Z.ltb_spec avail (needed c (e :: l) (max_model_len c))); [lia|].
Qed.

Definition full_config (names : list string) (num : Z) : KVCacheConfig :=
  mkKVConfig num (map (fun i => mkTensor (page * num) (tensor_layers [mkGroup names (LayerSpec s)] i)) (seq 0 (length names)))
    [mkGroup names (LayerSpec s)].

Lemma config_full names avail : names <> [] -> 0 <= avail ->
  get_kv_cache_config_from_groups get_dtype_size [mkGroup names (LayerSpec s)] avail c
  = Ret (full_config names (avail / page / Z.of_nat (length names))) c.
Proof.
  intros Hne Hav. pose proof page_pos as Hp. assert (0 < Z.of_nat (length names)) as Hl by (destruct names; simpl; [done|lia]).
  unfold get_kv_cache_config_from_groups, tensors_by_layer. simpl map. unfold py_bind at 1. simpl. unfold py_bind at 1.
  unfold get_uniform_page_size, py_bind at 1. simpl. unfold py_bind at 1, py_assert.
  destruct (Z.ltb_spec 0 (Z.of_nat (length names))); [|lia]. simpl.
  assert (get_num_blocks (Z.of_nat (length names)) avail page c = Ret (avail / page / Z.of_nat (length names)) c) as Hn.
  { unfold get_num_blocks, py_div, may_override_num_blocks, py_bind. destruct (Z.eqb_spec page 0); [lia|]. simpl.
    destruct (Z.eqb_spec (Z.of_nat (length names)) 0); [lia|]. simpl. rewrite no_override. simpl. f_equal. rewrite Z.max_l; [done|].
    apply Z.div_pos; [apply Z.div_pos|]; lia. }
  unfold py_bind. rewrite Hn. unfold full_config. simpl. by rewrite Nat2Z.id.
Qed.

Lemma shrink_full names num n : names <> [] -> 0 < num -> 1 <= max_model_len c ->
  shrink_config get_dtype_size n (full_config names num) c = Ret (full_config names n) c.
Proof.
  intros Hne Hnum Hlen. pose proof page_pos as Hp. destruct a_ok as [Hb _].
  assert (0 < Z.of_nat (length names)) as Hl by (destruct names; simpl; [done|lia]).
  assert (0 < blocks_per_request) as HB by (pose proof (cdiv_spec (max_model_len c) (block_size a) Hb); nia).
  unfold shrink_config, full_config. cbn [num_blocks kv_cache_tensors kv_cache_groups]. unfold py_bind at 1.
  rewrite (py_map_pure _ (fun t => mkTensor (page * n) (shared_by t))).
  2:{ intros t Ht. apply list_elem_of_fmap in Ht as (i & -> & _). unfold shrink_tensor. simpl.
      destruct (Z.eqb_spec num 0); [lia|]. unfold py_bind, py_assert. rewrite Z.mod_mul by lia. simpl.
      by rewrite Z.div_mul by lia. }
  rewrite map_map. simpl. unfold py_bind at 1.
  assert (forall k, kv_cache_groups k = [mkGroup names (LayerSpec s)] -> exists r, report_kv_cache_config get_dtype_size k c = Ret r c) as Hr.
  { intros k Ek. set (L := Z.of_nat (length names)) in *. set (q := cdiv (L * (blocks_per_request * page + 0)) (page * L)).
    assert (0 < q) as Hq by (pose proof (cdiv_spec (L * (blocks_per_request * page + 0)) (page * L) ltac:(nia)); subst q; nia).
    assert (max_memory_usage_bytes get_dtype_size [LayerSpec s] c = Ret (blocks_per_request * page + 0) c) as Hmem.
    { unfold max_memory_usage_bytes, py_bind at 1. rewrite (py_map_pure _ (fun _ => blocks_per_request * page)); [done|].
      intros g ->%list_elem_of_singleton. apply memory_full. }
    assert (exists r, get_max_concurrency_for_kv_cache_config get_dtype_size k c = Ret r c) as [r Er].
    { unfold get_max_concurrency_for_kv_cache_config. rewrite Ek. cbn [map layer_names group_spec head]. fold L.
      unfold py_bind at 1. cbn [py_max foldr py_ret]. unfold py_bind at 1. rewrite Hmem. unfold py_bind at 1. cbn [py_unwrap py_ret].
      unfold py_bind at 1. cbn [group_page_size group_spec page_size_bytes py_ret]. unfold py_bind, py_cdiv.
      destruct (Z.eqb_spec (page * L) 0); [nia|]. cbn [py_ret]. fold q. destruct (Z.eqb_spec q 0); [lia|]. by eexists. }
    unfold report_kv_cache_config. rewrite Ek. cbn [map group_spec length]. unfold py_bind at 1. cbn [py_min foldr py_ret].
    unfold py_bind at 1, py_div. cbn [Z.of_nat Z.eqb Pos.of_succ_nat py_ret]. unfold py_bind at 1. cbn [py_get]. unfold py_bind.
    change (Z.of_nat 1 =? 0) with false. cbn [py_ret]. rewrite Er. by eexists. }
  match goal with |- context [report_kv_cache_config _ ?k c] => destruct (Hr k) as [r Er]; [done|]; rewrite Er end. done.
Qed.
Lemma for_pure {S A} (body : A -> py S unit) l s : (forall x, x ∈ l -> body x s = Ret tt s) -> py_for l body s = Ret tt s.
Proof.
  induction l as [|x l IH]; intros H; simpl; [done|]. unfold py_bind. rewrite (H x ltac:(left)). apply IH.
  intros y Hy. apply H. by right.
Qed.

(** Every worker has memory for [blocks_per_request + extra] blocks in each of its
    layers. *)
Definition enough (extra : Z) (w : Specs) (m : Z) : Prop :=
  w <> [] /\ NoDup (map fst w) /\ all_full w /\ Z.of_nat (length w) * ((blocks_per_request + extra) * page) <= m.

Lemma enough_facts extra w m : 0 <= extra -> 1 <= max_model_len c -> enough extra w m ->
  0 < m /\ needed c w (max_model_len c) <= m /\ blocks_per_request + extra <= m / page / Z.of_nat (length w).
Proof.
  intros He Hlen (Hne & _ & Hall & Hm). pose proof page_pos as Hp. destruct a_ok as [Hb _].
  assert (0 < Z.of_nat (length w)) as Hl by (destruct w; simpl; [done|lia]).
  assert (0 < blocks_per_request) as HB by (pose proof (cdiv_spec (max_model_len c) (block_size a) Hb); nia).
  rewrite needed_full by done. split_and!; [nia|nia|].
  apply Z.div_le_lower_bound; [done|]. apply Z.div_le_lower_bound; [done|]. nia.
Qed.

(** The layers of a worker in the order of the model's group. *)
Definition worker_names (merged w : Specs) : list string :=
  List.filter (fun n => bool_decide (is_Some (dict_get n w))) (map fst merged).

Lemma merged_full workers :
  workers <> [] -> (forall w, w ∈ workers -> w <> [] /\ NoDup (map fst w) /\ all_full w) ->
  exists merged, merge_workers [] workers c = Ret merged c /\
    get_kv_cache_groups get_dtype_size merged c = Ret [mkGroup (map fst merged) (LayerSpec s)] c /\
    forall w, w ∈ workers -> length (worker_names merged w) = length w /\ worker_names merged w <> [].
Proof.
  intros Hne Hw.
  destruct (merge_workers_full workers []) as (merged & E & Hfull); [intros w Hx; by apply Hw|by intros e ?%not_elem_of_nil|].
  pose proof E as Em. apply merge_workers_inv in Em as (_ & Hnd & Hmem); [|constructor].
  assert (merged <> []) as Hmne.
  { destruct workers as [|w ws]; [done|]. destruct (Hw w ltac:(left)) as (Hwne & _). destruct w as [|e w]; [done|].
    intros ->. apply (not_elem_of_nil e). apply Hmem. right. exists (e :: w). split; left. }
  assert (Forall (fun e => spec_ok e.2) merged) as Hok.
  { apply Forall_forall. intros e Hx. by rewrite (Hfull e Hx). }
  exists merged. split_and!; [done|by apply groups_full|]. intros w Hx.
  set (groups := [mkGroup (map fst merged) (LayerSpec s)]). destruct (Hw w Hx) as (Hwne & Hwnd & _).
  assert (groups_ok merged groups) as HG by (apply (kv_cache_groups_ok merged c groups c Hnd Hok); by apply groups_full).
  destruct (worker_groups_spec merged groups w Hnd HG Hwnd) as (_ & Hp & _); [|done|].
  { intros e Hex. apply Hmem. right. by exists w. }
  simpl in Hp. rewrite app_nil_r in Hp. fold (worker_names merged w) in Hp. apply Permutation_length in Hp. rewrite length_map in Hp.
  split; [done|]. intros E0. rewrite E0 in Hp. by destruct w.
Qed.

(** Shrunk to [n] blocks. *)
Definition resized (n : Z) (k : KVCacheConfig) : KVCacheConfig :=
  mkKVConfig n (map (fun t => mkTensor (page * n) (shared_by t)) (kv_cache_tensors k)) (kv_cache_groups k).

Lemma configs_full workers avail extra :
  workers <> [] -> 0 <= extra -> 1 <= max_model_len c -> Forall2 (enough extra) workers avail ->
  exists configs, get_kv_cache_configs get_dtype_size workers avail c = Ret configs c /\
    length configs = length workers /\
    forall k, k ∈ configs -> blocks_per_request + extra <= num_blocks k /\ map group_spec (kv_cache_groups k) = [LayerSpec s].
Proof.
  intros Hne He Hlen HF.
  assert (Hin : forall w m, (w, m) ∈ zip workers avail -> enough extra w m).
  { intros w m H. apply list_elem_of_lookup in H as [i Hi]. apply lookup_zip_Some in Hi as [Ew Em].
    by apply (Forall2_lookup_lr _ _ _ _ _ _ HF Ew Em). }
  destruct (merged_full workers Hne) as (merged & E & Eg & Hnames).
  { intros w H. apply list_elem_of_lookup in H as [i Hi]. by destruct (Forall2_lookup_l _ _ _ _ _ HF Hi) as (m & _ & ? & ? & ? & _). }
  unfold get_kv_cache_configs, py_bind at 1. rewrite for_pure.
  2:{ intros [w m] Hx. destruct (enough_facts extra w m He Hlen (Hin w m Hx)) as (H1 & H2 & _). simpl. apply check_full; try done.
      by destruct (Hin w m Hx) as (_ & _ & ? & _). }
  unfold py_bind at 1. rewrite E. unfold py_bind at 1. rewrite Eg.
  set (cfg (w : Specs * Z) := full_config (worker_names merged w.1) (w.2 / page / Z.of_nat (length (worker_names merged w.1)))).
  assert (Hcfg : forall w m, (w, m) ∈ zip workers avail -> blocks_per_request + extra <= num_blocks (cfg (w, m))).
  { intros w m Hx. simpl. destruct (Hnames w (elem_of_zip_l _ _ _ _ Hx)) as [-> _].
    by destruct (enough_facts extra w m He Hlen (Hin w m Hx)) as (_ & _ & ?). }
  unfold py_bind at 1. rewrite (py_map_pure _ cfg).
  2:{ intros [w m] Hx. destruct (Hnames w (elem_of_zip_l _ _ _ _ Hx)) as [Hl Hnn]. unfold worker_config. simpl.
      fold (worker_names merged w). rewrite Hl, Z.add_0_r, Z.eqb_refl. apply config_full; [done|].
      destruct (enough_facts extra w m He Hlen (Hin w m Hx)) as (? & _). lia. }
  assert (exists x, py_min (map num_blocks (map cfg (zip workers avail))) c = Ret x c) as [x Ex].
  { destruct workers as [|w ws]; [done|]. inversion HF; subst. simpl. by eexists. }
  unfold py_bind. rewrite Ex. destruct (py_min_spec _ _ _ _ Ex) as (_ & Hxin & _).
  rewrite (py_map_pure _ (resized x)).
  2:{ intros k Hk. apply list_elem_of_fmap in Hk as ([w m] & -> & Hx). destruct (Hnames w (elem_of_zip_l _ _ _ _ Hx)) as [_ Hnn].
      pose proof (Hcfg w m Hx) as Hb. destruct a_ok as [Hbs _]. pose proof (cdiv_spec (max_model_len c) (block_size a) Hbs).
      unfold cfg. rewrite shrink_full; try done; [unfold resized, full_config; simpl; by rewrite map_map|]. simpl in *. nia. }
  eexists. split; [done|]. split; [rewrite !length_map, length_zip_with; pose proof (Forall2_length _ _ _ HF); lia|].
  intros k Hk. apply list_elem_of_fmap in Hk as (k0 & -> & Hk0). apply list_elem_of_fmap in Hk0 as ([w m] & -> & Hx). simpl. split; [|done].
  rewrite map_map in Hxin. apply list_elem_of_fmap in Hxin as ([w' m'] & -> & Hx'). by apply Hcfg.
Qed.
End full.
End config.
