(* ===== verification/EngineMemory.v ===== *)
(** From the memory of the workers to a scheduler that can serve: what the KV-cache
    configuration promises to the layers and to the scheduler. *)
From stdpp Require Import gmap strings list sorting.
From Stdlib Require Import ZArith Lia.
From S2P Require Import Prelude Request RequestQueue EncoderCache BlockPool SingleType Coordinator KVCacheManager KVCacheInv.
From S2P Require Import SchedulerData Scheduler SchedulerLive Serving ServingDemo SchedulerFaults.
From S2P Require Import KVConfig KVConfigProofs.
Open Scope Z_scope.
#[local] Existing Instance no_collaborators.

(** C32. The search for a model length is exact. When the model does not fit,
    [estimate_max_model_len] terminates without an exception and returns the largest
    length up to the configured one whose KV memory over all layers fits, whatever mix of
    attention types the layers have, or 0 if not even one token fits. *)
Theorem estimated_length_is_largest get_dtype_size c specs avail :
  (forall d, 0 < get_dtype_size d) -> specs_ok get_dtype_size c specs -> 1 <= max_model_len c ->
  exists n m', estimate_max_model_len get_dtype_size specs avail c = Ret n (set_max_model_len m' c) /\
    if needed get_dtype_size c specs 1 <=? avail
    then 1 <= n <= max_model_len c /\ needed get_dtype_size c specs n <= avail /\
         forall m, n < m <= max_model_len c -> avail < needed get_dtype_size c specs m
    else n = 0.
Proof. intros Hd Hs Hc. apply (estimate_spec get_dtype_size Hd c specs avail Hs Hc). Qed.

(** The grouping of layers. When [get_kv_cache_groups] returns, every layer of the
    model is in exactly one group, no group is empty, a block takes the same number of
    bytes per layer in every group, and the layers of a group have its page size and
    block size. *)
Theorem layers_are_partitioned get_dtype_size specs c groups c' :
  (forall d, 0 < get_dtype_size d) -> NoDup (map fst specs) -> Forall (fun e => spec_ok get_dtype_size e.2) specs ->
  get_kv_cache_groups get_dtype_size specs c = Ret groups c' ->
  concat (map layer_names groups) ≡ₚ map fst specs /\
  (forall g, g ∈ groups -> layer_names g <> []) /\
  (forall g1 g2, g1 ∈ groups -> g2 ∈ groups ->
     group_page get_dtype_size (group_spec g1) = group_page get_dtype_size (group_spec g2)) /\
  exists unified, map fst unified = map fst specs /\ forall g m n s, g ∈ groups -> group_spec g = LayerSpec m -> is_mla m = false ->
    n ∈ layer_names g -> dict_get n unified = Some s ->
    page_of get_dtype_size s = page_of get_dtype_size m /\ KVConfig.spec_block_size s = KVConfig.spec_block_size m.
Proof.
  intros Hd Hnd Hok H. destruct (kv_cache_groups_ok get_dtype_size Hd specs c groups c' Hnd Hok H) as [_ [G1 G2 G3 (u & Hu & G4) _]].
  split_and!; try done. exists u. split; [done|]. intros g m n s Hg Em Hm Hn Hs. by apply (G4 g m Hg Em Hm n s).
Qed.

(** C13. The configurations of the workers, with [num_gpu_blocks_override] unset. When
    [get_kv_cache_configs] returns, all workers have the same number of blocks and the
    same group specs; each layer of a worker is in exactly one of its tensors, every
    tensor holds that many blocks of the page size of each layer that shares it, and the
    tensors of a worker take at most its available memory. *)
Theorem worker_memory_respected get_dtype_size c workers avail configs c' :
  (forall d, 0 < get_dtype_size d) -> (forall w, w ∈ workers -> NoDup (map fst w) /\ specs_ok get_dtype_size c w) ->
  (forall m, m ∈ avail -> 0 <= m) -> num_gpu_blocks_override c = None ->
  get_kv_cache_configs get_dtype_size workers avail c = Ret configs c' ->
  (forall k1 k2, k1 ∈ configs -> k2 ∈ configs -> KVConfig.num_blocks k1 = KVConfig.num_blocks k2 /\
     map group_spec (KVConfig.kv_cache_groups k1) = map group_spec (KVConfig.kv_cache_groups k2)) /\
  forall i w m k, workers !! i = Some w -> avail !! i = Some m -> configs !! i = Some k ->
    concat (map shared_by (kv_cache_tensors k)) ≡ₚ map fst w /\
    sum_of (map tensor_size (kv_cache_tensors k)) <= m /\
    forall t n g, t ∈ kv_cache_tensors k -> n ∈ shared_by t -> g ∈ KVConfig.kv_cache_groups k -> n ∈ layer_names g ->
      exists p, 0 < p /\ layer_page get_dtype_size g n = Some p /\ tensor_size t = p * KVConfig.num_blocks k.
Proof.
  intros Hd Hw Hav Ho H. destruct (kv_cache_configs_ok get_dtype_size Hd c workers avail configs c' Hw Hav Ho H) as [_ [_ H2 H3]].
  split; [done|]. intros i w m k Hi Hm Hk. destruct (H3 i w m k Hi Hm Hk) as [Hp [_ F2 F3 F4]].
  split_and!; [by rewrite F2, Hp|done|]. intros t n g Ht Hn Hg Hng. destruct (F3 t Ht) as (p & Hp0 & Hs & Hl). eauto.
Qed.

Lemma scheduler_config_same k ks c :
  (forall k', k' ∈ k :: ks -> KVConfig.num_blocks k' = KVConfig.num_blocks k) ->
  (forall g, g ∈ KVConfig.kv_cache_groups k -> exists m, group_spec g = LayerSpec m) ->
  generate_scheduler_kv_cache_config (k :: ks) c = Ret k c.
Proof.
  intros Hn Hl. unfold generate_scheduler_kv_cache_config, py_bind at 1. cbn [head py_unwrap py_ret].
  assert (forallb (fun c0 => KVConfig.num_blocks c0 =? KVConfig.num_blocks k) (k :: ks) = true) as ->.
  { apply forallb_forall. intros k' Hk'%list_elem_of_In. apply Z.eqb_eq. by apply Hn. }
  unfold py_bind at 1. cbn [py_assert py_ret]. unfold py_bind. rewrite (py_map_pure _ id).
  - rewrite map_id. by destruct k.
  - intros g Hg. by destruct (Hl g Hg) as [m ->].
Qed.

(** C12. Enough memory for the scheduler. For a model whose layers are all full
    attention of one and the same specification, spread over one or more workers,
    without context parallelism and without [num_gpu_blocks_override], each worker with
    memory for one block per layer more than one request of the maximal length needs,
    the configuration is computed without an exception, and the scheduler gets one group
    with so many blocks that such a request fits beside the null block, which is what
    progress and termination of the scheduler rest on. *)
Theorem full_attention_memory_suffices get_dtype_size a c workers avail :
  (forall d, 0 < get_dtype_size d) -> attention_ok a ->
  decode_context_parallel_size c * prefill_context_parallel_size c <= 1 -> num_gpu_blocks_override c = None ->
  workers <> [] -> 1 <= max_model_len c -> Forall2 (enough get_dtype_size a c 1) workers avail ->
  exists configs k, get_kv_cache_configs get_dtype_size workers avail c = Ret configs c /\ length configs = length workers /\
    generate_scheduler_kv_cache_config configs c = Ret k c /\
    map group_spec (KVConfig.kv_cache_groups k) = [LayerSpec (KVConfig.FullAttentionSpec a None None)] /\
    cdiv (max_model_len c) (block_size a) <= KVConfig.num_blocks k - 1.
Proof.
  intros Hd Ha Hr Ho Hne Hlen HF.
  destruct (configs_full get_dtype_size Hd a c Ha Hr Ho workers avail 1 Hne ltac:(done) Hlen HF) as (configs & E & El & Hk).
  assert (configs_ok get_dtype_size workers avail configs) as HC.
  { apply (kv_cache_configs_ok get_dtype_size Hd c workers avail configs c); [| |done|done].
    - intros w Hw. apply list_elem_of_lookup in Hw as [i Hi]. destruct (Forall2_lookup_l _ _ _ _ _ HF Hi) as (m & _ & Hen & Hnd & Hall & _).
      split; [done|]. by apply (all_full_specs_ok get_dtype_size a).
    - intros m Hm. apply list_elem_of_lookup in Hm as [i Hi]. destruct (Forall2_lookup_r _ _ _ _ _ HF Hi) as (w & _ & Hen).
      destruct (enough_facts get_dtype_size Hd a c Ha Hr 1 w m ltac:(done) Hlen Hen). lia. }
  destruct configs as [|k ks]; [by destruct workers|]. destruct (Hk k ltac:(left)) as [Hb Hg]. exists (k :: ks), k.
  split_and!; try done; [|lia]. apply scheduler_config_same.
  - intros k' Hk'. apply (cs_blocks _ _ _ _ HC); [done|left].
  - intros g Hin. assert (group_spec g ∈ map group_spec (KVConfig.kv_cache_groups k)) as Hin' by by apply list_elem_of_fmap_2.
    rewrite Hg in Hin'. apply list_elem_of_singleton in Hin'. by eexists.
Qed.

(** ** Memory that passes the check and does not suffice *)

Definition demo_attention : AttentionSpec := mkAttention 2 1 1 0.
Definition half (_ : Z) : Z := 2.
Definition demo_layer : KVConfig.KVCacheSpec := KVConfig.FullAttentionSpec demo_attention None None.
Definition demo_vllm : VllmConfig := mkVllmConfig 6 8 0 1 1 None false.
Definition demo_worker (n : string) : list (string * KVConfig.KVCacheSpec) := [(n, demo_layer)].

(** A request of five tokens, model length six, and the three blocks of 24 bytes. *)
Definition short_blocks : Z :=
  match get_kv_cache_configs half [demo_worker "l"] [24] demo_vllm with
  | Ret [k] _ => KVConfig.num_blocks k
  | _ => 0
  end.
Definition short_request : Request := fault_request "a" 1 0 [1; 2; 3; 4; 5] 1 0 None.
Notation short_config := (fault_config FCFS 4 8 6 0 None).
Notation short_start := (fault_start FCFS 4 8 6 0 None FCFSRequestQueue short_blocks).
Notation short_rounds := (rounds short_config None (demo_model 9)).
Definition short_stuck : Scheduler FCFSRequestQueue KVCacheManager unit :=
  state_of short_start ((do! scheduler_add_request short_config short_request 0; short_rounds 1 0) short_start).

Lemma short_fixpoint ts : round short_config None (demo_model 9) ts short_stuck = Ret [] short_stuck.
Proof. by vm_compute. Qed.

(** The memory check is one block short. [check_enough_kv_cache_memory] accepts memory
    for exactly the blocks of one request of the maximal length, but one block of the
    pool is the null block: the engine starts, and a request that fits the model and is
    alone in the engine waits for ever, with nothing scheduled in any round. *)
Theorem checked_memory_starves :
  check_enough_kv_cache_memory half (demo_worker "l") 24 demo_vllm = Ret tt demo_vllm /\
  short_blocks = cdiv 6 2 /\ num_tokens short_request < 6 /\
  (do! scheduler_add_request short_config short_request 0; short_rounds 1 0) short_start = Ret tt short_stuck /\
  forall n ts, short_rounds n ts short_stuck = Ret tt short_stuck /\
    running short_stuck = [] /\ map request_id (rq_iter (waiting short_stuck)) = ["a"%string].
Proof.
  split_and!; [by vm_compute..|]. intros n ts. split; [|by vm_compute]. revert ts.
  induction n as [|n IH]; intros ts; [done|]. simpl. unfold py_bind at 1. by rewrite short_fixpoint.
Qed.

(** ** Witnesses *)

Lemma half_pos d : 0 < half d.
Proof. done. Qed.
Definition demo_hybrid : list (string * KVConfig.KVCacheSpec) :=
  [("f0", demo_layer); ("w0", KVConfig.SlidingWindowSpec demo_attention 4); ("w1", KVConfig.SlidingWindowSpec demo_attention 4);
   ("w2", KVConfig.SlidingWindowSpec demo_attention 4)]%string.
Lemma demo_hybrid_ok e : e ∈ demo_hybrid -> spec_ok half e.2 /\ context_ok demo_vllm e.2.
Proof. intros He. unfold demo_hybrid in He. repeat (apply elem_of_cons in He as [->|He]; [done|]). by apply not_elem_of_nil in He. Qed.

(** One full-attention and three sliding-window layers with 64 bytes: two tokens. *)
Lemma estimated_length_is_largest_witness :
  exists m', estimate_max_model_len half demo_hybrid 64 demo_vllm = Ret 2 (set_max_model_len m' demo_vllm) /\
    needed half demo_vllm demo_hybrid 2 <= 64 < needed half demo_vllm demo_hybrid 3.
Proof.
  destruct (estimated_length_is_largest half demo_vllm demo_hybrid 64 half_pos demo_hybrid_ok ltac:(done)) as (n & m' & E & H).
  assert (n = 2) as -> by (vm_compute in E; by injection E). exists m'. split; [done|].
  change (needed half demo_vllm demo_hybrid 1 <=? 64) with true in H. cbv iota in H. destruct H as (_ & H1 & H2).
  split; [done|]. apply H2. done.
Defined.

(** The same layers make four groups of one layer. *)
Lemma layers_are_partitioned_witness :
  exists groups, get_kv_cache_groups half demo_hybrid demo_vllm = Ret groups demo_vllm /\
    map layer_names groups = [["f0"]; ["w0"]; ["w1"]; ["w2"]]%string /\
    concat (map layer_names groups) ≡ₚ map fst demo_hybrid.
Proof.
  destruct (get_kv_cache_groups half demo_hybrid demo_vllm) as [groups c'|] eqn:E; [|by vm_compute in E].
  exists groups. assert (c' = demo_vllm) as -> by (vm_compute in E; by injection E). split; [done|].
  split; [vm_compute in E; by injection E as <-|].
  eapply (layers_are_partitioned half demo_hybrid demo_vllm groups); [apply half_pos| | |exact E].
  - apply (bool_decide_unpack _). by vm_compute.
  - apply Forall_forall. intros e He. by apply demo_hybrid_ok.
Defined.

(** Two pipeline stages with different memory get the blocks of the smaller one. *)
Lemma worker_memory_respected_witness :
  exists k1 k2, get_kv_cache_configs half [demo_worker "l0"; demo_worker "l1"] [100; 50] demo_vllm = Ret [k1; k2] demo_vllm /\
    KVConfig.num_blocks k1 = 6 /\ sum_of (map tensor_size (kv_cache_tensors k1)) <= 100.
Proof.
  destruct (get_kv_cache_configs half [demo_worker "l0"; demo_worker "l1"] [100; 50] demo_vllm) as [ks c'|] eqn:E; [|by vm_compute in E].
  destruct (worker_memory_respected half demo_vllm [demo_worker "l0"; demo_worker "l1"] [100; 50] ks c') as [_ H]; [apply half_pos| | |done|exact E|].
  - intros w Hw. apply elem_of_cons in Hw as [->|Hw]; [|apply list_elem_of_singleton in Hw as ->];
      (split; [apply NoDup_singleton|]); intros e He; apply list_elem_of_singleton in He as ->; done.
  - intros m Hm. apply elem_of_cons in Hm as [->|Hm]; [done|]. by apply list_elem_of_singleton in Hm as ->.
  - vm_compute in E. injection E as <- <-. eexists _, _. split; [done|]. split; [done|]. by apply (H 0%nat (demo_worker "l0") 100).
Defined.

Lemma demo_worker_enough n m : 24 + 8 <= m -> enough half demo_attention demo_vllm 1 (demo_worker n) m.
Proof.
  intros Hm. split_and!; [done|apply NoDup_singleton| |exact Hm]. intros e He. by apply list_elem_of_singleton in He as ->.
Qed.

(** The two stages have 12 and 6 blocks of their own, and each needs four. *)
Lemma full_attention_memory_suffices_witness :
  exists configs k, get_kv_cache_configs half [demo_worker "l0"; demo_worker "l1"] [100; 50] demo_vllm = Ret configs demo_vllm /\
    generate_scheduler_kv_cache_config configs demo_vllm = Ret k demo_vllm /\ 3 <= KVConfig.num_blocks k - 1.
Proof.
  destruct (full_attention_memory_suffices half demo_attention demo_vllm [demo_worker "l0"; demo_worker "l1"] [100; 50])
    as (configs & k & E1 & _ & E2 & _ & Hk); try done.
  - constructor; [by apply demo_worker_enough|]. constructor; [by apply demo_worker_enough|constructor].
  - by exists configs, k.
Defined.
