(* ===== verification/BlockTable.v ===== *)
(** The block tables of the model runner ([v1/worker/block_table.py]): the KV blocks of
    the requests of the batch, one row per request, and the slot of every token of a step.

    Arrays have their numpy types: a block number is a 32-bit integer and so is its product
    with the block size; slots are 64-bit. A slice is clamped to the array; assigning a list
    of another length than the slice raises, except a list of one element, which is
    repeated. Copies to the device are not represented. *)
From stdpp Require Import list numbers.
From Stdlib Require Import ZArith Lia.
From S2P Require Import Prelude.
Open Scope Z_scope.

(** ** numpy *)

(** The wrap-around of a 32-bit integer. *)
Definition int32 (z : Z) : Z := (z + 2 ^ 31) mod 2 ^ 32 - 2 ^ 31.
Definition fits_int32 (z : Z) : bool := (- 2 ^ 31 <=? z) && (z <? 2 ^ 31).

(** A bound of a slice of an array of [n] elements. *)
Definition slice_bound (n i : Z) : Z := if i <? 0 then Z.max 0 (i + n) else Z.min i n.
(** [l[i:j] = v] *)
Definition slice_set {A} (i j : Z) (v l : list A) : option (list A) :=
  let n := Z.of_nat (length l) in
  let a := Z.to_nat (slice_bound n i) in
  let w := (Z.to_nat (slice_bound n j) - a)%nat in
  match v with
  | [x] => Some (take a l ++ replicate w x ++ drop (a + w) l)
  | _ => if (length v =? w)%nat then Some (take a l ++ v ++ drop (a + w) l) else None
  end.
(** [l[i:j] = x] for a scalar *)
Definition slice_fill {A} (i j : Z) (x : A) (l : list A) : list A := default l (slice_set i j [x] l).
(** [l[i]] with a signed index *)
Definition np_get {A} (l : list A) (i : Z) : option A :=
  let n := Z.of_nat (length l) in
  if i <? - n then None else l !! Z.to_nat (if i <? 0 then i + n else i).

(** ** One group *)

(** [block_size] is the block size of the attention kernel, which divides that of the
    KV-cache manager: a block of the manager is [blocks_per_kv_block] kernel blocks. *)
Record BlockTable := mkBlockTable {
  block_size : Z;
  blocks_per_kv_block : Z;
  use_hybrid_blocks : bool;
  max_num_blocks_per_req : Z;
  block_table : list (list Z);
  num_blocks_per_row : list Z;
  slot_mapping : list Z;
  pcp_world_size : Z;
  pcp_rank : Z;
  dcp_world_size : Z;
  dcp_rank : Z;
  cp_kv_cache_interleave_size : Z
}.
Definition set_block_table (x : list (list Z)) (t : BlockTable) : BlockTable :=
  mkBlockTable (block_size t) (blocks_per_kv_block t) (use_hybrid_blocks t) (max_num_blocks_per_req t) x
    (num_blocks_per_row t) (slot_mapping t) (pcp_world_size t) (pcp_rank t) (dcp_world_size t) (dcp_rank t)
    (cp_kv_cache_interleave_size t).
Definition set_num_blocks_per_row (x : list Z) (t : BlockTable) : BlockTable :=
  mkBlockTable (block_size t) (blocks_per_kv_block t) (use_hybrid_blocks t) (max_num_blocks_per_req t) (block_table t)
    x (slot_mapping t) (pcp_world_size t) (pcp_rank t) (dcp_world_size t) (dcp_rank t)
    (cp_kv_cache_interleave_size t).
Definition set_slot_mapping (x : list Z) (t : BlockTable) : BlockTable :=
  mkBlockTable (block_size t) (blocks_per_kv_block t) (use_hybrid_blocks t) (max_num_blocks_per_req t) (block_table t)
    (num_blocks_per_row t) x (pcp_world_size t) (pcp_rank t) (dcp_world_size t) (dcp_rank t)
    (cp_kv_cache_interleave_size t).

(** The parallel groups of the process: world size and rank. *)
Record ParallelGroups := mkParallelGroups { pcp_group : Z * Z; dcp_group : Z * Z }.

Definition zeros (n : Z) : list Z := replicate (Z.to_nat n) 0.
Definition block_table_init (kv_block_size max_num_reqs max_blocks max_num_batched_tokens kernel_block_size
    interleave : Z) (g : ParallelGroups) : exn + BlockTable :=
  let make bs per_kv hybrid :=
    mkBlockTable bs per_kv hybrid (max_blocks * per_kv) (replicate (Z.to_nat max_num_reqs) (zeros (max_blocks * per_kv)))
      (zeros max_num_reqs) (zeros max_num_batched_tokens) (pcp_group g).1 (pcp_group g).2 (dcp_group g).1 (dcp_group g).2
      interleave in
  if kernel_block_size =? kv_block_size then inr (make kv_block_size 1 false) else
  if kernel_block_size =? 0 then inl ZeroDivisionError else
  if negb (kv_block_size mod kernel_block_size =? 0) then inl ValueError else
  inr (make kernel_block_size (kv_block_size / kernel_block_size) true).

Definition map_to_kernel_blocks (kv_manager_block_ids : list Z) (per_kv : Z) : list Z :=
  if per_kv =? 1 then kv_manager_block_ids else
  concat (map (fun b => map (fun k => b * per_kv + k) (seqZ 0 per_kv)) kv_manager_block_ids).

Definition append_row (block_ids : list Z) (row_idx : nat) : py BlockTable unit :=
  match block_ids with
  | [] => py_ret tt
  | _ =>
      let! t := py_get in
      let ids := if use_hybrid_blocks t then map_to_kernel_blocks block_ids (blocks_per_kv_block t) else block_ids in
      let num_blocks := Z.of_nat (length ids) in
      let! start := py_unwrap IndexError (num_blocks_per_row t !! row_idx) in
      do! py_modify (set_num_blocks_per_row (<[row_idx := start + num_blocks]> (num_blocks_per_row t)));
      let! row := py_unwrap IndexError (block_table t !! row_idx) in
      (* an array is cast, a list of Python integers is checked *)
      if negb (use_hybrid_blocks t) && negb (forallb fits_int32 ids) then py_raise OverflowError else
      let! row' := py_unwrap ValueError (slice_set start (start + num_blocks) (map int32 ids) row) in
      py_modify (set_block_table (<[row_idx := row']> (block_table t)))
  end.

Definition add_row (block_ids : list Z) (row_idx : nat) : py BlockTable unit :=
  let! t := py_get in
  let! _ := py_unwrap IndexError (num_blocks_per_row t !! row_idx) in
  do! py_modify (set_num_blocks_per_row (<[row_idx := 0]> (num_blocks_per_row t)));
  append_row block_ids row_idx.

Definition move_row (src tgt : nat) : py BlockTable unit :=
  let! t := py_get in
  let! num_blocks := py_unwrap IndexError (num_blocks_per_row t !! src) in
  let! from := py_unwrap IndexError (block_table t !! src) in
  let! to := py_unwrap IndexError (block_table t !! tgt) in
  let! row := py_unwrap ValueError (slice_set 0 num_blocks (take (Z.to_nat num_blocks) from) to) in
  do! py_modify (set_block_table (<[tgt := row]> (block_table t)));
  py_modify (set_num_blocks_per_row (<[tgt := num_blocks]> (num_blocks_per_row t))).

(** [l[[i, j]] = l[[j, i]]] *)
Definition swap_at {A} (i j : nat) (l : list A) : option (list A) :=
  match l !! i, l !! j with
  | Some x, Some y => Some (<[j := x]> (<[i := y]> l))
  | _, _ => None
  end.
Definition swap_row (src tgt : nat) : py BlockTable unit :=
  let! t := py_get in
  let! nums := py_unwrap IndexError (swap_at src tgt (num_blocks_per_row t)) in
  do! py_modify (set_num_blocks_per_row nums);
  let! rows := py_unwrap IndexError (swap_at src tgt (block_table t)) in
  py_modify (set_block_table rows).

(** *** Slots *)

Definition total_cp_world_size (t : BlockTable) : Z := pcp_world_size t * dcp_world_size t.
Definition total_cp_rank (t : BlockTable) : Z := pcp_rank t * dcp_world_size t + dcp_rank t.
Definition virtual_block_size (t : BlockTable) : Z := block_size t * total_cp_world_size t.

(** Index into the flattened table. *)
Definition block_table_index (t : BlockTable) (req_index position : Z) : Z :=
  req_index * max_num_blocks_per_req t +
  position / (if 1 <? total_cp_world_size t then virtual_block_size t else block_size t).
(** Whether a position is stored by this rank, and where in its block. *)
Definition is_local (t : BlockTable) (position : Z) : bool :=
  position mod virtual_block_size t / cp_kv_cache_interleave_size t mod total_cp_world_size t =? total_cp_rank t.
Definition local_offset (t : BlockTable) (position : Z) : Z :=
  let o := position mod virtual_block_size t in
  let i := cp_kv_cache_interleave_size t in
  o / (total_cp_world_size t * i) * i + o mod i.
Definition slot_of (t : BlockTable) (block_number position : Z) : Z :=
  if 1 <? total_cp_world_size t
  then if is_local t position then int32 (block_number * block_size t) + local_offset t position else -1
  else int32 (block_number * block_size t) + position mod block_size t.

(** The indices and the positions are arrays of one length. *)
Definition compute_slot_mapping (req_indices positions : list Z) : py BlockTable unit :=
  let! t := py_get in
  let! block_numbers := py_map (fun i => py_unwrap IndexError (np_get (concat (block_table t)) i))
                          (zip_with (block_table_index t) req_indices positions) in
  let slots := zip_with (slot_of t) block_numbers positions in
  if (length (slot_mapping t) <? length req_indices)%nat then py_raise ValueError else
  py_modify (set_slot_mapping (slots ++ drop (length req_indices) (slot_mapping t))).

Definition clear : py BlockTable unit :=
  py_modify (fun t => set_block_table (map (map (fun _ => 0)) (block_table t)) t).

(** ** All groups *)

Notation MultiGroupBlockTable := (list BlockTable) (only parsing).

Definition multi_block_table_init (max_num_reqs max_model_len max_num_batched_tokens : Z) (block_sizes kernel_block_sizes : list Z)
    (num_speculative_tokens interleave : Z) (g : ParallelGroups) : exn + MultiGroupBlockTable :=
  if negb (length kernel_block_sizes =? length block_sizes)%nat then inl ValueError else
  let total := (dcp_group g).1 * (pcp_group g).1 in
  foldr (fun '(bs, kbs) acc =>
      if bs * total =? 0 then inl ZeroDivisionError else
      match block_table_init bs max_num_reqs (Z.max (cdiv max_model_len (bs * total)) (1 + num_speculative_tokens))
              max_num_batched_tokens kbs interleave g, acc with
      | inr t, inr ts => inr (t :: ts)
      | inl e, _ => inl e
      | _, inl e => inl e
      end) (inr []) (zip block_sizes kernel_block_sizes).

(** [for i, table in enumerate(tables): f(i, table)] *)
Fixpoint each_table_from (f : nat -> py BlockTable unit) (i : nat) (ts : MultiGroupBlockTable) : outcome MultiGroupBlockTable unit :=
  match ts with
  | [] => Ret tt []
  | t :: ts' =>
      match f i t with
      | Raise e t' => Raise e (t' :: ts')
      | Ret _ t' => match each_table_from f (S i) ts' with
                    | Ret _ ts'' => Ret tt (t' :: ts'')
                    | Raise e ts'' => Raise e (t' :: ts'')
                    end
      end
  end.
Definition each_table (f : nat -> py BlockTable unit) : py MultiGroupBlockTable unit := each_table_from f 0.

Definition with_group (block_ids : list (list Z)) (f : list Z -> py BlockTable unit) (i : nat) : py BlockTable unit :=
  let! ids := py_unwrap IndexError (block_ids !! i) in f ids.
Definition mt_append_row (block_ids : list (list Z)) (row_idx : nat) : py MultiGroupBlockTable unit :=
  each_table (with_group block_ids (fun ids => append_row ids row_idx)).
Definition mt_add_row (block_ids : list (list Z)) (row_idx : nat) : py MultiGroupBlockTable unit :=
  each_table (with_group block_ids (fun ids => add_row ids row_idx)).
Definition mt_move_row (src tgt : nat) : py MultiGroupBlockTable unit := each_table (fun _ => move_row src tgt).
Definition mt_swap_row (src tgt : nat) : py MultiGroupBlockTable unit := each_table (fun _ => swap_row src tgt).
Definition mt_compute_slot_mapping (req_indices positions : list Z) : py MultiGroupBlockTable unit :=
  each_table (fun _ => compute_slot_mapping req_indices positions).
Definition mt_clear : py MultiGroupBlockTable unit := each_table (fun _ => clear).

(** ** Properties of one table *)

Lemma slice_set_ok {A} i j (v l : list A) :
  0 <= i -> i + Z.of_nat (length v) = j -> j <= Z.of_nat (length l) ->
  slice_set i j v l = Some (take (Z.to_nat i) l ++ v ++ drop (Z.to_nat j) l).
Proof.
  intros Hi Hj Hl. unfold slice_set, slice_bound.
  rewrite (proj2 (Z.ltb_ge i 0)), (proj2 (Z.ltb_ge j 0)), !Z.min_l by lia.
  assert (Z.to_nat j - Z.to_nat i = length v)%nat as Hw by lia. rewrite Hw.
  replace (Z.to_nat i + length v)%nat with (Z.to_nat j) by lia.
  destruct v as [|x [|y v]]; [done|done|]. by rewrite Nat.eqb_refl.
Qed.
Lemma slice_set_length {A} i j (v l l' : list A) : slice_set i j v l = Some l' -> length l' = length l.
Proof.
  unfold slice_set. set (n := Z.of_nat (length l)). set (a := Z.to_nat (slice_bound n i)). set (b := Z.to_nat (slice_bound n j)).
  assert (slice_bound n i <= n /\ slice_bound n j <= n) as [Ha Hb].
  { unfold slice_bound. split; case_match; lia. }
  intros H. assert (exists w, (length w = b - a)%nat /\ l' = take a l ++ w ++ drop (a + (b - a)) l) as (w & Hw & ->).
  { destruct v as [|x [|y v]].
    - destruct (_ =? _)%nat eqn:E; [|done]. injection H as <-. apply Nat.eqb_eq in E. by exists [].
    - injection H as <-. eexists. split; [|done]. apply length_replicate.
    - destruct (_ =? _)%nat eqn:E; [|done]. injection H as <-. apply Nat.eqb_eq in E. by exists (x :: y :: v). }
  rewrite !length_app, length_take, length_drop, Hw. lia.
Qed.
Lemma slice_fill_length {A} i j (x : A) l : length (slice_fill i j x l) = length l.
Proof. unfold slice_fill. destruct (slice_set i j [x] l) eqn:E; [by apply slice_set_length in E|done]. Qed.

Lemma int32_id z : fits_int32 z = true -> int32 z = z.
Proof. unfold fits_int32, int32. intros [H1 H2]%andb_prop. apply Z.leb_le in H1. apply Z.ltb_lt in H2. rewrite Z.mod_small by lia. lia. Qed.
Lemma map_int32_id l : forallb fits_int32 l = true -> map int32 l = l.
Proof. induction l as [|x l IH]; [done|]. simpl. intros [Hx Hl]%andb_prop. by rewrite int32_id, IH. Qed.

(** The kernel blocks of a row in use. *)
Definition row_blocks (t : BlockTable) (r : nat) : option (list Z) :=
  n ← num_blocks_per_row t !! r; row ← block_table t !! r; Some (take (Z.to_nat n) row).
(** The kernel blocks of blocks of the manager. *)
Definition kernel_ids (t : BlockTable) (block_ids : list Z) : list Z :=
  if use_hybrid_blocks t then map_to_kernel_blocks block_ids (blocks_per_kv_block t) else block_ids.

Record table_ok (n : nat) (t : BlockTable) : Prop := {
  to_block_size : 0 < block_size t;
  to_per_kv : 0 < blocks_per_kv_block t;
  to_plain : use_hybrid_blocks t = false -> blocks_per_kv_block t = 1;
  to_nums : length (num_blocks_per_row t) = n;
  to_rows : length (block_table t) = n;
  to_row : Forall (fun row => Z.of_nat (length row) = max_num_blocks_per_req t) (block_table t);
  to_num : Forall (fun k => 0 <= k <= max_num_blocks_per_req t) (num_blocks_per_row t)
}.

(** What no operation on rows changes. *)
Definition table_config (t : BlockTable) :=
  (block_size t, blocks_per_kv_block t, use_hybrid_blocks t, max_num_blocks_per_req t, length (slot_mapping t),
   (pcp_world_size t, pcp_rank t, dcp_world_size t, dcp_rank t, cp_kv_cache_interleave_size t)).

Lemma kernel_ids_config t t' l : table_config t = table_config t' -> kernel_ids t l = kernel_ids t' l.
Proof.
  unfold table_config, kernel_ids. intros [=]. assert (use_hybrid_blocks t = use_hybrid_blocks t') as -> by congruence.
  by assert (blocks_per_kv_block t = blocks_per_kv_block t') as -> by congruence.
Qed.

Section one_table.
Context (n : nat).

Lemma kernel_ids_plain t l : table_ok n t -> kernel_ids t l = map_to_kernel_blocks l (blocks_per_kv_block t).
Proof.
  intros H. unfold kernel_ids. destruct (use_hybrid_blocks t) eqn:E; [done|].
  by rewrite (to_plain n t H E).
Qed.
Lemma map_to_kernel_blocks_concat per l : 0 < per ->
  map_to_kernel_blocks l per = concat (map (fun b => map (fun k => b * per + k) (seqZ 0 per)) l).
Proof.
  intros Hp. unfold map_to_kernel_blocks. destruct (per =? 1) eqn:E; [|done]. apply Z.eqb_eq in E as ->.
  induction l as [|b l IH]; [done|]. cbn [map concat]. rewrite <-IH. change (seqZ 0 1) with [0]. simpl. f_equal. lia.
Qed.
Lemma kernel_ids_app t l1 l2 : table_ok n t -> kernel_ids t (l1 ++ l2) = kernel_ids t l1 ++ kernel_ids t l2.
Proof.
  intros H. rewrite !kernel_ids_plain by done. rewrite !map_to_kernel_blocks_concat by apply (to_per_kv n t H).
  by rewrite map_app, concat_app.
Qed.
Lemma kernel_ids_length t l : table_ok n t -> Z.of_nat (length (kernel_ids t l)) = Z.of_nat (length l) * blocks_per_kv_block t.
Proof.
  intros H. pose proof (to_per_kv n t H). rewrite kernel_ids_plain, map_to_kernel_blocks_concat by done.
  induction l as [|b l IH]; [done|]. simpl. rewrite length_app, length_map, length_seqZ. lia.
Qed.

(** Writing the kernel blocks [ids] at the end of a row. *)
Lemma row_blocks_write t r start row ids row' :
  num_blocks_per_row t !! r = Some start -> block_table t !! r = Some row ->
  0 <= start -> start + Z.of_nat (length ids) <= Z.of_nat (length row) ->
  slice_set start (start + Z.of_nat (length ids)) ids row = Some row' ->
  take (Z.to_nat (start + Z.of_nat (length ids))) row' = take (Z.to_nat start) row ++ ids.
Proof.
  intros Hn Hr Hs Hl. rewrite slice_set_ok by lia. intros [= <-].
  rewrite app_assoc. rewrite take_app_le by (rewrite length_app, length_take; lia).
  apply take_ge. rewrite length_app, length_take. lia.
Qed.

Lemma table_ok_update t r k row :
  table_ok n t -> Z.of_nat (length row) = max_num_blocks_per_req t -> 0 <= k <= max_num_blocks_per_req t ->
  table_ok n (set_block_table (<[r := row]> (block_table t)) (set_num_blocks_per_row (<[r := k]> (num_blocks_per_row t)) t)).
Proof.
  intros [H1 H2 H3 H4 H5 H6 H7] Hrow Hk. split; simpl; try done; rewrite ?length_insert; try done; by apply Forall_insert.
Qed.
Lemma row_blocks_update t r k row r' :
  table_ok n t -> (r < n)%nat ->
  row_blocks (set_block_table (<[r := row]> (block_table t)) (set_num_blocks_per_row (<[r := k]> (num_blocks_per_row t)) t)) r' =
  if decide (r' = r) then Some (take (Z.to_nat k) row) else row_blocks t r'.
Proof.
  intros H Hr. unfold row_blocks. simpl. case_decide as E.
  - subst r'. rewrite !list_lookup_insert_eq by (rewrite ?(to_nums n t H), ?(to_rows n t H); done). done.
  - by rewrite !list_lookup_insert_ne by done.
Qed.
Lemma row_blocks_in t r : table_ok n t -> (r < n)%nat ->
  exists k row, num_blocks_per_row t !! r = Some k /\ block_table t !! r = Some row /\
    0 <= k <= max_num_blocks_per_req t /\ Z.of_nat (length row) = max_num_blocks_per_req t /\
    row_blocks t r = Some (take (Z.to_nat k) row).
Proof.
  intros H Hr. destruct (lookup_lt_is_Some_2 (num_blocks_per_row t) r) as [k Hk]; [by rewrite (to_nums n t H)|].
  destruct (lookup_lt_is_Some_2 (block_table t) r) as [row Hrow]; [by rewrite (to_rows n t H)|].
  exists k, row. split_and!; try done.
  - apply (proj1 (Forall_lookup _ _) (to_num n t H) r k Hk).
  - apply (proj1 (Forall_lookup _ _) (to_num n t H) r k Hk).
  - apply (proj1 (Forall_lookup _ _) (to_row n t H) r row Hrow).
  - unfold row_blocks. by rewrite Hk, Hrow.
Qed.

(** What an operation on rows promises: the shape is kept, the rows other than [r] too, and row
    [r] gets [ids]. *)
Definition row_updated (t : BlockTable) (r : nat) (ids : option (list Z)) (t' : BlockTable) : Prop :=
  table_ok n t' /\ table_config t' = table_config t /\
  forall r', row_blocks t' r' = if decide (r' = r) then ids else row_blocks t r'.

(** The block ids are within a 32-bit range and the row has room for them. *)
Definition row_fits (t : BlockTable) (have : nat) (ids : list Z) : Prop :=
  forallb fits_int32 (kernel_ids t ids) = true /\
  Z.of_nat have + Z.of_nat (length (kernel_ids t ids)) <= max_num_blocks_per_req t.

Lemma append_row_spec t r have ids :
  table_ok n t -> (r < n)%nat -> row_blocks t r = Some have -> row_fits t (length have) ids ->
  wp (append_row ids r) (fun _ t' => row_updated t r (Some (have ++ kernel_ids t ids)) t') t.
Proof.
  intros H Hr Hrow [Hfit Hroom]. unfold append_row. destruct ids as [|b ids'] eqn:Eids.
  { apply wp_ret. split_and!; [done|done|]. intros r'. assert (kernel_ids t [] = []) as ->.
    { rewrite kernel_ids_plain by done. unfold map_to_kernel_blocks. by destruct (_ =? 1). }
    rewrite app_nil_r. by case_decide; subst. }
  rewrite <-Eids in *. clear Eids.
  destruct (row_blocks_in t r H Hr) as (k & row & Hk & Hrow' & Hkb & Hlen & Hrb). rewrite Hrb in Hrow. injection Hrow as <-.
  rewrite length_take in Hroom. wp_step. wp_step. fold (kernel_ids t ids). rewrite Hk.
  wp_step. wp_step. wp_step. wp_step. rewrite Hrow'. wp_step. wp_step. rewrite Hfit, andb_false_r.
  destruct (slice_set k (k + Z.of_nat (length (kernel_ids t ids))) (kernel_ids t ids) row) as [row'|] eqn:E;
    [|rewrite slice_set_ok in E by lia; done].
  rewrite map_int32_id by done. rewrite E. wp_step. wp_step. wp_step.
  assert (Z.of_nat (length row') = max_num_blocks_per_req t) by (rewrite (slice_set_length _ _ _ _ _ E); done).
  split_and!.
  - apply (table_ok_update t r _ row'); [done|done|lia].
  - done.
  - intros r'. rewrite row_blocks_update by done. case_decide; [|done]. f_equal.
    apply (row_blocks_write t r k row); try done; lia.
Qed.

Lemma add_row_spec t r ids :
  table_ok n t -> (r < n)%nat -> row_fits t 0 ids ->
  wp (add_row ids r) (fun _ t' => row_updated t r (Some (kernel_ids t ids)) t') t.
Proof.
  intros H Hr Hfit. destruct (row_blocks_in t r H Hr) as (k & row & Hk & Hrow & Hkb & Hlen & _).
  unfold add_row. wp_step. wp_step. rewrite Hk. wp_step. wp_step. wp_step. wp_step.
  set (t0 := set_num_blocks_per_row _ t).
  assert (table_ok n t0) as H0.
  { pose proof (table_ok_update t r 0 row H Hlen ltac:(lia)) as H'. by rewrite list_insert_id in H'. }
  assert (forall r', row_blocks t0 r' = if decide (r' = r) then Some [] else row_blocks t r') as Hb.
  { intros r'. pose proof (row_blocks_update t r 0 row r' H Hr) as H'. by rewrite list_insert_id in H'. }
  eapply wp_mono; [apply (append_row_spec t0 r []); [done|done|by rewrite Hb, decide_True|exact Hfit]|].
  simpl. intros _ t' (Hok & Hc & Hrows). split_and!; [done|done|]. intros r'. rewrite Hrows, Hb. by case_decide.
Qed.

Lemma move_row_spec t src tgt :
  table_ok n t -> (src < n)%nat -> (tgt < n)%nat ->
  wp (move_row src tgt) (fun _ t' => row_updated t tgt (row_blocks t src) t') t.
Proof.
  intros H Hs Ht. destruct (row_blocks_in t src H Hs) as (k & row & Hk & Hrow & Hkb & Hlen & Hsrc).
  destruct (row_blocks_in t tgt H Ht) as (k' & row' & _ & Hrow' & _ & Hlen' & _).
  unfold move_row. wp_step. wp_step. rewrite Hk. wp_step. wp_step. rewrite Hrow. wp_step. wp_step. rewrite Hrow'.
  wp_step. wp_step.
  assert (Z.of_nat (length (take (Z.to_nat k) row)) = k) as El by (rewrite length_take; lia).
  destruct (slice_set 0 k (take (Z.to_nat k) row) row') as [new|] eqn:E; [|rewrite slice_set_ok in E by lia; done].
  assert (Z.of_nat (length new) = max_num_blocks_per_req t) by (rewrite (slice_set_length _ _ _ _ _ E); done).
  wp_step. wp_step. wp_step. wp_step. wp_step. split_and!.
  - apply (table_ok_update t tgt k new); done.
  - done.
  - intros r'. pose proof (row_blocks_update t tgt k new r' H Ht) as Hu.
    etransitivity; [exact Hu|]. rewrite Hsrc. case_decide; [|done]. f_equal. rewrite slice_set_ok in E by lia. injection E as <-.
    simpl. by rewrite take_app_le, take_ge by lia.
Qed.
End one_table.

(** *** Swaps *)

Definition swap_index (i j r : nat) : nat := if decide (r = i) then j else if decide (r = j) then i else r.
Lemma swap_at_spec {A} i j (l : list A) : (i < length l)%nat -> (j < length l)%nat ->
  exists l', swap_at i j l = Some l' /\ length l' = length l /\ forall r, l' !! r = l !! swap_index i j r.
Proof.
  intros Hi Hj. unfold swap_at. destruct (lookup_lt_is_Some_2 l i Hi) as [x Hx]. destruct (lookup_lt_is_Some_2 l j Hj) as [y Hy].
  rewrite Hx, Hy. eexists. split; [done|]. split; [by rewrite !length_insert|]. intros r. unfold swap_index.
  destruct (decide (r = j)) as [->|Hrj].
  - rewrite list_lookup_insert_eq by (by rewrite length_insert). case_decide; congruence.
  - rewrite list_lookup_insert_ne by done. case_decide; subst.
    + rewrite list_lookup_insert_eq by done. congruence.
    + by rewrite list_lookup_insert_ne by done.
Qed.
Lemma swap_at_Forall {A} (P : A -> Prop) i j l l' : Forall P l -> swap_at i j l = Some l' -> Forall P l'.
Proof.
  unfold swap_at. intros HP. destruct (l !! i) eqn:Ei, (l !! j) eqn:Ej; try done. intros [= <-].
  rewrite Forall_lookup in HP. apply Forall_insert; [apply Forall_insert|]; [by apply Forall_lookup|eauto|eauto].
Qed.
Lemma swap_row_spec n t i j :
  table_ok n t -> (i < n)%nat -> (j < n)%nat ->
  wp (swap_row i j) (fun _ t' => table_ok n t' /\ table_config t' = table_config t /\
    forall r, row_blocks t' r = row_blocks t (swap_index i j r)) t.
Proof.
  intros H Hi Hj. destruct (swap_at_spec i j (num_blocks_per_row t)) as (nums & En & Ln & Hn); [by rewrite (to_nums n t H)..|].
  destruct (swap_at_spec i j (block_table t)) as (rows & Er & Lr & Hr); [by rewrite (to_rows n t H)..|].
  unfold swap_row. wp_step. wp_step. rewrite En. wp_step. wp_step. wp_step. wp_step. rewrite Er. wp_step. wp_step.
  destruct H as [H1 H2 H3 H4 H5 H6 H7]. split_and!; [split; simpl; try done; try lia| done |].
  - by eapply swap_at_Forall.
  - by eapply swap_at_Forall.
  - intros r. unfold row_blocks. simpl. by rewrite Hn, Hr.
Qed.

(** *** Slots *)

Lemma concat_lookup {A} (rows : list (list A)) m r c :
  Forall (fun row => length row = m) rows -> (c < m)%nat -> concat rows !! (r * m + c)%nat = rows !! r ≫= (.!! c).
Proof.
  intros Hf Hc. revert r. induction Hf as [|row rows Hrow Hf IH]; intros r; [by destruct r|].
  destruct r as [|r]; simpl.
  - by rewrite lookup_app_l by lia.
  - rewrite lookup_app_r by lia. replace (m + r * m + c - length row)%nat with (r * m + c)%nat by lia. apply IH.
Qed.

(** The size of a block of the manager, and the slot of the [q]-th token that a rank stores
    for a request with the given blocks. *)
Definition kv_block_size (t : BlockTable) : Z := block_size t * blocks_per_kv_block t.
Definition token_slot (t : BlockTable) (blocks : list Z) (q : Z) : Z :=
  default 0 (blocks !! Z.to_nat (q / kv_block_size t)) * kv_block_size t + q mod kv_block_size t.
(** Where a position is among the tokens of its rank, and that rank. *)
Definition local_position (t : BlockTable) (p : Z) : Z := p / virtual_block_size t * block_size t + local_offset t p.
Definition owner (t : BlockTable) (p : Z) : Z :=
  p mod virtual_block_size t / cp_kv_cache_interleave_size t mod total_cp_world_size t.
Definition expected_slot (t : BlockTable) (blocks : list Z) (p : Z) : Z :=
  if owner t p =? total_cp_rank t then token_slot t blocks (local_position t p) else -1.

(** The interleave size divides the block size, and the ranks are ranks. *)
Record cp_ok (t : BlockTable) : Prop := {
  co_block_size : 0 < block_size t;
  co_world : 0 < total_cp_world_size t;
  co_rank : 0 <= total_cp_rank t < total_cp_world_size t;
  co_interleave : 0 < cp_kv_cache_interleave_size t;
  co_divides : (cp_kv_cache_interleave_size t | block_size t)
}.

(** A position is its virtual block, a run of the interleave size, and a place in it; the
    runs go round the ranks. *)
Lemma position_parts t p : cp_ok t -> 0 <= p ->
  let i := cp_kv_cache_interleave_size t in
  let q := p mod virtual_block_size t / i in
  exists m, block_size t = m * i /\ 0 < m /\ 0 <= q < m * total_cp_world_size t /\
    p = (p / virtual_block_size t * (m * total_cp_world_size t) + q) * i + p mod i /\
    local_position t p = (p / virtual_block_size t * m + q / total_cp_world_size t) * i + p mod i /\
    owner t p = q mod total_cp_world_size t.
Proof.
  intros [Hb Hw Hr Hi [m Hm]] Hp i q. exists m. assert (0 < m) by nia. assert (0 < virtual_block_size t) as Hv by (unfold virtual_block_size; nia).
  assert (virtual_block_size t = m * total_cp_world_size t * i) as Ev by (unfold virtual_block_size; subst i; nia).
  pose proof (Z.mod_pos_bound p _ Hv) as Ho.
  assert (p mod virtual_block_size t mod i = p mod i) as Emod.
  { rewrite Ev. apply Z.mod_mod_divide. by exists (m * total_cp_world_size t). }
  pose proof (Z.div_mod (p mod virtual_block_size t) i ltac:(lia)) as Eo. fold q in Eo. rewrite Emod in Eo.
  pose proof (Z.div_mod p (virtual_block_size t) ltac:(lia)) as Ep.
  pose proof (Z.mod_pos_bound p i Hi) as He.
  split_and!; try done.
  - apply Z.div_pos; lia.
  - apply Z.div_lt_upper_bound; [done|]. nia.
  - set (k := p / virtual_block_size t) in *.
    assert (p = m * total_cp_world_size t * i * k + (i * q + p mod i)) as E by (rewrite <-Ev; lia).
    etransitivity; [exact E|ring].
  - unfold local_position, local_offset. fold i. rewrite Emod, Hm. fold i.
    rewrite (Z.mul_comm (total_cp_world_size t)), <-Z.div_div by lia. fold q. ring.
Qed.

Lemma position_unique t p p' : cp_ok t -> 0 <= p -> 0 <= p' ->
  owner t p = owner t p' -> local_position t p = local_position t p' -> p = p'.
Proof.
  intros H Hp Hp' Eo El. destruct (position_parts t p H Hp) as (m & Em & Hm & Hq & Ep & Elp & Eop).
  destruct (position_parts t p' H Hp') as (m' & Em' & _ & Hq' & Ep' & Elp' & Eop').
  destruct H as [Hb Hw Hr Hi _]. assert (m' = m) as -> by nia.
  set (i := cp_kv_cache_interleave_size t) in *. set (w := total_cp_world_size t) in *.
  set (q := p mod virtual_block_size t / i) in *. set (q' := p' mod virtual_block_size t / i) in *.
  pose proof (Z.mod_pos_bound p i Hi) as B. pose proof (Z.mod_pos_bound p' i Hi) as B'.
  pose proof (Z.div_mod q w ltac:(lia)) as Dq. pose proof (Z.div_mod q' w ltac:(lia)) as Dq'.
  assert (0 <= q / w < m) as Bq by (split; [apply Z.div_pos; lia|apply Z.div_lt_upper_bound; lia]).
  assert (0 <= q' / w < m) as Bq' by (split; [apply Z.div_pos; lia|apply Z.div_lt_upper_bound; lia]).
  rewrite Elp, Elp' in El.
  destruct (Z.div_mod_unique i (p / virtual_block_size t * m + q / w) (p' / virtual_block_size t * m + q' / w)
              (p mod i) (p' mod i)) as [E1 E2]; [lia|lia|nia|].
  destruct (Z.div_mod_unique m (p / virtual_block_size t) (p' / virtual_block_size t) (q / w) (q' / w)) as [E3 E4]; [lia|lia|nia|].
  rewrite Ep, Ep', E2, E3, Dq, Dq', E4. congruence.
Qed.

Lemma local_position_nonneg t p : cp_ok t -> 0 <= p -> 0 <= local_position t p.
Proof.
  intros H Hp. destruct (position_parts t p H Hp) as (m & _ & Hm & Hq & _ & -> & _). destruct H as [Hb Hw Hr Hi _].
  pose proof (Z.mod_pos_bound p (cp_kv_cache_interleave_size t) Hi).
  assert (0 <= p / virtual_block_size t) by (apply Z.div_pos; [done|unfold virtual_block_size; nia]).
  assert (0 <= p mod virtual_block_size t / cp_kv_cache_interleave_size t / total_cp_world_size t) by (apply Z.div_pos; lia).
  nia.
Qed.
Lemma local_offset_bound t p : cp_ok t -> 0 <= p -> 0 <= local_offset t p < block_size t.
Proof.
  intros H Hp. destruct (position_parts t p H Hp) as (m & Em & Hm & Hq & _ & El & _). destruct H as [Hb Hw Hr Hi _].
  unfold local_position in El. pose proof (Z.mod_pos_bound p (cp_kv_cache_interleave_size t) Hi).
  set (q := p mod virtual_block_size t / cp_kv_cache_interleave_size t) in *.
  assert (0 <= q / total_cp_world_size t < m) by (split; [apply Z.div_pos; lia|apply Z.div_lt_upper_bound; lia]).
  nia.
Qed.
(** On a single rank every position is local and stays where it is. *)
Lemma single_rank t p : cp_ok t -> total_cp_world_size t = 1 -> 0 <= p ->
  owner t p = total_cp_rank t /\ local_position t p = p /\ p / virtual_block_size t = p / block_size t /\ local_offset t p = p mod block_size t.
Proof.
  intros H Hw Hp. destruct (position_parts t p H Hp) as (m & Em & Hm & Hq & Ep & El & Eo). destruct H as [Hb _ Hr Hi _].
  rewrite Hw in *. rewrite Z.div_1_r in El. rewrite Z.mod_1_r in Eo. rewrite Z.mul_1_r in Ep.
  assert (local_position t p = p) as E by congruence. split_and!; [lia|done|unfold virtual_block_size; f_equal; lia|].
  unfold local_position in E. assert (virtual_block_size t = block_size t) as Ev by (unfold virtual_block_size; lia).
  rewrite Ev in E. pose proof (Z.div_mod p (block_size t) ltac:(lia)). lia.
Qed.

Lemma kernel_ids_lookup n t blocks a b k : table_ok n t -> blocks !! a = Some b -> 0 <= k < blocks_per_kv_block t ->
  kernel_ids t blocks !! Z.to_nat (Z.of_nat a * blocks_per_kv_block t + k) = Some (b * blocks_per_kv_block t + k).
Proof.
  intros H Hb Hk. pose proof (to_per_kv n t H) as Hp. rewrite (kernel_ids_plain n), map_to_kernel_blocks_concat by done.
  set (per := blocks_per_kv_block t) in *.
  replace (Z.to_nat (Z.of_nat a * per + k)) with (a * Z.to_nat per + Z.to_nat k)%nat by lia.
  rewrite (concat_lookup _ (Z.to_nat per)); [|apply Forall_map, Forall_forall; intros; simpl; by rewrite length_map, length_seqZ|lia].
  change (map ?f blocks) with (f <$> blocks). rewrite list_lookup_fmap, Hb. simpl.
  change (map ?f (seqZ 0 per)) with (f <$> seqZ 0 per). rewrite list_lookup_fmap, lookup_seqZ_lt by lia. simpl. f_equal. lia.
Qed.

(** The slots of a block of the manager are in a 32-bit range. *)
Definition block_in_range (t : BlockTable) (b : Z) : Prop := 0 <= b /\ (b + 1) * kv_block_size t <= 2 ^ 31.

Lemma split_block t q : 0 < block_size t -> 0 < blocks_per_kv_block t ->
  q / kv_block_size t = q / block_size t / blocks_per_kv_block t /\
  q mod kv_block_size t = q / block_size t mod blocks_per_kv_block t * block_size t + q mod block_size t.
Proof.
  intros Hb Hp. unfold kv_block_size. rewrite <-Z.div_div by lia. split; [done|].
  rewrite Z.rem_mul_r by lia. ring.
Qed.

Lemma slot_of_ok n t blocks p :
  table_ok n t -> cp_ok t -> 0 <= p -> local_position t p < Z.of_nat (length blocks) * kv_block_size t ->
  Forall (block_in_range t) blocks ->
  exists bn, kernel_ids t blocks !! Z.to_nat (p / virtual_block_size t) = Some bn /\ slot_of t bn p = expected_slot t blocks p.
Proof.
  intros H Hcp Hp Hlen Hr. pose proof (to_block_size n t H) as Hb. pose proof (to_per_kv n t H) as Hper.
  pose proof (local_offset_bound t p Hcp Hp) as Ho. pose proof (local_position_nonneg t p Hcp Hp) as Hl.
  set (j := p / virtual_block_size t). set (q := local_position t p) in *.
  assert (q / block_size t = j /\ q mod block_size t = local_offset t p) as [Eq Em].
  { destruct (Z.div_mod_unique (block_size t) (q / block_size t) j (q mod block_size t) (local_offset t p)); try done.
    - left. by apply Z.mod_pos_bound. - by left. - rewrite <-Z.div_mod by lia. unfold q, local_position. fold j. ring. }
  destruct (split_block t q Hb Hper) as [Ea Ek]. rewrite Eq in Ea, Ek. rewrite Em in Ek.
  assert (0 < kv_block_size t) as Hkv by (unfold kv_block_size; nia).
  assert (0 <= q / kv_block_size t < Z.of_nat (length blocks)) as Ha.
  { split; [apply Z.div_pos; lia|apply Z.div_lt_upper_bound; lia]. }
  destruct (lookup_lt_is_Some_2 blocks (Z.to_nat (q / kv_block_size t))) as [b Hbl]; [lia|].
  pose proof (proj1 (Forall_lookup _ _) Hr _ _ Hbl) as [Hb0 Hb1].
  pose proof (Z.mod_pos_bound j _ Hper) as Hjm. pose proof (Z.div_mod j (blocks_per_kv_block t) ltac:(lia)) as Dj.
  exists (b * blocks_per_kv_block t + j mod blocks_per_kv_block t). split.
  - erewrite <-(kernel_ids_lookup n t blocks); [f_equal|done|exact Hbl|done]. lia.
  - assert (int32 ((b * blocks_per_kv_block t + j mod blocks_per_kv_block t) * block_size t) =
            (b * blocks_per_kv_block t + j mod blocks_per_kv_block t) * block_size t) as Ei.
    { apply int32_id. unfold fits_int32. apply andb_true_intro. unfold kv_block_size in Hb1.
      split; [apply Z.leb_le|apply Z.ltb_lt]; nia. }
    assert (token_slot t blocks q = (b * blocks_per_kv_block t + j mod blocks_per_kv_block t) * block_size t + local_offset t p) as Et.
    { unfold token_slot. rewrite Hbl, Ek. simpl. unfold kv_block_size. ring. }
    unfold slot_of, expected_slot, is_local. fold (owner t p). fold q. rewrite Ei, Et.
    destruct (1 <? total_cp_world_size t) eqn:Ew; [done|]. apply Z.ltb_ge in Ew. pose proof (co_world t Hcp).
    destruct (single_rank t p Hcp ltac:(lia) Hp) as (-> & _ & _ & ->). by rewrite Z.eqb_refl.
Qed.

(** One token of a step: a row and a position whose block the row holds. *)
Definition token_ok (n : nat) (t : BlockTable) (blocks : Z -> list Z) (r p : Z) : Prop :=
  0 <= r < Z.of_nat n /\ 0 <= p /\ row_blocks t (Z.to_nat r) = Some (kernel_ids t (blocks r)) /\
  local_position t p < Z.of_nat (length (blocks r)) * kv_block_size t /\ Forall (block_in_range t) (blocks r).

Lemma index_width t p : cp_ok t -> 0 <= p ->
  p / (if 1 <? total_cp_world_size t then virtual_block_size t else block_size t) = p / virtual_block_size t.
Proof.
  intros H Hp. destruct (1 <? _) eqn:Ew; [done|]. apply Z.ltb_ge in Ew. pose proof (co_world t H).
  by destruct (single_rank t p H ltac:(lia) Hp) as (_ & _ & -> & _).
Qed.
Lemma token_slot_ok n t blocks r p : table_ok n t -> cp_ok t -> token_ok n t blocks r p ->
  exists bn, np_get (concat (block_table t)) (block_table_index t r p) = Some bn /\ slot_of t bn p = expected_slot t (blocks r) p.
Proof.
  intros H Hcp (Hr & Hp & Hrow & Hlen & Hrange).
  destruct (slot_of_ok n t (blocks r) p H Hcp Hp Hlen Hrange) as (bn & Hbn & Hs). exists bn. split; [|done].
  destruct (row_blocks_in n t (Z.to_nat r) H ltac:(lia)) as (k & row & Hk & Hrow' & Hkb & Hl & Hrb).
  rewrite Hrb in Hrow. injection Hrow as Hrow. rewrite <-Hrow in Hbn.
  assert (Z.to_nat (p / virtual_block_size t) < Z.to_nat k)%nat as Hlt.
  { apply lookup_lt_Some in Hbn. rewrite length_take in Hbn. lia. }
  rewrite lookup_take_lt in Hbn by done.
  assert (0 <= p / virtual_block_size t) by (apply Z.div_pos; [done|unfold virtual_block_size; destruct Hcp; nia]).
  unfold block_table_index. rewrite index_width by done.
  set (j := p / virtual_block_size t) in *. unfold np_get.
  assert (0 <= r * max_num_blocks_per_req t + j) as Hpos by nia.
  rewrite (proj2 (Z.ltb_ge _ (- _))), (proj2 (Z.ltb_ge _ 0)) by lia.
  replace (Z.to_nat (r * max_num_blocks_per_req t + j))
    with (Z.to_nat r * Z.to_nat (max_num_blocks_per_req t) + Z.to_nat j)%nat by nia.
  rewrite concat_lookup; [rewrite Hrow'; exact Hbn| |lia].
  eapply Forall_impl; [|exact (to_row n t H)]. simpl. lia.
Qed.

Lemma py_map_lookup {St A B} (f : A -> py St B) (g : nat -> B) l s :
  (forall i x, l !! i = Some x -> f x s = Ret (g i) s) -> py_map f l s = Ret (map g (seq 0 (length l))) s.
Proof.
  revert g. induction l as [|x l IH]; intros g H; [done|]. simpl. unfold py_bind at 1. rewrite (H 0%nat x) by done.
  unfold py_bind. rewrite (IH (fun i => g (S i))).
  - cbn [length seq map]. by rewrite <-seq_shift, map_map.
  - intros i y Hy. by apply (H (S i)).
Qed.
Lemma compute_slots n t blocks reqs positions :
  table_ok n t -> cp_ok t -> length reqs = length positions -> (length positions <= length (slot_mapping t))%nat ->
  (forall i r p, reqs !! i = Some r -> positions !! i = Some p -> token_ok n t blocks r p) ->
  compute_slot_mapping reqs positions t =
  Ret tt (set_slot_mapping (zip_with (fun r p => expected_slot t (blocks r) p) reqs positions ++ drop (length reqs) (slot_mapping t)) t).
Proof.
  intros H Hcp Hlen Hcap Htok. unfold compute_slot_mapping, py_bind, py_get at 1.
  set (ixs := zip_with (block_table_index t) reqs positions).
  set (g := fun i => default 0 (np_get (concat (block_table t)) (default 0 (ixs !! i)))).
  assert (forall i r p, reqs !! i = Some r -> positions !! i = Some p ->
            np_get (concat (block_table t)) (block_table_index t r p) = Some (g i) /\ slot_of t (g i) p = expected_slot t (blocks r) p) as Hg.
  { intros i r p Hr Hp. destruct (token_slot_ok n t blocks r p H Hcp (Htok i r p Hr Hp)) as (bn & E1 & E2).
    assert (g i = bn) as ->; [|done]. unfold g, ixs. rewrite lookup_zip_with, Hr, Hp. simpl. by rewrite E1. }
  rewrite (py_map_lookup _ g).
  - rewrite (proj2 (Nat.ltb_ge _ _)) by lia. unfold py_modify. do 3 f_equal.
    apply list_eq. intros i. rewrite !lookup_zip_with. change (map g ?l) with (g <$> l). rewrite list_lookup_fmap.
    destruct (reqs !! i) as [r|] eqn:Er.
    + destruct (positions !! i) as [p|] eqn:Ep; simpl.
      * rewrite lookup_seq_lt; [simpl; by destruct (Hg i r p Er Ep) as [_ ->]|].
        unfold ixs. rewrite length_zip_with. apply lookup_lt_Some in Er, Ep. lia.
      * apply lookup_ge_None in Ep. apply lookup_lt_Some in Er. lia.
    + simpl. rewrite lookup_seq_ge; [done|]. unfold ixs. rewrite length_zip_with. apply lookup_ge_None in Er. lia.
  - intros i x Hx. unfold ixs in Hx. rewrite lookup_zip_with in Hx. destruct (reqs !! i) as [r|] eqn:Er; [|done].
    destruct (positions !! i) as [p|] eqn:Ep; [|done]. injection Hx as <-. by destruct (Hg i r p Er Ep) as [-> _].
Qed.

Lemma token_slot_shared t blocks blocks' q q' : 0 < kv_block_size t -> 0 <= q -> 0 <= q' ->
  q < Z.of_nat (length blocks) * kv_block_size t -> q' < Z.of_nat (length blocks') * kv_block_size t ->
  token_slot t blocks q = token_slot t blocks' q' ->
  (exists b, blocks !! Z.to_nat (q / kv_block_size t) = Some b /\ blocks' !! Z.to_nat (q' / kv_block_size t) = Some b) /\
  q mod kv_block_size t = q' mod kv_block_size t.
Proof.
  intros Hkv Hq Hq' Hl Hl' E. unfold token_slot in E.
  assert (forall (bs : list Z) x, 0 <= x < Z.of_nat (length bs) * kv_block_size t -> exists b, bs !! Z.to_nat (x / kv_block_size t) = Some b) as Hin.
  { intros bs x Hx. apply lookup_lt_is_Some_2. apply Nat2Z.inj_lt. rewrite Z2Nat.id by (apply Z.div_pos; lia). apply Z.div_lt_upper_bound; lia. }
  destruct (Hin blocks q ltac:(lia)) as [b Hb]. destruct (Hin blocks' q' ltac:(lia)) as [b' Hb']. rewrite Hb, Hb' in E |- *. simpl in E.
  pose proof (Z.mod_pos_bound q _ Hkv). pose proof (Z.mod_pos_bound q' _ Hkv).
  destruct (Z.div_mod_unique (kv_block_size t) b b' (q mod kv_block_size t) (q' mod kv_block_size t)) as [-> ->]; [lia|lia|lia|].
  eauto.
Qed.

Lemma owner_range t p : cp_ok t -> 0 <= owner t p < total_cp_world_size t.
Proof. intros H. apply Z.mod_pos_bound. apply (co_world t H). Qed.

(** The same table on another rank. *)
Definition on_rank (rank : Z) (t : BlockTable) : BlockTable :=
  mkBlockTable (block_size t) (blocks_per_kv_block t) (use_hybrid_blocks t) (max_num_blocks_per_req t) (block_table t)
    (num_blocks_per_row t) (slot_mapping t) 1 0 (total_cp_world_size t) rank (cp_kv_cache_interleave_size t).
Lemma on_rank_owner t rank p : owner (on_rank rank t) p = owner t p.
Proof. unfold owner, virtual_block_size, total_cp_world_size. cbn [on_rank block_size pcp_world_size dcp_world_size cp_kv_cache_interleave_size]. by rewrite Z.mul_1_l. Qed.

(** C23. The slots of a step. With every row of the table holding the blocks of its
    request, and with blocks whose slots fit 32 bits ([block_in_range]),
    [compute_slot_mapping] completes, and the slot of a token is its place in the
    KV-cache manager's block for its position, whatever block size the kernel uses;
    under context parallelism this is so on the rank that owns the position, and the
    others get -1. Every position has exactly one owner, two positions of a request
    whose blocks are distinct never get one slot of a rank, and two requests only in a
    block they share. *)
Theorem slots_exact n t blocks reqs positions :
  table_ok n t -> cp_ok t -> length reqs = length positions -> (length positions <= length (slot_mapping t))%nat ->
  (forall i r p, reqs !! i = Some r -> positions !! i = Some p -> token_ok n t blocks r p) ->
  compute_slot_mapping reqs positions t =
    Ret tt (set_slot_mapping (zip_with (fun r p => expected_slot t (blocks r) p) reqs positions ++ drop (length reqs) (slot_mapping t)) t) /\
  (forall p, exists rank, 0 <= rank < total_cp_world_size t /\
     forall rank', 0 <= rank' < total_cp_world_size t ->
       (owner (on_rank rank' t) p = total_cp_rank (on_rank rank' t) <-> rank' = rank)) /\
  forall r p r' p', token_ok n t blocks r p -> token_ok n t blocks r' p' ->
    0 <= expected_slot t (blocks r) p -> expected_slot t (blocks r) p = expected_slot t (blocks r') p' ->
    (exists b, b ∈ blocks r /\ b ∈ blocks r') /\ (r = r' -> NoDup (blocks r) -> p = p').
Proof.
  intros H Hcp Hlen Hcap Htok. split_and!.
  - by apply (compute_slots n).
  - intros p. exists (owner t p). split; [by apply owner_range|]. intros rank' Hr'. rewrite on_rank_owner.
    unfold total_cp_rank. simpl. lia.
  - intros r p r' p' (_ & Hp & _ & Hl & _) (_ & Hp' & _ & Hl' & _) H0 E.
    unfold expected_slot in H0, E. destruct (owner t p =? _) eqn:Eo; [|done].
    assert (0 < kv_block_size t) as Hkv by (unfold kv_block_size; pose proof (to_block_size n t H); pose proof (to_per_kv n t H); nia).
    pose proof (local_position_nonneg t p Hcp Hp). pose proof (local_position_nonneg t p' Hcp Hp').
    destruct (owner t p' =? _) eqn:Eo'; [|lia].
    destruct (token_slot_shared t (blocks r) (blocks r') (local_position t p) (local_position t p') Hkv) as [(b & Hb & Hb') Em]; [done..|].
    split; [exists b; split; by eapply list_elem_of_lookup_2|]. intros <- Hnd.
    apply Z.eqb_eq in Eo, Eo'. apply (position_unique t); try done; [congruence|].
    pose proof (NoDup_lookup _ _ _ _ Hnd Hb Hb') as En.
    assert (local_position t p / kv_block_size t = local_position t p' / kv_block_size t) as Ed.
    { apply Z2Nat.inj; [apply Z.div_pos; lia..|done]. }
    rewrite (Z.div_mod (local_position t p) (kv_block_size t)), (Z.div_mod (local_position t p') (kv_block_size t)) by lia.
    congruence.
Qed.

(** A table of two requests with 4-token blocks that the kernel sees as 2-token blocks; the
    second request has blocks 7 and 3. *)
Definition demo_table : BlockTable :=
  mkBlockTable 2 2 true 4 [[2; 3; 0; 0]; [14; 15; 6; 7]] [2; 4] [0; 0; 0; 0] 1 0 1 0 1.
Definition demo_blocks (r : Z) : list Z := if r =? 0 then [1] else [7; 3].
Lemma slots_exact_witness :
  compute_slot_mapping [0; 1; 1] [3; 2; 5] demo_table = Ret tt (set_slot_mapping [7; 30; 13; 0] demo_table).
Proof.
  destruct (slots_exact 2 demo_table demo_blocks [0; 1; 1] [3; 2; 5]) as [E _].
  - split; simpl; try done; repeat constructor; done.
  - split; try done. by exists 2.
  - done.
  - simpl. lia.
  - intros i r p Hr Hp. assert (Forall (block_in_range demo_table) (demo_blocks r)) as Hb.
    { unfold demo_blocks. destruct (r =? 0); repeat constructor; vm_compute; done. }
    destruct i as [|[|[|i]]]; [| | |done]; simpl in Hr, Hp; simplify_eq; (split_and!; [done|done|done|done|done|exact Hb]).
  - exact E.
Defined.

(** ** Properties of all tables *)

Lemma wp_each_table (f : nat -> py BlockTable unit) (P : nat -> BlockTable -> BlockTable -> Prop) ts :
  (forall i t, ts !! i = Some t -> wp (f i) (fun _ t' => P i t t') t) ->
  wp (each_table f) (fun _ ts' => length ts' = length ts /\
    forall i t, ts !! i = Some t -> exists t', ts' !! i = Some t' /\ P i t t') ts.
Proof.
  intros H. unfold each_table.
  assert (forall k, (forall i t, ts !! i = Some t -> wp (f (k + i)%nat) (fun _ t' => P (k + i)%nat t t') t) ->
    match each_table_from f k ts with
    | Ret _ ts' => length ts' = length ts /\ forall i t, ts !! i = Some t -> exists t', ts' !! i = Some t' /\ P (k + i)%nat t t'
    | Raise _ _ => False
    end) as G; [|exact (G 0%nat H)].
  clear H. induction ts as [|t ts IH]; intros k H; simpl; [done|].
  pose proof (H 0%nat t eq_refl) as Ht. rewrite Nat.add_0_r in Ht. unfold wp in Ht. destruct (f k t) as [[] t'|]; [|done].
  specialize (IH (S k)). destruct (each_table_from f (S k) ts) as [[] ts'|].
  - destruct IH as [Hl Hp].
    { intros i u Hu. rewrite Nat.add_succ_comm. by apply (H (S i)). }
    split; [simpl; lia|]. intros [|i] u Hu; simpl in *.
    + injection Hu as <-. exists t'. by rewrite Nat.add_0_r.
    + destruct (Hp i u Hu) as (u' & Hu' & HP). exists u'. by rewrite <-Nat.add_succ_comm.
  - apply IH. intros i u Hu. rewrite Nat.add_succ_comm. by apply (H (S i)).
Qed.
