(* ===== verification/InputBatch.v ===== *)
(** The persistent batch of the model runner ([v1/worker/gpu_input_batch.py]) and the
    builder of its changes ([v1/sample/logits_processor/state.py]).

    The arrays of the source with one entry per request are kept as one list of [Row]s. The
    list of output tokens of a request is an object shared by the request state and the
    batch: both hold its location, and the operations that read its elements take them as an
    argument. The removals of a step are in the order they were made; copies to the device
    are the values in [SamplingMetadata]. *)
From stdpp Require Import gmap strings list sorting.
From Stdlib Require Import ZArith QArith Lia.
From S2P Require Import Prelude Request BlockTable.
Open Scope Z_scope.

(** ** The changes of a step *)

Inductive MoveDirectionality := UNIDIRECTIONAL | SWAP.
(** Index, parameters, prompt and the location of the outputs. *)
Record AddedRequest := mkAdded {
  added_index : nat;
  added_params : SamplingParams;
  added_prompt : option (list Z);
  added_output : nat
}.
Record BatchUpdateBuilder := mkBuilder {
  removed_indices : list nat;
  is_removed_sorted : bool;
  added : list AddedRequest;
  moved : list (nat * nat * MoveDirectionality);
  batch_changed : bool
}.
Definition set_removed_indices (x : list nat) (s : BatchUpdateBuilder) : BatchUpdateBuilder :=
  mkBuilder x (is_removed_sorted s) (added s) (moved s) (batch_changed s).
Definition set_is_removed_sorted (x : bool) (s : BatchUpdateBuilder) : BatchUpdateBuilder :=
  mkBuilder (removed_indices s) x (added s) (moved s) (batch_changed s).
Definition set_added (x : list AddedRequest) (s : BatchUpdateBuilder) : BatchUpdateBuilder :=
  mkBuilder (removed_indices s) (is_removed_sorted s) x (moved s) (batch_changed s).
Definition set_moved (x : list (nat * nat * MoveDirectionality)) (s : BatchUpdateBuilder) : BatchUpdateBuilder :=
  mkBuilder (removed_indices s) (is_removed_sorted s) (added s) x (batch_changed s).
Definition set_batch_changed (x : bool) (s : BatchUpdateBuilder) : BatchUpdateBuilder :=
  mkBuilder (removed_indices s) (is_removed_sorted s) (added s) (moved s) x.
Definition builder_init : BatchUpdateBuilder := mkBuilder [] false [] [] false.
Record BatchUpdate := mkBatchUpdate {
  batch_size : Z;
  bu_removed : list nat;
  bu_moved : list (nat * nat * MoveDirectionality);
  bu_added : list AddedRequest
}.

Definition is_nil {A} (l : list A) : bool := match l with [] => true | _ => false end.
(** [_removed.sort(reverse=True)] *)
Definition ensure_removed_sorted : py BatchUpdateBuilder unit :=
  py_modify (fun b => if is_removed_sorted b then b
                      else set_is_removed_sorted true (set_removed_indices (merge_sort (flip Nat.le) (removed_indices b)) b)).
Definition removed : py BatchUpdateBuilder (list nat) :=
  do! ensure_removed_sorted; py_gets removed_indices.
Definition removed_append (index : nat) : py BatchUpdateBuilder unit :=
  let! b := py_get in
  if is_removed_sorted b then py_raise RuntimeError else
  do! py_modify (set_removed_indices (removed_indices b ++ [index]));
  py_modify (set_batch_changed true).
Definition has_removed (b : BatchUpdateBuilder) : bool := negb (is_nil (removed_indices b)).
Definition peek_removed : py BatchUpdateBuilder (option nat) :=
  let! b := py_get in
  if has_removed b then do! ensure_removed_sorted; let! l := py_gets removed_indices in py_ret (last l) else py_ret None.
Definition pop_removed : py BatchUpdateBuilder (option nat) :=
  let! b := py_get in
  if has_removed b then
    do! ensure_removed_sorted;
    let! l := py_gets removed_indices in
    do! py_modify (set_removed_indices (removelast l));
    py_ret (last l)
  else py_ret None.
Definition reset : py BatchUpdateBuilder bool :=
  let! b := py_get in
  do! py_modify (fun _ => builder_init);
  py_ret (batch_changed b).
Definition get_and_reset (size : Z) : py BatchUpdateBuilder (option BatchUpdate) :=
  do! py_modify (set_is_removed_sorted false);
  do! py_modify (set_batch_changed false);
  let! b := py_get in
  if is_nil (removed_indices b) && is_nil (moved b) && is_nil (added b) then py_ret None
  else do! py_modify (fun _ => builder_init);
       py_ret (Some (mkBatchUpdate size (removed_indices b) (moved b) (added b))).

(** ** Requests and rows *)

Record CachedRequestState := mkState {
  cs_args : RequestArgs; (** id, prompt, features, parameters, LoRA request *)
  generator : option Z; (** the seed of its generator *)
  cs_block_ids : list (list Z);
  cs_num_computed_tokens : Z;
  cs_output_token_ids : nat; (** the location of the list *)
  mrope_positions : option Z; (** opaque *)
  xdrope_positions : option Z; (** opaque *)
  prev_num_draft_len : Z;
  cs_num_prompt_tokens : Z
}.
Definition set_cs_args (x : RequestArgs) (s : CachedRequestState) : CachedRequestState :=
  mkState x (generator s) (cs_block_ids s) (cs_num_computed_tokens s) (cs_output_token_ids s)
    (mrope_positions s) (xdrope_positions s) (prev_num_draft_len s) (cs_num_prompt_tokens s).
Definition set_generator (x : option Z) (s : CachedRequestState) : CachedRequestState :=
  mkState (cs_args s) x (cs_block_ids s) (cs_num_computed_tokens s) (cs_output_token_ids s) (mrope_positions
    s) (xdrope_positions s) (prev_num_draft_len s) (cs_num_prompt_tokens s).
Definition set_cs_block_ids (x : list (list Z)) (s : CachedRequestState) : CachedRequestState :=
  mkState (cs_args s) (generator s) x (cs_num_computed_tokens s) (cs_output_token_ids s) (mrope_positions s)
    (xdrope_positions s) (prev_num_draft_len s) (cs_num_prompt_tokens s).
Definition set_cs_num_computed_tokens (x : Z) (s : CachedRequestState) : CachedRequestState :=
  mkState (cs_args s) (generator s) (cs_block_ids s) x (cs_output_token_ids s) (mrope_positions s)
    (xdrope_positions s) (prev_num_draft_len s) (cs_num_prompt_tokens s).
Definition set_cs_output_token_ids (x : nat) (s : CachedRequestState) : CachedRequestState :=
  mkState (cs_args s) (generator s) (cs_block_ids s) (cs_num_computed_tokens s) x (mrope_positions s)
    (xdrope_positions s) (prev_num_draft_len s) (cs_num_prompt_tokens s).
Definition set_mrope_positions (x : option Z) (s : CachedRequestState) : CachedRequestState :=
  mkState (cs_args s) (generator s) (cs_block_ids s) (cs_num_computed_tokens s) (cs_output_token_ids s) x
    (xdrope_positions s) (prev_num_draft_len s) (cs_num_prompt_tokens s).
Definition set_xdrope_positions (x : option Z) (s : CachedRequestState) : CachedRequestState :=
  mkState (cs_args s) (generator s) (cs_block_ids s) (cs_num_computed_tokens s) (cs_output_token_ids s)
    (mrope_positions s) x (prev_num_draft_len s) (cs_num_prompt_tokens s).
Definition set_prev_num_draft_len (x : Z) (s : CachedRequestState) : CachedRequestState :=
  mkState (cs_args s) (generator s) (cs_block_ids s) (cs_num_computed_tokens s) (cs_output_token_ids s)
    (mrope_positions s) (xdrope_positions s) x (cs_num_prompt_tokens s).
Definition set_cs_num_prompt_tokens (x : Z) (s : CachedRequestState) : CachedRequestState :=
  mkState (cs_args s) (generator s) (cs_block_ids s) (cs_num_computed_tokens s) (cs_output_token_ids s)
    (mrope_positions s) (xdrope_positions s) (prev_num_draft_len s) x.
Definition cs_req_id (r : CachedRequestState) : string := request_id (cs_args r).
(** [num_tokens], for the elements of the output list *)
Definition cs_num_tokens (r : CachedRequestState) (output : list Z) : Z := cs_num_prompt_tokens r + Z.of_nat (length output).
Definition get_token_id (r : CachedRequestState) (output : list Z) (idx : Z) : exn + Z :=
  if idx <? cs_num_prompt_tokens r then
    match prompt_token_ids (cs_args r) with
    | None => inl ValueError
    | Some l => match np_get l idx with Some x => inr x | None => inl IndexError end
    end
  else if idx - cs_num_prompt_tokens r <? Z.of_nat (length output)
       then match output !! Z.to_nat (idx - cs_num_prompt_tokens r) with Some x => inr x | None => inl IndexError end
       else inr (-1).

(** The sampling parameters of a row. *)
Record DrawRow := mkDrawRow {
  temperature_cpu : Q;
  top_p_cpu : Q;
  top_k_cpu : Z;
  frequency_penalties_cpu : Q;
  presence_penalties_cpu : Q;
  repetition_penalties_cpu : Q
}.
Record Row := mkRow {
  token_ids_cpu : list Z;
  is_token_ids : list bool;
  row_num_tokens : Z;
  num_tokens_no_spec : Z;
  row_num_prompt_tokens : Z;
  num_computed_tokens_cpu : Z;
  request_lora_mapping : Z;
  logits_processing_needs_token_ids : bool;
  draw_cpu : DrawRow;
  num_accepted_tokens_cpu : Z
}.
Definition set_token_ids_cpu (x : list Z) (s : Row) : Row :=
  mkRow x (is_token_ids s) (row_num_tokens s) (num_tokens_no_spec s) (row_num_prompt_tokens s)
    (num_computed_tokens_cpu s) (request_lora_mapping s) (logits_processing_needs_token_ids s) (draw_cpu s)
    (num_accepted_tokens_cpu s).
Definition set_is_token_ids (x : list bool) (s : Row) : Row :=
  mkRow (token_ids_cpu s) x (row_num_tokens s) (num_tokens_no_spec s) (row_num_prompt_tokens s)
    (num_computed_tokens_cpu s) (request_lora_mapping s) (logits_processing_needs_token_ids s) (draw_cpu s)
    (num_accepted_tokens_cpu s).
Definition set_row_num_tokens (x : Z) (s : Row) : Row :=
  mkRow (token_ids_cpu s) (is_token_ids s) x (num_tokens_no_spec s) (row_num_prompt_tokens s)
    (num_computed_tokens_cpu s) (request_lora_mapping s) (logits_processing_needs_token_ids s) (draw_cpu s)
    (num_accepted_tokens_cpu s).
Definition set_num_tokens_no_spec (x : Z) (s : Row) : Row :=
  mkRow (token_ids_cpu s) (is_token_ids s) (row_num_tokens s) x (row_num_prompt_tokens s)
    (num_computed_tokens_cpu s) (request_lora_mapping s) (logits_processing_needs_token_ids s) (draw_cpu s)
    (num_accepted_tokens_cpu s).
Definition set_row_num_prompt_tokens (x : Z) (s : Row) : Row :=
  mkRow (token_ids_cpu s) (is_token_ids s) (row_num_tokens s) (num_tokens_no_spec s) x
    (num_computed_tokens_cpu s) (request_lora_mapping s) (logits_processing_needs_token_ids s) (draw_cpu s)
    (num_accepted_tokens_cpu s).
Definition set_num_computed_tokens_cpu (x : Z) (s : Row) : Row :=
  mkRow (token_ids_cpu s) (is_token_ids s) (row_num_tokens s) (num_tokens_no_spec s) (row_num_prompt_tokens
    s) x (request_lora_mapping s) (logits_processing_needs_token_ids s) (draw_cpu s) (num_accepted_tokens_cpu
    s).
Definition set_request_lora_mapping (x : Z) (s : Row) : Row :=
  mkRow (token_ids_cpu s) (is_token_ids s) (row_num_tokens s) (num_tokens_no_spec s) (row_num_prompt_tokens
    s) (num_computed_tokens_cpu s) x (logits_processing_needs_token_ids s) (draw_cpu s)
    (num_accepted_tokens_cpu s).
Definition set_logits_processing_needs_token_ids (x : bool) (s : Row) : Row :=
  mkRow (token_ids_cpu s) (is_token_ids s) (row_num_tokens s) (num_tokens_no_spec s) (row_num_prompt_tokens
    s) (num_computed_tokens_cpu s) (request_lora_mapping s) x (draw_cpu s) (num_accepted_tokens_cpu s).
Definition set_draw_cpu (x : DrawRow) (s : Row) : Row :=
  mkRow (token_ids_cpu s) (is_token_ids s) (row_num_tokens s) (num_tokens_no_spec s) (row_num_prompt_tokens
    s) (num_computed_tokens_cpu s) (request_lora_mapping s) (logits_processing_needs_token_ids s) x
    (num_accepted_tokens_cpu s).
Definition set_num_accepted_tokens_cpu (x : Z) (s : Row) : Row :=
  mkRow (token_ids_cpu s) (is_token_ids s) (row_num_tokens s) (num_tokens_no_spec s) (row_num_prompt_tokens
    s) (num_computed_tokens_cpu s) (request_lora_mapping s) (logits_processing_needs_token_ids s) (draw_cpu
    s) x.
Record BatchConfig := mkBatchConfig {
  max_num_reqs : Z;
  batch_max_model_len : Z;
  vocab_size : Z;
  is_pooling_model : bool;
  is_spec_decode : bool;
  logitsprocs_need_output_token_ids : bool
}.

(** The requests with a parameter that is not its default. *)
Record Marks := mkMarks {
  greedy_reqs : gset string;
  random_reqs : gset string;
  top_p_reqs : gset string;
  top_k_reqs : gset string;
  spec_decode_unsupported_reqs : gset string;
  frequency_penalties_reqs : gset string;
  presence_penalties_reqs : gset string;
  repetition_penalties_reqs : gset string;
  has_allowed_token_ids : gset string
}.
Definition set_greedy_reqs (x : gset string) (s : Marks) : Marks :=
  mkMarks x (random_reqs s) (top_p_reqs s) (top_k_reqs s) (spec_decode_unsupported_reqs s)
    (frequency_penalties_reqs s) (presence_penalties_reqs s) (repetition_penalties_reqs s)
    (has_allowed_token_ids s).
Definition set_random_reqs (x : gset string) (s : Marks) : Marks :=
  mkMarks (greedy_reqs s) x (top_p_reqs s) (top_k_reqs s) (spec_decode_unsupported_reqs s)
    (frequency_penalties_reqs s) (presence_penalties_reqs s) (repetition_penalties_reqs s)
    (has_allowed_token_ids s).
Definition set_top_p_reqs (x : gset string) (s : Marks) : Marks :=
  mkMarks (greedy_reqs s) (random_reqs s) x (top_k_reqs s) (spec_decode_unsupported_reqs s)
    (frequency_penalties_reqs s) (presence_penalties_reqs s) (repetition_penalties_reqs s)
    (has_allowed_token_ids s).
Definition set_top_k_reqs (x : gset string) (s : Marks) : Marks :=
  mkMarks (greedy_reqs s) (random_reqs s) (top_p_reqs s) x (spec_decode_unsupported_reqs s)
    (frequency_penalties_reqs s) (presence_penalties_reqs s) (repetition_penalties_reqs s)
    (has_allowed_token_ids s).
Definition set_spec_decode_unsupported_reqs (x : gset string) (s : Marks) : Marks :=
  mkMarks (greedy_reqs s) (random_reqs s) (top_p_reqs s) (top_k_reqs s) x (frequency_penalties_reqs s)
    (presence_penalties_reqs s) (repetition_penalties_reqs s) (has_allowed_token_ids s).
Definition set_frequency_penalties_reqs (x : gset string) (s : Marks) : Marks :=
  mkMarks (greedy_reqs s) (random_reqs s) (top_p_reqs s) (top_k_reqs s) (spec_decode_unsupported_reqs s) x
    (presence_penalties_reqs s) (repetition_penalties_reqs s) (has_allowed_token_ids s).
Definition set_presence_penalties_reqs (x : gset string) (s : Marks) : Marks :=
  mkMarks (greedy_reqs s) (random_reqs s) (top_p_reqs s) (top_k_reqs s) (spec_decode_unsupported_reqs s)
    (frequency_penalties_reqs s) x (repetition_penalties_reqs s) (has_allowed_token_ids s).
Definition set_repetition_penalties_reqs (x : gset string) (s : Marks) : Marks :=
  mkMarks (greedy_reqs s) (random_reqs s) (top_p_reqs s) (top_k_reqs s) (spec_decode_unsupported_reqs s)
    (frequency_penalties_reqs s) (presence_penalties_reqs s) x (has_allowed_token_ids s).
Definition set_has_allowed_token_ids (x : gset string) (s : Marks) : Marks :=
  mkMarks (greedy_reqs s) (random_reqs s) (top_p_reqs s) (top_k_reqs s) (spec_decode_unsupported_reqs s)
    (frequency_penalties_reqs s) (presence_penalties_reqs s) (repetition_penalties_reqs s) x.
(** What the sampler is given. [md_output_token_ids] says whether it has the batch's live
    list of output lists or an empty one; generators, bad words and draft tokens are the
    live objects of the batch. The penalties are read only if some request has one. *)
Record SamplingMetadata := mkMetadata {
  md_temperature : option (list Q);
  md_all_greedy : bool;
  md_all_random : bool;
  md_top_p : option (list Q);
  md_top_k : option (list Z);
  md_max_num_logprobs : option Z;
  md_prompt_token_ids : option (list (list Z));
  md_penalties : option (list (Q * Q * Q));
  md_output_token_ids : bool;
  md_allowed_token_ids_mask : option (list (list bool))
}.

Record InputBatch := mkBatch {
  config : BatchConfig;
  req_ids_ : list (option string);
  req_id_to_index : gmap string nat;
  rows : list Row;
  batch_block_table : list BlockTable;
  req_prompt_embeds : gmap nat (list bytes);
  marks : Marks;
  lora_id_to_request_ids : gmap Z (gset string);
  lora_id_to_lora_request : gmap Z LoRARequest;
  generators : gmap nat Z;
  num_logprobs : gmap string Z;
  in_progress_prompt_logprobs_cpu : gmap string Z;
  batch_update_builder : BatchUpdateBuilder;
  allowed_token_ids_mask_cpu_tensor : option (list (list bool));
  bad_words : gmap nat (list (list Z));
  req_output_token_ids : list (option nat);
  batch_spec_token_ids : list (list Z);
  sampling_metadata : SamplingMetadata;
  batch_pooling_params : gmap string PoolingParams;
  prev_req_id_to_index : option (gmap string nat)
}.
Definition set_config (x : BatchConfig) (s : InputBatch) : InputBatch :=
  mkBatch x (req_ids_ s) (req_id_to_index s) (rows s) (batch_block_table s) (req_prompt_embeds s) (marks s)
    (lora_id_to_request_ids s) (lora_id_to_lora_request s) (generators s) (num_logprobs s)
    (in_progress_prompt_logprobs_cpu s) (batch_update_builder s) (allowed_token_ids_mask_cpu_tensor s)
    (bad_words s) (req_output_token_ids s) (batch_spec_token_ids s) (sampling_metadata s)
    (batch_pooling_params s) (prev_req_id_to_index s).
Definition set_req_ids_ (x : list (option string)) (s : InputBatch) : InputBatch :=
  mkBatch (config s) x (req_id_to_index s) (rows s) (batch_block_table s) (req_prompt_embeds s) (marks s)
    (lora_id_to_request_ids s) (lora_id_to_lora_request s) (generators s) (num_logprobs s)
    (in_progress_prompt_logprobs_cpu s) (batch_update_builder s) (allowed_token_ids_mask_cpu_tensor s)
    (bad_words s) (req_output_token_ids s) (batch_spec_token_ids s) (sampling_metadata s)
    (batch_pooling_params s) (prev_req_id_to_index s).
Definition set_req_id_to_index (x : gmap string nat) (s : InputBatch) : InputBatch :=
  mkBatch (config s) (req_ids_ s) x (rows s) (batch_block_table s) (req_prompt_embeds s) (marks s)
    (lora_id_to_request_ids s) (lora_id_to_lora_request s) (generators s) (num_logprobs s)
    (in_progress_prompt_logprobs_cpu s) (batch_update_builder s) (allowed_token_ids_mask_cpu_tensor s)
    (bad_words s) (req_output_token_ids s) (batch_spec_token_ids s) (sampling_metadata s)
    (batch_pooling_params s) (prev_req_id_to_index s).
Definition set_rows (x : list Row) (s : InputBatch) : InputBatch :=
  mkBatch (config s) (req_ids_ s) (req_id_to_index s) x (batch_block_table s) (req_prompt_embeds s) (marks s)
    (lora_id_to_request_ids s) (lora_id_to_lora_request s) (generators s) (num_logprobs s)
    (in_progress_prompt_logprobs_cpu s) (batch_update_builder s) (allowed_token_ids_mask_cpu_tensor s)
    (bad_words s) (req_output_token_ids s) (batch_spec_token_ids s) (sampling_metadata s)
    (batch_pooling_params s) (prev_req_id_to_index s).
Definition set_batch_block_table (x : list BlockTable) (s : InputBatch) : InputBatch :=
  mkBatch (config s) (req_ids_ s) (req_id_to_index s) (rows s) x (req_prompt_embeds s) (marks s)
    (lora_id_to_request_ids s) (lora_id_to_lora_request s) (generators s) (num_logprobs s)
    (in_progress_prompt_logprobs_cpu s) (batch_update_builder s) (allowed_token_ids_mask_cpu_tensor s)
    (bad_words s) (req_output_token_ids s) (batch_spec_token_ids s) (sampling_metadata s)
    (batch_pooling_params s) (prev_req_id_to_index s).
Definition set_req_prompt_embeds (x : gmap nat (list bytes)) (s : InputBatch) : InputBatch :=
  mkBatch (config s) (req_ids_ s) (req_id_to_index s) (rows s) (batch_block_table s) x (marks s)
    (lora_id_to_request_ids s) (lora_id_to_lora_request s) (generators s) (num_logprobs s)
    (in_progress_prompt_logprobs_cpu s) (batch_update_builder s) (allowed_token_ids_mask_cpu_tensor s)
    (bad_words s) (req_output_token_ids s) (batch_spec_token_ids s) (sampling_metadata s)
    (batch_pooling_params s) (prev_req_id_to_index s).
Definition set_marks (x : Marks) (s : InputBatch) : InputBatch :=
  mkBatch (config s) (req_ids_ s) (req_id_to_index s) (rows s) (batch_block_table s) (req_prompt_embeds s) x
    (lora_id_to_request_ids s) (lora_id_to_lora_request s) (generators s) (num_logprobs s)
    (in_progress_prompt_logprobs_cpu s) (batch_update_builder s) (allowed_token_ids_mask_cpu_tensor s)
    (bad_words s) (req_output_token_ids s) (batch_spec_token_ids s) (sampling_metadata s)
    (batch_pooling_params s) (prev_req_id_to_index s).
Definition set_lora_id_to_request_ids (x : gmap Z (gset string)) (s : InputBatch) : InputBatch :=
  mkBatch (config s) (req_ids_ s) (req_id_to_index s) (rows s) (batch_block_table s) (req_prompt_embeds s)
    (marks s) x (lora_id_to_lora_request s) (generators s) (num_logprobs s) (in_progress_prompt_logprobs_cpu
    s) (batch_update_builder s) (allowed_token_ids_mask_cpu_tensor s) (bad_words s) (req_output_token_ids s)
    (batch_spec_token_ids s) (sampling_metadata s) (batch_pooling_params s) (prev_req_id_to_index s).
Definition set_lora_id_to_lora_request (x : gmap Z LoRARequest) (s : InputBatch) : InputBatch :=
  mkBatch (config s) (req_ids_ s) (req_id_to_index s) (rows s) (batch_block_table s) (req_prompt_embeds s)
    (marks s) (lora_id_to_request_ids s) x (generators s) (num_logprobs s) (in_progress_prompt_logprobs_cpu
    s) (batch_update_builder s) (allowed_token_ids_mask_cpu_tensor s) (bad_words s) (req_output_token_ids s)
    (batch_spec_token_ids s) (sampling_metadata s) (batch_pooling_params s) (prev_req_id_to_index s).
Definition set_generators (x : gmap nat Z) (s : InputBatch) : InputBatch :=
  mkBatch (config s) (req_ids_ s) (req_id_to_index s) (rows s) (batch_block_table s) (req_prompt_embeds s)
    (marks s) (lora_id_to_request_ids s) (lora_id_to_lora_request s) x (num_logprobs s)
    (in_progress_prompt_logprobs_cpu s) (batch_update_builder s) (allowed_token_ids_mask_cpu_tensor s)
    (bad_words s) (req_output_token_ids s) (batch_spec_token_ids s) (sampling_metadata s)
    (batch_pooling_params s) (prev_req_id_to_index s).
Definition set_num_logprobs (x : gmap string Z) (s : InputBatch) : InputBatch :=
  mkBatch (config s) (req_ids_ s) (req_id_to_index s) (rows s) (batch_block_table s) (req_prompt_embeds s)
    (marks s) (lora_id_to_request_ids s) (lora_id_to_lora_request s) (generators s) x
    (in_progress_prompt_logprobs_cpu s) (batch_update_builder s) (allowed_token_ids_mask_cpu_tensor s)
    (bad_words s) (req_output_token_ids s) (batch_spec_token_ids s) (sampling_metadata s)
    (batch_pooling_params s) (prev_req_id_to_index s).
Definition set_in_progress_prompt_logprobs_cpu (x : gmap string Z) (s : InputBatch) : InputBatch :=
  mkBatch (config s) (req_ids_ s) (req_id_to_index s) (rows s) (batch_block_table s) (req_prompt_embeds s)
    (marks s) (lora_id_to_request_ids s) (lora_id_to_lora_request s) (generators s) (num_logprobs s) x
    (batch_update_builder s) (allowed_token_ids_mask_cpu_tensor s) (bad_words s) (req_output_token_ids s)
    (batch_spec_token_ids s) (sampling_metadata s) (batch_pooling_params s) (prev_req_id_to_index s).
Definition set_batch_update_builder (x : BatchUpdateBuilder) (s : InputBatch) : InputBatch :=
  mkBatch (config s) (req_ids_ s) (req_id_to_index s) (rows s) (batch_block_table s) (req_prompt_embeds s)
    (marks s) (lora_id_to_request_ids s) (lora_id_to_lora_request s) (generators s) (num_logprobs s)
    (in_progress_prompt_logprobs_cpu s) x (allowed_token_ids_mask_cpu_tensor s) (bad_words s)
    (req_output_token_ids s) (batch_spec_token_ids s) (sampling_metadata s) (batch_pooling_params s)
    (prev_req_id_to_index s).
Definition set_allowed_token_ids_mask_cpu_tensor (x : option (list (list bool))) (s : InputBatch) : InputBatch :=
  mkBatch (config s) (req_ids_ s) (req_id_to_index s) (rows s) (batch_block_table s) (req_prompt_embeds s)
    (marks s) (lora_id_to_request_ids s) (lora_id_to_lora_request s) (generators s) (num_logprobs s)
    (in_progress_prompt_logprobs_cpu s) (batch_update_builder s) x (bad_words s) (req_output_token_ids s)
    (batch_spec_token_ids s) (sampling_metadata s) (batch_pooling_params s) (prev_req_id_to_index s).
Definition set_bad_words (x : gmap nat (list (list Z))) (s : InputBatch) : InputBatch :=
  mkBatch (config s) (req_ids_ s) (req_id_to_index s) (rows s) (batch_block_table s) (req_prompt_embeds s)
    (marks s) (lora_id_to_request_ids s) (lora_id_to_lora_request s) (generators s) (num_logprobs s)
    (in_progress_prompt_logprobs_cpu s) (batch_update_builder s) (allowed_token_ids_mask_cpu_tensor s) x
    (req_output_token_ids s) (batch_spec_token_ids s) (sampling_metadata s) (batch_pooling_params s)
    (prev_req_id_to_index s).
Definition set_req_output_token_ids (x : list (option nat)) (s : InputBatch) : InputBatch :=
  mkBatch (config s) (req_ids_ s) (req_id_to_index s) (rows s) (batch_block_table s) (req_prompt_embeds s)
    (marks s) (lora_id_to_request_ids s) (lora_id_to_lora_request s) (generators s) (num_logprobs s)
    (in_progress_prompt_logprobs_cpu s) (batch_update_builder s) (allowed_token_ids_mask_cpu_tensor s)
    (bad_words s) x (batch_spec_token_ids s) (sampling_metadata s) (batch_pooling_params s)
    (prev_req_id_to_index s).
Definition set_batch_spec_token_ids (x : list (list Z)) (s : InputBatch) : InputBatch :=
  mkBatch (config s) (req_ids_ s) (req_id_to_index s) (rows s) (batch_block_table s) (req_prompt_embeds s)
    (marks s) (lora_id_to_request_ids s) (lora_id_to_lora_request s) (generators s) (num_logprobs s)
    (in_progress_prompt_logprobs_cpu s) (batch_update_builder s) (allowed_token_ids_mask_cpu_tensor s)
    (bad_words s) (req_output_token_ids s) x (sampling_metadata s) (batch_pooling_params s)
    (prev_req_id_to_index s).
Definition set_sampling_metadata (x : SamplingMetadata) (s : InputBatch) : InputBatch :=
  mkBatch (config s) (req_ids_ s) (req_id_to_index s) (rows s) (batch_block_table s) (req_prompt_embeds s)
    (marks s) (lora_id_to_request_ids s) (lora_id_to_lora_request s) (generators s) (num_logprobs s)
    (in_progress_prompt_logprobs_cpu s) (batch_update_builder s) (allowed_token_ids_mask_cpu_tensor s)
    (bad_words s) (req_output_token_ids s) (batch_spec_token_ids s) x (batch_pooling_params s)
    (prev_req_id_to_index s).
Definition set_batch_pooling_params (x : gmap string PoolingParams) (s : InputBatch) : InputBatch :=
  mkBatch (config s) (req_ids_ s) (req_id_to_index s) (rows s) (batch_block_table s) (req_prompt_embeds s)
    (marks s) (lora_id_to_request_ids s) (lora_id_to_lora_request s) (generators s) (num_logprobs s)
    (in_progress_prompt_logprobs_cpu s) (batch_update_builder s) (allowed_token_ids_mask_cpu_tensor s)
    (bad_words s) (req_output_token_ids s) (batch_spec_token_ids s) (sampling_metadata s) x
    (prev_req_id_to_index s).
Definition set_prev_req_id_to_index (x : option (gmap string nat)) (s : InputBatch) : InputBatch :=
  mkBatch (config s) (req_ids_ s) (req_id_to_index s) (rows s) (batch_block_table s) (req_prompt_embeds s)
    (marks s) (lora_id_to_request_ids s) (lora_id_to_lora_request s) (generators s) (num_logprobs s)
    (in_progress_prompt_logprobs_cpu s) (batch_update_builder s) (allowed_token_ids_mask_cpu_tensor s)
    (bad_words s) (req_output_token_ids s) (batch_spec_token_ids s) (sampling_metadata s)
    (batch_pooling_params s) x.

(** ** Properties of the batch *)

Definition num_reqs (b : InputBatch) : Z := Z.of_nat (size (req_id_to_index b)).
Definition all_greedy (b : InputBatch) : bool := bool_decide (random_reqs (marks b) = ∅).
Definition all_random (b : InputBatch) : bool := bool_decide (greedy_reqs (marks b) = ∅).
Definition no_top_p (b : InputBatch) : bool := bool_decide (top_p_reqs (marks b) = ∅).
Definition no_top_k (b : InputBatch) : bool := bool_decide (top_k_reqs (marks b) = ∅).
Definition no_penalties (b : InputBatch) : bool :=
  bool_decide (presence_penalties_reqs (marks b) = ∅) && bool_decide (frequency_penalties_reqs (marks b) = ∅) &&
  bool_decide (repetition_penalties_reqs (marks b) = ∅).
Definition no_allowed_token_ids (b : InputBatch) : bool := bool_decide (has_allowed_token_ids (marks b) = ∅).
Definition max_num_logprobs (b : InputBatch) : option Z :=
  match map snd (map_to_list (num_logprobs b)) with [] => None | x :: l => Some (foldr Z.max x l) end.

Definition on_builder {A} (m : py BatchUpdateBuilder A) : py InputBatch A :=
  py_zoom batch_update_builder set_batch_update_builder m.
Definition on_block_table {A} (m : py (list BlockTable) A) : py InputBatch A :=
  py_zoom batch_block_table set_batch_block_table m.
Definition on_marks (f : Marks -> Marks) : py InputBatch unit := py_modify (fun b => set_marks (f (marks b)) b).
Definition get_row (i : nat) : py InputBatch Row :=
  let! b := py_get in py_unwrap IndexError (rows b !! i).
Definition put_row (i : nat) (r : Row) : py InputBatch unit := py_modify (fun b => set_rows (<[i := r]> (rows b)) b).
Definition on_row (i : nat) (f : Row -> Row) : py InputBatch unit :=
  let! r := get_row i in put_row i (f r).
(** An assignment to an element of a Python list. *)
Definition list_set {A} (i : nat) (x : A) (l : list A) : option (list A) :=
  if (i <? length l)%nat then Some (<[i := x]> l) else None.

(** ** Adding a request *)

Definition register_add_request (request : CachedRequestState) : py InputBatch nat :=
  let! hole := on_builder pop_removed in
  let! b := py_get in
  let new_req_index := default (Z.to_nat (num_reqs b)) hole in
  do! py_assert (Z.of_nat new_req_index <? max_num_reqs (config b));
  do! on_builder (py_modify (set_batch_changed true));
  do! match sampling_params (cs_args request) with
      | Some sp => on_builder (py_modify (fun u => set_added (added u ++
          [mkAdded new_req_index sp (prompt_token_ids (cs_args request)) (cs_output_token_ids request)]) u))
      | None => py_ret tt
      end;
  py_ret new_req_index.

(** The entries in the Python lists. *)
Definition enter_lists (req_index : nat) (req_id : string) (output : nat) : py InputBatch unit :=
  let! b := py_get in
  if (req_index =? length (req_ids_ b))%nat then
    do! py_modify (set_req_ids_ (req_ids_ b ++ [Some req_id]));
    do! py_modify (set_req_output_token_ids (req_output_token_ids b ++ [Some output]));
    py_modify (set_batch_spec_token_ids (batch_spec_token_ids b ++ [[]]))
  else
    let! ids := py_unwrap IndexError (list_set req_index (Some req_id) (req_ids_ b)) in
    do! py_modify (set_req_ids_ ids);
    let! outs := py_unwrap IndexError (list_set req_index (Some output) (req_output_token_ids b)) in
    do! py_modify (set_req_output_token_ids outs);
    let! specs := py_unwrap IndexError (list_set req_index [] (batch_spec_token_ids b)) in
    py_modify (set_batch_spec_token_ids specs).

(** [length_from_prompt_token_ids_or_embeds] *)
Definition prompt_length (a : RequestArgs) : exn + Z :=
  match prompt_token_ids a, prompt_embeds a with
  | None, None => inl ValueError
  | None, Some e => inr (Z.of_nat (length e))
  | Some p, None => inr (Z.of_nat (length p))
  | Some p, Some e => if negb (length e =? length p)%nat then inl ValueError else inr (Z.of_nat (length p))
  end.

(** The token ids and the counts. *)
Definition enter_tokens (req_index : nat) (request : CachedRequestState) (output : list Z) : py InputBatch unit :=
  let! num_prompt_tokens := py_lift (prompt_length (cs_args request)) in
  do! on_row req_index (set_row_num_prompt_tokens num_prompt_tokens);
  let start_idx := num_prompt_tokens in
  let end_idx := start_idx + Z.of_nat (length output) in
  do! match prompt_token_ids (cs_args request) with
      | Some prompt =>
          let! r := get_row req_index in
          let! toks := py_unwrap ValueError (slice_set 0 num_prompt_tokens prompt (token_ids_cpu r)) in
          do! put_row req_index (set_token_ids_cpu toks r);
          on_row req_index (fun r => set_is_token_ids (slice_fill 0 num_prompt_tokens true (is_token_ids r)) r)
      | None => on_row req_index (fun r => set_is_token_ids (slice_fill 0 num_prompt_tokens false (is_token_ids r)) r)
      end;
  do! match prompt_embeds (cs_args request) with
      | Some e => py_modify (fun b => set_req_prompt_embeds (<[req_index := e]> (req_prompt_embeds b)) b)
      | None => py_ret tt
      end;
  let! r := get_row req_index in
  let! toks := py_unwrap ValueError (slice_set start_idx end_idx output (token_ids_cpu r)) in
  do! put_row req_index (set_token_ids_cpu toks r);
  do! on_row req_index (fun r => set_is_token_ids (slice_fill start_idx end_idx true (is_token_ids r)) r);
  do! on_row req_index (set_row_num_tokens (cs_num_tokens request output));
  do! on_row req_index (set_num_tokens_no_spec (cs_num_tokens request output));
  on_row req_index (set_num_computed_tokens_cpu (cs_num_computed_tokens request)).

(** [temperature < _SAMPLING_EPS] *)
Definition sampling_eps : Q := 1 # 100000.
Definition Qlt_bool (a b : Q) : bool := negb (Qle_bool b a).
Definition is_greedy (d : DrawParams) : bool := Qlt_bool (temperature d) sampling_eps.
Definition is_spec_decode_unsupported (d : DrawParams) : bool :=
  negb (Qeq_bool (frequency_penalty d) 0) || negb (Qeq_bool (presence_penalty d) 0) ||
  negb (Qeq_bool (repetition_penalty d) 1) || Qlt_bool sampling_eps (min_p d) || bool_decide (is_Some (logprobs d)).
(** A parameter that filters the vocabulary. *)
Definition limits_top_k (vocab : Z) (d : DrawParams) : bool := (0 <? top_k d) && (top_k d <? vocab).

Definition mark (c : bool) (req_id : string) (s : gset string) : gset string := if c then {[req_id]} ∪ s else s.
Definition add_marks (cfg : BatchConfig) (req_id : string) (d : DrawParams) (m : Marks) : Marks :=
  mkMarks (mark (is_greedy d) req_id (greedy_reqs m)) (mark (negb (is_greedy d)) req_id (random_reqs m))
    (mark (Qlt_bool (top_p d) 1) req_id (top_p_reqs m)) (mark (limits_top_k (vocab_size cfg) d) req_id (top_k_reqs m))
    (mark (is_spec_decode cfg && is_spec_decode_unsupported d) req_id (spec_decode_unsupported_reqs m))
    (mark (negb (Qeq_bool (frequency_penalty d) 0)) req_id (frequency_penalties_reqs m))
    (mark (negb (Qeq_bool (presence_penalty d) 0)) req_id (presence_penalties_reqs m))
    (mark (negb (Qeq_bool (repetition_penalty d) 1)) req_id (repetition_penalties_reqs m))
    (has_allowed_token_ids m).
Definition draw_row (cfg : BatchConfig) (d : DrawParams) : DrawRow :=
  mkDrawRow (if is_greedy d then 0%Q else temperature d) (top_p d)
    (if limits_top_k (vocab_size cfg) d then top_k d else vocab_size cfg)
    (frequency_penalty d) (presence_penalty d) (repetition_penalty d).

(** [mask[row][ids] = False] *)
Fixpoint unmask (ids : list Z) (row : list bool) : option (list bool) :=
  match ids with
  | [] => Some row
  | t :: ids' =>
      let n := Z.of_nat (length row) in
      if (- n <=? t) && (t <? n) then unmask ids' (<[Z.to_nat (if t <? 0 then t + n else t) := false]> row) else None
  end.
Definition enter_allowed (req_index : nat) (req_id : string) (allowed : list Z) : py InputBatch unit :=
  do! on_marks (fun m => set_has_allowed_token_ids ({[req_id]} ∪ has_allowed_token_ids m) m);
  let! b := py_get in
  let mask := default (replicate (Z.to_nat (max_num_reqs (config b))) (replicate (Z.to_nat (vocab_size (config b))) false))
                (allowed_token_ids_mask_cpu_tensor b) in
  do! py_modify (set_allowed_token_ids_mask_cpu_tensor (Some mask));
  let! mask := py_unwrap IndexError (list_set req_index (replicate (Z.to_nat (vocab_size (config b))) true) mask) in
  do! py_modify (set_allowed_token_ids_mask_cpu_tensor (Some mask));
  let! row := py_unwrap IndexError (unmask allowed (replicate (Z.to_nat (vocab_size (config b))) true)) in
  py_modify (set_allowed_token_ids_mask_cpu_tensor (Some (<[req_index := row]> mask))).

Definition enter_sampling (req_index : nat) (request : CachedRequestState) (d : DrawParams) : py InputBatch unit :=
  let req_id := cs_req_id request in
  let! cfg := py_gets config in
  do! on_marks (add_marks cfg req_id d);
  do! on_row req_index (set_draw_cpu (draw_row cfg d));
  do! match generator request with
      | Some g => py_modify (fun b => set_generators (<[req_index := g]> (generators b)) b)
      | None => py_ret tt
      end;
  do! match logprobs d with
      | Some k => py_modify (fun b => set_num_logprobs (<[req_id := if k =? -1 then vocab_size cfg else k]> (num_logprobs b)) b)
      | None => py_ret tt
      end;
  do! match allowed_token_ids d with
      | Some (t :: allowed) => enter_allowed req_index req_id (t :: allowed)
      | _ => py_ret tt
      end;
  match bad_words_token_ids d with
  | Some (w :: ws) => py_modify (fun b => set_bad_words (<[req_index := w :: ws]> (bad_words b)) b)
  | _ => py_ret tt
  end.

Definition enter_lora (req_index : nat) (request : CachedRequestState) : py InputBatch unit :=
  match lora_request (cs_args request) with
  | Some l =>
      do! py_modify (fun b => set_lora_id_to_request_ids
            (<[lora_int_id l := {[cs_req_id request]} ∪ default ∅ (lora_id_to_request_ids b !! lora_int_id l)]> (lora_id_to_request_ids b)) b);
      do! on_row req_index (set_request_lora_mapping (lora_int_id l));
      py_modify (fun b => set_lora_id_to_lora_request (<[lora_int_id l := l]> (lora_id_to_lora_request b)) b)
  | None => on_row req_index (set_request_lora_mapping 0)
  end.

Definition add_request (request : CachedRequestState) (output : list Z) : py InputBatch nat :=
  let! req_index := register_add_request request in
  do! enter_lists req_index (cs_req_id request) (cs_output_token_ids request);
  do! py_modify (fun b => set_req_id_to_index (<[cs_req_id request := req_index]> (req_id_to_index b)) b);
  do! enter_tokens req_index request output;
  do! on_block_table (mt_add_row (cs_block_ids request) req_index);
  do! match sampling_params (cs_args request), pooling_params (cs_args request) with
      | Some sp, _ => enter_sampling req_index request (sp_draw sp)
      | None, Some pp =>
          do! py_modify (fun b => set_batch_pooling_params (<[cs_req_id request := pp]> (batch_pooling_params b)) b);
          on_row req_index (set_logits_processing_needs_token_ids (requires_token_ids pp))
      | None, None => py_raise NotImplementedError
      end;
  do! on_row req_index (set_num_accepted_tokens_cpu 1);
  do! enter_lora req_index request;
  py_ret req_index.

(** ** Removing a request *)

Definition drop_lora (req_index : nat) (req_id : string) : py InputBatch unit :=
  let! r := get_row req_index in
  let lora_id := request_lora_mapping r in
  if lora_id =? 0 then py_ret tt else
  let! b := py_get in
  let! ids := py_unwrap KeyError (lora_id_to_request_ids b !! lora_id) in
  let ids' := ids ∖ {[req_id]} in
  do! py_modify (set_lora_id_to_request_ids (<[lora_id := ids']> (lora_id_to_request_ids b)));
  do! (if bool_decide (ids' = ∅) then
         do! py_modify (fun b => set_lora_id_to_request_ids (delete lora_id (lora_id_to_request_ids b)) b);
         let! _ := py_unwrap KeyError (lora_id_to_lora_request b !! lora_id) in
         py_modify (fun b => set_lora_id_to_lora_request (delete lora_id (lora_id_to_lora_request b)) b)
       else py_ret tt);
  on_row req_index (set_request_lora_mapping 0).

Definition remove_marks (req_id : string) (m : Marks) : Marks :=
  let drop s := s ∖ {[req_id]} in
  mkMarks (drop (greedy_reqs m)) (drop (random_reqs m)) (drop (top_p_reqs m)) (drop (top_k_reqs m))
    (drop (spec_decode_unsupported_reqs m)) (drop (frequency_penalties_reqs m)) (drop (presence_penalties_reqs m))
    (drop (repetition_penalties_reqs m)) (drop (has_allowed_token_ids m)).
Definition drop_sampling (req_index : nat) (req_id : string) : py InputBatch unit :=
  do! on_marks (remove_marks req_id);
  do! py_modify (fun b => set_generators (delete req_index (generators b)) b);
  do! py_modify (fun b => set_num_logprobs (delete req_id (num_logprobs b)) b);
  do! py_modify (fun b => set_in_progress_prompt_logprobs_cpu (delete req_id (in_progress_prompt_logprobs_cpu b)) b);
  do! py_modify (fun b => set_prev_req_id_to_index (delete req_id <$> prev_req_id_to_index b) b);
  let! b := py_get in
  do! match allowed_token_ids_mask_cpu_tensor b with
      | Some mask =>
          let! row := py_unwrap IndexError (mask !! req_index) in
          py_modify (set_allowed_token_ids_mask_cpu_tensor (Some (<[req_index := map (fun _ => false) row]> mask)))
      | None => py_ret tt
      end;
  py_modify (fun b => set_bad_words (delete req_index (bad_words b)) b).

Definition remove_request (req_id : string) : py InputBatch (option nat) :=
  let! b := py_get in
  match req_id_to_index b !! req_id with
  | None => py_ret None
  | Some req_index =>
      do! py_modify (set_req_id_to_index (delete req_id (req_id_to_index b)));
      do! on_builder (removed_append req_index);
      let! ids := py_unwrap IndexError (list_set req_index None (req_ids_ b)) in
      do! py_modify (set_req_ids_ ids);
      let! outs := py_unwrap IndexError (list_set req_index None (req_output_token_ids b)) in
      do! py_modify (set_req_output_token_ids outs);
      let! specs := py_unwrap IndexError (list_set req_index [] (batch_spec_token_ids b)) in
      do! py_modify (set_batch_spec_token_ids specs);
      do! drop_lora req_index req_id;
      do! (if is_pooling_model (config b)
           then py_modify (fun b => set_batch_pooling_params (delete req_id (batch_pooling_params b)) b)
           else drop_sampling req_index req_id);
      py_ret (Some req_index)
  end.

(** ** Moving rows *)

(** [swap_dict_values] *)
Definition swap_dict_values {A} (i j : nat) (d : gmap nat A) : gmap nat A :=
  partial_alter (fun _ => d !! j) i (partial_alter (fun _ => d !! i) j d).

(** The arrays that [swap_states] exchanges. *)
Definition take_row (src dst : Row) (pooling : bool) : Row :=
  let r := mkRow (token_ids_cpu src) (is_token_ids src) (row_num_tokens src) (num_tokens_no_spec src) (row_num_prompt_tokens src)
             (num_computed_tokens_cpu src) (request_lora_mapping src) (logits_processing_needs_token_ids dst)
             (draw_cpu dst) (num_accepted_tokens_cpu dst) in
  if pooling then r else set_num_accepted_tokens_cpu (num_accepted_tokens_cpu src) (set_draw_cpu (draw_cpu src) r).

(** [t[i1], t[i2] = t[i2], t[i1]] for the rows of a tensor: the right-hand sides are views,
    so that the second is read after the first assignment has been made. *)
Definition swap_views {A} (i1 i2 : nat) (t : list A) : option (list A) :=
  row ← t !! i2; _ ← t !! i1;
  let t := <[i1 := row]> t in
  row ← t !! i1; Some (<[i2 := row]> t).

Definition swap_states (i1 i2 : nat) : py InputBatch unit :=
  let! b := py_get in
  let! old_id_i1 := py_unwrap IndexError (req_ids_ b !! i1) in
  let! old_id_i2 := py_unwrap IndexError (req_ids_ b !! i2) in
  let! ids := py_unwrap IndexError (swap_at i1 i2 (req_ids_ b)) in
  do! py_modify (set_req_ids_ ids);
  let! outs := py_unwrap IndexError (swap_at i1 i2 (req_output_token_ids b)) in
  do! py_modify (set_req_output_token_ids outs);
  let! specs := py_unwrap IndexError (swap_at i1 i2 (batch_spec_token_ids b)) in
  do! py_modify (set_batch_spec_token_ids specs);
  let! id1 := py_unwrap AssertionError old_id_i1 in
  let! id2 := py_unwrap AssertionError old_id_i2 in
  let! n1 := py_unwrap KeyError (req_id_to_index b !! id1) in
  let! n2 := py_unwrap KeyError (req_id_to_index b !! id2) in
  do! py_modify (set_req_id_to_index (<[id2 := n1]> (<[id1 := n2]> (req_id_to_index b))));
  let! r1 := get_row i1 in
  let! r2 := get_row i2 in
  let pooling := is_pooling_model (config b) in
  do! put_row i1 (take_row r2 r1 pooling);
  do! put_row i2 (take_row r1 r2 pooling);
  do! py_modify (fun b => set_req_prompt_embeds (swap_dict_values i1 i2 (req_prompt_embeds b)) b);
  do! on_block_table (mt_swap_row i1 i2);
  if pooling then py_ret tt else
  do! on_builder (py_modify (fun u => set_moved (moved u ++ [(i1, i2, SWAP)]) u));
  do! py_modify (fun b => set_generators (swap_dict_values i1 i2 (generators b)) b);
  do! py_modify (fun b => set_bad_words (swap_dict_values i1 i2 (bad_words b)) b);
  match allowed_token_ids_mask_cpu_tensor b with
  | Some mask => let! mask := py_unwrap IndexError (swap_views i1 i2 mask) in
                 py_modify (set_allowed_token_ids_mask_cpu_tensor (Some mask))
  | None => py_ret tt
  end.

(** [d[to] = d.pop(from)] when [from] is there *)
Definition move_key {A} (from to : nat) (d : gmap nat A) : gmap nat A :=
  match d !! from with Some x => <[to := x]> (delete from d) | None => d end.

(** The arrays of the last request go to an empty row; of the token ids, as many as it has. *)
Definition condense_row (src dst : Row) (pooling : bool) : option Row :=
  let n := row_num_tokens src in
  toks ← slice_set 0 n (take (Z.to_nat n) (token_ids_cpu src)) (token_ids_cpu dst);
  flags ← slice_set 0 n (take (Z.to_nat n) (is_token_ids src)) (is_token_ids dst);
  let r := mkRow toks flags n (num_tokens_no_spec src) (row_num_prompt_tokens src) (num_computed_tokens_cpu src)
             (request_lora_mapping src) (logits_processing_needs_token_ids dst) (draw_cpu dst) (num_accepted_tokens_cpu dst) in
  Some (if pooling then r else set_num_accepted_tokens_cpu (num_accepted_tokens_cpu src) (set_draw_cpu (draw_cpu src) r)).

Definition move_lists (last_req_index empty_index : nat) : py InputBatch unit :=
  let! b := py_get in
  let! id := py_unwrap IndexError (req_ids_ b !! last_req_index) in
  let! output := py_unwrap IndexError (req_output_token_ids b !! last_req_index) in
  let! req_id := py_unwrap AssertionError id in
  do! py_modify (set_req_ids_ (<[last_req_index := None]> (<[empty_index := Some req_id]> (req_ids_ b))));
  do! py_modify (set_req_output_token_ids (<[last_req_index := None]> (<[empty_index := output]> (req_output_token_ids b))));
  do! py_modify (set_req_id_to_index (<[req_id := empty_index]> (req_id_to_index b)));
  let! specs := py_unwrap IndexError (swap_at last_req_index empty_index (batch_spec_token_ids b)) in
  py_modify (set_batch_spec_token_ids (<[last_req_index := []]> specs)).

Definition move_request (last_req_index empty_index : nat) : py InputBatch unit :=
  do! move_lists last_req_index empty_index;
  let! src := get_row last_req_index in
  let! dst := get_row empty_index in
  let! pooling := py_gets (fun b => is_pooling_model (config b)) in
  let! row := py_unwrap ValueError (condense_row src dst pooling) in
  do! put_row empty_index row;
  do! py_modify (fun b => set_req_prompt_embeds (move_key last_req_index empty_index (req_prompt_embeds b)) b);
  do! on_block_table (mt_move_row last_req_index empty_index);
  if (pooling : bool) then py_ret tt else
  do! on_builder (py_modify (fun u => set_moved (moved u ++ [(last_req_index, empty_index, UNIDIRECTIONAL)]) u));
  do! py_modify (fun b => set_generators (move_key last_req_index empty_index (generators b)) b);
  let! b := py_get in
  do! match allowed_token_ids_mask_cpu_tensor b with
      | Some mask =>
          let! row := py_unwrap IndexError (mask !! last_req_index) in
          py_modify (set_allowed_token_ids_mask_cpu_tensor (Some (<[empty_index := row]> mask)))
      | None => py_ret tt
      end;
  py_modify (fun b => set_bad_words (move_key last_req_index empty_index (bad_words b)) b).

(** [while last_req_index in empty_req_indices: last_req_index -= 1] *)
Fixpoint skip_empty (fuel : nat) (empty : list nat) (last_req_index : Z) : py InputBatch Z :=
  if bool_decide (0 <= last_req_index /\ Z.to_nat last_req_index ∈ empty) then
    match fuel with
    | 0%nat => py_raise Diverges
    | S fuel' => skip_empty fuel' empty (last_req_index - 1)
    end
  else py_ret last_req_index.

Fixpoint condense_loop (fuel : nat) (last_req_index : Z) : py InputBatch unit :=
  let! empty_req_indices := on_builder removed in
  match empty_req_indices with
  | [] => py_ret tt
  | _ =>
      match fuel with
      | 0%nat => py_raise Diverges
      | S fuel' =>
          let! last_req_index := skip_empty (length empty_req_indices) empty_req_indices last_req_index in
          let! peeked := on_builder peek_removed in
          let! empty_index := py_unwrap AssertionError peeked in
          if last_req_index <=? Z.of_nat empty_index then py_ret tt else
          do! on_builder pop_removed;
          do! move_request (Z.to_nat last_req_index) empty_index;
          condense_loop fuel' (last_req_index - 1)
      end
  end.

Definition condense : py InputBatch unit :=
  let! n := py_gets num_reqs in
  let! empty_req_indices := on_builder removed in
  match empty_req_indices with
  | [] => py_ret tt
  | _ =>
      if n =? 0 then
        do! py_modify (set_req_ids_ []);
        do! py_modify (set_req_output_token_ids []);
        py_modify (set_batch_spec_token_ids [])
      else
        let k := length empty_req_indices in
        do! condense_loop k (n + Z.of_nat k - 1);
        do! py_modify (fun b => set_req_ids_ (take (Z.to_nat n) (req_ids_ b)) b);
        do! py_modify (fun b => set_req_output_token_ids (take (Z.to_nat n) (req_output_token_ids b)) b);
        py_modify (fun b => set_batch_spec_token_ids (take (Z.to_nat n) (batch_spec_token_ids b)) b)
  end.

(** ** Sampling metadata *)

Definition active_rows (b : InputBatch) : list Row := take (Z.to_nat (num_reqs b)) (rows b).

(** [_make_prompt_token_ids_tensor] *)
Definition make_prompt_token_ids_tensor (b : InputBatch) : exn + list (list Z) :=
  match map row_num_prompt_tokens (active_rows b) with
  | [] => inl ValueError
  | x :: l =>
      let max_prompt_len := foldr Z.max x l in
      inr (map (fun r => slice_fill (row_num_prompt_tokens r) max_prompt_len (vocab_size (config b))
                           (take (Z.to_nat max_prompt_len) (token_ids_cpu r))) (active_rows b))
  end.

Definition make_sampling_metadata (b : InputBatch) : exn + SamplingMetadata :=
  let rs := active_rows b in
  let draws := map draw_cpu rs in
  let needs_prompt_token_ids := negb (no_penalties b) || existsb logits_processing_needs_token_ids rs in
  let needs_output_token_ids := negb (no_penalties b) || bool_decide (bad_words b <> ∅) || logitsprocs_need_output_token_ids (config b) in
  match (if needs_prompt_token_ids then match make_prompt_token_ids_tensor b with inl e => inl e | inr t => inr (Some t) end
         else inr None),
        (if no_allowed_token_ids b then inr None else
           match allowed_token_ids_mask_cpu_tensor b with
           | Some mask => inr (Some (take (Z.to_nat (num_reqs b)) mask))
           | None => inl AssertionError
           end) with
  | inl e, _ => inl e
  | inr _, inl e => inl e
  | inr prompt_token_ids, inr allowed =>
      inr (mkMetadata (if all_greedy b then None else Some (map temperature_cpu draws)) (all_greedy b) (all_random b)
             (if no_top_p b then None else Some (map top_p_cpu draws)) (if no_top_k b then None else Some (map top_k_cpu draws))
             (max_num_logprobs b) prompt_token_ids
             (if no_penalties b then None
              else Some (map (fun d => (frequency_penalties_cpu d, presence_penalties_cpu d, repetition_penalties_cpu d)) draws))
             needs_output_token_ids allowed)
  end.

(** The value is the update that every logits processor is given. *)
Definition refresh_metadata : py InputBatch (option BatchUpdate) :=
  let! b := py_get in
  if is_pooling_model (config b) then
    let! batch_changed := on_builder reset in
    do! (if (batch_changed : bool) then
           let! b := py_get in
           let! md := py_lift (make_sampling_metadata b) in
           py_modify (set_sampling_metadata md)
         else py_ret tt);
    py_ret None
  else
    let! batch_update := on_builder (get_and_reset (num_reqs b)) in
    do! match batch_update with
        | Some _ =>
            let! b := py_get in
            let! md := py_lift (make_sampling_metadata b) in
            py_modify (set_sampling_metadata md)
        | None => py_ret tt
        end;
    py_ret batch_update.

(** ** LoRA inputs and pooling *)

(** [a.repeat(counts)] *)
Definition np_repeat {A} (a : list A) (counts : list Z) : list A :=
  concat (zip_with (fun x n => replicate (Z.to_nat n) x) a counts).
Definition make_lora_inputs (b : InputBatch) (num_scheduled_tokens num_sampled_tokens : list Z)
    : list Z * list Z * list LoRARequest :=
  let req_lora_mapping := map request_lora_mapping (active_rows b) in
  (np_repeat req_lora_mapping num_sampled_tokens, np_repeat req_lora_mapping num_scheduled_tokens,
   map snd (map_to_list (lora_id_to_lora_request b))).

Definition get_pooling_params : py InputBatch (list PoolingParams) :=
  let! b := py_get in
  do! py_assert (length (req_ids_ b) =? size (batch_pooling_params b))%nat;
  py_map (fun o => match o with
                   | Some id => py_unwrap KeyError (batch_pooling_params b !! id)
                   | None => py_raise KeyError
                   end) (req_ids_ b).

(** ** Construction *)

Definition empty_metadata : SamplingMetadata := mkMetadata None true true None None None None None false None.
Definition empty_row (max_len : nat) : Row :=
  mkRow (replicate max_len 0) (replicate max_len false) 0 0 0 0 0 false (mkDrawRow 0 0 0 0 0 0) 1.
(** The contents of [torch.empty] arrays are not read before they are written. *)
Definition input_batch_init (cfg : BatchConfig) (tables : list BlockTable) : InputBatch :=
  mkBatch cfg [] ∅ (replicate (Z.to_nat (max_num_reqs cfg)) (empty_row (Z.to_nat (batch_max_model_len cfg)))) tables ∅
    (mkMarks ∅ ∅ ∅ ∅ ∅ ∅ ∅ ∅ ∅) ∅ ∅ ∅ ∅ ∅ builder_init None ∅ []
    (replicate (Z.to_nat (max_num_reqs cfg)) []) (empty_metadata) ∅ None.
