(* ===== verification/InputBatchProofs.v ===== *)
(** The persistent batch refines a map from request ids to their rows: adding and removing a
    request are insertion and deletion, moving rows changes nothing that is seen. *)
From stdpp Require Import gmap strings list sorting fin_maps.
From Stdlib Require Import ZArith QArith Lia.
From S2P Require Import Prelude Request BlockTable InputBatch.
Open Scope Z_scope.

(** Fields of a state that was written to. *)
Ltac bsimpl :=
  cbn [config req_ids_ req_id_to_index rows batch_block_table req_prompt_embeds marks lora_id_to_request_ids
       lora_id_to_lora_request generators num_logprobs in_progress_prompt_logprobs_cpu batch_update_builder
       allowed_token_ids_mask_cpu_tensor bad_words req_output_token_ids batch_spec_token_ids sampling_metadata
       batch_pooling_params prev_req_id_to_index set_config set_req_ids_ set_req_id_to_index set_rows
       set_batch_block_table set_req_prompt_embeds set_marks set_lora_id_to_request_ids
       set_lora_id_to_lora_request set_generators set_num_logprobs set_in_progress_prompt_logprobs_cpu
       set_batch_update_builder set_allowed_token_ids_mask_cpu_tensor set_bad_words set_req_output_token_ids
       set_batch_spec_token_ids set_sampling_metadata set_batch_pooling_params set_prev_req_id_to_index
       removed_indices is_removed_sorted added moved batch_changed set_removed_indices set_is_removed_sorted
       set_added set_moved set_batch_changed token_ids_cpu is_token_ids row_num_tokens num_tokens_no_spec
       row_num_prompt_tokens num_computed_tokens_cpu request_lora_mapping logits_processing_needs_token_ids
       draw_cpu num_accepted_tokens_cpu set_token_ids_cpu set_is_token_ids set_row_num_tokens
       set_num_tokens_no_spec set_row_num_prompt_tokens set_num_computed_tokens_cpu set_request_lora_mapping
       set_logits_processing_needs_token_ids set_draw_cpu set_num_accepted_tokens_cpu].
Ltac bstep := wp_step; bsimpl.

(** ** The invariant *)

Definition occupied (b : InputBatch) (i : nat) (id : string) : Prop := req_ids_ b !! i = Some (Some id).
Definition holes (b : InputBatch) : list nat := removed_indices (batch_update_builder b).
Definition sorted_flag (b : InputBatch) : bool := is_removed_sorted (batch_update_builder b).

Record row_ok (len : Z) (r : Row) : Prop := {
  ro_tokens : Z.of_nat (length (token_ids_cpu r)) = len;
  ro_flags : Z.of_nat (length (is_token_ids r)) = len;
  ro_prompt : 0 <= row_num_prompt_tokens r;
  ro_no_spec : row_num_prompt_tokens r <= num_tokens_no_spec r;
  ro_num : num_tokens_no_spec r <= row_num_tokens r;
  ro_fits : row_num_tokens r <= len
}.

(** The sets of marked requests. *)
Definition mark_list (m : Marks) : list (gset string) :=
  [greedy_reqs m; random_reqs m; top_p_reqs m; top_k_reqs m; spec_decode_unsupported_reqs m; frequency_penalties_reqs m;
   presence_penalties_reqs m; repetition_penalties_reqs m; has_allowed_token_ids m].
(** The mask of allowed tokens is there when a request has one. *)
Definition mask_ok (n : nat) (b : InputBatch) : Prop :=
  (forall m, allowed_token_ids_mask_cpu_tensor b = Some m -> length m = n) /\
  (has_allowed_token_ids (marks b) <> ∅ -> is_Some (allowed_token_ids_mask_cpu_tensor b)).

Section inv.
(** The number of rows, the number of tokens of a row. *)
Context (n : nat) (len : Z).

(** The lists and the index: an entry is a request or a hole, and the index is the inverse. *)
Record lists_ok (b : InputBatch) : Prop := {
  lo_index : forall id i, req_id_to_index b !! id = Some i <-> occupied b i id;
  lo_holes : forall i, i ∈ holes b <-> req_ids_ b !! i = Some None;
  lo_nodup : NoDup (holes b);
  lo_sorted : sorted_flag b = true -> StronglySorted (flip Nat.le) (holes b);
  lo_cap : (length (req_ids_ b) <= n)%nat;
  lo_outputs : length (req_output_token_ids b) = length (req_ids_ b);
  lo_specs : (length (req_ids_ b) <= length (batch_spec_token_ids b))%nat;
  lo_no_spec : forall i l, batch_spec_token_ids b !! i = Some l -> l <> [] -> exists id, occupied b i id
}.
(** The arrays and the maps keyed by row. *)
Record arrays_ok (b : InputBatch) : Prop := {
  ao_rows : length (rows b) = n;
  ao_row : Forall (row_ok len) (rows b);
  ao_tables : Forall (table_ok n) (batch_block_table b);
  ao_generators : forall i g, generators b !! i = Some g -> exists id, occupied b i id;
  ao_bad_words : forall i w, bad_words b !! i = Some w -> exists id, occupied b i id;
  ao_mask : mask_ok n b;
  ao_pooling : is_pooling_model (config b) = true ->
    generators b = ∅ /\ bad_words b = ∅ /\ num_logprobs b = ∅ /\ forall s, s ∈ mark_list (marks b) -> s = ∅
}.
(** The maps keyed by request or adapter. *)
Record keys_ok (b : InputBatch) : Prop := {
  ko_logprobs : forall id x, num_logprobs b !! id = Some x -> is_Some (req_id_to_index b !! id);
  ko_lora : forall i id r, occupied b i id -> rows b !! i = Some r -> request_lora_mapping r <> 0 ->
    exists ids, lora_id_to_request_ids b !! request_lora_mapping r = Some ids /\ id ∈ ids;
  ko_lora_dom : dom (lora_id_to_request_ids b) = dom (lora_id_to_lora_request b);
  ko_marks : forall s id, s ∈ mark_list (marks b) -> id ∈ s -> is_Some (req_id_to_index b !! id);
  ko_pooling : forall id p, batch_pooling_params b !! id = Some p -> is_Some (req_id_to_index b !! id);
  ko_sampled : is_pooling_model (config b) = false -> batch_pooling_params b = ∅
}.
Definition batch_inv (b : InputBatch) : Prop :=
  max_num_reqs (config b) = Z.of_nat n /\ lists_ok b /\ arrays_ok b /\ keys_ok b.
End inv.

(** ** What is seen of a row *)

Definition marks_of (id : string) (m : Marks) : list bool := map (fun s => bool_decide (id ∈ s)) (mark_list m).

(** A token where the row has one, nothing where it has an embedding. *)
Definition known_tokens (toks : list Z) (flags : list bool) : list (option Z) :=
  zip_with (fun t f => if (f : bool) then Some t else None) toks flags.
Record RowView := mkRowView {
  v_tokens : list (option Z);
  v_draft : list Z;
  v_num_prompt : Z;
  v_num_computed : Z;
  v_lora : Z
}.
Definition row_view (r : Row) : RowView :=
  let k := Z.to_nat (num_tokens_no_spec r) in
  mkRowView (known_tokens (take k (token_ids_cpu r)) (take k (is_token_ids r)))
    (drop k (take (Z.to_nat (row_num_tokens r)) (token_ids_cpu r)))
    (row_num_prompt_tokens r) (num_computed_tokens_cpu r) (request_lora_mapping r).

(** What the worker's operations keep of a request when its row moves: tokens, drafts,
    counters and the LoRA of its row, its blocks, its lists of output and draft tokens, and its
    sampling state, which a pooling model does not have. Prompt embeddings are followed by
    [embeds_of]. Not followed are the row of the allowed-token mask and the row of
    [logits_processing_needs_token_ids]: the source does not keep them when rows are
    exchanged (one row of the mask overwrites the other, and the flag stays where it is). *)
Record View := mkView {
  v_row : option RowView;
  v_blocks : list (option (list Z));
  v_output : option nat;
  v_spec : list Z;
  v_draw : option (DrawRow * Z);
  v_generator : option Z;
  v_bad_words : option (list (list Z));
  v_logprobs : option Z;
  v_marks : list bool;
  v_pooling : option PoolingParams
}.
Definition view (b : InputBatch) (i : nat) (id : string) : View :=
  let sampled := negb (is_pooling_model (config b)) in
  mkView (row_view <$> rows b !! i) (map (fun t => row_blocks t i) (batch_block_table b))
    (default None (req_output_token_ids b !! i)) (default [] (batch_spec_token_ids b !! i))
    (if sampled then (fun r => (draw_cpu r, num_accepted_tokens_cpu r)) <$> rows b !! i else None)
    (if sampled then generators b !! i else None) (if sampled then bad_words b !! i else None)
    (if sampled then num_logprobs b !! id else None) (if sampled then marks_of id (marks b) else [])
    (batch_pooling_params b !! id).
(** The batch as a map. *)
Definition seen (b : InputBatch) (id : string) : option View := (fun i => view b i id) <$> req_id_to_index b !! id.

(** The prompt embeddings of a request. *)
Definition embeds_of (b : InputBatch) (id : string) : option (option (list bytes)) :=
  (fun i => req_prompt_embeds b !! i) <$> req_id_to_index b !! id.
(** What an exchange of rows keeps beside the views: everybody's prompt embeddings, and that
    no request restricts the tokens it allows. *)
Definition rest_kept (b b' : InputBatch) : Prop :=
  (forall x, embeds_of b' x = embeds_of b x) /\
  (allowed_token_ids_mask_cpu_tensor b = None -> allowed_token_ids_mask_cpu_tensor b' = None).

(** ** The builder *)

#[local] Instance ge_trans : Transitive (flip Nat.le).
Proof. intros x y z ??. unfold flip in *. lia. Qed.
#[local] Instance ge_total : Total (flip Nat.le).
Proof. intros x y. unfold flip. lia. Qed.

(** The state after sorting, whatever the flag was. *)
Lemma ensure_sorted u : (is_removed_sorted u = true -> StronglySorted (flip Nat.le) (removed_indices u)) ->
  exists l, ensure_removed_sorted u = Ret tt (set_is_removed_sorted true (set_removed_indices l u)) /\
    l ≡ₚ removed_indices u /\ StronglySorted (flip Nat.le) l.
Proof.
  intros H. unfold ensure_removed_sorted, py_modify. destruct (is_removed_sorted u) eqn:E.
  - exists (removed_indices u). split_and!; [|done|by apply H]. destruct u. simpl in *. by subst.
  - eexists. split; [done|]. split; [apply merge_sort_Permutation|by apply (StronglySorted_merge_sort _)].
Qed.
Lemma has_removed_spec u : has_removed u = true <-> removed_indices u <> [].
Proof. unfold has_removed. by destruct (removed_indices u). Qed.

(** [peek_removed] and [pop_removed] give the least index. *)
Lemma StronglySorted_snoc_inv {A} (R : A -> A -> Prop) l x : StronglySorted R (l ++ [x]) -> StronglySorted R l /\ Forall (fun y => R y x) l.
Proof.
  induction l as [|y l IH]; simpl; intros H; [by split; constructor|]. inversion H as [|? ? H1 H2]; subst.
  apply Forall_app in H2 as [H2 H3]. rewrite Forall_singleton in H3. destruct (IH H1). split; constructor; done.
Qed.
Lemma builder_pop_spec u : (is_removed_sorted u = true -> StronglySorted (flip Nat.le) (removed_indices u)) ->
  match removed_indices u with
  | [] => pop_removed u = Ret None u
  | _ => exists l i, pop_removed u = Ret (Some i) (set_removed_indices l (set_is_removed_sorted true u)) /\
           l ++ [i] ≡ₚ removed_indices u /\ StronglySorted (flip Nat.le) l /\ Forall (fun j => (i <= j)%nat) l
  end.
Proof.
  intros H. unfold pop_removed, py_bind, py_get. pose proof (has_removed_spec u) as Hh.
  destruct (removed_indices u) as [|x l0] eqn:El; [destruct (has_removed u); [|done]; by destruct (proj1 Hh)|].
  rewrite <-El in *. rewrite (proj2 Hh) by congruence. destruct (ensure_sorted u H) as (l & -> & Hp & Hs).
  unfold py_gets. cbn [removed_indices set_is_removed_sorted set_removed_indices].
  destruct l as [|i l _] using rev_ind; [apply Permutation_nil_l in Hp; congruence|].
  rewrite last_snoc, removelast_last. unfold py_modify, py_ret. eexists l, i. split; [done|].
  split; [done|]. exact (StronglySorted_snoc_inv _ _ _ Hs).
Qed.

(** ** Counting *)

Definition is_none {A} (o : option A) : bool := match o with None => true | Some _ => false end.
Lemma lists_count n b : lists_ok n b -> (size (req_id_to_index b) + length (holes b) = length (req_ids_ b))%nat.
Proof.
  intros H. set (ids := omap id (req_ids_ b)).
  assert (forall id, id ∈ ids <-> exists i, occupied b i id) as Hids.
  { intros x. unfold ids. rewrite list_elem_of_omap. split.
    - intros (o & Ho & Eo). unfold id in Eo. subst o. apply list_elem_of_lookup in Ho as [i Hi]. by exists i.
    - intros [i Hi]. exists (Some x). split; [|done]. by eapply list_elem_of_lookup_2. }
  assert (forall l : list (option string), (length (omap id l) + length (List.filter is_none l) = length l)%nat) as Hlen.
  { induction l as [|[x|] l IH]; unfold omap in *; simpl in *; lia. }
  assert (NoDup ids) as Hnd.
  { assert (forall l : list (option string), (forall i j x, l !! i = Some (Some x) -> l !! j = Some (Some x) -> i = j) -> NoDup (omap id l)) as G.
    { induction l as [|[x|] l IH]; intros G; simpl; [constructor| |].
      - constructor; [|apply IH; intros i j y ??; assert (S i = S j) by (by apply (G _ _ y)); lia].
        intros (o & Ho & Eo)%list_elem_of_omap. unfold id in Eo. subst o. apply list_elem_of_lookup in Ho as [j Hj].
        assert (0%nat = S j) by (by apply (G _ _ x)). lia.
      - apply IH. intros i j y ??. assert (S i = S j) by (by apply (G _ _ y)). lia. }
    apply G. intros i j x Hi Hj. apply (lo_index n b H) in Hi, Hj. congruence. }
  rewrite <-(Hlen (req_ids_ b)). fold ids. f_equal.
  - rewrite <-(size_dom (D := gset string)). rewrite <-(size_list_to_set (C := gset string) ids) by done. f_equal. apply set_eq. intros x.
    rewrite elem_of_dom, elem_of_list_to_set, Hids. split.
    + intros [i Hi]. exists i. by apply (lo_index n b H).
    + intros [i Hi]. exists i. by apply (lo_index n b H).
  - assert (forall (l : list (option string)) k, List.filter (fun i => bool_decide (l !! (i - k)%nat = Some None)) (seq k (length l)) =
        map fst (List.filter (fun e => is_none e.2) (zip (seq k (length l)) l)) /\
        length (List.filter is_none l) = length (List.filter (fun e => is_none e.2) (zip (seq k (length l)) l))) as G.
    { induction l as [|o l IH]; intros k; [done|]. destruct (IH (S k)) as [IH1 IH2]. simpl. rewrite Nat.sub_diag. simpl. split.
      - assert (List.filter (fun i => bool_decide ((o :: l) !! (i - k)%nat = Some None)) (seq (S k) (length l)) =
                List.filter (fun i => bool_decide (l !! (i - S k)%nat = Some None)) (seq (S k) (length l))) as ->.
        { apply filter_ext_in. intros i Hi%in_seq. replace (i - k)%nat with (S (i - S k)) by lia. done. }
        rewrite IH1. destruct o; done.
      - destruct o; simpl; congruence. }
    destruct (G (req_ids_ b) 0%nat) as [G1 G2]. rewrite G2, <-(length_map fst), <-G1.
    apply Permutation_length. apply NoDup_Permutation; [apply (lo_nodup n b H)|apply NoDup_ListNoDup, List.NoDup_filter, seq_NoDup|].
    intros i. rewrite (lo_holes n b H i), list_elem_of_In, List.filter_In, in_seq, bool_decide_eq_true, Nat.sub_0_r. split; [|tauto].
    intros Hi. split; [|done]. apply lookup_lt_Some in Hi. lia.
Qed.
Lemma num_reqs_lists n b : lists_ok n b -> num_reqs b = Z.of_nat (length (req_ids_ b)) - Z.of_nat (length (holes b)).
Proof. intros H. unfold num_reqs. pose proof (lists_count n b H). lia. Qed.

(** ** Removal *)

Lemma occupied_inj n b i j id : lists_ok n b -> occupied b i id -> occupied b j id -> i = j.
Proof. intros H Hi Hj. apply (lo_index n b H) in Hi, Hj. congruence. Qed.
Lemma list_set_some {A} i (x : A) l : (i < length l)%nat -> list_set i x l = Some (<[i := x]> l).
Proof. intros H. unfold list_set. by rewrite (proj2 (Nat.ltb_lt _ _)). Qed.
Lemma wp_on_row (i : nat) (f : Row -> Row) r Q b : rows b !! i = Some r ->
  Q tt (set_rows (<[i := f r]> (rows b)) b) -> wp (on_row i f) Q b.
Proof. intros Hr HQ. unfold on_row, get_row, put_row. wp_step. wp_step. wp_step. rewrite Hr. wp_step. by wp_step. Qed.

Lemma marks_of_remove id id' m : id' <> id -> marks_of id' (remove_marks id m) = marks_of id' m.
Proof.
  intros Hne. unfold marks_of. simpl. repeat (f_equal; [apply bool_decide_ext; set_solver|]). f_equal. apply bool_decide_ext. set_solver.
Qed.

Lemma mark_removed id m s x : s ∈ mark_list (remove_marks id m) -> x ∈ s -> x <> id /\ exists s', s' ∈ mark_list m /\ x ∈ s'.
Proof.
  intros Hs Hx. unfold mark_list in *. simpl in Hs. repeat (apply elem_of_cons in Hs as [->|Hs]; [|]); [..|by apply not_elem_of_nil in Hs].
  all: apply elem_of_difference in Hx as [Hx Hne]; split; [set_solver|]; eexists; split; [|exact Hx]; set_solver.
Qed.

(** What removing a request from the adapters' maps leaves for the others. *)
Definition lora_kept (id : string) (old new : gmap Z (gset string)) : Prop :=
  forall l ids id', old !! l = Some ids -> id' ∈ ids -> id' <> id -> exists ids', new !! l = Some ids' /\ id' ∈ ids'.

Lemma drop_lora_spec b i id r : rows b !! i = Some r ->
  (request_lora_mapping r <> 0 -> exists ids, lora_id_to_request_ids b !! request_lora_mapping r = Some ids /\ id ∈ ids) ->
  dom (lora_id_to_request_ids b) = dom (lora_id_to_lora_request b) ->
  wp (drop_lora i id) (fun _ b' => exists l1 l2, dom l1 = dom l2 /\ lora_kept id (lora_id_to_request_ids b) l1 /\
    b' = set_lora_id_to_request_ids l1 (set_lora_id_to_lora_request l2
           (set_rows (<[i := set_request_lora_mapping 0 r]> (rows b)) b))) b.
Proof.
  intros Hr Hlora Hdom. unfold drop_lora. wp_step. unfold get_row. wp_step. wp_step. rewrite Hr. wp_step.
  destruct (request_lora_mapping r =? 0) eqn:E.
  - apply Z.eqb_eq in E. wp_step. exists (lora_id_to_request_ids b), (lora_id_to_lora_request b).
    split; [done|]. split; [intros l ids id'; eauto|].
    rewrite list_insert_id; [by destruct b|]. rewrite Hr. destruct r. simpl in *. by subst.
  - apply Z.eqb_neq in E. destruct (Hlora E) as (ids & Hids & Hin). set (l := request_lora_mapping r) in *.
    assert (is_Some (lora_id_to_lora_request b !! l)) as [lr Hlr].
    { apply (elem_of_dom (D := gset Z)). rewrite <-Hdom. apply elem_of_dom. by eexists. }
    assert (forall m : gmap Z (gset string), (forall k, k <> l -> m !! k = lora_id_to_request_ids b !! k) ->
        (m !! l = Some (ids ∖ {[id]}) \/ ids ∖ {[id]} = ∅) -> lora_kept id (lora_id_to_request_ids b) m) as Hkeep.
    { intros m Hm Hl k ids0 id' Hk0 Hid' Hne. destruct (decide (k = l)) as [->|Hkl]; [|rewrite Hm by done; eauto].
      rewrite Hids in Hk0. injection Hk0 as <-. destruct Hl as [Hl|Hl]; [rewrite Hl; eexists; split; [done|]|]; set_solver. }
    wp_step. wp_step. rewrite Hids. wp_step. wp_step. wp_step. wp_step. case_bool_decide as Ee.
    + wp_step. wp_step. wp_step. rewrite Hlr. wp_step. wp_step. eapply wp_on_row; [exact Hr|].
      exists (delete l (<[l := ids ∖ {[id]}]> (lora_id_to_request_ids b))), (delete l (lora_id_to_lora_request b)).
      split_and!; [|apply Hkeep|by destruct b].
      * rewrite !dom_delete_L, dom_insert_L, Hdom. set_solver.
      * intros k Hk'. by rewrite lookup_delete_ne, lookup_insert_ne by done.
      * by right.
    + wp_step. eapply wp_on_row; [exact Hr|].
      exists (<[l := ids ∖ {[id]}]> (lora_id_to_request_ids b)), (lora_id_to_lora_request b).
      split_and!; [|apply Hkeep|by destruct b].
      * rewrite dom_insert_L, Hdom. apply elem_of_dom_2 in Hlr. set_solver.
      * intros k Hk'. by rewrite lookup_insert_ne by done.
      * left. apply lookup_insert_eq.
Qed.
Lemma drop_sampling_spec n b i id : (forall m, allowed_token_ids_mask_cpu_tensor b = Some m -> length m = n) -> (i < n)%nat ->
  wp (drop_sampling i id) (fun _ b' => exists m p q, (forall m', m = Some m' -> length m' = n) /\ (is_Some (allowed_token_ids_mask_cpu_tensor b) -> is_Some m) /\
    b' = set_marks (remove_marks id (marks b)) (set_generators (delete i (generators b)) (set_num_logprobs (delete id (num_logprobs b))
           (set_bad_words (delete i (bad_words b)) (set_allowed_token_ids_mask_cpu_tensor m (set_prev_req_id_to_index p
              (set_in_progress_prompt_logprobs_cpu q b))))))) b.
Proof.
  intros Hm Hi. unfold drop_sampling, on_marks. do 12 bstep.
  destruct (allowed_token_ids_mask_cpu_tensor b) as [mask|] eqn:E.
  - specialize (Hm mask eq_refl). destruct (lookup_lt_is_Some_2 mask i) as [row Hrow]; [lia|].
    repeat bstep.
    exists (Some (<[i := map (fun _ => false) row]> mask)), (delete id <$> prev_req_id_to_index b), (delete id (in_progress_prompt_logprobs_cpu b)).
    split_and!; [|by eexists|destruct b; reflexivity]. intros m' [= <-]. by rewrite length_insert.
  - repeat bstep. exists None, (delete id <$> prev_req_id_to_index b), (delete id (in_progress_prompt_logprobs_cpu b)).
    split_and!; [done|done|]. destruct b. cbn in E. subst. reflexivity.
Qed.

Section removal.
Context (n : nat) (len : Z) (b : InputBatch) (i : nat) (id : string) (r : Row).
Context (Hinv : batch_inv n len b) (Hocc : occupied b i id) (Hrow : rows b !! i = Some r) (Hflag : sorted_flag b = false).
Context (b' : InputBatch).
Context (Hcfg : config b' = config b)
  (Hids : req_ids_ b' = <[i := None]> (req_ids_ b)) (Hindex : req_id_to_index b' = delete id (req_id_to_index b))
  (Hholes : holes b' = holes b ++ [i]) (Hflag' : sorted_flag b' = false)
  (Houts : req_output_token_ids b' = <[i := None]> (req_output_token_ids b))
  (Hspecs : batch_spec_token_ids b' = <[i := []]> (batch_spec_token_ids b)).

Lemma removed_occupied j x : occupied b' j x <-> occupied b j x /\ j <> i.
Proof.
  unfold occupied. rewrite Hids. destruct (decide (j = i)) as [->|Hne].
  - rewrite list_lookup_insert_eq by (by eapply lookup_lt_Some). naive_solver.
  - rewrite list_lookup_insert_ne by done. naive_solver.
Qed.
Lemma removed_lists : lists_ok n b'.
Proof.
  destruct Hinv as (_ & HL & _). pose proof HL as [H1 H2 H3 H4 H5 H6 H7 H8].
  assert (i < length (req_ids_ b))%nat as Hi by (by eapply lookup_lt_Some). split.
  - intros x j. rewrite removed_occupied, Hindex. destruct (decide (x = id)) as [->|Hx].
    + rewrite lookup_delete_eq. split; [done|]. intros [Hj Hne]. destruct Hne. by eapply occupied_inj.
    + rewrite lookup_delete_ne, H1 by done. split; [|naive_solver]. intros Hj. split; [done|]. intros ->.
      unfold occupied in *. congruence.
  - intros j. rewrite Hholes, Hids, elem_of_app, list_elem_of_singleton, H2. destruct (decide (j = i)) as [->|Hj].
    + rewrite list_lookup_insert_eq by done. naive_solver.
    + rewrite list_lookup_insert_ne by done. naive_solver.
  - rewrite Hholes. apply NoDup_app. split_and!; [done| |apply NoDup_singleton]. intros j Hj Hji.
    apply list_elem_of_singleton in Hji as ->. apply H2 in Hj. unfold occupied in Hocc. congruence.
  - rewrite Hflag'. done.
  - by rewrite Hids, length_insert.
  - by rewrite Houts, Hids, !length_insert.
  - by rewrite Hspecs, Hids, !length_insert.
  - intros j l. rewrite Hspecs. setoid_rewrite removed_occupied. destruct (decide (j = i)) as [->|Hj].
    + rewrite list_lookup_insert_eq by lia. by intros [= <-].
    + rewrite list_lookup_insert_ne by done. intros Hl Hne. destruct (H8 j l Hl Hne) as [x Hx]. by exists x.
Qed.

Context (Hrows : rows b' = <[i := set_request_lora_mapping 0 r]> (rows b)) (Htables : batch_block_table b' = batch_block_table b).

Lemma removed_arrays :
  (forall j g, generators b' !! j = Some g -> generators b !! j = Some g /\ j <> i) ->
  (forall j g, bad_words b' !! j = Some g -> bad_words b !! j = Some g /\ j <> i) ->
  mask_ok n b' ->
  (is_pooling_model (config b) = true ->
     generators b' = ∅ /\ bad_words b' = ∅ /\ num_logprobs b' = ∅ /\ forall s, s ∈ mark_list (marks b') -> s = ∅) -> arrays_ok n len b'.
Proof.
  intros Hg Hw Hm Hp. destruct Hinv as (_ & _ & [A1 A2 A3 A4 A5 A6 A7] & _).
  split; try done.
  - by rewrite Hrows, length_insert.
  - rewrite Hrows. apply Forall_insert; [done|]. pose proof (proj1 (Forall_lookup _ _) A2 i r Hrow) as [? ? ? ? ? ?]. by split.
  - by rewrite Htables.
  - intros j g Hj. destruct (Hg j g Hj) as [Hj' Hne]. destruct (A4 j g Hj') as [x Hx]. exists x. by apply removed_occupied.
  - intros j g Hj. destruct (Hw j g Hj) as [Hj' Hne]. destruct (A5 j g Hj') as [x Hx]. exists x. by apply removed_occupied.
  - by rewrite Hcfg.
Qed.

Lemma removed_keys :
  (forall x y, num_logprobs b' !! x = Some y -> num_logprobs b !! x = Some y /\ x <> id) ->
  lora_kept id (lora_id_to_request_ids b) (lora_id_to_request_ids b') ->
  dom (lora_id_to_request_ids b') = dom (lora_id_to_lora_request b') ->
  (forall s x, s ∈ mark_list (marks b') -> x ∈ s -> x <> id /\ exists s', s' ∈ mark_list (marks b) /\ x ∈ s') ->
  (forall x p, batch_pooling_params b' !! x = Some p -> batch_pooling_params b !! x = Some p /\ x <> id) -> keys_ok b'.
Proof.
  intros Hl Hk Hd Hm Hp. destruct Hinv as (_ & HL & _ & [K1 K2 K3 K4 K5 K6]). split; [| |done| | |].
  - intros x y Hx. destruct (Hl x y Hx) as [Hx' Hne]. rewrite Hindex, lookup_delete_ne by done. by eapply K1.
  - intros j x r' Hx Hr' Hne. apply removed_occupied in Hx as [Hx Hj]. rewrite Hrows, list_lookup_insert_ne in Hr' by done.
    destruct (K2 j x r' Hx Hr' Hne) as (ids & E & Hin). eapply (Hk _ ids); try done.
    intros ->. destruct Hj. by eapply occupied_inj.
  - intros s x Hs Hx. destruct (Hm s x Hs Hx) as (Hne & s' & Hs' & Hx'). rewrite Hindex, lookup_delete_ne by done. by eapply K4.
  - intros x p Hx. destruct (Hp x p Hx) as [Hx' Hne]. rewrite Hindex, lookup_delete_ne by done. by eapply K5.
  - rewrite Hcfg. intros Ep. apply map_eq. intros x. rewrite lookup_empty. destruct (batch_pooling_params b' !! x) as [p|] eqn:E; [|done].
    destruct (Hp x p E) as [E' _]. rewrite K6 in E' by done. done.
Qed.

Lemma removed_seen x :
  (forall j, j <> i -> generators b' !! j = generators b !! j) -> (forall j, j <> i -> bad_words b' !! j = bad_words b !! j) ->
  (forall y, y <> id -> num_logprobs b' !! y = num_logprobs b !! y) -> (forall y, y <> id -> marks_of y (marks b') = marks_of y (marks b)) ->
  (forall y, y <> id -> batch_pooling_params b' !! y = batch_pooling_params b !! y) ->
  seen b' x = if decide (x = id) then None else seen b x.
Proof.
  intros Hg Hw Hl Hm Hp. unfold seen. rewrite Hindex. case_decide as Ex; [subst; by rewrite lookup_delete_eq|].
  rewrite lookup_delete_ne by done. destruct (req_id_to_index b !! x) as [j|] eqn:Ej; [|done]. simpl. f_equal.
  destruct Hinv as (_ & HL & _). apply (lo_index n b HL) in Ej.
  assert (j <> i) as Hj by (intros ->; unfold occupied in *; congruence).
  unfold view. rewrite Hcfg, Hrows, Htables, Houts, Hspecs, !list_lookup_insert_ne, Hg, Hw, Hl, Hm, Hp by done. done.
Qed.
End removal.

Lemma delete_keep {K A} `{Countable K} (m : gmap K A) i j x : delete i m !! j = Some x -> m !! j = Some x /\ j <> i.
Proof. intros [? ?]%lookup_delete_Some. done. Qed.

(** What the steps of an update keep. *)
Definition same_setting (b b' : InputBatch) : Prop :=
  config b' = config b /\ map table_config (batch_block_table b') = map table_config (batch_block_table b).

Lemma remove_spec n len b id : batch_inv n len b -> sorted_flag b = false ->
  wp (remove_request id) (fun o b' => o = req_id_to_index b !! id /\ batch_inv n len b' /\ sorted_flag b' = false /\ same_setting b b' /\
    forall x, seen b' x = if decide (x = id) then None else seen b x) b.
Proof.
  intros Hinv Hflag. pose proof Hinv as (Hcap & HL & HA & HK). unfold remove_request. bstep. bstep.
  destruct (req_id_to_index b !! id) as [i|] eqn:Ei.
  2:{ bstep. split_and!; try done. intros x. unfold seen. case_decide; [subst; by rewrite Ei|done]. }
  pose proof (proj1 (lo_index n b HL id i) Ei) as Hocc.
  assert (i < length (req_ids_ b))%nat as Hi by (by eapply lookup_lt_Some).
  pose proof (lo_cap n b HL). pose proof (lo_outputs n b HL). pose proof (lo_specs n b HL).
  destruct (lookup_lt_is_Some_2 (rows b) i) as [r Hrow]; [rewrite (ao_rows n len b HA); lia|].
  do 3 bstep. apply wp_zoom. bsimpl. unfold removed_append. bstep. bstep. fold (sorted_flag b). rewrite Hflag. do 4 bstep.
  rewrite !list_set_some by lia. do 12 bstep.
  match goal with |- wp _ _ ?s => set (b0 := s) end.
  eapply wp_mono; [apply (drop_lora_spec b0 i id r); [exact Hrow|apply (ko_lora b HK i id r Hocc Hrow)|apply (ko_lora_dom b HK)]|].
  intros _ b1 (l1 & l2 & Hd & Hk & ->). set (b1 := set_lora_id_to_request_ids _ _).
  bstep. destruct (is_pooling_model (config b)) eqn:Ep.
  - repeat bstep. match goal with |- _ /\ batch_inv _ _ ?s /\ _ => set (b2 := s) end.
    destruct (ao_pooling n len b HA Ep) as (Eg & Ew & El & Em).
    split_and!; try done; [split_and!; [done| | |]|].
    + by apply (removed_lists n len b i id).
    + apply (removed_arrays n len b i id r); try done.
      * intros j g. change (generators b2) with (generators b). by rewrite Eg.
      * intros j g. change (bad_words b2) with (bad_words b). by rewrite Ew.
      * apply (ao_mask n len b HA).
    + apply (removed_keys n len b i id r); try done.
      * intros x y. change (num_logprobs b2) with (num_logprobs b). by rewrite El.
      * intros s x Hs. rewrite (Em s Hs). set_solver.
      * intros x p. apply (delete_keep (batch_pooling_params b)).
    + intros x. apply (removed_seen n len b i id r); try done. intros y Hy. by apply lookup_delete_ne.
  - eapply wp_mono; [apply (drop_sampling_spec n b1 i id); [apply (ao_mask n len b HA)|lia]|].
    intros _ b2' (m & p & q & Hm & Hm2 & ->). repeat bstep. match goal with |- _ /\ batch_inv _ _ ?s /\ _ => set (b2 := s) end.
    split_and!; try done; [split_and!; [done| | |]|].
    + by apply (removed_lists n len b i id).
    + apply (removed_arrays n len b i id r); try done; [| | |congruence].
      * intros j g. apply (delete_keep (generators b)).
      * intros j g. apply (delete_keep (bad_words b)).
      * split; [done|]. intros Hne. apply Hm2. apply (proj2 (ao_mask n len b HA)). intros E. apply Hne. unfold b2. bsimpl. simpl. rewrite E. set_solver.
    + apply (removed_keys n len b i id r); try done.
      * intros x y. apply (delete_keep (num_logprobs b)).
      * intros s x Hs. by apply (mark_removed id (marks b)).
      * intros x y. change (batch_pooling_params b2) with (batch_pooling_params b). by rewrite (ko_sampled b HK Ep).
    + intros x. apply (removed_seen n len b i id r); try done; intros y Hy.
      * by apply lookup_delete_ne.
      * by apply lookup_delete_ne.
      * by apply lookup_delete_ne.
      * by apply marks_of_remove.
Qed.

(** ** Addition *)

(** The tokens of a request; those of a prompt given by its embeddings are not known. *)
Definition request_tokens (r : CachedRequestState) (output : list Z) : list (option Z) :=
  match prompt_token_ids (cs_args r) with
  | Some p => map Some p
  | None => replicate (Z.to_nat (cs_num_prompt_tokens r)) None
  end ++ map Some output.
Definition request_draw (r : CachedRequestState) : option DrawParams := sp_draw <$> sampling_params (cs_args r).
Definition request_lora (r : CachedRequestState) : Z := match lora_request (cs_args r) with Some l => lora_int_id l | None => 0 end.
Definition nonempty {A} (o : option (list A)) : option (list A) := match o with Some (x :: l) => Some (x :: l) | _ => None end.
Definition no_marks : Marks := mkMarks ∅ ∅ ∅ ∅ ∅ ∅ ∅ ∅ ∅.
Definition entered_marks (cfg : BatchConfig) (id : string) (d : DrawParams) (m : Marks) : Marks :=
  set_has_allowed_token_ids (mark (bool_decide (is_Some (nonempty (allowed_token_ids d)))) id (has_allowed_token_ids m)) (add_marks cfg id d m).
Definition request_marks (cfg : BatchConfig) (id : string) (d : DrawParams) : Marks := entered_marks cfg id d no_marks.

(** What the batch should show for a request. *)
Definition request_view (cfg : BatchConfig) (tables : list BlockTable) (r : CachedRequestState) (output : list Z) : View :=
  mkView
    (Some (mkRowView (request_tokens r output) [] (cs_num_prompt_tokens r) (cs_num_computed_tokens r) (request_lora r)))
    (zip_with (fun t ids => Some (kernel_ids t ids)) tables (cs_block_ids r))
    (Some (cs_output_token_ids r)) []
    ((fun d => (draw_row cfg d, 1)) <$> request_draw r)
    (match request_draw r with Some _ => generator r | None => None end)
    (d ← request_draw r; nonempty (bad_words_token_ids d))
    (d ← request_draw r; (fun k => if k =? -1 then vocab_size cfg else k) <$> logprobs d)
    (match request_draw r with Some d => marks_of (cs_req_id r) (request_marks cfg (cs_req_id r) d) | None => [] end)
    (match sampling_params (cs_args r) with Some _ => None | None => pooling_params (cs_args r) end).

(** A request that the arrays have room for, of the kind that the model serves. *)
Record request_ok (len : Z) (b : InputBatch) (r : CachedRequestState) (output : list Z) : Prop := {
  qo_prompt : prompt_length (cs_args r) = inr (cs_num_prompt_tokens r);
  qo_fits : cs_num_tokens r output <= len;
  qo_blocks : length (cs_block_ids r) = length (batch_block_table b);
  qo_rows : forall g t ids, batch_block_table b !! g = Some t -> cs_block_ids r !! g = Some ids -> row_fits t 0 ids;
  qo_kind : if is_pooling_model (config b)
            then sampling_params (cs_args r) = None /\ is_Some (pooling_params (cs_args r))
            else is_Some (sampling_params (cs_args r));
  qo_allowed : forall d l, request_draw r = Some d -> allowed_token_ids d = Some l ->
    Forall (fun t => 0 <= t < vocab_size (config b)) l;
  qo_lora : forall l, lora_request (cs_args r) = Some l -> lora_int_id l <> 0
}.

Lemma unmask_some l row : Forall (fun t => 0 <= t < Z.of_nat (length row)) l -> is_Some (unmask l row).
Proof.
  revert row. induction l as [|t l IH]; intros row H; [by eexists|]. apply Forall_cons in H as [Ht Hl]. simpl.
  rewrite (proj2 (Z.leb_le _ _)), (proj2 (Z.ltb_lt _ _)) by lia. simpl. apply IH. by rewrite length_insert.
Qed.

(** Writing a run of known tokens after a prefix. *)
Lemma known_tokens_app t1 t2 f1 f2 : length t1 = length f1 -> known_tokens (t1 ++ t2) (f1 ++ f2) = known_tokens t1 f1 ++ known_tokens t2 f2.
Proof. intros H. unfold known_tokens. by rewrite zip_with_app. Qed.
Lemma known_tokens_true t k : length t = k -> known_tokens t (replicate k true) = map Some t.
Proof. intros <-. unfold known_tokens. induction t as [|x t IH]; simpl; congruence. Qed.
Lemma known_tokens_false t k : length t = k -> known_tokens t (replicate k false) = replicate k None.
Proof. intros <-. unfold known_tokens. induction t as [|x t IH]; simpl; congruence. Qed.

Lemma prompt_length_nonneg a k : prompt_length a = inr k -> 0 <= k /\ forall p, prompt_token_ids a = Some p -> Z.of_nat (length p) = k.
Proof.
  unfold prompt_length. destruct (prompt_token_ids a) as [p|], (prompt_embeds a) as [e|]; try done.
  - destruct (negb _); [done|]. intros [= <-]. split; [lia|]. by intros ? [= <-].
  - intros [= <-]. split; [lia|]. by intros ? [= <-].
  - intros [= <-]. split; [lia|done].
Qed.
Lemma slice_fill_ok {A} i j (x : A) l : 0 <= i <= j -> j <= Z.of_nat (length l) ->
  slice_fill i j x l = take (Z.to_nat i) l ++ replicate (Z.to_nat (j - i)) x ++ drop (Z.to_nat j) l.
Proof.
  intros Hi Hj. unfold slice_fill, slice_set, slice_bound. simpl.
  rewrite (proj2 (Z.ltb_ge i 0)), (proj2 (Z.ltb_ge j 0)), !Z.min_l by lia. simpl.
  replace (Z.to_nat j - Z.to_nat i)%nat with (Z.to_nat (j - i)) by lia.
  by replace (Z.to_nat i + Z.to_nat (j - i))%nat with (Z.to_nat j) by lia.
Qed.

(** A second slice right after a first one that ended at [k]. *)
Lemma slice_after {A} (pre out l : list A) k e :
  Z.of_nat (length pre) = k -> k + Z.of_nat (length out) = e -> e <= Z.of_nat (length l) ->
  slice_set k e out (pre ++ drop (Z.to_nat k) l) = Some (pre ++ out ++ drop (Z.to_nat e) l).
Proof.
  intros Hp He Hl. rewrite slice_set_ok; [|lia|lia|rewrite length_app, length_drop; lia]. f_equal. f_equal.
  - rewrite take_app_le by lia. apply take_ge. lia.
  - f_equal. rewrite drop_app_ge by lia. rewrite drop_drop. f_equal. lia.
Qed.
Lemma slice_fill_after {A} (pre : list A) x l k e :
  Z.of_nat (length pre) = k -> k <= e -> e <= Z.of_nat (length l) ->
  slice_fill k e x (pre ++ drop (Z.to_nat k) l) = pre ++ replicate (Z.to_nat (e - k)) x ++ drop (Z.to_nat e) l.
Proof.
  intros Hp He Hl. rewrite slice_fill_ok; [|lia|rewrite length_app, length_drop; lia]. f_equal.
  - rewrite take_app_le by lia. apply take_ge. lia.
  - f_equal. rewrite drop_app_ge by lia. rewrite drop_drop. f_equal. lia.
Qed.

(** The row after the tokens of a request were entered. *)
Definition entered_row (r : Row) (q : CachedRequestState) (output : list Z) : Row :=
  let k := cs_num_prompt_tokens q in
  let e := cs_num_tokens q output in
  let pre := default (take (Z.to_nat k) (token_ids_cpu r)) (prompt_token_ids (cs_args q)) in
  let known := bool_decide (is_Some (prompt_token_ids (cs_args q))) in
  mkRow (pre ++ output ++ drop (Z.to_nat e) (token_ids_cpu r))
    (replicate (Z.to_nat k) known ++ replicate (length output) true ++ drop (Z.to_nat e) (is_token_ids r))
    e e k (cs_num_computed_tokens q) (request_lora_mapping r) (logits_processing_needs_token_ids r) (draw_cpu r) (num_accepted_tokens_cpu r).

Lemma entered_row_ok len r q output : row_ok len r -> prompt_length (cs_args q) = inr (cs_num_prompt_tokens q) -> cs_num_tokens q output <= len ->
  row_ok len (entered_row r q output) /\
  row_view (entered_row r q output) =
    mkRowView (request_tokens q output) [] (cs_num_prompt_tokens q) (cs_num_computed_tokens q) (request_lora_mapping r).
Proof.
  intros [R1 R2 _ _ _ _] Hp Hl. destruct (prompt_length_nonneg _ _ Hp) as [Hk Hpl]. unfold cs_num_tokens in Hl.
  set (k := cs_num_prompt_tokens q) in *. set (pre := default (take (Z.to_nat k) (token_ids_cpu r)) (prompt_token_ids (cs_args q))).
  assert (Z.of_nat (length pre) = k) as Hpre.
  { unfold pre. destruct (prompt_token_ids (cs_args q)) as [p|]; simpl; [by apply Hpl|]. rewrite length_take. lia. }
  split.
  - split; unfold entered_row, cs_num_tokens; cbn -[Z.of_nat]; fold k; fold pre; rewrite ?length_app, ?length_replicate, ?length_drop; lia.
  - unfold row_view, entered_row, cs_num_tokens. cbn [num_tokens_no_spec token_ids_cpu is_token_ids row_num_tokens row_num_prompt_tokens num_computed_tokens_cpu request_lora_mapping].
    fold k. fold pre. set (e := Z.to_nat (k + Z.of_nat (length output))).
    assert (take e (pre ++ output ++ drop e (token_ids_cpu r)) = pre ++ output) as Et.
    { rewrite app_assoc, take_app_le, take_ge by (rewrite ?length_app; lia). done. }
    assert (take e (replicate (Z.to_nat k) (bool_decide (is_Some (prompt_token_ids (cs_args q)))) ++ replicate (length output) true ++ drop e (is_token_ids r))
            = replicate (Z.to_nat k) (bool_decide (is_Some (prompt_token_ids (cs_args q)))) ++ replicate (length output) true) as Ef.
    { rewrite app_assoc, take_app_le, take_ge by (rewrite ?length_app, ?length_replicate; lia). done. }
    rewrite Et, Ef. rewrite drop_ge by (rewrite length_app; lia). f_equal.
    rewrite known_tokens_app by (rewrite length_replicate; lia). rewrite known_tokens_true by done. unfold request_tokens. f_equal.
    unfold pre. destruct (prompt_token_ids (cs_args q)) as [p|] eqn:E; simpl.
    + apply known_tokens_true. specialize (Hpl p eq_refl). lia.
    + apply known_tokens_false. rewrite length_take. lia.
Qed.

Lemma enter_tokens_spec len b i r q output : row_ok len r -> rows b !! i = Some r ->
  prompt_length (cs_args q) = inr (cs_num_prompt_tokens q) -> cs_num_tokens q output <= len ->
  wp (enter_tokens i q output) (fun _ b' => exists e, b' = set_rows (<[i := entered_row r q output]> (rows b)) (set_req_prompt_embeds e b)) b.
Proof.
  intros [R1 R2 _ _ _ _] Hr Hp Hl.
  destruct (prompt_length_nonneg _ _ Hp) as [Hk Hpl]. set (k := cs_num_prompt_tokens q) in *. unfold cs_num_tokens in Hl. fold k in Hl.
  assert (forall x, <[i := x]> (rows b) !! i = Some x) as Hins by (intros; apply list_lookup_insert_eq; by eapply lookup_lt_Some).
  set (pre := default (take (Z.to_nat k) (token_ids_cpu r)) (prompt_token_ids (cs_args q))).
  set (known := bool_decide (is_Some (prompt_token_ids (cs_args q)))).
  set (r1 := set_is_token_ids (replicate (Z.to_nat k) known ++ drop (Z.to_nat k) (is_token_ids r))
               (set_token_ids_cpu (pre ++ drop (Z.to_nat k) (token_ids_cpu r)) (set_row_num_prompt_tokens k r))).
  assert (Z.of_nat (length pre) = k) as Hpre.
  { unfold pre. destruct (prompt_token_ids (cs_args q)) as [p|]; simpl; [by apply Hpl|]. rewrite length_take. lia. }
  unfold enter_tokens. bstep. rewrite Hp. cbn [py_lift]. bstep. bstep. eapply wp_on_row; [exact Hr|]. fold k.
  apply wp_bind. eapply (wp_mono _ (fun _ s => s = set_rows (<[i := r1]> (rows b)) b)).
  { unfold r1, pre, known. destruct (prompt_token_ids (cs_args q)) as [p|] eqn:E.
    - unfold get_row, put_row. do 3 bstep. rewrite Hins. do 2 bstep.
      rewrite slice_set_ok by (bsimpl; rewrite ?(Hpl p eq_refl); lia). bstep. do 2 bstep.
      eapply wp_on_row; [bsimpl; rewrite list_insert_insert_eq; apply Hins|]. bsimpl. rewrite !list_insert_insert_eq.
      rewrite slice_fill_ok by lia. by rewrite Z.sub_0_r.
    - eapply wp_on_row; [bsimpl; apply Hins|]. bsimpl. rewrite !list_insert_insert_eq, slice_fill_ok, Z.sub_0_r by lia.
      simpl. rewrite take_drop. by destruct r. }
  intros _ s ->. apply wp_bind. eapply (wp_mono _ (fun _ s => exists e, s = set_rows (<[i := r1]> (rows b)) (set_req_prompt_embeds e b))).
  { destruct (prompt_embeds (cs_args q)) as [e|]; bstep; [by eexists|]. exists (req_prompt_embeds b). by destruct b. }
  intros _ s [e ->]. unfold get_row, put_row. do 3 bstep. rewrite Hins. do 2 bstep.
  assert (slice_set k (k + Z.of_nat (length output)) output (token_ids_cpu r1) =
    Some (pre ++ output ++ drop (Z.to_nat (k + Z.of_nat (length output))) (token_ids_cpu r))) as -> by (apply slice_after; lia).
  do 4 bstep. eapply wp_on_row; [bsimpl; rewrite list_insert_insert_eq; apply Hins|]. bsimpl. rewrite !list_insert_insert_eq.
  assert (slice_fill k (k + Z.of_nat (length output)) true (is_token_ids r1) =
    replicate (Z.to_nat k) known ++ replicate (length output) true ++ drop (Z.to_nat (k + Z.of_nat (length output))) (is_token_ids r)) as Ef.
  { unfold r1. bsimpl. rewrite slice_fill_after; [|rewrite length_replicate; lia|lia|lia]. do 3 f_equal. lia. }
  rewrite Ef.
  repeat (bstep; eapply wp_on_row; [bsimpl; apply Hins|]; bsimpl; rewrite !list_insert_insert_eq).
  eapply wp_on_row; [bsimpl; apply Hins|]. bsimpl. rewrite !list_insert_insert_eq. by exists e.
Qed.

(** *** The index of a new request *)

Definition free_index (b : InputBatch) (i : nat) : Prop := i ∈ holes b \/ (holes b = [] /\ i = length (req_ids_ b)).

Lemma free_index_facts n len b i : batch_inv n len b -> num_reqs b < Z.of_nat n -> free_index b i ->
  (i < n)%nat /\ (i <= length (req_ids_ b))%nat /\ forall x, ~ occupied b i x.
Proof.
  intros (_ & HL & _) Hroom Hf. pose proof (num_reqs_lists n b HL) as En. pose proof (lo_cap n b HL). destruct Hf as [Hh|[Eh ->]].
  - apply (lo_holes n b HL) in Hh. pose proof (lookup_lt_Some _ _ _ Hh). split_and!; [lia|lia|]. intros x Hx. unfold occupied in Hx. congruence.
  - rewrite Eh in En. simpl in En. split_and!; [lia|lia|]. intros x Hx. apply lookup_lt_Some in Hx. lia.
Qed.

Lemma register_spec n len b q : batch_inv n len b -> num_reqs b < Z.of_nat n ->
  wp (register_add_request q) (fun i b' => free_index b i /\ exists u, b' = set_batch_update_builder u b /\
    (forall j, j ∈ removed_indices u <-> j ∈ holes b /\ j <> i) /\ NoDup (removed_indices u) /\
    (is_removed_sorted u = true -> StronglySorted (flip Nat.le) (removed_indices u))) b.
Proof.
  intros (Hcap & HL & _) Hroom. unfold register_add_request. bstep. apply wp_zoom.
  pose proof (builder_pop_spec (batch_update_builder b) (lo_sorted n b HL)) as Hpop. pose proof (num_reqs_lists n b HL) as En.
  pose proof (lo_nodup n b HL) as Hnd. pose proof (lo_cap n b HL) as Hlen. fold (holes b) in Hpop.
  assert (exists i u o, pop_removed (batch_update_builder b) = Ret o u /\ default (Z.to_nat (num_reqs b)) o = i /\ free_index b i /\ (i < n)%nat /\
    (forall j, j ∈ removed_indices u <-> j ∈ holes b /\ j <> i) /\ NoDup (removed_indices u) /\
    (is_removed_sorted u = true -> StronglySorted (flip Nat.le) (removed_indices u))) as (i & u & o & Ep & Ei & Hf & Hi & Hu1 & Hu2 & Hu3).
  { destruct (holes b) as [|h t] eqn:Eh.
    - exists (length (req_ids_ b)), (batch_update_builder b), None. simpl in En. split_and!; try done; [|by right| | | |].
      + rewrite En. simpl. lia.
      + lia.
      + fold (holes b). rewrite Eh. set_solver.
      + fold (holes b). rewrite Eh. constructor.
      + apply (lo_sorted n b HL).
    - destruct Hpop as (l & i & Ep & Hp & Hs & _). exists i, (set_removed_indices l (set_is_removed_sorted true (batch_update_builder b))), (Some i).
      rewrite <-Eh in *. assert (NoDup (l ++ [i])) as Hnd' by (by rewrite Hp). apply NoDup_app in Hnd' as (Hl & Hni & _).
      assert (i ∈ holes b) as Hin by (rewrite <-Hp; set_solver).
      split_and!; try done; [by left| |].
      + apply (lo_holes n b HL) in Hin. apply lookup_lt_Some in Hin. lia.
      + bsimpl. intros j. rewrite <-Hp. split; [|set_solver]. intros Hj. split; [set_solver|]. intros ->. apply (Hni i Hj). set_solver. }
  unfold wp at 1. rewrite Ep. bstep. bstep. change (num_reqs (set_batch_update_builder u b)) with (num_reqs b). rewrite Ei. bstep.
  rewrite Hcap. bstep. bstep. unfold on_builder. apply wp_zoom. bstep. bstep.
  destruct (sampling_params (cs_args q)) as [sp|].
  - apply wp_zoom. repeat bstep. split; [done|]. eexists. split; [destruct b; reflexivity|]. bsimpl. done.
  - repeat bstep. split; [done|]. eexists. split; [destruct b; reflexivity|]. bsimpl. done.
Qed.

(** *** The lists *)

Definition put_at {A} (i : nat) (x : A) (l : list A) : list A := if (i =? length l)%nat then l ++ [x] else <[i := x]> l.
Lemma put_at_lookup {A} i (x : A) l j : (i <= length l)%nat -> put_at i x l !! j = if decide (j = i) then Some x else l !! j.
Proof.
  intros Hi. unfold put_at. destruct (i =? length l)%nat eqn:E.
  - apply Nat.eqb_eq in E as ->. case_decide as Ej.
    + subst. by rewrite list_lookup_middle.
    + destruct (decide (j < length l)%nat); [by rewrite lookup_app_l|]. rewrite !lookup_ge_None_2; [done|lia|rewrite length_app; simpl; lia].
  - apply Nat.eqb_neq in E. case_decide as Ej; [subst; rewrite list_lookup_insert_eq by lia; done|by rewrite list_lookup_insert_ne].
Qed.
Lemma put_at_length {A} i (x : A) l : (i <= length l)%nat -> length (put_at i x l) = Nat.max (S i) (length l).
Proof.
  intros Hi. unfold put_at. destruct (i =? length l)%nat eqn:E.
  - apply Nat.eqb_eq in E. rewrite length_app. simpl. lia.
  - apply Nat.eqb_neq in E. rewrite length_insert. lia.
Qed.
(** The list of draft tokens can be longer than the batch; its tail has no drafts. *)
Definition clear_spec (b : InputBatch) (i : nat) : list (list Z) :=
  if (i =? length (req_ids_ b))%nat then batch_spec_token_ids b ++ [[]] else <[i := []]> (batch_spec_token_ids b).

Lemma enter_lists_spec b i id loc : length (req_output_token_ids b) = length (req_ids_ b) ->
  (length (req_ids_ b) <= length (batch_spec_token_ids b))%nat -> (i <= length (req_ids_ b))%nat ->
  wp (enter_lists i id loc) (fun _ b' => b' = set_req_ids_ (put_at i (Some id) (req_ids_ b))
    (set_req_output_token_ids (put_at i (Some loc) (req_output_token_ids b)) (set_batch_spec_token_ids (clear_spec b i) b))) b.
Proof.
  intros Ho Hs Hi. unfold enter_lists, put_at, clear_spec. rewrite Ho. bstep. bstep. destruct (i =? length (req_ids_ b))%nat eqn:E.
  - repeat bstep. by destruct b.
  - apply Nat.eqb_neq in E. rewrite !list_set_some by lia. repeat bstep. by destruct b.
Qed.
Lemma clear_spec_facts n b i : lists_ok n b -> (i <= length (req_ids_ b))%nat -> (forall x, ~ occupied b i x) ->
  clear_spec b i !! i = Some [] /\ (forall j, j <> i -> default [] (clear_spec b i !! j) = default [] (batch_spec_token_ids b !! j)) /\
  (forall j l, clear_spec b i !! j = Some l -> l <> [] -> batch_spec_token_ids b !! j = Some l) /\
  (Nat.max (S i) (length (req_ids_ b)) <= length (clear_spec b i))%nat.
Proof.
  intros HL Hi Hfree. pose proof (lo_specs n b HL) as Hs. pose proof (lo_no_spec n b HL) as Hn. unfold clear_spec.
  destruct (i =? length (req_ids_ b))%nat eqn:E.
  - apply Nat.eqb_eq in E. split_and!.
    + destruct (batch_spec_token_ids b !! i) as [l|] eqn:El.
      * rewrite lookup_app_l by (by eapply lookup_lt_Some). rewrite El. f_equal. destruct l as [|x l]; [done|].
        destruct (Hn i (x :: l) El) as [y Hy]; [done|]. by destruct (Hfree y).
      * apply lookup_ge_None in El. assert (i = length (batch_spec_token_ids b)) as -> by lia. by rewrite list_lookup_middle.
    + intros j Hj. destruct (decide (j < length (batch_spec_token_ids b))%nat); [by rewrite lookup_app_l|].
      rewrite (lookup_ge_None_2 (batch_spec_token_ids b) j) by lia. rewrite lookup_app_r by lia. by destruct (j - _)%nat.
    + intros j l Hl Hne. apply lookup_app_Some in Hl as [Hl|[? Hl]]; [done|]. apply list_lookup_singleton_Some in Hl as [_ <-]. done.
    + rewrite length_app. simpl. lia.
  - apply Nat.eqb_neq in E. split_and!.
    + apply list_lookup_insert_eq. lia.
    + intros j Hj. by rewrite list_lookup_insert_ne.
    + intros j l Hl Hne. apply list_lookup_insert_Some in Hl as [(-> & <- & _)|[? Hl]]; done.
    + rewrite length_insert. lia.
Qed.

(** *** Sampling parameters and adapter *)

Lemma elem_of_mark c id s x : x ∈ mark c id s <-> (c = true /\ x = id) \/ x ∈ s.
Proof. unfold mark. destruct c; set_solver. Qed.
Lemma marks_of_entered_ne cfg id d m x : x <> id -> marks_of x (entered_marks cfg id d m) = marks_of x m.
Proof.
  intros Hne. unfold marks_of, entered_marks. simpl.
  repeat (f_equal; [apply bool_decide_ext; rewrite elem_of_mark; naive_solver|]). f_equal. apply bool_decide_ext. rewrite elem_of_mark. naive_solver.
Qed.
Lemma marks_of_entered cfg id d m : (forall s, s ∈ mark_list m -> id ∉ s) -> marks_of id (entered_marks cfg id d m) = marks_of id (request_marks cfg id d).
Proof.
  intros H. apply Forall_forall in H. unfold mark_list in H. repeat rewrite Forall_cons in H. destruct_and!.
  assert (id ∉ (∅ : gset string)) by set_solver. unfold marks_of, request_marks, entered_marks. simpl.
  repeat (f_equal; [apply bool_decide_ext; rewrite !elem_of_mark; tauto|]). f_equal. apply bool_decide_ext. rewrite !elem_of_mark. tauto.
Qed.
Lemma entered_marks_in cfg id d m s x : s ∈ mark_list (entered_marks cfg id d m) -> x ∈ s -> x = id \/ exists s', s' ∈ mark_list m /\ x ∈ s'.
Proof.
  unfold mark_list, entered_marks. simpl. intros Hs Hx. destruct (decide (x = id)) as [|Hne]; [by left|right].
  repeat (apply elem_of_cons in Hs as [->|Hs]; [|]); [..|by apply not_elem_of_nil in Hs].
  all: apply elem_of_mark in Hx as [[_ Hx]|Hx]; [done|]; eexists; (split; [|exact Hx]); set_solver.
Qed.

Definition put_key {K A} `{Countable K} (k : K) (o : option A) (m : gmap K A) : gmap K A :=
  match o with Some x => <[k := x]> m | None => m end.
Lemma put_key_ne {K A} `{Countable K} (k j : K) (o : option A) m : j <> k -> put_key k o m !! j = m !! j.
Proof. intros Hj. destruct o; [|done]. by apply lookup_insert_ne. Qed.
Lemma put_key_eq {K A} `{Countable K} (k : K) (o : option A) m : m !! k = None -> put_key k o m !! k = o.
Proof. intros Hk. destruct o; [apply lookup_insert_eq|done]. Qed.

Definition logprobs_entry (cfg : BatchConfig) (d : DrawParams) : option Z :=
  (fun k => if k =? -1 then vocab_size cfg else k) <$> logprobs d.
Lemma enter_allowed_spec n b i id l :
  (forall m, allowed_token_ids_mask_cpu_tensor b = Some m -> length m = n) -> max_num_reqs (config b) = Z.of_nat n -> (i < n)%nat ->
  Forall (fun t => 0 <= t < vocab_size (config b)) l ->
  wp (enter_allowed i id l) (fun _ b' => exists m, (forall m', m = Some m' -> length m' = n) /\ is_Some m /\
    b' = set_marks (set_has_allowed_token_ids ({[id]} ∪ has_allowed_token_ids (marks b)) (marks b)) (set_allowed_token_ids_mask_cpu_tensor m b)) b.
Proof.
  intros Hm Hn Hi Hl. unfold enter_allowed, on_marks. do 4 bstep. bstep.
  set (mask := default _ (allowed_token_ids_mask_cpu_tensor b)).
  assert (length mask = n) as Hlen.
  { unfold mask. destruct (allowed_token_ids_mask_cpu_tensor b) as [m|] eqn:E; simpl; [by apply Hm|]. rewrite length_replicate. lia. }
  rewrite list_set_some by lia.
  destruct (unmask_some l (replicate (Z.to_nat (vocab_size (config b))) true)) as [row ->].
  { eapply Forall_impl; [exact Hl|]. intros t Ht. cbv beta in Ht. rewrite length_replicate. lia. }
  repeat bstep. eexists. split_and!; [|by eexists|destruct b; reflexivity]. intros m' [= <-]. by rewrite !length_insert.
Qed.
Lemma enter_sampling_spec n b i r q d :
  rows b !! i = Some r -> (forall m, allowed_token_ids_mask_cpu_tensor b = Some m -> length m = n) -> max_num_reqs (config b) = Z.of_nat n -> (i < n)%nat ->
  (forall l, allowed_token_ids d = Some l -> Forall (fun t => 0 <= t < vocab_size (config b)) l) ->
  wp (enter_sampling i q d) (fun _ b' => exists m, (forall m', m = Some m' -> length m' = n) /\
    (is_Some (allowed_token_ids_mask_cpu_tensor b) \/ is_Some (nonempty (allowed_token_ids d)) -> is_Some m) /\
    b' = set_marks (entered_marks (config b) (cs_req_id q) d (marks b)) (set_rows (<[i := set_draw_cpu (draw_row (config b) d) r]> (rows b))
           (set_generators (put_key i (generator q) (generators b))
             (set_num_logprobs (put_key (cs_req_id q) (logprobs_entry (config b) d) (num_logprobs b))
               (set_bad_words (put_key i (nonempty (bad_words_token_ids d)) (bad_words b)) (set_allowed_token_ids_mask_cpu_tensor m b)))))) b.
Proof.
  intros Hr Hm Hn Hi Hl. unfold enter_sampling, on_marks. do 5 bstep. eapply wp_on_row; [exact Hr|]. bsimpl.
  set (b1 := set_rows _ _). bstep. eapply (wp_mono _ (fun _ s => s = set_generators (put_key i (generator q) (generators b)) b1)).
  { destruct (generator q); bstep; by destruct b. }
  intros _ s ->. bstep. set (b2 := set_generators _ _).
  eapply (wp_mono _ (fun _ s => s = set_num_logprobs (put_key (cs_req_id q) (logprobs_entry (config b) d) (num_logprobs b)) b2)).
  { unfold logprobs_entry. destruct (logprobs d); bstep; by destruct b. }
  intros _ s ->. bstep. set (b3 := set_num_logprobs _ _).
  eapply (wp_mono _ (fun _ s => exists m, (forall m', m = Some m' -> length m' = n) /\
     (is_Some (allowed_token_ids_mask_cpu_tensor b) \/ is_Some (nonempty (allowed_token_ids d)) -> is_Some m) /\
     s = set_marks (entered_marks (config b) (cs_req_id q) d (marks b)) (set_allowed_token_ids_mask_cpu_tensor m b3))).
  { unfold entered_marks. destruct (allowed_token_ids d) as [[|t l]|] eqn:E; simpl.
    - bstep. exists (allowed_token_ids_mask_cpu_tensor b). split_and!; [done|by intros [?|[? ?]]|]. by destruct b.
    - eapply wp_mono; [apply (enter_allowed_spec n b3); try done; by apply Hl|]. intros _ s (m & Hm' & Hsome & ->). exists m. split_and!; [done|done|]. by destruct b.
    - bstep. exists (allowed_token_ids_mask_cpu_tensor b). split_and!; [done|by intros [?|[? ?]]|]. by destruct b. }
  intros _ s (m & Hm' & Hsome & ->).
  destruct (bad_words_token_ids d) as [[|w ws]|]; simpl; bstep; exists m; (split_and!; [done|done|]); by destruct b.
Qed.

Lemma enter_lora_spec b i r q : rows b !! i = Some r -> dom (lora_id_to_request_ids b) = dom (lora_id_to_lora_request b) ->
  wp (enter_lora i q) (fun _ b' => exists l1 l2, dom l1 = dom l2 /\
    (forall l ids x, lora_id_to_request_ids b !! l = Some ids -> x ∈ ids -> exists ids', l1 !! l = Some ids' /\ x ∈ ids') /\
    (request_lora q <> 0 -> exists ids, l1 !! request_lora q = Some ids /\ cs_req_id q ∈ ids) /\
    b' = set_rows (<[i := set_request_lora_mapping (request_lora q) r]> (rows b)) (set_lora_id_to_request_ids l1 (set_lora_id_to_lora_request l2 b))) b.
Proof.
  intros Hr Hd. unfold enter_lora, request_lora. destruct (lora_request (cs_args q)) as [l|].
  - do 3 bstep. eapply wp_on_row; [exact Hr|]. bstep.
    exists (<[lora_int_id l := {[cs_req_id q]} ∪ default ∅ (lora_id_to_request_ids b !! lora_int_id l)]> (lora_id_to_request_ids b)),
      (<[lora_int_id l := l]> (lora_id_to_lora_request b)).
    split; [|split; [|split; [|destruct b; reflexivity]]].
    + rewrite !dom_insert_L, Hd. done.
    + intros k ids x Hk Hx. destruct (decide (k = lora_int_id l)) as [->|Hne].
      * rewrite lookup_insert_eq, Hk. simpl. eexists. split; [done|]. set_solver.
      * rewrite lookup_insert_ne by done. eauto.
    + intros _. rewrite lookup_insert_eq. eexists. split; [done|]. set_solver.
  - eapply wp_on_row; [exact Hr|]. exists (lora_id_to_request_ids b), (lora_id_to_lora_request b). split_and!; [done|eauto|done|by destruct b].
Qed.

(** *** Block tables *)

(** All tables after an operation on row [r]. *)
Definition tables_updated (n : nat) (ts : list BlockTable) (r : nat) (blocks : list (option (list Z))) (ts' : list BlockTable) : Prop :=
  Forall (table_ok n) ts' /\ map table_config ts' = map table_config ts /\
  forall j, map (fun t => row_blocks t j) ts' = if decide (j = r) then blocks else map (fun t => row_blocks t j) ts.
Lemma tables_updated_intro n ts r ts' blocks :
  length ts' = length ts -> length blocks = length ts ->
  (forall g t, ts !! g = Some t -> exists t' ids, ts' !! g = Some t' /\ blocks !! g = Some ids /\ row_updated n t r ids t') ->
  tables_updated n ts r blocks ts'.
Proof.
  intros Hl Hb H. split_and!.
  - apply Forall_lookup. intros g t' Hg. destruct (lookup_lt_is_Some_2 ts g) as [t Ht].
    { rewrite <-Hl. by eapply lookup_lt_Some. }
    destruct (H g t Ht) as (t'' & ids & Hg' & _ & Hok & _). congruence.
  - apply list_eq. intros g. change (map ?f ?l) with (f <$> l). rewrite !list_lookup_fmap. destruct (ts !! g) as [t|] eqn:Ht.
    + destruct (H g t Ht) as (t' & ids & -> & _ & _ & Hc & _). simpl. congruence.
    + rewrite (lookup_ge_None_2 ts'); [done|]. rewrite Hl. by apply lookup_ge_None.
  - intros j. apply list_eq. intros g. change (map ?f ?l) with (f <$> l). destruct (ts !! g) as [t|] eqn:Ht.
    + destruct (H g t Ht) as (t' & ids & Ht' & Hids & _ & _ & Hrow). rewrite list_lookup_fmap, Ht'. simpl. rewrite Hrow.
      case_decide; [done|]. by rewrite list_lookup_fmap, Ht.
    + assert (ts' !! g = None) as E by (apply lookup_ge_None; rewrite Hl; by apply lookup_ge_None).
      rewrite list_lookup_fmap, E. case_decide; [|by rewrite list_lookup_fmap, Ht]. symmetry. apply lookup_ge_None. rewrite Hb. by apply lookup_ge_None.
Qed.
Lemma mt_add_row_spec n ts ids r : Forall (table_ok n) ts -> (r < n)%nat -> length ids = length ts ->
  (forall g t l, ts !! g = Some t -> ids !! g = Some l -> row_fits t 0 l) ->
  wp (mt_add_row ids r) (fun _ ts' => tables_updated n ts r (zip_with (fun t l => Some (kernel_ids t l)) ts ids) ts') ts.
Proof.
  intros Hok Hr Hlen Hfit. unfold mt_add_row. eapply wp_mono.
  - apply (wp_each_table _ (fun g t t' => exists l, ids !! g = Some l /\ row_updated n t r (Some (kernel_ids t l)) t')).
    intros g t Ht. destruct (lookup_lt_is_Some_2 ids g) as [l Hl]; [rewrite Hlen; by eapply lookup_lt_Some|].
    unfold with_group. bstep. rewrite Hl. bstep. eapply wp_mono; [apply (add_row_spec n)|].
    + by apply (proj1 (Forall_lookup _ _) Hok g).
    + done.
    + by apply (Hfit g).
    + intros [] t' Ht'. by exists l.
  - intros _ ts' [Hl H]. apply tables_updated_intro; [done|rewrite length_zip_with; lia|]. intros g t Ht.
    destruct (H g t Ht) as (t' & Ht' & l & El & Hu). exists t', (Some (kernel_ids t l)). split_and!; [done| |done].
    by rewrite lookup_zip_with, Ht, El.
Qed.

Section addition.
Context (n : nat) (len : Z) (b : InputBatch) (i : nat) (q : CachedRequestState) (output : list Z) (r : Row).
Let id := cs_req_id q.
Context (Hinv : batch_inv n len b) (Hi : (i < n)%nat) (Hil : (i <= length (req_ids_ b))%nat) (Hfree : forall x, ~ occupied b i x)
  (Hnew : req_id_to_index b !! id = None) (Hq : request_ok len b q output).
Context (b' : InputBatch) (u : BatchUpdateBuilder).
Context (Hcfg : config b' = config b) (Hu : batch_update_builder b' = u)
  (Hu1 : forall j, j ∈ removed_indices u <-> j ∈ holes b /\ j <> i) (Hu2 : NoDup (removed_indices u))
  (Hu3 : is_removed_sorted u = true -> StronglySorted (flip Nat.le) (removed_indices u))
  (Hids : req_ids_ b' = put_at i (Some id) (req_ids_ b)) (Hindex : req_id_to_index b' = <[id := i]> (req_id_to_index b))
  (Houts : req_output_token_ids b' = put_at i (Some (cs_output_token_ids q)) (req_output_token_ids b))
  (Hspecs : batch_spec_token_ids b' = clear_spec b i).

Lemma added_occupied j x : occupied b' j x <-> (j = i /\ x = id) \/ (j <> i /\ occupied b j x).
Proof. unfold occupied. rewrite Hids, put_at_lookup by done. case_decide; naive_solver. Qed.
Lemma added_lists : lists_ok n b'.
Proof.
  destruct Hinv as (_ & HL & _). pose proof HL as [H1 H2 H3 H4 H5 H6 H7 H8].
  destruct (clear_spec_facts n b i HL Hil Hfree) as (C1 & C2 & C3 & C4). split.
  - intros x j. rewrite added_occupied, Hindex. destruct (decide (x = id)) as [->|Hx].
    + rewrite lookup_insert_eq. split; [intros [= <-]; by left|]. intros [[-> _]|[_ Hj]]; [done|]. apply H1 in Hj. congruence.
    + rewrite lookup_insert_ne, H1 by done. split; [|naive_solver]. intros Hj. right. split; [|done]. intros ->. by apply (Hfree x).
  - intros j. unfold holes. rewrite Hu, Hu1, H2, Hids, put_at_lookup by done. case_decide; naive_solver.
  - unfold holes. by rewrite Hu.
  - unfold holes, sorted_flag. rewrite Hu. done.
  - rewrite Hids, put_at_length by done. lia.
  - rewrite Houts, Hids, !put_at_length; lia.
  - rewrite Hspecs, Hids, put_at_length by done. lia.
  - intros j l Hl Hne. rewrite Hspecs in Hl. destruct (H8 j l (C3 j l Hl Hne) Hne) as [x Hx]. exists x. apply added_occupied. right.
    split; [|done]. intros ->. by apply (Hfree x).
Qed.

Context (Hrow : rows b' = <[i := r]> (rows b)) (Hrok : row_ok len r)
  (Hrv : row_view r = mkRowView (request_tokens q output) [] (cs_num_prompt_tokens q) (cs_num_computed_tokens q) (request_lora q))
  (Htables : tables_updated n (batch_block_table b) i (zip_with (fun t l => Some (kernel_ids t l)) (batch_block_table b) (cs_block_ids q)) (batch_block_table b'))
  (Hlora : dom (lora_id_to_request_ids b') = dom (lora_id_to_lora_request b'))
  (Hlora1 : forall l ids x, lora_id_to_request_ids b !! l = Some ids -> x ∈ ids -> exists ids', lora_id_to_request_ids b' !! l = Some ids' /\ x ∈ ids')
  (Hlora2 : request_lora q <> 0 -> exists ids, lora_id_to_request_ids b' !! request_lora q = Some ids /\ id ∈ ids)
  (Hmask : mask_ok n b').
(** The sampling state, for the two kinds of model. *)
Definition sampling_entered (d : DrawParams) : Prop :=
  generators b' = put_key i (generator q) (generators b) /\ bad_words b' = put_key i (nonempty (bad_words_token_ids d)) (bad_words b) /\
  num_logprobs b' = put_key id (logprobs_entry (config b) d) (num_logprobs b) /\ marks b' = entered_marks (config b) id d (marks b) /\
  batch_pooling_params b' = batch_pooling_params b /\ draw_cpu r = draw_row (config b) d /\ num_accepted_tokens_cpu r = 1.
Definition pooling_entered (p : PoolingParams) : Prop :=
  generators b' = generators b /\ bad_words b' = bad_words b /\ num_logprobs b' = num_logprobs b /\ marks b' = marks b /\
  batch_pooling_params b' = <[id := p]> (batch_pooling_params b).
Context (Hparams : match sampling_params (cs_args q), pooling_params (cs_args q) with
                   | Some sp, _ => is_pooling_model (config b) = false /\ sampling_entered (sp_draw sp)
                   | None, Some p => is_pooling_model (config b) = true /\ pooling_entered p
                   | None, None => False
                   end).

Lemma added_dom x : is_Some (req_id_to_index b !! x) -> is_Some (req_id_to_index b' !! x).
Proof. rewrite Hindex. intros H. destruct (decide (x = id)) as [->|]; [rewrite lookup_insert_eq|rewrite lookup_insert_ne by done]; done. Qed.
Lemma added_arrays : arrays_ok n len b'.
Proof.
  destruct Hinv as (_ & _ & [A1 A2 A3 A4 A5 A6 A7] & _).
  assert (forall j, (exists x, occupied b j x) -> exists x, occupied b' j x) as Hocc.
  { intros j [x Hx]. exists x. apply added_occupied. right. split; [|done]. intros ->. by apply (Hfree x). }
  assert (exists x, occupied b' i x) as Hocci by (exists id; apply added_occupied; by left).
  split; try done.
  - by rewrite Hrow, length_insert.
  - rewrite Hrow. by apply Forall_insert.
  - apply Htables.
  - intros j g Hg. destruct (sampling_params (cs_args q)) as [sp|], (pooling_params (cs_args q)) as [p|]; try done;
      destruct Hparams as (_ & Eg & _); rewrite Eg in Hg; try (by apply Hocc, (A4 j g));
      (destruct (decide (j = i)) as [->|Hj]; [done|]; rewrite put_key_ne in Hg by done; by apply Hocc, (A4 j g)).
  - intros j g Hg. destruct (sampling_params (cs_args q)) as [sp|], (pooling_params (cs_args q)) as [p|]; try done;
      destruct Hparams as (_ & _ & Eg & _); rewrite Eg in Hg; try (by apply Hocc, (A5 j g));
      (destruct (decide (j = i)) as [->|Hj]; [done|]; rewrite put_key_ne in Hg by done; by apply Hocc, (A5 j g)).
  - rewrite Hcfg. intros Ep. destruct (sampling_params (cs_args q)) as [sp|], (pooling_params (cs_args q)) as [p|]; try done;
      destruct Hparams as (Ep' & Eg & Ew & El & Em & _); try congruence. rewrite Eg, Ew, El, Em. by apply A7.
Qed.
Lemma added_keys : keys_ok b'.
Proof.
  destruct Hinv as (_ & HL & _ & [K1 K2 K3 K4 K5 K6]).
  assert (is_Some (req_id_to_index b' !! id)) as Hid by (rewrite Hindex, lookup_insert_eq; by eexists).
  split; [| |done| | |].
  - intros x y Hx. destruct (sampling_params (cs_args q)) as [sp|], (pooling_params (cs_args q)) as [p|]; try done;
      destruct Hparams as (_ & _ & _ & El & _); rewrite El in Hx; try (by eapply added_dom, K1);
      (destruct (decide (x = id)) as [->|Hne]; [done|]; rewrite put_key_ne in Hx by done; by eapply added_dom, K1).
  - intros j x r' Hx Hr' Hl. apply added_occupied in Hx as [[-> ->]|[Hj Hx]].
    + rewrite Hrow, list_lookup_insert_eq in Hr'; [|destruct Hinv as (_ & _ & [A1 _ _ _ _ _ _] & _); lia]. injection Hr' as <-.
      assert (request_lora_mapping r = request_lora q) as E by (by injection Hrv). rewrite E in *. by apply Hlora2.
    + rewrite Hrow, list_lookup_insert_ne in Hr' by done. destruct (K2 j x r' Hx Hr' Hl) as (ids & E & Hin). by eapply Hlora1.
  - intros s x Hs Hx. destruct (sampling_params (cs_args q)) as [sp|], (pooling_params (cs_args q)) as [p|]; try done;
      destruct Hparams as (_ & _ & _ & _ & Em & _); rewrite Em in Hs; try (by eapply added_dom, K4);
      (destruct (entered_marks_in _ _ _ _ _ _ Hs Hx) as [->|(s' & Hs' & Hx')]; [done|by eapply added_dom, K4]).
  - intros x p' Hp. destruct (sampling_params (cs_args q)) as [sp|], (pooling_params (cs_args q)) as [p|]; try done;
      destruct Hparams as (_ & _ & _ & _ & _ & Ep); first [rewrite (proj1 Ep) in Hp|rewrite Ep in Hp]; try (by eapply added_dom, K5).
    destruct (decide (x = id)) as [->|Hne]; [done|]. rewrite lookup_insert_ne in Hp by done. by eapply added_dom, K5.
  - rewrite Hcfg. intros E. destruct (sampling_params (cs_args q)) as [sp|], (pooling_params (cs_args q)) as [p|]; try done;
      destruct Hparams as (Ep' & _ & _ & _ & _ & Ep); try congruence; rewrite (proj1 Ep); by apply K6.
Qed.
Lemma added_seen x : seen b' x = if decide (x = id) then Some (request_view (config b) (batch_block_table b) q output) else seen b x.
Proof.
  destruct Hinv as (_ & HL & [A1 A2 A3 A4 A5 A6 A7] & [K1 K2 K3 K4 K5 K6]).
  destruct (clear_spec_facts n b i HL Hil Hfree) as (C1 & C2 & _). pose proof (lo_outputs n b HL) as Ho.
  destruct Htables as (_ & _ & Htab). unfold seen. rewrite Hindex. case_decide as Ex.
  - subst x. rewrite lookup_insert_eq. simpl. f_equal. unfold view. rewrite Hcfg, Hrow, Htab, Houts, Hspecs, C1.
    rewrite decide_True, list_lookup_insert_eq, put_at_lookup, decide_True by (done || lia). simpl. rewrite Hrv.
    assert (generators b !! i = None) as Eg by (destruct (generators b !! i) eqn:E; [destruct (A4 _ _ E) as [y Hy]; by destruct (Hfree y)|done]).
    assert (bad_words b !! i = None) as Ew by (destruct (bad_words b !! i) eqn:E; [destruct (A5 _ _ E) as [y Hy]; by destruct (Hfree y)|done]).
    assert (num_logprobs b !! id = None) as El by (destruct (num_logprobs b !! id) eqn:E; [destruct (K1 _ _ E); congruence|done]).
    assert (forall s, s ∈ mark_list (marks b) -> id ∉ s) as Em by (intros s Hs Hin; destruct (K4 s id Hs Hin); congruence).
    assert (batch_pooling_params b !! id = None) as Epp by (destruct (batch_pooling_params b !! id) eqn:E; [destruct (K5 _ _ E); congruence|done]).
    unfold request_view, request_draw. destruct (sampling_params (cs_args q)) as [sp|].
    + destruct Hparams as (Ep & G1 & G2 & G3 & G4 & G5 & G6 & G7). rewrite Ep, G1, G2, G3, G4, G5, G6, G7. simpl.
      by rewrite !put_key_eq, marks_of_entered, Epp by done.
    + destruct (pooling_params (cs_args q)) as [p|]; [|done]. destruct Hparams as (Ep & G1 & G2 & G3 & G4 & G5). rewrite Ep, G5. simpl.
      by rewrite lookup_insert_eq.
  - rewrite lookup_insert_ne by done. destruct (req_id_to_index b !! x) as [j|] eqn:Ej; [|done]. simpl. f_equal.
    apply (lo_index n b HL) in Ej. assert (j <> i) as Hj by (intros ->; by apply (Hfree x)).
    unfold view. rewrite Hcfg, Hrow, Htab, Houts, Hspecs, (C2 j Hj), decide_False, list_lookup_insert_ne, put_at_lookup, decide_False by (done || lia).
    destruct (sampling_params (cs_args q)) as [sp|].
    + destruct Hparams as (Ep & G1 & G2 & G3 & G4 & G5 & G6 & G7). by rewrite G1, G2, G3, G4, G5, !put_key_ne, marks_of_entered_ne by done.
    + destruct (pooling_params (cs_args q)) as [p|]; [|done]. destruct Hparams as (Ep & G1 & G2 & G3 & G4 & G5).
      by rewrite G1, G2, G3, G4, G5, lookup_insert_ne by done.
Qed.
End addition.

Lemma row_view_lora r r' : token_ids_cpu r' = token_ids_cpu r -> is_token_ids r' = is_token_ids r -> row_num_tokens r' = row_num_tokens r ->
  num_tokens_no_spec r' = num_tokens_no_spec r -> row_num_prompt_tokens r' = row_num_prompt_tokens r ->
  num_computed_tokens_cpu r' = num_computed_tokens_cpu r ->
  row_view r' = mkRowView (v_tokens (row_view r)) (v_draft (row_view r)) (v_num_prompt (row_view r)) (v_num_computed (row_view r)) (request_lora_mapping r').
Proof. unfold row_view. by intros -> -> -> -> -> ->. Qed.

Lemma add_spec n len b q output : batch_inv n len b -> num_reqs b < Z.of_nat n -> req_id_to_index b !! cs_req_id q = None -> request_ok len b q output ->
  wp (add_request q output) (fun _ b' => batch_inv n len b' /\ same_setting b b' /\
    forall x, seen b' x = if decide (x = cs_req_id q) then Some (request_view (config b) (batch_block_table b) q output) else seen b x) b.
Proof.
  intros Hinv Hroom Hnew Hq. pose proof Hinv as (Hcap & HL & HA & HK). unfold add_request. bstep.
  eapply wp_mono; [by apply (register_spec n len)|]. intros i s (Hf & u & -> & Hu1 & Hu2 & Hu3).
  destruct (free_index_facts n len b i Hinv Hroom Hf) as (Hi & Hil & Hfree).
  destruct (lookup_lt_is_Some_2 (rows b) i) as [r Hr]; [by rewrite (ao_rows n len b HA)|].
  pose proof (proj1 (Forall_lookup _ _) (ao_row n len b HA) i r Hr) as Hrok.
  destruct (entered_row_ok len r q output Hrok (qo_prompt _ _ _ _ Hq) (qo_fits _ _ _ _ Hq)) as [Hrok' Hrv].
  bstep. eapply wp_mono; [apply enter_lists_spec; [apply (lo_outputs n b HL)|apply (lo_specs n b HL)|done]|]. intros [] s ->. do 3 bstep.
  eapply wp_mono; [apply (enter_tokens_spec len _ i r); [done|done|apply Hq|apply Hq]|]. intros [] s [e ->]. bstep. apply wp_zoom. bsimpl.
  eapply wp_mono; [apply (mt_add_row_spec n); [apply (ao_tables n len b HA)|done|apply Hq|apply Hq]|]. intros [] ts Htab. bstep.
  set (r1 := entered_row r q output) in *. match goal with |- wp _ _ ?s => set (b1 := s) end.
  assert (forall x, <[i := x]> (rows b) !! i = Some x) as Hins by (intros; apply list_lookup_insert_eq; by rewrite (ao_rows n len b HA)).
  pose proof (qo_kind _ _ _ _ Hq) as Hkind.
  destruct (sampling_params (cs_args q)) as [sp|] eqn:Esp; [|destruct (pooling_params (cs_args q)) as [p|] eqn:Epp].
  - assert (is_pooling_model (config b) = false) as Epool by (destruct (is_pooling_model _); [by destruct Hkind|done]).
    eapply wp_mono; [apply (enter_sampling_spec n b1 i r1 q (sp_draw sp)); [apply Hins|apply (ao_mask n len b HA)|done|done|]|].
    { intros l Hl. apply (qo_allowed _ _ _ _ Hq (sp_draw sp)); [|done]. unfold request_draw. by rewrite Esp. }
    intros [] s (m & Hm & Hm2 & ->). unfold b1. bstep. eapply wp_on_row; [bsimpl; rewrite list_insert_insert_eq; apply Hins|]. bstep. bsimpl. rewrite !list_insert_insert_eq.
    eapply wp_mono; [eapply enter_lora_spec; [bsimpl; apply Hins|apply (ko_lora_dom b HK)]|]. bsimpl. rewrite ?list_insert_insert_eq.
    intros [] s (l1 & l2 & Hd & Hk1 & Hk2 & ->). bsimpl. rewrite ?list_insert_insert_eq. bstep.
    match goal with |- batch_inv _ _ ?s /\ _ => set (b2 := s) end. set (r2 := set_request_lora_mapping _ _) in b2.
    assert (row_ok len r2 /\ row_view r2 =
      mkRowView (request_tokens q output) [] (cs_num_prompt_tokens q) (cs_num_computed_tokens q) (request_lora q)) as [Hrok2 Hrv2].
    { split; [by destruct Hrok'; split|]. rewrite (row_view_lora r1) by done. by rewrite Hrv. }
    assert (is_pooling_model (config b) = false /\ sampling_entered b i q r2 b2 (sp_draw sp)) as Hpar by (split; [done|]; unfold sampling_entered; by split_and!).
    split_and!; [|split; [done|apply Htab]|].
    + split_and!; [done| | |].
      * by eapply (added_lists n len b i q) with (u := u).
      * eapply (added_arrays n len b i q) with (r := r2); try done; [|by rewrite Esp]. split; [done|]. intros Hne. apply Hm2.
        unfold b2 in Hne. revert Hne. bsimpl. unfold entered_marks, mark. simpl. case_bool_decide as Hb; [by right|]. intros Hne. left.
        by apply (proj2 (ao_mask n len b HA)).
      * eapply (added_keys n len b i q) with (r := r2); try done. by rewrite Esp.
    + intros x. eapply (added_seen n len b i q) with (r := r2); try done. by rewrite Esp.
  - assert (is_pooling_model (config b) = true) as Epool by (destruct (is_pooling_model _); [done|by destruct Hkind]).
    do 2 bstep. eapply wp_on_row; [apply Hins|]. unfold b1. bsimpl. rewrite !list_insert_insert_eq. bstep.
    eapply wp_on_row; [bsimpl; apply Hins|]. bstep. bsimpl. rewrite !list_insert_insert_eq.
    eapply wp_mono; [eapply enter_lora_spec; [bsimpl; apply Hins|apply (ko_lora_dom b HK)]|]. bsimpl. rewrite ?list_insert_insert_eq.
    intros [] s (l1 & l2 & Hd & Hk1 & Hk2 & ->). bsimpl. rewrite ?list_insert_insert_eq. bstep.
    match goal with |- batch_inv _ _ ?s /\ _ => set (b2 := s) end. set (r2 := set_request_lora_mapping _ _) in b2.
    assert (row_ok len r2 /\ row_view r2 =
      mkRowView (request_tokens q output) [] (cs_num_prompt_tokens q) (cs_num_computed_tokens q) (request_lora q)) as [Hrok2 Hrv2].
    { split; [by destruct Hrok'; split|]. rewrite (row_view_lora r1) by done. by rewrite Hrv. }
    assert (is_pooling_model (config b) = true /\ pooling_entered b q b2 p) as Hpar by (split; [done|]; unfold pooling_entered; by split_and!).
    split_and!; [|split; [done|apply Htab]|].
    + split_and!; [done| | |].
      * by eapply (added_lists n len b i q) with (u := u).
      * eapply (added_arrays n len b i q) with (r := r2); try done; [apply (ao_mask n len b HA)|]. by rewrite Esp, Epp.
      * eapply (added_keys n len b i q) with (r := r2); try done. by rewrite Esp, Epp.
    + intros x. eapply (added_seen n len b i q) with (r := r2); try done. by rewrite Esp, Epp.
  - destruct (is_pooling_model (config b)); [by destruct Hkind as [_ [? ?]]|by destruct Hkind].
Qed.

(** ** Condensing *)

(** The lists while rows are moved: [bound] is one past the last row that may be in use. *)
Record lists_mid (n bound : nat) (b : InputBatch) : Prop := {
  lm_index : forall id i, req_id_to_index b !! id = Some i <-> occupied b i id;
  lm_holes : forall i, (i < bound)%nat -> (i ∈ holes b <-> req_ids_ b !! i = Some None);
  lm_bound : forall i id, occupied b i id -> (i < bound)%nat;
  lm_nodup : NoDup (holes b);
  lm_sorted : sorted_flag b = true -> StronglySorted (flip Nat.le) (holes b);
  lm_len : (bound <= length (req_ids_ b) <= n)%nat;
  lm_outputs : length (req_output_token_ids b) = length (req_ids_ b);
  lm_specs : (length (req_ids_ b) <= length (batch_spec_token_ids b))%nat;
  lm_no_spec : forall i l, batch_spec_token_ids b !! i = Some l -> l <> [] -> exists id, occupied b i id
}.
Lemma lists_ok_mid n b : lists_ok n b -> lists_mid n (length (req_ids_ b)) b.
Proof. intros [H1 H2 H3 H4 H5 H6 H7 H8]. split; try done. intros i id Hi. by eapply lookup_lt_Some. Qed.

Lemma move_key_lookup {A} (from to j : nat) (d : gmap nat A) : from <> to -> d !! to = None ->
  move_key from to d !! j = if decide (j = to) then d !! from else if decide (j = from) then None else d !! j.
Proof.
  intros Hne Hto. unfold move_key. destruct (d !! from) as [x|] eqn:E.
  - repeat case_decide; subst; rewrite ?lookup_insert_eq, ?lookup_insert_ne, ?lookup_delete_eq, ?lookup_delete_ne by done; done.
  - repeat case_decide; subst; done.
Qed.
Lemma move_key_none {A} (from to : nat) (d : gmap nat A) : d = ∅ -> move_key from to d = ∅.
Proof. by intros ->. Qed.

Lemma condense_row_ok len pooling src dst : row_ok len src -> row_ok len dst ->
  exists r, condense_row src dst pooling = Some r /\ row_ok len r /\ row_view r = row_view src /\
    (pooling = false -> draw_cpu r = draw_cpu src /\ num_accepted_tokens_cpu r = num_accepted_tokens_cpu src).
Proof.
  intros [S1 S2 S3 S4 S5 S6] [D1 D2 _ _ _ _]. unfold condense_row.
  rewrite slice_set_ok; [|lia|rewrite length_take; lia|lia]. simpl.
  rewrite slice_set_ok; [|lia|rewrite length_take; lia|lia]. simpl. eexists. split; [done|]. set (k := Z.to_nat (row_num_tokens src)) in *.
  match goal with |- row_ok _ (if pooling then ?x else _) /\ _ => set (r := x) end.
  assert (row_ok len r) as Hr.
  { split; unfold r; bsimpl; rewrite ?length_app, ?length_take, ?length_drop; lia. }
  assert (row_view r = row_view src) as Hv.
  { unfold row_view, r. bsimpl. fold k. set (m := Z.to_nat (num_tokens_no_spec src)). assert (m <= k)%nat by lia.
    assert (forall A (x y : list A), (k <= length x)%nat -> take m (take k x ++ y) = take m x) as Ht.
    { intros A x y Hx. rewrite take_app_le by (rewrite length_take; lia). rewrite take_take. f_equal. lia. }
    rewrite !Ht by lia. f_equal. rewrite take_app_le by (rewrite length_take; lia). by rewrite take_take, Nat.min_id. }
  destruct pooling; [done|]. split; [by destruct Hr; split|]. split; [|done].
  rewrite (row_view_lora r) by done. rewrite Hv. done.
Qed.

Lemma insert_two {A} i j (x y : A) l : i <> j -> (j < length l)%nat -> <[i := x]> (<[j := y]> l) !! j = Some y.
Proof. intros Hne Hj. rewrite list_lookup_insert_ne by done. by apply list_lookup_insert_eq. Qed.

(** *** One move *)
Section move.
Context (n : nat) (len : Z) (bound : nat) (b : InputBatch) (src dst : nat) (id : string) (rs rd r : Row) (out : option nat) (sp : list Z).
Context (HM : lists_mid n bound b) (HA : arrays_ok n len b) (HK : keys_ok b)
  (Hsrc : occupied b src id) (Hbound : bound = S src) (Hdst : req_ids_ b !! dst = Some None) (Hlt : (dst < src)%nat)
  (Hrs : rows b !! src = Some rs) (Hrd : rows b !! dst = Some rd) (Hout : req_output_token_ids b !! src = Some out)
  (Hsp : batch_spec_token_ids b !! src = Some sp).
Context (b' : InputBatch).
Context (Hcfg : config b' = config b)
  (Hids : req_ids_ b' = <[src := None]> (<[dst := Some id]> (req_ids_ b))) (Hindex : req_id_to_index b' = <[id := dst]> (req_id_to_index b))
  (Hholes : forall j, j ∈ holes b' <-> j ∈ holes b /\ j <> dst) (Hnd : NoDup (holes b'))
  (Hsort : StronglySorted (flip Nat.le) (holes b'))
  (Houts : req_output_token_ids b' = <[src := None]> (<[dst := out]> (req_output_token_ids b)))
  (Hspecs : batch_spec_token_ids b' = <[src := []]> (<[dst := sp]> (batch_spec_token_ids b))).

Lemma moved_occupied j x : occupied b' j x <-> (j = dst /\ x = id) \/ (j <> src /\ j <> dst /\ occupied b j x).
Proof.
  unfold occupied. rewrite Hids. pose proof (lookup_lt_Some _ _ _ Hsrc). pose proof (lookup_lt_Some _ _ _ Hdst).
  destruct (decide (j = src)) as [->|Hs].
  - rewrite list_lookup_insert_eq by (by rewrite length_insert). split; [done|]. intros [[-> _]|[? _]]; [lia|done].
  - rewrite list_lookup_insert_ne by done. destruct (decide (j = dst)) as [->|Hd].
    + rewrite list_lookup_insert_eq by done. naive_solver.
    + rewrite list_lookup_insert_ne by done. naive_solver.
Qed.
Lemma moved_lists : lists_mid n src b'.
Proof.
  pose proof HM as [H1 H2 H3 H4 H5 H6 H7 H8 H9]. pose proof (lookup_lt_Some _ _ _ Hsrc). pose proof (lookup_lt_Some _ _ _ Hdst). split.
  - intros x j. rewrite moved_occupied, Hindex. destruct (decide (x = id)) as [->|Hx].
    + rewrite lookup_insert_eq. split; [intros [= <-]; by left|]. intros [[-> _]|(Hj & _ & Ho)]; [done|]. destruct Hj.
      apply H1 in Ho, Hsrc. congruence.
    + rewrite lookup_insert_ne, H1 by done. split; [|naive_solver]. intros Ho. right. split_and!; [| |done]; intros ->; unfold occupied in *; congruence.
  - intros j Hj. rewrite Hholes, (H2 j) by lia. rewrite Hids, list_lookup_insert_ne by lia. destruct (decide (j = dst)) as [->|Hd].
    + rewrite list_lookup_insert_eq by done. naive_solver.
    + rewrite list_lookup_insert_ne by done. naive_solver.
  - intros j x [[-> _]|(Hj & _ & Ho)]%moved_occupied; [done|]. apply H3 in Ho. lia.
  - done.
  - done.
  - rewrite Hids, !length_insert. lia.
  - by rewrite Houts, Hids, !length_insert.
  - by rewrite Hspecs, Hids, !length_insert.
  - intros j l Hl Hne. rewrite Hspecs in Hl. destruct (decide (j = src)) as [->|Hs].
    { rewrite list_lookup_insert_eq in Hl by (rewrite length_insert; lia). by injection Hl as <-. }
    rewrite list_lookup_insert_ne in Hl by done. destruct (decide (j = dst)) as [->|Hd].
    { exists id. apply moved_occupied. by left. }
    rewrite list_lookup_insert_ne in Hl by done. destruct (H9 j l Hl Hne) as [x Hx]. exists x. apply moved_occupied. by right.
Qed.

Context (Hrows : rows b' = <[dst := r]> (rows b)) (Hrok : row_ok len r) (Hrv : row_view r = row_view rs)
  (Hdraw : is_pooling_model (config b) = false -> draw_cpu r = draw_cpu rs /\ num_accepted_tokens_cpu r = num_accepted_tokens_cpu rs)
  (Htables : tables_updated n (batch_block_table b) dst (map (fun t => row_blocks t src) (batch_block_table b)) (batch_block_table b'))
  (Hgen : generators b' = if is_pooling_model (config b) then generators b else move_key src dst (generators b))
  (Hbad : bad_words b' = if is_pooling_model (config b) then bad_words b else move_key src dst (bad_words b))
  (Hlog : num_logprobs b' = num_logprobs b) (Hmarks : marks b' = marks b) (Hpool : batch_pooling_params b' = batch_pooling_params b)
  (Hl1 : lora_id_to_request_ids b' = lora_id_to_request_ids b) (Hl2 : lora_id_to_lora_request b' = lora_id_to_lora_request b)
  (Hmask : mask_ok n b').

Lemma dst_free x : ~ occupied b dst x.
Proof. unfold occupied. congruence. Qed.
Lemma dst_empty : generators b !! dst = None /\ bad_words b !! dst = None.
Proof.
  split.
  - destruct (generators b !! dst) eqn:E; [destruct (ao_generators n len b HA _ _ E) as [x Hx]; by destruct (dst_free x)|done].
  - destruct (bad_words b !! dst) eqn:E; [destruct (ao_bad_words n len b HA _ _ E) as [x Hx]; by destruct (dst_free x)|done].
Qed.
Lemma moved_arrays : arrays_ok n len b'.
Proof.
  pose proof HA as [A1 A2 A3 A4 A5 A6 A7]. destruct dst_empty as [Eg Ew].
  assert (forall j, j <> src -> j <> dst -> (exists x, occupied b j x) -> exists x, occupied b' j x) as Hocc.
  { intros j ?? [x Hx]. exists x. apply moved_occupied. by right. }
  assert (exists x, occupied b' dst x) as Hd by (exists id; apply moved_occupied; by left).
  split; try done.
  - by rewrite Hrows, length_insert.
  - rewrite Hrows. by apply Forall_insert.
  - apply Htables.
  - intros j g. rewrite Hgen. destruct (is_pooling_model (config b)) eqn:Ep; [destruct (A7 eq_refl) as [-> _]; done|].
    rewrite move_key_lookup by (done || lia). repeat case_decide; subst; try done. intros Hg. apply Hocc; try done. by apply (A4 j g).
  - intros j g. rewrite Hbad. destruct (is_pooling_model (config b)) eqn:Ep; [destruct (A7 eq_refl) as (_ & -> & _); done|].
    rewrite move_key_lookup by (done || lia). repeat case_decide; subst; try done. intros Hg. apply Hocc; try done. by apply (A5 j g).
  - rewrite Hcfg, Hgen, Hbad, Hlog, Hmarks. intros E. rewrite E. by apply A7.
Qed.
Lemma moved_dom x : is_Some (req_id_to_index b !! x) -> is_Some (req_id_to_index b' !! x).
Proof. rewrite Hindex. intros H. destruct (decide (x = id)) as [->|]; [rewrite lookup_insert_eq|rewrite lookup_insert_ne by done]; done. Qed.
Lemma moved_keys : keys_ok b'.
Proof.
  pose proof HK as [K1 K2 K3 K4 K5 K6]. split; rewrite ?Hlog, ?Hl1, ?Hl2, ?Hmarks, ?Hpool, ?Hcfg; try done.
  - intros x y Hx. by eapply moved_dom, K1.
  - intros j x r' [[-> ->]|(Hj & Hd & Ho)]%moved_occupied Hr' Hne.
    + rewrite Hrows, list_lookup_insert_eq in Hr' by (by eapply lookup_lt_Some). injection Hr' as <-.
      assert (request_lora_mapping r = request_lora_mapping rs) as E by (by injection Hrv). rewrite E in *. by apply (K2 src).
    + rewrite Hrows, list_lookup_insert_ne in Hr' by done. by apply (K2 j).
  - intros s x Hs Hx. by eapply moved_dom, K4.
  - intros x p Hx. by eapply moved_dom, K5.
Qed.
Lemma moved_seen x : seen b' x = seen b x.
Proof.
  destruct Htables as (_ & _ & Htab). destruct dst_empty as [Eg Ew]. pose proof (lookup_lt_Some _ _ _ Hsrc). pose proof (lookup_lt_Some _ _ _ Hdst).
  pose proof (lm_outputs n bound b HM). pose proof (lm_specs n bound b HM).
  unfold seen. rewrite Hindex. destruct (decide (x = id)) as [->|Hx].
  - rewrite lookup_insert_eq. pose proof (proj2 (lm_index n bound b HM id src) Hsrc) as ->. simpl. f_equal. unfold view.
    rewrite Hcfg, Hlog, Hmarks, Hpool, Hrows, Htab, Houts, Hspecs, Hgen, Hbad, Hrs, Hout, Hsp.
    rewrite decide_True, list_lookup_insert_eq by (done || by eapply lookup_lt_Some). simpl. rewrite Hrv.
    rewrite (insert_two src dst None), (insert_two src dst []) by lia. simpl.
    destruct (is_pooling_model (config b)) eqn:Ep; simpl; [done|]. destruct (Hdraw eq_refl) as [-> ->].
    by rewrite !move_key_lookup, !decide_True by (done || lia).
  - rewrite lookup_insert_ne by done. destruct (req_id_to_index b !! x) as [j|] eqn:Ej; [|done]. simpl. f_equal.
    apply (lm_index n bound b HM) in Ej. assert (j <> src) as Hs by (intros ->; unfold occupied in *; congruence).
    assert (j <> dst) as Hd by (intros ->; by apply (dst_free x)).
    unfold view. rewrite Hcfg, Hlog, Hmarks, Hpool, Hrows, Htab, Houts, Hspecs, Hgen, Hbad, decide_False, !list_lookup_insert_ne by done.
    destruct (is_pooling_model (config b)); [done|]. simpl. by rewrite !move_key_lookup, !decide_False by (done || lia).
Qed.
End move.

Lemma mt_move_row_spec n ts src dst : Forall (table_ok n) ts -> (src < n)%nat -> (dst < n)%nat ->
  wp (mt_move_row src dst) (fun _ ts' => tables_updated n ts dst (map (fun t => row_blocks t src) ts) ts') ts.
Proof.
  intros Hok Hs Hd. unfold mt_move_row. eapply wp_mono.
  - apply (wp_each_table _ (fun _ t t' => row_updated n t dst (row_blocks t src) t')).
    intros g t Ht. apply (move_row_spec n); [|done|done]. by apply (proj1 (Forall_lookup _ _) Hok g).
  - intros _ ts' [Hl H]. apply tables_updated_intro; [done|by rewrite length_map|]. intros g t Ht.
    destruct (H g t Ht) as (t' & Ht' & Hu). exists t', (row_blocks t src). split_and!; [done| |done].
    change (map ?f ?l) with (f <$> l). by rewrite list_lookup_fmap, Ht.
Qed.

(** The state that a move leaves, up to the changes recorded for the logits processors. *)
Lemma move_spec n len b u src dst id :
  lists_mid n (S src) b -> arrays_ok n len b -> keys_ok b -> occupied b src id -> req_ids_ b !! dst = Some None -> (dst < src)%nat ->
  (forall j, j ∈ removed_indices u <-> j ∈ holes b /\ j <> dst) -> NoDup (removed_indices u) -> StronglySorted (flip Nat.le) (removed_indices u) ->
  is_removed_sorted u = true ->
  wp (move_request src dst) (fun _ b' => lists_mid n src b' /\ arrays_ok n len b' /\ keys_ok b' /\ sorted_flag b' = true /\ same_setting b b' /\
    removed_indices (batch_update_builder b') = removed_indices u /\ length (req_ids_ b') = length (req_ids_ b) /\
    size (req_id_to_index b') = size (req_id_to_index b) /\ forall x, seen b' x = seen b x) (set_batch_update_builder u b).
Proof.
  intros HM HA HK Hsrc Hdst Hlt Hu1 Hu2 Hu3 Hu4. pose proof (lm_len n _ b HM) as Hlen. pose proof (lookup_lt_Some _ _ _ Hsrc) as Hs.
  pose proof (lm_outputs n _ b HM) as Ho. pose proof (lm_specs n _ b HM) as Hsp.
  destruct (lookup_lt_is_Some_2 (rows b) src) as [rs Hrs]; [rewrite (ao_rows n len b HA); lia|].
  destruct (lookup_lt_is_Some_2 (rows b) dst) as [rd Hrd]; [rewrite (ao_rows n len b HA); lia|].
  destruct (lookup_lt_is_Some_2 (req_output_token_ids b) src) as [out Hout]; [lia|].
  destruct (lookup_lt_is_Some_2 (batch_spec_token_ids b) src) as [sp Hsps]; [lia|].
  destruct (lookup_lt_is_Some_2 (batch_spec_token_ids b) dst) as [sd Hsd]; [lia|].
  pose proof (ao_row n len b HA) as Hrow. rewrite Forall_lookup in Hrow.
  destruct (condense_row_ok len (is_pooling_model (config b)) rs rd (Hrow _ _ Hrs) (Hrow _ _ Hrd)) as (r & Er & Hrok & Hrv & Hdraw).
  assert (size (<[id := dst]> (req_id_to_index b)) = size (req_id_to_index b)) as Hsize.
  { apply map_size_insert_Some. exists src. by apply (lm_index n _ b HM). }
  assert (swap_at src dst (batch_spec_token_ids b) = Some (<[dst := sp]> (<[src := sd]> (batch_spec_token_ids b)))) as Esw
    by (unfold swap_at; by rewrite Hsps, Hsd).
  unfold occupied in Hsrc. unfold move_request, move_lists, get_row, put_row. repeat bstep. apply wp_zoom. bsimpl.
  eapply wp_mono; [apply (mt_move_row_spec n); [apply (ao_tables n len b HA)|lia|lia]|]. intros [] ts Htab.
  assert (forall b', config b' = config b -> req_ids_ b' = <[src := None]> (<[dst := Some id]> (req_ids_ b)) ->
    req_id_to_index b' = <[id := dst]> (req_id_to_index b) -> removed_indices (batch_update_builder b') = removed_indices u ->
    sorted_flag b' = true ->
    req_output_token_ids b' = <[src := None]> (<[dst := out]> (req_output_token_ids b)) ->
    batch_spec_token_ids b' = <[src := []]> (<[dst := sp]> (<[src := sd]> (batch_spec_token_ids b))) -> rows b' = <[dst := r]> (rows b) ->
    batch_block_table b' = ts -> generators b' = (if is_pooling_model (config b) then generators b else move_key src dst (generators b)) ->
    bad_words b' = (if is_pooling_model (config b) then bad_words b else move_key src dst (bad_words b)) ->
    num_logprobs b' = num_logprobs b -> marks b' = marks b -> batch_pooling_params b' = batch_pooling_params b ->
    lora_id_to_request_ids b' = lora_id_to_request_ids b -> lora_id_to_lora_request b' = lora_id_to_lora_request b ->
    mask_ok n b' ->
    lists_mid n src b' /\ arrays_ok n len b' /\ keys_ok b' /\ sorted_flag b' = true /\ same_setting b b' /\
    removed_indices (batch_update_builder b') = removed_indices u /\ length (req_ids_ b') = length (req_ids_ b) /\
    size (req_id_to_index b') = size (req_id_to_index b) /\ forall x, seen b' x = seen b x) as Hfin.
  { intros b' E1 E2 E3 E4 E5 E6 E7 E8 E9 E10 E11 E12 E13 E14 E15 E16 E17. rewrite (list_insert_insert_ne _ dst src), list_insert_insert_eq in E7 by lia.
    subst ts. assert (forall j, j ∈ holes b' <-> j ∈ holes b /\ j <> dst) as Hh by (unfold holes at 1; by rewrite E4).
    split_and!; try done; [..|by rewrite E2, !length_insert|by rewrite E3|].
    - by eapply (moved_lists n (S src) b src dst id rs out sp); try done; unfold holes; rewrite E4.
    - by eapply (moved_arrays n len (S src) b src dst id rs r out sp).
    - by eapply (moved_keys n (S src) b src dst id rs rd r out sp).
    - split; [done|apply Htab].
    - intros x. by eapply (moved_seen n len (S src) b src dst id rs rd r out sp). }
  destruct (is_pooling_model (config b)) eqn:Ep.
  - repeat bstep. apply Hfin; try done. apply (ao_mask n len b HA).
  - repeat bstep. destruct (allowed_token_ids_mask_cpu_tensor b) as [m|] eqn:Em.
    + pose proof (proj1 (ao_mask n len b HA) m Em) as Hm. destruct (lookup_lt_is_Some_2 m src) as [mr Hmr]; [lia|]. repeat bstep. apply Hfin; try done.
      split; [|by eexists]. intros m' [= <-]. by rewrite length_insert.
    + repeat bstep. apply Hfin; try done. exact (ao_mask n len b HA).
Qed.

(** *** The loop *)

Lemma peek_sorted u l e : is_removed_sorted u = true -> removed_indices u = l ++ [e] -> peek_removed u = Ret (Some e) u.
Proof.
  intros Hs El. unfold peek_removed, ensure_removed_sorted, py_bind, py_get, py_modify, py_gets.
  rewrite (proj2 (has_removed_spec u)) by (rewrite El; by destruct l). rewrite Hs, El. by rewrite last_snoc.
Qed.
Lemma pop_sorted u l e : is_removed_sorted u = true -> removed_indices u = l ++ [e] -> pop_removed u = Ret (Some e) (set_removed_indices l u).
Proof.
  intros Hs El. unfold pop_removed, ensure_removed_sorted, py_bind, py_get, py_modify, py_gets.
  rewrite (proj2 (has_removed_spec u)) by (rewrite El; by destruct l). rewrite Hs, El. by rewrite last_snoc, removelast_last.
Qed.

Lemma elem_of_upto (m : Z) (l : list nat) x : x ∈ List.filter (fun j => (Z.of_nat j <=? m)%Z) l <-> x ∈ l /\ Z.of_nat x <= m.
Proof. by rewrite list_elem_of_In, List.filter_In, <-list_elem_of_In, Z.leb_le. Qed.
Lemma skip_empty_spec fuel empty lst b : NoDup empty -> (length (List.filter (fun j => (Z.of_nat j <=? lst)%Z) empty) <= fuel)%nat -> -1 <= lst ->
  exists l', skip_empty fuel empty lst b = Ret l' b /\ -1 <= l' <= lst /\ (forall j, Z.of_nat j = l' -> j ∉ empty) /\
    forall j, l' < Z.of_nat j <= lst -> j ∈ empty.
Proof.
  revert lst. induction fuel as [|fuel IH]; intros lst Hnd Hf Hl; simpl; case_bool_decide as Hin.
  - destruct Hin as [H0 Hin]. exfalso.
    assert (Z.to_nat lst ∈ List.filter (fun j => Z.of_nat j <=? lst) empty) as H.
    { apply elem_of_upto. split; [done|]. lia. }
    destruct (List.filter _ empty); [by apply not_elem_of_nil in H|simpl in Hf; lia].
  - exists lst. split_and!; [done|done|done| |lia]. intros j <- Hj. apply Hin. rewrite Nat2Z.id. split; [lia|done].
  - destruct Hin as [H0 Hin]. destruct (IH (lst - 1) Hnd) as (l' & E & Hr & Hn & Hall); [|lia|].
    + assert (List.filter (fun j => Z.of_nat j <=? lst) empty ≡ₚ Z.to_nat lst :: List.filter (fun j => Z.of_nat j <=? lst - 1) empty) as Hp.
      { apply NoDup_Permutation; [by apply NoDup_ListNoDup, List.NoDup_filter, NoDup_ListNoDup| |].
        - constructor; [|by apply NoDup_ListNoDup, List.NoDup_filter, NoDup_ListNoDup]. intros [_ H]%elem_of_upto. lia.
        - intros j. rewrite elem_of_cons, !elem_of_upto. split.
          + intros [Hj Hle]. destruct (decide (j = Z.to_nat lst)); [by left|right]. split; [done|]. lia.
          + intros [->|[Hj Hle]]; (split; [done|lia]). }
      rewrite Hp in Hf. simpl in Hf. lia.
    + exists l'. split_and!; [done|lia|lia|done|]. intros j Hj. destruct (decide (Z.of_nat j = lst)) as [Ej|]; [|apply Hall; lia].
      by replace j with (Z.to_nat lst) by lia.
  - exists lst. split_and!; [done|done|done| |lia]. intros j <- Hj. apply Hin. rewrite Nat2Z.id. split; [lia|done].
Qed.

Lemma lists_mid_builder n bound b u : lists_mid n bound b -> removed_indices u ≡ₚ holes b -> StronglySorted (flip Nat.le) (removed_indices u) ->
  lists_mid n bound (set_batch_update_builder u b).
Proof.
  intros [H1 H2 H3 H4 H5 H6 H7 H8 H9] Hp Hs. split; try done.
  - intros i Hi. change (holes (set_batch_update_builder u b)) with (removed_indices u). rewrite Hp. by apply H2.
  - change (holes (set_batch_update_builder u b)) with (removed_indices u). by rewrite Hp.
Qed.
Lemma lists_mid_lower n bound bound' b : lists_mid n bound b -> (bound' <= bound)%nat ->
  (forall j, (bound' <= j < bound)%nat -> j ∈ holes b) -> lists_mid n bound' b.
Proof.
  intros [H1 H2 H3 H4 H5 H6 H7 H8 H9] Hle Hh. split; try done.
  - intros i Hi. apply H2. lia.
  - intros i id Hi. pose proof (H3 i id Hi). destruct (decide (i < bound')%nat); [done|].
    assert (i ∈ holes b) as Hin by (apply Hh; lia). apply H2 in Hin; [|done]. unfold occupied in Hi. congruence.
  - lia.
Qed.

Lemma arrays_builder n len b u : arrays_ok n len b -> arrays_ok n len (set_batch_update_builder u b).
Proof. by intros [? ? ? ? ? ? ?]; split. Qed.
Lemma keys_builder b u : keys_ok b -> keys_ok (set_batch_update_builder u b).
Proof. by intros [? ? ? ? ? ?]; split. Qed.
#[local] Hint Resolve arrays_builder keys_builder : core.

(** What the loop keeps, and the rows below the bound in use at its end. *)
Record condensed (n : nat) (len : Z) (b : InputBatch) (bound : nat) (b' : InputBatch) : Prop := {
  cd_lists : lists_mid n bound b';
  cd_arrays : arrays_ok n len b';
  cd_keys : keys_ok b';
  cd_setting : same_setting b b';
  cd_size : size (req_id_to_index b') = size (req_id_to_index b);
  cd_length : length (req_ids_ b') = length (req_ids_ b);
  cd_seen : forall x, seen b' x = seen b x;
  cd_full : forall j, (j < bound)%nat -> j ∉ holes b'
}.
Lemma condensed_trans n len b b1 bound b2 : same_setting b b1 -> size (req_id_to_index b1) = size (req_id_to_index b) ->
  length (req_ids_ b1) = length (req_ids_ b) -> (forall x, seen b1 x = seen b x) -> condensed n len b1 bound b2 -> condensed n len b bound b2.
Proof.
  intros [S1 S2] Hs Hl Hx [C1 C2 C3 [D1 D2] C5 C6 C7 C8]. split; try done; [split; congruence|congruence|congruence|]. intros x. by rewrite C7.
Qed.

Lemma nonnil_match {A B} (l : list A) (x y : B) : l <> [] -> match l with [] => x | _ :: _ => y end = y.
Proof. by destruct l. Qed.
Lemma condense_loop_spec n len fuel b lst bound : lists_mid n bound b -> arrays_ok n len b -> keys_ok b ->
  (length (holes b) <= fuel)%nat -> Z.of_nat bound = lst + 1 ->
  wp (condense_loop fuel lst) (fun _ b' => exists bound', condensed n len b bound' b') b.
Proof.
  revert b lst bound. induction fuel as [|fuel IH]; intros b lst bound HM HA HK Hf Hb.
  all: destruct (ensure_sorted (batch_update_builder b) (lm_sorted n bound b HM)) as (l & Es & Hp & Hs); fold (holes b) in Hp.
  all: set (u := set_is_removed_sorted true (set_removed_indices l (batch_update_builder b))) in *.
  all: pose proof (lists_mid_builder n bound b u HM Hp Hs) as HM1.
  all: cbn [condense_loop]; bstep; apply wp_zoom; unfold wp at 1, removed, py_bind at 1; rewrite Es; unfold py_gets; bsimpl.
  all: change (removed_indices u) with l.
  - destruct l as [|e l]; [|apply Permutation_length in Hp; simpl in Hp; lia]. bstep. exists bound. split; auto; try done. intros j _. apply not_elem_of_nil.
  - destruct (decide (l = [])) as [El|Hne]. { subst l. bstep. exists bound. split; auto; try done. intros j _. apply not_elem_of_nil. }
    rewrite nonnil_match by done. bstep.
    assert (NoDup l) as Hnd by (rewrite Hp; apply (lm_nodup n bound b HM)).
    destruct (skip_empty_spec (length l) l lst (set_batch_update_builder u b) Hnd) as (last' & E & Hr & Hn & Hall).
    { apply List.filter_length_le. } { lia. }
    unfold wp at 1. rewrite E. assert (exists l' e, l = l' ++ [e]) as (l' & e & El) by (destruct l as [|e l' _] using rev_ind; eauto; done).
    assert (removed_indices u = l' ++ [e]) as Eu by exact El. assert (is_removed_sorted u = true) as Eq_flag by done. subst l.
    bstep. apply wp_zoom. bsimpl. unfold wp at 1. rewrite (peek_sorted u l' e Eq_flag Eu). bstep. bstep.
    assert (lists_mid n (Z.to_nat (last' + 1)) (set_batch_update_builder u b)) as HM2.
    { eapply lists_mid_lower; [exact HM1|lia|]. intros j Hj. change (holes _) with (l' ++ [e]). apply Hall. lia. }
    apply StronglySorted_snoc_inv in Hs as [Hs' Hmin].
    destruct (last' <=? Z.of_nat e) eqn:Ec.
    + apply Z.leb_le in Ec. bstep. exists (Z.to_nat (last' + 1)). split; auto; try done.
      intros j Hj. change (holes _) with (l' ++ [e]). intros Hin. assert (e <= j)%nat as Hej.
      { apply elem_of_app in Hin as [Hin| ->%list_elem_of_singleton]; [|done]. by apply (proj1 (Forall_forall _ _) Hmin). }
      apply (Hn j); [lia|done].
    + apply Z.leb_gt in Ec. bstep. apply wp_zoom. bsimpl. unfold wp at 1. rewrite (pop_sorted u l' e Eq_flag Eu). bstep.
      set (src := Z.to_nat last'). assert (Z.to_nat (last' + 1) = S src) as Esrc by lia. rewrite Esrc in HM2.
      pose proof (lm_len n _ _ HM2) as Hlen. cbn [req_ids_ set_batch_update_builder] in Hlen.
      assert (req_ids_ b !! e = Some None) as He.
      { apply (lm_holes n _ _ HM2 e); [lia|]. change (holes _) with (l' ++ [e]). set_solver. }
      destruct (lookup_lt_is_Some_2 (req_ids_ b) src) as [[id|] Hsrc]; [lia| |].
      2:{ apply (lm_holes n _ _ HM2 src) in Hsrc; [|lia]. change (holes _) with (l' ++ [e]) in Hsrc. destruct (Hn src); [lia|done]. }
      apply NoDup_app in Hnd as (Hnd' & Hdis & _).
      eapply wp_mono.
      { apply (move_spec n len (set_batch_update_builder u b) (set_removed_indices l' u) src e id); auto; try done; [lia|].
        intros j. bsimpl. change (holes (set_batch_update_builder u b)) with (l' ++ [e]). split; [|set_solver].
        intros Hj. split; [set_solver|]. intros ->. apply (Hdis e Hj). set_solver. }
      intros [] b2 (M1 & M2 & M3 & M4 & M5 & M6 & M7 & M8 & M9).
      eapply wp_mono; [apply (IH b2 (last' - 1) src); try done|].
      * unfold holes. rewrite M6. bsimpl. apply Permutation_length in Hp. rewrite length_app in Hp. simpl in Hp. lia.
      * lia.
      * intros [] b3 [bound' Hc]. exists bound'. by apply (condensed_trans n len _ b2).
Qed.

(** The batch with no changes recorded. *)
Definition clean (b : InputBatch) : InputBatch := set_batch_update_builder builder_init b.
Definition trim (k : nat) (b : InputBatch) : InputBatch :=
  set_batch_spec_token_ids (take k (batch_spec_token_ids b))
    (set_req_output_token_ids (take k (req_output_token_ids b)) (set_req_ids_ (take k (req_ids_ b)) b)).

Lemma trim_occupied n bound b i id : lists_mid n bound b -> occupied (trim bound b) i id <-> occupied b i id.
Proof.
  intros HM. unfold occupied, trim. bsimpl. destruct (decide (i < bound)%nat).
  - by rewrite lookup_take_lt.
  - rewrite lookup_take_ge by lia. split; [done|]. intros Hi. pose proof (lm_bound n bound b HM i id Hi). lia.
Qed.
Lemma trim_lists n bound b : lists_mid n bound b -> (forall j, (j < bound)%nat -> j ∉ holes b) -> lists_ok n (clean (trim bound b)).
Proof.
  intros HM Hfull. pose proof HM as [H1 H2 H3 H4 H5 H6 H7 H8 H9].
  split; change (holes (clean (trim bound b))) with (@nil nat); unfold clean, trim; bsimpl; rewrite ?length_take.
  - intros x i. rewrite H1. symmetry. apply (trim_occupied n bound b i x HM).
  - intros i. split; [set_solver|]. intros Hi. destruct (decide (i < bound)%nat) as [Hb|]; [|by rewrite lookup_take_ge in Hi by lia].
    rewrite lookup_take_lt in Hi by done. apply H2 in Hi; [|done]. by destruct (Hfull i).
  - constructor.
  - done.
  - lia.
  - lia.
  - lia.
  - intros i l Hl Hne. destruct (decide (i < bound)%nat) as [Hb|]; [|by rewrite lookup_take_ge in Hl by lia].
    rewrite lookup_take_lt in Hl by done. destruct (H9 i l Hl Hne) as [x Hx]. exists x. by apply (trim_occupied n bound b i x HM).
Qed.
Lemma trim_arrays n len bound b : lists_mid n bound b -> arrays_ok n len b -> arrays_ok n len (clean (trim bound b)).
Proof.
  intros HM [A1 A2 A3 A4 A5 A6 A7]. split; try done.
  - intros i g Hg. destruct (A4 i g Hg) as [x Hx]. exists x. by apply (trim_occupied n bound b i x HM).
  - intros i g Hg. destruct (A5 i g Hg) as [x Hx]. exists x. by apply (trim_occupied n bound b i x HM).
Qed.
Lemma trim_keys n bound b : lists_mid n bound b -> keys_ok b -> keys_ok (clean (trim bound b)).
Proof.
  intros HM [K1 K2 K3 K4 K5 K6]. split; try done. intros i x r Hx. by apply K2, (trim_occupied n bound b i x HM).
Qed.
Lemma trim_seen n bound b x : lists_mid n bound b -> seen (trim bound b) x = seen b x.
Proof.
  intros HM. unfold seen, view, trim. bsimpl. destruct (req_id_to_index b !! x) as [i|] eqn:Ei; [|done]. simpl. f_equal.
  apply (lm_index n bound b HM) in Ei. by rewrite !lookup_take_lt by (by apply (lm_bound n bound b HM i x)).
Qed.

Lemma condense_spec n len b : batch_inv n len b ->
  wp condense (fun _ b' => batch_inv n len (clean b') /\ same_setting b b' /\ forall x, seen b' x = seen b x) b.
Proof.
  intros (Hcap & HL & HA & HK). pose proof (lists_ok_mid n b HL) as HM. pose proof (num_reqs_lists n b HL) as En.
  unfold condense. bstep. bstep. bstep. apply wp_zoom.
  destruct (ensure_sorted (batch_update_builder b) (lo_sorted n b HL)) as (l & Es & Hp & Hs). fold (holes b) in Hp.
  set (u := set_is_removed_sorted true (set_removed_indices l (batch_update_builder b))) in *.
  unfold wp at 1, removed, py_bind at 1. rewrite Es. unfold py_gets. bsimpl. change (removed_indices u) with l.
  pose proof (lists_mid_builder n _ b u HM Hp Hs) as HM1. set (b1 := set_batch_update_builder u b) in *.
  destruct (decide (l = [])) as [El|Hne].
  { subst l. bstep. split_and!; [|done|done].
    assert (forall j, (j < length (req_ids_ b))%nat -> j ∉ holes b1) as Hf by (intros j _; apply not_elem_of_nil).
    split_and!; [done| |by destruct HA; split|by destruct HK; split].
    destruct HL as [H1 H2 H3 H4 H5 H6 H7 H8]. split; try done; [|constructor].
    intros i. change (req_ids_ (clean b1)) with (req_ids_ b). rewrite <-(H2 i), <-Hp. done. }
  rewrite nonnil_match by done. destruct (num_reqs b =? 0) eqn:E0.
  - apply Z.eqb_eq in E0. assert (req_id_to_index b = ∅) as Ei by (apply map_size_empty_inv; unfold num_reqs in E0; lia).
    assert (forall i x, ~ occupied b i x) as Hno by (intros i x Hx; apply (lo_index n b HL) in Hx; by rewrite Ei in Hx).
    repeat bstep. split_and!; [|done|].
    + split_and!; [done| | |].
      * split; unfold clean; change (holes _) with (@nil nat); unfold occupied; bsimpl; try done; simpl; try lia.
        -- intros x i. rewrite Ei. by rewrite lookup_empty.
        -- intros i. split; [set_solver|done].
        -- constructor.
      * destruct HA as [A1 A2 A3 A4 A5 A6 A7]. split; try done.
        -- intros i g Hg. destruct (A4 i g Hg) as [x Hx]. by destruct (Hno i x).
        -- intros i g Hg. destruct (A5 i g Hg) as [x Hx]. by destruct (Hno i x).
      * destruct HK as [K1 K2 K3 K4 K5 K6]. by split.
    + intros x. unfold seen, b1. bsimpl. by rewrite Ei, lookup_empty.
  - apply Z.eqb_neq in E0. bstep. apply Permutation_length in Hp as Hpl.
    eapply wp_mono; [apply (condense_loop_spec n len _ b1 _ (length (req_ids_ b))); unfold b1; auto|].
    + rewrite Hpl. lia.
    + intros [] b2 [bound [C1 C2 C3 C4 C5 C6 C7 C8]].
      pose proof (trim_lists n bound b2 C1 C8) as HL'. pose proof (lists_count n _ HL') as Hc.
      change (holes (clean (trim bound b2))) with (@nil nat) in Hc. unfold clean, trim in Hc. cbn [req_id_to_index req_ids_ set_batch_update_builder set_batch_spec_token_ids set_req_output_token_ids set_req_ids_] in Hc.
      rewrite C5, length_take in Hc. pose proof (lm_len n bound b2 C1). simpl in Hc.
      assert (Z.to_nat (num_reqs b) = bound) as -> by (unfold num_reqs; unfold b1 in Hc; bsimpl; cbn [req_id_to_index set_batch_update_builder] in Hc; lia).
      repeat bstep. fold (trim bound b2). split_and!.
      * destruct C4 as [Ec Et]. split_and!; [|done|by apply trim_arrays|by apply (trim_keys n)]. change (config (clean (trim bound b2))) with (config b2). by rewrite Ec.
      * done.
      * intros x. rewrite (trim_seen n) by done. apply C7.
Qed.

(** ** Swapping *)

Lemma swap_index_invol i j k : swap_index i j (swap_index i j k) = k.
Proof. unfold swap_index. repeat case_decide; congruence. Qed.
Lemma swap_dict_lookup {A} i j (d : gmap nat A) k : swap_dict_values i j d !! k = d !! swap_index i j k.
Proof.
  unfold swap_dict_values, swap_index. destruct (decide (k = i)) as [->|Hi].
  - by rewrite lookup_partial_alter_eq.
  - rewrite lookup_partial_alter_ne by done. destruct (decide (k = j)) as [->|Hj]; [by rewrite lookup_partial_alter_eq|].
    by rewrite lookup_partial_alter_ne.
Qed.
Lemma take_row_ok len src dst pooling : row_ok len src -> row_ok len (take_row src dst pooling) /\ row_view (take_row src dst pooling) = row_view src /\
  (pooling = false -> draw_cpu (take_row src dst pooling) = draw_cpu src /\ num_accepted_tokens_cpu (take_row src dst pooling) = num_accepted_tokens_cpu src).
Proof. intros [? ? ? ? ? ?]. destruct pooling; (split; [by split|]; by split). Qed.

Lemma mt_swap_row_spec n ts i j : Forall (table_ok n) ts -> (i < n)%nat -> (j < n)%nat ->
  wp (mt_swap_row i j) (fun _ ts' => Forall (table_ok n) ts' /\ map table_config ts' = map table_config ts /\
    forall r, map (fun t => row_blocks t r) ts' = map (fun t => row_blocks t (swap_index i j r)) ts) ts.
Proof.
  intros Hok Hi Hj. unfold mt_swap_row. eapply wp_mono.
  - apply (wp_each_table _ (fun _ t t' => table_ok n t' /\ table_config t' = table_config t /\
      forall r, row_blocks t' r = row_blocks t (swap_index i j r))).
    intros g t Ht. apply (swap_row_spec n); [|done|done]. by apply (proj1 (Forall_lookup _ _) Hok g).
  - intros _ ts' [Hl H].
    assert (forall A (f f' : BlockTable -> A), (forall g t t', ts !! g = Some t -> ts' !! g = Some t' -> f' t' = f t) -> map f' ts' = map f ts) as Hmap.
    { intros A f f' Hf. apply list_eq. intros g. change (map ?f ?l) with (f <$> l). rewrite !list_lookup_fmap.
      destruct (ts !! g) as [t|] eqn:Ht.
      - destruct (H g t Ht) as (t' & Ht' & _). rewrite Ht'. simpl. f_equal. by apply (Hf g).
      - rewrite (lookup_ge_None_2 ts'); [done|]. rewrite Hl. by apply lookup_ge_None. }
    split_and!.
    + apply Forall_lookup. intros g t' Hg. destruct (lookup_lt_is_Some_2 ts g) as [t Ht]; [rewrite <-Hl; by eapply lookup_lt_Some|].
      destruct (H g t Ht) as (t'' & Hg' & Hok' & _). congruence.
    + apply Hmap. intros g t t' Ht Ht'. destruct (H g t Ht) as (t'' & Hg' & _ & Hc & _). congruence.
    + intros r. apply Hmap. intros g t t' Ht Ht'. destruct (H g t Ht) as (t'' & Hg' & _ & _ & Hb). replace t' with t'' by congruence. apply Hb.
Qed.

Section swap.
Context (n : nat) (len : Z) (b : InputBatch) (i1 i2 : nat) (id1 id2 : string).
Let p := swap_index i1 i2.
Context (HL : lists_ok n (clean b)) (HA : arrays_ok n len b) (HK : keys_ok b) (Hne : i1 <> i2)
  (Ho1 : occupied b i1 id1) (Ho2 : occupied b i2 id2).
Context (b' : InputBatch).
Context (Hcfg : config b' = config b) (Hids : forall j, req_ids_ b' !! j = req_ids_ b !! p j)
  (Hlen : length (req_ids_ b') = length (req_ids_ b))
  (Hindex : req_id_to_index b' = <[id2 := i1]> (<[id1 := i2]> (req_id_to_index b)))
  (Houts : forall j, req_output_token_ids b' !! j = req_output_token_ids b !! p j)
  (Hlenout : length (req_output_token_ids b') = length (req_output_token_ids b))
  (Hspecs : forall j, batch_spec_token_ids b' !! j = batch_spec_token_ids b !! p j)
  (Hlenspec : length (batch_spec_token_ids b') = length (batch_spec_token_ids b)).

Lemma swapped_occupied j x : occupied b' j x <-> occupied b (p j) x.
Proof. unfold occupied. by rewrite Hids. Qed.
Lemma swapped_index x : req_id_to_index b' !! x = p <$> req_id_to_index b !! x.
Proof.
  rewrite Hindex. assert (id1 <> id2) as Hid by (intros ->; destruct Hne; by eapply (occupied_inj n (clean b))).
  pose proof (proj2 (lo_index n _ HL id1 i1) Ho1) as E1. pose proof (proj2 (lo_index n _ HL id2 i2) Ho2) as E2.
  destruct (decide (x = id2)) as [->|Hx2].
  - rewrite lookup_insert_eq. change (req_id_to_index b !! id2 = Some i2) in E2. rewrite E2. simpl. f_equal. unfold p, swap_index. repeat case_decide; congruence.
  - rewrite lookup_insert_ne by done. destruct (decide (x = id1)) as [->|Hx1].
    + rewrite lookup_insert_eq. change (req_id_to_index b !! id1 = Some i1) in E1. rewrite E1. simpl. f_equal. unfold p, swap_index. by rewrite decide_True.
    + rewrite lookup_insert_ne by done. destruct (req_id_to_index b !! x) as [j|] eqn:Ej; [|done]. simpl. f_equal.
      apply (lo_index n _ HL) in Ej. change (occupied b j x) in Ej. unfold p, swap_index. repeat case_decide; subst; try done; unfold occupied in *; congruence.
Qed.
Lemma swapped_lists : lists_ok n (clean b').
Proof.
  pose proof HL as [H1 H2 H3 H4 H5 H6 H7 H8]. split; try done.
  - intros x j. change (req_id_to_index b' !! x = Some j <-> occupied b' j x). rewrite swapped_index, swapped_occupied.
    change (occupied b (p j) x) with (occupied (clean b) (p j) x). rewrite <-H1. change (req_id_to_index (clean b)) with (req_id_to_index b).
    destruct (req_id_to_index b !! x) as [k|]; simpl; [|done]. split; intros [= E]; f_equal.
    + subst. apply eq_sym, swap_index_invol.
    + subst. apply swap_index_invol.
  - intros j. change (j ∈ @nil nat <-> req_ids_ b' !! j = Some None). rewrite Hids.
    split; [intros H; by apply not_elem_of_nil in H|]. intros H. apply (H2 (p j)) in H. by apply not_elem_of_nil in H.
  - change (length (req_ids_ b') <= n)%nat. by rewrite Hlen.
  - change (length (req_output_token_ids b') = length (req_ids_ b')). by rewrite Hlen, Hlenout.
  - change (length (req_ids_ b') <= length (batch_spec_token_ids b'))%nat. by rewrite Hlen, Hlenspec.
  - intros j l Hl Hn. change (batch_spec_token_ids b' !! j = Some l) in Hl. rewrite Hspecs in Hl. destruct (H8 (p j) l Hl Hn) as [x Hx].
    exists x. by apply swapped_occupied.
Qed.

Context (Hrowsl : length (rows b') = length (rows b)) (Hrow : Forall (row_ok len) (rows b'))
  (Hrv : forall j, row_view <$> rows b' !! j = row_view <$> rows b !! p j)
  (Hdraw : is_pooling_model (config b) = false ->
     forall j, (fun r => (draw_cpu r, num_accepted_tokens_cpu r)) <$> rows b' !! j = (fun r => (draw_cpu r, num_accepted_tokens_cpu r)) <$> rows b !! p j)
  (Htables : Forall (table_ok n) (batch_block_table b') /\ map table_config (batch_block_table b') = map table_config (batch_block_table b) /\
     forall r, map (fun t => row_blocks t r) (batch_block_table b') = map (fun t => row_blocks t (p r)) (batch_block_table b))
  (Hgen : forall j, generators b' !! j = if is_pooling_model (config b) then generators b !! j else generators b !! p j)
  (Hbad : forall j, bad_words b' !! j = if is_pooling_model (config b) then bad_words b !! j else bad_words b !! p j)
  (Hlog : num_logprobs b' = num_logprobs b) (Hmarks : marks b' = marks b) (Hpool : batch_pooling_params b' = batch_pooling_params b)
  (Hl1 : lora_id_to_request_ids b' = lora_id_to_request_ids b) (Hl2 : lora_id_to_lora_request b' = lora_id_to_lora_request b)
  (Hmask : mask_ok n b').

Lemma swapped_arrays : arrays_ok n len b'.
Proof.
  pose proof HA as [A1 A2 A3 A4 A5 A6 A7]. split; try done.
  - by rewrite Hrowsl.
  - apply Htables.
  - intros j g. rewrite Hgen. destruct (is_pooling_model (config b)) eqn:Ep; [destruct (A7 eq_refl) as [-> _]; done|].
    intros Hg. destruct (A4 (p j) g Hg) as [x Hx]. exists x. by apply swapped_occupied.
  - intros j g. rewrite Hbad. destruct (is_pooling_model (config b)) eqn:Ep; [destruct (A7 eq_refl) as (_ & -> & _); done|].
    intros Hg. destruct (A5 (p j) g Hg) as [x Hx]. exists x. by apply swapped_occupied.
  - rewrite Hcfg, Hlog, Hmarks. intros E. destruct (A7 E) as (G1 & G2 & G3 & G4). rewrite E in Hgen, Hbad. split_and!; try done.
    + rewrite <-G1. apply map_eq. apply Hgen.
    + rewrite <-G2. apply map_eq. apply Hbad.
Qed.
Lemma swapped_dom x : is_Some (req_id_to_index b !! x) -> is_Some (req_id_to_index b' !! x).
Proof. rewrite swapped_index. intros [j ->]. by eexists. Qed.
Lemma swapped_keys : keys_ok b'.
Proof.
  pose proof HK as [K1 K2 K3 K4 K5 K6]. split; rewrite ?Hlog, ?Hl1, ?Hl2, ?Hmarks, ?Hpool, ?Hcfg; try done.
  - intros x y Hx. by eapply swapped_dom, K1.
  - intros j x r' Hx Hr' Hn. apply swapped_occupied in Hx. specialize (Hrv j). rewrite Hr' in Hrv.
    destruct (rows b !! p j) as [r|] eqn:Er; [|done]. simpl in Hrv.
    assert (request_lora_mapping r' = request_lora_mapping r) as E by (injection Hrv; done). rewrite E in *. by apply (K2 (p j)).
  - intros s x Hs Hx. by eapply swapped_dom, K4.
  - intros x q Hx. by eapply swapped_dom, K5.
Qed.
Lemma swapped_seen x : seen b' x = seen b x.
Proof.
  destruct Htables as (_ & _ & Htab). unfold seen. rewrite swapped_index. destruct (req_id_to_index b !! x) as [j|]; [|done]. simpl. f_equal.
  unfold view. rewrite Hcfg, Hlog, Hmarks, Hpool, Hrv, Htab, Houts, Hspecs, Hgen, Hbad. unfold p. rewrite swap_index_invol.
  destruct (is_pooling_model (config b)) eqn:Ep; [done|]. simpl. rewrite Hdraw by done. unfold p. by rewrite swap_index_invol.
Qed.
Lemma swapped_embeds x : (forall j, req_prompt_embeds b' !! j = req_prompt_embeds b !! p j) -> embeds_of b' x = embeds_of b x.
Proof.
  intros H. unfold embeds_of. rewrite swapped_index. destruct (req_id_to_index b !! x) as [j|]; [|done]. simpl. f_equal.
  rewrite H. unfold p. by rewrite swap_index_invol.
Qed.
End swap.

Lemma swap_views_length {A} i1 i2 (t : list A) : (i1 < length t)%nat -> (i2 < length t)%nat ->
  exists t', swap_views i1 i2 t = Some t' /\ length t' = length t.
Proof.
  intros H1 H2. unfold swap_views. destruct (lookup_lt_is_Some_2 t i1 H1) as [r1 E1], (lookup_lt_is_Some_2 t i2 H2) as [r2 E2].
  rewrite E2. simpl. rewrite E1. simpl. rewrite list_lookup_insert_eq by done. simpl. eexists. split; [done|]. by rewrite !length_insert.
Qed.
Lemma swap_spec n len b i1 i2 id1 id2 : batch_inv n len (clean b) -> i1 <> i2 -> occupied b i1 id1 -> occupied b i2 id2 ->
  wp (swap_states i1 i2) (fun _ b' => batch_inv n len (clean b') /\ same_setting b b' /\ (forall x, seen b' x = seen b x) /\
    length (req_ids_ b') = length (req_ids_ b) /\ (forall j, req_ids_ b' !! j = req_ids_ b !! swap_index i1 i2 j) /\
    rest_kept b b') b.
Proof.
  intros (Hcap & HL & HA0 & HK0) Hne Ho1 Ho2.
  assert (arrays_ok n len b) as HA by (by destruct HA0; split). assert (keys_ok b) as HK by (by destruct HK0; split). clear HA0 HK0.
  assert (i1 < length (req_ids_ b))%nat as L1 by (by eapply lookup_lt_Some). assert (i2 < length (req_ids_ b))%nat as L2 by (by eapply lookup_lt_Some).
  pose proof (lo_cap n _ HL) as Hcap'. pose proof (lo_outputs n _ HL) as Hout. pose proof (lo_specs n _ HL) as Hspec.
  change (length (req_ids_ b) <= n)%nat in Hcap'. change (length (req_output_token_ids b) = length (req_ids_ b)) in Hout.
  change (length (req_ids_ b) <= length (batch_spec_token_ids b))%nat in Hspec.
  pose proof (proj2 (lo_index n _ HL id1 i1) Ho1) as E1. pose proof (proj2 (lo_index n _ HL id2 i2) Ho2) as E2.
  change (req_id_to_index b !! id1 = Some i1) in E1. change (req_id_to_index b !! id2 = Some i2) in E2.
  destruct (swap_at_spec i1 i2 (req_ids_ b)) as (ids & Ei & Li & Hi); [done..|].
  destruct (swap_at_spec i1 i2 (req_output_token_ids b)) as (outs & Eo & Lo & Ho); [lia..|].
  destruct (swap_at_spec i1 i2 (batch_spec_token_ids b)) as (specs & Es & Ls & Hs); [lia..|].
  pose proof (ao_rows n len b HA) as Hrn.
  destruct (lookup_lt_is_Some_2 (rows b) i1) as [r1 Hr1]; [lia|]. destruct (lookup_lt_is_Some_2 (rows b) i2) as [r2 Hr2]; [lia|].
  pose proof (ao_row n len b HA) as Hrow. rewrite Forall_lookup in Hrow.
  destruct (take_row_ok len r1 r2 (is_pooling_model (config b)) (Hrow _ _ Hr1)) as (T1 & V1 & D1).
  destruct (take_row_ok len r2 r1 (is_pooling_model (config b)) (Hrow _ _ Hr2)) as (T2 & V2 & D2).
  set (newrows := <[i2 := take_row r1 r2 (is_pooling_model (config b))]> (<[i1 := take_row r2 r1 (is_pooling_model (config b))]> (rows b))).
  assert (length newrows = length (rows b) /\ Forall (row_ok len) newrows) as [Ln Fn].
  { unfold newrows. rewrite !length_insert. split; [done|]. apply Forall_insert; [apply Forall_insert|]; try done. by apply Forall_lookup. }
  assert (forall j, newrows !! j = if decide (j = i2) then Some (take_row r1 r2 (is_pooling_model (config b)))
     else if decide (j = i1) then Some (take_row r2 r1 (is_pooling_model (config b))) else rows b !! j) as Hnew.
  { intros j. unfold newrows. destruct (decide (j = i2)) as [->|]; [by rewrite list_lookup_insert_eq by (rewrite length_insert; lia)|].
    rewrite list_lookup_insert_ne by done. destruct (decide (j = i1)) as [->|]; [by rewrite list_lookup_insert_eq by lia|by rewrite list_lookup_insert_ne]. }
  match goal with |- wp _ ?Q _ => set (Post := Q) end.
  assert (forall b' ts, config b' = config b -> req_ids_ b' = ids -> req_id_to_index b' = <[id2 := i1]> (<[id1 := i2]> (req_id_to_index b)) ->
    req_output_token_ids b' = outs -> batch_spec_token_ids b' = specs -> rows b' = newrows -> batch_block_table b' = ts ->
    Forall (table_ok n) ts /\ map table_config ts = map table_config (batch_block_table b) /\
      (forall r, map (fun t => row_blocks t r) ts = map (fun t => row_blocks t (swap_index i1 i2 r)) (batch_block_table b)) ->
    (forall j, generators b' !! j = if is_pooling_model (config b) then generators b !! j else generators b !! swap_index i1 i2 j) ->
    (forall j, bad_words b' !! j = if is_pooling_model (config b) then bad_words b !! j else bad_words b !! swap_index i1 i2 j) ->
    num_logprobs b' = num_logprobs b -> marks b' = marks b -> batch_pooling_params b' = batch_pooling_params b ->
    lora_id_to_request_ids b' = lora_id_to_request_ids b -> lora_id_to_lora_request b' = lora_id_to_lora_request b ->
    mask_ok n b' -> (forall j, req_prompt_embeds b' !! j = req_prompt_embeds b !! swap_index i1 i2 j) ->
    (allowed_token_ids_mask_cpu_tensor b = None -> allowed_token_ids_mask_cpu_tensor b' = None) ->
    Post tt b') as Hfin.
  { intros b' ts F1 F2 F3 F4 F5 F6 F7 F8 F9 F10 F11 F12 F13 F14 F15 F16 F17 F18. subst ids outs specs ts.
    assert (forall A (f : Row -> A), f (take_row r1 r2 (is_pooling_model (config b))) = f r1 -> f (take_row r2 r1 (is_pooling_model (config b))) = f r2 ->
      forall j, f <$> rows b' !! j = f <$> rows b !! swap_index i1 i2 j) as Hf.
    { intros A f G1 G2 j. rewrite F6, Hnew. unfold swap_index. repeat case_decide; subst; simpl; rewrite ?Hr1, ?Hr2; simpl; congruence. }
    assert (is_pooling_model (config b) = false -> forall j, (fun r => (draw_cpu r, num_accepted_tokens_cpu r)) <$> rows b' !! j =
      (fun r => (draw_cpu r, num_accepted_tokens_cpu r)) <$> rows b !! swap_index i1 i2 j) as Hd.
    { intros Ep. destruct (D1 Ep) as [G1 G2], (D2 Ep) as [G3 G4]. apply (Hf _ (fun r => (draw_cpu r, num_accepted_tokens_cpu r))); congruence. }
    unfold Post. split_and!; try done.
    - split_and!; [change (config (clean b')) with (config b'); by rewrite F1| | |].
      + by eapply (swapped_lists n b i1 i2 id1 id2).
      + apply arrays_builder. eapply (swapped_arrays n len b i1 i2); try done; by rewrite F6.
      + apply keys_builder. eapply (swapped_keys n b i1 i2 id1 id2); try done. by apply Hf.
    - split; [done|apply F8].
    - intros x. eapply (swapped_seen n b i1 i2 id1 id2); try done. by apply Hf.
    - split; [|done]. intros x. by eapply (swapped_embeds n b i1 i2 id1 id2). }
  unfold occupied in Ho1, Ho2.
  unfold swap_states, get_row, put_row. repeat bstep. apply wp_zoom. bsimpl.
  eapply wp_mono; [apply (mt_swap_row_spec n); [apply (ao_tables n len b HA)|lia|lia]|]. intros [] ts Htab.
  destruct (is_pooling_model (config b)) eqn:Ep.
  - repeat bstep. apply (Hfin _ ts); try done; [apply (ao_mask n len b HA)|intros j; apply swap_dict_lookup].
  - repeat bstep. destruct (allowed_token_ids_mask_cpu_tensor b) as [m|] eqn:Em.
    + pose proof (proj1 (ao_mask n len b HA) m Em) as Hm. destruct (swap_views_length i1 i2 m) as (m' & Esw & Lm); [lia..|]. repeat bstep.
      apply (Hfin _ ts); try done; [intros j; apply swap_dict_lookup..| |intros j; apply swap_dict_lookup]. split; [|by eexists]. intros m'' [= <-]. lia.
    + repeat bstep. apply (Hfin _ ts); try done; [intros j; apply swap_dict_lookup..|exact (ao_mask n len b HA)|intros j; apply swap_dict_lookup].
Qed.
