(* ===== verification/PersistentBatch.v ===== *)
(** The sampling metadata made from the batch says of every row what its request asks for;
    construction and the updates of a row in place keep the invariant. *)
From stdpp Require Import gmap strings list sorting fin_maps.
From Stdlib Require Import ZArith QArith Lia.
From S2P Require Import Prelude Request BlockTable InputBatch InputBatchProofs.
Open Scope Z_scope.

(** ** The metadata *)

Lemma make_metadata_ok n len b : batch_inv n len (clean b) -> exists md, make_sampling_metadata b = inr md.
Proof.
  intros (_ & HL & HA0 & HK0). assert (arrays_ok n len b) as HA by (by destruct HA0; split). assert (keys_ok b) as HK by (by destruct HK0; split).
  pose proof (num_reqs_lists n _ HL) as En. change (num_reqs (clean b)) with (num_reqs b) in En. change (holes (clean b)) with (@nil nat) in En.
  change (req_ids_ (clean b)) with (req_ids_ b) in En. pose proof (lo_cap n _ HL) as Hcap. change (length (req_ids_ b) <= n)%nat in Hcap. simpl in En.
  assert (req_id_to_index b <> ∅ -> active_rows b <> []) as Hact.
  { intros Hne E. unfold active_rows in E. apply (f_equal length) in E. rewrite length_take, (ao_rows n len b HA) in E. simpl in E.
    apply Hne. apply map_size_empty_inv. unfold num_reqs in *. lia. }
  assert (forall s, s ∈ mark_list (marks b) -> s <> ∅ -> req_id_to_index b <> ∅) as Hmark.
  { intros s Hs Hne. apply set_choose_L in Hne as [x Hx]. destruct (ko_marks b HK s x Hs Hx) as [i Hi]. intros E. by rewrite E in Hi. }
  assert (negb (no_penalties b) || existsb logits_processing_needs_token_ids (active_rows b) = true -> active_rows b <> []) as Hp.
  { intros [H|H]%orb_prop.
    - apply Hact. unfold no_penalties in H. unfold mark_list in Hmark. rewrite !negb_andb, !orb_true_iff, !negb_true_iff, !bool_decide_eq_false in H.
      destruct H as [[H|H]|H]; eapply Hmark; try exact H; set_solver.
    - intros E. by rewrite E in H. }
  unfold make_sampling_metadata.
  destruct (negb (no_penalties b) || existsb logits_processing_needs_token_ids (active_rows b)).
  - unfold make_prompt_token_ids_tensor. destruct (active_rows b) as [|r rs] eqn:Er; [by destruct Hp|]. cbn [map].
    unfold no_allowed_token_ids. case_bool_decide as Ea; [by eexists|]. destruct (proj2 (ao_mask n len b HA) Ea) as [m ->]. by eexists.
  - unfold no_allowed_token_ids. case_bool_decide as Ea; [by eexists|]. destruct (proj2 (ao_mask n len b HA) Ea) as [m ->]. by eexists.
Qed.

(** The parameters that a row of the metadata stands for. A parameter that the metadata leaves
    out has its default. *)
Record sampled_with (cfg : BatchConfig) (md : SamplingMetadata) (i : nat) (d : DrawParams) : Prop := {
  sw_temperature : match md_temperature md with Some l => l !! i = Some (if is_greedy d then 0%Q else temperature d) | None => is_greedy d = true end;
  sw_all_greedy : md_all_greedy md = true -> is_greedy d = true;
  sw_all_random : md_all_random md = true -> is_greedy d = false;
  sw_top_p : match md_top_p md with Some l => l !! i = Some (top_p d) | None => Qlt_bool (top_p d) 1 = false end;
  sw_top_k : match md_top_k md with
             | Some l => l !! i = Some (if limits_top_k (vocab_size cfg) d then top_k d else vocab_size cfg)
             | None => limits_top_k (vocab_size cfg) d = false
             end;
  sw_penalties : match md_penalties md with
                 | Some l => l !! i = Some (frequency_penalty d, presence_penalty d, repetition_penalty d)
                 | None => Qeq_bool (frequency_penalty d) 0 && Qeq_bool (presence_penalty d) 0 && Qeq_bool (repetition_penalty d) 1 = true
                 end;
  sw_logprobs : forall k, logprobs d = Some k -> exists m, md_max_num_logprobs md = Some m /\ (if k =? -1 then vocab_size cfg else k) <= m
}.
Lemma in_mark c x : bool_decide (x ∈ mark c x ∅) = c.
Proof. unfold mark. destruct c; [apply bool_decide_eq_true_2|apply bool_decide_eq_false_2]; set_solver. Qed.
Lemma not_marked (s : gset string) x c : bool_decide (x ∈ s) = c -> bool_decide (s = ∅) = true -> c = false.
Proof. intros <- ->%bool_decide_eq_true. apply bool_decide_eq_false_2. set_solver. Qed.
Lemma max_logprobs_le b x k : num_logprobs b !! x = Some k -> exists m, max_num_logprobs b = Some m /\ k <= m.
Proof.
  intros H. unfold max_num_logprobs. apply elem_of_map_to_list in H. apply (list_elem_of_fmap_2 snd) in H. change (snd <$> ?l) with (map snd l) in H. simpl in H.
  destruct (map snd _) as [|y l]; [by apply not_elem_of_nil in H|]. eexists. split; [done|]. apply elem_of_cons in H as [->|H].
  - clear. induction l; simpl; lia.
  - revert H. induction l as [|z l IH]; intros H; [by apply not_elem_of_nil in H|]. simpl. apply elem_of_cons in H as [->|H]; [|specialize (IH H)]; lia.
Qed.
Lemma metadata_rows n len b md x i d acc lp : batch_inv n len (clean b) -> is_pooling_model (config b) = false -> make_sampling_metadata b = inr md ->
  req_id_to_index b !! x = Some i -> (fun r => (draw_cpu r, num_accepted_tokens_cpu r)) <$> rows b !! i = Some (draw_row (config b) d, acc) ->
  marks_of x (marks b) = marks_of x (request_marks (config b) x d) -> num_logprobs b !! x = lp ->
  lp = (fun k => if k =? -1 then vocab_size (config b) else k) <$> logprobs d -> sampled_with (config b) md i d.
Proof.
  intros Hinv Hp Hmd Hi Hrow Hmarks <- Hlp. pose proof Hinv as (_ & HL & _). pose proof (num_reqs_lists n _ HL) as En.
  change (num_reqs (clean b)) with (num_reqs b) in En. change (holes (clean b)) with (@nil nat) in En. change (req_ids_ (clean b)) with (req_ids_ b) in En. simpl in En.
  assert (occupied b i x) as Hocc by (by apply (lo_index n _ HL x i)). pose proof (lookup_lt_Some _ _ _ Hocc) as Hlt.
  destruct (rows b !! i) as [r|] eqn:Er; [|done]. simpl in Hrow. assert (draw_cpu r = draw_row (config b) d) as Hd by congruence.
  assert (active_rows b !! i = Some r) as Ha by (unfold active_rows; rewrite lookup_take_lt by lia; done).
  unfold marks_of, mark_list, request_marks, entered_marks, add_marks, no_marks in Hmarks. cbn -[bool_decide mark] in Hmarks.
  injection Hmarks as M1 M2 M3 M4 _ M6 M7 M8 _. rewrite in_mark in M1, M2, M3, M4, M6, M7, M8.
  assert (forall A (f : DrawRow -> A), map f (map draw_cpu (active_rows b)) !! i = Some (f (draw_row (config b) d))) as Hget.
  { intros A f. change (map ?f ?l) with (f <$> l). by rewrite !list_lookup_fmap, Ha, <-Hd. }
  unfold make_sampling_metadata in Hmd. destruct (if _ || _ then _ else _) as [e|pt]; [done|]. destruct (if no_allowed_token_ids b then _ else _) as [e|al]; [done|].
  injection Hmd as <-. split; simpl.
  - unfold all_greedy. destruct (bool_decide (random_reqs _ = ∅)) eqn:E; [|apply Hget]. pose proof (not_marked _ _ _ M2 E). by destruct (is_greedy d).
  - intros E. unfold all_greedy in E. pose proof (not_marked _ _ _ M2 E). by destruct (is_greedy d).
  - intros E. exact (not_marked _ _ _ M1 E).
  - unfold no_top_p. destruct (bool_decide (top_p_reqs _ = ∅)) eqn:E; [|apply Hget]. exact (not_marked _ _ _ M3 E).
  - unfold no_top_k. destruct (bool_decide (top_k_reqs _ = ∅)) eqn:E; [|apply Hget]. exact (not_marked _ _ _ M4 E).
  - destruct (no_penalties b) eqn:E; [|apply Hget]. unfold no_penalties in E. apply andb_prop in E as [[E1 E2]%andb_prop E3].
    pose proof (not_marked _ _ _ M6 E2) as F1. pose proof (not_marked _ _ _ M7 E1) as F2. pose proof (not_marked _ _ _ M8 E3) as F3.
    apply negb_false_iff in F1, F2, F3. by rewrite F1, F2, F3.
  - intros k Hk. rewrite Hk in Hlp. simpl in Hlp. exact (max_logprobs_le b x _ Hlp).
Qed.

(** The refreshed batch: nothing recorded, and the metadata made anew if something was. *)
Definition changed (b : InputBatch) : bool :=
  let u := batch_update_builder b in
  if is_pooling_model (config b) then batch_changed u
  else negb (is_nil (removed_indices u) && is_nil (moved u) && is_nil (added u)).
Lemma refresh_spec n len b : batch_inv n len (clean b) ->
  wp refresh_metadata (fun _ b' => exists md, b' = set_sampling_metadata md (clean b) /\
    if changed b then make_sampling_metadata b = inr md else md = sampling_metadata b) b.
Proof.
  intros Hinv. destruct (make_metadata_ok n len b Hinv) as [md Hmd]. unfold refresh_metadata, changed. bstep. bstep.
  destruct (is_pooling_model (config b)).
  - bstep. apply wp_zoom. unfold reset. repeat bstep. fold (clean b). destruct (batch_changed (batch_update_builder b)).
    + do 3 bstep. change (make_sampling_metadata (clean b)) with (make_sampling_metadata b). rewrite Hmd. cbn [py_lift]. repeat bstep. by exists md.
    + repeat bstep. exists (sampling_metadata b). split; [|done]. by destruct b.
  - bstep. apply wp_zoom. unfold get_and_reset. repeat bstep.
    destruct (is_nil (removed_indices (batch_update_builder b)) && is_nil (moved (batch_update_builder b)) && is_nil (added (batch_update_builder b))) eqn:E.
    + repeat bstep. exists (sampling_metadata b). split; [|done]. apply andb_prop in E as [[E1 E2]%andb_prop E3].
      destruct b as [? ? ? ? ? ? ? ? ? ? ? ? u ? ? ? ? ? ? ?], u as [l1 f1 l2 l3 f2]. simpl in *. by destruct l1, l2, l3.
    + repeat bstep. change (make_sampling_metadata (set_batch_update_builder builder_init b)) with (make_sampling_metadata b).
      rewrite Hmd. cbn [py_lift]. repeat bstep. by exists md.
Qed.

(** ** Construction *)

Lemma no_marks_empty s : s ∈ mark_list no_marks -> s = ∅.
Proof. intros Hs. unfold mark_list in Hs. simpl in Hs. repeat (apply elem_of_cons in Hs as [->|Hs]; [done|]). by apply not_elem_of_nil in Hs. Qed.
Lemma init_inv cfg tables : 0 <= max_num_reqs cfg -> 0 <= batch_max_model_len cfg -> Forall (table_ok (Z.to_nat (max_num_reqs cfg))) tables ->
  batch_inv (Z.to_nat (max_num_reqs cfg)) (batch_max_model_len cfg) (input_batch_init cfg tables) /\
  forall id, seen (input_batch_init cfg tables) id = None.
Proof.
  intros Hn Hl Ht. split; [|intros id; unfold seen; simpl; by rewrite lookup_empty]. split; [simpl; lia|]. split_and!.
  - split; simpl; try done.
    + intros i. split; [intros H; by apply not_elem_of_nil in H|]. done.
    + constructor.
    + lia.
    + rewrite length_replicate. lia.
    + intros i l Hi Hne. apply lookup_replicate in Hi as [-> _]. done.
  - split; simpl; try done.
    + by rewrite length_replicate.
    + apply Forall_replicate. split; simpl; rewrite ?length_replicate; lia.
    + intros _. split_and!; try done. apply no_marks_empty.
  - split; simpl; try done.
    + intros s id Hs Hid. by rewrite (no_marks_empty s Hs) in Hid.
Qed.

(** ** Writing to one row *)

Definition retouched (b : InputBatch) (i : nat) (row : Row) (ts : list BlockTable) (sp : list Z) : InputBatch :=
  set_batch_spec_token_ids (<[i := sp]> (batch_spec_token_ids b)) (set_batch_block_table ts (set_rows (<[i := row]> (rows b)) b)).
Definition touched_view (v : View) (row : RowView) (blocks : list (option (list Z))) (sp : list Z) (accepted : Z) : View :=
  mkView (Some row) blocks (v_output v) sp ((fun d => (fst d, accepted)) <$> v_draw v) (v_generator v) (v_bad_words v)
    (v_logprobs v) (v_marks v) (v_pooling v).
Lemma retouch_spec n len b i id r row ts blocks sp :
  batch_inv n len b -> occupied b i id -> rows b !! i = Some r -> row_ok len row -> request_lora_mapping row = request_lora_mapping r ->
  draw_cpu row = draw_cpu r -> tables_updated n (batch_block_table b) i blocks ts ->
  let b' := retouched b i row ts sp in
  batch_inv n len b' /\ same_setting b b' /\
  forall x, seen b' x = if decide (x = id) then Some (touched_view (view b i id) (row_view row) blocks sp (num_accepted_tokens_cpu row)) else seen b x.
Proof.
  intros (Hcap & HL & HA & HK) Hocc Hr Hrow Hlora Hdraw (Htab & Hset & Hblocks) b'.
  assert (forall A (f : Row -> A) j, j <> i -> f <$> rows b' !! j = f <$> rows b !! j) as Hne by (intros A f j Hj; unfold b'; simpl; by rewrite list_lookup_insert_ne).
  assert (rows b' !! i = Some row) as Hi by (unfold b'; simpl; apply list_lookup_insert_eq; by eapply lookup_lt_Some).
  split_and!; [|split; done|].
  - split; [done|]. split_and!.
    + destruct HL as [L1 L2 L3 L4 L5 L6 L7 L8]. split; try done.
      * unfold b'. simpl. by rewrite length_insert.
      * intros j l Hj Hnl. destruct (decide (j = i)) as [->|Hji]; [by exists id|].
        unfold b' in Hj. simpl in Hj. rewrite list_lookup_insert_ne in Hj by done. by apply (L8 j l).
    + destruct HA as [A1 A2 A3 A4 A5 A6 A7]. split; try done.
      * unfold b'. simpl. by rewrite length_insert.
      * unfold b'. simpl. by apply Forall_insert.
    + destruct HK as [K1 K2 K3 K4 K5 K6]. split; try done.
      intros j x q Hx Hq. destruct (decide (j = i)) as [->|Hji].
      * rewrite Hi in Hq. injection Hq as <-. rewrite Hlora. by apply (K2 i).
      * unfold b' in Hq. simpl in Hq. rewrite list_lookup_insert_ne in Hq by done. by apply (K2 j).
  - intros x. unfold seen. change (req_id_to_index b') with (req_id_to_index b). case_decide as Hx; [subst x|].
    + rewrite (proj2 (lo_index n b HL id i) Hocc). simpl. f_equal. unfold view, touched_view. rewrite Hi, Hr. unfold b'. simpl. rewrite Hblocks, decide_True by done.
      rewrite list_lookup_insert_eq by (pose proof (lo_specs n b HL); apply lookup_lt_Some in Hocc; lia).
      f_equal. destruct (is_pooling_model (config b)); simpl; [done|]. by rewrite Hdraw.
    + destruct (req_id_to_index b !! x) as [j|] eqn:Ej; [|done]. simpl. f_equal.
      assert (j <> i) as Hj. { intros ->. apply (lo_index n b HL) in Ej. unfold occupied in *. congruence. }
      unfold view. rewrite !Hne by done. unfold b'. simpl. rewrite Hblocks, decide_False by done. by rewrite list_lookup_insert_ne.
Qed.

(** Appending blocks to one row of every table. *)
Lemma mt_append_row_spec n ts r old ids : Forall (table_ok n) ts -> (r < n)%nat -> length old = length ts -> length ids = length ts ->
  map (fun t => row_blocks t r) ts = zip_with (fun t l => Some (kernel_ids t l)) ts old ->
  (forall g t l l', ts !! g = Some t -> old !! g = Some l -> ids !! g = Some l' -> row_fits t 0 (l ++ l')) ->
  wp (mt_append_row ids r) (fun _ ts' => tables_updated n ts r (zip_with (fun t l => Some (kernel_ids t l)) ts (zip_with app old ids)) ts') ts.
Proof.
  intros Hok Hr Hold Hids Hhave Hfit. unfold mt_append_row. eapply wp_mono.
  - apply (wp_each_table _ (fun g t t' => exists l l', old !! g = Some l /\ ids !! g = Some l' /\ row_updated n t r (Some (kernel_ids t (l ++ l'))) t')).
    intros g t Ht. pose proof (lookup_lt_Some _ _ _ Ht) as Hg.
    destruct (lookup_lt_is_Some_2 ids g) as [l' Hl']; [lia|]. destruct (lookup_lt_is_Some_2 old g) as [l Hl]; [lia|].
    unfold with_group. bstep. rewrite Hl'. bstep. pose proof (proj1 (Forall_lookup _ _) Hok g t Ht) as Hto.
    eapply wp_mono; [apply (append_row_spec n _ _ (kernel_ids t l))|].
    + done.
    + done.
    + apply (f_equal (.!! g)) in Hhave. change (map ?f ?l) with (f <$> l) in Hhave. rewrite list_lookup_fmap, Ht in Hhave. rewrite lookup_zip_with, Ht, Hl in Hhave.
      by injection Hhave.
    + destruct (Hfit g t l l' Ht Hl Hl') as [F1 F2]. rewrite (kernel_ids_app n), forallb_app, length_app in * by done. apply andb_prop in F1 as [_ F1]. split; [done|lia].
    + intros [] t' Ht'. exists l, l'. rewrite (kernel_ids_app n) by done. done.
  - intros _ ts' [Hl H]. apply tables_updated_intro; [done|rewrite !length_zip_with; lia|]. intros g t Ht.
    destruct (H g t Ht) as (t' & Ht' & l & l' & El & El' & Hu). exists t', (Some (kernel_ids t (l ++ l'))). split_and!; [done| |done].
    rewrite !lookup_zip_with, Ht, El, El'. done.
Qed.
