(* ===== verification/BatchReorder.v ===== *)
(** The order of the batch that attention backends ask for
    ([v1/attention/backends/utils.py], [reorder_batch_to_split_decodes_and_prefills]):
    requests that decode come first, then those that extend a computed prefix, then those
    that start. The reordering exchanges rows along the cycles of a permutation; it ends,
    puts the regions in order, leaves a row that is in its region where it is, and changes
    nothing that is seen of a request. *)
From stdpp Require Import gmap strings list sorting fin_maps.
From Stdlib Require Import ZArith QArith Lia.
From S2P Require Import Prelude Request BlockTable InputBatch InputBatchProofs.
Open Scope Z_scope.

(** ** The reordering *)

(** 0: decode, 1: extend, 2: prefill. *)
Definition region (decode_threshold num_scheduled num_computed : Z) : Z :=
  if num_scheduled <=? decode_threshold then 0
  else if 0 <? num_computed then 1 else if num_computed =? 0 then 2 else 0.
Definition is_decode (decode_threshold num_scheduled : Z) : bool := num_scheduled <=? decode_threshold.
Definition is_extend (decode_threshold num_scheduled num_computed : Z) : bool :=
  negb (is_decode decode_threshold num_scheduled) && (0 <? num_computed).
Definition count_true (l : list bool) : nat := length (List.filter id l).
Definition target_regions (num_reqs num_decodes num_extends : nat) : list Z :=
  replicate num_decodes 0 ++ replicate num_extends 1 ++ replicate (num_reqs - num_decodes - num_extends) 2.

(** [np.argsort(..., kind="stable")] and the selection by it *)
Fixpoint insert_by (key : nat -> Z) (i : nat) (l : list nat) : list nat :=
  match l with
  | [] => [i]
  | j :: l' => if key i <=? key j then i :: l else j :: insert_by key i l'
  end.
Definition stable_sort_by (key : nat -> Z) (l : list nat) : list nat := foldr (insert_by key) [] l.

(** The indices at which two arrays differ. *)
Definition where_differ (a b : list Z) : list nat :=
  List.filter (fun i => negb (bool_decide (a !! i = b !! i))) (seq 0 (length a)).

Definition region_at (regions : list Z) (i : nat) : Z := default 0 (regions !! i).

(** [while src != dst] *)
Fixpoint follow_cycle (fuel : nat) (src dst : nat) (src_dest_map : gmap nat nat) : py InputBatch (gmap nat nat) :=
  if (src =? dst)%nat then py_ret src_dest_map else
  match fuel with
  | 0%nat => py_raise Diverges
  | S fuel' =>
      do! swap_states src dst;
      let next_dst := default dst (src_dest_map !! dst) in
      follow_cycle fuel' src next_dst (<[dst := dst]> src_dest_map)
  end.
(** A dictionary that grows while it is iterated over is an error. *)
Fixpoint apply_moves (keys : list nat) (src_dest_map : gmap nat nat) : py InputBatch unit :=
  match keys with
  | [] => py_ret tt
  | src :: keys' =>
      let! dst := py_unwrap KeyError (src_dest_map !! src) in
      let! map' := follow_cycle (size src_dest_map) src dst src_dest_map in
      if (size map' =? size src_dest_map)%nat then apply_moves keys' map' else py_raise RuntimeError
  end.

Definition scheduled_tokens (num_scheduled_tokens : gmap string Z) (o : option string) : option Z :=
  id ← o; num_scheduled_tokens !! id.
Definition reorder_batch_to_split_decodes_and_prefills (num_scheduled_tokens : gmap string Z) (decode_threshold : Z)
    : py InputBatch bool :=
  let! b := py_get in
  let num_reqs := length (req_ids_ b) in
  let! scheduled := py_unwrap KeyError (mapM (scheduled_tokens num_scheduled_tokens) (req_ids_ b)) in
  let computed := take num_reqs (map num_computed_tokens_cpu (rows b)) in
  let req_regions := zip_with (region decode_threshold) scheduled computed in
  let num_decodes := count_true (map (is_decode decode_threshold) scheduled) in
  let num_extends := count_true (zip_with (is_extend decode_threshold) scheduled computed) in
  let orig_indices := where_differ req_regions (target_regions num_reqs num_decodes num_extends) in
  if is_nil orig_indices then py_ret false else
  let src_indices := stable_sort_by (region_at req_regions) orig_indices in
  do! apply_moves src_indices (list_to_map (zip src_indices orig_indices));
  py_ret true.

(** ** Sorting *)

Lemma insert_by_perm key i l : insert_by key i l ≡ₚ i :: l.
Proof. induction l as [|j l IH]; [done|]. simpl. destruct (key i <=? key j); [done|]. rewrite IH. apply Permutation_swap. Qed.
Lemma stable_sort_perm key l : stable_sort_by key l ≡ₚ l.
Proof. induction l as [|i l IH]; [done|]. unfold stable_sort_by in *. simpl. by rewrite insert_by_perm, IH. Qed.
Lemma insert_by_sorted key i l : StronglySorted Z.le (map key l) -> StronglySorted Z.le (map key (insert_by key i l)).
Proof.
  induction l as [|j l IH]; simpl; intros H; [by repeat constructor|]. inversion H as [|? ? H1 H2]; subst.
  destruct (Z.leb_spec (key i) (key j)) as [Hle|Hlt]; simpl.
  - constructor; [done|]. constructor; [done|]. eapply Forall_impl; [exact H2|]. simpl. lia.
  - constructor; [by apply IH|]. change (map ?f ?l) with (f <$> l). rewrite insert_by_perm. constructor; [lia|done].
Qed.
Lemma stable_sort_sorted key l : StronglySorted Z.le (map key (stable_sort_by key l)).
Proof. induction l as [|i l IH]; [constructor|]. by apply insert_by_sorted. Qed.

(** The targets are the regions in order. *)
Lemma target_perm regions : Forall (fun x => x = 0 \/ x = 1 \/ x = 2) regions ->
  target_regions (length regions) (length (List.filter (Z.eqb 0) regions)) (length (List.filter (Z.eqb 1) regions)) ≡ₚ regions.
Proof.
  assert (forall l, Forall (fun x => x = 0 \/ x = 1 \/ x = 2) l ->
    (length (List.filter (Z.eqb 0) l) + length (List.filter (Z.eqb 1) l) + length (List.filter (Z.eqb 2) l) = length l)%nat /\
    replicate (length (List.filter (Z.eqb 0) l)) 0 ++ replicate (length (List.filter (Z.eqb 1) l)) 1 ++
      replicate (length (List.filter (Z.eqb 2) l)) 2 ≡ₚ l) as G.
  { induction l as [|x l IH]; intros H; [done|]. apply Forall_cons in H as [Hx H]. destruct (IH H) as [IH1 IH2].
    destruct Hx as [->|[->| ->]]; simpl; (split; [lia|]).
    - by constructor.
    - rewrite <-Permutation_middle. by constructor.
    - rewrite app_assoc, <-Permutation_middle, <-app_assoc. by constructor. }
  intros H. destruct (G regions H) as [E P]. unfold target_regions. etrans; [|exact P].
  do 2 (apply Permutation_app; [done|]). by replace (length regions - _ - _)%nat with (length (List.filter (Z.eqb 2) regions)) by lia.
Qed.
Lemma sorted_replicate (x : Z) k : StronglySorted Z.le (replicate k x).
Proof. induction k; simpl; constructor; [done|]. apply Forall_replicate. lia. Qed.
Lemma sorted_app (l1 l2 : list Z) : StronglySorted Z.le l1 -> StronglySorted Z.le l2 ->
  (forall x y, x ∈ l1 -> y ∈ l2 -> x <= y) -> StronglySorted Z.le (l1 ++ l2).
Proof.
  induction l1 as [|x l1 IH]; simpl; intros H1 H2 H; [done|]. inversion H1 as [|? ? G1 G2]; subst. constructor.
  - apply IH; [done..|]. intros a b Ha Hb. apply H; [by constructor|done].
  - apply Forall_app. split; [done|]. apply Forall_forall. intros y Hy. apply H; [by constructor|done].
Qed.
Lemma target_sorted n d e : StronglySorted Z.le (target_regions n d e).
Proof.
  unfold target_regions. apply sorted_app; [apply sorted_replicate|apply sorted_app; [apply sorted_replicate..|]|].
  - intros x y [-> _]%elem_of_replicate [-> _]%elem_of_replicate. lia.
  - intros x y [-> _]%elem_of_replicate [[-> _]%elem_of_replicate|[-> _]%elem_of_replicate]%elem_of_app; lia.
Qed.

(** Removing the positions where two permuted lists agree leaves permuted lists. *)
Lemma differ_perm (a b : list Z) : a ≡ₚ b ->
  map (region_at a) (where_differ a b) ≡ₚ map (region_at b) (where_differ a b).
Proof.
  intros P. unfold where_differ. set (same := fun i => bool_decide (a !! i = b !! i)). set (idx := seq 0 (length a)).
  change (List.filter (fun i => negb (bool_decide (a !! i = b !! i))) idx) with (List.filter (fun i => negb (same i)) idx).
  assert (forall l : list Z, map (region_at l) (seq 0 (length l)) = l) as Hall.
  { intros l. apply list_eq. intros i. change (map ?f ?l) with (f <$> l). rewrite list_lookup_fmap.
    destruct (decide (i < length l)%nat) as [Hi|Hi].
    - rewrite lookup_seq_lt by done. simpl. unfold region_at. destruct (lookup_lt_is_Some_2 l i Hi) as [x ->]. done.
    - rewrite !lookup_ge_None_2; [done|lia|rewrite length_seq; lia]. }
  assert (forall l : list nat, l ≡ₚ List.filter same l ++ List.filter (fun i => negb (same i)) l) as Hpart.
  { induction l as [|i l IH]; [done|]. simpl. destruct (same i); simpl; [by constructor|]. rewrite <-Permutation_middle. by constructor. }
  assert (map (region_at a) (List.filter same idx) = map (region_at b) (List.filter same idx)) as Heq.
  { apply map_ext_in. intros i [_ Hi]%List.filter_In. unfold region_at. unfold same in Hi. apply bool_decide_eq_true in Hi. by rewrite Hi. }
  apply (Permutation_app_inv_l (map (region_at a) (List.filter same idx))). rewrite Heq at 2.
  rewrite <-!map_app. change (map ?f ?l) with (f <$> l). rewrite <-!Hpart. change (?f <$> ?l) with (map f l). unfold idx. rewrite Hall.
  rewrite P. replace (length a) with (length b) by (by rewrite P). by rewrite Hall.
Qed.
Lemma seq_filter_sorted (P : nat -> bool) start k : StronglySorted lt (List.filter P (seq start k)).
Proof.
  revert start. induction k as [|k IH]; intros start; simpl; [constructor|]. destruct (P start); [|apply IH].
  constructor; [apply IH|]. apply Forall_forall. intros j [Hj%list_elem_of_In _]%list_elem_of_In%List.filter_In. apply elem_of_seq in Hj. lia.
Qed.
Lemma sorted_lookup (l : list Z) i j x y : StronglySorted Z.le l -> (i < j)%nat -> l !! i = Some x -> l !! j = Some y -> x <= y.
Proof.
  intros H. revert i j. induction H as [|z l H IH Hall]; intros [|i] [|j] Hij Hi Hj; simpl in *; try done; try lia.
  - injection Hi as ->. rewrite Forall_forall in Hall. apply Hall. by eapply list_elem_of_lookup_2.
  - apply (IH i j); [lia|done..].
Qed.
Lemma differ_in a b i : i ∈ where_differ a b <-> (i < length a)%nat /\ a !! i <> b !! i.
Proof.
  unfold where_differ. rewrite list_elem_of_In, List.filter_In, in_seq, negb_true_iff, bool_decide_eq_false. split; intros [? ?]; split; try done; lia.
Qed.
(** The k-th source, sorted, has the region that its destination should have. *)
Lemma sources_fit (a b : list Z) : a ≡ₚ b -> StronglySorted Z.le b ->
  map (region_at a) (stable_sort_by (region_at a) (where_differ a b)) = map (region_at b) (where_differ a b).
Proof.
  intros P Hs. apply (StronglySorted_unique Z.le).
  - apply stable_sort_sorted.
  - assert (forall i, i ∈ where_differ a b -> (i < length b)%nat) as Hlt by (intros i [Hi _]%differ_in; by rewrite <-P).
    pose proof (seq_filter_sorted (fun i => negb (bool_decide (a !! i = b !! i))) 0 (length a)) as Hinc. fold (where_differ a b) in Hinc.
    induction Hinc as [|i l H IH Hall]; [constructor|]. simpl. constructor; [apply IH; intros; apply Hlt; by constructor|].
    apply Forall_forall. intros y (j & -> & Hj)%list_elem_of_fmap. unfold region_at.
    destruct (lookup_lt_is_Some_2 b i) as [x Ex]; [apply Hlt; by constructor|]. destruct (lookup_lt_is_Some_2 b j) as [z Ez]; [apply Hlt; by constructor|].
    rewrite Ex, Ez. simpl. rewrite Forall_forall in Hall. by eapply (sorted_lookup b i j); [|apply Hall|..].
  - change (map ?f ?l) with (f <$> l). rewrite stable_sort_perm. by apply differ_perm.
Qed.

(** ** Cycles *)

Section cycles.
(** The number of rows and of tokens of a row; the contents that are to be at each row. *)
Context (n : nat) (len : Z) (T : nat -> option (option string)).

Definition kept (b b' : InputBatch) : Prop :=
  batch_inv n len (clean b') /\ same_setting b b' /\ (forall x, seen b' x = seen b x) /\ length (req_ids_ b') = length (req_ids_ b) /\
  rest_kept b b'.
Lemma kept_trans b b1 b2 : kept b b1 -> kept b1 b2 -> kept b b2.
Proof.
  intros (_ & [A1 A2] & A3 & A4 & A5 & A6) (B1 & [B2 B3] & B4 & B5 & B6 & B7). unfold kept, same_setting, rest_kept.
  split_and!; [done|congruence..| |congruence| |auto]; intros x; [by rewrite B4|by rewrite B6].
Qed.
Lemma kept_refl b : batch_inv n len (clean b) -> kept b b.
Proof. intros H. unfold kept, rest_kept. by split_and!. Qed.

(** Destinations [d] of the rows: for a key that is done its own row, else as the map says.
    While a cycle through [src] is followed, the row [src] goes to [dst]. *)
Definition dests (fin : gset nat) (m : gmap nat nat) (hand : option (nat * nat)) (b : InputBatch) : Prop :=
  exists d : nat -> nat, (forall p, T (d p) = req_ids_ b !! p) /\ Inj (=) (=) d /\
    forall p, d p = match hand with
                    | Some (src, dst) => if decide (p = src) then dst else if decide (p ∈ fin) then p else default p (m !! p)
                    | None => if decide (p ∈ fin) then p else default p (m !! p)
                    end.

Lemma dests_take fin m src dst b : dests fin m None b -> src ∉ fin -> m !! src = Some dst -> dests fin m (Some (src, dst)) b.
Proof. intros (d & H1 & H2 & H3) Hs Hm. exists d. split_and!; [done..|]. intros p. rewrite H3. destruct (decide (p = src)) as [->|]; [|done]. by rewrite decide_False, Hm. Qed.
Lemma dests_leave fin m src b : dests fin m (Some (src, src)) b -> dests ({[src]} ∪ fin) m None b.
Proof.
  intros (d & H1 & H2 & H3). exists d. split_and!; [done..|]. intros p. rewrite H3. destruct (decide (p = src)) as [->|].
  - by rewrite decide_True by set_solver.
  - destruct (decide (p ∈ fin)); [by rewrite decide_True by set_solver|by rewrite decide_False by set_solver].
Qed.
Lemma dests_next fin m src dst b : dests fin m (Some (src, dst)) b -> src <> dst ->
  exists v, m !! dst = Some v /\ v <> dst /\ dst ∉ fin.
Proof.
  intros (d & _ & H2 & H3) Hne.
  assert (d src = dst) as Es by (rewrite H3; by rewrite decide_True).
  assert (d dst <> dst) as Hd by (intros E; apply Hne; apply H2; congruence).
  assert (dst ∉ fin) as Hf by (intros H; apply Hd; rewrite H3, decide_False by done; by rewrite decide_True).
  pose proof (H3 dst) as Ed. rewrite decide_False, decide_False in Ed by done.
  destruct (m !! dst) as [v|] eqn:Ev; [|done]. simpl in Ed. exists v. split_and!; congruence.
Qed.
Lemma dests_swap fin m src dst v b b' : dests fin m (Some (src, dst)) b -> src <> dst -> dst ∉ fin -> m !! dst = Some v ->
  (forall j, req_ids_ b' !! j = req_ids_ b !! swap_index src dst j) -> dests fin (<[dst := dst]> m) (Some (src, v)) b'.
Proof.
  intros (d & H1 & H2 & H3) Hne Hf Hv Hids. exists (fun p => d (swap_index src dst p)). split_and!.
  - intros p. by rewrite H1, Hids.
  - intros p q E%H2. apply (f_equal (swap_index src dst)) in E. by rewrite !swap_index_invol in E.
  - intros p. unfold swap_index. destruct (decide (p = src)) as [->|Hp1].
    + rewrite H3, decide_False, decide_False by done. by rewrite Hv.
    + destruct (decide (p = dst)) as [->|Hp2].
      * rewrite H3, decide_True, decide_False by done. by rewrite lookup_insert_eq.
      * rewrite H3, decide_False by done. by rewrite lookup_insert_ne.
Qed.

Definition unsettled (m : gmap nat nat) : nat := size (filter (fun kv => kv.1 <> kv.2) m).
Lemma unsettled_settle m dst v : m !! dst = Some v -> v <> dst -> unsettled m = S (unsettled (<[dst := dst]> m)).
Proof.
  intros H Hne. unfold unsettled. rewrite map_filter_insert_False by (simpl; naive_solver).
  assert (filter (fun kv : nat * nat => kv.1 <> kv.2) m !! dst = Some v) as Hl by (apply map_lookup_filter_Some; done).
  rewrite map_filter_delete. rewrite map_size_delete_Some by (by eexists).
  assert (size (filter (fun kv : nat * nat => kv.1 <> kv.2) m) <> 0%nat); [|lia]. apply map_size_non_empty_iff. intros E. by rewrite E in Hl.
Qed.

Lemma occupied_lt b i : lists_ok n (clean b) -> (i < length (req_ids_ b))%nat -> exists id, occupied b i id.
Proof.
  intros HL Hi. destruct (lookup_lt_is_Some_2 _ _ Hi) as [[id|] E]; [by exists id|].
  apply (lo_holes n _ HL i) in E. by apply not_elem_of_nil in E.
Qed.

Lemma follow_cycle_spec fuel fin src dst m b : batch_inv n len (clean b) -> dests fin m (Some (src, dst)) b -> is_Some (m !! src) ->
  (forall k, is_Some (m !! k) -> (k < length (req_ids_ b))%nat) -> (unsettled m <= fuel)%nat ->
  wp (follow_cycle fuel src dst m) (fun m' b' => kept b b' /\ dom m' = dom m /\ dests fin m' (Some (src, src)) b') b.
Proof.
  revert dst m b. induction fuel as [|fuel IH]; intros dst m b Hinv Hd Hsrc Hkeys Hfuel; simpl; destruct (Nat.eqb_spec src dst) as [<-|Hne].
  1,3: wp_step; split_and!; try done; by apply kept_refl.
  all: destruct (dests_next fin m src dst b Hd Hne) as (v & Hv & Hv' & Hf); pose proof (unsettled_settle m dst v Hv Hv') as Hu.
  { exfalso. lia. }
  destruct Hinv as (Hcap & HL & Hrest). destruct (occupied_lt b src HL (Hkeys _ Hsrc)) as [id1 O1].
  destruct (occupied_lt b dst HL) as [id2 O2]; [apply Hkeys; by eexists|].
  wp_step. eapply wp_mono; [by apply (swap_spec n len b src dst id1 id2)|]. intros _ b1 (Hinv1 & Hset1 & Hseen1 & Hlen1 & Hids1 & Hrest1).
  rewrite Hv. simpl. pose proof (dests_swap fin m src dst v b b1 Hd Hne Hf Hv Hids1) as Hd1.
  eapply wp_mono; [apply IH; [done|exact Hd1|..]|].
  - destruct (decide (src = dst)) as [->|]; [done|]. by rewrite lookup_insert_ne.
  - intros k Hk. rewrite Hlen1. apply Hkeys. destruct (decide (k = dst)) as [->|]; [by eexists|]. by rewrite lookup_insert_ne in Hk.
  - lia.
  - intros m' b' (K & Ed & Hd'). split_and!; [|rewrite Ed; rewrite dom_insert_lookup_L; [done|by eexists]|done].
    by apply (kept_trans b b1).
Qed.

(** All the keys in turn, each not done before. *)
Lemma apply_moves_spec keys : forall fin m b, batch_inv n len (clean b) -> dests fin m None b -> NoDup keys ->
  (forall k, k ∈ keys <-> is_Some (m !! k) /\ k ∉ fin) -> (forall k, is_Some (m !! k) -> (k < length (req_ids_ b))%nat) ->
  wp (apply_moves keys m) (fun _ b' => kept b b' /\ forall p, req_ids_ b' !! p = T p) b.
Proof.
  induction keys as [|src keys IH]; intros fin m b Hinv Hd Hnd Hin Hkeys; simpl.
  - wp_step. split; [by apply kept_refl|]. destruct Hd as (d & H1 & _ & H3). intros p. rewrite <-H1. f_equal. rewrite H3.
    case_decide as Hp; [done|]. destruct (m !! p) eqn:E; [|done]. exfalso. apply (not_elem_of_nil p). apply Hin. split; [by eexists|done].
  - apply NoDup_cons in Hnd as [Hn Hnd]. destruct (proj1 (Hin src)) as [[dst Hm] Hf]; [by constructor|].
    wp_step. rewrite Hm. wp_step. wp_step.
    eapply wp_mono; [apply (follow_cycle_spec (size m) fin); [done|by apply dests_take|by eexists|done|]|].
    + apply map_subseteq_size, map_filter_subseteq.
    + intros m' b1 (K & Ed & Hd1). assert (forall k, is_Some (m' !! k) <-> is_Some (m !! k)) as Hdom by (intros k; by rewrite <-!elem_of_dom, Ed).
      replace (size m') with (size m) by (by rewrite <-!(size_dom (D := gset nat)), Ed). rewrite Nat.eqb_refl.
      eapply wp_mono; [apply (IH ({[src]} ∪ fin) m' b1)|].
      * apply K.
      * by apply dests_leave.
      * done.
      * intros k. rewrite Hdom. split.
        -- intros Hk. destruct (proj1 (Hin k)) as [H1 H2]; [by constructor|]. split; [done|]. set_solver.
        -- intros [H1 H2]. assert (k ∈ src :: keys) as Hk by (apply Hin; set_solver). apply elem_of_cons in Hk as [->|Hk]; [set_solver|done].
      * intros k Hk%Hdom. destruct K as (_ & _ & _ & -> & _). by apply Hkeys.
      * intros _ b' [K' Hids]. split; [by apply (kept_trans b b1)|done].
Qed.
End cycles.

(** ** The batch in order *)

(** The region of a request, by what is seen of it. *)
Definition region_of (num_scheduled_tokens : gmap string Z) (threshold : Z) (b : InputBatch) (id : string) : option Z :=
  s ← num_scheduled_tokens !! id; v ← seen b id; r ← v_row v; Some (region threshold s (v_num_computed r)).
Definition batch_regions (num_scheduled_tokens : gmap string Z) (threshold : Z) (b : InputBatch) : list (option Z) :=
  map (fun o => id ← o; region_of num_scheduled_tokens threshold b id) (req_ids_ b).

Lemma region_counts_zip threshold scheduled computed : length scheduled = length computed -> Forall (fun c => 0 <= c) computed ->
  let rs := zip_with (region threshold) scheduled computed in
  Forall (fun x => x = 0 \/ x = 1 \/ x = 2) rs /\
  count_true (map (is_decode threshold) scheduled) = length (List.filter (Z.eqb 0) rs) /\
  count_true (zip_with (is_extend threshold) scheduled computed) = length (List.filter (Z.eqb 1) rs).
Proof.
  unfold count_true. revert computed. induction scheduled as [|s l IH]; intros [|c cs] H1 H2; simpl in *; try done.
  apply Forall_cons in H2 as [Hc H2]. destruct (IH cs ltac:(lia) H2) as (G1 & G2 & G3). unfold region, is_extend, is_decode in *.
  destruct (Z.leb_spec s threshold); simpl; [split_and!; [constructor; [lia|done]|lia..]|].
  destruct (Z.ltb_spec 0 c); simpl; [split_and!; [constructor; [lia|done]|lia..]|].
  replace c with 0 by lia. simpl. split_and!; [constructor; [lia|done]|lia..].
Qed.

(** Counts of computed tokens are not negative. *)
Definition computed_ok (b : InputBatch) : Prop := forall id v r, seen b id = Some v -> v_row v = Some r -> 0 <= v_num_computed r.

Section reorder.
Context (n : nat) (len : Z) (sched : gmap string Z) (threshold : Z) (b : InputBatch).
Context (Hinv : batch_inv n len (clean b)) (Hsched : forall i id, occupied b i id -> is_Some (sched !! id))
  (Hcomp : computed_ok b).
Let lists : lists_ok n (clean b) := proj1 (proj2 Hinv).
Let rows_length : length (rows b) = n := ao_rows n len _ (proj1 (proj2 (proj2 Hinv))).
Let capacity : (length (req_ids_ b) <= n)%nat := lo_cap n _ lists.

Lemma scheduled_all : exists l, mapM (scheduled_tokens sched) (req_ids_ b) = Some l /\ length l = length (req_ids_ b) /\
  forall i id, occupied b i id -> l !! i = sched !! id.
Proof.
  destruct (mapM (scheduled_tokens sched) (req_ids_ b)) as [l|] eqn:E.
  - apply mapM_Some in E. exists l. split; [done|]. split; [symmetry; by eapply Forall2_length|].
    intros i id Hi. destruct (Forall2_lookup_l _ _ _ _ _ E Hi) as (x & Hx & Hs). simpl in Hs. by rewrite Hx, Hs.
  - exfalso. apply mapM_None, Exists_exists in E as (o & Ho & Eo). apply list_elem_of_lookup in Ho as [i Hi].
    destruct (occupied_lt n b i lists) as [id Hid]; [by eapply lookup_lt_Some|]. unfold occupied in Hid.
    assert (o = Some id) as -> by congruence. destruct (Hsched i id Hid) as [x Hx]. simpl in Eo. congruence.
Qed.
Context (scheduled : list Z) (Hs : mapM (scheduled_tokens sched) (req_ids_ b) = Some scheduled).
Let computed := take (length (req_ids_ b)) (map num_computed_tokens_cpu (rows b)).
Let rs := zip_with (region threshold) scheduled computed.

Lemma computed_length : length computed = length (req_ids_ b).
Proof. unfold computed. rewrite length_take, length_map, rows_length. lia. Qed.
Lemma scheduled_facts : length scheduled = length (req_ids_ b) /\ forall i id, occupied b i id -> scheduled !! i = sched !! id.
Proof. destruct scheduled_all as (l & E & H). rewrite Hs in E. by injection E as <-. Qed.
Lemma regions_length : length rs = length (req_ids_ b).
Proof. unfold rs. rewrite length_zip_with, computed_length, (proj1 scheduled_facts). lia. Qed.
Lemma region_lookup i id : occupied b i id -> rs !! i = region_of sched threshold b id.
Proof.
  intros Hi. destruct scheduled_facts as [_ Hf]. unfold rs, region_of. rewrite lookup_zip_with, (Hf i id Hi).
  destruct (Hsched i id Hi) as [s ->]. simpl. unfold seen. pose proof (proj2 (lo_index n _ lists id i) Hi) as Ei. change (req_id_to_index b !! id = Some i) in Ei. rewrite Ei. simpl.
  unfold computed. rewrite lookup_take_lt by (by eapply lookup_lt_Some). change (map ?f ?l) with (f <$> l). rewrite list_lookup_fmap.
  destruct (lookup_lt_is_Some_2 (rows b) i) as [r ->]; [|done]. apply lookup_lt_Some in Hi. lia.
Qed.
Lemma batch_regions_eq : batch_regions sched threshold b = map Some rs.
Proof.
  apply list_eq. intros i. unfold batch_regions. change (map ?f ?l) with (f <$> l). rewrite !list_lookup_fmap.
  destruct (decide (i < length (req_ids_ b))%nat) as [Hi|Hi].
  - destruct (occupied_lt n b i lists Hi) as [id Hid]. pose proof (region_lookup i id Hid) as E. unfold occupied in Hid. rewrite Hid. simpl.
    rewrite <-E. destruct (lookup_lt_is_Some_2 rs i) as [x ->]; [by rewrite regions_length|done].
  - rewrite !lookup_ge_None_2; [done|rewrite regions_length; lia|lia].
Qed.
Lemma computed_nonneg : Forall (fun c => 0 <= c) computed.
Proof.
  unfold computed. apply Forall_lookup. intros i c [Hc Hi]%lookup_take_Some. change (map ?f ?l) with (f <$> l) in Hc.
  rewrite list_lookup_fmap in Hc. destruct (rows b !! i) as [r|] eqn:Er; [|done]. injection Hc as <-.
  destruct (occupied_lt n b i lists Hi) as [id Hid]. apply (Hcomp id (view b i id) (row_view r)).
  - unfold seen. pose proof (proj2 (lo_index n _ lists id i) Hid) as Ei. change (req_id_to_index b !! id = Some i) in Ei. by rewrite Ei.
  - unfold view. simpl. by rewrite Er.
Qed.
Lemma region_counts : Forall (fun x => x = 0 \/ x = 1 \/ x = 2) rs /\
  count_true (map (is_decode threshold) scheduled) = length (List.filter (Z.eqb 0) rs) /\
  count_true (zip_with (is_extend threshold) scheduled computed) = length (List.filter (Z.eqb 1) rs).
Proof.
  apply region_counts_zip; [by rewrite computed_length, (proj1 scheduled_facts)|apply computed_nonneg].
Qed.
Let ts := target_regions (length (req_ids_ b)) (count_true (map (is_decode threshold) scheduled))
            (count_true (zip_with (is_extend threshold) scheduled computed)).
Lemma targets_perm : ts ≡ₚ rs.
Proof. destruct region_counts as (H1 & H2 & H3). unfold ts. rewrite H2, H3, <-regions_length. by apply target_perm. Qed.

Let orig := where_differ rs ts.
Let srcs := stable_sort_by (region_at rs) orig.
Let moves : gmap nat nat := list_to_map (zip srcs orig).
Lemma sources : srcs ≡ₚ orig /\ NoDup srcs /\ NoDup orig /\ length srcs = length orig.
Proof.
  pose proof (stable_sort_perm (region_at rs) orig) as P. fold srcs in P.
  assert (NoDup orig) as Hnd by (apply NoDup_ListNoDup, List.NoDup_filter, seq_NoDup). split_and!; [done|by rewrite P|done|by rewrite P].
Qed.
Lemma moves_lookup s d : moves !! s = Some d <-> exists k, srcs !! k = Some s /\ orig !! k = Some d.
Proof.
  destruct sources as (_ & Hnd & _ & Hlen). unfold moves. rewrite <-elem_of_list_to_map.
  - rewrite list_elem_of_lookup. apply exist_proper. intros k. rewrite lookup_zip_with. split.
    + destruct (srcs !! k) as [x|]; [|done]. simpl. destruct (orig !! k) as [y|]; [|done]. simpl. by intros [= -> ->].
    + by intros [-> ->].
  - change (zip srcs orig).*1 with (map fst (zip srcs orig)). rewrite fst_zip by lia. done.
Qed.
(** What is to be at a row. *)
Definition wanted (q : nat) : option (option string) :=
  match list_find (fun x => x = q) orig with
  | Some (k, _) => s ← srcs !! k; req_ids_ b !! s
  | None => req_ids_ b !! q
  end.
Lemma wanted_dest k s q : srcs !! k = Some s -> orig !! k = Some q -> wanted q = req_ids_ b !! s.
Proof.
  intros Hk Hq. unfold wanted. destruct sources as (_ & _ & Hnd & _). destruct (list_find (fun x => x = q) orig) as [[k' x]|] eqn:E.
  - apply list_find_Some in E as (E & -> & _). rewrite (NoDup_lookup _ k' k q Hnd E Hq), Hk. done.
  - apply list_find_None in E. rewrite Forall_forall in E. exfalso. apply (E q); [by eapply list_elem_of_lookup_2|done].
Qed.
Lemma wanted_other q : q ∉ orig -> wanted q = req_ids_ b !! q.
Proof. intros Hq. unfold wanted. destruct (list_find (fun x => x = q) orig) as [[k' x]|] eqn:E; [|done].
  apply list_find_Some in E as (E & -> & _). by apply list_elem_of_lookup_2 in E.
Qed.
Lemma start_dests : dests wanted ∅ moves None b.
Proof.
  destruct sources as (P & Hs1 & Ho1 & Hlen). exists (fun p => default p (moves !! p)).
  assert (forall p, moves !! p = None -> p ∉ orig) as Hnone.
  { intros p Hp Hin. rewrite <-P in Hin. apply list_elem_of_lookup in Hin as [k Hk]. destruct (lookup_lt_is_Some_2 orig k) as [d Hd]; [rewrite <-Hlen; by eapply lookup_lt_Some|].
    assert (moves !! p = Some d) by (apply moves_lookup; by exists k). congruence. }
  assert (forall p d, moves !! p = Some d -> d ∈ orig) as Hsome by (intros p d (k & _ & Hd)%moves_lookup; by eapply list_elem_of_lookup_2).
  split_and!.
  - intros p. destruct (moves !! p) as [d|] eqn:E; simpl; [|by apply wanted_other, Hnone]. apply moves_lookup in E as (k & Hk & Hd). by eapply wanted_dest.
  - intros p q. destruct (moves !! p) as [d|] eqn:E1, (moves !! q) as [e|] eqn:E2; simpl; intros Heq; [| | |done].
    + rewrite Heq in E1. apply moves_lookup in E1 as (k & Hk & Hd), E2 as (k' & Hk' & Hd'). rewrite (NoDup_lookup _ k k' e Ho1 Hd Hd') in Hk. congruence.
    + exfalso. rewrite Heq in E1. by eapply Hnone, Hsome.
    + exfalso. rewrite <-Heq in E2. by eapply Hnone, Hsome.
  - intros p. done.
Qed.
Lemma wanted_region q id : wanted q = Some (Some id) -> region_of sched threshold b id = ts !! q.
Proof.
  intros Hw. destruct sources as (P & _ & _ & Hlen). destruct (decide (q ∈ orig)) as [Hq|Hq].
  - apply list_elem_of_lookup in Hq as [k Hk]. destruct (lookup_lt_is_Some_2 srcs k) as [s Hsk]; [rewrite Hlen; by eapply lookup_lt_Some|].
    rewrite (wanted_dest k s q Hsk Hk) in Hw. rewrite <-(region_lookup s id Hw).
    pose proof (sources_fit rs ts (Permutation_sym targets_perm) (target_sorted _ _ _)) as E. fold orig srcs in E.
    apply (f_equal (.!! k)) in E. change (map ?f ?l) with (f <$> l) in E. rewrite !list_lookup_fmap, Hsk, Hk in E. simpl in E. injection E as E.
    unfold region_at in E. destruct (lookup_lt_is_Some_2 rs s) as [x Hx]; [rewrite regions_length; by eapply lookup_lt_Some|].
    assert (q < length ts)%nat as Hq; [|destruct (lookup_lt_is_Some_2 ts q Hq) as [y Hy]; rewrite Hx, Hy in *; simpl in E; congruence].
    rewrite targets_perm. apply list_elem_of_lookup_2 in Hk. by apply differ_in in Hk as [Hk _].
  - rewrite wanted_other in Hw by done. rewrite <-(region_lookup q id Hw). destruct (decide (rs !! q = ts !! q)); [done|].
    destruct Hq. apply differ_in. split; [|done]. rewrite regions_length. by eapply lookup_lt_Some.
Qed.

(** Sorted regions, and nobody moved who was in his. *)
Lemma wanted_order b' : kept n len b b' -> (forall p, req_ids_ b' !! p = wanted p) ->
  batch_regions sched threshold b' = map Some ts /\
  forall i, batch_regions sched threshold b' !! i = batch_regions sched threshold b !! i -> req_ids_ b' !! i = req_ids_ b !! i.
Proof.
  intros (Hinv' & _ & Hseen & Hlen & _) Hids.
  assert (batch_regions sched threshold b' = map Some ts) as E.
  { apply list_eq. intros i. unfold batch_regions. change (map ?f ?l) with (f <$> l). rewrite !list_lookup_fmap.
    assert (length ts = length (req_ids_ b)) as Hts by (by rewrite targets_perm, regions_length).
    destruct (decide (i < length (req_ids_ b))%nat) as [Hi|Hi].
    - destruct (occupied_lt n b' i (proj1 (proj2 Hinv'))) as [id Hid]; [by rewrite Hlen|]. unfold occupied in Hid. rewrite Hid. rewrite Hids in Hid. simpl.
      unfold region_of at 1. rewrite Hseen. fold (region_of sched threshold b id). rewrite (wanted_region i id Hid).
      destruct (lookup_lt_is_Some_2 ts i) as [x ->]; [by rewrite Hts|done].
    - rewrite !lookup_ge_None_2; [done|rewrite Hts; lia|rewrite Hlen; lia]. }
  split; [done|]. intros i Hi. rewrite E, batch_regions_eq in Hi. change (map ?f ?l) with (f <$> l) in Hi. rewrite !list_lookup_fmap in Hi.
  rewrite Hids. apply wanted_other. intros [_ Hd]%differ_in. apply Hd. destruct (rs !! i), (ts !! i); simpl in Hi; congruence.
Qed.
End reorder.

(** The reordering of a batch. *)
Lemma reorder_spec n len sched threshold b : batch_inv n len (clean b) -> (forall i id, occupied b i id -> is_Some (sched !! id)) ->
  computed_ok b ->
  wp (reorder_batch_to_split_decodes_and_prefills sched threshold) (fun changed b' => kept n len b b' /\
    (exists l, batch_regions sched threshold b' = map Some l /\ StronglySorted Z.le l) /\
    (forall i, batch_regions sched threshold b' !! i = batch_regions sched threshold b !! i -> req_ids_ b' !! i = req_ids_ b !! i) /\
    (changed = false -> b' = b) /\
    ((exists l, batch_regions sched threshold b = map Some l /\ StronglySorted Z.le l) -> changed = false)) b.
Proof.
  intros Hinv Hsched Hcomp. unfold reorder_batch_to_split_decodes_and_prefills. wp_step. wp_step. wp_step.
  destruct (scheduled_all n len sched b Hinv Hsched) as (scheduled & Hs & _). rewrite Hs. wp_step.
  pose proof (targets_perm n len sched threshold b Hinv Hsched Hcomp scheduled Hs) as P.
  pose proof (batch_regions_eq n len sched threshold b Hinv Hsched scheduled Hs) as Er.
  set (rs := zip_with (region threshold) scheduled _) in *. set (ts := target_regions _ _ _) in *.
  destruct (is_nil (where_differ rs ts)) eqn:En.
  - wp_step. assert (rs = ts) as E.
    { destruct (where_differ rs ts) as [|] eqn:Ew; [|done]. apply list_eq. intros i. destruct (decide (rs !! i = ts !! i)); [done|].
      destruct (decide (i < length rs)%nat) as [Hi|Hi]; [|rewrite !lookup_ge_None_2; [done|rewrite P|]; lia].
      assert (i ∈ where_differ rs ts) as H by (by apply differ_in). rewrite Ew in H. by apply not_elem_of_nil in H. }
    split_and!; try done. all: try by apply kept_refl. exists rs. split; [done|]. rewrite E. apply target_sorted.
  - wp_step. eapply wp_mono.
    + pose proof (start_dests n len threshold b Hinv scheduled) as Hd.
      eapply (apply_moves_spec n len (wanted threshold b scheduled) _ ∅); [done|exact Hd|..].
      * apply (sources threshold b scheduled).
      * intros k. destruct (sources threshold b scheduled) as (_ & _ & _ & Hl). fold rs ts in Hl. split.
        -- intros [i Hi]%list_elem_of_lookup. split; [|set_solver]. destruct (lookup_lt_is_Some_2 (where_differ rs ts) i) as [d Hd']; [rewrite <-Hl; by eapply lookup_lt_Some|].
           exists d. apply (moves_lookup n len threshold b Hinv scheduled). by exists i.
        -- intros [[d (i & Hi & _)%(moves_lookup n len threshold b Hinv scheduled)] _]. by eapply list_elem_of_lookup_2.
      * intros k [d (i & Hi & _)%(moves_lookup n len threshold b Hinv scheduled)]. apply list_elem_of_lookup_2 in Hi. rewrite stable_sort_perm in Hi. apply differ_in in Hi as [Hi _].
        by rewrite (regions_length n len sched threshold b Hinv Hsched scheduled Hs) in Hi.
    + intros _ b' [K Hids]. wp_step.
      destruct (wanted_order n len sched threshold b Hinv Hsched Hcomp scheduled Hs b' K Hids) as [E1 E2]. split_and!; try done.
      * exists ts. split; [done|apply target_sorted].
      * intros (l & El & Hl). exfalso. rewrite Er in El. assert (l = rs) as -> by (by apply (inj (fmap Some)) in El).
        assert (rs = ts) as E by (apply (StronglySorted_unique Z.le); [done|apply target_sorted|done]).
        destruct (where_differ rs ts) as [|i l0] eqn:Ew; [done|]. assert (i ∈ where_differ rs ts) as Hi by (rewrite Ew; constructor).
        apply differ_in in Hi as [_ Hi]. by rewrite E in Hi.
Qed.

(** C24. Before the model runs, the batch is reordered so that requests with at most
    [decode_threshold] scheduled tokens come first, then those with a computed prefix, then
    those without: the exchange of rows along cycles ends without an error, the regions are
    in order afterwards, a request that already is in its region keeps its row, and the
    tokens, counters, blocks, sampling parameters ([View]) and prompt embeddings of every
    request are as before. The allowed-token mask and the flag that token ids are needed,
    which the exchange of rows does not keep, are not part of this; a batch in which no
    request restricts its tokens stays one. A second reordering finds nothing to do. *)
Theorem reorder_sorts n len sched threshold b : batch_inv n len (clean b) -> (forall i id, occupied b i id -> is_Some (sched !! id)) ->
  computed_ok b ->
  exists changed b', reorder_batch_to_split_decodes_and_prefills sched threshold b = Ret changed b' /\
    batch_inv n len (clean b') /\ (forall id, seen b' id = seen b id) /\ rest_kept b b' /\
    (exists l, batch_regions sched threshold b' = map Some l /\ StronglySorted Z.le l) /\
    (forall i, batch_regions sched threshold b' !! i = batch_regions sched threshold b !! i -> req_ids_ b' !! i = req_ids_ b !! i) /\
    reorder_batch_to_split_decodes_and_prefills sched threshold b' = Ret false b'.
Proof.
  intros Hinv Hsched Hcomp. pose proof (reorder_spec n len sched threshold b Hinv Hsched Hcomp) as (changed & b' & E & K & Hsorted & Hstay & _)%wp_iff.
  exists changed, b'. destruct K as (Hinv' & Hset & Hseen & Hlen & Hrest). split_and!; try done; [apply Hrest..|].
  assert (computed_ok b') as Hcomp' by (intros id v r; rewrite Hseen; apply Hcomp).
  assert (forall i id, occupied b' i id -> is_Some (sched !! id)) as Hsched'.
  { intros i id Hi. pose proof (proj2 (lo_index n _ (proj1 (proj2 Hinv')) id i) Hi) as Ei. change (req_id_to_index b' !! id = Some i) in Ei.
    specialize (Hseen id). unfold seen in Hseen. rewrite Ei in Hseen. destruct (req_id_to_index b !! id) as [j|] eqn:Ej; [|done].
    apply (Hsched j). by apply (lo_index n _ (proj1 (proj2 Hinv)) id j). }
  pose proof (reorder_spec n len sched threshold b' Hinv' Hsched' Hcomp') as (c & b2 & E2 & _ & _ & _ & Hsame & Hno)%wp_iff.
  assert (c = false) as -> by (by apply Hno). by rewrite Hsame in E2.
Qed.
