(* ===== verification/ModelRunner.v ===== *)
(** The worker's side of a step ([v1/worker/gpu_model_runner.py]): the cached states of the
    requests and the persistent batch follow the scheduler's output ([_update_states]), the
    inputs of the model are computed from the batch ([_prepare_inputs]), and the sampled
    tokens are entered ([_bookkeeping_sync]).

    The list of output tokens of a request is one object, referred to by the request's state
    and by the batch; it is an entry of [outputs], and both hold its location. The model's own
    functions are the fields of [ModelFunctions]. The position in a generator's stream and the
    copies to the device are not represented. *)
From stdpp Require Import gmap strings list sorting fin_maps.
From Stdlib Require Import ZArith QArith Lia.
From S2P Require Import Prelude Request SchedulerData BlockTable InputBatch InputBatchProofs PersistentBatch BatchReorder.
Open Scope Z_scope.

(** ** State *)

Record RunnerConfig := mkRunnerConfig {
  is_last_rank : bool;
  use_async_scheduling : bool;
  runner_is_pooling_model : bool;
  uses_mrope : bool;
  uses_xdrope_dim : Z;
  num_kv_cache_groups : nat;
  reorder_batch_threshold : option Z;
  runner_max_model_len : Z
}.
(** The functions of the served model that the runner calls. Positions are opaque. *)
Record ModelFunctions := mkModelFunctions {
  get_pooling_updates : string -> exn + bool;
  get_mrope_input_positions : RequestArgs -> exn + Z;
  get_xdrope_input_positions : RequestArgs -> exn + Z
}.
Record ModelRunner := mkRunner {
  mr_requests : gmap string CachedRequestState;
  outputs : list (list Z); (** the output lists, by location *)
  num_prompt_logprobs : gmap string Z;
  encoder_cache : gset string; (** the hashes with an output *)
  draft_token_ids : option (list (list Z));
  discard_request_mask : list bool;
  prev_sampled_token_ids : option (list (list Z)); (** an attribute of the batch *)
  input_batch : InputBatch
}.
Definition set_mr_requests (x : gmap string CachedRequestState) (s : ModelRunner) : ModelRunner :=
  mkRunner x (outputs s) (num_prompt_logprobs s) (encoder_cache s) (draft_token_ids s) (discard_request_mask
    s) (prev_sampled_token_ids s) (input_batch s).
Definition set_outputs (x : list (list Z)) (s : ModelRunner) : ModelRunner :=
  mkRunner (mr_requests s) x (num_prompt_logprobs s) (encoder_cache s) (draft_token_ids s)
    (discard_request_mask s) (prev_sampled_token_ids s) (input_batch s).
Definition set_num_prompt_logprobs (x : gmap string Z) (s : ModelRunner) : ModelRunner :=
  mkRunner (mr_requests s) (outputs s) x (encoder_cache s) (draft_token_ids s) (discard_request_mask s)
    (prev_sampled_token_ids s) (input_batch s).
Definition set_encoder_cache (x : gset string) (s : ModelRunner) : ModelRunner :=
  mkRunner (mr_requests s) (outputs s) (num_prompt_logprobs s) x (draft_token_ids s) (discard_request_mask s)
    (prev_sampled_token_ids s) (input_batch s).
Definition set_draft_token_ids (x : option (list (list Z))) (s : ModelRunner) : ModelRunner :=
  mkRunner (mr_requests s) (outputs s) (num_prompt_logprobs s) (encoder_cache s) x (discard_request_mask s)
    (prev_sampled_token_ids s) (input_batch s).
Definition set_discard_request_mask (x : list bool) (s : ModelRunner) : ModelRunner :=
  mkRunner (mr_requests s) (outputs s) (num_prompt_logprobs s) (encoder_cache s) (draft_token_ids s) x
    (prev_sampled_token_ids s) (input_batch s).
Definition set_prev_sampled_token_ids (x : option (list (list Z))) (s : ModelRunner) : ModelRunner :=
  mkRunner (mr_requests s) (outputs s) (num_prompt_logprobs s) (encoder_cache s) (draft_token_ids s)
    (discard_request_mask s) x (input_batch s).
Definition set_input_batch (x : InputBatch) (s : ModelRunner) : ModelRunner :=
  mkRunner (mr_requests s) (outputs s) (num_prompt_logprobs s) (encoder_cache s) (draft_token_ids s)
    (discard_request_mask s) (prev_sampled_token_ids s) x.
Record Update := mkUpdate {
  runner : ModelRunner;
  so : SchedulerOutput;
  reqs_to_add : list CachedRequestState
}.
Definition set_runner (x : ModelRunner) (s : Update) : Update :=
  mkUpdate x (so s) (reqs_to_add s).
Definition set_so (x : SchedulerOutput) (s : Update) : Update :=
  mkUpdate (runner s) x (reqs_to_add s).
Definition set_reqs_to_add (x : list CachedRequestState) (s : Update) : Update :=
  mkUpdate (runner s) (so s) x.

(** A state of the runner, the scheduler's output, which an update may write to, and the
    states to add to the batch. *)
Definition on_runner {A} (m : py ModelRunner A) : py Update A := py_zoom runner set_runner m.
Definition on_batch {A} (m : py InputBatch A) : py ModelRunner A := py_zoom input_batch set_input_batch m.

(** ** Output lists *)

Definition read_output (loc : nat) : py ModelRunner (list Z) :=
  let! r := py_get in py_unwrap KeyError (outputs r !! loc).
Definition write_output (loc : nat) (l : list Z) : py ModelRunner unit :=
  py_modify (fun r => set_outputs (<[loc := l]> (outputs r)) r).
Definition new_output (l : list Z) : py ModelRunner nat :=
  let! r := py_get in
  do! py_modify (set_outputs (outputs r ++ [l]));
  py_ret (length (outputs r)).
Definition extend_output (loc : nat) (l : list Z) : py ModelRunner unit :=
  let! old := read_output loc in write_output loc (old ++ l).
(** [l[-k:]] for k > 0 *)
Definition last_tokens (k : Z) (l : list Z) : list Z := drop (length l - Z.to_nat k) l.

Definition put_state (req_id : string) (q : CachedRequestState) : py ModelRunner unit :=
  py_modify (fun r => set_mr_requests (<[req_id := q]> (mr_requests r)) r).
Definition get_state (req_id : string) : py ModelRunner CachedRequestState :=
  let! r := py_get in py_unwrap KeyError (mr_requests r !! req_id).

Section runner.
Context (cfg : RunnerConfig) (model : ModelFunctions).

(** ** Requests that leave *)

Definition forget_finished (finished : list string) : py ModelRunner unit :=
  do! py_for finished (fun id =>
    do! py_modify (fun r => set_mr_requests (delete id (mr_requests r)) r);
    py_modify (fun r => set_num_prompt_logprobs (delete id (num_prompt_logprobs r)) r));
  py_for finished (fun id => do! on_batch (remove_request id); py_ret tt).
Definition free_encoder_outputs (hashes : list string) : py ModelRunner unit :=
  py_for hashes (fun h => py_modify (fun r => set_encoder_cache (encoder_cache r ∖ {[h]}) r)).
Definition unscheduled_req_ids (o : SchedulerOutput) (b : InputBatch) : gset string :=
  dom (req_id_to_index b) ∖ (list_to_set (map fst (so_num_scheduled_tokens o)) ∖ cr_resumed_req_ids (so_scheduled_cached_reqs o)).

(** ** New requests *)

(** [sampling_type == RANDOM_SEED] *)
Definition seed_of (a : RequestArgs) : option Z :=
  match sampling_params a with
  | Some sp => if is_greedy (sp_draw sp) then None else seed (sp_draw sp)
  | None => None
  end.
Definition with_pooling_params (p : PoolingParams) (a : RequestArgs) : RequestArgs :=
  mkArgs (request_id a) (obj_id a) (client_index a) (priority a) (arrival_time a) (prompt_token_ids a) (prompt_embeds a)
    (sampling_params a) (Some p) (eos_token_id a) (mm_features a) (lora_request a) (cache_salt a).
(** [to_update.apply(pooling_params)] *)
Definition apply_pooling_updates (a : RequestArgs) : exn + RequestArgs :=
  match pooling_params a with
  | None => inl AssertionError
  | Some p =>
      match pp_task p with
      | None => inl AssertionError
      | Some task =>
          match get_pooling_updates model task with
          | inl e => inl e
          | inr needs => inr (with_pooling_params (mkPooling (pp_skip_reading_prefix_cache p) (pp_task p) needs) a)
          end
      end
  end.
Definition init_positions (uses : bool) (f : RequestArgs -> exn + Z) (a : RequestArgs) : exn + option Z :=
  if uses then
    match prompt_token_ids a with
    | None => inl AssertionError
    | Some _ => match f a with inl e => inl e | inr p => inr (Some p) end
    end
  else inr None.
Definition add_new_request (nr : NewRequestData) : py Update unit :=
  let! a := py_lift (if runner_is_pooling_model cfg then apply_pooling_updates (nr_args nr) else inr (nr_args nr)) in
  let! n := py_lift (prompt_length a) in
  let! loc := on_runner (new_output []) in
  let q := mkState a (seed_of a) (nr_block_ids nr) (nr_num_computed_tokens nr) loc None None 0 n in
  do! on_runner (put_state (request_id a) q);
  do! match sampling_params a with
      | Some sp =>
          match prompt_logprobs (sp_draw sp) with
          | Some k => on_runner (py_modify (fun r => set_num_prompt_logprobs
              (<[request_id a := if k =? -1 then vocab_size (config (input_batch r)) else k]> (num_prompt_logprobs r)) r))
          | None => py_ret tt
          end
      | None => py_ret tt
      end;
  let! mrope := py_lift (init_positions (uses_mrope cfg) (get_mrope_input_positions model) a) in
  let! xdrope := py_lift (init_positions (0 <? uses_xdrope_dim cfg) (get_xdrope_input_positions model) a) in
  let q := set_xdrope_positions xdrope (set_mrope_positions mrope q) in
  do! on_runner (put_state (request_id a) q);
  py_modify (fun u => set_reqs_to_add (reqs_to_add u ++ [q]) u).

(** ** Running and resumed requests *)

(** The drafts of the previous step that were rejected on the device. *)
Definition settle_drafts (counts : list Z) (req_id : string) (q : CachedRequestState) (req_index : option nat) (num_computed : Z)
    : py ModelRunner (CachedRequestState * Z) :=
  if prev_num_draft_len q =? 0 then py_ret (q, num_computed) else
  match req_index with
  | None => py_ret (set_prev_num_draft_len 0 q, num_computed)
  | Some _ =>
      let! r := py_get in
      let! prev := py_unwrap AssertionError (prev_req_id_to_index (input_batch r)) in
      let! prev_req_index := py_unwrap KeyError (prev !! req_id) in
      let! count := py_unwrap IndexError (counts !! prev_req_index) in
      let num_accepted := count - 1 in
      do! extend_output (cs_output_token_ids q) (replicate (Z.to_nat num_accepted) (-1));
      py_ret (q, num_computed - (prev_num_draft_len q - num_accepted))
  end.
(** Sampled tokens that come from the scheduler (not the last rank), or outputs that the
    scheduler has discarded (last rank). *)
Definition align_outputs (q : CachedRequestState) (req_index : option nat) (num_computed num_output_tokens : Z) (new_token_ids : list Z)
    : py ModelRunner unit :=
  let! out := read_output (cs_output_token_ids q) in
  if negb (is_last_rank cfg) then
    let num_new_tokens := num_computed + Z.of_nat (length new_token_ids) - cs_num_tokens q out in
    if num_new_tokens =? 1 then
      let! t := py_unwrap IndexError (last new_token_ids) in
      extend_output (cs_output_token_ids q) [t]
    else if 0 <? num_new_tokens then extend_output (cs_output_token_ids q) (last_tokens num_new_tokens new_token_ids)
    else py_ret tt
  else if num_output_tokens <? Z.of_nat (length out) then
    do! write_output (cs_output_token_ids q) (take (Z.to_nat (slice_bound (Z.of_nat (length out)) num_output_tokens)) out);
    match req_index with
    | Some i =>
        on_batch (let! row := get_row i in
                  let end_idx := row_num_prompt_tokens row + num_output_tokens in
                  put_row i (set_num_tokens_no_spec end_idx (set_row_num_tokens end_idx row)))
    | None => py_ret tt
    end
  else py_ret tt.
(** [for block_ids, new_ids in zip(...): block_ids.extend(new_ids)] *)
Fixpoint extend_blocks (old new : list (list Z)) : list (list Z) :=
  match old, new with
  | l :: old', l' :: new' => (l ++ l') :: extend_blocks old' new'
  | _, _ => old
  end.
Definition update_block_ids (q : CachedRequestState) (resumed : bool) (in_batch : bool) (new_block_ids : option (list (list Z)))
    : exn + CachedRequestState :=
  if negb resumed then
    inr (match new_block_ids with Some ids => set_cs_block_ids (extend_blocks (cs_block_ids q) ids) q | None => q end)
  else if in_batch then inl AssertionError
  else match new_block_ids with Some ids => inr (set_cs_block_ids ids q) | None => inl AssertionError end.

(** A request that is not in the batch. *)
Definition readd_request (o : SchedulerOutput) (req_id : string) (q : CachedRequestState) (num_output_tokens : Z) : py Update unit :=
  let! q := if use_async_scheduling cfg && (0 <? num_output_tokens) then
              let! all := py_unwrap KeyError ((list_to_map (cr_all_token_ids (so_scheduled_cached_reqs o)) : gmap string (list Z)) !! req_id) in
              let! loc := on_runner (new_output (last_tokens num_output_tokens all)) in
              let q := set_cs_output_token_ids loc q in
              do! on_runner (put_state req_id q);
              py_ret q
            else py_ret q in
  py_modify (fun u => set_reqs_to_add (reqs_to_add u ++ [q]) u).

(** The row of a request in the batch: counts, blocks, the tokens of other ranks, drafts. *)
Definition update_row (i : nat) (num_computed : Z) (new_block_ids : option (list (list Z))) (new_token_ids spec_token_ids : list Z)
    : py InputBatch unit :=
  do! on_row i (set_num_computed_tokens_cpu num_computed);
  do! match new_block_ids with Some ids => on_block_table (mt_append_row ids i) | None => py_ret tt end;
  do! (if is_last_rank cfg then py_ret tt else
         let! row := get_row i in
         let end_token_index := num_computed + Z.of_nat (length new_token_ids) in
         let! toks := py_unwrap ValueError (slice_set num_computed end_token_index new_token_ids (token_ids_cpu row)) in
         put_row i (set_row_num_tokens end_token_index (set_num_tokens_no_spec end_token_index (set_token_ids_cpu toks row))));
  do! (if is_nil spec_token_ids then py_ret tt else
         let! row := get_row i in
         let start_index := num_tokens_no_spec row in
         let! toks := py_unwrap ValueError (slice_set start_index (start_index + Z.of_nat (length spec_token_ids)) spec_token_ids (token_ids_cpu row)) in
         put_row i (set_row_num_tokens (row_num_tokens row + Z.of_nat (length spec_token_ids)) (set_token_ids_cpu toks row)));
  let! b := py_get in
  let! specs := py_unwrap IndexError (list_set i spec_token_ids (batch_spec_token_ids b)) in
  py_modify (set_batch_spec_token_ids specs).

(** Without drafts at hand, the scheduled draft tokens are taken out of the step. *)
Definition drop_scheduled_drafts (req_id : string) (k : Z) (o : SchedulerOutput) : SchedulerOutput :=
  mkSchedulerOutput (so_scheduled_new_reqs o) (so_scheduled_cached_reqs o)
    (map (fun e => if bool_decide (e.1 = req_id) then (e.1, e.2 - k) else e) (so_num_scheduled_tokens o))
    (so_total_num_scheduled_tokens o - k) (delete req_id (so_scheduled_spec_decode_tokens o)) (so_scheduled_encoder_inputs o)
    (so_num_common_prefix_blocks o) (so_preempted_req_ids o) (so_finished_req_ids o) (so_free_encoder_mm_hashes o)
    (so_pending_structured_output_tokens o).

Definition update_cached_request (counts : list Z) (i : nat) (req_id : string) : py Update unit :=
  let! u := py_get in
  let req_data := so_scheduled_cached_reqs (so u) in
  let! q := on_runner (get_state req_id) in
  let! num_computed := py_unwrap IndexError (cr_num_computed_tokens req_data !! i) in
  let! new_block_ids := py_unwrap IndexError (cr_new_block_ids req_data !! i) in
  let resumed := bool_decide (req_id ∈ cr_resumed_req_ids req_data) in
  let! num_output_tokens := py_unwrap IndexError (cr_num_output_tokens req_data !! i) in
  let req_index := InputBatch.req_id_to_index (input_batch (runner u)) !! req_id in
  let! settled := on_runner (settle_drafts counts req_id q req_index num_computed) in
  let num_computed := snd settled in
  let q := set_cs_num_computed_tokens num_computed (fst settled) in
  do! on_runner (put_state req_id q);
  let! new_token_ids := if is_last_rank cfg then py_ret [] else py_unwrap IndexError (cr_new_token_ids req_data !! i) in
  do! on_runner (align_outputs q req_index num_computed num_output_tokens new_token_ids);
  let! q := py_lift (update_block_ids q resumed (bool_decide (is_Some req_index)) new_block_ids) in
  do! on_runner (put_state req_id q);
  match req_index with
  | None => readd_request (so u) req_id q num_output_tokens
  | Some i =>
      let! o := py_gets so in
      let spec_token_ids := default [] (so_scheduled_spec_decode_tokens o !! req_id) in
      do! on_runner (on_batch (update_row i num_computed new_block_ids new_token_ids spec_token_ids));
      if use_async_scheduling cfg then
        do! on_runner (put_state req_id (set_prev_num_draft_len (Z.of_nat (length spec_token_ids)) q));
        let! r := py_gets runner in
        if negb (is_nil spec_token_ids) && bool_decide (draft_token_ids r = None)
        then py_modify (fun u => set_so (drop_scheduled_drafts req_id (Z.of_nat (length spec_token_ids)) (so u)) u)
        else py_ret tt
      else py_ret tt
  end.

(** ** The update *)

Definition may_reorder_batch (o : SchedulerOutput) : py InputBatch unit :=
  if (num_kv_cache_groups cfg =? 0)%nat then py_ret tt else
  match reorder_batch_threshold cfg with
  | Some threshold => do! reorder_batch_to_split_decodes_and_prefills (list_to_map (so_num_scheduled_tokens o)) threshold; py_ret tt
  | None => py_ret tt
  end.

Definition update_states (counts : list Z) : py Update (option BatchUpdate) :=
  let! o := py_gets so in
  do! on_runner (forget_finished (elements (so_finished_req_ids o)));
  do! on_runner (free_encoder_outputs (so_free_encoder_mm_hashes o));
  let! r := py_gets runner in
  do! on_runner (py_for (elements (unscheduled_req_ids o (input_batch r))) (fun id => do! on_batch (remove_request id); py_ret tt));
  do! py_for (so_scheduled_new_reqs o) add_new_request;
  let ids := cr_req_ids (so_scheduled_cached_reqs o) in
  do! py_for (zip (seq 0 (length ids)) ids) (fun e => update_cached_request counts (fst e) (snd e));
  let! u := py_get in
  do! on_runner (py_for (reqs_to_add u) (fun q =>
        let! out := read_output (cs_output_token_ids q) in
        do! on_batch (add_request q out); py_ret tt));
  do! on_runner (on_batch condense);
  let! o := py_gets so in
  do! on_runner (on_batch (may_reorder_batch o));
  on_runner (on_batch refresh_metadata).

(** ** Sampled tokens *)

(** [RejectionSampler.parse_output]: rejected tokens are [PLACEHOLDER_TOKEN_ID]. *)
Definition PLACEHOLDER_TOKEN_ID : Z := -1.
Definition parse_output (output_token_ids : list (list Z)) (vocab : Z) (discard_req_indices : list nat) : list (list Z) :=
  imap (fun i row => if bool_decide (i ∈ discard_req_indices) then []
                     else List.filter (fun t => negb (t =? PLACEHOLDER_TOKEN_ID) && (t <? vocab)) row) output_token_ids.
(** [np.nonzero(mask)[0]] *)
Definition nonzero (mask : list bool) : list nat := List.filter (fun i => default false (mask !! i)) (seq 0 (length mask)).
(** [for i in discard: valid_sampled_token_ids[int(i)].clear()] *)
Definition clear_rows (discard : list nat) (l : list (list Z)) : option (list (list Z)) :=
  foldl (fun acc i => l ← acc; list_set i [] l) (Some l) discard.
(** The tokens of the rows of a tensor of the given width, without those to discard. *)
Definition valid_tokens (width : Z) (sampled : list (list Z)) (vocab : Z) (discard : list nat) : option (list (list Z)) :=
  if width =? 1 then clear_rows discard sampled else Some (parse_output sampled vocab discard).

Definition cache_row (i : nat) (sampled_ids : list Z) : py InputBatch unit :=
  let! row := get_row i in
  let start_idx := num_tokens_no_spec row in
  let end_idx := start_idx + Z.of_nat (length sampled_ids) in
  do! py_assert (end_idx <=? runner_max_model_len cfg);
  let! toks := py_unwrap ValueError (slice_set start_idx end_idx sampled_ids (token_ids_cpu row)) in
  put_row i (set_row_num_tokens end_idx (set_num_tokens_no_spec end_idx
    (set_is_token_ids (slice_fill start_idx end_idx true (is_token_ids row)) (set_token_ids_cpu toks row)))).
Definition cache_sampled (i : nat) (sampled_ids : list Z) : py ModelRunner unit :=
  if is_nil sampled_ids then py_ret tt else
  do! on_batch (cache_row i sampled_ids);
  let! r := py_get in
  let! o := py_unwrap IndexError (req_ids_ (input_batch r) !! i) in
  let! req_id := py_unwrap KeyError o in
  let! q := get_state req_id in
  extend_output (cs_output_token_ids q) sampled_ids.

(** What the step returns of the batch: tokens, ids, index, rows without a sampled token. *)
Record Bookkeeping := mkBookkeeping {
  valid_sampled_token_ids : list (list Z);
  req_ids_output_copy : list (option string);
  req_id_to_index_output_copy : gmap string nat;
  invalid_req_indices : list nat
}.
Definition bookkeeping_sync (width : Z) (sampled_token_ids : list (list Z)) : py ModelRunner Bookkeeping :=
  let! r := py_get in
  let b := input_batch r in
  let discard := nonzero (take (Z.to_nat (num_reqs b)) (discard_request_mask r)) in
  let copy valid invalid := mkBookkeeping valid (req_ids_ b) (InputBatch.req_id_to_index b) invalid in
  if negb (use_async_scheduling cfg) then
    let! valid := py_unwrap IndexError (valid_tokens width sampled_token_ids (vocab_size (config b)) discard) in
    do! py_for (zip (seq 0 (length sampled_token_ids)) valid) (fun e => cache_sampled (fst e) (snd e));
    py_ret (copy valid [])
  else
    do! match prev_sampled_token_ids r with
        | None => do! py_assert (width =? 1); py_modify (set_prev_sampled_token_ids (Some sampled_token_ids))
        | Some _ => py_ret tt
        end;
    do! on_batch (py_modify (set_prev_req_id_to_index (Some (list_to_map
          (omap (fun e => id ← snd e; if bool_decide (fst e ∈ discard) then None else Some (id, fst e)) (imap pair (req_ids_ b)))))));
    do! py_for (seq 0 (length sampled_token_ids)) (fun i => cache_sampled i (if bool_decide (i ∈ discard) then [] else [-1]));
    py_ret (copy [] discard).
End runner.
