(* ===== verification/RunnerProofs.v ===== *)
(** The worker follows the scheduler: after [update_states] the cached states are what the
    scheduler's outputs told so far, the batch holds the scheduled requests and nothing else,
    and each row shows the tokens, counts, blocks and parameters of its request; entering the
    sampled tokens keeps rows and output lists in step. *)
From stdpp Require Import gmap strings list sorting fin_maps.
From Stdlib Require Import ZArith QArith Lia.
From S2P Require Import Prelude Request SchedulerData BlockTable InputBatch InputBatchProofs PersistentBatch BatchReorder ModelRunner.
Open Scope Z_scope.

Ltac rsimpl :=
  cbn [runner so reqs_to_add set_runner set_so set_reqs_to_add mr_requests outputs num_prompt_logprobs encoder_cache
       draft_token_ids discard_request_mask prev_sampled_token_ids input_batch set_mr_requests set_outputs set_num_prompt_logprobs set_encoder_cache
       set_draft_token_ids set_discard_request_mask set_prev_sampled_token_ids set_input_batch fst snd].
Ltac rstep := wp_step; rsimpl.

(** ** Rows *)

(** A row that shows a request with output [out], draft tokens [d] and [c] computed tokens. *)
Definition shown_row (q : CachedRequestState) (out d : list Z) (c : Z) : RowView :=
  mkRowView (request_tokens q out) d (cs_num_prompt_tokens q) c (request_lora q).

Lemma request_tokens_length q out : prompt_length (cs_args q) = inr (cs_num_prompt_tokens q) ->
  Z.of_nat (length (request_tokens q out)) = cs_num_tokens q out /\ 0 <= cs_num_prompt_tokens q.
Proof.
  intros Hp. destruct (prompt_length_nonneg _ _ Hp) as [H0 Hl]. split; [|done]. unfold request_tokens, cs_num_tokens.
  rewrite length_app, length_map. destruct (prompt_token_ids (cs_args q)) as [p|] eqn:Ep.
  - rewrite length_map, <-(Hl p eq_refl). lia.
  - rewrite length_replicate. lia.
Qed.
Lemma request_tokens_take q out m : prompt_length (cs_args q) = inr (cs_num_prompt_tokens q) ->
  take (Z.to_nat (cs_num_prompt_tokens q) + m) (request_tokens q out) = request_tokens q (take m out).
Proof.
  intros Hp. destruct (prompt_length_nonneg _ _ Hp) as [H0 Hl]. unfold request_tokens. rewrite take_app_ge.
  - f_equal. change (map ?f ?l) with (f <$> l). rewrite fmap_take. f_equal. destruct (prompt_token_ids (cs_args q)) as [p|] eqn:Ep.
    + rewrite length_fmap. specialize (Hl p eq_refl). lia.
    + rewrite length_replicate. lia.
  - destruct (prompt_token_ids (cs_args q)) as [p|] eqn:Ep; [rewrite length_map; specialize (Hl p eq_refl)|rewrite length_replicate]; lia.
Qed.
Lemma row_view_length len r : row_ok len r -> Z.of_nat (length (v_tokens (row_view r))) = num_tokens_no_spec r.
Proof. intros [? ? ? ? ? ?]. unfold row_view, known_tokens. simpl. rewrite length_zip_with, !length_take. lia. Qed.
(** The counts of a row, from what it shows. *)
Lemma shown_counts len r q out c : row_ok len r -> prompt_length (cs_args q) = inr (cs_num_prompt_tokens q) ->
  row_view r = shown_row q out [] c ->
  num_tokens_no_spec r = cs_num_tokens q out /\ row_num_tokens r = cs_num_tokens q out /\ row_num_prompt_tokens r = cs_num_prompt_tokens q.
Proof.
  intros Hr Hp E. destruct (request_tokens_length q out Hp) as [Hl _]. pose proof (row_view_length len r Hr) as Hv. rewrite E in Hv. simpl in Hv.
  assert (num_tokens_no_spec r = cs_num_tokens q out) as En by lia. pose proof Hr as [? ? ? ? ? ?].
  split_and!; [done| |by injection E].
  assert (v_draft (row_view r) = []) as Ed by (by rewrite E). unfold row_view in Ed. simpl in Ed.
  apply (f_equal length) in Ed. rewrite length_drop, length_take in Ed. simpl in Ed. lia.
Qed.

(** Outputs dropped from the end. *)
Definition trimmed_row (r : Row) (e : Z) : Row := set_num_tokens_no_spec e (set_row_num_tokens e r).
Lemma trimmed_row_ok len r q out c m : row_ok len r -> prompt_length (cs_args q) = inr (cs_num_prompt_tokens q) ->
  row_view r = shown_row q out [] c -> 0 <= m <= Z.of_nat (length out) ->
  let r' := trimmed_row r (row_num_prompt_tokens r + m) in
  row_ok len r' /\ row_view r' = shown_row q (take (Z.to_nat m) out) [] c.
Proof.
  intros Hr Hp E Hm r'. destruct (shown_counts len r q out c Hr Hp E) as (E1 & E2 & E3). unfold cs_num_tokens in *.
  pose proof Hr as [? ? ? ? ? ?]. split.
  - split; simpl; try done; lia.
  - unfold shown_row. unfold row_view in *. simpl in *. injection E as F1 F2 F3 F4 F5. f_equal; [|by rewrite drop_ge by (rewrite length_take; lia)|done..].
    rewrite <-(request_tokens_take q out) by done. rewrite <-F1. unfold known_tokens. rewrite zip_with_take, !take_take.
    f_equal; f_equal; lia.
Qed.

(** Draft tokens written behind the tokens of a row. *)
Definition drafted_row (r : Row) (toks : list Z) (sp : list Z) : Row :=
  set_row_num_tokens (row_num_tokens r + Z.of_nat (length sp)) (set_token_ids_cpu toks r).
Lemma drafted_row_ok len r q out c sp : row_ok len r -> prompt_length (cs_args q) = inr (cs_num_prompt_tokens q) ->
  row_view r = shown_row q out [] c -> cs_num_tokens q out + Z.of_nat (length sp) <= len ->
  exists toks, slice_set (num_tokens_no_spec r) (num_tokens_no_spec r + Z.of_nat (length sp)) sp (token_ids_cpu r) = Some toks /\
    row_ok len (drafted_row r toks sp) /\ row_view (drafted_row r toks sp) = shown_row q out sp c.
Proof.
  intros Hr Hp E Hfit. destruct (shown_counts len r q out c Hr Hp E) as (E1 & E2 & E3). pose proof Hr as [? ? ? ? ? ?].
  set (k := num_tokens_no_spec r) in *. set (toks := take (Z.to_nat k) (token_ids_cpu r) ++ sp ++ drop (Z.to_nat (k + Z.of_nat (length sp))) (token_ids_cpu r)).
  exists toks. assert (slice_set k (k + Z.of_nat (length sp)) sp (token_ids_cpu r) = Some toks) as Es by (apply slice_set_ok; lia).
  pose proof (slice_set_length _ _ _ _ _ Es) as Hlen. split_and!; [done| |].
  - split; simpl; fold k; try done; lia.
  - assert (length (take (Z.to_nat k) (token_ids_cpu r)) = Z.to_nat k) as Hk by (rewrite length_take; lia).
    unfold shown_row, row_view in *. simpl in *. fold k in E |- *. injection E as F1 F2 F3 F4 F5. f_equal; try done.
    + rewrite <-F1. f_equal. unfold toks. rewrite take_app_le by lia. by rewrite take_ge by lia.
    + unfold toks. rewrite take_app_ge by lia. rewrite drop_app_ge by lia. rewrite Hk.
      replace (Z.to_nat k - Z.to_nat k)%nat with 0%nat by lia. simpl. rewrite take_app_le by lia. apply take_ge. lia.
Qed.

(** ** Views *)

(** What the batch shows of a request with draft tokens [d] in its row and [sp] in its list
    of scheduled draft tokens. *)
Definition shown_view (b : InputBatch) (q : CachedRequestState) (out d sp : list Z) (accepted : Z) : View :=
  touched_view (request_view (config b) (batch_block_table b) q out) (shown_row q out d (cs_num_computed_tokens q))
    (zip_with (fun t ids => Some (kernel_ids t ids)) (batch_block_table b) (cs_block_ids q)) sp accepted.
Lemma request_view_shown b q out : request_view (config b) (batch_block_table b) q out = shown_view b q out [] [] 1.
Proof. unfold shown_view, touched_view, request_view, shown_row. simpl. f_equal. by destruct (request_draw q). Qed.
Lemma kernel_ids_setting ts ts' ids : map table_config ts' = map table_config ts ->
  zip_with (fun t l => Some (kernel_ids t l)) ts' ids = zip_with (fun t l => Some (kernel_ids t l)) ts ids.
Proof.
  revert ts' ids. induction ts as [|t ts IH]; intros [|t' ts'] ids H; simpl in H; try done.
  assert (table_config t' = table_config t /\ map table_config ts' = map table_config ts) as [H1 H2] by (split; congruence).
  destruct ids as [|l ids]; [done|]. simpl. f_equal; [|by apply IH]. f_equal. by apply kernel_ids_config.
Qed.
Lemma shown_view_setting b b' q out d sp acc : same_setting b b' -> shown_view b' q out d sp acc = shown_view b q out d sp acc.
Proof. intros [Hc Ht]. unfold shown_view, request_view. by rewrite Hc, !(kernel_ids_setting _ _ _ Ht). Qed.
Lemma same_setting_trans b b1 b2 : same_setting b b1 -> same_setting b1 b2 -> same_setting b b2.
Proof. intros [A1 A2] [B1 B2]. split; congruence. Qed.

(** ** Invariants *)

(** What does not change of a request. *)
Record static_ok (b : InputBatch) (q : CachedRequestState) : Prop := {
  sq_prompt : prompt_length (cs_args q) = inr (cs_num_prompt_tokens q);
  sq_blocks : length (cs_block_ids q) = length (batch_block_table b);
  sq_kind : if is_pooling_model (config b)
            then sampling_params (cs_args q) = None /\ is_Some (pooling_params (cs_args q))
            else is_Some (sampling_params (cs_args q));
  sq_allowed : forall d l, request_draw q = Some d -> allowed_token_ids d = Some l -> Forall (fun t => 0 <= t < vocab_size (config b)) l;
  sq_lora : forall l, lora_request (cs_args q) = Some l -> lora_int_id l <> 0;
  sq_drafts : prev_num_draft_len q = 0
}.
Lemma static_setting b b' q : same_setting b b' -> static_ok b q -> static_ok b' q.
Proof.
  intros [Hc Ht] [H1 H2 H3 H4 H5 H6]. apply (f_equal length) in Ht. rewrite !length_map in Ht.
  split; rewrite ?Hc; try done. congruence.
Qed.
Definition blocks_fit (b : InputBatch) (blocks : list (list Z)) : Prop :=
  forall g t ids, batch_block_table b !! g = Some t -> blocks !! g = Some ids -> row_fits t 0 ids.
Lemma row_fits_config t t' k ids : table_config t = table_config t' -> row_fits t k ids -> row_fits t' k ids.
Proof.
  intros H. unfold row_fits. rewrite (kernel_ids_config _ _ ids H). unfold table_config in H. injection H as ? ? ? ? ? ? ? ? ? ?. congruence.
Qed.
Lemma blocks_fit_setting b b' blocks : same_setting b b' -> blocks_fit b blocks -> blocks_fit b' blocks.
Proof.
  intros [_ Ht] H g t' ids Ht' Hi. apply (f_equal (.!! g)) in Ht. change (map ?f ?l) with (f <$> l) in Ht. rewrite !list_lookup_fmap, Ht' in Ht.
  destruct (batch_block_table b !! g) as [t|] eqn:E; [|done].
  change (Some (table_config t') = Some (table_config t)) in Ht. assert (table_config t = table_config t') as E' by congruence. eapply row_fits_config; [exact E'|]. by apply (H g).
Qed.
Lemma static_request_ok len b q out : static_ok b q -> cs_num_tokens q out <= len -> blocks_fit b (cs_block_ids q) -> request_ok len b q out.
Proof. intros [H1 H2 H3 H4 H5 H6] Hl Hb. by split. Qed.

Record states_ok (r : ModelRunner) : Prop := {
  st_id : forall id q, mr_requests r !! id = Some q -> cs_req_id q = id;
  st_out : forall id q, mr_requests r !! id = Some q -> is_Some (outputs r !! cs_output_token_ids q);
  st_inj : forall id id' q q', mr_requests r !! id = Some q -> mr_requests r !! id' = Some q' ->
    cs_output_token_ids q = cs_output_token_ids q' -> id = id';
  st_static : forall id q, mr_requests r !! id = Some q -> static_ok (input_batch r) q
}.
(** Every row shows its request, with draft tokens that satisfy [P]. *)
Definition batch_shows (P : string -> list Z -> list Z -> Prop) (r : ModelRunner) : Prop :=
  forall id v, seen (input_batch r) id = Some v ->
    exists q out d sp acc, mr_requests r !! id = Some q /\ outputs r !! cs_output_token_ids q = Some out /\
      v = shown_view (input_batch r) q out d sp acc /\ P id d sp.
Lemma states_set_batch b r : same_setting (input_batch r) b -> states_ok r -> states_ok (set_input_batch b r).
Proof. intros Hs [H1 H2 H3 H4]. split; try done. intros id q Hq. eapply static_setting; [exact Hs|]. by eapply H4. Qed.

(** ** Requests as told *)

Record Tracked := mkTracked {
  t_args : RequestArgs;
  t_generator : option Z;
  t_num_prompt : Z;
  t_output : list Z;
  t_blocks : list (list Z);
  t_computed : Z
}.
Definition track (q : CachedRequestState) (out : list Z) : Tracked :=
  mkTracked (cs_args q) (generator q) (cs_num_prompt_tokens q) out (cs_block_ids q) (cs_num_computed_tokens q).
Definition tracked (r : ModelRunner) (id : string) : option Tracked :=
  q ← mr_requests r !! id; out ← outputs r !! cs_output_token_ids q; Some (track q out).

Section update.
Context (cfg : RunnerConfig) (model : ModelFunctions) (n : nat) (len : Z).

(** ** Removal *)

Lemma removes_spec l r : batch_inv n len (input_batch r) -> sorted_flag (input_batch r) = false ->
  wp (py_for l (fun id => do! on_batch (remove_request id); py_ret tt)) (fun _ r' => exists b, r' = set_input_batch b r /\
    batch_inv n len b /\ sorted_flag b = false /\ same_setting (input_batch r) b /\
    forall x, seen b x = if decide (x ∈ l) then None else seen (input_batch r) x) r.
Proof.
  revert r. induction l as [|id l IH]; intros r Hinv Hflag; simpl.
  - rstep. exists (input_batch r). split; [by destruct r|]. do 3 (split; [done|]). done.
  - rstep. rstep. apply wp_zoom. eapply wp_mono; [by apply (remove_spec n len)|]. intros _ b1 (_ & Hinv1 & Hflag1 & Hset1 & Hseen1). rstep.
    eapply wp_mono; [by apply IH|]. intros _ r' (b & -> & Hinv' & Hflag' & Hset' & Hseen'). exists b. do 3 (split; [done|]). split; [by eapply same_setting_trans|].
    intros x. rewrite Hseen'. rsimpl. rewrite Hseen1. repeat case_decide; set_solver.
Qed.
Lemma forget_finished_spec l r : batch_inv n len (input_batch r) -> sorted_flag (input_batch r) = false ->
  wp (forget_finished l) (fun _ r' => exists m lp b, r' = set_input_batch b (set_num_prompt_logprobs lp (set_mr_requests m r)) /\
    (forall x, m !! x = if decide (x ∈ l) then None else mr_requests r !! x) /\
    batch_inv n len b /\ sorted_flag b = false /\ same_setting (input_batch r) b /\
    forall x, seen b x = if decide (x ∈ l) then None else seen (input_batch r) x) r.
Proof.
  intros Hinv Hflag. unfold forget_finished. rstep.
  assert (forall l r, wp (py_for l (fun id =>
      do! py_modify (fun r => set_mr_requests (delete id (mr_requests r)) r);
      py_modify (fun r => set_num_prompt_logprobs (delete id (num_prompt_logprobs r)) r)))
    (fun _ r' => exists m lp, r' = set_num_prompt_logprobs lp (set_mr_requests m r) /\
       forall x, m !! x = if decide (x ∈ l) then None else mr_requests r !! x) r) as Hfor.
  { clear. induction l as [|id l IH]; intros r; simpl.
    - rstep. exists (mr_requests r), (num_prompt_logprobs r). by destruct r.
    - repeat rstep. eapply wp_mono; [apply IH|]. intros _ r' (m & lp & -> & Hm). exists m, lp. split; [done|]. intros x. rewrite Hm. rsimpl.
      destruct (decide (x = id)) as [->|]; [rewrite lookup_delete_eq|rewrite lookup_delete_ne by done]; repeat case_decide; set_solver. }
  eapply wp_mono; [apply Hfor|]. intros _ r1 (m & lp & -> & Hm). eapply wp_mono; [by apply removes_spec|].
  intros _ r' (b & -> & Hb). exists m, lp, b. split_and!; try done; apply Hb.
Qed.
Lemma free_encoder_spec l r : wp (free_encoder_outputs l) (fun _ r' => exists c, r' = set_encoder_cache c r) r.
Proof.
  unfold free_encoder_outputs. revert r. induction l as [|h l IH]; intros r; simpl.
  - rstep. exists (encoder_cache r). by destruct r.
  - repeat rstep. eapply wp_mono; [apply IH|]. intros _ r' [c ->]. by exists c.
Qed.

(** ** New requests *)

Definition new_args (nr : NewRequestData) : exn + RequestArgs :=
  if runner_is_pooling_model cfg then apply_pooling_updates model (nr_args nr) else inr (nr_args nr).
Definition nr_id (nr : NewRequestData) : string := request_id (nr_args nr).
Lemma new_args_id nr a : new_args nr = inr a -> request_id a = nr_id nr.
Proof.
  unfold new_args, apply_pooling_updates, nr_id. destruct (runner_is_pooling_model cfg); [|by intros [= <-]].
  destruct (pooling_params (nr_args nr)) as [p|]; [|done]. destruct (pp_task p); [|done]. destruct (get_pooling_updates model _); [done|]. by intros [= <-].
Qed.
(** The state of a new request, but for its output list and positions. *)
Definition bare_state (nr : NewRequestData) (a : RequestArgs) (k : Z) : CachedRequestState :=
  mkState a (seed_of a) (nr_block_ids nr) (nr_num_computed_tokens nr) 0 None None 0 k.
Definition new_ok (b : InputBatch) (nr : NewRequestData) : Prop :=
  exists a k, new_args nr = inr a /\ static_ok b (bare_state nr a k) /\
    (exists p, init_positions (uses_mrope cfg) (get_mrope_input_positions model) a = inr p) /\
    (exists p, init_positions (0 <? uses_xdrope_dim cfg) (get_xdrope_input_positions model) a = inr p).
Definition told_new (nr : NewRequestData) : option Tracked :=
  match new_args nr with
  | inr a => match prompt_length a with inr k => Some (track (bare_state nr a k) []) | inl _ => None end
  | inl _ => None
  end.

(** One more state, with an empty output list of its own. *)
Record entered (nr : NewRequestData) (u u' : Update) (q : CachedRequestState) : Prop := {
  en_so : so u' = so u;
  en_add : reqs_to_add u' = reqs_to_add u ++ [q];
  en_requests : mr_requests (runner u') = <[nr_id nr := q]> (mr_requests (runner u));
  en_outputs : outputs (runner u') = outputs (runner u) ++ [[]];
  en_batch : input_batch (runner u') = input_batch (runner u);
  en_id : cs_req_id q = nr_id nr;
  en_static : static_ok (input_batch (runner u)) q;
  en_loc : cs_output_token_ids q = length (outputs (runner u));
  en_told : told_new nr = Some (track q [])
}.
Lemma add_new_spec nr u : new_ok (input_batch (runner u)) nr ->
  wp (add_new_request cfg model nr) (fun _ u' => exists q, entered nr u u' q) u.
Proof.
  intros (a & k & Ha & Hst & [p Hp] & [p' Hp']). pose proof (new_args_id nr a Ha) as Hid. pose proof (sq_prompt _ _ Hst) as Hk. simpl in Hk.
  unfold add_new_request. fold (new_args nr). rewrite Ha. cbn [py_lift]. rstep. rstep. rstep. rewrite Hk. cbn [py_lift]. rstep. rstep.
  apply wp_zoom. unfold new_output. repeat rstep. rewrite Hid.
  assert (forall u1, runner u1 = mkRunner (<[nr_id nr := mkState a (seed_of a) (nr_block_ids nr) (nr_num_computed_tokens nr) (length (outputs (runner u))) None None 0 k]> (mr_requests (runner u)))
      (outputs (runner u) ++ [[]]) (num_prompt_logprobs (runner u1)) (encoder_cache (runner u)) (draft_token_ids (runner u)) (discard_request_mask (runner u)) (prev_sampled_token_ids (runner u)) (input_batch (runner u)) ->
    so u1 = so u -> reqs_to_add u1 = reqs_to_add u ->
    wp (let! mrope := py_lift (init_positions (uses_mrope cfg) (get_mrope_input_positions model) a) in
        let! xdrope := py_lift (init_positions (0 <? uses_xdrope_dim cfg) (get_xdrope_input_positions model) a) in
        let q := set_xdrope_positions xdrope (set_mrope_positions mrope (mkState a (seed_of a) (nr_block_ids nr) (nr_num_computed_tokens nr) (length (outputs (runner u))) None None 0 k)) in
        do! on_runner (put_state (nr_id nr) q);
        py_modify (fun u => set_reqs_to_add (reqs_to_add u ++ [q]) u)) (fun _ u' => exists q, entered nr u u' q) u1) as Hrest.
  { intros u1 E1 E2 E3. rewrite Hp, Hp'. cbn [py_lift]. repeat rstep. rewrite E1. rsimpl. eexists. split; rsimpl.
    - done.
    - by rewrite E3.
    - by rewrite insert_insert_eq.
    - done.
    - done.
    - done.
    - by destruct Hst as [? ? ? ? ? ?]; split.
    - done.
    - unfold told_new. by rewrite Ha, Hk. }
  destruct (sampling_params a) as [sp|]; [destruct (prompt_logprobs (sp_draw sp)) as [lp|]|].
  - apply wp_zoom. rstep. rewrite <-Hid. rewrite Hid. apply Hrest; done.
  - rstep. apply Hrest; done.
  - rstep. apply Hrest; done.
Qed.

(** ** Requests in the batch *)

(** The row of a request that is shown. *)
Lemma shown_facts b id q out d sp acc : batch_inv n len b -> seen b id = Some (shown_view b q out d sp acc) ->
  exists i r, InputBatch.req_id_to_index b !! id = Some i /\ occupied b i id /\ (i < n)%nat /\ rows b !! i = Some r /\ row_ok len r /\
    row_view r = shown_row q out d (cs_num_computed_tokens q) /\
    map (fun t => row_blocks t i) (batch_block_table b) = zip_with (fun t ids => Some (kernel_ids t ids)) (batch_block_table b) (cs_block_ids q) /\
    view b i id = shown_view b q out d sp acc.
Proof.
  intros (_ & HL & HA & _) Hs. unfold seen in Hs. destruct (InputBatch.req_id_to_index b !! id) as [i|] eqn:Ei; [|done]. simpl in Hs.
  assert (view b i id = shown_view b q out d sp acc) as Ev by congruence.
  pose proof (proj1 (lo_index n b HL id i) Ei) as Ho. pose proof (lookup_lt_Some _ _ _ Ho) as Hi. pose proof (lo_cap n b HL) as Hcap.
  destruct (lookup_lt_is_Some_2 (rows b) i) as [r Hr]; [rewrite (ao_rows n len b HA); lia|].
  exists i, r. split_and!; try done; [lia|by apply (proj1 (Forall_lookup _ _) (ao_row n len b HA) i)| |].
  - apply (f_equal v_row) in Ev. simpl in Ev. rewrite Hr in Ev. simpl in Ev. congruence.
  - by apply (f_equal v_blocks) in Ev.
Qed.
Lemma tables_updated_refl ts i : Forall (table_ok n) ts -> tables_updated n ts i (map (fun t => row_blocks t i) ts) ts.
Proof. intros H. split; [done|]. split; [done|]. intros j. destruct (decide (j = i)) as [E|]; [by rewrite E|done]. Qed.

Definition new_blocks (old : list (list Z)) (nb : option (list (list Z))) (resumed : bool) : list (list Z) :=
  match nb with Some ids => if resumed then ids else zip_with app old ids | None => old end.
Lemma extend_blocks_zip old ids : length ids = length old -> extend_blocks old ids = zip_with app old ids.
Proof. revert ids. induction old as [|l old IH]; intros [|l' ids] H; simpl in *; try done. by rewrite IH by lia. Qed.

Context (Hlast : is_last_rank cfg = true) (Hsync : use_async_scheduling cfg = false).

Lemma update_row_spec b i r q out c0 c nb sp : Forall (table_ok n) (batch_block_table b) -> (i < n)%nat -> (i < length (batch_spec_token_ids b))%nat ->
  rows b !! i = Some r -> row_ok len r -> prompt_length (cs_args q) = inr (cs_num_prompt_tokens q) -> row_view r = shown_row q out [] c0 ->
  cs_num_tokens q out + Z.of_nat (length sp) <= len ->
  length (cs_block_ids q) = length (batch_block_table b) -> (forall ids, nb = Some ids -> length ids = length (batch_block_table b)) ->
  map (fun t => row_blocks t i) (batch_block_table b) = zip_with (fun t ids => Some (kernel_ids t ids)) (batch_block_table b) (cs_block_ids q) ->
  blocks_fit b (new_blocks (cs_block_ids q) nb false) ->
  wp (update_row cfg i c nb [] sp) (fun _ b' => exists row ts, b' = retouched b i row ts sp /\ row_ok len row /\ row_view row = shown_row q out sp c /\
    request_lora_mapping row = request_lora_mapping r /\ draw_cpu row = draw_cpu r /\ num_accepted_tokens_cpu row = num_accepted_tokens_cpu r /\
    tables_updated n (batch_block_table b) i
      (zip_with (fun t ids => Some (kernel_ids t ids)) (batch_block_table b) (new_blocks (cs_block_ids q) nb false)) ts) b.
Proof.
  intros Htab Hi Hsp Hr Hrow Hp Hv Hfit Hlen Hnb Hhave Hblocks. unfold update_row. bstep. eapply wp_on_row; [exact Hr|]. bstep.
  set (r1 := set_num_computed_tokens_cpu c r). set (b1 := set_rows (<[i := r1]> (rows b)) b).
  assert (row_ok len r1 /\ row_view r1 = shown_row q out [] c) as [Hrow1 Hv1].
  { split; [by destruct Hrow; split|]. unfold row_view, shown_row in *. simpl. by injection Hv as -> -> -> _ ->. }
  eapply (wp_mono _ (fun _ b' => exists ts, b' = set_batch_block_table ts b1 /\ tables_updated n (batch_block_table b) i
      (zip_with (fun t ids => Some (kernel_ids t ids)) (batch_block_table b) (new_blocks (cs_block_ids q) nb false)) ts)).
  { destruct nb as [ids|]; simpl.
    - apply wp_zoom. bsimpl. eapply wp_mono; [apply (mt_append_row_spec n _ i (cs_block_ids q)); try done|].
      + by apply Hnb.
      + intros g t l l' Ht Hl Hl'. apply (Hblocks g); [done|]. simpl. by rewrite lookup_zip_with, Hl, Hl'.
      + intros [] ts Hts. by exists ts.
    - wp_step. exists (batch_block_table b). split; [by destruct b|]. rewrite <-Hhave. by apply tables_updated_refl. }
  intros _ b2 (ts & -> & Hts). rewrite Hlast. bstep. bstep. bstep.
  eapply (wp_mono _ (fun _ b' => exists row, b' = set_rows (<[i := row]> (rows b)) (set_batch_block_table ts b) /\ row_ok len row /\ row_view row = shown_row q out sp c /\
     request_lora_mapping row = request_lora_mapping r /\ draw_cpu row = draw_cpu r /\ num_accepted_tokens_cpu row = num_accepted_tokens_cpu r)).
  { assert (<[i := r1]> (rows b) !! i = Some r1) as Hr1 by (apply list_lookup_insert_eq; by eapply lookup_lt_Some). destruct (is_nil sp) eqn:En.
    - wp_step. exists r1. destruct sp; [|done]. split_and!; done.
    - unfold get_row. destruct (drafted_row_ok len r1 q out c sp Hrow1 Hp Hv1 Hfit) as (toks & Es & Hd1 & Hd2). repeat bstep. unfold put_row. repeat bstep.
      exists (drafted_row r1 toks sp). split; [unfold b1; bsimpl; by rewrite list_insert_insert_eq|]. split_and!; done. }
  intros _ b3 (row & -> & Hrow3). repeat bstep. rewrite list_set_some by done. repeat bstep. exists row, ts. split_and!; try done; apply Hrow3.
Qed.

(** ** Running and resumed requests *)

Definition next_state (q : CachedRequestState) (c : Z) (nb : option (list (list Z))) (resumed : bool) : CachedRequestState :=
  set_cs_block_ids (new_blocks (cs_block_ids q) nb resumed) (set_cs_num_computed_tokens c q).
Lemma update_block_ids_next b q c nb resumed in_batch : length (cs_block_ids q) = length (batch_block_table b) ->
  (forall ids, nb = Some ids -> length ids = length (batch_block_table b)) ->
  (resumed = true -> in_batch = false /\ is_Some nb) ->
  update_block_ids (set_cs_num_computed_tokens c q) resumed in_batch nb = inr (next_state q c nb resumed).
Proof.
  intros Hl Hn Hr. unfold update_block_ids, next_state, new_blocks. destruct resumed; simpl.
  - destruct (Hr eq_refl) as [-> [ids ->]]. done.
  - destruct nb as [ids|]; [|by destruct q]. f_equal. f_equal. apply extend_blocks_zip. rewrite (Hn ids eq_refl). done.
Qed.

Section cached.
Context (counts : list Z) (i : nat) (id : string) (u : Update) (q : CachedRequestState) (out : list Z) (c no : Z) (nb : option (list (list Z))).
Let d := so_scheduled_cached_reqs (so u).
Let b := input_batch (runner u).
Let resumed := bool_decide (id ∈ cr_resumed_req_ids d).
Let sp := default [] (so_scheduled_spec_decode_tokens (so u) !! id).
Let q' := next_state q c nb resumed.
Let out' := take (Z.to_nat no) out.
Context (Hq : mr_requests (runner u) !! id = Some q) (Hout : outputs (runner u) !! cs_output_token_ids q = Some out) (Hst : static_ok b q)
  (Hc : cr_num_computed_tokens d !! i = Some c) (Hnb : cr_new_block_ids d !! i = Some nb) (Hno : cr_num_output_tokens d !! i = Some no)
  (Hpos : 0 <= no) (Hlen : forall ids, nb = Some ids -> length ids = length (batch_block_table b)).

(** What the step does to the states, whether or not the request is in the batch. *)
Definition told_state (u' : Update) : Prop :=
  so u' = so u /\ mr_requests (runner u') = <[id := q']> (mr_requests (runner u)) /\
  outputs (runner u') = <[cs_output_token_ids q := out']> (outputs (runner u)).

Lemma outputs_kept : (length out <= Z.to_nat no)%nat -> outputs (runner u) = <[cs_output_token_ids q := out']> (outputs (runner u)).
Proof. intros H. unfold out'. rewrite take_ge by lia. symmetry. by apply list_insert_id. Qed.

(** The rest of the step, after the lookups and with the count of computed tokens set. *)
Definition cached_rest (req_index : option nat) : py Update unit :=
  do! on_runner (align_outputs cfg (set_cs_num_computed_tokens c q) req_index c no []);
  let! q := py_lift (update_block_ids (set_cs_num_computed_tokens c q) resumed (bool_decide (is_Some req_index)) nb) in
  do! on_runner (put_state id q);
  match req_index with
  | None => readd_request cfg (so u) id q no
  | Some i =>
      let! o := py_gets so in
      do! on_runner (on_batch (update_row cfg i c nb [] (default [] (so_scheduled_spec_decode_tokens o !! id))));
      py_ret tt
  end.
Let r1 := set_mr_requests (<[id := set_cs_num_computed_tokens c q]> (mr_requests (runner u))) (runner u).
Lemma cached_prefix Q : wp (cached_rest (InputBatch.req_id_to_index b !! id)) Q (set_runner r1 u) -> wp (update_cached_request cfg counts i id) Q u.
Proof.
  intros H. unfold update_cached_request. rstep. rstep. rstep. apply wp_zoom. unfold get_state. rstep. rstep. rewrite Hq. rstep. fold d.
  rstep. rewrite Hc. rstep. rstep. rewrite Hnb. rstep. rstep. rewrite Hno. rstep. rstep. apply wp_zoom. unfold settle_drafts.
  rewrite (sq_drafts _ _ Hst), Z.eqb_refl. rstep. rstep. apply wp_zoom. unfold put_state. rstep. rewrite Hlast. rstep. rstep.
  unfold cached_rest, resumed in H. rewrite Hsync. assert (set_runner (runner u) u = u) as Eu by (by destruct u). rewrite !Eu. exact H.
Qed.
Lemma cached_absent : seen b id = None -> (resumed = true -> is_Some nb) ->
  wp (update_cached_request cfg counts i id) (fun _ u' => told_state u' /\ input_batch (runner u') = b /\ reqs_to_add u' = reqs_to_add u ++ [q']) u.
Proof.
  intros Hs Hr. assert (InputBatch.req_id_to_index b !! id = None) as Ei by (unfold seen in Hs; by destruct (InputBatch.req_id_to_index b !! id)).
  pose proof (update_block_ids_next b q c nb resumed false (sq_blocks _ _ Hst) Hlen (fun E => conj eq_refl (Hr E))) as Hblk.
  apply cached_prefix. rewrite Ei. unfold cached_rest. rstep. apply wp_zoom. rsimpl.
  eapply (wp_mono _ (fun _ r' => r' = set_outputs (<[cs_output_token_ids q := out']> (outputs (runner u))) r1)).
  { unfold align_outputs, read_output, write_output. rstep. rstep. rstep. change (outputs r1) with (outputs (runner u)).
    change (cs_output_token_ids (set_cs_num_computed_tokens c q)) with (cs_output_token_ids q). rewrite Hout. rstep. rewrite Hlast. simpl.
    destruct (Z.ltb_spec no (Z.of_nat (length out))) as [Hlt|Hge].
    - repeat rstep. unfold out'. repeat f_equal. unfold slice_bound. rewrite (proj2 (Z.ltb_ge no 0)) by lia. lia.
    - rstep. rewrite <-outputs_kept by lia. by destruct (runner u). }
  intros _ r2 ->. rstep. change (bool_decide (is_Some None)) with false. rewrite Hblk. cbn [py_lift]. rstep. rstep. apply wp_zoom. unfold put_state. rstep. unfold readd_request. rewrite Hsync. simpl.
  repeat rstep. unfold told_state. rsimpl. split_and!; try done. by rewrite insert_insert_eq.
Qed.

Lemma cached_present sp0 acc : batch_inv n len b -> seen b id = Some (shown_view b q out [] sp0 acc) -> resumed = false ->
  cs_num_tokens q out' + Z.of_nat (length sp) <= len -> blocks_fit b (cs_block_ids q') ->
  wp (update_cached_request cfg counts i id) (fun _ u' => told_state u' /\ reqs_to_add u' = reqs_to_add u /\
    batch_inv n len (input_batch (runner u')) /\ same_setting b (input_batch (runner u')) /\
    batch_update_builder (input_batch (runner u')) = batch_update_builder b /\
    forall x, seen (input_batch (runner u')) x = if decide (x = id) then Some (shown_view b q' out' sp sp acc) else seen b x) u.
Proof.
  intros Hinv Hs Hr Hfit Hblocks. destruct (shown_facts b id q out [] sp0 acc Hinv Hs) as (j & r & Ej & Hocc & Hj & Hrow & Hrok & Hrv & Hrb & Hview).
  pose proof (sq_prompt _ _ Hst) as Hp.
  assert (update_block_ids (set_cs_num_computed_tokens c q) resumed true nb = inr q') as Hblk.
  { apply (update_block_ids_next b); [apply Hst|done|]. by rewrite Hr. }
  assert (exists e, row_ok len (if (e : bool) then trimmed_row r (row_num_prompt_tokens r + no) else r) /\
    row_view (if e then trimmed_row r (row_num_prompt_tokens r + no) else r) = shown_row q out' [] (cs_num_computed_tokens q) /\
    e = (no <? Z.of_nat (length out))) as (e & Hrok1 & Hrv1 & He).
  { exists (no <? Z.of_nat (length out)). destruct (Z.ltb_spec no (Z.of_nat (length out))).
    - destruct (trimmed_row_ok len r q out (cs_num_computed_tokens q) no Hrok Hp Hrv) as [? ?]; [lia|]. done.
    - split_and!; [done| |done]. unfold out'. by rewrite take_ge by lia. }
  set (r' := if e then trimmed_row r (row_num_prompt_tokens r + no) else r) in *. set (b1 := set_rows (<[j := r']> (rows b)) b).
  apply cached_prefix. rewrite Ej. unfold cached_rest. rstep. apply wp_zoom. rsimpl.
  eapply (wp_mono _ (fun _ r2 => r2 = set_input_batch b1 (set_outputs (<[cs_output_token_ids q := out']> (outputs (runner u))) r1))).
  { unfold align_outputs, read_output, write_output. rstep. rstep. rstep. change (outputs r1) with (outputs (runner u)).
    change (cs_output_token_ids (set_cs_num_computed_tokens c q)) with (cs_output_token_ids q). rewrite Hout. rstep. rewrite Hlast. simpl.
    unfold b1, r'. rewrite <-He. destruct e.
    - symmetry in He. apply Z.ltb_lt in He. rstep. rstep. apply wp_zoom. unfold get_row. bstep. bstep. bstep. rsimpl. change (input_batch r1) with b. rewrite Hrow. bstep. unfold put_row. bstep.
      unfold out'. repeat f_equal. unfold slice_bound. rewrite (proj2 (Z.ltb_ge no 0)) by lia. lia.
    - symmetry in He. apply Z.ltb_ge in He. rstep. rewrite <-outputs_kept by lia. rewrite list_insert_id by done. unfold b. by destruct u as [[? ? ? ? ? ? ? []] ? ?]. }
  intros _ r2 ->. rstep. change (bool_decide (is_Some (Some j))) with true. rewrite Hblk. cbn [py_lift]. rstep. rstep. apply wp_zoom. unfold put_state. rstep. rstep. rstep. rstep.
  apply wp_zoom. apply wp_zoom. rsimpl. fold sp.
  assert (rows b1 !! j = Some r') as Hr1 by (apply list_lookup_insert_eq; by eapply lookup_lt_Some).
  assert (request_lora_mapping r' = request_lora_mapping r /\ draw_cpu r' = draw_cpu r /\ num_accepted_tokens_cpu r' = num_accepted_tokens_cpu r) as (G1 & G2 & G3) by (unfold r'; by destruct e).
  pose proof Hinv as (_ & HL & HA & _).
  assert (new_blocks (cs_block_ids q) nb false = cs_block_ids q') as Enb by (unfold q', next_state; rewrite Hr; done).
  eapply wp_mono; [apply (update_row_spec b1 j r' q out' (cs_num_computed_tokens q)); try done|].
  - apply (ao_tables n len b HA).
  - pose proof (lo_specs n b HL). apply lookup_lt_Some in Hocc. simpl. lia.
  - apply Hst.
  - by rewrite Enb.
  - rewrite Enb. intros _ b2 (row & ts & -> & K1 & K2 & K3 & K4 & K5 & K6). rstep.
    assert (retouched b1 j row ts sp = retouched b j row ts sp) as -> by (unfold retouched, b1; bsimpl; by rewrite list_insert_insert_eq).
    destruct (retouch_spec n len b j id r row ts _ sp Hinv Hocc Hrow K1 ltac:(congruence) ltac:(congruence) K6) as (R1 & R2 & R3).
    unfold told_state, r1. rsimpl. split; [split_and!; [done|by rewrite insert_insert_eq|done]|]. do 4 (split; [done|]).
    intros x. rewrite R3. case_decide; [|done]. f_equal. rewrite Hview, K2, K5, G3.
    assert (num_accepted_tokens_cpu r = acc \/ v_draw (view b j id) = None) as Hacc.
    { destruct (v_draw (view b j id)) as [[dr a]|] eqn:Ed; [left|by right]. pose proof Ed as Ed'. rewrite Hview in Ed'. unfold view in Ed. simpl in Ed, Ed'. rewrite Hrow in Ed.
      destruct (is_pooling_model (config b)); [done|]. simpl in Ed. destruct (request_draw q); simpl in Ed'; congruence. }
    rewrite Hview in Hacc. destruct Hacc as [->|Hacc].
    + unfold shown_view, touched_view. simpl. f_equal. change (request_draw q') with (request_draw q). by destruct (request_draw q).
    + unfold shown_view, touched_view in *. simpl in *. f_equal. change (request_draw q') with (request_draw q). by destruct (request_draw q).
Qed.
End cached.
End update.
