(* ===== verification/RunnerUpdate.v ===== *)
(** The whole update: the loops over new and cached requests, the additions, and the theorem
    that the worker's states and batch are what the scheduler's output says. *)
From stdpp Require Import gmap strings list sorting fin_maps.
From Stdlib Require Import ZArith QArith Lia.
From S2P Require Import Prelude Request SchedulerData BlockTable InputBatch InputBatchProofs PersistentBatch BatchReorder ModelRunner RunnerProofs.
Open Scope Z_scope.

(** ** What the scheduler tells *)

Definition told_cached (d : CachedRequestData) (i : nat) (id : string) (t : Tracked) : option Tracked :=
  c ← cr_num_computed_tokens d !! i; nb ← cr_new_block_ids d !! i; no ← cr_num_output_tokens d !! i;
  Some (mkTracked (t_args t) (t_generator t) (t_num_prompt t) (take (Z.to_nat no) (t_output t))
          (new_blocks (t_blocks t) nb (bool_decide (id ∈ cr_resumed_req_ids d))) c).
Definition told_all (d : CachedRequestData) (todo : list (nat * string)) (t : string -> option Tracked) (x : string) : option Tracked :=
  match list_find (fun e => snd e = x) todo with
  | Some (_, e) => t x ≫= told_cached d (fst e) x
  | None => t x
  end.
Definition drafts_of (o : SchedulerOutput) (id : string) : list Z := default [] (so_scheduled_spec_decode_tokens o !! id).

Lemma told_all_other d todo t x : x ∉ map snd todo -> told_all d todo t x = t x.
Proof.
  intros H. unfold told_all. destruct (list_find _ todo) as [[k e]|] eqn:E; [|done]. apply list_find_Some in E as (E & Es & _).
  destruct H. rewrite <-Es. apply list_elem_of_fmap_2. by eapply list_elem_of_lookup_2.
Qed.
Lemma told_all_cons d i id todo t x : id ∉ map snd todo ->
  told_all d ((i, id) :: todo) t x = if decide (x = id) then t x ≫= told_cached d i x else told_all d todo t x.
Proof.
  intros H. unfold told_all. simpl. destruct (decide (id = x)) as [->|Hne].
  - by rewrite decide_True.
  - rewrite decide_False by congruence. destruct (list_find _ todo) as [[k e]|]; done.
Qed.
Lemma told_all_ext d todo t t' x : t x = t' x -> told_all d todo t x = told_all d todo t' x.
Proof. intros H. unfold told_all. by rewrite H. Qed.

(** A request that the scheduler's output refers to. *)
Record cached_ok (len : Z) (o : SchedulerOutput) (b : InputBatch) (t : string -> option Tracked) (e : nat * string) : Prop := {
  co_data : exists c nb no tr, cr_num_computed_tokens (so_scheduled_cached_reqs o) !! fst e = Some c /\
    cr_new_block_ids (so_scheduled_cached_reqs o) !! fst e = Some nb /\ cr_num_output_tokens (so_scheduled_cached_reqs o) !! fst e = Some no /\
    0 <= no /\ (forall ids, nb = Some ids -> length ids = length (batch_block_table b)) /\
    (snd e ∈ cr_resumed_req_ids (so_scheduled_cached_reqs o) -> is_Some nb) /\ t (snd e) = Some tr /\
    t_num_prompt tr + Z.of_nat (length (take (Z.to_nat no) (t_output tr))) + Z.of_nat (length (drafts_of o (snd e))) <= len /\
    blocks_fit b (new_blocks (t_blocks tr) nb (bool_decide (snd e ∈ cr_resumed_req_ids (so_scheduled_cached_reqs o))));
  co_resumed : snd e ∈ cr_resumed_req_ids (so_scheduled_cached_reqs o) -> seen b (snd e) = None
}.
Lemma cached_ok_setting len o b b' t t' e : same_setting b b' -> (is_Some (seen b' (snd e)) -> is_Some (seen b (snd e))) -> t' (snd e) = t (snd e) ->
  cached_ok len o b t e -> cached_ok len o b' t' e.
Proof.
  intros Hset Hseen Ht [(c & nb & no & tr & H1 & H2 & H3 & H4 & H5 & H6 & H7 & H8 & H9) Hr]. split.
  - exists c, nb, no, tr. split_and!; try done.
    + destruct Hset as [_ Hs]. apply (f_equal length) in Hs. rewrite !length_map in Hs. by rewrite Hs.
    + congruence.
    + by eapply blocks_fit_setting.
  - intros Hin. specialize (Hr Hin). destruct (seen b' e.2) as [v|] eqn:E; [|done]. destruct Hseen as [w Hw]; [by eexists|]. congruence.
Qed.

Section update.
Context (cfg : RunnerConfig) (model : ModelFunctions) (n : nat) (len : Z).

(** ** One request *)

Lemma new_blocks_length b old nb resumed : length old = length (batch_block_table b) ->
  (forall ids, nb = Some ids -> length ids = length (batch_block_table b)) -> length (new_blocks old nb resumed) = length (batch_block_table b).
Proof. intros H1 H2. unfold new_blocks. destruct nb as [ids|]; [|done]. destruct resumed; [by apply H2|]. rewrite length_zip_with, (H2 ids eq_refl). lia. Qed.

Section step.
Context (id : string) (u u1 : Update) (q : CachedRequestState) (out : list Z) (c no : Z) (nb : option (list (list Z))).
Let q' := next_state q c nb (bool_decide (id ∈ cr_resumed_req_ids (so_scheduled_cached_reqs (so u)))).
Let out' := take (Z.to_nat no) out.
Context (Hok : states_ok (runner u)) (Hq : mr_requests (runner u) !! id = Some q) (Hout : outputs (runner u) !! cs_output_token_ids q = Some out)
  (Hlen : forall ids, nb = Some ids -> length ids = length (batch_block_table (input_batch (runner u))))
  (Htold : told_state id u q out c no nb u1) (Hset : same_setting (input_batch (runner u)) (input_batch (runner u1))).

Lemma told_other_output x qx : x <> id -> mr_requests (runner u) !! x = Some qx ->
  outputs (runner u1) !! cs_output_token_ids qx = outputs (runner u) !! cs_output_token_ids qx.
Proof.
  intros Hne Hx. destruct Htold as (_ & _ & ->). rewrite list_lookup_insert_ne; [done|]. intros E. apply Hne. by eapply (st_inj _ Hok).
Qed.
Lemma told_own_output : outputs (runner u1) !! cs_output_token_ids q = Some out'.
Proof. destruct Htold as (_ & _ & ->). apply list_lookup_insert_eq. by eapply lookup_lt_Some. Qed.
Lemma told_states_ok : states_ok (runner u1).
Proof.
  pose proof Htold as (_ & Er & Eo). destruct Hok as [S1 S2 S3 S4]. fold q' in Er.
  assert (forall x qx, mr_requests (runner u1) !! x = Some qx -> (x = id /\ qx = q') \/ (x <> id /\ mr_requests (runner u) !! x = Some qx)) as Hcase.
  { intros x qx Hx. rewrite Er in Hx. destruct (decide (x = id)) as [->|]; [left; rewrite lookup_insert_eq in Hx; split; congruence|right].
    by rewrite lookup_insert_ne in Hx. }
  assert (forall x qx, mr_requests (runner u1) !! x = Some qx -> exists q0, mr_requests (runner u) !! x = Some q0 /\ cs_output_token_ids q0 = cs_output_token_ids qx) as Hloc.
  { intros x qx [[-> ->]|[_ H]]%Hcase; [by exists q|by exists qx]. }
  split.
  - intros x qx [[-> ->]|[_ H]]%Hcase; [change (cs_req_id q') with (cs_req_id q)|]; by eapply S1.
  - intros x qx [[-> ->]|[Hx H]]%Hcase; [change (cs_output_token_ids q') with (cs_output_token_ids q); rewrite told_own_output; by eexists|].
    rewrite (told_other_output x) by done. by eapply S2.
  - intros x y qx qy Hx Hy E. destruct (Hloc x qx Hx) as (q1 & H1 & E1), (Hloc y qy Hy) as (q2 & H2 & E2). eapply S3; [exact H1|exact H2|congruence].
  - intros x qx [[-> ->]|[_ H]]%Hcase; (eapply static_setting; [exact Hset|]); [|by eapply S4].
    destruct (S4 id q Hq) as [? ? ? ? ? ?]. split; try done. simpl. by apply new_blocks_length.
Qed.
Lemma told_tracked x : tracked (runner u1) x = if decide (x = id) then Some (track q' out') else tracked (runner u) x.
Proof.
  pose proof Htold as (_ & Er & _). fold q' in Er. unfold tracked. rewrite Er. destruct (decide (x = id)) as [->|Hne].
  - rewrite lookup_insert_eq. simpl. by rewrite told_own_output.
  - rewrite lookup_insert_ne by done. destruct (mr_requests (runner u) !! x) as [qx|] eqn:Ex; [|done]. simpl. by rewrite (told_other_output x).
Qed.
End step.

(** ** All running and resumed requests *)

Definition pending (o : SchedulerOutput) (todo : list (nat * string)) (id : string) (d sp : list Z) : Prop :=
  if decide (id ∈ map snd todo) then d = [] else d = drafts_of o id /\ sp = drafts_of o id.

Record cached_done (o : SchedulerOutput) (todo : list (nat * string)) (u u' : Update) : Prop := {
  cd_so : so u' = so u;
  cd_states : states_ok (runner u');
  cd_inv : batch_inv n len (input_batch (runner u'));
  cd_set : same_setting (input_batch (runner u)) (input_batch (runner u'));
  cd_builder : batch_update_builder (input_batch (runner u')) = batch_update_builder (input_batch (runner u));
  cd_shows : batch_shows (pending o []) (runner u');
  cd_dom : forall x, is_Some (seen (input_batch (runner u')) x) <-> is_Some (seen (input_batch (runner u)) x);
  cd_tracked : forall x, tracked (runner u') x = told_all (so_scheduled_cached_reqs o) todo (tracked (runner u)) x;
  cd_requests : forall x, x ∉ map snd todo -> mr_requests (runner u') !! x = mr_requests (runner u) !! x;
  cd_add : exists qs, reqs_to_add u' = reqs_to_add u ++ qs /\
    map cs_req_id qs = List.filter (fun x => is_none (seen (input_batch (runner u)) x)) (map snd todo) /\
    forall q, q ∈ qs -> mr_requests (runner u') !! cs_req_id q = Some q
}.
Lemma tracked_some r id tr : tracked r id = Some tr -> exists q out, mr_requests r !! id = Some q /\ outputs r !! cs_output_token_ids q = Some out /\ tr = track q out.
Proof.
  unfold tracked. destruct (mr_requests r !! id) as [q|] eqn:Eq; [|done]. simpl. destruct (outputs r !! cs_output_token_ids q) as [out|] eqn:Eo; [|done].
  simpl. intros E. exists q, out. split_and!; congruence.
Qed.
Lemma is_none_some {A} (o o' : option A) : (is_Some o <-> is_Some o') -> is_none o = is_none o'.
Proof. intros H. destruct o, o'; try done; exfalso; [destruct (proj1 H) as [? ?]|destruct (proj2 H) as [? ?]]; try done; by eexists. Qed.

(** What is shown, over one step for [id]. *)
Lemma shows_step o i id todo u u1 q out c no nb : id ∉ map snd todo -> states_ok (runner u) -> batch_shows (pending o ((i, id) :: todo)) (runner u) ->
  mr_requests (runner u) !! id = Some q -> outputs (runner u) !! cs_output_token_ids q = Some out -> told_state id u q out c no nb u1 ->
  same_setting (input_batch (runner u)) (input_batch (runner u1)) ->
  (forall x, x <> id -> seen (input_batch (runner u1)) x = seen (input_batch (runner u)) x) ->
  (forall v, seen (input_batch (runner u1)) id = Some v -> exists acc, v = shown_view (input_batch (runner u))
     (next_state q c nb (bool_decide (id ∈ cr_resumed_req_ids (so_scheduled_cached_reqs (so u))))) (take (Z.to_nat no) out) (drafts_of o id) (drafts_of o id) acc) ->
  batch_shows (pending o todo) (runner u1).
Proof.
  intros Hid Hok Hsh Hq Hout Htold Hset Hother Hown x v Hv. pose proof Htold as (_ & Er & _). destruct (decide (x = id)) as [->|Hne].
  - destruct (Hown v Hv) as [acc ->]. eexists _, _, _, _, acc. rewrite Er, lookup_insert_eq. split_and!; [done| | |].
    + simpl. by rewrite (told_own_output id u u1 q out c no nb).
    + symmetry. by apply shown_view_setting.
    + unfold pending. by rewrite decide_False.
  - rewrite Hother in Hv by done. destruct (Hsh x v Hv) as (qx & ox & dx & sx & acc & H1 & H2 & H3 & H4). exists qx, ox, dx, sx, acc. split_and!.
    + rewrite Er. by rewrite lookup_insert_ne.
    + by rewrite (told_other_output id u u1 q out c no nb Hok Hq Htold x).
    + rewrite H3. symmetry. by apply shown_view_setting.
    + unfold pending in *. simpl in H4. destruct (decide (x ∈ map snd todo)); [by rewrite decide_True in H4 by set_solver|by rewrite decide_False in H4 by set_solver].
Qed.

Context (Hlast : is_last_rank cfg = true) (Hsync : use_async_scheduling cfg = false).

(** One request of the loop: present in the batch or not. *)
Lemma cached_one counts o i id todo u : so u = o -> states_ok (runner u) -> batch_inv n len (input_batch (runner u)) ->
  batch_shows (pending o ((i, id) :: todo)) (runner u) -> id ∉ map snd todo -> cached_ok len o (input_batch (runner u)) (tracked (runner u)) (i, id) ->
  wp (update_cached_request cfg counts i id) (fun _ u1 => exists q out c no nb, told_state id u q out c no nb u1 /\
    mr_requests (runner u) !! id = Some q /\ outputs (runner u) !! cs_output_token_ids q = Some out /\
    (forall ids, nb = Some ids -> length ids = length (batch_block_table (input_batch (runner u)))) /\
    tracked (runner u) id ≫= told_cached (so_scheduled_cached_reqs o) i id =
      Some (track (next_state q c nb (bool_decide (id ∈ cr_resumed_req_ids (so_scheduled_cached_reqs (so u))))) (take (Z.to_nat no) out)) /\
    batch_inv n len (input_batch (runner u1)) /\ same_setting (input_batch (runner u)) (input_batch (runner u1)) /\
    batch_update_builder (input_batch (runner u1)) = batch_update_builder (input_batch (runner u)) /\
    (forall x, is_Some (seen (input_batch (runner u1)) x) <-> is_Some (seen (input_batch (runner u)) x)) /\
    batch_shows (pending o todo) (runner u1) /\
    reqs_to_add u1 = reqs_to_add u ++ (if is_none (seen (input_batch (runner u)) id)
      then [next_state q c nb (bool_decide (id ∈ cr_resumed_req_ids (so_scheduled_cached_reqs (so u))))] else [])) u.
Proof.
  intros Hso Hok Hinv Hsh Hid [(c & nb & no & tr & H1 & H2 & H3 & H4 & H5 & H6 & H7 & H8 & H9) Hres]. simpl in *.
  destruct (tracked_some _ _ _ H7) as (q & out & Hq & Hout & ->). pose proof (st_static _ Hok id q Hq) as Hst.
  assert (tracked (runner u) id ≫= told_cached (so_scheduled_cached_reqs o) i id =
      Some (track (next_state q c nb (bool_decide (id ∈ cr_resumed_req_ids (so_scheduled_cached_reqs (so u))))) (take (Z.to_nat no) out))) as Htell.
  { rewrite H7. simpl. unfold told_cached. rewrite H1, H2, H3. simpl. by rewrite Hso. }
  rewrite <-Hso in H1, H2, H3. destruct (seen (input_batch (runner u)) id) as [v|] eqn:Es.
  - destruct (Hsh id v Es) as (q0 & out0 & d & sp0 & acc & G1 & G2 & G3 & G4). assert (q0 = q) as -> by congruence. assert (out0 = out) as -> by congruence.
    unfold pending in G4. rewrite decide_True in G4 by (simpl; set_solver). subst d v.
    assert (id ∉ cr_resumed_req_ids (so_scheduled_cached_reqs (so u))) as Hnr by (rewrite Hso; intros Hin; by specialize (Hres Hin)).
    eapply wp_mono; [apply (cached_present cfg n len Hlast Hsync counts i id u q out c no nb Hq Hout Hst H1 H2 H3 H4 H5 sp0 acc Hinv Es)|].
    + by apply bool_decide_eq_false_2.
    + rewrite Hso. unfold cs_num_tokens. change (default [] (so_scheduled_spec_decode_tokens o !! id)) with (drafts_of o id). simpl in H8. lia.
    + rewrite Hso. done.
    + intros _ u1 (T & R & I & S & B & V). exists q, out, c, no, nb.
      assert (forall x, x <> id -> seen (input_batch (runner u1)) x = seen (input_batch (runner u)) x) as Hne by (intros x Hx; by rewrite V, decide_False).
      split_and!; try done; try apply I; try apply S.
      * intros x. destruct (decide (x = id)) as [->|Hx]; [rewrite V, decide_True by done|by rewrite Hne]. split; intros _; [rewrite Es|]; by eexists.
      * eapply (shows_step o i id todo u u1 q out c no nb); try done. intros v. rewrite V, decide_True by done. intros [= <-]. exists acc. by rewrite Hso.
      * simpl. by rewrite app_nil_r.
  - eapply wp_mono; [apply (cached_absent cfg Hlast Hsync counts i id u q out c no nb Hq Hout Hst H1 H2 H3 H4 H5 Es)|].
    + intros Hr%bool_decide_eq_true. apply H6. by rewrite Hso in Hr.
    + intros _ u1 (T & B & R). exists q, out, c, no, nb. rewrite !B. split_and!; try done; try apply Hinv.
      eapply (shows_step o i id todo u u1 q out c no nb); try done; [by rewrite B..|]. rewrite B, Es. done.
Qed.

Lemma cached_loop counts o todo : forall u, so u = o -> states_ok (runner u) -> batch_inv n len (input_batch (runner u)) ->
  batch_shows (pending o todo) (runner u) -> NoDup (map snd todo) ->
  (forall e, e ∈ todo -> cached_ok len o (input_batch (runner u)) (tracked (runner u)) e) ->
  wp (py_for todo (fun e => update_cached_request cfg counts (fst e) (snd e))) (fun _ u' => cached_done o todo u u') u.
Proof.
  induction todo as [|[i id] todo IH]; intros u Hso Hok Hinv Hsh Hnd Hall; cbn [py_for].
  { rstep. split; try done. exists []. rewrite app_nil_r. split_and!; try done. intros q Hq. by apply not_elem_of_nil in Hq. }
  simpl in Hnd. apply NoDup_cons in Hnd as [Hid Hnd]. rstep.
  eapply wp_mono; [apply (cached_one counts o i id todo); try done; apply Hall; by constructor|].
  intros _ u1 (q & out & c & no & nb & T & Hq & Hout & Hlen & Htell & Hinv1 & Hset1 & Hb1 & Hdom1 & Hsh1 & Hadd1).
  set (q' := next_state q c nb _) in *. pose proof T as (Eso & Ereq & _). fold q' in Ereq.
  pose proof (told_tracked id u u1 q out c no nb Hok Hq Hout T) as Htr.
  eapply wp_mono; [apply (IH u1); try done; [congruence|by eapply told_states_ok|]|].
  { intros e He. assert (snd e <> id) as Hne by (intros <-; apply Hid; by apply list_elem_of_fmap_2).
    eapply (cached_ok_setting len o (input_batch (runner u))); [done|by apply Hdom1|by rewrite Htr, decide_False|]. apply Hall. by constructor. }
  intros _ u' [C1 C2 C3 C4 C5 C6 C7 C8 C9 (qs & C10 & C11 & C12)]. split.
  - congruence.
  - done.
  - done.
  - by eapply same_setting_trans.
  - congruence.
  - done.
  - intros x. by rewrite C7.
  - intros x. rewrite C8, told_all_cons by done. destruct (decide (x = id)) as [->|Hne].
    + rewrite told_all_other by done. rewrite Htr, decide_True by done. by rewrite Htell.
    + apply told_all_ext. by rewrite Htr, decide_False.
  - intros x Hx. simpl in Hx. rewrite C9 by set_solver. rewrite Ereq, lookup_insert_ne by set_solver. done.
  - exists ((if is_none (seen (input_batch (runner u)) id) then [q'] else []) ++ qs). rewrite C10, Hadd1, app_assoc. split; [done|].
    assert (mr_requests (runner u') !! id = Some q') as Hq' by (rewrite C9 by done; rewrite Ereq; apply lookup_insert_eq).
    assert (cs_req_id q' = id) as Hid' by (change (cs_req_id q') with (cs_req_id q); by eapply (st_id _ Hok)).
    split.
    + rewrite map_app, C11. simpl. assert (List.filter (fun x => is_none (seen (input_batch (runner u1)) x)) (map snd todo) =
        List.filter (fun x => is_none (seen (input_batch (runner u)) x)) (map snd todo)) as ->.
      { apply filter_ext. intros x. by apply is_none_some. }
      destruct (is_none (seen (input_batch (runner u)) id)); simpl; congruence.
    + intros q0 [H0|H0]%elem_of_app; [|by apply C12]. destruct (is_none _); [|by apply not_elem_of_nil in H0].
      apply list_elem_of_singleton in H0 as ->. by rewrite Hid'.
Qed.

(** ** All new requests *)

Definition told_news (news : list NewRequestData) (t : string -> option Tracked) (x : string) : option Tracked :=
  match list_find (fun nr => nr_id nr = x) news with
  | Some (_, nr) => told_new cfg model nr
  | None => t x
  end.
Record news_done (news : list NewRequestData) (u u' : Update) : Prop := {
  nd_so : so u' = so u;
  nd_states : states_ok (runner u');
  nd_batch : input_batch (runner u') = input_batch (runner u);
  nd_shows : forall P, batch_shows P (runner u) -> batch_shows P (runner u');
  nd_tracked : forall x, tracked (runner u') x = told_news news (tracked (runner u)) x;
  nd_requests : forall x, x ∉ map nr_id news -> mr_requests (runner u') !! x = mr_requests (runner u) !! x;
  nd_add : exists qs, reqs_to_add u' = reqs_to_add u ++ qs /\ map cs_req_id qs = map nr_id news /\
    forall q, q ∈ qs -> mr_requests (runner u') !! cs_req_id q = Some q
}.
Section one_new.
Context (nr : NewRequestData) (u u1 : Update) (q : CachedRequestState).
Context (Hok : states_ok (runner u)) (Hnew : mr_requests (runner u) !! nr_id nr = None) (He : entered cfg model nr u u1 q).

Lemma entered_case x qx : mr_requests (runner u1) !! x = Some qx -> (x = nr_id nr /\ qx = q) \/ (x <> nr_id nr /\ mr_requests (runner u) !! x = Some qx).
Proof.
  rewrite (en_requests _ _ _ _ _ _ He). destruct (decide (x = nr_id nr)) as [->|]; [rewrite lookup_insert_eq; left; split; congruence|].
  rewrite lookup_insert_ne by done. by right.
Qed.
Lemma entered_output x qx : mr_requests (runner u) !! x = Some qx -> outputs (runner u1) !! cs_output_token_ids qx = outputs (runner u) !! cs_output_token_ids qx.
Proof. intros Hx. rewrite (en_outputs _ _ _ _ _ _ He). destruct (st_out _ Hok x qx Hx) as [o Ho]. apply lookup_app_l. by eapply lookup_lt_Some. Qed.
Lemma entered_own : outputs (runner u1) !! cs_output_token_ids q = Some [].
Proof. rewrite (en_outputs _ _ _ _ _ _ He), (en_loc _ _ _ _ _ _ He). by rewrite list_lookup_middle. Qed.
Lemma entered_states : states_ok (runner u1).
Proof.
  destruct Hok as [S1 S2 S3 S4]. split.
  - intros x qx [[-> ->]|[_ H]]%entered_case; [apply He|by eapply S1].
  - intros x qx [[-> ->]|[_ H]]%entered_case; [rewrite entered_own; by eexists|]. rewrite (entered_output x) by done. by eapply S2.
  - assert (forall x qx, mr_requests (runner u) !! x = Some qx -> cs_output_token_ids qx <> cs_output_token_ids q) as Hfresh.
    { intros x qx Hx. destruct (S2 x qx Hx) as [o Ho]. apply lookup_lt_Some in Ho. rewrite (en_loc _ _ _ _ _ _ He). lia. }
    intros x y qx qy [[-> ->]|[_ Hx]]%entered_case [[-> ->]|[_ Hy]]%entered_case E; [done| | |by eapply S3].
    + destruct (Hfresh y qy); done.
    + destruct (Hfresh x qx); done.
  - rewrite (en_batch _ _ _ _ _ _ He). intros x qx [[-> ->]|[_ H]]%entered_case; [apply He|by eapply S4].
Qed.
Lemma entered_tracked x : tracked (runner u1) x = if decide (x = nr_id nr) then told_new cfg model nr else tracked (runner u) x.
Proof.
  unfold tracked. rewrite (en_requests _ _ _ _ _ _ He). destruct (decide (x = nr_id nr)) as [->|].
  - rewrite lookup_insert_eq. simpl. rewrite entered_own. symmetry. apply He.
  - rewrite lookup_insert_ne by done. destruct (mr_requests (runner u) !! x) as [qx|] eqn:E; [|done]. simpl. by rewrite (entered_output x).
Qed.
Lemma entered_shows P : batch_shows P (runner u) -> batch_shows P (runner u1).
Proof.
  intros H x v. rewrite (en_batch _ _ _ _ _ _ He). intros Hv. destruct (H x v Hv) as (qx & ox & d & sp & acc & H1 & H2 & H3 & H4). exists qx, ox, d, sp, acc.
  assert (x <> nr_id nr) by congruence. split_and!; try done; [rewrite (en_requests _ _ _ _ _ _ He); by rewrite lookup_insert_ne|by rewrite (entered_output x)].
Qed.
End one_new.

Lemma news_loop news : forall u, states_ok (runner u) -> NoDup (map nr_id news) ->
  (forall nr, nr ∈ news -> new_ok cfg model (input_batch (runner u)) nr /\ mr_requests (runner u) !! nr_id nr = None) ->
  wp (py_for news (add_new_request cfg model)) (fun _ u' => news_done news u u') u.
Proof.
  induction news as [|nr news IH]; intros u Hok Hnd Hall; cbn [py_for].
  { rstep. split; try done. exists []. rewrite app_nil_r. split_and!; try done. intros q Hq. by apply not_elem_of_nil in Hq. }
  simpl in Hnd. apply NoDup_cons in Hnd as [Hid Hnd]. destruct (Hall nr) as [Hnr Hfresh]; [by constructor|]. rstep.
  eapply wp_mono; [by apply add_new_spec|]. intros _ u1 (q & He).
  eapply wp_mono; [apply (IH u1); [by eapply entered_states|done|]|].
  { intros nr' Hin. destruct (Hall nr') as [G1 G2]; [by constructor|]. rewrite (en_batch _ _ _ _ _ _ He). split; [done|].
    rewrite (en_requests _ _ _ _ _ _ He), lookup_insert_ne; [done|]. intros E. apply Hid. rewrite E. by apply list_elem_of_fmap_2. }
  intros _ u' [C1 C2 C3 C4 C5 C6 (qs & C7 & C8 & C9)]. pose proof (entered_tracked nr u u1 q Hok He) as Htr. split.
  - rewrite C1. apply He.
  - done.
  - rewrite C3. apply He.
  - intros P HP. apply C4. by eapply (entered_shows nr u).
  - intros x. rewrite C5. unfold told_news. simpl. destruct (decide (nr_id nr = x)) as [<-|Hne].
    + destruct (list_find _ news) as [[k nr']|] eqn:E; [|by rewrite Htr, decide_True].
      apply list_find_Some in E as (E & Es & _). destruct Hid. rewrite <-Es. apply list_elem_of_fmap_2. by eapply list_elem_of_lookup_2.
    + destruct (list_find _ news) as [[k nr']|]; [done|]. simpl. by rewrite Htr, decide_False.
  - intros x Hx. simpl in Hx. rewrite C6 by set_solver. rewrite (en_requests _ _ _ _ _ _ He), lookup_insert_ne by set_solver. done.
  - exists (q :: qs). rewrite C7, (en_add _ _ _ _ _ _ He), <-app_assoc. split_and!; [done|simpl; f_equal; [apply He|done]|].
    intros q0 [->|H0]%elem_of_cons; [|by apply C9]. rewrite (en_id _ _ _ _ _ _ He). rewrite C6 by done. rewrite (en_requests _ _ _ _ _ _ He). apply lookup_insert_eq.
Qed.

(** ** Additions *)

Lemma seen_index b x : is_Some (seen b x) <-> x ∈ dom (InputBatch.req_id_to_index b).
Proof. unfold seen. rewrite elem_of_dom. destruct (InputBatch.req_id_to_index b !! x); simpl; split; intros [? ?]; try done; by eexists. Qed.
Lemma seen_none b x : seen b x = None <-> InputBatch.req_id_to_index b !! x = None.
Proof. unfold seen. by destruct (InputBatch.req_id_to_index b !! x). Qed.
Lemma seen_size b b' x : seen b x = None -> (forall y, is_Some (seen b' y) <-> y = x \/ is_Some (seen b y)) ->
  size (InputBatch.req_id_to_index b') = S (size (InputBatch.req_id_to_index b)).
Proof.
  intros Hx H. rewrite <-!(size_dom (D := gset string)). assert (dom (InputBatch.req_id_to_index b') = {[x]} ∪ dom (InputBatch.req_id_to_index b)) as ->.
  { apply set_eq. intros y. rewrite <-seen_index, H, elem_of_union, elem_of_singleton, seen_index. done. }
  rewrite size_union, size_singleton; [done|]. intros y Hy%elem_of_singleton. subst y. rewrite <-seen_index, Hx. by intros [? ?].
Qed.
Definition to_add (r : ModelRunner) (q : CachedRequestState) : Prop :=
  mr_requests r !! cs_req_id q = Some q /\ seen (input_batch r) (cs_req_id q) = None /\
  exists out, outputs r !! cs_output_token_ids q = Some out /\ cs_num_tokens q out <= len /\ blocks_fit (input_batch r) (cs_block_ids q).
Lemma adds_loop qs : forall r, batch_inv n len (input_batch r) -> states_ok r -> NoDup (map cs_req_id qs) -> (forall q, q ∈ qs -> to_add r q) ->
  (size (InputBatch.req_id_to_index (input_batch r)) + length qs <= n)%nat ->
  wp (py_for qs (fun q => let! out := read_output (cs_output_token_ids q) in do! on_batch (add_request q out); py_ret tt)) (fun _ r' => exists b,
    r' = set_input_batch b r /\ batch_inv n len b /\ same_setting (input_batch r) b /\
    (forall x, x ∉ map cs_req_id qs -> seen b x = seen (input_batch r) x) /\
    (forall q out, q ∈ qs -> outputs r !! cs_output_token_ids q = Some out -> seen b (cs_req_id q) = Some (shown_view (input_batch r) q out [] [] 1))) r.
Proof.
  induction qs as [|q qs IH]; intros r Hinv Hok Hnd Hall Hn; cbn [py_for].
  { rstep. exists (input_batch r). split; [by destruct r|]. split; [done|]. split; [done|]. split; [done|]. intros q out Hq. by apply not_elem_of_nil in Hq. }
  simpl in Hnd. apply NoDup_cons in Hnd as [Hid Hnd]. destruct (Hall q) as (Hq & Hs & out & Hout & Hfit & Hblk); [by constructor|].
  pose proof (static_request_ok len _ q out (st_static _ Hok _ _ Hq) Hfit Hblk) as Hreq.
  rstep. rstep. unfold read_output. rstep. rstep. rewrite Hout. rstep. rstep. apply wp_zoom.
  eapply wp_mono; [apply (add_spec n len); try done; [unfold num_reqs; simpl in Hn; lia|by apply seen_none]|].
  intros _ b1 (Hinv1 & Hset1 & Hseen1). rstep.
  assert (forall x, x <> cs_req_id q -> seen b1 x = seen (input_batch r) x) as Hne by (intros x Hx; by rewrite Hseen1, decide_False).
  eapply wp_mono; [apply (IH (set_input_batch b1 r)); [done|by apply states_set_batch|done| |]|].
  - intros q0 Hin. destruct (Hall q0) as (G1 & G2 & out0 & G3 & G4 & G5); [by constructor|]. split_and!; [done| |].
    + simpl. rewrite Hne; [done|]. intros E. apply Hid. rewrite <-E. by apply list_elem_of_fmap_2.
    + exists out0. split_and!; try done. by eapply blocks_fit_setting.
  - simpl. rewrite (seen_size (input_batch r) b1 (cs_req_id q)); [simpl in Hn; lia|done|]. intros y. rewrite Hseen1. case_decide as Hy; [subst y|].
    + split; [by left|]. intros _. by eexists.
    + split; [by right|]. by intros [?|?].
  - intros _ r' (b & -> & R1 & R2 & R3 & R4). exists b. split; [done|]. split; [done|]. split; [by eapply same_setting_trans|]. simpl in R2, R3, R4. split.
    + intros x Hx. simpl in Hx. rewrite R3 by set_solver. apply Hne. set_solver.
    + intros q0 out0 [->|Hin]%elem_of_cons Hout0.
      * rewrite R3 by done. rewrite Hseen1, decide_True by done. rewrite request_view_shown. congruence.
      * rewrite (R4 q0 out0) by done. f_equal. by apply shown_view_setting.
Qed.

(** ** The update *)

(** What the worker relies on in a scheduler's output. *)
Record output_ok (r : ModelRunner) (o : SchedulerOutput) : Prop := {
  oo_ids : forall x, x ∈ map fst (so_num_scheduled_tokens o) <-> x ∈ map nr_id (so_scheduled_new_reqs o) ++ cr_req_ids (so_scheduled_cached_reqs o);
  oo_nodup : NoDup (map nr_id (so_scheduled_new_reqs o) ++ cr_req_ids (so_scheduled_cached_reqs o));
  oo_count : (length (so_scheduled_new_reqs o) + length (cr_req_ids (so_scheduled_cached_reqs o)) <= n)%nat;
  oo_new : forall nr, nr ∈ so_scheduled_new_reqs o -> new_ok cfg model (input_batch r) nr /\
    (nr_id nr ∈ so_finished_req_ids o \/ mr_requests r !! nr_id nr = None) /\ 0 <= nr_num_computed_tokens nr /\
    forall t, told_new cfg model nr = Some t -> t_num_prompt t <= len /\ blocks_fit (input_batch r) (t_blocks t);
  oo_cached : forall i id, cr_req_ids (so_scheduled_cached_reqs o) !! i = Some id -> id ∉ so_finished_req_ids o /\
    exists c nb no tr, cr_num_computed_tokens (so_scheduled_cached_reqs o) !! i = Some c /\
    cr_new_block_ids (so_scheduled_cached_reqs o) !! i = Some nb /\ cr_num_output_tokens (so_scheduled_cached_reqs o) !! i = Some no /\
    0 <= c /\ 0 <= no /\ (forall ids, nb = Some ids -> length ids = length (batch_block_table (input_batch r))) /\
    (id ∈ cr_resumed_req_ids (so_scheduled_cached_reqs o) -> is_Some nb) /\ tracked r id = Some tr /\
    t_num_prompt tr + Z.of_nat (length (take (Z.to_nat no) (t_output tr))) + Z.of_nat (length (drafts_of o id)) <= len /\
    blocks_fit (input_batch r) (new_blocks (t_blocks tr) nb (bool_decide (id ∈ cr_resumed_req_ids (so_scheduled_cached_reqs o))))
}.
(** The state between steps. *)
Record runner_inv (P : string -> list Z -> list Z -> Prop) (r : ModelRunner) : Prop := {
  ri_batch : batch_inv n len (input_batch r);
  ri_builder : batch_update_builder (input_batch r) = builder_init;
  ri_states : states_ok r;
  ri_shows : batch_shows P r
}.
(** The states that the scheduler's output tells. *)
Definition told (o : SchedulerOutput) (t : string -> option Tracked) (x : string) : option Tracked :=
  told_all (so_scheduled_cached_reqs o) (zip (seq 0 (length (cr_req_ids (so_scheduled_cached_reqs o)))) (cr_req_ids (so_scheduled_cached_reqs o)))
    (told_news (so_scheduled_new_reqs o) (fun x => if decide (x ∈ so_finished_req_ids o) then None else t x)) x.
(** A request that keeps its row. *)
Definition stays (r : ModelRunner) (o : SchedulerOutput) (x : string) : bool :=
  negb (is_none (seen (input_batch r) x)) && negb (bool_decide (x ∈ so_finished_req_ids o)) &&
  negb (bool_decide (x ∈ cr_resumed_req_ids (so_scheduled_cached_reqs o))).

(** After the finished and the unscheduled requests have left. *)
Record departed (r : ModelRunner) (o : SchedulerOutput) (r1 : ModelRunner) : Prop := {
  dp_states : states_ok r1;
  dp_inv : batch_inv n len (input_batch r1);
  dp_flag : sorted_flag (input_batch r1) = false;
  dp_set : same_setting (input_batch r) (input_batch r1);
  dp_shows : batch_shows (fun _ d _ => d = []) r1;
  dp_tracked : forall x, tracked r1 x = if decide (x ∈ so_finished_req_ids o) then None else tracked r x;
  dp_requests : forall x, mr_requests r1 !! x = if decide (x ∈ so_finished_req_ids o) then None else mr_requests r !! x;
  dp_seen : forall x, seen (input_batch r1) x = if stays r o x && bool_decide (x ∈ map fst (so_num_scheduled_tokens o)) then seen (input_batch r) x else None
}.
Lemma departures r o : runner_inv (fun _ d _ => d = []) r ->
  wp (do! forget_finished (elements (so_finished_req_ids o));
      do! free_encoder_outputs (so_free_encoder_mm_hashes o);
      let! r := py_get in
      py_for (elements (unscheduled_req_ids o (input_batch r))) (fun id => do! on_batch (remove_request id); py_ret tt)) (fun _ r1 => departed r o r1) r.
Proof.
  intros [Hinv Hbld Hok Hsh]. rstep. eapply wp_mono; [apply (forget_finished_spec n len); [done|by unfold sorted_flag; rewrite Hbld]|].
  intros _ r1 (m & lp & b1 & -> & Hm & Hinv1 & Hflag1 & Hset1 & Hseen1). rstep. eapply wp_mono; [apply free_encoder_spec|]. intros _ r2 (ec & ->).
  rstep. rstep. rsimpl. eapply wp_mono; [by apply (removes_spec n len)|]. rsimpl. intros _ r3 (b & -> & Hinv' & Hflag' & Hset' & Hseen').
  assert (same_setting (input_batch r) b) as Hset by (by eapply same_setting_trans).
  assert (forall x, m !! x = if decide (x ∈ so_finished_req_ids o) then None else mr_requests r !! x) as Hm'.
  { intros x. rewrite Hm. destruct (decide (x ∈ so_finished_req_ids o)); [by rewrite decide_True by (by apply elem_of_elements)|by rewrite decide_False by (by rewrite elem_of_elements)]. }
  assert (forall x, seen b x = if stays r o x && bool_decide (x ∈ map fst (so_num_scheduled_tokens o)) then seen (input_batch r) x else None) as Hseen.
  { intros x. rewrite Hseen', Hseen1. unfold stays.
    destruct (seen (input_batch r) x) as [v|] eqn:Ev; simpl; [|by repeat case_decide].
    destruct (decide (x ∈ so_finished_req_ids o)) as [Hf|Hf].
    - rewrite (bool_decide_eq_true_2 _ Hf). simpl. rewrite (decide_True (P := x ∈ elements (so_finished_req_ids o))) by (by apply elem_of_elements). by case_decide.
    - rewrite (bool_decide_eq_false_2 _ Hf). simpl. rewrite (decide_False (P := x ∈ elements (so_finished_req_ids o))) by (by rewrite elem_of_elements).
      assert (x ∈ dom (InputBatch.req_id_to_index b1)) as Hdom.
      { apply seen_index. rewrite Hseen1, decide_False by (by rewrite elem_of_elements). by rewrite Ev. }
      assert (x ∈ elements (unscheduled_req_ids o b1) <-> x ∉ map fst (so_num_scheduled_tokens o) \/ x ∈ cr_resumed_req_ids (so_scheduled_cached_reqs o)) as Hu.
      { rewrite elem_of_elements. unfold unscheduled_req_ids. rewrite !elem_of_difference, elem_of_list_to_set.
        destruct (decide (x ∈ map fst (so_num_scheduled_tokens o))), (decide (x ∈ cr_resumed_req_ids (so_scheduled_cached_reqs o))); tauto. }
      destruct (decide (x ∈ elements (unscheduled_req_ids o b1))) as [Hin|Hin]; rewrite Hu in Hin.
      + destruct Hin as [Hin|Hin]; [by rewrite (bool_decide_eq_false_2 _ Hin), andb_false_r|by rewrite (bool_decide_eq_true_2 _ Hin)].
      + destruct (decide (x ∈ map fst (so_num_scheduled_tokens o))) as [Hs|Hs]; [|tauto].
        rewrite (bool_decide_eq_true_2 _ Hs), (bool_decide_eq_false_2 (x ∈ cr_resumed_req_ids _)) by tauto. done. }
  split; rsimpl; try done.
  - destruct Hok as [S1 S2 S3 S4].
    assert (forall x q, m !! x = Some q -> mr_requests r !! x = Some q) as Hsub by (intros x q; rewrite Hm'; by case_decide).
    split; rsimpl; eauto. intros x q Hq. eapply static_setting; [exact Hset|]. eauto.
  - intros x v Hv. simpl in Hv. rewrite Hseen in Hv. destruct (stays r o x) eqn:Est; [|done]. simpl in Hv. case_bool_decide; [|done].
    destruct (Hsh x v Hv) as (q & out & d & sp & acc & H1 & H2 & H3 & H4). exists q, out, d, sp, acc. split_and!; try done.
    + simpl. rewrite Hm'. rewrite decide_False; [done|]. unfold stays in Est. by apply andb_prop in Est as [[_ ?%negb_true_iff%bool_decide_eq_false]%andb_prop _].
    + rewrite H3. symmetry. by apply shown_view_setting.
  - intros x. unfold tracked. rsimpl. rewrite Hm'. by case_decide.
Qed.

Definition enumerated (o : SchedulerOutput) : list (nat * string) :=
  zip (seq 0 (length (cr_req_ids (so_scheduled_cached_reqs o)))) (cr_req_ids (so_scheduled_cached_reqs o)).
Lemma enumerated_ids o : map snd (enumerated o) = cr_req_ids (so_scheduled_cached_reqs o).
Proof. unfold enumerated. change (map snd ?l) with (snd <$> l). apply snd_zip. by rewrite length_seq. Qed.
Lemma enumerated_lookup o e : e ∈ enumerated o -> cr_req_ids (so_scheduled_cached_reqs o) !! fst e = Some (snd e).
Proof.
  intros [k Hk]%list_elem_of_lookup. unfold enumerated in Hk. rewrite lookup_zip_with in Hk.
  destruct (seq 0 _ !! k) as [i|] eqn:Ei; [|done]. simpl in Hk. destruct (cr_req_ids _ !! k) as [x|] eqn:Ex; [|done]. simpl in Hk.
  apply lookup_seq in Ei as [-> _]. injection Hk as <-. done.
Qed.

(** A new request is told its own state, one that was there what its entry says. *)
Lemma told_new_lookup o t nr : NoDup (map nr_id (so_scheduled_new_reqs o) ++ cr_req_ids (so_scheduled_cached_reqs o)) ->
  nr ∈ so_scheduled_new_reqs o -> told o t (nr_id nr) = told_new cfg model nr.
Proof.
  intros Hnd Hin. apply NoDup_app in Hnd as (Hnd1 & Hdis & _). unfold told. fold (enumerated o). rewrite told_all_other.
  2:{ rewrite enumerated_ids. apply Hdis. by apply list_elem_of_fmap_2. }
  unfold told_news. destruct (list_find _ _) as [[k nr']|] eqn:E.
  - apply list_find_Some in E as (E & Es & _). apply list_elem_of_lookup in Hin as [j Hj].
    assert (k = j) as ->; [|congruence]. apply (NoDup_lookup (map nr_id (so_scheduled_new_reqs o)) k j (nr_id nr) Hnd1); change (map ?f ?l) with (f <$> l); rewrite list_lookup_fmap.
    + rewrite E. simpl. congruence.
    + by rewrite Hj.
  - apply list_find_None in E. rewrite Forall_forall in E. by destruct (E nr Hin).
Qed.
Lemma told_news_other news t x : x ∉ map nr_id news -> told_news news t x = t x.
Proof.
  intros H. unfold told_news. destruct (list_find _ news) as [[k nr]|] eqn:E; [|done]. apply list_find_Some in E as (E & Es & _).
  destruct H. rewrite <-Es. apply list_elem_of_fmap_2. by eapply list_elem_of_lookup_2.
Qed.
Lemma told_cached_lookup o t i id : NoDup (map nr_id (so_scheduled_new_reqs o) ++ cr_req_ids (so_scheduled_cached_reqs o)) ->
  cr_req_ids (so_scheduled_cached_reqs o) !! i = Some id -> id ∉ so_finished_req_ids o ->
  told o t id = t id ≫= told_cached (so_scheduled_cached_reqs o) i id.
Proof.
  intros Hnd Hi Hf. apply NoDup_app in Hnd as (_ & Hdis & Hnd). pose proof (list_elem_of_lookup_2 _ _ _ Hi) as Hin.
  unfold told. fold (enumerated o). unfold told_all. destruct (list_find _ (enumerated o)) as [[k e]|] eqn:E.
  - apply list_find_Some in E as (E & Es & _). apply list_elem_of_lookup_2, enumerated_lookup in E.
    assert (fst e = i) as -> by (eapply (NoDup_lookup (cr_req_ids (so_scheduled_cached_reqs o))); [done|exact E|congruence]).
    rewrite told_news_other; [by rewrite decide_False|]. intros H. by apply (Hdis id).
  - apply list_find_None in E. rewrite Forall_forall in E. rewrite <-(enumerated_ids o) in Hin. apply list_elem_of_fmap in Hin as (e & -> & He). by destruct (E e He).
Qed.
(** Every scheduled request is told a state that fits. *)
Lemma told_fits r o x : output_ok r o -> x ∈ map fst (so_num_scheduled_tokens o) ->
  exists t, told o (tracked r) x = Some t /\ t_num_prompt t + Z.of_nat (length (t_output t)) <= len /\ blocks_fit (input_batch r) (t_blocks t) /\ 0 <= t_computed t.
Proof.
  intros Ho Hx. apply (oo_ids _ _ Ho), elem_of_app in Hx as [(nr & -> & Hnr)%list_elem_of_fmap|[i Hi]%list_elem_of_lookup].
  - rewrite (told_new_lookup o _ nr (oo_nodup _ _ Ho) Hnr). destruct (oo_new _ _ Ho nr Hnr) as ((a & k & Ha & Hst & _) & _ & Hpos & Hfit).
    unfold told_new in *. rewrite Ha in *. pose proof (sq_prompt _ _ Hst) as Hk. simpl in Hk. rewrite Hk in *. eexists. split; [done|].
    destruct (Hfit _ eq_refl) as [F1 F2]. simpl in *. split_and!; [lia|done|done].
  - destruct (oo_cached _ _ Ho i x Hi) as (Hf & c & nb & no & tr & H1 & H2 & H3 & H4 & H5 & H6 & H7 & H8 & H9 & H10).
    rewrite (told_cached_lookup o _ i x (oo_nodup _ _ Ho) Hi Hf), H8. simpl. unfold told_cached. rewrite H1, H2, H3. simpl. eexists. split; [done|]. simpl.
    split_and!; [lia|done|done].
Qed.

Lemma new_ok_setting b b' nr : same_setting b b' -> new_ok cfg model b nr -> new_ok cfg model b' nr.
Proof. intros Hs (a & k & H1 & H2 & H3). exists a, k. split; [done|]. split; [by eapply static_setting|done]. Qed.

Section ready.
Context (r : ModelRunner) (o : SchedulerOutput) (Ho : output_ok r o) (r1 : ModelRunner) (Hd : departed r o r1).
Let news := so_scheduled_new_reqs o.
Let ids := cr_req_ids (so_scheduled_cached_reqs o).

Lemma new_absent nr : nr ∈ news -> mr_requests r1 !! nr_id nr = None /\ seen (input_batch r1) (nr_id nr) = None.
Proof.
  intros Hin. assert (mr_requests r1 !! nr_id nr = None) as Hn.
  { rewrite (dp_requests _ _ _ Hd). case_decide as Hf; [done|]. by destruct (oo_new _ _ Ho nr Hin) as (_ & [?|?] & _). }
  split; [done|]. destruct (seen (input_batch r1) (nr_id nr)) as [v|] eqn:E; [|done]. destruct (dp_shows _ _ _ Hd _ v E) as (q & out & d & sp & acc & H & _). congruence.
Qed.
Lemma news_ready u1 : runner u1 = r1 -> states_ok (runner u1) /\ NoDup (map nr_id news) /\
  forall nr, nr ∈ news -> new_ok cfg model (input_batch (runner u1)) nr /\ mr_requests (runner u1) !! nr_id nr = None.
Proof.
  intros ->. split; [apply Hd|]. split; [by pose proof (oo_nodup _ _ Ho) as (? & _)%NoDup_app|].
  intros nr Hin. split; [|by apply new_absent]. eapply new_ok_setting; [apply Hd|]. by apply (oo_new _ _ Ho).
Qed.
(** A request that is in the batch now keeps its row, and is one of the cached ones. *)
Lemma present_cached x : is_Some (seen (input_batch r1) x) -> stays r o x = true /\ x ∈ ids.
Proof.
  intros [v Hv]. pose proof Hv as Hv'. rewrite (dp_seen _ _ _ Hd) in Hv. destruct (stays r o x) eqn:Es; [|done]. split; [done|]. simpl in Hv.
  case_bool_decide as Hs; [|done]. apply (oo_ids _ _ Ho), elem_of_app in Hs as [(nr & -> & Hnr)%list_elem_of_fmap|Hs]; [|done].
  destruct (new_absent nr Hnr). congruence.
Qed.

Context (u1 u2 : Update) (Hu1 : runner u1 = r1) (Hso1 : so u1 = o) (Hn : news_done news u1 u2).
Let batch2 : input_batch (runner u2) = input_batch r1.
Proof. by rewrite (nd_batch _ _ _ Hn), Hu1. Qed.

Lemma cached_ready : so u2 = o /\ states_ok (runner u2) /\ batch_inv n len (input_batch (runner u2)) /\
  batch_shows (pending o (enumerated o)) (runner u2) /\ NoDup (map snd (enumerated o)) /\
  forall e, e ∈ enumerated o -> cached_ok len o (input_batch (runner u2)) (tracked (runner u2)) e.
Proof.
  pose proof (oo_nodup _ _ Ho) as (_ & Hdis & Hnd)%NoDup_app. split_and!.
  - rewrite (nd_so _ _ _ Hn). done.
  - apply Hn.
  - rewrite batch2. apply Hd.
  - intros x v. rewrite batch2. intros Hv. assert (batch_shows (fun _ d _ => d = []) (runner u2)) as Hsh by (apply Hn; rewrite Hu1; apply Hd).
    rewrite <-batch2 in Hv. destruct (Hsh x v Hv) as (q & out & d & sp & acc & H1 & H2 & H3 & H4). exists q, out, d, sp, acc.
    rewrite batch2 in Hv, H3. split_and!; try done. unfold pending. rewrite decide_True; [done|]. rewrite enumerated_ids. by apply present_cached; eexists.
  - by rewrite enumerated_ids.
  - intros [i id] He. apply enumerated_lookup in He. simpl in He. destruct (oo_cached _ _ Ho i id He) as (Hf & c & nb & no & tr & H1 & H2 & H3 & H4 & H5 & H6 & H7 & H8 & H9 & H10).
    pose proof (dp_set _ _ _ Hd) as Hset. split; simpl.
    + exists c, nb, no, tr. rewrite batch2. split_and!; try done.
      * destruct Hset as [_ Hs]. apply (f_equal length) in Hs. rewrite !length_map in Hs. by rewrite Hs.
      * rewrite (nd_tracked _ _ _ Hn), Hu1, told_news_other; [|intros H; apply (Hdis id); [done|by eapply list_elem_of_lookup_2]].
        rewrite (dp_tracked _ _ _ Hd). by rewrite decide_False.
      * by eapply blocks_fit_setting.
    + intros Hin. rewrite batch2. rewrite (dp_seen _ _ _ Hd). unfold stays. by rewrite (bool_decide_eq_true_2 _ Hin), andb_false_r.
Qed.

Context (u3 : Update) (Hc : cached_done o (enumerated o) u2 u3).
Lemma told_in_full x : tracked (runner u3) x = told o (tracked r) x.
Proof.
  rewrite (cd_tracked _ _ _ _ Hc). unfold told. fold (enumerated o). apply told_all_ext. rewrite (nd_tracked _ _ _ Hn), Hu1. unfold told_news.
  destruct (list_find _ _) as [[? ?]|]; [done|]. apply Hd.
Qed.
Lemma setting3 : same_setting (input_batch r) (input_batch (runner u3)).
Proof. eapply same_setting_trans; [apply Hd|]. rewrite <-batch2. apply Hc. Qed.
Lemma present3 x : is_Some (seen (input_batch (runner u3)) x) <-> is_Some (seen (input_batch r1) x).
Proof. by rewrite (cd_dom _ _ _ _ Hc), batch2. Qed.

Context (Hempty : reqs_to_add u1 = []).
Lemma adds_ready : NoDup (map cs_req_id (reqs_to_add u3)) /\ (forall q, q ∈ reqs_to_add u3 -> to_add (runner u3) q) /\
  (size (InputBatch.req_id_to_index (input_batch (runner u3))) + length (reqs_to_add u3) <= n)%nat /\
  (forall x, x ∈ map cs_req_id (reqs_to_add u3) <-> x ∈ map fst (so_num_scheduled_tokens o) /\ seen (input_batch r1) x = None).
Proof.
  destruct (nd_add _ _ _ Hn) as (qs1 & A1 & A2 & A3). destruct (cd_add _ _ _ _ Hc) as (qs2 & B1 & B2 & B3).
  rewrite Hempty in A1. simpl in A1. rewrite A1 in B1. rewrite B1, map_app, A2, B2, enumerated_ids. rewrite batch2. fold ids.
  pose proof (oo_nodup _ _ Ho) as (Hnd1 & Hdis & Hnd2)%NoDup_app.
  assert (forall x, x ∈ List.filter (fun x => is_none (seen (input_batch r1) x)) ids <-> x ∈ ids /\ seen (input_batch r1) x = None) as Hfil.
  { intros x. rewrite !list_elem_of_In, List.filter_In. unfold is_none. destruct (seen (input_batch r1) x); split; intros [? ?]; done. }
  assert (forall x, x ∈ map nr_id news -> seen (input_batch r1) x = None) as Hnews by (intros x (nr & -> & Hnr)%list_elem_of_fmap; by apply new_absent).
  split_and!.
  - apply NoDup_app. split_and!; [done| |apply NoDup_ListNoDup, List.NoDup_filter; by apply NoDup_ListNoDup]. intros x Hx [Hx' _]%Hfil. by apply (Hdis x).
  - intros q Hq. assert (mr_requests (runner u3) !! cs_req_id q = Some q /\ seen (input_batch r1) (cs_req_id q) = None /\ cs_req_id q ∈ map fst (so_num_scheduled_tokens o)) as (G1 & G2 & G3).
    { apply elem_of_app in Hq as [Hq|Hq].
      - assert (cs_req_id q ∈ map nr_id news) as Hin by (rewrite <-A2; by apply list_elem_of_fmap_2). split_and!; [|by apply Hnews|apply (oo_ids _ _ Ho); by apply elem_of_app; left].
        rewrite (cd_requests _ _ _ _ Hc); [by apply A3|]. rewrite enumerated_ids. by apply Hdis.
      - assert (cs_req_id q ∈ map cs_req_id qs2) as Hin by (by apply list_elem_of_fmap_2). rewrite B2, enumerated_ids, batch2 in Hin. apply Hfil in Hin as [H1 H2].
        split_and!; [by apply B3|done|apply (oo_ids _ _ Ho); by apply elem_of_app; right]. }
    destruct (told_fits r o (cs_req_id q) Ho G3) as (t & Ht & F1 & F2 & _). rewrite <-told_in_full in Ht.
    destruct (tracked_some _ _ _ Ht) as (q0 & out & T1 & T2 & ->). assert (q0 = q) as -> by congruence. split_and!; [done| |].
    + destruct (seen (input_batch (runner u3)) (cs_req_id q)) as [v|] eqn:E; [|done]. destruct (proj1 (present3 (cs_req_id q))) as [w Hw]; [by eexists|]. congruence.
    + exists out. split_and!; [done|done|]. eapply blocks_fit_setting; [apply setting3|done].
  - assert (size (InputBatch.req_id_to_index (input_batch (runner u3))) <= length (List.filter (fun x => negb (is_none (seen (input_batch r1) x))) ids))%nat as Hsz.
    { rewrite <-(size_dom (D := gset string)). rewrite <-(size_list_to_set (C := gset string)) by (apply NoDup_ListNoDup, List.NoDup_filter; by apply NoDup_ListNoDup). apply subseteq_size. intros x Hx.
      apply seen_index, present3 in Hx. apply elem_of_list_to_set. rewrite list_elem_of_In, List.filter_In, <-list_elem_of_In. split; [by apply present_cached|]. by destruct Hx as [v ->]. }
    rewrite length_app. pose proof (f_equal length A2) as L1. pose proof (f_equal length B2) as L2. rewrite !length_map in L1. rewrite length_map, enumerated_ids, batch2 in L2.
    pose proof (filter_length (fun x => is_none (seen (input_batch r1) x)) ids) as L3. pose proof (oo_count _ _ Ho) as L4. fold news ids in L1, L2, L3, L4. lia.
  - intros x. rewrite elem_of_app, Hfil, (oo_ids _ _ Ho), elem_of_app. fold news ids. specialize (Hnews x). tauto.
Qed.
End ready.

Lemma may_reorder_spec o b : batch_inv n len (clean b) -> computed_ok b -> (forall x, is_Some (seen b x) -> x ∈ map fst (so_num_scheduled_tokens o)) ->
  wp (may_reorder_batch cfg o) (fun _ b' => kept n len b b' /\
    forall t, num_kv_cache_groups cfg <> 0%nat -> reorder_batch_threshold cfg = Some t ->
      exists l, batch_regions (list_to_map (so_num_scheduled_tokens o)) t b' = map Some l /\ StronglySorted Z.le l) b.
Proof.
  intros Hinv Hcomp Hin. unfold may_reorder_batch. destruct (Nat.eqb_spec (num_kv_cache_groups cfg) 0) as [E|E].
  { rstep. by split; [apply kept_refl|]. }
  destruct (reorder_batch_threshold cfg) as [t|] eqn:Et; [|rstep; by split; [apply kept_refl|]].
  rstep. eapply wp_mono; [apply (reorder_spec n len); try done|].
  - intros i id Hi. apply (lo_index n _ (proj1 (proj2 Hinv))) in Hi. change (InputBatch.req_id_to_index b !! id = Some i) in Hi.
    assert (id ∈ map fst (so_num_scheduled_tokens o)) as Hs by (apply Hin; unfold seen; rewrite Hi; by eexists).
    destruct (list_to_map (so_num_scheduled_tokens o) !! id) eqn:E'; [by eexists|]. by apply not_elem_of_list_to_map_2 in E'.
  - intros changed b' (K & Hsorted & _). rstep. split; [done|]. intros t' _ [= <-]. done.
Qed.

(** The draft tokens that a row shows after the update. *)
Definition shown_drafts (r : ModelRunner) (o : SchedulerOutput) (id : string) (d sp : list Z) : Prop :=
  d = sp /\ d = if stays r o id then drafts_of o id else [].

Lemma metadata_inv md b : batch_inv n len (clean b) -> batch_inv n len (set_sampling_metadata md (clean b)).
Proof.
  intros (H1 & [A1 A2 A3 A4 A5 A6 A7 A8] & [B1 B2 B3 B4 B5 B6 B7] & [C1 C2 C3 C4 C5 C6]). by split_and!.
Qed.

(** What the batch shows once the additions have been made. *)
Lemma shows_added r o r1 u2 u3 b4 : departed r o r1 -> input_batch (runner u2) = input_batch r1 -> cached_done o (enumerated o) u2 u3 ->
  same_setting (input_batch (runner u3)) b4 -> (forall x, is_Some (seen (input_batch r1) x) -> stays r o x = true) ->
  (forall x, x ∈ map cs_req_id (reqs_to_add u3) -> seen (input_batch r1) x = None) ->
  (forall x, x ∈ map cs_req_id (reqs_to_add u3) -> stays r o x = true -> False) ->
  (forall q, q ∈ reqs_to_add u3 -> to_add (runner u3) q) ->
  (forall x, x ∉ map cs_req_id (reqs_to_add u3) -> seen b4 x = seen (input_batch (runner u3)) x) ->
  (forall q out, q ∈ reqs_to_add u3 -> outputs (runner u3) !! cs_output_token_ids q = Some out ->
     seen b4 (cs_req_id q) = Some (shown_view (input_batch (runner u3)) q out [] [] 1)) ->
  batch_shows (shown_drafts r o) (set_input_batch b4 (runner u3)).
Proof.
  intros Hd E2 Hc Hset Hpres Habs Hno Hadd Hother Hown x v Hv. simpl in Hv. destruct (decide (x ∈ map cs_req_id (reqs_to_add u3))) as [Hx|Hx].
  - pose proof (Hno x Hx) as Hx'. apply list_elem_of_fmap in Hx as (q & -> & Hq). destruct (Hadd q Hq) as (G1 & _ & out & G2 & _).
    rewrite (Hown q out Hq G2) in Hv. injection Hv as <-. exists q, out, [], [], 1. split_and!; try done; [symmetry; by apply shown_view_setting|].
    split; [done|]. destruct (stays r o (cs_req_id q)) eqn:E; [|done]. exfalso. by apply Hx'.
  - rewrite Hother in Hv by done. destruct (cd_shows _ _ _ _ Hc x v Hv) as (q & out & d & sp & acc & G1 & G2 & G3 & G4 & G5).
    exists q, out, d, sp, acc. split_and!; try done; [rewrite G3; symmetry; by apply shown_view_setting|].
    split; [congruence|]. rewrite Hpres; [done|]. rewrite <-E2. apply (cd_dom _ _ _ _ Hc). by eexists.
Qed.

Lemma update_spec counts r o : runner_inv (fun _ d _ => d = []) r -> output_ok r o ->
  wp (update_states cfg model counts) (fun _ u' => so u' = o /\ same_setting (input_batch r) (input_batch (runner u')) /\ runner_inv (shown_drafts r o) (runner u') /\
    (forall id, tracked (runner u') id = told o (tracked r) id) /\
    (forall id, is_Some (seen (input_batch (runner u')) id) <-> id ∈ map fst (so_num_scheduled_tokens o)) /\
    forall t, num_kv_cache_groups cfg <> 0%nat -> reorder_batch_threshold cfg = Some t ->
      exists l, batch_regions (list_to_map (so_num_scheduled_tokens o)) t (input_batch (runner u')) = map Some l /\ StronglySorted Z.le l)
    (mkUpdate r o []).
Proof.
  intros Hr Ho. pose proof (departures r o Hr) as Hdep. unfold update_states. rstep. rstep.
  unfold wp, py_bind in Hdep.
  rstep. apply wp_zoom. rsimpl. unfold wp at 1. destruct (forget_finished _ r) as [[] ra|]; [|done].
  rstep. apply wp_zoom. rsimpl. unfold wp at 1. destruct (free_encoder_outputs _ ra) as [[] rb|]; [|done].
  rstep. rstep. rstep. apply wp_zoom. rsimpl. unfold py_get in Hdep. unfold wp at 1. destruct (py_for _ _ rb) as [[] r1|]; [|done]. rename Hdep into Hd.
  set (u1 := mkUpdate r1 o []). match goal with |- wp _ _ ?s => change s with u1 end. clear ra rb.
  destruct (news_ready r o Ho r1 Hd u1 eq_refl) as (N1 & N2 & N3).
  rstep. eapply wp_mono; [exact (news_loop _ u1 N1 N2 N3)|]. cbv beta. intros _ u2 Hn.
  destruct (cached_ready r o Ho r1 Hd u1 u2 eq_refl eq_refl Hn) as (C1 & C2 & C3 & C4 & C5 & C6).
  rstep. fold (enumerated o). eapply wp_mono; [exact (cached_loop counts o _ u2 C1 C2 C3 C4 C5 C6)|]. cbv beta. intros _ u3 Hc. rstep. rstep.
  destruct (adds_ready r o Ho r1 Hd u1 u2 eq_refl Hn u3 Hc eq_refl) as (A1 & A2 & A3 & A4).
  assert (input_batch (runner u2) = input_batch r1) as Eb2 by (rewrite (nd_batch _ _ _ Hn); done).
  assert (forall x, is_Some (seen (input_batch r1) x) -> stays r o x = true) as Hpres by (intros x Hx; by apply (present_cached r o Ho r1 Hd)).
  rstep. apply wp_zoom. eapply wp_mono; [apply adds_loop; try done; apply Hc|]. cbv beta. intros _ r4 (b4 & -> & Hinv4 & Hset4 & Hother4 & Hadd4). rsimpl.
  set (r4 := set_input_batch b4 (runner u3)).
  assert (forall x, is_Some (seen b4 x) <-> x ∈ map fst (so_num_scheduled_tokens o)) as Hdom4.
  { intros x. destruct (decide (x ∈ map cs_req_id (reqs_to_add u3))) as [Hx|Hx].
    - split; [intros _; by apply A4|intros _]. apply list_elem_of_fmap in Hx as (q & -> & Hq). destruct (A2 q Hq) as (_ & _ & out & G & _). rewrite (Hadd4 q out Hq G). by eexists.
    - rewrite Hother4 by done. rewrite (cd_dom _ _ _ _ Hc), Eb2. split.
      + intros Hs. apply (oo_ids _ _ Ho), elem_of_app. right. by apply (present_cached r o Ho r1 Hd).
      + intros Hs. destruct (seen (input_batch r1) x) eqn:E; [by eexists|]. destruct Hx. by apply A4. }
  assert (batch_shows (shown_drafts r o) r4) as Hsh4.
  { eapply (shows_added r o r1 u2 u3); try done; [intros x Hx; by apply A4|]. intros x Hx Hs. apply A4 in Hx as [Hx1 Hx2].
    rewrite (dp_seen _ _ _ Hd), Hs, (bool_decide_eq_true_2 _ Hx1) in Hx2. simpl in Hx2. unfold stays in Hs. by rewrite Hx2 in Hs. }
  pose proof (setting3 r o r1 Hd u1 u2 eq_refl Hn u3 Hc) as Hset3.
  rstep. apply wp_zoom. apply wp_zoom. eapply wp_mono; [by apply (condense_spec n len)|]. cbv beta. intros _ b5 (Hinv5 & Hset5 & Hseen5). rsimpl.
  assert (computed_ok b5) as Hcomp5.
  { intros x v rv Hv Hrv. rewrite Hseen5 in Hv. destruct (Hsh4 x v Hv) as (q & out & d & sp & acc & G1 & G2 & G3 & _). subst v. injection Hrv as <-. simpl.
    destruct (told_fits r o x Ho) as (t & Ht & _ & _ & Hpos); [apply Hdom4; by eexists|].
    rewrite <-(told_in_full r o r1 Hd u1 u2 eq_refl Hn u3 Hc) in Ht. unfold tracked in Ht. simpl in G1, G2. rewrite G1 in Ht. simpl in Ht. rewrite G2 in Ht. simpl in Ht.
    injection Ht as <-. done. }
  rstep. rstep. rstep. apply wp_zoom. apply wp_zoom. rsimpl. assert (so u3 = o) as -> by (rewrite (cd_so _ _ _ _ Hc); done).
  eapply wp_mono; [apply may_reorder_spec; [done|done|intros x; rewrite Hseen5; apply Hdom4]|]. cbv beta. intros _ b6 ((Hinv6 & Hset6 & Hseen6 & _) & Hsorted). rsimpl.
  apply wp_zoom. apply wp_zoom. eapply wp_mono; [by apply (refresh_spec n len)|]. cbv beta. intros x b7 (md & -> & _). rsimpl.
  assert (same_setting b4 (set_sampling_metadata md (clean b6))) as Hset7 by (eapply same_setting_trans; [exact Hset5|exact Hset6]).
  assert (forall y, seen (set_sampling_metadata md (clean b6)) y = seen b4 y) as Hseen7 by (intros y; change (seen (set_sampling_metadata md (clean b6)) y) with (seen b6 y); by rewrite Hseen6, Hseen5).
  split; [rewrite (cd_so _ _ _ _ Hc); done|]. split; [exact (same_setting_trans _ _ _ Hset3 (same_setting_trans _ _ _ Hset4 Hset7))|]. split; [split|split_and!].
  - by apply metadata_inv.
  - done.
  - exact (states_set_batch _ _ (same_setting_trans _ _ _ Hset4 Hset7) (cd_states _ _ _ _ Hc)).
  - intros y v Hv. simpl in Hv. rewrite Hseen7 in Hv. destruct (Hsh4 y v Hv) as (q & out & d & sp & acc & G1 & G2 & G3 & G4). exists q, out, d, sp, acc.
    split_and!; try done. rewrite G3. symmetry. by apply shown_view_setting.
  - intros y. exact (told_in_full r o r1 Hd u1 u2 eq_refl Hn u3 Hc y).
  - intros y. simpl. rewrite Hseen7. apply Hdom4.
  - done.
Qed.
End update.
