(* ===== verification/RunnerStep.v ===== *)
(** A step of the worker: the update, then the sampled tokens. Over any number of steps the
    worker's states and rows are those of a map of requests that the scheduler's outputs and
    the sampled tokens are applied to. *)
From stdpp Require Import gmap strings list sorting fin_maps.
From Stdlib Require Import ZArith QArith Lia.
From S2P Require Import Prelude Request SchedulerData BlockTable InputBatch InputBatchProofs PersistentBatch BatchReorder ModelRunner RunnerProofs RunnerUpdate.
Open Scope Z_scope.

(** ** Rows *)

Definition sampled_row (r : Row) (toks : list Z) (e : Z) : Row :=
  set_row_num_tokens e (set_num_tokens_no_spec e
    (set_is_token_ids (slice_fill (num_tokens_no_spec r) e true (is_token_ids r)) (set_token_ids_cpu toks r))).
Lemma request_tokens_app q out ids : request_tokens q (out ++ ids) = request_tokens q out ++ map Some ids.
Proof. unfold request_tokens. by rewrite map_app, app_assoc. Qed.
Lemma sampled_row_ok len r q out d c ids : row_ok len r -> prompt_length (cs_args q) = inr (cs_num_prompt_tokens q) ->
  row_view r = shown_row q out d c -> cs_num_tokens q out + Z.of_nat (length ids) <= len ->
  let e := num_tokens_no_spec r + Z.of_nat (length ids) in
  exists toks, slice_set (num_tokens_no_spec r) e ids (token_ids_cpu r) = Some toks /\ e = cs_num_tokens q (out ++ ids) /\
    row_ok len (sampled_row r toks e) /\ row_view (sampled_row r toks e) = shown_row q (out ++ ids) [] c.
Proof.
  intros Hr Hp E Hfit e. destruct (request_tokens_length q out Hp) as [Hl _]. pose proof (row_view_length len r Hr) as Hv. rewrite E in Hv. simpl in Hv.
  pose proof Hr as [? ? ? ? ? ?]. unfold cs_num_tokens in *. assert (e = cs_num_prompt_tokens q + Z.of_nat (length (out ++ ids))) as Ee by (unfold e; rewrite length_app; lia).
  set (k := num_tokens_no_spec r) in *. set (toks := take (Z.to_nat k) (token_ids_cpu r) ++ ids ++ drop (Z.to_nat e) (token_ids_cpu r)).
  assert (slice_set k e ids (token_ids_cpu r) = Some toks) as Es by (apply slice_set_ok; unfold e; lia).
  assert (slice_fill k e true (is_token_ids r) = take (Z.to_nat k) (is_token_ids r) ++ replicate (Z.to_nat (e - k)) true ++ drop (Z.to_nat e) (is_token_ids r)) as Ef
    by (apply slice_fill_ok; unfold e; lia).
  exists toks. split_and!; [done|done| |].
  - split; unfold sampled_row; simpl; fold k; try done.
    + by rewrite (slice_set_length _ _ _ _ _ Es).
    + by rewrite slice_fill_length.
    + unfold e; lia.
    + unfold e; lia.
  - unfold shown_row, row_view, sampled_row in *. simpl in *. fold k in E |- *. injection E as F1 F2 F3 F4 F5. f_equal; try done.
    + rewrite request_tokens_app, <-F1, Ef. unfold toks.
      assert (Z.to_nat e = Z.to_nat k + length ids)%nat as Ek by (unfold e; lia). replace (Z.to_nat (e - k)) with (length ids) by (unfold e; lia). rewrite Ek.
      rewrite !take_app_add' by (rewrite ?length_take; lia). rewrite known_tokens_app by (rewrite !length_take; lia). f_equal.
      rewrite take_app_le, take_ge by lia. rewrite take_app_le, take_ge by (rewrite length_replicate; lia). by apply known_tokens_true.
    + rewrite drop_ge; [done|]. rewrite length_take. lia.
Qed.

(** ** Entering sampled tokens *)

Definition extend_tracked (ids : list Z) (t : Tracked) : Tracked :=
  mkTracked (t_args t) (t_generator t) (t_num_prompt t) (t_output t ++ ids) (t_blocks t) (t_computed t).
(** The tokens sampled for a request. *)
Definition sampled_at (m : gmap nat (list Z)) (b : InputBatch) (x : string) : list Z :=
  match InputBatch.req_id_to_index b !! x with Some i => default [] (m !! i) | None => [] end.
Lemma extend_tracked_nil (o : option Tracked) : extend_tracked [] <$> o = o.
Proof. destruct o as [[]|]; [|done]. unfold extend_tracked. simpl. by rewrite app_nil_r. Qed.

Lemma clean_self b : batch_update_builder b = builder_init -> clean b = b.
Proof. intros E. unfold clean. rewrite <-E. by destruct b. Qed.

Section sampled.
Context (cfg : RunnerConfig) (n : nat) (len : Z) (Hmax : runner_max_model_len cfg = len).

(** What does not change: everything but rows, outputs. *)
Definition same_index (r r' : ModelRunner) : Prop :=
  req_ids_ (input_batch r') = req_ids_ (input_batch r) /\ InputBatch.req_id_to_index (input_batch r') = InputBatch.req_id_to_index (input_batch r) /\
  same_setting (input_batch r) (input_batch r').

Lemma cache_sampled_spec P i id ids r t : runner_inv n len P r -> occupied (input_batch r) i id -> tracked r id = Some t ->
  t_num_prompt t + Z.of_nat (length (t_output t)) + Z.of_nat (length ids) <= len ->
  wp (cache_sampled cfg i ids) (fun _ r' => same_index r r' /\
    runner_inv n len (fun x d sp => if decide (x = id) then match ids with [] => P x d sp | _ => d = [] end else P x d sp) r' /\
    forall x, tracked r' x = if decide (x = id) then Some (extend_tracked ids t) else tracked r x) r.
Proof.
  intros [Hinv Hbld Hok Hsh] Hocc Ht Hfit. unfold cache_sampled. destruct (is_nil ids) eqn:En.
  { destruct ids; [|done]. rstep. split; [by split_and!|]. split; [split; try done|].
    - intros x v Hv. destruct (Hsh x v Hv) as (q & out & d & sp & acc & ?). exists q, out, d, sp, acc. by case_decide.
    - intros x. case_decide; [subst x|done]. rewrite Ht. symmetry. exact (extend_tracked_nil (Some t)). }
  set (b := input_batch r) in *. pose proof Hinv as (_ & HL & HA & _).
  pose proof (proj2 (lo_index n b HL id i) Hocc) as Ei. destruct (seen b id) as [v|] eqn:Es; [|unfold seen in Es; by rewrite Ei in Es].
  destruct (Hsh id v Es) as (q & out & d & sp & acc & Hq & Hout & -> & HP). assert (t = track q out) as ->.
  { unfold tracked in Ht. rewrite Hq in Ht. simpl in Ht. rewrite Hout in Ht. simpl in Ht. congruence. }
  destruct (shown_facts n len b id q out d sp acc Hinv Es) as (i' & row & Ei' & _ & Hi & Hrow & Hrok & Hrv & Hrb & Hview). assert (i' = i) as -> by congruence.
  pose proof (sq_prompt _ _ (st_static _ Hok id q Hq)) as Hp.
  destruct (sampled_row_ok len row q out d (cs_num_computed_tokens q) ids Hrok Hp Hrv) as (toks & Est & Ee & Hrok' & Hrv'); [simpl in Hfit; unfold cs_num_tokens; lia|]. simpl in Hfit.
  set (e := num_tokens_no_spec row + Z.of_nat (length ids)) in *. set (row' := sampled_row row toks e) in *.
  assert (cs_num_tokens q (out ++ ids) <= len) as Hcap by (unfold cs_num_tokens; rewrite length_app; lia).
  destruct (lookup_lt_is_Some_2 (batch_spec_token_ids b) i) as [sp0 Hsp]; [pose proof (lo_specs n b HL); apply lookup_lt_Some in Hocc; lia|].
  assert (sp0 = sp) as -> by (apply (f_equal v_spec) in Hview; unfold view in Hview; simpl in Hview; by rewrite Hsp in Hview).
  destruct (retouch_spec n len b i id row row' (batch_block_table b) _ sp Hinv Hocc Hrow Hrok' eq_refl eq_refl (tables_updated_refl n _ i (ao_tables n len b HA))) as (R1 & R2 & R3).
  set (b' := retouched b i row' (batch_block_table b) sp) in *.
  assert (set_rows (<[i := row']> (rows b)) b = b') as Eb by (unfold b', retouched; by rewrite (list_insert_id _ _ _ Hsp)).
  rstep. apply wp_zoom. fold b. unfold cache_row, get_row. bstep. bstep. bstep. rewrite Hrow. bstep. bstep. fold e. apply wp_assert; [apply Z.leb_le; lia|].
  bstep. rewrite Est. bstep. unfold put_row. bstep. fold (sampled_row row toks e). fold row'. rewrite Eb.
  rstep. rstep. rstep. change (req_ids_ b') with (req_ids_ b). unfold occupied in Hocc. rewrite Hocc. rstep. rstep. rstep. unfold get_state. rstep. rstep. rstep. rewrite Hq. rstep.
  unfold extend_output, read_output, write_output. rstep. rstep. rstep. rsimpl. rewrite Hout. rstep. rstep.
  set (r' := set_outputs _ _).
  assert (forall x qx, x <> id -> mr_requests r !! x = Some qx -> outputs r' !! cs_output_token_ids qx = outputs r !! cs_output_token_ids qx) as Hoth.
  { intros x qx Hne Hx. unfold r'. simpl. rewrite list_lookup_insert_ne; [done|]. intros E. apply Hne. by eapply (st_inj _ Hok). }
  assert (outputs r' !! cs_output_token_ids q = Some (out ++ ids)) as Hown by (apply list_lookup_insert_eq; by eapply lookup_lt_Some).
  split; [split_and!; done|]. split; [split|].
  - done.
  - done.
  - destruct Hok as [S1 S2 S3 S4]. split; try done.
    + intros x qx Hx. change (mr_requests r !! x = Some qx) in Hx. destruct (decide (x = id)) as [->|Hne]; [|rewrite (Hoth x) by done; by eapply S2].
      assert (qx = q) as -> by congruence. rewrite Hown. by eexists.
    + intros x qx Hx. eapply static_setting; [exact R2|]. by eapply S4.
  - intros x v Hv. change (seen b' x = Some v) in Hv. rewrite R3 in Hv. destruct (decide (x = id)) as [->|Hne].
    + injection Hv as <-. exists q, (out ++ ids), [], sp, acc. split_and!; [done|done| |by destruct ids].
      rewrite (shown_view_setting b) by done. rewrite Hrv', Hrb, Hview. unfold shown_view, touched_view. simpl. f_equal.
      assert (num_accepted_tokens_cpu row = acc \/ request_draw q = None) as [->|Hn].
      { apply (f_equal v_draw) in Hview. unfold view in Hview. simpl in Hview. rewrite Hrow in Hview. destruct (request_draw q) as [dr|]; [left|by right].
        simpl in Hview. destruct (is_pooling_model (config b)); [done|]. simpl in Hview. congruence. }
      * by destruct (request_draw q).
      * by rewrite Hn.
    + destruct (Hsh x v Hv) as (qx & ox & dx & sx & ax & G1 & G2 & G3 & G4). exists qx, ox, dx, sx, ax. split_and!; [done|by rewrite (Hoth x)| |done].
      rewrite G3. symmetry. by apply shown_view_setting.
  - intros x. unfold tracked. change (mr_requests r') with (mr_requests r). destruct (decide (x = id)) as [->|Hne].
    + rewrite Hq. cbn [mbind option_bind]. by rewrite Hown.
    + destruct (mr_requests r !! x) as [qx|] eqn:Ex; [|done]. cbn [mbind option_bind]. by rewrite (Hoth x).
Qed.

Definition after_sampling (P : string -> list Z -> list Z -> Prop) (m : gmap nat (list Z)) (b : InputBatch) (x : string) (d sp : list Z) : Prop :=
  match sampled_at m b x with [] => P x d sp | _ => d = [] end.
Definition room (r : ModelRunner) (e : nat * list Z) : Prop :=
  exists id t, occupied (input_batch r) (fst e) id /\ tracked r id = Some t /\
    t_num_prompt t + Z.of_nat (length (t_output t)) + Z.of_nat (length (snd e)) <= len.
Lemma runner_inv_ext P P' r : (forall x d sp, P x d sp -> P' x d sp) -> runner_inv n len P r -> runner_inv n len P' r.
Proof. intros H [H1 H2 H3 H4]. split; try done. intros x v Hv. destruct (H4 x v Hv) as (q & out & d & sp & acc & G1 & G2 & G3 & G4). exists q, out, d, sp, acc. eauto. Qed.
Lemma same_index_trans r r1 r2 : same_index r r1 -> same_index r1 r2 -> same_index r r2.
Proof. intros (A1 & A2 & A3) (B1 & B2 & B3). split_and!; try congruence; by eapply same_setting_trans. Qed.

Lemma cache_loop ps : forall P r, runner_inv n len P r -> NoDup (map fst ps) -> (forall e, e ∈ ps -> room r e) ->
  wp (py_for ps (fun e => cache_sampled cfg (fst e) (snd e))) (fun _ r' => same_index r r' /\
    runner_inv n len (after_sampling P (list_to_map ps) (input_batch r)) r' /\
    forall x, tracked r' x = extend_tracked (sampled_at (list_to_map ps) (input_batch r) x) <$> tracked r x) r.
Proof.
  induction ps as [|[i ids] ps IH]; intros P r Hr Hnd Hall; cbn [py_for].
  { rstep. split; [by split_and!|]. assert (forall x, sampled_at (list_to_map []) (input_batch r) x = []) as E by (intros x; unfold sampled_at; by destruct (InputBatch.req_id_to_index _ !! x)).
    split; [|intros x; by rewrite E, extend_tracked_nil]. eapply runner_inv_ext; [|exact Hr]. intros x d sp. unfold after_sampling. by rewrite E. }
  simpl in Hnd. apply NoDup_cons in Hnd as [Hi Hnd]. destruct (Hall (i, ids)) as (id & t & Hocc & Ht & Hfit); [by constructor|]. simpl in Hocc, Hfit.
  rstep. eapply wp_mono; [exact (cache_sampled_spec P i id ids r t Hr Hocc Ht Hfit)|]. cbv beta. intros _ r1 (Hsame1 & Hr1 & Htr1).
  pose proof Hsame1 as (Eids & Eidx & _). pose proof (ri_batch _ _ _ _ Hr) as (_ & HL & _).
  pose proof (proj2 (lo_index n _ HL id i) Hocc) as Ei.
  assert (forall x j, x <> id -> InputBatch.req_id_to_index (input_batch r) !! x = Some j -> j <> i) as Hne.
  { intros x j Hx Hj ->. apply (lo_index n _ HL) in Hj. unfold occupied in *. congruence. }
  eapply wp_mono; [apply (IH _ r1 Hr1 Hnd)|].
  { intros e He. destruct (Hall e) as (id' & t' & H1 & H2 & H3); [by constructor|]. assert (id' <> id) as Hid.
    { intros ->. apply (lo_index n _ HL) in H1. assert (fst e = i) as E by congruence. apply Hi. rewrite <-E. by apply list_elem_of_fmap_2. }
    exists id', t'. split_and!; [unfold occupied; by rewrite Eids|by rewrite Htr1, decide_False|done]. }
  cbv beta. intros _ r' (Hsame' & Hr' & Htr').
  assert (forall x, sampled_at (list_to_map ((i, ids) :: ps)) (input_batch r) x = if decide (x = id) then ids else sampled_at (list_to_map ps) (input_batch r1) x) as Es.
  { intros x. unfold sampled_at. rewrite Eidx. simpl. destruct (decide (x = id)) as [->|Hx]; [rewrite Ei; by rewrite lookup_insert_eq|].
    destruct (InputBatch.req_id_to_index (input_batch r) !! x) as [j|] eqn:Ej; [|done]. rewrite lookup_insert_ne; [done|]. intros <-. by apply (Hne x i). }
  assert (sampled_at (list_to_map ps) (input_batch r1) id = []) as E0.
  { unfold sampled_at. rewrite Eidx, Ei. change (map fst ps) with (ps.*1) in Hi. by rewrite (not_elem_of_list_to_map_1 _ _ Hi). }
  split; [by eapply same_index_trans|]. split.
  - eapply runner_inv_ext; [|exact Hr']. intros x d sp. unfold after_sampling. rewrite Es. destruct (decide (x = id)) as [->|Hx]; [by rewrite E0|done].
  - intros x. rewrite Htr', Es, Htr1. destruct (decide (x = id)) as [->|Hx]; [|done]. rewrite E0, extend_tracked_nil, Ht. done.
Qed.

(** ** The tokens that count *)

Definition accepted_tokens (width vocab : Z) (row : list Z) : list Z :=
  if width =? 1 then row else List.filter (fun t => negb (t =? PLACEHOLDER_TOKEN_ID) && (t <? vocab)) row.
Lemma clear_rows_spec discard : forall l, (forall i, i ∈ discard -> (i < length l)%nat) ->
  exists l', clear_rows discard l = Some l' /\ length l' = length l /\
    forall i row, l !! i = Some row -> l' !! i = Some (if bool_decide (i ∈ discard) then [] else row).
Proof.
  unfold clear_rows. induction discard as [|j discard IH]; intros l Hall; simpl.
  - exists l. split_and!; try done.
  - rewrite list_set_some by (apply Hall; by constructor). destruct (IH (<[j := []]> l)) as (l' & E & Hl & H).
    { intros i Hi. rewrite length_insert. apply Hall. by constructor. }
    exists l'. rewrite length_insert in Hl. split_and!; [done..|]. intros i row Hrow. destruct (decide (i = j)) as [->|Hne].
    + rewrite (H j []) by (apply list_lookup_insert_eq; by eapply lookup_lt_Some). rewrite (bool_decide_eq_true_2 (j ∈ j :: discard)) by (by constructor). by case_bool_decide.
    + rewrite (H i row) by (by rewrite list_lookup_insert_ne). f_equal. destruct (decide (i ∈ discard)) as [Hin|Hin].
      * by rewrite !bool_decide_eq_true_2 by set_solver.
      * by rewrite !bool_decide_eq_false_2 by set_solver.
Qed.
Lemma valid_tokens_spec width sampled vocab discard : (forall i, i ∈ discard -> (i < length sampled)%nat) ->
  exists valid, valid_tokens width sampled vocab discard = Some valid /\ length valid = length sampled /\
    forall i row, sampled !! i = Some row -> valid !! i = Some (if bool_decide (i ∈ discard) then [] else accepted_tokens width vocab row).
Proof.
  intros H. unfold valid_tokens, accepted_tokens. destruct (width =? 1).
  - by apply clear_rows_spec.
  - eexists. split; [done|]. unfold parse_output. split; [by rewrite length_imap|]. intros i row Hi. rewrite list_lookup_imap, Hi. done.
Qed.
Lemma nonzero_spec mask i : i ∈ nonzero mask <-> mask !! i = Some true.
Proof.
  unfold nonzero. rewrite list_elem_of_In, List.filter_In, in_seq. split.
  - intros [_ H]. destruct (mask !! i) as [[]|]; done.
  - intros H. rewrite H. split; [|done]. apply lookup_lt_Some in H. lia.
Qed.

(** The tokens that a step adds to a request. *)
Definition sampled_for (width : Z) (sampled : list (list Z)) (r : ModelRunner) (x : string) : list Z :=
  match InputBatch.req_id_to_index (input_batch r) !! x with
  | Some i => if default false (discard_request_mask r !! i) then []
              else default [] (accepted_tokens width (vocab_size (config (input_batch r))) <$> sampled !! i)
  | None => []
  end.
Context (Hsync : use_async_scheduling cfg = false).
Lemma bookkeeping_spec P width sampled r : runner_inv n len P r -> length sampled = length (req_ids_ (input_batch r)) ->
  (forall x t, is_Some (seen (input_batch r) x) -> tracked r x = Some t ->
     t_num_prompt t + Z.of_nat (length (t_output t)) + Z.of_nat (length (sampled_for width sampled r x)) <= len) ->
  wp (bookkeeping_sync cfg width sampled) (fun k r' => same_index r r' /\
    runner_inv n len (fun x d sp => match sampled_for width sampled r x with [] => P x d sp | _ => d = [] end) r' /\
    (forall x, tracked r' x = extend_tracked (sampled_for width sampled r x) <$> tracked r x) /\
    (forall x i, InputBatch.req_id_to_index (input_batch r) !! x = Some i -> valid_sampled_token_ids k !! i = Some (sampled_for width sampled r x)) /\
    req_ids_output_copy k = req_ids_ (input_batch r) /\ req_id_to_index_output_copy k = InputBatch.req_id_to_index (input_batch r)) r.
Proof.
  intros Hr Hlen Hfit. set (b := input_batch r) in *. pose proof (ri_batch _ _ _ _ Hr) as Hinv. pose proof Hinv as (_ & HL & _). fold b in HL.
  assert (num_reqs b = Z.of_nat (length (req_ids_ b))) as Hn.
  { rewrite (num_reqs_lists n b HL). unfold holes, b. rewrite (ri_builder _ _ _ _ Hr). simpl. lia. }
  unfold bookkeeping_sync. rstep. rstep. fold b. rewrite Hsync. simpl negb. cbv iota.
  set (discard := nonzero (take (Z.to_nat (num_reqs b)) (discard_request_mask r))).
  assert (forall i, i ∈ discard <-> (i < length (req_ids_ b))%nat /\ discard_request_mask r !! i = Some true) as Hdis.
  { intros i. unfold discard. rewrite nonzero_spec, lookup_take_Some. split; intros [? ?]; (split; [|first [done|lia]]); first [done|lia]. }
  destruct (valid_tokens_spec width sampled (vocab_size (config b)) discard) as (valid & Ev & Hvl & Hv).
  { intros i [Hi _]%Hdis. by rewrite Hlen. }
  assert (forall x i, InputBatch.req_id_to_index b !! x = Some i -> valid !! i = Some (sampled_for width sampled r x)) as Hfor.
  { intros x i Hx. pose proof (proj1 (lo_index n b HL x i) Hx) as Hocc. pose proof (lookup_lt_Some _ _ _ Hocc) as Hi.
    destruct (lookup_lt_is_Some_2 sampled i) as [row Hrow]; [by rewrite Hlen|]. rewrite (Hv i row Hrow). f_equal. unfold sampled_for. fold b. rewrite Hx, Hrow. simpl.
    destruct (discard_request_mask r !! i) as [[]|] eqn:Em; simpl.
    - by rewrite bool_decide_eq_true_2 by (apply Hdis; done).
    - rewrite bool_decide_eq_false_2; [done|]. intros [_ H]%Hdis. congruence.
    - rewrite bool_decide_eq_false_2; [done|]. intros [_ H]%Hdis. congruence. }
  set (ps := zip (seq 0 (length sampled)) valid).
  assert (length (seq 0 (length sampled)) = length valid) as Hls by (by rewrite length_seq).
  assert (forall x, sampled_at (list_to_map ps) b x = sampled_for width sampled r x) as Hat.
  { intros x. unfold sampled_at. destruct (InputBatch.req_id_to_index b !! x) as [i|] eqn:Ei; [|unfold sampled_for; fold b; by rewrite Ei].
    assert (list_to_map ps !! i = Some (sampled_for width sampled r x)) as ->; [|done]. apply elem_of_list_to_map_1.
    - unfold ps. change (zip ?a ?c).*1 with (map fst (zip a c)). rewrite fst_zip by lia. apply NoDup_seq.
    - apply list_elem_of_lookup. exists i. unfold ps. rewrite lookup_zip_with, (Hfor x i Ei).
      assert (i < length sampled)%nat by (rewrite Hlen; apply (lo_index n b HL) in Ei; by eapply lookup_lt_Some). by rewrite lookup_seq_lt. }
  rstep. rewrite Ev. rstep. rstep. fold ps. eapply wp_mono; [apply (cache_loop ps P r Hr)|].
  - unfold ps. rewrite fst_zip by lia. apply NoDup_ListNoDup, seq_NoDup.
  - intros [i ids] [k Hk]%list_elem_of_lookup. unfold ps in Hk. rewrite lookup_zip_with in Hk. destruct (seq 0 (length sampled) !! k) as [i'|] eqn:Ek; [|done].
    apply lookup_seq in Ek as [-> Hki]. simpl in Hk. destruct (valid !! k) as [ids'|] eqn:Eids; [|done]. injection Hk as <- <-.
    assert (k < length (req_ids_ b))%nat as Hkb by lia.
    destruct (occupied_lt n b k (proj1 (proj2 (eq_ind_r (batch_inv n len) Hinv (clean_self b (ri_builder _ _ _ _ Hr))))) Hkb) as [id Hocc].
    pose proof (proj2 (lo_index n b HL id k) Hocc) as Eidx. assert (is_Some (seen b id)) as Hs by (unfold seen; rewrite Eidx; by eexists).
    destruct Hs as [v Hsv]. destruct (ri_shows _ _ _ _ Hr id v Hsv) as (q & out & d & sp & acc & G1 & G2 & _).
    assert (tracked r id = Some (track q out)) as Ht by (unfold tracked; rewrite G1; simpl; by rewrite G2).
    exists id, (track q out). split_and!; [done|done|]. simpl. rewrite (Hfor id k Eidx) in Eids. injection Eids as <-. apply (Hfit id (track q out)); [by eexists|done].
  - cbv beta. intros _ r' (S1 & S2 & S3). rstep. split; [done|]. split; [|split; [|split; [|done]]].
    + eapply runner_inv_ext; [|exact S2]. intros x d sp. unfold after_sampling. fold b. by rewrite Hat.
    + intros x. rewrite S3. fold b. by rewrite Hat.
    + intros x i Hx. by apply Hfor.
Qed.
End sampled.
