(* ===== verification/ModelInputs.v ===== *)
(** The inputs of the model ([v1/worker/gpu_model_runner.py]): the flattened arrays of
    [_get_cumsum_and_arange], [_calc_spec_decode_metadata] and [_prepare_inputs], and that
    they hold for every scheduled token its position, its id and its slot in the cache.

    Copies to the device, prompt embeddings and positions of several dimensions are left out;
    so are the device-side token ids of asynchronous scheduling. *)
From stdpp Require Import numbers gmap strings list sorting fin_maps.
From Stdlib Require Import ZArith QArith Lia.
From S2P Require Import Prelude Request SchedulerData BlockTable InputBatch InputBatchProofs PersistentBatch BatchReorder ModelRunner RunnerProofs RunnerUpdate RunnerStep.
Open Scope Z_scope.

(** ** Flattened arrays *)

Fixpoint cumsum_from (acc : Z) (l : list Z) : list Z :=
  match l with [] => [] | x :: l' => (acc + x) :: cumsum_from (acc + x) l' end.
Definition cumsum (l : list Z) : list Z := cumsum_from 0 l.
(** Arrays of one shape. *)
Definition np_binop (f : Z -> Z -> Z) (a b : list Z) : exn + list Z :=
  if (length a =? length b)%nat then inr (zip_with f a b) else inl ValueError.

(** [arange_np] has [arange_size] elements. *)
Definition get_cumsum_and_arange (arange_size : Z) (num_tokens : list Z) : exn + (list Z * list Z) :=
  let cu_num_tokens := cumsum num_tokens in
  match last cu_num_tokens with
  | None => inl IndexError
  | Some total_num_tokens =>
      let cumsums_offsets := np_repeat (zip_with Z.sub cu_num_tokens num_tokens) num_tokens in
      match np_binop Z.sub (take (Z.to_nat total_num_tokens) (seqZ 0 arange_size)) cumsums_offsets with
      | inl e => inl e
      | inr arange => inr (cu_num_tokens, arange)
      end
  end.

Record SpecDecodeMetadata := mkSpecDecodeMetadata {
  sd_draft_token_ids : list Z;
  sd_num_draft_tokens : list Z;
  sd_cu_num_draft_tokens : list Z;
  sd_cu_num_sampled_tokens : list Z;
  sd_target_logits_indices : list Z;
  sd_bonus_logits_indices : list Z;
  sd_logits_indices : list Z
}.
(** [a[indices]] *)
Definition np_take {A} (a : list A) (indices : list Z) : option (list A) := mapM (np_get a) indices.
Definition bind_exn {A B} (m : exn + A) (f : A -> exn + B) : exn + B := match m with inl e => inl e | inr a => f a end.
Definition or_raise {A} (e : exn) (o : option A) : exn + A := match o with Some a => inr a | None => inl e end.
Definition calc_spec_decode_metadata (arange_size : Z) (input_ids num_draft_tokens cu_num_scheduled_tokens : list Z) : exn + SpecDecodeMetadata :=
  let num_sampled_tokens := map (fun d => d + 1) num_draft_tokens in
  bind_exn (get_cumsum_and_arange arange_size num_sampled_tokens) (fun '(cu_num_sampled_tokens, arange) =>
  bind_exn (np_binop Z.sub cu_num_scheduled_tokens num_sampled_tokens) (fun starts =>
  bind_exn (np_binop Z.add (np_repeat starts num_sampled_tokens) arange) (fun logits_indices =>
  let bonus_logits_indices := map (fun c => c - 1) cu_num_sampled_tokens in
  bind_exn (get_cumsum_and_arange arange_size num_draft_tokens) (fun '(cu_num_draft_tokens, arange) =>
  bind_exn (np_binop Z.add (np_repeat (zip_with Z.sub cu_num_sampled_tokens num_sampled_tokens) num_draft_tokens) arange) (fun target_logits_indices =>
  bind_exn (or_raise IndexError (np_take input_ids logits_indices)) (fun draft_token_ids =>
  bind_exn (or_raise IndexError (np_take draft_token_ids (map (fun t => t + 1) target_logits_indices))) (fun draft_token_ids =>
  inr (mkSpecDecodeMetadata draft_token_ids num_draft_tokens cu_num_draft_tokens cu_num_sampled_tokens
         target_logits_indices bonus_logits_indices logits_indices)))))))).

(** ** Preparing a step *)

Record ModelInputs := mkModelInputs {
  in_req_indices : list Z;
  in_positions : list Z;
  in_input_ids : list Z;
  in_query_start_loc : list Z;
  in_seq_lens : list Z;
  in_logits_indices : list Z;
  in_spec_decode : option SpecDecodeMetadata;
  in_num_decode_draft_tokens : list Z
}.
(** The numbers of draft tokens by row; -1 marks a row that is not decoding. *)
Definition count_drafts (b : InputBatch) (acc : exn + (list Z * list Z)) (e : string * list Z) : exn + (list Z * list Z) :=
  bind_exn acc (fun '(nums, decode) =>
  bind_exn (or_raise KeyError (InputBatch.req_id_to_index b !! fst e)) (fun i =>
  bind_exn (or_raise IndexError (rows b !! i)) (fun row =>
  let k := Z.of_nat (length (snd e)) in
  inr (<[i := k]> nums, <[i := if row_num_prompt_tokens row <=? num_computed_tokens_cpu row then k else -1]> decode)))).
Definition draft_counts (b : InputBatch) (drafts : list (string * list Z)) : exn + (list Z * list Z) :=
  foldl (count_drafts b) (inr (replicate (Z.to_nat (num_reqs b)) 0, replicate (Z.to_nat (num_reqs b)) (-1))) drafts.

(** [_prepare_inputs] without M-RoPE and XD-RoPE positions, prompt embeddings, LoRA and the
    copies to the device: the arrays that the forward pass and the sampler are given. *)
Definition prepare_inputs (arange_size : Z) (o : SchedulerOutput) (num_scheduled_tokens : list Z) : py ModelRunner ModelInputs :=
  let total := so_total_num_scheduled_tokens o in
  do! py_assert (0 <? total);
  let! r := py_get in
  let b := input_batch r in
  let n := num_reqs b in
  do! py_assert (0 <? n);
  let req_indices := np_repeat (take (Z.to_nat n) (seqZ 0 arange_size)) num_scheduled_tokens in
  let! '(cu_num_tokens, arange) := py_lift (get_cumsum_and_arange arange_size num_scheduled_tokens) in
  let! computed := py_unwrap IndexError (np_take (map num_computed_tokens_cpu (rows b)) req_indices) in
  let! positions := py_lift (np_binop Z.add computed arange) in
  do! (if Z.of_nat (length positions) =? total then py_ret tt else py_raise ValueError);
  let! width := py_unwrap IndexError ((fun row => Z.of_nat (length (token_ids_cpu row))) <$> rows b !! 0%nat) in
  let! token_indices := py_lift (np_binop Z.add positions (map (fun i => i * width) req_indices)) in
  let! input_ids := py_unwrap IndexError (np_take (concat (map token_ids_cpu (rows b))) token_indices) in
  do! on_batch (on_block_table (mt_compute_slot_mapping req_indices positions));
  let! seq_lens := py_lift (np_binop Z.add (take (Z.to_nat n) (map num_computed_tokens_cpu (rows b))) num_scheduled_tokens) in
  let! num_tokens := py_map (fun o =>
        let! req_id := py_unwrap KeyError o in
        let! q := get_state req_id in
        let! out := read_output (cs_output_token_ids q) in
        py_ret (cs_num_tokens q out)) (req_ids_ b) in
  do! py_modify (set_discard_request_mask (zip_with Z.ltb seq_lens num_tokens ++ drop (Z.to_nat n) (discard_request_mask r)));
  let query_start_loc := 0 :: cu_num_tokens in
  if bool_decide (so_scheduled_spec_decode_tokens o = ∅) then
    py_ret (mkModelInputs req_indices positions input_ids query_start_loc seq_lens (map (fun c => c - 1) cu_num_tokens) None [])
  else
    let! '(nums, decode) := py_lift (draft_counts b (map_to_list (so_scheduled_spec_decode_tokens o))) in
    let! md := py_lift (calc_spec_decode_metadata arange_size input_ids nums cu_num_tokens) in
    py_ret (mkModelInputs req_indices positions input_ids query_start_loc seq_lens (sd_logits_indices md) (Some md) decode).

(** ** Segments *)

(** Row and offset of every scheduled token, in the order of the arrays. *)
Fixpoint segments_from (k : nat) (nums : list Z) : list (nat * Z) :=
  match nums with [] => [] | s :: nums' => map (pair k) (seqZ 0 s) ++ segments_from (S k) nums' end.
Definition segments (nums : list Z) : list (nat * Z) := segments_from 0 nums.
Definition sum_Z (l : list Z) : Z := foldr Z.add 0 l.
Definition counts_ok (l : list Z) : Prop := Forall (fun s => 0 <= s) l.

Lemma sum_nonneg l : counts_ok l -> 0 <= sum_Z l.
Proof. induction 1; simpl; lia. Qed.
Lemma segments_length k nums : counts_ok nums -> Z.of_nat (length (segments_from k nums)) = sum_Z nums.
Proof. intros H. revert k. induction H as [|s nums Hs H IH]; intros k; simpl; [done|]. rewrite length_app, length_map, length_seqZ. specialize (IH (S k)). lia. Qed.
Lemma segments_row k nums i j : (i, j) ∈ segments_from k nums -> exists s, (k <= i)%nat /\ nums !! (i - k)%nat = Some s /\ 0 <= j < s.
Proof.
  revert k. induction nums as [|s nums IH]; intros k; simpl; [by intros ?%not_elem_of_nil|]. intros [(x & E & Hx)%list_elem_of_fmap|H]%elem_of_app.
  - injection E as -> ->. apply elem_of_seqZ in Hx. exists s. rewrite Nat.sub_diag. split_and!; [lia|done|lia..].
  - destruct (IH (S k) H) as (s' & H1 & H2 & H3). exists s'. replace (i - k)%nat with (S (i - S k)) by lia. split_and!; [lia|done|lia..].
Qed.
(** The tokens of row [i] are consecutive, from the number of tokens before them. *)
Lemma segments_at k nums i s j : counts_ok nums -> nums !! i = Some s -> 0 <= j < s ->
  segments_from k nums !! Z.to_nat (sum_Z (take i nums) + j) = Some ((k + i)%nat, j).
Proof.
  intros H. revert k i. induction H as [|s' nums Hs H IH]; intros k [|i] Hi Hj; simpl in *; try done.
  - injection Hi as ->. rewrite lookup_app_l by (rewrite length_map, length_seqZ; lia). change (map ?f ?l) with (f <$> l).
    rewrite list_lookup_fmap, lookup_seqZ_lt by lia. simpl. f_equal. f_equal; lia.
  - assert (0 <= sum_Z (take i nums)) by (apply sum_nonneg; by apply Forall_take).
    rewrite lookup_app_r by (rewrite length_map, length_seqZ; lia). rewrite length_map, length_seqZ.
    replace (Z.to_nat _ - Z.to_nat s')%nat with (Z.to_nat (sum_Z (take i nums) + j)) by lia. rewrite (IH (S k)) by done. f_equal. f_equal. lia.
Qed.
Lemma np_repeat_segments {A} (f : nat -> A) k nums :
  np_repeat (map f (seq k (length nums))) nums = map (fun e => f (fst e)) (segments_from k nums).
Proof.
  unfold np_repeat. revert k. induction nums as [|s nums IH]; intros k; simpl; [done|]. rewrite map_app, IH. f_equal.
  rewrite map_map. simpl. apply list_eq. intros i. change (map ?f ?l) with (f <$> l). rewrite list_lookup_fmap.
  destruct (decide (i < Z.to_nat s)%nat).
  - rewrite lookup_replicate_2 by done. rewrite lookup_seqZ_lt by lia. done.
  - rewrite !lookup_ge_None_2; [done|rewrite length_seqZ; lia|rewrite length_replicate; lia].
Qed.
(** Starts of the segments. *)
Lemma cumsum_lookup acc nums i : cumsum_from acc nums !! i = (fun _ => acc + sum_Z (take (S i) nums)) <$> nums !! i.
Proof.
  revert acc i. induction nums as [|s nums IH]; intros acc [|i]; simpl; try done.
  - f_equal. lia.
  - rewrite IH. destruct (nums !! i); simpl; [|done]. f_equal. lia.
Qed.
Lemma cumsum_length acc nums : length (cumsum_from acc nums) = length nums.
Proof. revert acc. induction nums; intros; simpl; [done|]. by f_equal. Qed.
Lemma cumsum_last acc nums : nums <> [] -> last (cumsum_from acc nums) = Some (acc + sum_Z nums).
Proof.
  intros H. rewrite last_lookup, cumsum_length, cumsum_lookup. destruct (lookup_lt_is_Some_2 nums (pred (length nums))) as [s Hs]; [destruct nums; simpl; [done|lia]|].
  rewrite Hs. simpl. f_equal. f_equal. f_equal. apply take_ge. lia.
Qed.
Lemma cumsum_starts acc nums k : zip_with Z.sub (cumsum_from acc nums) nums = map (fun i => acc + sum_Z (take (i - k) nums)) (seq k (length nums)).
Proof.
  apply list_eq. intros i. rewrite lookup_zip_with, cumsum_lookup. change (map ?f ?l) with (f <$> l). rewrite list_lookup_fmap.
  destruct (nums !! i) as [s|] eqn:E; simpl.
  - rewrite lookup_seq_lt by (by eapply lookup_lt_Some). simpl. f_equal. replace (k + i - k)%nat with i by lia.
    rewrite (take_S_r _ _ _ E). assert (forall l, sum_Z (l ++ [s]) = sum_Z l + s) as -> by (induction l; simpl; lia). lia.
  - rewrite lookup_seq_ge; [done|]. by apply lookup_ge_None.
Qed.
Lemma arange_segments acc nums k : counts_ok nums ->
  zip_with Z.sub (seqZ acc (sum_Z nums)) (map (fun e => acc + sum_Z (take (fst e - k) nums)) (segments_from k nums)) = map snd (segments_from k nums).
Proof.
  intros H. apply list_eq. intros p. rewrite lookup_zip_with. change (map ?f ?l) with (f <$> l). rewrite !list_lookup_fmap.
  destruct (segments_from k nums !! p) as [[i j]|] eqn:E; simpl.
  - pose proof (list_elem_of_lookup_2 _ _ _ E) as Hin. destruct (segments_row k nums i j Hin) as (s & Hk & Hs & Hj).
    pose proof (segments_at k nums (i - k) s j H Hs Hj) as E'. replace (k + (i - k))%nat with i in E' by lia.
    assert (p = Z.to_nat (sum_Z (take (i - k) nums) + j)) as Hp.
    { eapply (NoDup_lookup (segments_from k nums)); [|exact E|exact E']. clear. revert k. induction nums as [|s nums IH]; intros k; simpl; [constructor|].
      apply NoDup_app. split_and!.
      - apply (NoDup_fmap_2 (pair k)). apply NoDup_seqZ.
      - intros [i j] (x & Ex & _)%list_elem_of_fmap (s' & Hi & _)%segments_row. injection Ex as -> _. lia.
      - apply IH. }
    assert (0 <= sum_Z (take (i - k) nums)) by (apply sum_nonneg; by apply Forall_take).
    apply lookup_lt_Some in E. pose proof (segments_length k nums H). rewrite lookup_seqZ_lt by lia. simpl. f_equal. lia.
  - destruct (seqZ acc (sum_Z nums) !! p); done.
Qed.
Lemma segments_arange nums k : map snd (segments_from k nums) = concat (map (seqZ 0) nums).
Proof. revert k. induction nums as [|s nums IH]; intros k; simpl; [done|]. rewrite map_app, IH, map_map. f_equal. apply map_id. Qed.

Lemma cumsum_and_arange size nums : nums <> [] -> counts_ok nums -> sum_Z nums <= size ->
  get_cumsum_and_arange size nums = inr (cumsum nums, map snd (segments nums)).
Proof.
  intros Hne Hok Hsz. unfold get_cumsum_and_arange, cumsum. rewrite cumsum_last by done. rewrite Z.add_0_l.
  pose proof (sum_nonneg _ Hok) as H0. rewrite (cumsum_starts 0 nums 0).
  replace (take (Z.to_nat (sum_Z nums)) (seqZ 0 size)) with (seqZ 0 (sum_Z nums)).
  2:{ replace size with (sum_Z nums + (size - sum_Z nums)) by lia. rewrite seqZ_app by lia. by rewrite take_app_length' by (rewrite length_seqZ; lia). }
  rewrite np_repeat_segments. unfold np_binop. rewrite length_map, length_seqZ. pose proof (segments_length 0 nums Hok) as Hl.
  replace (Z.to_nat (sum_Z nums) =? length (segments_from 0 nums))%nat with true by (symmetry; apply Nat.eqb_eq; lia).
  by rewrite arange_segments.
Qed.
Lemma np_get_nat {A} (l : list A) (i : Z) : 0 <= i -> np_get l i = l !! Z.to_nat i.
Proof. intros H. unfold np_get. rewrite (proj2 (Z.ltb_ge i (- _))), (proj2 (Z.ltb_ge i 0)) by lia. done. Qed.
Lemma mapM_map {A B} (f : A -> option B) (g : A -> B) l : (forall x, x ∈ l -> f x = Some (g x)) -> mapM f l = Some (map g l).
Proof.
  induction l as [|x l IH]; intros H; simpl; [done|]. rewrite (H x) by constructor. simpl. rewrite IH; [done|]. intros y Hy. apply H. by constructor.
Qed.
Lemma np_take_map {A B} (a : list B) (f : A -> Z) (g : A -> B) l : (forall x, x ∈ l -> 0 <= f x /\ a !! Z.to_nat (f x) = Some (g x)) ->
  np_take a (map f l) = Some (map g l).
Proof.
  intros H. unfold np_take. induction l as [|x l IH]; simpl; [done|]. destruct (H x) as [H1 H2]; [by constructor|]. rewrite np_get_nat, H2 by done. simpl.
  rewrite IH; [done|]. intros y Hy. apply H. by constructor.
Qed.
Lemma np_binop_map {A} op (f g : A -> Z) l : np_binop op (map f l) (map g l) = inr (map (fun x => op (f x) (g x)) l).
Proof. unfold np_binop. rewrite !length_map, Nat.eqb_refl. f_equal. induction l; simpl; congruence. Qed.
Lemma lookup_default_map (a : list Z) k : map (fun i => default 0 (a !! (i - k)%nat)) (seq k (length a)) = a.
Proof.
  apply list_eq. intros i. change (map ?f ?l) with (f <$> l). rewrite list_lookup_fmap. destruct (a !! i) as [x|] eqn:E.
  - rewrite lookup_seq_lt by (by eapply lookup_lt_Some). simpl. replace (k + i - k)%nat with i by lia. by rewrite E.
  - rewrite lookup_seq_ge; [done|]. by apply lookup_ge_None.
Qed.
(** Repeating an array by counts reads it at the row of every token. *)
Lemma np_repeat_rows (a nums : list Z) : length a = length nums ->
  np_repeat a nums = map (fun e => default 0 (a !! fst e)) (segments nums).
Proof.
  intros H. rewrite <-(lookup_default_map a 0) at 1. rewrite H, (np_repeat_segments _ 0 nums). apply map_ext. intros [i j]. simpl. by rewrite Nat.sub_0_r.
Qed.

(** ** Draft tokens *)

Section spec_decode.
Context (size : Z) (nums ds ids : list Z).
Context (Hne : nums <> []) (Hlen : length ds = length nums) (Hds : counts_ok ds)
  (Hfit : forall i s d, nums !! i = Some s -> ds !! i = Some d -> d + 1 <= s) (Hids : Z.of_nat (length ids) = sum_Z nums) (Hsize : sum_Z nums <= size).
Let sampled := map (fun d => d + 1) ds.
Let D (i : nat) : Z := default 0 (ds !! i).
(** The end of the tokens of row [i], and of its sampled ones. *)
Let ends (i : nat) : Z := sum_Z (take (S i) nums).
Let sends (i : nat) : Z := sum_Z (take (S i) sampled).

Lemma nums_ok : counts_ok nums.
Proof.
  apply Forall_lookup. intros i s Hs. destruct (lookup_lt_is_Some_2 ds i) as [d Hd]; [rewrite Hlen; by eapply lookup_lt_Some|].
  pose proof (Hfit i s d Hs Hd). pose proof (proj1 (Forall_lookup _ _) Hds i d Hd). simpl in *. lia.
Qed.
Lemma sampled_counts : counts_ok sampled /\ length sampled = length nums /\ sum_Z sampled <= sum_Z nums /\ sum_Z ds <= sum_Z nums.
Proof.
  unfold sampled. split; [|split; [by rewrite length_map|]].
  - change (map ?f ?l) with (f <$> l). apply Forall_fmap. eapply Forall_impl; [exact Hds|]. simpl. lia.
  - clear -Hlen Hfit Hds. revert nums Hlen Hfit. induction Hds as [|d ds Hd H IH]; intros [|s nums] Hlen Hfit; simpl in *; try done; try lia.
    destruct (IH H nums) as [IH1 IH2]; [lia|intros i s' d' H1 H2; by apply (Hfit (S i))|]. specialize (Hfit 0%nat s d eq_refl eq_refl). lia.
Qed.
Lemma ends_start i s : nums !! i = Some s -> ends i = sum_Z (take i nums) + s /\ 0 <= sum_Z (take i nums) /\ ends i <= sum_Z nums.
Proof.
  intros Hs. unfold ends. rewrite (take_S_r _ _ _ Hs). assert (forall l l', sum_Z (l ++ l') = sum_Z l + sum_Z l') as Happ by (induction l; intros; simpl; [done|]; rewrite IHl; lia).
  rewrite Happ. simpl. split_and!; [lia|apply sum_nonneg, Forall_take, nums_ok|].
  rewrite <-(take_drop i nums) at 2. rewrite Happ, (drop_S _ _ _ Hs). simpl. pose proof (sum_nonneg (drop (S i) nums) (Forall_drop _ _ _ nums_ok)). lia.
Qed.

Lemma sampled_lookup i d : ds !! i = Some d -> sampled !! i = Some (d + 1).
Proof. intros H. unfold sampled. change (map ?f ?l) with (f <$> l). by rewrite list_lookup_fmap, H. Qed.
(** A sampled token of row [i]: its place among the scheduled ones. *)
Definition logit_index (e : nat * Z) : Z := ends (fst e) - (D (fst e) + 1) + snd e.
Lemma row_of (l : list Z) i j : (i, j) ∈ segments l -> exists x, l !! i = Some x /\ 0 <= j < x.
Proof. intros (x & _ & Hx & Hj)%segments_row. rewrite Nat.sub_0_r in Hx. by exists x. Qed.
Lemma logit_index_range i d j : ds !! i = Some d -> 0 <= j <= d -> exists s, nums !! i = Some s /\
  logit_index (i, j) = sum_Z (take i nums) + (s - (d + 1) + j) /\ 0 <= s - (d + 1) + j < s /\ 0 <= logit_index (i, j) < sum_Z nums.
Proof.
  intros Hd Hj. destruct (lookup_lt_is_Some_2 nums i) as [s Hs]; [rewrite <-Hlen; by eapply lookup_lt_Some|]. exists s.
  destruct (ends_start i s Hs) as (E & H0 & Hle). pose proof (Hfit i s d Hs Hd) as Hf. unfold logit_index, D. simpl. rewrite Hd. simpl. split_and!; [done|lia..].
Qed.
(** Where the [j]-th sampled token of row [i] is among the sampled ones. *)
Definition target (e : nat * Z) : Z := sum_Z (take (fst e) sampled) + snd e.
Lemma target_lookup i d j : ds !! i = Some d -> 0 <= j <= d -> 0 <= target (i, j) /\ segments sampled !! Z.to_nat (target (i, j)) = Some (i, j).
Proof.
  intros Hd Hj. destruct sampled_counts as (Hok & _). split.
  - unfold target. simpl. pose proof (sum_nonneg (take i sampled) (Forall_take _ _ _ Hok)). lia.
  - unfold target, segments. cbn [fst snd]. rewrite (segments_at 0 sampled i (d + 1) j Hok (sampled_lookup i d Hd)) by lia. done.
Qed.
Definition token_at (k : Z) : Z := default 0 (ids !! Z.to_nat k).

Lemma calc_spec : exists md, calc_spec_decode_metadata size ids ds (cumsum nums) = inr md /\
  sd_num_draft_tokens md = ds /\ sd_logits_indices md = map logit_index (segments sampled) /\
  sd_target_logits_indices md = map target (segments ds) /\
  sd_draft_token_ids md = map (fun e => token_at (logit_index (fst e, snd e + 1))) (segments ds) /\
  sd_bonus_logits_indices md = map (fun c => c - 1) (cumsum sampled).
Proof.
  destruct sampled_counts as (Hok & Hls & Hsum & Hsumd). pose proof nums_ok as Hn. unfold calc_spec_decode_metadata. fold sampled.
  assert (length ds <> 0%nat) as Hne' by (rewrite Hlen; by destruct nums).
  rewrite (cumsum_and_arange size sampled); [|intros E; apply Hne'; apply (f_equal length) in E; unfold sampled in E; by rewrite length_map in E|done|lia]. cbn [bind_exn].
  assert (np_binop Z.sub (cumsum nums) sampled = inr (map (fun i => ends i - (D i + 1)) (seq 0 (length nums)))) as E1.
  { unfold np_binop, cumsum. rewrite cumsum_length, Hls, Nat.eqb_refl. f_equal. apply list_eq. intros i. rewrite lookup_zip_with, cumsum_lookup. change (map ?f ?l) with (f <$> l).
    rewrite list_lookup_fmap. destruct (nums !! i) as [s|] eqn:Es; simpl.
    - destruct (lookup_lt_is_Some_2 ds i) as [d Hd]; [rewrite Hlen; by eapply lookup_lt_Some|]. rewrite (sampled_lookup i d Hd). simpl.
      rewrite lookup_seq_lt by (by eapply lookup_lt_Some). simpl. unfold D. by rewrite Hd.
    - rewrite lookup_seq_ge; [done|]. by apply lookup_ge_None. }
  rewrite E1. cbn [bind_exn]. rewrite <-Hls, (np_repeat_segments _ 0 sampled). fold (segments sampled). rewrite np_binop_map. cbn [bind_exn].
  change (map (fun x : nat * Z => ends x.1 - (D x.1 + 1) + x.2) (segments sampled)) with (map logit_index (segments sampled)).
  rewrite (cumsum_and_arange size ds); [|by destruct ds|done|lia]. cbn [bind_exn].
  replace (np_repeat (zip_with Z.sub (cumsum sampled) sampled) ds) with (map (fun e : nat * Z => sum_Z (take (fst e) sampled)) (segments ds)).
  2:{ unfold cumsum. rewrite (cumsum_starts 0 sampled 0), Hls, <-Hlen, (np_repeat_segments _ 0 ds). apply map_ext. intros e. by rewrite Nat.sub_0_r. }
  rewrite np_binop_map. cbn [bind_exn]. change (map (fun x : nat * Z => sum_Z (take x.1 sampled) + x.2) (segments ds)) with (map target (segments ds)).
  rewrite (np_take_map ids logit_index (fun e => token_at (logit_index e))).
  2:{ intros [i j] Hin. destruct (row_of sampled i j Hin) as (x & Hx & Hj). unfold sampled in Hx. change (map ?f ?l) with (f <$> l) in Hx. rewrite list_lookup_fmap in Hx.
      destruct (ds !! i) as [d|] eqn:Ed; [|done]. injection Hx as <-. destruct (logit_index_range i d j Ed) as (s & _ & _ & _ & Hr); [lia|]. split; [lia|].
      unfold token_at. destruct (lookup_lt_is_Some_2 ids (Z.to_nat (logit_index (i, j)))) as [t ->]; [lia|done]. }
  cbn [or_raise bind_exn]. rewrite map_map. rewrite (np_take_map _ _ (fun e => token_at (logit_index (fst e, snd e + 1)))).
  2:{ intros [i j] Hin. destruct (row_of ds i j Hin) as (d & Ed & Hj). destruct (target_lookup i d (j + 1) Ed) as [H0 Ht]; [lia|].
      unfold target in H0, Ht. simpl in H0, Ht. unfold target. simpl. split; [lia|]. rewrite <-Z.add_assoc. change (map ?f ?l) with (f <$> l). by rewrite list_lookup_fmap, Ht. }
  cbn [or_raise bind_exn]. eexists. split; [done|]. done.
Qed.
End spec_decode.

(** ** The arrays of a step *)

(** A token of a row: of the request where it is known, or a draft token. *)
Lemma row_token len row q out d c p : row_ok len row -> prompt_length (cs_args q) = inr (cs_num_prompt_tokens q) -> row_view row = shown_row q out d c ->
  0 <= p < row_num_tokens row -> exists tok x, token_ids_cpu row !! Z.to_nat p = Some tok /\
    (request_tokens q out ++ map Some d) !! Z.to_nat p = Some x /\ (x = Some tok \/ x = None).
Proof.
  intros Hr Hp E Hpos. pose proof (row_view_length len row Hr) as Hv. rewrite E in Hv. simpl in Hv. pose proof Hr as [? ? ? ? ? ?].
  unfold row_view, shown_row in E. injection E as F1 F2 _ _ _.
  destruct (lookup_lt_is_Some_2 (token_ids_cpu row) (Z.to_nat p)) as [tok Ht]; [lia|]. exists tok.
  destruct (decide (p < num_tokens_no_spec row)) as [Hlt|Hge].
  - destruct (lookup_lt_is_Some_2 (is_token_ids row) (Z.to_nat p)) as [f Hf]; [lia|]. exists (if f then Some tok else None). split_and!; [done| |destruct f; eauto].
    rewrite lookup_app_l by lia. rewrite <-F1. unfold known_tokens. rewrite lookup_zip_with, !lookup_take_lt by lia. by rewrite Ht, Hf.
  - exists (Some tok). split_and!; [done| |by left]. rewrite lookup_app_r by lia. change (map ?f ?l) with (f <$> l). rewrite list_lookup_fmap, <-F2.
    rewrite lookup_drop. rewrite lookup_take_lt by lia. replace (Z.to_nat (num_tokens_no_spec row) + _)%nat with (Z.to_nat p) by lia. by rewrite Ht.
Qed.

(** The number of draft tokens of every row. *)
Definition drafts_at (drafts : gmap string (list Z)) (o : option string) : Z :=
  match o with Some id => Z.of_nat (length (default [] (drafts !! id))) | None => 0 end.
Lemma draft_counts_ok n len b drafts : batch_inv n len (clean b) -> (forall id l, drafts !! id = Some l -> is_Some (seen b id)) ->
  exists decode, draft_counts b (map_to_list drafts) = inr (map (drafts_at drafts) (req_ids_ b), decode).
Proof.
  intros (_ & HL & HA & _) Hin.
  assert (Z.to_nat (num_reqs b) = length (req_ids_ b)) as Hn.
  { pose proof (num_reqs_lists n _ HL) as E. change (num_reqs (clean b)) with (num_reqs b) in E. change (holes (clean b)) with (@nil nat) in E.
    change (req_ids_ (clean b)) with (req_ids_ b) in E. simpl in E. lia. }
  assert (forall l a c, NoDup l.*1 -> (forall id x, (id, x) ∈ l -> is_Some (seen b id)) -> length a = length (req_ids_ b) ->
    exists a' c', foldl (count_drafts b) (inr (a, c)) l = inr (a', c') /\
      length a' = length a /\ forall i id, occupied b i id -> a' !! i = match (list_to_map l : gmap string (list Z)) !! id with Some x => Some (Z.of_nat (length x)) | None => a !! i end) as G.
  { induction l as [|[id x] l IH]; intros a c Hnd Hall Ha; cbn [foldl].
    - exists a, c. split_and!; [done..|]. intros i id _. done.
    - simpl in Hnd. apply NoDup_cons in Hnd as [Hid Hnd]. destruct (Hall id x) as [v Hv]; [by constructor|]. unfold seen in Hv.
      destruct (InputBatch.req_id_to_index b !! id) as [i|] eqn:Ei; [|done].
      pose proof (proj1 (lo_index n _ HL id i) Ei) as Hocc. pose proof (lookup_lt_Some _ _ _ Hocc) as Hlt. change (i < length (req_ids_ b))%nat in Hlt.
      destruct (lookup_lt_is_Some_2 (rows b) i) as [row Hrow].
      { pose proof (ao_rows n len _ HA). pose proof (lo_cap n _ HL). simpl in *. lia. }
      assert (count_drafts b (inr (a, c)) (id, x) = inr (<[i := Z.of_nat (length x)]> a, <[i := if row_num_prompt_tokens row <=? num_computed_tokens_cpu row then Z.of_nat (length x) else -1]> c)) as Ec.
      { unfold count_drafts. cbn [fst snd bind_exn]. rewrite Ei. cbn [or_raise bind_exn]. by rewrite Hrow. }
      rewrite Ec.
      edestruct (IH (<[i := Z.of_nat (length x)]> a)) as (a' & c' & E & L & F); [done|intros y z Hy; apply (Hall y z); by constructor|by rewrite length_insert|].
      exists a', c'. split_and!; [exact E|by rewrite L, length_insert|]. intros j y Hy. rewrite (F j y Hy). change (list_to_map ((id, x) :: l)) with (<[id := x]> (list_to_map l : gmap string (list Z))). destruct (decide (y = id)) as [->|Hne].
      + rewrite lookup_insert_eq. rewrite (not_elem_of_list_to_map_1 _ _ Hid). assert (j = i) as -> by (eapply (occupied_inj n (clean b)); done).
        apply list_lookup_insert_eq. lia.
      + rewrite lookup_insert_ne by done. destruct (list_to_map l !! y); [done|]. apply list_lookup_insert_ne. intros ->.
        unfold occupied in *. change (req_ids_ (clean b)) with (req_ids_ b) in Hocc. congruence. }
  unfold draft_counts. destruct (G (map_to_list drafts) (replicate (Z.to_nat (num_reqs b)) 0) (replicate (Z.to_nat (num_reqs b)) (-1))) as (a' & c' & E & L & F).
  - apply NoDup_fst_map_to_list.
  - intros id x Hx%elem_of_map_to_list. by eapply Hin.
  - by rewrite length_replicate.
  - exists c'. rewrite E. f_equal. f_equal. rewrite length_replicate, Hn in L. apply list_eq. intros i. change (map ?f ?l) with (f <$> l). rewrite list_lookup_fmap.
    destruct (decide (i < length (req_ids_ b))%nat) as [Hi|Hi].
    + destruct (occupied_lt n b i HL Hi) as [id Hid]. rewrite (F i id Hid), list_to_map_to_list. unfold occupied in Hid. rewrite Hid. simpl.
      destruct (drafts !! id); [done|]. rewrite Hn. by rewrite lookup_replicate_2.
    + rewrite !lookup_ge_None_2; [done|lia|lia].
Qed.
