(* ===== verification/InputsProofs.v ===== *)
(** [prepare_inputs] gives the model, for every scheduled token, its position, its id and its
    slot in every cache group, and says which rows have no token to sample. *)
From stdpp Require Import numbers gmap strings list sorting fin_maps.
From Stdlib Require Import ZArith QArith Lia.
From S2P Require Import Prelude Request SchedulerData BlockTable InputBatch InputBatchProofs PersistentBatch BatchReorder ModelRunner RunnerProofs RunnerUpdate RunnerStep ModelInputs.
Open Scope Z_scope.

(** ** New slot mappings change nothing that is seen *)

Definition slots_only (t t' : BlockTable) : Prop := exists l, t' = set_slot_mapping l t /\ length l = length (slot_mapping t).
Lemma slots_only_facts n t t' : slots_only t t' -> table_ok n t -> table_ok n t' /\ table_config t' = table_config t /\ forall i, row_blocks t' i = row_blocks t i.
Proof. intros (l & -> & Hl) [? ? ? ? ? ? ?]. split; [by split|]. split; [|done]. unfold table_config. simpl. by rewrite Hl. Qed.
Lemma slots_inv n len b ts : batch_inv n len b -> length ts = length (batch_block_table b) ->
  (forall g t, batch_block_table b !! g = Some t -> exists t', ts !! g = Some t' /\ slots_only t t') ->
  batch_inv n len (set_batch_block_table ts b) /\ same_setting b (set_batch_block_table ts b) /\
  forall x, seen (set_batch_block_table ts b) x = seen b x.
Proof.
  intros (H1 & [A1 A2 A3 A4 A5 A6 A7 A8] & [B1 B2 B3 B4 B5 B6 B7] & [C1 C2 C3 C4 C5 C6]) Hl Hts.
  assert (forall A (f : BlockTable -> A), (forall g t t', batch_block_table b !! g = Some t -> ts !! g = Some t' -> f t' = f t) -> map f ts = map f (batch_block_table b)) as Hmap.
  { intros A f Hf. apply list_eq. intros g. change (map ?f ?l) with (f <$> l). rewrite !list_lookup_fmap. destruct (batch_block_table b !! g) as [t|] eqn:Et.
    - destruct (Hts g t Et) as (t' & Et' & _). rewrite Et'. simpl. f_equal. by apply (Hf g).
    - rewrite (lookup_ge_None_2 ts); [done|]. rewrite Hl. by apply lookup_ge_None. }
  assert (forall g t t', batch_block_table b !! g = Some t -> ts !! g = Some t' -> table_ok n t' /\ table_config t' = table_config t /\ forall i, row_blocks t' i = row_blocks t i) as Hf.
  { intros g t t' Ht Ht'. destruct (Hts g t Ht) as (t'' & E & Hso). assert (t'' = t') as -> by congruence. apply slots_only_facts; [done|]. by apply (proj1 (Forall_lookup _ _) B3 g). }
  split; [|split].
  - split_and!; [done|by split| |by split]. split; try done. simpl. apply Forall_lookup. intros g t' Ht'.
    destruct (lookup_lt_is_Some_2 (batch_block_table b) g) as [t Ht]; [rewrite <-Hl; by eapply lookup_lt_Some|]. by destruct (Hf g t t' Ht Ht').
  - split; [done|]. simpl. apply Hmap. intros g t t' Ht Ht'. by destruct (Hf g t t' Ht Ht') as (_ & ? & _).
  - intros x. unfold seen. change (InputBatch.req_id_to_index (set_batch_block_table ts b)) with (InputBatch.req_id_to_index b).
    destruct (InputBatch.req_id_to_index b !! x) as [i|]; [|done]. simpl. f_equal. unfold view. simpl. f_equal.
    apply Hmap. intros g t t' Ht Ht'. by destruct (Hf g t t' Ht Ht') as (_ & _ & ->).
Qed.

Lemma length_le_sum l : Forall (fun s => 0 < s) l -> Z.of_nat (length l) <= sum_Z l.
Proof. induction 1 as [|s l Hs H IH]; [done|]. cbn [length sum_Z foldr] in *. unfold sum_Z in *. lia. Qed.

Section prepare.
Context (n : nat) (len : Z) (P : string -> list Z -> list Z -> Prop) (r : ModelRunner) (o : SchedulerOutput) (size : Z) (nums : list Z).
Let b := input_batch r.
Context (Hr : runner_inv n len P r) (Hlen : length nums = length (req_ids_ b)) (Hpos : Forall (fun s => 0 < s) nums)
  (Htotal : so_total_num_scheduled_tokens o = sum_Z nums) (Hnum : req_ids_ b <> []) (Hsize : sum_Z nums <= size).

(** What the scheduler promises of a row: [s] tokens from the computed ones on, that the row
    has, in blocks that it has. *)
Record row_scheduled (i : nat) (q : CachedRequestState) (s : Z) (row : Row) : Prop := {
  rs_computed : 0 <= cs_num_computed_tokens q;
  rs_tokens : cs_num_computed_tokens q + s <= row_num_tokens row;
  rs_blocks : forall g t ids p, batch_block_table b !! g = Some t -> cs_block_ids q !! g = Some ids -> 0 <= p < cs_num_computed_tokens q + s ->
    local_position t p < Z.of_nat (length ids) * kv_block_size t /\ Forall (block_in_range t) ids
}.
Context (Hsched : forall i id q row s, occupied b i id -> mr_requests r !! id = Some q -> rows b !! i = Some row -> nums !! i = Some s -> row_scheduled i q s row)
  (Htables : forall g t, batch_block_table b !! g = Some t -> cp_ok t /\ sum_Z nums <= Z.of_nat (length (slot_mapping t))).

(** The request of a row. *)
Record at_row (i : nat) (id : string) (q : CachedRequestState) (out d : list Z) (row : Row) : Prop := {
  ar_occ : occupied b i id;
  ar_request : mr_requests r !! id = Some q;
  ar_output : outputs r !! cs_output_token_ids q = Some out;
  ar_row : rows b !! i = Some row;
  ar_ok : row_ok len row;
  ar_view : row_view row = shown_row q out d (cs_num_computed_tokens q);
  ar_blocks : map (fun t => row_blocks t i) (batch_block_table b) = zip_with (fun t ids => Some (kernel_ids t ids)) (batch_block_table b) (cs_block_ids q);
  ar_static : static_ok b q;
  ar_lt : (i < n)%nat;
  ar_draft : exists sp, P id d sp
}.
Let lists : lists_ok n b := proj1 (proj2 (ri_batch _ _ _ _ Hr)).
Let clean_inv : batch_inv n len (clean b).
Proof. unfold b. rewrite (clean_self _ (ri_builder _ _ _ _ Hr)). exact (ri_batch _ _ _ _ Hr). Qed.
Lemma at_row_exists i : (i < length (req_ids_ b))%nat -> exists id q out d row, at_row i id q out d row.
Proof.
  intros Hi. destruct (occupied_lt n b i (proj1 (proj2 clean_inv)) Hi) as [id Hocc]. pose proof (proj2 (lo_index n b lists id i) Hocc) as Ei.
  destruct (seen b id) as [v|] eqn:Es; [|unfold seen in Es; by rewrite Ei in Es].
  destruct (ri_shows _ _ _ _ Hr id v Es) as (q & out & d & sp & acc & H1 & H2 & H3 & H4). fold b in H3. subst v.
  destruct (shown_facts n len b id q out d sp acc (ri_batch _ _ _ _ Hr) Es) as (i' & row & Ei' & _ & K1 & K2 & K3 & K4 & K5 & _). assert (i' = i) as -> by congruence.
  exists id, q, out, d, row. split; try done; [by eapply (st_static _ (ri_states _ _ _ _ Hr))|by exists sp].
Qed.
Lemma num_reqs_length : num_reqs b = Z.of_nat (length (req_ids_ b)).
Proof.
  rewrite (num_reqs_lists n b lists). unfold holes, b. rewrite (ri_builder _ _ _ _ Hr). simpl. lia.
Qed.
Definition comp (i : nat) : Z := default 0 (num_computed_tokens_cpu <$> rows b !! i).
Lemma at_row_comp i id q out d row : at_row i id q out d row -> comp i = cs_num_computed_tokens q /\ num_computed_tokens_cpu row = comp i.
Proof. intros H. unfold comp. rewrite (ar_row _ _ _ _ _ _ H). simpl. pose proof (ar_view _ _ _ _ _ _ H) as E. unfold row_view, shown_row in E. by injection E as _ _ _ ->. Qed.
Lemma counts : counts_ok nums /\ nums <> [] /\ (forall i, (i < length nums)%nat <-> (i < length (req_ids_ b))%nat) /\ Z.of_nat (length nums) <= sum_Z nums.
Proof.
  split_and!.
  - eapply Forall_impl; [exact Hpos|]. simpl. lia.
  - intros E. rewrite E in Hlen. by destruct (req_ids_ b).
  - intros i. by rewrite Hlen.
  - by apply length_le_sum.
Qed.
Lemma req_indices_eq : np_repeat (take (Z.to_nat (num_reqs b)) (seqZ 0 size)) nums = map (fun e => Z.of_nat (fst e)) (segments nums).
Proof.
  destruct counts as (_ & _ & _ & Hc). rewrite num_reqs_length, <-Hlen, Nat2Z.id.
  assert (take (length nums) (seqZ 0 size) = map Z.of_nat (seq 0 (length nums))) as ->; [|apply np_repeat_segments].
  apply list_eq. intros i. change (map ?f ?l) with (f <$> l). rewrite list_lookup_fmap. destruct (decide (i < length nums)%nat) as [Hi|Hi].
  - rewrite lookup_take_lt by done. rewrite lookup_seqZ_lt by lia. rewrite lookup_seq_lt by done. simpl. f_equal; lia.
  - rewrite !lookup_ge_None_2; [done|rewrite length_seq; lia|rewrite length_take; lia].
Qed.

(** A scheduled token: its row and the request there. *)
Lemma segment_row e : e ∈ segments nums -> exists s id q out d row, nums !! fst e = Some s /\ 0 <= snd e < s /\ at_row (fst e) id q out d row /\ row_scheduled (fst e) q s row.
Proof.
  destruct e as [i j]. intros (s & _ & Hs & Hj)%segments_row. rewrite Nat.sub_0_r in Hs. simpl.
  destruct (at_row_exists i) as (id & q & out & d & row & Ha); [rewrite <-Hlen; by eapply lookup_lt_Some|].
  exists s, id, q, out, d, row. split_and!; [done|lia..|done|]. by eapply Hsched; try apply Ha.
Qed.
Definition position (e : nat * Z) : Z := comp (fst e) + snd e.
Definition token_id (e : nat * Z) : Z := default 0 (rows b !! fst e ≫= fun row => token_ids_cpu row !! Z.to_nat (position e)).

Lemma computed_eq : np_take (map num_computed_tokens_cpu (rows b)) (map (fun e => Z.of_nat (fst e)) (segments nums)) = Some (map (fun e => comp (fst e)) (segments nums)).
Proof.
  apply np_take_map. intros e He. split; [lia|]. destruct (segment_row e He) as (s & id & q & out & d & row & _ & _ & Ha & _).
  rewrite Nat2Z.id. change (map ?f ?l) with (f <$> l). rewrite list_lookup_fmap. unfold comp. by rewrite (ar_row _ _ _ _ _ _ Ha).
Qed.
Lemma position_range e : e ∈ segments nums -> 0 <= position e < len.
Proof.
  intros He. destruct (segment_row e He) as (s & id & q & out & d & row & _ & Hj & Ha & Hsc). destruct (at_row_comp _ _ _ _ _ _ Ha) as [Ec _].
  unfold position. rewrite Ec. destruct Hsc as [H1 H2 _]. pose proof (ro_fits _ _ (ar_ok _ _ _ _ _ _ Ha)). lia.
Qed.
Lemma tokens_eq : np_take (concat (map token_ids_cpu (rows b))) (map (fun e => position e + Z.of_nat (fst e) * len) (segments nums)) = Some (map token_id (segments nums)).
Proof.
  apply np_take_map. intros e He. pose proof (position_range e He) as Hp. split; [nia|].
  destruct (segment_row e He) as (s & id & q & out & d & row & _ & _ & Ha & _). unfold token_id. rewrite (ar_row _ _ _ _ _ _ Ha). simpl.
  pose proof (ro_tokens _ _ (ar_ok _ _ _ _ _ _ Ha)) as Hl.
  replace (Z.to_nat (position e + Z.of_nat (fst e) * len)) with (fst e * Z.to_nat len + Z.to_nat (position e))%nat by nia.
  rewrite concat_lookup; [|change (map ?f ?l) with (f <$> l); apply Forall_fmap; eapply Forall_impl; [apply (ao_row n len b (proj1 (proj2 (proj2 (ri_batch _ _ _ _ Hr)))))|];
    intros row' Hrow'; pose proof (ro_tokens _ _ Hrow'); simpl; lia|lia].
  change (map ?f ?l) with (f <$> l). rewrite list_lookup_fmap, (ar_row _ _ _ _ _ _ Ha). simpl. destruct (lookup_lt_is_Some_2 (token_ids_cpu row) (Z.to_nat (position e))) as [t ->]; [lia|done].
Qed.
(** The blocks of a row in a group. *)
Definition blocks_at (g : nat) (z : Z) : list Z :=
  default [] (o ← req_ids_ b !! Z.to_nat z; id ← o; q ← mr_requests r !! id; cs_block_ids q !! g).
Lemma slots_spec : wp (mt_compute_slot_mapping (map (fun e => Z.of_nat (fst e)) (segments nums)) (map position (segments nums))) (fun _ ts =>
    length ts = length (batch_block_table b) /\ forall g t, batch_block_table b !! g = Some t -> exists t', ts !! g = Some t' /\
      t' = set_slot_mapping (map (fun e => expected_slot t (blocks_at g (Z.of_nat (fst e))) (position e)) (segments nums) ++ drop (length (segments nums)) (slot_mapping t)) t /\
      slots_only t t') (batch_block_table b).
Proof.
  unfold mt_compute_slot_mapping. apply (wp_each_table _ (fun g t t' =>
      t' = set_slot_mapping (map (fun e => expected_slot t (blocks_at g (Z.of_nat (fst e))) (position e)) (segments nums) ++ drop (length (segments nums)) (slot_mapping t)) t /\ slots_only t t')).
  intros g t Ht. destruct (Htables g t Ht) as [Hcp Hcap]. pose proof (segments_length 0 nums (proj1 counts)) as Hl. fold (segments nums) in Hl.
  unfold wp. rewrite (compute_slots n t (blocks_at g)).
  - rewrite length_map. assert (zip_with (fun z p => expected_slot t (blocks_at g z) p) (map (fun e => Z.of_nat (fst e)) (segments nums)) (map position (segments nums)) =
      map (fun e => expected_slot t (blocks_at g (Z.of_nat (fst e))) (position e)) (segments nums)) as ->.
    { generalize (segments nums). induction l; simpl; congruence. }
    split; [done|]. eexists. split; [done|]. rewrite length_app, length_map, length_drop. lia.
  - apply (proj1 (Forall_lookup _ _) (ao_tables n len b (proj1 (proj2 (proj2 (ri_batch _ _ _ _ Hr))))) g t Ht).
  - done.
  - by rewrite !length_map.
  - rewrite length_map. lia.
  - intros k z p Hz Hp. change (map ?f ?l) with (f <$> l) in Hz, Hp. rewrite list_lookup_fmap in Hz, Hp. destruct (segments nums !! k) as [e|] eqn:Ee; [|done].
    injection Hz as <-. injection Hp as <-. apply list_elem_of_lookup_2 in Ee. destruct (segment_row e Ee) as (s & id & q & out & d & row & Hs & Hj & Ha & Hsc).
    pose proof (position_range e Ee) as Hpr. destruct (at_row_comp _ _ _ _ _ _ Ha) as [Ec _].
    destruct (lookup_lt_is_Some_2 (cs_block_ids q) g) as [ids Hids]; [rewrite (sq_blocks _ _ (ar_static _ _ _ _ _ _ Ha)); by eapply lookup_lt_Some|].
    assert (blocks_at g (Z.of_nat (fst e)) = ids) as Eb.
    { unfold blocks_at. rewrite Nat2Z.id. pose proof (ar_occ _ _ _ _ _ _ Ha) as Ho. unfold occupied in Ho. rewrite Ho. simpl. rewrite (ar_request _ _ _ _ _ _ Ha). simpl. by rewrite Hids. }
    pose proof (ar_lt _ _ _ _ _ _ Ha). destruct (rs_blocks _ _ _ _ Hsc g t ids (position e) Ht Hids) as [B1 B2]; [pose proof (rs_computed _ _ _ _ Hsc); unfold position; lia|].
    unfold token_ok. rewrite Eb, Nat2Z.id. split_and!; try done; [lia..|].
    pose proof (ar_blocks _ _ _ _ _ _ Ha) as Hb. apply (f_equal (.!! g)) in Hb. change (map ?f ?l) with (f <$> l) in Hb. rewrite list_lookup_fmap, lookup_zip_with, Ht, Hids in Hb. by injection Hb.
Qed.

(** ** The result *)

Context (Hspec : forall id l, so_scheduled_spec_decode_tokens o !! id = Some l -> exists i s, occupied b i id /\ nums !! i = Some s /\ Z.of_nat (length l) + 1 <= s).
Definition row_drafts (i : nat) : Z := default 0 (drafts_at (so_scheduled_spec_decode_tokens o) <$> req_ids_ b !! i).
Definition start_of (i : nat) : Z := sum_Z (take i nums).

(** The number of draft tokens of a row that the rejection sampler is told. *)
Definition draft_count (inp : ModelInputs) (i : nat) : Z :=
  match in_spec_decode inp with Some md => default 0 (sd_num_draft_tokens md !! i) | None => 0 end.
Record inputs_ok (inp : ModelInputs) (r' : ModelRunner) : Prop := {
  io_inv : runner_inv n len P r';
  io_tracked : forall x, tracked r' x = tracked r x;
  io_index : same_index r r';
  io_count : Z.of_nat (length (in_positions inp)) = sum_Z nums /\ Z.of_nat (length (in_input_ids inp)) = sum_Z nums;
  io_token : forall i id q out d row s j, at_row i id q out d row -> nums !! i = Some s -> 0 <= j < s ->
    let k := Z.to_nat (start_of i + j) in let p := cs_num_computed_tokens q + j in
    in_req_indices inp !! k = Some (Z.of_nat i) /\ in_positions inp !! k = Some p /\
    (exists tok x, in_input_ids inp !! k = Some tok /\ (request_tokens q out ++ map Some d) !! Z.to_nat p = Some x /\ (x = Some tok \/ x = None)) /\
    (forall g t ids, batch_block_table (input_batch r') !! g = Some t -> cs_block_ids q !! g = Some ids -> slot_mapping t !! k = Some (expected_slot t ids p));
  io_row : forall i id q out d row s, at_row i id q out d row -> nums !! i = Some s ->
    in_query_start_loc inp !! i = Some (start_of i) /\ in_seq_lens inp !! i = Some (cs_num_computed_tokens q + s) /\
    discard_request_mask r' !! i = Some (cs_num_computed_tokens q + s <? cs_num_tokens q out);
  io_sampled : in_logits_indices inp = map (fun e => start_of (S (fst e)) - (row_drafts (fst e) + 1) + snd e)
    (segments (map (fun o' => drafts_at (so_scheduled_spec_decode_tokens o) o' + 1) (req_ids_ b)));
  io_drafts : forall md, in_spec_decode inp = Some md -> sd_draft_token_ids md =
    map (fun e => default 0 (in_input_ids inp !! Z.to_nat (start_of (S (fst e)) - row_drafts (fst e) + snd e)))
      (segments (map (drafts_at (so_scheduled_spec_decode_tokens o)) (req_ids_ b)));
  io_counts : forall i, draft_count inp i = row_drafts i
}.
Let spec := so_scheduled_spec_decode_tokens o.
Let ds := map (drafts_at spec) (req_ids_ b).
Lemma row_drafts_lookup i : (i < length (req_ids_ b))%nat -> ds !! i = Some (row_drafts i).
Proof.
  intros Hi. unfold ds, row_drafts. fold spec. change (map ?f ?l) with (f <$> l). rewrite list_lookup_fmap. destruct (lookup_lt_is_Some_2 _ _ Hi) as [x ->]. done.
Qed.
Lemma drafts_facts : length ds = length nums /\ counts_ok ds /\ (forall i s d, nums !! i = Some s -> ds !! i = Some d -> d + 1 <= s) /\
  map (fun d => d + 1) ds = map (fun o' => drafts_at spec o' + 1) (req_ids_ b) /\ forall i, default 0 (ds !! i) = row_drafts i.
Proof.
  split_and!.
  - unfold ds. by rewrite length_map.
  - unfold ds. change (map ?f ?l) with (f <$> l). apply Forall_fmap, Forall_true. intros [x|]; simpl; lia.
  - intros i s d Hs Hd. unfold ds in Hd. change (map ?f ?l) with (f <$> l) in Hd. rewrite list_lookup_fmap in Hd. destruct (req_ids_ b !! i) as [x|] eqn:Ex; [|done]. injection Hd as <-.
    pose proof (proj1 (Forall_lookup _ _) Hpos i s Hs) as Hs0. simpl in Hs0. destruct x as [id|]; simpl; [|lia]. destruct (spec !! id) as [l|] eqn:El; simpl; [|lia].
    destruct (Hspec id l El) as (i' & s' & Ho & Hs' & Hf). assert (i' = i) as -> by (by eapply (occupied_inj n b)). replace s with s' by congruence. done.
  - unfold ds. by rewrite map_map.
  - intros i. unfold ds, row_drafts. change (map ?f ?l) with (f <$> l). by rewrite list_lookup_fmap.
Qed.
Lemma plain_logits : spec = ∅ -> map (fun c => c - 1) (cumsum nums) =
  map (fun e => start_of (S (fst e)) - (row_drafts (fst e) + 1) + snd e) (segments (map (fun o' => drafts_at spec o' + 1) (req_ids_ b))).
Proof.
  intros E. assert (forall x, drafts_at spec x = 0) as H0 by (intros [x|]; [|done]; simpl; by rewrite E).
  assert (forall i, row_drafts i = 0) as H1 by (intros i; unfold row_drafts; fold spec; destruct (req_ids_ b !! i) as [x|]; [apply H0|done]).
  assert (map (fun o' => drafts_at spec o' + 1) (req_ids_ b) = replicate (length nums) 1) as ->.
  { rewrite Hlen. generalize (req_ids_ b). induction l as [|x l IH]; simpl; [done|]. by rewrite H0, IH. }
  assert (forall k m, segments_from k (replicate m 1) = map (fun i => (i, 0)) (seq k m)) as Hseg by (intros k m; revert k; induction m as [|m IH]; intros k; simpl; [done|]; f_equal; apply IH).
  unfold segments. rewrite Hseg, map_map. simpl. apply list_eq. intros i. change (map ?f ?l) with (f <$> l). rewrite !list_lookup_fmap. unfold cumsum. rewrite cumsum_lookup.
  destruct (nums !! i) as [s|] eqn:Es; simpl.
  - rewrite lookup_seq_lt by (by eapply lookup_lt_Some). simpl. rewrite H1. unfold start_of. f_equal. lia.
  - rewrite lookup_seq_ge; [done|]. by apply lookup_ge_None.
Qed.

(** The arrays that are read off the segments. *)
Let toks := map token_id (segments nums).
Let poss := map position (segments nums).
Let reqs := map (fun e : nat * Z => Z.of_nat (fst e)) (segments nums).
Let lens := zip_with Z.add (take (length (req_ids_ b)) (map num_computed_tokens_cpu (rows b))) nums.
Let ntoks (i : nat) : Z := default 0 (x ← req_ids_ b !! i; id ← x; q ← mr_requests r !! id; out ← outputs r !! cs_output_token_ids q; Some (cs_num_tokens q out)).
Let mask := zip_with Z.ltb lens (map ntoks (seq 0 (length (req_ids_ b)))) ++ drop (length (req_ids_ b)) (discard_request_mask r).

Lemma at_row_tokens i id q out d row : at_row i id q out d row -> ntoks i = cs_num_tokens q out.
Proof.
  intros Ha. unfold ntoks. pose proof (ar_occ _ _ _ _ _ _ Ha) as Ho. unfold occupied in Ho. rewrite Ho. simpl. rewrite (ar_request _ _ _ _ _ _ Ha). simpl. by rewrite (ar_output _ _ _ _ _ _ Ha).
Qed.
Lemma inputs_facts inp ts (bad : list bool) : in_req_indices inp = reqs -> in_positions inp = poss -> in_input_ids inp = toks -> in_query_start_loc inp = 0 :: cumsum nums ->
  in_seq_lens inp = lens -> length ts = length (batch_block_table b) ->
  (forall g t, batch_block_table b !! g = Some t -> exists t', ts !! g = Some t' /\
      t' = set_slot_mapping (map (fun e => expected_slot t (blocks_at g (Z.of_nat (fst e))) (position e)) (segments nums) ++ drop (length (segments nums)) (slot_mapping t)) t /\
      slots_only t t') ->
  in_logits_indices inp = map (fun e => start_of (S (fst e)) - (row_drafts (fst e) + 1) + snd e) (segments (map (fun o' => drafts_at spec o' + 1) (req_ids_ b))) ->
  (forall md, in_spec_decode inp = Some md -> sd_draft_token_ids md =
    map (fun e => default 0 (toks !! Z.to_nat (start_of (S (fst e)) - row_drafts (fst e) + snd e))) (segments ds)) ->
  match in_spec_decode inp with Some md => sd_num_draft_tokens md = ds | None => spec = ∅ end ->
  inputs_ok inp (set_discard_request_mask mask (set_input_batch (set_batch_block_table ts b) r)).
Proof.
  intros E1 E2 E3 E4 E5 Hl Hts E6 E7 E8. pose proof (segments_length 0 nums (proj1 counts)) as Hseg. fold (segments nums) in Hseg.
  destruct (slots_inv n len b ts (ri_batch _ _ _ _ Hr) Hl) as (I1 & I2 & I3); [intros g t Ht; destruct (Hts g t Ht) as (t' & ? & ? & ?); by exists t'|].
  split.
  - destruct Hr as [R1 R2 [S1 S2 S3 S4] R4]. split; try done; [split; try done|].
    + intros x q Hq. eapply static_setting; [exact I2|]. by eapply S4.
    + intros x v Hv. simpl in Hv. rewrite I3 in Hv. destruct (R4 x v Hv) as (q & out & d & sp & acc & G1 & G2 & G3 & G4). exists q, out, d, sp, acc. split_and!; try done.
      rewrite G3. symmetry. by apply (shown_view_setting b).
  - done.
  - done.
  - rewrite E2, E3. unfold poss, toks. rewrite !length_map. done.
  - intros i id q out d row s j Ha Hs Hj k p. pose proof (segments_at 0 nums i s j (proj1 counts) Hs Hj) as Hk. fold (segments nums) in Hk. simpl in Hk. fold (start_of i) in Hk. fold k in Hk.
    destruct (at_row_comp _ _ _ _ _ _ Ha) as [Ec _]. assert (position (i, j) = p) as Ep by (unfold position, p; simpl; by rewrite Ec).
    assert (row_scheduled i q s row) as Hsc by (by eapply Hsched; try apply Ha). rewrite E1, E2, E3. unfold reqs, poss, toks. change (map ?f ?l) with (f <$> l). rewrite !list_lookup_fmap, Hk. simpl. rewrite Ep.
    split_and!; [done|done| |].
    + destruct (row_token len row q out d (cs_num_computed_tokens q) p) as (tok & x & T1 & T2 & T3); [apply Ha|apply (ar_static _ _ _ _ _ _ Ha)|apply Ha| |].
      { destruct Hsc as [? ? ?]. unfold p. lia. }
      exists tok, x. split_and!; [|done|done]. unfold token_id. rewrite Ep. simpl. rewrite (ar_row _ _ _ _ _ _ Ha). simpl. by rewrite T1.
    + intros g t' ids Ht' Hids. destruct (lookup_lt_is_Some_2 (batch_block_table b) g) as [t Ht]; [rewrite <-Hl; by eapply lookup_lt_Some|].
      destruct (Hts g t Ht) as (t'' & Et & -> & _). assert (t' = _) as -> by (injection (eq_trans (eq_sym Ht') Et) as ->; reflexivity). simpl.
      rewrite lookup_app_l by (rewrite length_map; by eapply lookup_lt_Some). change (map ?f ?l) with (f <$> l). rewrite list_lookup_fmap, Hk. simpl. rewrite Ep.
      assert (blocks_at g (Z.of_nat i) = ids) as ->; [|done]. unfold blocks_at. rewrite Nat2Z.id. pose proof (ar_occ _ _ _ _ _ _ Ha) as Ho. unfold occupied in Ho. rewrite Ho. simpl.
      rewrite (ar_request _ _ _ _ _ _ Ha). simpl. by rewrite Hids.
  - intros i id q out d row s Ha Hs. pose proof (lookup_lt_Some _ _ _ (ar_occ _ _ _ _ _ _ Ha)) as Hi. destruct (at_row_comp _ _ _ _ _ _ Ha) as [Ec Er].
    assert (lens !! i = Some (cs_num_computed_tokens q + s)) as El.
    { unfold lens. rewrite lookup_zip_with, lookup_take_lt by done. change (map ?f ?l) with (f <$> l). rewrite list_lookup_fmap, (ar_row _ _ _ _ _ _ Ha), Hs. simpl. congruence. }
    rewrite E4, E5. split_and!; [|done|].
    + destruct i as [|i]; simpl; [done|]. unfold cumsum. rewrite cumsum_lookup. destruct (lookup_lt_is_Some_2 nums i) as [s' ->]; [apply lookup_lt_Some in Hs; lia|]. done.
    + simpl. unfold mask. rewrite lookup_app_l by (rewrite length_zip_with, length_map, length_seq; apply lookup_lt_Some in El; lia). rewrite lookup_zip_with, El. simpl. change (map ?f ?l) with (f <$> l). rewrite list_lookup_fmap, lookup_seq_lt by done. simpl. by rewrite (at_row_tokens _ _ _ _ _ _ Ha).
  - done.
  - intros md Hmd. rewrite E3. by apply E7.
  - intros i. unfold draft_count, row_drafts. destruct (in_spec_decode inp) as [md|].
    + rewrite E8. unfold ds. change (map ?f ?l) with (f <$> l). by rewrite list_lookup_fmap.
    + destruct (req_ids_ b !! i) as [[x|]|]; [|done..]. simpl. fold spec. by rewrite E8.
Qed.

Lemma prepare_spec : wp (prepare_inputs size o nums) inputs_ok r.
Proof.
  destruct counts as (Hok & Hne & _ & Hcle). pose proof (length_le_sum nums Hpos) as Hcl. assert (0 < sum_Z nums) as Hsum by (destruct nums; [done|simpl in *; lia]).
  pose proof (segments_length 0 nums Hok) as Hseg. fold (segments nums) in Hseg.
  unfold prepare_inputs. rstep. apply wp_assert; [apply Z.ltb_lt; lia|]. rstep. rstep. rstep. fold b. rewrite num_reqs_length.
  apply wp_assert; [apply Z.ltb_lt; destruct (req_ids_ b); [done|simpl; lia]|]. rewrite <-num_reqs_length, req_indices_eq. fold reqs.
  rstep. rewrite (cumsum_and_arange size nums Hne Hok Hsize). cbn [py_lift]. rstep. rstep. unfold reqs at 1. rewrite computed_eq. rstep. rstep.
  rewrite np_binop_map. cbn [py_lift]. rstep. rstep. change (map (fun x : nat * Z => comp x.1 + x.2) (segments nums)) with poss.
  replace (Z.of_nat (length poss) =? so_total_num_scheduled_tokens o) with true by (symmetry; apply Z.eqb_eq; unfold poss; rewrite length_map; lia). rstep. rstep.
  destruct (at_row_exists 0) as (id0 & q0 & out0 & d0 & row0 & Ha0); [destruct (req_ids_ b); [done|simpl; lia]|].
  rewrite (ar_row _ _ _ _ _ _ Ha0). cbn [fmap option_fmap option_map]. rstep. rstep. rewrite (ro_tokens _ _ (ar_ok _ _ _ _ _ _ Ha0)).
  unfold reqs at 1. rewrite map_map. unfold poss at 1. rewrite np_binop_map. cbn [py_lift]. rstep. rstep. rewrite tokens_eq. rstep. fold toks.
  rstep. apply wp_zoom. apply wp_zoom. fold b. eapply wp_mono; [exact slots_spec|]. cbv beta. intros _ ts [Hl Hts]. rsimpl.
  rstep. rewrite num_reqs_length, Nat2Z.id. unfold np_binop. rewrite length_take, length_map.
  pose proof (ao_rows n len b (proj1 (proj2 (proj2 (ri_batch _ _ _ _ Hr))))) as Hrows. pose proof (lo_cap n b lists) as Hcap.
  replace (length (req_ids_ b) `min` length (rows b) =? length nums)%nat with true by (symmetry; apply Nat.eqb_eq; lia).
  cbn [py_lift]. rstep. fold lens. rstep. set (r1 := set_input_batch _ r).
  eapply (wp_mono _ (fun l r' => l = map ntoks (seq 0 (length (req_ids_ b))) /\ r' = r1)).
  { unfold wp. rewrite (py_map_lookup _ ntoks); [done|]. intros i x Hx. destruct (at_row_exists i) as (id & q & out & d & row & Ha); [by eapply lookup_lt_Some|].
    pose proof (ar_occ _ _ _ _ _ _ Ha) as Ho. unfold occupied in Ho. rewrite Ho in Hx. injection Hx as <-.
    assert (mr_requests r1 !! id = Some q) as G1 by apply (ar_request _ _ _ _ _ _ Ha). assert (outputs r1 !! cs_output_token_ids q = Some out) as G2 by apply (ar_output _ _ _ _ _ _ Ha).
    unfold get_state, read_output, py_bind, py_get, py_unwrap, py_ret. rewrite G1, G2. by rewrite (at_row_tokens _ _ _ _ _ _ Ha). }
  cbv beta. intros l r' [-> ->]. rstep. rstep. fold mask. destruct drafts_facts as (D1 & D2 & D3 & D4 & D5).
  destruct (bool_decide (so_scheduled_spec_decode_tokens o = ∅)) eqn:Es.
  - apply bool_decide_eq_true in Es. rstep. apply (inputs_facts _ ts []); try done. by apply plain_logits.
  - destruct (draft_counts_ok n len b spec clean_inv) as [decode Edc].
    { intros id l El. destruct (Hspec id l El) as (i & s & Ho & _). unfold seen. rewrite (proj2 (lo_index n b lists id i) Ho). by eexists. }
    fold spec. rewrite Edc. cbn [py_lift]. rstep. rstep. fold ds. rstep.
    destruct (calc_spec size nums ds toks Hne D1 D2 D3) as (md & Emd & M1 & M2 & M3 & M4 & M5); [unfold toks; rewrite length_map; done|done|].
    rewrite Emd. cbn [py_lift]. rstep. rstep. apply (inputs_facts _ ts []); try done.
    + simpl. rewrite M2, D4. apply map_ext. intros [i j]. unfold logit_index. simpl. rewrite D5. done.
    + intros md' [= <-]. rewrite M4. apply map_ext. intros [i j]. unfold token_at, logit_index. simpl. rewrite D5. f_equal. f_equal. f_equal. unfold start_of. lia.
Qed.
End prepare.
