(* ===== verification/WorkerRun.v ===== *)
(** A step of the worker, [execute_model] and then [sample_tokens]: the update of the states,
    the inputs of the model, the sampled tokens. Over any number of steps the worker's states
    and rows are those of a map of requests to which the scheduler's outputs and the returned
    tokens are applied. The model and the sampler are parameters. *)
From stdpp Require Import numbers gmap strings list sorting fin_maps.
From Stdlib Require Import ZArith QArith Lia.
From S2P Require Import Prelude Request SchedulerData BlockTable InputBatch InputBatchProofs PersistentBatch BatchReorder ModelRunner RunnerProofs RunnerUpdate RunnerStep ModelInputs InputsProofs.
Open Scope Z_scope.

(** [execute_model_state]: what [execute_model] leaves for [sample_tokens]. *)
Record Worker := mkWorker {
  w_runner : ModelRunner;
  execute_model_state : option (SchedulerOutput * ModelInputs)
}.
Definition set_w_runner (x : ModelRunner) (w : Worker) : Worker := mkWorker x (execute_model_state w).
Definition set_execute_model_state (x : option (SchedulerOutput * ModelInputs)) (w : Worker) : Worker := mkWorker (w_runner w) x.
Definition on_worker {A} (m : py ModelRunner A) : py Worker A := py_zoom w_runner set_w_runner m.

(** What [execute_model] returns: the empty output, or None when tokens are to be sampled. *)
Inductive Executed := EMPTY_MODEL_RUNNER_OUTPUT | ToSample.

Section worker.
Context (cfg : RunnerConfig) (model : ModelFunctions).
(** The size of the runner's [arange_np], the sampled-token counts of the asynchronous mode, and
    the forward pass with the sampler: a tensor of the given width with a row per request. *)
Context (arange_size : Z) (counts : list Z) (sample : ModelInputs -> InputBatch -> Z * list (list Z)).

(** [self._update_states(scheduler_output)], which may write to the scheduler's output. *)
Definition run_update (o : SchedulerOutput) : py Worker SchedulerOutput := fun w =>
  match update_states cfg model counts (mkUpdate (w_runner w) o []) with
  | Ret _ u => Ret (so u) (set_w_runner (runner u) w)
  | Raise e u => Raise e (set_w_runner (runner u) w)
  end.
(** [execute_model] up to the forward pass, whose result the sampler's parameter stands for. The
    number of tokens is read before the update. Encoder-cache and KV transfers, and a pooling
    model's output, are left out. *)
Definition execute_model (scheduler_output : SchedulerOutput) : py Worker Executed :=
  let! w := py_get in
  do! match execute_model_state w with Some _ => py_raise RuntimeError | None => py_ret tt end;
  let! o := run_update scheduler_output in
  if so_total_num_scheduled_tokens scheduler_output =? 0 then py_ret EMPTY_MODEL_RUNNER_OUTPUT else
  let! b := py_gets (fun w => input_batch (w_runner w)) in
  let sched : gmap string Z := list_to_map (so_num_scheduled_tokens o) in
  let! tokens := py_map (fun i => py_unwrap KeyError (id ← i; sched !! id)) (req_ids_ b) in
  do! (if is_nil tokens then py_raise ValueError else py_ret tt);
  let! inp := on_worker (prepare_inputs arange_size o tokens) in
  do! py_modify (set_execute_model_state (Some (o, inp)));
  py_ret ToSample.
(** [sample_tokens] without grammar masks, draft proposals and logprobs. *)
Definition sample_tokens : py Worker (option Bookkeeping) :=
  let! w := py_get in
  match execute_model_state w with
  | None => py_ret None
  | Some (o, inp) =>
      do! py_modify (set_execute_model_state None);
      let '(width, sampled) := sample inp (input_batch (w_runner w)) in
      do! on_worker (py_modify (set_prev_sampled_token_ids None));
      let! k := on_worker (bookkeeping_sync cfg width sampled) in
      py_ret (Some k)
  end.
(** [take_draft_token_ids]: the drafts, once, with the ids of the rows. *)
Definition take_draft_token_ids : py ModelRunner (option (list (option string) * list (list Z))) :=
  let! r := py_get in
  match draft_token_ids r with
  | None => py_ret None
  | Some d => do! py_modify (set_draft_token_ids None); py_ret (Some (req_ids_ (input_batch r), d))
  end.
(** A step as the executor drives it. *)
Definition worker_step (o : SchedulerOutput) : py Worker (option Bookkeeping) :=
  let! x := execute_model o in
  match x with EMPTY_MODEL_RUNNER_OUTPUT => py_ret None | ToSample => sample_tokens end.

(** ** What is promised of an output *)

Context (n : nat) (len : Z).
Definition num_tokens_of (t : Tracked) : Z := t_num_prompt t + Z.of_nat (length (t_output t)).
(** The draft tokens of a request that its row shows. *)
Definition shown_draft (r : ModelRunner) (o : SchedulerOutput) (x : string) : list Z := if stays r o x then drafts_of o x else [].
(** [s] tokens of a request: known or draft tokens, in blocks that it has; what is sampled
    fits; drafts come with the last token. [rq_returning] is a promise that the scheduler
    does not make by itself: a request that was not in the batch of the previous step, or is
    resumed, is scheduled up to its known tokens only, because the worker does not enter the
    drafts of a row it makes anew ([WorkerFaults.readded_drafts_lost]). *)
Record request_scheduled (r : ModelRunner) (o : SchedulerOutput) (x : string) (s : Z) (t : Tracked) : Prop := {
  rq_pos : 0 < s;
  rq_tokens : t_computed t + s <= num_tokens_of t + Z.of_nat (length (drafts_of o x));
  rq_returning : stays r o x = false -> t_computed t + s <= num_tokens_of t;
  rq_drafts : drafts_of o x <> [] -> num_tokens_of t <= t_computed t + s;
  rq_room : num_tokens_of t <= t_computed t + s -> num_tokens_of t + Z.of_nat (length (drafts_of o x)) < len;
  rq_blocks : forall g tb ids p, batch_block_table (input_batch r) !! g = Some tb -> t_blocks t !! g = Some ids -> 0 <= p < t_computed t + s ->
    local_position tb p < Z.of_nat (length ids) * kv_block_size tb /\ Forall (block_in_range tb) ids
}.
Lemma rq_shown r o x s t : request_scheduled r o x s t -> t_computed t + s <= num_tokens_of t + Z.of_nat (length (shown_draft r o x)).
Proof. intros [_ H1 H2 _ _ _]. unfold shown_draft. destruct (stays r o x); [done|]. specialize (H2 eq_refl). simpl. lia. Qed.
Record step_ok (r : ModelRunner) (o : SchedulerOutput) : Prop := {
  so_nodup : NoDup (map fst (so_num_scheduled_tokens o));
  so_total : so_total_num_scheduled_tokens o = sum_Z (map snd (so_num_scheduled_tokens o));
  so_size : so_total_num_scheduled_tokens o <= arange_size;
  so_tables : forall g t, batch_block_table (input_batch r) !! g = Some t -> cp_ok t /\ so_total_num_scheduled_tokens o <= Z.of_nat (length (slot_mapping t));
  so_request : forall x s t, (x, s) ∈ so_num_scheduled_tokens o -> told cfg model o (tracked r) x = Some t -> request_scheduled r o x s t;
  so_drafts : forall x l, so_scheduled_spec_decode_tokens o !! x = Some l -> exists s, (x, s) ∈ so_num_scheduled_tokens o /\ Z.of_nat (length l) + 1 <= s
}.
(** The sampler: a row per request, with a token at least and one more than its drafts at most. *)
Definition sampler_ok : Prop := forall inp b, (forall i, 0 <= draft_count inp i) -> let '(width, sampled) := sample inp b in
  length sampled = length (req_ids_ b) /\
  forall i row, sampled !! i = Some row -> let k := Z.of_nat (length (accepted_tokens width (vocab_size (config b)) row)) in 1 <= k <= draft_count inp i + 1.

(** ** Lists and tables *)

Lemma row_drafts_nonneg r o i : 0 <= row_drafts r o i.
Proof. unfold row_drafts. destruct (req_ids_ (input_batch r) !! i) as [[x|]|]; simpl; lia. Qed.
Lemma sum_Z_perm l l' : l ≡ₚ l' -> sum_Z l = sum_Z l'.
Proof. induction 1; unfold sum_Z in *; cbn [foldr] in *; lia. Qed.
Lemma config_same t t' : table_config t = table_config t' -> (cp_ok t -> cp_ok t') /\ (forall p, local_position t p = local_position t' p) /\
  kv_block_size t = kv_block_size t' /\ (forall i, block_in_range t i <-> block_in_range t' i) /\ length (slot_mapping t) = length (slot_mapping t').
Proof.
  unfold table_config. intros [= E1 E2 E3 E4 E5 E6 E7 E8 E9 E10].
  assert (total_cp_world_size t = total_cp_world_size t') as Ew by (unfold total_cp_world_size; congruence).
  assert (total_cp_rank t = total_cp_rank t') as Er by (unfold total_cp_rank; congruence).
  assert (kv_block_size t = kv_block_size t') as Ek by (unfold kv_block_size; congruence).
  split_and!; try done.
  - intros [? ? ? ? ?]. split; congruence.
  - intros p. unfold local_position, local_offset, virtual_block_size. by rewrite E1, E10, Ew.
  - intros i. unfold block_in_range. by rewrite Ek.
Qed.
Lemma setting_table b b' g t' : same_setting b b' -> batch_block_table b' !! g = Some t' ->
  exists t, batch_block_table b !! g = Some t /\ table_config t = table_config t'.
Proof.
  intros [_ E] H. apply (f_equal (.!! g)) in E. change (map ?f ?l) with (f <$> l) in E. rewrite !list_lookup_fmap, H in E.
  destruct (batch_block_table b !! g) as [t|]; [|done]. apply (inj Some) in E. by exists t.
Qed.

(** ** The inputs *)

Context (Hlast : is_last_rank cfg = true) (Hsync : use_async_scheduling cfg = false) (Hmax : runner_max_model_len cfg = len).

(** The state after the update, for an output with tokens. *)
Section prepared.
Context (r r1 : ModelRunner) (o : SchedulerOutput) (Hout : output_ok cfg model n len r o) (Hstep : step_ok r o).
Context (Hset : same_setting (input_batch r) (input_batch r1)) (Hr1 : runner_inv n len (shown_drafts r o) r1)
  (Htr : forall x, tracked r1 x = told cfg model o (tracked r) x)
  (Hdom : forall x, is_Some (seen (input_batch r1) x) <-> x ∈ map fst (so_num_scheduled_tokens o)).
Let b := input_batch r1.
Let sched : gmap string Z := list_to_map (so_num_scheduled_tokens o).
Definition row_count (x : option string) : Z := default 0 (id ← x; sched !! id).
Definition row_counts : list Z := map row_count (req_ids_ b).
Let lists : lists_ok n b := proj1 (proj2 (ri_batch _ _ _ _ Hr1)).

Lemma sched_lookup x s : sched !! x = Some s <-> (x, s) ∈ so_num_scheduled_tokens o.
Proof. unfold sched. split; [apply elem_of_list_to_map_2|]. apply elem_of_list_to_map_1, (so_nodup _ _ Hstep). Qed.
Lemma row_at i : (i < length (req_ids_ b))%nat -> exists id q out d row s t, at_row n len (shown_drafts r o) r1 i id q out d row /\
  (id, s) ∈ so_num_scheduled_tokens o /\ sched !! id = Some s /\ row_counts !! i = Some s /\
  t = track q out /\ told cfg model o (tracked r) id = Some t /\ request_scheduled r o id s t /\ d = shown_draft r o id.
Proof.
  intros Hi. destruct (at_row_exists n len (shown_drafts r o) r1 Hr1 i Hi) as (id & q & out & d & row & Ha).
  pose proof (ar_occ _ _ _ _ _ _ _ _ _ _ Ha) as Ho. pose proof (proj2 (lo_index n b lists id i) Ho) as Ei.
  assert (id ∈ map fst (so_num_scheduled_tokens o)) as Hid by (apply Hdom; unfold seen; fold b; rewrite Ei; by eexists).
  apply list_elem_of_fmap in Hid as ([id' s] & E & Hs). simpl in E. subst id'.
  assert (told cfg model o (tracked r) id = Some (track q out)) as Ht.
  { rewrite <-Htr. unfold tracked. rewrite (ar_request _ _ _ _ _ _ _ _ _ _ Ha). simpl. by rewrite (ar_output _ _ _ _ _ _ _ _ _ _ Ha). }
  exists id, q, out, d, row, s, (track q out). split_and!; try done.
  - by apply sched_lookup.
  - unfold row_counts. change (map ?f ?l) with (f <$> l). rewrite list_lookup_fmap. unfold occupied in Ho. fold b in Ho. rewrite Ho. simpl.
    unfold row_count. simpl. by rewrite (proj2 (sched_lookup id s) Hs).
  - by apply (so_request _ _ Hstep).
  - by destruct (ar_draft _ _ _ _ _ _ _ _ _ _ Ha) as (sp & _ & ->).
Qed.
Lemma rows_perm : req_ids_ b ≡ₚ map Some (map fst (so_num_scheduled_tokens o)).
Proof.
  apply NoDup_Permutation.
  - apply NoDup_alt. intros i j x Hi Hj. destruct (row_at i) as (id & ? & ? & ? & ? & ? & ? & Ha & _); [by eapply lookup_lt_Some|].
    pose proof (ar_occ _ _ _ _ _ _ _ _ _ _ Ha) as Ho. unfold occupied in Ho. fold b in Ho. assert (x = Some id) as -> by congruence. by eapply (occupied_inj n b).
  - apply (NoDup_fmap_2 Some), (so_nodup _ _ Hstep).
  - intros x. rewrite list_elem_of_fmap. split.
    + intros [i Hi]%list_elem_of_lookup. destruct (row_at i) as (id & ? & ? & ? & ? & s & ? & Ha & Hs & _); [by eapply lookup_lt_Some|].
      pose proof (ar_occ _ _ _ _ _ _ _ _ _ _ Ha) as Ho. unfold occupied in Ho. fold b in Ho. exists id. split; [congruence|]. by apply (list_elem_of_fmap_2 fst _ (id, s)).
    + intros (id & -> & Hid). apply Hdom in Hid as [v Hv]. unfold seen in Hv. fold b in Hv. destruct (InputBatch.req_id_to_index b !! id) as [i|] eqn:Ei; [|done].
      apply (lo_index n b lists) in Ei. by eapply list_elem_of_lookup_2.
Qed.
Lemma counts_total : sum_Z row_counts = so_total_num_scheduled_tokens o.
Proof.
  rewrite (so_total _ _ Hstep). unfold row_counts. rewrite (sum_Z_perm _ (map row_count (map Some (map fst (so_num_scheduled_tokens o))))) by (by apply Permutation_map, rows_perm).
  f_equal. rewrite !map_map. apply map_ext_in. intros [x s] Hx. apply list_elem_of_In, sched_lookup in Hx. unfold row_count. simpl. by rewrite Hx.
Qed.
Lemma row_tokens i id q out d row : at_row n len (shown_drafts r o) r1 i id q out d row -> row_num_tokens row = num_tokens_of (track q out) + Z.of_nat (length d).
Proof.
  intros Ha. pose proof (ar_ok _ _ _ _ _ _ _ _ _ _ Ha) as Hok. pose proof (row_view_length _ _ Hok) as Hl. pose proof (ar_view _ _ _ _ _ _ _ _ _ _ Ha) as E.
  destruct (request_tokens_length q out (sq_prompt _ _ (ar_static _ _ _ _ _ _ _ _ _ _ Ha))) as [H1 _]. rewrite E in Hl. simpl in Hl.
  unfold row_view, shown_row in E. injection E as _ Ed _ _ _. apply (f_equal length) in Ed. rewrite length_drop, length_take in Ed. destruct Hok as [? ? ? ? ? ?].
  unfold num_tokens_of, cs_num_tokens in *. simpl. lia.
Qed.
Lemma prepared_spec : so_total_num_scheduled_tokens o <> 0 ->
  wp (prepare_inputs arange_size o row_counts) (inputs_ok n len (shown_drafts r o) r1 o row_counts) r1.
Proof.
  intros Hne. pose proof counts_total as Hsum. apply prepare_spec; try done.
  - unfold row_counts. by rewrite length_map.
  - apply Forall_lookup. intros i s Hs. destruct (row_at i) as (id & q & out & d & row & s' & t & _ & _ & _ & E & _ & _ & H & _); [apply lookup_lt_Some in Hs; unfold row_counts in Hs; by rewrite length_map in Hs|].
    replace s with s' by congruence. apply H.
  - intros E. apply Hne. rewrite <-Hsum. unfold row_counts. fold b in E. by rewrite E.
  - rewrite Hsum. apply (so_size _ _ Hstep).
  - intros i id q row s Ho Hq Hrow Hs. destruct (row_at i) as (id' & q' & out & d & row' & s' & t & Ha & _ & _ & E & -> & _ & H & Ed); [by eapply lookup_lt_Some|].
    pose proof (ar_occ _ _ _ _ _ _ _ _ _ _ Ha) as Ho'. unfold occupied in *. assert (id' = id) as -> by congruence.
    assert (q' = q) as -> by (rewrite (ar_request _ _ _ _ _ _ _ _ _ _ Ha) in Hq; congruence).
    assert (row' = row) as -> by (rewrite (ar_row _ _ _ _ _ _ _ _ _ _ Ha) in Hrow; congruence). assert (s' = s) as -> by congruence.
    destruct (told_fits cfg model n len r o id Hout) as (t & Ht & _ & _ & Hc); [apply Hdom; unfold seen; fold b; rewrite (proj2 (lo_index n b lists id i) Ho); by eexists|].
    rewrite <-Htr in Ht. unfold tracked in Ht. rewrite (ar_request _ _ _ _ _ _ _ _ _ _ Ha) in Ht. simpl in Ht. rewrite (ar_output _ _ _ _ _ _ _ _ _ _ Ha) in Ht. injection Ht as <-.
    split; [done| |].
    + rewrite (row_tokens _ _ _ _ _ _ Ha), Ed. exact (rq_shown _ _ _ _ _ H).
    + intros g tb ids p Hg Hids Hp. destruct (setting_table _ _ g tb Hset Hg) as (tb' & Hg' & Ec). destruct (config_same _ _ Ec) as (_ & L & K & B & _).
      destruct (rq_blocks _ _ _ _ _ H g tb' ids p Hg' Hids Hp) as [H1 H2]. rewrite <-L, <-K. split; [done|]. eapply Forall_impl; [exact H2|]. intros j. apply B.
  - intros g tb Hg. destruct (setting_table _ _ g tb Hset Hg) as (tb' & Hg' & Ec). destruct (config_same _ _ Ec) as (C & _ & _ & _ & S).
    destruct (so_tables _ _ Hstep g tb' Hg') as [H1 H2]. rewrite Hsum. split; [by apply C|lia].
  - intros id l Hl. destruct (so_drafts _ _ Hstep id l Hl) as (s & Hs & Hls). assert (Some id ∈ req_ids_ b) as [i Hi]%list_elem_of_lookup.
    { rewrite rows_perm. apply list_elem_of_fmap_2. by apply (list_elem_of_fmap_2 fst _ (id, s)). }
    exists i, s. split_and!; [done| |done]. unfold row_counts. change (map ?f ?l) with (f <$> l). rewrite list_lookup_fmap, Hi. simpl. unfold row_count. simpl. by rewrite (proj2 (sched_lookup id s) Hs).
Qed.
End prepared.

(** ** A step *)

(** The state after the update. *)
Record updated (r : ModelRunner) (o : SchedulerOutput) (r1 : ModelRunner) : Prop := {
  up_setting : same_setting (input_batch r) (input_batch r1);
  up_inv : runner_inv n len (shown_drafts r o) r1;
  up_tracked : forall x, tracked r1 x = told cfg model o (tracked r) x;
  up_seen : forall x, is_Some (seen (input_batch r1) x) <-> x ∈ map fst (so_num_scheduled_tokens o)
}.
Definition between_steps (w : Worker) : Prop := execute_model_state w = None /\ runner_inv n len (fun _ d _ => d = []) (w_runner w).

Lemma run_update_spec w o : runner_inv n len (fun _ d _ => d = []) (w_runner w) -> output_ok cfg model n len (w_runner w) o ->
  wp (run_update o) (fun o' w' => o' = o /\ exists r1, updated (w_runner w) o r1 /\ w' = set_w_runner r1 w) w.
Proof.
  intros Hr Ho. pose proof (update_spec cfg model n len Hlast Hsync counts (w_runner w) o Hr Ho) as H. unfold wp, run_update in *.
  destruct (update_states _ _ _ _) as [x u|]; [|done]. destruct H as (H1 & H2 & H3 & H4 & H5 & _). split; [done|]. exists (runner u). split; [by split|done].
Qed.
Lemma execute_spec w o : between_steps w -> output_ok cfg model n len (w_runner w) o -> step_ok (w_runner w) o ->
  wp (execute_model o) (fun x w' => exists r1, updated (w_runner w) o r1 /\
    if so_total_num_scheduled_tokens o =? 0 then x = EMPTY_MODEL_RUNNER_OUTPUT /\ w' = mkWorker r1 None
    else x = ToSample /\ exists inp, execute_model_state w' = Some (o, inp) /\ inputs_ok n len (shown_drafts (w_runner w) o) r1 o (row_counts r1 o) inp (w_runner w')) w.
Proof.
  intros [Hes Hr] Ho Hs. unfold execute_model. rstep. rstep. rewrite Hes. rstep. rstep. rstep. eapply wp_mono; [by apply run_update_spec|].
  cbv beta. intros o' w' (-> & r1 & Hup & ->). destruct (so_total_num_scheduled_tokens o =? 0) eqn:E0.
  - rstep. exists r1. split; [done|]. split; [done|]. unfold set_w_runner. by rewrite Hes.
  - apply Z.eqb_neq in E0. pose proof Hup as [U1 U2 U3 U4]. rstep. rstep. cbn [w_runner set_w_runner]. rstep.
    eapply (wp_mono _ (fun l w' => l = row_counts r1 o /\ w' = set_w_runner r1 w)).
    { assert (forall l (w0 : Worker), (forall x, x ∈ l -> exists id s, x = Some id /\ (list_to_map (so_num_scheduled_tokens o) : gmap string Z) !! id = Some s) ->
        py_map (fun i => py_unwrap KeyError (id ← i; (list_to_map (so_num_scheduled_tokens o) : gmap string Z) !! id)) l w0 = Ret (map (row_count o) l) w0) as Hmap.
      { intros l w0. induction l as [|x l IH]; intros Hl; [done|]. destruct (Hl x) as (id & s & -> & E); [by constructor|].
        cbn [py_map]. unfold py_bind. cbn [mbind option_bind]. rewrite E. cbn [py_unwrap]. unfold py_ret at 1. rewrite IH by (intros y Hy; apply Hl; by constructor).
        unfold py_ret. cbn [map]. unfold row_count at 2. cbn [mbind option_bind]. by rewrite E. }
      unfold wp. rewrite Hmap; [done|]. intros x [i Hi]%list_elem_of_lookup.
      destruct (row_at _ r1 o Hs U2 U3 U4 i) as (id & q & out & d & row & s & t & Ha & _ & E & _); [by eapply lookup_lt_Some|].
      pose proof (ar_occ _ _ _ _ _ _ _ _ _ _ Ha) as Hocc. unfold occupied in Hocc. exists id, s. split; [congruence|done]. }
    cbv beta. intros l w' [-> ->]. rstep. destruct (row_counts r1 o) as [|c l] eqn:El.
    { destruct E0. rewrite <-(counts_total _ r1 o Hs U2 U3 U4), El. done. }
    cbn [is_nil]. rstep. rewrite <-El. rstep. unfold on_worker. apply wp_zoom. eapply wp_mono; [by apply (prepared_spec _ r1 o Ho Hs U1 U2 U3 U4)|].
    cbv beta. intros inp r' Hin. rstep. rstep. rstep. exists r1. split; [done|]. split; [done|]. by exists inp.
Qed.

(** The tokens that a step returns for a request. *)
Definition reported (k : option Bookkeeping) (x : string) : list Z :=
  default [] (k ← k; i ← req_id_to_index_output_copy k !! x; valid_sampled_token_ids k !! i).
(** A token at least for a request whose tokens are all computed, none for another. *)
Definition sampled_fits (o : SchedulerOutput) (x : string) (s : Z) (t : Tracked) (l : list Z) : Prop :=
  (l = [] <-> t_computed t + s < num_tokens_of t) /\ Z.of_nat (length l) <= Z.of_nat (length (drafts_of o x)) + 1.

Section sampled.
Context (r r1 r2 : ModelRunner) (o : SchedulerOutput) (inp : ModelInputs) (Hstep : step_ok r o) (Hup : updated r o r1)
  (Hin : inputs_ok n len (shown_drafts r o) r1 o (row_counts r1 o) inp r2).
Context (width : Z) (sampled : list (list Z)) (Hrows : length sampled = length (req_ids_ (input_batch r2)))
  (Hsam : forall i row, sampled !! i = Some row ->
     let k := Z.of_nat (length (accepted_tokens width (vocab_size (config (input_batch r2))) row)) in 1 <= k <= draft_count inp i + 1).
Lemma sampled_scheduled x s t : (x, s) ∈ so_num_scheduled_tokens o -> told cfg model o (tracked r) x = Some t ->
  sampled_fits o x s t (sampled_for width sampled r2 x) /\ request_scheduled r o x s t.
Proof.
  intros Hx Ht. pose proof Hup as [U1 U2 U3 U4]. pose proof (io_index _ _ _ _ _ _ _ _ Hin) as (S1 & S2 & _).
  assert (is_Some (seen (input_batch r1) x)) as [v Hv] by (apply U4; by apply (list_elem_of_fmap_2 fst _ (x, s))).
  unfold seen in Hv. destruct (InputBatch.req_id_to_index (input_batch r1) !! x) as [i|] eqn:Ei; [|done].
  pose proof (proj1 (lo_index n _ (proj1 (proj2 (ri_batch _ _ _ _ U2))) x i) Ei) as Hocc. pose proof (lookup_lt_Some _ _ _ Hocc) as Hi.
  destruct (row_at r r1 o Hstep U2 U3 U4 i Hi) as (id & q & out & d & row & s' & t' & Ha & Hs' & _ & Ec & -> & Ht' & Hreq & _).
  pose proof (ar_occ _ _ _ _ _ _ _ _ _ _ Ha) as Ho. unfold occupied in *. assert (id = x) as -> by congruence. assert (t = track q out) as -> by congruence.
  assert (s' = s) as -> by (apply (sched_lookup r o Hstep) in Hx, Hs'; congruence). split; [|done].
  destruct (io_row _ _ _ _ _ _ _ _ Hin i x q out d row s Ha Ec) as (_ & _ & Hm).
  destruct (lookup_lt_is_Some_2 sampled i) as [l Hl]; [by rewrite Hrows, S1|]. specialize (Hsam i l Hl). rewrite (io_counts _ _ _ _ _ _ _ _ Hin) in Hsam.
  unfold row_drafts in Hsam. rewrite Hocc in Hsam. simpl in Hsam. unfold sampled_for. rewrite S2, Ei, Hm, Hl. simpl. unfold sampled_fits. simpl.
  unfold drafts_of, num_tokens_of, cs_num_tokens. simpl. destruct (Z.ltb_spec (cs_num_computed_tokens q + s) (cs_num_prompt_tokens q + Z.of_nat (length out))) as [Hlt|Hlt].
  - split; [done|]. simpl. lia.
  - destruct (accepted_tokens _ _ l) as [|z l']; simpl in Hsam |- *; [lia|]. split; [split; [done|lia]|]. lia.
Qed.
Lemma sampled_other x : x ∉ map fst (so_num_scheduled_tokens o) -> sampled_for width sampled r2 x = [].
Proof.
  intros Hx. pose proof (io_index _ _ _ _ _ _ _ _ Hin) as (_ & S2 & _). unfold sampled_for. rewrite S2. destruct (InputBatch.req_id_to_index _ !! x) as [i|] eqn:Ei; [|done].
  destruct Hx. apply (up_seen _ _ _ Hup). unfold seen. rewrite Ei. by eexists.
Qed.
Lemma seen_scheduled x : is_Some (seen (input_batch r2) x) -> x ∈ map fst (so_num_scheduled_tokens o).
Proof.
  intros Hx. apply (up_seen _ _ _ Hup). pose proof (io_index _ _ _ _ _ _ _ _ Hin) as (_ & S2 & _). unfold seen in Hx |- *. rewrite S2 in Hx.
  destruct (InputBatch.req_id_to_index (input_batch r1) !! x); [by eexists|by destruct Hx].
Qed.
(** What is sampled fits, and no draft stays behind. *)
Lemma sampled_room x t : output_ok cfg model n len r o -> is_Some (seen (input_batch r2) x) -> told cfg model o (tracked r) x = Some t ->
  num_tokens_of t + Z.of_nat (length (sampled_for width sampled r2 x)) <= len /\
  (sampled_for width sampled r2 x = [] -> shown_draft r o x = []).
Proof.
  intros Ho Hx Ht. apply (seen_scheduled x) in Hx. pose proof Hx as ([x' s] & E & Hs)%list_elem_of_fmap. simpl in E. subst x'.
  destruct (sampled_scheduled x s t Hs Ht) as [[Hz Hk] Hq]. pose proof (rq_room _ _ _ _ _ Hq) as Hroom. pose proof (rq_drafts _ _ _ _ _ Hq) as Hdr. split.
  - destruct (decide (t_computed t + s < num_tokens_of t)) as [Hlt|Hlt]; [|lia]. rewrite (proj2 Hz Hlt).
    destruct (told_fits cfg model n len r o x Ho Hx) as (t' & Ht' & Hf & _). assert (t' = t) as -> by congruence. unfold num_tokens_of. simpl. lia.
  - intros E. apply Hz in E. unfold shown_draft. destruct (stays r o x); [|done]. destruct (drafts_of o x); [done|]. specialize (Hdr ltac:(done)). lia.
Qed.
End sampled.
Record stepped (r : ModelRunner) (o : SchedulerOutput) (k : option Bookkeeping) (w' : Worker) : Prop := {
  sd_between : between_steps w';
  sd_setting : same_setting (input_batch r) (input_batch (w_runner w'));
  sd_tracked : forall x, tracked (w_runner w') x = extend_tracked (reported k x) <$> told cfg model o (tracked r) x;
  sd_scheduled : forall x s t, (x, s) ∈ so_num_scheduled_tokens o -> told cfg model o (tracked r) x = Some t -> sampled_fits o x s t (reported k x);
  sd_other : forall x, x ∉ map fst (so_num_scheduled_tokens o) -> reported k x = []
}.

Lemma nothing_scheduled r o : output_ok cfg model n len r o -> step_ok r o -> so_total_num_scheduled_tokens o = 0 -> so_num_scheduled_tokens o = [].
Proof.
  intros Ho Hs E. assert (Forall (fun e => 0 < snd e) (so_num_scheduled_tokens o)) as Hpos.
  { apply Forall_forall. intros [x s] Hx. destruct (told_fits cfg model n len r o x Ho) as (t & Ht & _); [by apply (list_elem_of_fmap_2 fst _ (x, s))|].
    exact (rq_pos _ _ _ _ _ (so_request _ _ Hs x s t Hx Ht)). }
  destruct (so_num_scheduled_tokens o) as [|e l] eqn:El; [done|]. rewrite (so_total _ _ Hs), El in E.
  pose proof (length_le_sum (map snd (e :: l))) as H. rewrite length_map in H. simpl length in H. assert (Forall (fun s => 0 < s) (map snd (e :: l))) as Hf by (change (map ?f ?l) with (f <$> l); by apply Forall_fmap).
  specialize (H Hf). lia.
Qed.
Lemma step_spec w o : sampler_ok -> between_steps w -> output_ok cfg model n len (w_runner w) o -> step_ok (w_runner w) o ->
  wp (worker_step o) (stepped (w_runner w) o) w.
Proof.
  intros Hsam Hw Ho Hs. unfold worker_step. rstep. eapply wp_mono; [by apply execute_spec|]. cbv beta. intros x w1 (r1 & Hup & H).
  destruct (so_total_num_scheduled_tokens o =? 0) eqn:E0.
  - destruct H as [-> ->]. rstep. apply Z.eqb_eq in E0. pose proof (nothing_scheduled _ _ Ho Hs E0) as En. pose proof Hup as [U1 [I1 I2 I3 I4] U3 U4]. split; try done.
    + split; [done|]. split; try done. intros y v Hv. assert (is_Some (seen (input_batch r1) y)) as Hy by (by eexists). apply U4 in Hy. rewrite En in Hy. by apply not_elem_of_nil in Hy.
    + intros y. cbn [w_runner]. rewrite U3. by rewrite extend_tracked_nil.
    + intros y s t Hy. rewrite En in Hy. by apply not_elem_of_nil in Hy.
  - destruct H as [-> (inp & Hes & Hin)]. unfold sample_tokens. rstep. rstep. rewrite Hes. rstep. rstep. pose proof (Hsam inp (input_batch (w_runner w1))) as Hsam1.
    destruct (sample inp (input_batch (w_runner w1))) as [width sampled].
    assert (forall i, 0 <= draft_count inp i) as Hnn by (intros i; rewrite (io_counts _ _ _ _ _ _ _ _ Hin); apply row_drafts_nonneg). specialize (Hsam1 Hnn) as [Hrows Hacc].
    rstep. unfold on_worker. apply wp_zoom. rstep. rstep. apply wp_zoom. cbn [w_runner set_w_runner set_execute_model_state].
    set (r2 := w_runner w1) in *. set (r2' := set_prev_sampled_token_ids None r2).
    assert (runner_inv n len (shown_drafts (w_runner w) o) r2') as Hr2 by (destruct (io_inv _ _ _ _ _ _ _ _ Hin) as [I1 I2 [J1 J2 J3 J4] I4]; by split).
    assert (forall y, tracked r2' y = told cfg model o (tracked (w_runner w)) y) as Htr by (intros y; rewrite <-(up_tracked _ _ _ Hup); apply (io_tracked _ _ _ _ _ _ _ _ Hin)).
    pose proof (fun y t => sampled_room (w_runner w) r1 r2 o inp Hs Hup Hin width sampled Hrows Hacc y t Ho) as Hroom.
    eapply wp_mono; [apply (bookkeeping_spec cfg n len Hmax Hsync (shown_drafts (w_runner w) o) width sampled r2' Hr2); [done|]|].
    { intros y t Hy Ht. rewrite Htr in Ht. by apply (Hroom y t). }
    cbv beta. intros k r3 (S1 & [I1 I2 I3 I4] & T3 & V3 & _ & K2). rstep. change (input_batch r2') with (input_batch r2) in *.
    assert (forall y, reported (Some k) y = sampled_for width sampled r2 y) as Hrep.
    { intros y. unfold reported. cbn [mbind option_bind]. rewrite K2.
      destruct (InputBatch.req_id_to_index (input_batch r2) !! y) as [i|] eqn:Ei; cbn [mbind option_bind]; [by rewrite (V3 y i Ei)|]. unfold sampled_for. by rewrite Ei. }
    split.
    + split; [done|]. split; try done. intros y v Hv. destruct (I4 y v Hv) as (q & out & d & sp & acc & G1 & G2 & G3 & G4).
      exists q, out, d, sp, acc. split_and!; try done. change (sampled_for width sampled r2' y) with (sampled_for width sampled r2 y) in G4. revert G4.
      destruct (sampled_for width sampled r2 y) as [|z l] eqn:El; [|done]. intros [_ ->].
      assert (is_Some (seen (input_batch r2) y)) as Hy.
      { pose proof S1 as (_ & S2 & _). unfold seen in Hv |- *. cbn [w_runner set_w_runner] in Hv. rewrite S2 in Hv.
        change (input_batch r2') with (input_batch r2) in Hv. destruct (InputBatch.req_id_to_index (input_batch r2) !! y); [by eexists|done]. }
      pose proof (seen_scheduled (w_runner w) r1 r2 o inp Hup Hin y Hy) as Hy'. destruct (told_fits cfg model n len _ o y Ho Hy') as (t & Ht & _).
      by apply (proj2 (Hroom y t Hy Ht)).
    + eapply same_setting_trans; [exact (up_setting _ _ _ Hup)|]. eapply same_setting_trans; [exact (proj2 (proj2 (io_index _ _ _ _ _ _ _ _ Hin)))|exact (proj2 (proj2 S1))].
    + intros y. cbn [w_runner set_w_runner]. by rewrite T3, Hrep, Htr.
    + intros y s t Hy Ht. rewrite Hrep. by apply (sampled_scheduled (w_runner w) r1 r2 o inp Hs Hup Hin width sampled Hrows Hacc).
    + intros y Hy. rewrite Hrep. by eapply sampled_other.
Qed.
End worker.
