(* ===== verification/WorkerSystem.v ===== *)
(** The worker over any number of steps: its properties, and a worker on which they are run. *)
From stdpp Require Import numbers gmap strings list sorting fin_maps.
From Stdlib Require Import ZArith QArith Lia.
From S2P Require Import Prelude Request SchedulerData BlockTable InputBatch InputBatchProofs PersistentBatch BatchReorder ModelRunner RunnerProofs RunnerUpdate RunnerStep ModelInputs InputsProofs WorkerRun.
Open Scope Z_scope.

Section system.
Context (cfg : RunnerConfig) (model : ModelFunctions) (arange_size : Z) (counts : list Z) (sample : ModelInputs -> InputBatch -> Z * list (list Z)).
(** The only rank of the pipeline, without asynchronous scheduling. *)
Record worker_env : Prop := {
  we_last : is_last_rank cfg = true;
  we_sync : use_async_scheduling cfg = false;
  we_sampler : sampler_ok sample
}.
Definition runner_init (b : BatchConfig) (tables : list BlockTable) : ModelRunner :=
  mkRunner ∅ [] ∅ ∅ None (replicate (Z.to_nat (max_num_reqs b)) false) None (input_batch_init b tables).
Definition worker_init (b : BatchConfig) (tables : list BlockTable) : Worker := mkWorker (runner_init b tables) None.

(** A worker after some steps, with the requests it was told of and their tokens. *)
Inductive worker_reach (n : nat) (len : Z) : Worker -> (string -> option Tracked) -> Prop :=
| reach_init b tables : n = Z.to_nat (max_num_reqs b) -> len = batch_max_model_len b -> runner_max_model_len cfg = len -> 0 <= max_num_reqs b -> 0 <= len ->
    Forall (table_ok n) tables -> worker_reach n len (worker_init b tables) (fun _ => None)
| reach_step w m o k w' : worker_reach n len w m -> output_ok cfg model n len (w_runner w) o -> step_ok cfg model arange_size len (w_runner w) o ->
    worker_step cfg model arange_size counts sample o w = Ret k w' ->
    worker_reach n len w' (fun x => extend_tracked (reported k x) <$> told cfg model o m x).

Lemma told_ext o t t' x : t x = t' x -> told cfg model o t x = told cfg model o t' x.
Proof. intros E. unfold told, told_all, told_news. destruct (list_find _ _) as [[? ?]|], (list_find _ _) as [[? ?]|]; rewrite ?E; done. Qed.
Lemma init_between b tables : 0 <= max_num_reqs b -> 0 <= batch_max_model_len b -> Forall (table_ok (Z.to_nat (max_num_reqs b))) tables ->
  between_steps (Z.to_nat (max_num_reqs b)) (batch_max_model_len b) (worker_init b tables).
Proof.
  intros Hn Hl Ht. destruct (init_inv b tables Hn Hl Ht) as [H _]. split; [done|]. by split.
Qed.
Lemma reach_between n len w m : worker_env -> worker_reach n len w m ->
  between_steps n len w /\ runner_max_model_len cfg = len /\ forall x, tracked (w_runner w) x = m x.
Proof.
  intros [E1 E2 E3] H. induction H as [b tables -> -> Hlen Hn Hl Ht|w m o k w' Hreach (IH1 & IH2 & IH3) Ho Hs E].
  - split_and!; [by apply init_between|done|done].
  - destruct (wp_outcome _ _ _ _ _ (step_spec cfg model arange_size counts sample n len E1 E2 IH2 w o E3 IH1 Ho Hs) E) as [S1 _ S3 _ _].
    split_and!; [done|done|]. intros x. rewrite S3. f_equal. by apply told_ext.
Qed.

Lemma reach_steps n len w m o : worker_env -> worker_reach n len w m ->
  output_ok cfg model n len (w_runner w) o -> step_ok cfg model arange_size len (w_runner w) o ->
  exists k w', worker_step cfg model arange_size counts sample o w = Ret k w' /\ stepped cfg model n len (w_runner w) o k w'.
Proof.
  intros Henv Hreach Ho Hs. destruct (reach_between n len w m Henv Hreach) as (Hb & Hlen & Hm). destruct Henv as [E1 E2 E3].
  pose proof (step_spec cfg model arange_size counts sample n len E1 E2 Hlen w o E3 Hb Ho Hs) as H. by apply wp_iff in H.
Qed.

(** All tokens of a request that are known; a prompt given as embeddings has none. *)
Definition tracked_tokens (t : Tracked) : list (option Z) :=
  match prompt_token_ids (t_args t) with
  | Some p => map Some p
  | None => replicate (Z.to_nat (t_num_prompt t)) None
  end ++ map Some (t_output t).
(** The inputs of a request: its tokens from the computed ones on, with their positions and
    their slots in the tables of the cache groups. *)
Record request_inputs (tables : list BlockTable) (inp : ModelInputs) (i : nat) (s : Z) (t : Tracked) (drafts : list Z) : Prop := {
  ri_seq_len : in_seq_lens inp !! i = Some (t_computed t + s);
  ri_tokens : exists start, in_query_start_loc inp !! i = Some start /\ forall j, 0 <= j < s ->
    let k := Z.to_nat (start + j) in let p := t_computed t + j in
    in_req_indices inp !! k = Some (Z.of_nat i) /\ in_positions inp !! k = Some p /\
    (exists tok y, in_input_ids inp !! k = Some tok /\ (tracked_tokens t ++ map Some drafts) !! Z.to_nat p = Some y /\ (y = Some tok \/ y = None)) /\
    forall g tb ids, tables !! g = Some tb -> t_blocks t !! g = Some ids -> slot_mapping tb !! k = Some (expected_slot tb ids p)
}.

(** ** Properties *)

(** C5. Over any number of steps the worker mirrors the scheduler: a step on an output
    that keeps the scheduler's promises returns, the worker then knows exactly the
    requests told so far, each with the tokens that the scheduler's outputs leave and
    the ones returned since; every row of the batch shows its request with no draft
    left; and a request gets at least one token, and at most one more than its drafts,
    when all its tokens were computed, none otherwise. *)
Theorem worker_mirrors n len w m o : worker_env -> worker_reach n len w m ->
  output_ok cfg model n len (w_runner w) o -> step_ok cfg model arange_size len (w_runner w) o ->
  exists k w', worker_step cfg model arange_size counts sample o w = Ret k w' /\
    (forall x, tracked (w_runner w') x = extend_tracked (reported k x) <$> told cfg model o m x) /\
    batch_shows (fun _ d _ => d = []) (w_runner w') /\
    (forall x s t, (x, s) ∈ so_num_scheduled_tokens o -> told cfg model o m x = Some t -> sampled_fits o x s t (reported k x)) /\
    forall x, x ∉ map fst (so_num_scheduled_tokens o) -> reported k x = [].
Proof.
  intros Henv Hreach Ho Hs. destruct (reach_between n len w m Henv Hreach) as (_ & _ & Hm).
  destruct (reach_steps n len w m o Henv Hreach Ho Hs) as (k & w' & E & [[_ [_ _ _ S1]] _ S2 S3 S4]).
  exists k, w'. split_and!; try done.
  - intros x. rewrite S2. f_equal. by apply told_ext.
  - intros x s t Hx Ht. apply S3; [done|]. rewrite <-Ht. by apply told_ext.
Qed.

(** C6. The model is given the scheduled tokens: for each request with [s] scheduled
    tokens its row has the [s] tokens after the computed ones (known tokens, then the
    drafts of the scheduler output), their positions, and in every cache group the slots
    that its blocks hold for these positions. Of a position of a prompt that is given as
    embeddings only the position and the slots are said. The promises of [step_ok] are
    assumed, among them that a request that comes back into the batch is scheduled up to
    its known tokens only. *)
Theorem inputs_exact n len w m o : worker_env -> worker_reach n len w m ->
  output_ok cfg model n len (w_runner w) o -> step_ok cfg model arange_size len (w_runner w) o -> so_total_num_scheduled_tokens o <> 0 ->
  exists inp w', execute_model cfg model arange_size counts o w = Ret ToSample w' /\ execute_model_state w' = Some (o, inp) /\
    Z.of_nat (length (in_input_ids inp)) = so_total_num_scheduled_tokens o /\
    forall x s t, (x, s) ∈ so_num_scheduled_tokens o -> told cfg model o m x = Some t ->
    exists i, InputBatch.req_id_to_index (input_batch (w_runner w')) !! x = Some i /\
      request_inputs (batch_block_table (input_batch (w_runner w'))) inp i s t (drafts_of o x).
Proof.
  intros Henv Hreach Ho Hs Hne. destruct (reach_between n len w m Henv Hreach) as (Hb & Hlen & Hm). destruct Henv as [E1 E2 E3].
  pose proof (execute_spec cfg model arange_size counts n len E1 E2 w o Hb Ho Hs) as H. apply wp_iff in H as (x & w' & E & r1 & Hup & H).
  rewrite (proj2 (Z.eqb_neq _ _) Hne) in H. destruct H as [-> (inp & Hes & Hin)]. pose proof Hup as [U1 U2 U3 U4].
  exists inp, w'. split_and!; [done|done|rewrite (proj2 (io_count _ _ _ _ _ _ _ _ Hin)); by eapply counts_total|].
  intros x s t Hx Ht. rewrite <-(told_ext o (tracked (w_runner w)) m x (Hm x)) in Ht.
  assert (is_Some (seen (input_batch r1) x)) as [v Hv] by (apply U4; by apply (list_elem_of_fmap_2 fst _ (x, s))).
  unfold seen in Hv. destruct (InputBatch.req_id_to_index (input_batch r1) !! x) as [i|] eqn:Ei; [|done]. clear Hv v.
  pose proof (proj1 (lo_index n _ (proj1 (proj2 (ri_batch _ _ _ _ U2))) x i) Ei) as Hocc. pose proof (lookup_lt_Some _ _ _ Hocc) as Hi.
  destruct (row_at cfg model arange_size n len _ r1 o Hs U2 U3 U4 i Hi) as (id & q & out & d & row & s' & t' & Ha & Hs' & _ & Ec & -> & Ht' & _ & Hd).
  pose proof (ar_occ _ _ _ _ _ _ _ _ _ _ Ha) as Ho'. unfold occupied in *. assert (id = x) as -> by congruence. assert (t = track q out) as -> by congruence.
  assert (s' = s) as -> by (apply (sched_lookup cfg model arange_size len _ o Hs) in Hx, Hs'; congruence).
  pose proof (io_index _ _ _ _ _ _ _ _ Hin) as (_ & S2 & _). exists i. split; [by rewrite S2|].
  destruct (io_row _ _ _ _ _ _ _ _ Hin i x q out d row s Ha Ec) as (R1 & R2 & _). split; [exact R2|]. exists (start_of (row_counts r1 o) i). split; [exact R1|].
  intros j Hj. destruct (io_token _ _ _ _ _ _ _ _ Hin i x q out d row s j Ha Ec Hj) as (T1 & T2 & (tok & y & T3 & T4 & T5) & T6).
  split_and!; [done|done| |done]. exists tok, y. split_and!; [done| |done]. rewrite Hd in T4. unfold shown_draft in T4.
  destruct (stays (w_runner w) o x); [done|]. rewrite app_nil_r in T4. by apply lookup_app_l_Some.
Qed.
End system.

(** The sampling metadata made from the batch says of each row what its request asks for:
    temperature, top-p, top-k, penalties, or their defaults where the metadata leaves them out,
    and a number of logprobs that suffices; all-greedy and all-random hold of every request. *)
Theorem metadata_exact n len P r md x i q d : runner_inv n len P r -> is_pooling_model (config (input_batch r)) = false ->
  make_sampling_metadata (input_batch r) = inr md -> InputBatch.req_id_to_index (input_batch r) !! x = Some i -> mr_requests r !! x = Some q -> request_draw q = Some d ->
  sampled_with (config (input_batch r)) md i d.
Proof.
  intros Hr Hp Hmd Hi Hq Hd. pose proof (ri_batch _ _ _ _ Hr) as Hinv. rewrite <-(clean_self _ (ri_builder _ _ _ _ Hr)) in Hinv.
  destruct (seen (input_batch r) x) as [v|] eqn:Ev; [|unfold seen in Ev; by rewrite Hi in Ev].
  destruct (ri_shows _ _ _ _ Hr x v Ev) as (q' & out & dr & sp & acc & G1 & G2 & G3 & _). assert (q' = q) as -> by congruence.
  unfold seen in Ev. rewrite Hi in Ev. simpl in Ev. injection Ev as Ev. rewrite G3 in Ev. clear G3 v.
  pose proof (st_id _ (ri_states _ _ _ _ Hr) x q Hq) as Eid.
  unfold view, shown_view, touched_view, request_view in Ev. rewrite Hp, Hd, Eid in Ev.
  pose proof (f_equal v_draw Ev) as V1. pose proof (f_equal v_logprobs Ev) as V2. pose proof (f_equal v_marks Ev) as V3. cbn -[marks_of request_marks] in V1, V2, V3.
  exact (metadata_rows n len _ md x i d acc _ Hinv Hp Hmd Hi V1 V3 eq_refl V2).
Qed.
