(* ===== verification/WorkerDemo.v ===== *)
(** A worker with two requests: a prompt computed in two steps beside a prompt that fits in one,
    so that the second step has a decode and a rest of a prompt, in the wrong order. The
    properties of the worker are applied to both steps. *)
From stdpp Require Import numbers gmap strings list sorting fin_maps.
From Stdlib Require Import ZArith QArith Lia.
From S2P Require Import Prelude Request SchedulerData BlockTable InputBatch InputBatchProofs PersistentBatch BatchReorder ModelRunner RunnerProofs RunnerUpdate RunnerStep ModelInputs InputsProofs WorkerRun WorkerSystem.
Open Scope Z_scope.
Open Scope string_scope.

Definition demo_cfg : RunnerConfig := mkRunnerConfig true false false false 0 1 (Some 1) 16.
Definition demo_model : ModelFunctions := mkModelFunctions (fun _ => inr false) (fun _ => inr 0) (fun _ => inr 0).
Definition demo_batch : BatchConfig := mkBatchConfig 3 16 100 false false false.
Definition demo_tables : list BlockTable :=
  match block_table_init 4 3 4 16 4 1 (mkParallelGroups (1, 0) (1, 0)) with inr t => [t] | inl _ => [] end.
Definition demo_request (id : string) (obj : Z) (toks : list Z) (draw : DrawParams) : RequestArgs :=
  mkArgs id obj 0 0 0 (Some toks) None (Some (mkSampling (Some 4) 0 false None None false None draw)) None (Some 7) [] None None.
Definition demo_new (id : string) (obj : Z) (toks blocks : list Z) : NewRequestData :=
  mkNewRequestData (demo_request id obj toks default_draw) [blocks] 0 None.
Definition no_cached : CachedRequestData := mkCachedRequestData [] ∅ [] [] [] [] [].
(** The first step: three of the five tokens of A, both tokens of B. *)
Definition demo_o1 : SchedulerOutput :=
  mkSchedulerOutput [demo_new "A" 1 [1; 2; 3; 4; 5] [1; 2]; demo_new "B" 2 [6; 8] [3]] no_cached [("A", 3); ("B", 2)] 5 ∅ ∅ [0] ∅ ∅ [] false.
(** The second: the other two tokens of A, and the token sampled for B. *)
Definition demo_o2 : SchedulerOutput :=
  mkSchedulerOutput [] (mkCachedRequestData ["A"; "B"] ∅ [] [] [None; None] [3; 2] [0; 1]) [("A", 2); ("B", 1)] 3 ∅ ∅ [0] ∅ ∅ [] false.
Definition demo_sample (inp : ModelInputs) (b : InputBatch) : Z * list (list Z) := (1, replicate (length (req_ids_ b)) [9]).
Definition demo_w0 : Worker := worker_init demo_batch demo_tables.
Definition result_of (x : outcome Worker (option Bookkeeping)) : Worker := match x with Ret _ w => w | Raise _ w => w end.
Definition demo_step : SchedulerOutput -> Worker -> outcome Worker (option Bookkeeping) := worker_step demo_cfg demo_model 16 [] demo_sample.
Definition demo_w1 : Worker := result_of (demo_step demo_o1 demo_w0).
Definition demo_told (o : SchedulerOutput) (m : string -> option Tracked) : string -> option Tracked := told demo_cfg demo_model o m.

Lemma demo_env : worker_env demo_cfg demo_sample.
Proof.
  split; [done|done|]. intros inp b Hd. simpl. split; [by rewrite length_replicate|]. intros i row Hi. apply lookup_replicate in Hi as [-> _].
  specialize (Hd i). simpl. lia.
Qed.
Lemma demo_reach0 : worker_reach demo_cfg demo_model 16 [] demo_sample 3 16 demo_w0 (fun _ => None).
Proof. apply reach_init; try done. constructor; [|constructor]. split; simpl; try done; repeat constructor; done. Qed.
(** What the batch of the demonstration asks of a block list. *)
Lemma demo_fit b blocks : map table_config (batch_block_table b) = map table_config demo_tables -> forallb (fun l => (length l <=? 4)%nat && forallb fits_int32 l) blocks = true -> blocks_fit b blocks.
Proof.
  intros Ht Hb g t ids Hg Hids. destruct (setting_table (input_batch_init (config b) demo_tables) b g t) as (t' & Hg' & Ec); [by split|done|].
  apply (row_fits_config t' t 0); [done|]. simpl in Hg'. destruct g as [|g]; [|done]. apply (inj Some) in Hg'. subst t'.
  rewrite forallb_forall in Hb. apply list_elem_of_lookup_2, list_elem_of_In in Hids. apply Hb in Hids as [H1 H2]%andb_prop. apply Nat.leb_le in H1. split; [exact H2|]. change (0 + Z.of_nat (length ids) <= 4). lia.
Qed.

Lemma demo_new_ok b id obj toks blocks : same_setting (input_batch (w_runner demo_w0)) b -> (length toks <= 16)%nat -> (length blocks <= 4)%nat -> forallb fits_int32 blocks = true ->
  new_ok demo_cfg demo_model b (demo_new id obj toks blocks) /\
  forall t, told_new demo_cfg demo_model (demo_new id obj toks blocks) = Some t -> t_num_prompt t <= 16 /\ blocks_fit b (t_blocks t).
Proof.
  intros [Hc Ht] Hl Hb Hf. pose proof (f_equal length Ht) as Hlen. rewrite !length_map in Hlen. split.
  - exists (demo_request id obj toks default_draw), (Z.of_nat (length toks)). split; [done|]. split; [|by split; eexists].
    split; try done; [by rewrite Hc; eexists|]. by intros d l [= <-].
  - intros t [= <-]. simpl. split; [lia|]. apply demo_fit; [done|]. simpl. rewrite Hf. by rewrite (proj2 (Nat.leb_le _ _) Hb).
Qed.
Lemma demo_output1 : output_ok demo_cfg demo_model 3 16 (w_runner demo_w0) demo_o1.
Proof.
  split; simpl.
  - done.
  - apply (bool_decide_unpack _). by vm_compute.
  - lia.
  - intros nr Hnr. assert (exists id obj toks blocks, nr = demo_new id obj toks blocks /\ (length toks <= 16)%nat /\ (length blocks <= 4)%nat /\ forallb fits_int32 blocks = true) as (id & obj & toks & blocks & -> & H1 & H2 & H3).
    { repeat (apply elem_of_cons in Hnr as [->|Hnr]); [..|by apply not_elem_of_nil in Hnr]; repeat eexists; simpl; lia. }
    destruct (demo_new_ok (input_batch (w_runner demo_w0)) id obj toks blocks) as [G1 G2]; [done..|]. split_and!; [done|by right|done|done].
  - done.
Qed.

(** The slots of a block list whose ids are small. *)
Lemma demo_blocks_ok tb ids p : tb ∈ demo_tables -> 0 <= p < 4 * Z.of_nat (length ids) -> Forall (fun i => 0 <= i < 100) ids ->
  local_position tb p < Z.of_nat (length ids) * kv_block_size tb /\ Forall (block_in_range tb) ids.
Proof.
  intros Htb Hp Hids. apply elem_of_cons in Htb as [->|Htb]; [|by apply not_elem_of_nil in Htb]. unfold local_position, local_offset, kv_block_size, block_in_range, virtual_block_size, total_cp_world_size. simpl. split.
  - change (4 * (1 * 1)) with 4. change (1 * 1 * 1) with 1. rewrite !Z.div_1_r, !Z.mod_1_r. pose proof (Z.div_mod p 4). lia.
  - eapply Forall_impl; [exact Hids|]. simpl. intros i Hi. unfold kv_block_size. simpl. lia.
Qed.

(** A scheduled request without drafts, from numbers. *)
Lemma demo_scheduled r o x s t : map table_config (batch_block_table (input_batch r)) = map table_config demo_tables -> so_scheduled_spec_decode_tokens o = ∅ ->
  ((0 <? s) && (t_computed t + s <=? num_tokens_of t) && (num_tokens_of t <? 16) &&
    forallb (fun ids => (t_computed t + s <=? 4 * Z.of_nat (length ids)) && forallb (fun i => (0 <=? i) && (i <? 100)) ids) (t_blocks t))%Z = true ->
  request_scheduled 16 r o x s t.
Proof.
  intros Ht Hspec H. apply andb_prop in H as [[[H1 H2]%andb_prop H3]%andb_prop H4]. apply Z.ltb_lt in H1, H3. apply Z.leb_le in H2.
  assert (drafts_of o x = []) as Ed by (unfold drafts_of; by rewrite Hspec). split; rewrite ?Ed; simpl; try done; try lia.
  intros g tb ids p Hg Hids Hp. destruct (setting_table (input_batch_init (config (input_batch r)) demo_tables) (input_batch r) g tb) as (tb' & Hg' & Ec); [by split|done|].
  destruct (config_same _ _ Ec) as (_ & L & K & B & _). rewrite <-L, <-K. rewrite forallb_forall in H4.
  apply list_elem_of_lookup_2, list_elem_of_In in Hids. apply H4 in Hids as [H5 H6]%andb_prop. apply Z.leb_le in H5.
  destruct (demo_blocks_ok tb' ids p) as [G1 G2]; [by apply list_elem_of_lookup_2 in Hg'|lia| |].
  - apply Forall_forall. intros i Hi. apply list_elem_of_In in Hi. rewrite forallb_forall in H6. apply H6 in Hi as [? ?]%andb_prop. lia.
  - split; [done|]. eapply Forall_impl; [exact G2|]. intros i. apply B.
Qed.
Lemma demo_step_ok r o : map table_config (batch_block_table (input_batch r)) = map table_config demo_tables -> so_scheduled_spec_decode_tokens o = ∅ ->
  NoDup (map fst (so_num_scheduled_tokens o)) -> so_total_num_scheduled_tokens o = sum_Z (map snd (so_num_scheduled_tokens o)) -> so_total_num_scheduled_tokens o <= 16 ->
  (forall x s t, (x, s) ∈ so_num_scheduled_tokens o -> told demo_cfg demo_model o (tracked r) x = Some t -> request_scheduled 16 r o x s t) ->
  step_ok demo_cfg demo_model 16 16 r o.
Proof.
  intros Ht Hspec H1 H2 H3 H4. split; try done.
  - intros g tb Hg. destruct (setting_table (input_batch_init (config (input_batch r)) demo_tables) (input_batch r) g tb) as (tb' & Hg' & Ec); [by split|done|].
    destruct (config_same _ _ Ec) as (C & _ & _ & _ & ES). apply list_elem_of_lookup_2, elem_of_cons in Hg' as [->|Hg']; [|by apply not_elem_of_nil in Hg'].
    split; [apply C; split; try done; by exists 4|]. rewrite <-ES. simpl. lia.
  - intros x l E. by rewrite Hspec in E.
Qed.
Lemma demo_step1 : step_ok demo_cfg demo_model 16 16 (w_runner demo_w0) demo_o1.
Proof.
  apply demo_step_ok; try done; [apply (bool_decide_unpack _); by vm_compute|]. intros x s t Hx Ht. apply demo_scheduled; [done..|].
  repeat (apply elem_of_cons in Hx as [[= -> ->]|Hx]); [..|by apply not_elem_of_nil in Hx]; injection Ht as <-; by vm_compute.
Qed.

(** The second step *)
Lemma demo_first : exists k, demo_step demo_o1 demo_w0 = Ret k demo_w1.
Proof.
  destruct (reach_steps _ _ _ _ _ _ _ _ _ demo_o1 demo_env demo_reach0 demo_output1 demo_step1) as (k & w & E & _).
  exists k. unfold demo_w1, demo_step. rewrite E. reflexivity.
Qed.
Definition demo_m1 (k : option Bookkeeping) (x : string) : option Tracked := extend_tracked (reported k x) <$> told demo_cfg demo_model demo_o1 (fun _ => None) x.
Lemma demo_reach1 : exists k, demo_step demo_o1 demo_w0 = Ret k demo_w1 /\ worker_reach demo_cfg demo_model 16 [] demo_sample 3 16 demo_w1 (demo_m1 k).
Proof. destruct demo_first as (k & E). exists k. split; [done|]. exact (reach_step _ _ _ _ _ _ _ _ _ _ _ _ demo_reach0 demo_output1 demo_step1 E). Qed.
Definition demo_tracked (id : string) (obj : Z) (toks out blocks : list Z) (c : Z) : Tracked :=
  mkTracked (demo_request id obj toks default_draw) None (Z.of_nat (length toks)) out [blocks] c.
Lemma demo_A : tracked (w_runner demo_w1) "A" = Some (demo_tracked "A" 1 [1; 2; 3; 4; 5] [] [1; 2] 0).
Proof. by vm_compute. Qed.
Lemma demo_B : tracked (w_runner demo_w1) "B" = Some (demo_tracked "B" 2 [6; 8] [9] [3] 0).
Proof. by vm_compute. Qed.
Lemma demo_tables1 : map table_config (batch_block_table (input_batch (w_runner demo_w1))) = map table_config demo_tables.
Proof. by vm_compute. Qed.
Section second.
Context (r : ModelRunner) (HA : tracked r "A" = Some (demo_tracked "A" 1 [1; 2; 3; 4; 5] [] [1; 2] 0))
  (HB : tracked r "B" = Some (demo_tracked "B" 2 [6; 8] [9] [3] 0)) (Ht : map table_config (batch_block_table (input_batch r)) = map table_config demo_tables).
Lemma second_output : output_ok demo_cfg demo_model 3 16 r demo_o2.
Proof.
  split.
  - done.
  - apply (bool_decide_unpack _). by vm_compute.
  - simpl. lia.
  - intros nr Hnr. by apply not_elem_of_nil in Hnr.
  - intros i id Hi. destruct i as [|[|i]]; [..|done]; apply (inj Some) in Hi; subst id; (split; [set_solver|]); do 3 eexists.
    + exists (demo_tracked "A" 1 [1; 2; 3; 4; 5] [] [1; 2] 0). split_and!; try done. by apply demo_fit.
    + exists (demo_tracked "B" 2 [6; 8] [9] [3] 0). split_and!; try done. by apply demo_fit.
Qed.
Lemma second_step : step_ok demo_cfg demo_model 16 16 r demo_o2.
Proof.
  apply demo_step_ok; try done; [apply (bool_decide_unpack _); by vm_compute|]. intros x s t Hx E. apply demo_scheduled; [done..|].
  repeat (apply elem_of_cons in Hx as [[= -> ->]|Hx]); [..|by apply not_elem_of_nil in Hx]; unfold told, told_all, told_news in E; simpl in E; rewrite ?HA, ?HB in E;
    injection E as <-; by vm_compute.
Qed.
End second.
Definition demo_output2 := second_output _ demo_A demo_B demo_tables1.
Definition demo_step2 := second_step _ demo_A demo_B demo_tables1.

(** ** The properties on the two steps *)

Lemma worker_mirrors_witness : exists k1 k w', demo_step demo_o1 demo_w0 = Ret k1 demo_w1 /\ demo_step demo_o2 demo_w1 = Ret k w' /\
  (forall x, tracked (w_runner w') x = extend_tracked (reported k x) <$> told demo_cfg demo_model demo_o2 (demo_m1 k1) x) /\ batch_shows (fun _ d _ => d = []) (w_runner w').
Proof.
  destruct demo_reach1 as (k1 & E1 & H1).
  destruct (worker_mirrors demo_cfg demo_model 16 [] demo_sample 3 16 demo_w1 (demo_m1 k1) demo_o2 demo_env H1 demo_output2 demo_step2) as (k & w' & E & G1 & G2 & _).
  exists k1, k, w'. split; [exact E1|]. split; [exact E|]. split; [exact G1|exact G2].
Defined.
Lemma inputs_exact_witness : exists inp w' i, execute_model demo_cfg demo_model 16 [] demo_o2 demo_w1 = Ret ToSample w' /\
  Z.of_nat (length (in_input_ids inp)) = 3 /\ request_inputs (batch_block_table (input_batch (w_runner w'))) inp i 2 (demo_tracked "A" 1 [1; 2; 3; 4; 5] [] [1; 2] 3) [].
Proof.
  destruct demo_reach1 as (k1 & E1 & H1).
  destruct (inputs_exact demo_cfg demo_model 16 [] demo_sample 3 16 demo_w1 (demo_m1 k1) demo_o2 demo_env H1 demo_output2 demo_step2) as (inp & w' & E & _ & El & H); [exact (fun H => eq_ind (so_total_num_scheduled_tokens demo_o2) (fun z => match z with 0 => False | _ => True end) I 0 H)|].
  assert (demo_m1 k1 "A" = Some (demo_tracked "A" 1 [1; 2; 3; 4; 5] [] [1; 2] 0)) as EA.
  { destruct (reach_between _ _ _ _ _ _ _ _ _ demo_env H1) as (_ & _ & Hm). rewrite <-(Hm "A"). exact demo_A. }
  destruct (H "A" 2 (demo_tracked "A" 1 [1; 2; 3; 4; 5] [] [1; 2] 3)) as (i & _ & Hi); [by constructor| |].
  - unfold told, told_all, told_news. simpl. rewrite EA. reflexivity.
  - exists inp, w', i. split; [exact E|]. split; [exact El|]. exact Hi.
Defined.
Lemma demo_inv1 : batch_inv 3 16 (clean (input_batch (w_runner demo_w1))).
Proof.
  destruct demo_reach1 as (k1 & E1 & H1). destruct (reach_between _ _ _ _ _ _ _ _ _ demo_env H1) as ([_ Hr] & _ & _).
  rewrite (clean_self _ (ri_builder _ _ _ _ Hr)). exact (ri_batch _ _ _ _ Hr).
Qed.
Lemma demo_ids1 : req_ids_ (input_batch (w_runner demo_w1)) = [Some "A"; Some "B"].
Proof. by vm_compute. Qed.
Lemma demo_computed1 : computed_ok (input_batch (w_runner demo_w1)).
Proof.
  assert (map_Forall (fun _ q => 0 <= cs_num_computed_tokens q) (mr_requests (w_runner demo_w1))) as Hq by (apply (bool_decide_unpack _); by vm_compute).
  destruct demo_reach1 as (k1 & E1 & H1). destruct (reach_between _ _ _ _ _ _ _ _ _ demo_env H1) as ([_ Hr] & _ & _). revert Hq Hr. generalize (w_runner demo_w1). intros r Hq Hr.
  intros x v rv Hv Hrv. destruct (ri_shows _ _ _ _ Hr x v Hv) as (q & out & d & sp & acc & G1 & G2 & G3 & _). subst v. injection Hrv as <-. exact (Hq x q G1).
Qed.
Definition demo_sched : gmap string Z := list_to_map (so_num_scheduled_tokens demo_o2).
Lemma reorder_sorts_witness : exists changed b', reorder_batch_to_split_decodes_and_prefills demo_sched 1 (input_batch (w_runner demo_w1)) = Ret changed b' /\
  (exists l, batch_regions demo_sched 1 b' = map Some l /\ StronglySorted Z.le l) /\ reorder_batch_to_split_decodes_and_prefills demo_sched 1 b' = Ret false b'.
Proof.
  destruct (reorder_sorts 3 16 demo_sched 1 (input_batch (w_runner demo_w1)) demo_inv1) as (changed & b' & E & _ & _ & _ & G & _ & E2).
  - intros i id Hi. unfold occupied in Hi. rewrite demo_ids1 in Hi. destruct i as [|[|i]]; [| |discriminate Hi]; injection Hi as <-; by eexists.
  - exact demo_computed1.
  - exists changed, b'. split; [exact E|]. split; [exact G|exact E2].
Defined.
Lemma tracked_state r x t : tracked r x = Some t -> exists q, mr_requests r !! x = Some q /\ cs_args q = t_args t.
Proof. unfold tracked. destruct (mr_requests r !! x) as [q|]; [|done]. simpl. destruct (outputs r !! _); [|done]. intros [= <-]. by exists q. Qed.
Lemma metadata_exact_witness : exists md, make_sampling_metadata (input_batch (w_runner demo_w1)) = inr md /\ sampled_with demo_batch md 1 default_draw.
Proof.
  destruct demo_reach1 as (k1 & E1 & H1). destruct (reach_between _ _ _ _ _ _ _ _ _ demo_env H1) as ([_ Hr] & _ & _).
  destruct (make_metadata_ok 3 16 _ demo_inv1) as [md Hmd]. exists md. split; [exact Hmd|].
  destruct (tracked_state _ _ _ demo_B) as (q & Hq & Ea). assert (request_draw q = Some default_draw) as Hd by (unfold request_draw; rewrite Ea; reflexivity).
  assert (config (input_batch (w_runner demo_w1)) = demo_batch) as Ec by (vm_compute; reflexivity).
  assert (InputBatch.req_id_to_index (input_batch (w_runner demo_w1)) !! "B" = Some 1%nat) as Ei by (vm_compute; reflexivity).
  pose proof (metadata_exact 3 16 _ (w_runner demo_w1) md "B" 1 q default_draw Hr) as H. rewrite Ec in H. exact (H eq_refl Hmd Ei Hq Hd).
Defined.
