(* ===== verification/WorkerFaults.v ===== *)
(** Runs of the worker in which a request does not get what it asks for: masks of allowed
    tokens that stay behind or are not exchanged, a pooling flag that is not moved, and draft
    tokens that are not entered. *)
From stdpp Require Import numbers gmap strings list sorting fin_maps.
From Stdlib Require Import ZArith QArith Lia.
From S2P Require Import Prelude Request SchedulerData BlockTable InputBatch ModelRunner ModelInputs WorkerRun WorkerSystem WorkerDemo.
Open Scope Z_scope.
Open Scope string_scope.

Definition small_batch : BatchConfig := mkBatchConfig 3 16 10 false false false.
Definition start : Worker := worker_init small_batch demo_tables.
Definition allowed_draw (l : list Z) : DrawParams := mkDraw 1 1 0 0 0 0 1 None None None (Some l) None.
Definition fresh (id : string) (obj : Z) (toks blocks : list Z) (d : DrawParams) : NewRequestData := mkNewRequestData (demo_request id obj toks d) [blocks] 0 None.
Definition scheduled_output (news : list NewRequestData) (cached : CachedRequestData) (nums : list (string * Z)) (drafts : gmap string (list Z)) (finished : gset string) : SchedulerOutput :=
  mkSchedulerOutput news cached nums (sum_Z (map snd nums)) drafts ∅ [0] ∅ finished [] false.
Definition cached_req (ids : list string) (computed outs : list Z) : CachedRequestData := mkCachedRequestData ids ∅ [] [] (map (fun _ => None) ids) computed outs.
(** The steps of a list of outputs; the last one without sampling. *)
Fixpoint run_steps (os : list SchedulerOutput) (w : Worker) : outcome Worker Executed :=
  match os with
  | [] => Ret EMPTY_MODEL_RUNNER_OUTPUT w
  | [o] => execute_model demo_cfg demo_model 16 [] o w
  | o :: os' => match demo_step o w with Ret _ w' => run_steps os' w' | Raise e w' => Raise e w' end
  end.
(** The row of the mask that a request is sampled with; true forbids a token. *)
Definition mask_of (w : Worker) (x : string) : option (list bool) :=
  i ← InputBatch.req_id_to_index (input_batch (w_runner w)) !! x; m ← md_allowed_token_ids_mask (sampling_metadata (input_batch (w_runner w))); m !! i.
Definition allows (m : option (list bool)) : list Z := omap (fun e => if (snd e : bool) then None else Some (Z.of_nat (fst e))) (imap pair (default [] m)).
Definition allowed_in (x : outcome Worker Executed) (id : string) : option (list Z) :=
  match x with Ret _ w => Some (allows (mask_of w id)) | Raise _ _ => None end.
Definition all_tokens : list Z := seqZ 0 10.

(** An exchange of rows duplicates a mask instead of exchanging two: a request that allows
    token 5 only, and is sampled so in its first step, is sampled with every token allowed once
    its row has been exchanged with that of a request without a restriction. *)
Theorem swap_duplicates_mask :
  let o1 := scheduled_output [fresh "A" 1 [1; 2; 3; 4; 5] [1; 2] default_draw; fresh "B" 2 [6; 8] [3] (allowed_draw [5])] no_cached [("A", 3); ("B", 2)] ∅ ∅ in
  let o2 := scheduled_output [] (cached_req ["A"; "B"] [3; 2] [0; 1]) [("A", 2); ("B", 1)] ∅ ∅ in
  allowed_in (run_steps [o1] start) "A" = Some all_tokens /\ allowed_in (run_steps [o1] start) "B" = Some [5] /\
  allowed_in (run_steps [o1; o2] start) "A" = Some all_tokens /\ allowed_in (run_steps [o1; o2] start) "B" = Some all_tokens.
Proof. vm_compute. split_and!; reflexivity. Qed.

(** A row that is vacated by a move keeps its mask: after A has finished and B, which
    allows token 5 only, has moved to A's row, a new request without a restriction in B's old
    row is sampled with B's mask. *)
Theorem condense_leaves_mask :
  let o1 := scheduled_output [fresh "A" 1 [1] [1] default_draw; fresh "B" 2 [6; 8] [3] (allowed_draw [5])] no_cached [("A", 1); ("B", 2)] ∅ ∅ in
  let o2 := scheduled_output [] (cached_req ["B"] [2] [1]) [("B", 1)] ∅ {["A"]} in
  let o3 := scheduled_output [fresh "C" 3 [7] [2] default_draw] (cached_req ["B"] [3] [2]) [("B", 1); ("C", 1)] ∅ ∅ in
  allowed_in (run_steps [o1; o2] start) "B" = Some [5] /\ allowed_in (run_steps [o1; o2; o3] start) "B" = Some [5] /\
  allowed_in (run_steps [o1; o2; o3] start) "C" = Some [5].
Proof. vm_compute. split_and!; reflexivity. Qed.

(** The tokens and positions that the model is given. *)
Definition given (x : outcome Worker Executed) : option (list Z * list Z * option (list Z)) :=
  match x with
  | Ret _ w => '(_, inp) ← execute_model_state w; Some (in_input_ids inp, in_positions inp, sd_draft_token_ids <$> in_spec_decode inp)
  | Raise _ _ => None
  end.
(** The draft tokens of a request that was left out of a step are not entered: while the
    request keeps its row the model is given its drafts, 21 and 22, to verify; after a step
    without it the row is made anew, the model is given what another request left in the row,
    and the sampler is told that these are the drafts. *)
Theorem readded_drafts_lost :
  let o1 := scheduled_output [fresh "A" 1 [1; 2] [1] default_draw; fresh "B" 2 [6; 8] [3] default_draw] no_cached [("A", 2); ("B", 2)] ∅ ∅ in
  let o2 := scheduled_output [] (cached_req ["B"] [2] [1]) [("B", 1)] ∅ ∅ in
  let o3 := scheduled_output [] (cached_req ["A"] [2] [1]) [("A", 3)] {["A" := [21; 22]]} ∅ in
  given (run_steps [o1; o3] start) = Some ([9; 21; 22], [2; 3; 4], Some [21; 22]) /\
  given (run_steps [o1; o2; o3] start) = Some ([9; 9; 0], [2; 3; 4], Some [9; 0]).
Proof. vm_compute. split_and!; reflexivity. Qed.
