(* ===== verification/Offload.v ===== *)
(** Offloading of KV blocks to host memory ([vllm/v1/kv_offload]): the host's block
    store ([backends/cpu.py]) and the managers that decide which blocks are kept there,
    by least recent use ([lru_manager.py]) or by adaptive replacement
    ([arc_manager.py]), behind one interface ([abstract.py]).

    An [OrderedDict] is a list of entries, the oldest first. The status of a block is a
    C structure, so a reference count has 32 bits and a block number 64; assigning wraps.
    [target_t1_size] is a float of the language, an IEEE binary64 number. A generator of
    events is run to its end by its only caller. *)
From stdpp Require Import gmap list.
From Stdlib Require Import ZArith Lia SpecFloat.
From S2P Require Import Prelude.
Open Scope Z_scope.

Notation BlockHash := (list Z).

(** ** Blocks and their store *)

Definition c_int (bits z : Z) : Z := (z + 2 ^ (bits - 1)) mod 2 ^ bits - 2 ^ (bits - 1).

Record BlockStatus := mkBlockStatus {
  ref_cnt : Z (** 32 bits; -1: not yet ready to be read *);
  block_id : Z (** 64 bits *)
}.
Definition new_block (id : Z) : BlockStatus := mkBlockStatus (-1) (c_int 64 id).
Definition is_ready (b : BlockStatus) : bool := 0 <=? ref_cnt b.
Definition set_ref_cnt (n : Z) (b : BlockStatus) : BlockStatus := mkBlockStatus (c_int 32 n) (block_id b).

Record CPUBackend := mkBackend {
  backend_block_size : Z;
  num_blocks : Z;
  num_allocated_blocks : Z;
  allocated_blocks_free_list : list Z
}.
Definition backend_init (block_size num_blocks : Z) : CPUBackend := mkBackend block_size num_blocks 0 [].
Definition get_num_free_blocks (s : CPUBackend) : Z :=
  Z.of_nat (length (allocated_blocks_free_list s)) + num_blocks s - num_allocated_blocks s.

Definition allocate_fresh : py CPUBackend BlockStatus :=
  let! s := py_get in
  do! py_modify (fun s => mkBackend (backend_block_size s) (num_blocks s) (num_allocated_blocks s + 1)
                            (allocated_blocks_free_list s));
  py_ret (new_block (num_allocated_blocks s)).
(** [pop()] takes the last element. *)
Definition allocate_reused : py CPUBackend BlockStatus :=
  let! s := py_get in
  let! id := py_unwrap IndexError (last (allocated_blocks_free_list s)) in
  do! py_modify (fun s => mkBackend (backend_block_size s) (num_blocks s) (num_allocated_blocks s)
                            (removelast (allocated_blocks_free_list s)));
  py_ret (new_block id).
Definition allocate_blocks (block_hashes : list BlockHash) : py CPUBackend (list BlockStatus) :=
  let! s := py_get in
  let n := Z.of_nat (length block_hashes) in
  let num_fresh_blocks := Z.min n (num_blocks s - num_allocated_blocks s) in
  let num_reused_blocks := n - num_fresh_blocks in
  do! py_assert (num_reused_blocks <=? Z.of_nat (length (allocated_blocks_free_list s)));
  let! fresh := py_map (fun _ => allocate_fresh) (seq 0 (Z.to_nat num_fresh_blocks)) in
  let! reused := py_map (fun _ => allocate_reused) (seq 0 (Z.to_nat num_reused_blocks)) in
  py_ret (fresh ++ reused).
Definition free_block (b : BlockStatus) : py CPUBackend unit :=
  py_modify (fun s => mkBackend (backend_block_size s) (num_blocks s) (num_allocated_blocks s)
                        (allocated_blocks_free_list s ++ [block_id b])).
(** [get_load_store_spec]: where the blocks are in host memory. *)
Definition get_load_store_spec (blocks : list BlockStatus) : list Z := map block_id blocks.

(** ** The interface of the managers *)

Record PrepareStoreOutput := mkStoreOutput {
  block_hashes_to_store : list BlockHash;
  store_spec : list Z;
  block_hashes_evicted : list BlockHash
}.
(** The medium is always CPU. *)
Record OffloadingEvent := mkOffloadingEvent {
  event_hashes : list BlockHash;
  event_block_size : Z;
  removed : bool
}.

Class OffloadingManager (M : Type) := {
  om_lookup : list BlockHash -> M -> nat;
  om_prepare_load : list BlockHash -> py M (list Z);
  om_touch : list BlockHash -> py M unit;
  om_complete_load : list BlockHash -> py M unit;
  om_prepare_store : list BlockHash -> py M (option PrepareStoreOutput);
  om_complete_store : list BlockHash -> bool -> py M unit;
  om_take_events : py M (list OffloadingEvent)
}.

Notation Blocks := (list (BlockHash * BlockStatus)).

(** [d.move_to_end(h)] of an entry that is there. *)
Definition to_end (h : BlockHash) (b : BlockStatus) (d : Blocks) : Blocks := dict_del h d ++ [(h, b)].
(** [self.events.append], when events are recorded. *)
Definition add_event (hashes : list BlockHash) (size : Z) (removed : bool) (events : option (list OffloadingEvent))
    : option (list OffloadingEvent) :=
  match hashes, events with
  | _ :: _, Some l => Some (l ++ [mkOffloadingEvent hashes size removed])
  | _, _ => events
  end.
(** The length of the longest prefix whose blocks can be read. *)
Fixpoint count_ready (get : BlockHash -> option BlockStatus) (hashes : list BlockHash) : nat :=
  match hashes with
  | [] => 0%nat
  | h :: hashes' => match get h with
                    | Some b => if is_ready b then S (count_ready get hashes') else 0%nat
                    | None => 0%nat
                    end
  end.

(** ** Least recently used *)

Record LRUOffloadingManager := mkLRU {
  lru_backend : CPUBackend;
  lru_blocks : Blocks;
  lru_events : option (list OffloadingEvent)
}.
Notation LRU := LRUOffloadingManager.
Definition lru_init (backend : CPUBackend) (enable_events : bool) : LRU :=
  mkLRU backend [] (if enable_events then Some [] else None).

Definition on_lru_backend {A} (op : py CPUBackend A) : py LRU A :=
  py_zoom lru_backend (fun b m => mkLRU b (lru_blocks m) (lru_events m)) op.
Definition set_lru_blocks (f : Blocks -> Blocks) : py LRU unit :=
  py_modify (fun m => mkLRU (lru_backend m) (f (lru_blocks m)) (lru_events m)).
Definition lru_event (hashes : list BlockHash) (removed : bool) : py LRU unit :=
  py_modify (fun m => mkLRU (lru_backend m) (lru_blocks m)
    (add_event hashes (backend_block_size (lru_backend m)) removed (lru_events m))).
Definition lru_block (h : BlockHash) : py LRU BlockStatus :=
  let! m := py_get in py_unwrap KeyError (dict_get h (lru_blocks m)).

Definition lru_lookup (block_hashes : list BlockHash) (m : LRU) : nat :=
  count_ready (fun h => dict_get h (lru_blocks m)) block_hashes.
Definition lru_prepare_load (block_hashes : list BlockHash) : py LRU (list Z) :=
  let! blocks := py_map (fun h =>
    let! b := lru_block h in
    do! py_assert (is_ready b);
    do! set_lru_blocks (dict_set h (set_ref_cnt (ref_cnt b + 1) b));
    py_ret b) block_hashes in
  py_ret (get_load_store_spec blocks).
Definition lru_touch (block_hashes : list BlockHash) : py LRU unit :=
  py_for (reverse block_hashes) (fun h =>
    let! m := py_get in
    match dict_get h (lru_blocks m) with
    | Some b => set_lru_blocks (to_end h b)
    | None => py_ret tt
    end).
Definition lru_complete_load (block_hashes : list BlockHash) : py LRU unit :=
  py_for block_hashes (fun h =>
    let! b := lru_block h in
    do! py_assert (0 <? ref_cnt b);
    set_lru_blocks (dict_set h (set_ref_cnt (ref_cnt b - 1) b))).

(** The oldest [n] blocks that nobody uses; None if there are fewer. *)
Fixpoint oldest_unused (n : nat) (d : Blocks) : option (list BlockHash) :=
  match n with
  | 0%nat => Some []
  | S n' =>
      match d with
      | [] => None
      | (h, b) :: d' => if ref_cnt b =? 0 then (cons h) <$> oldest_unused n' d' else oldest_unused n d'
      end
  end.
Definition lru_evict (h : BlockHash) : py LRU unit :=
  let! b := lru_block h in
  do! set_lru_blocks (dict_del h);
  on_lru_backend (free_block b).
Definition lru_prepare_store (block_hashes : list BlockHash) : py LRU (option PrepareStoreOutput) :=
  let! m := py_get in
  let to_store := List.filter (fun h => bool_decide (dict_get h (lru_blocks m) = None)) block_hashes in
  let num_blocks_to_evict := Z.of_nat (length to_store) - get_num_free_blocks (lru_backend m) in
  match oldest_unused (Z.to_nat num_blocks_to_evict) (lru_blocks m) with
  | None => py_ret None
  | Some to_evict =>
      do! py_for to_evict lru_evict;
      do! lru_event to_evict true;
      let! blocks := on_lru_backend (allocate_blocks to_store) in
      do! py_assert (Nat.eqb (length blocks) (length to_store));
      do! py_for (zip to_store blocks) (fun '(h, b) => set_lru_blocks (dict_set h b));
      py_ret (Some (mkStoreOutput to_store (get_load_store_spec blocks) to_evict))
  end.
(** One block of [complete_store]; the hash if the block has become readable. *)
Definition lru_complete_one (success : bool) (h : BlockHash) : py LRU (list BlockHash) :=
  let! b := lru_block h in
  if is_ready b then py_ret []
  else if success then do! set_lru_blocks (dict_set h (set_ref_cnt 0 b)); py_ret [h]
  else do! on_lru_backend (free_block b); do! set_lru_blocks (dict_del h); py_ret [].
Definition lru_complete_store (block_hashes : list BlockHash) (success : bool) : py LRU unit :=
  let! stored := py_map (lru_complete_one success) block_hashes in
  lru_event (concat stored) false.
Definition lru_take_events : py LRU (list OffloadingEvent) :=
  let! m := py_get in
  do! py_modify (fun m => mkLRU (lru_backend m) (lru_blocks m) (match lru_events m with Some _ => Some [] | None => None end));
  py_ret (default [] (lru_events m)).

#[export] Instance lru_manager : OffloadingManager LRU := {
  om_lookup := lru_lookup;
  om_prepare_load := lru_prepare_load;
  om_touch := lru_touch;
  om_complete_load := lru_complete_load;
  om_prepare_store := lru_prepare_store;
  om_complete_store := lru_complete_store;
  om_take_events := lru_take_events
}.

(** ** Adaptive replacement *)

(** Floats of the language. *)
Definition float_of (z : Z) : spec_float := binary_normalize 53 1024 z 0 false.
Definition float_div := SFdiv 53 1024.
Definition float_add := SFadd 53 1024.
Definition float_sub := SFsub 53 1024.
(** [min(a, b)] and [max(a, b)] keep [a] unless [b] is strictly smaller or larger. *)
Definition float_min (a b : spec_float) : spec_float := if SFltb b a then b else a.
Definition float_max (a b : spec_float) : spec_float := if SFltb a b then b else a.
(** [int(f)] *)
Definition float_int (f : spec_float) : exn + Z :=
  match f with
  | S754_zero _ => inr 0
  | S754_infinity _ => inl OverflowError
  | S754_nan => inl ValueError
  | S754_finite s m e =>
      let a := if 0 <=? e then Z.pos m * 2 ^ e else Z.pos m / 2 ^ (- e) in
      inr (if s then - a else a)
  end.

Record ARCOffloadingManager := mkARC {
  arc_backend : CPUBackend;
  target_t1_size : spec_float;
  t1 : Blocks;
  t2 : Blocks;
  b1 : list BlockHash;
  b2 : list BlockHash;
  arc_events : option (list OffloadingEvent);
  cache_capacity : Z
}.
Notation ARC := ARCOffloadingManager.
Definition arc_init (backend : CPUBackend) (enable_events : bool) : ARC :=
  mkARC backend (S754_zero false) [] [] [] [] (if enable_events then Some [] else None) (get_num_free_blocks backend).

Definition on_arc_backend {A} (op : py CPUBackend A) : py ARC A :=
  py_zoom arc_backend (fun b m => mkARC b (target_t1_size m) (t1 m) (t2 m) (b1 m) (b2 m) (arc_events m) (cache_capacity m)) op.
Definition set_target (t : spec_float) (m : ARC) : ARC :=
  mkARC (arc_backend m) t (t1 m) (t2 m) (b1 m) (b2 m) (arc_events m) (cache_capacity m).
Definition set_t1 (d : Blocks) (m : ARC) : ARC :=
  mkARC (arc_backend m) (target_t1_size m) d (t2 m) (b1 m) (b2 m) (arc_events m) (cache_capacity m).
Definition set_t2 (d : Blocks) (m : ARC) : ARC :=
  mkARC (arc_backend m) (target_t1_size m) (t1 m) d (b1 m) (b2 m) (arc_events m) (cache_capacity m).
Definition set_ghosts (l1 l2 : list BlockHash) (m : ARC) : ARC :=
  mkARC (arc_backend m) (target_t1_size m) (t1 m) (t2 m) l1 l2 (arc_events m) (cache_capacity m).
Definition arc_event (hashes : list BlockHash) (removed : bool) : py ARC unit :=
  py_modify (fun m => mkARC (arc_backend m) (target_t1_size m) (t1 m) (t2 m) (b1 m) (b2 m)
    (add_event hashes (backend_block_size (arc_backend m)) removed (arc_events m)) (cache_capacity m)).

(** [self.t1.get(h) or self.t2.get(h)] *)
Definition arc_get (h : BlockHash) (m : ARC) : option BlockStatus :=
  match dict_get h (t1 m) with Some b => Some b | None => dict_get h (t2 m) end.
(** The object found is written to, where it is. *)
Definition arc_write (h : BlockHash) (b : BlockStatus) (m : ARC) : ARC :=
  match dict_get h (t1 m) with
  | Some _ => set_t1 (dict_set h b (t1 m)) m
  | None => set_t2 (dict_set h b (t2 m)) m
  end.
(** Ghost lists: a key that is there keeps its place; [move_to_end]; [pop(h, None)]. *)
Definition ghost_add (h : BlockHash) (l : list BlockHash) : list BlockHash :=
  if decide (h ∈ l) then l else l ++ [h].
Definition ghost_del (h : BlockHash) (l : list BlockHash) : list BlockHash :=
  List.filter (fun x => negb (bool_decide (x = h))) l.

Definition arc_lookup (block_hashes : list BlockHash) (m : ARC) : nat :=
  count_ready (fun h => arc_get h m) block_hashes.
Definition arc_prepare_load (block_hashes : list BlockHash) : py ARC (list Z) :=
  let! blocks := py_map (fun h =>
    let! m := py_get in
    let! b := py_unwrap AssertionError (arc_get h m) in
    do! py_assert (is_ready b);
    do! py_modify (arc_write h (set_ref_cnt (ref_cnt b + 1) b));
    py_ret b) block_hashes in
  py_ret (get_load_store_spec blocks).

(** [delta]: the ratio of the lengths of two ghost lists, at least one. *)
Definition ghost_ratio (other own : list BlockHash) : spec_float :=
  float_max (float_of 1) (float_div (float_of (Z.of_nat (length other))) (float_of (Z.of_nat (length own)))).
Definition arc_touch_one (h : BlockHash) : py ARC unit :=
  let! m := py_get in
  match dict_get h (t1 m) with
  | Some b =>
      do! py_modify (fun m => set_t1 (dict_del h (t1 m)) m);
      if negb (is_ready b) then
        (** [move_to_end] of a key that was popped *)
        let! m := py_get in
        match dict_get h (t1 m) with
        | Some b => py_modify (fun m => set_t1 (to_end h b (t1 m)) m)
        | None => py_raise KeyError
        end
      else py_modify (fun m => set_t2 (dict_set h b (t2 m)) m)
  | None =>
      match dict_get h (t2 m) with
      | Some b => py_modify (fun m => set_t2 (to_end h b (t2 m)) m)
      | None =>
          if decide (h ∈ b1 m) then
            do! py_modify (fun m => set_target (float_min (float_add (target_t1_size m) (ghost_ratio (b2 m) (b1 m)))
                                                 (float_of (cache_capacity m))) m);
            py_modify (fun m => set_ghosts (ghost_del h (b1 m) ++ [h]) (b2 m) m)
          else if decide (h ∈ b2 m) then
            do! py_modify (fun m => set_target (float_max (float_sub (target_t1_size m) (ghost_ratio (b1 m) (b2 m)))
                                                 (float_of 0)) m);
            py_modify (fun m => set_ghosts (b1 m) (ghost_del h (b2 m) ++ [h]) m)
          else py_ret tt
      end
  end.
Definition arc_touch (block_hashes : list BlockHash) : py ARC unit := py_for (reverse block_hashes) arc_touch_one.
Definition arc_complete_load (block_hashes : list BlockHash) : py ARC unit :=
  py_for block_hashes (fun h =>
    let! m := py_get in
    let! b := py_unwrap AssertionError (arc_get h m) in
    do! py_assert (0 <? ref_cnt b);
    py_modify (arc_write h (set_ref_cnt (ref_cnt b - 1) b))).

(** The oldest block that nobody uses. *)
Definition first_unused (d : Blocks) : option (BlockHash * BlockStatus) := List.find (fun e => ref_cnt e.2 =? 0) d.
(** One turn of the eviction loop; None when nothing can be evicted. *)
Definition arc_evict : py ARC (option BlockHash) :=
  let! m := py_get in
  let! target := py_lift (float_int (target_t1_size m)) in
  let from_t1 := if target <=? Z.of_nat (length (t1 m)) then first_unused (t1 m) else None in
  match from_t1 with
  | Some (h, b) =>
      do! py_modify (fun m => set_t1 (dict_del h (t1 m)) m);
      do! py_modify (fun m => set_ghosts (ghost_add h (b1 m)) (b2 m) m);
      do! on_arc_backend (free_block b);
      py_ret (Some h)
  | None =>
      match first_unused (t2 m) with
      | Some (h, b) =>
          do! py_modify (fun m => set_t2 (dict_del h (t2 m)) m);
          do! py_modify (fun m => set_ghosts (b1 m) (ghost_add h (b2 m)) m);
          do! on_arc_backend (free_block b);
          py_ret (Some h)
      | None => py_ret None
      end
  end.
Fixpoint arc_evict_loop (num_blocks_to_evict : nat) : py ARC (option (list BlockHash)) :=
  match num_blocks_to_evict with
  | 0%nat => py_ret (Some [])
  | S n =>
      let! evicted := arc_evict in
      match evicted with
      | None => py_ret None
      | Some h => let! rest := arc_evict_loop n in py_ret ((cons h) <$> rest)
      end
  end.
(** The ghost lists are cut to the capacity, the oldest go first. *)
Definition trim_ghosts (m : ARC) : ARC :=
  let trim l := drop (Z.to_nat (Z.of_nat (length l) - cache_capacity m)) l in
  set_ghosts (trim (b1 m)) (trim (b2 m)) m.
Definition arc_prepare_store (block_hashes : list BlockHash) : py ARC (option PrepareStoreOutput) :=
  let! m := py_get in
  let to_store := List.filter (fun h => bool_decide (dict_get h (t1 m) = None) && bool_decide (dict_get h (t2 m) = None))
                    block_hashes in
  match to_store with
  | [] => py_ret (Some (mkStoreOutput [] (get_load_store_spec []) []))
  | _ =>
      let num_blocks_to_evict := Z.of_nat (length to_store) - get_num_free_blocks (arc_backend m) in
      let! evicted := arc_evict_loop (Z.to_nat num_blocks_to_evict) in
      match evicted with
      | None => py_ret None
      | Some to_evict =>
          do! py_modify trim_ghosts;
          do! arc_event to_evict true;
          let! blocks := on_arc_backend (allocate_blocks to_store) in
          do! py_assert (Nat.eqb (length blocks) (length to_store));
          do! py_for (zip to_store blocks) (fun '(h, b) =>
                do! py_modify (fun m => set_t1 (dict_set h b (t1 m)) m);
                py_modify (fun m => set_ghosts (ghost_del h (b1 m)) (ghost_del h (b2 m)) m));
          py_ret (Some (mkStoreOutput to_store (get_load_store_spec blocks) to_evict))
      end
  end.
Definition arc_complete_one (success : bool) (h : BlockHash) : py ARC (list BlockHash) :=
  let! m := py_get in
  if success then
    match arc_get h m with
    | Some b => if is_ready b then py_ret []
                else do! py_modify (arc_write h (set_ref_cnt 0 b)); py_ret [h]
    | None => py_ret []
    end
  else
    (** the entry is taken out, ready or not *)
    do! py_modify (fun m => match dict_get h (t1 m) with
                            | Some _ => set_t1 (dict_del h (t1 m)) m
                            | None => set_t2 (dict_del h (t2 m)) m
                            end);
    match arc_get h m with
    | Some b => if is_ready b then py_ret [] else do! on_arc_backend (free_block b); py_ret []
    | None => py_ret []
    end.
Definition arc_complete_store (block_hashes : list BlockHash) (success : bool) : py ARC unit :=
  let! stored := py_map (arc_complete_one success) block_hashes in
  arc_event (concat stored) false.
Definition arc_take_events : py ARC (list OffloadingEvent) :=
  let! m := py_get in
  do! py_modify (fun m => mkARC (arc_backend m) (target_t1_size m) (t1 m) (t2 m) (b1 m) (b2 m)
                   (match arc_events m with Some _ => Some [] | None => None end) (cache_capacity m));
  py_ret (default [] (arc_events m)).

#[export] Instance arc_manager : OffloadingManager ARC := {
  om_lookup := arc_lookup;
  om_prepare_load := arc_prepare_load;
  om_touch := arc_touch;
  om_complete_load := arc_complete_load;
  om_prepare_store := arc_prepare_store;
  om_complete_store := arc_complete_store;
  om_take_events := arc_take_events
}.
