(* ===== verification/OffloadProofs.v ===== *)
(** The managers of offloaded blocks ([Offload]): the accounting of host memory under the
    LRU policy, what is evicted and in which order, and what the ARC policy does with a
    block that is being stored. *)
From stdpp Require Import gmap gmultiset list.
From Stdlib Require Import ZArith Lia SpecFloat.
From S2P Require Import Prelude Offload.
Open Scope Z_scope.

(** ** Generic *)

Lemma wp_map {S A B} (f : A -> py S B) (I : list A -> list B -> S -> Prop) todo pre ys s :
  I pre ys s ->
  (forall pre' x post ys s, todo = pre' ++ x :: post -> I (pre ++ pre') ys s ->
     wp (f x) (fun y s' => I (pre ++ pre' ++ [x]) (ys ++ [y]) s') s) ->
  wp (py_map f todo) (fun ys' s' => I (pre ++ todo) (ys ++ ys') s') s.
Proof.
  revert pre ys s. induction todo as [|x todo IH]; intros pre ys s HI Hstep; simpl.
  - apply wp_ret. by rewrite !app_nil_r.
  - apply wp_bind. eapply wp_mono; [apply (Hstep [] x todo ys s); [done|by rewrite app_nil_r]|].
    simpl. intros y s1 HI1. apply wp_bind. eapply wp_mono.
    + apply (IH (pre ++ [x]) (ys ++ [y]) s1 HI1). intros pre' x' post ys' s2 -> HI2. rewrite <-!app_assoc in *. simpl in *.
      by apply (Hstep (x :: pre') x' post ys' s2).
    + simpl. intros ys' s2. rewrite <-!app_assoc. simpl. by intros; apply wp_ret.
Qed.

Lemma c_int_id bits z : 0 < bits -> - 2 ^ (bits - 1) <= z < 2 ^ (bits - 1) -> c_int bits z = z.
Proof.
  intros Hb Hz. unfold c_int. assert (2 ^ bits = 2 * 2 ^ (bits - 1)) as E.
  { rewrite <-Z.pow_succ_r by lia. f_equal. lia. }
  rewrite Z.mod_small; lia.
Qed.

(** ** The store *)

(** The blocks in use and the free ones are those handed out so far, each once. *)
Record store_ok (s : CPUBackend) (ids : list Z) : Prop := {
  so_ids : ids ++ allocated_blocks_free_list s ≡ₚ seqZ 0 (num_allocated_blocks s);
  so_allocated : 0 <= num_allocated_blocks s <= num_blocks s;
  so_size : num_blocks s <= 2 ^ 63
}.
Definition same_store (s s' : CPUBackend) : Prop :=
  backend_block_size s' = backend_block_size s /\ num_blocks s' = num_blocks s.

Lemma store_perm s ids ids' : ids ≡ₚ ids' -> store_ok s ids -> store_ok s ids'.
Proof. intros HP [H1 H2 H3]. split; [by rewrite <-HP|done|done]. Qed.
Lemma store_free s ids : store_ok s ids -> get_num_free_blocks s = num_blocks s - Z.of_nat (length ids).
Proof.
  intros [H1%Permutation_length H2 _]. rewrite length_app, length_seqZ in H1. unfold get_num_free_blocks. lia.
Qed.
Lemma store_in_range s ids id : store_ok s ids -> id ∈ ids -> 0 <= id < num_blocks s.
Proof.
  intros [H1 H2 _] Hid. assert (id ∈ seqZ 0 (num_allocated_blocks s)) as Hin%elem_of_seqZ; [|lia].
  rewrite <-H1. apply elem_of_app. by left.
Qed.
Lemma store_nodup s ids : store_ok s ids -> NoDup ids.
Proof.
  intros [H1 _ _]. assert (NoDup (ids ++ allocated_blocks_free_list s)) as [? _]%NoDup_app; [|done].
  rewrite H1. apply NoDup_seqZ.
Qed.
Lemma free_ok s ids b : store_ok s (block_id b :: ids) ->
  wp (free_block b) (fun _ s' => store_ok s' ids /\ same_store s s') s.
Proof.
  intros [H1 H2 H3]. unfold free_block. wp_step. split; [|done]. split; simpl; [|done|done].
  rewrite <-H1. by rewrite app_assoc, Permutation_app_comm.
Qed.

Lemma fresh_ok s ids : store_ok s ids -> num_allocated_blocks s < num_blocks s ->
  wp allocate_fresh (fun b s' => store_ok s' (ids ++ [block_id b]) /\ same_store s s' /\ ref_cnt b = -1 /\
    num_allocated_blocks s' = num_allocated_blocks s + 1 /\
    allocated_blocks_free_list s' = allocated_blocks_free_list s) s.
Proof.
  intros [H1 H2 H3] Hlt. unfold allocate_fresh, new_block. do 4 wp_step. split_and!; try done.
  split; simpl; [|lia|done]. rewrite c_int_id by lia.
  rewrite <-app_assoc, (Permutation_app_comm [_]), app_assoc, H1, seqZ_app by lia. done.
Qed.
Lemma reused_ok s ids : store_ok s ids -> allocated_blocks_free_list s <> [] ->
  wp allocate_reused (fun b s' => store_ok s' (ids ++ [block_id b]) /\ same_store s s' /\ ref_cnt b = -1 /\
    S (length (allocated_blocks_free_list s')) = length (allocated_blocks_free_list s)) s.
Proof.
  intros Hs Hl. unfold allocate_reused, new_block. wp_step. wp_step.
  destruct (exists_last Hl) as (l & x & E). wp_step. rewrite E, last_snoc. do 4 wp_step. simpl. rewrite E, removelast_last.
  assert (0 <= x < num_allocated_blocks s) as Hx.
  { assert (x ∈ seqZ 0 (num_allocated_blocks s)) as Hin%elem_of_seqZ; [|lia]. rewrite <-(so_ids _ _ Hs), E. set_solver. }
  destruct Hs as [H1 H2 H3]. split_and!; try done; [|rewrite length_app; simpl; lia].
  split; simpl; [|done|done]. rewrite c_int_id by lia. rewrite <-H1, E, <-app_assoc. by rewrite (Permutation_app_comm [x]).
Qed.

Lemma host_allocate_ok s ids hashes : store_ok s ids -> Z.of_nat (length hashes) <= get_num_free_blocks s ->
  wp (allocate_blocks hashes) (fun bs s' => length bs = length hashes /\ Forall (fun b => ref_cnt b = -1) bs /\
    store_ok s' (ids ++ map block_id bs) /\ same_store s s') s.
Proof.
  intros Hs Hfree. unfold allocate_blocks. wp_step. wp_step. set (n := Z.of_nat (length hashes)).
  set (fresh := Z.min n _). pose proof (so_allocated _ _ Hs) as HA. unfold get_num_free_blocks in Hfree.
  wp_step. wp_step. wp_step. eapply wp_mono.
  { apply (wp_map _ (fun pre bs s' => store_ok s' (ids ++ map block_id bs) /\ same_store s s' /\
      Forall (fun b => ref_cnt b = -1) bs /\ length bs = length pre /\
      num_allocated_blocks s' = num_allocated_blocks s + Z.of_nat (length pre) /\
      allocated_blocks_free_list s' = allocated_blocks_free_list s) _ [] []).
    - rewrite app_nil_r. split_and!; try done. simpl. lia.
    - simpl. intros pre x post bs s1 E (I1 & I2 & I3 & I4 & I5 & I6). apply (f_equal length) in E.
      rewrite length_seq, length_app in E. simpl in E.
      destruct I2 as [I2 I2']. eapply wp_mono; [apply (fresh_ok s1 _ I1); lia|].
      intros b s2 (F1 & [F2 F2'] & F3 & F4 & F5). rewrite !length_app, map_app, app_assoc. simpl.
      split_and!; [done|split; congruence|by apply Forall_app; repeat constructor|lia|lia|congruence]. }
  simpl. intros bs s1 (I1 & I2 & I3 & I4 & I5 & I6). rewrite length_seq in *. wp_step. eapply wp_mono.
  { apply (wp_map _ (fun pre bs' s' => store_ok s' (ids ++ map block_id (bs ++ bs')) /\ same_store s s' /\
      Forall (fun b => ref_cnt b = -1) (bs ++ bs') /\ length bs' = length pre /\
      (length (allocated_blocks_free_list s') + length pre)%nat = length (allocated_blocks_free_list s)) _ [] []).
    - rewrite app_nil_r. split_and!; try done. simpl. rewrite I6. lia.
    - simpl. intros pre x post bs' s2 E (J1 & J2 & J3 & J4 & J5). apply (f_equal length) in E.
      rewrite length_seq, length_app in E. simpl in E.
      eapply wp_mono; [apply (reused_ok s2 _ J1)|].
      { intros E0. rewrite E0 in J5. simpl in J5. lia. }
      destruct J2 as [J2 J2']. intros b s3 (F1 & [F2 F2'] & F3 & F4). rewrite (app_assoc bs), map_app, app_assoc, !length_app. simpl.
      split_and!; [done|split; congruence|by apply Forall_app; repeat constructor|lia|lia]. }
  simpl. intros bs' s2 (J1 & J2 & J3 & J4 & J5). rewrite length_seq in J4. wp_step. split_and!; try done. rewrite length_app. lia.
Qed.

(** ** The LRU manager *)

(** Where a block is in host memory. *)
Definition location (m : LRUOffloadingManager) (h : BlockHash) : option Z := block_id <$> dict_get h (lru_blocks m).
Definition ids_of (d : Blocks) : list Z := map (fun e => block_id e.2) d.

(** [loads]: the loads in progress, with multiplicity; [stores]: the blocks being stored. *)
Record lru_inv (m : LRUOffloadingManager) (loads : gmultiset BlockHash) (stores : gset BlockHash) : Prop := {
  li_keys : NoDup (lru_blocks m).*1;
  li_store : store_ok (lru_backend m) (ids_of (lru_blocks m));
  li_status : forall h b, (h, b) ∈ lru_blocks m ->
    ref_cnt b = if decide (h ∈ stores) then -1 else Z.of_nat (multiplicity h loads);
  li_stores : forall h, h ∈ stores -> h ∈ (lru_blocks m).*1;
  li_loads : forall h, h ∈ loads -> h ∈ (lru_blocks m).*1 /\ h ∉ stores;
  li_small : forall h, Z.of_nat (multiplicity h loads) < 2 ^ 31
}.
(** Entries keep their order and their places. *)
Definition same_places (m m' : LRUOffloadingManager) : Prop :=
  (lru_blocks m').*1 = (lru_blocks m).*1 /\ (forall h, location m' h = location m h) /\
  lru_backend m' = lru_backend m /\ lru_events m' = lru_events m.

#[export] Instance same_places_preorder : PreOrder same_places.
Proof.
  split; [by intros m|]. intros m1 m2 m3 (A1 & A2 & A3 & A4) (B1 & B2 & B3 & B4).
  split_and!; [congruence|intros h; by rewrite B2, A2|congruence|congruence].
Qed.

Lemma lru_present m loads stores h : lru_inv m loads stores -> h ∈ (lru_blocks m).*1 ->
  exists b, dict_get h (lru_blocks m) = Some b /\ (h, b) ∈ lru_blocks m.
Proof.
  intros HI Hh. apply dict_get_some in Hh as [b Hb]. exists b. split; [done|]. by apply dict_get_elem.
Qed.
(** A block can be read exactly when it is there and not being stored. *)
Lemma lru_ready m loads stores h b : lru_inv m loads stores -> (h, b) ∈ lru_blocks m ->
  is_ready b = bool_decide (h ∉ stores).
Proof.
  intros HI Hb. unfold is_ready. rewrite (li_status _ _ _ HI _ _ Hb). symmetry.
  case_decide; [by rewrite bool_decide_false by tauto|rewrite bool_decide_true by done]. symmetry. apply Z.leb_le. lia.
Qed.

Lemma ids_set h b b' d : NoDup d.*1 -> dict_get h d = Some b -> block_id b' = block_id b ->
  ids_of (dict_set h b' d) ≡ₚ ids_of d.
Proof.
  intros Hnd Hb E. pose proof (dict_get_elem _ _ _ Hb) as Hin.
  assert (h ∈ d.*1) as Hh by (change h with (h, b).1; by apply list_elem_of_fmap_2).
  unfold ids_of. rewrite (dict_set_del _ _ _ Hnd Hh). rewrite (dict_del_perm _ _ _ Hnd Hin) at 2. simpl. by rewrite E.
Qed.

(** The count of one block is written. *)
Lemma lru_write m loads stores loads' stores' h b n :
  lru_inv m loads stores -> dict_get h (lru_blocks m) = Some b -> - 2 ^ 31 <= n < 2 ^ 31 ->
  n = (if decide (h ∈ stores') then -1 else Z.of_nat (multiplicity h loads')) ->
  (h ∈ loads' -> h ∉ stores') ->
  (forall h', h' <> h -> (h' ∈ stores' <-> h' ∈ stores) /\ multiplicity h' loads' = multiplicity h' loads) ->
  wp (set_lru_blocks (dict_set h (set_ref_cnt n b)))
     (fun _ m' => lru_inv m' loads' stores' /\ same_places m m' /\ dict_get h (lru_blocks m') = Some (set_ref_cnt n b)) m.
Proof.
  intros [K1 K2 K3 K4 K5 K6] Hb Hn En Hex Hoth. unfold set_lru_blocks. wp_step. simpl.
  assert (h ∈ (lru_blocks m).*1) as Hh by (apply dict_get_some; by eexists).
  set (b' := set_ref_cnt n b). assert ((dict_set h b' (lru_blocks m)).*1 = (lru_blocks m).*1) as Ek by by apply dict_set_keys.
  split_and!; [split; simpl; rewrite ?Ek; try done| |by rewrite dict_get_set, decide_True].
  - eapply store_perm; [|done]. symmetry. by eapply ids_set.
  - intros h1 b1 Hin%(dict_get_in _ _ _ ltac:(by rewrite Ek)). rewrite dict_get_set in Hin. case_decide as E.
    + subst h1. injection Hin as <-. simpl. by rewrite c_int_id by lia.
    + apply dict_get_elem in Hin. rewrite (K3 _ _ Hin). destruct (Hoth h1 E) as [Hs ->].
      destruct (decide (h1 ∈ stores)), (decide (h1 ∈ stores')); tauto || done.
  - intros h1 Hh1. destruct (decide (h1 = h)) as [->|E]; [done|]. apply K4. by apply Hoth.
  - intros h1 Hh1. destruct (decide (h1 = h)) as [->|E]; [by split; [|apply Hex]|]. destruct (Hoth h1 E) as [Hs Hm].
    rewrite elem_of_multiplicity, Hm, <-elem_of_multiplicity in Hh1. apply K5 in Hh1 as [? ?]. by rewrite Hs.
  - intros h1. destruct (decide (h1 = h)) as [->|E]; [|by rewrite (proj2 (Hoth h1 E))].
    destruct (decide (h ∈ stores')) as [Hs|Hs]; [|lia].
    destruct (decide (h ∈ loads')) as [Hl|Hl]; [by destruct (Hex Hl)|]. apply not_elem_of_multiplicity in Hl. rewrite Hl. lia.
  - split; [done|]. split; [|done]. intros h1. unfold location. simpl. rewrite dict_get_set. destruct (decide (h1 = h)) as [->|]; [by rewrite Hb|done].
Qed.

Lemma lru_block_ok m h b (Q : BlockStatus -> LRUOffloadingManager -> Prop) :
  dict_get h (lru_blocks m) = Some b -> Q b m -> wp (lru_block h) Q m.
Proof. intros Hb HQ. unfold lru_block. by wp_run. Qed.

(** Loading: the blocks named are protected, and their places are returned. *)
Lemma lru_prepare_load_ok m loads stores hs :
  lru_inv m loads stores -> (forall h, h ∈ hs -> h ∈ (lru_blocks m).*1 /\ h ∉ stores) ->
  (forall h, Z.of_nat (multiplicity h (loads ⊎ list_to_set_disj hs)) < 2 ^ 31) ->
  wp (lru_prepare_load hs) (fun spec m' => lru_inv m' (loads ⊎ list_to_set_disj hs) stores /\ same_places m m' /\
    map Some spec = map (location m) hs) m.
Proof.
  intros HI Hhs Hsmall. unfold lru_prepare_load. wp_step. eapply wp_mono.
  { apply (wp_map _ (fun pre bs m' => lru_inv m' (loads ⊎ list_to_set_disj pre) stores /\ same_places m m' /\
      map (fun b => Some (block_id b)) bs = map (location m) pre) hs [] []).
    - split_and!; [|done|done]. by rewrite list_to_set_disj_nil, (right_id_L _ _).
    - simpl. intros pre h post bs m1 E (I1 & I2 & I3). destruct (Hhs h) as [Hk Hs]; [rewrite E; set_solver|].
      pose proof I2 as (Ek & Eloc & _). rewrite <-Ek in Hk. destruct (lru_present _ _ _ _ I1 Hk) as (b & Hb & Hin).
      pose proof (Hsmall h) as Hh. rewrite E, list_to_set_disj_app, list_to_set_disj_cons, !multiplicity_disj_union,
        multiplicity_singleton_eq in Hh.
      wp_step. eapply lru_block_ok; [done|]. wp_step. apply wp_assert.
      { rewrite (lru_ready _ _ _ _ _ I1 Hin). by apply bool_decide_true. }
      pose proof (li_status _ _ _ I1 _ _ Hin) as Hr. rewrite decide_False, multiplicity_disj_union in Hr by done.
      wp_step. eapply wp_mono.
      { apply (lru_write m1 _ stores (loads ⊎ list_to_set_disj (pre ++ [h])) stores h b _ I1 Hb).
        - rewrite Hr. lia.
        - rewrite decide_False by done. rewrite Hr, list_to_set_disj_app, !multiplicity_disj_union. simpl.
          rewrite multiplicity_disj_union, multiplicity_singleton_eq, multiplicity_empty. lia.
        - done.
        - intros h' Hne. split; [done|]. rewrite list_to_set_disj_app, !multiplicity_disj_union. simpl.
          rewrite multiplicity_disj_union, multiplicity_singleton_ne, multiplicity_empty by done. lia. }
      intros [] m2 (J1 & J2 & _). wp_step. split_and!; [done|by etrans|]. rewrite !map_app, I3. simpl. do 2 f_equal.
      rewrite <-Eloc. unfold location. by rewrite Hb. }
  simpl. intros bs m' (I1 & I2 & I3). wp_step. split_and!; [done|done|]. unfold get_load_store_spec. by rewrite map_map.
Qed.

Lemma lru_complete_load_ok m loads stores hs :
  lru_inv m loads stores -> list_to_set_disj hs ⊆ loads ->
  wp (lru_complete_load hs) (fun _ m' => lru_inv m' (loads ∖ list_to_set_disj hs) stores /\ same_places m m') m.
Proof.
  intros HI Hhs. unfold lru_complete_load. eapply wp_mono.
  { apply (wp_for _ (fun pre m' => lru_inv m' (loads ∖ list_to_set_disj pre) stores /\ same_places m m') hs []).
    - split; [|done]. replace (loads ∖ list_to_set_disj []) with loads; [done|]. apply gmultiset_eq. intros x.
      rewrite multiplicity_difference, list_to_set_disj_nil, multiplicity_empty. lia.
    - simpl. intros pre h post m1 E (I1 & I2). pose proof I2 as (Ek & _).
      assert (multiplicity h (list_to_set_disj pre) < multiplicity h loads)%nat as Hlt.
      { pose proof (Hhs h) as Hh. rewrite E, list_to_set_disj_app, list_to_set_disj_cons, !multiplicity_disj_union,
          multiplicity_singleton_eq in Hh. lia. }
      destruct (li_loads _ _ _ HI h) as [Hk Hs]; [apply elem_of_multiplicity; lia|].
      rewrite <-Ek in Hk. destruct (lru_present _ _ _ _ I1 Hk) as (b & Hb & Hin).
      pose proof (li_status _ _ _ I1 _ _ Hin) as Hr. rewrite decide_False, multiplicity_difference in Hr by done.
      pose proof (li_small _ _ _ HI h) as Hm.
      wp_step. eapply lru_block_ok; [done|]. wp_step. wp_step. eapply wp_mono.
      { apply (lru_write m1 _ stores (loads ∖ list_to_set_disj (pre ++ [h])) stores h b _ I1 Hb).
        - rewrite Hr. lia.
        - rewrite decide_False by done. rewrite Hr, list_to_set_disj_app, multiplicity_difference, !multiplicity_disj_union. simpl.
          rewrite multiplicity_disj_union, multiplicity_singleton_eq, multiplicity_empty. lia.
        - done.
        - intros h' Hne. split; [done|]. rewrite list_to_set_disj_app, !multiplicity_difference, !multiplicity_disj_union. simpl.
          rewrite multiplicity_disj_union, multiplicity_singleton_ne, multiplicity_empty by done. lia. }
      intros [] m2 (J1 & J2 & _). split; [done|by etrans]. }
  done.
Qed.

(** *** Order *)

Definition without (hs : list BlockHash) (d : Blocks) : Blocks := List.filter (fun e => bool_decide (e.1 ∉ hs)) d.
(** The entries of the hashes that are there. *)
Definition entries (hs : list BlockHash) (d : Blocks) : Blocks := omap (fun h => pair h <$> dict_get h d) hs.

Lemma dict_get_app (h : BlockHash) (d d' : Blocks) :
  dict_get h (d ++ d') = match dict_get h d with Some b => Some b | None => dict_get h d' end.
Proof. induction d as [|[x b] d IH]; [done|]. simpl. by case_decide. Qed.
Lemma dict_get_without h hs d : dict_get h (without hs d) = if decide (h ∈ hs) then None else dict_get h d.
Proof.
  unfold without. induction d as [|[x b] d IH]; [by case_decide|].
  change (List.filter ?f ((x, b) :: d)) with (if f (x, b) then (x, b) :: List.filter f d else List.filter f d). cbn [fst].
  destruct (decide (x ∈ hs)) as [Hx|Hx].
  - rewrite bool_decide_false by tauto. rewrite IH. destruct (decide (h ∈ hs)) as [|Hh]; [done|].
    simpl. rewrite decide_False by congruence. done.
  - rewrite bool_decide_true by done. simpl. rewrite IH. destruct (decide (x = h)) as [->|]; [by rewrite decide_False|done].
Qed.
Lemma dict_del_app (h : BlockHash) (d d' : Blocks) : dict_del h (d ++ d') = dict_del h d ++ dict_del h d'.
Proof. apply List.filter_app. Qed.
Lemma dict_del_without h hs d : dict_del h (without hs d) = without (hs ++ [h]) d.
Proof.
  unfold dict_del, without. rewrite <-filter_andb. apply List.filter_ext. intros [x b]. simpl.
  destruct (decide (x = h)) as [->|]; [rewrite (bool_decide_true (h = h)) by done|rewrite (bool_decide_false (x = h)) by done].
  - rewrite andb_false_r. symmetry. apply bool_decide_false. set_solver.
  - rewrite andb_true_r. apply bool_decide_ext. set_solver.
Qed.
Lemma without_nil d : without [] d = d.
Proof. unfold without. apply List.forallb_filter_id, forallb_forall. intros e _. apply bool_decide_true. set_solver. Qed.
Lemma without_in hs d e : e ∈ without hs d <-> e ∈ d /\ e.1 ∉ hs.
Proof. unfold without. rewrite !list_elem_of_In, filter_In, bool_decide_eq_true, list_elem_of_In. done. Qed.
Lemma entries_keys hs d h : h ∈ (entries hs d).*1 -> h ∈ hs.
Proof.
  intros ([x b] & -> & Hin)%list_elem_of_fmap. unfold entries in Hin. apply list_elem_of_omap in Hin as (y & Hy & Hb).
  destruct (dict_get y d); simplify_eq/=. done.
Qed.

Lemma entries_snoc hs h d : entries (hs ++ [h]) d = entries hs d ++ match dict_get h d with Some b => [(h, b)] | None => [] end.
Proof. unfold entries. rewrite omap_app. simpl. by destruct (dict_get h d). Qed.

Lemma lru_touch_order m hs : NoDup hs ->
  wp (lru_touch hs) (fun _ m' => lru_blocks m' = without hs (lru_blocks m) ++ entries (reverse hs) (lru_blocks m) /\
    lru_backend m' = lru_backend m /\ lru_events m' = lru_events m) m.
Proof.
  intros Hnd. unfold lru_touch. eapply wp_mono.
  { apply (wp_for _ (fun pre m' => lru_blocks m' = without pre (lru_blocks m) ++ entries pre (lru_blocks m) /\
      lru_backend m' = lru_backend m /\ lru_events m' = lru_events m) (reverse hs) []).
    - rewrite without_nil. unfold entries. simpl. by rewrite app_nil_r.
    - simpl. intros pre h post m1 E (I1 & I2 & I3). assert (h ∉ pre) as Hh.
      { apply NoDup_reverse in Hnd. rewrite E in Hnd. apply NoDup_app in Hnd as (_ & Hd & _). intros Hp. destruct (Hd h Hp). left. }
      assert (h ∉ (entries pre (lru_blocks m)).*1) as He by (by intros ?%entries_keys).
      wp_step. wp_step. rewrite I1, dict_get_app, dict_get_without, (decide_False (P := h ∈ pre)) by done.
      rewrite entries_snoc. destruct (dict_get h (lru_blocks m)) as [b|] eqn:Hb.
      + unfold set_lru_blocks. wp_step. simpl. split_and!; [|done|done]. unfold to_end. rewrite I1, dict_del_app, dict_del_without.
        by rewrite (dict_del_absent h (entries pre _)), app_assoc by done.
      + rewrite (proj2 (dict_get_none _ _) He). wp_step. split_and!; [|done|done]. simpl. rewrite app_nil_r, I1. f_equal.
        rewrite <-dict_del_without. symmetry. apply dict_del_absent, dict_get_none. by rewrite dict_get_without, Hb, decide_False. }
  simpl. intros [] m' (I1 & I2 & I3). split_and!; [|done|done]. rewrite I1. f_equal. unfold without. apply List.filter_ext.
  intros e. apply bool_decide_ext. set_solver.
Qed.
Lemma filter_keys_nodup f (d : Blocks) : NoDup d.*1 -> NoDup (List.filter f d).*1.
Proof.
  induction d as [|[x v] d IH]; [done|]. simpl. intros [Hx Hnd]%NoDup_cons. destruct (f (x, v)); [|by apply IH].
  simpl. apply NoDup_cons. split; [|by apply IH]. intros ([y w] & -> & Hin)%list_elem_of_fmap.
  rewrite list_elem_of_In, filter_In, <-list_elem_of_In in Hin. destruct Hin as [Hin _]. destruct Hx.
  change y with (y, w).1. by apply list_elem_of_fmap_2.
Qed.
Lemma touch_perm hs d : NoDup hs -> NoDup d.*1 -> without hs d ++ entries (reverse hs) d ≡ₚ d.
Proof.
  intros Hhs. unfold entries. rewrite (reverse_Permutation hs). fold (entries hs d). induction hs as [|h hs IH]; intros Hnd.
  { rewrite without_nil. by rewrite app_nil_r. }
  apply NoDup_cons in Hhs as [Hh Hhs]. rewrite <-(IH Hhs Hnd) at 3. clear IH.
  assert (without (h :: hs) d = dict_del h (without hs d)) as ->.
  { rewrite dict_del_without. unfold without. apply List.filter_ext. intros e. apply bool_decide_ext. set_solver. }
  unfold entries. simpl. destruct (dict_get h d) as [b|] eqn:Hb; simpl.
  - assert (NoDup (without hs d).*1) as Hw.
    { by apply filter_keys_nodup. }
    assert ((h, b) ∈ without hs d) as Hin by (apply without_in; split; [by apply dict_get_elem|done]).
    rewrite (dict_del_perm _ _ _ Hw Hin) at 2. by rewrite <-Permutation_middle.
  - rewrite dict_del_absent; [done|]. apply dict_get_none. rewrite dict_get_without, Hb. by case_decide.
Qed.
Lemma lru_touch_ok m loads stores hs : NoDup hs -> lru_inv m loads stores -> 
  wp (lru_touch hs) (fun _ m' => lru_inv m' loads stores /\ lru_blocks m' ≡ₚ lru_blocks m /\
    lru_blocks m' = without hs (lru_blocks m) ++ entries (reverse hs) (lru_blocks m)) m.
Proof.
  intros Hnd HI. eapply wp_mono; [by apply lru_touch_order|]. intros [] m' (E1 & E2 & _).
  assert (lru_blocks m' ≡ₚ lru_blocks m) as HP.
  { rewrite E1. apply touch_perm; [done|apply HI]. }
  split_and!; [|done|done]. destruct HI as [K1 K2 K3 K4 K5 K6]. split; rewrite ?E2; [by rewrite HP| | | | |done].
  - eapply store_perm; [|done]. unfold ids_of. by rewrite HP.
  - intros h b. rewrite HP. apply K3.
  - intros h Hh. rewrite HP. by apply K4.
  - intros h Hh. rewrite HP. by apply K5.
Qed.

(** *** Removing an entry *)

Lemma lru_drop_ok m loads stores h b : lru_inv m loads stores -> dict_get h (lru_blocks m) = Some b -> h ∉ loads ->
  wp (set_lru_blocks (dict_del h)) (fun _ m1 => wp (on_lru_backend (free_block b)) (fun _ m' =>
    lru_inv m' loads (stores ∖ {[h]}) /\ lru_blocks m' = dict_del h (lru_blocks m) /\
    same_store (lru_backend m) (lru_backend m') /\ lru_events m' = lru_events m) m1) m.
Proof.
  intros [K1 K2 K3 K4 K5 K6] Hb Hl. unfold set_lru_blocks. wp_step. unfold on_lru_backend. apply wp_zoom. simpl.
  pose proof (dict_del_perm _ _ _ K1 (dict_get_elem _ _ _ Hb)) as HP.
  assert (NoDup (h :: (dict_del h (lru_blocks m)).*1)) as [Hh Hnd]%NoDup_cons by (rewrite HP in K1; done).
  eapply wp_mono.
  { apply (free_ok _ (ids_of (dict_del h (lru_blocks m)))). eapply store_perm; [|done]. unfold ids_of. by rewrite HP at 1. }
  intros [] s' (S1 & S2). split_and!; [|done|done|done]. split; simpl; try done.
  - intros h1 b1 [Hin Hne]%dict_del_in. simpl in Hne. rewrite (K3 _ _ Hin).
    destruct (decide (h1 ∈ stores)), (decide (h1 ∈ stores ∖ {[h]})); set_solver.
  - intros h1 [Hin Hne]%elem_of_difference. apply K4 in Hin. rewrite HP in Hin. set_solver.
  - intros h1 Hin. destruct (K5 _ Hin) as [Hk Hs]. split; [|set_solver]. rewrite HP in Hk. apply elem_of_cons in Hk as [->|]; done.
Qed.

Definition unused (d : Blocks) : list BlockHash := (List.filter (fun e => ref_cnt e.2 =? 0) d).*1.
Lemma oldest_unused_spec n d :
  oldest_unused n d = if (n <=? length (unused d))%nat then Some (take n (unused d)) else None.
Proof.
  revert n. induction d as [|[h b] d IH]; intros [|n]; try done.
  unfold unused in *. simpl. destruct (ref_cnt b =? 0); simpl; rewrite IH; [by destruct (_ <=? _)%nat|done].
Qed.
Lemma unused_in h d : h ∈ unused d -> exists b, (h, b) ∈ d /\ ref_cnt b = 0.
Proof.
  intros ([x b] & -> & Hin)%list_elem_of_fmap. rewrite list_elem_of_In, filter_In, <-list_elem_of_In in Hin.
  destruct Hin as [Hin Hr]. exists b. split; [done|]. by apply Z.eqb_eq.
Qed.
Lemma unused_nodup d : NoDup d.*1 -> NoDup (unused d).
Proof. apply filter_keys_nodup. Qed.

Lemma lru_evict_ok m loads stores l : lru_inv m loads stores -> NoDup l -> (forall h, h ∈ l -> h ∈ unused (lru_blocks m)) ->
  wp (py_for l lru_evict) (fun _ m' => lru_inv m' loads stores /\ lru_blocks m' = without l (lru_blocks m) /\
    same_store (lru_backend m) (lru_backend m') /\ lru_events m' = lru_events m) m.
Proof.
  intros HI Hnd Hl. eapply wp_mono.
  { apply (wp_for _ (fun pre m' => lru_inv m' loads stores /\ lru_blocks m' = without pre (lru_blocks m) /\
      same_store (lru_backend m) (lru_backend m') /\ lru_events m' = lru_events m) l []).
    - by rewrite without_nil.
    - simpl. intros pre h post m1 E (I1 & I2 & [I3 I3'] & I4).
      destruct (unused_in h (lru_blocks m)) as (b & Hb & Hr); [apply Hl; rewrite E; set_solver|].
      assert (h ∉ pre) as Hh. { rewrite E in Hnd. apply NoDup_app in Hnd as (_ & Hd & _). intros Hp. destruct (Hd h Hp). left. }
      pose proof (li_status _ _ _ HI _ _ Hb) as Hs. rewrite Hr in Hs.
      destruct (decide (h ∈ stores)) as [|Hns]; [done|].
      assert (dict_get h (lru_blocks m1) = Some b) as Hg.
      { rewrite I2, dict_get_without, decide_False by done. apply dict_get_in; [apply HI|done]. }
      unfold lru_evict. wp_step. eapply lru_block_ok; [done|]. wp_step. eapply wp_mono.
      { apply (lru_drop_ok m1 loads stores h b I1 Hg). rewrite not_elem_of_multiplicity. lia. }
      simpl. intros [] m2 Hw. eapply wp_mono; [exact Hw|]. intros [] m3 (J1 & J2 & [J3 J3'] & J4). split_and!.
      + replace (stores ∖ {[h]}) with stores in J1 by set_solver. done.
      + by rewrite J2, I2, dict_del_without.
      + split; congruence.
      + congruence. }
  done.
Qed.

(** *** Storing *)

Definition missing (m : LRUOffloadingManager) (hs : list BlockHash) : list BlockHash :=
  List.filter (fun h => bool_decide (dict_get h (lru_blocks m) = None)) hs.
(** How many blocks have to go before [hs] can be stored. *)
Definition shortage (m : LRUOffloadingManager) (hs : list BlockHash) : nat :=
  Z.to_nat (Z.of_nat (length (missing m hs)) - get_num_free_blocks (lru_backend m)).

Lemma missing_in m hs h : h ∈ missing m hs <-> h ∈ hs /\ h ∉ (lru_blocks m).*1.
Proof. unfold missing. rewrite list_elem_of_In, filter_In, bool_decide_eq_true, <-list_elem_of_In, dict_get_none. done. Qed.
Lemma missing_nodup m hs : NoDup hs -> NoDup (missing m hs).
Proof. rewrite !NoDup_ListNoDup. apply List.NoDup_filter. Qed.

Lemma lru_insert_ok m (new : Blocks) : NoDup new.*1 -> (forall h, h ∈ new.*1 -> h ∉ (lru_blocks m).*1) ->
  wp (py_for new (fun '(h, b) => set_lru_blocks (dict_set h b))) (fun _ m' =>
    m' = mkLRU (lru_backend m) (lru_blocks m ++ new) (lru_events m)) m.
Proof.
  intros Hnd Hnew. eapply wp_mono.
  { apply (wp_for _ (fun pre m' => m' = mkLRU (lru_backend m) (lru_blocks m ++ pre) (lru_events m)) new []).
    - rewrite app_nil_r. by destruct m.
    - simpl. intros pre [h b] post m1 E ->. unfold set_lru_blocks. wp_step. simpl. f_equal. rewrite dict_set_new; [by rewrite <-app_assoc|].
      rewrite E, fmap_app in Hnd, Hnew. simpl in *. apply NoDup_app in Hnd as (_ & Hd & _).
      rewrite fmap_app. intros [Hin|Hin]%elem_of_app; [|by destruct (Hd h Hin); left].
      destruct (Hnew h); [set_solver|done]. }
  done.
Qed.

(** New blocks, none of which can be read yet. *)
Lemma lru_inv_extend m m' loads stores new : lru_inv m loads stores -> lru_blocks m' = lru_blocks m ++ new ->
  store_ok (lru_backend m') (ids_of (lru_blocks m) ++ ids_of new) -> NoDup new.*1 ->
  (forall h, h ∈ new.*1 -> h ∉ (lru_blocks m).*1) -> (forall h b, (h, b) ∈ new -> ref_cnt b = -1) ->
  lru_inv m' loads (stores ∪ list_to_set new.*1).
Proof.
  intros [K1 K2 K3 K4 K5 K6] E Hst Hnd Hnew Href. split; rewrite ?E, ?fmap_app; [| | | | |done].
  - apply NoDup_app. split_and!; [done| |done]. intros h Hh Hh'. by apply (Hnew h).
  - unfold ids_of in *. by rewrite map_app.
  - intros h b [Hin|Hin]%elem_of_app.
    + assert (h ∈ (lru_blocks m).*1) as Hh by (change h with (h, b).1; by apply list_elem_of_fmap_2).
      assert (h ∉ new.*1) as Hn by (intros Hn; by destruct (Hnew h)). rewrite (K3 _ _ Hin).
      destruct (decide (h ∈ stores)), (decide (h ∈ stores ∪ list_to_set new.*1)); set_solver.
    + assert (h ∈ new.*1) as Hh by (change h with (h, b).1; by apply list_elem_of_fmap_2).
      rewrite decide_True by set_solver. by eapply Href.
  - intros h. set_solver.
  - intros h Hh. destruct (K5 h Hh) as [Hk Hs]. split; [set_solver|]. assert (h ∉ new.*1) by (intros Hn; by destruct (Hnew h)). set_solver.
Qed.

Lemma evicted_length m ev : NoDup ev -> NoDup (lru_blocks m).*1 -> (forall h, h ∈ ev -> h ∈ unused (lru_blocks m)) ->
  (length ev + length (without ev (lru_blocks m)) = length (lru_blocks m))%nat.
Proof.
  intros Hev Hnd Hin. rewrite <-(Permutation_length (touch_perm ev (lru_blocks m) Hev Hnd)), length_app.
  enough (length (entries (reverse ev) (lru_blocks m)) = length ev) by lia.
  unfold entries. rewrite (reverse_Permutation ev). clear Hev. induction ev as [|h ev IH]; [done|]. simpl.
  destruct (unused_in h (lru_blocks m)) as (b & Hb & _); [apply Hin; left|]. rewrite (dict_get_in _ _ _ Hnd Hb). simpl.
  f_equal. apply IH. intros h' Hh'. apply Hin. by right.
Qed.

(** [prepare_store]: refused, with nothing changed, exactly when too few blocks are unused;
    otherwise the oldest unused ones are evicted and the missing blocks get places. *)
Lemma lru_prepare_store_ok m loads stores hs : lru_inv m loads stores -> NoDup hs ->
  wp (lru_prepare_store hs) (fun r m' => match r with
    | None => (length (unused (lru_blocks m)) < shortage m hs)%nat /\ m' = m
    | Some out => (shortage m hs <= length (unused (lru_blocks m)))%nat /\
        block_hashes_to_store out = missing m hs /\
        block_hashes_evicted out = take (shortage m hs) (unused (lru_blocks m)) /\
        lru_inv m' loads (stores ∪ list_to_set (missing m hs)) /\
        (exists new, lru_blocks m' = without (block_hashes_evicted out) (lru_blocks m) ++ new /\
           new.*1 = missing m hs /\ ids_of new = store_spec out) /\
        same_store (lru_backend m) (lru_backend m') /\
        lru_events m' = add_event (block_hashes_evicted out) (backend_block_size (lru_backend m)) true (lru_events m)
    end) m.
Proof.
  intros HI Hnd. unfold lru_prepare_store. wp_step. wp_step. fold (missing m hs). fold (shortage m hs).
  rewrite oldest_unused_spec. destruct (Nat.leb_spec (shortage m hs) (length (unused (lru_blocks m)))) as [Hle|Hlt]; [|by wp_step].
  set (ev := take _ _). assert (NoDup ev) as Hev by (eapply sublist_NoDup; [apply unused_nodup, HI|apply sublist_take]).
  assert (forall h, h ∈ ev -> h ∈ unused (lru_blocks m)) as Hevu.
  { intros h (i & Hi & _)%elem_of_take. by eapply list_elem_of_lookup_2. }
  wp_step. eapply wp_mono; [by eapply lru_evict_ok|]. intros [] m1 (I1 & I2 & [I3 I3'] & I4).
  unfold lru_event. wp_step. wp_step. wp_step. unfold on_lru_backend. apply wp_zoom. simpl. eapply wp_mono.
  { apply (host_allocate_ok _ _ _ (li_store _ _ _ I1)). rewrite (store_free _ _ (li_store _ _ _ I1)), I3', I2.
    unfold ids_of. rewrite length_map. pose proof (evicted_length m ev Hev (li_keys _ _ _ HI) Hevu) as Hlen.
    unfold ev in Hlen at 1. rewrite length_take in Hlen. unfold shortage in *.
    rewrite (store_free _ _ (li_store _ _ _ HI)) in *. unfold ids_of in *. rewrite length_map in *. lia. }
  intros bs s' (A1 & A2 & A3 & [A4 A5]). wp_step. apply wp_assert; [by apply Nat.eqb_eq|].
  assert ((zip (missing m hs) bs).*1 = missing m hs) as Ek by (apply fst_zip; lia).
  assert (ids_of (zip (missing m hs) bs) = map block_id bs) as Ei.
  { unfold ids_of. rewrite <-(map_map snd block_id). f_equal. apply snd_zip. lia. }
  assert (forall h, h ∈ missing m hs -> h ∉ (lru_blocks m1).*1) as Hfresh.
  { intros h [_ Hh]%missing_in. rewrite I2. intros ([x b] & -> & [Hin _]%without_in)%list_elem_of_fmap. destruct Hh.
    by apply list_elem_of_fmap_2. }
  wp_step. eapply wp_mono; [apply lru_insert_ok; rewrite Ek; [by apply missing_nodup|done]|].
  simpl. intros [] m2 ->. wp_step. simpl. split_and!; try done.
  - rewrite <-Ek at 2. eapply (lru_inv_extend m1); rewrite ?Ek, ?Ei; try done; [by apply missing_nodup|].
    intros h b Hin%elem_of_zip_r. rewrite Forall_forall in A2. by apply A2.
  - exists (zip (missing m hs) bs). rewrite I2. by split_and!.
  - split; congruence.
  - by rewrite I3, I4.
Qed.

Lemma lru_complete_ok m loads stores hs : lru_inv m loads stores -> (forall h, h ∈ hs -> h ∈ (lru_blocks m).*1) ->
  wp (lru_complete_store hs true) (fun _ m' => lru_inv m' loads (stores ∖ list_to_set hs) /\
    (lru_blocks m').*1 = (lru_blocks m).*1 /\ (forall h, location m' h = location m h) /\ lru_backend m' = lru_backend m) m.
Proof.
  intros HI Hk. unfold lru_complete_store. wp_step. eapply wp_mono.
  { apply (wp_map _ (fun pre _ m' => lru_inv m' loads (stores ∖ list_to_set pre) /\ same_places m m') hs [] []).
    - split; [|done]. by replace (stores ∖ list_to_set []) with stores by set_solver.
    - simpl. intros pre h post _ m1 E (I1 & I2). pose proof I2 as (Ek & _).
      assert (h ∈ (lru_blocks m1).*1) as Hh by (rewrite Ek; apply Hk; rewrite E; set_solver).
      destruct (lru_present _ _ _ _ I1 Hh) as (b & Hb & Hin). unfold lru_complete_one. wp_step. eapply lru_block_ok; [done|].
      rewrite (lru_ready _ _ _ _ _ I1 Hin). case_bool_decide as Hs.
      + wp_step. split; [|done].
        replace (stores ∖ list_to_set (pre ++ [h])) with (stores ∖ list_to_set pre); [done|]. rewrite list_to_set_app_L. set_solver.
      + assert (h ∉ loads) as Hl by (intros Hl; by destruct (li_loads _ _ _ I1 h Hl)).
        wp_step. eapply wp_mono; [apply (lru_write m1 _ _ loads (stores ∖ list_to_set (pre ++ [h])) h b 0 I1 Hb)|].
        * lia.
        * apply not_elem_of_multiplicity in Hl. rewrite Hl, decide_False; [done|]. rewrite list_to_set_app_L. set_solver.
        * done.
        * intros h' Hne. split; [|done]. rewrite list_to_set_app_L. set_solver.
        * intros [] m2 (J1 & J2 & _). wp_step. split; [done|by etrans]. }
  simpl. intros stored m1 (I1 & Ek & El & Eb & _). unfold lru_event. wp_step. split_and!; try done.
  destruct I1. by split.
Qed.
(** The two statements of [lru_drop_ok] in the other order. *)
Lemma lru_free_ok m loads stores h b : lru_inv m loads stores -> dict_get h (lru_blocks m) = Some b -> h ∉ loads ->
  wp (on_lru_backend (free_block b)) (fun _ m1 => wp (set_lru_blocks (dict_del h)) (fun _ m' =>
    lru_inv m' loads (stores ∖ {[h]}) /\ lru_blocks m' = dict_del h (lru_blocks m)) m1) m.
Proof. intros HI Hb Hl. by destruct (lru_drop_ok m loads stores h b HI Hb Hl) as (J1 & J2 & _). Qed.

(** A store that failed: its blocks are given back. *)
Lemma lru_fail_ok m loads stores hs : lru_inv m loads stores -> NoDup hs -> (forall h, h ∈ hs -> h ∈ (lru_blocks m).*1) ->
  wp (lru_complete_store hs false) (fun _ m' => lru_inv m' loads (stores ∖ list_to_set hs) /\
    lru_blocks m' = without (List.filter (fun h => bool_decide (h ∈ stores)) hs) (lru_blocks m)) m.
Proof.
  intros HI Hnd Hk. unfold lru_complete_store. wp_step. eapply wp_mono.
  { apply (wp_map _ (fun pre _ m' => lru_inv m' loads (stores ∖ list_to_set pre) /\
      lru_blocks m' = without (List.filter (fun h => bool_decide (h ∈ stores)) pre) (lru_blocks m)) hs [] []).
    - simpl. rewrite without_nil. by rewrite difference_empty_L.
    - simpl. intros pre h post _ m1 E (I1 & I2).
      assert (h ∉ pre) as Hp. { rewrite E in Hnd. apply NoDup_app in Hnd as (_ & Hd & _). intros Hp. destruct (Hd h Hp). left. }
      assert (h ∈ (lru_blocks m1).*1) as Hh.
      { apply dict_get_some. rewrite I2, dict_get_without, decide_False.
        - apply dict_get_some, Hk. rewrite E. set_solver.
        - by rewrite list_elem_of_In, filter_In, <-list_elem_of_In; intros [? _]. }
      destruct (lru_present _ _ _ _ I1 Hh) as (b & Hb & Hin). unfold lru_complete_one. wp_step. eapply lru_block_ok; [done|].
      rewrite (lru_ready _ _ _ _ _ I1 Hin), List.filter_app, list_to_set_app_L. simpl. case_bool_decide as Hs.
      + wp_step. rewrite bool_decide_false by set_solver. rewrite app_nil_r. split; [|done].
        replace (stores ∖ (list_to_set pre ∪ ({[h]} ∪ ∅))) with (stores ∖ list_to_set pre) by set_solver. done.
      + assert (h ∉ loads) as Hl by (intros Hl; by destruct (li_loads _ _ _ I1 h Hl)).
        rewrite bool_decide_true by set_solver. wp_step. eapply wp_mono; [by apply (lru_free_ok m1 _ _ h b I1 Hb Hl)|].
        intros [] m2 Hw. wp_step. eapply wp_mono; [exact Hw|]. intros [] m3 (J1 & J2). wp_step.
        split; [|by rewrite J2, I2, dict_del_without].
        by replace (stores ∖ (list_to_set pre ∪ ({[h]} ∪ ∅))) with ((stores ∖ list_to_set pre) ∖ {[h]}) by set_solver. }
  simpl. intros stored m1 (I1 & Ek). unfold lru_event. wp_step. split_and!; try done. destruct I1. by split.
Qed.
