(* ===== verification/OffloadSafety.v ===== *)
(** What the managers of offloaded blocks guarantee over any sequence of calls, and where the
    adaptive policy fails. *)
From stdpp Require Import gmap gmultiset list.
From Stdlib Require Import ZArith Lia SpecFloat.
From S2P Require Import Prelude Offload OffloadProofs.
Open Scope Z_scope.

Notation LRU := LRUOffloadingManager.

(** ** Runs of the LRU manager *)

(** Calls as the connector makes them: what is loaded was found by [lookup], what is completed
    was begun. With the state go the loads in progress and the blocks being stored. *)
Inductive lru_reach : LRU -> gmultiset BlockHash -> gset BlockHash -> Prop :=
| lru_starts size n enable_events :
    0 <= n <= 2 ^ 63 -> lru_reach (lru_init (backend_init size n) enable_events) ∅ ∅
| lru_touches m loads stores hs m' :
    lru_reach m loads stores -> NoDup hs -> lru_touch hs m = Ret tt m' -> lru_reach m' loads stores
| lru_begins_load m loads stores hs spec m' :
    lru_reach m loads stores -> lru_lookup hs m = length hs ->
    (forall h, Z.of_nat (multiplicity h (loads ⊎ list_to_set_disj hs)) < 2 ^ 31) ->
    lru_prepare_load hs m = Ret spec m' -> lru_reach m' (loads ⊎ list_to_set_disj hs) stores
| lru_ends_load m loads stores hs m' :
    lru_reach m loads stores -> list_to_set_disj hs ⊆ loads ->
    lru_complete_load hs m = Ret tt m' -> lru_reach m' (loads ∖ list_to_set_disj hs) stores
| lru_begins_store m loads stores hs out m' :
    lru_reach m loads stores -> NoDup hs -> lru_prepare_store hs m = Ret (Some out) m' ->
    lru_reach m' loads (stores ∪ list_to_set (block_hashes_to_store out))
| lru_ends_store m loads stores hs success m' :
    lru_reach m loads stores -> NoDup hs -> list_to_set hs ⊆ stores ->
    lru_complete_store hs success m = Ret tt m' -> lru_reach m' loads (stores ∖ list_to_set hs)
| lru_events_taken m loads stores evs m' :
    lru_reach m loads stores -> lru_take_events m = Ret evs m' -> lru_reach m' loads stores.

Lemma count_ready_le get hs : (count_ready get hs <= length hs)%nat.
Proof. induction hs as [|h hs IH]; simpl; [lia|]. destruct (get h) as [b|]; [|lia]. destruct (is_ready b); lia. Qed.
Lemma count_ready_all get hs h : count_ready get hs = length hs -> h ∈ hs -> exists b, get h = Some b /\ is_ready b = true.
Proof.
  induction hs as [|x hs IH]; [by intros _ ?%not_elem_of_nil|]. simpl. destruct (get x) as [b|] eqn:E; [|done].
  destruct (is_ready b) eqn:Er; [|done]. intros [= Hc] [->|Hh]%elem_of_cons; [by exists b|by apply IH].
Qed.
Lemma lookup_readable m loads stores hs : lru_inv m loads stores -> lru_lookup hs m = length hs ->
  forall h, h ∈ hs -> h ∈ (lru_blocks m).*1 /\ h ∉ stores.
Proof.
  intros HI Hl h Hh. destruct (count_ready_all _ _ _ Hl Hh) as (b & Hb & Hr). split; [apply dict_get_some; by eexists|].
  rewrite (lru_ready _ _ _ _ _ HI (dict_get_elem _ _ _ Hb)) in Hr. by apply bool_decide_eq_true in Hr.
Qed.
Lemma pending_present m loads stores hs : lru_inv m loads stores -> list_to_set hs ⊆ stores ->
  forall h, h ∈ hs -> h ∈ (lru_blocks m).*1.
Proof. intros HI Hs h Hh. apply (li_stores _ _ _ HI). set_solver. Qed.
Lemma lru_complete_store_ok m loads stores hs success : lru_inv m loads stores -> NoDup hs -> list_to_set hs ⊆ stores ->
  wp (lru_complete_store hs success) (fun _ m' => lru_inv m' loads (stores ∖ list_to_set hs)) m.
Proof.
  intros HI Hnd Hs. pose proof (pending_present _ _ _ _ HI Hs) as Hk. destruct success.
  - eapply wp_mono; [by apply lru_complete_ok|]. by intros [] m' [? _].
  - eapply wp_mono; [by apply lru_fail_ok|]. by intros [] m' [? _].
Qed.

Lemma lru_reach_inv m loads stores : lru_reach m loads stores -> lru_inv m loads stores.
Proof.
  induction 1 as [size n ev Hn|m loads stores hs m' _ HI Hnd E|m loads stores hs spec m' _ HI Hl Hs E
    |m loads stores hs m' _ HI Hs E|m loads stores hs out m' _ HI Hnd E|m loads stores hs ok m' _ HI Hnd Hs E|m loads stores evs m' _ HI E].
  - split; simpl; [by apply NoDup_nil| |set_solver|set_solver|set_solver|intros h; rewrite multiplicity_empty; lia]. split; simpl; [done|lia|lia].
  - by destruct (wp_outcome _ _ _ _ _ (lru_touch_ok _ _ _ _ Hnd HI) E).
  - by destruct (wp_outcome _ _ _ _ _ (lru_prepare_load_ok _ _ _ _ HI (lookup_readable _ _ _ _ HI Hl) Hs) E).
  - by destruct (wp_outcome _ _ _ _ _ (lru_complete_load_ok _ _ _ _ HI Hs) E).
  - destruct (wp_outcome _ _ _ _ _ (lru_prepare_store_ok _ _ _ _ HI Hnd) E) as (_ & -> & _ & ? & _). done.
  - exact (wp_outcome _ _ _ _ _ (lru_complete_store_ok _ _ _ _ _ HI Hnd Hs) E).
  - unfold lru_take_events in E. injection E as _ <-. destruct HI. by split.
Qed.

Lemma location_block m h id : location m h = Some id <-> exists b, dict_get h (lru_blocks m) = Some b /\ block_id b = id.
Proof. unfold location. rewrite fmap_Some. split; intros (b & ? & ?); exists b; split; congruence. Qed.
Lemma location_inj m loads stores h1 h2 id : lru_inv m loads stores ->
  location m h1 = Some id -> location m h2 = Some id -> h1 = h2.
Proof.
  intros HI (x & Hx & Ex)%location_block (y & Hy & Ey)%location_block.
  pose proof (store_nodup _ _ (li_store _ _ _ HI)) as Hnd.
  apply dict_get_elem, list_elem_of_lookup in Hx as [i Hi]. apply dict_get_elem, list_elem_of_lookup in Hy as [j Hj].
  assert (ids_of (lru_blocks m) !! i = Some id) as Hi' by (unfold ids_of; rewrite list_lookup_fmap, Hi; simpl; congruence).
  assert (ids_of (lru_blocks m) !! j = Some id) as Hj' by (unfold ids_of; rewrite list_lookup_fmap, Hj; simpl; congruence).
  pose proof (NoDup_lookup _ _ _ _ Hnd Hi' Hj') as ->. congruence.
Qed.

(** C18. Host memory is accounted for. In every state the LRU manager reaches, no two
    hashes share a host block, every block is inside the store, the number of free blocks
    is what the entries leave, a block's count is the number of loads that read it (-1 while
    it is being written), and every load or store in progress has its block. From there
    every call of the manager under its contract returns (distinct hashes to touch or to
    store, loads of what [lookup] finds, completions of what is in progress, counts within
    their 32 bits), and a load gives the places of the blocks asked for. *)
Theorem offloaded_memory_safe m loads stores :
  lru_reach m loads stores ->
  (forall h1 h2 id, location m h1 = Some id -> location m h2 = Some id -> h1 = h2) /\
  (forall h id, location m h = Some id -> 0 <= id < num_blocks (lru_backend m)) /\
  get_num_free_blocks (lru_backend m) = num_blocks (lru_backend m) - Z.of_nat (length (lru_blocks m)) /\
  Z.of_nat (length (lru_blocks m)) <= num_blocks (lru_backend m) /\
  (forall h b, dict_get h (lru_blocks m) = Some b ->
     ref_cnt b = if decide (h ∈ stores) then -1 else Z.of_nat (multiplicity h loads)) /\
  (forall h, h ∈ loads \/ h ∈ stores -> is_Some (location m h)) /\
  (forall hs, NoDup hs -> exists m', lru_touch hs m = Ret tt m') /\
  (forall hs, lru_lookup hs m = length hs ->
     (forall h, Z.of_nat (multiplicity h (loads ⊎ list_to_set_disj hs)) < 2 ^ 31) ->
     exists spec m', lru_prepare_load hs m = Ret spec m' /\ map Some spec = map (location m) hs) /\
  (forall hs, list_to_set_disj hs ⊆ loads -> exists m', lru_complete_load hs m = Ret tt m') /\
  (forall hs, NoDup hs -> exists r m', lru_prepare_store hs m = Ret r m') /\
  (forall hs success, NoDup hs -> list_to_set hs ⊆ stores -> exists m', lru_complete_store hs success m = Ret tt m').
Proof.
  intros HI%lru_reach_inv. pose proof (li_store _ _ _ HI) as HS.
  assert (length (ids_of (lru_blocks m)) = length (lru_blocks m)) as Elen by apply length_map.
  pose proof (store_free _ _ HS) as Hfree. rewrite Elen in Hfree. split_and!.
  - intros h1 h2 id. by eapply location_inj.
  - intros h id (b & Hb & <-)%location_block. apply (store_in_range _ _ _ HS). unfold ids_of.
    change (block_id b) with ((fun e : BlockHash * BlockStatus => block_id e.2) (h, b)). by apply list_elem_of_fmap_2, dict_get_elem.
  - done.
  - pose proof (so_ids _ _ HS) as HP%Permutation_length. rewrite length_app, length_seqZ, Elen in HP. pose proof (so_allocated _ _ HS). lia.
  - intros h b Hb%dict_get_elem. by apply (li_status _ _ _ HI).
  - intros h Hh. unfold location. rewrite fmap_is_Some. apply dict_get_some.
    destruct Hh as [Hh|Hh]; [by apply (li_loads _ _ _ HI)|by apply (li_stores _ _ _ HI)].
  - intros hs Hnd. destruct (proj1 (wp_iff _ _ _) (lru_touch_ok m _ _ hs Hnd HI)) as ([] & m' & E & _). eauto.
  - intros hs Hl Hs. pose proof (lru_prepare_load_ok m _ _ hs HI (lookup_readable _ _ _ _ HI Hl) Hs) as (sp & m' & E & _ & _ & ?)%wp_iff. eauto.
  - intros hs Hs. destruct (proj1 (wp_iff _ _ _) (lru_complete_load_ok m _ _ hs HI Hs)) as ([] & m' & E & _). eauto.
  - intros hs Hnd. destruct (proj1 (wp_iff _ _ _) (lru_prepare_store_ok m _ _ hs HI Hnd)) as (r & m' & E & _). eauto.
  - intros hs ok Hnd Hs. destruct (proj1 (wp_iff _ _ _) (lru_complete_store_ok m _ _ hs ok HI Hnd Hs)) as ([] & m' & E & _). eauto.
Qed.

Lemma location_kept m m' l new h id : lru_blocks m' = without l (lru_blocks m) ++ new -> h ∉ l ->
  location m h = Some id -> location m' h = Some id.
Proof.
  intros E Hh (b & Hb & Eb)%location_block. unfold location. rewrite E, dict_get_app, dict_get_without, decide_False, Hb by done.
  simpl. congruence.
Qed.
Lemma location_new m l (new : Blocks) i h b : NoDup (lru_blocks m).*1 ->
  lru_blocks m = l ++ new -> new !! i = Some (h, b) -> location m h = Some (block_id b).
Proof.
  intros Hnd E Hi. apply location_block. exists b. split; [|done]. apply dict_get_in; [done|]. rewrite E. apply elem_of_app. right.
  by eapply list_elem_of_lookup_2.
Qed.
Lemma locations_new m l (new : Blocks) : NoDup (lru_blocks m).*1 -> lru_blocks m = l ++ new ->
  map (location m) new.*1 = map Some (ids_of new).
Proof.
  intros Hnd E. apply list_eq. intros i. unfold ids_of. rewrite !list_lookup_fmap. destruct (new !! i) as [[h b]|] eqn:Hi; [|done].
  simpl. f_equal. by eapply location_new.
Qed.
Lemma evicted_unprotected m loads stores n h : lru_inv m loads stores -> h ∈ take n (unused (lru_blocks m)) ->
  h ∉ loads /\ h ∉ stores.
Proof.
  intros HI (i & Hi & _)%elem_of_take. destruct (unused_in h (lru_blocks m)) as (b & Hb & Hr); [by eapply list_elem_of_lookup_2|].
  pose proof (li_status _ _ _ HI _ _ Hb) as Hs. rewrite Hr in Hs. destruct (decide (h ∈ stores)); [done|].
  split; [|done]. apply not_elem_of_multiplicity. lia.
Qed.

(** C19. What a store evicts. In every reachable state the store of a list of distinct
    hashes returns. It is refused, with nothing changed, exactly when fewer blocks are
    unused than are needed beyond the free ones; otherwise the blocks that were missing are
    to be written, to places no other block has, as many of the oldest unused blocks as are
    needed are evicted, and every other block, in particular every block that is being read
    or written, stays where it is. *)
Theorem lru_store_contract m loads stores hs :
  lru_reach m loads stores -> NoDup hs ->
  exists r m', lru_prepare_store hs m = Ret r m' /\
  match r with
  | None => (length (unused (lru_blocks m)) < shortage m hs)%nat /\ m' = m
  | Some out =>
      (shortage m hs <= length (unused (lru_blocks m)))%nat /\
      block_hashes_to_store out = missing m hs /\
      block_hashes_evicted out = take (shortage m hs) (unused (lru_blocks m)) /\
      map (location m') (missing m hs) = map Some (store_spec out) /\
      (forall h, h ∈ block_hashes_evicted out -> location m' h = None /\ h ∉ loads /\ h ∉ stores) /\
      (forall h id, h ∉ block_hashes_evicted out -> location m h = Some id -> location m' h = Some id) /\
      (forall h, h ∈ missing m hs -> lru_lookup [h] m' = 0%nat)
  end.
Proof.
  intros HI%lru_reach_inv Hnd. pose proof (lru_prepare_store_ok m loads stores hs HI Hnd) as (r & m' & E & HP)%wp_iff.
  exists r, m'. split; [done|]. destruct r as [out|]; [|done].
  destruct HP as (H1 & H2 & H3 & H4 & (new & H5 & H6 & H7) & _). pose proof (li_keys _ _ _ H4) as Hk. split_and!; try done.
  - rewrite <-H6, <-H7. by eapply locations_new.
  - intros h Hh. pose proof Hh as Hh'. rewrite H3 in Hh'. destruct (evicted_unprotected _ _ _ _ _ HI Hh') as [Hl Hs].
    split_and!; [|done|done]. unfold location. rewrite H5, dict_get_app, dict_get_without, decide_True by done.
    replace (dict_get h new) with (@None BlockStatus); [done|]. symmetry. apply dict_get_none. rewrite H6, missing_in. intros [_ Hm].
    apply elem_of_take in Hh' as (i & Hi & _). apply list_elem_of_lookup_2, unused_in in Hi as (b & Hb & _).
    destruct Hm. change h with (h, b).1. by apply list_elem_of_fmap_2.
  - intros h id Hh. by eapply location_kept.
  - intros h Hh. unfold lru_lookup. simpl. rewrite <-H6 in Hh. apply list_elem_of_fmap in Hh as ([x b] & -> & Hin). simpl.
    assert ((x, b) ∈ lru_blocks m') as Hb by (rewrite H5; apply elem_of_app; by right).
    rewrite (dict_get_in _ _ _ Hk Hb), (lru_ready _ _ _ _ _ H4 Hb), bool_decide_false; [done|].
    intros Hn. apply Hn. apply elem_of_union. right. rewrite <-H6. apply elem_of_list_to_set. change x with (x, b).1. by apply list_elem_of_fmap_2.
Qed.

Lemma unused_app d d' : unused (d ++ d') = unused d ++ unused d'.
Proof. unfold unused. by rewrite List.filter_app, fmap_app. Qed.
Lemma unused_entries hs d : NoDup d.*1 ->
  unused (entries (reverse hs) d) = reverse (List.filter (fun h => bool_decide (h ∈ unused d)) hs).
Proof.
  intros Hnd. induction hs as [|h hs IH]; [done|]. rewrite reverse_cons, entries_snoc, unused_app, IH. simpl.
  assert (unused (match dict_get h d with Some b => [(h, b)] | None => [] end) = if bool_decide (h ∈ unused d) then [h] else []) as ->.
  { destruct (dict_get h d) as [b|] eqn:Hb; unfold unused at 1; simpl.
    - destruct (ref_cnt b =? 0) eqn:Hr; simpl.
      + rewrite bool_decide_true; [done|]. unfold unused. change h with (h, b).1. apply list_elem_of_fmap_2.
        rewrite list_elem_of_In, filter_In, <-list_elem_of_In. split; [by apply dict_get_elem|done].
      + rewrite bool_decide_false; [done|]. intros (b' & Hb' & Hr')%unused_in. rewrite (dict_get_in _ _ _ Hnd Hb') in Hb.
        injection Hb as ->. by apply Z.eqb_neq in Hr.
    - rewrite bool_decide_false; [done|]. intros (b' & Hb' & _)%unused_in. by rewrite (dict_get_in _ _ _ Hnd Hb') in Hb. }
  case_bool_decide; [by rewrite reverse_cons|by rewrite app_nil_r].
Qed.

(** Eviction follows recent use, and keeps the beginning of what was used. When the
    hashes of a request are touched and blocks are then evicted for a store, all unused
    blocks that were not touched go first, in their old order; those that were touched go
    after them, the last one of the request first, so that what is left of the request is
    a prefix as long as possible. *)
Theorem lru_eviction_order m loads stores used m1 hs out m2 :
  lru_reach m loads stores -> NoDup used -> NoDup hs ->
  lru_touch used m = Ret tt m1 -> lru_prepare_store hs m1 = Ret (Some out) m2 ->
  block_hashes_evicted out =
    take (shortage m1 hs) (unused (without used (lru_blocks m)) ++
                           reverse (List.filter (fun h => bool_decide (h ∈ unused (lru_blocks m))) used)).
Proof.
  intros HI%lru_reach_inv Hu Hnd E1 E2. destruct (wp_outcome _ _ _ _ _ (lru_touch_ok _ _ _ _ Hu HI) E1) as (HI1 & _ & Eo).
  destruct (wp_outcome _ _ _ _ _ (lru_prepare_store_ok _ _ _ _ HI1 Hnd) E2) as (_ & _ & -> & _).
  by rewrite Eo, unused_app, unused_entries by apply HI.
Qed.

Lemma all_readable m loads stores hs : lru_inv m loads stores ->
  (forall h, h ∈ hs -> h ∈ (lru_blocks m).*1 /\ h ∉ stores) -> lru_lookup hs m = length hs.
Proof.
  intros HI. unfold lru_lookup. induction hs as [|h hs IH]; [done|]. intros Hr. simpl. destruct (Hr h ltac:(left)) as [Hk Hs].
  destruct (lru_present _ _ _ _ HI Hk) as (b & -> & Hb). rewrite (lru_ready _ _ _ _ _ HI Hb), bool_decide_true by done.
  f_equal. apply IH. intros x Hx. apply Hr. by right.
Qed.
Lemma multiplicity_nodup (h : BlockHash) hs : NoDup hs -> (multiplicity h (list_to_set_disj hs) <= 1)%nat.
Proof.
  induction 1 as [|x hs Hx Hnd IH]; [rewrite list_to_set_disj_nil, multiplicity_empty; lia|].
  rewrite list_to_set_disj_cons, multiplicity_disj_union. destruct (decide (h = x)) as [->|].
  - rewrite multiplicity_singleton_eq. assert (multiplicity x (list_to_set_disj hs) = 0%nat) as ->; [|lia].
    apply not_elem_of_multiplicity. by rewrite elem_of_list_to_set_disj.
  - rewrite multiplicity_singleton_ne by done. lia.
Qed.

(** C34. What was stored is loaded back from the same place. After a store of distinct
    hashes has been prepared and completed, its blocks are found by [lookup], and a load of
    them reads exactly the host blocks that were written. *)
Theorem offload_roundtrip m loads stores hs out m1 m2 :
  lru_reach m loads stores -> NoDup hs ->
  lru_prepare_store hs m = Ret (Some out) m1 -> lru_complete_store (block_hashes_to_store out) true m1 = Ret tt m2 ->
  lru_lookup (block_hashes_to_store out) m2 = length (block_hashes_to_store out) /\
  exists m3, lru_prepare_load (block_hashes_to_store out) m2 = Ret (store_spec out) m3.
Proof.
  intros HI%lru_reach_inv Hnd E1 E2.
  destruct (wp_outcome _ _ _ _ _ (lru_prepare_store_ok _ _ _ _ HI Hnd) E1) as (_ & Ets & _ & HI1 & (new & H5 & H6 & H7) & _).
  rewrite Ets in *. set (ts := missing m hs) in *.
  assert (NoDup ts) as Hts by by apply missing_nodup.
  assert (forall h, h ∈ ts -> h ∈ (lru_blocks m1).*1) as Hk1 by (intros h Hh; rewrite H5, fmap_app, H6; set_solver).
  destruct (wp_outcome _ _ _ _ _ (lru_complete_ok _ _ _ _ HI1 Hk1) E2) as (HI2 & Ek & El & _).
  assert (forall h, h ∈ ts -> h ∈ (lru_blocks m2).*1 /\ h ∉ (stores ∪ list_to_set ts) ∖ list_to_set ts) as Hr
    by (intros h Hh; split; [rewrite Ek; by apply Hk1|set_solver]).
  split; [by eapply all_readable|].
  assert (forall h, h ∈ ts -> h ∉ loads) as Hl.
  { intros h [_ Hm]%missing_in Hl. destruct Hm. by apply (li_loads _ _ _ HI). }
  assert (forall h, Z.of_nat (multiplicity h (loads ⊎ list_to_set_disj ts)) < 2 ^ 31) as Hsm.
  { intros h. rewrite multiplicity_disj_union. pose proof (multiplicity_nodup h ts Hts). destruct (decide (h ∈ ts)) as [Hh|Hh].
    - pose proof (Hl h Hh) as Hl'. apply not_elem_of_multiplicity in Hl'. rewrite Hl'. lia.
    - pose proof (li_small _ _ _ HI h). assert (multiplicity h (list_to_set_disj ts) = 0%nat) as ->; [|lia].
      apply not_elem_of_multiplicity. by rewrite elem_of_list_to_set_disj. }
  pose proof (lru_prepare_load_ok m2 loads _ ts HI2 Hr Hsm) as (sp & m3 & E3 & _ & _ & Hsp)%wp_iff.
  exists m3. rewrite E3. f_equal. apply (list_fmap_eq_inj Some); [by intros ?? [=]|]. etrans; [exact Hsp|]. rewrite <-H7.
  etrans; [|apply (locations_new m1 _ new (li_keys _ _ _ HI1) H5)]. rewrite H6. apply map_ext. exact El.
Qed.

(** ** The adaptive policy *)

Notation ARC := ARCOffloadingManager.

Lemma unready_map (f : py CPUBackend BlockStatus) {A} (l : list A) s bs s' :
  (forall b t t', f t = Ret b t' -> is_ready b = false) -> py_map (fun _ => f) l s = Ret bs s' ->
  Forall (fun b => is_ready b = false) bs.
Proof.
  intros Hf. revert s bs. induction l as [|x l IH]; intros s bs E; simpl in E; [by injection E as <- _|].
  apply bind_inv in E as (b & s1 & E1 & E). apply bind_inv in E as (bs' & s2 & E2 & E). injection E as <- <-.
  constructor; [by eapply Hf|by eapply IH].
Qed.
(** Whatever the state of the store, blocks that were just allocated cannot be read. *)
Lemma allocated_unready hs s bs s' : allocate_blocks hs s = Ret bs s' -> Forall (fun b => is_ready b = false) bs.
Proof.
  unfold allocate_blocks. intros (s1 & _ & [= <- <-] & H)%bind_inv. apply bind_inv in H as ([] & _ & [_ ->]%assert_inv & H).
  apply bind_inv in H as (fresh & s2 & E1 & H). apply bind_inv in H as (reused & s3 & E2 & H). injection H as <- _.
  apply Forall_app. split.
  - eapply unready_map; [|exact E1]. intros b t t' E. unfold allocate_fresh in E. by injection E as <- _.
  - eapply unready_map; [|exact E2]. intros b t t' E. unfold allocate_reused in E.
    apply bind_inv in E as (t1 & _ & [= <- <-] & E). apply bind_inv in E as (id & _ & [_ ->]%unwrap_inv & E). by injection E as <- _.
Qed.
Definition being_stored (m : ARC) (h : BlockHash) : Prop := exists b, dict_get h (t1 m) = Some b /\ is_ready b = false.

Lemma arc_insert_inv (l : Blocks) (m m' : ARC) :
  Forall (fun e => is_ready e.2 = false) l ->
  py_for l (fun '(h, b) =>
    do! py_modify (fun m => set_t1 (dict_set h b (t1 m)) m);
    py_modify (fun m => set_ghosts (ghost_del h (b1 m)) (ghost_del h (b2 m)) m)) m = Ret tt m' ->
  forall h, h ∈ l.*1 \/ being_stored m h -> being_stored m' h.
Proof.
  revert m. induction l as [|[x b] l IH]; intros m HF E h Hh.
  { simpl in E. injection E as <-. destruct Hh as [Hh|Hh]; [by apply not_elem_of_nil in Hh|done]. }
  apply Forall_cons in HF as [Hb HF]. simpl in E. eapply IH; [done|exact E|]. unfold being_stored in *. simpl in *.
  rewrite dict_get_set. destruct Hh as [[->|Hh]%elem_of_cons|Hh]; [right|by left|right].
  - rewrite decide_True by done. by exists b.
  - destruct (decide (h = x)); [by exists b|done].
Qed.

(** The entry is popped before it is moved. *)
Lemma arc_touch_unready h m : being_stored m h ->
  arc_touch_one h m = Raise KeyError (set_t1 (dict_del h (t1 m)) m).
Proof.
  intros (b & Hb & Hr). unfold arc_touch_one, py_bind, py_get. rewrite Hb. simpl. rewrite Hr. simpl.
  by rewrite dict_get_del, decide_True.
Qed.
Lemma arc_touch_other h x m m' : x <> h -> being_stored m h -> arc_touch_one x m = Ret tt m' -> being_stored m' h.
Proof.
  intros Hne Hh E. assert (forall m1, t1 m1 = t1 m -> being_stored m1 h) as Hsame by (intros m1 Em; unfold being_stored; by rewrite Em).
  unfold arc_touch_one, py_bind, py_get in E. destruct (dict_get x (t1 m)) as [b|] eqn:Hx; simpl in E.
  - destruct (is_ready b); simpl in E; [|by rewrite dict_get_del, decide_True in E]. injection E as <-.
    unfold being_stored. simpl. rewrite dict_get_del, decide_False by done. exact Hh.
  - destruct (dict_get x (t2 m)); [injection E as <-; by apply Hsame|].
    destruct (decide (x ∈ b1 m)); [injection E as <-; by apply Hsame|].
    destruct (decide (x ∈ b2 m)); injection E as <-; by apply Hsame.
Qed.

(** The only exception of a touch, and what a touch does not create. *)
Lemma touch_raise_inv h m e m' : arc_touch_one h m = Raise e m' ->
  e = KeyError /\ being_stored m h /\ m' = set_t1 (dict_del h (t1 m)) m.
Proof.
  unfold arc_touch_one, py_bind, py_get. destruct (dict_get h (t1 m)) as [b|] eqn:Hb; simpl.
  - destruct (is_ready b) eqn:Hr; simpl; [done|]. rewrite dict_get_del, decide_True by done. intros [= <- <-].
    split_and!; [done| |done]. by exists b.
  - destruct (dict_get h (t2 m)); [done|]. destruct (decide (h ∈ b1 m)); [done|]. by destruct (decide (h ∈ b2 m)).
Qed.
Lemma touch_keeps x m m' h : arc_touch_one x m = Ret tt m' -> being_stored m' h -> being_stored m h.
Proof.
  intros E (b & Hb & Hr). assert (t1 m' = t1 m \/ t1 m' = dict_del x (t1 m)) as [Em|Em].
  { unfold arc_touch_one, py_bind, py_get in E. destruct (dict_get x (t1 m)) as [c|] eqn:Hx; simpl in E.
    - destruct (is_ready c); simpl in E; [|by rewrite dict_get_del, decide_True in E]. injection E as <-. by right.
    - left. destruct (dict_get x (t2 m)); [by injection E as <-|]. destruct (decide (x ∈ b1 m)); [by injection E as <-|].
      destruct (decide (x ∈ b2 m)); by injection E as <-. }
  - exists b. by rewrite <-Em.
  - exists b. rewrite Em, dict_get_del in Hb. by case_decide.
Qed.
Lemma touch_store x m m' : arc_touch_one x m = Ret tt m' -> arc_backend m' = arc_backend m.
Proof.
  unfold arc_touch_one, py_bind, py_get. destruct (dict_get x (t1 m)) as [c|]; simpl.
  - destruct (is_ready c); simpl; [by intros [= <-]|]. by rewrite dict_get_del, decide_True.
  - destruct (dict_get x (t2 m)); [by intros [= <-]|]. destruct (decide (x ∈ b1 m)); [by intros [= <-]|].
    destruct (decide (x ∈ b2 m)); by intros [= <-].
Qed.
Lemma arc_stores_asked m hs out m1 h :
  arc_prepare_store hs m = Ret (Some out) m1 -> h ∈ block_hashes_to_store out -> h ∈ hs.
Proof.
  unfold arc_prepare_store. intros (m0 & _ & [= <- <-] & E)%bind_inv Hh. set (ts := List.filter _ hs) in E.
  assert (h ∈ ts) as Hin; [|unfold ts in Hin; rewrite list_elem_of_In, filter_In, <-list_elem_of_In in Hin; tauto].
  destruct ts as [|x ts]; [injection E as <- _; done|].
  apply bind_inv in E as (ev & m2 & _ & E). destruct ev as [ev|]; [|done].
  apply bind_inv in E as ([] & m3 & _ & E). apply bind_inv in E as ([] & m4 & _ & E).
  apply bind_inv in E as (bs & m5 & _ & E). apply bind_inv in E as ([] & m6 & _ & E).
  apply bind_inv in E as ([] & m7 & _ & E). by injection E as <- _.
Qed.
Lemma arc_prepare_unready m hs out m1 h :
  arc_prepare_store hs m = Ret (Some out) m1 -> h ∈ block_hashes_to_store out -> being_stored m1 h.
Proof.
  unfold arc_prepare_store. intros (m0 & _ & [= <- <-] & E)%bind_inv Hh.
  set (ts := List.filter _ hs) in E. destruct ts as [|x ts]; [injection E as <- _; by apply not_elem_of_nil in Hh|].
  apply bind_inv in E as (ev & m2 & _ & E). destruct ev as [ev|]; [|done].
  apply bind_inv in E as ([] & m3 & _ & E). apply bind_inv in E as ([] & m4 & _ & E).
  apply bind_inv in E as (bs & m5 & Ea & E). apply bind_inv in E as ([] & m6 & [Hlen%Nat.eqb_eq ->]%assert_inv & E).
  apply bind_inv in E as ([] & m7 & El & E). injection E as <- <-. simpl in Hh.
  unfold on_arc_backend, py_zoom in Ea. destruct (allocate_blocks _ _) as [bs' s'|] eqn:Eb; [|done]. injection Ea as -> <-.
  eapply arc_insert_inv; [|exact El|].
  - apply allocated_unready in Eb. apply Forall_forall. intros [y b] Hin%elem_of_zip_r. rewrite Forall_forall in Eb. by apply Eb.
  - left. rewrite fst_zip by lia. done.
Qed.
Lemma touch_raises l m : (exists h, h ∈ l /\ being_stored m h) ->
  exists m' x, py_for l arc_touch_one m = Raise KeyError m' /\ x ∈ l /\ being_stored m x /\ dict_get x (t1 m') = None /\
    arc_backend m' = arc_backend m.
Proof.
  revert m. induction l as [|x l IH]; intros m (h & Hh & Hb); [by apply not_elem_of_nil in Hh|].
  simpl. unfold py_bind. destruct (decide (x = h)) as [->|Hne].
  { rewrite (arc_touch_unready h m Hb). eexists _, h. split_and!; [done|left|done| |done]. simpl. by rewrite dict_get_del, decide_True. }
  apply elem_of_cons in Hh as [->|Hh]; [done|]. destruct (arc_touch_one x m) as [[] m1|e m1] eqn:E.
  - destruct (IH m1) as (m2 & y & E2 & Hy & Hby & Hg & Hs); [exists h; split; [done|by eapply arc_touch_other]|].
    exists m2, y. split_and!; [done|by right|by eapply touch_keeps|done|]. rewrite Hs. by eapply touch_store.
  - destruct (touch_raise_inv _ _ _ _ E) as (-> & Hbx & ->). eexists _, x. split_and!; [done|left|done| |done].
    simpl. by rewrite dict_get_del, decide_True.
Qed.

(** Under the adaptive policy a store ends in an exception. Whenever [prepare_store]
    has chosen blocks to write, touching any of them before the store is completed, as the
    connector does with the hashes of the request, raises KeyError: the entry is popped and
    then moved. The entry is gone, and its host block is not given back to the store. *)
Lemma arc_store_then_touch_fails (m m1 : ARC) hs out used :
  arc_prepare_store hs m = Ret (Some out) m1 ->
  (exists h, h ∈ used /\ h ∈ block_hashes_to_store out) ->
  exists m2 h, arc_touch used m1 = Raise KeyError m2 /\ h ∈ used /\
    being_stored m1 h /\ dict_get h (t1 m2) = None /\ arc_backend m2 = arc_backend m1.
Proof.
  intros E (h & Hu & Hs). assert (being_stored m1 h) as Hb by by eapply arc_prepare_unready.
  unfold arc_touch.
  destruct (touch_raises (reverse used) m1) as (m2 & x & E2 & Hx & Hbx & Hg & Hs'); [exists h; by rewrite elem_of_reverse|].
  exists m2, x. split_and!; try done. by rewrite elem_of_reverse in Hx.
Qed.
