(* ===== verification/OffloadConnector.v ===== *)
(** The connector that offloads KV blocks to host memory
    ([distributed/kv_transfer/kv_connector/v1/offloading_connector.py]): the scheduler's side,
    over either manager of [Offload], and the bookkeeping of transfer jobs on the worker's side.

    A request is an object of the scheduler, to which the connector keeps a reference; what it
    reads of it when a pass ends is an argument ([heap]). The blocks of an allocation are given
    with whether each has a hash. Whether a transfer was submitted, and which ones have ended,
    is told by the device. *)
From stdpp Require Import gmap strings list.
From Stdlib Require Import ZArith Lia.
From S2P Require Import Prelude BlockHash Request BlockPool SchedulerData Offload.
Open Scope Z_scope.

(** ** The scheduler's side *)

(** [islice(l, start, stop, step)] *)
Fixpoint strided {A} (skip step : nat) (l : list A) : list A :=
  match l with
  | [] => []
  | x :: l' => match skip with
               | 0%nat => x :: strided (step - 1) step l'
               | S k => strided k step l'
               end
  end.
Definition islice {A} (l : list A) (start : nat) (stop : option nat) (step : nat) : list A :=
  strided start step (match stop with Some n => take n l | None => l end).

(** Host blocks and GPU blocks of a transfer, in the direction of the transfer. *)
Notation TransferSpec := (list Z * list Z)%type.

Record OffloadingConnectorScheduler (M : Type) := mkConnector {
  manager : M;
  conn_requests : gmap string Z;
  request_block_ids : gmap string (list Z);
  reqs_to_load : list (string * TransferSpec);
  next_stored_block_idx : gmap string Z;
  reqs_being_stored : gmap string (gset BlockHash);
  reqs_being_loaded : gmap string (gset BlockHash)
}.
Arguments mkConnector {M}.
Arguments manager {M} _.
Arguments conn_requests {M} _.
Arguments request_block_ids {M} _.
Arguments reqs_to_load {M} _.
Arguments next_stored_block_idx {M} _.
Arguments reqs_being_stored {M} _.
Arguments reqs_being_loaded {M} _.

Section scheduler_side.
Context {M : Type} `{OffloadingManager M}.
Context (gpu_block_size offloaded_block_size : Z).
Notation Conn := (OffloadingConnectorScheduler M).

Definition connector_init (m : M) : Conn := mkConnector m ∅ ∅ [] ∅ ∅ ∅.
Definition block_size_factor : nat := Z.to_nat (offloaded_block_size / gpu_block_size).

Definition on_manager {A} (op : py M A) : py Conn A :=
  py_zoom manager (fun m c => mkConnector m (conn_requests c) (request_block_ids c) (reqs_to_load c)
                                (next_stored_block_idx c) (reqs_being_stored c) (reqs_being_loaded c)) op.
Definition set_request (i : string) (o : Z) (c : Conn) : Conn :=
  mkConnector (manager c) (<[i := o]> (conn_requests c)) (request_block_ids c) (reqs_to_load c)
    (next_stored_block_idx c) (reqs_being_stored c) (reqs_being_loaded c).
Definition set_block_ids (i : string) (l : list Z) (c : Conn) : Conn :=
  mkConnector (manager c) (conn_requests c) (<[i := l]> (request_block_ids c)) (reqs_to_load c)
    (next_stored_block_idx c) (reqs_being_stored c) (reqs_being_loaded c).
Definition set_reqs_to_load (l : list (string * TransferSpec)) (c : Conn) : Conn :=
  mkConnector (manager c) (conn_requests c) (request_block_ids c) l
    (next_stored_block_idx c) (reqs_being_stored c) (reqs_being_loaded c).
Definition set_next_stored (i : string) (n : Z) (c : Conn) : Conn :=
  mkConnector (manager c) (conn_requests c) (request_block_ids c) (reqs_to_load c)
    (<[i := n]> (next_stored_block_idx c)) (reqs_being_stored c) (reqs_being_loaded c).
Definition set_being_stored (f : gmap string (gset BlockHash) -> gmap string (gset BlockHash)) (c : Conn) : Conn :=
  mkConnector (manager c) (conn_requests c) (request_block_ids c) (reqs_to_load c)
    (next_stored_block_idx c) (f (reqs_being_stored c)) (reqs_being_loaded c).
Definition set_being_loaded (f : gmap string (gset BlockHash) -> gmap string (gset BlockHash)) (c : Conn) : Conn :=
  mkConnector (manager c) (conn_requests c) (request_block_ids c) (reqs_to_load c)
    (next_stored_block_idx c) (reqs_being_stored c) (f (reqs_being_loaded c)).
(** [d[i].update(hashes)] of a default dict of sets *)
Definition add_hashes (i : string) (hashes : list BlockHash) (d : gmap string (gset BlockHash)) : gmap string (gset BlockHash) :=
  <[i := default ∅ (d !! i) ∪ list_to_set hashes]> d.

(** [_get_block_hashes]: the hash of an offloaded block is that of its last GPU block; an
    end of 0 counts as none. *)
Definition get_block_hashes (r : Request) (start_idx : nat) (end_idx : option nat) : list BlockHash :=
  islice (block_hashes r) (block_size_factor * start_idx + block_size_factor - 1)
    (match end_idx with Some (S n) => Some (block_size_factor * S n)%nat | _ => None end) block_size_factor.

Definition get_num_new_matched_tokens (r : Request) (num_computed : Z) : py Conn (Z * bool) :=
  let num_blocks := num_tokens r / offloaded_block_size in
  do! py_assert (Z.of_nat (length (block_hashes r)) / Z.of_nat block_size_factor =? num_blocks);
  do! on_manager (om_touch (get_block_hashes r 0 None));
  let full_block_tokens := offloaded_block_size * num_blocks in
  if full_block_tokens - num_computed <? offloaded_block_size then py_ret (0, false) else
  let start_block_idx := num_computed / offloaded_block_size in
  let! c := py_get in
  let hits := om_lookup (get_block_hashes r (Z.to_nat start_block_idx) None) (manager c) in
  match hits with
  | 0%nat => py_ret (0, false)
  | _ =>
      let num_hit_tokens := offloaded_block_size * (start_block_idx + Z.of_nat hits) - num_computed in
      if num_hit_tokens <? offloaded_block_size then py_ret (0, false) else py_ret (num_hit_tokens, true)
  end.

(** [blocks]: the GPU blocks of the request, with whether they have a hash. *)
Definition update_state_after_alloc (r : Request) (blocks : list (Z * bool)) (num_external_tokens : Z) : py Conn unit :=
  let i := request_id (args r) in
  do! py_modify (set_request i (obj_id (args r)));
  do! py_modify (set_block_ids i []);
  if num_external_tokens =? 0 then py_ret tt else
  let block_ids := map fst blocks in
  let num_computed_gpu_blocks := length (List.filter snd blocks) in
  let num_computed := Z.of_nat num_computed_gpu_blocks * gpu_block_size in
  let full_block_tokens := num_computed + num_external_tokens in
  do! py_assert (full_block_tokens mod offloaded_block_size =? 0);
  let num_pending_gpu_blocks := Z.of_nat (length block_ids) - Z.of_nat num_computed_gpu_blocks in
  do! py_assert (num_external_tokens =? num_pending_gpu_blocks * gpu_block_size);
  let start_block_idx := num_computed / offloaded_block_size in
  let num_blocks := full_block_tokens / offloaded_block_size in
  do! py_assert (num_blocks <=? Z.of_nat (length (block_hashes r)) / Z.of_nat block_size_factor);
  let hashes := get_block_hashes r (Z.to_nat start_block_idx) (Some (Z.to_nat num_blocks)) in
  let! src_spec := on_manager (om_prepare_load hashes) in
  let dst_spec := drop num_computed_gpu_blocks block_ids in
  do! py_modify (fun c => set_reqs_to_load (dict_set i (src_spec, dst_spec) (reqs_to_load c)) c);
  do! py_modify (set_being_loaded (add_hashes i hashes));
  py_modify (set_next_stored i num_blocks).

(** [yield_req_data]: id, new blocks, and whether the request was resumed. *)
Definition yield_req_data (out : SchedulerOutput) : list (string * option (list (list Z)) * bool) :=
  let cached := so_scheduled_cached_reqs out in
  map (fun nr => (request_id (nr_args nr), Some (nr_block_ids nr), false)) (so_scheduled_new_reqs out) ++
  map (fun e => (e.1, e.2, bool_decide (e.1 ∈ cr_resumed_req_ids cached))) (zip (cr_req_ids cached) (cr_new_block_ids cached)).

(** The GPU blocks of the chosen offloaded blocks, from block [idx] on. *)
Fixpoint source_blocks (block_ids : list Z) (chosen : list BlockHash) (idx : nat) (hashes : list BlockHash)
    : exn + list Z :=
  match hashes with
  | [] => inr []
  | h :: hashes' =>
      let here := if decide (h ∈ chosen) then
                    match mapM (fun k => block_ids !! (idx * block_size_factor + k)%nat) (seq 0 block_size_factor) with
                    | Some l => inr l
                    | None => inl IndexError
                    end
                  else inr [] in
      match here with
      | inl e => inl e
      | inr l => match source_blocks block_ids chosen (S idx) hashes' with
                 | inl e => inl e
                 | inr l' => inr (l ++ l')
                 end
      end
  end.

(** The blocks of a request are extended by what the pass gave it. *)
Definition extend_blocks (req_id : string) (new_block_id_groups : option (list (list Z))) (preempted : bool) : py Conn unit :=
  do! (if preempted then py_modify (set_block_ids req_id []) else py_ret tt);
  match new_block_id_groups with
  | Some (new_block_ids :: _) =>
      let! c := py_get in
      let! l := py_unwrap KeyError (request_block_ids c !! req_id) in
      py_modify (set_block_ids req_id (l ++ new_block_ids))
  | _ => py_ret tt
  end.
(** The blocks that request [req_id] has completed in this pass are stored. *)
Definition store_request (heap : Z -> Request) (out : SchedulerOutput) (e : string * option (list (list Z)) * bool)
    : py Conn (list (string * TransferSpec)) :=
  let '(req_id, new_block_id_groups, preempted) := e in
  do! extend_blocks req_id new_block_id_groups preempted;
  let! c := py_get in
  let! block_ids := py_unwrap KeyError (request_block_ids c !! req_id) in
  let! o := py_unwrap KeyError (conn_requests c !! req_id) in
  let! new_tokens := py_unwrap KeyError (dict_get req_id (so_num_scheduled_tokens out)) in
  let r := heap o in
  let total_tokens := num_computed_tokens r + new_tokens in
  let num_blocks := total_tokens / offloaded_block_size in
  let start_block_idx := default 0 (next_stored_block_idx c !! req_id) in
  let num_new_blocks := num_blocks - start_block_idx in
  if num_new_blocks <=? 0 then py_ret [] else
  let new_block_hashes := get_block_hashes r (Z.to_nat start_block_idx) (Some (Z.to_nat num_blocks)) in
  let! store_output := on_manager (om_prepare_store new_block_hashes) in
  match store_output with
  | None => py_ret []
  | Some so =>
      do! py_modify (set_next_stored req_id num_blocks);
      match block_hashes_to_store so with
      | [] => py_ret []
      | chosen =>
          do! on_manager (om_touch (get_block_hashes r 0 (Some (Z.to_nat num_blocks))));
          let! src_block_ids := py_lift (source_blocks block_ids chosen (Z.to_nat start_block_idx) new_block_hashes) in
          do! py_modify (set_being_stored (add_hashes req_id chosen));
          py_ret [(req_id, (src_block_ids, store_spec so))]
      end
  end.
Definition get_reqs_to_store (heap : Z -> Request) (out : SchedulerOutput) : py Conn (list (string * TransferSpec)) :=
  let! l := py_map (store_request heap out) (yield_req_data out) in
  py_ret (foldl (fun d e => dict_set e.1 e.2 d) [] (concat l)).

(** The metadata for the workers: loads and stores. *)
Definition build_connector_meta (heap : Z -> Request) (out : SchedulerOutput)
    : py Conn (list (string * TransferSpec) * list (string * TransferSpec)) :=
  let! c := py_get in
  let! stores := get_reqs_to_store heap out in
  do! py_modify (set_reqs_to_load []);
  py_ret (reqs_to_load c, stores).

Definition update_connector_output (sent received : list string) : py Conn unit :=
  do! py_for sent (fun i =>
    let! c := py_get in
    do! py_modify (set_being_stored (delete i));
    match elements (default ∅ (reqs_being_stored c !! i)) with
    | [] => py_ret tt
    | hashes => on_manager (om_complete_store hashes true)
    end);
  py_for received (fun i =>
    let! c := py_get in
    do! py_modify (set_being_loaded (delete i));
    match elements (default ∅ (reqs_being_loaded c !! i)) with
    | [] => py_ret tt
    | hashes => on_manager (om_complete_load hashes)
    end).

Definition request_finished (r : Request) : py Conn (bool * option Z) :=
  let i := request_id (args r) in
  do! py_modify (fun c => mkConnector (manager c) (delete i (conn_requests c)) (delete i (request_block_ids c))
                            (reqs_to_load c) (delete i (next_stored_block_idx c)) (reqs_being_stored c) (reqs_being_loaded c));
  let! c := py_get in
  py_ret (bool_decide (is_Some (reqs_being_stored c !! i)), None).

Definition take_events : py Conn (list KVCacheEvent) :=
  let! evs := on_manager om_take_events in
  py_ret (map (fun e => if removed e then BlockRemoved (map ExtBytes (event_hashes e)) "CPU"
                        else BlockStored (map ExtBytes (event_hashes e)) None [] (event_block_size e) None "CPU") evs).
End scheduler_side.

(** ** The worker's side *)

Record OffloadingConnectorWorker := mkOffloadingWorker {
  job_counter : Z;
  jobs : gmap Z (string * bool) (** job -> request, and whether it is a store *);
  load_job : gmap string Z;
  store_jobs : gmap string (gset Z);
  finished_reqs_waiting_for_store : gset string
}.
Notation Worker := OffloadingConnectorWorker.
Definition offloading_worker_init : Worker := mkOffloadingWorker 0 ∅ ∅ ∅ ∅.

Section worker_side.
(** Whether the device accepted the transfer. *)
Context (transfer_async : Z -> TransferSpec -> bool).

Definition generate_job_id : py Worker Z :=
  let! w := py_get in
  do! py_modify (fun w => mkOffloadingWorker (job_counter w + 1) (jobs w) (load_job w) (store_jobs w)
                            (finished_reqs_waiting_for_store w));
  py_ret (job_counter w).
Definition set_jobs (f : gmap Z (string * bool) -> gmap Z (string * bool)) : py Worker unit :=
  py_modify (fun w => mkOffloadingWorker (job_counter w) (f (jobs w)) (load_job w) (store_jobs w)
                        (finished_reqs_waiting_for_store w)).
Definition set_load_job (f : gmap string Z -> gmap string Z) : py Worker unit :=
  py_modify (fun w => mkOffloadingWorker (job_counter w) (jobs w) (f (load_job w)) (store_jobs w)
                        (finished_reqs_waiting_for_store w)).
Definition set_store_jobs (f : gmap string (gset Z) -> gmap string (gset Z)) : py Worker unit :=
  py_modify (fun w => mkOffloadingWorker (job_counter w) (jobs w) (load_job w) (f (store_jobs w))
                        (finished_reqs_waiting_for_store w)).
Definition set_waiting (f : gset string -> gset string) : py Worker unit :=
  py_modify (fun w => mkOffloadingWorker (job_counter w) (jobs w) (load_job w) (store_jobs w)
                        (f (finished_reqs_waiting_for_store w))).

Definition start_load (e : string * TransferSpec) : py Worker unit :=
  let '(req_id, transfer_spec) := e in
  let! job_id := generate_job_id in
  do! set_jobs <[job_id := (req_id, false)]>;
  let! w := py_get in
  do! py_assert (bool_decide (load_job w !! req_id = None));
  do! set_load_job <[req_id := job_id]>;
  py_assert (transfer_async job_id transfer_spec).
Definition start_load_kv (loads : list (string * TransferSpec)) : py Worker unit := py_for loads start_load.
Definition start_store (e : string * TransferSpec) : py Worker unit :=
  let '(req_id, transfer_spec) := e in
  let! job_id := generate_job_id in
  do! set_jobs <[job_id := (req_id, true)]>;
  do! set_store_jobs (fun d => <[req_id := default ∅ (d !! req_id) ∪ {[job_id]}]> d);
  py_assert (transfer_async job_id transfer_spec).
Definition start_store_kv (stores : list (string * TransferSpec)) : py Worker unit := py_for stores start_store.

(** A transfer has ended; the request that is to be reported as sent, as received. *)
Definition finish_job (e : Z * bool) : py Worker (list string * list string) :=
  let '(job_id, success) := e in
  do! py_assert success;
  let! w := py_get in
  let! '(req_id, store) := py_unwrap KeyError (jobs w !! job_id) in
  do! set_jobs (delete job_id);
  if (store : bool) then
    (** a default dict *)
    let req_jobs := default ∅ (store_jobs w !! req_id) in
    do! set_store_jobs <[req_id := req_jobs]>;
    do! (if decide (job_id ∈ req_jobs) then py_ret tt else py_raise KeyError);
    do! set_store_jobs <[req_id := req_jobs ∖ {[job_id]}]>;
    if decide (req_jobs ∖ {[job_id]} = ∅) then
      if decide (req_id ∈ finished_reqs_waiting_for_store w) then
        do! set_waiting (fun s => s ∖ {[req_id]});
        do! set_store_jobs (delete req_id);
        py_ret ([req_id], [])
      else py_ret ([], [])
    else py_ret ([], [])
  else
    let! req_job := py_unwrap KeyError (load_job w !! req_id) in
    do! py_assert (job_id =? req_job);
    do! set_load_job (delete req_id);
    py_ret ([], [req_id]).
(** A request has finished: it is reported when none of its stores is under way. *)
Definition finish_request (req_id : string) : py Worker (list string) :=
  let! w := py_get in
  match store_jobs w !! req_id with
  | Some pending =>
      if decide (pending = ∅) then do! set_store_jobs (delete req_id); py_ret [req_id]
      else do! set_waiting (fun s => s ∪ {[req_id]}); py_ret []
  | None => py_ret []
  end.
Definition get_finished (results : list (Z * bool)) (finished_req_ids : gset string) : py Worker (gset string * gset string) :=
  let! rs := py_map finish_job results in
  let! sent := py_map finish_request (elements finished_req_ids) in
  py_ret (list_to_set (concat (map fst rs)) ∪ list_to_set (concat sent), list_to_set (concat (map snd rs))).
End worker_side.
