(* ===== verification/ConnectorProofs.v ===== *)
(** The offloading connector ([OffloadConnector]): which tokens it offers to load, which blocks
    it copies where, and when it reports a request's transfers as done. *)
From stdpp Require Import gmap gmultiset strings list.
From Stdlib Require Import ZArith Lia SpecFloat.
From S2P Require Import Prelude Request SchedulerData Offload OffloadProofs OffloadSafety OffloadConnector.
Open Scope Z_scope.

(** ** The worker's side *)

(** The tables agree: a job is known as a load or store of one request, and a request waits for
    its stores only while there are some. *)
Record jobs_ok (w : Worker) : Prop := {
  jo_counter : forall j, is_Some (jobs w !! j) -> j < job_counter w;
  jo_stores : forall r j, jobs w !! j = Some (r, true) <-> exists s, store_jobs w !! r = Some s /\ j ∈ s;
  jo_loads : forall r j, jobs w !! j = Some (r, false) <-> load_job w !! r = Some j;
  jo_waiting : forall r, r ∈ finished_reqs_waiting_for_store w -> exists s, store_jobs w !! r = Some s /\ s <> ∅
}.

Lemma jobs_init_ok : jobs_ok offloading_worker_init.
Proof.
  split; simpl.
  - intros j [? [=]].
  - intros r j. split; [done|]. by intros (s & [=] & _).
  - done.
  - set_solver.
Qed.

Section submit.
Context (transfer_async : Z -> TransferSpec -> bool) (accepts : forall j s, transfer_async j s = true).

Lemma start_load_ok w r spec : jobs_ok w -> load_job w !! r = None ->
  wp (start_load transfer_async (r, spec)) (fun _ w' => jobs_ok w' /\ load_job w' = <[r := job_counter w]> (load_job w) /\
    store_jobs w' = store_jobs w /\ finished_reqs_waiting_for_store w' = finished_reqs_waiting_for_store w /\
    jobs w' = <[job_counter w := (r, false)]> (jobs w)) w.
Proof.
  intros [J1 J2 J3 J4] Hr. unfold start_load, generate_job_id, set_jobs, set_load_job. wp_run.
  apply wp_assert; [by apply bool_decide_true|]. wp_run.
  assert (jobs w !! job_counter w = None) as Hn.
  { destruct (jobs w !! job_counter w) eqn:E; [|done]. specialize (J1 (job_counter w) ltac:(by eexists)). lia. }
  split_and!; try done. split; simpl; try done.
  - intros j [-> |[_ Hj]]%lookup_insert_is_Some; [lia|]. specialize (J1 j Hj). lia.
  - intros r' j. rewrite <-J2. destruct (decide (j = job_counter w)) as [->|]; [|by rewrite lookup_insert_ne].
    rewrite lookup_insert_eq, Hn. naive_solver.
  - intros r' j. destruct (decide (r' = r)) as [->|Hne].
    + rewrite lookup_insert_eq. destruct (decide (j = job_counter w)) as [->|]; [by rewrite lookup_insert_eq|].
      rewrite lookup_insert_ne by done. split; [|intros [= <-]; done]. intros ?%J3. congruence.
    + rewrite (lookup_insert_ne (load_job w)) by done. rewrite <-J3.
      destruct (decide (j = job_counter w)) as [->|]; [|by rewrite lookup_insert_ne].
      rewrite lookup_insert_eq, Hn. naive_solver.
Qed.
Lemma start_store_ok w r spec : jobs_ok w ->
  wp (start_store transfer_async (r, spec)) (fun _ w' => jobs_ok w' /\ load_job w' = load_job w /\
    store_jobs w' = <[r := default ∅ (store_jobs w !! r) ∪ {[job_counter w]}]> (store_jobs w) /\
    finished_reqs_waiting_for_store w' = finished_reqs_waiting_for_store w /\
    jobs w' = <[job_counter w := (r, true)]> (jobs w)) w.
Proof.
  intros [J1 J2 J3 J4]. unfold start_store, generate_job_id, set_jobs, set_store_jobs. wp_run.
  assert (jobs w !! job_counter w = None) as Hn.
  { destruct (jobs w !! job_counter w) eqn:E; [|done]. specialize (J1 (job_counter w) ltac:(by eexists)). lia. }
  split_and!; try done. split; simpl; try done.
  - intros j [-> |[_ Hj]]%lookup_insert_is_Some; [lia|]. specialize (J1 j Hj). lia.
  - intros r' j. destruct (decide (r' = r)) as [->|Hne].
    + rewrite lookup_insert_eq. destruct (decide (j = job_counter w)) as [->|n].
      * rewrite lookup_insert_eq. split; [|done]. intros _. eexists. split; [done|clear; set_solver].
      * rewrite lookup_insert_ne by done. rewrite J2. clear -n. destruct (store_jobs w !! r) as [s|]; simpl.
        -- split; intros (s' & [= <-] & ?); eexists; (split; [done|set_solver]).
        -- split; [by intros (s' & [=] & _)|]. intros (s' & [= <-] & Hj). set_solver.
    + rewrite (lookup_insert_ne (store_jobs w)) by done. rewrite <-J2.
      destruct (decide (j = job_counter w)) as [->|]; [|by rewrite lookup_insert_ne]. rewrite lookup_insert_eq, Hn. naive_solver.
  - intros r' j. rewrite <-J3. destruct (decide (j = job_counter w)) as [->|]; [|by rewrite lookup_insert_ne].
    rewrite lookup_insert_eq, Hn. naive_solver.
  - intros r' (s & Hs & Hne)%J4. destruct (decide (r' = r)) as [->|]; [|exists s; by rewrite lookup_insert_ne].
    rewrite lookup_insert_eq. eexists. split; [done|]. clear. set_solver.
Qed.
End submit.

(** The tables after the jobs [ended] have ended and the requests [sent] were reported. *)
Record after_jobs (w : Worker) (ended : list Z) (sent : list string) (w' : Worker) : Prop := {
  aj_counter : job_counter w' = job_counter w;
  aj_jobs : forall j, jobs w' !! j = if decide (j ∈ ended) then None else jobs w !! j;
  aj_stores : forall r, store_jobs w' !! r = if decide (r ∈ sent) then None else (fun s => s ∖ list_to_set ended) <$> store_jobs w !! r;
  aj_loads : forall r, load_job w' !! r = load_job w !! r ≫= fun j => if decide (j ∈ ended) then None else Some j;
  aj_waiting : forall r, r ∈ finished_reqs_waiting_for_store w' <-> r ∈ finished_reqs_waiting_for_store w /\ r ∉ sent;
  aj_sent : forall r, r ∈ sent <-> r ∈ finished_reqs_waiting_for_store w /\ (forall j, jobs w !! j = Some (r, true) -> j ∈ ended)
}.

Lemma after_nothing w : jobs_ok w -> after_jobs w [] [] w.
Proof.
  intros HW. split; try done.
  - intros r. rewrite decide_False by set_solver. destruct (store_jobs w !! r) as [s|]; [|done]. simpl. f_equal. set_solver.
  - intros r. by destruct (load_job w !! r).
  - set_solver.
  - intros r. split; [set_solver|]. intros [(s & Hs & Hne)%(jo_waiting _ HW) Hall].
    apply set_choose_L in Hne as [j Hj]. destruct (not_elem_of_nil j). apply Hall, (jo_stores _ HW). by exists s.
Qed.
(** Nothing a request still stores has been reported. *)
Lemma unsent w ended sent w' r j : after_jobs w ended sent w' -> jobs w !! j = Some (r, true) -> j ∉ ended -> r ∉ sent.
Proof. intros HA Hj Hn [_ Hall]%(aj_sent _ _ _ _ HA). by apply Hn, Hall. Qed.

Lemma after_jobs_ok w ended sent w' : jobs_ok w -> after_jobs w ended sent w' -> jobs_ok w'.
Proof.
  intros [J1 J2 J3 J4] HA. pose proof HA as [A0 A1 A2 A3 A4 A5]. split.
  - intros j. rewrite A0, A1. case_decide; [by intros []|apply J1].
  - intros r j. rewrite A1, A2. case_decide as Hj.
    + split; [done|]. case_decide; [by intros (? & [=] & _)|]. intros (s & (s0 & _ & ->)%fmap_Some & Hin). set_solver.
    + rewrite J2. split.
      * intros (s & Hs & Hin). assert (jobs w !! j = Some (r, true)) as Hjr by (apply J2; eauto).
        rewrite decide_False by (by eapply unsent). rewrite Hs. simpl. eexists. split; [done|]. set_solver.
      * case_decide; [by intros (? & [=] & _)|]. intros (s & (s0 & -> & ->)%fmap_Some & Hin). exists s0. set_solver.
  - intros r j. rewrite A1, A3. case_decide as Hj.
    + split; [done|]. destruct (load_job w !! r) as [k|]; [|done]. simpl. case_decide; [done|]. intros [= ->]. done.
    + rewrite J3. destruct (load_job w !! r) as [k|]; simpl; [|done]. split; [intros [= ->]; by rewrite decide_False|].
      case_decide; [done|]. by intros [= ->].
  - intros r [Hw Hns]%A4. rewrite A2, decide_False by done. destruct (J4 r Hw) as (s & Hs & _). rewrite Hs. simpl.
    eexists. split; [done|]. intros E. apply Hns, A5. split; [done|]. intros j (s' & Hs' & Hj)%J2.
    rewrite Hs in Hs'. injection Hs' as <-. destruct (decide (j ∈ ended)); [done|]. assert (j ∈ s ∖ list_to_set ended) as Hd by set_solver.
    rewrite E in Hd. by apply not_elem_of_empty in Hd.
Qed.

Lemma ended_jobs w ended w1 sent j : after_jobs w ended sent w1 ->
  forall k, delete j (jobs w1) !! k = if decide (k ∈ ended ++ [j]) then None else jobs w !! k.
Proof.
  intros HA k. destruct (decide (k = j)) as [->|Hne].
  - rewrite lookup_delete_eq, decide_True by set_solver. done.
  - rewrite lookup_delete_ne, (aj_jobs _ _ _ _ HA) by done. destruct (decide (k ∈ ended)), (decide (k ∈ ended ++ [j])); set_solver.
Qed.
(** Loads are not touched by the end of a store. *)
Lemma ended_store_loads w ended sent w1 j r : jobs_ok w -> after_jobs w ended sent w1 -> jobs w !! j = Some (r, true) ->
  forall x, load_job w1 !! x = load_job w !! x ≫= fun k => if decide (k ∈ ended ++ [j]) then None else Some k.
Proof.
  intros HW HA Hj x. rewrite (aj_loads _ _ _ _ HA). destruct (load_job w !! x) as [k|] eqn:Hk; [|done]. simpl.
  assert (k <> j) as Hne. { intros ->. apply (jo_loads _ HW) in Hk. congruence. }
  destruct (decide (k ∈ ended)), (decide (k ∈ ended ++ [j])); set_solver.
Qed.

(** All stores of a request have ended when none is left. *)
Lemma all_ended w r s l : jobs_ok w -> store_jobs w !! r = Some s ->
  (forall k, jobs w !! k = Some (r, true) -> k ∈ l) <-> s ∖ list_to_set l = ∅.
Proof.
  intros HW Hs. split.
  - intros Hall. apply set_eq. intros k. rewrite elem_of_difference, elem_of_list_to_set. split; [|set_solver].
    intros [Hk Hnk]. destruct Hnk. apply Hall, (jo_stores _ HW). by exists s.
  - intros E k (s' & Hs' & Hk)%(jo_stores _ HW). rewrite Hs in Hs'. injection Hs' as <-. destruct (decide (k ∈ l)); [done|].
    assert (k ∈ (∅ : gset Z)); [rewrite <-E; set_solver|set_solver].
Qed.
(** Other requests are not concerned by the end of job [j] of request [r]. *)
Lemma sent_other w ended sent w1 j r b x : after_jobs w ended sent w1 -> jobs w !! j = Some (r, b) -> x <> r \/ b = false ->
  x ∈ sent <-> x ∈ finished_reqs_waiting_for_store w /\ (forall k, jobs w !! k = Some (x, true) -> k ∈ ended ++ [j]).
Proof.
  intros HA Hj Hne. rewrite (aj_sent _ _ _ _ HA). split; intros [Hx Hall]; (split; [done|]); intros k Hk.
  - apply elem_of_app. left. by apply Hall.
  - specialize (Hall k Hk). apply elem_of_app in Hall as [?|Hkj%list_elem_of_singleton]; [done|]. subst k. rewrite Hj in Hk.
    injection Hk as -> ->. by destruct Hne.
Qed.
Lemma stores_other w j r b ended x : jobs_ok w -> jobs w !! j = Some (r, b) -> x <> r \/ b = false ->
  (fun s => s ∖ list_to_set ended) <$> store_jobs w !! x = (fun s => s ∖ list_to_set (ended ++ [j])) <$> store_jobs w !! x.
Proof.
  intros HW Hj Hne. destruct (store_jobs w !! x) as [sx|] eqn:Hx; [|done]. simpl. f_equal. rewrite list_to_set_app_L.
  assert (j ∉ sx) as Hjx; [|set_solver]. intros Hjx. assert (jobs w !! j = Some (x, true)) as Hj'; [apply (jo_stores _ HW); by exists sx|].
  rewrite Hj in Hj'. injection Hj' as -> ->. by destruct Hne.
Qed.

Lemma finish_store_ok w ended sent w1 j r : jobs_ok w -> after_jobs w ended sent w1 -> jobs w !! j = Some (r, true) -> j ∉ ended ->
  wp (finish_job (j, true)) (fun res w2 => after_jobs w (ended ++ [j]) (sent ++ res.1) w2 /\ res.2 = []) w1.
Proof.
  intros HW HA Hj Hn. pose proof HA as [A0 A1 A2 A3 A4 A5]. pose proof (unsent _ _ _ _ _ _ HA Hj Hn) as Hr.
  destruct (proj1 (jo_stores _ HW r j) Hj) as (s & Hs & Hin).
  assert (store_jobs w1 !! r = Some (s ∖ list_to_set ended)) as Hs1 by (rewrite A2, decide_False, Hs; done).
  pose proof (all_ended w r s (ended ++ [j]) HW Hs) as Hempty. set (left_ := s ∖ list_to_set (ended ++ [j])) in *.
  assert (s ∖ list_to_set ended ∖ {[j]} = left_) as El by (unfold left_; rewrite list_to_set_app_L; set_solver).
  unfold finish_job, set_jobs, set_store_jobs, set_waiting. wp_run. rewrite A1, decide_False, Hj by done. wp_run. rewrite Hs1. simpl.
  rewrite decide_True by set_solver. wp_run. rewrite El.
  set (d := <[r := left_]> (<[r := s ∖ list_to_set ended]> (store_jobs w1))).
  assert (forall x, x <> r -> d !! x = store_jobs w1 !! x) as Hd by (intros x Hne; unfold d; by rewrite !lookup_insert_ne).
  assert (d !! r = Some left_) as Hdr by apply lookup_insert_eq.
  assert (forall x, d !! x = if decide (x ∈ sent) then None else (fun s => s ∖ list_to_set (ended ++ [j])) <$> store_jobs w !! x) as Hdx.
  { intros x. destruct (decide (x = r)) as [->|Hne]; [by rewrite Hdr, decide_False, Hs|].
    rewrite Hd, A2 by done. by rewrite (stores_other w j r true) by auto. }
  destruct (decide (left_ = ∅)) as [E0|E0]; [destruct (decide (r ∈ _)) as [Hw|Hw]|].
  - wp_run. split; [|done]. apply A4 in Hw as [Hw _]. split; simpl; [done|by eapply ended_jobs| |by eapply ended_store_loads| |].
    + intros x. destruct (decide (x = r)) as [->|Hne]; [by rewrite lookup_delete_eq, decide_True by set_solver|].
      rewrite lookup_delete_ne, Hdx by done. destruct (decide (x ∈ sent)), (decide (x ∈ sent ++ [r])); set_solver.
    + intros x. rewrite elem_of_difference, A4. set_solver.
    + intros x. destruct (decide (x = r)) as [->|Hne]; [rewrite Hempty; set_solver|].
      rewrite elem_of_app, <-(sent_other _ _ _ _ _ _ _ x HA Hj (or_introl Hne)). set_solver.
  - wp_run. split; [|done]. rewrite app_nil_r. split; simpl; [done|by eapply ended_jobs|done|by eapply ended_store_loads|done|].
    intros x. destruct (decide (x = r)) as [->|Hne]; [|eapply sent_other; eauto]. rewrite A4 in Hw. split; [done|]. intros [Hw' _]. by destruct Hw.
  - wp_run. split; [|done]. rewrite app_nil_r. split; simpl; [done|by eapply ended_jobs|done|by eapply ended_store_loads|done|].
    intros x. destruct (decide (x = r)) as [->|Hne]; [|eapply sent_other; eauto]. split; [done|]. by intros [_ Hall%Hempty].
Qed.

Lemma finish_load_ok w ended sent w1 j r : jobs_ok w -> after_jobs w ended sent w1 -> jobs w !! j = Some (r, false) -> j ∉ ended ->
  wp (finish_job (j, true)) (fun res w2 => after_jobs w (ended ++ [j]) (sent ++ res.1) w2 /\ res.2 = [r]) w1.
Proof.
  intros HW HA Hj Hn. pose proof HA as [A0 A1 A2 A3 A4 A5]. pose proof (proj1 (jo_loads _ HW r j) Hj) as Hl.
  assert (load_job w1 !! r = Some j) as Hl1 by (rewrite A3, Hl; simpl; by rewrite decide_False).
  unfold finish_job, set_jobs, set_load_job. wp_run. rewrite A1, decide_False, Hj by done. wp_run. split; [|done]. rewrite app_nil_r.
  split; simpl; [done|by eapply ended_jobs| | |done|].
  - intros x. rewrite A2. by rewrite (stores_other w j r false) by auto.
  - intros x. destruct (decide (x = r)) as [->|Hne].
    + rewrite lookup_delete_eq, Hl. simpl. by rewrite decide_True by set_solver.
    + rewrite lookup_delete_ne, A3 by done. destruct (load_job w !! x) as [k|] eqn:Hk; [|done]. simpl.
      apply (jo_loads _ HW) in Hk. assert (k <> j) by congruence. destruct (decide (k ∈ ended)), (decide (k ∈ ended ++ [j])); set_solver.
  - intros x. eapply sent_other; eauto.
Qed.

Lemma finish_jobs_ok w results : jobs_ok w -> NoDup results.*1 ->
  (forall j ok, (j, ok) ∈ results -> ok = true /\ is_Some (jobs w !! j)) ->
  wp (py_map finish_job results) (fun rs w' => after_jobs w results.*1 (concat (map fst rs)) w' /\
    forall r, r ∈ concat (map snd rs) <-> exists j, j ∈ results.*1 /\ jobs w !! j = Some (r, false)) w.
Proof.
  intros HW Hnd Hall. eapply wp_mono.
  { apply (wp_map _ (fun pre rs w' => after_jobs w pre.*1 (concat (map fst rs)) w' /\
      forall r, r ∈ concat (map snd rs) <-> exists j, j ∈ pre.*1 /\ jobs w !! j = Some (r, false)) results [] []).
    - split; [by apply after_nothing|]. intros r. simpl. split; [by intros ?%not_elem_of_nil|]. by intros (j & ?%not_elem_of_nil & _).
    - simpl. intros pre [j ok] post rs w1 E (I1 & I2). destruct (Hall j ok) as [-> [[r store] Hj]]; [rewrite E; set_solver|].
      assert (j ∉ pre.*1) as Hn. { rewrite E, fmap_app in Hnd. apply NoDup_app in Hnd as (_ & Hd & _). intros Hp. destruct (Hd j Hp). simpl. left. }
      rewrite fmap_app. simpl. destruct store.
      + eapply wp_mono; [by eapply finish_store_ok|]. intros [l1 l2] w2 (F1 & F2). simpl in *. subst l2. rewrite !map_app, !concat_app. simpl.
        rewrite !app_nil_r. split; [done|]. intros x. rewrite I2. apply exist_proper. intros k. rewrite elem_of_app, list_elem_of_singleton.
        split; [naive_solver|]. intros [[Hk| ->] Hk']; [done|congruence].
      + eapply wp_mono; [by eapply finish_load_ok|]. intros [l1 l2] w2 (F1 & F2). simpl in *. subst l2. rewrite !map_app, !concat_app. simpl.
        rewrite !app_nil_r. split; [done|]. intros x. rewrite elem_of_app, I2, list_elem_of_singleton. split.
        * intros [(k & Hk & Hk')| ->]; [exists k; by rewrite elem_of_app; auto|exists j; split; [set_solver|done]].
        * intros (k & [Hk|Hk%list_elem_of_singleton]%elem_of_app & Hk'); [left; by exists k|right]. subst k. congruence. }
  done.
Qed.

(** The tables after the requests [fin] have finished and [sent] of them were reported. *)
Record after_requests (w : Worker) (fin sent : list string) (w' : Worker) : Prop := {
  ar_counter : job_counter w' = job_counter w;
  ar_jobs : jobs w' = jobs w;
  ar_loads : load_job w' = load_job w;
  ar_sent : forall r, r ∈ sent <-> r ∈ fin /\ store_jobs w !! r = Some ∅;
  ar_stores : forall r, store_jobs w' !! r = if decide (r ∈ sent) then None else store_jobs w !! r;
  ar_waiting : forall r, r ∈ finished_reqs_waiting_for_store w' <->
    r ∈ finished_reqs_waiting_for_store w \/ (r ∈ fin /\ exists s, store_jobs w !! r = Some s /\ s <> ∅)
}.
Lemma requests_reported_ok w fin : NoDup fin ->
  wp (py_map finish_request fin) (fun ys w' => after_requests w fin (concat ys) w') w.
Proof.
  intros Hnd. eapply wp_mono.
  { apply (wp_map _ (fun pre ys w' => after_requests w pre (concat ys) w') fin [] []).
    - split; simpl; try done; set_solver.
    - simpl. intros pre r post ys w1 E [A1 A2 A3 A4 A5 A6].
      assert (r ∉ pre) as Hn. { rewrite E in Hnd. apply NoDup_app in Hnd as (_ & Hd & _). intros Hp. destruct (Hd r Hp). left. }
      assert (r ∉ concat ys) as Hny by (rewrite A4; tauto).
      unfold finish_request, set_store_jobs, set_waiting. wp_step. wp_step. rewrite A5, decide_False by done.
      destruct (store_jobs w !! r) as [s|] eqn:Hs; [destruct (decide (s = ∅)) as [->|Hne]|]; wp_run; rewrite concat_app; simpl; rewrite ?app_nil_r.
      + split; simpl; try done; intros x; rewrite ?elem_of_app, ?list_elem_of_singleton.
        * rewrite A4. naive_solver.
        * destruct (decide (x = r)) as [->|Hx]; [by rewrite lookup_delete_eq, decide_True by set_solver|].
          rewrite lookup_delete_ne, A5 by done. destruct (decide (x ∈ concat ys)), (decide (x ∈ concat ys ++ [r])); set_solver.
        * rewrite A6. naive_solver.
      + split; simpl; try done; intros x; rewrite ?elem_of_app, ?list_elem_of_singleton.
        * rewrite A4. naive_solver.
        * rewrite elem_of_union, elem_of_singleton, A6. naive_solver.
      + split; simpl; try done; intros x; rewrite ?elem_of_app, ?list_elem_of_singleton.
        * rewrite A4. naive_solver.
        * rewrite A6. naive_solver. }
  done.
Qed.
Lemma after_requests_ok w fin sent w' : jobs_ok w -> after_requests w fin sent w' -> jobs_ok w'.
Proof.
  intros [J1 J2 J3 J4] [A1 A2 A3 A4 A5 A6]. split; rewrite ?A1, ?A2, ?A3; try done.
  - intros r j. rewrite J2, A5. case_decide as Hs; [|done]. apply A4 in Hs as [_ Hs]. rewrite Hs. split; [|by intros (? & [=] & _)].
    intros (s & [= <-] & Hj). by apply not_elem_of_empty in Hj.
  - intros r [(s & Hs & Hne)%J4|(_ & s & Hs & Hne)]%A6; exists s; rewrite A5, decide_False; try done; rewrite A4; naive_solver.
Qed.

(** Runs of the worker's side: transfers are submitted and accepted, results are collected. *)
Inductive worker_runs : Worker -> Prop :=
| worker_starts : worker_runs offloading_worker_init
| worker_loads submit r spec w w' : (forall j s, submit j s = true) -> worker_runs w -> load_job w !! r = None ->
    start_load_kv submit [(r, spec)] w = Ret tt w' -> worker_runs w'
| worker_stores submit r spec w w' : (forall j s, submit j s = true) -> worker_runs w ->
    start_store_kv submit [(r, spec)] w = Ret tt w' -> worker_runs w'
| worker_collects results fin w res w' : worker_runs w -> NoDup results.*1 ->
    (forall j ok, (j, ok) ∈ results -> ok = true /\ is_Some (jobs w !! j)) ->
    get_finished results fin w = Ret res w' -> worker_runs w'.

(** [get_finished], from tables that agree. *)
Lemma get_finished_ok w results fin : jobs_ok w -> NoDup results.*1 ->
  (forall j ok, (j, ok) ∈ results -> ok = true /\ is_Some (jobs w !! j)) ->
  wp (get_finished results fin) (fun res w' => jobs_ok w' /\
    exists sent1 w1 sent2, after_jobs w results.*1 sent1 w1 /\ after_requests w1 (elements fin) sent2 w' /\
      res.1 = list_to_set sent1 ∪ list_to_set sent2 /\
      (forall r, r ∈ res.2 <-> exists j, j ∈ results.*1 /\ jobs w !! j = Some (r, false))) w.
Proof.
  intros HW Hnd Hall. unfold get_finished. wp_step. eapply wp_mono; [by apply finish_jobs_ok|]. intros rs w1 (I1 & I2).
  wp_step. eapply wp_mono; [apply requests_reported_ok, NoDup_elements|]. intros ys w2 I3. wp_step.
  pose proof (after_jobs_ok _ _ _ _ HW I1) as HW1. split; [exact (after_requests_ok _ _ _ _ HW1 I3)|].
  exists (concat (map fst rs)), w1, (concat ys). split_and!; try done. intros r. simpl. rewrite elem_of_list_to_set. apply I2.
Qed.
Lemma worker_runs_ok w : worker_runs w -> jobs_ok w.
Proof.
  induction 1 as [|submit r spec w w' Ha _ HW Hr E|submit r spec w w' Ha _ HW E|results fin w res w' _ HW Hnd Hall E].
  - apply jobs_init_ok.
  - unfold start_load_kv in E. simpl in E. apply bind_inv in E as ([] & w1 & E & [= <-]).
    by destruct (wp_outcome _ _ _ _ _ (start_load_ok submit Ha w r spec HW Hr) E).
  - unfold start_store_kv in E. simpl in E. apply bind_inv in E as ([] & w1 & E & [= <-]).
    by destruct (wp_outcome _ _ _ _ _ (start_store_ok submit Ha w r spec HW) E).
  - by destruct (wp_outcome _ _ _ _ _ (get_finished_ok w results fin HW Hnd Hall) E).
Qed.

(** The requests reported in the two loops together. *)
Lemma sent_exactly w ended sent1 w1 (fin : gset string) sent2 w' : jobs_ok w -> after_jobs w ended sent1 w1 -> after_requests w1 (elements fin) sent2 w' ->
  (forall r, r ∈ sent1 \/ r ∈ sent2 <-> is_Some (store_jobs w !! r) /\ (r ∈ finished_reqs_waiting_for_store w \/ r ∈ fin) /\
     forall j, jobs w !! j = Some (r, true) -> j ∈ ended) /\
  (forall r, is_Some (store_jobs w !! r) -> r ∈ finished_reqs_waiting_for_store w \/ r ∈ fin -> ~ (r ∈ sent1 \/ r ∈ sent2) ->
     r ∈ finished_reqs_waiting_for_store w').
Proof.
  intros HW [A0 A1 A2 A3 A4 A5] [B0 B1 B2 B3 B4 B5]. split.
  - intros r. rewrite B3, elem_of_elements, A2. split.
    + intros [Hr|[Hf Hr]].
      * apply A5 in Hr as [Hw Ha]. destruct (jo_waiting _ HW r Hw) as (s & Hs & _). split_and!; [by eexists|by left|done].
      * case_decide as Hns; [done|]. apply fmap_Some in Hr as (s & Hs & He). split_and!; [by eexists|by right|].
        by apply (all_ended w r s ended HW Hs).
    + intros ([s Hs] & [Hw|Hf] & Ha); [left; by apply A5|]. destruct (decide (r ∈ sent1)) as [|Hn]; [by left|right].
      split; [done|]. rewrite Hs. simpl. f_equal. by apply (all_ended w r s ended HW Hs).
  - intros r [s Hs] Hf Hn. apply B5. rewrite A4, elem_of_elements, A2.
    assert (r ∉ sent1) as Hn1 by tauto. rewrite decide_False by done. destruct Hf as [Hw|Hf]; [by left|]. right. split; [done|].
    rewrite Hs. simpl. eexists. split; [done|]. intros He. apply Hn. right. apply B3. rewrite elem_of_elements, A2, decide_False, Hs by done.
    split; [done|]. simpl. by rewrite He.
Qed.

(** C22. A request's transfers are reported when they are done, and once. In every state
    the worker's side reaches, collecting the results of distinct running transfers
    returns. A request is reported as received exactly when its load is among them. It
    is reported as sent exactly when it has stored something, has finished, now or
    before, and none of its stores is still running; it is then forgotten. A finished
    request with stores left waits. *)
Theorem transfers_reported_once w results fin :
  worker_runs w -> NoDup results.*1 ->
  (forall j ok, (j, ok) ∈ results -> ok = true /\ is_Some (jobs w !! j)) ->
  exists sent received w', get_finished results fin w = Ret (sent, received) w' /\
  (forall r, r ∈ received <-> exists j, j ∈ results.*1 /\ jobs w !! j = Some (r, false)) /\
  (forall r, r ∈ sent <-> is_Some (store_jobs w !! r) /\ (r ∈ finished_reqs_waiting_for_store w \/ r ∈ fin) /\
     forall j, jobs w !! j = Some (r, true) -> j ∈ results.*1) /\
  (forall j, jobs w' !! j = if decide (j ∈ results.*1) then None else jobs w !! j) /\
  (forall r, r ∈ sent -> store_jobs w' !! r = None /\ r ∉ finished_reqs_waiting_for_store w') /\
  (forall r, is_Some (store_jobs w !! r) -> r ∈ finished_reqs_waiting_for_store w \/ r ∈ fin -> r ∉ sent ->
     r ∈ finished_reqs_waiting_for_store w').
Proof.
  intros HW%worker_runs_ok Hnd Hall.
  pose proof (get_finished_ok w results fin HW Hnd Hall) as ([sent received] & w' & E & HW' & sent1 & w1 & sent2 & I1 & I2 & Es & Hr)%wp_iff.
  simpl in Es, Hr. exists sent, received, w'. pose proof (sent_exactly _ _ _ _ _ _ _ HW I1 I2) as [Hs Hwait].
  assert (forall r, r ∈ sent <-> r ∈ sent1 \/ r ∈ sent2) as Hin by (intros r; rewrite Es; set_solver). split_and!; try done.
  - intros r. by rewrite Hin, Hs.
  - intros j. rewrite (ar_jobs _ _ _ _ I2). apply (aj_jobs _ _ _ _ I1).
  - intros r [H1|H2]%Hin; split.
    + rewrite (ar_stores _ _ _ _ I2), (aj_stores _ _ _ _ I1). rewrite (decide_True (P := r ∈ sent1)) by done. by case_decide.
    + rewrite (ar_waiting _ _ _ _ I2), (aj_waiting _ _ _ _ I1), (aj_stores _ _ _ _ I1), decide_True by done. naive_solver.
    + by rewrite (ar_stores _ _ _ _ I2), decide_True.
    + apply (ar_sent _ _ _ _ I2) in H2 as [_ H2]. rewrite (ar_waiting _ _ _ _ I2). intros [Hw|(_ & s & Hs' & Hne)]; [|congruence].
      pose proof (after_jobs_ok _ _ _ _ HW I1) as HW1. apply (jo_waiting _ HW1) in Hw as (s & Hs' & Hne). congruence.
  - intros r Hst Hf Hn. apply Hwait; [done|done|]. intros Ha. by apply Hn, Hin.
Qed.
