(* ===== verification/ConnectorSafety.v ===== *)
(** The scheduler's side of the offloading connector: the tokens it offers can be loaded, the
    blocks it stores are the right ones, and the adaptive policy breaks it. *)
From stdpp Require Import gmap gmultiset strings list.
From Stdlib Require Import ZArith Lia SpecFloat.
From S2P Require Import Prelude Request BlockHash KVCacheInv SchedulerKV SchedulerData Offload OffloadProofs OffloadSafety OffloadConnector.
Open Scope Z_scope.

(** ** Hashes of offloaded blocks *)

Lemma strided_lookup {A} (l : list A) skip step k : (1 <= step)%nat -> strided skip step l !! k = l !! (skip + k * step)%nat.
Proof.
  intros Hs. revert skip k. induction l as [|x l IH]; intros skip k; simpl; [done|]. destruct skip as [|skip]; simpl; [|apply IH].
  destruct k as [|k]; simpl; [done|]. rewrite IH. replace (step + k * step)%nat with (S (step - 1 + k * step)) by lia. done.
Qed.

Section sizes.
Context (gpu_block_size : Z) (f : nat) (gpu_pos : 0 < gpu_block_size) (f_pos : (1 <= f)%nat).
Notation size := (gpu_block_size * Z.of_nat f).
Notation hashes_of := (get_block_hashes gpu_block_size size).

Lemma factor_eq : block_size_factor gpu_block_size size = f.
Proof. unfold block_size_factor. rewrite Z.mul_comm, Z.div_mul by lia. lia. Qed.

Lemma hashes_from r s k : hashes_of r s None !! k = block_hashes r !! (f * (s + k) + f - 1)%nat.
Proof.
  unfold get_block_hashes, islice. rewrite factor_eq, strided_lookup by done. f_equal. nia.
Qed.
Lemma hashes_between r s e : (1 <= e)%nat -> hashes_of r s (Some e) = take (e - s) (hashes_of r s None).
Proof.
  intros He. apply list_eq. intros k. destruct e as [|e]; [lia|]. unfold get_block_hashes at 1, islice.
  rewrite factor_eq, strided_lookup by done. destruct (decide (s + k < S e)%nat) as [Hk|Hk].
  - rewrite !lookup_take_lt by nia. rewrite hashes_from. f_equal. nia.
  - rewrite !lookup_take_ge by nia. done.
Qed.
Lemma hashes_nodup r s : NoDup (block_hashes r) -> NoDup (hashes_of r s None).
Proof.
  intros Hnd. apply NoDup_alt. intros i j h Hi Hj. rewrite hashes_from in Hi, Hj. pose proof (NoDup_lookup _ _ _ _ Hnd Hi Hj). nia.
Qed.
Lemma hashes_length r s : (f * (s + length (hashes_of r s None)) <= Nat.max (length (block_hashes r)) (f * s))%nat.
Proof.
  destruct (length (hashes_of r s None)) as [|n] eqn:E; [lia|].
  assert (is_Some (hashes_of r s None !! n)) as [h Hh] by (apply lookup_lt_is_Some; lia).
  rewrite hashes_from in Hh. apply lookup_lt_Some in Hh. nia.
Qed.

(** ** Matching *)

Lemma count_ready_take get hs : count_ready get (take (count_ready get hs) hs) = count_ready get hs.
Proof.
  induction hs as [|h hs IH]; [done|]. simpl. destruct (get h) as [b|] eqn:E; [|done]. destruct (is_ready b) eqn:Er; [|done].
  simpl. by rewrite E, Er, IH.
Qed.
Lemma count_ready_prefix get hs k : count_ready get (take k hs) = k -> (k <= count_ready get hs)%nat.
Proof.
  revert k. induction hs as [|h hs IH]; intros [|k]; simpl; try lia. destruct (get h) as [b|]; [|lia].
  destruct (is_ready b); [|lia]. intros [= E]. specialize (IH k E). lia.
Qed.
Lemma count_ready_next get hs h : hs !! count_ready get hs = Some h -> count_ready get [h] = 0%nat.
Proof.
  induction hs as [|x hs IH]; [done|]. simpl. destruct (get x) as [b|] eqn:E.
  - destruct (is_ready b) eqn:Er; [apply IH|]. simpl. intros [= <-]. by rewrite E, Er.
  - simpl. intros [= <-]. by rewrite E.
Qed.
Lemma location_perm m m' loads stores loads' stores' h : lru_inv m loads stores -> lru_inv m' loads' stores' ->
  lru_blocks m' ≡ₚ lru_blocks m -> location m' h = location m h.
Proof.
  intros HI HI' HP. unfold location. f_equal. apply option_eq. intros b. split; intros Hb%dict_get_elem.
  - rewrite HP in Hb. apply dict_get_in; [apply HI|done].
  - rewrite <-HP in Hb. apply dict_get_in; [apply HI'|done].
Qed.

(** The answer for a request with distinct hashes, one per full block. *)
Lemma matched_tokens_ok r num_computed (c : OffloadingConnectorScheduler LRUOffloadingManager) loads stores :
  lru_reach (manager c) loads stores -> NoDup (block_hashes r) ->
  Z.of_nat (length (block_hashes r)) = num_tokens r / gpu_block_size -> 0 <= num_computed ->
  exists n is_async c', get_num_new_matched_tokens gpu_block_size size r num_computed c = Ret (n, is_async) c' /\
    lru_reach (manager c') loads stores /\
    (forall h, location (manager c') h = location (manager c) h) /\
    (forall last, num_computed + size <= size * Z.of_nat last <= num_tokens r ->
       lru_lookup (hashes_of r (Z.to_nat (num_computed / size)) (Some last)) (manager c')
         = (last - Z.to_nat (num_computed / size))%nat ->
       is_async = true /\ size * Z.of_nat last <= num_computed + n) /\
    if (is_async : bool) then
      size <= n /\ (num_computed + n) mod size = 0 /\ num_computed + n <= num_tokens r /\
      let first := Z.to_nat (num_computed / size) in let last := Z.to_nat ((num_computed + n) / size) in
      let hs := hashes_of r first (Some last) in
      length hs = (last - first)%nat /\ lru_lookup hs (manager c') = length hs /\
      (forall h, block_hashes r !! (f * last + f - 1)%nat = Some h -> lru_lookup [h] (manager c') = 0%nat)
    else n = 0.
Proof.
  intros HR Hnd Hlen Hnc. pose proof (lru_reach_inv _ _ _ HR) as HI.
  assert (Z.of_nat (length (block_hashes r)) / Z.of_nat f = num_tokens r / size) as Hblocks by (rewrite Hlen, Z.div_div by lia; done).
  pose proof (lru_touch_ok _ _ _ _ (hashes_nodup r 0 Hnd) HI) as ([] & m1 & E1 & HI1 & HP & _)%wp_iff.
  pose proof (lru_touches _ _ _ _ _ HR (hashes_nodup r 0 Hnd) E1) as HR1.
  assert (forall h, location m1 h = location (manager c) h) as Hloc by (intros h; by eapply location_perm).
  unfold get_num_new_matched_tokens. rewrite factor_eq, Hblocks, Z.eqb_refl. unfold py_assert, py_bind, py_ret, on_manager, py_zoom, py_get.
  cbn [om_touch lru_manager]. rewrite E1. set (c1 := mkConnector m1 _ _ _ _ _ _). set (first := num_computed / size).
  assert (0 <= first) as Hf0 by (apply Z.div_pos; lia). cbn [om_lookup lru_manager].
  assert (forall last, num_computed + size <= size * Z.of_nat last <= num_tokens r ->
    lru_lookup (hashes_of r (Z.to_nat first) (Some last)) (manager c1) = (last - Z.to_nat first)%nat ->
    Z.of_nat last <= num_tokens r / size /\ first + 1 <= Z.of_nat last <=
      first + Z.of_nat (lru_lookup (hashes_of r (Z.to_nat first) None) (manager c1))) as Hmax.
  { intros last [L1 L2] Hl. split; [apply Z.div_le_lower_bound; nia|].
    assert (first + 1 <= Z.of_nat last) as Hfl.
    { pose proof (Z.mul_div_le num_computed size ltac:(nia)). fold first in H. nia. }
    split; [done|]. rewrite hashes_between in Hl by lia. apply count_ready_prefix in Hl. unfold lru_lookup. lia. }
  destruct (Z.ltb_spec (size * (num_tokens r / size) - num_computed) size).
  { exists 0, false, c1. split_and!; try done. intros last Hb Hl. destruct (Hmax last Hb Hl). nia. }
  destruct (lru_lookup (hashes_of r (Z.to_nat first) None) (manager c1)) as [|k] eqn:Ek.
  { exists 0, false, c1. split_and!; try done. intros last Hb Hl. destruct (Hmax last Hb Hl). lia. }
  destruct (Z.ltb_spec (size * (first + Z.of_nat (S k)) - num_computed) size).
  { exists 0, false, c1. split_and!; try done. intros last Hb Hl. destruct (Hmax last Hb Hl). nia. }
  eexists _, true, c1. split; [done|]. split; [done|]. split; [done|].
  split; [intros last Hb Hl; destruct (Hmax last Hb Hl); split; [done|nia]|].
  replace (num_computed + (size * (first + Z.of_nat (S k)) - num_computed)) with ((first + Z.of_nat (S k)) * size) by lia.
  rewrite Z.mod_mul, Z.div_mul by nia.
  pose proof (count_ready_le (fun h => dict_get h (lru_blocks (manager c1))) (hashes_of r (Z.to_nat first) None)) as Hle.
  unfold lru_lookup in Ek. rewrite Ek in Hle. pose proof (hashes_length r (Z.to_nat first)) as Hhl.
  assert (first + Z.of_nat (S k) <= num_tokens r / size) as Hend.
  { rewrite <-Hblocks. apply Z.div_le_lower_bound; [lia|]. nia. }
  assert ((first + Z.of_nat (S k)) * size <= num_tokens r) as Htok.
  { pose proof (Z.mul_div_le (num_tokens r) size ltac:(nia)). nia. }
  split; [done|]. split; [done|]. split; [done|]. cbv zeta.
  replace (Z.to_nat (first + Z.of_nat (S k))) with (Z.to_nat first + S k)%nat by lia.
  rewrite hashes_between by lia. replace (Z.to_nat first + S k - Z.to_nat first)%nat with (S k) by lia.
  split_and!; [rewrite length_take; lia| |].
  - rewrite length_take, Nat.min_l by lia. unfold lru_lookup. pose proof (count_ready_take (fun h => dict_get h (lru_blocks (manager c1))) (hashes_of r (Z.to_nat first) None)) as Ht.
    by rewrite Ek in Ht.
  - intros h Hh. unfold lru_lookup. eapply count_ready_next. rewrite Ek, hashes_from. exact Hh.
Qed.

(** C21. What the connector offers to load can be loaded, and is all there is. For a
    request whose hashes are those of its full blocks (as the block hasher makes them,
    with a hash function without collisions), the question how many tokens beyond
    [num_computed] are in host memory is answered without an exception, and no block
    moves. A non-zero answer is at least one offloaded block, ends at a block boundary
    within the request, and all the blocks it covers are readable, while the block after
    them, if there is one, is not. And wherever all blocks from the first one that is
    not computed up to some block are readable, and are at least a block more than what
    is computed, the answer reaches that far: it is zero only when nothing of this kind
    can be loaded. *)
Theorem matched_tokens_sound hash_function NONE_HASH r num_computed
    (c : OffloadingConnectorScheduler LRUOffloadingManager) loads stores :
  lru_reach (manager c) loads stores -> hash_ok hash_function NONE_HASH ->
  block_hashes r = ref_hashes hash_function NONE_HASH gpu_block_size r -> 0 <= num_computed ->
  exists n is_async c', get_num_new_matched_tokens gpu_block_size size r num_computed c = Ret (n, is_async) c' /\
    lru_reach (manager c') loads stores /\
    (forall h, location (manager c') h = location (manager c) h) /\
    (forall last, num_computed + size <= size * Z.of_nat last <= num_tokens r ->
       lru_lookup (hashes_of r (Z.to_nat (num_computed / size)) (Some last)) (manager c')
         = (last - Z.to_nat (num_computed / size))%nat ->
       is_async = true /\ size * Z.of_nat last <= num_computed + n) /\
    if (is_async : bool) then
      size <= n /\ (num_computed + n) mod size = 0 /\ num_computed + n <= num_tokens r /\
      let first := Z.to_nat (num_computed / size) in let last := Z.to_nat ((num_computed + n) / size) in
      let hs := hashes_of r first (Some last) in
      length hs = (last - first)%nat /\ lru_lookup hs (manager c') = length hs /\
      (forall h, block_hashes r !! (f * last + f - 1)%nat = Some h -> lru_lookup [h] (manager c') = 0%nat)
    else n = 0.
Proof.
  intros HR HH Hr Hnc. destruct (ref_hashes_current _ _ _ _ HH gpu_pos Hr) as [Hcur Hnd].
  by apply (matched_tokens_ok r num_computed c loads stores).
Qed.

(** ** Storing *)

(** The hashes that satisfy [p], with their block numbers, from block [idx] on. *)
Fixpoint chosen_from (p : BlockHash -> bool) (idx : nat) (hs : list BlockHash) : list (nat * BlockHash) :=
  match hs with
  | [] => []
  | h :: hs' => if p h then (idx, h) :: chosen_from p (S idx) hs' else chosen_from p (S idx) hs'
  end.
(** The GPU blocks of offloaded block [j]. *)
Definition gpu_blocks (block_ids : list Z) (j : nat) : list Z := take f (drop (j * f) block_ids).

Lemma chosen_hashes p idx hs : (chosen_from p idx hs).*2 = List.filter p hs.
Proof. revert idx. induction hs as [|h hs IH]; intros idx; simpl; [done|]. destruct (p h); simpl; by rewrite IH. Qed.
Lemma chosen_numbers p idx hs j h : (j, h) ∈ chosen_from p idx hs -> (idx <= j)%nat /\ hs !! (j - idx)%nat = Some h /\ p h = true.
Proof.
  revert idx. induction hs as [|x hs IH]; intros idx; simpl; [by intros ?%not_elem_of_nil|]. intros Hin.
  assert ((j, h) = (idx, x) /\ p x = true \/ (j, h) ∈ chosen_from p (S idx) hs) as [[[= -> ->] Hp]|Hin'].
  { destruct (p x); [apply elem_of_cons in Hin as [|]; auto|auto]. }
  - split_and!; [lia|by rewrite Nat.sub_diag|done].
  - apply IH in Hin' as (? & Hh & ?). split_and!; [lia| |done]. replace (j - idx)%nat with (S (j - S idx)) by lia. done.
Qed.
Lemma gpu_blocks_read block_ids j : ((j + 1) * f <= length block_ids)%nat ->
  mapM (fun k => block_ids !! (j * f + k)%nat) (seq 0 f) = Some (gpu_blocks block_ids j).
Proof.
  intros Hl. apply mapM_Some. apply Forall2_same_length_lookup. unfold gpu_blocks. split.
  { rewrite length_seq, length_take, length_drop. nia. }
  intros k x y Hk Hy. apply lookup_seq in Hk as [-> Hk]. rewrite lookup_take_lt, lookup_drop in Hy by done. done.
Qed.
Lemma source_blocks_eq block_ids chosen p idx hs : (forall h, h ∈ hs -> p h = bool_decide (h ∈ chosen)) ->
  ((idx + length hs) * f <= length block_ids)%nat ->
  source_blocks gpu_block_size size block_ids chosen idx hs = inr (concat (map (fun e => gpu_blocks block_ids e.1) (chosen_from p idx hs))).
Proof.
  revert idx. induction hs as [|h hs IH]; intros idx Hp Hl; simpl; [done|]. simpl in Hl. rewrite factor_eq.
  rewrite IH by (try (intros x Hx; apply Hp; by right); lia). rewrite (Hp h) by left. case_decide as Hc.
  - rewrite gpu_blocks_read by nia. by rewrite bool_decide_true.
  - by rewrite bool_decide_false.
Qed.
Lemma gpu_blocks_length block_ids j : ((j + 1) * f <= length block_ids)%nat -> length (gpu_blocks block_ids j) = f.
Proof. intros Hl. unfold gpu_blocks. rewrite length_take, length_drop. nia. Qed.
Lemma chunks_lookup block_ids (js : list nat) k j x : (forall j, j ∈ js -> ((j + 1) * f <= length block_ids)%nat) ->
  js !! k = Some j -> (x < f)%nat -> concat (map (gpu_blocks block_ids) js) !! (k * f + x)%nat = block_ids !! (j * f + x)%nat.
Proof.
  revert k. induction js as [|i js IH]; intros k Hjs Hk Hx; [done|]. simpl. pose proof (gpu_blocks_length block_ids i (Hjs i ltac:(left))) as Hl.
  destruct k as [|k]; simpl in *.
  - injection Hk as ->. rewrite lookup_app_l by lia. unfold gpu_blocks. by rewrite lookup_take_lt, lookup_drop.
  - rewrite lookup_app_r by lia. rewrite Hl. replace (f + k * f + x - f)%nat with (k * f + x)%nat by lia.
    apply IH; [|done|done]. intros y Hy. apply Hjs. by right.
Qed.
Lemma chunks_length block_ids (js : list nat) : (forall j, j ∈ js -> ((j + 1) * f <= length block_ids)%nat) ->
  length (concat (map (gpu_blocks block_ids) js)) = (length js * f)%nat.
Proof.
  induction js as [|i js IH]; intros Hjs; simpl; [done|]. rewrite length_app, gpu_blocks_length by (apply Hjs; left).
  rewrite IH; [done|]. intros j Hj. apply Hjs. by right.
Qed.

Notation Conn := (OffloadingConnectorScheduler LRUOffloadingManager).

Lemma extend_blocks_ok {M} (c : OffloadingConnectorScheduler M) i groups (preempted : bool) old : request_block_ids c !! i = Some old ->
  wp (extend_blocks i groups preempted) (fun _ c' =>
    request_block_ids c' !! i = Some ((if preempted then [] else old) ++ match groups with Some (g :: _) => g | _ => [] end) /\
    manager c' = manager c /\ conn_requests c' = conn_requests c /\ next_stored_block_idx c' = next_stored_block_idx c /\
    reqs_being_stored c' = reqs_being_stored c) c.
Proof.
  intros Hold. unfold extend_blocks. wp_step. destruct preempted; wp_step.
  - destruct groups as [[|g gs]|]; [wp_step; simpl; by rewrite lookup_insert_eq| |wp_step; simpl; by rewrite lookup_insert_eq].
    wp_step. wp_step. wp_step. apply (wp_unwrap _ _ []); [simpl; by rewrite lookup_insert_eq|]. wp_step. simpl. by rewrite lookup_insert_eq.
  - destruct groups as [[|g gs]|]; [by wp_step; rewrite app_nil_r| |by wp_step; rewrite app_nil_r].
    wp_run. by rewrite lookup_insert_eq.
Qed.

Lemma missing_chosen m hs h : h ∈ hs -> bool_decide (dict_get h (lru_blocks m) = None) = bool_decide (h ∈ missing m hs).
Proof. intros Hh. apply bool_decide_ext. rewrite missing_in, dict_get_none. tauto. Qed.

(** What one request stores. *)
Definition stores_exactly (r : Request) (ids : list Z) (first last : Z) (m m' : LRUOffloadingManager) (pending : gset BlockHash)
    (src dst : list Z) : Prop :=
  exists js : list nat, length js = length dst /\ length src = (length dst * f)%nat /\
  forall k j, js !! k = Some j -> first <= Z.of_nat j < last /\
    exists h, block_hashes r !! (f * j + f - 1)%nat = Some h /\ location m h = None /\ location m' h = dst !! k /\ h ∈ pending /\
      forall x, (x < f)%nat -> src !! (k * f + x)%nat = ids !! (j * f + x)%nat.

Lemma stored_exactly r ids first last m m' pending dst :
  let hs := hashes_of r (Z.to_nat first) (Some (Z.to_nat last)) in
  let chosen := chosen_from (fun h => bool_decide (dict_get h (lru_blocks m) = None)) (Z.to_nat first) hs in
  0 <= first < last -> (Z.to_nat last * f <= length ids)%nat ->
  map (location m') (missing m hs) = map Some dst -> (forall h, h ∈ missing m hs -> h ∈ pending) ->
  stores_exactly r ids first last m m' pending (concat (map (fun e => gpu_blocks ids e.1) chosen)) dst.
Proof.
  intros hs chosen Hfl Hlen Hdst Hpend.
  assert (chosen.*2 = missing m hs) as Ec by apply chosen_hashes.
  assert (forall j h, (j, h) ∈ chosen -> first <= Z.of_nat j < last /\ block_hashes r !! (f * j + f - 1)%nat = Some h) as Hj.
  { intros j h (Hj & Hh & _)%chosen_numbers. unfold hs in Hh. rewrite hashes_between in Hh by lia.
    apply lookup_take_Some in Hh as [Hh Hlt]. rewrite hashes_from in Hh. split; [lia|].
    by replace (Z.to_nat first + (j - Z.to_nat first))%nat with j in Hh by lia. }
  assert (forall j, j ∈ chosen.*1 -> ((j + 1) * f <= length ids)%nat) as Hroom.
  { intros j ([j' h] & -> & Hin)%list_elem_of_fmap. destruct (Hj j' h Hin) as [? _]. simpl. nia. }
  assert (length chosen = length dst) as El.
  { apply (f_equal length) in Hdst, Ec. rewrite length_fmap in Ec. rewrite !length_map in Hdst. congruence. }
  rewrite <-(map_map fst (gpu_blocks ids)). exists chosen.*1. split_and!; [by rewrite length_fmap| |].
  - rewrite chunks_length by done. by rewrite length_fmap, El.
  - intros k j Hk. rewrite list_lookup_fmap in Hk. destruct (chosen !! k) as [[j' h]|] eqn:Ek; [|done]. injection Hk as ->.
    pose proof (list_elem_of_lookup_2 _ _ _ Ek) as Hin. destruct (Hj j h Hin) as [Hr Hh]. split; [done|]. exists h.
    assert (missing m hs !! k = Some h) as Hm by (by rewrite <-Ec, list_lookup_fmap, Ek).
    split_and!; [done| | |by eapply Hpend, list_elem_of_lookup_2|].
    + apply list_elem_of_lookup_2, missing_in in Hm as [_ Hm]. unfold location. by rewrite (proj2 (dict_get_none _ _) Hm).
    + apply (f_equal (.!! k)) in Hdst. rewrite !list_lookup_fmap, Hm in Hdst. simpl in Hdst. destruct (dst !! k); simpl in Hdst; congruence.
    + intros x Hx. eapply chunks_lookup; [done| |done]. by rewrite list_lookup_fmap, Ek.
Qed.

(** C20. The connector copies the right blocks. When a pass has given request [i] its
    blocks, the store of what it has completed returns. If blocks are copied, each of
    them is a block of the request that was not in host memory and that its hash names;
    it is written to the place the manager keeps for that hash, from the GPU blocks that
    hold its tokens, and its hash is recorded until the transfer is done. *)
Theorem store_copies_right_blocks heap out i groups preempted (c : Conn) loads stores old o n :
  let r := heap o in
  let ids := (if (preempted : bool) then [] else old) ++ match groups with Some (g :: _) => g | _ => [] end in
  let first := default 0 (next_stored_block_idx c !! i) in
  let last := (num_computed_tokens r + n) / size in
  lru_reach (manager c) loads stores -> request_block_ids c !! i = Some old -> conn_requests c !! i = Some o ->
  dict_get i (so_num_scheduled_tokens out) = Some n -> NoDup (block_hashes r) -> 0 <= first ->
  (Z.to_nat last * f <= length ids)%nat ->
  exists res c', store_request gpu_block_size size heap out (i, groups, preempted) c = Ret res c' /\
    request_block_ids c' !! i = Some ids /\ (exists stores', lru_reach (manager c') loads stores') /\
    (res = [] \/ exists src dst pending, res = [(i, (src, dst))] /\ next_stored_block_idx c' !! i = Some last /\
       reqs_being_stored c' !! i = Some pending /\ stores_exactly r ids first last (manager c) (manager c') pending src dst).
Proof.
  intros r ids first last HR Hold Ho Hn Hnd Hf0 Hlen. apply wp_iff.
  unfold store_request. wp_step. eapply wp_mono; [by apply extend_blocks_ok|]. intros [] c1 (I1 & I2 & I3 & I4 & I5).
  wp_step. wp_step. wp_step. eapply wp_unwrap; [exact I1|]. wp_step. rewrite I3. wp_step. wp_step. wp_step. rewrite I4.
  fold r first. change ((num_computed_tokens r + n) / size) with last.
  destruct (Z.leb_spec (last - first) 0) as [|Hlt]; [wp_step; rewrite I2; eauto|].
  set (hs := hashes_of r (Z.to_nat first) (Some (Z.to_nat last))).
  assert (forall a b, (1 <= b)%nat -> NoDup (hashes_of r a (Some b))) as Hhs.
  { intros a b Hb. rewrite hashes_between by done. eapply sublist_NoDup; [by apply hashes_nodup|apply sublist_take]. }
  assert (NoDup hs) as Hhnd by (apply Hhs; lia). rewrite <-I2 in HR. pose proof (lru_reach_inv _ _ _ HR) as HI.
  pose proof (lru_prepare_store_ok (manager c1) loads stores hs HI Hhnd) as (res & m1 & E1 & HP)%wp_iff.
  wp_step. unfold on_manager at 1. apply wp_zoom. cbn [om_prepare_store lru_manager]. apply wp_iff. exists res, m1. split; [done|].
  destruct res as [so|]; [|destruct HP as [_ ->]; wp_step; eauto].
  pose proof (lru_begins_store _ _ _ _ _ _ HR Hhnd E1) as HR1. destruct HP as (_ & P2 & _ & P4 & (new & P5 & P6 & P7) & _).
  wp_step. wp_step. destruct (block_hashes_to_store so) as [|h0 hrest] eqn:Ets; [wp_step; simpl; eauto|]. rewrite <-Ets, P2 in *. clear Ets h0 hrest.
  pose proof (Hhs 0%nat (Z.to_nat last) ltac:(lia)) as Hall.
  pose proof (lru_touch_ok m1 _ _ _ Hall P4) as ([] & m2 & E2 & HI2 & HPm & _)%wp_iff.
  wp_step. unfold on_manager at 1. apply wp_zoom. cbn [om_touch lru_manager]. apply wp_iff. exists tt, m2. split; [exact E2|].
  rewrite (source_blocks_eq ids (missing (manager c1) hs) (fun h => bool_decide (dict_get h (lru_blocks (manager c1)) = None)));
    [|intros h; apply missing_chosen|].
  2:{ unfold hs. rewrite hashes_between, length_take by lia. nia. }
  wp_step. apply wp_ret. wp_step. wp_step. wp_step. simpl. split_and!; [done|by eexists; eapply lru_touches|]. right.
  eexists _, _, _. split_and!; [done|by rewrite lookup_insert_eq|unfold add_hashes; by rewrite lookup_insert_eq|]. rewrite <-I2.
  apply stored_exactly; [lia|done| |intros h Hh; apply elem_of_union; right; by apply elem_of_list_to_set].
  rewrite <-P7. etrans; [|apply (locations_new m1 _ new (li_keys _ _ _ P4) P5)]. rewrite P6. apply map_ext. intros h. by eapply location_perm.
Qed.

(** C40. Under the adaptive policy every store of a request ends in an exception.
    Whenever a request has completed blocks and the manager has chosen some of them to
    be written, the connector goes on to touch the hashes of the request, among them
    those just chosen; [touch] pops such an entry and then moves it, and the pass ends
    with KeyError. *)
Theorem arc_connector_fails heap out i groups preempted (c : OffloadingConnectorScheduler ARCOffloadingManager) old o n so m1 :
  let r := heap o in
  let first := default 0 (next_stored_block_idx c !! i) in
  let last := (num_computed_tokens r + n) / size in
  request_block_ids c !! i = Some old -> conn_requests c !! i = Some o ->
  dict_get i (so_num_scheduled_tokens out) = Some n -> 0 <= first < last ->
  arc_prepare_store (hashes_of r (Z.to_nat first) (Some (Z.to_nat last))) (manager c) = Ret (Some so) m1 ->
  block_hashes_to_store so <> [] ->
  exists c', store_request gpu_block_size size heap out (i, groups, preempted) c = Raise KeyError c'.
Proof.
  intros r first last Hold Ho Hn Hfl E1 Hne.
  pose proof (extend_blocks_ok c i groups preempted old Hold) as ([] & c1 & E0 & I1 & I2 & I3 & I4 & I5)%wp_iff.
  destruct (block_hashes_to_store so) as [|h0 hrest] eqn:Ets; [done|].
  assert (exists h, h ∈ hashes_of r 0 (Some (Z.to_nat last)) /\ h ∈ block_hashes_to_store so) as Hh.
  { exists h0. rewrite Ets. split; [|left]. assert (h0 ∈ block_hashes_to_store so) as Hin by (rewrite Ets; left).
    apply (arc_stores_asked _ _ _ _ _ E1) in Hin. rewrite hashes_between in Hin |- * by lia.
    apply elem_of_take in Hin as (k & Hk & Hlt). rewrite hashes_from in Hk. apply elem_of_take.
    exists (Z.to_nat first + k)%nat. rewrite hashes_from. split; [done|lia]. }
  destruct (arc_store_then_touch_fails _ _ _ _ _ E1 Hh) as (m2 & _ & E2 & _).
  unfold store_request, py_bind at 1. rewrite E0. unfold py_bind at 1, py_get at 1. rewrite I1. unfold py_bind at 1, py_unwrap at 1, py_ret at 1.
  rewrite I3, Ho. unfold py_bind at 1, py_unwrap at 1, py_ret at 1. rewrite Hn. unfold py_bind at 1, py_unwrap at 1, py_ret at 1.
  rewrite I4. fold r first. change ((num_computed_tokens r + n) / size) with last.
  destruct (Z.leb_spec (last - first) 0) as [|_]; [lia|]. unfold py_bind at 1, on_manager at 1, py_zoom at 1.
  cbn [om_prepare_store arc_manager]. rewrite I2, E1, Ets. unfold py_bind at 1, py_modify at 1.
  unfold py_bind at 1, on_manager at 1, py_zoom at 1. cbn [om_touch arc_manager manager set_next_stored]. rewrite E2. by eexists.
Qed.
End sizes.
