(* ===== verification/OffloadDemo.v ===== *)
(** A connector with three blocks of host memory, each as large as two GPU blocks of two tokens:
    a request of nine tokens is stored, found again and loaded. The properties of the managers
    and of the connector are applied to this run. *)
From stdpp Require Import gmap gmultiset strings list.
From Stdlib Require Import ZArith Lia SpecFloat.
From S2P Require Import Prelude Request BlockHash SchedulerKV SchedulerData Offload OffloadProofs OffloadSafety OffloadConnector ConnectorProofs ConnectorSafety.
Open Scope Z_scope.

Definition final {S A} (o : outcome S A) : S := match o with Ret _ s => s | Raise _ s => s end.
Definition result {S A} (d : A) (o : outcome S A) : A := match o with Ret a _ => a | Raise _ _ => d end.

(** The request has the hashes of its four full GPU blocks; an offloaded block has the hash of
    its second one. *)
Definition demo_tokens : list Z := [1; 2; 3; 4; 5; 6; 7; 8; 9].
Definition unhashed_request : Request :=
  mkRequest (mkArgs "a" 1 0 0 0 (Some demo_tokens) None None (Some (mkPooling None None false)) None [] None None)
    1 9 false None RUNNING [] None [] demo_tokens 0 false [] 0 (-1) 0 0 0 [].
(** A hash function without collisions: it writes its argument down. *)
Definition plain_hash (x : bytes * list Z * option (list extra_key)) : bytes :=
  let '(parent, toks, keys) := x in
  Z.of_nat (length parent) :: Z.pos (encode keys) :: parent ++ toks.
Lemma plain_hash_ok : hash_ok plain_hash [].
Proof.
  split; [|by intros [[? ?] ?]..]. intros [[p1 t1] k1] [[p2 t2] k2] [= L K%(inj encode) E].
  apply app_inj_1 in E as [-> ->]; [by subst|lia].
Qed.
Definition offloaded_request : Request := set_block_hashes (ref_hashes plain_hash [] 2 unhashed_request) unhashed_request.

Definition host : LRUOffloadingManager := lru_init (backend_init 4 3) true.
Definition h1 : BlockHash := default [] (block_hashes offloaded_request !! 1%nat).
Definition h2 : BlockHash := default [] (block_hashes offloaded_request !! 3%nat).
Definition nothing_stored : PrepareStoreOutput := mkStoreOutput [] [] [].
Definition host_writing : LRUOffloadingManager := final (lru_prepare_store [h1; h2] host).
Definition host_out : PrepareStoreOutput := default nothing_stored (result None (lru_prepare_store [h1; h2] host)).
Definition host_ready : LRUOffloadingManager := final (lru_complete_store (block_hashes_to_store host_out) true host_writing).
Definition host_stores : gset BlockHash := (∅ ∪ list_to_set (block_hashes_to_store host_out)) ∖ list_to_set (block_hashes_to_store host_out).

Lemma host_nodup : NoDup [h1; h2].
Proof. by apply (bool_decide_unpack _). Qed.
Lemma host_reach : lru_reach host ∅ ∅.
Proof. apply lru_starts. lia. Qed.
Lemma host_writes : lru_prepare_store [h1; h2] host = Ret (Some host_out) host_writing.
Proof. by vm_compute. Qed.
Lemma host_ready_reach : lru_reach host_ready ∅ host_stores.
Proof.
  apply (lru_ends_store host_writing ∅ _ (block_hashes_to_store host_out) true).
  - eapply lru_begins_store; [apply host_reach|apply host_nodup|apply host_writes].
  - by apply (bool_decide_unpack _).
  - set_solver.
  - by vm_compute.
Qed.

(** Both blocks can be loaded, from the places 0 and 1. *)
Lemma offloaded_memory_safe_witness :
  lru_lookup [h1; h2] host_ready = 2%nat /\
  exists spec m', lru_prepare_load [h1; h2] host_ready = Ret spec m' /\ map Some spec = [Some 0; Some 1].
Proof.
  split; [by vm_compute|].
  destruct (offloaded_memory_safe host_ready ∅ host_stores host_ready_reach) as (_ & _ & _ & _ & _ & _ & _ & Hload & _).
  destruct (Hload [h1; h2]) as (spec & m' & E & Hs).
  - by vm_compute.
  - intros h. rewrite multiplicity_disj_union, multiplicity_empty. pose proof (multiplicity_nodup h _ host_nodup). lia.
  - exists spec, m'. split; [exact E|]. rewrite Hs. by vm_compute.
Defined.

(** One block is free: the store of two new ones evicts the older one. *)
Lemma lru_store_contract_witness :
  exists out m', lru_prepare_store [[21]; [22]] host_ready = Ret (Some out) m' /\
    block_hashes_evicted out = [h1] /\ location m' h2 = Some 1 /\ location m' h1 = None.
Proof.
  destruct (lru_store_contract host_ready ∅ host_stores [[21]; [22]] host_ready_reach) as (r & m' & E & HP).
  - by apply (bool_decide_unpack _).
  - destruct r as [out|]; [|exfalso; destruct HP as [HP _]; vm_compute in HP; lia].
    destruct HP as (_ & _ & Hev & _ & H1 & H2 & _). assert (block_hashes_evicted out = [h1]) as Ev by (rewrite Hev; by vm_compute).
    exists out, m'. split_and!; [exact E|exact Ev| |].
    + apply H2; [rewrite Ev; by apply (bool_decide_unpack _)|by vm_compute].
    + apply H1. rewrite Ev. left.
Defined.

Lemma offload_roundtrip_witness :
  exists m3, lru_prepare_load [h1; h2] host_ready = Ret [0; 1] m3.
Proof.
  apply (offload_roundtrip host ∅ ∅ [h1; h2] host_out host_writing host_ready host_reach host_nodup host_writes).
  by vm_compute.
Defined.

(** ** The connector *)

Lemma offloaded_hashes : NoDup (block_hashes offloaded_request).
Proof. by apply (bool_decide_unpack _). Qed.

(** Eight of the nine tokens are in host memory. *)
Lemma matched_tokens_sound_witness :
  exists c', get_num_new_matched_tokens 2 4 offloaded_request 0 (connector_init host_ready) = Ret (8, true) c' /\
    lru_lookup [h1; h2] (manager c') = 2%nat.
Proof.
  destruct (matched_tokens_sound 2 2 ltac:(lia) ltac:(lia) plain_hash [] offloaded_request 0 (connector_init host_ready) ∅ host_stores
    host_ready_reach plain_hash_ok ltac:(by vm_compute) ltac:(lia)) as (n & a & c' & E & _ & _ & _ & HP).
  assert (n = 8 /\ a = true) as [-> ->] by (vm_compute in E; by injection E as <- <- _).
  exists c'. split; [exact E|]. destruct HP as (_ & _ & _ & _ & Hl & _). exact Hl.
Defined.

Definition pass_of_nine : SchedulerOutput :=
  mkSchedulerOutput [] (mkCachedRequestData [] ∅ [] [] [] [] []) [("a"%string, 9)] 9 ∅ ∅ [] ∅ ∅ [] false.
Definition known_request {M} (m : M) : OffloadingConnectorScheduler M :=
  mkConnector m {["a"%string := 1]} {["a"%string := []]} [] ∅ ∅ ∅.

(** Four GPU blocks are copied to two host blocks. *)
Lemma store_copies_right_blocks_witness :
  exists res c', store_request 2 4 (fun _ => offloaded_request) pass_of_nine ("a"%string, Some [[100; 101; 102; 103; 104]], false)
      (known_request host) = Ret res c' /\ res = [("a"%string, ([100; 101; 102; 103], [0; 1]))] /\
    exists src dst pending, res = [("a"%string, (src, dst))] /\
      stores_exactly 2 offloaded_request [100; 101; 102; 103; 104] 0 2 host (manager c') pending src dst.
Proof.
  destruct (store_copies_right_blocks 2 2 ltac:(lia) ltac:(lia) (fun _ => offloaded_request) pass_of_nine "a" (Some [[100; 101; 102; 103; 104]])
    false (known_request host) ∅ ∅ [] 1 9 host_reach ltac:(by vm_compute) ltac:(by vm_compute) ltac:(by vm_compute) offloaded_hashes
    ltac:(by vm_compute) ltac:(vm_compute; lia)) as (res & c' & E & _ & _ & HP).
  assert (res = [("a"%string, ([100; 101; 102; 103], [0; 1]))]) as -> by (vm_compute in E; by injection E as <- _).
  exists [("a"%string, ([100; 101; 102; 103], [0; 1]))], c'. split; [exact E|]. split; [done|].
  destruct HP as [[=]|(src & dst & pending & Er & _ & _ & Hst)]. exists src, dst, pending. split; [exact Er|exact Hst].
Defined.

Definition arc_host : ARCOffloadingManager := arc_init (backend_init 4 3) false.
Lemma arc_connector_fails_witness :
  exists c', store_request 2 4 (fun _ => offloaded_request) pass_of_nine ("a"%string, Some [[100; 101; 102; 103; 104]], false)
      (known_request arc_host) = Raise KeyError c'.
Proof.
  eapply (arc_connector_fails 2 2 ltac:(lia) ltac:(lia) (fun _ => offloaded_request) pass_of_nine "a" (Some [[100; 101; 102; 103; 104]])
    false (known_request arc_host) [] 1 9).
  - by vm_compute.
  - by vm_compute.
  - by vm_compute.
  - vm_compute. by split.
  - by vm_compute.
  - by vm_compute.
Defined.

(** ** The worker *)

Definition accept_all (j : Z) (s : TransferSpec) : bool := true.
Definition storing : Worker := final (start_store_kv accept_all [("a"%string, ([100; 101; 102; 103], [0; 1]))] offloading_worker_init).
Lemma storing_runs : worker_runs storing.
Proof.
  apply (worker_stores accept_all "a" ([100; 101; 102; 103], [0; 1]) offloading_worker_init); [done|apply worker_starts|by vm_compute].
Qed.
(** The request finishes in the step in which its store ends: it is reported. *)
Lemma transfers_reported_once_witness :
  exists sent received w', get_finished [(0, true)] {["a"%string]} storing = Ret (sent, received) w' /\ "a"%string ∈ sent.
Proof.
  destruct (transfers_reported_once storing [(0, true)] {["a"%string]} storing_runs) as (sent & received & w' & E & _ & Hs & _).
  - by apply (bool_decide_unpack _).
  - intros j ok [= -> ->]%list_elem_of_singleton. split; [done|]. vm_compute. by eexists.
  - exists sent, received, w'. split; [exact E|]. apply Hs. split_and!.
    + vm_compute. by eexists.
    + right. by apply (bool_decide_unpack _).
    + intros j Hj. simpl. destruct (decide (j = 0)) as [->|Hne]; [left|]. exfalso. unfold storing in Hj. vm_compute in Hj.
      destruct j; [done|by destruct p|done].
Defined.
